(* ===== verification/_CoqProject ===== *)
-Q . S2P
Prelude.v
Action.v
Buffer.v
Modulo.v
Types.v
Codec.v
Layout.v
Indexed.v
NspPackets.v
Float.v
Json.v
JsonRoundtrip.v
NiceValue.v
NiceParams.v
NicePackets.v
NiceLaws.v
NiceMessages.v
Connection.v
SessionPackets.v
Session.v
SessionLaws.v
Nml.v
NmlLaws.v
ConnLaws.v
ConnSend.v
ConnReceive.v
ConnTransmit.v
ConnWindow.v
ConnFlow.v
ConnOther.v
Nsp.v
NspTables.v
NspLinks.v
SessionNode.v
RoutingPackets.v
RouteTable.v
L1Router.v
RouterTables.v
Forwarding.v
RouterUpdates.v
Crc.v
DdcmpPackets.v
DdcmpFraming.v
Ddcmp.v
DdcmpDelivery.v
DdcmpSystem.v
PtpDatalink.v
PtpRetry.v
Multinet.v
Config.v
ConfigLaws.v
Node.v
NodeLaws.v
NodeFetch.v
NameLearner.v
EventTables.v
Events.v
EventLaws.v
Logger.v
LoggerLaws.v
Adjacency.v
Timers.v
Ptp.v
PtpNeighbour.v
PtpLog.v
PtpSystem.v
Bc.v
Lan.v
LanBook.v
LanElection.v
LanHello.v
LanFaults.v
LanSystem.v
LanSettles.v
Endnode.v
Tlv.v
MopPackets.v
NiceReads.v
