(* ===== verification/Prelude.v ===== *)
(** * A model of cppdecnet, a DECnet Phase IV node in C++

    The program is a set of layers.  Datalinks carry frames; the routing
    layer ([src/routing/]) keeps adjacencies and routing tables and forwards
    packets; NSP ([src/nsp/]) runs logical links over it; session control
    gives links to applications.  Every protocol layer describes its packets
    with the codecs of [include/decnet/packet/].  This development models the
    layers bottom up, one file or group of files each; a definition has the
    name of the C++ function it translates wherever Rocq allows it.

    ** Files

    - [Prelude] (this file): errors as values, machine integers, byte lists.
    - [Buffer], [Codec], [Layout], [Indexed]: [packet/buffer.h], [field.h],
      [group.h], [packet.h], [indexed.h].  A codec is a pair of functions; a
      class states that decoding what was encoded gives it back, and its
      instances compose along a layout.  [Tlv] has the tagged items of
      [group.h].
    - [Action]: the monad of members that change a record and may throw.
    - [Modulo], [Types], [Float]: sequence numbers, node and LAN addresses,
      and IEEE doubles (a [double] is [spec_float] at binary64).
    - [NspPackets]: [nsp/packets.h] and [packets.cc].
    - [Connection]: [class Connection] of [nsp/nsp.cc], a state and error
      monad over one record per member; what a connection does to the outside
      is its log.  Session control is the class [SessionControl], which
      answers a notification with calls of the connection's API.
      [ConnLaws] has the framing laws of the monad; [ConnSend], [ConnReceive],
      [ConnTransmit] the two directions of the data subchannel and their
      composition; [ConnWindow] the invariant of the transmit queue over
      every reachable state; [ConnFlow] flow control, acknowledgement and
      retransmission; [ConnOther] the other-data subchannel and closing.
    - [Nsp]: [class NSP], with [NspTables] and [NspLinks] for the tables of
      links over any session.
    - [RoutingPackets]: [routing/packets.h], [packets.cc],
      [routing_messages.cc].
    - [RouteTable], [L1Router], [RouterTables]: [routing/l1router.cc], the
      choice of routes, the two routers, and the tables over any sequence of
      events.  [Forwarding] has the forwarding of a packet by one router and
      hop by hop through a network, [RouterUpdates] the updates a router
      sends and what a neighbour's table holds once it has processed them.
    - [Crc], [DdcmpPackets], [DdcmpFraming], [Ddcmp]: [common/crc.h], the
      DDCMP messages, the framing of a byte stream (hunt, resynchronisation,
      the telnet escape) and the protocol engine of
      [datalink/ddcmp.h]/[.cc].  [DdcmpDelivery] has what one end does with a
      message; [DdcmpSystem] is two engines and the line between them.
    - [Timers]: the timer wheel of [common/timers.h], refined to a clock with
      a deadline per timer.
    - [Adjacency], [Ptp]: [routing/adjacency.cc] and [routing/ptp.cc], a point
      to point circuit and its adjacency; [PtpNeighbour] and [PtpLog] have its
      invariants over every sequence of events, [PtpSystem] two circuits on
      one line.
    - [Lan]: [routing/lan.cc], the circuit of an endnode or a router on an
      Ethernet, with [LanBook], [LanElection], [LanHello] and [LanFaults] for
      its adjacencies, the election of the designated router, its hellos and
      what goes wrong; [LanSystem] and [LanSettles] are several routers on one
      wire.  [Bc] is the broadcast datalink, [datalink/bc.cc] and the framing
      of [ethernet.cc].
    - [Endnode]: [routing/routing.cc], the base router and the endnode, over
      [Lan] and [Ptp].
    - [PtpDatalink], [PtpRetry]: [datalink/ptp.cc], the state machine of a
      point to point datalink with its receive thread as interleaved steps,
      and the connected and running states of Multinet; what a concrete one
      does beyond that is the class [Concrete].  [Multinet]:
      [datalink/multinet.cc], the byte stream over TCP and the datagrams.
      What DDCMP overrides of that state machine is not modelled.
    - [SessionPackets], [Session], [SessionLaws]: [session/packets.cc] and
      [session.cc], with applications as the class [Application];
      [SessionNode] is the instance of [Connection]'s [SessionControl] that
      puts session control and NSP together.
    - [NiceValue], [NiceParams], [NicePackets], [Nml]: [nice/value.cc],
      [params.cc], [entity.cc] and [packets.cc], [nml.cc] and [replydict.cc],
      with [NiceLaws], [NiceMessages] and [NmlLaws] for their theorems.
      [NiceReads] is what the layers add to a read, [nsp/nice.cc],
      [datalink/nice.cc], [routing/nice.cc] and [mop/nice.cc], and what every
      request is answered with.
    - [MopPackets]: [mop/packets.h] and [packets.cc].
    - [Json], [JsonRoundtrip]: [common/json.cc].
    - [Config], [ConfigLaws]: [common/config.cc] and [config.h].
    - [Node], [NodeLaws]: the database of nodes and the circuits on demand of
      [common/node.cc]; [NodeFetch]: [common/nodefetch.cc], the fetched lists
      and their cache, which the configuration reads; [NameLearner]:
      [common/namelearner.cc], over [Nml] and [Node].
    - [EventTables], [Events], [EventLaws]: the catalogue of [events/tables.cc]
      and the records of [events/events.cc]; [Logger], [LoggerLaws]:
      [events/logger.cc], event lists, filters and sinks, over [Nml] and
      [Config].

    ** What the theorems show

    Round trips of every packet of NSP, routing, DDCMP and MOP, of NICE
    messages and JSON; the order of sequence numbers against RFC 1982; delivery of a
    stream of messages, once and in order, by the NSP receiver and end to end;
    the window, credit and acknowledgement rules of the sender and that it
    gives up on a silent peer; that link addresses are neither lost nor given
    out twice, and when they are; that a connect reaches the object it names
    and the life of a conversation over every sequence of notices, also of
    session control and NSP as one node; that the routing computation chooses
    the best route, that a full update reaches the neighbour's table as it was
    built, that the tables keep their invariant over any sequence of events
    and that a packet crosses to the neighbour each router's table names until
    it is delivered, or is dropped after a bounded number of hops; that the
    routers of a LAN agree on one designated router and that two endnodes talk; that DDCMP delivers in order over a line that loses and
    damages frames, that it recovers, and that the two ends of a link come up;
    that CRC-16 finds every burst of sixteen bits and is the shift register it
    tabulates; that a timer expires at its deadline and not otherwise; which
    neighbours a circuit accepts, that it reports an adjacency up and down in
    turn, and that two circuits come up whatever the order of events; that the
    owner of a Multinet datalink is told up and down in turn and that one that
    is wanted comes up; that a TCP Multinet link is a stream of messages
    whatever the pieces it is written and read in; that what is read from the
    network as a NICE value is well typed, that every management request gets
    one answer and that a loop goes round; the limits that every accepted
    configuration keeps; that the node database stays sound whatever names come,
    that a fetched list is read back from its cache and that the names a
    neighbour knows are learned; that event records arrive and show the time
    they were stamped with, what a remote sink sends and keeps of the events it
    is offered, and that filters are read back from their listing.  The
    manifest's findings say where the code does not do what it means to; most
    have a theorem of their own.

    ** Bounds and parameters

    Loops that are not structural take fuel that their callers compute:
    [segment_loop] the length of the message (each round takes a byte),
    [drain] one more than the segments held, [forward_at] two (a packet is
    returned at most once), [create_at] the eight levels of the source, the
    parsers of JSON and NICE one more than what is left to read, each round
    taking some.  The framing loops [hunt], [unescape_loop], [read_messages]
    and [cut] take one more than the bytes received; each round consumes one.
    A configuration file takes the depth of its inclusions, since a node file
    may include itself; the theorem about it holds for every depth.
    The line of [DdcmpSystem] is two queues that lose and damage frames and
    keep their order; data flows one way, with any window from 1 to 255.
    The wheel of [Timers] has the source's slots of 100 ms and spans an hour;
    a circuit whose timers are longer is outside [within_span].  The routers
    of [LanSystem] share a wire that loses, repeats and reorders frames, and
    are no more than a router list of one byte's length can name, with hello
    times that the wheel of each can listen for.
    What C++ leaves undefined or the library decides is a parameter: shifts
    beyond 64 bits ([WideShift]), the text of a double ([FloatText]), files
    and [std::stod] ([Environment]), whether a loop connection can be opened
    ([NodeServices]), what happens while an event is sent (a script, whose
    length bounds [Logger.send_loop]), the answers of sockets (lists), and the
    readings of the clock and the local time (functions).  The class [Layers]
    stands between the listener and the layers; [node_layers] is its instance.

    ** What is left out

    A connection is always part of a node, and a call on a connection that
    is already closed and retired is not modelled; nor is what a callback
    does to other links.  A component that has a timer takes its expiry as an
    event, delivered after the timer is unlinked, which [Timers] shows of the
    wheel.
    Of the DDCMP transports only the framing is modelled, not the sockets,
    and a UDP line that reorders or duplicates is outside [DdcmpSystem].
    Raw sockets, TAP and pcap devices, name resolution and polling are not
    modelled, nor are child processes, terminals, the file system of FAL, the
    HTTP client and server, the API server and the main program, which are input
    and output, with the files and callbacks of local event sinks.  The
    handlers of MOP and the DAP codec are not modelled, nor are the node's
    thread, the order in which it starts its layers, and traces.  The identity
    of an adjacency in memory is a number, [a_ptr]. *)

From stdpp Require Export base option list list_numbers numbers gmap.
From Stdlib Require Export ZArith Lia.

Declare Scope decnet_scope.
Delimit Scope decnet_scope with decnet.
Open Scope Z_scope.

(** ** Errors

    The exception hierarchy of [include/decnet/common/exceptions.h] and
    [include/decnet/routing/packets.h], one constructor per class.
    [std::invalid_argument], [std::overflow_error] and
    [std::bad_variant_access] are the standard exceptions the code throws. *)
Inductive err : Set :=
| DecodeError | WrongValue | ExtraData | MissingData | FieldOverflow
| InvalidTag | FormatError | InvalidAddress | ChecksumError
| InternalError | InvalidArgument | OverflowError | BadVariantAccess | RuntimeError.

#[export] Instance err_eq_dec : EqDecision err.
Proof. solve_decision. Defined.

(** Everything [catch (const DecodeError &)] catches. *)
Definition is_decode_error (e : err) : bool :=
  match e with
  | InternalError | InvalidArgument | OverflowError | BadVariantAccess | RuntimeError => false
  | _ => true
  end.

(** ** The error monad: a C++ function that may throw. *)
Inductive result (A : Type) : Type :=
| Ok (a : A)
| Throw (e : err).
Arguments Ok {_} _.
Arguments Throw {_} _.

#[export] Instance result_ret : MRet result := @Ok.
#[export] Instance result_bind : MBind result := λ A B f m,
  match m with Ok a => f a | Throw e => Throw e end.
#[export] Instance result_fmap : FMap result := λ A B f m,
  match m with Ok a => Ok (f a) | Throw e => Throw e end.

#[export] Instance result_eq_dec {A} `{EqDecision A} : EqDecision (result A).
Proof. solve_decision. Defined.

(** [catch (const DecodeError &) { throw E }]. *)
Definition rethrow {A} (e : err) (m : result A) : result A :=
  match m with
  | Ok a => Ok a
  | Throw e' => Throw (if is_decode_error e' then e else e')
  end.

(** [catch (const DecodeError &) { return nullopt }]; the function is
    [noexcept], so any other exception is not an answer. *)
Definition try_result {A} (m : result A) : option A :=
  match m with Ok a => Some a | Throw _ => None end.

Lemma bind_Ok {A B} (m : result A) (f : A → result B) b :
  m ≫= f = Ok b ↔ ∃ a, m = Ok a ∧ f a = Ok b.
Proof.
  destruct m as [a|e]; simpl; split; [eauto| | done |].
  - by intros (? & [= <-] & ?).
  - by intros (? & [=] & _).
Qed.

(** ** Machine-width integers

    [static_cast] to an unsigned type of [w] bits. *)
Definition u8 (v : Z) : Z := v mod 256.
Definition u16 (v : Z) : Z := v mod 65536.
Definition u32 (v : Z) : Z := v mod 4294967296.
Definition u64 (v : Z) : Z := v mod 18446744073709551616.

(** [static_cast<std::int64_t>] of an unsigned 64 bit value. *)
Definition s64 (v : Z) : Z :=
  let u := u64 v in
  if u <? 9223372036854775808 then u else u - 18446744073709551616.

Lemma u8_range v : 0 ≤ u8 v < 256.
Proof. by apply Z.mod_pos_bound. Qed.
Lemma u16_range v : 0 ≤ u16 v < 65536.
Proof. by apply Z.mod_pos_bound. Qed.
Lemma u32_range v : 0 ≤ u32 v < 4294967296.
Proof. by apply Z.mod_pos_bound. Qed.
Lemma u8_small v : 0 ≤ v < 256 → u8 v = v.
Proof. apply Z.mod_small. Qed.
Lemma u16_small v : 0 ≤ v < 65536 → u16 v = v.
Proof. apply Z.mod_small. Qed.
Lemma u32_small v : 0 ≤ v < 4294967296 → u32 v = v.
Proof. apply Z.mod_small. Qed.

Create HintDb decnet.
Create Rewrite HintDb decnet.
#[export] Hint Resolve u8_range u16_range u32_range : decnet.
#[export] Hint Rewrite u8_small u16_small u32_small using lia : decnet.

(** ** Bytes: [decnet::Bytes], [decnet::ByteView]. *)
Abbreviation Bytes := (list Z).

Definition byte_ok (b : Z) : Prop := 0 ≤ b < 256.
Definition bytes_ok (bs : Bytes) : Prop := Forall byte_ok bs.

#[export] Instance byte_ok_dec b : Decision (byte_ok b).
Proof. unfold byte_ok. apply _. Defined.
#[export] Instance bytes_ok_dec bs : Decision (bytes_ok bs).
Proof. unfold bytes_ok. apply _. Defined.

(** Size of a container as the code's [std::len_t]. *)
Definition len {A} (l : list A) : Z := Z.of_nat (length l).

Lemma len_nonneg {A} (l : list A) : 0 ≤ len l.
Proof. unfold len. lia. Qed.
Lemma len_app {A} (l k : list A) : len (l ++ k) = len l + len k.
Proof. unfold len. rewrite length_app. lia. Qed.
Lemma len_cons {A} (a : A) l : len (a :: l) = 1 + len l.
Proof. unfold len. simpl. lia. Qed.
Lemma len_map {A B} (f : A → B) (l : list A) : len (map f l) = len l.
Proof. unfold len. by rewrite length_map. Qed.
Lemma len_nil {A} : len (@nil A) = 0.
Proof. done. Qed.
#[export] Hint Resolve len_nonneg : decnet.
#[export] Hint Rewrite @len_app @len_cons @len_nil : decnet.

Lemma bytes_ok_app bs cs : bytes_ok (bs ++ cs) ↔ bytes_ok bs ∧ bytes_ok cs.
Proof. apply Forall_app. Qed.
Lemma bytes_ok_cons b bs : bytes_ok (b :: bs) ↔ byte_ok b ∧ bytes_ok bs.
Proof. apply Forall_cons. Qed.
Lemma bytes_ok_nil : bytes_ok [].
Proof. constructor. Qed.
Lemma bytes_ok_zeros n : bytes_ok (replicate n 0).
Proof. apply Forall_replicate. unfold byte_ok. lia. Qed.
#[export] Hint Resolve bytes_ok_nil bytes_ok_zeros : decnet.

(** ** Lists *)

Lemma foldl_rev {A B} (f : A → B → A) (a : A) (l : list B) :
  foldl f a (rev l) = foldr (λ b a, f a b) a l.
Proof.
  induction l as [|b l IH]; simpl; [done|]. rewrite foldl_app. simpl. by rewrite IH.
Qed.

(** ** Tactics of the development *)

(** Split every boolean connective and comparison in sight into
    propositions [lia] understands. *)
Ltac zbool :=
  repeat match goal with
  | H : _ && _ = true |- _ => apply andb_true_iff in H as [? ?]
  | H : _ || _ = false |- _ => apply orb_false_iff in H as [? ?]
  | H : negb _ = true |- _ => apply negb_true_iff in H
  | H : negb _ = false |- _ => apply negb_false_iff in H
  | H : (_ <? _) = true |- _ => apply Z.ltb_lt in H
  | H : (_ <? _) = false |- _ => apply Z.ltb_ge in H
  | H : (_ <=? _) = true |- _ => apply Z.leb_le in H
  | H : (_ <=? _) = false |- _ => apply Z.leb_gt in H
  | H : (_ =? _) = true |- _ => apply Z.eqb_eq in H
  | H : (_ =? _) = false |- _ => apply Z.eqb_neq in H
  end.

(** Case on the [if]s and [match]es of the goal, cleaning up as it goes. *)
Ltac cases :=
  repeat (case_match; simplify_eq/=; zbool; try done).

Ltac inv_result :=
  repeat match goal with
  | H : _ ≫= _ = Ok _ |- _ => apply bind_Ok in H as (? & ? & ?)
  | H : Ok _ = Ok _ |- _ => injection H as ?; subst
  | H : Throw _ = Ok _ |- _ => discriminate H
  | H : Ok _ = Throw _ |- _ => discriminate H
  end.
