(* ===== verification/Action.v ===== *)
(** Actions: member functions that change their object and may throw.

    What an action changed before it threw stays changed, as in C++; the node
    loop catches what a work item throws and goes on.  [triple] is the Hoare
    triple of an action, with a postcondition for each way it can end. *)

From S2P Require Import Prelude.
#[local] Open Scope Z_scope.

Definition Action (S A : Type) : Type := S → result A * S.

#[export] Instance Action_ret {S} : MRet (Action S) := λ A a s, (Ok a, s).
#[export] Instance Action_bind {S} : MBind (Action S) := λ A B f m s,
  match m s with (Ok a, s) => f a s | (Throw e, s) => (Throw e, s) end.

Section Actions.
Context {S : Type}.

Definition act_lift {A} (r : result A) : Action S A := λ s, (r, s).
Definition act_throw {A} (e : err) : Action S A := act_lift (Throw e).
Definition act_get {A} (f : S → A) : Action S A := λ s, (Ok (f s), s).
Definition act_do (f : S → S) : Action S unit := λ s, (Ok tt, f s).
Definition act_when (b : bool) (m : Action S unit) : Action S unit := if b then m else mret tt.

(** The state after an action whose exception, if any, is caught. *)
Definition after {A} (m : Action S A) (s : S) : S := (m s).2.

(** ** Triples *)

Definition triple {A} (P : S → Prop) (m : Action S A) (Q : A → S → Prop) (E : S → Prop) : Prop :=
  ∀ s, P s → match m s with (Ok a, s') => Q a s' | (Throw _, s') => E s' end.
(** An action that keeps a property, whether or not it throws. *)
Definition keeps {A} (P : S → Prop) (m : Action S A) : Prop := triple P m (λ _, P) P.

Lemma triple_ret {A} (a : A) P (Q : A → S → Prop) E : (∀ s, P s → Q a s) → triple P (mret a) Q E.
Proof. exact id. Qed.
Lemma triple_bind {A B} (m : Action S A) (f : A → Action S B) P R Q E :
  triple P m R E → (∀ a, triple (R a) (f a) Q E) → triple P (m ≫= f) Q E.
Proof.
  intros Hm Hf s Hs. specialize (Hm s Hs). unfold mbind, Action_bind.
  destruct (m s) as [[a|e] s']; [exact (Hf a s' Hm)|exact Hm].
Qed.
Lemma triple_get {A} (f : S → A) P (Q : A → S → Prop) E : (∀ s, P s → Q (f s) s) → triple P (act_get f) Q E.
Proof. exact id. Qed.
Lemma triple_do (f : S → S) P (Q : unit → S → Prop) E : (∀ s, P s → Q tt (f s)) → triple P (act_do f) Q E.
Proof. exact id. Qed.
Lemma triple_lift {A} (r : result A) P (Q : A → S → Prop) (E : S → Prop) :
  (∀ a s, r = Ok a → P s → Q a s) → (∀ e s, r = Throw e → P s → E s) → triple P (act_lift r) Q E.
Proof. intros Hq He s Hs. unfold act_lift. destruct r as [a|e]; [by apply Hq|by apply (He e)]. Qed.
Lemma triple_when (b : bool) m P (Q : unit → S → Prop) E :
  (b = true → triple P m Q E) → (b = false → ∀ s, P s → Q tt s) → triple P (act_when b m) Q E.
Proof. destruct b; [intros H _; by apply H|intros _ H s; by apply H]. Qed.
Lemma triple_weaken {A} (m : Action S A) (P P' : S → Prop) (Q Q' : A → S → Prop) (E E' : S → Prop) :
  triple P m Q E → (∀ s, P' s → P s) → (∀ a s, Q a s → Q' a s) → (∀ s, E s → E' s) → triple P' m Q' E'.
Proof.
  intros H HP HQ HE s Hs. specialize (H s (HP s Hs)). destruct (m s) as [[a|e] s']; [by apply HQ|by apply HE].
Qed.
Lemma triple_and {A} (m : Action S A) P P' Q Q' E E' :
  triple P m Q E → triple P' m Q' E' →
  triple (λ s, P s ∧ P' s) m (λ a s, Q a s ∧ Q' a s) (λ s, E s ∧ E' s).
Proof. intros H H' s [Hp Hp']. specialize (H s Hp). specialize (H' s Hp'). destruct (m s) as [[a|e] s']; done. Qed.
Lemma triple_forall {A} (m : Action S A) P Q E :
  (∀ s0, P s0 → triple (λ s, s = s0) m Q E) → triple P m Q E.
Proof. intros H s Hs. by apply (H s Hs s). Qed.

Lemma keeps_bind {A B} (m : Action S A) (f : A → Action S B) P : keeps P m → (∀ a, keeps P (f a)) → keeps P (m ≫= f).
Proof. intros Hm Hf. eapply triple_bind; [exact Hm|exact Hf]. Qed.
Lemma keeps_ret {A} (a : A) P : keeps P (mret a : Action S A).
Proof. by intros s. Qed.
Lemma keeps_get {A} (f : S → A) P : keeps P (act_get f).
Proof. by intros s. Qed.
Lemma keeps_lift {A} (r : result A) P : keeps P (act_lift r).
Proof. intros s Hs. unfold act_lift. by destruct r. Qed.
Lemma keeps_when b m P : keeps P m → keeps P (act_when b m).
Proof. destruct b; [done|intros _; apply keeps_ret]. Qed.
Lemma keeps_do (f : S → S) (P : S → Prop) : (∀ s, P s → P (f s)) → keeps P (act_do f).
Proof. exact id. Qed.
Lemma keeps_and {A} (m : Action S A) P P' : keeps P m → keeps P' m → keeps (λ s, P s ∧ P' s) m.
Proof. apply triple_and. Qed.

Lemma keeps_after {A} (m : Action S A) P s : keeps P m → P s → P (after m s).
Proof. intros H Hs. unfold after. specialize (H s Hs). by destruct (m s) as [[a|e] s']. Qed.
Lemma triple_after {A} (m : Action S A) P Q E R s :
  triple P m Q E → P s → (∀ a s', Q a s' → R s') → (∀ s', E s' → R s') → R (after m s).
Proof. intros H Hs HQ HE. unfold after. specialize (H s Hs). destruct (m s) as [[a|e] s']; [by eapply HQ|by apply HE]. Qed.
End Actions.

(** A [keeps] goal taken apart along the action, down to its updates. *)
Ltac keep_walk :=
  repeat match goal with
  | |- keeps _ (mbind _ _) => apply keeps_bind; [|intros ?]
  | |- keeps _ (act_when _ _) => apply keeps_when
  | |- keeps _ (mret _) => apply keeps_ret
  | |- keeps _ (act_get _) => apply keeps_get
  | |- keeps _ (act_lift _) => apply keeps_lift
  | |- keeps _ (act_throw _) => apply keeps_lift
  | |- keeps _ (act_do _) => apply keeps_do; intros ? ?
  | |- keeps _ (match ?x with _ => _ end) => destruct x
  end.
