(* ===== verification/Buffer.v ===== *)
(** The encoder and decoder cursors of [include/decnet/packet/buffer.h].

    An [Encoder] only appends to its output, so an encoding function is
    modelled by the bytes it appends; a [Decoder] holds a buffer and a
    position, of which only the unread rest matters, so a decoding function
    takes the unread bytes and returns its value with what it left. *)

From S2P Require Import Prelude.

(** A decoding action: value and unread bytes, or the exception. *)
Definition dec (A : Type) : Type := Bytes → result (A * Bytes).

(** ** Encoder *)
Module Encoder.

(** [Encoder::byte]. *)
Definition byte (b : Z) : Bytes := [u8 b].

(** [Encoder::raw]. *)
Definition raw (b : Bytes) : Bytes := b.

(** The loop of [Encoder::uint], from index [i] on. *)
Fixpoint uint_from (v : Z) (i : Z) (n : nat) : Bytes :=
  match n with
  | O => []
  | S n => u8 (Z.shiftr v (8 * i)) :: uint_from v (i + 1) n
  end.

(** [Encoder::uint]: n byte little endian unsigned integer. *)
Definition uint (v : Z) (n : nat) : Bytes := uint_from v 0 n.

(** [Encoder::zeros]. *)
Definition zeros (n : nat) : Bytes := replicate n 0.

End Encoder.

(** ** Decoder *)
Module Decoder.

(** [Decoder::remaining] and [Decoder::empty]. *)
Definition remaining (d : Bytes) : Z := len d.
Definition empty (d : Bytes) : bool := remaining d =? 0.

(** [Decoder::need]. *)
Definition need (n : nat) (d : Bytes) : result unit :=
  if remaining d <? Z.of_nat n then Throw MissingData else Ok tt.

(** [Decoder::byte]. *)
Definition byte : dec Z := λ d,
  _ ← need 1 d;
  match d with b :: d' => Ok (b, d') | [] => Throw MissingData end.

(** [Decoder::raw]. *)
Definition raw (n : nat) : dec Bytes := λ d,
  _ ← need n d; Ok (take n d, drop n d).

(** The accumulation loop shared by [Decoder::uint] and [peek_uint]. *)
Fixpoint uint_loop (v : Z) (i : Z) (bs : Bytes) : Z :=
  match bs with
  | [] => v
  | b :: bs => uint_loop (Z.lor v (Z.shiftl b (8 * i))) (i + 1) bs
  end.

(** [Decoder::uint]. *)
Definition uint (n : nat) : dec Z := λ d,
  _ ← need n d; Ok (uint_loop 0 0 (take n d), drop n d).

(** [Decoder::rest]. *)
Definition rest : dec Bytes := λ d, Ok (d, []).

(** [Decoder::peek_uint]. *)
Definition peek_uint (n : nat) (d : Bytes) : Z :=
  if remaining d <? Z.of_nat n then 0 else uint_loop 0 0 (take n d).

End Decoder.

(** ** Little endian integers *)

Lemma uint_from_length v i n : length (Encoder.uint_from v i n) = n.
Proof. revert i; induction n; intros; simpl; auto. Qed.

Lemma uint_length v n : length (Encoder.uint v n) = n.
Proof. apply uint_from_length. Qed.

Lemma uint_from_ok v i n : bytes_ok (Encoder.uint_from v i n).
Proof.
  revert i; induction n as [|n IH]; intros i; simpl; [constructor|].
  apply bytes_ok_cons. split; [apply u8_range|apply IH].
Qed.

Lemma uint_ok v n : bytes_ok (Encoder.uint v n).
Proof. apply uint_from_ok. Qed.

(** The two loops in closed form. *)
Lemma uint_loop_acc v i bs :
  Decoder.uint_loop v i bs = Z.lor v (Decoder.uint_loop 0 i bs).
Proof.
  revert v i. induction bs as [|b bs IH]; intros v i; simpl.
  - by rewrite Z.lor_0_r.
  - rewrite IH, (IH (Z.lor 0 _)). by rewrite Z.lor_0_l, Z.lor_assoc.
Qed.

Lemma uint_loop_shift i j bs :
  0 ≤ i → 0 ≤ j →
  Decoder.uint_loop 0 (i + j) bs = Z.shiftl (Decoder.uint_loop 0 j bs) (8 * i).
Proof.
  intros Hi. revert j. induction bs as [|b bs IH]; intros j Hj; simpl.
  { by rewrite Z.shiftl_0_l. }
  rewrite (uint_loop_acc (Z.lor 0 _)), (uint_loop_acc (Z.lor 0 (Z.shiftl b (8 * j)))).
  rewrite !Z.lor_0_l, Z.shiftl_lor, Z.shiftl_shiftl by lia.
  replace (i + j + 1) with (i + (j + 1)) by lia. rewrite IH by lia.
  f_equal. f_equal. lia.
Qed.

Lemma uint_loop_cons b bs :
  Decoder.uint_loop 0 0 (b :: bs) = Z.lor b (Z.shiftl (Decoder.uint_loop 0 0 bs) 8).
Proof.
  simpl. rewrite uint_loop_acc, Z.lor_0_l, Z.shiftl_0_r. f_equal.
  by apply (uint_loop_shift 1 0).
Qed.

Lemma uint_from_shift v i n :
  0 ≤ i → Encoder.uint_from v i n = Encoder.uint_from (Z.shiftr v (8 * i)) 0 n.
Proof.
  assert (∀ v i n, 0 ≤ i → ∀ j, 0 ≤ j → Encoder.uint_from v (i + j) n =
    Encoder.uint_from (Z.shiftr v (8 * i)) j n) as H.
  { clear. intros v i n Hi. induction n as [|n IH]; intros j Hj; simpl; [done|].
    rewrite Z.shiftr_shiftr by lia.
    replace (8 * i + 8 * j) with (8 * (i + j)) by lia.
    f_equal. rewrite <-IH by lia. f_equal. lia. }
  intros Hi. rewrite <-(H v i n Hi 0) by lia. f_equal. lia.
Qed.

Lemma uint_cons v n :
  Encoder.uint v (S n) = u8 v :: Encoder.uint (Z.shiftr v 8) n.
Proof.
  unfold Encoder.uint. simpl. rewrite Z.shiftr_0_r. f_equal.
  rewrite uint_from_shift by lia. done.
Qed.

Lemma uint_1 v : Encoder.uint v 1 = [u8 v].
Proof. by rewrite uint_cons. Qed.

(** A low part below [2^k] and a shifted high part do not overlap. *)
Lemma lor_shiftl_add a b k :
  0 ≤ k → 0 ≤ a < 2 ^ k → Z.lor a (Z.shiftl b k) = a + b * 2 ^ k.
Proof.
  intros Hk Ha. rewrite <-Z.shiftl_mul_pow2 by done.
  symmetry. apply Z.add_nocarry_lor, Z.bits_inj'. intros i Hi.
  rewrite Z.land_spec, Z.bits_0, Z.shiftl_spec by done.
  destruct (Z.ltb_spec i k).
  { rewrite (Z.testbit_neg_r b) by lia. apply andb_false_r. }
  rewrite <-(Z.mod_small a (2 ^ k)), Z.mod_pow2_bits_high by lia. done.
Qed.

Lemma uint_loop_cons_add b bs :
  byte_ok b → Decoder.uint_loop 0 0 (b :: bs) = b + Decoder.uint_loop 0 0 bs * 256.
Proof. intros Hb. rewrite uint_loop_cons. by apply (lor_shiftl_add _ _ 8). Qed.

Lemma uint_loop_range bs :
  bytes_ok bs → 0 ≤ Decoder.uint_loop 0 0 bs < 2 ^ (8 * len bs).
Proof.
  induction 1 as [|b bs Hb Hbs IH]; [done|].
  rewrite uint_loop_cons_add by done.
  rewrite len_cons, Z.mul_add_distr_l, Z.pow_add_r by (unfold len; lia).
  change (2 ^ (8 * 1)) with 256. unfold byte_ok in Hb. nia.
Qed.

(** Decoding what was encoded gives the value modulo the field's width. *)
Lemma uint_loop_uint v n :
  0 ≤ v → Decoder.uint_loop 0 0 (Encoder.uint v n) = v mod 2 ^ (8 * Z.of_nat n).
Proof.
  revert v; induction n as [|n IH]; intros v Hv.
  { simpl. by rewrite Z.mod_1_r. }
  rewrite uint_cons, uint_loop_cons_add by apply u8_range.
  rewrite IH by (apply Z.shiftr_nonneg; lia).
  rewrite Z.shiftr_div_pow2 by lia. unfold u8. change (2 ^ 8) with 256.
  replace (8 * Z.of_nat (S n)) with (8 + 8 * Z.of_nat n) by lia.
  rewrite Z.pow_add_r by lia. change (2 ^ 8) with 256.
  rewrite Z.rem_mul_r by lia. lia.
Qed.

(** Encoding what was decoded gives the bytes back. *)
Lemma uint_uint_loop bs :
  bytes_ok bs → Encoder.uint (Decoder.uint_loop 0 0 bs) (length bs) = bs.
Proof.
  induction 1 as [|b bs Hb Hbs IH]; [done|].
  cbn [length]. rewrite uint_cons, uint_loop_cons_add by done.
  rewrite Z.shiftr_div_pow2 by lia. change (2 ^ 8) with 256. unfold u8.
  rewrite Z.div_add, Z.mod_add, Z.div_small, Z.mod_small, Z.add_0_l, IH by done. done.
Qed.

(** ** The cursor operations on a buffer known to start with some bytes *)

Lemma need_app n bs rest : length bs = n → Decoder.need n (bs ++ rest) = Ok tt.
Proof.
  intros <-. unfold Decoder.need, Decoder.remaining.
  rewrite len_app. unfold len at 1. pose proof (len_nonneg rest).
  by rewrite (proj2 (Z.ltb_ge _ _)) by lia.
Qed.

Lemma raw_app bs rest : Decoder.raw (length bs) (bs ++ rest) = Ok (bs, rest).
Proof.
  unfold Decoder.raw. rewrite need_app by done. simpl.
  by rewrite take_app_length, drop_app_length.
Qed.

Lemma uint_app n v rest :
  0 ≤ v < 2 ^ (8 * Z.of_nat n) →
  Decoder.uint n (Encoder.uint v n ++ rest) = Ok (v, rest).
Proof.
  intros Hv. unfold Decoder.uint. rewrite need_app by apply uint_length. simpl.
  rewrite take_app_length', drop_app_length' by (by rewrite uint_length).
  rewrite uint_loop_uint, Z.mod_small by lia. done.
Qed.

Lemma peek_uint_app n v rest :
  0 ≤ v < 2 ^ (8 * Z.of_nat n) → Decoder.peek_uint n (Encoder.uint v n ++ rest) = v.
Proof.
  intros Hv. unfold Decoder.peek_uint, Decoder.remaining.
  rewrite len_app. unfold len at 1. rewrite uint_length. pose proof (len_nonneg rest).
  rewrite (proj2 (Z.ltb_ge _ _)) by lia.
  rewrite take_app_length' by (by rewrite uint_length).
  rewrite uint_loop_uint, Z.mod_small by lia. done.
Qed.

Lemma byte_app b rest : Decoder.byte (b :: rest) = Ok (b, rest).
Proof.
  unfold Decoder.byte. change (b :: rest) with ([b] ++ rest).
  by rewrite need_app.
Qed.

Lemma need_Ok n d : Decoder.need n d = Ok tt ↔ (n ≤ length d)%nat.
Proof.
  unfold Decoder.need, Decoder.remaining, len.
  destruct (Z.ltb_spec (Z.of_nat (length d)) (Z.of_nat n)); split; try done; lia.
Qed.

Lemma need_short n d : (length d < n)%nat → Decoder.need n d = Throw MissingData.
Proof.
  intros. unfold Decoder.need, Decoder.remaining, len. by rewrite (proj2 (Z.ltb_lt _ _)) by lia.
Qed.

(** What a successful read says about the buffer. *)
Lemma raw_Ok n d bs rest :
  Decoder.raw n d = Ok (bs, rest) ↔ d = bs ++ rest ∧ length bs = n.
Proof.
  unfold Decoder.raw. split.
  - intros H. inv_result. simplify_eq. destruct x. apply need_Ok in H.
    by rewrite take_drop, length_take_le.
  - intros [-> <-]. apply raw_app.
Qed.

Lemma uint_Ok n d v rest :
  bytes_ok d → Decoder.uint n d = Ok (v, rest) →
  d = Encoder.uint v n ++ rest ∧ 0 ≤ v < 2 ^ (8 * Z.of_nat n).
Proof.
  unfold Decoder.uint. intros Hd H. inv_result. simplify_eq.
  destruct x. apply need_Ok in H. 
  assert (bytes_ok (take n d)) as Ht by (by apply Forall_take).
  assert (length (take n d) = n) as Hl by (by rewrite length_take_le).
  split.
  - rewrite <-Hl at 2. rewrite uint_uint_loop by done. by rewrite take_drop.
  - pose proof (uint_loop_range _ Ht) as Hr. unfold len in Hr. by rewrite Hl in Hr.
Qed.

Lemma byte_Ok d v rest : Decoder.byte d = Ok (v, rest) ↔ d = v :: rest.
Proof.
  split; [|intros ->; apply byte_app].
  unfold Decoder.byte. intros H. inv_result. destruct d; simplify_eq. done.
Qed.

#[export] Hint Resolve uint_ok uint_length : decnet.
#[export] Hint Rewrite uint_length uint_from_length @length_app @length_replicate : decnet.
