(* ===== verification/Modulo.v ===== *)
(** Sequence number arithmetic: [include/decnet/common/modulo.h].

    [Mod<Modulus>] values are represented by their [value_]; the class
    invariant is [mod_ok].  [value_type] is [std::uint32_t], so sums are taken
    modulo 2^32 before the reduction, as the code's expressions are. *)

From S2P Require Import Prelude.

(** [std::partial_ordering]. *)
Inductive partial_ordering : Set := Less | Equivalent | Greater | Unordered.

#[export] Instance partial_ordering_eq_dec : EqDecision partial_ordering.
Proof. solve_decision. Defined.

Section Mod.
Context (Modulus : Z).

(** The class invariant: a value is below the modulus. *)
Definition mod_ok (v : Z) : Prop := 0 ≤ v < Modulus.

Definition maxdelta : Z :=
  if negb (Modulus mod 2 =? 0) then Modulus / 2 else Modulus / 2 - 1.
Definition has_undef : bool := Modulus mod 2 =? 0.
Definition undef : Z := Modulus / 2.

(** The explicit constructor: out of range values throw. *)
Definition mod_make (v : Z) : result Z :=
  if Modulus <=? v then Throw OverflowError else Ok v.

(** [Mod::wrap]. *)
Definition wrap (v : Z) : Z := u32 (v mod Modulus).

(** [Mod::forward], and [distance_to] which is its public face. *)
Definition forward (from to : Z) : Z := u32 (to + Modulus - from) mod Modulus.
Definition distance_to (v other : Z) : Z := forward v other.

(** [operator<=>]. *)
Definition mod_cmp (a b : Z) : partial_ordering :=
  if a =? b then Equivalent
  else
    let delta := forward a b in
    if has_undef && (delta =? undef) then Unordered
    else if delta <=? maxdelta then Less else Greater.

(** [a < b], which C++ rewrites to [(a <=> b) < 0]. *)
Definition mod_lt (a b : Z) : bool :=
  match mod_cmp a b with Less => true | _ => false end.

(** [Mod::comparable]. *)
Definition comparable (a b : Z) : bool :=
  negb has_undef || negb (forward a b =? undef).

(** [operator+=], [operator-=] and [operator++]. *)
Definition mod_add (a o : Z) : Z := u32 (a + o) mod Modulus.
Definition mod_sub (a o : Z) : Z := u32 (a + Modulus - o) mod Modulus.
Definition mod_incr (a : Z) : Z := u32 (a + 1) mod Modulus.
End Mod.

(** ** The laws, for a modulus whose sums fit the representation. *)
Section ModLaws.
Context (M : Z) (HM : 2 ≤ M ≤ 2147483648).

Lemma wrap_mod v : wrap M v = v mod M.
Proof.
  unfold wrap. apply u32_small. pose proof (Z.mod_pos_bound v M). lia.
Qed.

Lemma wrap_ok v : mod_ok M (wrap M v).
Proof. rewrite wrap_mod. apply Z.mod_pos_bound. lia. Qed.

Lemma wrap_small v : mod_ok M v → wrap M v = v.
Proof. intros. rewrite wrap_mod. by apply Z.mod_small. Qed.

Lemma mod_add_wrap a b :
  mod_ok M a → mod_ok M b → mod_add M a b = (a + b) mod M.
Proof. unfold mod_ok, mod_add. intros. rewrite u32_small by lia. done. Qed.

Lemma mod_sub_wrap a b :
  mod_ok M a → mod_ok M b → mod_sub M a b = (a - b) mod M.
Proof.
  unfold mod_ok, mod_sub. intros. rewrite u32_small by lia.
  replace (a + M - b) with (a - b + 1 * M) by lia. apply Z.mod_add. lia.
Qed.

Lemma mod_incr_wrap a : mod_ok M a → mod_incr M a = (a + 1) mod M.
Proof. unfold mod_ok, mod_incr. intros. rewrite u32_small by lia. done. Qed.

Lemma forward_wrap a b :
  mod_ok M a → mod_ok M b → forward M a b = (b - a) mod M.
Proof. intros. unfold forward. by apply mod_sub_wrap. Qed.

(** The 12 bit wire number of an absolute count. *)
Lemma forward_abs x y : forward M (wrap M x) (wrap M y) = (y - x) mod M.
Proof.
  rewrite forward_wrap, !wrap_mod by apply wrap_ok. by rewrite <-Zminus_mod.
Qed.

Lemma mod_incr_abs x : mod_incr M (wrap M x) = wrap M (x + 1).
Proof.
  rewrite mod_incr_wrap, !wrap_mod by apply wrap_ok.
  by rewrite Z.add_mod_idemp_l by lia.
Qed.

Lemma mod_sub_abs x : mod_sub M (wrap M x) 1 = wrap M (x - 1).
Proof.
  rewrite mod_sub_wrap, !wrap_mod; [|apply wrap_ok|unfold mod_ok; lia].
  by rewrite Zminus_mod_idemp_l.
Qed.

Lemma maxdelta_half : 2 * maxdelta M < M ∧ M ≤ 2 * maxdelta M + 2.
Proof.
  unfold maxdelta. pose proof (Z.div_mod M 2). pose proof (Z.mod_pos_bound M 2).
  destruct (Z.eqb_spec (M mod 2) 0); simpl; lia.
Qed.

(** Comparing the wire numbers of two counts less than half the modulus
    apart compares the counts. *)
Lemma mod_cmp_abs x y :
  2 * Z.abs (x - y) < M →
  mod_cmp M (wrap M x) (wrap M y) =
    match x ?= y with Lt => Less | Eq => Equivalent | Gt => Greater end.
Proof.
  intros Hd. unfold mod_cmp. rewrite forward_abs.
  pose proof maxdelta_half as [Hlo Hhi].
  assert (undef M = M / 2) as Hu by done.
  pose proof (Z.div_mod M 2). pose proof (Z.mod_pos_bound M 2).
  assert (has_undef M = true → M = 2 * undef M) as Heven.
  { unfold has_undef. intros ?%Z.eqb_eq. lia. }
  destruct (Z.compare_spec x y) as [->|Hlt|Hgt].
  - by rewrite Z.eqb_refl.
  - rewrite Z.mod_small by lia.
    rewrite (proj2 (Z.eqb_neq _ _)).
    2: { rewrite !wrap_mod. intros E. apply (f_equal (λ z, (z - x mod M) mod M)) in E.
         rewrite Z.sub_diag, <-Zminus_mod, Z.mod_0_l, Z.mod_small in E by lia. lia. }
    destruct (has_undef M && _) eqn:E.
    { zbool. specialize (Heven ltac:(done)). lia. }
    rewrite (proj2 (Z.leb_le _ _)); [done|]. 
    revert Hhi. unfold maxdelta in *. destruct (Z.eqb_spec (M mod 2) 0); simpl in *; lia.
  - assert ((y - x) mod M = y - x + M) as ->.
    { rewrite <-(Z.mod_add _ 1) by lia. rewrite Z.mod_small; lia. }
    rewrite (proj2 (Z.eqb_neq _ _)).
    2: { rewrite !wrap_mod. intros E. apply (f_equal (λ z, (z - y mod M) mod M)) in E.
         rewrite Z.sub_diag, <-Zminus_mod, Z.mod_0_l, Z.mod_small in E by lia. lia. }
    destruct (has_undef M && _) eqn:E.
    { zbool. specialize (Heven ltac:(done)). lia. }
    rewrite (proj2 (Z.leb_gt _ _)); [done|]. lia.
Qed.

Lemma mod_lt_abs x y :
  2 * Z.abs (x - y) < M → mod_lt M (wrap M x) (wrap M y) = (x <? y).
Proof.
  intros. unfold mod_lt. rewrite mod_cmp_abs by done.
  unfold Z.ltb. by destruct (x ?= y).
Qed.

Lemma mod_make_ok v : 0 ≤ v → mod_make M v = Ok v ↔ mod_ok M v.
Proof.
  unfold mod_make, mod_ok. intros. destruct (Z.leb_spec M v); split; try done; lia.
Qed.

(** The order in terms of the forward distance alone. *)
Lemma mod_cmp_forward a b :
  mod_ok M a → mod_ok M b →
  mod_cmp M a b =
    if a =? b then Equivalent
    else match 2 * forward M a b ?= M with
         | Eq => Unordered | Lt => Less | Gt => Greater
         end.
Proof.
  intros Ha Hb. unfold mod_cmp. destruct (Z.eqb_spec a b); [done|].
  assert (0 ≤ forward M a b < M) as Hf.
  { rewrite forward_wrap by done. apply Z.mod_pos_bound. lia. }
  pose proof maxdelta_half as [Hlo Hhi].
  unfold has_undef, undef, maxdelta in *.
  pose proof (Z.div_mod M 2). pose proof (Z.mod_pos_bound M 2).
  destruct (Z.eqb_spec (M mod 2) 0), (Z.compare_spec (2 * forward M a b) M);
    simpl in *; destruct (Z.eqb_spec (forward M a b) (M / 2)); simpl in *;
    try destruct (Z.leb_spec (forward M a b) (M / 2 - 1));
    try destruct (Z.leb_spec (forward M a b) (M / 2)); try done; lia.
Qed.

Lemma forward_swap a b :
  mod_ok M a → mod_ok M b → a ≠ b → forward M b a = M - forward M a b.
Proof.
  unfold mod_ok. intros Ha Hb Hne. rewrite !forward_wrap by done.
  destruct (decide (a < b)).
  - rewrite (Z.mod_small (b - a)), <-(Z.mod_add (a - b) 1), Z.mod_small; lia.
  - rewrite (Z.mod_small (a - b)), <-(Z.mod_add (b - a) 1), Z.mod_small; lia.
Qed.

Lemma forward_half a b :
  mod_ok M a → mod_ok M b → 2 * forward M a b = M → M = 2 * Z.abs (a - b).
Proof.
  unfold mod_ok. intros Ha Hb. rewrite !forward_wrap by done.
  destruct (decide (a ≤ b)).
  - rewrite Z.mod_small; lia.
  - rewrite <-(Z.mod_add (b - a) 1), Z.mod_small; lia.
Qed.

(** Values with the same wire number and less than a modulus apart are equal. *)
Lemma wrap_inj x y : Z.abs (x - y) < M → wrap M x = wrap M y → x = y.
Proof.
  rewrite !wrap_mod. intros Hd E.
  assert ((x - y) mod M = 0) as Hz.
  { rewrite Zminus_mod, E, Z.sub_diag. apply Z.mod_0_l. lia. }
  apply Z.mod_divide in Hz as [k Hk]; [|lia].
  assert (k = 0) by nia. lia.
Qed.
End ModLaws.

(** ** Properties *)

(** Comparing two 12 bit (in general, modulo M) sequence numbers agrees with
    comparing the absolute counts they stand for, as long as the counts are less than
    half the modulus apart: [operator<=>] implements the ordering of RFC 1982, wrap
    around included, and is invariant under numbering both sides from elsewhere. *)
Theorem serial_order_correct (M x y k : Z) :
  2 ≤ M ≤ 2147483648 →
  2 * Z.abs (x - y) < M →
  mod_cmp M (wrap M x) (wrap M y) =
    match x ?= y with Lt => Less | Eq => Equivalent | Gt => Greater end ∧
  mod_cmp M (wrap M (x + k)) (wrap M (y + k)) = mod_cmp M (wrap M x) (wrap M y).
Proof.
  intros HM Hd. rewrite !mod_cmp_abs by (try done; lia). split; [done|].
  assert ((x + k ?= y + k) = (x ?= y)) as ->; [|done].
  rewrite (Z.add_comm x), (Z.add_comm y). apply Zcompare_plus_compat.
Qed.

Lemma serial_order_correct_witness :
  mod_cmp 4096 4095 0 = Less ∧ mod_cmp 4096 (wrap 4096 4196) (wrap 4096 4197) = Less.
Proof.
  destruct (serial_order_correct 4096 4095 4096 101) as [H1 H2]; [lia|lia|].
  split; [exact H1|]. exact (eq_trans H2 H1).
Defined.

(** With any modulus the order is a strict one: of two different in-range
    values exactly one direction is "less", except that with an even modulus values
    exactly half the modulus apart are unordered both ways, and [comparable] is
    exactly the test for that. *)
Theorem serial_order_trichotomy (M a b : Z) :
  2 ≤ M ≤ 2147483648 → mod_ok M a → mod_ok M b →
  match mod_cmp M a b with
  | Equivalent => a = b ∧ mod_cmp M b a = Equivalent
  | Less => a ≠ b ∧ mod_cmp M b a = Greater
  | Greater => a ≠ b ∧ mod_cmp M b a = Less
  | Unordered => M = 2 * Z.abs (a - b) ∧ mod_cmp M b a = Unordered
  end ∧
  comparable M a b = negb (bool_decide (mod_cmp M a b = Unordered)).
Proof.
  intros HM Ha Hb. unfold comparable. rewrite !mod_cmp_forward by done.
  rewrite (Z.eqb_sym b a). destruct (Z.eqb_spec a b) as [->|Hne].
  { split; [done|]. rewrite forward_wrap, Z.sub_diag, Z.mod_0_l by (done || lia).
    unfold has_undef, undef. pose proof (Z.div_mod M 2).
    destruct (Z.eqb_spec (M mod 2) 0), (Z.eqb_spec 0 (M / 2)); try done. lia. }
  rewrite (forward_swap _ HM a b) by done.
  pose proof (forward_half _ HM a b Ha Hb) as Hhalf.
  unfold has_undef, undef. pose proof (Z.div_mod M 2). pose proof (Z.mod_pos_bound M 2).
  destruct (Z.compare_spec (2 * forward M a b) M),
    (Z.compare_spec (2 * (M - forward M a b)) M); try lia;
    (split; [by auto|]);
    destruct (Z.eqb_spec (M mod 2) 0), (Z.eqb_spec (forward M a b) (M / 2));
    try done; lia.
Qed.

Lemma serial_order_trichotomy_witness :
  mod_cmp 4096 5 2053 = Unordered ∧ 4096 = 2 * Z.abs (5 - 2053).
Proof.
  destruct (serial_order_trichotomy 4096 5 2053) as [[H _] _];
    [lia|by unfold mod_ok|by unfold mod_ok|].
  split; [reflexivity|exact H].
Defined.
