(* ===== verification/Types.v ===== *)
(** The small value types of [include/decnet/common/types.h] and
    [src/common/types.cc]: node addresses, LAN addresses, versions and names. *)

From Stdlib Require Export Ascii.
From stdpp Require Export strings.
From S2P Require Import Prelude.

(** Text is a list of characters; [std::string_view] and [std::string]. *)
Abbreviation text := (list ascii).

Definition code (c : ascii) : Z := Z.of_N (N_of_ascii c).
Definition chr (v : Z) : ascii := ascii_of_N (Z.to_N v).

Lemma code_chr v : 0 ≤ v < 256 → code (chr v) = v.
Proof.
  intros. unfold code, chr. rewrite N_ascii_embedding by lia. lia.
Qed.

Lemma code_range c : 0 ≤ code c < 256.
Proof. unfold code. pose proof (N_ascii_bounded c). lia. Qed.
Lemma chr_code c : chr (code c) = c.
Proof. unfold chr, code. rewrite N2Z.id. apply ascii_N_embedding. Qed.

(** A string's bytes, and the string of some bytes. *)
Definition as_bytes (s : text) : Bytes := map code s.
Definition of_bytes (b : Bytes) : text := map chr b.
Lemma of_as_bytes s : of_bytes (as_bytes s) = s.
Proof. unfold of_bytes, as_bytes. rewrite map_map. induction s as [|c s IH]; simpl; [done|]. by rewrite chr_code, IH. Qed.
Lemma as_bytes_ok s : bytes_ok (as_bytes s).
Proof. apply Forall_fmap, Forall_true. intros c. apply code_range. Qed.

(** ** Decimal numbers *)

(** [std::isdigit], [std::isalpha] and [std::toupper] in the C locale. *)
Definition isdigit (c : ascii) : bool := (48 <=? code c) && (code c <=? 57).
Definition isupper (c : ascii) : bool := (65 <=? code c) && (code c <=? 90).
Definition islower (c : ascii) : bool := (97 <=? code c) && (code c <=? 122).
Definition isalpha (c : ascii) : bool := isupper c || islower c.
Definition toupper (c : ascii) : ascii := if islower c then chr (code c - 32) else c.

(** The digits [std::from_chars] consumes, folded into a value. *)
Fixpoint scan_uint (v : Z) (s : text) : Z * text :=
  match s with
  | c :: s' => if isdigit c then scan_uint (10 * v + (code c - 48)) s' else (v, s)
  | [] => (v, [])
  end.

(** [parse_uint]: an unsigned decimal number occupying all of [s];
    [std::from_chars] refuses an empty number and one beyond [unsigned]. *)
Definition parse_uint (s : text) : result Z :=
  match s with
  | c :: _ =>
      if isdigit c then
        let '(v, rest) := scan_uint 0 s in
        if 4294967295 <? v then Throw InvalidArgument
        else match rest with [] => Ok v | _ => Throw InvalidArgument end
      else Throw InvalidArgument
  | [] => Throw InvalidArgument
  end.

(** [%u]: the decimal digits of an unsigned value, least significant first
    and then reversed; ten digits are enough for 32 bits. *)
Fixpoint digits (fuel : nat) (v : Z) : text :=
  match fuel with
  | O => []
  | S fuel =>
      chr (48 + v mod 10) :: if v <? 10 then [] else digits fuel (v / 10)
  end.
Definition print_uint (v : Z) : text := rev (digits 10 v).

(** ** Nodeid: 6 bits of area and 10 bits of node number, the wire value *)
Module Nodeid.
Definition ok (v : Z) : Prop := 0 ≤ v < 65536.

(** [Nodeid (unsigned area, unsigned tid)]. *)
Definition make (area tid : Z) : Z := u16 (Z.lor (Z.shiftl area 10) tid).

Definition area (v : Z) : Z := Z.shiftr v 10.
Definition tid (v : Z) : Z := Z.land v 1023.
Definition is_phase3 (v : Z) : bool := area v =? 0.

(** [s.find ('.')]: the text before and after the first dot. *)
Fixpoint find_dot (s : text) : option (text * text) :=
  match s with
  | [] => None
  | c :: s =>
      if decide (c = "."%char) then Some ([], s)
      else '(a, b) ← find_dot s; Some (c :: a, b)
  end.

(** [Nodeid::parse]. *)
Definition parse (s : text) : result Z :=
  match find_dot s with
  | None =>
      t ← parse_uint s;
      if 1023 <? t then Throw InvalidArgument else Ok (make 0 t)
  | Some (a, b) =>
      ar ← parse_uint a;
      t ← parse_uint b;
      if (ar <? 1) || (63 <? ar) then Throw InvalidArgument
      else if (t <? 1) || (1023 <? t) then Throw InvalidArgument
      else Ok (make ar t)
  end.

(** [Nodeid::str]. *)
Definition str (v : Z) : text :=
  if area v =? 0 then print_uint (tid v)
  else (print_uint (area v) ++ ["."%char] ++ print_uint (tid v))%list.
End Nodeid.

(** ** Macaddr *)
Module Macaddr.
(** A value is its six bytes. *)
Definition ok (m : Bytes) : Prop := len m = 6 ∧ bytes_ok m.
Definition zero : Bytes := replicate 6 0.

Definition hexval (c : ascii) : Z :=
  if isdigit c then code c - 48
  else if (97 <=? code c) && (code c <=? 102) then code c - 97 + 10
  else if (65 <=? code c) && (code c <=? 70) then code c - 65 + 10
  else -1.

(** The loop of [Macaddr::parse]; [i] counts the octets already read. *)
Fixpoint parse_from (n : nat) (i : Z) (s : text) : result Bytes :=
  match n with
  | O => match s with [] => Ok [] | _ => Throw InvalidArgument end
  | S n =>
      s ← (if i =? 0 then Ok s else
             match s with
             | c :: s => if bool_decide (c = "-"%char) || bool_decide (c = ":"%char)
                         then Ok s else Throw InvalidArgument
             | [] => Throw InvalidArgument
             end);
      match s with
      | h :: l :: s =>
          let hi := hexval h in
          let lo := hexval l in
          if (hi <? 0) || (lo <? 0) then Throw InvalidArgument
          else bs ← parse_from n (i + 1) s; Ok (u8 (Z.lor (Z.shiftl hi 4) lo) :: bs)
      | _ => Throw InvalidArgument
      end
  end.

(** [Macaddr::parse]. *)
Definition parse (s : text) : result Bytes := parse_from 6 0 s.

(** [Macaddr::from_nodeid]: AA-00-04-00, then the node address. *)
Definition from_nodeid (n : Z) : Bytes :=
  [170; 0; 4; 0; u8 (Z.land n 255); u8 (Z.shiftr n 8)].

Definition hexdigit (v : Z) : ascii := if v <? 10 then chr (48 + v) else chr (87 + v).

(** [%02x]. *)
Definition hex2 (b : Z) : text := [hexdigit (b / 16); hexdigit (b mod 16)].

(** [Macaddr::str]. *)
Fixpoint str (m : Bytes) : text :=
  match m with
  | [] => []
  | [b] => hex2 b
  | b :: m => (hex2 b ++ "-"%char :: str m)%list
  end.

Definition is_multicast (m : Bytes) : bool := negb (Z.land (default 0 (head m)) 1 =? 0).
Definition is_local (m : Bytes) : bool := negb (Z.land (default 0 (head m)) 2 =? 0).
End Macaddr.

(** [hexdump]: space separated hex, a newline every [per] octets. *)
Fixpoint hexdump_from (per i : Z) (b : Bytes) : text :=
  match b with
  | [] => []
  | x :: b =>
      (if (negb (i =? 0)) && (i mod per =? 0) then [ascii_of_nat 10]
       else if negb (i =? 0) then [" "%char] else [])
      ++ Macaddr.hex2 x ++ hexdump_from per (i + 1) b
  end%list.
Definition hexdump (b : Bytes) (per : Z) : text := hexdump_from per 0 b.

(** ** Version *)
Record Version := mkVersion { v1 : Z; v2 : Z; v3 : Z }.

#[export] Instance Version_eq_dec : EqDecision Version.
Proof. solve_decision. Defined.

Definition Version_ok (v : Version) : Prop :=
  byte_ok (v1 v) ∧ byte_ok (v2 v) ∧ byte_ok (v3 v).

Definition tiver_ph3 : Version := mkVersion 1 3 0.
Definition tiver_ph4 : Version := mkVersion 2 0 0.

(** [Version::parse]. *)
Definition Version_parse (s : text) : result Version :=
  match Nodeid.find_dot s with
  | None => Throw InvalidArgument
  | Some (a, s) =>
      match Nodeid.find_dot s with
      | None => Throw InvalidArgument
      | Some (b, c) =>
          x ← parse_uint a; y ← parse_uint b; z ← parse_uint c;
          Ok (mkVersion (u8 x) (u8 y) (u8 z))
      end
  end.

(** [Version::str]. *)
Definition Version_str (v : Version) : text :=
  (print_uint (v1 v) ++ "."%char :: print_uint (v2 v) ++ "."%char :: print_uint (v3 v))%list.

(** ** Names *)

(** [nodename]: 1 to 6 alphanumeric characters, at least one letter. *)
Definition nodename (s : text) : result text :=
  if forallb (λ c, isalpha c || isdigit c) s then
    if negb (existsb isalpha s) || (len s =? 0) || (6 <? len s)
    then Throw InvalidArgument
    else Ok (map toupper s)
  else Throw InvalidArgument.

(** The [while] that skips the leading letters of a circuit name. *)
Fixpoint skip_alpha (s : text) : text :=
  match s with
  | c :: s' => if isalpha c then skip_alpha s' else s
  | [] => []
  end.

(** [circname]: letters, then digits or hyphens. *)
Definition circname (s : text) : result text :=
  match s with
  | [] => Throw InvalidArgument
  | c :: _ =>
      if negb (isalpha c) then Throw InvalidArgument
      else if forallb (λ c, isdigit c || bool_decide (c = "-"%char)) (skip_alpha s)
      then Ok (map toupper s)
      else Throw InvalidArgument
  end.

(** [enum class NodeType], [phase_of] and [name_of]. *)
Inductive NodeType := l2router | l1router | endnode | phase3router | phase3endnode | phase2.

Definition phase_of (t : NodeType) : Z :=
  match t with
  | phase2 => 2
  | phase3router | phase3endnode => 3
  | _ => 4
  end.

Definition name_of (t : NodeType) : string :=
  match t with
  | l2router => "l2router" | l1router => "l1router" | endnode => "endnode"
  | phase3router => "phase3router" | phase3endnode => "phase3endnode"
  | phase2 => "phase2"
  end%string.

(** ** Decimal printing and reading *)

Definition digit_val (v : Z) (c : ascii) : Z := 10 * v + (code c - 48).

Lemma code_digit d : 0 ≤ d < 10 → code (chr (48 + d)) = 48 + d.
Proof. intros. apply code_chr. lia. Qed.

Lemma isdigit_chr d : 0 ≤ d < 10 → isdigit (chr (48 + d)) = true.
Proof.
  intros. unfold isdigit. rewrite code_digit by done.
  apply andb_true_iff. rewrite !Z.leb_le. lia.
Qed.

Lemma scan_uint_app v ds rest :
  Forall (λ c, isdigit c = true) ds →
  scan_uint v (ds ++ rest) = scan_uint (foldl digit_val v ds) rest.
Proof.
  intros H. revert v. induction H as [|c ds Hc Hds IH]; intros v; simpl; [done|].
  by rewrite Hc, IH.
Qed.

Lemma digits_digit fuel v :
  0 ≤ v → Forall (λ c, isdigit c = true) (digits fuel v).
Proof.
  revert v. induction fuel as [|n IH]; intros v Hv; simpl; constructor.
  - apply isdigit_chr. apply Z.mod_pos_bound. lia.
  - destruct (v <? 10); [done|]. apply IH. apply Z.div_pos; lia.
Qed.

Lemma digits_val fuel v :
  0 ≤ v < 10 ^ Z.of_nat fuel → foldr (λ c v, digit_val v c) 0 (digits fuel v) = v.
Proof.
  revert v. induction fuel as [|n IH]; intros v Hv; simpl.
  { simpl in Hv. lia. }
  unfold digit_val at 1. rewrite code_digit by (apply Z.mod_pos_bound; lia).
  pose proof (Z.div_mod v 10).
  destruct (Z.ltb_spec v 10); simpl.
  - rewrite Z.mod_small by lia. lia.
  - rewrite IH; [lia|]. split; [apply Z.div_pos; lia|].
    apply Z.div_lt_upper_bound; [lia|].
    rewrite <-Z.pow_succ_r by lia. rewrite <-Nat2Z.inj_succ. lia.
Qed.

Lemma print_uint_nonempty v : ∃ c s, print_uint v = c :: s.
Proof.
  unfold print_uint. destruct (rev (digits 10 v)) as [|c s] eqn:E; [|eauto].
  apply (f_equal (@rev _)) in E. rewrite rev_involutive in E. discriminate E.
Qed.

Lemma print_uint_digit v : 0 ≤ v → Forall (λ c, isdigit c = true) (print_uint v).
Proof. intros. apply Forall_rev. by apply digits_digit. Qed.

Lemma print_uint_val v : 0 ≤ v < 4294967296 → foldl digit_val 0 (print_uint v) = v.
Proof.
  intros. unfold print_uint. rewrite foldl_rev. apply (digits_val 10). lia.
Qed.

Lemma parse_print_uint v : 0 ≤ v < 4294967296 → parse_uint (print_uint v) = Ok v.
Proof.
  intros Hv. pose proof (print_uint_digit v ltac:(lia)) as Hd.
  destruct (print_uint_nonempty v) as (c & s & E).
  unfold parse_uint. rewrite E. rewrite E in Hd.
  inversion Hd as [|? ? Hc _]; subst. rewrite Hc, <-E.
  rewrite <-E in Hd. rewrite <-(app_nil_r (print_uint v)), scan_uint_app by done.
  rewrite print_uint_val by done. simpl.
  by destruct (Z.ltb_spec 4294967295 v); [lia|].
Qed.

Lemma isdigit_not_dot c : isdigit c = true → c ≠ "."%char.
Proof. by intros H ->. Qed.

Lemma find_dot_app s rest :
  Forall (λ c, isdigit c = true) s →
  Nodeid.find_dot (s ++ "."%char :: rest) = Some (s, rest).
Proof.
  induction 1 as [|c s Hc Hs IH]; simpl; [done|].
  rewrite decide_False by (by apply isdigit_not_dot). by rewrite IH.
Qed.

Lemma find_dot_None s :
  Forall (λ c, isdigit c = true) s → Nodeid.find_dot s = None.
Proof.
  induction 1 as [|c s Hc Hs IH]; simpl; [done|].
  rewrite decide_False by (by apply isdigit_not_dot). by rewrite IH.
Qed.

(** ** Node addresses *)

Lemma area_div v : Nodeid.area v = v / 1024.
Proof. unfold Nodeid.area. by rewrite Z.shiftr_div_pow2 by lia. Qed.

Lemma tid_mod v : Nodeid.tid v = v mod 1024.
Proof. unfold Nodeid.tid. by apply (Z.land_ones v 10). Qed.

Lemma area_range v : Nodeid.ok v → 0 ≤ Nodeid.area v < 64.
Proof.
  unfold Nodeid.ok. rewrite area_div. intros.
  split; [apply Z.div_pos; lia|apply Z.div_lt_upper_bound; lia].
Qed.

Lemma tid_range v : 0 ≤ Nodeid.tid v < 1024.
Proof. rewrite tid_mod. by apply Z.mod_pos_bound. Qed.

Lemma make_add a t :
  0 ≤ a < 64 → 0 ≤ t < 1024 → Nodeid.make a t = a * 1024 + t.
Proof.
  intros. unfold Nodeid.make. rewrite Z.lor_comm.
  assert (Z.lor t (Z.shiftl a 10) = t + a * 1024) as ->.
  { rewrite <-Z.add_nocarry_lor; [by rewrite Z.shiftl_mul_pow2 by lia|].
    apply Z.bits_inj'. intros i Hi. rewrite Z.land_spec, Z.bits_0, Z.shiftl_spec by done.
    destruct (Z.ltb_spec i 10).
    { rewrite (Z.testbit_neg_r a) by lia. apply andb_false_r. }
    rewrite <-(Z.mod_small t (2 ^ 10)), Z.mod_pow2_bits_high by lia. done. }
  rewrite u16_small by lia. lia.
Qed.

Lemma make_area_tid v : Nodeid.ok v → Nodeid.make (Nodeid.area v) (Nodeid.tid v) = v.
Proof.
  intros Hv. rewrite make_add by (apply area_range || apply tid_range; done).
  rewrite area_div, tid_mod. pose proof (Z.div_mod v 1024). lia.
Qed.

(** Printing a node address and reading it back gives the same 16 bit value,
    exactly for the addresses the configuration can name: every area-less number, and
    [area.node] with a non-zero node number; an address with an area and node number 0
    prints as text that [Nodeid::parse] refuses. *)
Theorem nodeid_parse_str (v : Z) :
  Nodeid.ok v →
  Nodeid.parse (Nodeid.str v) =
    if (Nodeid.area v =? 0) || negb (Nodeid.tid v =? 0) then Ok v
    else Throw InvalidArgument.
Proof.
  intros Hv. pose proof (area_range v Hv). pose proof (tid_range v).
  unfold Nodeid.str, Nodeid.parse.
  destruct (Z.eqb_spec (Nodeid.area v) 0) as [Ha|Ha]; simpl.
  - rewrite find_dot_None by (apply print_uint_digit; lia).
    rewrite parse_print_uint by lia. simpl.
    destruct (Z.ltb_spec 1023 (Nodeid.tid v)); [lia|].
    f_equal. rewrite <-Ha. by apply make_area_tid.
  - rewrite find_dot_app by (apply print_uint_digit; lia).
    rewrite !parse_print_uint by lia. simpl.
    destruct (Z.ltb_spec (Nodeid.area v) 1), (Z.ltb_spec 63 (Nodeid.area v)); try lia. simpl.
    destruct (Z.eqb_spec (Nodeid.tid v) 0), (Z.ltb_spec (Nodeid.tid v) 1),
      (Z.ltb_spec 1023 (Nodeid.tid v)); try lia; simpl; [done|].
    f_equal. by apply make_area_tid.
Qed.

Lemma nodeid_parse_str_witness :
  Nodeid.ok 30870 ∧
  Nodeid.parse (String.list_ascii_of_string "30.150") = Ok 30870.
Proof.
  assert (Nodeid.ok 30870) as H by (by unfold Nodeid.ok).
  split; [exact H|]. exact (nodeid_parse_str 30870 H).
Defined.

(** ** LAN addresses *)

Lemma hexval_hexdigit v : 0 ≤ v < 16 → Macaddr.hexval (Macaddr.hexdigit v) = v.
Proof.
  intros. unfold Macaddr.hexdigit, Macaddr.hexval, isdigit.
  destruct (Z.ltb_spec v 10); rewrite code_chr by lia.
  - rewrite !(proj2 (Z.leb_le _ _)) by lia. simpl. lia.
  - destruct (Z.leb_spec (87 + v) 57); [lia|]. rewrite andb_false_r.
    rewrite !(proj2 (Z.leb_le _ _)) by lia. simpl. lia.
Qed.

Lemma hexpair b : byte_ok b → u8 (Z.lor (Z.shiftl (b / 16) 4) (b mod 16)) = b.
Proof.
  unfold byte_ok. intros Hb.
  assert (Z.lor (Z.shiftl (b / 16) 4) (b mod 16) = b) as ->; [|by apply u8_small].
  rewrite <-Z.add_nocarry_lor.
  - rewrite Z.shiftl_mul_pow2 by lia. change (2 ^ 4) with 16. pose proof (Z.div_mod b 16). lia.
  - apply Z.bits_inj'. intros i Hi. rewrite Z.land_spec, Z.bits_0, Z.shiftl_spec by done.
    destruct (Z.ltb_spec i 4).
    { by rewrite (Z.testbit_neg_r (b / 16)) by lia. }
    change 16 with (2 ^ 4). rewrite (Z.mod_pow2_bits_high b) by lia. apply andb_false_r.
Qed.

Lemma mac_parse_from_str m n i :
  bytes_ok m → length m = n → 0 ≤ i → m ≠ [] →
  Macaddr.parse_from n i (if i =? 0 then Macaddr.str m else "-"%char :: Macaddr.str m)
  = Ok m.
Proof.
  intros Hm. revert n i. induction Hm as [|b m Hb Hm IH]; intros n i Hn Hi Hne; [done|].
  destruct n as [|n]; [done|]. injection Hn as Hn.
  assert ((if i =? 0 then Ok (Macaddr.str (b :: m)) else
             Ok (Macaddr.str (b :: m))) = Ok (Macaddr.str (b :: m))) as E
    by by destruct (i =? 0).
  assert (0 ≤ b / 16 < 16 ∧ 0 ≤ b mod 16 < 16) as [Hh Hl].
  { unfold byte_ok in Hb. split; [|by apply Z.mod_pos_bound].
    split; [apply Z.div_pos; lia|apply Z.div_lt_upper_bound; lia]. }
  assert (∀ s, Macaddr.parse_from n (i + 1) s = Ok m →
    Macaddr.parse_from (S n) i (if i =? 0 then Macaddr.hex2 b ++ s
                                else "-"%char :: Macaddr.hex2 b ++ s) = Ok (b :: m)) as Hstep.
  { intros s Hs. simpl. destruct (i =? 0); simpl;
      rewrite !hexval_hexdigit by lia;
      rewrite !(proj2 (Z.ltb_ge _ _)) by lia; simpl; rewrite Hs; simpl;
      by rewrite hexpair. }
  destruct m as [|b' m].
  - simpl Macaddr.str. specialize (Hstep []). rewrite app_nil_r in Hstep.
    apply Hstep. subst n. done.
  - apply (Hstep ("-"%char :: Macaddr.str (b' :: m))).
    specialize (IH n (i + 1) Hn ltac:(lia) ltac:(done)).
    destruct (Z.eqb_spec (i + 1) 0); [lia|]. exact IH.
Qed.

Lemma macaddr_parse_str m : Macaddr.ok m → Macaddr.parse (Macaddr.str m) = Ok m.
Proof.
  intros [Hl Hm]. unfold Macaddr.parse.
  apply (mac_parse_from_str m 6 0); [done|unfold len in Hl; lia|lia|by intros ->].
Qed.

Lemma from_nodeid_ok v : Nodeid.ok v → Macaddr.ok (Macaddr.from_nodeid v).
Proof.
  split; [done|]. repeat constructor; try (unfold byte_ok; lia); apply u8_range.
Qed.

(** The Phase IV address carries the node address: it can be read back. *)
Lemma from_nodeid_inj v w :
  Nodeid.ok v → Nodeid.ok w → Macaddr.from_nodeid v = Macaddr.from_nodeid w → v = w.
Proof.
  unfold Nodeid.ok, Macaddr.from_nodeid. intros Hv Hw [= H1 H2].
  assert (∀ x, Z.land x 255 = x mod 256) as E by (intros; by apply (Z.land_ones x 8)).
  rewrite !E in H1. unfold u8 in *. rewrite !Z.shiftr_div_pow2 in H2 by lia.
  change (2 ^ 8) with 256 in H2. rewrite !Z.mod_mod in H1 by lia.
  rewrite !(Z.mod_small (_ / _)) in H2
    by (split; [apply Z.div_pos; lia|apply Z.div_lt_upper_bound; lia]).
  rewrite (Z.div_mod v 256), (Z.div_mod w 256) by lia. congruence.
Qed.

(** A LAN address survives printing and parsing, and the Phase IV address derived
    from a node address (AA-00-04-00 and the address in little endian order) is a valid
    LAN address that determines the node: different nodes never share one. *)
Theorem macaddr_faithful (m : Bytes) (v w : Z) :
  Macaddr.ok m → Nodeid.ok v → Nodeid.ok w →
  Macaddr.parse (Macaddr.str m) = Ok m ∧
  Macaddr.ok (Macaddr.from_nodeid v) ∧
  (Macaddr.from_nodeid v = Macaddr.from_nodeid w ↔ v = w).
Proof.
  intros Hm Hv Hw. split; [by apply macaddr_parse_str|].
  split; [by apply from_nodeid_ok|].
  split; [by apply from_nodeid_inj|by intros ->].
Qed.

Lemma macaddr_faithful_witness :
  Macaddr.parse (String.list_ascii_of_string "aa-00-04-00-14-04") = Ok [170; 0; 4; 0; 20; 4] ∧
  Macaddr.from_nodeid 1044 = [170; 0; 4; 0; 20; 4].
Proof.
  assert (Macaddr.ok [170; 0; 4; 0; 20; 4]) as H.
  { split; [done|]. by apply (bool_decide_unpack _). }
  destruct (macaddr_faithful _ 1044 1044 H) as [H1 _]; [by unfold Nodeid.ok..|].
  split; [exact H1|reflexivity].
Defined.
