(* ===== verification/Codec.v ===== *)
(** Field codecs and packet layouts: [include/decnet/packet/field.h],
    [group.h] (the [BM] groups) and [packet.h].

    A codec is a pair of an encoder and a decoder; a layout row binds one to a
    member of a packet; a packet class is its list of rows.  The class
    [CodecOk] is what a codec promises to a layout, [RowOk] what a row
    promises to a packet, and [packet_roundtrip] what every packet gets from
    its rows. *)

From S2P Require Import Prelude Buffer Types.
#[local] Open Scope Z_scope.

(** ** Codecs *)

Record codec (A : Type) := Codec {
  c_encode : A → result Bytes;
  c_decode : dec A;
}.
Arguments Codec {_} _ _.
Arguments c_encode {_} _ _.
Arguments c_decode {_} _ _.

(** [B<N>]: an unsigned little endian integer in N bytes. *)
Definition B (N : nat) : codec Z :=
  Codec (λ v, if (Z.of_nat N <? 8) && (2 ^ (8 * Z.of_nat N) <=? v)
              then Throw FieldOverflow else Ok (Encoder.uint v N))
        (Decoder.uint N).

(** [SIGNED<N>]: two's complement in N bytes; the value type is [int64_t]. *)
Definition SIGNED (N : nat) : codec Z :=
  let lim := 2 ^ (8 * Z.of_nat N - 1) in
  Codec (λ v, if (Z.of_nat N <? 8) && ((v <? - lim) || (lim <=? v))
              then Throw FieldOverflow else Ok (Encoder.uint (u64 v) N))
        (λ d, '(u, d) ← Decoder.uint N d;
              let u := if (Z.of_nat N <? 8) && negb (Z.land u lim =? 0)
                       then Z.lor u (u64 (Z.lnot (u64 (Z.shiftl lim 1 - 1)))) else u in
              Ok (s64 u, d)).

(** [BV<N>]: exactly N bytes, padded on the right. *)
Definition BV (N : nat) : codec Bytes :=
  Codec (λ v, if Z.of_nat N <? len v then Throw FieldOverflow
              else Ok (Encoder.raw v ++ Encoder.zeros (N - length v)))
        (Decoder.raw N).

(** [I<Max>]: a one byte count, then that many bytes. *)
Definition I (Max : Z) : codec Bytes :=
  Codec (λ v, if Max <? len v then Throw FieldOverflow
              else Ok (Encoder.byte (len v) ++ Encoder.raw v))
        (λ d, '(n, d) ← Decoder.byte d;
              if Max <? n then Throw FieldOverflow else Decoder.raw (Z.to_nat n) d).

(** [EX<MaxBytes>]: seven bits a byte, the high bit says another follows.
    [k] is how many more bytes may be written. *)
Fixpoint ex_encode (k : nat) (x : Z) : result Bytes :=
  match k with
  | O => Throw FieldOverflow
  | S k =>
      let b := Z.land x 127 in
      let x := Z.shiftr x 7 in
      if x =? 0 then Ok (Encoder.byte b)
      else bs ← ex_encode k x; Ok (Encoder.byte (Z.lor b 128) ++ bs)
  end.

(** The decoding loop: [k] more bytes allowed, [n] read so far. *)
Fixpoint ex_decode (k : nat) (n : Z) (v : Z) : dec Z := λ d,
  match k with
  | O => Throw FieldOverflow
  | S k =>
      '(b, d) ← Decoder.byte d;
      let v := Z.lor v (u32 (Z.shiftl (Z.land b 127) (7 * n))) in
      if Z.land b 128 =? 0 then Ok (v, d) else ex_decode k (n + 1) v d
  end.

Definition EX (MaxBytes : nat) : codec Z :=
  Codec (ex_encode MaxBytes) (ex_decode MaxBytes 0 0).

(** [Payload]: everything left in the buffer. *)
Definition Payload : codec Bytes := Codec (λ v, Ok (Encoder.raw v)) Decoder.rest.

(** The self-coding value types. *)
Definition NodeidField : codec Z := Codec (λ v, Ok (Encoder.uint v 2))
  (λ d, '(v, d) ← Decoder.uint 2 d; Ok (u16 v, d)).
Definition MacaddrField : codec Bytes := Codec (λ v, Ok (Encoder.raw v)) (Decoder.raw 6).
Definition VersionField : codec Version :=
  Codec (λ v, Ok (Encoder.byte (v1 v) ++ Encoder.byte (v2 v) ++ Encoder.byte (v3 v)))
        (λ d, '(a, d) ← Decoder.byte d; '(b, d) ← Decoder.byte d;
              '(c, d) ← Decoder.byte d; Ok (mkVersion a b c, d)).

#[local] Opaque Encoder.uint Decoder.uint Decoder.raw Decoder.byte Decoder.need.

(** ** What a codec promises

    Every value in its domain encodes, and decoding the result, whatever
    follows it, gives the value back and stops at its end. *)
Class CodecOk {A} (c : codec A) (wf : A → Prop) : Prop :=
  codec_ok : ∀ v, wf v → ∃ bs, c_encode c v = Ok bs ∧ bytes_ok bs ∧
    ∀ rest, c_decode c (bs ++ rest) = Ok (v, rest).

(** The weaker promise of a codec that takes the whole rest of the buffer. *)
Class CodecEnd {A} (c : codec A) (wf : A → Prop) : Prop :=
  codec_end : ∀ v, wf v → ∃ bs, c_encode c v = Ok bs ∧ bytes_ok bs ∧
    c_decode c bs = Ok (v, []).

#[export] Instance codec_ok_end {A} (c : codec A) wf : CodecOk c wf → CodecEnd c wf.
Proof.
  intros H v Hv. destruct (H v Hv) as (bs & ? & ? & E).
  exists bs. rewrite <-(app_nil_r bs) at 3. auto.
Qed.

(** A count field of N bytes. *)
Definition fits (N : nat) (v : Z) : Prop := 0 ≤ v < 2 ^ (8 * Z.of_nat N).

#[export] Instance B_ok N : CodecOk (B N) (fits N).
Proof.
  intros v [H0 Hv]. exists (Encoder.uint v N). simpl.
  rewrite (proj2 (Z.leb_gt _ _)), andb_false_r by done.
  split; [done|]. split; [apply uint_ok|]. intros. by apply uint_app.
Qed.

Definition signed_fits (N : nat) (v : Z) : Prop :=
  - 2 ^ (8 * Z.of_nat N - 1) ≤ v < 2 ^ (8 * Z.of_nat N - 1).

(** The one width the protocols use: a signed byte. *)
#[export] Instance SIGNED1_ok : CodecOk (SIGNED 1) (signed_fits 1).
Proof.
  intros v Hv. unfold signed_fits in Hv. change (2 ^ (8 * Z.of_nat 1 - 1)) with 128 in Hv.
  exists (Encoder.uint (u64 v) 1).
  unfold SIGNED. cbn [c_encode c_decode]. change (2 ^ (8 * Z.of_nat 1 - 1)) with 128.
  change (Z.opp 128) with (-128) in *.
  rewrite (proj2 (Z.ltb_ge v (-128))), (proj2 (Z.leb_gt 128 v)) by lia.
  split; [done|]. split; [apply uint_ok|]. intros rest.
  assert (Encoder.uint (u64 v) 1 = Encoder.uint (v mod 256) 1) as ->.
  { rewrite !uint_1. f_equal. unfold u8, u64.
    rewrite Z.mod_mod by lia. apply Z.mod_mod_divide. by exists 72057594037927936. }
  rewrite uint_app.
  2: { change (2 ^ (8 * Z.of_nat 1)) with 256. by apply Z.mod_pos_bound. }
  simpl. do 2 f_equal. change (Z.pow_pos 2 7) with 128.
  assert (∀ x, -128 ≤ x < 128 →
    s64 (if negb (Z.land (x mod 256) 128 =? 0)
         then Z.lor (x mod 256) 18446744073709551360 else x mod 256) = x) as H; [|by apply H].
  clear. intros x Hx.
  assert (forallb (λ n, let x := Z.of_nat n - 128 in
    s64 (if negb (Z.land (x mod 256) 128 =? 0)
         then Z.lor (x mod 256) 18446744073709551360 else x mod 256) =? x) (seq 0 256) = true)
    as Hall by (by vm_compute).
  rewrite forallb_forall in Hall. specialize (Hall (Z.to_nat (x + 128))).
  rewrite Z2Nat.id in Hall by lia. replace (x + 128 - 128) with x in Hall by lia.
  apply Z.eqb_eq, Hall, in_seq. lia.
Qed.

Definition exactly (N : nat) (v : Bytes) : Prop := length v = N ∧ bytes_ok v.

#[export] Instance BV_ok N : CodecOk (BV N) (exactly N).
Proof.
  intros v [Hl Hv]. exists v. unfold BV, len. simpl.
  rewrite Hl, Z.ltb_irrefl, Nat.sub_diag. simpl. rewrite app_nil_r.
  split; [done|]. split; [done|]. intros. subst N. apply raw_app.
Qed.

Definition image (Max : Z) (v : Bytes) : Prop := len v ≤ Max ∧ Max ≤ 255 ∧ bytes_ok v.

#[export] Instance I_ok Max : CodecOk (I Max) (image Max).
Proof.
  intros v (Hl & Hm & Hv). exists (len v :: v). simpl.
  rewrite (proj2 (Z.ltb_ge _ _)) by done. pose proof (len_nonneg v).
  unfold Encoder.byte. rewrite u8_small by lia.
  split; [done|].
  split; [apply bytes_ok_cons; unfold byte_ok; split; [lia|done]|]. intros rest.
  rewrite byte_app. simpl. rewrite (proj2 (Z.ltb_ge _ _)) by done.
  unfold len. rewrite Nat2Z.id. apply raw_app.
Qed.

#[export] Instance Payload_end : CodecEnd Payload bytes_ok.
Proof. intros v Hv. by exists v. Qed.

#[export] Instance NodeidField_ok : CodecOk NodeidField Nodeid.ok.
Proof.
  intros v Hv. exists (Encoder.uint v 2). simpl.
  split; [done|]. split; [apply uint_ok|]. intros.
  rewrite uint_app by exact Hv. simpl. by rewrite u16_small.
Qed.

#[export] Instance MacaddrField_ok : CodecOk MacaddrField (exactly 6).
Proof.
  intros v [Hl Hv]. exists v. split; [done|]. split; [done|].
  intros. simpl. rewrite <-Hl. apply raw_app.
Qed.

#[export] Instance VersionField_ok : CodecOk VersionField Version_ok.
Proof.
  intros [a b c] (Ha & Hb & Hc). exists [a; b; c]. simpl in *.
  unfold Encoder.byte. rewrite !u8_small by done. simpl.
  split; [done|].
  split; [repeat (apply bytes_ok_cons; split; [done|]); apply bytes_ok_nil|]. intros.
  change ([a; b; c] ++ rest) with (a :: b :: c :: rest).
  rewrite byte_app. simpl. rewrite byte_app. simpl. by rewrite byte_app.
Qed.

(** *** The extensible integer *)

Lemma ex_fits_step k x :
  0 ≤ x < 2 ^ (7 * Z.of_nat (S k)) → 0 ≤ Z.shiftr x 7 < 2 ^ (7 * Z.of_nat k).
Proof.
  intros Hx. rewrite Z.shiftr_div_pow2 by lia.
  replace (7 * Z.of_nat (S k)) with (7 + 7 * Z.of_nat k) in Hx by lia.
  rewrite Z.pow_add_r in Hx by lia.
  split; [apply Z.div_pos; lia|]. apply Z.div_lt_upper_bound; lia.
Qed.

Lemma ex_split x : 0 ≤ x → Z.lor (Z.land x 127) (Z.shiftl (Z.shiftr x 7) 7) = x.
Proof.
  intros. change 127 with (Z.ones 7). rewrite <-Z.ldiff_ones_r by lia.
  rewrite Z.lor_comm. apply Z.lor_ldiff_and.
Qed.

Lemma ex_decode_encode k n v x rest :
  0 ≤ n → 0 ≤ x < 2 ^ (7 * Z.of_nat k) → Z.shiftl x (7 * n) < 4294967296 → k ≠ O →
  ∃ bs, ex_encode k x = Ok bs ∧ bytes_ok bs ∧
    ex_decode k n v (bs ++ rest) = Ok (Z.lor v (Z.shiftl x (7 * n)), rest).
Proof.
  revert n v x. induction k as [|k IH]; intros n v x Hn Hx Hlt Hk; [done|].
  assert (Z.land x 127 = x mod 128) as Hland by (by apply (Z.land_ones x 7)).
  assert (0 ≤ Z.land x 127 < 128) as Hb by (rewrite Hland; by apply Z.mod_pos_bound).
  assert (∀ y, 0 ≤ y ≤ x → 0 ≤ Z.shiftl y (7 * n) < 4294967296) as Hmono.
  { intros y Hy. rewrite !Z.shiftl_mul_pow2 in * by lia. nia. }
  simpl. destruct (Z.eqb_spec (Z.shiftr x 7) 0) as [Hz|Hz].
  - pose proof (ex_split x ltac:(lia)) as Hs. rewrite Hz, Z.shiftl_0_l, Z.lor_0_r in Hs.
    exists [Z.land x 127]. unfold Encoder.byte. rewrite u8_small by lia.
    split; [done|]. split; [by repeat constructor; lia|]. simpl.
    rewrite byte_app. simpl. rewrite <-Z.land_assoc. simpl. rewrite Z.land_0_r. simpl.
    rewrite Hs. rewrite Hs, u32_small by (apply Hmono; lia). done.
  - assert (k ≠ O).
    { intros ->. apply Hz. change (2 ^ (7 * Z.of_nat 1)) with 128 in Hx.
      rewrite Z.shiftr_div_pow2 by lia. apply Z.div_small. done. }
    destruct (IH (n + 1) (Z.lor v (u32 (Z.shiftl (Z.land x 127) (7 * n)))) (Z.shiftr x 7))
      as (bs & E & Hbs & D); [lia|by apply ex_fits_step| |done|].
    { rewrite Z.shiftl_mul_pow2, Z.shiftr_div_pow2 by lia.
      replace (7 * (n + 1)) with (7 + 7 * n) by lia. rewrite Z.pow_add_r by lia.
      rewrite Z.shiftl_mul_pow2 in Hlt by lia.
      pose proof (Z.mul_div_le x (2 ^ 7) ltac:(lia)). nia. }
    assert (Z.lor (Z.land x 127) 128 = Z.land x 127 + 128) as Hor.
    { symmetry. apply Z.add_nocarry_lor. rewrite <-Z.land_assoc. simpl. apply Z.land_0_r. }
    exists ((Z.land x 127 + 128) :: bs). rewrite E. simpl. unfold Encoder.byte.
    rewrite Hor, u8_small by lia.
    split; [done|]. split; [apply bytes_ok_cons; unfold byte_ok; split; [lia|done]|].
    rewrite byte_app. simpl. rewrite <-Hor.
    assert (Z.land (Z.lor (Z.land x 127) 128) 128 = 128) as ->.
    { rewrite Z.land_lor_distr_l, <-Z.land_assoc. simpl. by rewrite Z.land_0_r. }
    assert (Z.land (Z.lor (Z.land x 127) 128) 127 = Z.land x 127) as ->.
    { rewrite Z.land_lor_distr_l, <-Z.land_assoc. simpl. by rewrite Z.lor_0_r. }
    simpl. rewrite D. do 2 f_equal.
    rewrite u32_small, <-Z.lor_assoc by (apply Hmono; rewrite Hland;
      split; [by apply Z.mod_pos_bound|apply Z.mod_le; lia]). f_equal.
    rewrite <-(ex_split x) at 3 by lia. rewrite Z.shiftl_lor, Z.shiftl_shiftl by lia.
    do 2 f_equal. lia.
Qed.

(** The values [EX<k>] can carry: seven bits a byte, and 32 in all. *)
Definition ex_fits (k : nat) (v : Z) : Prop :=
  k ≠ O ∧ 0 ≤ v < 2 ^ (7 * Z.of_nat k) ∧ v < 4294967296.

#[export] Instance EX_ok k : CodecOk (EX k) (ex_fits k).
Proof.
  intros v (Hk & Hv & H32).
  pose proof (λ rest, ex_decode_encode k 0 0 v rest) as H.
  destruct (H []) as (bs & E & Hbs & _); [lia|done|by rewrite Z.shiftl_0_r|done|].
  exists bs. split; [done|]. split; [done|]. intros rest.
  destruct (H rest) as (bs' & E' & _ & D); [lia|done|by rewrite Z.shiftl_0_r|done|].
  simplify_eq. rewrite E in E'. injection E' as <-. simpl. rewrite D.
  by rewrite Z.mul_0_r, Z.shiftl_0_r.
Qed.
