(* ===== verification/Layout.v ===== *)
(** Packet layouts: the rows of [include/decnet/packet/field.h], the [BM]
    groups of [group.h], the [Packet] base of [packet.h] and the class lookup
    of [indexed.h].

    A row reads and writes members of a packet of type [P].  [RowOk r wf copy]
    is a row's contract: on a packet whose members satisfy [wf] it encodes, and
    decoding the result into any packet [q] copies exactly those members over,
    leaving the rest of the buffer.  A whole layout inherits the contract from
    its rows ([LayoutOk]), and [packet_roundtrip] follows for every packet. *)

From S2P Require Import Prelude Buffer Types Codec.
#[local] Open Scope Z_scope.

(** ** Rows *)

Record row (P : Type) := Row {
  r_encode : P → result Bytes;
  r_decode : P → dec P;
}.
Arguments Row {_} _ _.
Arguments r_encode {_} _ _.
Arguments r_decode {_} _ _ _.

(** [field<Codec> (&Packet::member, "name")]: [FieldSpec], which turns every
    decode error of the codec into its own. *)
Definition field {P A} (c : codec A) (get : P → A) (set : A → P → P) : row P :=
  Row (λ p, rethrow FieldOverflow (c_encode c (get p)))
      (λ p d, rethrow DecodeError ('(v, d) ← c_decode c d; Ok (set v p, d))).

(** [reserved<RES<N>, Packet> ()]: written as zero, skipped on input. *)
Definition reserved {P} (N : nat) : row P :=
  Row (λ _, Ok (Encoder.zeros N)) (λ p d, '(_, d) ← Decoder.raw N d; Ok (p, d)).

(** ** [BM]: named bit ranges packed into one integer

    [BMBit]: the accessors include the conversions [detail::to_bits] and
    [detail::from_bits] of the member's type. *)
Record bmbit (P : Type) := bmf {
  b_get : P → Z;
  b_set : Z → P → P;
  b_start : Z;
  b_bits : Z;
}.
Arguments bmf {_} _ _ _ _.
Arguments b_get {_} _ _.
Arguments b_set {_} _ _ _.
Arguments b_start {_} _.
Arguments b_bits {_} _.

(** [from_bits<bool>], and [to_bits (bool)]. *)
Definition to_bool (v : Z) : bool := negb (v =? 0).
Definition of_bool (b : bool) : Z := if b then 1 else 0.

Definition topbit {P} (b : bmbit P) : Z := b_start b + b_bits b - 1.

(** The width of the group: [(topbit + 8) / 8] bytes. *)
Definition bm_flen {P} (bits : list (bmbit P)) : nat :=
  Z.to_nat ((foldl (λ t b, Z.max t (topbit b)) 0 bits + 8) / 8).

(** The accumulation of [BMGroup::encode]. *)
Fixpoint bm_field {P} (bits : list (bmbit P)) (p : P) (fld : Z) : result Z :=
  match bits with
  | [] => Ok fld
  | b :: bits =>
      let v := b_get b p in
      if (b_bits b <? 64) && negb (Z.shiftr v (b_bits b) =? 0)
      then Throw FieldOverflow
      else bm_field bits p (Z.lor fld (u64 (Z.shiftl v (b_start b))))
  end.

(** The extraction of [BMGroup::decode]. *)
Definition bm_mask {P} (b : bmbit P) : Z :=
  if 64 <=? b_bits b then 2 ^ 64 - 1 else Z.shiftl 1 (b_bits b) - 1.
Definition bm_extract {P} (bits : list (bmbit P)) (fld : Z) (p : P) : P :=
  foldl (λ p b, b_set b (Z.land (Z.shiftr fld (b_start b)) (bm_mask b)) p) p bits.

(** [bm<Packet> (bits...)]. *)
Definition bm {P} (bits : list (bmbit P)) : row P :=
  Row (λ p, fld ← bm_field bits p 0; Ok (Encoder.uint fld (bm_flen bits)))
      (λ p d, '(fld, d) ← Decoder.uint (bm_flen bits) d; Ok (bm_extract bits fld p, d)).

(** ** [Packet] *)

(** [Packet::encode_to]: every row in turn. *)
Fixpoint encode_rows {P} (rows : list (row P)) (p : P) : result Bytes :=
  match rows with
  | [] => Ok []
  | r :: rows => b ← r_encode r p; bs ← encode_rows rows p; Ok (b ++ bs)
  end.

Fixpoint decode_rows {P} (rows : list (row P)) (p : P) : dec P := λ d,
  match rows with
  | [] => Ok (p, d)
  | r :: rows => '(p, d) ← r_decode r p d; decode_rows rows p d
  end.

(** [enum class Extra]. *)
Inductive Extra := reject | allow.

(** [Packet::decode]: also the number of bytes consumed. *)
Definition packet_decode {P} (policy : Extra) (rows : list (row P)) (p : P) (buf : Bytes) :
    result (P * Z) :=
  '(p, d) ← decode_rows rows p buf;
  match policy with
  | reject => if Decoder.empty d then Ok (p, len buf - len d) else Throw ExtraData
  | allow => Ok (p, len buf - len d)
  end.

(** [Packet::try_parse]. *)
Definition try_parse {P} (policy : Extra) (rows : list (row P)) (p0 : P) (buf : Bytes) :
    option P :=
  match packet_decode policy rows p0 buf with
  | Ok (p, _) => Some p
  | Throw _ => None
  end.

(** ** Contracts *)

Class RowOk {P} (r : row P) (wf : P → Prop) (copy : P → P → P) : Prop :=
  row_ok : ∀ p, wf p → ∃ bs, r_encode r p = Ok bs ∧ bytes_ok bs ∧
    ∀ q rest, r_decode r q (bs ++ rest) = Ok (copy p q, rest).

Class RowEnd {P} (r : row P) (wf : P → Prop) (copy : P → P → P) : Prop :=
  row_end : ∀ p, wf p → ∃ bs, r_encode r p = Ok bs ∧ bytes_ok bs ∧
    ∀ q, r_decode r q bs = Ok (copy p q, []).

(** The contract of the leading rows of a layout, whatever follows them. *)
Class PrefixOk {P} (rows : list (row P)) (wf : P → Prop) (copy : P → P → P) : Prop :=
  prefix_ok : ∀ p, wf p → ∃ bs, encode_rows rows p = Ok bs ∧ bytes_ok bs ∧
    ∀ q rest, decode_rows rows q (bs ++ rest) = Ok (copy p q, rest).

Class LayoutOk {P} (rows : list (row P)) (wf : P → Prop) (copy : P → P → P) : Prop :=
  layout_ok : ∀ p, wf p → ∃ bs, encode_rows rows p = Ok bs ∧ bytes_ok bs ∧
    ∀ q, decode_rows rows q bs = Ok (copy p q, []).

#[export] Instance field_row_ok {P A} (c : codec A) cwf (get : P → A) set :
  CodecOk c cwf → RowOk (field c get set) (λ p, cwf (get p)) (λ p q, set (get p) q).
Proof.
  intros H p Hp. destruct (H (get p) Hp) as (bs & E & Hbs & D).
  exists bs. simpl. rewrite E. split; [done|]. split; [done|].
  intros. by rewrite D.
Qed.

#[export] Instance field_row_end {P A} (c : codec A) cwf (get : P → A) set :
  CodecEnd c cwf → RowEnd (field c get set) (λ p, cwf (get p)) (λ p q, set (get p) q).
Proof.
  intros H p Hp. destruct (H (get p) Hp) as (bs & E & Hbs & D).
  exists bs. simpl. rewrite E. split; [done|]. split; [done|].
  intros. by rewrite D.
Qed.

Lemma row_ok_end {P} (r : row P) wf copy : RowOk r wf copy → RowEnd r wf copy.
Proof.
  intros H p Hp. destruct (H p Hp) as (bs & E & Hbs & D).
  exists bs. split; [done|]. split; [done|]. intros q.
  rewrite <-(app_nil_r bs). apply D.
Qed.

#[export] Instance reserved_row_ok {P} N :
  RowOk (@reserved P N) (λ _, True) (λ _ q, q).
Proof.
  intros p _. exists (Encoder.zeros N). split; [done|].
  split; [apply bytes_ok_zeros|]. intros. simpl. unfold Encoder.zeros.
  rewrite <-(length_replicate N 0) at 1. by rewrite raw_app.
Qed.

#[export] Instance layout_nil {P} : LayoutOk (P:=P) [] (λ _, True) (λ _ q, q).
Proof. intros p _. exists []. split; [done|]. split; [constructor|done]. Qed.

#[export] Instance layout_last {P} (r : row P) wf copy :
  RowEnd r wf copy → LayoutOk [r] wf copy | 20.
Proof.
  intros H p Hp. destruct (H p Hp) as (bs & E & Hbs & D).
  exists bs. simpl. rewrite E. simpl. rewrite app_nil_r.
  split; [done|]. split; [done|]. intros. by rewrite D.
Qed.

#[export] Instance layout_cons {P} (r : row P) rows wf copy wf' copy' :
  RowOk r wf copy → LayoutOk rows wf' copy' →
  LayoutOk (r :: rows) (λ p, wf p ∧ wf' p) (λ p q, copy' p (copy p q)) | 10.
Proof.
  intros H1 H2 p [Hp Hp'].
  destruct (H1 p Hp) as (b & E & Hb & D), (H2 p Hp') as (bs & E' & Hbs & D').
  exists (b ++ bs). simpl. rewrite E. simpl. rewrite E'. simpl.
  split; [done|]. split; [by apply bytes_ok_app|].
  intros. rewrite D. simpl. apply D'.
Qed.

#[export] Instance prefix_nil {P} : PrefixOk (P:=P) [] (λ _, True) (λ _ q, q).
Proof. intros p _. exists []. split; [done|]. split; [constructor|done]. Qed.

#[export] Instance prefix_cons {P} (r : row P) rows wf copy wf' copy' :
  RowOk r wf copy → PrefixOk rows wf' copy' →
  PrefixOk (r :: rows) (λ p, wf p ∧ wf' p) (λ p q, copy' p (copy p q)).
Proof.
  intros H1 H2 p [Hp Hp'].
  destruct (H1 p Hp) as (b & E & Hb & D), (H2 p Hp') as (bs & E' & Hbs & D').
  exists (b ++ bs). simpl. rewrite E. simpl. rewrite E'. simpl.
  split; [done|]. split; [by apply bytes_ok_app|].
  intros. rewrite <-app_assoc, D. simpl. apply D'.
Qed.

Lemma encode_rows_app {P} (rs rs' : list (row P)) p bs bs' :
  encode_rows rs p = Ok bs → encode_rows rs' p = Ok bs' →
  encode_rows (rs ++ rs') p = Ok (bs ++ bs').
Proof.
  revert bs. induction rs as [|r rs IH]; intros bs H H'; simpl in *.
  { by injection H as <-. }
  apply bind_Ok in H as (b & -> & H). apply bind_Ok in H as (c & Ec & [= <-]). simpl.
  rewrite (IH c) by done. simpl. by rewrite app_assoc.
Qed.

Lemma decode_rows_app {P} (rs rs' : list (row P)) p d q d' :
  decode_rows rs p d = Ok (q, d') → decode_rows (rs ++ rs') p d = decode_rows rs' q d'.
Proof.
  revert p d. induction rs as [|r rs IH]; intros p d H; simpl in *.
  { by injection H as <- <-. }
  apply bind_Ok in H as ([p1 d1] & -> & H). simpl. by apply IH.
Qed.

(** *** Bit groups *)

(** The ranges are listed from low to high, disjoint, and fit 64 bits. *)
Fixpoint bm_sorted {P} (lo : Z) (bits : list (bmbit P)) : bool :=
  match bits with
  | [] => true
  | b :: bits =>
      (lo <=? b_start b) && (0 <? b_bits b) && (b_start b + b_bits b <=? 63)
      && bm_sorted (b_start b + b_bits b) bits
  end.

Definition bm_wf {P} (bits : list (bmbit P)) (p : P) : Prop :=
  Forall (λ b, 0 ≤ b_get b p < 2 ^ b_bits b) bits.

Definition bm_copy {P} (bits : list (bmbit P)) (p q : P) : P :=
  foldl (λ q b, b_set b (b_get b p) q) q bits.

(** The field as a number: the values at their places. *)
Definition bm_value {P} (bits : list (bmbit P)) (p : P) : Z :=
  foldr (λ b v, Z.lor (Z.shiftl (b_get b p) (b_start b)) v) 0 bits.

Lemma bm_value_low {P} lo (bits : list (bmbit P)) p i :
  0 ≤ lo → bm_sorted lo bits = true → i < lo → Z.testbit (bm_value bits p) i = false.
Proof.
  revert lo. induction bits as [|b bits IH]; intros lo Hlo Hs Hi; simpl in *; zbool.
  - apply Z.bits_0.
  - rewrite Z.lor_spec. apply orb_false_iff. split.
    + destruct (decide (i < 0)); [apply Z.testbit_neg_r; lia|].
      rewrite Z.shiftl_spec by lia. apply Z.testbit_neg_r. lia.
    + apply (IH (b_start b + b_bits b)); [lia|done|lia].
Qed.

Lemma shiftl_bound v s n m :
  0 ≤ v < 2 ^ n → 0 ≤ s → 0 ≤ n → s + n ≤ m → 0 ≤ Z.shiftl v s < 2 ^ m.
Proof.
  intros Hv Hs Hn Hm. rewrite Z.shiftl_mul_pow2 by done.
  assert (2 ^ (s + n) ≤ 2 ^ m) by (apply Z.pow_le_mono_r; lia).
  rewrite Z.pow_add_r in * by lia. nia.
Qed.

Lemma bm_field_value {P} lo (bits : list (bmbit P)) p f :
  0 ≤ lo → bm_sorted lo bits = true → bm_wf bits p →
  bm_field bits p f = Ok (Z.lor f (bm_value bits p)).
Proof.
  intros Hlo Hs Hp. revert lo f Hlo Hs. induction Hp as [|b bits Hb Hp IH];
    intros lo f Hlo Hs; simpl in *; zbool.
  { by rewrite Z.lor_0_r. }
  rewrite Z.shiftr_div_pow2, Z.div_small by lia. simpl. rewrite andb_false_r.
  rewrite IH with (lo := b_start b + b_bits b) by (done || lia).
  pose proof (shiftl_bound (b_get b p) (b_start b) (b_bits b) 64 Hb) as Hbd.
  unfold u64. rewrite Z.mod_small by (apply Hbd; lia). by rewrite Z.lor_assoc.
Qed.

Lemma bm_value_bound {P} lo (bits : list (bmbit P)) p m :
  0 ≤ lo → bm_sorted lo bits = true → bm_wf bits p → 0 ≤ m →
  Forall (λ b, topbit b < m) bits → 0 ≤ bm_value bits p < 2 ^ m.
Proof.
  intros Hlo Hs Hp Hm. revert lo Hlo Hs. induction Hp as [|b bits Hb Hp IH];
    intros lo Hlo Hs Ht; simpl in *; zbool.
  { split; [lia|]. by apply Z.pow_pos_nonneg. }
  inversion Ht as [|? ? Hb' Ht']; subst. unfold topbit in Hb'.
  destruct (IH (b_start b + b_bits b)) as [Hv1 Hv2]; [lia|done|done|].
  pose proof (shiftl_bound (b_get b p) (b_start b) (b_bits b) m Hb) as Hbd.
  destruct Hbd as [Hs1 Hs2]; [lia..|]. split; [by apply Z.lor_nonneg|].
  destruct (decide (Z.lor (Z.shiftl (b_get b p) (b_start b)) (bm_value bits p) = 0)) as [->|];
    [by apply Z.pow_pos_nonneg|].
  apply Z.log2_lt_pow2; [assert (0 ≤ Z.lor (Z.shiftl (b_get b p) (b_start b)) (bm_value bits p))
    by (by apply Z.lor_nonneg); lia|].
  rewrite Z.log2_lor by done.
  assert (∀ x, 0 ≤ x < 2 ^ m → 0 < m → Z.log2 x < m) as Hlog.
  { intros x Hx Hm'. destruct (decide (x = 0)) as [->|]; [done|]. apply Z.log2_lt_pow2; lia. }
  apply Z.max_lub_lt; apply Hlog; lia.
Qed.

Lemma bm_sorted_in {P} lo (bits : list (bmbit P)) b :
  bm_sorted lo bits = true → b ∈ bits →
  lo ≤ b_start b ∧ 0 < b_bits b ∧ b_start b + b_bits b ≤ 63.
Proof.
  revert lo. induction bits as [|c bits IH]; intros lo Hs Hin; simpl in *; zbool.
  { by apply elem_of_nil in Hin. }
  apply elem_of_cons in Hin as [->|Hin]; [lia|].
  destruct (IH (b_start c + b_bits c)); [done|done|]. lia.
Qed.

Lemma bm_mask_mod {P} (b : bmbit P) x :
  0 < b_bits b ≤ 63 → Z.land x (bm_mask b) = x mod 2 ^ b_bits b.
Proof.
  intros Hb. unfold bm_mask. rewrite (proj2 (Z.leb_gt _ _)) by lia.
  rewrite Z.shiftl_1_l. replace (2 ^ b_bits b - 1) with (Z.ones (b_bits b))
    by (rewrite Z.ones_equiv; lia). apply Z.land_ones. lia.
Qed.

Lemma testbit_high v n i : 0 ≤ v < 2 ^ n → n ≤ i → Z.testbit v i = false.
Proof.
  intros Hv Hi. destruct (decide (0 ≤ n)).
  - rewrite <-(Z.mod_small _ _ Hv). by apply Z.mod_pow2_bits_high.
  - rewrite Z.pow_neg_r in Hv by lia. lia.
Qed.

Lemma bm_value_extract {P} lo (bits : list (bmbit P)) p b :
  0 ≤ lo → bm_sorted lo bits = true → bm_wf bits p → b ∈ bits →
  Z.land (Z.shiftr (bm_value bits p) (b_start b)) (bm_mask b) = b_get b p.
Proof.
  intros Hlo Hs Hp Hin. destruct (bm_sorted_in lo bits b Hs Hin) as (? & ? & ?).
  rewrite bm_mask_mod by lia. revert lo Hlo Hs H Hin.
  induction Hp as [|b' bits Hb Hp IH]; intros lo Hlo Hs Hst Hin;
    [by apply elem_of_nil in Hin|]; simpl in *; zbool.
  apply Z.bits_inj'. intros i Hi.
  apply elem_of_cons in Hin as [->|Hin].
  - destruct (Z.ltb_spec i (b_bits b')).
    + rewrite Z.mod_pow2_bits_low, Z.shiftr_spec, Z.lor_spec, Z.shiftl_spec by lia.
      replace (i + b_start b' - b_start b') with i by lia.
      rewrite (bm_value_low (b_start b' + b_bits b')) by (done || lia). apply orb_false_r.
    + rewrite Z.mod_pow2_bits_high by lia. symmetry. by apply (testbit_high _ (b_bits b')).
  - destruct (bm_sorted_in _ _ _ H2 Hin) as (? & ? & ?).
    rewrite <-(IH (b_start b' + b_bits b')) by (done || lia).
    destruct (Z.ltb_spec i (b_bits b)).
    + rewrite !Z.mod_pow2_bits_low, !Z.shiftr_spec, Z.lor_spec, Z.shiftl_spec by lia.
      by rewrite (testbit_high _ (b_bits b')) by (done || lia).
    + by rewrite !Z.mod_pow2_bits_high by lia.
Qed.

Lemma bm_extract_copy {P} lo (bits : list (bmbit P)) p q :
  0 ≤ lo → bm_sorted lo bits = true → bm_wf bits p →
  bm_extract bits (bm_value bits p) q = bm_copy bits p q.
Proof.
  intros Hlo Hs Hp.
  assert (∀ b, b ∈ bits →
    Z.land (Z.shiftr (bm_value bits p) (b_start b)) (bm_mask b) = b_get b p) as Hall
    by eauto using bm_value_extract.
  unfold bm_extract, bm_copy. generalize (bm_value bits p) Hall. clear. intros f.
  revert q. induction bits as [|b bits IH]; intros q Hall; simpl; [done|].
  rewrite Hall by (apply elem_of_cons; auto).
  apply IH. intros c Hc. apply Hall, elem_of_cons. auto.
Qed.

Lemma foldl_max_topbit {P} t0 (bits : list (bmbit P)) :
  t0 ≤ foldl (λ t b, Z.max t (topbit b)) t0 bits ∧
  Forall (λ b, topbit b ≤ foldl (λ t b, Z.max t (topbit b)) t0 bits) bits.
Proof.
  revert t0. induction bits as [|b bits IH]; intros t0; simpl; [split; [lia|constructor]|].
  destruct (IH (Z.max t0 (topbit b))) as [H1 H2]. split; [lia|].
  constructor; [lia|done].
Qed.

(** A well laid out group satisfies the contract of a row. *)
Lemma bm_row_ok {P} (bits : list (bmbit P)) :
  bm_sorted 0 bits = true → RowOk (bm bits) (bm_wf bits) (bm_copy bits).
Proof.
  intros Hs p Hp. exists (Encoder.uint (bm_value bits p) (bm_flen bits)).
  unfold bm. cbn [r_encode r_decode].
  rewrite (bm_field_value 0) by done. rewrite Z.lor_0_l.
  split; [done|]. split; [apply uint_ok|]. intros q rest.
  rewrite uint_app; [simpl; by rewrite (bm_extract_copy 0)|].
  apply (bm_value_bound 0); [done..|lia|].
  unfold bm_flen. set (t := foldl _ 0 bits).
  destruct (foldl_max_topbit 0 bits) as [Ht Hall]. fold t in Ht, Hall.
  eapply Forall_impl; [exact Hall|]. simpl. intros b Hb.
  rewrite Z2Nat.id by (apply Z.div_pos; lia).
  pose proof (Z.div_mod (t + 8) 8). pose proof (Z.mod_pos_bound (t + 8) 8). lia.
Qed.

#[export] Hint Extern 1 (RowOk (bm _) _ _) =>
  apply bm_row_ok; reflexivity : typeclass_instances.
#[export] Hint Extern 1 (RowEnd (bm _) _ _) =>
  apply row_ok_end, bm_row_ok; reflexivity : typeclass_instances.

(** ** What every packet gets *)

(** A packet class whose rows meet their contracts: a packet with well-formed
    members encodes, to bytes, and decoding the result into any packet of the
    class gives its members back and consumes the whole buffer. *)
Lemma packet_roundtrip {P} (rows : list (row P)) wf copy policy (p q : P) :
  LayoutOk rows wf copy → wf p →
  ∃ bs, encode_rows rows p = Ok bs ∧ bytes_ok bs ∧
    packet_decode policy rows q bs = Ok (copy p q, len bs).
Proof.
  intros H Hp. destruct (H p Hp) as (bs & E & Hbs & D).
  exists bs. split; [done|]. split; [done|]. unfold packet_decode. rewrite D. simpl.
  rewrite Z.sub_0_r. by destruct policy.
Qed.

Lemma try_parse_roundtrip {P} (rows : list (row P)) wf copy policy (p q : P) :
  LayoutOk rows wf copy → wf p →
  ∃ bs, encode_rows rows p = Ok bs ∧ bytes_ok bs ∧
    try_parse policy rows q bs = Some (copy p q).
Proof.
  intros H Hp. destruct (packet_roundtrip rows wf copy policy p q H Hp) as (bs & ? & ? & D).
  exists bs. unfold try_parse. by rewrite D.
Qed.

(** ** What the packet families share *)

Lemma byte_forall (Q : Z → bool) :
  forallb Q (seqZ 0 256) = true → ∀ f, byte_ok f → Q f = true.
Proof.
  intros H f Hf. rewrite forallb_forall in H. apply H.
  apply list_elem_of_In, elem_of_seqZ. unfold byte_ok in Hf. lia.
Qed.

(** The flags byte is the first byte of the frame. *)
Lemma first_byte {P} (get : P → Z) set rows p bs :
  byte_ok (get p) → encode_rows (field (B 1) get set :: rows) p = Ok bs →
  ∃ rest, bs = get p :: rest.
Proof.
  unfold byte_ok. intros Hf H. simpl in H.
  rewrite (proj2 (Z.leb_gt _ _)) in H by (change (Z.pow_pos 2 8) with 256; lia).
  simpl in H. apply bind_Ok in H as (bs' & _ & [= <-]).
  change (Encoder.uint (get p) 1) with [u8 (Z.shiftr (get p) (8 * 0))].
  rewrite Z.shiftr_0_r, u8_small by lia. eauto.
Qed.

Lemma fits1 v : 0 ≤ v < 256 → fits 1 v.
Proof. done. Qed.

Lemma flag_fits f (l : list Z) : f ∈ l → forallb (λ f, (0 <=? f) && (f <? 256)) l = true → fits 1 f.
Proof.
  intros Hin Hl. rewrite forallb_forall in Hl. apply list_elem_of_In, Hl in Hin.
  zbool. by apply fits1.
Qed.

(** Close the range side conditions of a row. *)
Ltac bits_ok :=
  unfold bm_wf; repeat (apply Forall_cons; split); try apply Forall_nil; cbn [b_get b_bits];
  try done; try lia.

Lemma of_bool_range b : 0 ≤ of_bool b < 2 ^ 1.
Proof. by destruct b. Qed.
Lemma to_of_bool b : to_bool (of_bool b) = b.
Proof. by destruct b. Qed.

(** A layout through its contract. *)
Lemma plain_rt {P} (rows : list (row P)) wf copy (p q p' : P) :
  LayoutOk rows wf copy → wf p → copy p q = p' →
  ∃ bs, encode_rows rows p = Ok bs ∧ bytes_ok bs ∧ decode_rows rows q bs = Ok (p', []).
Proof. intros H Hw <-. destruct (H p Hw) as (bs & E & Hb & D). eauto. Qed.
