(* ===== verification/Indexed.v ===== *)
(** Packet class lookup by code: [include/decnet/packet/indexed.h].

    A family of packet classes [C] is found through levels of indexes; each
    level reads a key from the raw buffer and names a class or another
    level. *)

From S2P Require Import Prelude Buffer.
#[local] Open Scope Z_scope.

(** [require_byte]: one byte of a raw buffer, for an [index_key] function. *)
Definition require_byte (b : Bytes) (off : nat) : result Z :=
  match b !! off with
  | Some v => Ok v
  | None => Throw MissingData
  end.

(** [PacketIndex] and its [Entry]: the map from keys is an association list in
    which a later registration hides an earlier one, as [entries_[key] = ...]
    does. *)
Inductive index (C : Type) : Type :=
| Index (keyfn : Bytes → result Z) (limit : Z) (entries : list (Z * entry C)) (dflt : option C)
with entry (C : Type) : Type :=
| Concrete (c : C)
| Nested (level : index C).
Arguments Index {_} _ _ _ _.
Arguments Concrete {_} _.
Arguments Nested {_} _.

Section Index.
Context {C : Type}.

Definition keyfn (i : index C) := let 'Index k _ _ _ := i in k.
Definition limit (i : index C) := let 'Index _ l _ _ := i in l.
Definition entries (i : index C) := let 'Index _ _ e _ := i in e.
Definition dflt (i : index C) := let 'Index _ _ _ d := i in d.

(** The constructor: no entries yet; a zero limit means no range check. *)
Definition empty_index (k : Bytes → result Z) (l : Z) : index C := Index k l [] None.

Definition set_entry (key : Z) (e : entry C) (i : index C) : index C :=
  let 'Index k l es d := i in Index k l ((key, e) :: es) d.

(** [PacketIndex::add] and [add_nested], with [check_range]. *)
Definition add (key : Z) (e : entry C) (i : index C) : result (index C) :=
  if negb (limit i =? 0) && (limit i <=? key) then Throw InternalError
  else Ok (set_entry key e i).

(** The keys [add_masked] claims, in the order of its loop. *)
Definition masked_keys (key mask limit : Z) : list Z :=
  filter (λ k, Z.land k mask = Z.land key mask) (seqZ 0 limit).

(** [PacketIndex::add_masked] and [add_nested_masked]. *)
Definition add_masked (key mask : Z) (e : entry C) (i : index C) : result (index C) :=
  if limit i =? 0 then Throw InternalError
  else Ok (foldl (λ i k, set_entry k e i) i (masked_keys key mask (limit i))).

Fixpoint assoc (key : Z) (es : list (Z * entry C)) : option (entry C) :=
  match es with
  | [] => None
  | (k, e) :: es => if k =? key then Some e else assoc key es
  end.

(** [PacketIndex::create]: walk the levels, at most eight of them. *)
Fixpoint create_at (depth : nat) (level : index C) (buf : Bytes) : result C :=
  match depth with
  | O => Throw InternalError
  | S depth =>
      key ← keyfn level buf;
      if negb (limit level =? 0) && (limit level <=? key) then Throw DecodeError
      else match assoc key (entries level) with
           | Some (Concrete c) => Ok c
           | Some (Nested child) => create_at depth child buf
           | None => match dflt level with Some c => Ok c | None => Throw DecodeError end
           end
  end.
Definition create : index C → Bytes → result C := create_at 8.

(** ** Lookup after registration *)

Lemma limit_set_entry key e i : limit (set_entry key e i) = limit i.
Proof. by destruct i. Qed.

Lemma assoc_set_entry key key' e i :
  assoc key' (entries (set_entry key e i)) =
    if key =? key' then Some e else assoc key' (entries i).
Proof. by destruct i. Qed.

Lemma assoc_fold key' e ks i :
  assoc key' (entries (foldl (λ i k, set_entry k e i) i ks)) =
    if decide (key' ∈ ks) then Some e else assoc key' (entries i).
Proof.
  revert i. induction ks as [|k ks IH]; intros i; simpl; [done|].
  rewrite IH, assoc_set_entry.
  destruct (Z.eqb_spec k key') as [->|], (decide (key' ∈ ks)) as [Hin|Hin].
  - rewrite decide_True; [done|]. by right.
  - rewrite decide_True; [done|]. by left.
  - rewrite decide_True; [done|]. by right.
  - rewrite decide_False; [done|]. rewrite elem_of_cons. naive_solver.
Qed.

Lemma elem_of_masked_keys key mask l k :
  k ∈ masked_keys key mask l ↔ (0 ≤ k < l ∧ Z.land k mask = Z.land key mask).
Proof.
  unfold masked_keys. rewrite list_elem_of_filter, elem_of_seqZ. naive_solver lia.
Qed.
End Index.

(** An index without nested levels depends on the buffer through its key only. *)
Definition is_concrete {C} (e : entry C) : bool :=
  match e with Concrete _ => true | Nested _ => false end.

Definition class_at {C} (i : index C) (key : Z) : result C :=
  if negb (limit i =? 0) && (limit i <=? key) then Throw DecodeError
  else match assoc key (entries i) with
       | Some (Concrete c) => Ok c
       | Some (Nested _) => Throw InternalError
       | None => match dflt i with Some c => Ok c | None => Throw DecodeError end
       end.

Lemma create_flat {C} (i : index C) buf :
  forallb (λ e, is_concrete e.2) (entries i) = true →
  create i buf = (key ← keyfn i buf; class_at i key).
Proof.
  intros Hc. unfold create. cbn [create_at]. destruct (keyfn i buf) as [key|e]; [simpl|done].
  unfold class_at. destruct (negb (limit i =? 0) && (limit i <=? key)); [done|].
  assert (∀ child, assoc key (entries i) ≠ Some (Nested child)) as Hn.
  { intros child. induction (entries i) as [|[k e] es IH]; simpl in *; zbool; [done|].
    destruct (k =? key); [by destruct e|]. by apply IH. }
  destruct (assoc key (entries i)) as [[c|child]|] eqn:E; [done| |done].
  by destruct (Hn child).
Qed.

(** ** A family: factories and decoders

    [parse_indexed] picks the class, builds it and parses. *)
Definition parse_indexed {C K} (idx : index C) (decode_into : C → Bytes → result K)
    (buf : Bytes) : result K :=
  c ← create idx buf; decode_into c buf.

(** [try_parse_indexed]: a bad packet is dropped, not thrown; an exception
    that is not a [DecodeError] leaves a [noexcept] function. *)
Definition try_parse_indexed {C K} (idx : index C) (decode_into : C → Bytes → result K)
    (buf : Bytes) : option K :=
  try_result (parse_indexed idx decode_into buf).
