(* ===== verification/NspPackets.v ===== *)
(** NSP packet formats: [include/decnet/nsp/packets.h] and
    [src/nsp/packets.cc].

    One module per packet class, holding its members as a record, its default
    constructor and its layout; then the family: the class index, the encoder
    and the frame parser.  [nsp_parse_encode] is the round trip of the family
    and [nsp_class_table] the whole classification by the flags byte. *)

From S2P Require Import Prelude Buffer Types Codec Layout Indexed Modulo.
#[local] Open Scope Z_scope.

(** [Seq = Mod<4096>]. *)
Abbreviation SeqM := 4096.
Definition seq_ok (v : Z) : Prop := mod_ok SeqM v.

(** [enum NspVersion], [version_string] and [phase_of_version]. *)
Definition VER_PH3 : Z := 0.
Definition VER_PH2 : Z := 1.
Definition VER_PH4 : Z := 2.
Definition VER_41 : Z := 3.

Definition version_string (v : Z) : string :=
  if v =? VER_PH3 then "3.2" else if v =? VER_PH2 then "3.1"
  else if v =? VER_PH4 then "4.0" else if v =? VER_41 then "4.1" else "?".

Definition phase_of_version (v : Z) : Z :=
  if v =? VER_PH2 then 2 else if v =? VER_PH3 then 3 else 4.

(** [enum FlowControl]. *)
Definition SVC_NONE : Z := 0.
Definition SVC_SEG : Z := 1.
Definition SVC_MSG : Z := 2.

(** ** [AckNum] *)

Inductive Qual := ACKQ | NAK | XACK | XNAK.

Record AckNum := mkAck { num : Z; qual : Qual }.

#[export] Instance Qual_eq_dec : EqDecision Qual.
Proof. solve_decision. Defined.
#[export] Instance AckNum_eq_dec : EqDecision AckNum.
Proof. solve_decision. Defined.

Definition qual_code (q : Qual) : Z :=
  match q with ACKQ => 0 | NAK => 1 | XACK => 2 | XNAK => 3 end.
Definition qual_of_code (c : Z) : option Qual :=
  if c =? 0 then Some ACKQ else if c =? 1 then Some NAK
  else if c =? 2 then Some XACK else if c =? 3 then Some XNAK else None.

(** [is_cross] and [is_nak]. *)
Definition is_cross (a : AckNum) : bool :=
  match qual a with XACK | XNAK => true | _ => false end.
Definition is_nak (a : AckNum) : bool :=
  match qual a with NAK | XNAK => true | _ => false end.

(** [AckNumField]: present only when the top bit of the next word is set; a
    reserved qualifier consumes the field and leaves nothing. *)
Definition AckNumField : codec (option AckNum) :=
  Codec (λ v, match v with
              | None => Ok []
              | Some a => Ok (Encoder.uint
                  (u16 (Z.lor (Z.lor 32768 (Z.shiftl (qual_code (qual a)) 12)) (num a))) 2)
              end)
        (λ d, if Decoder.remaining d <? 2 then Ok (None, d)
              else let w := Decoder.peek_uint 2 d in
                   if Z.land w 32768 =? 0 then Ok (None, d)
                   else '(_, d) ← Decoder.uint 2 d;
                        match qual_of_code (Z.land (Z.shiftr w 12) 7) with
                        | None => Ok (None, d)
                        | Some q => Ok (Some (mkAck (wrap SeqM w) q), d)
                        end).

(** [SeqField]: the low 12 bits of a word. *)
Definition SeqField : codec Z :=
  Codec (λ v, Ok (Encoder.uint v 2)) (λ d, '(w, d) ← Decoder.uint 2 d; Ok (wrap SeqM w, d)).

(** ** The packet classes *)

(** Acknowledgement on the data subchannel. *)
Module AckData.
Record t := mk {
  msgflag : Z;
  dstaddr : Z;
  srcaddr : Z;
  acknum : option AckNum;
  acknum2 : option AckNum;
}.

Definition set_msgflag (v : Z) (p : t) : t :=
  mk v (dstaddr p) (srcaddr p) (acknum p) (acknum2 p).
Definition set_dstaddr (v : Z) (p : t) : t :=
  mk (msgflag p) v (srcaddr p) (acknum p) (acknum2 p).
Definition set_srcaddr (v : Z) (p : t) : t :=
  mk (msgflag p) (dstaddr p) v (acknum p) (acknum2 p).
Definition set_acknum (v : option AckNum) (p : t) : t :=
  mk (msgflag p) (dstaddr p) (srcaddr p) v (acknum2 p).
Definition set_acknum2 (v : option AckNum) (p : t) : t :=
  mk (msgflag p) (dstaddr p) (srcaddr p) (acknum p) v.

Definition flag : Z := 4.
(** The default constructor. *)
Definition new : t := mk flag 0 0 None None.
Definition policy : Extra := reject.
Definition layout : list (row t) :=
  [field (B 1) msgflag set_msgflag;
   field (B 2) dstaddr set_dstaddr;
   field (B 2) srcaddr set_srcaddr;
   field AckNumField acknum set_acknum;
   field AckNumField acknum2 set_acknum2].
End AckData.

(** Acknowledgement on the other-data subchannel. *)
Module AckOther.
Record t := mk {
  msgflag : Z;
  dstaddr : Z;
  srcaddr : Z;
  acknum : option AckNum;
  acknum2 : option AckNum;
}.

Definition set_msgflag (v : Z) (p : t) : t :=
  mk v (dstaddr p) (srcaddr p) (acknum p) (acknum2 p).
Definition set_dstaddr (v : Z) (p : t) : t :=
  mk (msgflag p) v (srcaddr p) (acknum p) (acknum2 p).
Definition set_srcaddr (v : Z) (p : t) : t :=
  mk (msgflag p) (dstaddr p) v (acknum p) (acknum2 p).
Definition set_acknum (v : option AckNum) (p : t) : t :=
  mk (msgflag p) (dstaddr p) (srcaddr p) v (acknum2 p).
Definition set_acknum2 (v : option AckNum) (p : t) : t :=
  mk (msgflag p) (dstaddr p) (srcaddr p) (acknum p) v.

Definition flag : Z := 20.
(** The default constructor. *)
Definition new : t := mk flag 0 0 None None.
Definition policy : Extra := reject.
Definition layout : list (row t) :=
  [field (B 1) msgflag set_msgflag;
   field (B 2) dstaddr set_dstaddr;
   field (B 2) srcaddr set_srcaddr;
   field AckNumField acknum set_acknum;
   field AckNumField acknum2 set_acknum2].
End AckOther.

(** Connect acknowledgement. *)
Module AckConn.
Record t := mk {
  msgflag : Z;
  dstaddr : Z;
  payload : Bytes;
}.

Definition set_msgflag (v : Z) (p : t) : t :=
  mk v (dstaddr p) (payload p).
Definition set_dstaddr (v : Z) (p : t) : t :=
  mk (msgflag p) v (payload p).
Definition set_payload (v : Bytes) (p : t) : t :=
  mk (msgflag p) (dstaddr p) v.

Definition flag : Z := 36.
(** The default constructor. *)
Definition new : t := mk flag 0 [].
Definition policy : Extra := allow.
Definition layout : list (row t) :=
  [field (B 1) msgflag set_msgflag;
   field (B 2) dstaddr set_dstaddr;
   field Payload payload set_payload].
End AckConn.

(** A data segment. *)
Module DataSeg.
Record t := mk {
  msgflag : Z;
  dstaddr : Z;
  srcaddr : Z;
  acknum : option AckNum;
  acknum2 : option AckNum;
  segnum_bits : Z;
  dly : bool;
  payload : Bytes;
}.

Definition set_msgflag (v : Z) (p : t) : t :=
  mk v (dstaddr p) (srcaddr p) (acknum p) (acknum2 p) (segnum_bits p) (dly p) (payload
  p).
Definition set_dstaddr (v : Z) (p : t) : t :=
  mk (msgflag p) v (srcaddr p) (acknum p) (acknum2 p) (segnum_bits p) (dly p) (payload
  p).
Definition set_srcaddr (v : Z) (p : t) : t :=
  mk (msgflag p) (dstaddr p) v (acknum p) (acknum2 p) (segnum_bits p) (dly p) (payload
  p).
Definition set_acknum (v : option AckNum) (p : t) : t :=
  mk (msgflag p) (dstaddr p) (srcaddr p) v (acknum2 p) (segnum_bits p) (dly p) (payload
  p).
Definition set_acknum2 (v : option AckNum) (p : t) : t :=
  mk (msgflag p) (dstaddr p) (srcaddr p) (acknum p) v (segnum_bits p) (dly p) (payload
  p).
Definition set_segnum_bits (v : Z) (p : t) : t :=
  mk (msgflag p) (dstaddr p) (srcaddr p) (acknum p) (acknum2 p) v (dly p) (payload p).
Definition set_dly (v : bool) (p : t) : t :=
  mk (msgflag p) (dstaddr p) (srcaddr p) (acknum p) (acknum2 p) (segnum_bits p) v
  (payload p).
Definition set_payload (v : Bytes) (p : t) : t :=
  mk (msgflag p) (dstaddr p) (srcaddr p) (acknum p) (acknum2 p) (segnum_bits p) (dly p)
  v.

Definition flag : Z := 0.
(** The default constructor. *)
Definition new : t := mk flag 0 0 None None 0 false [].
(** [segnum ()] and [set_segnum]; BOM and EOM are bits of the flags byte. *)
Definition segnum (p : t) : Z := wrap 4096 (segnum_bits p).
Definition bom (p : t) : bool := negb (Z.land (msgflag p) 32 =? 0).
Definition eom (p : t) : bool := negb (Z.land (msgflag p) 64 =? 0).
Definition policy : Extra := allow.
Definition layout : list (row t) :=
  [field (B 1) msgflag set_msgflag;
   field (B 2) dstaddr set_dstaddr;
   field (B 2) srcaddr set_srcaddr;
   field AckNumField acknum set_acknum;
   field AckNumField acknum2 set_acknum2;
   bm [bmf segnum_bits (λ v, set_segnum_bits (u16 v)) 0 12;
       bmf (λ p, of_bool (dly p)) (λ v, set_dly (to_bool v)) 12 1];
   field Payload payload set_payload].
End DataSeg.

(** An interrupt message. *)
Module IntMsg.
Record t := mk {
  msgflag : Z;
  dstaddr : Z;
  srcaddr : Z;
  acknum : option AckNum;
  acknum2 : option AckNum;
  segnum : Z;
  payload : Bytes;
}.

Definition set_msgflag (v : Z) (p : t) : t :=
  mk v (dstaddr p) (srcaddr p) (acknum p) (acknum2 p) (segnum p) (payload p).
Definition set_dstaddr (v : Z) (p : t) : t :=
  mk (msgflag p) v (srcaddr p) (acknum p) (acknum2 p) (segnum p) (payload p).
Definition set_srcaddr (v : Z) (p : t) : t :=
  mk (msgflag p) (dstaddr p) v (acknum p) (acknum2 p) (segnum p) (payload p).
Definition set_acknum (v : option AckNum) (p : t) : t :=
  mk (msgflag p) (dstaddr p) (srcaddr p) v (acknum2 p) (segnum p) (payload p).
Definition set_acknum2 (v : option AckNum) (p : t) : t :=
  mk (msgflag p) (dstaddr p) (srcaddr p) (acknum p) v (segnum p) (payload p).
Definition set_segnum (v : Z) (p : t) : t :=
  mk (msgflag p) (dstaddr p) (srcaddr p) (acknum p) (acknum2 p) v (payload p).
Definition set_payload (v : Bytes) (p : t) : t :=
  mk (msgflag p) (dstaddr p) (srcaddr p) (acknum p) (acknum2 p) (segnum p) v.

Definition flag : Z := 48.
(** The default constructor. *)
Definition new : t := mk flag 0 0 None None 0 [].
Definition policy : Extra := allow.
Definition layout : list (row t) :=
  [field (B 1) msgflag set_msgflag;
   field (B 2) dstaddr set_dstaddr;
   field (B 2) srcaddr set_srcaddr;
   field AckNumField acknum set_acknum;
   field AckNumField acknum2 set_acknum2;
   field SeqField segnum set_segnum;
   field Payload payload set_payload].
End IntMsg.

(** Link service: how much more the other end will accept. *)
Module LinkSvcMsg.
Record t := mk {
  msgflag : Z;
  dstaddr : Z;
  srcaddr : Z;
  acknum : option AckNum;
  acknum2 : option AckNum;
  segnum : Z;
  fcmod : Z;
  fcval_int : Z;
  fcval : Z;
}.

Definition set_msgflag (v : Z) (p : t) : t :=
  mk v (dstaddr p) (srcaddr p) (acknum p) (acknum2 p) (segnum p) (fcmod p) (fcval_int p)
  (fcval p).
Definition set_dstaddr (v : Z) (p : t) : t :=
  mk (msgflag p) v (srcaddr p) (acknum p) (acknum2 p) (segnum p) (fcmod p) (fcval_int p)
  (fcval p).
Definition set_srcaddr (v : Z) (p : t) : t :=
  mk (msgflag p) (dstaddr p) v (acknum p) (acknum2 p) (segnum p) (fcmod p) (fcval_int p)
  (fcval p).
Definition set_acknum (v : option AckNum) (p : t) : t :=
  mk (msgflag p) (dstaddr p) (srcaddr p) v (acknum2 p) (segnum p) (fcmod p) (fcval_int
  p) (fcval p).
Definition set_acknum2 (v : option AckNum) (p : t) : t :=
  mk (msgflag p) (dstaddr p) (srcaddr p) (acknum p) v (segnum p) (fcmod p) (fcval_int p)
  (fcval p).
Definition set_segnum (v : Z) (p : t) : t :=
  mk (msgflag p) (dstaddr p) (srcaddr p) (acknum p) (acknum2 p) v (fcmod p) (fcval_int
  p) (fcval p).
Definition set_fcmod (v : Z) (p : t) : t :=
  mk (msgflag p) (dstaddr p) (srcaddr p) (acknum p) (acknum2 p) (segnum p) v (fcval_int
  p) (fcval p).
Definition set_fcval_int (v : Z) (p : t) : t :=
  mk (msgflag p) (dstaddr p) (srcaddr p) (acknum p) (acknum2 p) (segnum p) (fcmod p) v
  (fcval p).
Definition set_fcval (v : Z) (p : t) : t :=
  mk (msgflag p) (dstaddr p) (srcaddr p) (acknum p) (acknum2 p) (segnum p) (fcmod p)
  (fcval_int p) v.

Definition flag : Z := 16.
(** The default constructor. *)
Definition new : t := mk flag 0 0 None None 0 0 0 0.
(** [valid ()]: reserved combinations, which the spec says to reject. *)
Definition valid (p : t) : bool := (fcval_int p <=? 1) && negb (fcmod p =? 3).
Definition policy : Extra := reject.
Definition layout : list (row t) :=
  [field (B 1) msgflag set_msgflag;
   field (B 2) dstaddr set_dstaddr;
   field (B 2) srcaddr set_srcaddr;
   field AckNumField acknum set_acknum;
   field AckNumField acknum2 set_acknum2;
   field SeqField segnum set_segnum;
   bm [bmf fcmod (λ v, set_fcmod (u8 v)) 0 2; bmf fcval_int (λ v, set_fcval_int (u8 v)) 2 2];
   field (SIGNED 1) fcval set_fcval].
End LinkSvcMsg.

(** Connect Initiate, or its retransmission. *)
Module ConnInit.
Record t := mk {
  msgflag : Z;
  dstaddr : Z;
  srcaddr : Z;
  mb1 : Z;
  fcopt : Z;
  mbz : Z;
  info : Z;
  segsize : Z;
  payload : Bytes;
}.

Definition set_msgflag (v : Z) (p : t) : t :=
  mk v (dstaddr p) (srcaddr p) (mb1 p) (fcopt p) (mbz p) (info p) (segsize p) (payload
  p).
Definition set_dstaddr (v : Z) (p : t) : t :=
  mk (msgflag p) v (srcaddr p) (mb1 p) (fcopt p) (mbz p) (info p) (segsize p) (payload
  p).
Definition set_srcaddr (v : Z) (p : t) : t :=
  mk (msgflag p) (dstaddr p) v (mb1 p) (fcopt p) (mbz p) (info p) (segsize p) (payload
  p).
Definition set_mb1 (v : Z) (p : t) : t :=
  mk (msgflag p) (dstaddr p) (srcaddr p) v (fcopt p) (mbz p) (info p) (segsize p)
  (payload p).
Definition set_fcopt (v : Z) (p : t) : t :=
  mk (msgflag p) (dstaddr p) (srcaddr p) (mb1 p) v (mbz p) (info p) (segsize p) (payload
  p).
Definition set_mbz (v : Z) (p : t) : t :=
  mk (msgflag p) (dstaddr p) (srcaddr p) (mb1 p) (fcopt p) v (info p) (segsize p)
  (payload p).
Definition set_info (v : Z) (p : t) : t :=
  mk (msgflag p) (dstaddr p) (srcaddr p) (mb1 p) (fcopt p) (mbz p) v (segsize p)
  (payload p).
Definition set_segsize (v : Z) (p : t) : t :=
  mk (msgflag p) (dstaddr p) (srcaddr p) (mb1 p) (fcopt p) (mbz p) (info p) v (payload
  p).
Definition set_payload (v : Bytes) (p : t) : t :=
  mk (msgflag p) (dstaddr p) (srcaddr p) (mb1 p) (fcopt p) (mbz p) (info p) (segsize p)
  v.

Definition flag : Z := 24.
Definition flag_retransmit : Z := 104.
Definition retransmitted (p : t) : bool := msgflag p =? flag_retransmit.
(** The default constructor. *)
Definition new : t := mk flag 0 0 1 0 0 0 0 [].
Definition policy : Extra := allow.
Definition layout : list (row t) :=
  [field (B 1) msgflag set_msgflag;
   field (B 2) dstaddr set_dstaddr;
   field (B 2) srcaddr set_srcaddr;
   bm [bmf mb1 (λ v, set_mb1 (u8 v)) 0 2; bmf fcopt (λ v, set_fcopt (u8 v)) 2 2;
       bmf mbz (λ v, set_mbz (u8 v)) 4 4];
   field (EX 1) info set_info;
   field (B 2) segsize set_segsize;
   field Payload payload set_payload].
End ConnInit.

(** Connect Confirm. *)
Module ConnConf.
Record t := mk {
  msgflag : Z;
  dstaddr : Z;
  srcaddr : Z;
  mb1 : Z;
  fcopt : Z;
  mbz : Z;
  info : Z;
  segsize : Z;
  data_ctl : Bytes;
}.

Definition set_msgflag (v : Z) (p : t) : t :=
  mk v (dstaddr p) (srcaddr p) (mb1 p) (fcopt p) (mbz p) (info p) (segsize p) (data_ctl
  p).
Definition set_dstaddr (v : Z) (p : t) : t :=
  mk (msgflag p) v (srcaddr p) (mb1 p) (fcopt p) (mbz p) (info p) (segsize p) (data_ctl
  p).
Definition set_srcaddr (v : Z) (p : t) : t :=
  mk (msgflag p) (dstaddr p) v (mb1 p) (fcopt p) (mbz p) (info p) (segsize p) (data_ctl
  p).
Definition set_mb1 (v : Z) (p : t) : t :=
  mk (msgflag p) (dstaddr p) (srcaddr p) v (fcopt p) (mbz p) (info p) (segsize p)
  (data_ctl p).
Definition set_fcopt (v : Z) (p : t) : t :=
  mk (msgflag p) (dstaddr p) (srcaddr p) (mb1 p) v (mbz p) (info p) (segsize p)
  (data_ctl p).
Definition set_mbz (v : Z) (p : t) : t :=
  mk (msgflag p) (dstaddr p) (srcaddr p) (mb1 p) (fcopt p) v (info p) (segsize p)
  (data_ctl p).
Definition set_info (v : Z) (p : t) : t :=
  mk (msgflag p) (dstaddr p) (srcaddr p) (mb1 p) (fcopt p) (mbz p) v (segsize p)
  (data_ctl p).
Definition set_segsize (v : Z) (p : t) : t :=
  mk (msgflag p) (dstaddr p) (srcaddr p) (mb1 p) (fcopt p) (mbz p) (info p) v (data_ctl
  p).
Definition set_data_ctl (v : Bytes) (p : t) : t :=
  mk (msgflag p) (dstaddr p) (srcaddr p) (mb1 p) (fcopt p) (mbz p) (info p) (segsize p)
  v.

Definition flag : Z := 40.
(** The default constructor. *)
Definition new : t := mk flag 0 0 1 0 0 0 0 [].
Definition policy : Extra := reject.
Definition layout : list (row t) :=
  [field (B 1) msgflag set_msgflag;
   field (B 2) dstaddr set_dstaddr;
   field (B 2) srcaddr set_srcaddr;
   bm [bmf mb1 (λ v, set_mb1 (u8 v)) 0 2; bmf fcopt (λ v, set_fcopt (u8 v)) 2 2;
       bmf mbz (λ v, set_mbz (u8 v)) 4 4];
   field (EX 1) info set_info;
   field (B 2) segsize set_segsize;
   field (I 16) data_ctl set_data_ctl].
End ConnConf.

(** Disconnect Confirm. *)
Module DiscConf.
Record t := mk {
  msgflag : Z;
  dstaddr : Z;
  srcaddr : Z;
  reason : Z;
}.

Definition set_msgflag (v : Z) (p : t) : t :=
  mk v (dstaddr p) (srcaddr p) (reason p).
Definition set_dstaddr (v : Z) (p : t) : t :=
  mk (msgflag p) v (srcaddr p) (reason p).
Definition set_srcaddr (v : Z) (p : t) : t :=
  mk (msgflag p) (dstaddr p) v (reason p).
Definition set_reason (v : Z) (p : t) : t :=
  mk (msgflag p) (dstaddr p) (srcaddr p) v.

Definition flag : Z := 72.
(** The default constructor. *)
Definition new : t := mk flag 0 0 0.
Definition policy : Extra := reject.
Definition layout : list (row t) :=
  [field (B 1) msgflag set_msgflag;
   field (B 2) dstaddr set_dstaddr;
   field (B 2) srcaddr set_srcaddr;
   field (B 2) reason set_reason].
End DiscConf.

(** Disconnect Initiate. *)
Module DiscInit.
Record t := mk {
  msgflag : Z;
  dstaddr : Z;
  srcaddr : Z;
  reason : Z;
  data_ctl : Bytes;
}.

Definition set_msgflag (v : Z) (p : t) : t :=
  mk v (dstaddr p) (srcaddr p) (reason p) (data_ctl p).
Definition set_dstaddr (v : Z) (p : t) : t :=
  mk (msgflag p) v (srcaddr p) (reason p) (data_ctl p).
Definition set_srcaddr (v : Z) (p : t) : t :=
  mk (msgflag p) (dstaddr p) v (reason p) (data_ctl p).
Definition set_reason (v : Z) (p : t) : t :=
  mk (msgflag p) (dstaddr p) (srcaddr p) v (data_ctl p).
Definition set_data_ctl (v : Bytes) (p : t) : t :=
  mk (msgflag p) (dstaddr p) (srcaddr p) (reason p) v.

Definition flag : Z := 56.
(** The default constructor. *)
Definition new : t := mk flag 0 0 0 [].
Definition policy : Extra := reject.
Definition layout : list (row t) :=
  [field (B 1) msgflag set_msgflag;
   field (B 2) dstaddr set_dstaddr;
   field (B 2) srcaddr set_srcaddr;
   field (B 2) reason set_reason;
   field (I 16) data_ctl set_data_ctl].
End DiscInit.
(** ** The family *)

(** A decoded packet, and the class the index names. *)
Inductive NspPacket :=
| PAckData (p : AckData.t) | PAckOther (p : AckOther.t) | PAckConn (p : AckConn.t)
| PDataSeg (p : DataSeg.t) | PIntMsg (p : IntMsg.t) | PLinkSvcMsg (p : LinkSvcMsg.t)
| PConnInit (p : ConnInit.t) | PConnConf (p : ConnConf.t)
| PDiscConf (p : DiscConf.t) | PDiscInit (p : DiscInit.t).

Inductive NspClass :=
| CAckData | CAckOther | CAckConn | CDataSeg | CIntMsg | CLinkSvcMsg
| CConnInit | CConnConf | CDiscConf | CDiscInit.

#[export] Instance NspClass_eq_dec : EqDecision NspClass.
Proof. solve_decision. Defined.

Definition class_of (p : NspPacket) : NspClass :=
  match p with
  | PAckData _ => CAckData | PAckOther _ => CAckOther | PAckConn _ => CAckConn
  | PDataSeg _ => CDataSeg | PIntMsg _ => CIntMsg | PLinkSvcMsg _ => CLinkSvcMsg
  | PConnInit _ => CConnInit | PConnConf _ => CConnConf
  | PDiscConf _ => CDiscConf | PDiscInit _ => CDiscInit
  end.

Definition msgflag_of (p : NspPacket) : Z :=
  match p with
  | PAckData p => AckData.msgflag p | PAckOther p => AckOther.msgflag p
  | PAckConn p => AckConn.msgflag p | PDataSeg p => DataSeg.msgflag p
  | PIntMsg p => IntMsg.msgflag p | PLinkSvcMsg p => LinkSvcMsg.msgflag p
  | PConnInit p => ConnInit.msgflag p | PConnConf p => ConnConf.msgflag p
  | PDiscConf p => DiscConf.msgflag p | PDiscInit p => DiscInit.msgflag p
  end.

(** [link_address ()]: the destination link address, which every class has. *)
Definition link_address (p : NspPacket) : Z :=
  match p with
  | PAckData p => AckData.dstaddr p | PAckOther p => AckOther.dstaddr p
  | PAckConn p => AckConn.dstaddr p | PDataSeg p => DataSeg.dstaddr p
  | PIntMsg p => IntMsg.dstaddr p | PLinkSvcMsg p => LinkSvcMsg.dstaddr p
  | PConnInit p => ConnInit.dstaddr p | PConnConf p => ConnConf.dstaddr p
  | PDiscConf p => DiscConf.dstaddr p | PDiscInit p => DiscInit.dstaddr p
  end.

(** [encode_packet ()]. *)
Definition encode_packet (p : NspPacket) : result Bytes :=
  match p with
  | PAckData p => encode_rows AckData.layout p
  | PAckOther p => encode_rows AckOther.layout p
  | PAckConn p => encode_rows AckConn.layout p
  | PDataSeg p => encode_rows DataSeg.layout p
  | PIntMsg p => encode_rows IntMsg.layout p
  | PLinkSvcMsg p => encode_rows LinkSvcMsg.layout p
  | PConnInit p => encode_rows ConnInit.layout p
  | PConnConf p => encode_rows ConnConf.layout p
  | PDiscConf p => encode_rows DiscConf.layout p
  | PDiscInit p => encode_rows DiscInit.layout p
  end.

(** [make ()] and [decode_into (buf)] of the class. *)
Definition decode_into (c : NspClass) (buf : Bytes) : result NspPacket :=
  match c with
  | CAckData => '(p, _) ← packet_decode AckData.policy AckData.layout AckData.new buf; Ok (PAckData p)
  | CAckOther => '(p, _) ← packet_decode AckOther.policy AckOther.layout AckOther.new buf; Ok (PAckOther p)
  | CAckConn => '(p, _) ← packet_decode AckConn.policy AckConn.layout AckConn.new buf; Ok (PAckConn p)
  | CDataSeg => '(p, _) ← packet_decode DataSeg.policy DataSeg.layout DataSeg.new buf; Ok (PDataSeg p)
  | CIntMsg => '(p, _) ← packet_decode IntMsg.policy IntMsg.layout IntMsg.new buf; Ok (PIntMsg p)
  | CLinkSvcMsg => '(p, _) ← packet_decode LinkSvcMsg.policy LinkSvcMsg.layout LinkSvcMsg.new buf; Ok (PLinkSvcMsg p)
  | CConnInit => '(p, _) ← packet_decode ConnInit.policy ConnInit.layout ConnInit.new buf; Ok (PConnInit p)
  | CConnConf => '(p, _) ← packet_decode ConnConf.policy ConnConf.layout ConnConf.new buf; Ok (PConnConf p)
  | CDiscConf => '(p, _) ← packet_decode DiscConf.policy DiscConf.layout DiscConf.new buf; Ok (PDiscConf p)
  | CDiscInit => '(p, _) ← packet_decode DiscInit.policy DiscInit.layout DiscInit.new buf; Ok (PDiscInit p)
  end.

(** [NspPacketBase::index_key], the index of the family, limit 128. *)
Definition raw_index : index NspClass := empty_index (λ b, require_byte b 0) 128.

(** [register_nsp_packets]. *)
Definition register_nsp_packets : result (index NspClass) :=
  i ← add AckData.flag (Concrete CAckData) raw_index;
  i ← add AckOther.flag (Concrete CAckOther) i;
  i ← add AckConn.flag (Concrete CAckConn) i;
  i ← add_masked DataSeg.flag 159 (Concrete CDataSeg) i;
  i ← add IntMsg.flag (Concrete CIntMsg) i;
  i ← add LinkSvcMsg.flag (Concrete CLinkSvcMsg) i;
  i ← add ConnInit.flag (Concrete CConnInit) i;
  i ← add ConnInit.flag_retransmit (Concrete CConnInit) i;
  i ← add ConnConf.flag (Concrete CConnConf) i;
  i ← add DiscConf.flag (Concrete CDiscConf) i;
  add DiscInit.flag (Concrete CDiscInit) i.

Definition nsp_index : index NspClass :=
  match register_nsp_packets with Ok i => i | Throw _ => raw_index end.

(** [NspPacketBase::parse_frame]. *)
Definition parse_frame (b : Bytes) : option NspPacket :=
  try_parse_indexed nsp_index decode_into b.

(** ** Well-formed packets *)

Definition ack_ok (a : option AckNum) : Prop :=
  match a with Some a => seq_ok (num a) | None => True end.

(** A lone second acknowledgement travels, and is read back, as the first. *)
Definition norm_acks (a1 a2 : option AckNum) : option AckNum * option AckNum :=
  match a1 with None => (a2, None) | Some _ => (a1, a2) end.

Definition acks_ok (dst src : Z) (a1 a2 : option AckNum) : Prop :=
  fits 2 dst ∧ fits 2 src ∧ ack_ok a1 ∧ ack_ok a2.

(** What [DN_NSP_CONN_HDR] holds. *)
Definition conn_ok (dst src mb1 fcopt mbz info segsize : Z) : Prop :=
  fits 2 dst ∧ fits 2 src ∧ (0 ≤ mb1 < 4) ∧ (0 ≤ fcopt < 4) ∧ (0 ≤ mbz < 16) ∧
  (0 ≤ info < 128) ∧ fits 2 segsize.

(** The members fit their fields and the flags byte is one of the class. *)
Definition packet_ok (p : NspPacket) : Prop :=
  match p with
  | PAckData p => AckData.msgflag p = 4 ∧
      acks_ok (AckData.dstaddr p) (AckData.srcaddr p) (AckData.acknum p) (AckData.acknum2 p)
  | PAckOther p => AckOther.msgflag p = 20 ∧
      acks_ok (AckOther.dstaddr p) (AckOther.srcaddr p) (AckOther.acknum p) (AckOther.acknum2 p)
  | PAckConn p => AckConn.msgflag p = 36 ∧ fits 2 (AckConn.dstaddr p) ∧ bytes_ok (AckConn.payload p)
  | PDataSeg p => DataSeg.msgflag p ∈ [0; 32; 64; 96] ∧
      acks_ok (DataSeg.dstaddr p) (DataSeg.srcaddr p) (DataSeg.acknum p) (DataSeg.acknum2 p) ∧
      0 ≤ DataSeg.segnum_bits p < 4096 ∧ bytes_ok (DataSeg.payload p)
  | PIntMsg p => IntMsg.msgflag p = 48 ∧
      acks_ok (IntMsg.dstaddr p) (IntMsg.srcaddr p) (IntMsg.acknum p) (IntMsg.acknum2 p) ∧
      seq_ok (IntMsg.segnum p) ∧ bytes_ok (IntMsg.payload p)
  | PLinkSvcMsg p => LinkSvcMsg.msgflag p = 16 ∧
      acks_ok (LinkSvcMsg.dstaddr p) (LinkSvcMsg.srcaddr p) (LinkSvcMsg.acknum p) (LinkSvcMsg.acknum2 p) ∧
      seq_ok (LinkSvcMsg.segnum p) ∧ 0 ≤ LinkSvcMsg.fcmod p < 4 ∧
      0 ≤ LinkSvcMsg.fcval_int p < 4 ∧ -128 ≤ LinkSvcMsg.fcval p < 128
  | PConnInit p => ConnInit.msgflag p ∈ [24; 104] ∧
      conn_ok (ConnInit.dstaddr p) (ConnInit.srcaddr p) (ConnInit.mb1 p) (ConnInit.fcopt p)
        (ConnInit.mbz p) (ConnInit.info p) (ConnInit.segsize p) ∧ bytes_ok (ConnInit.payload p)
  | PConnConf p => ConnConf.msgflag p = 40 ∧
      conn_ok (ConnConf.dstaddr p) (ConnConf.srcaddr p) (ConnConf.mb1 p) (ConnConf.fcopt p)
        (ConnConf.mbz p) (ConnConf.info p) (ConnConf.segsize p) ∧
      len (ConnConf.data_ctl p) ≤ 16 ∧ bytes_ok (ConnConf.data_ctl p)
  | PDiscConf p => DiscConf.msgflag p = 72 ∧
      fits 2 (DiscConf.dstaddr p) ∧ fits 2 (DiscConf.srcaddr p) ∧ fits 2 (DiscConf.reason p)
  | PDiscInit p => DiscInit.msgflag p = 56 ∧
      fits 2 (DiscInit.dstaddr p) ∧ fits 2 (DiscInit.srcaddr p) ∧ fits 2 (DiscInit.reason p) ∧
      len (DiscInit.data_ctl p) ≤ 16 ∧ bytes_ok (DiscInit.data_ctl p)
  end.

Definition norm (p : NspPacket) : NspPacket :=
  match p with
  | PAckData p => let '(a, b) := norm_acks (AckData.acknum p) (AckData.acknum2 p) in
      PAckData (AckData.set_acknum2 b (AckData.set_acknum a p))
  | PAckOther p => let '(a, b) := norm_acks (AckOther.acknum p) (AckOther.acknum2 p) in
      PAckOther (AckOther.set_acknum2 b (AckOther.set_acknum a p))
  | PDataSeg p => let '(a, b) := norm_acks (DataSeg.acknum p) (DataSeg.acknum2 p) in
      PDataSeg (DataSeg.set_acknum2 b (DataSeg.set_acknum a p))
  | PIntMsg p => let '(a, b) := norm_acks (IntMsg.acknum p) (IntMsg.acknum2 p) in
      PIntMsg (IntMsg.set_acknum2 b (IntMsg.set_acknum a p))
  | PLinkSvcMsg p => let '(a, b) := norm_acks (LinkSvcMsg.acknum p) (LinkSvcMsg.acknum2 p) in
      PLinkSvcMsg (LinkSvcMsg.set_acknum2 b (LinkSvcMsg.set_acknum a p))
  | p => p
  end.

(** ** The acknowledgement fields *)

Definition ack_word (a : AckNum) : Z := 32768 + qual_code (qual a) * 4096 + num a.

Lemma ack_word_range a : seq_ok (num a) → 32768 ≤ ack_word a < 65536.
Proof. unfold seq_ok, mod_ok, ack_word. destruct (qual a); simpl; lia. Qed.

Lemma ack_word_eq a :
  seq_ok (num a) →
  u16 (Z.lor (Z.lor 32768 (Z.shiftl (qual_code (qual a)) 12)) (num a)) = ack_word a.
Proof.
  intros Ha. pose proof (ack_word_range a Ha). unfold seq_ok, mod_ok in Ha.
  assert (Z.lor 32768 (Z.shiftl (qual_code (qual a)) 12) =
          Z.shiftl (8 + qual_code (qual a)) 12) as -> by (by destruct (qual a)).
  rewrite Z.lor_comm, (lor_shiftl_add _ _ 12) by (done || lia).
  unfold ack_word in *. rewrite u16_small by lia. lia.
Qed.

Lemma ack_word_bits a :
  seq_ok (num a) →
  Z.land (ack_word a) 32768 ≠ 0 ∧
  qual_of_code (Z.land (Z.shiftr (ack_word a) 12) 7) = Some (qual a) ∧
  wrap SeqM (ack_word a) = num a.
Proof.
  intros Ha. unfold seq_ok, mod_ok in Ha.
  assert (ack_word a = num a + (8 + qual_code (qual a)) * 4096) as E
    by (unfold ack_word; lia).
  assert (Z.shiftr (ack_word a) 12 = 8 + qual_code (qual a)) as E12.
  { rewrite E, Z.shiftr_div_pow2 by lia. change (2 ^ 12) with 4096.
    rewrite Z.div_add, Z.div_small by lia. lia. }
  repeat split.
  - intros Hz. assert (Z.testbit (ack_word a) 15 = true) as Hb.
    { replace 15 with (3 + 12) by lia. rewrite <-Z.shiftr_spec, E12 by lia.
      by destruct (qual a). }
    assert (Z.testbit (Z.land (ack_word a) 32768) 15 = true) as Hc
      by (by rewrite Z.land_spec, Hb). by rewrite Hz in Hc.
  - rewrite E12. by destruct (qual a).
  - rewrite wrap_mod by lia. rewrite E, Z.mod_add, Z.mod_small by lia. done.
Qed.

(** A buffer whose next word does not look like an acknowledgement. *)
Definition clear (d : Bytes) : Prop :=
  len d < 2 ∨ 0 ≤ Decoder.peek_uint 2 d < 32768.

Lemma ack_decode_none d : clear d → c_decode AckNumField d = Ok (None, d).
Proof.
  intros Hd. unfold AckNumField, Decoder.remaining. cbn [c_decode].
  destruct (Z.ltb_spec (len d) 2) as [|Hl]; [done|].
  destruct Hd as [|Hw]; [lia|].
  destruct (Z.eqb_spec (Z.land (Decoder.peek_uint 2 d) 32768) 0) as [|Hne]; [done|].
  exfalso. apply Hne. apply Z.bits_inj'. intros i Hi. rewrite Z.land_spec, Z.bits_0.
  destruct (decide (i < 15)).
  - assert (Z.testbit 32768 i = false) as ->; [|by rewrite andb_false_r].
    change 32768 with (2 ^ 15). apply Z.pow2_bits_false. lia.
  - by rewrite (testbit_high _ 15) by (done || lia).
Qed.

Lemma ack_decode_some a rest :
  seq_ok (num a) →
  c_decode AckNumField (Encoder.uint (ack_word a) 2 ++ rest) = Ok (Some a, rest).
Proof.
  intros Ha. pose proof (ack_word_range a Ha) as Hr.
  destruct (ack_word_bits a Ha) as (Hb & Hq & Hn).
  assert (fits 2 (ack_word a)) as Hf by (unfold fits; change (2 ^ (8 * Z.of_nat 2)) with 65536; lia).
  unfold AckNumField. cbn [c_decode]. unfold Decoder.remaining. rewrite len_app.
  unfold len at 1. rewrite uint_length. pose proof (len_nonneg rest).
  rewrite (proj2 (Z.ltb_ge _ _)) by lia. cbv zeta.
  rewrite peek_uint_app by done. rewrite (proj2 (Z.eqb_neq _ _)) by done.
  rewrite uint_app by done. cbn [mbind result_bind].
  rewrite Hq, Hn. by destruct a.
Qed.

Section AckRows.
Context {P : Type} (get1 get2 : P → option AckNum) (set1 set2 : option AckNum → P → P).

Definition ack_rows : list (row P) :=
  [field AckNumField get1 set1; field AckNumField get2 set2].

(** The two optional fields together, in front of a clear word. *)
Lemma ack_rows_ok p :
  ack_ok (get1 p) → ack_ok (get2 p) →
  ∃ bs, encode_rows ack_rows p = Ok bs ∧ bytes_ok bs ∧
    ∀ q rest, clear rest →
      decode_rows ack_rows q (bs ++ rest) =
        Ok (set2 (norm_acks (get1 p) (get2 p)).2
              (set1 (norm_acks (get1 p) (get2 p)).1 q), rest).
Proof.
  intros H1 H2. unfold ack_rows. cbn [encode_rows decode_rows field r_encode r_decode].
  unfold AckNumField at 1 2. cbn [c_encode].
  destruct (get1 p) as [a|], (get2 p) as [b|]; cbn [ack_ok] in *;
    rewrite ?ack_word_eq by done; cbn [rethrow mbind result_bind norm_acks fst snd].
  - exists (Encoder.uint (ack_word a) 2 ++ Encoder.uint (ack_word b) 2 ++ []).
    split; [done|]. split; [rewrite app_nil_r; apply bytes_ok_app; split; apply uint_ok|].
    intros q rest Hr. rewrite <-!app_assoc, ack_decode_some by done.
    cbn [rethrow mbind result_bind]. by rewrite app_nil_l, ack_decode_some.
  - exists (Encoder.uint (ack_word a) 2 ++ [] ++ []).
    split; [done|]. split; [rewrite app_nil_r; apply uint_ok|].
    intros q rest Hr. rewrite <-!app_assoc, ack_decode_some by done.
    cbn [rethrow mbind result_bind app]. by rewrite ack_decode_none.
  - exists ([] ++ Encoder.uint (ack_word b) 2 ++ []).
    split; [done|]. split; [rewrite app_nil_r; apply uint_ok|].
    intros q rest Hr. rewrite app_nil_l, app_nil_r, ack_decode_some by done.
    cbn [rethrow mbind result_bind app]. by rewrite ack_decode_none.
  - exists []. split; [done|]. split; [constructor|].
    intros q rest Hr. rewrite app_nil_l, ack_decode_none by done.
    cbn [rethrow mbind result_bind app]. by rewrite ack_decode_none.
Qed.

(** A layout of an acknowledgement header and a tail. *)
Lemma ack_layout_ok hdr tail wf copy wf' copy' (p : P) :
  PrefixOk hdr wf copy → LayoutOk tail wf' copy' →
  (∀ p bs, wf' p → encode_rows tail p = Ok bs → clear bs) →
  wf p → ack_ok (get1 p) → ack_ok (get2 p) → wf' p →
  ∃ bs, encode_rows (hdr ++ ack_rows ++ tail) p = Ok bs ∧ bytes_ok bs ∧
    ∀ q, decode_rows (hdr ++ ack_rows ++ tail) q bs =
      Ok (copy' p (set2 (norm_acks (get1 p) (get2 p)).2
                    (set1 (norm_acks (get1 p) (get2 p)).1 (copy p q))), []).
Proof.
  intros Hh Ht Hclear Hp H1 H2 Hp'.
  destruct (Hh p Hp) as (b1 & E1 & B1 & D1).
  destruct (ack_rows_ok p H1 H2) as (b2 & E2 & B2 & D2).
  destruct (Ht p Hp') as (b3 & E3 & B3 & D3).
  exists (b1 ++ b2 ++ b3). split; [by repeat apply encode_rows_app|].
  split; [by rewrite !bytes_ok_app|]. intros q.
  erewrite decode_rows_app by apply D1.
  erewrite decode_rows_app by (apply D2; eauto). apply D3.
Qed.
End AckRows.

(** ** The class table *)

(** The classes by type and subtype, in the numbering of [enum MsgType],
    [AckSubtype] and [CtlSubtype]. *)
Definition class_spec (flags : Z) : result NspClass :=
  let subtype := Z.land (Z.shiftr flags 4) 7 in
  if (negb (Z.land flags 3 =? 0)) || (128 <=? flags) then Throw DecodeError
  else match Z.land (Z.shiftr flags 2) 3, subtype with
       | 0, 1 => Ok CLinkSvcMsg
       | 0, 3 => Ok CIntMsg
       | 0, _ => if Z.land subtype 1 =? 0 then Ok CDataSeg else Throw DecodeError
       | 1, 0 => Ok CAckData
       | 1, 1 => Ok CAckOther
       | 1, 2 => Ok CAckConn
       | 2, (1 | 6) => Ok CConnInit
       | 2, 2 => Ok CConnConf
       | 2, 3 => Ok CDiscInit
       | 2, 4 => Ok CDiscConf
       | _, _ => Throw DecodeError
       end.

Lemma nsp_index_flat : forallb (λ e, is_concrete e.2) (entries nsp_index) = true.
Proof. by vm_compute. Qed.

Lemma nsp_create_byte f rest :
  create nsp_index (f :: rest) = class_at nsp_index f.
Proof. by rewrite create_flat by apply nsp_index_flat. Qed.

(** The class index built by [register_nsp_packets] (with its masked data segment
    entry and the retransmitted connect initiate) classifies every possible flags byte
    exactly as the message type and subtype codes say, reserved bits and the NOP control
    message included, and an empty packet is refused. *)
Theorem nsp_class_table (buf : Bytes) :
  bytes_ok buf →
  create nsp_index buf =
    match buf with [] => Throw MissingData | f :: _ => class_spec f end.
Proof.
  intros Hb. destruct buf as [|f rest]; [done|].
  rewrite nsp_create_byte. apply bytes_ok_cons in Hb as [Hf _].
  apply (bool_decide_eq_true_1 (class_at nsp_index f = class_spec f)).
  revert f Hf. apply byte_forall. by vm_compute.
Qed.

Lemma nsp_class_table_witness : create nsp_index [104; 0; 0] = Ok CConnInit.
Proof.
  rewrite (nsp_class_table [104; 0; 0]); [reflexivity|].
  by apply (bool_decide_unpack _).
Defined.

(** ** The round trip of the family *)

Lemma parse_frame_intro c f rest p :
  class_at nsp_index f = Ok c → decode_into c (f :: rest) = Ok p →
  parse_frame (f :: rest) = Some p.
Proof.
  intros Hc Hd. unfold parse_frame, try_parse_indexed, parse_indexed.
  rewrite nsp_create_byte, Hc. simpl. by rewrite Hd.
Qed.

Lemma frame_roundtrip {P} (policy : Extra) (rows : list (row P)) (get : P → Z) set rows'
    (p new p' : P) c (inj : P → NspPacket) :
  rows = field (B 1) get set :: rows' →
  byte_ok (get p) → class_at nsp_index (get p) = Ok c →
  (∀ buf, decode_into c buf = ('(p, _) ← packet_decode policy rows new buf; Ok (inj p))) →
  (∃ bs, encode_rows rows p = Ok bs ∧ bytes_ok bs ∧ decode_rows rows new bs = Ok (p', [])) →
  ∃ bs, encode_rows rows p = Ok bs ∧ bytes_ok bs ∧ parse_frame bs = Some (inj p').
Proof.
  intros Hr Hf Hc Hdec (bs & E & Hb & D). exists bs. split; [done|]. split; [done|].
  assert (∃ rest, bs = get p :: rest) as [rest ->].
  { rewrite Hr in E. by eapply first_byte. }
  eapply parse_frame_intro; [done|]. rewrite Hdec. unfold packet_decode. rewrite D. simpl.
  by destruct policy.
Qed.

(** The words that follow the acknowledgements never have the top bit set. *)
Lemma clear_uint2 v rest : 0 ≤ v < 32768 → clear (Encoder.uint v 2 ++ rest).
Proof.
  intros Hv. right. rewrite peek_uint_app; [lia|].
  change (2 ^ (8 * Z.of_nat 2)) with 65536. lia.
Qed.

#[export] Instance SeqField_ok : CodecOk SeqField seq_ok.
Proof.
  intros v Hv. exists (Encoder.uint v 2). split; [done|]. split; [apply uint_ok|].
  intros rest. unfold SeqField. cbn [c_decode]. unfold seq_ok, mod_ok in Hv.
  rewrite uint_app by (change (2 ^ (8 * Z.of_nat 2)) with 65536; lia).
  simpl. rewrite wrap_small by (done || unfold mod_ok; lia). done.
Qed.

(** A group below bit 15 is such a word. *)
Lemma bm_clear {P} (bits : list (bmbit P)) (p : P) b rest :
  bm_sorted 0 bits = true → bm_flen bits = 2%nat → forallb (λ b, topbit b <? 15) bits = true →
  bm_wf bits p → r_encode (bm bits) p = Ok b → clear (b ++ rest).
Proof.
  intros Hs Hl Ht Hw. cbn [bm r_encode]. rewrite (bm_field_value 0), Hl by done.
  intros [= <-]. apply clear_uint2. rewrite Z.lor_0_l. change 32768 with (2 ^ 15).
  apply (bm_value_bound 0); try done. rewrite Forall_forall.
  rewrite forallb_forall in Ht. intros x Hx. apply Z.ltb_lt, Ht. by apply list_elem_of_In.
Qed.

(** Apply [ack_layout_ok] to a layout that is an acknowledgement header (three
    rows, two acknowledgements) and a tail. *)
Ltac ack_layout :=
  lazymatch goal with
  | |- ∃ bs, encode_rows (?a :: ?b :: ?c :: field _ ?g1 ?s1 :: field _ ?g2 ?s2 :: ?tl) ?p = Ok bs
             ∧ _ ∧ decode_rows _ ?q bs = _ =>
      let bs := fresh "bs" in let E := fresh "E" in
      let Hb := fresh "Hb" in let D := fresh "D" in
      edestruct (λ wf copy wf' copy', ack_layout_ok g1 g2 s1 s2 [a; b; c] tl wf copy wf' copy' p)
        as (bs & E & Hb & D);
      [apply _|apply _| | | | | |
       exists bs; split; [exact E|]; split; [exact Hb|]; etrans; [exact (D q)|]]
  end.

Section RoundTrips.

Lemma AckData_rt p (Hp : packet_ok (PAckData p)) :
  ∃ bs, encode_rows AckData.layout p = Ok bs ∧ bytes_ok bs ∧
    decode_rows AckData.layout AckData.new bs =
      Ok (AckData.set_acknum2 (norm_acks (AckData.acknum p) (AckData.acknum2 p)).2
           (AckData.set_acknum (norm_acks (AckData.acknum p) (AckData.acknum2 p)).1 p), []).
Proof.
  destruct p; cbn in Hp. destruct Hp as (-> & Hd & Hs & H1 & H2).
  unfold AckData.layout. ack_layout; try done.
  intros ? ? _ [= <-]. by left.
Qed.

Lemma AckOther_rt p (Hp : packet_ok (PAckOther p)) :
  ∃ bs, encode_rows AckOther.layout p = Ok bs ∧ bytes_ok bs ∧
    decode_rows AckOther.layout AckOther.new bs =
      Ok (AckOther.set_acknum2 (norm_acks (AckOther.acknum p) (AckOther.acknum2 p)).2
           (AckOther.set_acknum (norm_acks (AckOther.acknum p) (AckOther.acknum2 p)).1 p), []).
Proof.
  destruct p; cbn in Hp. destruct Hp as (-> & Hd & Hs & H1 & H2).
  unfold AckOther.layout. ack_layout; try done.
  intros ? ? _ [= <-]. by left.
Qed.

Lemma DataSeg_rt p (Hp : packet_ok (PDataSeg p)) :
  ∃ bs, encode_rows DataSeg.layout p = Ok bs ∧ bytes_ok bs ∧
    decode_rows DataSeg.layout DataSeg.new bs =
      Ok (DataSeg.set_acknum2 (norm_acks (DataSeg.acknum p) (DataSeg.acknum2 p)).2
           (DataSeg.set_acknum (norm_acks (DataSeg.acknum p) (DataSeg.acknum2 p)).1 p), []).
Proof.
  destruct p; cbn in Hp. destruct Hp as (Hf & (Hd & Hs & H1 & H2) & Hsn & Hpl).
  unfold DataSeg.layout. ack_layout; try done; cbn in *.
  - intros q bs (Hw & _) Hbs. apply bind_Ok in Hbs as (b & Hb & [= <-]). eapply bm_clear; [..|exact Hb]; done.
  - split; [by eapply flag_fits|done].
  - repeat split; [bits_ok; apply of_bool_range|done].
  - by rewrite u16_small, to_of_bool by lia.
Qed.

(** The tail of an interrupt or link service message starts with a sequence
    number. *)
Lemma seq_clear {P} (get : P → Z) set rows p bs :
  seq_ok (get p) → encode_rows (field SeqField get set :: rows) p = Ok bs → clear bs.
Proof.
  unfold seq_ok, mod_ok. intros Hs H. cbn in H. apply bind_Ok in H as (b & _ & [= <-]).
  apply clear_uint2. lia.
Qed.

Lemma IntMsg_rt p (Hp : packet_ok (PIntMsg p)) :
  ∃ bs, encode_rows IntMsg.layout p = Ok bs ∧ bytes_ok bs ∧
    decode_rows IntMsg.layout IntMsg.new bs =
      Ok (IntMsg.set_acknum2 (norm_acks (IntMsg.acknum p) (IntMsg.acknum2 p)).2
           (IntMsg.set_acknum (norm_acks (IntMsg.acknum p) (IntMsg.acknum2 p)).1 p), []).
Proof.
  destruct p; cbn in Hp. destruct Hp as (-> & (Hd & Hs & H1 & H2) & Hsn & Hpl).
  unfold IntMsg.layout. ack_layout; try done.
  intros q bs (Hw & _) Hbs. by eapply seq_clear.
Qed.

Lemma LinkSvcMsg_rt p (Hp : packet_ok (PLinkSvcMsg p)) :
  ∃ bs, encode_rows LinkSvcMsg.layout p = Ok bs ∧ bytes_ok bs ∧
    decode_rows LinkSvcMsg.layout LinkSvcMsg.new bs =
      Ok (LinkSvcMsg.set_acknum2 (norm_acks (LinkSvcMsg.acknum p) (LinkSvcMsg.acknum2 p)).2
           (LinkSvcMsg.set_acknum (norm_acks (LinkSvcMsg.acknum p) (LinkSvcMsg.acknum2 p)).1 p),
          []).
Proof.
  destruct p; cbn in Hp. destruct Hp as (-> & (Hd & Hs & H1 & H2) & Hsn & Hm & Hi & Hv).
  unfold LinkSvcMsg.layout. ack_layout; try done.
  - intros q bs (Hw & _) Hbs. by eapply seq_clear.
  - split; [exact Hsn|]. split; [bits_ok|]. by split; [exact Hv|].
  - cbn. by rewrite !u8_small by lia.
Qed.

Lemma AckConn_rt p (Hp : packet_ok (PAckConn p)) :
  ∃ bs, encode_rows AckConn.layout p = Ok bs ∧ bytes_ok bs ∧
    decode_rows AckConn.layout AckConn.new bs = Ok (p, []).
Proof.
  destruct p; cbn in Hp. destruct Hp as (-> & Hd & Hl).
  by eapply plain_rt; [apply _|cbn; auto using fits1|].
Qed.

Lemma DiscConf_rt p (Hp : packet_ok (PDiscConf p)) :
  ∃ bs, encode_rows DiscConf.layout p = Ok bs ∧ bytes_ok bs ∧
    decode_rows DiscConf.layout DiscConf.new bs = Ok (p, []).
Proof.
  destruct p; cbn in Hp. destruct Hp as (-> & Hd & Hs & Hr).
  by eapply plain_rt; [apply _|cbn; auto using fits1|].
Qed.

Lemma DiscInit_rt p (Hp : packet_ok (PDiscInit p)) :
  ∃ bs, encode_rows DiscInit.layout p = Ok bs ∧ bytes_ok bs ∧
    decode_rows DiscInit.layout DiscInit.new bs = Ok (p, []).
Proof.
  destruct p; cbn in Hp. destruct Hp as (-> & Hd & Hs & Hr & Hl & Hb).
  by eapply plain_rt; [apply _|cbn; unfold image; auto using fits1|].
Qed.

Lemma ConnInit_rt p (Hp : packet_ok (PConnInit p)) :
  ∃ bs, encode_rows ConnInit.layout p = Ok bs ∧ bytes_ok bs ∧
    decode_rows ConnInit.layout ConnInit.new bs = Ok (p, []).
Proof.
  destruct p; cbn in Hp.
  destruct Hp as (Hf & (Hd & Hs & Hm & Ho & Hz & Hi & Hsz) & Hb).
  eapply plain_rt; [apply _| |].
  - cbn. split; [by eapply flag_fits|]. split; [done|]. split; [done|].
    split; [bits_ok|]. split; [unfold ex_fits; cbn; lia|done].
  - cbn. by rewrite !u8_small by lia.
Qed.

Lemma ConnConf_rt p (Hp : packet_ok (PConnConf p)) :
  ∃ bs, encode_rows ConnConf.layout p = Ok bs ∧ bytes_ok bs ∧
    decode_rows ConnConf.layout ConnConf.new bs = Ok (p, []).
Proof.
  destruct p; cbn in Hp.
  destruct Hp as (-> & (Hd & Hs & Hm & Ho & Hz & Hi & Hsz) & Hl & Hb).
  eapply plain_rt; [apply _| |].
  - cbn. split; [by apply fits1|]. split; [done|]. split; [done|].
    split; [bits_ok|]. split; [unfold ex_fits; cbn; lia|done].
  - cbn. by rewrite !u8_small by lia.
Qed.
End RoundTrips.

(** The flags of a well-formed packet lead the index to its class. *)
Lemma class_at_flag p :
  packet_ok p → byte_ok (msgflag_of p) ∧ class_at nsp_index (msgflag_of p) = Ok (class_of p).
Proof.
  assert (∀ f (l : list Z) c, f ∈ l →
    forallb (λ f, bool_decide (byte_ok f ∧ class_at nsp_index f = Ok c)) l = true →
    byte_ok f ∧ class_at nsp_index f = Ok c) as Hl.
  { intros f l c Hin Hl. rewrite forallb_forall in Hl. apply list_elem_of_In, Hl in Hin.
    by apply bool_decide_eq_true_1 in Hin. }
  destruct p as [p|p|p|p|p|p|p|p|p|p]; cbn [packet_ok msgflag_of class_of];
    intros [Hf _]; try (rewrite Hf; by split); by (eapply Hl; [exact Hf|vm_compute]).
Qed.

Lemma parse_encode (p : NspPacket) :
  packet_ok p →
  ∃ bs, encode_packet p = Ok bs ∧ bytes_ok bs ∧ parse_frame bs = Some (norm p).
Proof.
  intros Hp. destruct (class_at_flag p Hp) as [Hf Hc].
  destruct p as [p|p|p|p|p|p|p|p|p|p]; cbn [norm encode_packet];
    try destruct (norm_acks _ _) as [a b] eqn:En;
    eapply frame_roundtrip; try done;
    first [destruct (AckData_rt p Hp) as (bs & E & B & D)
          |destruct (AckOther_rt p Hp) as (bs & E & B & D)
          |destruct (DataSeg_rt p Hp) as (bs & E & B & D)
          |destruct (IntMsg_rt p Hp) as (bs & E & B & D)
          |destruct (LinkSvcMsg_rt p Hp) as (bs & E & B & D)
          |destruct (AckConn_rt p Hp) as (bs & E & B & D)
          |destruct (ConnInit_rt p Hp) as (bs & E & B & D)
          |destruct (ConnConf_rt p Hp) as (bs & E & B & D)
          |destruct (DiscConf_rt p Hp) as (bs & E & B & D)
          |destruct (DiscInit_rt p Hp) as (bs & E & B & D)];
    rewrite ?En in D; eauto.
Qed.

(** The second acknowledgement is there and the first is not. *)
Definition lone_second (p : NspPacket) : bool :=
  let lone a1 a2 := bool_decide (a1 = None) && bool_decide (is_Some a2) in
  match p with
  | PAckData p => lone (AckData.acknum p) (AckData.acknum2 p)
  | PAckOther p => lone (AckOther.acknum p) (AckOther.acknum2 p)
  | PDataSeg p => lone (DataSeg.acknum p) (DataSeg.acknum2 p)
  | PIntMsg p => lone (IntMsg.acknum p) (IntMsg.acknum2 p)
  | PLinkSvcMsg p => lone (LinkSvcMsg.acknum p) (LinkSvcMsg.acknum2 p)
  | _ => false
  end.
Lemma norm_same p : lone_second p = false → norm p = p.
Proof.
  destruct p as [[? ? ? a1 a2]|[? ? ? a1 a2]| |[? ? ? a1 a2 ? ? ?]|[? ? ? a1 a2 ? ?]|[? ? ? a1 a2 ? ? ? ?]| | | |];
    cbn; try done; destruct a1, a2; done.
Qed.
Lemma norm_encode p : encode_packet (norm p) = encode_packet p.
Proof.
  destruct p as [[? ? ? a1 a2]|[? ? ? a1 a2]| |[? ? ? a1 a2 ? ? ?]|[? ? ? a1 a2 ? ?]|[? ? ? a1 a2 ? ? ? ?]| | | |];
    try done; destruct a1, a2; try done; cbn -[Encoder.uint].
  all: repeat (case_match; cbn -[Encoder.uint]; try done).
Qed.

(** C20: Every NSP packet the protocol can build encodes without an error into a frame
    that parse_frame reads back as a packet of the same class: the very packet that was
    encoded, unless only its second acknowledgement was set, which is how an interrupt
    carries the one it has. The format cannot tell a lone second acknowledgement from a
    first one, so such a packet is read with the acknowledgement in the first place, all
    else the same, and it encodes into the same frame again. *)
Theorem nsp_parse_encode (p : NspPacket) :
  packet_ok p →
  ∃ bs, encode_packet p = Ok bs ∧ bytes_ok bs ∧ parse_frame bs = Some (norm p) ∧
    encode_packet (norm p) = Ok bs ∧ (lone_second p = false → norm p = p).
Proof.
  intros (bs & E & B & D)%parse_encode. exists bs. split_and!; try done.
  - by rewrite norm_encode.
  - apply norm_same.
Qed.

Definition nsp_example : NspPacket :=
  PDataSeg (DataSeg.mk 96 8193 12290 None (Some (mkAck 17 ACKQ)) 5 true [1; 2; 3]).

Lemma nsp_parse_encode_witness :
  packet_ok nsp_example ∧
  ∃ bs, encode_packet nsp_example = Ok bs ∧ bytes_ok bs ∧ parse_frame bs = Some (norm nsp_example) ∧
    encode_packet (norm nsp_example) = Ok bs ∧ (lone_second nsp_example = false → norm nsp_example = nsp_example).
Proof.
  assert (packet_ok nsp_example) as H by (by apply (bool_decide_unpack _)).
  split; [exact H|]. apply (nsp_parse_encode nsp_example H).
Defined.
