(* ===== verification/Float.v ===== *)
(** IEEE double arithmetic, bit for bit: the [double] members of the
    congestion window and the round trip estimate.

    The kernel's specification floats compute the C++ operations exactly
    (binary64, round to nearest even); nothing about them is assumed. *)

From Stdlib Require Import SpecFloat.
From S2P Require Import Prelude.
#[local] Open Scope Z_scope.

Abbreviation double := spec_float.

Definition prec : Z := 53.
Definition emax : Z := 1024.

(** A conversion from an integer, and the literal [m / 10^k]. *)
Definition f_of_Z (z : Z) : double := binary_normalize prec emax z 0 false.

Definition fadd (a b : double) : double := SFadd prec emax a b.
Definition fsub (a b : double) : double := SFsub prec emax a b.
Definition fmul (a b : double) : double := SFmul prec emax a b.
Definition fdiv (a b : double) : double := SFdiv prec emax a b.
(** [a < b], [a == b] and [a <= b]; false on NaN. *)
Definition fltb (a b : double) : bool := SFltb a b.
Definition feqb (a b : double) : bool := SFeqb a b.
Definition fleb (a b : double) : bool := SFleb a b.

(** [std::min] and [std::max]. *)
Definition fmin (a b : double) : double := if fltb b a then b else a.
Definition fmax (a b : double) : double := if fltb a b then b else a.

(** [static_cast<unsigned>]: toward zero (a value outside the type, which the
    code never converts, has no meaning in C++ and is zero here). *)
Definition f_to_unsigned (a : double) : Z :=
  match a with
  | S754_finite false m e =>
      let z := if 0 <=? e then Z.shiftl (Z.pos m) e else Z.shiftr (Z.pos m) (- e) in
      if z <? 4294967296 then z else 0
  | _ => 0
  end.

Definition f0 : double := S754_zero false.
Definition f1 : double := f_of_Z 1.
Definition f2 : double := f_of_Z 2.

Lemma f_to_unsigned_range a : 0 ≤ f_to_unsigned a < 4294967296.
Proof.
  destruct a as [| | |[] m e]; simpl; try lia.
  destruct (Z.ltb_spec (if 0 <=? e then Z.shiftl (Z.pos m) e else Z.shiftr (Z.pos m) (- e))
              4294967296); [|lia]. split; [|done].
  destruct (0 <=? e); [by apply Z.shiftl_nonneg|by apply Z.shiftr_nonneg].
Qed.

(** A conversion to a signed integer type wide enough: toward zero. *)
Definition f_to_Z (a : double) : Z :=
  match a with
  | S754_finite s m e =>
      let z := if 0 <=? e then Z.shiftl (Z.pos m) e else Z.shiftr (Z.pos m) (- e) in
      if s then - z else z
  | _ => 0
  end.

(** Of two numbers the one that is not the less is the greater or equal. *)
Lemma SFcompare_opp a b : SFcompare b a = CompOpp <$> SFcompare a b.
Proof.
  destruct a as [s1|s1| |s1 m1 e1], b as [s2|s2| |s2 m2 e2]; try (by destruct s1); try (by destruct s2); try done.
  - by destruct s1, s2.
  - cbn. rewrite (Z.compare_antisym e1 e2). change (Pos.compare_cont Eq m2 m1) with (Pos.compare m2 m1).
    change (Pos.compare_cont Eq m1 m2) with (Pos.compare m1 m2). rewrite (Pos.compare_antisym m1 m2).
    destruct s1, s2; try done; destruct (e1 ?= e2); cbn; try done; by rewrite CompOpp_involutive.
Qed.
Lemma not_less a b : a ≠ S754_nan → b ≠ S754_nan → fltb a b = false → fleb b a = true.
Proof.
  intros Ha Hb. unfold fltb, fleb, SFltb, SFleb. rewrite (SFcompare_opp a b).
  destruct (SFcompare a b) as [[]|] eqn:E; try done. destruct a, b; done.
Qed.
