(* ===== verification/Json.v ===== *)
(** JSON for the application protocol: [include/decnet/common/json.h] and
    [src/common/json.cc].

    A [json::Value] is a tree; an [Object] is the list of its keys in the order
    they were set, each with its value ([order_] and [fields_] in one).  The
    text is a list of bytes, as [std::string] is.  The parser is a function of
    the unread text; every call takes a byte, so the length of the text bounds
    the calls, and running out of fuel is an outcome of its own.

    Text of a double is the standard library's [std::to_chars] and
    [std::from_chars]: the class [FloatText]. *)

From S2P Require Import Prelude Types Float.
From Stdlib Require Import SpecFloat.
#[local] Open Scope Z_scope.

(** ** Values *)

Inductive Value :=
| Null
| Str (s : text)
| Int (i : Z)
| Bool (b : bool)
| Arr (a : list Value)
| Dbl (d : double)
| Obj (o : list (text * Value)).
Abbreviation Object := (list (text * Value)).

(** The induction principle that reaches into arrays and objects. *)
Section Induction.
Context (P : Value → Prop).
Context (Hnull : P Null) (Hstr : ∀ s, P (Str s)) (Hint : ∀ i, P (Int i)) (Hbool : ∀ b, P (Bool b)).
Context (Harr : ∀ a, Forall P a → P (Arr a)) (Hdbl : ∀ d, P (Dbl d)).
Context (Hobj : ∀ o, Forall (λ kv, P kv.2) o → P (Obj o)).
Fixpoint value_rect (v : Value) : P v :=
  match v with
  | Null => Hnull
  | Str s => Hstr s
  | Int i => Hint i
  | Bool b => Hbool b
  | Arr a => Harr a ((fix go (a : list Value) : Forall P a :=
      match a with [] => Forall_nil_2 P | v :: a => Forall_cons_2 P v a (value_rect v) (go a) end) a)
  | Dbl d => Hdbl d
  | Obj o => Hobj o ((fix go (o : Object) : Forall (λ kv, P kv.2) o :=
      match o with
      | [] => Forall_nil_2 (λ kv, P kv.2)
      | (k, v) :: o => Forall_cons_2 (λ kv, P kv.2) (k, v) o (value_rect v) (go o)
      end) o)
  end.
End Induction.

(** What a parse gives: a value and the unread text, [ParseError], or nothing
    because the fuel ran out. *)
Inductive outcome (A : Type) := Parsed (a : A) (rest : text) | ParseError | OutOfFuel.
Arguments Parsed {A} _ _.
Arguments ParseError {A}.
Arguments OutOfFuel {A}.
Definition obind {A B} (m : outcome A) (f : A → text → outcome B) : outcome B :=
  match m with Parsed a s => f a s | ParseError => ParseError | OutOfFuel => OutOfFuel end.

(** ** [Object] *)

(** [Object::set]: a new key goes last, a known one keeps its place. *)
Fixpoint set (key : text) (v : Value) (o : Object) : Object :=
  match o with
  | [] => [(key, v)]
  | (k, w) :: o => if decide (k = key) then (k, v) :: o else (k, w) :: set key v o
  end.
Fixpoint get (key : text) (o : Object) : option Value :=
  match o with
  | [] => None
  | (k, v) :: o => if decide (k = key) then Some v else get key o
  end.
Definition has (key : text) (o : Object) : bool := bool_decide (is_Some (get key o)).
Definition keys (o : Object) : list text := map fst o.
Definition str (key : text) (dflt : text) (o : Object) : text :=
  match get key o with Some (Str s) => s | _ => dflt end.
Definition num (key : text) (dflt : Z) (o : Object) : Z :=
  match get key o with Some (Int i) => i | _ => dflt end.
(** [Object::bytes] and [set_bytes]: latin-1, a character is a byte. *)
Definition bytes (key : text) (o : Object) : Bytes :=
  match get key o with Some (Str s) => as_bytes s | _ => [] end.
Definition set_bytes (key : text) (b : Bytes) (o : Object) : Object := set key (Str (of_bytes b)) o.

(** ** Encoding *)

Definition lit (s : String.string) : text := String.list_ascii_of_string s.

Definition hex_digit (v : Z) : ascii := if v <? 10 then chr (48 + v) else chr (87 + v).
(** The escape of a character, or itself. *)
Definition quote_char (c : ascii) : text :=
  if decide (c = "034"%char) then ["\"%char; "034"%char]
  else if decide (c = "\"%char) then ["\"%char; "\"%char]
  else if decide (c = "008"%char) then ["\"%char; "b"%char]
  else if decide (c = "012"%char) then ["\"%char; "f"%char]
  else if decide (c = "010"%char) then ["\"%char; "n"%char]
  else if decide (c = "013"%char) then ["\"%char; "r"%char]
  else if decide (c = "009"%char) then ["\"%char; "t"%char]
  else if (code c <? 32) || (126 <? code c) then
    ["\"%char; "u"%char; "0"%char; "0"%char; hex_digit (code c / 16); hex_digit (code c mod 16)]
  else [c].
Fixpoint quote_body (s : text) : text :=
  match s with [] => [] | c :: s => quote_char c ++ quote_body s end.
Definition quote (s : text) : text := ["034"%char] ++ quote_body s ++ ["034"%char].

(** [std::to_string] of an [int64_t]: nineteen digits are enough. *)
Definition to_string (i : Z) : text :=
  if i <? 0 then "-"%char :: rev (digits 19 (- i)) else rev (digits 19 i).

(** [std::to_chars] of a double into a buffer of 32 bytes, and
    [std::from_chars], which gives what it did not consume. *)
Class FloatText := {
  to_chars : double → option text;
  from_chars_double : text → option (double * text);
}.

(** What [find_first_of] and [find_first_not_of] look for. *)
Definition fraction_char (c : ascii) : bool := bool_decide (c ∈ lit ".eE").
Definition number_char (c : ascii) : bool := isdigit c || bool_decide (c = "-"%char).

Section Text.
Context `{FloatText}.

(** [number]: the text of a double keeps a fraction. *)
Definition number (d : double) : text :=
  match to_chars d with
  | None => ["0"%char]
  | Some out =>
      if negb (existsb fraction_char out) && forallb number_char out then out ++ lit ".0" else out
  end.

(** Texts separated by [sep]. *)
Fixpoint joined (sep : text) (ts : list text) : text :=
  match ts with
  | [] => []
  | [t] => t
  | t :: ts => t ++ sep ++ joined sep ts
  end.

(** [Value::encode] and [Object::encode]. *)
Fixpoint value_encode (v : Value) : text :=
  match v with
  | Null => lit "null"
  | Str s => quote s
  | Int i => to_string i
  | Bool b => if b then lit "true" else lit "false"
  | Arr a => ["["%char] ++ joined [","%char] (map value_encode a) ++ ["]"%char]
  | Dbl d => number d
  | Obj o => ["{"%char] ++ joined [","%char] (map (λ kv, quote kv.1 ++ [":"%char] ++ value_encode kv.2) o) ++ ["}"%char]
  end.
Definition encode (o : Object) : text := value_encode (Obj o).

(** [Value::to_text]. *)
Fixpoint to_text (v : Value) : text :=
  match v with
  | Str s => s
  | Arr a => joined (lit ", ") (map to_text a)
  | _ => value_encode v
  end.

(** [Object::format_message]: each [{}] takes the next argument, if any. *)
Fixpoint substitute (args : list Value) (msg : text) : text :=
  match msg with
  | c :: (d :: msg') as rest =>
      match args with
      | a :: args' => if decide (c = "{"%char ∧ d = "}"%char) then to_text a ++ substitute args' msg'
                      else c :: substitute args rest
      | [] => c :: substitute args rest
      end
  | _ => msg
  end.
Definition format_message (key argkey : text) (o : Object) : text :=
  match get argkey o with
  | Some (Arr args) => substitute args (str key [] o)
  | _ => str key [] o
  end.

(** ** Parsing *)

Definition is_ws (c : ascii) : bool := bool_decide (c ∈ [" "%char; "009"%char; "010"%char; "013"%char]).
Fixpoint skip_ws (s : text) : text :=
  match s with c :: s' => if is_ws c then skip_ws s' else s | [] => [] end.
(** [expect]. *)
Definition expect (c : ascii) (s : text) : outcome () :=
  match skip_ws s with d :: s => if decide (d = c) then Parsed () s else ParseError | [] => ParseError end.

Definition hex_value (c : ascii) : option Z :=
  if isdigit c then Some (code c - 48)
  else if (97 <=? code c) && (code c <=? 102) then Some (code c - 87)
  else if (65 <=? code c) && (code c <=? 70) then Some (code c - 55)
  else None.
Definition hex4 (a b c d : ascii) : option Z :=
  a ← hex_value a; b ← hex_value b; c ← hex_value c; d ← hex_value d;
  Some (a * 4096 + b * 256 + c * 16 + d).
(** The character a one letter escape stands for. *)
Definition escape_char (e : ascii) : option ascii :=
  if decide (e = "034"%char) then Some "034"%char
  else if decide (e = "\"%char) then Some "\"%char
  else if decide (e = "/"%char) then Some "/"%char
  else if decide (e = "b"%char) then Some "008"%char
  else if decide (e = "f"%char) then Some "012"%char
  else if decide (e = "n"%char) then Some "010"%char
  else if decide (e = "r"%char) then Some "013"%char
  else if decide (e = "t"%char) then Some "009"%char
  else None.
Definition ocons {A} (a : A) (m : outcome (list A)) : outcome (list A) := obind m (λ l, Parsed (a :: l)).
(** The loop of [parse_string], after the opening quote. *)
Fixpoint string_body (s : text) : outcome text :=
  match s with
  | [] => ParseError
  | c :: s =>
      if decide (c = "034"%char) then Parsed [] s
      else if decide (c = "\"%char) then
        match s with
        | [] => ParseError
        | e :: s =>
            if decide (e = "u"%char) then
              match s with
              | a :: b :: c :: d :: s =>
                  match hex4 a b c d with
                  | Some v => if 255 <? v then ParseError else ocons (chr v) (string_body s)
                  | None => ParseError
                  end
              | _ => ParseError
              end
            else match escape_char e with Some x => ocons x (string_body s) | None => ParseError end
        end
      else ocons c (string_body s)
  end.
Definition parse_string (s : text) : outcome text := obind (expect "034"%char s) (λ _ s, string_body s).

(** The longest prefix of characters that satisfy [p]. *)
Fixpoint span (p : ascii → bool) (s : text) : text * text :=
  match s with
  | c :: s' => if p c then let '(a, b) := span p s' in (c :: a, b) else ([], s)
  | [] => ([], [])
  end.
(** [std::from_chars] of an [int64_t], on a sign and digits. *)
Definition from_chars_int (neg : bool) (ds : text) : option Z :=
  let v := (scan_uint 0 ds).1 in
  let v := if neg then - v else v in
  if (-9223372036854775808 <=? v) && (v <=? 9223372036854775807) then Some v else None.
Definition tail_char (c : ascii) : bool := isdigit c || bool_decide (c ∈ lit ".eE+-").

Definition take_sign (s : text) : bool * text :=
  match s with c :: s' => if decide (c = "-"%char) then (true, s') else (false, s) | [] => (false, s) end.
Definition parse_number (s : text) : outcome Value :=
  let '(neg, s) := take_sign s in
  let '(ds, s) := span isdigit s in
  if bool_decide (ds = []) then ParseError
  else if match s with c :: _ => fraction_char c | [] => false end then
    let '(rest, s) := span tail_char s in
    match from_chars_double ((if neg then ["-"%char] else []) ++ ds ++ rest) with
    | Some (d, []) => Parsed (Dbl d) s
    | _ => ParseError
    end
  else match from_chars_int neg ds with Some i => Parsed (Int i) s | None => ParseError end.

Definition literal (l : text) (v : Value) (s : text) : outcome Value :=
  if decide (take (length l) s = l) then Parsed v (drop (length l) s) else ParseError.

(** The opening of [parse_object], and its loop. *)
Definition open_object (members : Z → Object → text → outcome Object) (depth : Z) (s : text) : outcome Object :=
  let depth := depth + 1 in
  if 32 <? depth then ParseError
  else obind (expect "{"%char s) (λ _ s,
    match skip_ws s with
    | [] => ParseError
    | c :: s' => if decide (c = "}"%char) then Parsed [] s' else members depth [] s
    end).

Fixpoint parse_value (fuel : nat) (depth : Z) (s : text) {struct fuel} : outcome Value :=
  match fuel with
  | O => OutOfFuel
  | S fuel =>
      let s := skip_ws s in
      match s with
      | [] => ParseError
      | c :: s' =>
          if decide (c = "034"%char) then obind (parse_string s) (λ t, Parsed (Str t))
          else if decide (c = "{"%char) then obind (open_object (parse_members fuel) depth s) (λ o, Parsed (Obj o))
          else if decide (c = "["%char) then
            match skip_ws s' with
            | [] => ParseError
            | d :: r => if decide (d = "]"%char) then Parsed (Arr []) r
                        else obind (parse_items fuel depth s') (λ a, Parsed (Arr a))
            end
          else if decide (c = "t"%char) then literal (lit "true") (Bool true) s
          else if decide (c = "f"%char) then literal (lit "false") (Bool false) s
          else if decide (c = "n"%char) then literal (lit "null") Null s
          else parse_number s
      end
  end
with parse_items (fuel : nat) (depth : Z) (s : text) {struct fuel} : outcome (list Value) :=
  match fuel with
  | O => OutOfFuel
  | S fuel =>
      obind (parse_value fuel depth s) (λ v s,
        match skip_ws s with
        | [] => ParseError
        | d :: s =>
            if decide (d = ","%char) then ocons v (parse_items fuel depth s)
            else if decide (d = "]"%char) then Parsed [v] s
            else ParseError
        end)
  end
with parse_members (fuel : nat) (depth : Z) (o : Object) (s : text) {struct fuel} : outcome Object :=
  match fuel with
  | O => OutOfFuel
  | S fuel =>
      obind (parse_string (skip_ws s)) (λ key s,
      obind (expect ":"%char s) (λ _ s,
      obind (parse_value fuel depth s) (λ v s,
        let o := set key v o in
        match skip_ws s with
        | [] => ParseError
        | d :: s =>
            if decide (d = ","%char) then parse_members fuel depth o s
            else if decide (d = "}"%char) then Parsed o s
            else ParseError
        end)))
  end.

Definition fuel_for (s : text) : nat := S (S (2 * length s)).
(** [Object::parse]. *)
Definition parse (s : text) : outcome Object :=
  obind (open_object (parse_members (fuel_for s)) 0 s) (λ o s,
    match skip_ws s with [] => Parsed o [] | _ => ParseError end).
End Text.
