(* ===== verification/JsonRoundtrip.v ===== *)
(** JSON: what is encoded parses back, on one line of printable text; the
    parser always answers; and what bounds the nesting. *)

From S2P Require Import Prelude Types Float Json.
From Stdlib Require Import SpecFloat.
#[local] Open Scope Z_scope.

(** ** The values that JSON carries *)

(** What the standard says of [std::to_chars] and [std::from_chars] for
    doubles: the text is a number as [parse_number] takes it apart, and reads
    back as the double it was made from, with a zero fraction added or not. *)
Definition finite (d : double) : bool :=
  match d with S754_zero _ => true | S754_finite _ m e => bounded Float.prec Float.emax m e | _ => false end.
Definition sign_text (neg : bool) : text := if neg then ["-"%char] else [].
Class FloatLaws `{FloatText} : Prop := {
  to_chars_shape d : finite d = true → ∃ neg ds rest,
    to_chars d = Some (sign_text neg ++ ds ++ rest) ∧ ds ≠ [] ∧
    Forall (λ c, isdigit c = true) ds ∧ Forall (λ c, tail_char c = true) rest ∧
    match rest with c :: _ => fraction_char c = true | [] => True end;
  from_to_chars d t : finite d = true → to_chars d = Some t → from_chars_double t = Some (d, []);
  from_to_point d t : finite d = true → to_chars d = Some t → forallb number_char t = true →
    from_chars_double (t ++ lit ".0") = Some (d, []);
}.

Fixpoint wf (v : Value) : Prop :=
  match v with
  | Int i => -9223372036854775808 ≤ i ≤ 9223372036854775807
  | Dbl d => finite d = true
  | Arr a => foldr (λ v P, wf v ∧ P) True a
  | Obj o => NoDup (map fst o) ∧ foldr (λ kv P, wf kv.2 ∧ P) True o
  | _ => True
  end.
Lemma wf_arr a : wf (Arr a) ↔ Forall wf a.
Proof. cbn. induction a as [|v a IH]; cbn; [by rewrite Forall_nil|]. rewrite Forall_cons. tauto. Qed.
Lemma wf_obj o : wf (Obj o) ↔ NoDup (map fst o) ∧ Forall (λ kv, wf kv.2) o.
Proof.
  cbn. assert (foldr (λ kv P, wf kv.2 ∧ P) True o ↔ Forall (λ kv, wf kv.2) o) as H; [|tauto].
  induction o as [|v o IH]; cbn; [by rewrite Forall_nil|]. rewrite Forall_cons. tauto.
Qed.

(** How many objects deep. *)
Fixpoint nesting (v : Value) : Z :=
  match v with
  | Arr a => foldr (λ v n, Z.max (nesting v) n) 0 a
  | Obj o => 1 + foldr (λ kv n, Z.max (nesting kv.2) n) 0 o
  | _ => 0
  end.
Lemma max_nonneg {A} (f : A → Z) (l : list A) : 0 ≤ foldr (λ v n, Z.max (f v) n) 0 l.
Proof. induction l; cbn; lia. Qed.
Lemma nesting_max {A} (f : A → Z) (l : list A) n : 0 ≤ n → foldr (λ v n, Z.max (f v) n) 0 l ≤ n ↔ Forall (λ v, f v ≤ n) l.
Proof. intros Hn. induction l as [|v l IH]; cbn; [by rewrite Forall_nil|]. rewrite Forall_cons, <- IH. lia. Qed.

(** ** Strings *)

(** A fact of every character, by cases. *)
Lemma ascii_forall (P : ascii → bool) : forallb (λ n, P (ascii_of_nat n)) (seq 0 256) = true → ∀ c, P c = true.
Proof.
  intros H c. rewrite forallb_forall in H. rewrite <- (ascii_nat_embedding c). apply H, in_seq.
  pose proof (nat_ascii_bounded c). lia.
Qed.
Lemma ascii_imp (P Q : ascii → bool) : forallb (λ n, implb (P (ascii_of_nat n)) (Q (ascii_of_nat n))) (seq 0 256) = true →
  ∀ c, P c = true → Q c = true.
Proof. intros H c Hc. pose proof (ascii_forall (λ c, implb (P c) (Q c)) H c) as E. cbn in E. by rewrite Hc in E. Qed.
Lemma quote_char_body c s : string_body (quote_char c ++ s) = ocons c (string_body s).
Proof.
  assert (match quote_char c with
          | [x] => negb (bool_decide (x = "034"%char)) && negb (bool_decide (x = "\"%char)) && bool_decide (x = c)
          | [x; e] => bool_decide (x = "\"%char) && negb (bool_decide (e = "u"%char)) && bool_decide (escape_char e = Some c)
          | [x; e; p; q; r; t] => bool_decide (x = "\"%char) && bool_decide (e = "u"%char) && bool_decide (hex4 p q r t = Some (code c))
          | _ => false
          end = true) as H by (revert c; apply ascii_forall; vm_compute; reflexivity).
  destruct (quote_char c) as [|x [|e [|p [|q [|r [|t [|]]]]]]]; try discriminate H;
    apply andb_prop in H as [[H1 H2]%andb_prop H3]; try apply negb_true_iff in H1; try apply negb_true_iff in H2;
    repeat match goal with
    | H : bool_decide _ = true |- _ => apply bool_decide_eq_true in H
    | H : bool_decide _ = false |- _ => apply bool_decide_eq_false in H
    end; subst; cbn [app string_body].
  - by rewrite decide_False, decide_False by done.
  - rewrite decide_False by done. rewrite decide_True by done. rewrite decide_False by done. by rewrite H3.
  - rewrite decide_False by done. rewrite decide_True by done. rewrite decide_True by done. rewrite H3.
    pose proof (code_range c). replace (255 <? code c) with false by (symmetry; apply Z.ltb_ge; lia). by rewrite chr_code.
Qed.
Lemma quote_body_parse s rest : string_body (quote_body s ++ "034"%char :: rest) = Parsed s rest.
Proof.
  induction s as [|c s IH]; cbn [quote_body]; [by cbn; rewrite decide_True|].
  by rewrite <- app_assoc, quote_char_body, IH.
Qed.
Lemma parse_quote s rest : parse_string (quote s ++ rest) = Parsed s rest.
Proof. unfold parse_string, expect, quote. cbn. rewrite <- app_assoc. apply quote_body_parse. Qed.

Ltac lens := repeat (progress (rewrite ?length_app in *; cbn [fst snd length] in * )); lia.

(** ** Numbers *)

Lemma span_app p a rest : Forall (λ c, p c = true) a → match rest with c :: _ => p c = false | [] => True end →
  span p (a ++ rest) = (a, rest).
Proof.
  intros Ha Hr. induction Ha as [|c a Hc _ IH]; cbn; [|by rewrite Hc, IH].
  destruct rest as [|c rest]; [done|]. cbn. by rewrite Hr.
Qed.
(** What may follow a number. *)
Definition stops (rest : text) : Prop := match rest with c :: _ => tail_char c = false | [] => True end.
Lemma stops_digit rest : stops rest → match rest with c :: _ => isdigit c = false | [] => True end.
Proof. destruct rest as [|c rest]; [done|]. cbn. unfold tail_char. by intros [? _]%orb_false_iff. Qed.
Lemma stops_fraction rest : stops rest → match rest with c :: _ => fraction_char c | [] => false end = false.
Proof.
  destruct rest as [|c rest]; [done|]. cbn. intros Hc.
  apply not_true_iff_false. intros H. apply (ascii_imp fraction_char tail_char eq_refl) in H. congruence.
Qed.
Lemma digit_not_sign c : isdigit c = true → c ≠ "-"%char.
Proof. intros H ->. discriminate H. Qed.

(** A sign and digits, before what is not a digit. *)
Lemma number_parts neg ds s : ds ≠ [] → Forall (λ c, isdigit c = true) ds →
  take_sign (sign_text neg ++ ds ++ s) = (neg, ds ++ s).
Proof.
  intros Hn Hd. destruct neg; [done|]. destruct Hd as [|c ds Hc Hd]; [done|]. cbn.
  rewrite decide_False; [done|]. by apply digit_not_sign.
Qed.

Lemma digits_nonempty fuel v : digits (S fuel) v ≠ [].
Proof. done. Qed.
Lemma decimal_int v : 0 ≤ v < 10 ^ 19 →
  let ds := rev (digits 19 v) in ds ≠ [] ∧ Forall (λ c, isdigit c = true) ds ∧ (scan_uint 0 ds).1 = v.
Proof.
  intros Hv ds. split; [|split].
  - unfold ds. intros H%(f_equal (@length _)). rewrite length_rev in H. discriminate H.
  - apply Forall_rev. apply digits_digit. lia.
  - assert (Forall (λ c, isdigit c = true) ds) as Hd by (apply Forall_rev, digits_digit; lia).
    rewrite <- (app_nil_r ds), scan_uint_app by done. cbn [scan_uint fst]. unfold ds. rewrite foldl_rev. by apply (digits_val 19).
Qed.

Section Laws.
Context {FT : FloatText} {HL : FloatLaws}.

Lemma to_string_parts i : -9223372036854775808 ≤ i ≤ 9223372036854775807 → ∃ neg ds, to_string i = sign_text neg ++ ds ∧
  ds ≠ [] ∧ Forall (λ c, isdigit c = true) ds ∧ (scan_uint 0 ds).1 = Z.abs i ∧ neg = (i <? 0).
Proof.
  intros Hi. destruct (decimal_int (Z.abs i)) as (Hn & Hd & Hs); [lia|]. exists (i <? 0), (rev (digits 19 (Z.abs i))). split_and!; try done.
  unfold to_string. destruct (Z.ltb_spec i 0); [by rewrite Z.abs_neq by lia|by rewrite Z.abs_eq by lia].
Qed.
Lemma parse_int i rest : -9223372036854775808 ≤ i ≤ 9223372036854775807 → stops rest →
  parse_number (to_string i ++ rest) = Parsed (Int i) rest.
Proof.
  intros Hi Hr. destruct (to_string_parts i Hi) as (neg & ds & -> & Hn & Hd & Hs & En).
  unfold parse_number. rewrite <- app_assoc, number_parts by done. rewrite span_app by (done || by apply stops_digit).
  rewrite bool_decide_eq_false_2 by done. rewrite stops_fraction by done. unfold from_chars_int. rewrite Hs.
  replace (if neg then - Z.abs i else Z.abs i) with i by (rewrite En; destruct (Z.ltb_spec i 0); lia).
  rewrite (proj2 (Z.leb_le _ _)) by lia. by rewrite (proj2 (Z.leb_le _ _)) by lia.
Qed.

Lemma fraction_tail c : fraction_char c = true → isdigit c = false.
Proof.
  intros Hc. apply negb_true_iff. exact (ascii_imp fraction_char (λ c, negb (isdigit c)) eq_refl c Hc).
Qed.
Lemma number_parts_char neg ds : Forall (λ c, isdigit c = true) ds →
  existsb fraction_char (sign_text neg ++ ds) = false ∧ forallb number_char (sign_text neg ++ ds) = true.
Proof.
  intros Hd. split.
  - apply not_true_iff_false. intros (c & Hin & Hc)%existsb_exists. apply in_app_iff in Hin as [Hin|Hin].
    + destruct neg; [|done]. destruct Hin as [<-|[]]. discriminate Hc.
    + rewrite Forall_forall in Hd. apply fraction_tail in Hc. rewrite Hd in Hc; [done|]. by apply list_elem_of_In.
  - apply forallb_forall. intros c Hin. unfold number_char. apply in_app_iff in Hin as [Hin|Hin].
    + destruct neg; [|done]. by destruct Hin as [<-|[]].
    + rewrite Forall_forall in Hd. rewrite Hd; [done|]. by apply list_elem_of_In.
Qed.

(** The text of a double, as the parser takes it apart. *)
Lemma number_shape d : finite d = true → ∃ neg ds rest, number d = sign_text neg ++ ds ++ rest ∧ ds ≠ [] ∧
  Forall (λ c, isdigit c = true) ds ∧ Forall (λ c, tail_char c = true) rest ∧
  (∃ c r, rest = c :: r ∧ fraction_char c = true) ∧ from_chars_double (number d) = Some (d, []).
Proof.
  intros Hf. destruct (to_chars_shape d Hf) as (neg & ds & rest & E & Hn & Hd & Hr & Hh). unfold number. rewrite E.
  destruct rest as [|c rest].
  - destruct (number_parts_char neg ds Hd) as [H1 H2]. rewrite app_nil_r, H1, H2 in *. cbn [negb andb].
    exists neg, ds, (lit ".0"). rewrite <- app_assoc. split_and!; try done.
    + by repeat constructor.
    + by eexists _, _.
    + rewrite app_assoc. by apply from_to_point.
  - assert (existsb fraction_char (sign_text neg ++ ds ++ c :: rest) = true) as ->.
    { apply existsb_exists. exists c. split; [|done]. rewrite !in_app_iff. right. right. by left. }
    exists neg, ds, (c :: rest). split_and!; try done; [by eexists _, _|]. by apply from_to_chars.
Qed.
Lemma parse_double d rest : finite d = true → stops rest → parse_number (number d ++ rest) = Parsed (Dbl d) rest.
Proof.
  intros Hf Hr. destruct (number_shape d Hf) as (neg & ds & t & E & Hn & Hd & Ht & (c & r & -> & Hc) & Hp).
  rewrite E in *. unfold parse_number. rewrite <- !app_assoc, number_parts by done.
  rewrite span_app by (done || (cbn; by apply fraction_tail)). rewrite bool_decide_eq_false_2 by done.
  cbn [app]. rewrite Hc. change (c :: r ++ rest) with ((c :: r) ++ rest). rewrite span_app by done.
  change (if neg then ["-"%char] else []) with (sign_text neg). by rewrite Hp.
Qed.

(** ** Values *)

Definition number_start (c : ascii) : bool := isdigit c || bool_decide (c = "-"%char).
Lemma parse_value_number fuel depth c s : number_start c = true → parse_value (S fuel) depth (c :: s) = parse_number (c :: s).
Proof.
  intros Hc. pose proof (ascii_imp number_start (λ c, negb (is_ws c) && negb (bool_decide (c = "034"%char)) &&
    negb (bool_decide (c = "{"%char)) && negb (bool_decide (c = "["%char)) && negb (bool_decide (c = "t"%char)) &&
    negb (bool_decide (c = "f"%char)) && negb (bool_decide (c = "n"%char))) eq_refl c Hc) as H. cbn beta in H.
  rewrite !andb_true_iff, !negb_true_iff, !bool_decide_eq_false in H.
  destruct H as ((((((H1 & H2) & H3) & H4) & H5) & H6) & H7). cbn [parse_value skip_ws]. rewrite H1. by rewrite !decide_False by done.
Qed.
Lemma parse_value_digits fuel depth neg ds s : ds ≠ [] → Forall (λ c, isdigit c = true) ds →
  parse_value (S fuel) depth (sign_text neg ++ ds ++ s) = parse_number (sign_text neg ++ ds ++ s).
Proof.
  intros Hn Hd. destruct neg; [by apply parse_value_number|]. destruct Hd as [|c ds Hc Hd]; [done|].
  apply parse_value_number. unfold number_start. by rewrite Hc.
Qed.

Lemma joined_cons sep t t' ts : joined sep (t :: t' :: ts) = t ++ sep ++ joined sep (t' :: ts).
Proof. done. Qed.
Lemma set_new key v o : key ∉ map fst o → set key v o = o ++ [(key, v)].
Proof.
  induction o as [|[k w] o IH]; cbn; [done|]. rewrite not_elem_of_cons. intros [Hk Ho].
  rewrite decide_False by congruence. by rewrite IH.
Qed.

Lemma expect_hit c s : is_ws c = false → expect c (c :: s) = Parsed () s.
Proof. intros Hc. unfold expect. cbn [skip_ws]. by rewrite Hc, decide_True. Qed.
Lemma skip_hit c s : is_ws c = false → skip_ws (c :: s) = c :: s.
Proof. intros Hc. cbn. by rewrite Hc. Qed.
(** A value parses, whatever follows that cannot belong to a number. *)
Definition parses (v : Value) : Prop := ∀ fuel depth rest, wf v → 0 ≤ depth → depth + nesting v ≤ 32 → stops rest →
  (2 * length (value_encode v ++ rest) < fuel)%nat → parse_value fuel depth (value_encode v ++ rest) = Parsed v rest.

Lemma parse_items_encode a : a ≠ [] → Forall parses a → ∀ fuel depth rest, Forall wf a → 0 ≤ depth →
  Forall (λ v, depth + nesting v ≤ 32) a →
  (S (2 * length (joined [","%char] (map value_encode a) ++ "]"%char :: rest)) < fuel)%nat →
  parse_items fuel depth (joined [","%char] (map value_encode a) ++ "]"%char :: rest) = Parsed a rest.
Proof.
  intros Hn Hp. induction Hp as [|v a Hv Ha IH]; [done|]. intros fuel depth rest [Wv Wa]%Forall_cons Hd [Nv Na]%Forall_cons Hf.
  destruct fuel as [|fuel]; [lia|]. cbn [parse_items]. destruct a as [|w a].
  - cbn [map joined] in *. rewrite Hv by (done || lia). cbn. done.
  - cbn [map] in *. rewrite joined_cons in *. rewrite <- !app_assoc in *.
    rewrite Hv by (done || lia). cbn [obind app]. rewrite skip_hit, decide_True by done.
    rewrite IH; try done. clear - Hf. lens.
Qed.

Definition member_text (kv : text * Value) : text := quote kv.1 ++ [":"%char] ++ value_encode kv.2.
Lemma skip_quote k s : skip_ws (quote k ++ s) = quote k ++ s.
Proof. done. Qed.
(** A value starts with something. *)
Definition starts (s : text) : Prop := ∃ c t, s = c :: t ∧ is_ws c = false ∧ c ≠ "]"%char.
Lemma starts_digits neg ds s : ds ≠ [] → Forall (λ c, isdigit c = true) ds → starts (sign_text neg ++ ds ++ s).
Proof.
  intros Hn Hd. destruct neg; [by eexists _, _|]. destruct Hd as [|c ds Hc Hd]; [done|]. exists c, (ds ++ s). split; [done|].
  pose proof (ascii_imp isdigit (λ c, negb (is_ws c) && negb (bool_decide (c = "]"%char))) eq_refl c Hc) as H. cbn beta in H.
  apply andb_prop in H as [H1%negb_true_iff H2%negb_true_iff%bool_decide_eq_false]. done.
Qed.
Lemma value_starts v s : wf v → starts (value_encode v ++ s).
Proof.
  intros Hv. destruct v as [|t|i|[]|a|d|o]; try (by eexists _, _).
  - cbn [value_encode]. destruct (to_string_parts i Hv) as (neg & ds & -> & Hn & Hd & _). rewrite <- app_assoc. by apply starts_digits.
  - cbn [value_encode]. destruct (number_shape d Hv) as (neg & ds & rest & -> & Hn & Hd & _). rewrite <- !app_assoc. by apply starts_digits.
Qed.
Lemma items_start v a s : wf v → starts (joined [","%char] (map value_encode (v :: a)) ++ s).
Proof. intros Hv. destruct a as [|w a]; [by apply value_starts|]. cbn [map]. rewrite joined_cons, <- app_assoc. by apply value_starts. Qed.

Lemma parse_members_encode kvs : kvs ≠ [] → Forall (λ kv, parses kv.2) kvs → ∀ fuel depth o rest,
  NoDup (map fst (o ++ kvs)) → Forall (λ kv, wf kv.2) kvs → 0 ≤ depth → Forall (λ kv, depth + nesting kv.2 ≤ 32) kvs →
  (2 * length (joined [","%char] (map member_text kvs) ++ "}"%char :: rest) < fuel)%nat →
  parse_members fuel depth o (joined [","%char] (map member_text kvs) ++ "}"%char :: rest) = Parsed (o ++ kvs) rest.
Proof.
  intros Hn Hp. induction Hp as [|[k v] kvs Hv Ha IH]; [done|]. intros fuel depth o rest Hnd [Wv Wa]%Forall_cons Hd [Nv Na]%Forall_cons Hf.
  destruct fuel as [|fuel]; [lia|]. cbn [parse_members]. cbn [fst snd] in *.
  assert (k ∉ map fst o) as Hk.
  { rewrite map_app in Hnd. apply NoDup_app in Hnd as (_ & Hnd & _). intros Hin. apply (Hnd k Hin). by left. }
  assert (∀ s, (2 * length (value_encode v ++ s) < fuel)%nat → stops s →
    obind (parse_string (skip_ws (member_text (k, v) ++ s))) (λ key s, obind (expect ":"%char s) (λ _ s,
      obind (parse_value fuel depth s) (λ v s, let o := set key v o in
        match skip_ws s with
        | [] => ParseError
        | d :: s => if decide (d = ","%char) then parse_members fuel depth o s
                    else if decide (d = "}"%char) then Parsed o s else ParseError
        end))) = match skip_ws s with
        | [] => ParseError
        | d :: s => if decide (d = ","%char) then parse_members fuel depth (o ++ [(k, v)]) s
                    else if decide (d = "}"%char) then Parsed (o ++ [(k, v)]) s else ParseError
        end) as Hstep.
  { intros s Hs Hst. unfold member_text. cbn [fst snd]. rewrite <- !app_assoc, skip_quote, parse_quote. cbn [obind app].
    rewrite expect_hit by done. cbn [obind].
    rewrite Hv by (done || lia). cbn [obind]. by rewrite set_new. }
  destruct kvs as [|kv kvs].
  - cbn [map joined] in *. rewrite Hstep; [done| |done]. unfold member_text in Hf. lens.
  - cbn [map] in *. rewrite joined_cons in *. rewrite <- !app_assoc in *. rewrite Hstep; [|..|done].
    + cbn [app]. rewrite skip_hit, decide_True by done.
      rewrite IH; [by rewrite <- app_assoc|done| |done..|].
      * by rewrite <- app_assoc.
      * unfold member_text at 1 in Hf. lens.
    + unfold member_text at 1 in Hf. lens.
Qed.

Lemma open_object_encode fuel depth o rest : Forall (λ kv, parses kv.2) o → wf (Obj o) → 0 ≤ depth → depth + nesting (Obj o) ≤ 32 →
  (2 * length (joined [","%char] (map member_text o) ++ "}"%char :: rest) < fuel)%nat →
  open_object (parse_members fuel) depth ("{"%char :: joined [","%char] (map member_text o) ++ "}"%char :: rest) = Parsed o rest.
Proof.
  intros Hp [Hnd Hw]%wf_obj Hd Hn Hf. cbn [nesting] in Hn. unfold open_object.
  pose proof (max_nonneg (λ kv : text * Value, nesting kv.2) o) as H0.
  replace (32 <? depth + 1) with false by (symmetry; apply Z.ltb_ge; lia).
  rewrite expect_hit by done. cbn [obind].
  destruct o as [|[k v] o]; [done|].
  assert (∃ t, joined [","%char] (map member_text ((k, v) :: o)) ++ "}"%char :: rest = "034"%char :: t) as [t E].
  { destruct o; cbn [map]; [|rewrite joined_cons]; unfold member_text, quote; by eexists. }
  rewrite E at 1. rewrite skip_hit, decide_False by done.
  rewrite (parse_members_encode ((k, v) :: o)); try done; [lia|].
  - eapply Forall_impl; [apply (nesting_max (λ kv : text * Value, nesting kv.2) _ (31 - depth)); lia|]. cbn. lia.
Qed.

Lemma value_parses v : parses v.
Proof.
  induction v as [|t|i|b|a Ha|d|o Ho] using value_rect; intros fuel depth rest Hw Hd Hnest Hr Hf; (destruct fuel as [|fuel]; [lia|]).
  - done.
  - change (value_encode (Str t)) with (quote t). cbn [parse_value]. rewrite skip_quote. unfold quote at 1. cbn [app].
    rewrite decide_True by done. change ("034"%char :: (quote_body t ++ ["034"%char]) ++ rest) with (quote t ++ rest). by rewrite parse_quote.
  - cbn [value_encode]. rewrite <- (parse_int i rest Hw Hr). destruct (to_string_parts i Hw) as (neg & ds & -> & Hn & Hds & _).
    rewrite <- app_assoc. by apply parse_value_digits.
  - by destruct b.
  - apply wf_arr in Hw. cbn [nesting] in Hnest. pose proof (max_nonneg nesting a) as Hm.
    assert (Forall (λ v, nesting v ≤ 32 - depth) a) as Hna by (apply nesting_max; lia).
    cbn [value_encode] in *. rewrite <- !app_assoc in *. cbn [app] in *. cbn [parse_value]. rewrite skip_hit by done.
    rewrite decide_False by done. rewrite decide_False by done. rewrite decide_True by done.
    destruct a as [|v a]; [done|].
    destruct (items_start v a ("]"%char :: rest)) as (c & t & E & Hc & Hcb); [by apply Forall_cons in Hw as [? _]|].
    rewrite E at 1. rewrite skip_hit, decide_False by done.
    rewrite parse_items_encode; try done.
    + eapply Forall_impl; [exact Hna|]. cbn. lia.
    + cbn [length] in Hf. lia.
  - cbn [value_encode]. rewrite <- (parse_double d rest Hw Hr). destruct (number_shape d Hw) as (neg & ds & t & -> & Hn & Hds & _).
    rewrite <- !app_assoc. by apply parse_value_digits.
  - change (value_encode (Obj o)) with (["{"%char] ++ joined [","%char] (map member_text o) ++ ["}"%char]) in *.
    rewrite <- !app_assoc in *. cbn [app] in *. cbn [parse_value]. rewrite skip_hit by done.
    rewrite decide_False by done. rewrite decide_True by done. rewrite (open_object_encode fuel); try done; cbn [length] in Hf; lia.
Qed.
End Laws.

(** ** The parser answers *)

(** An answer, and what is left is shorter than [n]. *)
Definition sized {A} (n : nat) (m : outcome A) : Prop :=
  match m with Parsed _ r => (length r < n)%nat | ParseError => True | OutOfFuel => False end.
Lemma sized_bind {A B} n (m : outcome A) (f : A → text → outcome B) :
  sized n m → (∀ a r, (length r < n)%nat → sized n (f a r)) → sized n (obind m f).
Proof. intros Hm Hf. destruct m as [a r| |]; cbn in *; [by apply Hf|done..]. Qed.
Lemma sized_weaken {A} n n' (m : outcome A) : sized n m → (n ≤ n')%nat → sized n' m.
Proof. intros Hm Hn. destruct m; cbn in *; [lia|done..]. Qed.
Lemma skip_ws_length s : (length (skip_ws s) ≤ length s)%nat.
Proof. induction s as [|c s IH]; cbn; [done|]. destruct (is_ws c); cbn; lia. Qed.
Lemma expect_sized c s : sized (length s) (expect c s).
Proof. unfold expect. pose proof (skip_ws_length s). destruct (skip_ws s) as [|d r]; [done|]. destruct (decide _); cbn in *; [lia|done]. Qed.
Lemma string_body_sized s : sized (length s) (string_body s).
Proof.
  induction s as [s IH] using (induction_ltof1 _ (@length ascii)). unfold ltof in IH.
  assert (∀ a r, (length r < length s)%nat → sized (length s) (ocons a (string_body r))) as Hc.
  { intros a r Hr. apply sized_bind; [apply (sized_weaken (length r)); [by apply IH|lia]|done]. }
  destruct s as [|c s]; [done|]. cbn [string_body].
  destruct (decide _); [cbn; lia|]. destruct (decide _); [|apply Hc; cbn; lia].
  destruct s as [|y s]; [done|]. destruct (decide _).
  - destruct s as [|a [|b [|x [|d s]]]]; try done. destruct (hex4 a b x d); [|done]. destruct (255 <? z); [done|]. apply Hc. cbn. lia.
  - destruct (escape_char y); [|done]. apply Hc. cbn. lia.
Qed.
Lemma parse_string_sized s : sized (length s) (parse_string s).
Proof.
  apply sized_bind; [apply expect_sized|]. intros _ r Hr. apply (sized_weaken (length r)); [apply string_body_sized|lia].
Qed.
Lemma span_length p s : (length (span p s).1 + length (span p s).2 = length s)%nat.
Proof. induction s as [|c s IH]; cbn; [done|]. destruct (p c); [destruct (span p s); cbn in *; lia|done]. Qed.

Section Total.
Context `{FloatText}.
Lemma parse_number_sized s : sized (length s) (parse_number s).
Proof.
  unfold parse_number. set (p := take_sign s).
  assert (length p.2 ≤ length s)%nat as Hp by (subst p; unfold take_sign; destruct s; [done|]; destruct (decide _); cbn; lia).
  destruct p as [neg s']. cbn [snd] in Hp. pose proof (span_length isdigit s') as Hs.
  destruct (span isdigit s') as [ds r]. cbn [fst snd] in Hs. destruct (bool_decide (ds = [])) eqn:Ed; [done|].
  apply bool_decide_eq_false in Ed. assert (length r < length s)%nat by (destruct ds; [done|]; cbn in Hs; lia).
  destruct (match r with [] => _ | _ => _ end).
  - pose proof (span_length tail_char r) as Ht. destruct (span tail_char r) as [t r']. cbn [fst snd] in Ht.
    destruct (from_chars_double _) as [[d [|]]|]; cbn; [lia|done..].
  - destruct (from_chars_int neg ds); cbn; [lia|done].
Qed.
Lemma literal_sized l v s : l ≠ [] → sized (length s) (literal l v s).
Proof.
  intros Hl. unfold literal. destruct (decide _) as [E|]; [|done]. cbn [sized]. rewrite length_drop.
  apply (f_equal length) in E. rewrite length_take in E. destruct l; [done|]. cbn [length] in *. lia.
Qed.
Lemma open_object_sized members depth s :
  (∀ d o r, (length r < length s)%nat → sized (length s) (members d o r)) → sized (length s) (open_object members depth s).
Proof.
  intros Hm. unfold open_object. destruct (32 <? _); [done|]. apply sized_bind; [apply expect_sized|]. intros _ r Hr.
  pose proof (skip_ws_length r). destruct (skip_ws r) as [|c t]; [done|]. destruct (decide _); [cbn in *; lia|by apply Hm].
Qed.

Lemma parse_sized fuel :
  (∀ d s, (2 * length s < fuel)%nat → sized (length s) (parse_value fuel d s)) ∧
  (∀ d s, (S (2 * length s) < fuel)%nat → sized (length s) (parse_items fuel d s)) ∧
  (∀ d o s, (2 * length s < fuel)%nat → sized (length s) (parse_members fuel d o s)).
Proof.
  induction fuel as [|fuel (IHv & IHi & IHm)]; [split_and!; intros; lia|]. split_and!.
  - intros d s Hf. cbn [parse_value]. pose proof (skip_ws_length s). set (t := skip_ws s) in *. clearbody t.
    apply (sized_weaken (length t)); [|done]. destruct t as [|c r]; [done|]. cbn [length] in *.
    destruct (decide _); [apply sized_bind; [apply parse_string_sized|done]|].
    destruct (decide _).
    { apply sized_bind; [|done]. apply open_object_sized. intros d' o r' Hr. apply (sized_weaken (length r')); [apply IHm|]; cbn [length] in *; lia. }
    destruct (decide _).
    { pose proof (skip_ws_length r). destruct (skip_ws r) as [|x u]; [done|]. destruct (decide _); [cbn in *; lia|].
      apply sized_bind; [|done]. apply (sized_weaken (length r)); [apply IHi|]; lia. }
    do 3 (destruct (decide _); [by apply literal_sized|]). apply parse_number_sized.
  - intros d s Hf. cbn [parse_items]. apply sized_bind; [apply IHv; lia|]. intros v r Hr.
    pose proof (skip_ws_length r). destruct (skip_ws r) as [|x u]; [done|]. cbn [length] in *.
    destruct (decide _); [|destruct (decide _); cbn; [lia|done]].
    apply sized_bind; [apply (sized_weaken (length u)); [apply IHi|]; lia|done].
  - intros d o s Hf. cbn [parse_members]. pose proof (skip_ws_length s).
    apply sized_bind; [apply (sized_weaken (length (skip_ws s))); [apply parse_string_sized|done]|]. intros key r Hr.
    apply sized_bind; [apply (sized_weaken (length r)); [apply expect_sized|lia]|]. intros _ r1 Hr1.
    apply sized_bind; [apply (sized_weaken (length r1)); [apply IHv|]; lia|]. intros v r2 Hr2.
    pose proof (skip_ws_length r2). destruct (skip_ws r2) as [|x u]; [done|]. cbn [length] in *.
    destruct (decide _); [|destruct (decide _); cbn; [lia|done]].
    apply (sized_weaken (length u)); [apply IHm|]; lia.
Qed.
End Total.

(** ** What is printed *)

(** A byte that a terminal prints: in particular, no end of line. *)
Definition printable (c : ascii) : bool := (32 <=? code c) && (code c <=? 126).
Definition all_printable (s : text) : Prop := Forall (λ c, printable c = true) s.
Lemma quote_printable s : all_printable (quote s).
Proof.
  unfold all_printable, quote. apply Forall_app. split; [by repeat constructor|]. apply Forall_app. split; [|by repeat constructor].
  induction s as [|c s IH]; cbn [quote_body]; [by constructor|]. apply Forall_app. split; [|exact IH].
  apply Forall_forall. intros x Hx. assert (forallb printable (quote_char c) = true) as H.
  { revert c Hx. intros c _. revert c. apply ascii_forall. vm_compute. reflexivity. }
  rewrite forallb_forall in H. apply H. by apply list_elem_of_In.
Qed.
Lemma joined_printable sep ts : all_printable sep → Forall all_printable ts → all_printable (joined sep ts).
Proof.
  intros Hs Ht. induction Ht as [|t ts Ht Hts IH]; [by constructor|]. destruct ts as [|u ts]; [done|].
  rewrite joined_cons. apply Forall_app. split; [done|]. by apply Forall_app.
Qed.
Section Printed.
Context {FT : FloatText} {HL : FloatLaws}.
Lemma digits_printable ds : Forall (λ c, isdigit c = true) ds → all_printable ds.
Proof. intros H. eapply Forall_impl; [exact H|]. cbn. exact (ascii_imp isdigit printable eq_refl). Qed.
Lemma sign_printable neg : all_printable (sign_text neg).
Proof. by destruct neg; repeat constructor. Qed.
Lemma value_printable v : wf v → all_printable (value_encode v).
Proof.
  induction v as [|t|i|b|a Ha|d|o Ho] using value_rect; intros Hw.
  - by repeat constructor.
  - apply quote_printable.
  - destruct (to_string_parts i Hw) as (neg & ds & E & _ & Hd & _). cbn [value_encode]. rewrite E.
    apply Forall_app. split; [apply sign_printable|by apply digits_printable].
  - by destruct b; repeat constructor.
  - apply wf_arr in Hw. cbn [value_encode]. apply Forall_app. split; [by repeat constructor|].
    apply Forall_app. split; [|by repeat constructor]. apply joined_printable; [by repeat constructor|].
    apply Forall_fmap. rewrite Forall_forall in *. intros v Hv. by apply Ha; [|apply Hw].
  - destruct (number_shape d Hw) as (neg & ds & rest & E & _ & Hd & Hr & _). cbn [value_encode]. rewrite E.
    apply Forall_app. split; [apply sign_printable|]. apply Forall_app. split; [by apply digits_printable|].
    eapply Forall_impl; [exact Hr|]. cbn. exact (ascii_imp tail_char printable eq_refl).
  - apply wf_obj in Hw as [_ Hw]. cbn [value_encode]. apply Forall_app. split; [by repeat constructor|].
    apply Forall_app. split; [|by repeat constructor]. apply joined_printable; [by repeat constructor|].
    apply Forall_fmap. rewrite Forall_forall in *. intros kv Hkv. change (all_printable (member_text kv)). apply Forall_app. split; [apply quote_printable|].
    apply Forall_cons. split; [done|]. by apply Ho; [|apply Hw].
Qed.

Lemma parse_encoded o : wf (Obj o) → nesting (Obj o) ≤ 32 → parse (encode o) = Parsed o [].
Proof.
  intros Hw Hn. unfold parse. change (encode o) with ("{"%char :: joined [","%char] (map member_text o) ++ ["}"%char]).
  rewrite open_object_encode; try done.
  - apply Forall_forall. intros kv _. apply value_parses.
  - unfold fuel_for. cbn [length]. lia.
Qed.
End Printed.

(** C33: an object of the application protocol (integers of 64 bits, finite
    doubles, distinct keys, at most thirty-two objects deep) is encoded as one
    line of printable ASCII and parses back as it was, byte strings and the
    order of the keys included, whatever text the library gives a double that
    reads back as it. *)
Theorem json_roundtrip `{FloatLaws} (o : Object) : wf (Obj o) → nesting (Obj o) ≤ 32 →
  parse (encode o) = Parsed o [] ∧ Forall (λ c, printable c = true) (encode o).
Proof. intros Hw Hn. split; [by apply parse_encoded|by apply (value_printable (Obj o))]. Qed.

(** whatever text a client sends, the parser answers, with an object or
    with a parse error. *)
Theorem json_parse_answers `{FloatText} (s : text) : parse s = ParseError ∨ ∃ o, parse s = Parsed o [].
Proof.
  assert (sized (length s) (open_object (parse_members (fuel_for s)) 0 s)) as Hs.
  { apply open_object_sized. intros d o r Hr. apply (sized_weaken (length r)); [apply parse_sized; unfold fuel_for|]; lia. }
  unfold parse. destruct (open_object _ 0 s) as [o r| |]; [|by left|done]. cbn. destruct (skip_ws r); [right; by exists o|by left].
Qed.

(** ** Nesting *)

(** [n] arrays one in another, and objects. *)
Fixpoint arrays (n : nat) : Value := match n with O => Arr [] | S n => Arr [arrays n] end.
Fixpoint objects (n : nat) : Object := match n with O => [] | S n => [(lit "a", Obj (objects n))] end.

Section Nesting.
Context {FT : FloatText}.
Lemma arrays_calls n : ∀ fuel d, (fuel ≤ n)%nat → parse_value fuel d (value_encode (arrays n) ++ lit "}") = OutOfFuel.
Proof.
  assert (∀ n fuel d rest, (fuel ≤ n)%nat → parse_value fuel d (value_encode (arrays n) ++ rest) = OutOfFuel) as H; [|by intros; apply H].
  clear n. induction n as [|n IH]; intros fuel d rest Hf; (destruct fuel as [|fuel]; [done|lia || idtac]).
  change (value_encode (arrays (S n))) with (["["%char] ++ value_encode (arrays n) ++ ["]"%char]).
  rewrite <- !app_assoc. cbn [app parse_value]. rewrite skip_hit, decide_False, decide_False, decide_True by done.
  assert (∃ t, value_encode (arrays n) ++ "]"%char :: rest = "["%char :: t) as [t E] by (destruct n; by eexists).
  rewrite E at 1. rewrite skip_hit, decide_False by done. destruct fuel as [|fuel]; [done|]. cbn [parse_items].
  rewrite IH by lia. done.
Qed.
Lemma objects_refused n fuel d rest : 0 ≤ d → 32 < d + Z.of_nat n + 1 →
  (2 * length (value_encode (Obj (objects n)) ++ rest) < fuel)%nat →
  open_object (parse_members fuel) d (value_encode (Obj (objects n)) ++ rest) = ParseError.
Proof.
  revert fuel d rest. induction n as [|n IH]; intros fuel d rest Hd Hn Hf; unfold open_object; destruct (Z.ltb_spec 32 (d + 1)); try done; [lia|].
  change (value_encode (Obj (objects (S n)))) with (["{"%char] ++ member_text (lit "a", Obj (objects n)) ++ ["}"%char]) in *.
  rewrite <- !app_assoc in *. cbn [app] in *. rewrite expect_hit by done. cbn [obind].
  assert (∃ t, member_text (lit "a", Obj (objects n)) ++ "}"%char :: rest = "034"%char :: t) as [t Et] by by eexists.
  rewrite Et at 1. rewrite skip_hit, decide_False by done. destruct fuel as [|fuel]; [lia|]. cbn [parse_members].
  unfold member_text in *. cbn [fst snd] in *. rewrite <- !app_assoc, skip_quote, parse_quote. cbn [obind app]. rewrite expect_hit by done. cbn [obind].
  destruct fuel as [|fuel]; [lens|]. cbn [parse_value].
  assert (∃ u, value_encode (Obj (objects n)) ++ "}"%char :: rest = "{"%char :: u) as [u Eu] by by eexists.
  rewrite Eu. rewrite skip_hit, decide_False, decide_True by done. rewrite <- Eu.
  rewrite IH; [done|lia..|]. lens.
Qed.
End Nesting.

(** the parser refuses an object nested more than thirty-two deep, against
    "a client trying to exhaust the stack", but takes arrays nested to any
    depth, each inside a call of its own. *)
Theorem array_nesting_unbounded `{FloatLaws} (n : nat) :
  parse (encode [(lit "a", arrays n)]) = Parsed [(lit "a", arrays n)] [] ∧
  (∀ fuel d, (fuel ≤ n)%nat → parse_value fuel d (value_encode (arrays n) ++ lit "}") = OutOfFuel) ∧
  (32 ≤ Z.of_nat n → parse (encode (objects n)) = ParseError).
Proof.
  split_and!.
  - assert (wf (arrays n) ∧ nesting (arrays n) = 0) as [H1 H2] 
      by (induction n as [|n [IH1 IH2]]; cbn; [done|]; rewrite IH2; split; [by split|done]).
    apply parse_encoded; [|cbn; lia]. apply wf_obj. split; [apply NoDup_singleton|by repeat constructor].
  - intros fuel d. apply arrays_calls.
  - intros Hn. unfold parse. change (encode (objects n)) with (value_encode (Obj (objects n))).
    rewrite <- (app_nil_r (value_encode _)) at 2. rewrite objects_refused; [done|lia..|]. rewrite app_nil_r. unfold fuel_for. lia.
Qed.

(** ** A text for doubles: mantissa and exponent *)

Definition example_to_chars (d : double) : option text :=
  match d with
  | S754_zero s => Some (sign_text s ++ lit "0e0")
  | S754_finite s m e => Some (sign_text s ++ rev (digits 19 (Z.pos m)) ++ lit "e" ++ to_string e)
  | _ => None
  end.
Definition example_from_chars (s : text) : option (double * text) :=
  let '(neg, s) := take_sign s in
  let '(ds, s) := span isdigit s in
  let '(eneg, s) := take_sign (drop 1 s) in
  let '(es, s) := span isdigit s in
  let e := (scan_uint 0 es).1 in
  Some (match (scan_uint 0 ds).1 with Z.pos m => S754_finite neg m (if eneg then - e else e) | _ => S754_zero neg end, s).
#[export] Instance example_float : FloatText := { to_chars := example_to_chars; from_chars_double := example_from_chars }.

Lemma bounded_range m e : bounded Float.prec Float.emax m e = true → Z.pos m < 10 ^ 19 ∧ -9223372036854775808 ≤ e ≤ 9223372036854775807.
Proof.
  unfold bounded, canonical_mantissa, fexp, emin, Float.prec, Float.emax. intros [H1%Z.eqb_eq H2%Z.leb_le]%andb_prop.
  assert (Z.pos (digits2_pos m) ≤ 53) as Hd by lia. split; [|lia].
  assert (∀ n m, Z.pos (digits2_pos m) ≤ Z.of_nat n → Z.pos m < 2 ^ Z.of_nat n) as Hb.
  { clear. induction n as [|n IH]; intros m Hm; [lia|]. rewrite Nat2Z.inj_succ, Z.pow_succ_r in * by lia.
    destruct m as [m|m|]; cbn [digits2_pos] in Hm; rewrite ?Pos2Z.inj_succ in Hm.
    - specialize (IH m ltac:(lia)). lia.
    - specialize (IH m ltac:(lia)). lia.
    - pose proof (Z.pow_pos_nonneg 2 (Z.of_nat n)). lia. }
  specialize (Hb 53%nat m Hd). change (2 ^ Z.of_nat 53) with 9007199254740992 in Hb. change (10 ^ 19) with 10000000000000000000. lia.
Qed.
Lemma example_read neg ds e : ds ≠ [] → Forall (λ c, isdigit c = true) ds → -9223372036854775808 ≤ e ≤ 9223372036854775807 →
  example_from_chars (sign_text neg ++ ds ++ lit "e" ++ to_string e) =
  Some (match (scan_uint 0 ds).1 with Z.pos m => S754_finite neg m e | _ => S754_zero neg end, []).
Proof.
  intros Hn Hd He. destruct (to_string_parts e He) as (eneg & es & -> & Hn' & Hd' & Hs & Ee). unfold example_from_chars.
  rewrite number_parts by done. rewrite span_app by done.
  change (drop 1 (lit "e" ++ sign_text eneg ++ es)) with (sign_text eneg ++ es).
  replace (sign_text eneg ++ es) with (sign_text eneg ++ es ++ []) by by rewrite app_nil_r.
  rewrite number_parts by done. rewrite span_app by done. rewrite Hs.
  replace (if eneg then - Z.abs e else Z.abs e) with e by (rewrite Ee; destruct (Z.ltb_spec e 0); lia). done.
Qed.
#[export] Instance example_laws : FloatLaws.
Proof.
  assert (∀ d, finite d = true → ∃ neg ds e, example_to_chars d = Some (sign_text neg ++ ds ++ lit "e" ++ to_string e) ∧ ds ≠ [] ∧
    Forall (λ c, isdigit c = true) ds ∧ -9223372036854775808 ≤ e ≤ 9223372036854775807 ∧
    d = match (scan_uint 0 ds).1 with Z.pos m => S754_finite neg m e | _ => S754_zero neg end) as Hall.
  { intros [s|s| |s m e] Hf; try discriminate Hf.
    - exists s, ["0"%char], 0. split_and!; try done. by repeat constructor.
    - destruct (bounded_range m e Hf) as [Hm He]. destruct (decimal_int (Z.pos m)) as (Hn & Hd & Hs); [lia|].
      exists s, (rev (digits 19 (Z.pos m))), e. split_and!; try done; try lia. by rewrite Hs. }
  split.
  - intros d Hf. destruct (Hall d Hf) as (neg & ds & e & E & Hn & Hd & He & _).
    exists neg, ds, (lit "e" ++ to_string e). split_and!; try done. apply Forall_cons. split; [done|].
    destruct (to_string_parts e He) as (eneg & es & -> & _ & Hes & _). apply Forall_app. split; [by destruct eneg; repeat constructor|].
    eapply Forall_impl; [exact Hes|]. cbn. exact (ascii_imp isdigit tail_char eq_refl).
  - intros d t Hf Ht. destruct (Hall d Hf) as (neg & ds & e & E & Hn & Hd & He & ->). cbn [to_chars example_float] in Ht. rewrite E in Ht.
    apply (inj Some) in Ht as <-. by apply example_read.
  - intros d t Hf Ht Hnum. destruct (Hall d Hf) as (neg & ds & e & E & Hn & Hd & He & _). cbn [to_chars example_float] in Ht. rewrite E in Ht.
    apply (inj Some) in Ht as <-. rewrite forallb_forall in Hnum.
    assert (number_char "e"%char = true) as Hc by (apply Hnum; rewrite !in_app_iff; right; right; left; by left). discriminate Hc.
Qed.

Definition example_object : Object :=
  [(lit "api", Str (lit "session")); (lit "data", Str (of_bytes [0; 34; 92; 10; 200; 255]));
   (lit "time", Dbl (fdiv (f_of_Z 3) (f_of_Z 2))); (lit "args", Arr [Int (-7); Bool true; Null; Obj []])].
Lemma json_roundtrip_witness : parse (encode example_object) = Parsed example_object [].
Proof.
  assert (wf (Obj example_object)) as Hw.
  { apply wf_obj. split; [apply (bool_decide_unpack _); vm_compute; exact Logic.I|].
    repeat (apply Forall_cons_2; [cbn; split_and?; done || lia || apply NoDup_nil_2|]). apply Forall_nil_2. }
  assert (nesting (Obj example_object) ≤ 32) as Hn by done.
  exact (proj1 (json_roundtrip example_object Hw Hn)).
Defined.
Lemma array_nesting_unbounded_witness : parse (encode [(lit "a", arrays 40)]) = Parsed [(lit "a", arrays 40)] [] ∧ parse (encode (objects 40)) = ParseError.
Proof.
  destruct (array_nesting_unbounded 40) as (H1 & _ & H3). split; [exact H1|]. apply H3. lia.
Defined.
