(* ===== verification/NiceValue.v ===== *)
(** NICE values, entities and parameter lists: [include/decnet/nice/value.h],
    [entity.h], [params.h] and their sources in [src/nice/].

    A number of more than eight bytes makes the code shift a 64 bit value by
    its width or more, which C++ leaves undefined: what such a shift comes to
    is the class [WideShift].  Everything else is as written. *)

From S2P Require Import Prelude Buffer Types.
#[local] Open Scope Z_scope.

(** What the bytes beyond the eighth of a number come to. *)
Class WideShift := {
  wide_in : Bytes → Z;               (* all the bytes read, more than eight *)
  wide_out : Z → nat → Z;            (* the byte at that index, from eight on *)
}.

(** ** [Value] *)

Module Kind.
Inductive t := du | ds | h | o | ai | hi | c | cm.
#[export] Instance t_eq_dec : EqDecision t.
Proof. solve_decision. Defined.
End Kind.
Export (hints) Kind.

(** The payload is the variant of the class; [bytes_] is [unsigned]. *)
Inductive Value := mkValue (kind_ : Kind.t) (bytes_ : Z) (data_ : Payload)
with Payload :=
| PNone | PUint (v : Z) | PInt (v : Z) | PText (s : text) | PBytes (b : Bytes) | PList (l : list Value).

Definition kind (v : Value) : Kind.t := let '(mkValue k _ _) := v in k.
Definition byte_count (v : Value) : Z := let '(mkValue _ n _) := v in n.
Definition data (v : Value) : Payload := let '(mkValue _ _ p) := v in p.
(** The default constructor. *)
Definition new_value : Value := mkValue Kind.du 1 PNone.

Definition check_bytes (n : Z) : result unit := if (n <? 1) || (15 <? n) then Throw FieldOverflow else Ok tt.
(** [Value::du], [ds], [h], [o] and [c]. *)
Definition make_number (k : Kind.t) (v n : Z) : result Value := _ ← check_bytes n; Ok (mkValue k n (PUint v)).
Definition make_ds (v n : Z) : result Value := _ ← check_bytes n; Ok (mkValue Kind.ds n (PInt v)).
Definition make_ai (s : text) : result Value := if 255 <? len s then Throw FieldOverflow else Ok (mkValue Kind.ai 0 (PText s)).
Definition make_hi (b : Bytes) : result Value := if 255 <? len b then Throw FieldOverflow else Ok (mkValue Kind.hi 0 (PBytes b)).
Definition make_cm (l : list Value) : result Value := if 15 <? len l then Throw FieldOverflow else Ok (mkValue Kind.cm (len l) (PList l)).

Definition type_code_of (k : Kind.t) (n : Z) : Z :=
  match k with
  | Kind.du => u8 (0 + n) | Kind.ds => u8 (16 + n) | Kind.h => u8 (32 + n) | Kind.o => u8 (48 + n)
  | Kind.ai => 64 | Kind.hi => 32 | Kind.c => u8 (128 + n) | Kind.cm => u8 (192 + n)
  end.
Definition type_code (v : Value) : Z := type_code_of (kind v) (byte_count v).
Definition is_number (v : Value) : bool :=
  match kind v with Kind.du | Kind.ds | Kind.h | Kind.o | Kind.c => true | _ => false end.

Definition get_uint (p : Payload) : result Z := match p with PUint v => Ok v | _ => Throw BadVariantAccess end.
Definition get_int (p : Payload) : result Z := match p with PInt v => Ok v | _ => Throw BadVariantAccess end.
Definition get_text (p : Payload) : result text := match p with PText s => Ok s | _ => Throw BadVariantAccess end.
Definition get_bytes (p : Payload) : result Bytes := match p with PBytes b => Ok b | _ => Throw BadVariantAccess end.
Definition as_uint (v : Value) : result Z := get_uint (data v).
Definition as_int (v : Value) : result Z := get_int (data v).
Definition as_string (v : Value) : result text := get_text (data v).
Definition as_list (v : Value) : result (list Value) :=
  match data v with PList l => Ok l | _ => Throw BadVariantAccess end.

Section Wide.
Context `{WS : WideShift}.

(** [Encoder::uint] and [Decoder::uint] for any number of bytes. *)
Definition write_uint (v : Z) (n : nat) : Bytes :=
  if (n <=? 8)%nat then Encoder.uint v n else Encoder.uint v 8 ++ map (wide_out v) (seq 8 (n - 8)).
Definition read_uint (n : nat) : dec Z := λ d,
  if (n <=? 8)%nat then Decoder.uint n d else _ ← Decoder.need n d; Ok (wide_in (take n d), drop n d).

Definition write_all (f : Value → result Bytes) : list Value → result Bytes :=
  fix go l := match l with [] => Ok [] | v :: l => a ← f v; b ← go l; Ok (a ++ b) end.
Fixpoint encode (v : Value) : result Bytes :=
  match v with
  | mkValue k n p =>
      body ← match k, p with
             | Kind.cm, PList l => write_all encode l
             | Kind.cm, _ => Throw BadVariantAccess
             | Kind.ds, _ => i ← get_int p; Ok (write_uint (u64 i) (Z.to_nat n))
             | Kind.ai, _ => s ← get_text p; Ok (Encoder.byte (len s) ++ Encoder.raw (as_bytes s))
             | Kind.hi, _ => b ← get_bytes p; Ok (Encoder.byte (len b) ++ Encoder.raw b)
             | _, _ => u ← get_uint p; Ok (write_uint u (Z.to_nat n))
             end;
      Ok (Encoder.byte (type_code_of k n) ++ body)
  end.

Definition sign_extend (v n : Z) : Z :=
  if 8 <=? n then s64 v
  else
    let sign := Z.shiftl 1 (8 * n - 1) in
    if negb (Z.land v sign =? 0) then s64 (Z.lor v (u64 (Z.lnot (Z.shiftl sign 1 - 1)))) else s64 v.

Fixpoint read_items (item : dec Value) (n : nat) : dec (list Value) := λ d,
  match n with
  | O => Ok ([], d)
  | S n => '(v, d) ← item d; '(l, d) ← read_items item n d; Ok (v :: l, d)
  end.
(** A count byte, then that many bytes. *)
Definition read_image : dec Bytes := λ d, '(n, d) ← Decoder.byte d; Decoder.raw (Z.to_nat n) d.
Definition read_number (make : Z → Z → result Value) (n : Z) : dec Value := λ d,
  '(u, d) ← read_uint (Z.to_nat n) d; v ← make u n; Ok (v, d).
(** [decode_body], with [decode] for the elements. *)
Definition decode_body (item : dec Value) (code : Z) : dec Value := λ d,
  if negb (Z.land code 128 =? 0) then
    let n := Z.land code 31 in
    if n =? 0 then Throw DecodeError
    else if Z.land code 192 =? 192 then
      '(l, d) ← read_items item (Z.to_nat n) d; v ← make_cm l; Ok (v, d)
    else read_number (make_number Kind.c) n d
  else
    let n := Z.land code 15 in
    let g := Z.land code 240 in
    if g =? 0 then if n =? 0 then Throw DecodeError else read_number (make_number Kind.du) n d
    else if g =? 16 then
      if n =? 0 then Throw DecodeError else read_number (λ u n, make_ds (sign_extend u n) n) n d
    else if g =? 32 then
      if n =? 0 then '(b, d) ← read_image d; v ← make_hi b; Ok (v, d)
      else read_number (make_number Kind.h) n d
    else if g =? 48 then if n =? 0 then Throw DecodeError else read_number (make_number Kind.o) n d
    else if g =? 64 then
      if negb (n =? 0) then Throw DecodeError else '(b, d) ← read_image d; v ← make_ai (of_bytes b); Ok (v, d)
    else Throw DecodeError.
(** [decode]: an element takes a byte at least, which the fuel counts. *)
Fixpoint decode_fuel (fuel : nat) : dec Value := λ d,
  match fuel with
  | O => Throw InternalError
  | S fuel => '(code, d) ← Decoder.byte d; decode_body (decode_fuel fuel) code d
  end.
Definition decode : dec Value := λ d, decode_fuel (S (length d)) d.
Definition parse (buf : Bytes) : result Value :=
  '(v, d) ← decode buf; if negb (Decoder.empty d) then Throw ExtraData else Ok v.
End Wide.

(** ** Display *)

(** The digits of a number in some base, and padding with zeroes. *)
Fixpoint digits_in (base : Z) (fuel : nat) (v : Z) : text :=
  match fuel with
  | O => []
  | S fuel => Macaddr.hexdigit (v mod base) :: if v <? base then [] else digits_in base fuel (v / base)
  end.
(** 64 binary digits are the longest. *)
Definition in_base (base v : Z) : text := rev (digits_in base 64 v).
Definition pad_zero (w : Z) (s : text) : text := replicate (Z.to_nat (w - len s)) "0"%char ++ s.
Definition print_u64 (v : Z) : text := in_base 10 v.
Definition print_i64 (v : Z) : text := if v <? 0 then "-"%char :: print_u64 (- v) else print_u64 v.

Abbreviation Labels := (list (option text)).
Definition label_at (l : Labels) (v : Z) : option text := if v <? len l then mjoin (l !! Z.to_nat v) else None.
Fixpoint hyphenated (b : Bytes) : text :=
  match b with
  | [] => []
  | [x] => Macaddr.hex2 x
  | x :: b => Macaddr.hex2 x ++ ["-"%char] ++ hyphenated b
  end.
(** The texts joined; [err] is [std::bad_variant_access] of an element. *)
Fixpoint joined (sep : text) (l : list (result text)) : result text :=
  match l with
  | [] => Ok []
  | [t] => t
  | t :: l => a ← t; b ← joined sep l; Ok (a ++ sep ++ b)
  end.
Definition format_number (k : Kind.t) (n : Z) (labels : Labels) (u : Z) : text :=
  match k with
  | Kind.h => pad_zero (2 * n) (in_base 16 u)
  | Kind.o => pad_zero ((n * 8 + 2) / 3) (in_base 8 u)
  | Kind.c => match label_at labels u with Some t => t | None => "#"%char :: print_u64 u end
  | _ => print_u64 u
  end.
Fixpoint format (labels : Labels) (v : Value) : result text :=
  match v with
  | mkValue k n p =>
      match k, p with
      | Kind.cm, PList l => joined [" "%char] (map (format []) l)
      | Kind.cm, _ => Throw BadVariantAccess
      | Kind.ds, _ => i ← get_int p; Ok (print_i64 i)
      | Kind.ai, _ => get_text p
      | Kind.hi, _ => b ← get_bytes p; Ok (hyphenated b)
      | _, _ => u ← get_uint p; Ok (format_number k n labels u)
      end
  end.
