(* ===== verification/NiceParams.v ===== *)
(** NICE entities and parameter lists: [include/decnet/nice/entity.h],
    [params.h], [src/nice/entity.cc] and [src/nice/params.cc]. *)

From stdpp Require Import sorting.
From S2P Require Import Prelude Buffer Types NiceValue.
#[local] Open Scope Z_scope.

Definition str_text (s : string) : text := String.list_ascii_of_string s.

(** ** [NiceNode] *)
Record NiceNode := mkNiceNode { id : Z; name : text; executor : bool }.
#[export] Instance NiceNode_eq_dec : EqDecision NiceNode.
Proof. solve_decision. Defined.
Definition node_str (n : NiceNode) : text :=
  if bool_decide (name n = []) then Nodeid.str (id n)
  else Nodeid.str (id n) ++ str_text " (" ++ name n ++ str_text ")".
Definition node_encode (n : NiceNode) : result Bytes :=
  if 127 <? len (name n) then Throw FieldOverflow
  else Ok (Encoder.uint (id n) 2 ++ Encoder.byte (Z.lor (len (name n)) (if executor n then 128 else 0)) ++
           Encoder.raw (as_bytes (name n))).
Definition node_decode : dec NiceNode := λ d,
  '(i, d) ← Decoder.uint 2 d;
  '(k, d) ← Decoder.byte d;
  '(b, d) ← Decoder.raw (Z.to_nat (Z.land k 127)) d;
  Ok (mkNiceNode (u16 i) (of_bytes b) (negb (Z.land k 128 =? 0)), d).

(** ** [Entity] *)
Module Entity.
Definition node : Z := 0.
Definition line : Z := 1.
Definition logging : Z := 2.
Definition circuit : Z := 3.
Definition module : Z := 4.
Definition area : Z := 5.
Definition none : Z := 255.
Record t := mk { kind_ : Z; node_ : NiceNode; name_ : text; area_ : Z }.
#[export] Instance t_eq_dec : EqDecision t.
Proof. solve_decision. Defined.
Definition no_node : NiceNode := mkNiceNode 0 [] false.
Definition make_none : t := mk none no_node [] 0.
Definition make_node (n : NiceNode) : t := mk node n [] 0.
Definition make_area (a : Z) : t := mk area no_node [] a.
Definition make_string (k : Z) (s : text) : t := mk k no_node s 0.
Definition is_none (e : t) : bool := kind_ e =? none.

Definition label (e : t) : text :=
  let k := kind_ e in
  if k =? node then str_text "Node" else if k =? line then str_text "Line"
  else if k =? logging then str_text "Logging" else if k =? circuit then str_text "Circuit"
  else if k =? module then str_text "Module" else if k =? area then str_text "Area"
  else if k =? none then [] else str_text "Entity #" ++ print_u64 k.
Definition value (e : t) : text :=
  let k := kind_ e in
  if k =? node then node_str (node_ e) else if k =? area then print_u64 (area_ e)
  else if k =? none then [] else name_ e.
Definition key (e : t) : text := print_u64 (kind_ e) ++ str_text ":" ++ value e.
Definition str (e : t) : text := if kind_ e =? none then [] else label e ++ str_text " = " ++ value e.

Definition encode_body (e : t) : result Bytes :=
  let k := kind_ e in
  if k =? node then node_encode (node_ e)
  else if k =? area then Ok (Encoder.byte 0 ++ Encoder.byte (u8 (area_ e)))
  else if k =? none then Ok []
  else if 255 <? len (name_ e) then Throw FieldOverflow
  else Ok (Encoder.byte (len (name_ e)) ++ Encoder.raw (as_bytes (name_ e))).
Definition encode (e : t) : result Bytes := b ← encode_body e; Ok (Encoder.byte (kind_ e) ++ b).
Definition decode_body (k : Z) : dec t := λ d,
  if k =? node then '(n, d) ← node_decode d; Ok (make_node n, d)
  else if k =? area then
    '(m, d) ← Decoder.byte d;
    if negb (m =? 0) then Throw DecodeError else '(a, d) ← Decoder.byte d; Ok (make_area a, d)
  else if k =? none then Ok (make_none, d)
  else '(b, d) ← read_image d; Ok (make_string k (of_bytes b), d).
Definition decode : dec t := λ d, '(k, d) ← Decoder.byte d; decode_body k d.
End Entity.

(** ** Counters and parameters *)

Record Counter := mkCounter { value : Z; bytes : Z; mapped : bool; map_ : Z }.
Definition new_counter : Counter := mkCounter 0 1 false 0.
Definition counter_max (k : Counter) : Z :=
  if bytes k =? 1 then 255 else if bytes k =? 2 then 65535 else if bytes k =? 4 then 4294967295 else 0.
Definition counter_format (k : Counter) : text :=
  let m := counter_max k in
  if negb (m =? 0) && (m <=? value k) then ">"%char :: print_u64 (m - 1) else print_u64 (value k).
Definition counter_code (n : Z) (mapped : bool) : result Z :=
  base ← (if n =? 1 then Ok 40960 else if n =? 2 then Ok 49152 else if n =? 4 then Ok 57344 else Throw FieldOverflow);
  Ok (if mapped then u16 (base + 4096) else base).

Record Param := mkParam { number : Z; counter : bool; p_value : Value; count : Counter }.
Definition key_of (n : Z) (ctr : bool) : Z := u16 (Z.lor n (if ctr then 32768 else 0)).

(** [ParamList]: [std::map], which runs through its keys in ascending order. *)
Abbreviation ParamList := (gmap Z Param).
Definition by_key (a b : Z * Param) : Prop := a.1 ≤ b.1.
#[export] Instance by_key_dec : RelDecision by_key.
Proof. intros a b. unfold by_key. apply _. Defined.
Definition entries (l : ParamList) : list (Z * Param) := merge_sort by_key (map_to_list l).

Definition set (n : Z) (v : Value) (l : ParamList) : ParamList :=
  <[key_of n false := mkParam n false v new_counter]> l.
Definition set_counter (n : Z) (k : Counter) (l : ParamList) : ParamList :=
  <[key_of n true := mkParam n true new_value k]> l.
Definition find (n : Z) (ctr : bool) (l : ParamList) : option Param := l !! key_of n ctr.

Section Params.
Context `{WS : WideShift}.

Definition encode_param (p : Param) : result Bytes :=
  if counter p then
    code ← counter_code (bytes (count p)) (mapped (count p));
    let m := counter_max (count p) in
    Ok (Encoder.uint (Z.lor (number p) code) 2 ++
        (if mapped (count p) then Encoder.uint (map_ (count p)) 2 else []) ++
        Encoder.uint (if m <? value (count p) then m else value (count p)) (Z.to_nat (bytes (count p))))
  else b ← encode (p_value p); Ok (Encoder.uint (number p) 2 ++ b).
Fixpoint encode_entries (l : list (Z * Param)) : result Bytes :=
  match l with [] => Ok [] | (_, p) :: l => a ← encode_param p; b ← encode_entries l; Ok (a ++ b) end.
Definition encode_params (l : ParamList) : result Bytes := encode_entries (entries l).

(** One turn of [decode]. *)
Definition counter_bytes (num : Z) : result Z :=
  let g := Z.land (Z.land num 61440) 57344 in
  if g =? 40960 then Ok 1 else if g =? 49152 then Ok 2 else if g =? 57344 then Ok 4 else Throw DecodeError.
Definition decode_param (l : ParamList) : dec ParamList := λ d,
  '(num, d) ← Decoder.uint 2 d;
  let num := u16 num in
  if negb (Z.land num 32768 =? 0) then
    n ← counter_bytes num;
    let mapd := negb (Z.land num 4096 =? 0) in
    '(m, d) ← (if mapd then '(m, d) ← Decoder.uint 2 d; Ok (u16 m, d) else Ok (0, d));
    '(v, d) ← Decoder.uint (Z.to_nat n) d;
    Ok (set_counter (Z.land num 4095) (mkCounter v n mapd m) l, d)
  else '(v, d) ← decode d; Ok (set num v l, d).
Fixpoint decode_params_fuel (fuel : nat) (l : ParamList) : dec ParamList := λ d,
  if Decoder.empty d then Ok (l, d)
  else match fuel with
       | O => Throw InternalError
       | S fuel => '(l, d) ← decode_param l d; decode_params_fuel fuel l d
       end.
Definition decode_params (l : ParamList) : dec ParamList := λ d, decode_params_fuel (length d) l d.
End Params.

(** ** Display *)

Inductive Style := plain | node_style | version_style | etime_style.
Record ParamDef := mkParamDef { d_number : Z; d_counter : bool; desc : text; labels : Labels; style : Style }.
Definition find_def (defs : list ParamDef) (n : Z) (ctr : bool) : option ParamDef :=
  List.find (λ d, (d_number d =? n) && Bool.eqb (d_counter d) ctr) defs.

Definition format_node_number (v : Z) : text :=
  let a := u32 (Z.shiftr v 10) in
  let t := u32 (Z.land v 1023) in
  if a =? 0 then print_u64 t else print_u64 a ++ str_text "." ++ print_u64 t.
Definition format_plain_node (v : Value) : result text :=
  if is_number v then u ← as_uint v; Ok (format_node_number u) else format [] v.
Definition format_node (v : Value) : result text :=
  if negb (bool_decide (kind v = Kind.cm)) then format_plain_node v
  else
    l ← as_list v;
    match l with
    | [] => Ok []
    | a :: l =>
        s ← format_plain_node a;
        match l with [] => Ok s | b :: _ => t ← format [] b; Ok (s ++ str_text " (" ++ t ++ str_text ")") end
    end.
(** The dot is put before an element only once some text is there. *)
Fixpoint dotted (s : text) (l : list (result text)) : result text :=
  match l with
  | [] => Ok s
  | t :: l => a ← t; dotted (if bool_decide (s = []) then a else s ++ str_text "." ++ a) l
  end.
Definition format_version (v : Value) : result text :=
  if negb (bool_decide (kind v = Kind.cm)) then format [] v else l ← as_list v; dotted [] (map (format []) l).
Definition two_digits (v : Z) : text := pad_zero 2 (print_u64 v).
Definition format_etime (v : Value) : result text :=
  if negb (bool_decide (kind v = Kind.cm)) then format [] v
  else
    l ← as_list v;
    match l with
    | [a; b; c] =>
        a ← as_uint a; b ← as_uint b; c ← as_uint c;
        Ok (print_u64 a ++ str_text ":" ++ two_digits b ++ str_text ":" ++ two_digits c)
    | _ => format_version v
    end.

Definition newline : ascii := chr 10.
Definition map_indent : text := replicate 19 " "%char.
Definition pad_left (w : Z) (s : text) : text := replicate (Z.to_nat (w - len s)) " "%char ++ s.
Definition qualifier (d : option ParamDef) (b : nat) : text :=
  match (d ← d; label_at (labels d) (Z.of_nat b)) with
  | Some t => t
  | None => str_text "Qualifier #" ++ print_u64 (Z.of_nat b)
  end.
(** The qualifiers of a counter, a line each. *)
Fixpoint qualifiers (d : option ParamDef) (m : Z) (first : bool) (bs : list nat) : text :=
  match bs with
  | [] => []
  | b :: bs =>
      if Z.testbit m (Z.of_nat b) then
        (if first then [] else newline :: map_indent) ++ qualifier d b ++ qualifiers d m false bs
      else qualifiers d m first bs
  end.
Definition format_counter (d : option ParamDef) (p : Param) : text :=
  pad_left 11 (counter_format (count p)) ++ str_text " " ++
  match d with Some d => desc d | None => str_text "Counter #" ++ print_u64 (number p) end ++
  (if map_ (count p) =? 0 then []
   else str_text ", including" ++ [newline] ++ map_indent ++ qualifiers d (map_ (count p)) true (seq 0 16)).
Definition format_value (d : option ParamDef) (v : Value) : result text :=
  match d with
  | None => format [] v
  | Some d => match style d with
              | node_style => format_node v
              | version_style => format_version v
              | etime_style => format_etime v
              | plain => format (labels d) v
              end
  end.
Definition format_param (defs : list ParamDef) (p : Param) : result text :=
  let d := find_def defs (number p) (counter p) in
  if counter p then Ok (format_counter d p)
  else
    t ← format_value d (p_value p);
    Ok (match d with Some d => desc d | None => str_text "Parameter #" ++ print_u64 (number p) end ++ str_text " = " ++ t).
Definition format_params (defs : list ParamDef) (l : ParamList) : result (list text) :=
  foldr (λ kp r, a ← format_param defs kp.2; b ← r; Ok (a :: b)) (Ok []) (entries l).
