(* ===== verification/NicePackets.v ===== *)
(** NICE requests and replies: [include/decnet/nice/packets.h] and
    [src/nice/packets.cc]. *)

From S2P Require Import Prelude Buffer Types NiceValue NiceParams.
#[local] Open Scope Z_scope.

(** Function codes, information types, test types, return codes. *)
Definition fn_test : Z := 18.
Definition fn_set : Z := 19.
Definition fn_read : Z := 20.
Definition fn_zero : Z := 21.
Definition info_summary : Z := 0.
Definition info_char : Z := 2.
Definition info_counters : Z := 3.
Definition info_events : Z := 4.
Definition test_node : Z := 0.
Definition test_line : Z := 1.
Definition test_circuit : Z := 3.
Definition rc_success : Z := 1.
Definition rc_multiple : Z := 2.
Definition rc_more : Z := 3.
Definition rc_done : Z := -128.
Definition rc_unrecognized_function : Z := -1.
Definition rc_privilege_violation : Z := -3.
Definition rc_unrecognized_component : Z := -8.
Definition rc_invalid_parameter : Z := -16.
Definition rc_mirror_disconnected : Z := -19.
Definition rc_mirror_connect_failed : Z := -21.
Definition rc_operation_failure : Z := -25.
Definition rc_bad_loopback : Z := -28.

(** [put_string], [get_string] and [signed_byte]. *)
Definition put_string (s : text) (max : Z) : result Bytes :=
  if max <? len s then Throw FieldOverflow else Ok (Encoder.byte (len s) ++ Encoder.raw (as_bytes s)).
Definition get_string : dec text := λ d, '(b, d) ← read_image d; Ok (of_bytes b, d).
Definition signed_byte (b : Z) : Z := if b <? 128 then b else b - 256.

Definition retcode_text (code : Z) : option text :=
  if (code =? 1) || (code =? 2) || (code =? 3) || (code =? -128) then None
  else Some (str_text
    (if code =? -1 then "Unrecognized function or option"
     else if code =? -2 then "Invalid message format"
     else if code =? -3 then "Privilege violation"
     else if code =? -4 then "Oversized Management command message"
     else if code =? -5 then "Management program error"
     else if code =? -6 then "Unrecognized parameter type"
     else if code =? -7 then "Incompatible Management version"
     else if code =? -8 then "Unrecognized component"
     else if code =? -9 then "Invalid identification"
     else if code =? -10 then "Line communication error"
     else if code =? -11 then "Component in wrong state"
     else if code =? -13 then "File open error"
     else if code =? -14 then "Invalid file contents"
     else if code =? -15 then "Resource error"
     else if code =? -16 then "Invalid parameter value"
     else if code =? -17 then "Line protocol error"
     else if code =? -18 then "File I/O error"
     else if code =? -19 then "Mirror link disconnected"
     else if code =? -20 then "No room for new entry"
     else if code =? -21 then "Mirror connect failed"
     else if code =? -22 then "Parameter not applicable"
     else if code =? -23 then "Parameter value too long"
     else if code =? -24 then "Hardware failure"
     else if code =? -25 then "Operation failure"
     else if code =? -26 then "System-specific Management function not supported"
     else if code =? -27 then "Invalid parameter grouping"
     else if code =? -28 then "Bad loopback response"
     else if code =? -29 then "Parameter missing"
     else "Unknown error code")).
Definition detail_files : list string :=
  ["Permanent database"; "Load file"; "Dump file"; "Secondary loader"; "Tertiary loader"; "Secondary dumper";
   "Volatile database"; "Diagnostic file"]%string.
Definition detail_mirror : list string :=
  ["No node name set"; "Invalid node name format"; "Unrecognized node name"; "Node unreachable"; "Network resources";
   "Rejected by object"; "Invalid object name format"; "Unrecognized object"; "Access control rejected";
   "Object too busy"; "No response from object"; "Remote node shut down"; "Node or object failed";
   "Disconnect by object"; "Abort by object"; "Abort by Management"; "Local node shut down"]%string.
Definition detail_text (retcode detail : Z) : text :=
  let table := if (retcode =? -13) || (retcode =? -14) || (retcode =? -18) then detail_files
               else if (retcode =? -19) || (retcode =? -21) then detail_mirror else [] in
  if detail <? len table then str_text (default EmptyString (table !! Z.to_nat detail)) else [].

(** ** [ReqEntity] *)
Module ReqEntity.
Definition known : Z := -1.
Definition active : Z := -2.
Definition significant : Z := -5.
Definition area_wild : Z := -6.
Definition tid_wild : Z := -7.
(** [code] is [int8_t], [area] is [unsigned]. *)
Record t := mk { etype : Z; code : Z; name : text; id : Z; area : Z }.
#[export] Instance t_eq_dec : EqDecision t.
Proof. solve_decision. Defined.
Definition new : t := mk Entity.node 0 [] 0 0.
Definition make_node (n : Z) : t := mk Entity.node 0 [] n 0.
Definition make_named (e : Z) (n : text) : result t :=
  if 127 <? len n then Throw FieldOverflow else Ok (mk e (len n) n 0 0).
Definition make_area (a : Z) : t := mk Entity.area 0 [] 0 a.
Definition make_wild (e c : Z) : t := mk e c [] 0 0.

Definition mult (r : t) : bool := code r <? 0.
Definition is_known (r : t) : bool := (code r =? known) || (code r =? area_wild) || (code r =? tid_wild).
Definition sigact (r : t) : bool := (code r =? active) || (code r =? significant).
Definition wild (r : t) : bool := code r <? significant.
(** The two overloads of [match]. *)
Definition match_node (n : Z) (r : t) : bool :=
  if code r =? 0 then n =? id r
  else if code r =? area_wild then Nodeid.area n =? Nodeid.area (id r)
  else if code r =? tid_wild then Nodeid.tid n =? Nodeid.tid (id r)
  else code r <? 0.
Definition match_name (n : text) (r : t) : bool := if 0 <? code r then bool_decide (n = name r) else code r <? 0.

Definition label (e : Z) : text :=
  str_text (if e =? Entity.node then "Node" else if e =? Entity.line then "Line"
            else if e =? Entity.logging then "Logging" else if e =? Entity.circuit then "Circuit"
            else if e =? Entity.module then "Module" else if e =? Entity.area then "Area" else "Entity").
Definition plurals : list string := ["Known"; "Active"; "Loop"; "Adjacent"; "Significant"]%string.
Definition str (r : t) : text :=
  if code r <? 0 then
    if - code r <=? 5 then
      str_text (default EmptyString (plurals !! Z.to_nat (- code r - 1))) ++ str_text " " ++ label (etype r) ++ str_text "s"
    else if code r =? area_wild then str_text "Nodes in area " ++ print_u64 (Nodeid.area (id r))
    else if code r =? tid_wild then str_text "Nodes numbered " ++ print_u64 (Nodeid.tid (id r))
    else str_text "Entities #" ++ print_i64 (code r)
  else if etype r =? Entity.node then
    if id r =? 0 then str_text "executor" else label (etype r) ++ str_text " " ++ Nodeid.str (id r)
  else if etype r =? Entity.area then label (etype r) ++ str_text " " ++ print_u64 (area r)
  else label (etype r) ++ str_text " " ++ name r.

Definition encode (r : t) : result Bytes :=
  if code r <? 0 then
    Ok (Encoder.byte (u8 (code r)) ++
        (if (etype r =? Entity.node) && ((code r =? area_wild) || (code r =? tid_wild)) then Encoder.uint (id r) 2 else []))
  else if 0 <? code r then put_string (name r) 127
  else if etype r =? Entity.node then Ok (Encoder.byte 0 ++ Encoder.uint (id r) 2)
  else if etype r =? Entity.area then Ok (Encoder.byte 0 ++ Encoder.byte (u8 (area r)))
  else put_string (name r) 127.
(** The end of [decode]: a name, a wildcard, or nothing that has a number. *)
Definition decode_named (e c : Z) : dec t := λ d,
  if 0 <? c then '(b, d) ← Decoder.raw (Z.to_nat c) d; Ok (mk e c (of_bytes b) 0 0, d)
  else if c =? 0 then Throw DecodeError
  else Ok (mk e c [] 0 0, d).
Definition decode (e : Z) : dec t := λ d,
  '(b, d) ← Decoder.byte d;
  let c := signed_byte b in
  if (e =? Entity.node) && ((c =? 0) || (c <? significant)) then
    '(n, d) ← Decoder.uint 2 d; Ok (mk e c [] (u16 n) 0, d)
  else if (e =? Entity.area) && (c =? 0) then '(a, d) ← Decoder.byte d; Ok (mk e c [] 0 a, d)
  else if (e =? Entity.area) && (0 <? c) then Throw DecodeError
  else decode_named e c d.
End ReqEntity.

(** ** [NiceRequest] *)

Record NiceRequest := mkRequest {
  function : Z;
  permanent : bool;
  readzero : bool;
  info : Z;
  entity_type : Z;
  entity : ReqEntity.t;
  has_qual_circuit : bool;
  qual_circuit : text;
  has_qual_node : bool;
  qual_node : ReqEntity.t;
  test_type : Z;
  access_ctl : bool;
  username : text;
  password : text;
  account : text;
  loop_count : Z;
  loop_length : Z;
  loop_with : Z;
  physical_address : Bytes;
}.
(** The default constructor, but for the function; a read or set request, a
    zero request and a loop request with the members that differ from it. *)
Definition new_request (f : Z) : NiceRequest :=
  mkRequest f false false info_summary Entity.node ReqEntity.new false [] false ReqEntity.new test_node false [] [] [] 1 128 2 [].
Definition read_request (f : Z) (perm : bool) (inf et : Z) (e : ReqEntity.t) (q : option text * option ReqEntity.t) : NiceRequest :=
  mkRequest f perm false inf et e (bool_decide (is_Some q.1)) (default [] q.1) (bool_decide (is_Some q.2))
    (default ReqEntity.new q.2) test_node false [] [] [] 1 128 2 [].
Definition zero_request (rz : bool) (et : Z) (e : ReqEntity.t) : NiceRequest :=
  mkRequest fn_zero false rz info_summary et e false [] false ReqEntity.new test_node false [] [] [] 1 128 2 [].
Record loop_args := mkLoopArgs { a_count : Z; a_length : Z; a_with : Z; a_address : Bytes }.
Definition default_args : loop_args := mkLoopArgs 1 128 2 [].
Definition test_request (tt : Z) (ac : bool) (et : Z) (e : ReqEntity.t) (u p a : text) (k : loop_args) : NiceRequest :=
  mkRequest fn_test false false info_summary et e false [] false ReqEntity.new tt ac u p a
    (a_count k) (a_length k) (a_with k) (a_address k).

Definition sum (r : NiceRequest) : bool := info r =? info_summary.
Definition sumstat (r : NiceRequest) : bool := info r <? info_char.
Definition chars (r : NiceRequest) : bool := info r =? info_char.
Definition counters (r : NiceRequest) : bool := info r =? info_counters.
Definition events (r : NiceRequest) : bool := info r =? info_events.

Section Wide.
Context `{WS : WideShift}.

(** The tables [loop_params] and [loop_circ_params]: numbers and type codes. *)
Definition loop_params : list (Z * Z) := [(150, 2); (151, 2); (152, 129)].
Definition loop_circ_params : list (Z * Z) := [(10, 32); (153, 32); (154, 129); (155, 64); (156, 64)].
Definition find_req_param (n : Z) (circuit : bool) : option Z :=
  snd <$> List.find (λ p, p.1 =? n) (loop_params ++ if circuit then loop_circ_params else []).

Definition encode_quals (r : NiceRequest) : result Bytes :=
  if negb (function r =? fn_read) then Ok []
  else
    a ← (if has_qual_circuit r then s ← put_string (qual_circuit r) 127; Ok (Encoder.uint 501 2 ++ s) else Ok []);
    b ← (if has_qual_node r then e ← ReqEntity.encode (qual_node r); Ok (Encoder.uint 800 2 ++ e) else Ok []);
    Ok (a ++ b).
Definition encode_loop (r : NiceRequest) : result Bytes :=
  a ← (if access_ctl r then
         u ← put_string (username r) 39; p ← put_string (password r) 39; c ← put_string (account r) 39; Ok (u ++ p ++ c)
       else Ok []);
  Ok (a ++ Encoder.uint 150 2 ++ Encoder.uint (loop_count r) 2 ++
      Encoder.uint 151 2 ++ Encoder.uint (loop_length r) 2 ++
      Encoder.uint 152 2 ++ Encoder.uint (loop_with r) 1 ++
      (if (test_type r =? test_circuit) && negb (bool_decide (physical_address r = [])) then
         Encoder.uint 10 2 ++ Encoder.byte (len (physical_address r)) ++ Encoder.raw (physical_address r)
       else [])).
Definition flag (b : bool) : Z := if b then 128 else 0.
Definition encode_request (r : NiceRequest) : result Bytes :=
  let f := function r in
  body ← (if (f =? fn_read) || (f =? fn_set) then
            e ← ReqEntity.encode (entity r);
            q ← encode_quals r;
            Ok (Encoder.byte (Z.lor (Z.lor (flag (permanent r)) (Z.shiftl (Z.land (info r) 7) 4)) (Z.land (entity_type r) 7)) ++ e ++ q)
          else if f =? fn_zero then
            e ← ReqEntity.encode (entity r);
            Ok (Encoder.byte (Z.lor (flag (readzero r)) (Z.land (entity_type r) 7)) ++ e)
          else if f =? fn_test then
            e ← ReqEntity.encode (entity r);
            k ← encode_loop r;
            Ok (Encoder.byte (Z.lor (Z.land (test_type r) 7) (flag (access_ctl r))) ++ e ++ k)
          else Throw FieldOverflow);
  Ok (Encoder.byte f ++ body).

(** The qualifiers of a read; each takes two bytes at least. *)
Fixpoint parse_quals (fuel : nat) (q : option text * option ReqEntity.t) (d : Bytes)
  : result (option text * option ReqEntity.t) :=
  if Decoder.empty d then Ok q
  else match fuel with
       | O => Throw InternalError
       | S fuel =>
           '(num, d) ← Decoder.uint 2 d;
           let num := u16 num in
           if (num =? 501) || (num =? 822) then '(s, d) ← get_string d; parse_quals fuel (Some s, q.2) d
           else if num =? 800 then '(e, d) ← ReqEntity.decode Entity.node d; parse_quals fuel (q.1, Some e) d
           else Throw DecodeError
       end.
(** What a loop parameter sets. *)
Definition set_arg (num : Z) (v : Value) (k : loop_args) : result loop_args :=
  if num =? 150 then u ← as_uint v; Ok (mkLoopArgs (u32 u) (a_length k) (a_with k) (a_address k))
  else if num =? 151 then u ← as_uint v; Ok (mkLoopArgs (a_count k) (u32 u) (a_with k) (a_address k))
  else if num =? 152 then u ← as_uint v; Ok (mkLoopArgs (a_count k) (a_length k) (u32 u) (a_address k))
  else if num =? 10 then b ← get_bytes (data v); Ok (mkLoopArgs (a_count k) (a_length k) (a_with k) b)
  else Ok k.
Fixpoint parse_args (circuit : bool) (fuel : nat) (k : loop_args) (d : Bytes) : result loop_args :=
  if Decoder.empty d then Ok k
  else match fuel with
       | O => Throw InternalError
       | S fuel =>
           '(num, d) ← Decoder.uint 2 d;
           let num := u16 num in
           match find_req_param num circuit with
           | None => Throw DecodeError
           | Some code =>
               '(v, d) ← decode_body decode code d;
               k ← set_arg num v k;
               parse_args circuit fuel k d
           end
       end.
Definition test_entity (tt : Z) : result Z :=
  if tt =? test_node then Ok Entity.node else if tt =? test_line then Ok Entity.line
  else if tt =? test_circuit then Ok Entity.circuit else Throw DecodeError.
Definition parse_request (buf : Bytes) : result NiceRequest :=
  '(f, d) ← Decoder.byte buf;
  if (f =? fn_read) || (f =? fn_set) then
    '(flags, d) ← Decoder.byte d;
    let et := Z.land flags 7 in
    '(e, d) ← ReqEntity.decode et d;
    q ← parse_quals (length d) (None, None) d;
    Ok (read_request f (negb (Z.land flags 128 =? 0)) (Z.land (Z.shiftr flags 4) 7) et e q)
  else if f =? fn_zero then
    '(flags, d) ← Decoder.byte d;
    let et := Z.land flags 7 in
    '(e, _) ← ReqEntity.decode et d;
    Ok (zero_request (negb (Z.land flags 128 =? 0)) et e)
  else if f =? fn_test then
    '(flags, d) ← Decoder.byte d;
    let tt := Z.land flags 7 in
    let ac := negb (Z.land flags 128 =? 0) in
    et ← test_entity tt;
    '(e, d) ← ReqEntity.decode et d;
    '(u, p, a, d) ← (if ac then
                       '(u, d) ← get_string d; '(p, d) ← get_string d; '(a, d) ← get_string d; Ok (u, p, a, d)
                     else Ok ([], [], [], d));
    k ← parse_args (tt =? test_circuit) (length d) default_args d;
    Ok (test_request tt ac et e u p a k)
  else Throw DecodeError.

Definition infos : list string := ["summary"; "status"; "characteristics"; "counters"; "events"]%string.
Definition request_str (r : NiceRequest) : text :=
  let f := function r in
  (if f =? fn_read then
     str_text "read " ++ (if info r <? 5 then str_text (default EmptyString (infos !! Z.to_nat (info r)))
                          else "#"%char :: print_u64 (info r))
   else if f =? fn_set then str_text "set"
   else if f =? fn_zero then str_text (if readzero r then "read and zero counters" else "zero counters")
   else if f =? fn_test then str_text "loop"
   else str_text "function #" ++ print_u64 f) ++ str_text " " ++ ReqEntity.str (entity r).

(** ** [NiceReply] *)

Record NiceReply := mkReply {
  retcode : Z;
  detail : Z;
  message : text;
  has_entity : bool;
  r_entity : Entity.t;
  params : ParamList;
  has_notlooped : bool;
  notlooped : Z;
}.
Definition new_reply (rc : Z) : NiceReply := mkReply rc 65535 [] false Entity.make_none ∅ false 0.
(** [NiceReply::error]. *)
Definition error (rc det : Z) (msg : text) : NiceReply := mkReply rc (u16 det) msg false Entity.make_none ∅ false 0.
Definition with_retcode (rc : Z) (r : NiceReply) : NiceReply :=
  mkReply rc (detail r) (message r) (has_entity r) (r_entity r) (params r) (has_notlooped r) (notlooped r).

Definition encode_reply (r : NiceReply) : result Bytes :=
  m ← put_string (message r) 255;
  b ← (if has_entity r then e ← Entity.encode_body (r_entity r); p ← encode_params (params r); Ok (e ++ p) else Ok []);
  Ok (Encoder.uint (u64 (retcode r)) 1 ++ Encoder.uint (detail r) 2 ++ m ++
      (if has_notlooped r then Encoder.uint (notlooped r) 2 else []) ++ b).
(** The header, and what follows it. *)
Definition reply_header : dec NiceReply := λ d,
  '(b, d) ← Decoder.byte d;
  '(det, d) ← (if Decoder.empty d then Ok (65535, d) else '(v, d) ← Decoder.uint 2 d; Ok (u16 v, d));
  '(m, d) ← (if Decoder.empty d then Ok ([], d) else get_string d);
  Ok (mkReply (signed_byte b) det m false Entity.make_none ∅ false 0, d).
Definition parse_header (buf : Bytes) : result NiceReply := '(r, _) ← reply_header buf; Ok r.
Definition parse_loop (buf : Bytes) : result NiceReply :=
  '(r, d) ← reply_header buf;
  if Decoder.empty d then Ok r
  else '(v, _) ← Decoder.uint 2 d;
       Ok (mkReply (retcode r) (detail r) (message r) false Entity.make_none ∅ true (u16 v)).
Definition parse_reply (buf : Bytes) (k : Z) : result NiceReply :=
  '(b, d) ← Decoder.byte buf;
  '(det, d) ← Decoder.uint 2 d;
  '(m, d) ← get_string d;
  if Decoder.empty d then Ok (mkReply (signed_byte b) (u16 det) m false Entity.make_none ∅ false 0)
  else
    '(e, d) ← Entity.decode_body k d;
    '(l, _) ← decode_params ∅ d;
    Ok (mkReply (signed_byte b) (u16 det) m true e l false 0).

Definition error_text (r : NiceReply) : text :=
  let det := detail_text (retcode r) (detail r) in
  default (str_text "Error") (retcode_text (retcode r)) ++
  (if negb (bool_decide (det = [])) then str_text ", " ++ det
   else if negb (detail r =? 65535) then str_text ", parameter " ++ print_u64 (detail r) else []) ++
  (if negb (bool_decide (message r = [])) then str_text ", " ++ message r else []).
(** A line feed goes between the lines, none before the first. *)
Definition add_line (s line : text) : text :=
  (if bool_decide (s = []) then [] else s ++ [newline]) ++ str_text "    " ++ line.
Definition format_reply (defs : list ParamDef) (r : NiceReply) : result text :=
  if retcode r <? 0 then Ok (error_text r)
  else
    l ← format_params defs (params r);
    Ok (foldl add_line (if has_entity r then Entity.str (r_entity r) else []) l).
End Wide.
