(* ===== verification/NiceLaws.v ===== *)
(** NICE coding: what is read is well typed, what is written reads back. *)

From stdpp Require Import sorting.
From S2P Require Import Prelude Buffer Types NiceValue NiceParams NicePackets.
#[local] Open Scope Z_scope.

(** ** Readers

    A reader leaves a part of what it was given and throws nothing but decode
    errors. *)
Definition reads {A} (d : Bytes) (m : result (A * Bytes)) (P : A → Bytes → Prop) : Prop :=
  match m with
  | Ok (a, rest) => rest `suffix_of` d ∧ P a rest
  | Throw e => is_decode_error e = true
  end.

Lemma reads_bind {A B} d (m : result (A * Bytes)) (f : A → Bytes → result (B * Bytes)) P Q :
  reads d m P → (∀ a d', P a d' → d' `suffix_of` d → reads d' (f a d') Q) →
  reads d ('(a, d') ← m; f a d') Q.
Proof.
  intros Hm Hf. destruct m as [[a d']|e]; [|done]. destruct Hm as [Hs HP]. cbn. specialize (Hf a d' HP Hs).
  destruct (f a d') as [[b d2]|e]; [|done]. destruct Hf as [Hs2 HQ]. split; [by etrans|done].
Qed.
Lemma reads_ok {A} d (a : A) (P : A → Bytes → Prop) : P a d → reads d (Ok (a, d)) P.
Proof. intros. by split. Qed.
Lemma reads_throw {A} d e (P : A → Bytes → Prop) : is_decode_error e = true → reads d (Throw e) P.
Proof. done. Qed.
Lemma reads_weaken {A} d (m : result (A * Bytes)) (P Q : A → Bytes → Prop) :
  reads d m P → (∀ a d', P a d' → Q a d') → reads d m Q.
Proof. intros H HPQ. destruct m as [[a d']|e]; [|done]. destruct H. split; auto. Qed.
(** A value computed from what was read. *)
Lemma reads_value {A B} d (m : result (A * Bytes)) (f : A → result B) (P : A → Bytes → Prop) (Q : B → Bytes → Prop) :
  reads d m P → (∀ a d', P a d' → match f a with Ok b => Q b d' | Throw e => is_decode_error e = true end) →
  reads d ('(a, d') ← m; b ← f a; Ok (b, d')) Q.
Proof.
  intros Hm Hf. eapply reads_bind; [exact Hm|]. intros a d' HP _. specialize (Hf a d' HP).
  cbn. destruct (f a) as [b|e]; cbn; [by apply reads_ok|done].
Qed.

Lemma suffix_bytes_ok (d d' : Bytes) : bytes_ok d → d' `suffix_of` d → bytes_ok d'.
Proof. intros H [pre ->]. by apply bytes_ok_app in H as [? ?]. Qed.
Lemma suffix_length (d d' : Bytes) : d' `suffix_of` d → (length d' ≤ length d)%nat.
Proof. intros [pre ->]. rewrite length_app. lia. Qed.

Lemma reads_byte d : bytes_ok d → reads d (Decoder.byte d) (λ b d', byte_ok b ∧ length d = S (length d') ∧ bytes_ok d').
Proof.
  intros Hd. destruct d as [|b d]; [done|]. rewrite byte_app. apply bytes_ok_cons in Hd as [Hb Hd].
  split; [by exists [b]|done].
Qed.
Lemma reads_raw n d : bytes_ok d → reads d (Decoder.raw n d) (λ b d', bytes_ok b ∧ length b = n ∧ bytes_ok d').
Proof.
  intros Hd. destruct (Decoder.raw n d) as [[b d']|e] eqn:E.
  - apply raw_Ok in E as [-> E]. apply bytes_ok_app in Hd as [? ?]. split; [by eexists|done].
  - unfold Decoder.raw, Decoder.need in E. destruct (_ <? _); [|done]. by injection E as <-.
Qed.
Lemma reads_uint n d : bytes_ok d → reads d (Decoder.uint n d)
  (λ v d', 0 ≤ v < 2 ^ (8 * Z.of_nat n) ∧ length d = (n + length d')%nat ∧ bytes_ok d').
Proof.
  intros Hd. destruct (Decoder.uint n d) as [[v d']|e] eqn:E.
  - apply uint_Ok in E as [-> E]; [|done]. apply bytes_ok_app in Hd as [? ?]. split; [by eexists|].
    by rewrite length_app, uint_length.
  - unfold Decoder.uint, Decoder.need in E. destruct (_ <? _); [|done]. by injection E as <-.
Qed.

(** Encoding keeps only the low bytes. *)
Lemma uint_from_mod v i n k : 0 ≤ i → 0 ≤ k → i + Z.of_nat n ≤ k → Encoder.uint_from (v mod 2 ^ (8 * k)) i n = Encoder.uint_from v i n.
Proof.
  revert i. induction n as [|n IH]; intros i Hi Hk Hn; [done|]. cbn [Encoder.uint_from]. rewrite IH by lia. f_equal.
  unfold u8. change 256 with (2 ^ 8). apply Z.bits_inj'. intros j Hj. destruct (Z.ltb_spec j 8).
  - rewrite !Z.mod_pow2_bits_low, !Z.shiftr_spec by lia. by rewrite Z.mod_pow2_bits_low by lia.
  - by rewrite !Z.mod_pow2_bits_high by lia.
Qed.
Lemma uint_mod v n : Encoder.uint (v mod 2 ^ (8 * Z.of_nat n)) n = Encoder.uint v n.
Proof. apply uint_from_mod; lia. Qed.

#[local] Opaque Encoder.uint Decoder.uint Decoder.raw Decoder.byte Decoder.need.
Lemma reads_image d : bytes_ok d → reads d (read_image d) (λ b d', bytes_ok b ∧ len b ≤ 255 ∧ bytes_ok d').
Proof.
  intros Hd. unfold read_image. eapply reads_bind; [by apply reads_byte|]. intros n d' (Hn & _ & Hd') _.
  eapply reads_weaken; [by apply reads_raw|]. intros b d2 (? & Hl & ?). unfold byte_ok, len in *. split; [done|]. split; [lia|done].
Qed.

(** ** Values *)

(** What a shift by the width or more comes to is still of the type. *)
Class WideLaws `{WS : WideShift} : Prop := {
  wide_in_range b : 0 ≤ wide_in b < 2 ^ 64;
  wide_out_range v i : byte_ok (wide_out v i);
}.

Definition all_values (P : Value → Prop) : list Value → Prop :=
  fix all l := match l with [] => True | v :: l => P v ∧ all l end.
Lemma all_values_Forall P l : all_values P l ↔ Forall P l.
Proof. induction l as [|v l IH]; cbn; [by rewrite Forall_nil|]. by rewrite Forall_cons, IH. Qed.

(** A value of its kind: payload, byte count and range agree. *)
Fixpoint typed (v : Value) : Prop :=
  match v with
  | mkValue k n p =>
      match k, p with
      | Kind.ds, PInt i => 1 ≤ n ≤ 15 ∧ - 2 ^ 63 ≤ i < 2 ^ 63
      | Kind.ai, PText s => n = 0 ∧ len s ≤ 255
      | Kind.hi, PBytes b => n = 0 ∧ len b ≤ 255 ∧ bytes_ok b
      | Kind.cm, PList l => n = len l ∧ n ≤ 15 ∧ all_values typed l
      | (Kind.ds | Kind.ai | Kind.hi | Kind.cm), _ => False
      | _, PUint u => 1 ≤ n ≤ 15 ∧ 0 ≤ u < 2 ^ 64
      | _, _ => False
      end
  end.

(** A value a peer can read back: a number within the bytes it is given, a
    list of one item at least. *)
Fixpoint portable (v : Value) : Prop :=
  match v with
  | mkValue k n p =>
      match k, p with
      | Kind.ds, PInt i => 1 ≤ n ≤ 8 ∧ - 2 ^ (8 * n - 1) ≤ i < 2 ^ (8 * n - 1)
      | Kind.ai, PText s => n = 0 ∧ len s ≤ 255
      | Kind.hi, PBytes b => n = 0 ∧ len b ≤ 255 ∧ bytes_ok b
      | Kind.cm, PList l => n = len l ∧ 1 ≤ n ≤ 15 ∧ all_values portable l
      | (Kind.ds | Kind.ai | Kind.hi | Kind.cm), _ => False
      | _, PUint u => 1 ≤ n ≤ 8 ∧ 0 ≤ u < 2 ^ (8 * n)
      | _, _ => False
      end
  end.

(** Induction through the lists of values. *)
Section ValueInd.
Variables (P : Value → Prop).
Hypothesis (Hlist : ∀ k n l, Forall P l → P (mkValue k n (PList l))).
Hypothesis (Hother : ∀ k n p, (∀ l, p ≠ PList l) → P (mkValue k n p)).
Fixpoint value_induction (v : Value) : P v.
Proof.
  destruct v as [k n p]. destruct p; try (apply Hother; congruence).
  apply Hlist. revert l. fix go 1. intros [|v l]; constructor; [apply value_induction|apply go].
Defined.
End ValueInd.

(** Well typed values are encoded and displayed. *)
Lemma write_all_Ok (f : Value → result Bytes) l : Forall (λ v, ∃ bs, f v = Ok bs) l → ∃ bs, write_all f l = Ok bs.
Proof. induction 1 as [|v l [a Ha] _ [b Hb]]; [by eexists|]. exists (a ++ b). cbn. fold (write_all f l). by rewrite Ha, Hb. Qed.
Lemma joined_Ok sep (l : list (result text)) : Forall (λ r, ∃ t, r = Ok t) l → ∃ t, joined sep l = Ok t.
Proof.
  induction 1 as [|r l [a ->] Hl [b IH]]; [by eexists|]. destruct l as [|r' l]; [by eexists|].
  exists (a ++ sep ++ b). cbn [joined] in *. by rewrite IH.
Qed.

Section Laws.
Context `{WS : WideShift}.

Lemma typed_encode v : typed v → ∃ bs, encode v = Ok bs.
Proof.
  induction v as [k n l IH|k n p Hp] using value_induction.
  - destruct k; try done. intros (_ & _ & Hl). destruct (write_all_Ok encode l) as [bs E].
    { apply all_values_Forall in Hl. rewrite Forall_forall in *. auto. }
    eexists. cbn [encode]. rewrite E. reflexivity.
  - destruct p as [|u|i|s|b|l]; try (by destruct k); try (by destruct (Hp l)); destruct k; try done; intros _; by eexists.
Qed.
Lemma typed_format labels v : typed v → ∃ t, format labels v = Ok t.
Proof.
  revert labels. induction v as [k n l IH|k n p Hp] using value_induction; intros labels.
  - destruct k; try done. intros (_ & _ & Hl). cbn [format]. apply joined_Ok, Forall_fmap.
    apply all_values_Forall in Hl. rewrite Forall_forall in *. intros v Hv. cbn. auto.
  - destruct p as [|u|i|s|b|l]; try (by destruct k); try (by destruct (Hp l)); destruct k; try done; intros _; by eexists.
Qed.

Lemma check_bytes_error n : check_bytes n = Throw FieldOverflow ∨ check_bytes n = Ok tt ∧ 1 ≤ n ≤ 15.
Proof. unfold check_bytes. destruct (_ || _) eqn:E; [by left|right]. zbool. split; [done|lia]. Qed.
Lemma number_made k u n : k = Kind.du ∨ k = Kind.h ∨ k = Kind.o ∨ k = Kind.c → 0 ≤ u < 2 ^ 64 →
  match make_number k u n with Ok v => typed v | Throw e => is_decode_error e = true end.
Proof.
  intros Hk Hu. unfold make_number. destruct (check_bytes_error n) as [->|[-> Hn]]; cbn; [done|].
  by destruct Hk as [->|[->|[->| ->]]].
Qed.
Lemma s64_range v : - 2 ^ 63 ≤ s64 v < 2 ^ 63.
Proof.
  unfold s64, u64. pose proof (Z.mod_pos_bound v 18446744073709551616 eq_refl).
  change (2 ^ 63) with 9223372036854775808. destruct (Z.ltb_spec (v mod 18446744073709551616) 9223372036854775808); lia.
Qed.
Lemma sign_extend_range u n : - 2 ^ 63 ≤ sign_extend u n < 2 ^ 63.
Proof. unfold sign_extend. cbv zeta. repeat case_match; apply s64_range. Qed.
Lemma ds_made u n : match make_ds (sign_extend u n) n with Ok v => typed v | Throw e => is_decode_error e = true end.
Proof.
  unfold make_ds. destruct (check_bytes_error n) as [->|[-> Hn]]; cbn; [done|]. split; [done|]. apply sign_extend_range.
Qed.

Lemma reads_number {WL : WideLaws} (make : Z → Z → result Value) n d : 0 ≤ n → bytes_ok d →
  (∀ u, 0 ≤ u < 2 ^ 64 → match make u n with Ok v => typed v | Throw e => is_decode_error e = true end) →
  reads d (read_number make n d) (λ v d', typed v ∧ bytes_ok d').
Proof.
  intros Hn Hd Hm. unfold read_number. eapply (reads_value _ _ (λ u, make u n)).
  - instantiate (1 := λ u d', 0 ≤ u < 2 ^ 64 ∧ bytes_ok d'). unfold read_uint. destruct (Nat.leb_spec (Z.to_nat n) 8).
    + eapply reads_weaken; [by apply reads_uint|]. intros u d' (Hu & _ & ?). split; [|done].
      assert (2 ^ (8 * Z.of_nat (Z.to_nat n)) ≤ 2 ^ 64) by (apply Z.pow_le_mono_r; lia). lia.
    + pose proof (need_Ok (Z.to_nat n) d) as Hk. pose proof (need_short (Z.to_nat n) d) as Hs.
      destruct (Nat.lt_ge_cases (length d) (Z.to_nat n)) as [Hl|Hl]; [by rewrite (Hs Hl)|].
      rewrite (proj2 Hk Hl). cbn. split; [by apply suffix_drop|]. split; [apply wide_in_range|by apply Forall_drop].
  - intros u d' [Hu Hd']. specialize (Hm u Hu). by destruct (make u n).
Qed.

Lemma reads_items (item : dec Value) n d N : bytes_ok d → (length d ≤ N)%nat →
  (∀ d', bytes_ok d' → (length d' ≤ N)%nat → reads d' (item d') (λ v r, typed v ∧ bytes_ok r)) →
  reads d (read_items item n d) (λ l r, len l = Z.of_nat n ∧ Forall typed l ∧ bytes_ok r).
Proof.
  intros Hd Hl Hi. revert d Hd Hl. induction n as [|n IH]; intros d Hd Hl; cbn [read_items]; [by apply reads_ok|].
  eapply reads_bind; [by apply Hi|]. intros v d' (Hv & Hd') Hs. pose proof (suffix_length _ _ Hs) as Hlen.
  eapply reads_bind; [apply IH; [done|lia]|]. intros l d2 (Hn & Hf & Hd2) _. apply reads_ok.
  rewrite len_cons, Hn. split; [lia|]. split; [by constructor|done].
Qed.
Lemma image_made (make : Bytes → result Value) d : bytes_ok d →
  (∀ b, bytes_ok b → len b ≤ 255 → match make b with Ok v => typed v | Throw e => is_decode_error e = true end) →
  reads d ('(b, d) ← read_image d; v ← make b; Ok (v, d)) (λ v d', typed v ∧ bytes_ok d').
Proof.
  intros Hd Hm. eapply reads_value; [by apply reads_image|]. intros b d' (Hb & Hl & Hd'). specialize (Hm b Hb Hl).
  by destruct (make b).
Qed.

Lemma reads_body {WL : WideLaws} item code d N : bytes_ok d → byte_ok code → (length d ≤ N)%nat →
  (∀ d', bytes_ok d' → (length d' ≤ N)%nat → reads d' (item d') (λ v r, typed v ∧ bytes_ok r)) →
  reads d (decode_body item code d) (λ v r, typed v ∧ bytes_ok r).
Proof.
  intros Hd Hc Hl Hi. unfold decode_body. cbv zeta.
  pose proof (Z.land_nonneg code 31) as H31. pose proof (Z.land_nonneg code 15) as H15. unfold byte_ok in Hc.
  assert (∀ k n, 0 ≤ n → k = Kind.du ∨ k = Kind.h ∨ k = Kind.o ∨ k = Kind.c →
    reads d (read_number (make_number k) n d) (λ v d', typed v ∧ bytes_ok d')) as Hnum.
  { intros k n Hn Hk. apply reads_number; [done..|]. intros u Hu. by apply number_made. }
  destruct (negb _); [destruct (Z.land code 31 =? 0); [done|]; destruct (_ =? _)|].
  - eapply reads_value; [by apply (reads_items item _ d N)|]. intros l d' (Hn & Hf & Hd'). unfold make_cm.
    destruct (Z.ltb_spec 15 (len l)); [done|]. split; [|done]. cbn. by rewrite all_values_Forall.
  - apply Hnum; [lia|auto].
  - repeat match goal with |- context [Z.land code 240 =? ?k] => destruct (Z.land code 240 =? k) end;
      destruct (Z.land code 15 =? 0); cbn [negb]; try done;
      try (apply Hnum; [lia|auto]).
    + apply (reads_number (λ u n, make_ds (sign_extend u n) n)); [lia|done|]. intros. apply ds_made.
    + apply (image_made make_hi); [done|]. intros b Hb Hlb. unfold make_hi. by rewrite (proj2 (Z.ltb_ge _ _)).
    + apply (image_made (λ b, make_ai (of_bytes b))); [done|]. intros b Hb Hlb. unfold make_ai, of_bytes. rewrite len_map.
      rewrite (proj2 (Z.ltb_ge _ _)) by done. cbn. by rewrite len_map.
Qed.
Lemma reads_fuel {WL : WideLaws} n d : bytes_ok d → (length d < n)%nat → reads d (decode_fuel n d) (λ v r, typed v ∧ bytes_ok r).
Proof.
  revert d. induction n as [|n IH]; intros d Hd Hl; [lia|]. cbn [decode_fuel]. eapply reads_bind; [by apply reads_byte|].
  intros code d' (Hc & Hn & Hd') _. apply (reads_body _ _ _ (length d')); [done..|]. intros d2 Hd2 Hl2. apply IH; [done|lia].
Qed.
Lemma reads_decode {WL : WideLaws} d : bytes_ok d → reads d (decode d) (λ v r, typed v ∧ bytes_ok r).
Proof. intros Hd. apply reads_fuel; [done|lia]. Qed.

(** ** What is written reads back *)

Lemma decode_number k n u rest : 1 ≤ n ≤ 8 → 0 ≤ u < 2 ^ (8 * n) →
  read_number (make_number k) n (write_uint u (Z.to_nat n) ++ rest) = Ok (mkValue k n (PUint u), rest).
Proof.
  intros Hn Hu. unfold read_number, read_uint, write_uint. destruct (Nat.leb_spec (Z.to_nat n) 8); [|lia].
  rewrite uint_app by (rewrite Z2Nat.id; lia). cbn. unfold make_number, check_bytes.
  destruct (Z.ltb_spec n 1); [lia|]. destruct (Z.ltb_spec 15 n); [lia|]. done.
Qed.

Lemma land_power u k : 0 ≤ k → Z.land u (2 ^ k) = if Z.testbit u k then 2 ^ k else 0.
Proof.
  intros Hk. apply Z.bits_inj'. intros i Hi. rewrite Z.land_spec, Z.pow2_bits_eqb by done.
  destruct (Z.eqb_spec k i) as [<-|Hne]; [rewrite andb_true_r|rewrite andb_false_r].
  - destruct (Z.testbit u k); [by rewrite Z.pow2_bits_true|by rewrite Z.bits_0].
  - destruct (Z.testbit u k); [by rewrite Z.pow2_bits_false|by rewrite Z.bits_0].
Qed.
Lemma top_bit u k : 0 ≤ k → 0 ≤ u < 2 ^ (k + 1) → Z.testbit u k = (2 ^ k <=? u).
Proof.
  intros Hk Hu. rewrite Z.pow_add_r in Hu by lia. rewrite Z.testbit_odd, Z.shiftr_div_pow2 by done.
  assert (0 < 2 ^ k) by (apply Z.pow_pos_nonneg; lia). destruct (Z.leb_spec (2 ^ k) u).
  - replace (u / 2 ^ k) with 1 by (apply (Z.div_unique u (2 ^ k) 1 (u - 2 ^ k)); lia). done.
  - by rewrite Z.div_small by lia.
Qed.
Lemma sign_extend_mod i n : 1 ≤ n ≤ 8 → - 2 ^ (8 * n - 1) ≤ i < 2 ^ (8 * n - 1) → sign_extend (i mod 2 ^ (8 * n)) n = i.
Proof.
  intros Hn Hi. unfold sign_extend. cbv zeta. set (w := 8 * n) in *.
  assert (HM : 2 ^ w = 2 * 2 ^ (w - 1)) by (replace w with (Z.succ (w - 1)) at 1 by lia; apply Z.pow_succ_r; lia).
  assert (H0 : 0 < 2 ^ (w - 1)) by (apply Z.pow_pos_nonneg; lia).
  assert (Hu : i mod 2 ^ w = if i <? 0 then i + 2 ^ w else i).
  { destruct (Z.ltb_spec i 0); [|by rewrite Z.mod_small by lia].
    symmetry. apply (Z.mod_unique_pos _ _ (-1)); lia. }
  assert (H64 : 2 ^ w ≤ 2 ^ 64) by (apply Z.pow_le_mono_r; lia). change (2 ^ 64) with 18446744073709551616 in H64.
  assert (Hs : ∀ v, 0 ≤ v < 18446744073709551616 → s64 v = if v <? 9223372036854775808 then v else v - 18446744073709551616)
    by (intros v Hv; unfold s64, u64; by rewrite Z.mod_small).
  rewrite Hu. destruct (Z.leb_spec 8 n) as [H8|H8].
  { replace w with 64 in * by lia. change (2 ^ 64) with 18446744073709551616 in *.
    change (2 ^ (64 - 1)) with 9223372036854775808 in *. rewrite Hs by (case_match; lia).
    destruct (Z.ltb_spec i 0); case_match; zbool; lia. }
  assert (H63 : 2 ^ (w - 1) ≤ 2 ^ 62) by (apply Z.pow_le_mono_r; lia). change (2 ^ 62) with 4611686018427387904 in H63.
  rewrite Z.shiftl_1_l, land_power, top_bit by (replace (w - 1 + 1) with w by lia; case_match; lia).
  destruct (Z.ltb_spec i 0) as [Hneg|Hpos].
  - rewrite (proj2 (Z.leb_le _ _)) by lia. rewrite (proj2 (Z.eqb_neq _ _)) by lia. cbn [negb].
    rewrite Z.shiftl_mul_pow2 by lia. replace (2 ^ (w - 1) * 2 ^ 1) with (2 ^ w) by lia.
    assert (Hl : u64 (Z.lnot (2 ^ w - 1)) = Z.shiftl (2 ^ (64 - w) - 1) w).
    { rewrite Z.shiftl_mul_pow2, Z.mul_sub_distr_r, <-Z.pow_add_r by lia. replace (64 - w + w) with 64 by lia.
      unfold u64, Z.lnot. change (2 ^ 64) with 18446744073709551616. symmetry. apply (Z.mod_unique_pos _ _ (-1)); lia. }
    rewrite Hl, lor_shiftl_add by lia. rewrite Z.mul_sub_distr_r, <-Z.pow_add_r by lia. replace (64 - w + w) with 64 by lia.
    change (2 ^ 64) with 18446744073709551616. rewrite Hs by lia. rewrite (proj2 (Z.ltb_ge _ _)) by lia. lia.
  - rewrite (proj2 (Z.leb_gt _ _)) by lia. cbn. rewrite Hs by lia. by rewrite (proj2 (Z.ltb_lt _ _)) by lia.
Qed.

Lemma decode_ds n i rest : 1 ≤ n ≤ 8 → - 2 ^ (8 * n - 1) ≤ i < 2 ^ (8 * n - 1) →
  read_number (λ u n, make_ds (sign_extend u n) n) n (write_uint (u64 i) (Z.to_nat n) ++ rest) = Ok (mkValue Kind.ds n (PInt i), rest).
Proof.
  intros Hn Hi. unfold read_number, read_uint, write_uint. destruct (Nat.leb_spec (Z.to_nat n) 8); [|lia].
  rewrite <-uint_mod. rewrite Z2Nat.id by lia.
  assert (E : u64 i mod 2 ^ (8 * n) = i mod 2 ^ (8 * n)).
  { unfold u64. change 18446744073709551616 with (2 ^ 64). apply Z.mod_mod_divide. exists (2 ^ (64 - 8 * n)).
    rewrite <-Z.pow_add_r by lia. f_equal. lia. }
  assert (0 < 2 ^ (8 * n)) by (apply Z.pow_pos_nonneg; lia).
  rewrite E, uint_app by (rewrite Z2Nat.id by lia; apply Z.mod_pos_bound; lia). cbn [mbind result_bind].
  rewrite sign_extend_mod by done. unfold make_ds, check_bytes.
  destruct (Z.ltb_spec n 1); [lia|]. destruct (Z.ltb_spec 15 n); [lia|]. done.
Qed.

(** The type code leads back to the constructor. *)
Lemma body_number item k n d : k = Kind.du ∨ k = Kind.h ∨ k = Kind.o ∨ k = Kind.c → 1 ≤ n ≤ 8 →
  decode_body item (type_code_of k n) d = read_number (make_number k) n d.
Proof.
  intros Hk Hn. assert (n = 1 ∨ n = 2 ∨ n = 3 ∨ n = 4 ∨ n = 5 ∨ n = 6 ∨ n = 7 ∨ n = 8) as Hc by lia.
  destruct Hk as [->|[->|[->| ->]]]; by destruct Hc as [->|[->|[->|[->|[->|[->|[->| ->]]]]]]].
Qed.
Lemma body_ds item n d : 1 ≤ n ≤ 8 →
  decode_body item (type_code_of Kind.ds n) d = read_number (λ u n, make_ds (sign_extend u n) n) n d.
Proof.
  intros Hn. assert (n = 1 ∨ n = 2 ∨ n = 3 ∨ n = 4 ∨ n = 5 ∨ n = 6 ∨ n = 7 ∨ n = 8) as Hc by lia.
  by destruct Hc as [->|[->|[->|[->|[->|[->|[->| ->]]]]]]].
Qed.
Lemma body_cm item n d : 1 ≤ n ≤ 15 →
  decode_body item (type_code_of Kind.cm n) d = ('(l, d) ← read_items item (Z.to_nat n) d; v ← make_cm l; Ok (v, d)).
Proof.
  intros Hn. assert (n = 1 ∨ n = 2 ∨ n = 3 ∨ n = 4 ∨ n = 5 ∨ n = 6 ∨ n = 7 ∨ n = 8 ∨ n = 9 ∨ n = 10 ∨ n = 11 ∨ n = 12 ∨ n = 13 ∨ n = 14 ∨ n = 15) as Hc by lia.
  by repeat destruct Hc as [->|Hc]; [..|subst n].
Qed.
Lemma read_image_app b rest : len b ≤ 255 → read_image (Encoder.byte (len b) ++ Encoder.raw b ++ rest) = Ok (b, rest).
Proof.
  intros Hb. pose proof (len_nonneg b). unfold read_image, Encoder.byte, Encoder.raw. cbn [app].
  rewrite byte_app, u8_small by lia. cbn. unfold len. rewrite Nat2Z.id. apply raw_app.
Qed.

Definition reads_back (v : Value) : Prop := ∃ bs, encode v = Ok bs ∧ bytes_ok bs ∧ bs ≠ [] ∧
  ∀ n rest, (length (bs ++ rest) < n)%nat → decode_fuel n (bs ++ rest) = Ok (v, rest).

(** From the encoding of the body. *)
Lemma reads_back_intro k n p body : encode (mkValue k n p) = Ok (Encoder.byte (type_code_of k n) ++ body) → bytes_ok body →
  (∀ fuel rest, (length (body ++ rest) < fuel)%nat →
     decode_body (decode_fuel fuel) (type_code_of k n) (body ++ rest) = Ok (mkValue k n p, rest)) →
  byte_ok (type_code_of k n) → reads_back (mkValue k n p).
Proof.
  intros E Hb H Hc. exists (Encoder.byte (type_code_of k n) ++ body). unfold Encoder.byte in *. rewrite u8_small in * by exact Hc.
  cbn [app] in *. split; [done|]. split; [by apply bytes_ok_cons|]. split; [done|]. intros [|fuel] rest Hl; [lia|].
  cbn [decode_fuel]. rewrite byte_app. cbn [mbind result_bind]. apply H. cbn in Hl. lia.
Qed.

Lemma items_back l : Forall reads_back l → ∃ bs, write_all encode l = Ok bs ∧ bytes_ok bs ∧
  ∀ n rest, (length (bs ++ rest) < n)%nat → read_items (decode_fuel n) (length l) (bs ++ rest) = Ok (l, rest).
Proof.
  induction 1 as [|v l (a & Ea & Ha & _ & Ra) _ (b & Eb & Hb & Rb)]; [exists []; split; [done|]; split; [apply bytes_ok_nil|done]|].
  exists (a ++ b). cbn [write_all]. fold (write_all encode l). rewrite Ea, Eb. split; [done|]. split; [by apply bytes_ok_app|].
  intros n rest Hl. rewrite <-app_assoc in *. cbn [length read_items]. rewrite (Ra n (b ++ rest)) by done. cbn [mbind result_bind].
  rewrite Rb by (rewrite !length_app in *; lia). done.
Qed.

Lemma write_uint_ok v n : 1 ≤ n ≤ 8 → bytes_ok (write_uint v (Z.to_nat n)).
Proof. intros. unfold write_uint. destruct (Nat.leb_spec (Z.to_nat n) 8); [apply uint_ok|lia]. Qed.
Lemma code_ok k n : byte_ok (type_code_of k n).
Proof. unfold byte_ok. destruct k; cbn; try apply u8_range; lia. Qed.

Lemma number_back k n u : k = Kind.du ∨ k = Kind.h ∨ k = Kind.o ∨ k = Kind.c → 1 ≤ n ≤ 8 → 0 ≤ u < 2 ^ (8 * n) →
  reads_back (mkValue k n (PUint u)).
Proof.
  intros Hk Hn Hu. apply (reads_back_intro _ _ _ (write_uint u (Z.to_nat n))); [by destruct Hk as [->|[->|[->| ->]]]|by apply write_uint_ok| |apply code_ok].
  intros fuel rest _. rewrite body_number by done. by apply decode_number.
Qed.
Lemma portable_back v : portable v → reads_back v.
Proof.
  induction v as [k n l IH|k n p Hp] using value_induction.
  - destruct k; try done. intros (En & Hn & Hl). apply all_values_Forall in Hl.
    destruct (items_back l) as (bs & E & Hb & R); [rewrite Forall_forall in *; auto|].
    apply (reads_back_intro _ _ _ bs); [cbn [encode]; by rewrite E|done| |apply code_ok]. intros fuel rest Hf.
    rewrite body_cm by done. rewrite En. unfold len at 1. rewrite Nat2Z.id, R by done. cbn [mbind result_bind]. unfold make_cm.
    by rewrite (proj2 (Z.ltb_ge _ _)) by lia.
  - destruct p as [|u|i|s|b|l]; try (by destruct k); try (by destruct (Hp l)); destruct k; try done; cbn [portable].
    + intros [Hn Hu]. apply number_back; auto.
    + intros [Hn Hu]. apply number_back; auto.
    + intros [Hn Hu]. apply number_back; auto.
    + intros [Hn Hu]. apply number_back; auto.
    + intros [Hn Hi]. apply (reads_back_intro _ _ _ (write_uint (u64 i) (Z.to_nat n))); [done|by apply write_uint_ok| |apply code_ok].
      intros fuel rest _. rewrite body_ds by done. by apply decode_ds.
    + intros [-> Hs]. apply (reads_back_intro _ _ _ (Encoder.byte (len s) ++ Encoder.raw (as_bytes s))); [done| | |apply code_ok].
      { apply bytes_ok_cons. split; [apply u8_range|apply as_bytes_ok]. }
      intros fuel rest _. assert (Hb : len (as_bytes s) = len s) by apply len_map.
      unfold decode_body, type_code_of. change (Z.land 64 128) with 0. change (Z.land 64 15) with 0. change (Z.land 64 240) with 64. cbn -[read_image Encoder.byte Encoder.raw].
      rewrite <-app_assoc, <-Hb, read_image_app by lia. cbn. unfold make_ai. rewrite of_as_bytes. by rewrite (proj2 (Z.ltb_ge _ _)).
    + intros (-> & Hs & Hb). apply (reads_back_intro _ _ _ (Encoder.byte (len b) ++ Encoder.raw b)); [done| | |apply code_ok].
      { apply bytes_ok_cons. split; [apply u8_range|done]. }
      intros fuel rest _. unfold decode_body, type_code_of. cbn -[read_image Encoder.byte Encoder.raw].
      rewrite <-app_assoc, read_image_app by lia. cbn. unfold make_hi. by rewrite (proj2 (Z.ltb_ge _ _)).
Qed.
Lemma portable_decode v : portable v → ∃ bs, encode v = Ok bs ∧ bytes_ok bs ∧ bs ≠ [] ∧ ∀ rest, decode (bs ++ rest) = Ok (v, rest).
Proof.
  intros Hv. destruct (portable_back v Hv) as (bs & E & Hb & Hn & R). exists bs. split; [done|]. split; [done|]. split; [done|].
  intros rest. apply R. lia.
Qed.
End Laws.

Definition no_shift : WideShift := {| wide_in _ := 0; wide_out _ _ := 0 |}.
Lemma no_shift_laws : @WideLaws no_shift.
Proof. split; intros; [by split|by unfold byte_ok]. Qed.

(** C31: Whatever bytes come, a NICE value is read from the first of them, well typed,
    or a decode error is thrown: payload, byte count and range agree with the kind, down
    through nested lists. And every well typed value can be encoded and displayed
    without the exception of a wrong variant, but for two of the displays, as a node
    address and as an elapsed time, which take a signed number for an unsigned one: each
    of them throws for some well typed value. *)
Theorem nice_values_typed {WS : WideShift} {WL : WideLaws} (d : Bytes) (Hd : bytes_ok d) :
  match decode d with
  | Ok (v, rest) => rest `suffix_of` d ∧ typed v
  | Throw e => is_decode_error e = true
  end ∧
  (∀ v, typed v → (∃ bs, encode v = Ok bs) ∧ ∀ labels, ∃ t, format labels v = Ok t) ∧
  (∃ v, typed v ∧ is_number v = true ∧ format_node v = Throw BadVariantAccess) ∧
  ∃ v, typed v ∧ kind v = Kind.cm ∧ format_etime v = Throw BadVariantAccess.
Proof.
  split; [|split; [|split]].
  - pose proof (reads_decode d Hd) as H. destruct (decode d) as [[v rest]|e]; [|done]. by destruct H as (? & ? & _).
  - intros v Hv. split; [by apply typed_encode|]. intros labels. by apply typed_format.
  - exists (mkValue Kind.ds 1 (PInt (-1))). split; [|done]. split; [lia|]. by split.
  - exists (mkValue Kind.cm 3 (PList (replicate 3 (mkValue Kind.ds 1 (PInt (-1)))))). split; [|done].
    split; [done|]. split; [done|]. cbn. by split_and!.
Qed.
Lemma nice_values_typed_witness : @decode no_shift [194; 1; 7; 64; 1; 65] = Ok (mkValue Kind.cm 2
    (PList [mkValue Kind.du 1 (PUint 7); mkValue Kind.ai 0 (PText ["A"%char])]), []) ∧
  match @decode no_shift [194; 1; 7; 64; 1; 65] with
  | Ok (v, rest) => rest `suffix_of` [194; 1; 7; 64; 1; 65] ∧ typed v
  | Throw e => is_decode_error e = true
  end.
Proof.
  split; [vm_compute; reflexivity|].
  exact (proj1 (@nice_values_typed no_shift no_shift_laws [194; 1; 7; 64; 1; 65] ltac:(by apply (bool_decide_unpack _)))).
Defined.
