(* ===== verification/NiceMessages.v ===== *)
(** NICE messages: parameter lists, requests and replies read back as they
    were written. *)

From stdpp Require Import sorting.
From S2P Require Import Prelude Buffer Types NiceValue NiceParams NicePackets NiceLaws.
#[local] Open Scope Z_scope.
#[local] Opaque Encoder.uint Decoder.uint Decoder.raw Decoder.byte Decoder.need.

Lemma byte_of v : 0 ≤ v < 256 → Encoder.byte v = [v].
Proof. intros. unfold Encoder.byte. by rewrite u8_small. Qed.
Lemma text_image s rest : len s ≤ 255 → read_image (Encoder.byte (len s) ++ Encoder.raw (as_bytes s) ++ rest) = Ok (as_bytes s, rest).
Proof. intros Hs. assert (E : len (as_bytes s) = len s) by apply len_map. rewrite <-E. apply read_image_app. by rewrite E. Qed.
Lemma text_bytes s : bytes_ok (Encoder.byte (len s) ++ Encoder.raw (as_bytes s)).
Proof. apply bytes_ok_cons. split; [apply u8_range|apply as_bytes_ok]. Qed.
Lemma uint2_app v rest : 0 ≤ v < 65536 → Decoder.uint 2 (Encoder.uint v 2 ++ rest) = Ok (v, rest).
Proof. intros. by apply uint_app. Qed.
Lemma not_empty (a : Z) (b : Bytes) : Decoder.empty (a :: b) = false.
Proof. done. Qed.
Lemma uint2_shape v : ∃ a b, Encoder.uint v 2 = [a; b].
Proof. rewrite !uint_cons. by eexists _, _. Qed.
Lemma not_empty_uint v rest : Decoder.empty (Encoder.uint v 2 ++ rest) = false.
Proof. destruct (uint2_shape v) as (a & b & ->). apply not_empty. Qed.

(** ** Entities *)

Definition node_ok (n : NiceNode) : Prop := 0 ≤ id n < 65536 ∧ len (name n) ≤ 127.
(** An entity as its kind carries it. *)
Definition entity_ok (e : Entity.t) : Prop :=
  let k := Entity.kind_ e in
  byte_ok k ∧
  if k =? Entity.node then node_ok (Entity.node_ e) ∧ e = Entity.make_node (Entity.node_ e)
  else if k =? Entity.area then byte_ok (Entity.area_ e) ∧ e = Entity.make_area (Entity.area_ e)
  else if k =? Entity.none then e = Entity.make_none
  else len (Entity.name_ e) ≤ 255 ∧ e = Entity.make_string k (Entity.name_ e).

Lemma name_length v (b : bool) : 0 ≤ v ≤ 127 → Z.land (Z.lor v (if b then 128 else 0)) 127 = v ∧
  negb (Z.land (Z.lor v (if b then 128 else 0)) 128 =? 0) = b ∧ byte_ok (Z.lor v (if b then 128 else 0)).
Proof.
  intros Hv. destruct b.
  - change 128 with (Z.shiftl 1 7) at 1 2 4. rewrite lor_shiftl_add by (change (2 ^ 7) with 128; lia). change (1 * 2 ^ 7) with 128.
    change 127 with (Z.ones 7). rewrite Z.land_ones by lia. change (2 ^ 7) with 128.
    split; [|split; [|unfold byte_ok; lia]].
    + symmetry. apply (Z.mod_unique_pos _ _ 1); lia.
    + change 128 with (2 ^ 7) at 2. rewrite land_power by lia. rewrite top_bit by (change (2 ^ (7 + 1)) with 256; lia).
      change (2 ^ 7) with 128. rewrite (proj2 (Z.leb_le _ _)) by lia. done.
  - rewrite Z.lor_0_r. change 127 with (Z.ones 7). rewrite Z.land_ones by lia. change (2 ^ 7) with 128.
    split; [by rewrite Z.mod_small by lia|]. split; [|unfold byte_ok; lia].
    change 128 with (2 ^ 7). rewrite land_power by lia. rewrite top_bit by (change (2 ^ (7 + 1)) with 256; lia).
    change (2 ^ 7) with 128. by rewrite (proj2 (Z.leb_gt _ _)) by lia.
Qed.
Lemma nice_node_back n : node_ok n → ∃ bs, node_encode n = Ok bs ∧ bytes_ok bs ∧ bs ≠ [] ∧ ∀ rest, node_decode (bs ++ rest) = Ok (n, rest).
Proof.
  destruct n as [i s ex]. intros [Hi Hs]. cbn in Hi, Hs. unfold node_encode, node_decode. cbn [id name executor].
  rewrite (proj2 (Z.ltb_ge _ _)) by done. eexists. split; [reflexivity|].
  pose proof (len_nonneg s). destruct (name_length (len s) ex) as (E1 & E2 & E3); [lia|]. rewrite byte_of by exact E3.
  destruct (uint2_shape i) as (a & b & Eu). split; [|split].
  - rewrite !bytes_ok_app. split; [apply uint_ok|]. split; [apply bytes_ok_cons; split; [exact E3|apply bytes_ok_nil]|apply as_bytes_ok].
  - by rewrite Eu.
  - intros rest. rewrite <-!app_assoc. rewrite uint2_app by done. cbn [mbind result_bind app]. rewrite byte_app. cbn [mbind result_bind].
    rewrite E1, E2. assert (El : Z.to_nat (len s) = length (as_bytes s)) by (unfold as_bytes; rewrite length_map; unfold len; lia).
    unfold Encoder.raw. rewrite El, raw_app. cbn [mbind result_bind]. by rewrite of_as_bytes, u16_small.
Qed.
Lemma entity_back e : entity_ok e → ∃ bs, Entity.encode_body e = Ok bs ∧ bytes_ok bs ∧
  (bs = [] ↔ Entity.kind_ e = Entity.none) ∧ ∀ rest, Entity.decode_body (Entity.kind_ e) (bs ++ rest) = Ok (e, rest).
Proof.
  unfold entity_ok, Entity.encode_body, Entity.decode_body. cbv zeta. intros [Hk H].
  destruct (Z.eqb_spec (Entity.kind_ e) Entity.node) as [E|_].
  { destruct H as [Hn He]. destruct (nice_node_back _ Hn) as (bs & -> & Hb & Hne & R). exists bs. split; [done|]. split; [done|].
    split; [rewrite E; split; [by intros ->|intros H0; discriminate H0]|]. intros rest. rewrite R. cbn. by rewrite He at 2. }
  destruct (Z.eqb_spec (Entity.kind_ e) Entity.area) as [E|_].
  { destruct H as [Ha He]. eexists. split; [reflexivity|]. unfold byte_ok in Ha. rewrite !byte_of by (try apply u8_range; lia). rewrite u8_small by done.
    split; [repeat (apply bytes_ok_cons; split; [unfold byte_ok; lia|]); apply bytes_ok_nil|]. split; [rewrite E; split; [intros H0; discriminate H0|intros H0; discriminate H0]|].
    intros rest. cbn [app]. rewrite byte_app. cbn. rewrite byte_app. cbn. by rewrite He at 2. }
  destruct (Z.eqb_spec (Entity.kind_ e) Entity.none) as [E|Hne].
  { subst e. exists []. split; [done|]. split; [apply bytes_ok_nil|]. done. }
  destruct H as [Hs He]. rewrite (proj2 (Z.ltb_ge _ _)) by done. eexists. split; [reflexivity|]. split; [apply text_bytes|].
  split; [split; [done|by intros]|]. intros rest. rewrite <-app_assoc, text_image by done. cbn. rewrite of_as_bytes. by rewrite He at 3.
Qed.

(** ** Parameter lists *)

Definition count_ok (k : Counter) : Prop :=
  (bytes k = 1 ∨ bytes k = 2 ∨ bytes k = 4) ∧ 0 ≤ value k ≤ counter_max k ∧
  if mapped k then 0 ≤ map_ k < 65536 else map_ k = 0.
(** A parameter under its key, as [set] and [set_counter] put one there. *)
Definition param_ok (kp : Z * Param) : Prop :=
  let '(k, p) := kp in
  if counter p then k = number p + 32768 ∧ 0 ≤ number p < 4096 ∧ p_value p = new_value ∧ count_ok (count p)
  else k = number p ∧ 0 ≤ number p < 32768 ∧ count p = new_counter ∧ portable (p_value p).

Lemma high_land n q m : 0 ≤ n < 4096 → Z.land (Z.lor n (Z.shiftl q 12)) (Z.shiftl m 12) = Z.shiftl (Z.land q m) 12.
Proof.
  intros Hn. apply Z.bits_inj'. intros i Hi. rewrite Z.land_spec, Z.lor_spec, !Z.shiftl_spec, Z.land_spec by done.
  destruct (Z.ltb_spec i 12).
  - rewrite (Z.testbit_neg_r m) by lia. by rewrite !andb_false_r.
  - rewrite <-(Z.mod_small n (2 ^ 12)) by done. by rewrite Z.mod_pow2_bits_high by lia.
Qed.
(** The code of a counter, in the top four bits of its number. *)
Definition nibble (k : Counter) : Z := (if bytes k =? 1 then 10 else if bytes k =? 2 then 12 else 14) + (if mapped k then 1 else 0).
Lemma counter_code_nibble k : count_ok k → counter_code (bytes k) (mapped k) = Ok (Z.shiftl (nibble k) 12).
Proof. intros [Hb _]. unfold counter_code, nibble. destruct Hb as [->|[->| ->]]; by destruct (mapped k). Qed.
Lemma numbered_counter n k : 0 ≤ n < 4096 → count_ok k →
  let num := Z.lor n (Z.shiftl (nibble k) 12) in
  0 ≤ num < 65536 ∧ negb (Z.land num 32768 =? 0) = true ∧ counter_bytes num = Ok (bytes k) ∧
  negb (Z.land num 4096 =? 0) = mapped k ∧ Z.land num 4095 = n.
Proof.
  intros Hn [Hb _] num.
  assert (Hm : ∀ m, Z.land num (Z.shiftl m 12) = Z.shiftl (Z.land (nibble k) m) 12) by (intros m; by apply high_land).
  assert (Hv : num = n + nibble k * 4096) by (unfold num; by apply lor_shiftl_add).
  assert (Hq : 10 ≤ nibble k ≤ 15) by (unfold nibble; repeat case_match; lia).
  split; [lia|]. change 32768 with (Z.shiftl 8 12). change 4096 with (Z.shiftl 1 12). rewrite !Hm.
  assert (He : Z.land num 4095 = n).
  { change 4095 with (Z.ones 12). rewrite Z.land_ones by lia. change (2 ^ 12) with 4096. rewrite Hv, Z.mod_add by lia. by apply Z.mod_small. }
  unfold counter_bytes. change 61440 with (Z.shiftl 15 12). change 57344 with (Z.shiftl 14 12). rewrite Hm, <-Z.shiftl_land, <-Z.land_assoc.
  change (Z.land 15 14) with 14. clear -Hb He. unfold nibble in *. destruct Hb as [->|[->| ->]]; by destruct (mapped k).
Qed.

Section Wide.
Context `{WS : WideShift}.

Lemma param_back k p : param_ok (k, p) → ∃ bs, encode_param p = Ok bs ∧ bytes_ok bs ∧ (2 ≤ length bs)%nat ∧
  ∀ l rest, decode_param l (bs ++ rest) = Ok (<[k := p]> l, rest).
Proof.
  destruct p as [n ctr v ct]. cbn. unfold encode_param. cbn [counter number p_value count]. destruct ctr.
  - intros (-> & Hn & -> & Hc). rewrite counter_code_nibble by done. cbn [mbind result_bind].
    destruct (numbered_counter n ct Hn Hc) as (Hnum & H1 & H2 & H3 & H4). set (num := Z.lor n _) in *. clearbody num.
    destruct Hc as (Hb & Hv & Hm). rewrite (proj2 (Z.ltb_ge _ _)) by lia. eexists. split; [reflexivity|]. split; [|split].
    + rewrite !bytes_ok_app. split; [apply uint_ok|]. split; [|apply uint_ok]. destruct (mapped ct); [apply uint_ok|apply bytes_ok_nil].
    + rewrite length_app, uint_length. lia.
    + intros l rest. unfold decode_param. rewrite <-!app_assoc, uint2_app by done. cbn [mbind result_bind]. rewrite u16_small, H1, H2 by done.
      cbn [mbind result_bind]. rewrite H3, H4.
      assert (Hval : ∀ r, Decoder.uint (Z.to_nat (bytes ct)) (Encoder.uint (value ct) (Z.to_nat (bytes ct)) ++ r) = Ok (value ct, r)).
      { intros r. apply uint_app. unfold counter_max in Hv. destruct Hv as [Hv0 Hv]. split; [done|]. eapply Z.le_lt_trans; [exact Hv|]. by destruct Hb as [-> | [-> | ->]]. }
      assert (Hk : key_of n true = n + 32768).
      { unfold key_of. change 32768 with (Z.shiftl 1 15) at 1. rewrite lor_shiftl_add by (change (2 ^ 15) with 32768; lia). apply u16_small. lia. }
      unfold set_counter. rewrite Hk. destruct ct as [cv cb cm cmap]. cbn [mapped map_ bytes value] in *. destruct cm.
      * rewrite uint2_app by done. cbn [mbind result_bind]. rewrite Hval. cbn [mbind result_bind]. by rewrite u16_small.
      * cbn [app mbind result_bind]. rewrite Hval. cbn [mbind result_bind]. by rewrite Hm.
  - intros (-> & Hn & -> & Hv). destruct (portable_decode v Hv) as (bs & E & Hb & Hne & R). rewrite E. cbn [mbind result_bind].
    eexists. split; [reflexivity|]. split; [rewrite bytes_ok_app; split; [apply uint_ok|done]|]. split; [rewrite length_app, uint_length; lia|].
    intros l rest. unfold decode_param. rewrite <-app_assoc, uint2_app by lia. cbn [mbind result_bind]. rewrite u16_small by lia.
    change 32768 with (2 ^ 15) at 1. rewrite land_power, top_bit by (change (2 ^ (15 + 1)) with 65536; lia). change (2 ^ 15) with 32768.
    rewrite (proj2 (Z.leb_gt _ _)) by lia. cbn [negb Z.eqb]. rewrite R. cbn [mbind result_bind]. unfold set, key_of. rewrite Z.lor_0_r, u16_small by lia. done.
Qed.

Lemma entries_back es : Forall param_ok es → ∃ bs, encode_entries es = Ok bs ∧ bytes_ok bs ∧
  ∀ n l, (length bs ≤ n)%nat → decode_params_fuel n l bs = Ok (foldl (λ m kp, <[kp.1 := kp.2]> m) l es, []).
Proof.
  induction 1 as [|[k p] es Hp _ (b & Eb & Hb & Rb)]; [exists []; split; [done|]; split; [apply bytes_ok_nil|]; by intros [|n] l|].
  destruct (param_back k p Hp) as (a & Ea & Ha & Hl & Ra). exists (a ++ b). cbn [encode_entries]. rewrite Ea, Eb.
  split; [done|]. split; [by apply bytes_ok_app|]. intros n l Hn. rewrite length_app in Hn. destruct n as [|n]; [lia|].
  cbn [decode_params_fuel]. destruct a as [|x a]; [cbn in Hl; lia|]. change ((x :: a) ++ b) with (x :: a ++ b). rewrite not_empty.
  change (x :: a ++ b) with ((x :: a) ++ b). rewrite Ra. cbn [mbind result_bind]. rewrite Rb by (cbn in *; lia). done.
Qed.

Lemma fold_inserts (es : list (Z * Param)) (l : ParamList) :
  foldl (λ m kp, <[kp.1 := kp.2]> m) l es = foldr (λ kp m, <[kp.1 := kp.2]> m) l (rev es).
Proof. rewrite <-(rev_involutive es) at 1. by rewrite foldl_rev. Qed.
Lemma entries_perm (l : ParamList) : entries l ≡ₚ map_to_list l.
Proof. apply merge_sort_Permutation. Qed.
Lemma entries_all (l : ParamList) : foldl (λ m kp, <[kp.1 := kp.2]> m) ∅ (entries l) = l.
Proof.
  rewrite fold_inserts. transitivity (list_to_map (rev (entries l)) : ParamList).
  - induction (rev (entries l)) as [|[k p] es IH]; [done|]. cbn. by rewrite IH.
  - assert (Hp : rev (entries l) ≡ₚ map_to_list l) by (rewrite <-Permutation_rev; apply entries_perm).
    rewrite <-(list_to_map_to_list l) at 2. apply list_to_map_proper; [|done].
    rewrite Hp. apply NoDup_fst_map_to_list.
Qed.
Definition params_ok (l : ParamList) : Prop := map_Forall (λ k p, param_ok (k, p)) l.
Lemma params_back l : params_ok l → ∃ bs, encode_params l = Ok bs ∧ bytes_ok bs ∧ decode_params ∅ bs = Ok (l, []).
Proof.
  intros Hl. destruct (entries_back (entries l)) as (bs & E & Hb & R).
  { rewrite entries_perm. apply Forall_forall. intros [k p] Hkp. apply elem_of_map_to_list in Hkp. by apply Hl. }
  exists bs. split; [done|]. split; [done|]. unfold decode_params. rewrite R by done. by rewrite entries_all.
Qed.
End Wide.

(** ** Requests *)

(** The entity of a request as its code carries it; the codes below the two
    node wildcards are never sent. *)
Definition req_entity_ok (r : ReqEntity.t) : Prop :=
  let e := ReqEntity.etype r in
  let c := ReqEntity.code r in
  if c <? 0 then
    ReqEntity.name r = [] ∧ ReqEntity.area r = 0 ∧ ReqEntity.tid_wild ≤ c ∧
    if (e =? Entity.node) && (c <? ReqEntity.significant) then 0 ≤ ReqEntity.id r < 65536 else ReqEntity.id r = 0
  else if 0 <? c then e ≠ Entity.area ∧ c = len (ReqEntity.name r) ∧ c ≤ 127 ∧ ReqEntity.id r = 0 ∧ ReqEntity.area r = 0
  else
    ReqEntity.name r = [] ∧
    ((e = Entity.node ∧ 0 ≤ ReqEntity.id r < 65536 ∧ ReqEntity.area r = 0) ∨
     (e = Entity.area ∧ byte_ok (ReqEntity.area r) ∧ ReqEntity.id r = 0)).

Lemma if_bytes_ok (b : bool) bs : bytes_ok bs → bytes_ok (if b then bs else []).
Proof. intros. destruct b; [done|apply bytes_ok_nil]. Qed.
Lemma signed_u8 v : -128 ≤ v < 128 → signed_byte (u8 v) = v.
Proof.
  intros Hv. unfold signed_byte, u8. destruct (Z.ltb_spec v 0).
  - rewrite <-(Z.mod_unique_pos v 256 (-1) (v + 256)) by lia. rewrite (proj2 (Z.ltb_ge _ _)); lia.
  - rewrite Z.mod_small by lia. by rewrite (proj2 (Z.ltb_lt _ _)) by lia.
Qed.
Lemma signed_small v : 0 ≤ v < 128 → signed_byte v = v.
Proof. intros. unfold signed_byte. by rewrite (proj2 (Z.ltb_lt _ _)) by lia. Qed.

Lemma req_entity_back r : req_entity_ok r → ∃ bs, ReqEntity.encode r = Ok bs ∧ bytes_ok bs ∧ bs ≠ [] ∧
  ∀ rest, ReqEntity.decode (ReqEntity.etype r) (bs ++ rest) = Ok (r, rest).
Proof.
  destruct r as [e c s i a]. unfold req_entity_ok, ReqEntity.encode, ReqEntity.decode. cbn [ReqEntity.etype ReqEntity.code ReqEntity.name ReqEntity.id ReqEntity.area].
  unfold ReqEntity.decode_named, ReqEntity.tid_wild, ReqEntity.area_wild, ReqEntity.significant. destruct (Z.ltb_spec c 0) as [Hc|Hc].
  - intros (-> & -> & Hlo & Hi). rewrite byte_of by apply u8_range. eexists. split; [reflexivity|]. split; [|split; [done|]].
    + apply bytes_ok_cons. split; [apply u8_range|]. apply if_bytes_ok, uint_ok.
    + intros rest. cbn [app]. rewrite byte_app. cbn [mbind result_bind]. rewrite signed_u8 by lia. rewrite (proj2 (Z.eqb_neq c 0)) by lia.
      rewrite (proj2 (Z.ltb_ge 0 c)) by lia. rewrite !andb_false_r. cbn [orb]. destruct (e =? Entity.node); cbn [andb] in *.
      * destruct (Z.ltb_spec c (-5)).
        -- assert ((c =? -6) || (c =? -7) = true) as -> by (destruct (Z.eqb_spec c (-6)), (Z.eqb_spec c (-7)); try done; lia).
           rewrite uint2_app by done. cbn. by rewrite u16_small.
        -- rewrite (proj2 (Z.eqb_neq c (-6))), (proj2 (Z.eqb_neq c (-7))) by lia. cbn. by rewrite Hi.
      * cbn. by rewrite Hi.
  - destruct (Z.ltb_spec 0 c) as [Hp|Hz].
    + intros (Ha & E & Hl & -> & ->). unfold put_string. rewrite (proj2 (Z.ltb_ge _ _)) by lia. eexists. split; [reflexivity|].
      split; [apply text_bytes|]. split; [done|]. intros rest. rewrite byte_of by lia. cbn [app]. rewrite byte_app. cbn [mbind result_bind].
      rewrite signed_small, <-E by lia. rewrite (proj2 (Z.eqb_neq c 0)) by lia. rewrite (proj2 (Z.ltb_ge c (-5))) by lia.
      rewrite (proj2 (Z.eqb_neq e _) Ha). rewrite (proj2 (Z.ltb_lt 0 c)) by lia. cbn [orb]. rewrite andb_false_r. cbn [andb].
      rewrite E. unfold len, Encoder.raw. rewrite Nat2Z.id. rewrite <-(length_map code s). fold (as_bytes s). rewrite raw_app. cbn [mbind result_bind].
      rewrite of_as_bytes. unfold as_bytes. by rewrite length_map.
    + intros (-> & H). assert (c = 0) as -> by lia. destruct H as [(-> & Hi & ->)|(-> & Ha & ->)].
      * eexists. split; [reflexivity|]. split; [apply bytes_ok_cons; split; [by unfold byte_ok, u8|apply uint_ok]|]. split; [done|].
        intros rest. cbn [app Encoder.byte]. change (u8 0) with 0. rewrite byte_app. cbn -[Encoder.uint Decoder.uint].
        rewrite uint2_app by done. cbn. by rewrite u16_small.
      * unfold byte_ok in Ha. eexists. split; [reflexivity|]. rewrite (u8_small a), !byte_of by lia.
        split; [repeat (apply bytes_ok_cons; split; [unfold byte_ok; lia|]); apply bytes_ok_nil|]. split; [done|].
        intros rest. cbn [app]. rewrite byte_app. cbn. by rewrite byte_app.
Qed.

Lemma string_back s max : len s ≤ max → max ≤ 255 → ∃ bs, put_string s max = Ok bs ∧ bytes_ok bs ∧ bs ≠ [] ∧
  ∀ rest, get_string (bs ++ rest) = Ok (s, rest).
Proof.
  intros Hs Hm. unfold put_string. rewrite (proj2 (Z.ltb_ge _ _)) by done. eexists. split; [reflexivity|]. split; [apply text_bytes|]. split; [done|].
  intros rest. unfold get_string. rewrite <-app_assoc, text_image by lia. cbn [mbind result_bind]. by rewrite of_as_bytes.
Qed.

(** A request of each function, with what its members can be. *)
Definition quals_ok (q : option text * option ReqEntity.t) : Prop :=
  from_option (λ s, len s ≤ 127) True q.1 ∧
  from_option (λ e, req_entity_ok e ∧ ReqEntity.etype e = Entity.node) True q.2.
Definition args_ok (tt : Z) (k : loop_args) : Prop :=
  0 ≤ a_count k < 65536 ∧ 0 ≤ a_length k < 65536 ∧ byte_ok (a_with k) ∧
  if tt =? test_circuit then len (a_address k) ≤ 255 ∧ bytes_ok (a_address k) else a_address k = [].
Definition access_ok (ac : bool) (u p a : text) : Prop :=
  if ac then len u ≤ 39 ∧ len p ≤ 39 ∧ len a ≤ 39 else u = [] ∧ p = [] ∧ a = [].
Definition about_ok (e : ReqEntity.t) : Prop := req_entity_ok e ∧ 0 ≤ ReqEntity.etype e < 8.
Inductive request_ok : NiceRequest → Prop :=
| ok_read p i e q : 0 ≤ i < 8 → about_ok e → quals_ok q → request_ok (read_request fn_read p i (ReqEntity.etype e) e q)
| ok_set p i e : 0 ≤ i < 8 → about_ok e → request_ok (read_request fn_set p i (ReqEntity.etype e) e (None, None))
| ok_zero z e : about_ok e → request_ok (zero_request z (ReqEntity.etype e) e)
| ok_test tt ac e u p a k : test_entity tt = Ok (ReqEntity.etype e) → req_entity_ok e → access_ok ac u p a → args_ok tt k →
    request_ok (test_request tt ac (ReqEntity.etype e) e u p a k).

(** The flag byte and its parts; eight entity types, eight kinds of information. *)
Lemma read_flags p i e : 0 ≤ i < 8 → 0 ≤ e < 8 →
  let f := Z.lor (Z.lor (flag p) (Z.shiftl (Z.land i 7) 4)) (Z.land e 7) in
  byte_ok f ∧ Z.land f 7 = e ∧ negb (Z.land f 128 =? 0) = p ∧ Z.land (Z.shiftr f 4) 7 = i.
Proof.
  intros Hi He. assert (i = 0 ∨ i = 1 ∨ i = 2 ∨ i = 3 ∨ i = 4 ∨ i = 5 ∨ i = 6 ∨ i = 7) as Ci by lia.
  assert (e = 0 ∨ e = 1 ∨ e = 2 ∨ e = 3 ∨ e = 4 ∨ e = 5 ∨ e = 6 ∨ e = 7) as Ce by lia. clear Hi He.
  destruct Ci as [->|[->|[->|[->|[->|[->|[->| ->]]]]]]]; destruct Ce as [->|[->|[->|[->|[->|[->|[->| ->]]]]]]]; by destruct p.
Qed.
Lemma zero_flags p e : 0 ≤ e < 8 →
  let f := Z.lor (flag p) (Z.land e 7) in byte_ok f ∧ Z.land f 7 = e ∧ negb (Z.land f 128 =? 0) = p.
Proof. intros He. assert (H0 : 0 ≤ 0 < 8) by lia. destruct p; [destruct (read_flags true 0 e H0 He) as (? & ? & ? & _)|destruct (read_flags false 0 e H0 He) as (? & ? & ? & _)]; done. Qed.

Section Requests.
Context `{WS : WideShift}.

Lemma uint_nonempty v : Encoder.uint v 2 ≠ [].
Proof. destruct (uint2_shape v) as (a & b & ->). done. Qed.

Lemma quals_done fuel q : parse_quals fuel q [] = Ok q.
Proof. by destruct fuel. Qed.
Lemma quals_node fuel q e : req_entity_ok e → ReqEntity.etype e = Entity.node → ∃ b, ReqEntity.encode e = Ok b ∧ bytes_ok b ∧
  parse_quals (S fuel) q (Encoder.uint 800 2 ++ b) = Ok (q.1, Some e).
Proof.
  intros He Hn. destruct (req_entity_back e He) as (b & E & Hb & _ & R). exists b. split; [done|]. split; [done|].
  cbn [parse_quals]. rewrite not_empty_uint, uint2_app by done. cbn -[parse_quals ReqEntity.decode].
  rewrite <-Hn. rewrite <-(app_nil_r b), R. cbn [mbind result_bind]. apply quals_done.
Qed.
Lemma quals_circuit fuel q s rest : len s ≤ 127 → ∃ b, put_string s 127 = Ok b ∧ bytes_ok b ∧ (1 ≤ length b)%nat ∧
  parse_quals (S fuel) q (Encoder.uint 501 2 ++ b ++ rest) = parse_quals fuel (Some s, q.2) rest.
Proof.
  intros Hs. destruct (string_back s 127 Hs) as (b & E & Hb & Hne & R); [done|]. exists b. split; [done|]. split; [done|].
  split; [destruct b; [done|cbn; lia]|]. cbn [parse_quals]. rewrite not_empty_uint, uint2_app by done. cbn -[parse_quals get_string].
  by rewrite R.
Qed.
Lemma quals_back p i et e q : quals_ok q → ∃ b, encode_quals (read_request fn_read p i et e q) = Ok b ∧ bytes_ok b ∧
  parse_quals (length b) (None, None) b = Ok q.
Proof.
  destruct q as [[s|] [n|]]; intros [Hs Hn]; cbn in Hs, Hn; unfold encode_quals; cbn -[Encoder.uint Decoder.uint put_string ReqEntity.encode parse_quals].
  - destruct Hn as [Hn Ht]. destruct (quals_node 0 (Some s, None) n Hn Ht) as (b & E & Hb & _).
    destruct (quals_circuit 0 (None, None) s [] Hs) as (a & Ea & Ha & Hl & _). rewrite Ea, E. cbn [mbind result_bind].
    eexists. split; [reflexivity|]. split; [rewrite !bytes_ok_app; repeat split; auto using uint_ok|].
    assert (∃ f, length ((Encoder.uint 501 2 ++ a) ++ Encoder.uint 800 2 ++ b) = S (S f)) as [f ->].
    { rewrite !length_app, !uint_length. by eexists. }
    destruct (quals_circuit (S f) (None, None) s (Encoder.uint 800 2 ++ b) Hs) as (a' & Ea' & _ & _ & R). rewrite Ea in Ea'. injection Ea' as <-.
    rewrite <-app_assoc, R. destruct (quals_node f (Some s, None) n Hn Ht) as (b' & E' & _ & R'). rewrite E in E'. by injection E' as <-.
  - destruct (quals_circuit 0 (None, None) s [] Hs) as (a & Ea & Ha & Hl & _). rewrite Ea. cbn [mbind result_bind].
    eexists. split; [reflexivity|]. rewrite app_nil_r. split; [rewrite bytes_ok_app; auto using uint_ok|].
    rewrite length_app, uint_length. destruct (quals_circuit (S (length a)) (None, None) s [] Hs) as (a' & Ea' & _ & _ & R). rewrite Ea in Ea'. injection Ea' as <-.
    rewrite app_nil_r in R. cbn [Nat.add]. rewrite R. apply quals_done.
  - destruct Hn as [Hn Ht]. destruct (quals_node 0 (None, None) n Hn Ht) as (b & E & Hb & _). rewrite E. cbn [mbind result_bind app].
    eexists. split; [reflexivity|]. split; [rewrite bytes_ok_app; auto using uint_ok|]. rewrite length_app, uint_length.
    destruct (quals_node (S (length b)) (None, None) n Hn Ht) as (b' & E' & _ & R'). rewrite E in E'. by injection E' as <-.
  - eexists. split; [reflexivity|]. split; [apply bytes_ok_nil|done].
Qed.

(** A loop parameter. *)
Lemma arg_number circuit fuel k num v rest : num = 150 ∨ num = 151 → 0 ≤ v < 65536 →
  parse_args circuit (S fuel) k (Encoder.uint num 2 ++ Encoder.uint v 2 ++ rest) =
  (k ← set_arg num (mkValue Kind.du 2 (PUint v)) k; parse_args circuit fuel k rest).
Proof.
  intros Hn Hv. assert (Hd : decode_body decode 2 (Encoder.uint v 2 ++ rest) = Ok (mkValue Kind.du 2 (PUint v), rest)).
  { change 2 with (type_code_of Kind.du 2) at 1. rewrite body_number by (auto; lia). apply (decode_number Kind.du 2 v rest); [lia|done]. }
  cbn [parse_args]. rewrite not_empty_uint. destruct Hn as [-> | ->]; rewrite uint2_app by done; cbn [mbind result_bind].
  - change (find_req_param (u16 150) circuit) with (Some 2). cbn iota. by rewrite Hd.
  - change (find_req_param (u16 151) circuit) with (Some 2). cbn iota. by rewrite Hd.
Qed.
Lemma arg_with circuit fuel k v rest : byte_ok v →
  parse_args circuit (S fuel) k (Encoder.uint 152 2 ++ Encoder.uint v 1 ++ rest) =
  (k ← set_arg 152 (mkValue Kind.c 1 (PUint v)) k; parse_args circuit fuel k rest).
Proof.
  intros Hv. assert (Hd : decode_body decode 129 (Encoder.uint v 1 ++ rest) = Ok (mkValue Kind.c 1 (PUint v), rest)).
  { change 129 with (type_code_of Kind.c 1). rewrite body_number by (auto; lia). apply (decode_number Kind.c 1 v rest); [lia|done]. }
  cbn [parse_args]. rewrite not_empty_uint, uint2_app by done. cbn [mbind result_bind].
  change (find_req_param (u16 152) circuit) with (Some 129). cbn iota. by rewrite Hd.
Qed.
Lemma arg_address fuel k b : len b ≤ 255 →
  parse_args true (S fuel) k (Encoder.uint 10 2 ++ Encoder.byte (len b) ++ Encoder.raw b) = Ok (mkLoopArgs (a_count k) (a_length k) (a_with k) b).
Proof.
  intros Hb. assert (Hd : decode_body decode 32 (Encoder.byte (len b) ++ Encoder.raw b) = Ok (mkValue Kind.hi 0 (PBytes b), [])).
  { unfold decode_body. cbn -[read_image Encoder.byte Encoder.raw]. pose proof (read_image_app b [] Hb) as R. rewrite app_nil_r in R.
    rewrite R. cbn. unfold make_hi. by rewrite (proj2 (Z.ltb_ge _ _)). }
  cbn [parse_args]. rewrite not_empty_uint, uint2_app by done. cbn [mbind result_bind].
  change (find_req_param (u16 10) true) with (Some 32). cbn iota. rewrite Hd. cbn. by destruct fuel.
Qed.
Lemma args_back tt k : args_ok tt k → 
  let b := Encoder.uint 150 2 ++ Encoder.uint (a_count k) 2 ++ Encoder.uint 151 2 ++ Encoder.uint (a_length k) 2 ++
           Encoder.uint 152 2 ++ Encoder.uint (a_with k) 1 ++
           (if (tt =? test_circuit) && negb (bool_decide (a_address k = [])) then
              Encoder.uint 10 2 ++ Encoder.byte (len (a_address k)) ++ Encoder.raw (a_address k) else []) in
  bytes_ok b ∧ parse_args (tt =? test_circuit) (length b) default_args b = Ok k.
Proof.
  destruct k as [n l w ad]. unfold args_ok. cbn [a_count a_length a_with a_address]. intros (Hn & Hl & Hw & Ha). cbv zeta.
  set (t := (if (tt =? test_circuit) && _ then _ else []) : Bytes). assert (Ht : bytes_ok t).
  { unfold t. destruct (tt =? test_circuit); cbn [andb]; [|apply bytes_ok_nil]. destruct Ha as [Ha Hb].
    apply if_bytes_ok. rewrite !bytes_ok_app. repeat split; [apply uint_ok| |done]. by repeat constructor; apply u8_range. }
  split; [rewrite !bytes_ok_app; repeat split; try apply uint_ok; done|]. rewrite !length_app, !uint_length.
  cbn [Nat.add]. rewrite arg_number by auto. cbn [set_arg Z.eqb Pos.eqb as_uint data get_uint mbind result_bind].
  rewrite arg_number by auto. cbn [set_arg Z.eqb Pos.eqb as_uint data get_uint mbind result_bind].
  rewrite arg_with by auto. cbn [set_arg Z.eqb Pos.eqb as_uint data get_uint mbind result_bind].
  unfold byte_ok in Hw. rewrite !u32_small by lia. cbn [a_count a_length a_with a_address default_args].
  unfold t. destruct (tt =? test_circuit); cbn [andb].
  - destruct Ha as [Ha _]. destruct (bool_decide_reflect (ad = [])) as [->|]; [done|]. cbn [negb]. by rewrite arg_address.
  - by subst ad.
Qed.

Lemma access_back tt ac et e u p a k : access_ok ac u p a → ∃ b,
  (if ac then x ← put_string u 39; y ← put_string p 39; z ← put_string a 39; Ok (x ++ y ++ z) else Ok []) = Ok b ∧ bytes_ok b ∧
  encode_loop (test_request tt ac et e u p a k) = Ok (b ++ Encoder.uint 150 2 ++ Encoder.uint (a_count k) 2 ++ Encoder.uint 151 2 ++
    Encoder.uint (a_length k) 2 ++ Encoder.uint 152 2 ++ Encoder.uint (a_with k) 1 ++
    (if (tt =? test_circuit) && negb (bool_decide (a_address k = [])) then
       Encoder.uint 10 2 ++ Encoder.byte (len (a_address k)) ++ Encoder.raw (a_address k) else [])) ∧
  ∀ rest, (if ac then '(x, d) ← get_string (b ++ rest); '(y, d) ← get_string d; '(z, d) ← get_string d; Ok (x, y, z, d)
           else Ok ([], [], [], b ++ rest)) = Ok (u, p, a, rest).
Proof.
  unfold access_ok, encode_loop. cbn [access_ctl username password account loop_count loop_length loop_with test_type physical_address test_request].
  destruct ac; [|intros (-> & -> & ->); exists []; split; [done|]; split; [apply bytes_ok_nil|done]].
  intros (Hu & Hp & Ha). destruct (string_back u 39 Hu ltac:(lia)) as (x & -> & Hx & _ & Rx).
  destruct (string_back p 39 Hp ltac:(lia)) as (y & -> & Hy & _ & Ry). destruct (string_back a 39 Ha ltac:(lia)) as (z & -> & Hz & _ & Rz).
  exists (x ++ y ++ z). split; [done|]. split; [by rewrite !bytes_ok_app|]. split; [done|].
  intros rest. rewrite <-!app_assoc, Rx. cbn [mbind result_bind]. rewrite Ry. cbn [mbind result_bind]. by rewrite Rz.
Qed.

Lemma request_back r : request_ok r → ∃ bs, encode_request r = Ok bs ∧ bytes_ok bs ∧ parse_request bs = Ok r.
Proof.
  destruct 1 as [p i e q Hi [He Ht] Hq|p i e Hi [He Ht]|z e [He Ht]|tt ac e u p a k Htt He Hac Hk];
    destruct (req_entity_back e He) as (b & E & Hb & _ & R); unfold encode_request.
  - destruct (quals_back p i (ReqEntity.etype e) e q Hq) as (c & Ec & Hc & Rc).
    destruct (read_flags p i _ Hi Ht) as (F0 & F1 & F2 & F3). cbn -[ReqEntity.encode encode_quals Encoder.byte Z.lor Z.land Z.shiftl].
    rewrite E. cbn [mbind result_bind]. rewrite Ec. cbn [mbind result_bind]. unfold byte_ok in F0.
    eexists. split; [reflexivity|]. rewrite !byte_of by (try done; lia). cbn [app]. split.
    { apply bytes_ok_cons. split; [done|]. apply bytes_ok_cons. split; [done|]. by apply bytes_ok_app. }
    unfold parse_request. rewrite byte_app. cbn -[ReqEntity.decode parse_quals Z.lor Z.land Z.shiftl Z.shiftr]. rewrite byte_app. cbn [mbind result_bind].
    rewrite F1, F2, F3, R. cbn [mbind result_bind]. by rewrite Rc.
  - destruct (read_flags p i _ Hi Ht) as (F0 & F1 & F2 & F3). cbn -[ReqEntity.encode Encoder.byte Z.lor Z.land Z.shiftl].
    rewrite E. cbn [mbind result_bind]. unfold byte_ok in F0. rewrite app_nil_r.
    eexists. split; [reflexivity|]. rewrite !byte_of by (try done; lia). cbn [app]. split.
    { apply bytes_ok_cons. split; [done|]. by apply bytes_ok_cons. }
    unfold parse_request. rewrite byte_app. cbn -[ReqEntity.decode parse_quals Z.lor Z.land Z.shiftl Z.shiftr]. rewrite byte_app. cbn [mbind result_bind].
    rewrite F1, F2, F3. rewrite <-(app_nil_r b), R. cbn [mbind result_bind]. by rewrite quals_done.
  - destruct (zero_flags z _ Ht) as (F0 & F1 & F2). cbn -[ReqEntity.encode Encoder.byte Z.lor Z.land]. rewrite E. cbn [mbind result_bind].
    unfold byte_ok in F0. eexists. split; [reflexivity|]. rewrite !byte_of by (try done; lia). cbn [app]. split.
    { apply bytes_ok_cons. split; [done|]. by apply bytes_ok_cons. }
    unfold parse_request. rewrite byte_app. cbn -[ReqEntity.decode Z.lor Z.land]. rewrite byte_app. cbn [mbind result_bind].
    rewrite F1, F2. by rewrite <-(app_nil_r b), R.
  - destruct (access_back tt ac (ReqEntity.etype e) e u p a k Hac) as (c & _ & Hc & El & Rc).
    destruct (args_back tt k Hk) as [Ha Ra].
    set (args := Encoder.uint 150 2 ++ _) in *. clearbody args.
    cbn -[ReqEntity.encode Encoder.byte encode_loop Z.lor Z.land]. rewrite E. cbn [mbind result_bind]. rewrite El. cbn [mbind result_bind].
    assert (Hf : let f := Z.lor (Z.land tt 7) (if ac then 128 else 0) in byte_ok f ∧ Z.land f 7 = tt ∧ negb (Z.land f 128 =? 0) = ac).
    { unfold test_entity in Htt. destruct (Z.eqb_spec tt test_node) as [->|_]; [by destruct ac|].
      destruct (Z.eqb_spec tt test_line) as [->|_]; [by destruct ac|]. destruct (Z.eqb_spec tt test_circuit) as [->|_]; [by destruct ac|done]. }
    destruct Hf as (F0 & F1 & F2). unfold flag. unfold byte_ok in F0. eexists. split; [reflexivity|]. rewrite !byte_of by (try done; lia). cbn [app]. split.
    { apply bytes_ok_cons. split; [done|]. apply bytes_ok_cons. split; [done|]. by rewrite !bytes_ok_app. }
    unfold parse_request. rewrite byte_app. cbn -[ReqEntity.decode parse_args test_entity get_string Z.lor Z.land]. rewrite byte_app. cbn [mbind result_bind].
    rewrite F1, F2, Htt. cbn [mbind result_bind]. rewrite R. cbn [mbind result_bind]. rewrite Rc. cbn [mbind result_bind]. by rewrite Ra.
Qed.

(** ** Replies *)

(** A reply about an entity of kind [k], or about none. *)
Definition reply_ok (k : Z) (r : NiceReply) : Prop :=
  -128 ≤ retcode r < 128 ∧ 0 ≤ detail r < 65536 ∧ len (message r) ≤ 255 ∧ has_notlooped r = false ∧ notlooped r = 0 ∧
  if has_entity r then entity_ok (r_entity r) ∧ Entity.kind_ (r_entity r) = k ∧ k ≠ Entity.none ∧ params_ok (params r)
  else r_entity r = Entity.make_none ∧ params r = ∅.
Lemma retcode_byte rc : -128 ≤ rc < 128 → Encoder.uint (u64 rc) 1 = [u8 rc].
Proof.
  intros H. rewrite uint_1. unfold u8, u64. f_equal. change 18446744073709551616 with (256 * 72057594037927936).
  rewrite Z.rem_mul_r by lia. rewrite Z.mul_comm, Z.mod_add by lia. apply Z.mod_mod. lia.
Qed.
Lemma reply_back k r : reply_ok k r → ∃ bs, encode_reply r = Ok bs ∧ bytes_ok bs ∧ parse_reply bs k = Ok r.
Proof.
  destruct r as [rc det m he e l hn n]. unfold reply_ok, encode_reply. cbn [retcode detail message has_entity r_entity params has_notlooped notlooped].
  intros (Hr & Hd & Hm & -> & -> & H). destruct (string_back m 255 Hm ltac:(lia)) as (b & -> & Hb & _ & R). cbn [mbind result_bind].
  rewrite retcode_byte by done. unfold parse_reply. destruct he.
  - destruct H as (He & Hk & Hn & Hl). destruct (entity_back e He) as (c & -> & Hc & Hce & Rc). cbn [mbind result_bind].
    destruct (params_back l Hl) as (p & -> & Hp & Rp). cbn [mbind result_bind app]. eexists. split; [reflexivity|]. split.
    { apply bytes_ok_cons. split; [apply u8_range|]. rewrite !bytes_ok_app. auto using uint_ok. }
    rewrite byte_app. cbn [mbind result_bind]. rewrite uint2_app by done. cbn [mbind result_bind]. rewrite R. cbn [mbind result_bind].
    destruct c as [|x c]; [by rewrite <-Hk in Hn; destruct (Hn (proj1 Hce eq_refl))|]. change ((x :: c) ++ p) with (x :: c ++ p) at 1. rewrite not_empty.
    rewrite <-Hk, Rc. cbn [mbind result_bind]. rewrite Rp. cbn [mbind result_bind]. by rewrite signed_u8, u16_small.
  - destruct H as [-> ->]. cbn [mbind result_bind app]. eexists. split; [reflexivity|]. split.
    { apply bytes_ok_cons. split; [apply u8_range|]. rewrite !bytes_ok_app. auto using uint_ok, bytes_ok_nil. }
    rewrite byte_app. cbn [mbind result_bind]. rewrite uint2_app by done. cbn [mbind result_bind]. rewrite R. cbn [mbind result_bind].
    change (Decoder.empty []) with true. cbn iota. by rewrite signed_u8, u16_small.
Qed.
(** The answer to a loop request. *)
Definition loop_reply_ok (r : NiceReply) : Prop :=
  -128 ≤ retcode r < 128 ∧ 0 ≤ detail r < 65536 ∧ len (message r) ≤ 255 ∧ has_notlooped r = true ∧ 0 ≤ notlooped r < 65536 ∧
  has_entity r = false ∧ r_entity r = Entity.make_none ∧ params r = ∅.
Lemma loop_reply_back r : loop_reply_ok r → ∃ bs, encode_reply r = Ok bs ∧ bytes_ok bs ∧ parse_loop bs = Ok r.
Proof.
  destruct r as [rc det m he e l hn n]. unfold loop_reply_ok, encode_reply. cbn [retcode detail message has_entity r_entity params has_notlooped notlooped].
  intros (Hr & Hd & Hm & -> & Hn & -> & -> & ->). destruct (string_back m 255 Hm ltac:(lia)) as (b & -> & Hb & Hne & R). cbn [mbind result_bind].
  rewrite retcode_byte, app_nil_r by done. cbn [app]. eexists. split; [reflexivity|]. split.
  { apply bytes_ok_cons. split; [apply u8_range|]. rewrite !bytes_ok_app. auto using uint_ok. }
  unfold parse_loop, reply_header. rewrite byte_app. cbn [mbind result_bind]. rewrite not_empty_uint, uint2_app by done. cbn [mbind result_bind].
  destruct b as [|x b]; [done|]. change ((x :: b) ++ Encoder.uint n 2) with (x :: b ++ Encoder.uint n 2) at 1. rewrite not_empty, R. cbn [mbind result_bind].
  destruct (uint2_shape n) as (y & z & En). rewrite En, not_empty, <-En. rewrite <-(app_nil_r (Encoder.uint n 2)), uint2_app by done. cbn [mbind result_bind].
  by rewrite signed_u8, !u16_small.
Qed.
End Requests.

(** C32: NICE messages read back. Every request to read, set, zero or loop encodes and
    parses to what it was, with its entities, wildcards, qualifiers, access control and
    loop parameters, where each is something the wire can tell: names of 1 to 127
    characters, not for an area, access strings of up to 39, and no members set that its
    kind does not carry. So does every reply, about an entity of each kind with its list
    of parameters and counters, where numbers fit the bytes they are given, counters are
    of 1, 2 or 4 bytes and not above their maximum, and strings have up to 255
    characters, a node's name up to 127; and the reply to a loop. *)
Theorem nice_roundtrip {WS : WideShift} :
  (∀ r, request_ok r → ∃ bs, encode_request r = Ok bs ∧ bytes_ok bs ∧ parse_request bs = Ok r) ∧
  (∀ k r, reply_ok k r → ∃ bs, encode_reply r = Ok bs ∧ bytes_ok bs ∧ parse_reply bs k = Ok r) ∧
  (∀ r, loop_reply_ok r → ∃ bs, encode_reply r = Ok bs ∧ bytes_ok bs ∧ parse_loop bs = Ok r).
Proof. split; [exact request_back|]. split; [exact reply_back|exact loop_reply_back]. Qed.
Definition example_read : NiceRequest :=
  read_request fn_read false info_counters Entity.circuit (ReqEntity.make_wild Entity.circuit ReqEntity.known)
    (Some (str_text "ETH-0"), Some (ReqEntity.make_node 1025)).
Lemma nice_roundtrip_witness : ∃ bs, encode_request example_read = Ok bs ∧ @parse_request no_shift bs = Ok example_read.
Proof.
  destruct (proj1 (@nice_roundtrip no_shift) example_read) as (bs & E & _ & P).
  - apply (ok_read false info_counters (ReqEntity.make_wild Entity.circuit ReqEntity.known) (Some (str_text "ETH-0"), Some (ReqEntity.make_node 1025)));
      [by split|by repeat split|]. split; [done|]. split; [|done]. split; [done|]. left. by split.
  - exists bs. split; [exact E|exact P].
Defined.
