(* ===== verification/Connection.v ===== *)
(** One end of a logical link: [class Connection] of
    [include/decnet/nsp/nsp.h] and [src/nsp/nsp.cc].

    The members of the class are grouped in five records (the control part,
    the transmitting half of the data subchannel, flow and congestion control,
    the receiving half, and the other-data subchannel).  A member function is
    an action of [M]: it transforms the [world] of the link -- the connection,
    what it shares with other links to the same node, and the log of what it
    did to the outside -- and may throw, keeping the state it had reached.

    Session control is an interface ([SessionControl]): it answers each
    notification with a sequence of calls of the connection's own API, chosen
    from everything it can see.  No API call notifies it back, so the answer
    is run to its end where the code makes the virtual call. *)

From S2P Require Import Prelude Buffer Modulo Types Codec Layout Indexed NspPackets Float.
#[local] Open Scope Z_scope.

(** The largest payload of a data segment, the longest interrupt. *)
Definition MSS : Z := 576 - 13.
Definition MAX_INTERRUPT : Z := 16.

(** [enum DiscReason]. *)
Definition DISC_NORMAL : Z := 0.
Definition DISC_NO_LINK : Z := 41.
Definition DISC_COMPLETE : Z := 42.
Definition DISC_OBJ_FAIL : Z := 38.
Definition NO_RESOURCES : Z := 1.

(** The states, named after the functions that implement them. *)
Inductive cstate := S0 | CI | CD | CR | CC | RUN | DI | CL.

#[export] Instance cstate_eq_dec : EqDecision cstate.
Proof. solve_decision. Defined.

(** [Connection::TxEntry]; a transmission time of zero means not timed. *)
Record TxEntry := mkTx {
  seq : Z;
  segnum : Z;
  msgnum : Z;
  frame : Bytes;
  sent : bool;
  is_data : bool;
  txtime : Z;
}.

Definition with_sent (v : bool) (e : TxEntry) : TxEntry :=
  mkTx (seq e) (segnum e) (msgnum e) (frame e) v (is_data e) (txtime e).
Definition with_txtime (v : Z) (e : TxEntry) : TxEntry :=
  mkTx (seq e) (segnum e) (msgnum e) (frame e) (sent e) (is_data e) v.

(** What session control is told, and what it may do. *)
Inductive notice :=
| ConnectReceived (payload : Bytes)
| ConnectConfirmed (data : Bytes)
| ConnectRejected (reason : Z) (data : Bytes)
| DataReceived (data : Bytes)
| InterruptReceived (data : Bytes)
| RunState
| Disconnected (reason : Z) (data : Bytes).

Inductive api :=
| Accept (data : Bytes) (fcopt : Z)
| Reject (reason : Z) (data : Bytes)
| SendData (data : Bytes)
| Disconnect (reason : Z) (data : Bytes)
| SendInterrupt (data : Bytes).

(** What passes between a connection and the outside, in order: a frame handed
    to routing, a call of the API, a notification, [NSP::close_connection]. *)
Inductive effect :=
| Sent (frame : Bytes)
| Asked (a : api)
| Told (n : notice)
| Closed.

(** [struct NodeCounters] of the far node, by name. *)
Inductive ctr :=
| byt_rcv | byt_xmt | msg_rcv | msg_xmt | t_byt_rcv | t_byt_xmt
| t_msg_rcv | t_msg_xmt | con_rcv | con_xmt | timeouts | no_res_rcv.

#[export] Instance ctr_eq_dec : EqDecision ctr.
Proof. solve_decision. Defined.

Record ctl := Ctl {
  state : cstate;
  srcaddr : Z;
  dstaddr : Z;
  dest : Z;
  rphase : Z;
  cphase : Z;
  segsize : Z;
  timer : option double;
  timer_is_retransmit : bool;
  retries : Z;
}.

Definition with_state (v : cstate) (p : ctl) : ctl :=
  Ctl v (srcaddr p) (dstaddr p) (dest p) (rphase p) (cphase p) (segsize p) (timer p)
  (timer_is_retransmit p) (retries p).
Definition with_srcaddr (v : Z) (p : ctl) : ctl :=
  Ctl (state p) v (dstaddr p) (dest p) (rphase p) (cphase p) (segsize p) (timer p)
  (timer_is_retransmit p) (retries p).
Definition with_dstaddr (v : Z) (p : ctl) : ctl :=
  Ctl (state p) (srcaddr p) v (dest p) (rphase p) (cphase p) (segsize p) (timer p)
  (timer_is_retransmit p) (retries p).
Definition with_dest (v : Z) (p : ctl) : ctl :=
  Ctl (state p) (srcaddr p) (dstaddr p) v (rphase p) (cphase p) (segsize p) (timer p)
  (timer_is_retransmit p) (retries p).
Definition with_rphase (v : Z) (p : ctl) : ctl :=
  Ctl (state p) (srcaddr p) (dstaddr p) (dest p) v (cphase p) (segsize p) (timer p)
  (timer_is_retransmit p) (retries p).
Definition with_cphase (v : Z) (p : ctl) : ctl :=
  Ctl (state p) (srcaddr p) (dstaddr p) (dest p) (rphase p) v (segsize p) (timer p)
  (timer_is_retransmit p) (retries p).
Definition with_segsize (v : Z) (p : ctl) : ctl :=
  Ctl (state p) (srcaddr p) (dstaddr p) (dest p) (rphase p) (cphase p) v (timer p)
  (timer_is_retransmit p) (retries p).
Definition with_timer (v : option double) (p : ctl) : ctl :=
  Ctl (state p) (srcaddr p) (dstaddr p) (dest p) (rphase p) (cphase p) (segsize p) v
  (timer_is_retransmit p) (retries p).
Definition with_timer_is_retransmit (v : bool) (p : ctl) : ctl :=
  Ctl (state p) (srcaddr p) (dstaddr p) (dest p) (rphase p) (cphase p) (segsize p) (timer
  p) v (retries p).
Definition with_retries (v : Z) (p : ctl) : ctl :=
  Ctl (state p) (srcaddr p) (dstaddr p) (dest p) (rphase p) (cphase p) (segsize p) (timer
  p) (timer_is_retransmit p) v.

Record tx := Tx {
  next_send : Z;
  highest_acked : Z;
  txq : list TxEntry;
  next_segnum : Z;
  next_msgnum : Z;
  max_acked_seg : Z;
}.

Definition with_next_send (v : Z) (p : tx) : tx :=
  Tx v (highest_acked p) (txq p) (next_segnum p) (next_msgnum p) (max_acked_seg p).
Definition with_highest_acked (v : Z) (p : tx) : tx :=
  Tx (next_send p) v (txq p) (next_segnum p) (next_msgnum p) (max_acked_seg p).
Definition with_txq (v : list TxEntry) (p : tx) : tx :=
  Tx (next_send p) (highest_acked p) v (next_segnum p) (next_msgnum p) (max_acked_seg p).
Definition with_next_segnum (v : Z) (p : tx) : tx :=
  Tx (next_send p) (highest_acked p) (txq p) v (next_msgnum p) (max_acked_seg p).
Definition with_next_msgnum (v : Z) (p : tx) : tx :=
  Tx (next_send p) (highest_acked p) (txq p) (next_segnum p) v (max_acked_seg p).
Definition with_max_acked_seg (v : Z) (p : tx) : tx :=
  Tx (next_send p) (highest_acked p) (txq p) (next_segnum p) (next_msgnum p) v.

Record flowctl := Flow {
  flow : Z;
  max_seg : Z;
  max_msg : Z;
  xon : bool;
  qmax_ : Z;
  cwnd : double;
  ssthresh : double;
  nak_from : option Z;
}.

Definition with_flow (v : Z) (p : flowctl) : flowctl :=
  Flow v (max_seg p) (max_msg p) (xon p) (qmax_ p) (cwnd p) (ssthresh p) (nak_from p).
Definition with_max_seg (v : Z) (p : flowctl) : flowctl :=
  Flow (flow p) v (max_msg p) (xon p) (qmax_ p) (cwnd p) (ssthresh p) (nak_from p).
Definition with_max_msg (v : Z) (p : flowctl) : flowctl :=
  Flow (flow p) (max_seg p) v (xon p) (qmax_ p) (cwnd p) (ssthresh p) (nak_from p).
Definition with_xon (v : bool) (p : flowctl) : flowctl :=
  Flow (flow p) (max_seg p) (max_msg p) v (qmax_ p) (cwnd p) (ssthresh p) (nak_from p).
Definition with_qmax_ (v : Z) (p : flowctl) : flowctl :=
  Flow (flow p) (max_seg p) (max_msg p) (xon p) v (cwnd p) (ssthresh p) (nak_from p).
Definition with_cwnd (v : double) (p : flowctl) : flowctl :=
  Flow (flow p) (max_seg p) (max_msg p) (xon p) (qmax_ p) v (ssthresh p) (nak_from p).
Definition with_ssthresh (v : double) (p : flowctl) : flowctl :=
  Flow (flow p) (max_seg p) (max_msg p) (xon p) (qmax_ p) (cwnd p) v (nak_from p).
Definition with_nak_from (v : option Z) (p : flowctl) : flowctl :=
  Flow (flow p) (max_seg p) (max_msg p) (xon p) (qmax_ p) (cwnd p) (ssthresh p) v.

Record rx := Rx {
  next_expect : Z;
  ooo : gmap Z DataSeg.t;
  ackpending : bool;
  ack_timer : bool;
  assembly : Bytes;
  assembling : bool;
}.

Definition with_next_expect (v : Z) (p : rx) : rx :=
  Rx v (ooo p) (ackpending p) (ack_timer p) (assembly p) (assembling p).
Definition with_ooo (v : gmap Z DataSeg.t) (p : rx) : rx :=
  Rx (next_expect p) v (ackpending p) (ack_timer p) (assembly p) (assembling p).
Definition with_ackpending (v : bool) (p : rx) : rx :=
  Rx (next_expect p) (ooo p) v (ack_timer p) (assembly p) (assembling p).
Definition with_ack_timer (v : bool) (p : rx) : rx :=
  Rx (next_expect p) (ooo p) (ackpending p) v (assembly p) (assembling p).
Definition with_assembly (v : Bytes) (p : rx) : rx :=
  Rx (next_expect p) (ooo p) (ackpending p) (ack_timer p) v (assembling p).
Definition with_assembling (v : bool) (p : rx) : rx :=
  Rx (next_expect p) (ooo p) (ackpending p) (ack_timer p) (assembly p) v.

Record other := Other {
  int_next_send : Z;
  int_next_expect : Z;
  int_txq : list TxEntry;
  int_next_msg : Z;
  int_max_msg : Z;
}.

Definition with_int_next_send (v : Z) (p : other) : other :=
  Other v (int_next_expect p) (int_txq p) (int_next_msg p) (int_max_msg p).
Definition with_int_next_expect (v : Z) (p : other) : other :=
  Other (int_next_send p) v (int_txq p) (int_next_msg p) (int_max_msg p).
Definition with_int_txq (v : list TxEntry) (p : other) : other :=
  Other (int_next_send p) (int_next_expect p) v (int_next_msg p) (int_max_msg p).
Definition with_int_next_msg (v : Z) (p : other) : other :=
  Other (int_next_send p) (int_next_expect p) (int_txq p) v (int_max_msg p).
Definition with_int_max_msg (v : Z) (p : other) : other :=
  Other (int_next_send p) (int_next_expect p) (int_txq p) (int_next_msg p) v.

Record conn := Conn {
  c_ctl : ctl;
  c_tx : tx;
  c_flow : flowctl;
  c_rx : rx;
  c_other : other;
}.

Definition with_c_ctl (v : ctl) (p : conn) : conn :=
  Conn v (c_tx p) (c_flow p) (c_rx p) (c_other p).
Definition with_c_tx (v : tx) (p : conn) : conn :=
  Conn (c_ctl p) v (c_flow p) (c_rx p) (c_other p).
Definition with_c_flow (v : flowctl) (p : conn) : conn :=
  Conn (c_ctl p) (c_tx p) v (c_rx p) (c_other p).
Definition with_c_rx (v : rx) (p : conn) : conn :=
  Conn (c_ctl p) (c_tx p) (c_flow p) v (c_other p).
Definition with_c_other (v : other) (p : conn) : conn :=
  Conn (c_ctl p) (c_tx p) (c_flow p) (c_rx p) v.

Record world := World {
  cn : conn;
  delay : double;
  counters : ctr → Z;
  ticks : nat;
  log : list effect;
}.

Definition with_cn (v : conn) (p : world) : world :=
  World v (delay p) (counters p) (ticks p) (log p).
Definition with_delay (v : double) (p : world) : world :=
  World (cn p) v (counters p) (ticks p) (log p).
Definition with_counters (v : ctr → Z) (p : world) : world :=
  World (cn p) (delay p) v (ticks p) (log p).
Definition with_ticks (v : nat) (p : world) : world :=
  World (cn p) (delay p) (counters p) v (log p).
Definition with_log (v : list effect) (p : world) : world :=
  World (cn p) (delay p) (counters p) (ticks p) v.
(** ** The monad of the member functions *)

Definition M (A : Type) : Type := world → result A * world.

#[export] Instance M_ret : MRet M := λ A a w, (Ok a, w).
#[export] Instance M_bind : MBind M := λ A B f m w,
  match m w with (Ok a, w) => f a w | (Throw e, w) => (Throw e, w) end.

Notation "m ;; k" := (mbind (M:=M) (λ _, k) m)
  (at level 100, right associativity, only parsing) : decnet_scope.
#[local] Open Scope decnet_scope.

Definition lift {A} (r : result A) : M A := λ w, (r, w).
Definition gets {A} (f : world → A) : M A := λ w, (Ok (f w), w).
Definition modify (f : world → world) : M unit := λ w, (Ok tt, f w).
Definition when (b : bool) (m : M unit) : M unit := if b then m else mret tt.

(** Updates of one part of the connection. *)
Definition upd (f : conn → conn) : M unit := modify (λ w, with_cn (f (cn w)) w).
Definition upd_ctl (f : ctl → ctl) : M unit := upd (λ c, with_c_ctl (f (c_ctl c)) c).
Definition upd_tx (f : tx → tx) : M unit := upd (λ c, with_c_tx (f (c_tx c)) c).
Definition upd_flow (f : flowctl → flowctl) : M unit := upd (λ c, with_c_flow (f (c_flow c)) c).
Definition upd_rx (f : rx → rx) : M unit := upd (λ c, with_c_rx (f (c_rx c)) c).
Definition upd_other (f : other → other) : M unit := upd (λ c, with_c_other (f (c_other c)) c).

Definition w_ctl (w : world) : ctl := c_ctl (cn w).
Definition w_tx (w : world) : tx := c_tx (cn w).
Definition w_flow (w : world) : flowctl := c_flow (cn w).
Definition w_rx (w : world) : rx := c_rx (cn w).
Definition w_other (w : world) : other := c_other (cn w).

Definition emit (e : effect) : M unit := modify (λ w, with_log (log w ++ [e]) w).

(** [c->field += n], a 64 bit counter. *)
Definition count (k : ctr) (n : Z) : M unit :=
  modify (λ w, with_counters
    (λ k', if decide (k' = k) then u64 (counters w k + n) else counters w k') w).

(** ** What a connection reads from its layer

    The members of [NSP] taken from the configuration, the node's phase,
    whether routing has been started, and whether a node is a neighbour on a
    broadcast circuit, which [NSP::min_delay] asks routing. *)
Record config := Config {
  max_connections : Z;
  weight : Z;
  delay_factor : double;
  min_delay_ : double;
  lan_min_delay : double;
  retransmits : Z;
  nspver : Z;
  qmax : Z;
  phase : Z;
  has_routing : bool;
  on_lan : Z → bool;
}.

(** Session control: its answer to a notification. *)
Class SessionControl := on_notice : notice → world → list api.

(** [NSP::min_delay]. *)
Definition min_delay (cfg : config) (dst : Z) : double :=
  if feqb (lan_min_delay cfg) (min_delay_ cfg) || negb (has_routing cfg) then min_delay_ cfg
  else if on_lan cfg dst then lan_min_delay cfg else min_delay_ cfg.

(** The connection as its constructor leaves it. *)
Definition new_conn (cfg : config) (addr dst : Z) : conn :=
  Conn (Ctl S0 addr 0 dst 4 4 MSS None false 0)
       (Tx 1 0 [] 1 1 0)
       (Flow SVC_NONE 0 0 true (qmax cfg) f2 (f_of_Z (qmax cfg)) None)
       (Rx 1 ∅ false false [] false)
       (Other 1 1 [] 1 1).

Definition conn_timeout : double := f_of_Z 30.
Definition inact_time : double := f_of_Z 300.

(** [window ()]. *)
Definition window (c : conn) : Z :=
  let w := f_to_unsigned (cwnd (c_flow c)) in
  Z.max 1 (Z.min w (qmax_ (c_flow c))).

(** [running ()], [closed ()], [in_flight ()], [can_interrupt ()]. *)
Definition in_state (s : cstate) (c : conn) : bool := bool_decide (state (c_ctl c) = s).
Definition running (c : conn) : bool := in_state RUN c.
Definition closed (c : conn) : bool := in_state CL c.
Definition in_flight (q : list TxEntry) : Z := len (filter (λ e, sent e = true) q).
Definition can_interrupt (c : conn) : bool :=
  int_next_msg (c_other c) <=? int_max_msg (c_other c).

(** [interrupt_credit ()]. *)
Definition interrupt_credit (c : conn) : Z :=
  if int_next_msg (c_other c) <=? int_max_msg (c_other c)
  then u32 (int_max_msg (c_other c) - int_next_msg (c_other c) + 1) else 0.

(** [flow_ok]: the window is measured from the oldest unacknowledged entry. *)
Definition flow_ok (c : conn) (e : TxEntry) : bool :=
  if negb (is_data e) then true
  else if negb (xon (c_flow c)) then false
  else
    let w := window c in
    let maxq := match txq (c_tx c) with
                | [] => u32 (w - 1)
                | f :: _ => u32 (segnum f + w - 1)
                end in
    if maxq <? segnum e then false
    else if flow (c_flow c) =? SVC_SEG then segnum e <=? max_seg (c_flow c)
    else if flow (c_flow c) =? SVC_MSG then msgnum e <=? max_msg (c_flow c)
    else true.

Section Connection.
Context (cfg : config) (clock : nat → Z) `{SC : SessionControl}.

(** [steady_clock::now ()], in nanoseconds: one reading of the clock. *)
Definition now : M Z := λ w, (Ok (clock (ticks w)), with_ticks (S (ticks w)) w).

(** [set_state]: an empty state means no change. *)
Definition set_state (s : option cstate) : M unit :=
  match s with None => mret tt | Some s => upd_ctl (with_state s) end.

Definition arm_timer (seconds : double) : M unit := upd_ctl (with_timer (Some seconds)).
Definition stop_timer : M unit := upd_ctl (with_timer None).

(** [NSP::send_to], and [send]. *)
Definition send_to (f : Bytes) : M unit :=
  if has_routing cfg then
    count t_byt_xmt (len f);; count t_msg_xmt 1;; emit (Sent f)
  else mret tt.
Definition send (p : NspPacket) : M unit :=
  f ← lift (encode_packet p); send_to f.

(** [set_phase]. *)
Definition set_phase (info : Z) : M unit :=
  let r := phase_of_version (Z.land info 3) in
  upd_ctl (with_rphase r);; upd_ctl (with_cphase (Z.min r (phase cfg))).

Definition ACK_HOLDOFF : double := fdiv f1 (f_of_Z 10).

Definition stop_ack_holdoff : M unit :=
  upd_rx (with_ackpending false);; upd_rx (with_ack_timer false).

(** What we acknowledge: everything before the segment expected next. *)
Definition last_in_order (r : rx) : Z := mod_sub SeqM (next_expect r) 1.

Definition send_ack : M unit :=
  stop_ack_holdoff;;
  w ← gets id;
  send (PAckData (AckData.mk AckData.flag (dstaddr (w_ctl w)) (srcaddr (w_ctl w))
                    (Some (mkAck (last_in_order (w_rx w)) ACKQ)) None)).

Definition delay_ack : M unit :=
  upd_rx (with_ackpending true);; upd_rx (with_ack_timer true).

Definition ack_holdoff : M unit :=
  w ← gets id; if ackpending (w_rx w) then send_ack else mret tt.

(** ** Round trip times *)

Definition acktimeout (w : world) : double :=
  if fleb (delay w) f0 then f2 else fmul (delay w) (delay_factor cfg).

Definition update_delay (t0 : Z) : M unit :=
  if t0 =? 0 then mret tt
  else
    t1 ← now;
    w ← gets id;
    let delta := fdiv (f_of_Z (t1 - t0)) (f_of_Z 1000000000) in
    let floor := min_delay cfg (dest (w_ctl w)) in
    let delta := if fltb delta floor then floor else delta in
    let d := if fltb f0 (delay w)
             then fadd (delay w) (fdiv (fsub delta (delay w)) (f_of_Z (u32 (weight cfg + 1))))
             else delta in
    modify (with_delay (if fltb (f_of_Z 5) d then f_of_Z 5 else d)).

(** ** Sending *)

(** The loop of [send_blocked]: [timing] is whether some entry is timed,
    [any] whether something has been sent. *)
Fixpoint send_loop (q : list TxEntry) (timing any : bool) : M (list TxEntry * bool) :=
  match q with
  | [] => mret ([], any)
  | e :: q =>
      if sent e then '(q, any) ← send_loop q timing any; mret (e :: q, any)
      else
        w ← gets id;
        if negb (flow_ok (cn w) e) then mret (e :: q, any)
        else
          send_to (frame e);;
          t ← (if timing then mret (txtime e) else now);
          '(q, any) ← send_loop q true true;
          mret (with_txtime t (with_sent true e) :: q, any)
  end.

Definition send_blocked : M unit :=
  w ← gets id;
  let q := txq (w_tx w) in
  let timing := existsb (λ e, negb (txtime e =? 0)) q in
  '(q, any) ← send_loop q timing false;
  upd_tx (with_txq q);;
  if any : bool then
    upd_ctl (with_retries 0);; upd_ctl (with_timer_is_retransmit true);;
    w ← gets id; arm_timer (acktimeout w)
  else mret tt.

(** The first segment of the rest of a message, and the segments in turn:
    the [do ... while] of [send_segments] with what is left of the data. *)
Definition segment_step (rest : Bytes) (first : bool) : M Bytes :=
  w ← gets id;
  let limit := if segsize (w_ctl w) =? 0 then MSS else segsize (w_ctl w) in
  let n := Z.min limit (len rest) in
  let last := len rest <=? n in
  let flags := Z.lor (Z.lor DataSeg.flag (if first then 32 else 0)) (if last then 64 else 0) in
  let seg := DataSeg.mk flags (dstaddr (w_ctl w)) (srcaddr (w_ctl w))
               (Some (mkAck (last_in_order (w_rx w)) ACKQ)) None
               (next_send (w_tx w)) false (take (Z.to_nat n) rest) in
  frm ← lift (encode_packet (PDataSeg seg));
  let e := mkTx (next_send (w_tx w)) (next_segnum (w_tx w)) (next_msgnum (w_tx w))
             frm false true 0 in
  upd_tx (λ t, with_next_segnum (u32 (next_segnum t + 1)) (with_txq (txq t ++ [e]) t));;
  (if last then upd_tx (λ t, with_next_msgnum (u32 (next_msgnum t + 1)) t) else mret tt);;
  upd_tx (λ t, with_next_send (mod_incr SeqM (next_send t)) t);;
  mret (drop (Z.to_nat n) rest).

Fixpoint segment_loop (fuel : nat) (rest : Bytes) (first : bool) : M unit :=
  match fuel with
  | O => mret tt
  | S fuel =>
      rest ← segment_step rest first;
      match rest with [] => mret tt | _ => segment_loop fuel rest false end
  end.

(** Every round takes at least one byte of a message that has any left. *)
Definition send_segments (data : Bytes) : M unit :=
  segment_loop (S (length data)) data true;; send_blocked.

(** ** Acknowledgements *)

(** The loop of [process_ack]: was there progress, and how many data
    segments were acknowledged. *)
Fixpoint ack_loop (n : Z) (q : list TxEntry) (progress : bool) (acked : Z) : M (bool * Z) :=
  match q with
  | [] => mret (progress, acked)
  | e :: q =>
      if sent e && negb (mod_lt SeqM n (seq e)) then
        upd_tx (with_max_acked_seg (segnum e));;
        update_delay (txtime e);;
        upd_tx (with_txq q);;
        ack_loop n q true (if is_data e then acked + 1 else acked)
      else mret (progress, acked)
  end.

Definition open_window (f : flowctl) : flowctl :=
  with_cwnd (if fltb (cwnd f) (ssthresh f) then fadd (cwnd f) f1
             else fadd (cwnd f) (fdiv f1 (cwnd f))) f.

Definition process_ack (n : Z) : M unit :=
  w ← gets id;
  '(progress, acked) ← ack_loop n (txq (w_tx w)) false 0;
  upd_flow (Nat.iter (Z.to_nat acked) open_window);;
  upd_flow (λ f, with_cwnd (fmin (cwnd f) (f_of_Z (qmax_ f))) f);;
  upd_tx (with_highest_acked n);;
  w ← gets id;
  (if progress : bool then
     upd_flow (with_nak_from None);;
     upd_ctl (with_retries 0);;
     (if 0 <? in_flight (txq (w_tx w)) then
        upd_ctl (with_timer_is_retransmit true);; arm_timer (acktimeout w)
      else if timer_is_retransmit (w_ctl w) then stop_timer else mret tt)
   else if bool_decide (txq (w_tx w) = []) && timer_is_retransmit (w_ctl w) then stop_timer
   else mret tt);;
  send_blocked.

Definition process_nak : M unit :=
  w ← gets id;
  match txq (w_tx w) with
  | [] => mret tt
  | f :: _ =>
      if negb (sent f) || bool_decide (nak_from (w_flow w) = Some (seq f)) then mret tt
      else
        let half := fmax f2 (fdiv (f_of_Z (in_flight (txq (w_tx w)))) f2) in
        upd_flow (λ fl, with_cwnd half (with_ssthresh half (with_nak_from (Some (seq f)) fl)));;
        upd_tx (λ t, with_txq (map (λ e, if negb (sent e) || negb (is_data e) then e
                                         else with_txtime 0 (with_sent false e)) (txq t)) t);;
        send_blocked
  end.

Fixpoint int_acked (n : Z) (q : list TxEntry) : list TxEntry :=
  match q with
  | [] => []
  | e :: q' => if sent e && negb (mod_lt SeqM n (seq e)) then int_acked n q' else q
  end.
Definition process_int_ack (n : Z) : M unit :=
  upd_other (λ o, with_int_txq (int_acked n (int_txq o)) o).

Definition route_ack (a : option AckNum) (on_data : bool) : M unit :=
  match a with
  | None => mret tt
  | Some a =>
      let for_data := if is_cross a then negb on_data else on_data in
      if for_data : bool then
        process_ack (num a);; if is_nak a then process_nak else mret tt
      else process_int_ack (num a)
  end.

(** ** Closing *)

(** Telling session control [n], and running what it answers. *)
Definition ack_other (n : Z) : M unit :=
  w ← gets id;
  send (PAckOther (AckOther.mk AckOther.flag (dstaddr (w_ctl w)) (srcaddr (w_ctl w))
                     (Some (mkAck n ACKQ)) None)).

Definition disc_init (reason : Z) (data : Bytes) : M unit :=
  w ← gets id;
  send (PDiscInit (DiscInit.mk DiscInit.flag (dstaddr (w_ctl w)) (srcaddr (w_ctl w))
                     (u16 reason) data)).
Definition disc_conf (reason : Z) : M unit :=
  w ← gets id;
  send (PDiscConf (DiscConf.mk DiscConf.flag (dstaddr (w_ctl w)) (srcaddr (w_ctl w)) reason)).
Definition ack_conn : M unit :=
  w ← gets id; send (PAckConn (AckConn.mk AckConn.flag (dstaddr (w_ctl w)) [])).

(** [close (...)] without telling session control, which is how [reject]
    calls it: the part of [close] before and after the notification. *)
Definition clear_queues : M unit :=
  stop_timer;; stop_ack_holdoff;; upd_tx (with_txq []);; upd_other (with_int_txq []);;
  upd_rx (with_ooo ∅).
Definition close_quietly : M (option cstate) :=
  clear_queues;; emit Closed;; mret (Some CL).

(** ** The session control API *)

Definition accept (data : Bytes) (fcopt : Z) : M unit :=
  w ← gets id;
  if negb (in_state CR (cn w)) then mret tt
  else
    let p := PConnConf (ConnConf.mk ConnConf.flag (dstaddr (w_ctl w)) (srcaddr (w_ctl w))
                          1 fcopt 0 (nspver cfg) MSS data) in
    set_state (Some CC);;
    frm ← lift (encode_packet p);
    upd_tx (λ t, with_txq (txq t ++ [mkTx 0 0 0 frm true false 0]) t);;
    send p;;
    upd_ctl (with_retries 0);; upd_ctl (with_timer_is_retransmit true);;
    w ← gets id; arm_timer (acktimeout w).

Definition reject (reason : Z) (data : Bytes) : M unit :=
  disc_init reason data;; s ← close_quietly; set_state s.

Definition disconnect (reason : Z) (data : Bytes) : M unit :=
  w ← gets id;
  if closed (cn w) then mret tt
  else
    disc_init reason data;; set_state (Some DI);;
    upd_ctl (with_timer_is_retransmit false);; arm_timer conn_timeout.

Definition send_data (data : Bytes) : M unit :=
  w ← gets id;
  if negb (running (cn w)) then mret tt
  else count byt_xmt (len data);; count msg_xmt 1;; send_segments data.

Definition send_interrupt (data : Bytes) : M bool :=
  w ← gets id;
  if negb (running (cn w)) || (MAX_INTERRUPT <? len data) || negb (can_interrupt (cn w))
  then mret false
  else
    let o := w_other w in
    let m := IntMsg.mk IntMsg.flag (dstaddr (w_ctl w)) (srcaddr (w_ctl w)) None
               (Some (mkAck (last_in_order (w_rx w)) XACK)) (int_next_send o) data in
    frm ← lift (encode_packet (PIntMsg m));
    upd_other (λ o, with_int_txq
      (int_txq o ++ [mkTx (int_next_send o) 0 (int_next_msg o) frm true false 0]) o);;
    send_to frm;;
    upd_other (λ o, with_int_next_send (mod_incr SeqM (int_next_send o))
                      (with_int_next_msg (u32 (int_next_msg o + 1)) o));;
    mret true.

Definition call (a : api) : M unit :=
  emit (Asked a);;
  match a with
  | Accept data fcopt => accept data fcopt
  | Reject reason data => reject reason data
  | SendData data => send_data data
  | Disconnect reason data => disconnect reason data
  | SendInterrupt data => _ ← send_interrupt data; mret tt
  end.

Fixpoint calls (l : list api) : M unit :=
  match l with [] => mret tt | a :: l => call a;; calls l end.

Definition notify (n : notice) : M unit :=
  emit (Told n);; w ← gets id; calls (on_notice n w).

Definition close (reason : Z) (data : Bytes) (tell_session : bool) : M (option cstate) :=
  clear_queues;;
  (if tell_session then notify (Disconnected reason data) else mret tt);;
  emit Closed;; mret (Some CL).

(** ** Opening *)

Definition start_outbound (payload : Bytes) : M unit :=
  count con_xmt 1;;
  w ← gets id;
  let p := PConnInit (ConnInit.mk ConnInit.flag 0 (srcaddr (w_ctl w)) 1 SVC_NONE 0
                        (nspver cfg) MSS payload) in
  set_state (Some CI);;
  frm ← lift (encode_packet p);
  t ← now;
  upd_tx (λ x, with_txq (txq x ++ [mkTx 0 0 0 frm true false t]) x);;
  send p;;
  upd_ctl (with_retries 0);; upd_ctl (with_timer_is_retransmit true);;
  w ← gets id; arm_timer (acktimeout w).

Definition start_inbound (p : ConnInit.t) : M unit :=
  count con_rcv 1;;
  upd_ctl (with_dstaddr (ConnInit.srcaddr p));;
  set_phase (ConnInit.info p);;
  upd_ctl (with_segsize (Z.min (ConnInit.segsize p) MSS));;
  upd_flow (with_flow (ConnInit.fcopt p));;
  w ← gets id;
  when (2 <? cphase (w_ctl w)) ack_conn;;
  set_state (Some CR);;
  upd_ctl (with_timer_is_retransmit false);;
  arm_timer conn_timeout;;
  notify (ConnectReceived (ConnInit.payload p)).

(** ** Receiving *)

Definition accept_segment (seg : DataSeg.t) : M unit :=
  when (DataSeg.bom seg) (upd_rx (λ r, with_assembling true (with_assembly [] r)));;
  w ← gets id;
  if negb (assembling (w_rx w)) then mret tt
  else
    upd_rx (λ r, with_assembly (assembly r ++ DataSeg.payload seg) r);;
    when (DataSeg.eom seg)
      (upd_rx (with_assembling false);;
       w ← gets id;
       count byt_rcv (len (assembly (w_rx w)));; count msg_rcv 1;;
       notify (DataReceived (assembly (w_rx w)));;
       upd_rx (with_assembly [])).

Definition next_segment : M unit :=
  upd_rx (λ r, with_next_expect (mod_incr SeqM (next_expect r)) r).

(** The segments held that now follow on. *)
Fixpoint drain (fuel : nat) : M unit :=
  match fuel with
  | O => mret tt
  | S fuel =>
      w ← gets id;
      match ooo (w_rx w) !! next_expect (w_rx w) with
      | None => mret tt
      | Some held =>
          upd_rx (λ r, with_ooo (delete (next_expect r) (ooo r)) r);;
          accept_segment held;; next_segment;; drain fuel
      end
  end.

(** What happens to the segment itself, once its acknowledgements have been
    taken. *)
Definition take_segment (seg : DataSeg.t) : M unit :=
  w ← gets id;
  let got := DataSeg.segnum seg in
  if mod_lt SeqM got (next_expect (w_rx w)) then send_ack
  else if negb (got =? next_expect (w_rx w)) then
    when (Z.of_nat (size (ooo (w_rx w))) <? qmax_ (w_flow w))
      (upd_rx (λ r, with_ooo (match ooo r !! got with
                              | Some _ => ooo r
                              | None => <[got := seg]> (ooo r)
                              end) r));;
    send_ack
  else
    accept_segment seg;; next_segment;;
    w ← gets id; drain (S (size (ooo (w_rx w))));;
    w ← gets id;
    if DataSeg.dly seg && (4 <=? cphase (w_ctl w)) && running (cn w) then delay_ack
    else send_ack.

Definition handle_data (seg : DataSeg.t) : M unit :=
  route_ack (DataSeg.acknum seg) true;; route_ack (DataSeg.acknum2 seg) true;;
  take_segment seg.

Definition handle_interrupt (m : IntMsg.t) : M unit :=
  w ← gets id;
  let got := IntMsg.segnum m in
  if mod_lt SeqM got (int_next_expect (w_other w)) then
    ack_other (mod_sub SeqM (int_next_expect (w_other w)) 1)
  else
    upd_other (with_int_next_expect (mod_add SeqM got 1));;
    ack_other got;;
    count byt_rcv (len (IntMsg.payload m));; count msg_rcv 1;;
    notify (InterruptReceived (IntMsg.payload m)).

(** The credit a link service message grants or takes back, and whether the
    message goes on to the flow control modifier. *)
Definition data_credit (delta : Z) : M bool :=
  w ← gets id;
  let f := w_flow w in
  if flow f =? SVC_MSG then
    if (0 <=? delta) && (max_msg f + delta <? max_acked_seg (w_tx w) + 128) then
      upd_flow (with_max_msg (u32 (max_msg f + delta)));; mret true
    else mret false
  else if flow f =? SVC_SEG then
    let want := max_seg f + delta in
    if (max_acked_seg (w_tx w) <=? want) && (want <? max_acked_seg (w_tx w) + 128) then
      upd_flow (with_max_seg (u32 want));; mret true
    else mret false
  else mret true.

Definition apply_link_service (ls : LinkSvcMsg.t) : M unit :=
  if LinkSvcMsg.fcval_int ls =? 1 then
    if LinkSvcMsg.fcval ls <? 0 then mret tt
    else upd_other (λ o, with_int_max_msg (u32 (int_max_msg o + LinkSvcMsg.fcval ls)) o)
  else if negb (LinkSvcMsg.fcval_int ls =? 0) then mret tt
  else
    ok ← data_credit (LinkSvcMsg.fcval ls);
    if negb ok then mret tt
    else
      when (negb (LinkSvcMsg.fcmod ls =? 0))
        (upd_flow (with_xon (LinkSvcMsg.fcmod ls =? 2)));;
      send_blocked.

Definition handle_link_service (ls : LinkSvcMsg.t) : M unit :=
  if negb (LinkSvcMsg.valid ls) then mret tt
  else
    route_ack (LinkSvcMsg.acknum ls) false;; route_ack (LinkSvcMsg.acknum2 ls) false;;
    w ← gets id;
    let got := LinkSvcMsg.segnum ls in
    if mod_lt SeqM got (int_next_expect (w_other w)) then
      ack_other (mod_sub SeqM (int_next_expect (w_other w)) 1)
    else
      upd_other (with_int_next_expect (mod_add SeqM got 1));;
      ack_other got;;
      apply_link_service ls.

(** ** Retransmission *)

(** The loop of [retransmit]: the oldest goes now, the rest wait for the
    window. *)
Fixpoint resend (q : list TxEntry) (first : bool) : M (list TxEntry) :=
  match q with
  | [] => mret []
  | e :: q =>
      if negb (sent e) then q ← resend q first; mret (e :: q)
      else
        let e := with_txtime 0 e in
        if first then send_to (frame e);; q ← resend q false; mret (e :: q)
        else q ← resend q first; mret ((if is_data e then with_sent false e else e) :: q)
  end.

(** Exponential backoff: [n] is how many doublings are due. *)
Fixpoint backoff (n : nat) (t : double) : double :=
  match n with
  | O => t
  | S n => if fltb t (f_of_Z 30) then backoff n (fmul t f2) else t
  end.

Definition retransmit : M unit :=
  w ← gets id;
  let n := in_flight (txq (w_tx w)) in
  if n =? 0 then mret tt
  else
    count timeouts 1;;
    upd_ctl (λ c, with_retries (u32 (retries c + 1)) c);;
    w ← gets id;
    if retransmits cfg <? retries (w_ctl w) then
      s ← close DISC_NO_LINK [] true; set_state s
    else
      upd_flow (λ f, with_cwnd f1 (with_ssthresh (fmax f2 (fdiv (f_of_Z n) f2)) f));;
      q ← resend (txq (w_tx w)) true;
      upd_tx (with_txq q);;
      upd_ctl (with_timer_is_retransmit true);;
      w ← gets id;
      let t := backoff (Z.to_nat (retries (w_ctl w) - 1)) (acktimeout w) in
      arm_timer (if fltb (f_of_Z 30) t then f_of_Z 30 else t).

(** ** The states

    A state looks at the packet received, or at a timeout when there is
    none, and answers with the next state or with no change. *)

Definition st_run (p : option NspPacket) : M (option cstate) :=
  match p with
  | None => send_ack;; arm_timer inact_time;; mret None
  | Some p =>
      w ← gets id;
      when ((2 <? cphase (w_ctl w)) && negb (timer_is_retransmit (w_ctl w)))
        (arm_timer inact_time);;
      match p with
      | PDataSeg seg => handle_data seg;; mret None
      | PAckData a => route_ack (AckData.acknum a) true;;
                      route_ack (AckData.acknum2 a) true;; mret None
      | PAckOther a => route_ack (AckOther.acknum a) false;;
                       route_ack (AckOther.acknum2 a) false;; mret None
      | PLinkSvcMsg ls => handle_link_service ls;; mret None
      | PIntMsg m => handle_interrupt m;; mret None
      | PDiscInit d => disc_conf DISC_COMPLETE;;
                       close (DiscInit.reason d) (DiscInit.data_ctl d) true
      | PDiscConf _ => close DISC_NORMAL [] true
      | _ => mret None
      end
  end.

Definition st_cd (p : option NspPacket) : M (option cstate) :=
  match p with
  | None => close DISC_OBJ_FAIL [] true
  | Some (PConnConf c) =>
      upd_ctl (with_dstaddr (ConnConf.srcaddr c));;
      set_phase (ConnConf.info c);;
      upd_ctl (with_segsize (Z.min (ConnConf.segsize c) MSS));;
      upd_flow (with_flow (ConnConf.fcopt c));;
      process_ack 0;;
      w ← gets id;
      when (2 <? cphase (w_ctl w)) send_ack;;
      arm_timer inact_time;;
      upd_ctl (with_timer_is_retransmit false);;
      set_state (Some RUN);;
      notify (ConnectConfirmed (ConnConf.data_ctl c));;
      mret (Some RUN)
  | Some (PDiscInit d) =>
      upd_ctl (with_dstaddr (DiscInit.srcaddr d));;
      disc_conf DISC_COMPLETE;;
      notify (ConnectRejected (DiscInit.reason d) (DiscInit.data_ctl d));;
      close (DiscInit.reason d) [] false
  | Some (PDiscConf d) =>
      when (DiscConf.reason d =? NO_RESOURCES) (count no_res_rcv 1);;
      notify (ConnectRejected (DiscConf.reason d) []);;
      close (DiscConf.reason d) [] false
  | Some _ => mret None
  end.

Definition st_ci (p : option NspPacket) : M (option cstate) :=
  match p with
  | None => close DISC_OBJ_FAIL [] true
  | Some (PAckConn _) =>
      process_ack 0;; arm_timer conn_timeout;;
      upd_ctl (with_timer_is_retransmit false);; mret (Some CD)
  | Some p => st_cd (Some p)
  end.

Definition st_cr (p : option NspPacket) : M (option cstate) :=
  match p with
  | None => reject DISC_OBJ_FAIL [];; mret None
  | Some (PConnInit _) =>
      w ← gets id; when (2 <? cphase (w_ctl w)) ack_conn;; mret None
  | Some _ => mret None
  end.

Definition st_cc (p : option NspPacket) : M (option cstate) :=
  match p with
  | None => close DISC_OBJ_FAIL [] true
  | Some (PDataSeg _ | PAckData _ | PIntMsg _ | PLinkSvcMsg _ | PAckOther _) =>
      process_ack 0;; set_state (Some RUN);; notify RunState;; st_run p
  | Some (PDiscInit d) =>
      disc_conf DISC_COMPLETE;;
      close (DiscInit.reason d) (DiscInit.data_ctl d) true
  | Some _ => mret None
  end.

Definition st_di (p : option NspPacket) : M (option cstate) :=
  match p with
  | None | Some (PDiscConf _ | PDiscInit _) => close DISC_NORMAL [] true
  | Some _ => mret None
  end.

(** [StateMachine::dispatch]. *)
Definition dispatch (p : option NspPacket) : M unit :=
  w ← gets id;
  s ← (match state (w_ctl w) with
       | S0 | CL => mret None
       | CI => st_ci p | CD => st_cd p | CR => st_cr p | CC => st_cc p
       | RUN => st_run p | DI => st_di p
       end);
  set_state s.

Definition receive (p : NspPacket) : M unit := dispatch (Some p).

(** The timer wheel unlinks a timer before it delivers its expiry. *)
Definition timeout : M unit :=
  stop_timer;;
  w ← gets id;
  if timer_is_retransmit (w_ctl w) then retransmit else dispatch None.
Definition ack_timeout : M unit := upd_rx (with_ack_timer false);; ack_holdoff.
End Connection.
