(* ===== verification/SessionPackets.v ===== *)
(** Session control messages: [include/decnet/session/packets.h] and
    [src/session/packets.cc].  The connect message is the payload of an NSP
    connect initiate. *)

From S2P Require Import Prelude Buffer Types Codec Layout.
#[local] Open Scope Z_scope.

(** [enum Reason]. *)
Definition NO_OBJ : Z := 4.
Definition BAD_FMT : Z := 5.
Definition OBJ_FAIL : Z := 38.

(** ** End users *)

Inductive Format := by_number | by_name | by_uic.
#[export] Instance Format_eq_dec : EqDecision Format.
Proof. solve_decision. Defined.
Record EndUser := mkEndUser { fmt : Format; num : Z; name : text; group : Z; user : Z }.
#[export] Instance EndUser_eq_dec : EqDecision EndUser.
Proof. solve_decision. Defined.
(** The default constructor, [EndUser::number] and [EndUser::named]. *)
Definition no_user : EndUser := mkEndUser by_number 0 [] 0 0.
Definition number (n : Z) : EndUser := mkEndUser by_number n [] 0 0.
Definition named (n : text) : EndUser := mkEndUser by_name 0 n 0 0.

Definition valid (e : EndUser) : bool :=
  match fmt e with
  | by_number => negb (num e =? 0)
  | _ => negb (bool_decide (name e = [])) && (len (name e) <=? 16)
  end.
(** [EndUser::str]. *)
Definition user_str (e : EndUser) : text :=
  match fmt e with
  | by_number => print_uint (num e)
  | by_name => name e
  | by_uic => ["["%char] ++ print_uint (group e) ++ [","%char] ++ print_uint (user e) ++ ["]"%char] ++ name e
  end.

Definition format_code (f : Format) : Z := match f with by_number => 0 | by_name => 1 | by_uic => 2 end.
Definition has_name (f : Format) : bool := match f with by_number => false | _ => true end.
Definition has_uic (f : Format) : bool := match f with by_uic => true | _ => false end.

(** [EndUserField]. *)
Definition user_encode (e : EndUser) : result Bytes :=
  let uic := if has_uic (fmt e) then Encoder.uint (group e) 2 ++ Encoder.uint (user e) 2 else [] in
  n ← (if has_name (fmt e) then
         if 16 <? len (name e) then Throw FieldOverflow
         else Ok (Encoder.byte (len (name e)) ++ Encoder.raw (as_bytes (name e)))
       else Ok []);
  Ok (Encoder.byte (format_code (fmt e)) ++ Encoder.byte (num e) ++ uic ++ n).
Definition format_of (f : Z) : result Format :=
  if 2 <? f then Throw DecodeError else Ok (if f =? 0 then by_number else if f =? 1 then by_name else by_uic).
Definition user_decode : dec EndUser := λ d,
  '(f, d) ← Decoder.byte d;
  f ← format_of f;
  '(n, d) ← Decoder.byte d;
  '(g, u, d) ← (if has_uic f then
                  '(g, d) ← Decoder.uint 2 d; '(u, d) ← Decoder.uint 2 d; Ok (u16 g, u16 u, d)
                else Ok (0, 0, d));
  '(s, d) ← (if has_name f then
               '(k, d) ← Decoder.byte d;
               if 16 <? k then Throw FieldOverflow
               else '(b, d) ← Decoder.raw (Z.to_nat k) d; Ok (of_bytes b, d)
             else Ok ([], d));
  let e := mkEndUser f n s g u in
  if valid e then Ok (e, d) else Throw DecodeError.
Definition EndUserField : codec EndUser := Codec user_encode user_decode.

(** ** The connect message *)

Record ConnectData := mkConnectData {
  dstname : EndUser;
  srcname : EndUser;
  auth : bool;
  userdata : bool;
  proxy : bool;
  proxy_uic : bool;
  reserved_ : bool;
  scver : Z;
  mbz2 : bool;
  payload : Bytes;
  rqstrid : text;
  passwrd : text;
  account : text;
  connectdata : Bytes;
}.

Definition set_dstname (v : EndUser) (p : ConnectData) : ConnectData :=
  mkConnectData v (srcname p) (auth p) (userdata p) (proxy p) (proxy_uic p) (reserved_ p)
  (scver p) (mbz2 p) (payload p) (rqstrid p) (passwrd p) (account p) (connectdata p).
Definition set_srcname (v : EndUser) (p : ConnectData) : ConnectData :=
  mkConnectData (dstname p) v (auth p) (userdata p) (proxy p) (proxy_uic p) (reserved_ p)
  (scver p) (mbz2 p) (payload p) (rqstrid p) (passwrd p) (account p) (connectdata p).
Definition set_auth (v : bool) (p : ConnectData) : ConnectData :=
  mkConnectData (dstname p) (srcname p) v (userdata p) (proxy p) (proxy_uic p) (reserved_
  p) (scver p) (mbz2 p) (payload p) (rqstrid p) (passwrd p) (account p) (connectdata p).
Definition set_userdata (v : bool) (p : ConnectData) : ConnectData :=
  mkConnectData (dstname p) (srcname p) (auth p) v (proxy p) (proxy_uic p) (reserved_ p)
  (scver p) (mbz2 p) (payload p) (rqstrid p) (passwrd p) (account p) (connectdata p).
Definition set_proxy (v : bool) (p : ConnectData) : ConnectData :=
  mkConnectData (dstname p) (srcname p) (auth p) (userdata p) v (proxy_uic p) (reserved_
  p) (scver p) (mbz2 p) (payload p) (rqstrid p) (passwrd p) (account p) (connectdata p).
Definition set_proxy_uic (v : bool) (p : ConnectData) : ConnectData :=
  mkConnectData (dstname p) (srcname p) (auth p) (userdata p) (proxy p) v (reserved_ p)
  (scver p) (mbz2 p) (payload p) (rqstrid p) (passwrd p) (account p) (connectdata p).
Definition set_reserved_ (v : bool) (p : ConnectData) : ConnectData :=
  mkConnectData (dstname p) (srcname p) (auth p) (userdata p) (proxy p) (proxy_uic p) v
  (scver p) (mbz2 p) (payload p) (rqstrid p) (passwrd p) (account p) (connectdata p).
Definition set_scver (v : Z) (p : ConnectData) : ConnectData :=
  mkConnectData (dstname p) (srcname p) (auth p) (userdata p) (proxy p) (proxy_uic p)
  (reserved_ p) v (mbz2 p) (payload p) (rqstrid p) (passwrd p) (account p) (connectdata
  p).
Definition set_mbz2 (v : bool) (p : ConnectData) : ConnectData :=
  mkConnectData (dstname p) (srcname p) (auth p) (userdata p) (proxy p) (proxy_uic p)
  (reserved_ p) (scver p) v (payload p) (rqstrid p) (passwrd p) (account p) (connectdata
  p).
Definition set_payload (v : Bytes) (p : ConnectData) : ConnectData :=
  mkConnectData (dstname p) (srcname p) (auth p) (userdata p) (proxy p) (proxy_uic p)
  (reserved_ p) (scver p) (mbz2 p) v (rqstrid p) (passwrd p) (account p) (connectdata p).
Definition set_rqstrid (v : text) (p : ConnectData) : ConnectData :=
  mkConnectData (dstname p) (srcname p) (auth p) (userdata p) (proxy p) (proxy_uic p)
  (reserved_ p) (scver p) (mbz2 p) (payload p) v (passwrd p) (account p) (connectdata p).
Definition set_passwrd (v : text) (p : ConnectData) : ConnectData :=
  mkConnectData (dstname p) (srcname p) (auth p) (userdata p) (proxy p) (proxy_uic p)
  (reserved_ p) (scver p) (mbz2 p) (payload p) (rqstrid p) v (account p) (connectdata p).
Definition set_account (v : text) (p : ConnectData) : ConnectData :=
  mkConnectData (dstname p) (srcname p) (auth p) (userdata p) (proxy p) (proxy_uic p)
  (reserved_ p) (scver p) (mbz2 p) (payload p) (rqstrid p) (passwrd p) v (connectdata p).
Definition set_connectdata (v : Bytes) (p : ConnectData) : ConnectData :=
  mkConnectData (dstname p) (srcname p) (auth p) (userdata p) (proxy p) (proxy_uic p)
  (reserved_ p) (scver p) (mbz2 p) (payload p) (rqstrid p) (passwrd p) (account p) v.

(** The strings at once, and what encoding sets. *)
Definition with_strings (a b e : text) (p : ConnectData) : ConnectData :=
  mkConnectData (dstname p) (srcname p) (auth p) (userdata p) (proxy p) (proxy_uic p) (reserved_ p) (scver p) (mbz2 p)
  (payload p) a b e (connectdata p).
Definition with_payload (a u : bool) (b : Bytes) (p : ConnectData) : ConnectData :=
  mkConnectData (dstname p) (srcname p) a u (proxy p) (proxy_uic p) (reserved_ p) (scver p) (mbz2 p)
  b (rqstrid p) (passwrd p) (account p) (connectdata p).

(** The default constructor. *)
Definition new_connect : ConnectData :=
  mkConnectData no_user no_user false false false false false 0 false [] [] [] [] [].
Definition connect_layout : list (row ConnectData) :=
  [field EndUserField dstname set_dstname;
   field EndUserField srcname set_srcname;
   bm [bmf (λ p, of_bool (auth p)) (λ v, set_auth (to_bool v)) 0 1;
       bmf (λ p, of_bool (userdata p)) (λ v, set_userdata (to_bool v)) 1 1;
       bmf (λ p, of_bool (proxy p)) (λ v, set_proxy (to_bool v)) 2 1;
       bmf (λ p, of_bool (proxy_uic p)) (λ v, set_proxy_uic (to_bool v)) 3 1;
       bmf (λ p, of_bool (reserved_ p)) (λ v, set_reserved_ (to_bool v)) 4 1;
       bmf scver (λ v, set_scver (u8 v)) 5 2;
       bmf (λ p, of_bool (mbz2 p)) (λ v, set_mbz2 (to_bool v)) 7 1];
   field Payload payload set_payload].

(** [put_string] and [get_string]. *)
Definition put_string (s : text) (max : Z) : result Bytes :=
  if max <? len s then Throw FieldOverflow else Ok (u8 (len s) :: as_bytes s).
Definition get_string (max : Z) : dec text := λ d,
  '(n, d) ← Decoder.byte d;
  if max <? n then Throw FieldOverflow else '(b, d) ← Decoder.raw (Z.to_nat n) d; Ok (of_bytes b, d).

(** The payload of [encode_message]: the flags follow from the fields. *)
Definition has_auth (c : ConnectData) : bool :=
  negb (bool_decide (rqstrid c = []) && bool_decide (passwrd c = []) && bool_decide (account c = [])).
Definition auth_part (c : ConnectData) : result Bytes :=
  if has_auth c then
    a ← put_string (rqstrid c) 39; b ← put_string (passwrd c) 39; d ← put_string (account c) 39; Ok (a ++ b ++ d)
  else Ok [].
Definition data_part (c : ConnectData) : result Bytes :=
  if bool_decide (connectdata c = []) then Ok []
  else if 16 <? len (connectdata c) then Throw FieldOverflow
  else Ok (u8 (len (connectdata c)) :: connectdata c).
(** [encode_message]: the message, and the members it leaves. *)
Definition encode_message (c : ConnectData) : result (Bytes * ConnectData) :=
  a ← auth_part c;
  d ← data_part c;
  let c := with_payload (has_auth c) (negb (bool_decide (connectdata c = []))) (a ++ d) c in
  bs ← encode_rows connect_layout c;
  Ok (bs, c).

(** [parse_message]: the layout, and the members its payload holds. *)
Definition unpack (c : ConnectData) : result ConnectData :=
  let c := with_strings [] [] [] (set_connectdata [] c) in
  if bool_decide (payload c = []) then
    if auth c || userdata c then Throw MissingData else Ok c
  else
    '(c, d) ← (if auth c then
                 '(a, d) ← get_string 39 (payload c); '(b, d) ← get_string 39 d; '(e, d) ← get_string 39 d;
                 Ok (with_strings a b e c, d)
               else Ok (c, payload c));
    if userdata c then
      '(n, d) ← Decoder.byte d;
      if 16 <? n then Throw FieldOverflow
      else '(b, _) ← Decoder.raw (Z.to_nat n) d; Ok (set_connectdata b c)
    else Ok c.
Definition parse_message (buf : Bytes) : result ConnectData :=
  '(c, _) ← packet_decode allow connect_layout new_connect buf; unpack c.

(** ** Round trips *)

#[local] Opaque Encoder.uint Decoder.uint Decoder.raw Decoder.byte Decoder.need.

(** An end user as [decode] can leave one. *)
Definition user_ok (e : EndUser) : Prop :=
  valid e = true ∧ 0 ≤ num e < 256 ∧ 0 ≤ group e < 65536 ∧ 0 ≤ user e < 65536 ∧
  (has_uic (fmt e) = false → group e = 0 ∧ user e = 0) ∧ (has_name (fmt e) = false → name e = []).

Lemma raw_string s rest : Decoder.raw (Z.to_nat (len s)) (as_bytes s ++ rest) = Ok (as_bytes s, rest).
Proof. unfold len. rewrite Nat2Z.id. unfold as_bytes. rewrite <- (length_map code s). apply raw_app. Qed.
Lemma byte_small v : 0 ≤ v < 256 → Encoder.byte v = [v].
Proof. intros Hv. unfold Encoder.byte. by rewrite u8_small. Qed.

#[export] Instance EndUserField_ok : CodecOk EndUserField user_ok.
Proof.
  intros [f n s g u] (Hv & Hn & Hg & Hu & Hz & Hs). cbn [fmt num name group user] in *.
  assert (has_name f = true → len s ≤ 16) as Hl.
  { intros Hf. unfold valid in Hv. destruct f; [done| |]; cbn in Hv; zbool; lia. }
  pose proof (len_nonneg s) as Hl0.
  assert (∃ bs, user_encode (mkEndUser f n s g u) = Ok bs ∧ bytes_ok bs ∧ ∀ rest, user_decode (bs ++ rest) = Ok (mkEndUser f n s g u, rest)) as H; [|exact H].
  unfold user_encode, user_decode. cbn [fmt num name group user].
  destruct f; cbn [has_uic has_name format_code] in *.
  - destruct (Hz eq_refl) as [-> ->]. rewrite (Hs eq_refl) in *. eexists. split; [reflexivity|]. rewrite !byte_small by lia.
    split; [repeat constructor; unfold byte_ok; lia|]. intros rest. cbn [app]. rewrite byte_app. cbn. rewrite byte_app. cbn in Hv |- *. by rewrite Hv.
  - destruct (Hz eq_refl) as [-> ->]. specialize (Hl eq_refl). rewrite (proj2 (Z.ltb_ge _ _)) by lia. eexists. split; [reflexivity|].
    rewrite !byte_small by lia. split.
    { cbn [app]. repeat (apply bytes_ok_cons; split; [unfold byte_ok; lia|]). apply as_bytes_ok. }
    intros rest. cbn [app]. rewrite byte_app. cbn. rewrite byte_app. cbn. rewrite byte_app. cbn.
    rewrite (proj2 (Z.ltb_ge _ _)) by lia. rewrite raw_string. cbn [mbind result_bind]. rewrite of_as_bytes. cbn in Hv |- *. by rewrite Hv.
  - specialize (Hl eq_refl). rewrite (proj2 (Z.ltb_ge _ _)) by lia. eexists. split; [reflexivity|].
    rewrite !byte_small by lia. split.
    { cbn [app]. repeat (apply bytes_ok_cons; split; [unfold byte_ok; lia|]). rewrite !bytes_ok_app. split; [split; apply uint_ok|].
      apply bytes_ok_cons; split; [unfold byte_ok; lia|]. apply as_bytes_ok. }
    intros rest. cbn [app]. rewrite byte_app. cbn. rewrite byte_app. cbn. rewrite <- !app_assoc.
    rewrite uint_app by (change (2 ^ (8 * Z.of_nat 2)) with 65536; lia). cbn.
    rewrite uint_app by (change (2 ^ (8 * Z.of_nat 2)) with 65536; lia). cbn. rewrite !u16_small by lia.
    rewrite byte_app. cbn. rewrite (proj2 (Z.ltb_ge _ _)) by lia. rewrite raw_string. cbn [mbind result_bind]. rewrite of_as_bytes. cbn in Hv |- *. by rewrite Hv.
Qed.

Lemma put_get s max rest : len s ≤ max → max < 256 →
  ∃ bs, put_string s max = Ok bs ∧ bytes_ok bs ∧ bs ≠ [] ∧ get_string max (bs ++ rest) = Ok (s, rest).
Proof.
  intros Hs Hm. pose proof (len_nonneg s). exists (len s :: as_bytes s). unfold put_string, get_string.
  rewrite (proj2 (Z.ltb_ge _ _)), u8_small by lia. split; [done|].
  split; [apply bytes_ok_cons; split; [unfold byte_ok; lia|apply as_bytes_ok]|]. split; [done|].
  cbn [app]. rewrite byte_app. cbn. rewrite (proj2 (Z.ltb_ge _ _)) by lia. rewrite raw_string. cbn. by rewrite of_as_bytes.
Qed.

(** A connect message that can be sent. *)
Record connect_ok (c : ConnectData) : Prop := {
  k_dst : user_ok (dstname c);
  k_src : user_ok (srcname c);
  k_scver : 0 ≤ scver c < 4;
  k_rqstrid : len (rqstrid c) ≤ 39;
  k_passwrd : len (passwrd c) ≤ 39;
  k_account : len (account c) ≤ 39;
  k_data : len (connectdata c) ≤ 16;
  k_bytes : bytes_ok (connectdata c);
}.

Lemma auth_rt c rest : connect_ok c → ∃ bs, auth_part c = Ok bs ∧ bytes_ok bs ∧ (bs = [] ↔ has_auth c = false) ∧
  ∀ k, (if has_auth c then
     '(a, d) ← get_string 39 (bs ++ rest); '(b, d) ← get_string 39 d; '(e, d) ← get_string 39 d;
     Ok (with_strings a b e k, d)
   else Ok (k, bs ++ rest)) =
  Ok (if has_auth c then with_strings (rqstrid c) (passwrd c) (account c) k else k, rest).
Proof.
  intros [? ? ? H1 H2 H3 ? ?]. unfold auth_part. destruct (has_auth c); [|exists []; split; [done|]; split; [apply bytes_ok_nil|]; by split].
  destruct (put_get (account c) 39 rest H3 eq_refl) as (b3 & E3 & B3 & N3 & G3).
  destruct (put_get (passwrd c) 39 (b3 ++ rest) H2 eq_refl) as (b2 & E2 & B2 & N2 & G2).
  destruct (put_get (rqstrid c) 39 (b2 ++ b3 ++ rest) H1 eq_refl) as (b1 & E1 & B1 & N1 & G1).
  exists (b1 ++ b2 ++ b3). rewrite E1, E2, E3. split; [done|]. split; [by rewrite !bytes_ok_app|].
  split; [split; [intros [? _]%app_eq_nil; done|done]|]. intros k. rewrite <- !app_assoc, G1. cbn. rewrite G2. cbn. by rewrite G3.
Qed.
Lemma data_rt c : connect_ok c → ∃ bs, data_part c = Ok bs ∧ bytes_ok bs ∧ (bs = [] ↔ connectdata c = []) ∧
  (connectdata c ≠ [] → ('(n, d) ← Decoder.byte bs; if 16 <? n then Throw FieldOverflow else Decoder.raw (Z.to_nat n) d) = Ok (connectdata c, [])).
Proof.
  intros [? ? ? ? ? ? H1 H2]. unfold data_part. destruct (bool_decide (connectdata c = [])) eqn:E.
  { apply bool_decide_eq_true in E. exists []. split; [done|]. split; [apply bytes_ok_nil|]. by split. }
  apply bool_decide_eq_false in E. pose proof (len_nonneg (connectdata c)). rewrite (proj2 (Z.ltb_ge _ _)), u8_small by lia.
  eexists. split; [reflexivity|]. split; [apply bytes_ok_cons; split; [unfold byte_ok; lia|done]|]. split; [done|]. intros _.
  rewrite byte_app. cbn [mbind result_bind]. rewrite (proj2 (Z.ltb_ge _ _)) by lia. unfold len. rewrite Nat2Z.id.
  rewrite <- (app_nil_r (connectdata c)) at 2. apply raw_app.
Qed.

(** What the fields of a message say without the flags, which follow. *)
Definition unflagged (c : ConnectData) : ConnectData := with_payload false false [] c.

(** The layout of a message that has been prepared. *)
Lemma layout_rt c a u b : connect_ok c → bytes_ok b → ∃ bs,
  encode_rows connect_layout (with_payload a u b c) = Ok bs ∧ bytes_ok bs ∧
  decode_rows connect_layout new_connect bs = Ok (with_strings [] [] [] (set_connectdata [] (with_payload a u b c)), []).
Proof.
  intros [K1 K2 K3 _ _ _ _ _] Hb. destruct c as [dst src ? ? px pu rs sv mb ? ? ? ? ?]. cbn in K1, K2, K3. eapply plain_rt; [apply _| |].
  - split; [exact K1|]. split; [exact K2|]. split; [|exact Hb]. bits_ok; apply of_bool_range.
  - cbn. rewrite !to_of_bool, u8_small by lia. reflexivity.
Qed.
Lemma no_auth c : has_auth c = false → rqstrid c = [] ∧ passwrd c = [] ∧ account c = [].
Proof.
  unfold has_auth. intros [[H1 H2]%andb_prop H3]%negb_false_iff%andb_prop. by apply bool_decide_eq_true in H1, H2, H3.
Qed.

Lemma unpack_rt c : connect_ok c → ∃ ab db, auth_part c = Ok ab ∧ data_part c = Ok db ∧ bytes_ok (ab ++ db) ∧
  let c' := with_payload (has_auth c) (negb (bool_decide (connectdata c = []))) (ab ++ db) c in
  unpack (with_strings [] [] [] (set_connectdata [] c')) = Ok c'.
Proof.
  intros Hc. destruct (data_rt c Hc) as (db & Ed & Bd & Nd & Gd). destruct (auth_rt c db Hc) as (ab & Ea & Ba & Na & Ga).
  exists ab, db. split; [exact Ea|]. split; [exact Ed|]. split; [by apply bytes_ok_app|]. clear Ea Ed Ba Bd Hc.
  pose proof (no_auth c) as Hs. destruct c as [dst src au0 us0 px pu rs sv mb pl0 rq pw ac cd].
  set (ha := has_auth _) in *. clearbody ha. cbn [rqstrid passwrd account connectdata] in *.
  unfold unpack. cbn [with_strings with_payload set_connectdata payload auth userdata dstname srcname proxy proxy_uic reserved_ scver mbz2
    rqstrid passwrd account connectdata].
  destruct (bool_decide (ab ++ db = [])) eqn:Ee.
  - apply bool_decide_eq_true, app_eq_nil in Ee as [-> ->]. pose proof (proj1 Na eq_refl) as Ha. pose proof (proj1 Nd eq_refl) as ->.
    destruct (Hs Ha) as (-> & -> & ->). by rewrite Ha.
  - rewrite Ga. cbn [mbind result_bind]. clear Ga Na Nd. destruct (bool_decide (cd = [])) eqn:Ec.
    + apply bool_decide_eq_true in Ec as ->. destruct ha; [done|]. by destruct Hs as (-> & -> & ->).
    + apply bool_decide_eq_false in Ec. specialize (Gd Ec). destruct (Decoder.byte db) as [[n d]|]; [|discriminate Gd].
      cbn [mbind result_bind] in Gd. destruct (16 <? n) eqn:En; [discriminate Gd|].
      destruct ha; [|destruct Hs as (-> & -> & ->); [done|]];
        cbn [negb userdata with_strings mbind result_bind]; rewrite En, Gd; done.
Qed.
Lemma connect_rt c : connect_ok c → ∃ bs c', encode_message c = Ok (bs, c') ∧ bytes_ok bs ∧ parse_message bs = Ok c' ∧
  unflagged c' = unflagged c.
Proof.
  intros Hc. destruct (unpack_rt c Hc) as (ab & db & Ea & Ed & Hab & U). set (c' := with_payload _ _ _ c) in U.
  destruct (layout_rt c (has_auth c) (negb (bool_decide (connectdata c = []))) (ab ++ db) Hc Hab) as (bs & E & Hb & D). fold c' in E, D.
  exists bs, c'. unfold encode_message. rewrite Ea, Ed. cbn [mbind result_bind]. fold c'. rewrite E.
  split; [done|]. split; [done|]. split; [|reflexivity]. unfold parse_message, packet_decode. rewrite D. exact U.
Qed.
