(* ===== verification/Session.v ===== *)
(** Session control: [include/decnet/session/session.h], [src/session/session.cc]
    -- the object database, the conversations, and the loopback object.

    An application is a class: each of its handlers transforms the
    application's own state and answers with calls on its conversation.  The
    identity of a connection, a pointer in the code, is a number.  What the
    session does to the outside is its log [out]. *)

From S2P Require Import Prelude Buffer Types Codec Layout Float Connection SessionPackets.
#[local] Open Scope Z_scope.

(** [SessionConnection]: the members the application can read. *)
Record SessionConnection := mkSessionConnection {
  dstname_ : EndUser;
  srcname_ : EndUser;
  username_ : text;
  password_ : text;
  account_ : text;
  proxy_ : bool;
}.
(** The constructor. *)
Definition new_handle : SessionConnection := mkSessionConnection no_user no_user [] [] [] false.

(** [class Application]; a handler may send, accept, reject, disconnect or
    interrupt on its conversation, which are the calls of [api]. *)
Class Application (A : Type) := {
  app_connect : SessionConnection → Bytes → A → A * list api;
  app_data : SessionConnection → Bytes → A → A * list api;
  app_interrupt : SessionConnection → Bytes → A → A * list api;
  app_run_state : SessionConnection → A → A * list api;
  app_disconnected : SessionConnection → Z → A → A * list api;
}.

(** What an application hears. *)
Inductive heard := HConnect (data : Bytes) | HData (data : Bytes) | HInterrupt (data : Bytes) | HRun | HGone (reason : Z).
Definition hear {A} `{Application A} (h : heard) (sc : SessionConnection) (a : A) : A * list api :=
  match h with
  | HConnect d => app_connect sc d a
  | HData d => app_data sc d a
  | HInterrupt d => app_interrupt sc d a
  | HRun => app_run_state sc a
  | HGone r => app_disconnected sc r a
  end.

(** What the session does: a conversation is opened, an application is called,
    a connection's API is called, the node is told that a link runs, and every
    conversation is put away. *)
Inductive output :=
| Opened (c : Z)
| Heard (c : Z) (h : heard)
| Calls (c : Z) (a : api)
| LinkRunning (c : Z)
| Stopped.

Section Session.
Context {A : Type} `{App : Application A}.

(** [struct Object].  The factory may be empty; when it is called, which is
    the [n]th reading of the outside, it may have no application to give. *)
Record Object := mkObject { o_number : Z; o_name : text; o_factory : option (nat → option A) }.

(** [struct Live] and [struct Retired]. *)
Record Live := mkLive { l_conn : SessionConnection; l_app : A }.
Record Retired := mkRetired { r_live : Live; r_when : Z }.

Record session := Session {
  objects_ : list Object;
  by_number_ : gmap Z nat;
  by_name_ : gmap text nat;
  live_ : gmap Z Live;
  finished_ : list Retired;
  finished_grace_ : Z;
  readings : nat;
  out : list output;
}.

Definition with_objects o n m (s : session) :=
  Session o n m (live_ s) (finished_ s) (finished_grace_ s) (readings s) (out s).
Definition with_live v (s : session) :=
  Session (objects_ s) (by_number_ s) (by_name_ s) v (finished_ s) (finished_grace_ s) (readings s) (out s).
Definition with_finished v (s : session) :=
  Session (objects_ s) (by_number_ s) (by_name_ s) (live_ s) v (finished_grace_ s) (readings s) (out s).
Definition read_once (s : session) :=
  Session (objects_ s) (by_number_ s) (by_name_ s) (live_ s) (finished_ s) (finished_grace_ s) (S (readings s)) (out s).
Definition say (l : list output) (s : session) :=
  Session (objects_ s) (by_number_ s) (by_name_ s) (live_ s) (finished_ s) (finished_grace_ s) (readings s) (out s ++ l).

(** The session of a configuration without objects: sixty seconds of grace,
    in nanoseconds. *)
Definition new_session : session := Session [] ∅ ∅ ∅ [] 60000000000 0 [].

(** ** The object database *)

Definition upper (s : text) : text := map toupper s.

Definition add_object (n : Z) (nm : text) (f : option (nat → option A)) (s : session) : result session :=
  if (n =? 0) && bool_decide (nm = []) then Throw InvalidArgument else
  let nm := upper nm in
  if 16 <? len nm then Throw InvalidArgument else
  if negb (n =? 0) && bool_decide (is_Some (by_number_ s !! n)) then Throw InvalidArgument else
  if negb (bool_decide (nm = [])) && bool_decide (is_Some (by_name_ s !! nm)) then Throw InvalidArgument else
  let idx := length (objects_ s) in
  Ok (with_objects (objects_ s ++ [mkObject n nm f])
    (if n =? 0 then by_number_ s else <[n := idx]> (by_number_ s))
    (if bool_decide (nm = []) then by_name_ s else <[nm := idx]> (by_name_ s)) s).

(** The indexes of a list of objects: the loop of [remove_object]. *)
Fixpoint index_from (i : nat) (l : list Object) (n : gmap Z nat) (m : gmap text nat) : gmap Z nat * gmap text nat :=
  match l with
  | [] => (n, m)
  | o :: l =>
      index_from (S i) l (if o_number o =? 0 then n else <[o_number o := i]> n)
        (if bool_decide (o_name o = []) then m else <[o_name o := i]> m)
  end.
Definition names_object (n : Z) (key : text) (o : Object) : bool := (o_number o =? n) && bool_decide (o_name o = key).
Definition remove_object (n : Z) (nm : text) (s : session) : session :=
  let l := List.filter (λ o, negb (names_object n (upper nm) o)) (objects_ s) in
  let '(ns, ms) := index_from 0 l ∅ ∅ in
  with_objects l ns ms s.

(** [find_object], by number and by name. *)
Definition find_number (n : Z) (s : session) : option Object :=
  i ← by_number_ s !! n; objects_ s !! i.
Definition find_name (nm : text) (s : session) : option Object :=
  i ← by_name_ s !! upper nm; objects_ s !! i.

(** ** Conversations *)

Context (clock : nat → Z).

Definition sweep_finished (now : Z) (s : session) : session :=
  with_finished (filter (λ r, ¬ (finished_grace_ s ≤ now - r_when r)) (finished_ s)) s.

Definition retire (c : Z) (s : session) : session :=
  match live_ s !! c with
  | None => s
  | Some l =>
      let s := read_once (sweep_finished (clock (readings s)) s) in
      let s := read_once (with_finished (finished_ s ++ [mkRetired l (clock (readings s))]) s) in
      with_live (delete c (live_ s)) s
  end.

(** Call the application of the conversation [c]; nothing when there is none. *)
Definition tell (c : Z) (h : heard) (s : session) : session :=
  match live_ s !! c with
  | None => s
  | Some l =>
      let '(a, k) := hear h (l_conn l) (l_app l) in
      say (Heard c h :: map (Calls c) k) (with_live (<[c := mkLive (l_conn l) a]> (live_ s)) s)
  end.

(** The object a connect asks for: by number if it has one, else by name. *)
Definition asked_for (d : EndUser) (s : session) : option Object :=
  if bool_decide (fmt d = by_number) && negb (num d =? 0) then find_number (num d) s
  else if bool_decide (name d = []) then None
  else find_name (name d) s.

Definition handle_of (cd : ConnectData) : SessionConnection :=
  mkSessionConnection (dstname cd) (srcname cd) (rqstrid cd) (passwrd cd) (account cd) (proxy cd).

Definition connect_received (c : Z) (pl : Bytes) (s : session) : result session :=
  match parse_message pl with
  | Throw e => if is_decode_error e then Ok (say [Calls c (Reject BAD_FMT [])] s) else Throw e
  | Ok cd =>
      match asked_for (dstname cd) s ≫= o_factory with
      | None => Ok (say [Calls c (Reject NO_OBJ [])] s)
      | Some make =>
          match make (readings s) with
          | None => Ok (say [Calls c (Reject OBJ_FAIL [])] (read_once s))
          | Some a =>
              let s := read_once s in
              let s := say [Opened c] (with_live (<[c := mkLive (handle_of cd) a]> (live_ s)) s) in
              Ok (tell c (HConnect (connectdata cd)) s)
          end
      end
  end.

(** [connect]: [open] is [NSP::connect], or the lack of a node or of NSP;
    the answer is the connection. *)
Definition session_connect (open : Bytes → option Z) (cd : ConnectData) (a : A) (s : session)
  : result (option Z * session) :=
  if negb (valid (dstname cd)) || negb (valid (srcname cd)) then Ok (None, s) else
  match encode_message cd with
  | Throw e => if is_decode_error e then Ok (None, s) else Throw e
  | Ok (pl, cd) =>
      match open pl with
      | None => Ok (None, s)
      | Some c =>
          let h := mkSessionConnection (dstname cd) (srcname cd) [] [] [] false in
          Ok (Some c, say [Opened c] (with_live (<[c := mkLive h a]> (live_ s)) s))
      end
  end.
(** The overload without access control. *)
Definition session_connect_to (open : Bytes → option Z) (dst src : EndUser) (data : Bytes) (a : A) (s : session)
  : result (option Z * session) :=
  if negb (valid dst) || negb (valid src) then Ok (None, s)
  else session_connect open (set_connectdata data (set_srcname src (set_dstname dst new_connect))) a s.

(** The rest of what NSP calls. *)
Definition when_live (c : Z) (f : session → session) (s : session) : session :=
  match live_ s !! c with None => s | Some _ => f s end.
Definition connect_confirmed (c : Z) (data : Bytes) (s : session) : session :=
  when_live c (λ s, say [LinkRunning c] (tell c (HConnect data) s)) s.
Definition connect_rejected (c : Z) (reason : Z) (s : session) : session :=
  when_live c (λ s, retire c (tell c (HGone reason) s)) s.
Definition data_received (c : Z) (data : Bytes) (s : session) : session := tell c (HData data) s.
Definition interrupt_received (c : Z) (data : Bytes) (s : session) : session := tell c (HInterrupt data) s.
Definition run_state (c : Z) (s : session) : session :=
  when_live c (λ s, say [LinkRunning c] (tell c HRun s)) s.
Definition disconnected (c : Z) (reason : Z) (s : session) : session :=
  when_live c (λ s, retire c (tell c (HGone reason) s)) s.

(** [stop]: every conversation is put away, in the order of the map; each
    reads the clock. *)
Fixpoint put_away (l : list (Z * Live)) (s : session) : session :=
  match l with
  | [] => s
  | (_, v) :: l => put_away l (read_once (with_finished (finished_ s ++ [mkRetired v (clock (readings s))]) s))
  end.
Definition session_stop (s : session) : session :=
  say [Stopped] (with_live ∅ (put_away (map_to_list (live_ s)) s)).

(** What NSP tells session control of the connection [c]. *)
Definition told (c : Z) (n : notice) (s : session) : result session :=
  match n with
  | ConnectReceived pl => connect_received c pl s
  | ConnectConfirmed d => Ok (connect_confirmed c d s)
  | ConnectRejected r _ => Ok (connect_rejected c r s)
  | DataReceived d => Ok (data_received c d s)
  | InterruptReceived d => Ok (interrupt_received c d s)
  | RunState => Ok (run_state c s)
  | Disconnected r _ => Ok (disconnected c r s)
  end.
End Session.
Arguments Object : clear implicits.
Arguments Live : clear implicits.
Arguments Retired : clear implicits.
Arguments session : clear implicits.

(** ** The applications of this file *)

(** [class Mirror]: loop back what carries function code 0. *)
Inductive Mirror := mirror.
Definition mirror_reply (data : Bytes) : list api :=
  match data with
  | [] => []
  | f :: d => [SendData (if f =? 0 then 1 :: d else [255])]
  end.
#[export] Instance mirror_app : Application Mirror := {|
  app_connect _ _ a := (a, [Accept [255; 255] 0]);
  app_data _ d a := (a, mirror_reply d);
  app_interrupt _ _ a := (a, []);
  app_run_state _ a := (a, []);
  app_disconnected _ _ a := (a, []);
|}.

(** [add_default_objects]: the objects that are there unless the configuration
    has taken their number or name. *)
Definition offer {A} (n : Z) (nm : string) (f : nat → option A) (s : session A) : result (session A) :=
  let nm := String.list_ascii_of_string nm in
  if (negb (n =? 0) && bool_decide (is_Some (by_number_ s !! n))) || bool_decide (is_Some (by_name_ s !! upper nm)) then Ok s
  else add_object n nm (Some f) s.
Definition add_default_objects {A} (make_mirror make_timestamp make_event_receiver make_nml : nat → option A)
    (s : session A) : result (session A) :=
  s ← offer 25 "MIRROR" make_mirror s;
  s ← offer 0 "TIMESTAMP" make_timestamp s;
  s ← offer 26 "EVENTLOGGER" make_event_receiver s;
  offer 19 "NML" make_nml s.
