(* ===== verification/SessionLaws.v ===== *)
(** The object database and the conversations of session control, over every
    sequence of what can happen to it. *)

From S2P Require Import Prelude Buffer Types Codec Layout Float Connection SessionPackets Session.
#[local] Open Scope Z_scope.

(** ** The indexes *)

Section Index.
Context {A K : Type} `{Countable K} (key : Object A → option K).

Fixpoint index (i : nat) (l : list (Object A)) (m : gmap K nat) : gmap K nat :=
  match l with
  | [] => m
  | o :: l => index (S i) l (match key o with None => m | Some k => <[k := i]> m end)
  end.

Lemma index_snoc i l o m :
  index i (l ++ [o]) m = match key o with None => index i l m | Some k => <[k := (i + length l)%nat]> (index i l m) end.
Proof.
  revert i m. induction l as [|x l IH]; intros i m; simpl; [by rewrite Nat.add_0_r|].
  rewrite IH. by replace (S i + length l)%nat with (i + S (length l))%nat by lia.
Qed.
Lemma omap_snoc (l : list (Object A)) o : omap key (l ++ [o]) = omap key l ++ option_list (key o).
Proof. rewrite omap_app. simpl. by destruct (key o). Qed.

(** Where no two objects have the same key, the index finds each. *)
Lemma index_spec l k j : NoDup (omap key l) →
  index 0 l ∅ !! k = Some j ↔ ∃ o, l !! j = Some o ∧ key o = Some k.
Proof.
  revert k j. induction l as [|o l IH] using rev_ind; intros k j Hn.
  { simpl. rewrite lookup_empty. split; [done|]. by intros (o & [=] & _). }
  rewrite index_snoc. rewrite omap_snoc in Hn. apply NoDup_app in Hn as (Hl & Ho & _). specialize (IH k j Hl).
  assert ((∃ o', (l ++ [o]) !! j = Some o' ∧ key o' = Some k) ↔
    (∃ o', l !! j = Some o' ∧ key o' = Some k) ∨ j = length l ∧ key o = Some k) as ->.
  { split.
    - intros (o' & [?|[? E]]%lookup_app_Some & Hk); [eauto|]. apply list_lookup_singleton_Some in E as [? ->]. right. split; [lia|done].
    - intros [(o' & ? & ?)|[-> ?]]; [exists o'; by rewrite lookup_app_l by (by eapply lookup_lt_Some)|].
      exists o. by rewrite lookup_app_r, Nat.sub_diag by lia. }
  destruct (key o) as [k'|] eqn:Ek; [|rewrite IH; by split; [left|intros [?|[_ [=]]]]].
  rewrite lookup_insert_Some, IH, Nat.add_0_l. split; [intros [[-> <-]|[_ ?]]; [right; done|by left]|].
  intros [(o' & Hj & Hk)|[-> [= <-]]]; [|by left]. right. split; [|eauto].
  intros ->. apply (Ho k); [|by apply list_elem_of_singleton]. apply list_elem_of_omap. exists o'. split; [|done]. by eapply list_elem_of_lookup_2.
Qed.
Lemma NoDup_omap_filter f l : NoDup (omap key l) → NoDup (omap key (List.filter f l)).
Proof.
  induction l as [|o l IH]; simpl; [done|]. destruct (key o) as [k|] eqn:Ek; [intros [Hk Hl]%NoDup_cons|intros Hl];
    (destruct (f o); simpl; rewrite ?Ek; [|by apply IH]); [|by apply IH].
  apply NoDup_cons. split; [|by apply IH]. intros (o' & Ho & Hk')%list_elem_of_omap. apply Hk, list_elem_of_omap. exists o'.
  split; [|done]. rewrite list_elem_of_In in Ho |- *. by apply filter_In in Ho as [? _].
Qed.
End Index.

Definition number_key {A} (o : Object A) : option Z := if o_number o =? 0 then None else Some (o_number o).
Definition name_key {A} (o : Object A) : option text := if bool_decide (o_name o = []) then None else Some (o_name o).
Lemma index_from_split {A} (l : list (Object A)) i n m :
  index_from i l n m = (index number_key i l n, index name_key i l m).
Proof.
  revert i n m. induction l as [|o l IH]; intros i n m; simpl; [done|]. rewrite IH. unfold number_key, name_key.
  by destruct (_ =? 0), (bool_decide _).
Qed.

Lemma toupper_idemp c : toupper (toupper c) = toupper c.
Proof. by destruct c as [[] [] [] [] [] [] [] []]. Qed.
Lemma upper_idemp s : upper (upper s) = upper s.
Proof. unfold upper. rewrite map_map. apply map_ext, toupper_idemp. Qed.

(** An object that can be asked for. *)
Definition object_ok {A} (o : Object A) : Prop :=
  (o_number o ≠ 0 ∨ o_name o ≠ []) ∧ len (o_name o) ≤ 16 ∧ upper (o_name o) = o_name o.

(** The indexes are those of the list, and no two objects share a number or a
    name. *)
Record DbOk {A} (s : session A) : Prop := {
  db_number : by_number_ s = index number_key 0 (objects_ s) ∅;
  db_name : by_name_ s = index name_key 0 (objects_ s) ∅;
  db_numbers : NoDup (omap number_key (objects_ s));
  db_names : NoDup (omap name_key (objects_ s));
  db_objects : Forall object_ok (objects_ s);
}.

Lemma number_index {A} (s : session A) n : DbOk s →
  (is_Some (by_number_ s !! n) ↔ n ∈ omap number_key (objects_ s)).
Proof.
  intros [-> _ Hn _ _]. unfold is_Some. setoid_rewrite (index_spec number_key _ _ _ Hn). rewrite list_elem_of_omap. split.
  - intros (j & o & Ho & Hk). exists o. split; [by eapply list_elem_of_lookup_2|done].
  - intros (o & [j Ho]%list_elem_of_lookup & Hk). eauto.
Qed.
Lemma name_index {A} (s : session A) n : DbOk s →
  (is_Some (by_name_ s !! n) ↔ n ∈ omap name_key (objects_ s)).
Proof.
  intros [_ -> _ Hn _]. unfold is_Some. setoid_rewrite (index_spec name_key _ _ _ Hn). rewrite list_elem_of_omap. split.
  - intros (j & o & Ho & Hk). exists o. split; [by eapply list_elem_of_lookup_2|done].
  - intros (o & [j Ho]%list_elem_of_lookup & Hk). eauto.
Qed.

Lemma add_object_ok {A} n nm f (s s' : session A) : DbOk s → add_object n nm f s = Ok s' → DbOk s'.
Proof.
  intros Hs. pose proof (number_index s n Hs) as In. pose proof (name_index s (upper nm) Hs) as Im. destruct Hs as [Nu Na Hu Ha Ho].
  unfold add_object. destruct (_ && _) eqn:E1; [done|]. destruct (16 <? _) eqn:E2; [done|].
  destruct (negb (n =? 0) && _) eqn:E3; [done|]. destruct (negb (bool_decide (upper nm = [])) && _) eqn:E4; [done|]. intros [= <-].
  pose (o := mkObject n (upper nm) f). assert (number_key o = if n =? 0 then None else Some n) as Kn by done.
  assert (name_key o = if bool_decide (upper nm = []) then None else Some (upper nm)) as Km by done.
  constructor; cbn -[omap]; fold o; rewrite ?index_snoc, ?omap_snoc, ?Kn, ?Km.
  - rewrite Nu. by destruct (n =? 0).
  - rewrite Na. by destruct (bool_decide (upper nm = [])).
  - destruct (n =? 0) eqn:En; simpl; [by rewrite app_nil_r|]. apply NoDup_app. split; [done|]. split; [|apply NoDup_singleton].
    intros x Hx ->%list_elem_of_singleton. cbn in E3. apply bool_decide_eq_false in E3. by apply E3, In.
  - destruct (bool_decide (upper nm = [])) eqn:En; simpl; [by rewrite app_nil_r|]. apply NoDup_app. split; [done|]. split; [|apply NoDup_singleton].
    intros x Hx ->%list_elem_of_singleton. cbn in E4. apply bool_decide_eq_false in E4. by apply E4, Im.
  - apply Forall_app_2; [done|]. apply Forall_singleton. split; [|split; [by apply Z.ltb_ge in E2|apply upper_idemp]]. cbn.
    destruct (Z.eqb_spec n 0); [right|by left]. cbn in E1. apply bool_decide_eq_false in E1. intros Hm. by apply map_eq_nil in Hm.
Qed.
Lemma remove_object_ok {A} n nm (s : session A) : DbOk s → DbOk (remove_object n nm s).
Proof.
  intros [Nu Na Hu Ha Ho]. unfold remove_object. set (l := List.filter _ _). rewrite index_from_split.
  constructor; cbn; [done|done|by apply NoDup_omap_filter..|].
  rewrite Forall_forall in *. intros o Hi. apply Ho. rewrite list_elem_of_In in Hi |- *. by apply filter_In in Hi as [? _].
Qed.
Lemma new_session_ok {A} : DbOk (@new_session A).
Proof. constructor; try done; constructor. Qed.

(** What the database promises: the lookups find exactly the objects in it. *)
Lemma find_number_spec {A} n (s : session A) o : DbOk s →
  find_number n s = Some o ↔ n ≠ 0 ∧ o ∈ objects_ s ∧ o_number o = n.
Proof.
  intros [Nu _ Hu _ _]. unfold find_number. rewrite bind_Some, Nu. setoid_rewrite (index_spec number_key _ _ _ Hu). unfold number_key. split.
  - intros (j & (o' & Hj & Hk) & Hj'). assert (o' = o) as -> by congruence. apply list_elem_of_lookup_2 in Hj.
    destruct (Z.eqb_spec (o_number o) 0); [done|]. injection Hk as <-. done.
  - intros (Hn & [j Hj]%list_elem_of_lookup & <-). exists j. split; [|done]. exists o. split; [done|]. by rewrite (proj2 (Z.eqb_neq _ _)).
Qed.
Lemma find_name_spec {A} nm (s : session A) o : DbOk s →
  find_name nm s = Some o ↔ nm ≠ [] ∧ o ∈ objects_ s ∧ o_name o = upper nm.
Proof.
  intros [_ Na _ Ha _]. unfold find_name. rewrite bind_Some, Na. setoid_rewrite (index_spec name_key _ _ _ Ha). unfold name_key. split.
  - intros (j & (o' & Hj & Hk) & Hj'). assert (o' = o) as -> by congruence. apply list_elem_of_lookup_2 in Hj.
    case_bool_decide as E; [done|]. injection Hk as Hk. split; [|done]. intros ->. by rewrite Hk in E.
  - intros (Hn & [j Hj]%list_elem_of_lookup & Hk). exists j. split; [|done]. exists o. split; [done|]. rewrite Hk.
    rewrite bool_decide_eq_false_2; [done|]. intros E. by apply map_eq_nil in E.
Qed.

(** ** Every sequence of happenings *)

Section Run.
Context {A : Type} `{App : Application A} (clock : nat → Z).

Inductive happening :=
| HAdd (n : Z) (nm : text) (f : option (nat → option A))
| HRemove (n : Z) (nm : text)
| HTold (c : Z) (n : notice)
| HOpen (open : Bytes → option Z) (cd : ConnectData) (a : A)
| HStop.

(** What throws leaves the session as it was. *)
Definition attempt (r : result (session A)) (s : session A) : session A := match r with Ok s => s | Throw _ => s end.
Definition happen (s : session A) (h : happening) : session A :=
  match h with
  | HAdd n nm f => attempt (add_object n nm f s) s
  | HRemove n nm => remove_object n nm s
  | HTold c n => attempt (told clock c n s) s
  | HOpen open cd a => match session_connect open cd a s with Ok (_, s') => s' | Throw _ => s end
  | HStop => session_stop clock s
  end.
Definition session_run (s : session A) (l : list happening) : session A := foldl happen s l.

(** A conversation's life, as its application sees it: nothing is heard before
    it is opened nor after it was told that the link is gone. *)
Definition life (c : Z) (b : option bool) (o : output) : option bool :=
  match o with
  | Opened c' => if c' =? c then b ≫= (λ _, Some true) else b
  | Heard c' h => if c' =? c then b ≫= (λ up : bool, if up then Some (match h with HGone _ => false | _ => true end) else None) else b
  | Stopped => b ≫= (λ _, Some false)
  | _ => b
  end.
Definition lives (c : Z) (l : list output) : option bool := foldl (life c) (Some false) l.
#[local] Arguments lives : simpl never.

(** What the parts of a step leave alone: the database. *)
Definition database (s : session A) := (objects_ s, by_number_ s, by_name_ s).
Lemma DbOk_database s s' : database s' = database s → DbOk s → DbOk s'.
Proof. intros [= E1 E2 E3] [? ? ? ? ?]. constructor; congruence. Qed.

Definition LifeOk (s : session A) : Prop := ∀ c, lives c (out s) = Some (bool_decide (is_Some (live_ s !! c))).

Lemma lives_app c l k : lives c (l ++ k) = foldl (life c) (lives c l) k.
Proof. apply foldl_app. Qed.
Lemma life_calls c c' b k : foldl (life c) b (map (Calls c') k) = b.
Proof. induction k as [|a k IH]; [done|exact IH]. Qed.

(** Outputs that say nothing of a conversation's life. *)
Lemma LifeOk_say s l : (∀ c b, foldl (life c) b l = b) → LifeOk s → LifeOk (say l s).
Proof. intros Hl Hs c. cbn. by rewrite lives_app, Hl, Hs. Qed.
Lemma LifeOk_same s s' : out s' = out s → live_ s' = live_ s → LifeOk s → LifeOk s'.
Proof. intros E1 E2 Hs c. by rewrite E1, E2. Qed.
Lemma LifeOk_open s c l : LifeOk s → LifeOk (say [Opened c] (with_live (<[c := l]> (live_ s)) s)).
Proof.
  intros Hs c'. cbn. rewrite lives_app, Hs. cbn. destruct (Z.eqb_spec c c') as [->|Hc].
  - rewrite lookup_insert_eq. by rewrite bool_decide_eq_true_2.
  - by rewrite lookup_insert_ne.
Qed.

(** Telling an application, in all three ways it can end. *)
Lemma tell_none c h s : live_ s !! c = None → tell c h s = s.
Proof. intros E. unfold tell. by rewrite E. Qed.
Lemma tell_some c h s l : live_ s !! c = Some l →
  tell c h s = say (Heard c h :: map (Calls c) (hear h (l_conn l) (l_app l)).2)
    (with_live (<[c := mkLive (l_conn l) (hear h (l_conn l) (l_app l)).1]> (live_ s)) s).
Proof. intros E. unfold tell. rewrite E. by destruct (hear h (l_conn l) (l_app l)). Qed.

Lemma tell_life c h s : (∀ r, h ≠ HGone r) → LifeOk s → LifeOk (tell c h s).
Proof.
  intros Hh Hs. destruct (live_ s !! c) as [l|] eqn:E; [|by rewrite tell_none].
  rewrite (tell_some _ _ _ _ E). intros c'. cbn. rewrite lives_app, Hs. cbn. rewrite life_calls.
  destruct (Z.eqb_spec c c') as [<-|Hc]; [|by rewrite lookup_insert_ne].
  rewrite lookup_insert_eq, E. cbn. destruct h; try done. by destruct (Hh reason).
Qed.
Lemma gone_life c r s : LifeOk s → LifeOk (retire clock c (tell c (HGone r) s)).
Proof.
  intros Hs. destruct (live_ s !! c) as [l|] eqn:E.
  2: { rewrite tell_none by done. unfold retire. by rewrite E. }
  rewrite (tell_some _ _ _ _ E). unfold retire. cbn. rewrite lookup_insert_eq. intros c'. cbn. rewrite lives_app, Hs. cbn. rewrite life_calls.
  destruct (Z.eqb_spec c c') as [<-|Hc]; [by rewrite lookup_delete_eq, E|].
  by rewrite lookup_delete_ne, lookup_insert_ne.
Qed.

Lemma told_life c n s s' : LifeOk s → told clock c n s = Ok s' → LifeOk s'.
Proof.
  intros Hs. destruct n as [pl|d|r d|d|d| |r d]; cbn.
  - unfold connect_received. destruct (parse_message pl) as [cd|e]; [|destruct (is_decode_error e); [|done]; intros [= <-]; by apply LifeOk_say].
    destruct (_ ≫= o_factory) as [make|]; [|intros [= <-]; by apply LifeOk_say].
    destruct (make _) as [a|]; intros [= <-]; [|by apply LifeOk_say; [|apply (LifeOk_same s)]].
    apply tell_life; [done|]. apply (LifeOk_open (read_once s)). by apply (LifeOk_same s).
  - intros [= <-]. unfold connect_confirmed, when_live. case_match; [|done]. apply LifeOk_say; [done|]. by apply tell_life.
  - intros [= <-]. unfold connect_rejected, when_live. case_match; [|done]. by apply gone_life.
  - intros [= <-]. by apply tell_life.
  - intros [= <-]. by apply tell_life.
  - intros [= <-]. unfold run_state, when_live. case_match; [|done]. apply LifeOk_say; [done|]. by apply tell_life.
  - intros [= <-]. unfold disconnected, when_live. case_match; [|done]. by apply gone_life.
Qed.
Lemma connect_life open cd a s o s' : LifeOk s → session_connect open cd a s = Ok (o, s') → LifeOk s'.
Proof.
  intros Hs. unfold session_connect. destruct (_ || _); [by intros [= <- <-]|].
  destruct (encode_message cd) as [[pl cd']|e]; [|destruct (is_decode_error e); [by intros [= <- <-]|done]].
  destruct (open pl) as [c|]; intros [= <- <-]; [|done]. by apply LifeOk_open.
Qed.

Lemma put_away_same l s : live_ (put_away clock l s) = live_ s ∧ out (put_away clock l s) = out s ∧ database (put_away clock l s) = database s.
Proof. revert s. induction l as [|[c v] l IH]; intros s; simpl; [done|]. destruct (IH (read_once (with_finished (finished_ s ++ [mkRetired v (clock (readings s))]) s))) as (-> & -> & ->). done. Qed.
Lemma stop_life s : LifeOk s → LifeOk (session_stop clock s).
Proof.
  intros Hs c. unfold session_stop. destruct (put_away_same (map_to_list (live_ s)) s) as (_ & E & _).
  cbn. by rewrite lives_app, E, Hs, lookup_empty.
Qed.

Lemma happen_life s h : LifeOk s → LifeOk (happen s h).
Proof.
  intros Hs. destruct h as [n nm f|n nm|c n|open cd a|]; cbn.
  - unfold add_object. repeat case_match; done.
  - unfold remove_object. by destruct (index_from _ _ _ _).
  - destruct (told clock c n s) as [s'|] eqn:E; [by eapply told_life|done].
  - destruct (session_connect open cd a s) as [[o s']|] eqn:E; [by eapply connect_life|done].
  - by apply stop_life.
Qed.
Lemma run_life l : LifeOk (session_run new_session l).
Proof.
  assert (LifeOk new_session) as H by (by intros c). revert H. generalize (@new_session A).
  induction l as [|h l IH]; intros s Hs; [done|]. by apply IH, happen_life.
Qed.

(** ** The database through it all *)

Lemma tell_same c h s : database (tell c h s) = database s ∧ finished_ (tell c h s) = finished_ s ∧ readings (tell c h s) = readings s ∧
  finished_grace_ (tell c h s) = finished_grace_ s.
Proof. unfold tell. destruct (live_ s !! c); [|done]. by destruct (hear _ _ _). Qed.
Lemma retire_database c s : database (retire clock c s) = database s.
Proof. unfold retire. by destruct (live_ s !! c). Qed.
Lemma told_database c n s s' : told clock c n s = Ok s' → database s' = database s.
Proof.
  destruct n as [pl|d|r d|d|d| |r d]; cbn.
  1: { unfold connect_received. destruct (parse_message pl) as [cd|e]; [|destruct (is_decode_error e); [|done]; by intros [= <-]].
       destruct (_ ≫= o_factory) as [make|]; [|by intros [= <-]].
       destruct (make _) as [a|]; intros [= <-]; [|done]. by rewrite (proj1 (tell_same _ _ _)). }
  all: intros [= <-]; unfold connect_confirmed, connect_rejected, data_received, interrupt_received, run_state, disconnected, when_live;
    try case_match; rewrite ?retire_database; try done;
    try exact (proj1 (tell_same _ _ _)).
Qed.
Lemma happen_db s h : DbOk s → DbOk (happen s h).
Proof.
  intros Hs. destruct h as [n nm f|n nm|c n|open cd a|]; cbn.
  - destruct (add_object n nm f s) as [s'|] eqn:E; [by eapply add_object_ok|done].
  - by apply remove_object_ok.
  - destruct (told clock c n s) as [s'|] eqn:E; [|done]. eapply DbOk_database; [by eapply told_database|done].
  - destruct (session_connect open cd a s) as [[o s']|] eqn:E; [|done]. revert E. unfold session_connect.
    repeat case_match; intros [= <- <-]; try done; by apply (DbOk_database s).
  - eapply DbOk_database; [|exact Hs]. exact (proj2 (proj2 (put_away_same _ _))).
Qed.
Lemma run_db l : DbOk (session_run (@new_session A) l).
Proof.
  generalize (@new_session_ok A). generalize (@new_session A). induction l as [|h l IH]; intros s Hs; [done|]. by apply IH, happen_db.
Qed.

(** ** What is put away stays for the grace period *)

(** The session's clock readings only grow, the grace period stays, and what
    is in [finished_] leaves it only when it is old enough at one of them. *)
Definition Keeps_for (s s' : session A) : Prop :=
  (readings s ≤ readings s')%nat ∧ finished_grace_ s' = finished_grace_ s ∧
  ∀ r, r ∈ finished_ s → (∀ i, (i < readings s')%nat → clock i - r_when r < finished_grace_ s) → r ∈ finished_ s'.
Lemma keeps_same s s' : finished_ s' = finished_ s → readings s' = readings s → finished_grace_ s' = finished_grace_ s → Keeps_for s s'.
Proof. intros E1 E2 E3. split; [lia|]. split; [done|]. intros r Hr _. by rewrite E1. Qed.
Lemma keeps_trans s1 s2 s3 : Keeps_for s1 s2 → Keeps_for s2 s3 → Keeps_for s1 s3.
Proof.
  intros (L1 & G1 & K1) (L2 & G2 & K2). split; [lia|]. split; [congruence|]. intros r Hr Hi. apply K2.
  - apply K1; [done|]. intros i Hl. apply Hi. lia.
  - intros i Hl. rewrite G1. by apply Hi.
Qed.
Lemma keeps_tell c h s : Keeps_for s (tell c h s).
Proof. destruct (tell_same c h s) as (_ & ? & ? & ?). by apply keeps_same. Qed.
Lemma keeps_read s : Keeps_for s (read_once s).
Proof. split; [cbn; lia|]. by split. Qed.
Lemma keeps_append l s : Keeps_for s (read_once (with_finished (finished_ s ++ [mkRetired l (clock (readings s))]) s)).
Proof. split; [cbn; lia|]. split; [done|]. intros r Hr _. cbn. apply elem_of_app. by left. Qed.
Lemma keeps_sweep s : Keeps_for s (read_once (sweep_finished (clock (readings s)) s)).
Proof.
  split; [cbn; lia|]. split; [done|]. intros r Hr Hi. cbn in *. apply list_elem_of_filter. split; [|done].
  specialize (Hi (readings s) ltac:(lia)). lia.
Qed.
Lemma keeps_live v s : Keeps_for s (with_live v s).
Proof. by apply keeps_same. Qed.
Lemma keeps_say l s : Keeps_for s (say l s).
Proof. by apply keeps_same. Qed.
Lemma keeps_retire c s : Keeps_for s (retire clock c s).
Proof.
  unfold retire. destruct (live_ s !! c); [|by apply keeps_same]. cbv zeta.
  eapply keeps_trans; [apply keeps_sweep|]. eapply keeps_trans; [apply keeps_append|apply keeps_live].
Qed.
Lemma keeps_for_when c f s : (∀ s, Keeps_for s (f s)) → Keeps_for s (when_live c f s).
Proof. intros Hf. unfold when_live. case_match; [done|by apply keeps_same]. Qed.
Lemma keeps_told c n s s' : told clock c n s = Ok s' → Keeps_for s s'.
Proof.
  destruct n as [pl|d|r d|d|d| |r d]; cbn.
  1: { unfold connect_received. destruct (parse_message pl) as [cd|e]; [|destruct (is_decode_error e); [|done]; intros [= <-]; apply keeps_say].
       destruct (_ ≫= o_factory) as [make|]; [|intros [= <-]; apply keeps_say].
       destruct (make _) as [a|]; intros [= <-]; (eapply keeps_trans; [apply keeps_read|]); [|apply keeps_say].
       eapply keeps_trans; [|apply keeps_tell]. eapply keeps_trans; [apply keeps_live|apply keeps_say]. }
  all: intros [= <-]; first [apply keeps_tell|apply keeps_for_when; intros s1; eapply keeps_trans; [apply keeps_tell|]; first [apply keeps_say|apply keeps_retire]].
Qed.
Lemma keeps_put_away l s : Keeps_for s (put_away clock l s).
Proof. revert s. induction l as [|[c v] l IH]; intros s; simpl; [by apply keeps_same|]. eapply keeps_trans; [apply keeps_append|apply IH]. Qed.
Lemma keeps_happen s h : Keeps_for s (happen s h).
Proof.
  destruct h as [n nm f|n nm|c n|open cd a|]; cbn.
  - unfold add_object. repeat case_match; by apply keeps_same.
  - unfold remove_object. destruct (index_from _ _ _ _). by apply keeps_same.
  - destruct (told clock c n s) as [s'|] eqn:E; [by eapply keeps_told|by apply keeps_same].
  - unfold session_connect. repeat case_match; simplify_eq; by apply keeps_same.
  - unfold session_stop. eapply keeps_trans; [apply keeps_put_away|by apply keeps_same].
Qed.
Lemma keeps_run s l : Keeps_for s (session_run s l).
Proof. revert s. induction l as [|h l IH]; intros s; [by apply keeps_same|]. eapply keeps_trans; [apply keeps_happen|apply IH]. Qed.

(** A conversation that ends: its application, having heard so, is the last of
    [finished_]. *)
Lemma disconnected_retires c reason s l : live_ s !! c = Some l →
  let s' := disconnected clock c reason s in
  live_ s' = delete c (live_ s) ∧
  last (finished_ s') = Some (mkRetired (mkLive (l_conn l) (app_disconnected (l_conn l) reason (l_app l)).1) (clock (S (readings s)))).
Proof.
  intros E. unfold disconnected, when_live. rewrite E. rewrite (tell_some _ _ _ _ E). unfold retire. cbn.
  rewrite lookup_insert_eq. cbn. rewrite delete_insert_eq. split; [done|]. by rewrite last_snoc.
Qed.
End Run.

(** ** The properties *)

Lemma add_object_iff {A} n nm f (s : session A) : DbOk s →
  (∃ s', add_object n nm f s = Ok s') ↔
  (n ≠ 0 ∨ nm ≠ []) ∧ len nm ≤ 16 ∧
  (∀ o, o ∈ objects_ s → (n ≠ 0 → o_number o ≠ n) ∧ (nm ≠ [] → o_name o ≠ upper nm)).
Proof.
  intros Hs. assert (len (upper nm) = len nm) as El by (unfold len, upper; by rewrite length_map).
  assert (upper nm = [] ↔ nm = []) as En by (split; [apply map_eq_nil|by intros ->]).
  assert (is_Some (by_number_ s !! n) ↔ ∃ o, o ∈ objects_ s ∧ n ≠ 0 ∧ o_number o = n) as In.
  { rewrite number_index by done. rewrite list_elem_of_omap. unfold number_key. f_equiv. intros o.
    destruct (Z.eqb_spec (o_number o) 0); naive_solver. }
  assert (is_Some (by_name_ s !! upper nm) ↔ ∃ o, o ∈ objects_ s ∧ nm ≠ [] ∧ o_name o = upper nm) as Im.
  { rewrite name_index by done. rewrite list_elem_of_omap. unfold name_key. f_equiv. intros o.
    case_bool_decide as E; (split; [intros [Ho Hk]|intros (Ho & Hn & Hk)]); try done.
    - by rewrite Hk in E; rewrite En in E.
    - injection Hk as Hk. split; [done|]. split; [|done]. rewrite <-En, <-Hk. done.
    - by rewrite Hk. }
  unfold add_object. rewrite El. split.
  - intros [s' E]. destruct (_ && _) eqn:E1; [done|]. destruct (16 <? _) eqn:E2; [done|].
    destruct (negb (n =? 0) && _) eqn:E3; [done|]. destruct (negb (bool_decide (upper nm = [])) && _) eqn:E4; [done|].
    split; [|split; [by apply Z.ltb_ge|]].
    + destruct (Z.eqb_spec n 0); [|by left]. right. by apply bool_decide_eq_false in E1.
    + intros o Ho. split; intros H0 Hk.
      * rewrite (proj2 (Z.eqb_neq n 0) H0) in E3. apply bool_decide_eq_false in E3. apply E3, In. eauto.
      * rewrite bool_decide_eq_false_2 in E4 by (by rewrite En). apply bool_decide_eq_false in E4. apply E4, Im. eauto.
  - intros (H1 & H2 & H3). rewrite (proj2 (Z.ltb_ge 16 (len nm)) H2).
    assert ((n =? 0) && bool_decide (nm = []) = false) as ->.
    { destruct (Z.eqb_spec n 0); [|done]. apply bool_decide_eq_false_2. by destruct H1. }
    rewrite !(bool_decide_eq_false_2 (is_Some _)) by (rewrite ?In, ?Im; naive_solver).
    rewrite !andb_false_r. eauto.
Qed.

Lemma remove_added {A} n nm f (s s' : session A) : DbOk s → add_object n nm f s = Ok s' →
  objects_ (remove_object n nm s') = objects_ s.
Proof.
  intros Hs E. pose proof (proj1 (add_object_iff n nm f s Hs) (ex_intro _ s' E)) as (H1 & _ & H3).
  assert (objects_ s' = objects_ s ++ [mkObject n (upper nm) f]) as Eo.
  { revert E. unfold add_object. repeat case_match; by intros [= <-]. }
  unfold remove_object. destruct (index_from _ _ _ _). cbn. rewrite Eo, List.filter_app. cbn. unfold names_object at 2. cbn.
  rewrite Z.eqb_refl, bool_decide_eq_true_2 by done. cbn. rewrite app_nil_r. clear Eo E Hs.
  induction (objects_ s) as [|o l IH]; [done|]. cbn. unfold names_object at 1.
  destruct (H3 o ltac:(by left)) as [Hn Hm]. rewrite IH by (intros; apply H3; by right).
  destruct (Z.eqb_spec (o_number o) n) as [<-|]; [|done]. rewrite bool_decide_eq_false_2; [done|]. intros Ek.
  destruct (decide (o_number o = 0)) as [E0|]; [|by destruct Hn]. destruct H1 as [?|H1]; [done|]. by destruct (Hm H1).
Qed.

(** C25: The object database.  After any sequence of registrations, refused ones
    included, withdrawals, connects and notices: a lookup by number or by name, whatever
    its case, finds exactly the object that has it; a registration is accepted exactly
    when the object can be asked for, its name is at most sixteen characters and neither
    its number nor its name is taken; and withdrawing it again gives the objects back as
    they were. *)
Theorem object_database {A} `{Application A} (clock : nat → Z) (l : list (@happening A)) :
  let s := session_run clock new_session l in
  (∀ n o, find_number n s = Some o ↔ n ≠ 0 ∧ o ∈ objects_ s ∧ o_number o = n) ∧
  (∀ nm o, find_name nm s = Some o ↔ nm ≠ [] ∧ o ∈ objects_ s ∧ o_name o = upper nm) ∧
  (∀ n nm f, (∃ s', add_object n nm f s = Ok s') ↔
     (n ≠ 0 ∨ nm ≠ []) ∧ len nm ≤ 16 ∧
     ∀ o, o ∈ objects_ s → (n ≠ 0 → o_number o ≠ n) ∧ (nm ≠ [] → o_name o ≠ upper nm)) ∧
  (∀ n nm f s', add_object n nm f s = Ok s' → objects_ (remove_object n nm s') = objects_ s).
Proof.
  intros s. pose proof (run_db clock l) as Hs. split; [intros; by apply find_number_spec|].
  split; [intros; by apply find_name_spec|]. split; [intros; by apply add_object_iff|]. intros n nm f s'. by apply remove_added.
Qed.

(** The life of a conversation.  Over every sequence of registrations, connects,
    notices from NSP in any order and stops, an application hears nothing before its
    conversation is opened, hears that the link is gone at most once and nothing after
    it; and the conversations the session has are exactly those opened and not ended. *)
Theorem conversation_lifecycle {A} `{Application A} (clock : nat → Z) (l : list (@happening A)) (c : Z) :
  let s := session_run clock new_session l in
  lives c (out s) = Some (bool_decide (is_Some (live_ s !! c))).
Proof. apply run_life. Qed.

(** The grace period.  When NSP reports that the link of a live conversation is gone,
    its application, having been told, is put away and the conversation is forgotten; and
    whatever happens next, it is still there as long as no reading of the clock is as
    much as the grace period of sixty seconds later: nothing is destroyed within a
    callback, nor soon after. *)
Theorem finished_conversation_kept {A} `{Application A} (clock : nat → Z) (s : session A) (c reason : Z) (data : Bytes)
    (v : Live A) (l : list (@happening A)) :
  live_ s !! c = Some v →
  let r := mkRetired (mkLive (l_conn v) (app_disconnected (l_conn v) reason (l_app v)).1) (clock (S (readings s))) in
  let s1 := happen clock s (HTold c (Disconnected reason data)) in
  let s2 := session_run clock s1 l in
  live_ s1 = delete c (live_ s) ∧ r ∈ finished_ s1 ∧
  ((∀ i, (i < readings s2)%nat → clock i - r_when r < finished_grace_ s1) → r ∈ finished_ s2).
Proof.
  intros E r s1 s2. destruct (disconnected_retires clock c reason s v E) as [El Ef]. split; [exact El|].
  assert (r ∈ finished_ s1) as Hr by (by apply last_Some_elem_of in Ef). split; [done|]. intros Hi.
  by apply (proj2 (proj2 (keeps_run clock s1 l))).
Qed.

(** Does a connect for [d] ask for the object [o]? *)
Definition asks {A} (d : EndUser) (o : Object A) : Prop :=
  match fmt d with by_number => o_number o = num d | _ => o_name o = upper (name d) end.

Lemma asked_for_spec {A} d (s : session A) o : DbOk s → valid d = true →
  asked_for d s = Some o ↔ o ∈ objects_ s ∧ asks d o.
Proof.
  intros Hs Hv. unfold asked_for, asks. unfold valid in Hv. destruct (fmt d);
    [rewrite (bool_decide_eq_true_2 (by_number = _)) by done|rewrite bool_decide_eq_false_2 by done..]; cbn [andb].
  - rewrite Hv. rewrite find_number_spec by done. zbool. naive_solver.
  - apply andb_prop in Hv as [Hn _]. apply negb_true_iff in Hn. rewrite Hn. apply bool_decide_eq_false in Hn.
    rewrite find_name_spec by done. naive_solver.
  - apply andb_prop in Hv as [Hn _]. apply negb_true_iff in Hn. rewrite Hn. apply bool_decide_eq_false in Hn.
    rewrite find_name_spec by done. naive_solver.
Qed.
Lemma unflagged_handle c c' : unflagged c' = unflagged c →
  handle_of c' = handle_of c ∧ dstname c' = dstname c ∧ connectdata c' = connectdata c.
Proof. destruct c, c'. cbn. unfold unflagged, with_payload, handle_of. cbn. by intros [= -> -> -> -> -> -> -> -> -> -> ->]. Qed.

(** C24: A connect reaches its object.  The connect message another node's session control
    builds for any valid end users, access control strings of up to 39 characters and
    data of up to 16 bytes encodes without an error, and a session that has received it
    opens a conversation with a fresh application of the one object asked for, by number
    or by name whatever its case, and gives it the connect data, the end users and the
    access control as they were sent; when there is no such object the connect is
    rejected as such and nothing else happens, and likewise when the object has no
    application to give. *)
Theorem connect_reaches_object {A} `{Application A} (clock : nat → Z) (l : list (@happening A)) (c : Z) (cd : ConnectData) :
  connect_ok cd →
  let s := session_run clock new_session l in
  ∃ bs cd', encode_message cd = Ok (bs, cd') ∧
  (∀ o make a, o ∈ objects_ s → asks (dstname cd) o → o_factory o = Some make → make (readings s) = Some a →
     let '(a', k) := app_connect (handle_of cd) (connectdata cd) a in
     ∃ s', told clock c (ConnectReceived bs) s = Ok s' ∧ live_ s' = <[c := mkLive (handle_of cd) a']> (live_ s) ∧
       out s' = out s ++ Opened c :: Heard c (HConnect (connectdata cd)) :: map (Calls c) k) ∧
  (∀ o make, o ∈ objects_ s → asks (dstname cd) o → o_factory o = Some make → make (readings s) = None →
     told clock c (ConnectReceived bs) s = Ok (say [Calls c (Reject OBJ_FAIL [])] (read_once s))) ∧
  ((∀ o, o ∈ objects_ s → ¬ asks (dstname cd) o) →
     told clock c (ConnectReceived bs) s = Ok (say [Calls c (Reject NO_OBJ [])] s)).
Proof.
  intros Hc s. pose proof (run_db clock l) as Hs. fold s in Hs.
  destruct (connect_rt cd Hc) as (bs & cd' & E & _ & P & U). exists bs, cd'. split; [done|].
  apply unflagged_handle in U as (Uh & Ud & Uc). pose proof (k_dst _ Hc) as [Hv _].
  unfold told, connect_received. rewrite P, Ud, Uh, Uc. repeat split.
  - intros o make a Ho Ha Hf Hm. destruct (app_connect _ _ a) as [a' k] eqn:Ea.
    rewrite (proj2 (asked_for_spec _ s o Hs Hv)) by done. cbn [mbind option_bind]. rewrite Hf, Hm. cbv zeta. eexists. split; [done|].
    erewrite tell_some by apply lookup_insert_eq. cbn. rewrite Ea. cbn. rewrite insert_insert_eq. split; [done|]. by rewrite <-app_assoc.
  - intros o make Ho Ha Hf Hm. rewrite (proj2 (asked_for_spec _ s o Hs Hv)) by done. cbn [mbind option_bind]. by rewrite Hf, Hm.
  - intros Hn. destruct (asked_for _ s) as [o|] eqn:Eo; [|done].
    apply (asked_for_spec _ s o Hs Hv) in Eo as [? ?]. by destruct (Hn o).
Qed.

(** ** Examples *)

Definition txt (s : string) : text := String.list_ascii_of_string s.
Definition with_mirror : list (@happening Mirror) := [HAdd 25 (txt "mirror") (Some (λ _, Some mirror))].
Definition ask_mirror : ConnectData :=
  set_connectdata [1; 2] (set_rqstrid (txt "SYSTEM") (set_srcname (named (txt "USER")) (set_dstname (number 25) new_connect))).

Lemma ask_mirror_ok : connect_ok ask_mirror.
Proof. constructor; try (by apply (bool_decide_unpack _)); unfold user_ok; split_and!; done. Qed.

Lemma connect_reaches_object_witness :
  ∃ bs s', told (λ _, 0) 7 (ConnectReceived bs) (session_run (λ _, 0) new_session with_mirror) = Ok s' ∧
    out s' = [Opened 7; Heard 7 (HConnect [1; 2]); Calls 7 (Accept [255; 255] 0)].
Proof.
  destruct (connect_reaches_object (λ _, 0) with_mirror 7 ask_mirror ask_mirror_ok) as (bs & cd' & _ & Hr & _).
  destruct (Hr (mkObject 25 (txt "MIRROR") (Some (λ _, Some mirror))) (λ _, Some mirror) mirror) as (s' & E & _ & Ho);
    [by left|reflexivity|reflexivity|reflexivity|].
  exists bs, s'. split; [exact E|exact Ho].
Defined.

Definition example_session : session Mirror :=
  with_live {[7 := mkLive new_handle mirror]} new_session.
Lemma finished_conversation_kept_witness :
  ∃ r, r ∈ finished_ (session_run (λ _, 5) (happen (λ _, 5) example_session (HTold 7 (Disconnected 42 [])))
    [HTold 9 RunState; HStop]).
Proof.
  eexists. refine (proj2 (proj2 (finished_conversation_kept (λ _, 5) example_session 7 42 [] _ [HTold 9 RunState; HStop] _)) _).
  - reflexivity.
  - intros i _. reflexivity.
Defined.
