(* ===== verification/Nml.v ===== *)
(** The management listener: [ReplyDict] of [src/nice/replydict.cc], the reads
    of [Node::nice_read] in [src/common/node.cc], and the application of object
    19 in [src/nice/nml.cc] with its loop connection to the mirror object.

    What the layers add to a read is the class [Layers], of which [NiceReads]
    has the instance; what the node and session control answer the listener is
    the class [NodeServices].  What the listener does to the outside is its
    list of [out]. *)

From stdpp Require Import sorting.
From S2P Require Import Prelude Buffer Types Connection SessionPackets Session NiceValue NiceParams NicePackets.
#[local] Open Scope Z_scope.

(** ** [ReplyDict] *)

(** The order of [std::string]. *)
Fixpoint text_leb (a b : text) : bool :=
  match a, b with
  | [], _ => true
  | _, [] => false
  | x :: a, y :: b => (code x <? code y) || ((code x =? code y) && text_leb a b)
  end.
Definition by_id {B} (a b : Z * B) : Prop := a.1 ≤ b.1.
#[export] Instance by_id_dec {B} : RelDecision (@by_id B).
Proof. intros a b. unfold by_id. apply _. Defined.
Definition by_name {B} (a b : text * B) : Prop := text_leb a.1 b.1 = true.
#[export] Instance by_name_dec {B} : RelDecision (@by_name B).
Proof. intros a b. unfold by_name. apply _. Defined.

(** The groups of an entity, by number or by name. *)
Record ReplyDict := mkDict {
  dict_kind : Z;
  every_address_ : bool;
  numeric_ : gmap Z (list NiceReply);
  named_ : gmap text (list NiceReply);
}.
Definition new_dict (k : Z) : ReplyDict := mkDict k false ∅ ∅.
Definition with_numeric (v : gmap Z (list NiceReply)) (d : ReplyDict) : ReplyDict := mkDict (dict_kind d) (every_address_ d) v (named_ d).
Definition with_named (v : gmap text (list NiceReply)) (d : ReplyDict) : ReplyDict := mkDict (dict_kind d) (every_address_ d) (numeric_ d) v.
Definition dict_empty (d : ReplyDict) : bool := bool_decide (numeric_ d = ∅) && bool_decide (named_ d = ∅).
Definition about (e : Entity.t) : NiceReply := mkReply rc_success 65535 [] true e ∅ false 0.

(** The code hands out a reference to the last reply of the group, which the
    caller fills in: here it is [f], applied to it. *)
Definition last_of (fresh : NiceReply) (f : NiceReply → NiceReply) (g : list NiceReply) : list NiceReply :=
  match List.rev g with [] => [f fresh] | r :: l => List.rev l ++ [f r] end.
Definition node_entry (named_as : Z → NiceNode) (i : Z) (f : NiceReply → NiceReply) (d : ReplyDict) : ReplyDict :=
  with_numeric (<[i := last_of (about (Entity.make_node (named_as i))) f (default [] (numeric_ d !! i))]> (numeric_ d)) d.
Definition area_entry (a : Z) (f : NiceReply → NiceReply) (d : ReplyDict) : ReplyDict :=
  with_numeric (<[a := last_of (about (Entity.make_area a)) f (default [] (numeric_ d !! a))]> (numeric_ d)) d.
Definition named_entry (n : text) (f : NiceReply → NiceReply) (d : ReplyDict) : ReplyDict :=
  with_named (<[n := last_of (about (Entity.make_string (dict_kind d) n)) f (default [] (named_ d !! n))]> (named_ d)) d.
Definition add_named (n : text) (f : NiceReply → NiceReply) (d : ReplyDict) : ReplyDict :=
  with_named (<[n := default [] (named_ d !! n) ++ [f (about (Entity.make_string (dict_kind d) n))]]> (named_ d)) d.
Definition contains_node (i : Z) (d : ReplyDict) : bool := bool_decide (is_Some (numeric_ d !! i)).

Definition nonempty (g : list NiceReply) : bool := negb (bool_decide (g = [])).
(** [sorted]: the groups in send order, of what the request covers. *)
Definition sorted_nodes (exec : Z) (req : NiceRequest) (d : ReplyDict) : list (list NiceReply) :=
  (match numeric_ d !! exec with
   | Some g => if ReqEntity.match_node exec (entity req) then [g] else []
   | None => []
   end) ++
  map snd (List.filter (λ kg, negb (kg.1 =? exec) && ReqEntity.match_node (u16 kg.1) (entity req))
             (merge_sort by_id (map_to_list (numeric_ d)))).
Definition sorted_others (req : NiceRequest) (d : ReplyDict) : list (list NiceReply) :=
  map snd (List.filter (λ kg, negb ((ReqEntity.code (entity req) =? 0) && (dict_kind d =? Entity.area) &&
                                    negb (kg.1 =? ReqEntity.area (entity req))))
             (merge_sort by_id (map_to_list (numeric_ d)))) ++
  map snd (List.filter (λ kg, ReqEntity.match_name kg.1 (entity req)) (merge_sort by_name (map_to_list (named_ d)))).
Definition sorted (exec : Z) (req : NiceRequest) (d : ReplyDict) : list (list NiceReply) :=
  List.filter nonempty (if dict_kind d =? Entity.node then sorted_nodes exec req d else sorted_others req d).

(** ** [Node::nice_read] *)

(** What each layer adds to a read, or the exception that ends it; [None] is a layer the
    node does not have.  The layers of a node are in the file [NiceReads]. *)
Class Layers := {
  logger_read : option (NiceRequest → ReplyDict → result ReplyDict);
  nsp_read : option (NiceRequest → ReplyDict → result ReplyDict);
  routing_read : option (NiceRequest → ReplyDict → result ReplyDict);
  datalink_read : option (NiceRequest → ReplyDict → result ReplyDict);
  mop_read : option (NiceRequest → ReplyDict → result ReplyDict);
  routing_counters : option (NiceReply → NiceReply);
}.
Definition layer (f : option (NiceRequest → ReplyDict → result ReplyDict)) (req : NiceRequest) (d : ReplyDict) : result ReplyDict :=
  match f with Some f => f req d | None => Ok d end.

(** The node's own members. *)
Record identity := mkIdentity {
  id_ : Z; name_ : text; ident_ : text; swident_ : text;
  peak_conns : Z; oversized_loss : Z; fmt_errors : Z; ver_rejects : Z;
}.
Definition with_entity (e : ReqEntity.t) (r : NiceRequest) : NiceRequest :=
  mkRequest (function r) (permanent r) (readzero r) (info r) (entity_type r) e (has_qual_circuit r) (qual_circuit r)
    (has_qual_node r) (qual_node r) (test_type r) (access_ctl r) (username r) (password r) (account r)
    (loop_count r) (loop_length r) (loop_with r) (physical_address r).
Definition with_number (c i : Z) (e : ReqEntity.t) : ReqEntity.t :=
  ReqEntity.mk (ReqEntity.etype e) c (ReqEntity.name e) i (ReqEntity.area e).
Definition with_params (l : ParamList) (r : NiceReply) : NiceReply :=
  mkReply (retcode r) (detail r) (message r) (has_entity r) (r_entity r) l (has_notlooped r) (notlooped r).
Definition with_reply_entity (e : Entity.t) (r : NiceReply) : NiceReply :=
  mkReply (retcode r) (detail r) (message r) (has_entity r) e (params r) (has_notlooped r) (notlooped r).

Section Read.
Context `{LA : Layers}.
Context (me : identity) (find_name : text → option Z) (named_as : Z → NiceNode).

(** The executor and node names, as addresses. *)
Definition resolve (req : NiceRequest) : option NiceRequest :=
  let req := if (entity_type req =? Entity.node) && (ReqEntity.code (entity req) =? 0) && (ReqEntity.id (entity req) =? 0)
             then with_entity (with_number 0 (id_ me) (entity req)) req else req in
  if (entity_type req =? Entity.node) && (0 <? ReqEntity.code (entity req)) then
    match find_name (ReqEntity.name (entity req)) with
    | None => None
    | Some i => Some (with_entity (with_number 0 i (entity req)) req)
    end
  else Some req.

Definition set_if (b : bool) (n : Z) (v : result Value) (l : ParamList) : result ParamList :=
  if b then v ← v; Ok (set n v l) else Ok l.
Definition small (n : Z) : Value := mkValue Kind.du 1 (PUint n).
(** The executor's own parameters and counters. *)
Definition executor_params (req : NiceRequest) (l : ParamList) : result ParamList :=
  l ← set_if (sum req || chars req) 100 (make_ai (ident_ me)) l;
  l ← (if chars req then
         l ← set_if true 126 (make_ai (swident_ me)) l;
         Ok (set 101 (mkValue Kind.cm 3 (PList [small 4; small 0; small 0])) l)
       else set_if (info req =? 1) 10 (make_hi (Macaddr.from_nodeid (id_ me))) l);
  let l := if sumstat req then set 0 (mkValue Kind.c 1 (PUint 0)) l else l in
  Ok (if counters req then
        set_counter 930 (mkCounter (ver_rejects me) 1 false 0) (set_counter 910 (mkCounter (fmt_errors me) 1 false 0)
          (set_counter 903 (mkCounter (oversized_loss me) 1 false 0) (set_counter 700 (mkCounter (peak_conns me) 2 false 0) l)))
      else l).
Definition executor_reply (req : NiceRequest) (l : ParamList) (r : NiceReply) : NiceReply :=
  let r := with_reply_entity (Entity.make_node (mkNiceNode (id_ me) (name_ me) true)) (with_params l r) in
  if counters req then match routing_counters with Some f => f r | None => r end else r.
(** The reply about the executor, as it is in the dictionary. *)
Definition executor_now (d : ReplyDict) : NiceReply :=
  default (about (Entity.make_node (named_as (id_ me)))) (last (default [] (numeric_ d !! id_ me))).
(** The answer's first part is the return code, zero when all is well. *)
Definition nice_read (req : NiceRequest) (d : ReplyDict) : result (Z * NiceRequest * ReplyDict) :=
  match resolve req with
  | None => Ok (rc_unrecognized_component, req, d)
  | Some req =>
      if entity_type req =? Entity.logging then d ← layer logger_read req d; Ok (0, req, d)
      else if events req then Ok (rc_unrecognized_function, req, d)
      else
        d ← layer nsp_read req d;
        d ← layer routing_read req d;
        d ← layer datalink_read req d;
        d ← layer mop_read req d;
        if (entity_type req =? Entity.node) && contains_node (id_ me) d then
          l ← executor_params req (params (executor_now d));
          Ok (0, req, node_entry named_as (id_ me) (executor_reply req l) d)
        else Ok (0, req, d)
  end.
End Read.

(** ** The listener *)

Definition nice_version : Bytes := [4; 0; 0].
Definition mirror_object : Z := 25.
(** Reasons of session control that the mirror detail tells apart. *)
Definition mirror_detail (reason : Z) : Z :=
  if reason =? 4 then 7 else if reason =? 5 then 6 else if reason =? 34 then 8 else if reason =? 36 then 8
  else if reason =? 38 then 12 else if reason =? 39 then 3 else 5.

(** What the listener does: it answers on the NCP connection, and it opens,
    uses and closes a loop connection of its own. *)
Inductive out :=
| Accepted (data : Bytes)
| Reply (r : NiceReply) (msg : Bytes)
| LoopConnect (target : Z) (cd : ConnectData)
| LoopSend (msg : Bytes)
| LoopDisconnect (c : Z).

(** [NmlApplication]; a connection is a number, and the loop application is
    told of things as long as the listener has not orphaned it. *)
Record nml := mkNml {
  conn_ : bool;
  phase2_ : bool;
  loop_conn_ : option Z;
  loop_data_ : Bytes;
  loop_count_ : Z;
}.
Definition new_nml : nml := mkNml false false None [] 0.
Definition with_loop_conn (v : option Z) (s : nml) : nml := mkNml (conn_ s) (phase2_ s) v (loop_data_ s) (loop_count_ s).
Definition with_loop_data (v : Bytes) (s : nml) : nml := mkNml (conn_ s) (phase2_ s) (loop_conn_ s) v (loop_count_ s).
Definition with_loop_count (v : Z) (s : nml) : nml := mkNml (conn_ s) (phase2_ s) (loop_conn_ s) (loop_data_ s) v.

(** What session control answers a connect, [None] being no session control. *)
Class NodeServices := { open_loop : option (Z → ConnectData → option Z) }.

(** A handler's state, what it did, and the exception that ended it. *)
Definition step_result : Type := nml * list out * option err.

Section Listener.
Context `{WS : WideShift} `{LA : Layers} `{NS : NodeServices}.
Context (me : identity) (find_name : text → option Z) (named_as : Z → NiceNode).

(** [send], when the NCP connection runs or does not. *)
Definition send (running : bool) (r : NiceReply) (s : nml) : list out * option err :=
  if negb (conn_ s && running) then ([], None)
  else match encode_reply r with Ok b => ([Reply r b], None) | Throw e => ([], Some e) end.
Fixpoint send_all (running : bool) (l : list NiceReply) (s : nml) : list out * option err :=
  match l with
  | [] => ([], None)
  | r :: l =>
      match send running r s with
      | (o, Some e) => (o, Some e)
      | (o, None) => let '(o', e) := send_all running l s in (o ++ o', e)
      end
  end.
Definition answer_with (running : bool) (l : list NiceReply) (s : nml) : step_result :=
  let '(o, e) := send_all running l s in (s, o, e).
Definition say_first (l : list out) (r : step_result) : step_result := let '(s, o, e) := r in (s, l ++ o, e).

Definition loop_error (rc det : Z) (s : nml) : NiceReply :=
  mkReply rc (u16 det) [] false Entity.make_none ∅ true (u16 (if loop_count_ s <? 0 then 0 else loop_count_ s)).
Definition send_loop_error (running : bool) (rc det : Z) (s : nml) : step_result := answer_with running [loop_error rc det s] s.

(** The flags of a group: more follow, but after the last. *)
Fixpoint flagged (g : list NiceReply) : list NiceReply :=
  match g with
  | [] => []
  | [r] => [with_retcode rc_success r]
  | r :: g => with_retcode rc_more r :: flagged g
  end.
Definition replies_to (req : NiceRequest) (d : ReplyDict) : list NiceReply :=
  match sorted (id_ me) req d with
  | [] => if ReqEntity.mult (entity req) then [new_reply rc_multiple; new_reply rc_done]
          else [error rc_unrecognized_component 65535 []]
  | [[r]] => [with_retcode rc_success r]
  | groups => new_reply rc_multiple :: List.concat (map flagged groups) ++ [new_reply rc_done]
  end.
Definition read (running : bool) (req : NiceRequest) (s : nml) : step_result :=
  if permanent req then answer_with running [error rc_unrecognized_function 65535 []] s
  else match nice_read me find_name named_as req (new_dict (entity_type req)) with
       | Throw e => (s, [], Some e)
       | Ok (err, req, d) =>
           answer_with running (if negb (err =? 0) then [error err 65535 []] else replies_to req d) s
       end.

(** [close_loop]. *)
Definition close_loop (s : nml) : step_result :=
  match loop_conn_ s with Some c => (with_loop_conn None s, [LoopDisconnect c], None) | None => (s, [], None) end.
Definition then_ (r : step_result) (f : nml → step_result) : step_result :=
  match r with (s, o, None) => say_first o (f s) | r => r end.

(** The mistakes a loop request can have, the last one found counts. *)
Definition bad_argument (req : NiceRequest) : Z :=
  let b := if (loop_with req =? 0) || (loop_with req =? 1) || (loop_with req =? 2) then 0 else 152 in
  let b := if (loop_length req <? 1) || (65535 <? loop_length req) then 151 else b in
  if loop_count req <? 1 then 150 else b.
Definition fill_byte (req : NiceRequest) : Z :=
  if loop_with req =? 0 then 0 else if loop_with req =? 1 then 255 else 85.
Definition loop_target (req : NiceRequest) : option Z :=
  if 0 <? ReqEntity.code (entity req) then find_name (ReqEntity.name (entity req)) else Some (ReqEntity.id (entity req)).
Definition loop_connect_data (req : NiceRequest) : ConnectData :=
  SessionPackets.mkConnectData (SessionPackets.number mirror_object) (SessionPackets.named (str_text "NML"))
    (access_ctl req) false false false false 0 false [] (username req) (password req) (account req) [].
Definition loop (running : bool) (req : NiceRequest) (s : nml) : step_result :=
  if negb (test_type req =? test_node) then send_loop_error running rc_unrecognized_function 65535 (with_loop_count 0 s)
  else match loop_conn_ s with
  | Some _ => send_loop_error running rc_operation_failure 65535 s
  | None =>
      let s := with_loop_count (loop_count req) s in
      if negb (bad_argument req =? 0) then send_loop_error running rc_invalid_parameter (bad_argument req) s
      else match loop_target req with
      | None => send_loop_error running rc_mirror_connect_failed 2 s
      | Some target =>
          if target =? 0 then send_loop_error running rc_mirror_connect_failed 2 s
          else
            let s := with_loop_data (replicate (Z.to_nat (loop_length req)) (fill_byte req)) s in
            match open_loop with
            | None => send_loop_error running rc_mirror_connect_failed 0 s
            | Some open =>
                let cd := loop_connect_data req in
                say_first [LoopConnect target cd]
                  match open target cd with
                  | None => send_loop_error running rc_mirror_connect_failed 2 s
                  | Some c => (with_loop_conn (Some c) s, [], None)
                  end
            end
      end
  end.

(** The NCP connection. *)
Definition nml_connect (data : Bytes) (s : nml) : step_result :=
  let p2 := bool_decide (data = []) in
  (mkNml true p2 (loop_conn_ s) (loop_data_ s) (loop_count_ s), [Accepted (if p2 then [] else nice_version)], None).
Definition nml_data (running : bool) (data : Bytes) (s : nml) : step_result :=
  let s := mkNml true (phase2_ s) (loop_conn_ s) (loop_data_ s) (loop_count_ s) in
  let refuse rc := answer_with running [error rc 65535 []] s in
  if phase2_ s then refuse rc_unrecognized_function
  else match parse_request data with
       | Throw e => if is_decode_error e then refuse rc_unrecognized_function else (s, [], Some e)
       | Ok req =>
           if function req =? fn_read then read running req s
           else if function req =? fn_test then loop running req s
           else if function req =? fn_zero then refuse rc_privilege_violation
           else refuse rc_unrecognized_function
       end.
Definition nml_disconnected (s : nml) : step_result :=
  then_ (close_loop (mkNml false (phase2_ s) (loop_conn_ s) (loop_data_ s) (loop_count_ s))) (λ s, (s, [], None)).

(** The loop connection. *)
Definition send_loop_message (running loop_running : bool) (s : nml) : step_result :=
  if bool_decide (loop_conn_ s = None) || negb loop_running then
    then_ (close_loop s) (send_loop_error running rc_mirror_disconnected 0)
  else (s, [LoopSend (0 :: loop_data_ s)], None).
Definition loop_accepted (running loop_running : bool) (data : Bytes) (s : nml) : step_result :=
  let max := match data with a :: b :: _ => Z.lor a (Z.shiftl b 8) | _ => 0 end in
  if negb (max =? 0) && (max <? len (loop_data_ s) + 1) then
    then_ (close_loop s) (send_loop_error running rc_invalid_parameter 151)
  else send_loop_message running loop_running s.
Definition loop_data (running loop_running : bool) (data : Bytes) (s : nml) : step_result :=
  if negb (bool_decide (data = 1 :: loop_data_ s)) then
    then_ (close_loop s) (send_loop_error running rc_bad_loopback 65535)
  else
    let s := with_loop_count (loop_count_ s - 1) s in
    if loop_count_ s <? 1 then then_ (close_loop s) (answer_with running [new_reply rc_success])
    else send_loop_message running loop_running s.
Definition loop_down (running : bool) (reason : Z) (s : nml) : step_result :=
  match loop_conn_ s with
  | None => (s, [], None)
  | Some _ => send_loop_error running rc_mirror_connect_failed (mirror_detail reason) (with_loop_conn None s)
  end.

(** What the listener hears; a loop application that is no longer the
    listener's own is orphaned. *)
Inductive event :=
| NcpConnect (data : Bytes)
| NcpData (data : Bytes)
| NcpGone
| LoopAccepted (c : Z) (loop_running : bool) (data : Bytes)
| LoopData (c : Z) (loop_running : bool) (data : Bytes)
| LoopGone (c : Z) (reason : Z).
Definition own_loop (c : Z) (s : nml) (r : step_result) : step_result :=
  if bool_decide (loop_conn_ s = Some c) then r else (s, [], None).
Definition step (running : bool) (s : nml) (e : event) : step_result :=
  match e with
  | NcpConnect data => nml_connect data s
  | NcpData data => nml_data running data s
  | NcpGone => nml_disconnected s
  | LoopAccepted c r data => own_loop c s (loop_accepted running r data s)
  | LoopData c r data => own_loop c s (loop_data running r data s)
  | LoopGone c reason => own_loop c s (loop_down running reason s)
  end.
End Listener.
