(* ===== verification/NmlLaws.v ===== *)
(** The management listener and the NICE exchange: the form of an answer, that
    each step of the listener answers what it was asked, for any layers, and
    that a loop through the mirror object goes round as often as it was asked
    to. *)

From stdpp Require Import sorting.
From S2P Require Import Prelude Buffer Types Connection SessionPackets Session NiceValue NiceParams NicePackets NiceLaws NiceMessages Nml.
#[local] Open Scope Z_scope.

(** ** The forms of an answer *)

Inductive group : list NiceReply → Prop :=
| last_reply r : retcode r = rc_success → group [r]
| more_replies r g : retcode r = rc_more → group g → group (r :: g).
Inductive answer : list NiceReply → Prop :=
| single r : retcode r ≠ rc_multiple → retcode r ≠ rc_more → retcode r ≠ rc_done → answer [r]
| several gs m d : Forall group gs → retcode m = rc_multiple → retcode d = rc_done → answer (m :: List.concat gs ++ [d]).

Lemma flagged_group g : g ≠ [] → group (flagged g).
Proof.
  induction g as [|r g IH]; [done|]. intros _. destruct g as [|r' g]; [by constructor|].
  change (flagged (r :: r' :: g)) with (with_retcode rc_more r :: flagged (r' :: g)). constructor; [done|]. by apply IH.
Qed.
Lemma several_groups gs : Forall (λ g, g ≠ []) gs → answer (new_reply rc_multiple :: List.concat (map flagged gs) ++ [new_reply rc_done]).
Proof. intros H. apply several; [|done..]. apply Forall_fmap. eapply Forall_impl; [exact H|]. intros g. apply flagged_group. Qed.
Lemma replies_to_answer me req d : answer (replies_to me req d).
Proof.
  unfold replies_to. destruct (sorted (id_ me) req d) as [|g gs] eqn:E.
  - destruct (ReqEntity.mult _); [apply (several []); [constructor|done..]|by constructor].
  - assert (H : Forall (λ g, g ≠ []) (g :: gs)).
    { rewrite <-E. unfold sorted. apply Forall_forall. intros x Hx. apply list_elem_of_In, filter_In in Hx as [_ Hx].
      unfold nonempty in Hx. by apply negb_true_iff, bool_decide_eq_false in Hx. }
    destruct g as [|r [|r' g]], gs as [|g' gs]; try (by apply (several_groups (_ :: _))). by constructor.
Qed.

Definition replies (o : list out) : list NiceReply := omap (λ x, match x with Reply r _ => Some r | _ => None end) o.
Lemma replies_app a b : replies (a ++ b) = replies a ++ replies b.
Proof. apply omap_app. Qed.

(** A request counts as waiting while its loop runs. *)
Definition waiting (s : nml) : nat := match loop_conn_ s with Some _ => 1 | None => 0 end.

Section Listener.
Context `{WS : WideShift} `{LA : Layers} `{NS : NodeServices}.
Context (me : identity) (find_name : text → option Z) (named_as : Z → NiceNode).

(** The handler answers [n] requests more than it leaves waiting. *)
Definition Answers (n : nat) (s : nml) (r : step_result) : Prop :=
  let '(s', o, e) := r in e = None →
  conn_ s' = true ∧ ∃ l, replies o = List.concat l ∧ Forall answer l ∧ (length l + waiting s' = n + waiting s)%nat.

Lemma Answers_from n s1 s2 r : waiting s1 = waiting s2 → Answers n s1 r → Answers n s2 r.
Proof. intros E. destruct r as [[s' o] e]. unfold Answers. by rewrite E. Qed.

Lemma send_all_replies l s o : conn_ s = true → send_all true l s = (o, None) → replies o = l.
Proof.
  intros Hc. revert o. induction l as [|r l IH]; intros o; cbn [send_all]; [by intros [= <-]|]. unfold send at 1. rewrite Hc. cbn [andb negb].
  destruct (encode_reply r) as [b|e]; [|done]. destruct (send_all true l s) as [o' [e|]]; [done|]. intros [= <-].
  change (Reply r b :: o') with ([Reply r b] ++ o'). by rewrite replies_app, (IH o').
Qed.
Lemma answer_with_one l s n s0 : conn_ s = true → answer l → (n + waiting s0 = S (waiting s))%nat → Answers n s0 (answer_with true l s).
Proof.
  intros Hc Ha Hn. unfold Answers, answer_with. destruct (send_all true l s) as [o e] eqn:E. intros ->.
  split; [done|]. exists [l]. rewrite (send_all_replies l s o Hc E). cbn. rewrite app_nil_r. split; [done|]. split; [by repeat constructor|]. lia.
Qed.
Lemma say_first_answers n s l r : replies l = [] → Answers n s r → Answers n s (say_first l r).
Proof.
  intros Hl. destruct r as [[s' o] e]. unfold Answers, say_first. intros H ->. destruct (H eq_refl) as (Hc & k & E & Ha & Hn).
  split; [done|]. exists k. by rewrite replies_app, Hl.
Qed.
Lemma loop_error_single rc det s : rc < 0 → rc ≠ rc_done → answer [loop_error rc det s].
Proof. intros. constructor; cbn; unfold rc_multiple, rc_more, rc_done in *; lia. Qed.
Lemma error_single rc det m : rc < 0 → rc ≠ rc_done → answer [error rc det m].
Proof. intros. constructor; cbn; unfold rc_multiple, rc_more, rc_done in *; lia. Qed.

(** Giving up a loop answers the request that waits. *)
Lemma close_answers l c s : conn_ s = true → loop_conn_ s = Some c → (∀ s, answer (l s)) →
  Answers 0 s (then_ (close_loop s) (λ s, answer_with true (l s) s)).
Proof.
  intros Hc Hl Ha. unfold close_loop. rewrite Hl. cbn [then_]. apply say_first_answers; [done|].
  apply answer_with_one; [done|done|]. unfold waiting. by rewrite Hl.
Qed.
Lemma close_errors rc det c s : conn_ s = true → loop_conn_ s = Some c → rc < 0 → rc ≠ rc_done →
  Answers 0 s (then_ (close_loop s) (send_loop_error true rc det)).
Proof. intros Hc Hl H1 H2. apply (close_answers (λ s, [loop_error rc det s]) c); [done|done|]. intros. by apply loop_error_single. Qed.

Lemma read_answers req s : conn_ s = true → Answers 1 s (read me find_name named_as true req s).
Proof.
  intros Hc. unfold read. destruct (permanent req); [apply answer_with_one; [done|by apply error_single|lia]|].
  destruct (nice_read _ _ _ req _) as [[[err req'] d]|e] eqn:E; [|done].
  apply answer_with_one; [done| |lia]. destruct (Z.eqb_spec err 0) as [->|Hne]; cbn [negb]; [apply replies_to_answer|].
  unfold nice_read in E. destruct (resolve me find_name req) as [q|]; [|injection E as <- <- <-; by apply error_single].
  destruct (_ =? Entity.logging); [destruct (layer _ _ _); [by injection E as <- <- <-|done]|].
  destruct (events q); [injection E as <- <- <-; by apply error_single|].
  repeat (destruct (layer _ _ _); cbn [mbind result_bind] in E; [|done]). destruct (_ && _); [|by injection E as <- <- <-]. destruct (executor_params _ _ _); [|done]. by injection E as <- <- <-.
Qed.
Lemma loop_answers req s : conn_ s = true → Answers 1 s (loop find_name true req s).
Proof.
  intros Hc. unfold loop.
  assert (Herr : ∀ rc det s', conn_ s' = true → waiting s' = waiting s → rc < 0 → rc ≠ rc_done → Answers 1 s (send_loop_error true rc det s')).
  { intros rc det s' Hc' Hw H1 H2. apply answer_with_one; [done|by apply loop_error_single|lia]. }
  destruct (negb _); [by apply Herr|]. destruct (loop_conn_ s) as [c|] eqn:El; [by apply Herr|]. cbv zeta.
  destruct (negb _); [by apply Herr|]. destruct (loop_target find_name req) as [t|]; [|by apply Herr]. destruct (t =? 0); [by apply Herr|].
  destruct open_loop as [open|]; [|by apply Herr]. apply say_first_answers; [done|]. destruct (open t _) as [c|]; [|by apply Herr].
  intros _. split; [done|]. exists []. split; [done|]. split; [done|]. unfold waiting. by rewrite El.
Qed.
Lemma data_answers data s : conn_ s = true → Answers 1 s (nml_data me find_name named_as true data s).
Proof.
  intros Hc. unfold nml_data. cbv zeta. set (s1 := mkNml true _ _ _ _). assert (E1 : s1 = s) by (unfold s1; destruct s; cbn in Hc; by subst).
  rewrite E1. assert (Href : ∀ rc, rc < 0 → rc ≠ rc_done → Answers 1 s (answer_with true [error rc 65535 []] s)).
  { intros. apply answer_with_one; [done|by apply error_single|lia]. }
  destruct (phase2_ s); [by apply Href|]. destruct (parse_request data) as [req|e]; [|destruct (is_decode_error e); [by apply Href|done]].
  destruct (_ =? fn_read); [by apply read_answers|]. destruct (_ =? fn_test); [by apply loop_answers|].
  destruct (_ =? fn_zero); by apply Href.
Qed.
Lemma message_answers c lr s : conn_ s = true → loop_conn_ s = Some c → Answers 0 s (send_loop_message true lr s).
Proof.
  intros Hc Hl. unfold send_loop_message. rewrite Hl, bool_decide_eq_false_2 by done. cbn [orb]. destruct (negb lr).
  - by apply (close_errors _ _ c).
  - intros _. split; [done|]. by exists [].
Qed.
Lemma own_answers n c s r : conn_ s = true → (loop_conn_ s = Some c → Answers 0 s r) → n = 0%nat → Answers n s (own_loop c s r).
Proof.
  intros Hc H ->. unfold own_loop. destruct (bool_decide_reflect (loop_conn_ s = Some c)); [auto|].
  intros _. split; [done|]. by exists [].
Qed.

(** The events on a connection that stays. *)
Definition ongoing (e : event) : bool := match e with NcpConnect _ | NcpGone => false | _ => true end.
Definition asks (e : event) : nat := match e with NcpData _ => 1 | _ => 0 end.
Lemma step_answers e s : ongoing e = true → conn_ s = true → Answers (asks e) s (step me find_name named_as true s e).
Proof.
  intros He Hc. destruct e as [d|d| |c lr d|c lr d|c reason]; try done; cbn [step asks].
  - by apply data_answers.
  - apply own_answers; [done| |done]. intros Hl. unfold loop_accepted. cbv zeta. destruct (_ && _); [by apply (close_errors _ _ c)|by apply (message_answers c)].
  - apply own_answers; [done| |done]. intros Hl. unfold loop_data. cbv zeta. destruct (negb _); [by apply (close_errors _ _ c)|].
    apply (Answers_from _ (with_loop_count (loop_count_ s - 1) s)); [done|]. destruct (_ <? 1).
    + apply (close_answers (λ _, [new_reply rc_success]) c); [done|done|]. intros. by constructor.
    + apply (message_answers c); done.
  - apply own_answers; [done| |done]. intros Hl. unfold loop_down. rewrite Hl. apply answer_with_one; [done| |unfold waiting; by rewrite Hl].
    by apply loop_error_single.
Qed.

End Listener.

(** ** A run of the listener *)

(** What the node is like at some moment: its layers, its own members, and its node
    database in both directions. *)
Record moment := mkMoment {
  m_layers : Layers; m_me : identity; m_find_name : text → option Z; m_named_as : Z → NiceNode }.

Section Run.
Context `{WS : WideShift} `{NS : NodeServices}.

(** A run of events, each at its moment, with the exceptions that ended some. *)
Definition step_at (m : moment) : bool → nml → event → step_result :=
  step (LA := m_layers m) (m_me m) (m_find_name m) (m_named_as m).
Definition nml_step (st : nml * list out * list err) (me : moment * event) : nml * list out * list err :=
  let '(s, o, es) := st in
  let '(s', o', x) := step_at me.1 true s me.2 in
  (s', o ++ o', es ++ match x with Some x => [x] | None => [] end).
Definition nml_run (s : nml) (l : list (moment * event)) : nml * list out * list err := foldl nml_step (s, [], []) l.
Lemma nml_run_snoc s l e : nml_run s (l ++ [e]) = nml_step (nml_run s l) e.
Proof. unfold nml_run. by rewrite foldl_app. Qed.
Definition asked (l : list (moment * event)) : nat := list_sum (map (λ me, asks me.2) l).

Lemma run_answers s0 l s o : conn_ s0 = true → loop_conn_ s0 = None → forallb (λ me, ongoing me.2) l = true → nml_run s0 l = (s, o, []) →
  conn_ s = true ∧ ∃ as_, replies o = List.concat as_ ∧ Forall answer as_ ∧ (length as_ + waiting s = asked l)%nat.
Proof.
  intros Hc Hl. revert s o. induction l as [|e l IH] using rev_ind; intros s o Ho.
  { intros [= <- <-]. split; [done|]. exists []. unfold waiting. by rewrite Hl. }
  rewrite forallb_app in Ho. apply andb_prop in Ho as [Ho He]. cbn in He. rewrite andb_true_r in He.
  rewrite nml_run_snoc. destruct (nml_run s0 l) as [[s1 o1] es1]. cbn. destruct (step_at e.1 true s1 e.2) as [[s2 o2] x] eqn:E.
  destruct es1; [|done]. destruct x; [done|]. intros [= <- <-]. destruct (IH s1 o1 Ho eq_refl) as (Hc1 & l1 & E1 & A1 & N1).
  pose proof (step_answers (LA := m_layers e.1) (m_me e.1) (m_find_name e.1) (m_named_as e.1) e.2 s1 He Hc1) as H.
  fold (step_at e.1) in H. rewrite E in H. destruct (H eq_refl) as (Hc2 & l2 & E2 & A2 & N2).
  split; [done|]. exists (l1 ++ l2). rewrite replies_app, E1, E2, List.concat_app. split; [done|]. split; [by apply Forall_app|].
  unfold asked in *. rewrite map_app, list_sum_app, length_app. cbn. lia.
Qed.
End Run.

(** ** A request that cannot be read is a decode error *)
Definition no_internal {A} (r : result A) : Prop := match r with Throw e => is_decode_error e = true | Ok _ => True end.
Lemma no_internal_bind {A B} d (m : result (A * Bytes)) (f : A → Bytes → result B) P :
  reads d m P → (∀ a d', P a d' → no_internal (f a d')) → no_internal ('(a, d') ← m; f a d').
Proof. intros Hm Hf. destruct m as [[a d']|e]; [|done]. destruct Hm as [_ HP]. exact (Hf a d' HP). Qed.

Lemma reads_string d : bytes_ok d → reads d (get_string d) (λ _ d', bytes_ok d' ∧ (length d' < length d)%nat).
Proof.
  intros Hd. unfold get_string. eapply (reads_bind d _ _ (λ _ r, bytes_ok r ∧ (length r < length d)%nat)).
  - unfold read_image. eapply reads_bind; [by apply reads_byte|]. intros n d' (Hn & Hl & Hd') _.
    pose proof (reads_raw (Z.to_nat n) d' Hd') as H. destruct (Decoder.raw _ d') as [[b r]|]; [|done]. destruct H as (Hs & _ & _ & Hr).
    split; [done|]. apply suffix_length in Hs. split; [done|lia].
  - intros b d' H _. by apply reads_ok.
Qed.
Lemma reads_entity e d : bytes_ok d → reads d (ReqEntity.decode e d) (λ _ d', bytes_ok d' ∧ (length d' < length d)%nat).
Proof.
  intros Hd. unfold ReqEntity.decode. cbv zeta. eapply reads_bind; [by apply reads_byte|]. intros b d' (Hb & Hl & Hd') _.
  destruct (_ && _).
  { eapply reads_bind; [by apply reads_uint|]. intros v d2 (_ & Hl2 & Hd2) _. apply reads_ok. split; [done|lia]. }
  destruct (_ && _).
  { eapply reads_bind; [by apply reads_byte|]. intros v d2 (_ & Hl2 & Hd2) _. apply reads_ok. split; [done|lia]. }
  destruct (_ && _); [done|]. unfold ReqEntity.decode_named. destruct (0 <? _).
  { pose proof (reads_raw (Z.to_nat (signed_byte b)) d' Hd') as H. destruct (Decoder.raw _ d') as [[x r]|]; [|done].
    destruct H as (Hs & _ & _ & Hr). cbn. split; [done|]. apply suffix_length in Hs. split; [done|lia]. }
  destruct (_ =? 0); [done|]. apply reads_ok. split; [done|lia].
Qed.

Section Requests.
Context `{WS : WideShift} {WL : WideLaws}.

Lemma quals_errors fuel q d : bytes_ok d → (length d ≤ fuel)%nat → no_internal (parse_quals fuel q d).
Proof.
  revert q d. induction fuel as [|fuel IH]; intros q d Hd Hl; cbn [parse_quals].
  { destruct d; [done|cbn in Hl; lia]. }
  destruct (Decoder.empty d); [done|]. eapply no_internal_bind; [by apply reads_uint|]. intros n d' (_ & Hl2 & Hd'). cbv zeta.
  destruct (_ || _).
  { eapply no_internal_bind; [by apply reads_string|]. intros s r [Hr Hlr]. apply IH; [done|lia]. }
  destruct (_ =? 800); [|done]. eapply no_internal_bind; [by apply reads_entity|]. intros s r [Hr Hlr]. apply IH; [done|lia].
Qed.

(** The payload each loop parameter has. *)
Definition arg_payload (code : Z) (v : Value) : Prop :=
  (code = 2 ∨ code = 129 → ∃ u, data v = PUint u) ∧ (code = 32 → ∃ b, data v = PBytes b).
Lemma reads_arg code d : code ∈ [2; 129; 32; 64] → bytes_ok d →
  reads d (decode_body decode code d) (λ v d', arg_payload code v ∧ bytes_ok d').
Proof.
  intros Hc Hd. assert (Hnum : ∀ k n, 1 ≤ n ≤ 2 → reads d (read_number (make_number k) n d) (λ v d', (∃ u, data v = PUint u) ∧ bytes_ok d')).
  { intros k n Hn. unfold read_number, read_uint. destruct (Nat.leb_spec (Z.to_nat n) 8); [|lia].
    eapply (reads_value _ _ (λ u, make_number k u n)); [by apply reads_uint|]. intros u d' (_ & _ & Hd'). unfold make_number.
    destruct (check_bytes_error n) as [->|[-> _]]; cbn; [done|]. by split; [eexists|]. }
  assert (Himg : ∀ (make : Bytes → result Value), (∀ b, len b ≤ 255 → ∃ v, make b = Ok v ∧ (code = 32 → ∃ b, data v = PBytes b)) → code = 32 ∨ code = 64 →
    reads d ('(b, d) ← read_image d; v ← make b; Ok (v, d)) (λ v d', arg_payload code v ∧ bytes_ok d')).
  { intros make Hm Hcode. eapply reads_value; [by apply reads_image|]. intros b d' (_ & Hb & Hd'). destruct (Hm b Hb) as (v & -> & Hv).
    split; [|done]. split; [lia|]. exact Hv. }
  assert (Hcases : code = 2 ∨ code = 129 ∨ code = 32 ∨ code = 64) by (rewrite !elem_of_cons, elem_of_nil in Hc; tauto). clear Hc.
  destruct Hcases as [->|[->|[->| ->]]].
  - change 2 with (type_code_of Kind.du 2) at 1. rewrite body_number by (auto; lia). eapply reads_weaken; [apply Hnum; lia|].
    intros v d' [? ?]. split; [|done]. by split.
  - change 129 with (type_code_of Kind.c 1) at 1. rewrite body_number by (auto; lia). eapply reads_weaken; [apply Hnum; lia|].
    intros v d' [? ?]. split; [|done]. by split.
  - apply (Himg make_hi); [|auto]. intros b Hb. unfold make_hi. rewrite (proj2 (Z.ltb_ge _ _)) by done. eexists. split; [done|]. by eexists.
  - apply (Himg (λ b, make_ai (of_bytes b))); [|auto]. intros b Hb. unfold make_ai, of_bytes. rewrite len_map.
    rewrite (proj2 (Z.ltb_ge _ _)) by done. by eexists.
Qed.
Lemma param_code n circuit code : find_req_param n circuit = Some code →
  (n = 150 ∨ n = 151) ∧ code = 2 ∨ n = 152 ∧ code = 129 ∨ n = 10 ∧ code = 32 ∨ (n ≠ 150 ∧ n ≠ 151 ∧ n ≠ 152 ∧ n ≠ 10) ∧ code ∈ [2; 129; 32; 64].
Proof.
  unfold find_req_param. intros H. apply fmap_Some in H as ([m c] & H & ->). apply List.find_some in H as [Hin Heq].
  cbn in Heq. apply Z.eqb_eq in Heq as ->. destruct circuit; cbn in Hin; cbn; rewrite !elem_of_cons;
    intuition congruence || (repeat destruct Hin as [Hin|Hin]; try injection Hin as <- <-; try done; auto 10; right; right; right; split; [lia|tauto]).
Qed.
Lemma set_arg_errors n code v k : arg_payload code v → (n = 150 ∨ n = 151) ∧ code = 2 ∨ n = 152 ∧ code = 129 ∨ n = 10 ∧ code = 32 ∨ (n ≠ 150 ∧ n ≠ 151 ∧ n ≠ 152 ∧ n ≠ 10) ∧ code ∈ [2; 129; 32; 64] →
  ∃ k', set_arg n v k = Ok k'.
Proof.
  intros [Hu Hb] Hn. unfold set_arg, as_uint.
  destruct Hn as [[[-> | ->] ->]|[[-> ->]|[[-> ->]|[(H1 & H2 & H3 & H4) _]]]].
  - destruct Hu as [u E]; [auto|]. rewrite E. by eexists.
  - destruct Hu as [u E]; [auto|]. rewrite E. by eexists.
  - destruct Hu as [u E]; [auto|]. rewrite E. by eexists.
  - destruct Hb as [u E]; [auto|]. rewrite E. by eexists.
  - rewrite !(proj2 (Z.eqb_neq _ _)) by done. by eexists.
Qed.
Lemma args_errors circuit fuel k d : bytes_ok d → (length d ≤ fuel)%nat → no_internal (parse_args circuit fuel k d).
Proof.
  revert k d. induction fuel as [|fuel IH]; intros k d Hd Hl; cbn [parse_args].
  { destruct d; [done|cbn in Hl; lia]. }
  destruct (Decoder.empty d); [done|]. eapply no_internal_bind; [by apply reads_uint|]. intros n d' (_ & Hl2 & Hd'). cbv zeta.
  destruct (find_req_param (u16 n) circuit) as [code|] eqn:E; [|done]. apply param_code in E.
  assert (Hcode : code ∈ [2; 129; 32; 64]) by (rewrite !elem_of_cons in *; intuition).
  pose proof (reads_arg code d' Hcode Hd') as Hr. destruct (decode_body decode code d') as [[v r]|]; [|done].
  destruct Hr as (Hs & Hv & Hrok). cbn [mbind result_bind]. destruct (set_arg_errors _ _ v k Hv E) as [k' ->]. cbn [mbind result_bind].
  apply suffix_length in Hs. apply IH; [done|lia].
Qed.
Lemma request_errors d : bytes_ok d → no_internal (parse_request d).
Proof.
  intros Hd. unfold parse_request. eapply no_internal_bind; [by apply reads_byte|]. intros f d1 (_ & _ & H1). destruct (_ || _); [|destruct (_ =? fn_zero); [|destruct (_ =? fn_test); [|done]]].
  - eapply no_internal_bind; [by apply reads_byte|]. intros fl d2 (_ & _ & H2). cbv zeta. eapply no_internal_bind; [by apply reads_entity|]. intros e d3 [H3 _].
    pose proof (quals_errors (length d3) (None, None) d3 H3 (le_n _)) as Hq. by destruct (parse_quals _ _ d3).
  - eapply no_internal_bind; [by apply reads_byte|]. intros fl d2 (_ & _ & H2). cbv zeta. eapply no_internal_bind; [by apply reads_entity|]. done.
  - eapply no_internal_bind; [by apply reads_byte|]. intros fl d2 (_ & _ & H2). cbv zeta. unfold test_entity.
    assert (Hrest : ∀ et, no_internal ('(e, d) ← ReqEntity.decode et d2;
      '(u, p, a, d) ← (if negb (Z.land fl 128 =? 0) then
                       '(u, d) ← get_string d; '(p, d) ← get_string d; '(a, d) ← get_string d; Ok (u, p, a, d)
                     else Ok ([], [], [], d));
      k ← parse_args (Z.land fl 7 =? test_circuit) (length d) default_args d;
      Ok (test_request (Z.land fl 7) (negb (Z.land fl 128 =? 0)) et e u p a k))).
    { intros et. eapply no_internal_bind; [by apply reads_entity|]. intros e d3 [H3 _].
      match goal with |- no_internal (?m ≫= _) => assert (Hm : reads d3 m (λ _ d', bytes_ok d')); [|destruct m as [[[[u p] a] d4]|]; [|exact Hm]] end.
      - destruct (negb _); [|by apply reads_ok]. eapply reads_bind; [by apply reads_string|]. intros u d4 [H4 _] _.
        eapply reads_bind; [by apply reads_string|]. intros p d5 [H5 _] _. eapply reads_bind; [by apply reads_string|]. intros a d6 [H6 _] _. by apply reads_ok.
      - destruct Hm as [_ H4]. cbn [mbind result_bind]. pose proof (args_errors (Z.land fl 7 =? test_circuit) (length d4) default_args d4 H4 (le_n _)) as Ha.
        by destruct (parse_args _ _ _ d4). }
    destruct (_ =? test_node); [apply Hrest|]. destruct (_ =? test_line); [apply Hrest|]. destruct (_ =? test_circuit); [apply Hrest|done].
Qed.
End Requests.

(** ** No exception

    A reply is fine when it can be encoded whatever its return code; layers
    that only make fine replies, and a node whose own texts fit, never make a
    handler throw. *)
Section Exceptions.
Context `{WS : WideShift}.

Definition param_fine (p : Param) : Prop := ∃ b, encode_param p = Ok b.
Definition fine (r : NiceReply) : Prop :=
  len (message r) ≤ 255 ∧ (∃ b, Entity.encode_body (r_entity r) = Ok b) ∧ map_Forall (λ _, param_fine) (params r).
Lemma fine_encodes r : fine r → ∃ b, encode_reply r = Ok b.
Proof.
  intros (Hm & [e Ee] & Hp). unfold encode_reply. destruct (string_back (message r) 255 Hm ltac:(lia)) as (m & -> & _). cbn [mbind result_bind].
  destruct (has_entity r); [|by eexists]. rewrite Ee. cbn [mbind result_bind].
  assert (H : ∃ p, encode_params (params r) = Ok p).
  { unfold encode_params. assert (Hf : Forall (λ kp, param_fine kp.2) (entries (params r))).
    { rewrite entries_perm. apply Forall_forall. intros [k p] Hk. apply elem_of_map_to_list in Hk. by apply (Hp k p). }
    induction Hf as [|[k p] l [a Ha] _ [q Hq]]; [by eexists|]. exists (a ++ q). cbn in *. by rewrite Ha, Hq. }
  destruct H as [p ->]. by eexists.
Qed.
Lemma fine_retcode rc r : fine r → fine (with_retcode rc r).
Proof. done. Qed.
Definition group_fine (g : list NiceReply) : Prop := g ≠ [] ∧ Forall fine g.
Definition dict_fine (d : ReplyDict) : Prop :=
  map_Forall (λ _, group_fine) (numeric_ d) ∧ map_Forall (λ _, group_fine) (named_ d).

Class LayersFine `{LA : Layers} : Prop := {
  layer_fine f req d : f ∈ [logger_read; nsp_read; routing_read; datalink_read; mop_read] → dict_fine d →
    ∃ d', layer f req d = Ok d' ∧ dict_fine d';
  counters_fine f r : routing_counters = Some f → fine r → fine (f r);
}.
Definition identity_fine (me : identity) : Prop := len (ident_ me) ≤ 255 ∧ len (swident_ me) ≤ 255 ∧ len (name_ me) ≤ 127.

Lemma fine_error rc det m : len m ≤ 255 → fine (error rc det m).
Proof. intros. split; [done|]. split; [by eexists|apply map_Forall_empty]. Qed.
Lemma fine_plain rc : fine (new_reply rc).
Proof. by apply (fine_error rc 65535). Qed.
Lemma Forall_sorted exec req d : dict_fine d → Forall (Forall fine) (sorted exec req d).
Proof.
  intros [H1 H2]. apply Forall_forall. intros g Hg. unfold sorted in Hg. apply list_elem_of_In, filter_In in Hg as [Hg _].
  assert (Hn : ∀ kg, kg ∈ merge_sort by_id (map_to_list (numeric_ d)) → Forall fine kg.2).
  { intros [k x] Hx. rewrite merge_sort_Permutation in Hx. apply elem_of_map_to_list in Hx. by apply (H1 k x Hx). }
  assert (Ht : ∀ kg, kg ∈ merge_sort by_name (map_to_list (named_ d)) → Forall fine kg.2).
  { intros [k x] Hx. rewrite merge_sort_Permutation in Hx. apply elem_of_map_to_list in Hx. by apply (H2 k x Hx). }
  destruct (_ =? Entity.node); unfold sorted_nodes, sorted_others in Hg; apply in_app_or in Hg as [Hg|Hg].
  - destruct (numeric_ d !! exec) as [x|] eqn:E; [|done]. destruct (ReqEntity.match_node _ _); [|done].
    destruct Hg as [<-|[]]. by apply (H1 exec x E).
  - apply in_map_iff in Hg as (kg & <- & Hg). apply filter_In in Hg as [Hg _]. apply Hn. by apply list_elem_of_In.
  - apply in_map_iff in Hg as (kg & <- & Hg). apply filter_In in Hg as [Hg _]. apply Hn. by apply list_elem_of_In.
  - apply in_map_iff in Hg as (kg & <- & Hg). apply filter_In in Hg as [Hg _]. apply Ht. by apply list_elem_of_In.
Qed.
Lemma flagged_fine g : Forall fine g → Forall fine (flagged g).
Proof.
  induction 1 as [|r g Hr Hg IH]; [done|]. destruct g as [|r' g]; [by apply Forall_singleton|].
  change (flagged (r :: r' :: g)) with (with_retcode rc_more r :: flagged (r' :: g)). by apply Forall_cons.
Qed.
Lemma replies_fine me req d : dict_fine d → Forall fine (replies_to me req d).
Proof.
  intros Hd. pose proof (Forall_sorted (id_ me) req d Hd) as H. unfold replies_to. destruct (sorted _ req d) as [|g gs]; [case_match; [apply Forall_cons; split; [apply fine_plain|apply Forall_singleton, fine_plain]|by apply Forall_singleton, fine_error]|].
  assert (Hall : Forall fine (new_reply rc_multiple :: List.concat (map flagged (g :: gs)) ++ [new_reply rc_done])).
  { apply Forall_cons. split; [apply fine_plain|]. apply Forall_app. split; [|apply Forall_singleton, fine_plain]. apply Forall_concat, Forall_fmap. eapply Forall_impl; [exact H|].
    intros x. apply flagged_fine. }
  destruct g as [|r [|r' g]], gs as [|g' gs]; try exact Hall. apply Forall_cons in H as [H _]. apply Forall_cons in H as [H _]. by apply Forall_singleton.
Qed.

(** The executor's reply. *)
Lemma insert_fine k p (l : ParamList) : param_fine p → map_Forall (λ _, param_fine) l → map_Forall (λ _, param_fine) (<[k := p]> l).
Proof. intros. by apply map_Forall_insert_2. Qed.
Lemma value_fine n v : (∃ b, encode v = Ok b) → param_fine (mkParam n false v new_counter).
Proof. intros [b E]. unfold param_fine, encode_param. cbn [counter p_value]. rewrite E. by eexists. Qed.
Lemma counter_fine n v w : w = 1 ∨ w = 2 → param_fine (mkParam n true new_value (mkCounter v w false 0)).
Proof. intros [-> | ->]; by eexists. Qed.
Lemma set_if_fine b n v l : (b = true → ∃ x, v = Ok x ∧ ∃ bs, encode x = Ok bs) → map_Forall (λ _, param_fine) l →
  ∃ l', set_if b n v l = Ok l' ∧ map_Forall (λ _, param_fine) l'.
Proof.
  intros Hv Hl. unfold set_if. destruct b; [|by eexists]. destruct (Hv eq_refl) as (x & -> & Hx). eexists. split; [reflexivity|].
  apply insert_fine; [by apply value_fine|done].
Qed.
Lemma ai_fine s : len s ≤ 255 → ∃ x, make_ai s = Ok x ∧ ∃ bs, encode x = Ok bs.
Proof. intros H. unfold make_ai. rewrite (proj2 (Z.ltb_ge _ _)) by done. eexists. split; [done|]. by eexists. Qed.
Lemma executor_params_fine me req l : identity_fine me → map_Forall (λ _, param_fine) l →
  ∃ l', executor_params me req l = Ok l' ∧ map_Forall (λ _, param_fine) l'.
Proof.
  intros (Hi & Hs & _) Hl. unfold executor_params.
  destruct (set_if_fine (sum req || chars req) 100 (make_ai (ident_ me)) l (λ _, ai_fine _ Hi) Hl) as (l1 & -> & H1). cbn [mbind result_bind].
  set (m := if chars req then _ else _). assert (Hm : ∃ l2, m = Ok l2 ∧ map_Forall (λ _, param_fine) l2).
  { unfold m. destruct (chars req).
    - destruct (set_if_fine true 126 (make_ai (swident_ me)) l1 (λ _, ai_fine _ Hs) H1) as (l2 & -> & H2). eexists. split; [reflexivity|].
      apply insert_fine; [|done]. apply value_fine. by eexists.
    - apply set_if_fine; [|done]. intros _. eexists. split; [reflexivity|]. by eexists. }
  destruct Hm as (l2 & -> & H2). cbn [mbind result_bind]. eexists. split; [reflexivity|].
  assert (H3 : map_Forall (λ _, param_fine) (if sumstat req then set 0 (mkValue Kind.c 1 (PUint 0)) l2 else l2)).
  { destruct (sumstat req); [|done]. apply insert_fine; [|done]. apply value_fine. by eexists. }
  destruct (counters req); [|done]. repeat (apply insert_fine; [apply counter_fine; auto|]). done.
Qed.

Context `{LF : LayersFine} `{NS : NodeServices}.
Context (me : identity) (find_name : text → option Z) (named_as : Z → NiceNode).

Lemma node_entry_executor req l d : identity_fine me → map_Forall (λ _, param_fine) l → is_Some (numeric_ d !! id_ me) → dict_fine d →
  dict_fine (node_entry named_as (id_ me) (executor_reply me req l) d).
Proof.
  intros (_ & _ & Hn) Hl [g Hg] [H1 H2]. assert (Hx : ∀ r, fine r → fine (executor_reply me req l r)).
  { intros r [Hm _]. assert (Hr : fine (with_reply_entity (Entity.make_node (mkNiceNode (id_ me) (name_ me) true)) (with_params l r))).
    { split; [done|]. split; [|done]. unfold Entity.encode_body. cbn -[node_encode]. unfold node_encode. cbn [name].
      rewrite (proj2 (Z.ltb_ge _ _)) by done. by eexists. }
    unfold executor_reply. destruct (counters req); [|done]. destruct routing_counters as [f|] eqn:E; [|done]. by apply counters_fine. }
  split; [|done]. cbn. rewrite Hg. cbn. apply map_Forall_insert_2; [|done]. destruct (H1 _ g Hg) as [Hne Hf]. unfold last_of.
  apply Forall_rev in Hf. destruct (List.rev g) as [|r k] eqn:E; [by destruct Hne; rewrite <-(rev_involutive g), E|].
  apply Forall_cons in Hf as [Hr Hk]. split; [by destruct (List.rev k)|]. apply Forall_app. split; [by apply Forall_rev|]. by apply Forall_singleton, Hx.
Qed.
Lemma executor_now_fine d : dict_fine d → is_Some (numeric_ d !! id_ me) → map_Forall (λ _, param_fine) (params (executor_now me named_as d)).
Proof.
  intros [H1 _] [g Hg]. destruct (H1 _ g Hg) as [Hne Hf]. unfold executor_now. rewrite Hg. cbn. destruct (last g) as [r|] eqn:E; [|by apply last_None in E].
  cbn. apply last_Some_elem_of in E. rewrite Forall_forall in Hf. by destruct (Hf r E) as (_ & _ & ?).
Qed.
Lemma nice_read_fine req d : identity_fine me → dict_fine d → ∃ err req' d', nice_read me find_name named_as req d = Ok (err, req', d') ∧ dict_fine d'.
Proof.
  intros Hme Hd. unfold nice_read. destruct (resolve me find_name req) as [q|]; [|by eexists _, _, _].
  destruct (_ =? Entity.logging).
  { destruct (layer_fine logger_read q d) as (d' & -> & ?); [set_solver|done|]. by eexists _, _, _. }
  destruct (events q); [by eexists _, _, _|].
  destruct (layer_fine nsp_read q d) as (da & -> & Ha); [set_solver|done|]. cbn [mbind result_bind].
  destruct (layer_fine routing_read q da) as (db & -> & Hb); [set_solver|done|]. cbn [mbind result_bind].
  destruct (layer_fine datalink_read q db) as (dc & -> & Hc); [set_solver|done|]. cbn [mbind result_bind].
  destruct (layer_fine mop_read q dc) as (d1 & -> & H1); [set_solver|done|]. cbn [mbind result_bind].
  destruct (_ =? Entity.node) eqn:En; cbn [andb]; [|by eexists _, _, _].
  unfold contains_node. destruct (bool_decide_reflect (is_Some (numeric_ d1 !! id_ me))) as [Hs|]; [|by eexists _, _, _].
  destruct (executor_params_fine me q _ Hme (executor_now_fine d1 H1 Hs)) as (l & -> & Hl). cbn [mbind result_bind].
  eexists _, _, _. split; [done|]. by apply node_entry_executor.
Qed.

Lemma send_all_fine running l s : Forall fine l → ∃ o, send_all running l s = (o, None).
Proof.
  induction 1 as [|r l Hr _ [o IH]]; [by eexists|]. cbn [send_all]. unfold send. destruct (negb _); cbn; rewrite IH; [by eexists|].
  destruct (fine_encodes r Hr) as [b ->]. by eexists.
Qed.
(** The handler throws nothing. *)
Definition no_throw (r : step_result) : Prop := r.2 = None.
Lemma answer_fine running l s : Forall fine l → no_throw (answer_with running l s).
Proof. intros H. destruct (send_all_fine running l s H) as [o E]. unfold answer_with. by rewrite E. Qed.
Lemma loop_error_fine running rc det s : no_throw (send_loop_error running rc det s).
Proof. apply answer_fine, Forall_singleton. split; [done|]. split; [by eexists|apply map_Forall_empty]. Qed.
Lemma say_first_fine l r : no_throw r → no_throw (say_first l r).
Proof. by destruct r as [[s o] e]. Qed.
Lemma close_fine (f : nml → step_result) s : (∀ s, no_throw (f s)) → no_throw (then_ (close_loop s) f).
Proof. intros H. unfold close_loop. destruct (loop_conn_ s); apply say_first_fine, H. Qed.
Lemma message_fine running lr s : no_throw (send_loop_message running lr s).
Proof. unfold send_loop_message. destruct (_ || _); [apply close_fine; intros; apply loop_error_fine|done]. Qed.
Lemma own_fine c s r : no_throw r → no_throw (own_loop c s r).
Proof. unfold own_loop. by destruct (bool_decide _). Qed.

Lemma step_fine running s e : identity_fine me → (∀ d, e = NcpData d → no_internal (parse_request d)) →
  no_throw (step me find_name named_as running s e).
Proof.
  intros Hme Hp. destruct e as [d|d| |c lr d|c lr d|c reason]; cbn [step].
  - done.
  - assert (Hone : ∀ rc s', no_throw (answer_with running [error rc 65535 []] s')) by (intros; apply answer_fine, Forall_singleton, fine_error; done).
    unfold nml_data. cbv zeta. destruct (phase2_ _); [apply Hone|]. specialize (Hp d eq_refl). unfold no_internal in Hp.
    destruct (parse_request d) as [req|e]; [|rewrite Hp; apply Hone]. destruct (_ =? fn_read); [|destruct (_ =? fn_test); [|destruct (_ =? fn_zero); apply Hone]].
    + unfold read. destruct (permanent req); [apply Hone|].
      destruct (nice_read_fine req (new_dict (entity_type req)) Hme) as (err & q & d' & -> & Hd'); [split; apply map_Forall_empty|].
      apply answer_fine. destruct (negb _); [by apply Forall_singleton, fine_error|by apply replies_fine].
    + unfold loop. cbv zeta. repeat case_match; try apply loop_error_fine; try apply say_first_fine; try apply loop_error_fine; done.
  - unfold nml_disconnected. apply close_fine. done.
  - apply own_fine. unfold loop_accepted. cbv zeta. destruct (_ && _); [apply close_fine; intros; apply loop_error_fine|apply message_fine].
  - apply own_fine. unfold loop_data. cbv zeta. destruct (negb _); [apply close_fine; intros; apply loop_error_fine|].
    destruct (_ <? 1); [apply close_fine; intros; apply answer_fine, Forall_singleton, fine_plain|apply message_fine].
  - apply own_fine. unfold loop_down. destruct (loop_conn_ s); [apply loop_error_fine|done].
Qed.
End Exceptions.

(** *** A run *)
Section Runs.
Context `{WS : WideShift} {WL : WideLaws} `{NS : NodeServices}.

(** At a moment when what the layers make can be encoded, and the node's own texts. *)
Definition moment_fine (m : moment) : Prop := LayersFine (LA := m_layers m) ∧ identity_fine (m_me m).
Definition data_ok (e : event) : Prop := match e with NcpData d => bytes_ok d | _ => True end.
Lemma run_fine s l : Forall (λ me, moment_fine me.1 ∧ data_ok me.2) l → (nml_run s l).2 = [].
Proof.
  induction l as [|e l IH] using rev_ind; [done|]. rewrite Forall_app, Forall_singleton. intros [Hl [[Hf Hme] He]].
  rewrite nml_run_snoc. specialize (IH Hl). destruct (nml_run s l) as [[s1 o1] es1]. cbn in IH. subst es1. cbn.
  assert (Ht : no_throw (step_at e.1 true s1 e.2)).
  { apply (step_fine (LA := m_layers e.1)); [done|]. intros d E. apply request_errors. by rewrite E in He. }
  destruct (step_at e.1 true s1 e.2) as [[s2 o2] x]. unfold no_throw in Ht. cbn in Ht. by subst x.
Qed.
End Runs.

(** A node without layers, and its own members. *)
Definition no_layers : Layers := {|
  logger_read := None; nsp_read := None; routing_read := None; datalink_read := None; mop_read := None; routing_counters := None |}.
Definition example_identity : identity := mkIdentity 1025 (str_text "GROK") (str_text "a node") [] 0 0 0 0.

(** ** Loops *)
Section Loops.
Context `{WS : WideShift} `{LA : Layers} `{NS : NodeServices}.
Context (me : identity) (find_name : text → option Z) (named_as : Z → NiceNode).

(** What the mirror object says to a message, as what the listener hears. *)
Definition echoes (c : Z) (msg : Bytes) : list event :=
  omap (λ k, match k with SendData d => Some (LoopData c true d) | _ => None end) (mirror_reply msg).
(** The mirror answers each message of the listener, [n] times at most. *)
Fixpoint mirrored (n : nat) (c : Z) (s : nml) (o : list out) : nml * list out :=
  match n with
  | O => (s, o)
  | S n =>
      match o with
      | [LoopSend msg] =>
          match echoes c msg with
          | [e] => let '(s', o', _) := step me find_name named_as true s e in
                   let '(s'', o'') := mirrored n c s' o' in (s'', LoopSend msg :: o'')
          | _ => (s, o)
          end
      | _ => (s, o)
      end
  end.

Lemma echo_event c data : echoes c (0 :: data) = [LoopData c true (1 :: data)].
Proof. done. Qed.
Lemma echo_again c s : loop_conn_ s = Some c → 1 < loop_count_ s →
  step me find_name named_as true s (LoopData c true (1 :: loop_data_ s)) = (with_loop_count (loop_count_ s - 1) s, [LoopSend (0 :: loop_data_ s)], None).
Proof.
  intros Hl Hn. cbn [step]. unfold own_loop, loop_data. rewrite bool_decide_eq_true_2 by done. cbv zeta. rewrite bool_decide_eq_true_2 by done.
  cbn [negb]. rewrite (proj2 (Z.ltb_ge _ 1)) by (cbn; lia). unfold send_loop_message. cbn [loop_conn_ with_loop_count]. rewrite Hl.
  by rewrite bool_decide_eq_false_2.
Qed.
(** The answer to a loop that went round. *)
Definition success_msg : Bytes := [1; 255; 255; 0].
Lemma echo_last c s : conn_ s = true → loop_conn_ s = Some c → loop_count_ s = 1 →
  step me find_name named_as true s (LoopData c true (1 :: loop_data_ s)) =
  (with_loop_conn None (with_loop_count 0 s), [LoopDisconnect c; Reply (new_reply rc_success) success_msg], None).
Proof.
  intros Hc Hl Hn. cbn [step]. unfold own_loop, loop_data. rewrite bool_decide_eq_true_2 by done. cbv zeta. rewrite bool_decide_eq_true_2 by done.
  cbn [negb]. rewrite Hn. change (1 - 1) with 0. unfold close_loop. cbn [loop_count_ loop_conn_ with_loop_count Z.ltb Z.compare]. rewrite Hl.
  unfold then_, say_first, answer_with, send_all, send. cbn [conn_ with_loop_conn with_loop_count]. by rewrite Hc.
Qed.
Lemma mirrored_all c k n s : conn_ s = true → loop_conn_ s = Some c → loop_count_ s = Z.of_nat (S k) → (k < n)%nat →
  mirrored n c s [LoopSend (0 :: loop_data_ s)] =
  (with_loop_conn None (with_loop_count 0 s),
   replicate (S k) (LoopSend (0 :: loop_data_ s)) ++ [LoopDisconnect c; Reply (new_reply rc_success) success_msg]).
Proof.
  revert n s. induction k as [|k IH]; intros n s Hc Hl Hn Hk; (destruct n as [|n]; [lia|]); cbn [mirrored]; rewrite echo_event.
  - rewrite echo_last by done. by destruct n.
  - rewrite echo_again by (done || lia). pose proof (IH n (with_loop_count (loop_count_ s - 1) s)) as H.
    cbn [loop_data_ with_loop_count] in H. rewrite H; [done|done|done|cbn; lia|lia].
Qed.
End Loops.

(** A loop goes round.  A management request to loop messages to a node,
    read from the bytes it is sent as, makes the listener connect to the mirror
    object there; when that accepts and sends back what it is sent, the message
    asked for goes out as often as asked, the connection is closed, and then,
    and only then, the requester is told of success. *)
Theorem loop_succeeds {WS : WideShift} {LA : Layers} {NS : NodeServices}
    (me : identity) (find_name : text → option Z) (named_as : Z → NiceNode)
    (target c : Z) (ac : bool) (u p a : text) (k : loop_args) (s : nml) (open : Z → ConnectData → option Z) :
  let e := ReqEntity.make_node target in
  let req := test_request test_node ac Entity.node e u p a k in
  0 < target < 65536 → access_ok ac u p a → args_ok test_node k →
  1 ≤ a_count k → 1 ≤ a_length k ≤ 65534 → a_with k ∈ [0; 1; 2] →
  conn_ s = true → phase2_ s = false → loop_conn_ s = None →
  open_loop = Some open → open target (loop_connect_data req) = Some c →
  ∃ bs s1 m s2, encode_request req = Ok bs ∧
    step me find_name named_as true s (NcpData bs) = (s1, [LoopConnect target (loop_connect_data req)], None) ∧
    step me find_name named_as true s1 (LoopAccepted c true [255; 255]) = (s1, [LoopSend m], None) ∧
    m = 0 :: replicate (Z.to_nat (a_length k)) (fill_byte req) ∧
    mirrored me find_name named_as (Z.to_nat (a_count k)) c s1 [LoopSend m] =
      (s2, replicate (Z.to_nat (a_count k)) (LoopSend m) ++ [LoopDisconnect c; Reply (new_reply rc_success) success_msg]) ∧
    loop_conn_ s2 = None.
Proof.
  intros e req Ht Hac Hk Hn Hlen Hw Hc Hp Hl Hopen Ho.
  destruct (request_back req) as (bs & Ebs & _ & Hparse).
  { apply (ok_test test_node ac e); [done| |done|done]. split; [done|]. left. split; [done|]. split; [cbn; lia|done]. }
  assert (Hbad : bad_argument req = 0).
  { unfold bad_argument, req. cbn [loop_with loop_length loop_count test_request]. rewrite (proj2 (Z.ltb_ge (a_length k) 1)) by lia.
    rewrite (proj2 (Z.ltb_ge 65535 (a_length k))), (proj2 (Z.ltb_ge (a_count k) 1)) by lia. cbn [orb].
    rewrite !elem_of_cons, elem_of_nil in Hw. by destruct Hw as [->|[->|[->|[]]]]. }
  set (data := replicate (Z.to_nat (a_length k)) (fill_byte req)).
  set (s1 := with_loop_conn (Some c) (with_loop_data data (with_loop_count (a_count k) s))).
  assert (E1 : step me find_name named_as true s (NcpData bs) = (s1, [LoopConnect target (loop_connect_data req)], None)).
  { cbn [step]. unfold nml_data. cbv zeta. set (s0 := mkNml true _ _ _ _). assert (E : s0 = s) by (unfold s0; destruct s; cbn in Hc; by subst).
    rewrite E, Hp, Hparse. change (function req =? fn_read) with false. change (function req =? fn_test) with true. cbn iota.
    unfold loop. change (test_type req =? test_node) with true. cbn [negb]. rewrite Hl. cbv zeta. rewrite Hbad. cbn [Z.eqb negb].
    change (loop_target find_name req) with (Some target). cbn iota. rewrite (proj2 (Z.eqb_neq target 0)) by lia. rewrite Hopen, Ho. done. }
  exists bs, s1, (0 :: data). eexists. split; [done|]. split; [done|]. split; [|split; [done|split]].
  - cbn [step]. unfold own_loop, loop_accepted. rewrite bool_decide_eq_true_2 by done. cbv zeta.
    change (Z.lor 255 (Z.shiftl 255 8)) with 65535. cbn [Z.eqb negb andb].
    assert (Hd : len (loop_data_ s1) = a_length k) by (change (loop_data_ s1) with data; unfold data, len; rewrite length_replicate, Z2Nat.id; lia).
    rewrite Hd, (proj2 (Z.ltb_ge 65535 _)) by lia. unfold send_loop_message. by rewrite bool_decide_eq_false_2.
  - assert (Ek : Z.to_nat (a_count k) = S (Z.to_nat (a_count k - 1))) by lia. rewrite Ek.
    apply (mirrored_all me find_name named_as c (Z.to_nat (a_count k - 1)) _ s1); [done|done|cbn; lia|lia].
  - done.
Qed.
Definition one_loop : NodeServices := {| open_loop := Some (λ _ _, Some 7) |}.
Lemma loop_succeeds_witness : ∃ s2, @mirrored no_shift no_layers one_loop example_identity (λ _, None) (λ i, mkNiceNode i [] false) 3 7
    (mkNml true false (Some 7) [85; 85] 3) [LoopSend [0; 85; 85]] =
  (s2, [LoopSend [0; 85; 85]; LoopSend [0; 85; 85]; LoopSend [0; 85; 85]; LoopDisconnect 7; Reply (new_reply rc_success) success_msg]).
Proof.
  destruct (@loop_succeeds no_shift no_layers one_loop example_identity (λ _, None) (λ i, mkNiceNode i [] false) 1026 7 false [] [] []
    (mkLoopArgs 3 2 2 []) (mkNml true false None [] 0) (λ _ _, Some 7)) as (bs & s1 & m & s2 & Eb & E1 & _ & -> & E & _);
    try done.
  - apply (bool_decide_unpack _). vm_compute. exact Logic.I.
  - exists s2. vm_compute in Eb. injection Eb as <-. vm_compute in E1. injection E1 as <-. exact E.
Defined.

(** A loop can be cut short.  While a loop of any number of messages is
    under way, a request to loop a line or a circuit, which is refused, resets
    the count of messages left; the next message the mirror sends back then
    ends the loop, and the requester is told of success. *)
Theorem loop_cut_short {WS : WideShift} {LA : Layers} {NS : NodeServices}
    (me : identity) (find_name : text → option Z) (named_as : Z → NiceNode) (s : nml) (c : Z) (bs : Bytes) (req : NiceRequest) :
  conn_ s = true → phase2_ s = false → loop_conn_ s = Some c → parse_request bs = Ok req →
  function req = fn_test → test_type req ≠ test_node →
  ∃ s1 refusal, step me find_name named_as true s (NcpData bs) = (s1, [refusal], None) ∧
    (∃ r m, refusal = Reply r m ∧ retcode r = rc_unrecognized_function) ∧
    ∃ s2, step me find_name named_as true s1 (LoopData c true (1 :: loop_data_ s)) =
      (s2, [LoopDisconnect c; Reply (new_reply rc_success) success_msg], None).
Proof.
  intros Hc Hp Hl Hparse Hf Ht. exists (with_loop_count 0 s). eexists. split; [|split].
  - cbn [step]. unfold nml_data. cbv zeta. set (s0 := mkNml true _ _ _ _). assert (E : s0 = s) by (unfold s0; destruct s; cbn in Hc; by subst).
    rewrite E, Hp, Hparse, Hf. change (fn_test =? fn_read) with false. change (fn_test =? fn_test) with true. cbn iota. unfold loop.
    rewrite (proj2 (Z.eqb_neq _ _) Ht). cbn [negb]. unfold send_loop_error, answer_with, send_all, send. cbn [conn_ with_loop_count]. rewrite Hc.
    cbn -[encode_reply]. reflexivity.
  - eexists _, _. split; [reflexivity|done].
  - eexists. cbn [step]. unfold own_loop, loop_data. rewrite bool_decide_eq_true_2 by done. cbv zeta. rewrite bool_decide_eq_true_2 by done.
    cbn [negb]. change (loop_count_ _ <? 1) with true. cbn iota. unfold close_loop. cbn [loop_conn_ with_loop_count]. rewrite Hl.
    unfold then_, say_first, answer_with, send_all, send. cbn [conn_ with_loop_conn with_loop_count]. rewrite Hc. reflexivity.
Qed.
Definition loop_line : Bytes := [18; 1; 255].
Lemma loop_cut_short_witness : ∃ s2, @step no_shift no_layers one_loop example_identity (λ _, None) (λ i, mkNiceNode i [] false) true
    (mkNml true false (Some 7) [85; 85] 0) (LoopData 7 true [1; 85; 85]) =
  (s2, [LoopDisconnect 7; Reply (new_reply rc_success) success_msg], None).
Proof.
  destruct (@loop_cut_short no_shift no_layers one_loop example_identity (λ _, None) (λ i, mkNiceNode i [] false)
    (mkNml true false (Some 7) [85; 85] 1000) 7 loop_line _ eq_refl eq_refl eq_refl eq_refl eq_refl ltac:(done)) as (s1 & r & E1 & _ & s2 & E2).
  exists s2. vm_compute in E1. injection E1 as <- _. exact E2.
Defined.
