(* ===== verification/ConnLaws.v ===== *)
(** Reasoning about the member functions of a connection: what each of them
    leaves alone ([Frame]), invariants ([keeps]) and normal termination
    ([Returns]). *)

From S2P Require Import Prelude Buffer Modulo Types Codec Layout Indexed NspPackets Float Connection.
#[local] Open Scope Z_scope.
#[local] Open Scope decnet_scope.

(** Running a sequence one action at a time. *)
Lemma bind_ok {A B} (m : M A) (k : A → M B) w a w' :
  m w = (Ok a, w') → (m ≫= k) w = k a w'.
Proof. unfold mbind, M_bind. by intros ->. Qed.

Lemma bind_assoc {A B C} (m : M A) (k : A → M B) (k' : B → M C) w :
  ((m ≫= k) ≫= k') w = (m ≫= (λ a, k a ≫= k')) w.
Proof. unfold mbind, M_bind. by destruct (m w) as [[a|e] w']. Qed.

Ltac step := etrans; [eapply bind_ok; reflexivity|]; cbv beta.
Ltac step_by_lift E := etrans; [eapply bind_ok; unfold lift; rewrite E; reflexivity|]; cbv beta.
Ltac step_by E := etrans; [eapply bind_ok; exact E|]; cbv beta.

(** ** Frames: [m] never changes [view]. *)
Class Frame {A B} (view : world → B) (m : M A) : Prop :=
  frame : ∀ w, view (m w).2 = view w.

Section Frames.
Context {B : Type} (view : world → B).

#[export] Instance frame_ret {A} (a : A) : Frame view (mret (M:=M) a).
Proof. done. Qed.
#[export] Instance frame_lift {A} (r : result A) : Frame view (lift r).
Proof. done. Qed.
#[export] Instance frame_gets {A} (f : world → A) : Frame view (gets f).
Proof. done. Qed.
#[export] Instance frame_bind {A C} (m : M A) (k : A → M C) :
  Frame view m → (∀ a, Frame view (k a)) → Frame view (m ≫= k).
Proof.
  intros Hm Hk w. unfold mbind, M_bind. specialize (Hm w).
  destruct (m w) as [[a|e] w']; simpl in *; [|done]. by rewrite Hk.
Qed.
#[export] Instance frame_when b m : Frame view m → Frame view (when b m).
Proof. by destruct b. Qed.
#[export] Instance frame_if {A} (b : bool) (m n : M A) :
  Frame view m → Frame view n → Frame view (if b then m else n).
Proof. by destruct b. Qed.
#[export] Instance frame_opt {A C} (o : option C) (m : M A) (n : C → M A) :
  Frame view m → (∀ c, Frame view (n c)) →
  Frame view (match o with Some c => n c | None => m end).
Proof. by destruct o. Qed.
#[export] Instance frame_pair {A C D} (p : C * D) (k : C → D → M A) :
  (∀ c d, Frame view (k c d)) → Frame view (let '(c, d) := p in k c d).
Proof. by destruct p. Qed.
End Frames.

(** Primitive updates: by computation. *)
Ltac frame_prim := intros ?; reflexivity.
#[export] Hint Extern 5 (Frame _ (modify _)) => frame_prim : typeclass_instances.
#[export] Hint Extern 5 (Frame _ (upd _)) => frame_prim : typeclass_instances.
#[export] Hint Extern 5 (Frame _ (upd_ctl _)) => frame_prim : typeclass_instances.
#[export] Hint Extern 5 (Frame _ (upd_tx _)) => frame_prim : typeclass_instances.
#[export] Hint Extern 5 (Frame _ (upd_flow _)) => frame_prim : typeclass_instances.
#[export] Hint Extern 5 (Frame _ (upd_rx _)) => frame_prim : typeclass_instances.
#[export] Hint Extern 5 (Frame _ (upd_other _)) => frame_prim : typeclass_instances.
#[export] Hint Extern 5 (Frame _ (count _ _)) => frame_prim : typeclass_instances.
#[export] Hint Extern 5 (Frame _ (now _)) => frame_prim : typeclass_instances.

(** Instances are found by name, without unfolding the functions. *)
#[export] Typeclasses Opaque upd upd_ctl upd_tx upd_flow upd_rx upd_other modify emit count now
  gets lift send_to send set_state arm_timer stop_timer update_delay.

(** Unfold one member function and go on. *)
Ltac frames :=
  repeat first [apply _ | progress (intros; cbv zeta) | apply frame_bind | case_match].

(** ** Functions that never throw. *)
Class NoThrow {A} (m : M A) : Prop := no_throw : ∀ w, ∃ a, (m w).1 = Ok a.

Section NoThrows.
#[export] Instance nt_ret {A} (a : A) : NoThrow (mret (M:=M) a).
Proof. intros w. by exists a. Qed.
#[export] Instance nt_gets {A} (f : world → A) : NoThrow (gets f).
Proof. intros w. by eexists. Qed.
#[export] Instance nt_modify f : NoThrow (modify f).
Proof. intros w. by eexists. Qed.
#[export] Instance nt_bind {A C} (m : M A) (k : A → M C) :
  NoThrow m → (∀ a, NoThrow (k a)) → NoThrow (m ≫= k).
Proof.
  intros Hm Hk w. unfold mbind, M_bind. destruct (Hm w) as [a Ha].
  destruct (m w) as [r w']; simpl in *. subst r. apply Hk.
Qed.
#[export] Instance nt_if {A} (b : bool) (m n : M A) :
  NoThrow m → NoThrow n → NoThrow (if b then m else n).
Proof. by destruct b. Qed.
#[export] Instance nt_opt {A C} (o : option C) (m : M A) (n : C → M A) :
  NoThrow m → (∀ c, NoThrow (n c)) → NoThrow (match o with Some c => n c | None => m end).
Proof. by destruct o. Qed.
#[export] Instance nt_pair {A C D} (p : C * D) (k : C → D → M A) :
  (∀ c d, NoThrow (k c d)) → NoThrow (let '(c, d) := p in k c d).
Proof. by destruct p. Qed.
#[export] Instance nt_when b m : NoThrow m → NoThrow (when b m).
Proof. destruct b; [done|]. intros _. apply _. Qed.
#[export] Instance nt_upd f : NoThrow (upd f).
Proof. apply nt_modify. Qed.
#[export] Instance nt_upd_ctl f : NoThrow (upd_ctl f).
Proof. apply nt_modify. Qed.
#[export] Instance nt_upd_tx f : NoThrow (upd_tx f).
Proof. apply nt_modify. Qed.
#[export] Instance nt_upd_flow f : NoThrow (upd_flow f).
Proof. apply nt_modify. Qed.
#[export] Instance nt_upd_rx f : NoThrow (upd_rx f).
Proof. apply nt_modify. Qed.
#[export] Instance nt_upd_other f : NoThrow (upd_other f).
Proof. apply nt_modify. Qed.
#[export] Instance nt_emit e : NoThrow (emit e).
Proof. apply nt_modify. Qed.
#[export] Instance nt_count k n : NoThrow (count k n).
Proof. apply nt_modify. Qed.
#[export] Instance nt_now clock : NoThrow (now clock).
Proof. intros w. by eexists. Qed.
End NoThrows.

Ltac nothrow :=
  repeat first [apply _ | progress (intros; cbv zeta) | apply nt_bind | case_match].

(** ** Invariants: [m] keeps [P], whether it throws or not. *)
Class Keeps {A} (P : world → Prop) (m : M A) : Prop := keeps : ∀ w, P w → P (m w).2.

Section Keeps.
Context (P : world → Prop).

#[export] Instance keeps_ret {A} (a : A) : Keeps P (mret (M:=M) a).
Proof. by intros w. Qed.
#[export] Instance keeps_lift {A} (r : result A) : Keeps P (lift r).
Proof. by intros w. Qed.
#[export] Instance keeps_gets {A} (f : world → A) : Keeps P (gets f).
Proof. by intros w. Qed.
#[export] Instance keeps_bind {A C} (m : M A) (k : A → M C) :
  Keeps P m → (∀ a, Keeps P (k a)) → Keeps P (m ≫= k).
Proof.
  intros Hm Hk w Hw. unfold mbind, M_bind. specialize (Hm w Hw).
  destruct (m w) as [[a|e] w']; simpl in *; [|done]. by apply Hk.
Qed.
#[export] Instance keeps_if {A} (b : bool) (m n : M A) :
  Keeps P m → Keeps P n → Keeps P (if b then m else n).
Proof. by destruct b. Qed.
#[export] Instance keeps_when b m : Keeps P m → Keeps P (when b m).
Proof. destruct b; [done|]. intros _. apply _. Qed.

(** A function of the state it starts in. *)
Lemma keeps_state {A} (k : world → M A) :
  (∀ w, P w → P (k w w).2) → Keeps P (w ← gets id; k w).
Proof. intros H w Hw. by apply H. Qed.
End Keeps.

Ltac keeps :=
  repeat first [apply _ | progress (intros; cbv zeta) | apply keeps_bind | case_match].

(** Everything in the log but the frames, and everything but the frames and
    the calls of the API. *)
Definition is_talk (e : effect) : bool := match e with Sent _ => false | _ => true end.
Definition talk (l : list effect) : list effect := List.filter is_talk l.
Definition is_notice (e : effect) : bool := match e with Told _ => true | _ => false end.
Definition notices (l : list effect) : list effect := List.filter is_notice l.

Lemma talk_app l k : talk (l ++ k) = talk l ++ talk k.
Proof. apply List.filter_app. Qed.
Lemma notices_app l k : notices (l ++ k) = notices l ++ notices k.
Proof. apply List.filter_app. Qed.
Lemma notices_talk l : notices (talk l) = notices l.
Proof. induction l as [|[] l IH]; simpl; congruence. Qed.

(** What identifies the link and says how it runs, as opposed to its timers. *)
Definition ident (c : ctl) := (state c, srcaddr c, dstaddr c, dest c, cphase c, segsize c).

(** What the processing of acknowledgements leaves alone: the receiving half,
    the numbering of the other subchannel, the identity of the link, and what
    has been said to and by session control. *)
Definition other_numbers (o : other) :=
  (int_next_send o, int_next_expect o, int_next_msg o, int_max_msg o).
Definition ack_view (w : world) :=
  (w_rx w, other_numbers (w_other w), ident (w_ctl w), talk (log w),
   (next_send (w_tx w), next_segnum (w_tx w), next_msgnum (w_tx w)),
   (flow (w_flow w), max_seg (w_flow w), max_msg (w_flow w), xon (w_flow w), qmax_ (w_flow w))).

Section ConnFrames.
Context (cfg : config) (clock : nat → Z) `{SC : SessionControl}.

Lemma frame_emit_sent f : Frame ack_view (emit (Sent f)).
Proof. intros w. unfold ack_view. simpl. by rewrite talk_app, app_nil_r. Qed.
#[local] Existing Instance frame_emit_sent.

#[export] Instance frame_send_to f : Frame ack_view (send_to cfg f).
Proof. unfold send_to. frames. Qed.
#[export] Instance frame_send p : Frame ack_view (send cfg p).
Proof. unfold send. frames. Qed.
#[export] Instance frame_update_delay t : Frame ack_view (update_delay cfg clock t).
Proof. unfold update_delay. frames. Qed.
#[export] Instance frame_arm_timer t : Frame ack_view (arm_timer t).
Proof. unfold arm_timer. frames. Qed.
#[export] Instance frame_stop_timer : Frame ack_view stop_timer.
Proof. unfold stop_timer. frames. Qed.
#[export] Instance frame_send_loop q a b : Frame ack_view (send_loop cfg clock q a b).
Proof. revert a b. induction q; intros; simpl; frames. Qed.
#[export] Instance frame_send_blocked : Frame ack_view (send_blocked cfg clock).
Proof. unfold send_blocked. frames. Qed.
#[export] Instance frame_ack_loop n q a b : Frame ack_view (ack_loop cfg clock n q a b).
Proof. revert a b. induction q; intros; simpl; frames. Qed.

Lemma open_window_frame n f :
  let g := Nat.iter n open_window f in
  flow g = flow f ∧ max_seg g = max_seg f ∧ max_msg g = max_msg f ∧ xon g = xon f ∧
  qmax_ g = qmax_ f.
Proof. induction n as [|n IH]; [done|]. simpl in *. naive_solver. Qed.

#[export] Instance frame_open_window n : Frame ack_view (upd_flow (Nat.iter n open_window)).
Proof.
  intros w. destruct (open_window_frame n (c_flow (cn w))) as (E1&E2&E3&E4&E5).
  unfold ack_view, w_flow, w_rx, w_tx, w_other, w_ctl. cbn -[Nat.iter talk] in *.
  by rewrite E1, E2, E3, E4, E5.
Qed.
#[export] Instance frame_process_ack n : Frame ack_view (process_ack cfg clock n).
Proof. unfold process_ack. frames. Qed.
#[export] Instance frame_process_nak : Frame ack_view (process_nak cfg clock).
Proof. unfold process_nak. frames. Qed.
#[export] Instance frame_process_int_ack n : Frame ack_view (process_int_ack n).
Proof. unfold process_int_ack. frames. Qed.
#[export] Instance frame_route_ack a b : Frame ack_view (route_ack cfg clock a b).
Proof. unfold route_ack. frames. Qed.

#[export] Instance nt_send_to f : NoThrow (send_to cfg f).
Proof. unfold send_to. nothrow. Qed.
#[export] Instance nt_update_delay t : NoThrow (update_delay cfg clock t).
Proof. unfold update_delay. nothrow. Qed.
#[export] Instance nt_send_loop q a b : NoThrow (send_loop cfg clock q a b).
Proof. revert a b. induction q; intros; simpl; nothrow. Qed.
#[export] Instance nt_send_blocked : NoThrow (send_blocked cfg clock).
Proof. unfold send_blocked, arm_timer. nothrow. Qed.
#[export] Instance nt_ack_loop n q a b : NoThrow (ack_loop cfg clock n q a b).
Proof. revert a b. induction q; intros; simpl; nothrow. Qed.
#[export] Instance nt_process_ack n : NoThrow (process_ack cfg clock n).
Proof. unfold process_ack, arm_timer, stop_timer. nothrow. Qed.
#[export] Instance nt_process_nak : NoThrow (process_nak cfg clock).
Proof. unfold process_nak. nothrow. Qed.
#[export] Instance nt_process_int_ack n : NoThrow (process_int_ack n).
Proof. unfold process_int_ack. nothrow. Qed.
#[export] Instance nt_route_ack a b : NoThrow (route_ack cfg clock a b).
Proof. unfold route_ack. nothrow. Qed.
End ConnFrames.
