(* ===== verification/ConnSend.v ===== *)
(** The sending half of a connection: segmentation, and what the calls session
    control may make while a link runs leave alone.

    [Fine m] says that on a link whose numbers are in range [m] returns
    normally, keeps them in range, and touches neither the receiving half nor
    the identity of the link, nor notifies anybody. *)

From S2P Require Import Prelude Buffer Modulo Types Codec Layout Indexed NspPackets Float Connection ConnLaws.
#[local] Open Scope Z_scope.
#[local] Open Scope decnet_scope.

Definition up_view (w : world) :=
  (w_rx w, ident (w_ctl w), notices (log w), qmax_ (w_flow w), int_next_expect (w_other w)).

(** The 16 bit and 12 bit members hold 16 and 12 bit values, and a segment
    size is at most [MSS], as [start_inbound] and [cd] make sure. *)
Definition link_ok (w : world) : Prop :=
  fits 2 (srcaddr (w_ctl w)) ∧ fits 2 (dstaddr (w_ctl w)) ∧
  0 ≤ segsize (w_ctl w) ≤ MSS ∧
  seq_ok (next_expect (w_rx w)) ∧ seq_ok (next_send (w_tx w)) ∧
  seq_ok (int_next_send (w_other w)).

Lemma up_view_inv w w' :
  up_view w' = up_view w →
  w_rx w' = w_rx w ∧ ident (w_ctl w') = ident (w_ctl w) ∧ notices (log w') = notices (log w) ∧
  qmax_ (w_flow w') = qmax_ (w_flow w) ∧
  int_next_expect (w_other w') = int_next_expect (w_other w).
Proof. unfold up_view. intros H. split_and!; congruence. Qed.

Lemma up_view_ack w w' : ack_view w = ack_view w' → up_view w = up_view w'.
Proof.
  unfold ack_view, up_view, other_numbers. intros H. rewrite <-(notices_talk (log w)), <-(notices_talk (log w')).
  congruence.
Qed.
Lemma link_ok_ack w w' : ack_view w = ack_view w' → link_ok w' → link_ok w.
Proof.
  unfold ack_view, link_ok, ident, other_numbers. intros H. injection H; intros.
  repeat match goal with E : ?a = _ |- context[?a] => rewrite E; clear E end.
  done.
Qed.

Definition Fine {A} (m : M A) : Prop := ∀ w, link_ok w →
  ∃ a w', m w = (Ok a, w') ∧ link_ok w' ∧ up_view w' = up_view w.

Section Fine.
Lemma fine_ret {A} (a : A) : Fine (mret (M:=M) a).
Proof. intros w Hw. by exists a, w. Qed.

Lemma fine_bind {A B} (m : M A) (k : A → M B) :
  Fine m → (∀ a, Fine (k a)) → Fine (m ≫= k).
Proof.
  intros Hm Hk w Hw. destruct (Hm w Hw) as (a & w' & E & Hw' & V).
  destruct (Hk a w' Hw') as (b & w'' & E' & Hw'' & V').
  exists b, w''. unfold mbind, M_bind. rewrite E. by rewrite V', V.
Qed.

Lemma fine_gets {B} (k : world → M B) :
  (∀ w, link_ok w → Fine (k w)) → Fine (w ← gets id; k w).
Proof. intros Hk w Hw. apply (Hk w Hw w Hw). Qed.

Lemma fine_ack {A} (m : M A) : NoThrow m → Frame ack_view m → Fine m.
Proof.
  intros Hn Hf w Hw. destruct (Hn w) as [a Ha]. specialize (Hf w).
  destruct (m w) as [r w'] eqn:E; simpl in *. subst r. exists a, w'. split; [done|].
  split; [by apply (link_ok_ack w' w)|by apply up_view_ack].
Qed.

Lemma fine_lift {A} (r : result A) : (∃ a, r = Ok a) → Fine (lift r).
Proof. intros [a ->] w Hw. by exists a, w. Qed.

Lemma fine_modify f : (∀ w, link_ok w → link_ok (f w)) →
  (∀ w, up_view (f w) = up_view w) → Fine (modify f).
Proof. intros H1 H2 w Hw. exists tt, (f w). auto. Qed.

Lemma fine_upd_ack f : Frame ack_view (upd f) → Fine (upd f).
Proof. intros. apply fine_ack; [apply _|done]. Qed.
End Fine.

(** ** Every packet the sending half builds encodes *)

Lemma seq_pred v : seq_ok v → seq_ok (mod_sub SeqM v 1).
Proof.
  unfold seq_ok. intros Hv. unfold mod_sub, mod_ok. apply Z.mod_pos_bound. lia.
Qed.
Lemma seq_succ v : seq_ok (mod_incr SeqM v).
Proof. unfold seq_ok, mod_incr, mod_ok. apply Z.mod_pos_bound. lia. Qed.

Lemma flag_data (b e : bool) :
  Z.lor (Z.lor DataSeg.flag (if b then 32 else 0)) (if e then 64 else 0) ∈ [0; 32; 64; 96].
Proof. by destruct b, e; apply (bool_decide_unpack _). Qed.

(** The segment [segment_step] builds. *)
Definition seg_of (w : world) (rest : Bytes) (first : bool) : DataSeg.t :=
  let limit := if segsize (w_ctl w) =? 0 then MSS else segsize (w_ctl w) in
  let n := Z.min limit (len rest) in
  DataSeg.mk
    (Z.lor (Z.lor DataSeg.flag (if first then 32 else 0)) (if len rest <=? n then 64 else 0))
    (dstaddr (w_ctl w)) (srcaddr (w_ctl w))
    (Some (mkAck (last_in_order (w_rx w)) ACKQ)) None
    (next_send (w_tx w)) false (take (Z.to_nat n) rest).

Lemma bytes_ok_take n bs : bytes_ok bs → bytes_ok (take n bs).
Proof. apply Forall_take. Qed.
Lemma bytes_ok_drop n bs : bytes_ok bs → bytes_ok (drop n bs).
Proof. apply Forall_drop. Qed.

Lemma seg_of_ok w rest first :
  link_ok w → bytes_ok rest → packet_ok (PDataSeg (seg_of w rest first)).
Proof.
  intros (Hs & Hd & Hz & He & Hn & Hi) Hr. cbn.
  split; [apply flag_data|]. split; [|split; [exact Hn|by apply bytes_ok_take]].
  split; [done|]. split; [done|]. split; [by apply seq_pred|done].
Qed.

Lemma seg_encodes p : packet_ok (PDataSeg p) → ∃ frm, encode_packet (PDataSeg p) = Ok frm.
Proof. intros Hp. destruct (DataSeg_rt p Hp) as (frm & E & _). by exists frm. Qed.

Section Send.
Context (cfg : config) (clock : nat → Z).

(** One segment: queued, numbered, and the counts moved on. *)
Lemma segment_step_spec w rest first frm :
  encode_packet (PDataSeg (seg_of w rest first)) = Ok frm →
  let limit := if segsize (w_ctl w) =? 0 then MSS else segsize (w_ctl w) in
  let n := Z.min limit (len rest) in
  let t := w_tx w in
  segment_step rest first w =
    (Ok (drop (Z.to_nat n) rest),
     with_cn (with_c_tx
       (Tx (mod_incr SeqM (next_send t)) (highest_acked t)
           (txq t ++ [mkTx (next_send t) (next_segnum t) (next_msgnum t) frm false true 0])
           (u32 (next_segnum t + 1))
           (if len rest <=? n then u32 (next_msgnum t + 1) else next_msgnum t)
           (max_acked_seg t)) (cn w)) w).
Proof.
  intros E. unfold segment_step, seg_of in *. cbv zeta.
  unfold mbind, M_bind, gets, id, lift. rewrite E. by destruct (len rest <=? _).
Qed.

Lemma segment_step_throw w rest first e :
  encode_packet (PDataSeg (seg_of w rest first)) = Throw e →
  segment_step rest first w = (Throw e, w).
Proof.
  intros E. unfold segment_step, seg_of in *. cbv zeta.
  unfold mbind, M_bind, gets, id, lift. by rewrite E.
Qed.

Lemma segment_step_fine rest first : bytes_ok rest → Fine (segment_step rest first).
Proof.
  intros Hr w Hw. destruct (seg_encodes _ (seg_of_ok w rest first Hw Hr)) as [frm E].
  rewrite (segment_step_spec w rest first frm E). eexists _, _. split; [done|]. split; [|done].
  destruct Hw as (Hs & Hd & Hz & He & Hn & Hi).
  exact (conj Hs (conj Hd (conj Hz (conj He (conj (seq_succ _) Hi))))).
Qed.

Lemma segment_step_drop rest first w r w' :
  segment_step rest first w = (Ok r, w') → ∃ n, r = drop n rest.
Proof.
  unfold segment_step. cbv zeta. unfold mbind, M_bind, gets, id, lift.
  destruct (encode_packet _) as [frm|e]; [|done]. intros H.
  destruct (len rest <=? _); simpl in H; injection H as <- _; eauto.
Qed.

Lemma segment_loop_fine fuel rest first :
  bytes_ok rest → Fine (segment_loop fuel rest first).
Proof.
  revert rest first. induction fuel as [|fuel IH]; intros rest first Hr; simpl; [apply fine_ret|].
  intros w Hw. destruct (segment_step_fine rest first Hr w Hw) as (r & w1 & E & Hw1 & V).
  destruct (segment_step_drop _ _ _ _ _ E) as [n ->].
  unfold mbind, M_bind. rewrite E.
  destruct (drop n rest) as [|b bs] eqn:Ed; [by exists tt, w1|].
  destruct (IH (b :: bs) false) with (w := w1) as (a & w2 & E2 & Hw2 & V2);
    [rewrite <-Ed; by apply bytes_ok_drop|done|].
  exists a, w2. by rewrite V2, V.
Qed.

Lemma send_data_fine data : bytes_ok data → Fine (send_data cfg clock data).
Proof.
  intros Hd. unfold send_data. apply fine_gets. intros w _.
  destruct (negb (running (cn w))); [apply fine_ret|].
  do 2 (apply fine_bind; [apply fine_ack; apply _|intros _]).
  apply fine_bind; [by apply segment_loop_fine|intros _]. apply fine_ack; apply _.
Qed.

Lemma int_encodes p : packet_ok (PIntMsg p) → ∃ frm, encode_packet (PIntMsg p) = Ok frm.
Proof. intros Hp. destruct (IntMsg_rt p Hp) as (frm & E & _). by exists frm. Qed.

Lemma send_interrupt_fine data : bytes_ok data → Fine (send_interrupt cfg data).
Proof.
  intros Hd. unfold send_interrupt. apply fine_gets.
  intros w (Hs & Hdst & Hz & He & Hn & Hi).
  destruct (_ || _); [apply fine_ret|]. cbv zeta.
  apply fine_bind.
  { apply fine_lift, int_encodes. cbn. split; [done|]. split; [|by split].
    split; [done|]. split; [done|]. split; [done|]. by apply seq_pred. }
  intros frm. apply fine_bind; [apply fine_ack; apply _|]. intros _.
  apply fine_bind; [apply fine_ack; apply _|]. intros _.
  apply fine_bind; [|intros _; apply fine_ret].
  apply fine_modify; [|done]. intros v (Hs' & Hd' & Hz' & He' & Hn' & Hi').
  exact (conj Hs' (conj Hd' (conj Hz' (conj He' (conj Hn' (seq_succ _)))))).
Qed.

(** What a client does on a running link: send messages and interrupts. *)
Definition stream_call (a : api) : Prop :=
  match a with SendData d | SendInterrupt d => bytes_ok d | _ => False end.

Lemma call_fine a : stream_call a → Fine (call cfg clock a).
Proof.
  intros Ha. unfold call. apply fine_bind.
  { apply fine_modify; [done|]. intros w. unfold up_view. simpl.
    by rewrite notices_app, app_nil_r. }
  intros _. destruct a; try done; [by apply send_data_fine|].
  apply fine_bind; [by apply send_interrupt_fine|intros; apply fine_ret].
Qed.

Lemma calls_fine l : Forall stream_call l → Fine (calls cfg clock l).
Proof.
  induction 1 as [|a l Ha Hl IH]; simpl; [apply fine_ret|].
  apply fine_bind; [by apply call_fine|done].
Qed.

Lemma ack_data_encodes w n :
  link_ok w → seq_ok n → ∃ frm, encode_packet (PAckData (AckData.mk AckData.flag
    (dstaddr (w_ctl w)) (srcaddr (w_ctl w)) (Some (mkAck n ACKQ)) None)) = Ok frm.
Proof.
  intros (Hs & Hd & _) Hn.
  match goal with |- ∃ _, encode_packet (PAckData ?p) = _ =>
    destruct (AckData_rt p) as (frm & E & _) end;
    [exact (conj eq_refl (conj Hd (conj Hs (conj Hn Logic.I))))|by exists frm].
Qed.

Lemma ack_other_encodes w n :
  link_ok w → seq_ok n → ∃ frm, encode_packet (PAckOther (AckOther.mk AckOther.flag
    (dstaddr (w_ctl w)) (srcaddr (w_ctl w)) (Some (mkAck n ACKQ)) None)) = Ok frm.
Proof.
  intros (Hs & Hd & _) Hn.
  match goal with |- ∃ _, encode_packet (PAckOther ?p) = _ =>
    destruct (AckOther_rt p) as (frm & E & _) end;
    [exact (conj eq_refl (conj Hd (conj Hs (conj Hn Logic.I))))|by exists frm].
Qed.

Lemma send_ack_spec w :
  link_ok w → ∃ w', send_ack cfg w = (Ok tt, w') ∧ link_ok w' ∧
    w_rx w' = with_ack_timer false (with_ackpending false (w_rx w)) ∧
    ident (w_ctl w') = ident (w_ctl w) ∧ notices (log w') = notices (log w) ∧
    qmax_ (w_flow w') = qmax_ (w_flow w).
Proof.
  intros Hw. unfold send_ack, stop_ack_holdoff.
  set (w1 := with_cn (with_c_rx (with_ack_timer false (with_ackpending false (w_rx w))) (cn w)) w).
  assert (link_ok w1) as Hw1 by exact Hw.
  destruct (ack_data_encodes w1 (last_in_order (w_rx w1)) Hw1) as [frm E];
    [apply seq_pred, Hw1|].
  assert (∃ w', send_to cfg frm w1 = (Ok tt, w') ∧ ack_view w' = ack_view w1) as (w' & E' & V').
  { destruct (nt_send_to cfg frm w1) as [[] Ha]. pose proof (frame_send_to cfg frm w1) as V.
    destruct (send_to cfg frm w1) as [r w']. simpl in *. subst r. eauto. }
  exists w'. split.
  { unfold mbind, M_bind, upd_rx, upd, modify, gets, id, send, lift.
    fold w1. change (encode_packet _) with (encode_packet
      (PAckData (AckData.mk AckData.flag (dstaddr (w_ctl w1)) (srcaddr (w_ctl w1))
         (Some (mkAck (last_in_order (w_rx w1)) ACKQ)) None))).
    unfold mbind, M_bind. rewrite E. exact E'. }
  split; [by apply (link_ok_ack w' w1)|].
  by apply up_view_ack, up_view_inv in V' as (-> & -> & -> & -> & _).
Qed.
End Send.
