(* ===== verification/ConnReceive.v ===== *)
(** The receiving half of a connection: segments in any order, any number of
    times, become each message once and in order.

    The abstract receiver ([recv]) knows only how many segments of the stream
    have been taken and which later ones are held.  [handle_data] refines it
    ([handle_data_refines]), whatever session control sends from its callback
    and whatever the acknowledgements in the segments say. *)

From S2P Require Import Prelude Buffer Modulo Types Codec Layout Indexed NspPackets Float Connection ConnLaws ConnSend.
#[local] Open Scope Z_scope.
#[local] Open Scope decnet_scope.

(** ** Putting messages together *)

(** [assembling_] and [assembly_]. *)
Definition asm : Type := bool * Bytes.

(** What one segment in sequence does: the messages it completes. *)
Definition asm_step (a : asm) (seg : DataSeg.t) : asm * list Bytes :=
  let a := if DataSeg.bom seg then (true, []) else a in
  if negb a.1 then (a, [])
  else
    let b := a.2 ++ DataSeg.payload seg in
    if DataSeg.eom seg then ((false, []), [b]) else ((true, b), []).

Fixpoint asm_run (a : asm) (segs : list DataSeg.t) : asm * list Bytes :=
  match segs with
  | [] => (a, [])
  | s :: segs => let '(a, ms) := asm_step a s in
                 let '(a, ms') := asm_run a segs in (a, ms ++ ms')
  end.

Lemma asm_run_snoc a segs s :
  asm_run a (segs ++ [s]) =
    let '(b, ms) := asm_run a segs in let '(b, ms') := asm_step b s in (b, ms ++ ms').
Proof.
  revert a. induction segs as [|s' segs IH]; intros a; simpl.
  { destruct (asm_step a s) as [b ms]. by rewrite app_nil_r. }
  destruct (asm_step a s') as [b ms]. rewrite IH.
  destruct (asm_run b segs) as [b' ms'], (asm_step b' s) as [b'' ms'']. by rewrite app_assoc.
Qed.

Definition told_data (ms : list Bytes) : list effect := map (λ m, Told (DataReceived m)) ms.

(** ** The abstract receiver *)

Record recv := Recv { taken : nat; held : list nat }.

(** Take what is held and follows on. *)
Fixpoint advance (fuel n : nat) (h : list nat) : recv :=
  match fuel with
  | O => Recv n h
  | S fuel => if decide (n ∈ h) then advance fuel (S n) (filter (λ i, i ≠ n) h) else Recv n h
  end.

(** Segment [i] arrives; at most [q] segments are held. *)
Definition recv_step (q : Z) (r : recv) (i : nat) : recv :=
  if decide (i < taken r)%nat then r
  else if decide (i = taken r) then
    advance (S (length (held r))) (S i) (held r)
  else if decide (Z.of_nat (length (held r)) < q)
       then Recv (taken r) (if decide (i ∈ held r) then held r else i :: held r)
       else r.

(** A segment less than half the number space from the one expected, as every
    segment is that a sender with a window of at most 2047 can have out. *)
Definition near (r : recv) (i : nat) : Prop :=
  Z.abs (Z.of_nat i - Z.of_nat (taken r)) < 2048.

Fixpoint near_all (q : Z) (r : recv) (arrivals : list nat) : Prop :=
  match arrivals with
  | [] => True
  | i :: arrivals => near r i ∧ near_all q (recv_step q r i) arrivals
  end.

#[export] Instance near_all_dec q r l : Decision (near_all q r l).
Proof. revert r. induction l; intros; simpl; unfold near; apply _. Defined.

Definition recv_run (q : Z) : recv → list nat → recv := foldl (recv_step q).

(** ** The abstract receiver makes progress *)

Lemma advance_mono fuel n h : (n ≤ taken (advance fuel n h))%nat.
Proof.
  revert n h. induction fuel as [|fuel IH]; intros n h; simpl; [done|].
  destruct (decide (n ∈ h)); simpl; [|done]. etrans; [|apply IH]. lia.
Qed.

Lemma recv_step_mono q r i : (taken r ≤ taken (recv_step q r i))%nat.
Proof.
  unfold recv_step. destruct (decide (i < taken r)%nat); [done|].
  destruct (decide (i = taken r)) as [->|].
  - etrans; [|apply advance_mono]. lia.
  - destruct (decide _); [|done]. by destruct (decide _).
Qed.

Lemma recv_step_next q r : (taken r < taken (recv_step q r (taken r)))%nat.
Proof.
  unfold recv_step. rewrite decide_False, decide_True by lia.
  apply Nat.lt_le_trans with (S (taken r)); [lia|apply advance_mono].
Qed.

Lemma seq_suffix_sublist a n b m :
  (a ≤ b)%nat → (b + m ≤ a + n)%nat → sublist (List.seq b m) (List.seq a n).
Proof.
  intros H1 H2. replace n with ((b - a) + (m + (a + n - b - m)))%nat by lia.
  rewrite !List.seq_app. apply sublist_inserts_l.
  replace (a + (b - a))%nat with b by lia. by apply sublist_inserts_r.
Qed.

(** Whatever else arrives, the segments that arrive in order are taken. *)
Lemma recv_run_sublist q l r N :
  sublist (List.seq (taken r) N) l → (taken r + N ≤ taken (recv_run q r l))%nat.
Proof.
  revert r N. induction l as [|i l IH]; intros r N Hs; simpl.
  { apply sublist_nil_r in Hs. destruct N; [lia|done]. }
  assert (∀ r', taken r' ≤ taken (recv_run q r' l))%nat as Hmono.
  { clear. induction l as [|j l IH]; intros r'; simpl; [done|].
    etrans; [apply (recv_step_mono q r' j)|apply IH]. }
  destruct N as [|N].
  { rewrite Nat.add_0_r. etrans; [apply (recv_step_mono q r i)|apply Hmono]. }
  simpl in Hs. apply sublist_cons_r in Hs as [Hs|(l' & E & Hs)].
  - pose proof (recv_step_mono q r i).
    destruct (Nat.le_gt_cases (taken r + S N) (taken (recv_step q r i))) as [|Hlt].
    { etrans; [done|apply Hmono]. }
    change (recv_run q r (i :: l)) with (recv_run q (recv_step q r i) l).
    replace (taken r + S N)%nat
      with (taken (recv_step q r i) + (taken r + S N - taken (recv_step q r i)))%nat by lia.
    apply IH. etrans; [|exact Hs].
    change (taken r :: List.seq (S (taken r)) N) with (List.seq (taken r) (S N)).
    apply seq_suffix_sublist; lia.
  - injection E as <- <-. pose proof (recv_step_next q r).
    destruct (Nat.le_gt_cases (taken r + S N) (taken (recv_step q r (taken r)))) as [|Hlt].
    { etrans; [done|apply Hmono]. }
    replace (taken r + S N)%nat with (taken (recv_step q r (taken r)) +
      (taken r + S N - taken (recv_step q r (taken r))))%nat by lia.
    apply IH. etrans; [|exact Hs]. apply seq_suffix_sublist; lia.
Qed.

Section Receiver.
Context (cfg : config) (clock : nat → Z) `{SC : SessionControl}.

(** Session control answers a message by sending, if at all. *)
Context (Hsc : ∀ d w, Forall stream_call (on_notice (DataReceived d) w)).

(** The stream the far end sends: segment [i] is the one with the absolute
    number [i + 1]. *)
Context (segs : nat → DataSeg.t).
Context (Hnum : ∀ i, DataSeg.segnum (segs i) = wrap SeqM (Z.of_nat i + 1)).

Definition key (i : nat) : Z := wrap SeqM (Z.of_nat i + 1).
Definition stream (n : nat) : list DataSeg.t := map segs (List.seq 0 n).

Definition ooo_of (h : list nat) : gmap Z DataSeg.t :=
  list_to_map (map (λ i, (key i, segs i)) h).

(** The receiving half after [n] segments, holding [m]. *)
Definition L (start : list effect) (q : Z) (n : nat) (m : gmap Z DataSeg.t) (w : world) : Prop :=
  link_ok w ∧ qmax_ (w_flow w) = q ∧ next_expect (w_rx w) = key n ∧
  (assembling (w_rx w), assembly (w_rx w)) = (asm_run (false, []) (stream n)).1 ∧
  ooo (w_rx w) = m ∧
  notices (log w) = start ++ told_data (asm_run (false, []) (stream n)).2.

Definition close_to (n : nat) (h : list nat) : Prop :=
  Forall (λ i, n ≤ i < n + 2048)%nat h.

(** The refinement relation. *)
Definition R (start : list effect) (q : Z) (r : recv) (w : world) : Prop :=
  L start q (taken r) (ooo_of (held r)) w ∧
  NoDup (held r) ∧ close_to (taken r) (held r) ∧ taken r ∉ held r.

Lemma key_inj i j :
  Z.abs (Z.of_nat i - Z.of_nat j) < 4096 → key i = key j → i = j.
Proof.
  unfold key. intros Hd E. apply (wrap_inj SeqM) in E; [lia|done|lia].
Qed.

Lemma stream_S n : stream (S n) = stream n ++ [segs n].
Proof. unfold stream. by rewrite List.seq_S, map_app. Qed.

(** *** The segments held *)

Lemma keys_NoDup n h : NoDup h → close_to n h → NoDup (map key h).
Proof.
  intros Hn Hc. unfold close_to in Hc. rewrite Forall_forall in Hc.
  induction Hn as [|i h Hi Hn IH]; simpl; constructor.
  - intros (j & E & Hj)%list_elem_of_fmap_1. apply Hi.
    assert (i = j) as ->; [|done].
    pose proof (Hc i ltac:(by left)). pose proof (Hc j ltac:(by right)).
    by apply key_inj; [lia|].
  - apply IH. intros j Hj. apply Hc. by right.
Qed.

Lemma keys_fst h : (map (λ i, (key i, segs i)) h).*1 = map key h.
Proof. induction h; simpl; f_equal; done. Qed.

Lemma ooo_size n h : NoDup h → close_to n h → size (ooo_of h) = length h.
Proof.
  intros Hn Hc. unfold ooo_of.
  rewrite map_size_list_to_map by (rewrite keys_fst; by eapply keys_NoDup).
  apply length_map.
Qed.

Lemma ooo_lookup_in n h i :
  NoDup h → close_to n h → i ∈ h → ooo_of h !! key i = Some (segs i).
Proof.
  intros Hn Hc Hi. apply elem_of_list_to_map_1.
  - rewrite keys_fst. by eapply keys_NoDup.
  - apply list_elem_of_fmap. by exists i.
Qed.

Lemma ooo_lookup_out n h i :
  close_to n h → (n ≤ i < n + 2048)%nat → i ∉ h → ooo_of h !! key i = None.
Proof.
  intros Hc Hi Hni. apply not_elem_of_list_to_map_1. rewrite keys_fst.
  intros (j & E & Hj)%list_elem_of_fmap_1. apply Hni.
  unfold close_to in Hc. rewrite Forall_forall in Hc. specialize (Hc j Hj).
  by assert (i = j) as -> by (by apply key_inj; [lia|]).
Qed.

Lemma ooo_delete n h i :
  close_to n h → (n ≤ i < n + 2048)%nat →
  delete (key i) (ooo_of h) = ooo_of (filter (λ j, j ≠ i) h).
Proof.
  intros Hc Hi. unfold ooo_of. induction Hc as [|j h Hj Hc IH]; simpl.
  { by rewrite delete_empty. }
  rewrite filter_cons. destruct (decide (j ≠ i)) as [Hne|Heq]; simpl.
  - rewrite delete_insert_ne; [by rewrite IH|].
    intros E. apply key_inj in E; [congruence|lia].
  - apply dec_stable in Heq as ->. by rewrite delete_insert_eq, IH.
Qed.

(** *** One segment in sequence *)

Definition with_asm (a : asm) (x : rx) : rx := with_assembly a.2 (with_assembling a.1 x).

Definition same_link (w w' : world) : Prop :=
  link_ok w' ∧ ident (w_ctl w') = ident (w_ctl w) ∧ qmax_ (w_flow w') = qmax_ (w_flow w).

Lemma notify_spec d w :
  link_ok w → ∃ w', notify cfg clock (DataReceived d) w = (Ok tt, w') ∧ same_link w w' ∧
    w_rx w' = w_rx w ∧ notices (log w') = notices (log w) ++ told_data [d].
Proof.
  intros Hw. unfold notify.
  set (w1 := with_log (log w ++ [Told (DataReceived d)]) w).
  destruct (calls_fine cfg clock (on_notice (DataReceived d) w1) (Hsc d w1) w1)
    as ([] & w' & E & Hw' & V); [exact Hw|].
  exists w'. split; [exact E|]. apply up_view_inv in V as (V1 & V2 & V3 & V4 & _).
  split; [done|]. split; [done|]. rewrite V3. simpl. by rewrite notices_app.
Qed.

Lemma accept_segment_spec seg w :
  link_ok w →
  let '(a, ms) := asm_step (assembling (w_rx w), assembly (w_rx w)) seg in
  ∃ w', accept_segment cfg clock seg w = (Ok tt, w') ∧ same_link w w' ∧
    w_rx w' = with_asm a (w_rx w) ∧ notices (log w') = notices (log w) ++ told_data ms.
Proof.
  intros Hw. unfold accept_segment, asm_step.
  set (w1 := if DataSeg.bom seg
             then with_cn (with_c_rx (with_assembling true (with_assembly [] (w_rx w))) (cn w)) w
             else w).
  assert (when (DataSeg.bom seg) (upd_rx (λ r, with_assembling true (with_assembly [] r))) w
          = (Ok tt, w1)) as E1 by (unfold w1; by destruct (DataSeg.bom seg)).
  assert (link_ok w1) as Hw1 by (unfold w1; by destruct (DataSeg.bom seg)).
  assert ((if DataSeg.bom seg then (true, []) else (assembling (w_rx w), assembly (w_rx w))) =
          (assembling (w_rx w1), assembly (w_rx w1))) as ->
    by (unfold w1; by destruct (DataSeg.bom seg)).
  assert (w_rx w1 = with_asm (assembling (w_rx w1), assembly (w_rx w1)) (w_rx w)) as Er
    by (unfold w1, w_rx; destruct (DataSeg.bom seg); [done|by destruct (c_rx (cn w))]).
  assert (same_link w w1 ∧ log w1 = log w) as [Hs1 Hl1]
    by (unfold w1; destruct (DataSeg.bom seg); done).
  simpl. destruct (assembling (w_rx w1)) eqn:Ea; simpl.
  2: { exists w1. split; [|rewrite Hl1, app_nil_r; done].
       unfold mbind, M_bind. rewrite E1. unfold gets, id. by rewrite Ea. }
  set (b := assembly (w_rx w1) ++ DataSeg.payload seg).
  set (w2 := with_cn (with_c_rx (with_assembly b (w_rx w1)) (cn w1)) w1).
  assert (link_ok w2) as Hw2 by exact Hw1.
  destruct (DataSeg.eom seg) eqn:Ee.
  2: { exists w2. split; [|split; [exact Hs1|split]].
       - unfold mbind, M_bind. rewrite E1. unfold gets, id. by rewrite Ea.
       - exact (f_equal (with_assembly b) Er).
       - change (notices (log w1) = notices (log w) ++ []). by rewrite Hl1, app_nil_r. }
  set (w2' := with_cn (with_c_rx (with_assembling false (w_rx w2)) (cn w2)) w2).
  set (w3 := (count msg_rcv 1 (count byt_rcv (len b) w2').2).2).
  destruct (notify_spec b w3) as (w4 & E4 & (Hw4 & Hi4 & Hq4) & Hr4 & Hn4); [exact Hw1|].
  exists (with_cn (with_c_rx (with_assembly [] (w_rx w4)) (cn w4)) w4).
  split; [|split; [|split]].
  - step_by E1. step. unfold id. rewrite Ea. step. unfold when.
    step. step. step. step. step_by E4. reflexivity.
  - destruct Hs1 as (_ & Hi1 & Hq1). split; [exact Hw4|].
    split; [exact (eq_trans Hi4 Hi1)|exact (eq_trans Hq4 Hq1)].
  - change (with_assembly [] (w_rx w4) = with_asm (false, []) (w_rx w)). rewrite Hr4.
    change (w_rx w3) with (with_assembling false (with_assembly b (w_rx w1))).
    rewrite Er. by destruct (w_rx w).
  - change (notices (log w4) = notices (log w) ++ told_data [b]). rewrite Hn4.
    change (log w3) with (log w1). by rewrite Hl1.
Qed.

Lemma key_S n : mod_incr SeqM (key n) = key (S n).
Proof. unfold key. rewrite mod_incr_abs by done. f_equal. lia. Qed.

Lemma take_one start q n m w :
  L start q n m w →
  ∃ w', (accept_segment cfg clock (segs n);; next_segment) w = (Ok tt, w') ∧
    L start q (S n) m w' ∧ ident (w_ctl w') = ident (w_ctl w).
Proof.
  intros (Hw & Hq & He & Ha & Ho & Hn).
  pose proof (accept_segment_spec (segs n) w Hw) as Hs. rewrite Ha in Hs.
  unfold L. rewrite stream_S, asm_run_snoc.
  destruct (asm_run (false, []) (stream n)) as [a ms]. simpl in *.
  destruct (asm_step a (segs n)) as [a' ms'].
  destruct Hs as (w1 & E & (Hw1 & Hi1 & Hq1) & Hr1 & Hn1).
  exists (with_cn (with_c_rx (with_next_expect (key (S n)) (w_rx w1)) (cn w1)) w1).
  split; [|split; [|exact Hi1]].
  { etrans; [apply (bind_ok _ _ _ _ _ E)|]. unfold next_segment, upd_rx, upd, modify.
    change (c_rx (cn w1)) with (w_rx w1).
    assert (next_expect (w_rx w1) = key n) as -> by (by rewrite Hr1). by rewrite key_S. }
  split.
  { destruct Hw1 as (H1 & H2 & H3 & _ & H5 & H6).
    exact (conj H1 (conj H2 (conj H3 (conj (wrap_ok SeqM ltac:(done) _) (conj H5 H6))))). }
  split; [exact (eq_trans Hq1 Hq)|]. split; [done|].
  split; [cbn; change (c_rx (cn w1)) with (w_rx w1); rewrite Hr1; by destruct a'|].
  split; [cbn; change (c_rx (cn w1)) with (w_rx w1); by rewrite Hr1|].
  match goal with |- _ = ?r => change (notices (log w1) = r) end.
  rewrite Hn1, Hn. cbn [snd]. unfold told_data. by rewrite map_app, app_assoc.
Qed.

Lemma drain_refines start q fuel n h w :
  (length h < fuel)%nat → NoDup h → close_to n h → L start q n (ooo_of h) w →
  ∃ w', drain cfg clock fuel w = (Ok tt, w') ∧ R start q (advance fuel n h) w' ∧
    ident (w_ctl w') = ident (w_ctl w).
Proof.
  revert n h w. induction fuel as [|fuel IH]; intros n h w Hf Hnd Hc HL; [lia|].
  simpl. pose proof HL as (Hw & Hq & He & Ha & Ho & Hn). destruct (decide (n ∈ h)) as [Hin|Hin].
  - set (h' := filter (λ i, i ≠ n) h).
    set (w1 := with_cn (with_c_rx (with_ooo (ooo_of h') (w_rx w)) (cn w)) w).
    assert (L start q n (ooo_of h') w1) as HL1 by (by split_and!).
    destruct (take_one start q n (ooo_of h') w1 HL1) as (w2 & E2 & HL2 & Hi2).
    assert (Hc' : close_to (S n) h').
    { unfold close_to, h' in *. rewrite Forall_forall in *. intros i [Hne Hi]%list_elem_of_filter.
      specialize (Hc i Hi). lia. }
    destruct (IH (S n) h' w2) as (w3 & E3 & HR3 & Hi3); try done.
    + assert (length h' < length h)%nat; [|lia].
      apply length_filter_lt with (x := n); [done|]. by intros [].
    + by apply NoDup_filter.
    + exists w3. split; [|split; [done|by rewrite Hi3, Hi2]].
      step. unfold id. rewrite Ho, He, (ooo_lookup_in n h n) by done.
      etrans; [apply bind_ok with (w' := w1); unfold upd_rx, upd, modify|].
      { unfold w1. change (c_rx (cn w)) with (w_rx w).
        by rewrite He, Ho, (ooo_delete n) by (done || lia). }
      rewrite <-bind_assoc. etrans; [apply (bind_ok _ _ _ _ _ E2)|exact E3].
  - exists w. split; [|split; [|done]].
    + step. unfold id. rewrite Ho, He, (ooo_lookup_out n h n) by (done || lia). done.
    + by split_and!.
Qed.

(** *** Any segment of the stream *)

Lemma L_ack start q n m w w' : ack_view w' = ack_view w → L start q n m w → L start q n m w'.
Proof.
  intros V (Hw & Hq & He & Ha & Ho & Hn).
  pose proof (up_view_inv w w' (up_view_ack _ _ V)) as (V1 & V2 & V3 & V4 & _).
  unfold L. rewrite V1, V3, V4. by split; [apply (link_ok_ack w' w)|].
Qed.

Lemma R_ack start q r w w' : ack_view w' = ack_view w → R start q r w → R start q r w'.
Proof. intros V [HL HR]. split; [by apply (L_ack start q _ _ w)|done]. Qed.

Lemma send_ack_refines start q r w :
  R start q r w →
  ∃ w', send_ack cfg w = (Ok tt, w') ∧ R start q r w' ∧ ident (w_ctl w') = ident (w_ctl w).
Proof.
  intros [(Hw & Hq & He & Ha & Ho & Hn) HR].
  destruct (send_ack_spec cfg w Hw) as (w' & E & Hw' & Hr & Hi & Hno & Hq').
  exists w'. split; [done|]. split; [|done]. split; [|done]. unfold L.
  rewrite Hr, Hno, Hq'. by split_and!.
Qed.

Lemma key_lt i n :
  Z.abs (Z.of_nat i - Z.of_nat n) < 2048 →
  mod_lt SeqM (key i) (key n) = (Z.of_nat i <? Z.of_nat n).
Proof.
  intros Hd. unfold key. rewrite mod_lt_abs by lia.
  destruct (Z.ltb_spec (Z.of_nat i + 1) (Z.of_nat n + 1)),
    (Z.ltb_spec (Z.of_nat i) (Z.of_nat n)); lia.
Qed.

Lemma take_segment_refines start q r i w :
  R start q r w → near r i →
  ∃ w', take_segment cfg clock (segs i) w = (Ok tt, w') ∧
    R start q (recv_step q r i) w' ∧ ident (w_ctl w') = ident (w_ctl w).
Proof.
  intros HR Hnear. unfold near in Hnear.
  pose proof HR as [(Hw & Hq & He & Ha & Ho & Hn) (Hnd & Hc & Hni)].
  assert (DataSeg.segnum (segs i) = key i) as Hk by apply Hnum.
  unfold take_segment, recv_step.
  destruct (decide (i < taken r)%nat) as [Hlt|Hge].
  { destruct (send_ack_refines start q r w HR) as (w' & E & HR' & Hi'). exists w'.
    split; [|done]. step. unfold id. cbv zeta.
    by rewrite Hk, He, key_lt, (proj2 (Z.ltb_lt _ _)) by lia. }
  destruct (decide (i = taken r)) as [->|Hne].
  - destruct (take_one start q (taken r) (ooo_of (held r)) w) as (w1 & E1 & HL1 & Hi1);
      [by split_and!|].
    destruct (drain_refines start q (S (length (held r))) (S (taken r)) (held r) w1)
      as (w2 & E2 & HR2 & Hi2); [lia|done| |done|].
    { unfold close_to in *. rewrite Forall_forall in *. intros j Hj. specialize (Hc j Hj).
      assert (j ≠ taken r) by (by intros ->). lia. }
    assert (∃ w3, (if DataSeg.dly (segs (taken r)) && (4 <=? cphase (w_ctl w2)) && running (cn w2)
                   then delay_ack else send_ack cfg) w2 = (Ok tt, w3) ∧
              R start q (advance (S (length (held r))) (S (taken r)) (held r)) w3 ∧
              ident (w_ctl w3) = ident (w_ctl w2)) as (w3 & E3 & HR3 & Hi3).
    { destruct (_ && _ && _); [|by apply send_ack_refines].
      eexists. split; [reflexivity|]. split; [exact HR2|done]. }
    exists w3. split; [|split; [done|by rewrite Hi3, Hi2]].
    step. unfold id. cbv zeta. rewrite Hk, He, key_lt, Z.ltb_irrefl, Z.eqb_refl by lia. cbn [negb].
    rewrite <-bind_assoc. step_by E1. step. unfold id.
    rewrite (proj1 (proj2 (proj2 (proj2 (proj2 HL1))))).
    rewrite (ooo_size (taken r)) by done. step_by E2. step. exact E3.
  - assert (∃ w1, when (Z.of_nat (size (ooo (w_rx w))) <? qmax_ (w_flow w))
        (upd_rx (λ r, with_ooo (match ooo r !! key i with
                                | Some _ => ooo r | None => <[key i := segs i]> (ooo r) end) r)) w
        = (Ok tt, w1) ∧ ident (w_ctl w1) = ident (w_ctl w) ∧
        R start q (if decide (Z.of_nat (length (held r)) < q)
                   then Recv (taken r) (if decide (i ∈ held r) then held r else i :: held r)
                   else r) w1) as (w1 & E1 & Hi1 & HR1).
    { rewrite Ho, (ooo_size (taken r)), Hq by done.
      destruct (Z.ltb_spec (Z.of_nat (length (held r))) q);
        [rewrite decide_True by done|rewrite decide_False by lia; by exists w].
      eexists. split; [reflexivity|]. split; [done|].
      change (ooo (c_rx (cn w))) with (ooo (w_rx w)). rewrite Ho.
      destruct (decide (i ∈ held r)) as [Hin|Hin].
      - rewrite (ooo_lookup_in (taken r)) by done.
        rewrite <-Ho. by split_and!.
      - rewrite (ooo_lookup_out (taken r)) by (done || lia).
        split; [by split_and!|]. simpl. split; [by constructor|].
        split; [constructor; [lia|done]|]. rewrite elem_of_cons. by intros [?|?]. }
    destruct (send_ack_refines start q _ w1 HR1) as (w2 & E2 & HR2 & Hi2).
    exists w2. split; [|split; [done|by rewrite Hi2]].
    step. unfold id. cbv zeta. rewrite Hk, He, key_lt, (proj2 (Z.ltb_ge _ _)) by lia.
    rewrite (proj2 (Z.eqb_neq _ _)).
    2: { intros E. apply key_inj in E; lia. }
    cbn [negb]. step_by E1. exact E2.
Qed.

Lemma route_ack_refines start q r w a b :
  R start q r w →
  ∃ w', route_ack cfg clock a b w = (Ok tt, w') ∧ R start q r w' ∧
    ident (w_ctl w') = ident (w_ctl w).
Proof.
  intros HR. destruct (nt_route_ack cfg clock a b w) as [[] Hr].
  pose proof (frame_route_ack cfg clock a b w) as V.
  destruct (route_ack cfg clock a b w) as [res w']. simpl in *. subst res.
  exists w'. split; [done|]. split; [by apply (R_ack start q r w)|].
  unfold ack_view in V. congruence.
Qed.

Lemma receive_refines start q r i w :
  R start q r w → near r i → running (cn w) = true →
  ∃ w', receive cfg clock (PDataSeg (segs i)) w = (Ok tt, w') ∧
    R start q (recv_step q r i) w' ∧ running (cn w') = true.
Proof.
  intros HR Hnear Hrun. apply bool_decide_eq_true in Hrun.
  set (b := (2 <? cphase (w_ctl w)) && negb (timer_is_retransmit (w_ctl w))).
  assert (∃ w1, when b (arm_timer inact_time) w = (Ok tt, w1) ∧ R start q r w1 ∧
            ident (w_ctl w1) = ident (w_ctl w)) as (w1 & E1 & HR1 & Hi1)
    by (destruct b; eexists; (split; [reflexivity|done])).
  destruct (route_ack_refines start q r w1 (DataSeg.acknum (segs i)) true HR1)
    as (w2 & E2 & HR2 & Hi2).
  destruct (route_ack_refines start q r w2 (DataSeg.acknum2 (segs i)) true HR2)
    as (w3 & E3 & HR3 & Hi3).
  destruct (take_segment_refines start q r i w3 HR3 Hnear) as (w4 & E4 & HR4 & Hi4).
  assert (state (w_ctl w4) = RUN) as Hrun4.
  { rewrite <-Hrun. assert (ident (w_ctl w4) = ident (w_ctl w)) as E by congruence.
    unfold ident in E. by injection E. }
  exists w4. split; [|split; [done|by apply bool_decide_eq_true]].
  unfold receive, dispatch. step. unfold id.
  change (state (w_ctl w)) with (state (c_ctl (cn w))). rewrite Hrun.
  unfold st_run. rewrite !bind_assoc. step. unfold id. fold b.
  rewrite !bind_assoc. step_by E1. unfold handle_data.
  rewrite !bind_assoc. step_by E2. rewrite bind_assoc. step_by E3. step_by E4. step. reflexivity.
Qed.

(** Packets arriving one after the other. *)
Fixpoint receive_all (l : list NspPacket) : M unit :=
  match l with [] => mret tt | p :: l => receive cfg clock p;; receive_all l end.

Lemma receive_all_refines start q arrivals r w :
  R start q r w → near_all q r arrivals → running (cn w) = true →
  ∃ w', receive_all (map (λ i, PDataSeg (segs i)) arrivals) w = (Ok tt, w') ∧
    R start q (recv_run q r arrivals) w' ∧ running (cn w') = true.
Proof.
  revert r w. induction arrivals as [|i l IH]; intros r w HR Hnear Hrun; simpl; [by exists w|].
  destruct Hnear as [Hi Hl].
  destruct (receive_refines start q r i w HR Hi Hrun) as (w1 & E1 & HR1 & Hrun1).
  destruct (IH _ w1 HR1 Hl Hrun1) as (w2 & E2 & HR2 & Hrun2).
  exists w2. split; [|done]. step_by E1. exact E2.
Qed.
End Receiver.

(** A link that has received nothing yet. *)
Definition fresh_rx (w : world) : Prop :=
  link_ok w ∧ next_expect (w_rx w) = 1 ∧ assembling (w_rx w) = false ∧
  assembly (w_rx w) = [] ∧ ooo (w_rx w) = ∅.

(** C3: Reliable, sequential delivery.  Let the segments of a stream, numbered from one
    modulo 4096, arrive at a running link in any order, duplicated and overtaking each
    other as long as each is less than half the number space from the one expected then.
    Then every one is processed without an exception, and session control has been given
    exactly the messages that the first [n] segments put together, each once and in
    order, [n] being what the abstract receiver takes; the next segment expected is
    [n + 1]; and [n] reaches any [N] whose segments 0..N-1 arrived in this order, whatever
    arrived between them.  Callbacks that send, and the acknowledgements the segments
    carry, do not disturb this. *)
Theorem data_delivery (cfg : config) (clock : nat → Z) (SC : SessionControl)
    (segs : nat → DataSeg.t) (arrivals : list nat) (w : world) :
  (∀ d w, Forall stream_call (on_notice (DataReceived d) w)) →
  (∀ i, DataSeg.segnum (segs i) = wrap SeqM (Z.of_nat i + 1)) →
  fresh_rx w → running (cn w) = true →
  near_all (qmax_ (w_flow w)) (Recv 0 []) arrivals →
  let n := taken (recv_run (qmax_ (w_flow w)) (Recv 0 []) arrivals) in
  ∃ w', receive_all cfg clock (map (λ i, PDataSeg (segs i)) arrivals) w = (Ok tt, w') ∧
    notices (log w') = notices (log w) ++
      told_data (asm_run (false, []) (map segs (List.seq 0 n))).2 ∧
    next_expect (w_rx w') = wrap SeqM (Z.of_nat n + 1) ∧ running (cn w') = true ∧
    ∀ N, sublist (List.seq 0 N) arrivals → (N ≤ n)%nat.
Proof.
  intros Hsc Hnum (Hw & He & Ha & Hb & Ho) Hrun Hnear n.
  destruct (receive_all_refines cfg clock Hsc segs Hnum (notices (log w)) (qmax_ (w_flow w))
              arrivals (Recv 0 []) w) as (w' & E & [HL _] & Hrun'); [|done|done|].
  { split; [|split_and!; [constructor|constructor|apply not_elem_of_nil]].
    split; [done|]. split; [done|]. split; [exact He|]. split; [by rewrite Ha, Hb|].
    split; [exact Ho|]. simpl. by rewrite app_nil_r. }
  destruct HL as (_ & _ & He' & _ & _ & Hn').
  exists w'. split_and!; try done. intros N HN.
  by apply (recv_run_sublist (qmax_ (w_flow w)) arrivals (Recv 0 []) N).
Qed.

(** A configuration with the defaults of the program, and a link that has just
    entered the running state with a tiny segment size, for the witnesses. *)
Definition example_config : config :=
  Config 4095 3 f2 f1 f1 5 VER_PH4 20 4 true (λ _, false).
Definition example_link (s : cstate) (flow : Z) : world :=
  World (Conn (Ctl s 8193 12290 1025 4 4 4 None false 0)
              (Tx 1 0 [] 1 1 0)
              (Flow flow 0 0 true 20 f2 (f_of_Z 20) None)
              (Rx 1 ∅ false false [] false)
              (Other 1 1 [] 1 1))
        f0 (λ _, 0) 0 [].

(** Session control that echoes every message and ignores the rest. *)
Definition echo : SessionControl := λ n _,
  match n with DataReceived _ => [SendData [7; 7]] | _ => [] end.

Definition example_stream (i : nat) : DataSeg.t :=
  DataSeg.mk 96 8193 12290 (Some (mkAck 0 ACKQ)) None (wrap SeqM (Z.of_nat i + 1)) false
    [Z.of_nat i].

Lemma data_delivery_witness :
  ∃ w', receive_all (SC:=echo) example_config (λ _, 1000)
          (map (λ i, PDataSeg (example_stream i)) [2; 0; 0; 3; 1]%nat)
          (example_link RUN SVC_NONE) = (Ok tt, w') ∧
    notices (log w') = map (λ d, Told (DataReceived d)) [[0]; [1]; [2]; [3]].
Proof.
  destruct (data_delivery example_config (λ _, 1000) echo example_stream [2; 0; 0; 3; 1]%nat
              (example_link RUN SVC_NONE)) as (w' & E & Hn & _).
  - intros d w. repeat constructor; lia.
  - intros i. unfold example_stream, DataSeg.segnum. cbn [DataSeg.segnum_bits].
    apply (wrap_small SeqM); [lia|]. apply (wrap_ok SeqM). lia.
  - split_and!; [by apply (bool_decide_unpack _)|reflexivity..].
  - reflexivity.
  - by apply (bool_decide_unpack _).
  - exists w'. split; [exact E|]. rewrite Hn. vm_compute. reflexivity.
Defined.
