(* ===== verification/ConnTransmit.v ===== *)
(** The transmitting half of a connection: segmentation, flow and congestion
    control, acknowledgements and retransmission. *)

From S2P Require Import Prelude Buffer Modulo Types Codec Layout Indexed NspPackets Float Connection ConnLaws ConnSend ConnReceive.
#[local] Open Scope Z_scope.
#[local] Open Scope decnet_scope.

(** What never changes about an entry of the queue. *)
Definition static (e : TxEntry) := (seq e, segnum e, msgnum e, Connection.frame e, is_data e).

Section Static.
Context (cfg : config) (clock : nat → Z).

Lemma bind_inv {A B} (m : M A) (k : A → M B) w b w' :
  (m ≫= k) w = (Ok b, w') → ∃ a w1, m w = (Ok a, w1) ∧ k a w1 = (Ok b, w').
Proof. unfold mbind, M_bind. destruct (m w) as [[a|e] w1]; [eauto|done]. Qed.

Lemma send_loop_static q timing any w q' any' w' :
  send_loop cfg clock q timing any w = (Ok (q', any'), w') → map static q' = map static q.
Proof.
  revert timing any w q' any' w'. induction q as [|e q IH]; intros timing any w q' any' w';
    simpl; [by intros [= <- <- _]|].
  destruct (sent e) eqn:Es.
  - intros ([q1 a1] & w1 & E1 & E2)%bind_inv. injection E2 as <- _ _. simpl. f_equal. by eapply IH.
  - intros (w0 & w1 & [= <- <-] & H)%bind_inv.
    destruct (negb (flow_ok (cn w) e)); [by injection H as <- _ _|].
    apply bind_inv in H as ([] & w2 & _ & H). apply bind_inv in H as (t & w3 & _ & H).
    apply bind_inv in H as ([q1 a1] & w4 & E1 & E2). injection E2 as <- _ _. simpl. f_equal.
    by eapply IH.
Qed.

Lemma send_blocked_static w w' :
  send_blocked cfg clock w = (Ok tt, w') → map static (txq (w_tx w')) = map static (txq (w_tx w)).
Proof.
  unfold send_blocked. intros (w0 & w1 & [= <- <-] & H)%bind_inv.
  apply bind_inv in H as ([q any] & w2 & E & H). apply send_loop_static in E.
  apply bind_inv in H as ([] & w3 & [= <-] & H). rewrite <-E.
  destruct any; [|by injection H as <-].
  apply bind_inv in H as ([] & w4 & [= <-] & H). apply bind_inv in H as ([] & w5 & [= <-] & H).
  apply bind_inv in H as (w6 & w7 & [= <- <-] & H). by injection H as <-.
Qed.
End Static.

(** ** Segmentation *)

(** Entry [i] of [es] carries segment [i] of [segs], numbered from [send] on the
    wire and [segno] absolutely. *)
Definition carries (send segno msgno : Z) (i : nat) (s : DataSeg.t) (e : TxEntry) : Prop :=
  seq e = wrap SeqM (send + Z.of_nat i) ∧ segnum e = u32 (segno + Z.of_nat i) ∧
  msgnum e = msgno ∧ is_data e = true ∧
  DataSeg.segnum s = seq e ∧ parse_frame (Connection.frame e) = Some (PDataSeg s).

Lemma parse_seg_of w rest first frm :
  link_ok w → bytes_ok rest → encode_packet (PDataSeg (seg_of w rest first)) = Ok frm →
  parse_frame frm = Some (PDataSeg (seg_of w rest first)).
Proof.
  intros Hw Hr E. destruct (parse_encode _ (seg_of_ok w rest first Hw Hr)) as (bs & E' & _ & D).
  rewrite E in E'. by injection E' as <-.
Qed.

Lemma seg_of_flags w rest first :
  DataSeg.bom (seg_of w rest first) = first ∧
  DataSeg.eom (seg_of w rest first) =
    (len rest <=? Z.min (if segsize (w_ctl w) =? 0 then MSS else segsize (w_ctl w)) (len rest)).
Proof.
  unfold DataSeg.bom, DataSeg.eom, seg_of. cbn [DataSeg.msgflag].
  by destruct first, (len rest <=? _).
Qed.

Lemma seg_limit w :
  link_ok w → 0 < (if segsize (w_ctl w) =? 0 then MSS else segsize (w_ctl w)) ≤ MSS.
Proof. intros (_ & _ & H & _). unfold MSS in *. destruct (Z.eqb_spec (segsize (w_ctl w)) 0); lia. Qed.

Lemma seq_small v : seq_ok v → wrap SeqM v = v.
Proof. by apply wrap_small. Qed.
Lemma wrap_add a b : wrap SeqM (wrap SeqM a + b) = wrap SeqM (a + b).
Proof. rewrite !wrap_mod by lia. by rewrite Z.add_mod_idemp_l by lia. Qed.
Lemma u32_add a b : u32 (u32 a + b) = u32 (a + b).
Proof. unfold u32. by rewrite Z.add_mod_idemp_l by lia. Qed.

Lemma carries_shift send segno msgno i s e :
  carries (mod_incr SeqM (wrap SeqM send)) (u32 (segno + 1)) msgno i s e →
  carries send segno msgno (S i) s e.
Proof.
  unfold carries. rewrite mod_incr_abs, wrap_add, u32_add by lia.
  intros (-> & -> & ? & ? & ? & ?). split_and!; try done; f_equal; lia.
Qed.

(** One step of the loop, with what it queues. *)
Lemma segment_step_carries w rest first :
  link_ok w → bytes_ok rest → fits 4 (next_segnum (w_tx w)) →
  let n := Z.to_nat (Z.min (if segsize (w_ctl w) =? 0 then MSS else segsize (w_ctl w)) (len rest)) in
  let last := (length rest <=? n)%nat in
  let t := w_tx w in
  ∃ s e, segment_step rest first w = (Ok (drop n rest), with_cn (with_c_tx
      (Tx (mod_incr SeqM (next_send t)) (highest_acked t) (txq t ++ [e]) (u32 (next_segnum t + 1))
          (if last then u32 (next_msgnum t + 1) else next_msgnum t) (max_acked_seg t)) (cn w)) w) ∧
    carries (next_send t) (next_segnum t) (next_msgnum t) 0 s e ∧
    sent e = false ∧ txtime e = 0 ∧ len (DataSeg.payload s) ≤ MSS ∧
    DataSeg.payload s = take n rest ∧ DataSeg.bom s = first ∧ DataSeg.eom s = last ∧
    (rest ≠ [] → (0 < n)%nat).
Proof.
  intros Hw Hr Hsn n last t.
  destruct (seg_encodes _ (seg_of_ok w rest first Hw Hr)) as [frm E].
  pose proof (segment_step_spec w rest first frm E) as Hstep.
  pose proof (parse_seg_of w rest first frm Hw Hr E) as Hp.
  destruct (seg_of_flags w rest first) as [Hbom Heom]. pose proof (seg_limit w Hw) as Hlim.
  assert (last = (len rest <=? Z.min
    (if segsize (w_ctl w) =? 0 then MSS else segsize (w_ctl w)) (len rest))) as Hlast.
  { unfold last, n, len. destruct (Nat.leb_spec (length rest) (Z.to_nat (Z.min
      (if segsize (w_ctl w) =? 0 then MSS else segsize (w_ctl w)) (Z.of_nat (length rest)))));
      symmetry; [apply Z.leb_le; lia|apply Z.leb_gt; lia]. }
  assert (seq_ok (next_send t)) as Hns by apply Hw.
  exists (seg_of w rest first),
    (mkTx (next_send t) (next_segnum t) (next_msgnum t) frm false true 0).
  cbv zeta in Hstep. rewrite <-Hlast in Hstep, Heom. split; [exact Hstep|].
  split; [|split; [done|split; [done|split; [|split; [done|split; [done|split; [done|]]]]]]].
  - unfold carries. simpl. rewrite !Z.add_0_r.
    rewrite (seq_small (next_send t)), u32_small by (done || lia).
    split_and!; try done. by apply wrap_small; [lia|].
  - cbn [seg_of DataSeg.payload]. unfold len. rewrite length_take. lia.
  - intros Hne. unfold n. destruct rest; [done|]. rewrite len_cons. pose proof (len_nonneg rest). lia.
Qed.

Section Segmentation.
Lemma segment_loop_spec fuel rest first w :
  (length rest < fuel)%nat → link_ok w → bytes_ok rest → fits 4 (next_segnum (w_tx w)) →
  ∃ segs es w', segment_loop fuel rest first w = (Ok tt, w') ∧ link_ok w' ∧
    length es = length segs ∧
    w' = with_cn (with_c_tx
      (Tx (wrap SeqM (next_send (w_tx w) + len segs)) (highest_acked (w_tx w))
          (txq (w_tx w) ++ es) (u32 (next_segnum (w_tx w) + len segs))
          (u32 (next_msgnum (w_tx w) + 1)) (max_acked_seg (w_tx w))) (cn w)) w ∧
    (∀ i s e, segs !! i = Some s → es !! i = Some e →
      carries (next_send (w_tx w)) (next_segnum (w_tx w)) (next_msgnum (w_tx w)) i s e ∧
      sent e = false ∧ txtime e = 0 ∧ len (DataSeg.payload s) ≤ MSS) ∧
    (∀ a, first = true ∨ a.1 = true →
      asm_run a segs = ((false, []), [(if first then [] else a.2) ++ rest])).
Proof.
  revert rest first w. induction fuel as [|fuel IH]; intros rest first w Hf Hw Hr Hn; [lia|].
  destruct (segment_step_carries w rest first Hw Hr Hn)
    as (s & e & Hstep & Hc & Hse & Hte & Hlen & Hpay & Hbom & Heom & Hpos).
  set (n := Z.to_nat _) in *. set (t := w_tx w) in *.
  destruct (segment_step_fine rest first Hr w Hw) as (r1 & w1 & E1 & Hw1 & _).
  rewrite E1 in Hstep. injection Hstep as -> Ew1.
  assert (seq_ok (next_send t)) as Hns by apply Hw.
  assert (mod_incr SeqM (next_send t) = wrap SeqM (next_send t + 1)) as Hinc.
  { rewrite <-(seq_small (next_send t) Hns) at 1. by rewrite mod_incr_abs by lia. }
  assert (∀ a, first = true ∨ a.1 = true → asm_step a s =
    let b := (if first then [] else a.2) ++ take n rest in
    if (length rest <=? n)%nat then ((false, []), [b]) else ((true, b), [])) as Hasm.
  { intros [a1 a2] Ha. unfold asm_step. rewrite Hbom, Heom, Hpay. simpl in *.
    destruct first; simpl; [done|]. destruct Ha as [|Ha]; [done|]. by rewrite Ha. }
  destruct (Nat.leb_spec (length rest) n) as [Hle|Hgt].
  - exists [s], [e], w1. cbn [segment_loop]. rewrite drop_ge in E1 by done.
    split; [by step_by E1|]. split; [done|]. split; [done|].
    split; [|split].
    + by rewrite Ew1, Hinc.
    + intros [|i] s' e' Hs' He'; [|done]. injection Hs' as <-. by injection He' as <-.
    + intros a Ha. simpl. rewrite (Hasm a Ha). cbv zeta. by rewrite take_ge.
  - assert (drop n rest ≠ []) as Hne.
    { intros Hd%(f_equal length). rewrite length_drop in Hd. simpl in Hd. lia. }
    assert (0 < n)%nat as Hn0 by (apply Hpos; intros Er; apply Hne; by rewrite Er, drop_nil).
    destruct (IH (drop n rest) false w1) as (segs & es & w2 & E2 & Hw2 & Hl & Ew2 & Hall & Hrun);
      [rewrite length_drop; lia|done|by apply bytes_ok_drop| |].
    { rewrite Ew1. apply u32_range. }
    exists (s :: segs), (e :: es), w2. cbn [segment_loop].
    split. { step_by E1. by destruct (drop n rest). }
    split; [done|]. split; [by simpl; rewrite Hl|].
    assert (w_tx w1 = Tx (mod_incr SeqM (next_send t)) (highest_acked t) (txq t ++ [e])
      (u32 (next_segnum t + 1)) (next_msgnum t) (max_acked_seg t)) as Et1 by (by rewrite Ew1).
    rewrite Et1 in *. cbn [next_send next_segnum next_msgnum txq highest_acked max_acked_seg] in *.
    split; [|split].
    + rewrite Ew2, Ew1, Hinc, wrap_add, u32_add, len_cons, <-app_assoc by lia.
      cbn [app]. replace (next_send t + 1 + len segs) with (next_send t + (1 + len segs)) by lia.
      by replace (next_segnum t + 1 + len segs) with (next_segnum t + (1 + len segs)) by lia.
    + intros [|i] s' e' Hs' He'.
      * injection Hs' as <-. injection He' as <-. done.
      * destruct (Hall i s' e' Hs' He') as (Hc' & ? & ? & ?). split; [|done].
        apply carries_shift. by rewrite (seq_small (next_send t)) by (done || lia).
    + intros a Ha. simpl. rewrite (Hasm a Ha). cbv zeta.
      rewrite (Hrun (true, _)) by (by right). cbn [snd app]. by rewrite <-app_assoc, take_drop.
Qed.
End Segmentation.

(** ** From one end to the other *)

Lemma asm_run_app a xs ys :
  asm_run a (xs ++ ys) =
    let '(b, ms) := asm_run a xs in let '(c, ms') := asm_run b ys in (c, ms ++ ms').
Proof.
  revert a. induction xs as [|x xs IH]; intros a; simpl; [by destruct (asm_run a ys)|].
  destruct (asm_step a x) as [b ms]. rewrite IH. destruct (asm_run b xs) as [c ms'].
  destruct (asm_run c ys) as [d ms'']. by rewrite app_assoc.
Qed.

Definition frames (w : world) : list Bytes := map Connection.frame (txq (w_tx w)).

Lemma frames_static w w' :
  map static (txq (w_tx w)) = map static (txq (w_tx w')) → frames w = frames w'.
Proof.
  intros H. apply (f_equal (map (λ x, x.1.2))) in H. rewrite !map_map in H. exact H.
Qed.

(** The queue holds the segments [segs] of a stream and nothing else. *)
Definition queued_stream (segs : list DataSeg.t) (w : world) : Prop :=
  link_ok w ∧ running (cn w) = true ∧
  next_send (w_tx w) = wrap SeqM (1 + len segs) ∧ next_segnum (w_tx w) = u32 (1 + len segs) ∧
  map parse_frame (frames w) = map (λ s, Some (PDataSeg s)) segs ∧
  (∀ i s, segs !! i = Some s → DataSeg.segnum s = wrap SeqM (Z.of_nat i + 1)).

Section SendAll.
Context (cfg : config) (clock : nat → Z).

(** Messages sent one after the other. *)
Fixpoint send_all (ms : list Bytes) : M unit :=
  match ms with [] => mret tt | m :: ms => send_data cfg clock m;; send_all ms end.

Lemma send_blocked_result w :
  ∃ w', send_blocked cfg clock w = (Ok tt, w') ∧ ack_view w' = ack_view w ∧
    map static (txq (w_tx w')) = map static (txq (w_tx w)).
Proof.
  destruct (nt_send_blocked cfg clock w) as [[] Hr].
  pose proof (frame_send_blocked cfg clock w) as V.
  pose proof (send_blocked_static cfg clock w) as S.
  destruct (send_blocked cfg clock w) as [r w']. simpl in *. subst r. eauto.
Qed.

Lemma parses_of_carries send segno msgno segs es :
  length es = length segs →
  (∀ i s e, segs !! i = Some s → es !! i = Some e → carries send segno msgno i s e) →
  map parse_frame (map Connection.frame es) = map (λ s, Some (PDataSeg s)) segs.
Proof.
  revert send segno es. induction segs as [|s segs IH]; intros send segno [|e es] Hl H;
    try done; simpl in *.
  f_equal; [by apply (H 0%nat s e)|].
  apply (IH (send + 1) (u32 (segno + 1))); [lia|].
  intros i s' e' Hs He. destruct (H (S i) s' e' Hs He) as (E1 & E2 & E3 & E4 & E5 & E6).
  unfold carries. split_and!; try done.
  - rewrite E1. f_equal. lia.
  - rewrite u32_add, E2. f_equal. lia.
Qed.

Lemma send_data_queues segs m w :
  queued_stream segs w → bytes_ok m →
  ∃ segs' w', send_data cfg clock m w = (Ok tt, w') ∧ queued_stream (segs ++ segs') w' ∧
    ∀ a, asm_run a segs' = ((false, []), [m]).
Proof.
  intros (Hw & Hrun & Hns & Hsn & Hf & Hnum) Hm.
  set (w1 := (count msg_xmt 1 (count byt_xmt (len m) w).2).2).
  destruct (segment_loop_spec (S (length m)) m true w1)
    as (segs' & es & w2 & E2 & Hw2 & Hl & Ew2 & Hall & Hasm);
    [lia|exact Hw|done|change (w_tx w1) with (w_tx w); rewrite Hsn; apply u32_range|].
  destruct (send_blocked_result w2) as (w3 & E3 & V3 & S3).
  exists segs', w3. split; [|split].
  - unfold send_data. step. unfold id. rewrite Hrun. cbn [negb]. step. step.
    unfold send_segments. etrans; [eapply bind_ok; exact E2|]. exact E3.
  - change (w_tx w1) with (w_tx w) in *. rewrite Hns, Hsn in *.
    assert (w_tx w2 = Tx (wrap SeqM (1 + len segs + len segs')) (highest_acked (w_tx w))
      (txq (w_tx w) ++ es) (u32 (1 + len segs + len segs'))
      (u32 (next_msgnum (w_tx w) + 1)) (max_acked_seg (w_tx w))) as Et2.
    { rewrite Ew2. cbn. by rewrite wrap_add, u32_add. }
    unfold ack_view in V3. assert (ident (w_ctl w3) = ident (w_ctl w)) as Hi.
    { transitivity (ident (w_ctl w2)); [congruence|by rewrite Ew2]. }
    split; [by apply (link_ok_ack w3 w2)|].
    split. { apply bool_decide_eq_true. apply bool_decide_eq_true in Hrun. rewrite <-Hrun.
             unfold ident in Hi. by injection Hi. }
    rewrite len_app, Z.add_assoc.
    split; [assert (next_send (w_tx w3) = next_send (w_tx w2)) as -> by congruence;
            by rewrite Et2|].
    split; [assert (next_segnum (w_tx w3) = next_segnum (w_tx w2)) as -> by congruence;
            by rewrite Et2|].
    split.
    + rewrite (frames_static _ _ S3). unfold frames. rewrite Et2. cbn [txq].
      rewrite !map_app. fold (frames w). rewrite Hf. f_equal.
      eapply parses_of_carries; [done|]. intros i s e Hs He. by apply (Hall i s e).
    + intros i s Hs. apply lookup_app_Some in Hs as [Hs|[Hi' Hs]]; [by apply Hnum|].
      destruct (lookup_lt_is_Some_2 es (i - length segs)) as [e He].
      { rewrite Hl. by apply lookup_lt_Some in Hs. }
      destruct (Hall _ s e Hs He) as ((H1 & _ & _ & _ & H2 & _) & _).
      rewrite H2, H1, wrap_add. f_equal. unfold len. lia.
  - intros a. by apply Hasm; left.
Qed.

Lemma send_all_queues ms segs w :
  queued_stream segs w → Forall bytes_ok ms →
  ∃ segs' w', send_all ms w = (Ok tt, w') ∧ queued_stream (segs ++ segs') w' ∧
    ∀ a, a = (false, []) → asm_run a segs' = ((false, []), ms).
Proof.
  intros Hq Hms. revert segs w Hq. induction Hms as [|m ms Hm Hms IH]; intros segs w Hq.
  { exists [], w. rewrite app_nil_r. split; [done|]. split; [done|]. by intros ? ->. }
  destruct (send_data_queues segs m w Hq Hm) as (s1 & w1 & E1 & Q1 & A1).
  destruct (IH _ w1 Q1) as (s2 & w2 & E2 & Q2 & A2).
  exists (s1 ++ s2), w2. split; [simpl; etrans; [eapply bind_ok; exact E1|]; exact E2|].
  split; [by rewrite app_assoc|]. intros a _. by rewrite asm_run_app, A1, A2.
Qed.
End SendAll.

(** *** Any schedule of the frames *)

Lemma advance_bound fuel n h N :
  (n ≤ N)%nat → Forall (λ i, i < N)%nat h →
  (taken (advance fuel n h) ≤ N)%nat ∧ Forall (λ i, i < N)%nat (held (advance fuel n h)).
Proof.
  revert n h. induction fuel as [|fuel IH]; intros n h Hn Hh; simpl; [done|].
  destruct (decide (n ∈ h)) as [Hin|]; [|done].
  rewrite Forall_forall in Hh. pose proof (Hh n Hin). apply IH; [lia|].
  rewrite Forall_forall. intros i [_ Hi]%list_elem_of_filter. by apply Hh.
Qed.

Lemma recv_run_bound q l r N :
  Forall (λ i, i < N)%nat l → (taken r ≤ N)%nat → Forall (λ i, i < N)%nat (held r) →
  (taken (recv_run q r l) ≤ N)%nat.
Proof.
  intros Hl. revert r. induction Hl as [|i l Hi Hl IH]; intros r Hr Hh; [done|].
  assert (taken (recv_step q r i) ≤ N ∧ Forall (λ i, i < N) (held (recv_step q r i)))%nat
    as [H1 H2].
  { unfold recv_step. destruct (decide (i < taken r)%nat); [done|].
    destruct (decide (i = taken r)) as [->|]; [by apply advance_bound|].
    destruct (decide _); [|done]. destruct (decide _); [done|].
    split; [done|]. by constructor. }
  by apply IH.
Qed.

(** A list as a stream: past its end come empty segments that never arrive. *)
Definition as_stream (segs : list DataSeg.t) (i : nat) : DataSeg.t :=
  default (DataSeg.mk 0 0 0 None None (wrap SeqM (Z.of_nat i + 1)) false []) (segs !! i).

Lemma as_stream_take segs n :
  (n ≤ length segs)%nat → map (as_stream segs) (List.seq 0 n) = take n segs.
Proof.
  intros Hn. apply list_eq. intros i. rewrite list_lookup_fmap.
  destruct (decide (i < n)%nat) as [Hi|Hi].
  - rewrite lookup_seq_lt, lookup_take_lt by done. simpl. unfold as_stream.
    destruct (lookup_lt_is_Some_2 segs i) as [s ->]; [lia|done].
  - rewrite lookup_seq_ge by lia. symmetry. apply lookup_ge_None. rewrite length_take. lia.
Qed.

Lemma asm_take a segs n ms :
  (asm_run a segs).2 = ms → ∃ k, (asm_run a (take n segs)).2 = take k ms ∧
    ((length segs ≤ n)%nat → k = length ms).
Proof.
  intros <-. destruct (decide (length segs ≤ n)%nat) as [Hn|Hn].
  { exists (length (asm_run a segs).2). by rewrite take_ge, firstn_all by done. }
  assert (asm_run a segs = asm_run a (take n segs ++ drop n segs)) as -> by (by rewrite take_drop).
  rewrite asm_run_app.
  destruct (asm_run a (take n segs)) as [b m1]. destruct (asm_run b (drop n segs)) as [c m2].
  exists (length m1). simpl. rewrite take_app_length. split; [done|]. lia.
Qed.

(** The packets a receiver parses when the frames numbered [arrivals] of a
    queue reach it. *)
Definition arriving (fs : list Bytes) (arrivals : list nat) : list NspPacket :=
  omap (λ i, fs !! i ≫= parse_frame) arrivals.

Lemma arriving_stream fs segs arrivals :
  map parse_frame fs = map (λ s, Some (PDataSeg s)) segs →
  Forall (λ i, i < length fs)%nat arrivals →
  arriving fs arrivals = map (λ i, PDataSeg (as_stream segs i)) arrivals.
Proof.
  intros Hf Ha. unfold arriving. induction Ha as [|i l Hi Hl IH]; [done|].
  assert (fs !! i ≫= parse_frame = Some (PDataSeg (as_stream segs i))) as E.
  { apply (f_equal (λ l, l !! i)) in Hf. rewrite !list_lookup_fmap in Hf.
    destruct (lookup_lt_is_Some_2 fs i Hi) as [f Ef]. rewrite Ef in *. unfold as_stream.
    destruct (segs !! i) as [s|]; [|discriminate Hf].
    cbn [fmap option_fmap option_map] in Hf. injection Hf as Hf. exact Hf. }
  cbn [omap list_omap map]. rewrite E. f_equal. exact IH.
Qed.

(** A link that has sent nothing yet. *)
Definition fresh_tx (w : world) : Prop :=
  link_ok w ∧ running (cn w) = true ∧ txq (w_tx w) = [] ∧ next_send (w_tx w) = 1 ∧
  next_segnum (w_tx w) = 1.

(** C1: End to end.  The messages given to [send_data] on a running link are cut into
    segments whose frames, parsed and received at the other end in any order and number
    that keeps within half the sequence space, are put together again: the receiver's
    session control gets a prefix of the messages, each whole, once and in order, and all
    of them as soon as every frame has arrived once in order, whatever else arrived in
    between. *)
Theorem end_to_end (cfgA cfgB : config) (clockA clockB : nat → Z) (SC : SessionControl)
    (ms : list Bytes) (A B : world) :
  (∀ d w, Forall stream_call (on_notice (DataReceived d) w)) →
  Forall bytes_ok ms → fresh_tx A → fresh_rx B → running (cn B) = true →
  ∃ A', send_all cfgA clockA ms A = (Ok tt, A') ∧
    ∀ arrivals, Forall (λ i, i < length (frames A'))%nat arrivals →
      near_all (qmax_ (w_flow B)) (Recv 0 []) arrivals →
      ∃ B' k, receive_all cfgB clockB (arriving (frames A') arrivals) B = (Ok tt, B') ∧
        notices (log B') = notices (log B) ++ told_data (take k ms) ∧
        (sublist (List.seq 0 (length (frames A'))) arrivals → k = length ms).
Proof.
  intros Hsc Hms (Hw & Hrun & Hq & Hns & Hsn) (Hwb & Heb & Hab & Hbb & Hob) HrunB.
  destruct (send_all_queues cfgA clockA ms [] A) as (segs & A' & EA & QA & AA); [|done|].
  { split_and!; try done. unfold frames. by rewrite Hq. }
  exists A'. split; [done|]. intros arrivals Harr Hnear.
  destruct QA as (_ & _ & _ & _ & Hf & Hnum). rewrite app_nil_l in Hf, Hnum.
  assert (length (frames A') = length segs) as Hlen
    by (apply (f_equal length) in Hf; by rewrite !length_map in Hf).
  assert (∀ i, DataSeg.segnum (as_stream segs i) = wrap SeqM (Z.of_nat i + 1)) as HnumS.
  { intros i. unfold as_stream. destruct (segs !! i) eqn:Es; simpl; [by apply Hnum|].
    apply seq_small. by apply wrap_ok. }
  destruct (receive_all_refines cfgB clockB Hsc (as_stream segs) HnumS (notices (log B))
              (qmax_ (w_flow B)) arrivals (Recv 0 []) B) as (B' & EB & [HL _] & _); [|done|done|].
  { split; [|split_and!; [constructor|constructor|apply not_elem_of_nil]].
    split; [done|]. split; [done|]. split; [exact Heb|]. split; [by rewrite Hab, Hbb|].
    split; [exact Hob|]. simpl. by rewrite app_nil_r. }
  set (n := taken (recv_run (qmax_ (w_flow B)) (Recv 0 []) arrivals)) in *.
  assert (n ≤ length segs)%nat as Hn by (apply recv_run_bound; [by rewrite <-Hlen|simpl; lia|constructor]).
  destruct HL as (_ & _ & _ & _ & _ & HnB). unfold stream in HnB.
  rewrite as_stream_take in HnB by done.
  destruct (asm_take (false, []) segs n ms) as (k & Hk & Hall); [by rewrite AA|].
  exists B', k. split; [by rewrite (arriving_stream _ segs)|]. rewrite Hk in HnB. split; [exact HnB|].
  intros Hsub. apply Hall. rewrite Hlen in Hsub.
  by apply (recv_run_sublist (qmax_ (w_flow B)) arrivals (Recv 0 []) (length segs)).
Qed.

Lemma end_to_end_witness :
  ∃ A', send_all example_config (λ _, 1000) [[1; 2]; [1; 2; 3; 4; 5; 6]]
          (example_link RUN SVC_NONE) = (Ok tt, A') ∧ length (frames A') = 3%nat ∧
    ∃ B', receive_all (SC:=echo) example_config (λ _, 1000) (arriving (frames A') [2; 0; 1]%nat)
            (example_link RUN SVC_NONE) = (Ok tt, B').
Proof.
  destruct (end_to_end example_config example_config (λ _, 1000) (λ _, 1000) echo
              [[1; 2]; [1; 2; 3; 4; 5; 6]] (example_link RUN SVC_NONE) (example_link RUN SVC_NONE))
    as (A' & E & H).
  - intros d w. repeat constructor; lia.
  - by apply (bool_decide_unpack _).
  - split_and!; [by apply (bool_decide_unpack _)|reflexivity..].
  - split_and!; [by apply (bool_decide_unpack _)|reflexivity..].
  - reflexivity.
  - assert (length (frames A') = 3%nat) as Hl.
    { apply (f_equal (λ p, length (frames p.2))) in E. etrans; [symmetry; exact E|].
      vm_compute. reflexivity. }
    exists A'. split; [exact E|]. split; [exact Hl|].
    destruct (H [2; 0; 1]%nat) as (B' & k & EB & _).
    + rewrite Hl. by apply (bool_decide_unpack _).
    + by apply (bool_decide_unpack _).
    + exists B'. exact EB.
Defined.
