(* ===== verification/ConnWindow.v ===== *)
(** The transmit queue of a connection and its window.

    [TxOk] is the invariant of the queue: at most one connect message, then
    data segments numbered without gaps, of which a prefix is in flight and
    reaches no further than the window allows.  Every operation of the class
    keeps it ([keeps_receive], [keeps_timeout], [keeps_call]), whatever
    session control answers, so it holds of every link reachable from a
    constructor. *)

From S2P Require Import Prelude Buffer Modulo Types Codec Layout Indexed NspPackets Float Connection ConnLaws ConnSend ConnReceive ConnTransmit.
#[local] Open Scope Z_scope.
#[local] Open Scope decnet_scope.

(** ** What [send_blocked] sends *)

Definition is_sent (e : TxEntry) : Prop := sent e = true.
Definition is_unsent (e : TxEntry) : Prop := sent e = false.

(** An entry once it has been sent. *)
Definition launch (t : Z) (e : TxEntry) : TxEntry := with_txtime t (with_sent true e).

Definition sent_log (cfg : config) (q : list TxEntry) : list effect :=
  if has_routing cfg then map (λ e, Sent (Connection.frame e)) q else [].

Section SendBlocked.
Context (cfg : config) (clock : nat → Z).

Lemma send_to_effect f w :
  ∃ w', send_to cfg f w = (Ok tt, w') ∧ cn w' = cn w ∧
    log w' = log w ++ (if has_routing cfg then [Sent f] else []).
Proof.
  unfold send_to. destruct (has_routing cfg); eexists; (split; [reflexivity|]); [done|].
  by rewrite app_nil_r.
Qed.

Lemma send_loop_spec ss u timing any w :
  Forall is_sent ss → Forall is_unsent u →
  ∃ u1 u2 ts w', u = u1 ++ u2 ∧ length ts = length u1 ∧
    send_loop cfg clock (ss ++ u) timing any w =
      (Ok (ss ++ zip_with launch ts u1 ++ u2, any || bool_decide (u1 ≠ [])), w') ∧
    cn w' = cn w ∧ log w' = log w ++ sent_log cfg u1 ∧
    Forall (λ e, flow_ok (cn w) e = true) u1 ∧
    match u2 with e :: _ => flow_ok (cn w) e = false | [] => True end.
Proof.
  intros Hs Hu. revert timing any w. induction Hs as [|e ss He Hs IH]; intros timing any w.
  - revert timing any w. induction Hu as [|e u He Hu IH]; intros timing any w.
    { exists [], [], [], w. unfold sent_log. simpl. rewrite orb_false_r.
      split_and!; try done. destruct (has_routing cfg); by rewrite app_nil_r. }
    destruct (flow_ok (cn w) e) eqn:Ef.
    2: { exists [], (e :: u), [], w. split_and!; try done.
         - simpl. rewrite He. step. unfold id. rewrite Ef. simpl. by rewrite orb_false_r.
         - unfold sent_log. destruct (has_routing cfg); by rewrite app_nil_r. }
    destruct (send_to_effect (Connection.frame e) w) as (w1 & E1 & C1 & L1).
    assert (∃ t w2, (if timing then mret (txtime e) else now clock) w1 = (Ok t, w2) ∧
              cn w2 = cn w ∧ log w2 = log w1) as (t & w2 & E2 & C2 & L2)
      by (destruct timing; eexists _, _; (split; [reflexivity|by rewrite <-C1])).
    destruct (IH true true w2) as (u1 & u2 & ts & w3 & Eu & Hl & E3 & C3 & L3 & Hf & Hn).
    exists (e :: u1), u2, (t :: ts), w3. rewrite C2 in *. split_and!; try done.
    + by rewrite Eu.
    + by simpl; rewrite Hl.
    + simpl in *. rewrite He. step. unfold id. rewrite Ef. cbn [negb].
      step_by E1. step_by E2. step_by E3. by rewrite orb_true_r.
    + rewrite L3, L2, L1. unfold sent_log. destruct (has_routing cfg); simpl; [|by rewrite !app_nil_r].
      by rewrite <-app_assoc.
    + by constructor.
  - destruct (IH timing any w) as (u1 & u2 & ts & w' & Eu & Hl & E & C & Hlog & Hf & Hn).
    exists u1, u2, ts, w'. split_and!; try done. simpl. rewrite He. by step_by E.
Qed.

(** [send_blocked] on a queue of which a prefix has been sent. *)
Lemma send_blocked_spec w ss u :
  txq (w_tx w) = ss ++ u → Forall is_sent ss → Forall is_unsent u →
  ∃ u1 u2 ts w', u = u1 ++ u2 ∧ length ts = length u1 ∧
    send_blocked cfg clock w = (Ok tt, w') ∧
    txq (w_tx w') = ss ++ zip_with launch ts u1 ++ u2 ∧
    log w' = log w ++ sent_log cfg u1 ∧
    Forall (λ e, flow_ok (cn w) e = true) u1 ∧
    match u2 with e :: _ => flow_ok (cn w) e = false | [] => True end.
Proof.
  intros Eq Hs Hu.
  destruct (send_loop_spec ss u (existsb (λ e, negb (txtime e =? 0)) (txq (w_tx w))) false w Hs Hu)
    as (u1 & u2 & ts & w1 & Eu & Hl & E & C & Hlog & Hf & Hn).
  rewrite <-Eq in E.
  destruct (false || bool_decide (u1 ≠ []));
    (eexists u1, u2, ts, _; split; [done|]; split; [done|]; split;
     [unfold send_blocked; step; cbv zeta; unfold id; step_by E; step; reflexivity|done]).
Qed.
End SendBlocked.

(** ** The invariant *)

(** Data segments numbered from [a] on. *)
Fixpoint consecutive (a : Z) (q : list TxEntry) : Prop :=
  match q with
  | [] => True
  | e :: q => segnum e = a ∧ seq e = wrap SeqM a ∧ is_data e = true ∧ consecutive (a + 1) q
  end.

Definition control (e : TxEntry) : Prop := is_data e = false ∧ sent e = true ∧ segnum e = 0.

(** The window never exceeds this. *)
Definition Wmax (w : world) : Z := Z.max 1 (qmax_ (w_flow w)).

(** Where the window is measured from. *)
Definition base (c : list TxEntry) (a : Z) : Z := match c with [] => a | _ => 0 end.

(** [c]: the connect message, if it is still queued; [s]: the segments in
    flight; [u]: those waiting; [a]: the number of the first segment. *)
Record TxShape (w : world) (c s u : list TxEntry) (a : Z) : Prop := {
  ts_queue : txq (w_tx w) = c ++ s ++ u;
  ts_one : (length c ≤ 1)%nat;
  ts_control : Forall control c;
  ts_consec : consecutive a (s ++ u);
  ts_first : 1 ≤ a;
  ts_segnum : next_segnum (w_tx w) = a + len (s ++ u);
  ts_send : next_send (w_tx w) = wrap SeqM (a + len (s ++ u));
  ts_sent : Forall is_sent s;
  ts_unsent : Forall is_unsent u;
  ts_window : s = [] ∨ a + len s ≤ base c a + Wmax w;
  ts_early : state (w_ctl w) ∈ [S0; CR] → txq (w_tx w) = [];
  ts_qmax : 0 ≤ qmax_ (w_flow w) < 1073741824;
}.

Definition TxOk (w : world) : Prop := ∃ c s u a, TxShape w c s u a.

(** What session control has asked to be sent, in segments at most. *)
Definition cost (e : effect) : Z := match e with Asked (SendData d) => 1 + len d | _ => 0 end.
Fixpoint traffic (l : list effect) : Z :=
  match l with [] => 0 | e :: l => cost e + traffic l end.

Lemma traffic_app l k : traffic (l ++ k) = traffic l + traffic k.
Proof. induction l as [|e l IH]; simpl; lia. Qed.
Lemma cost_nonneg e : 0 ≤ cost e.
Proof. destruct e as [|[]| |]; simpl; try lia. pose proof (len_nonneg data). lia. Qed.
Lemma traffic_nonneg l : 0 ≤ traffic l.
Proof. induction l as [|e l IH]; simpl; [lia|]. pose proof (cost_nonneg e). lia. Qed.

(** The invariant, for as long as the 32 bit segment count has not wrapped,
    with room for [k] more segments. *)
Definition Inv (k : Z) (w : world) : Prop :=
  traffic (log w) < 2147483648 → TxOk w ∧ next_segnum (w_tx w) + k ≤ 1 + traffic (log w).

Definition tx_view (w : world) :=
  ((txq (w_tx w), next_segnum (w_tx w), next_send (w_tx w)),
   qmax_ (w_flow w), state (w_ctl w), traffic (log w)).

Lemma Inv_view k w w' : tx_view w' = tx_view w → Inv k w → Inv k w'.
Proof.
  unfold tx_view, Inv. intros V. injection V as E1 E2 E3 E4 E5 E6.
  rewrite E6. intros H Ht. destruct (H Ht) as [(c & s & u & a & []) Hk]. split; [|by rewrite E2].
  exists c, s, u, a. unfold Wmax in *. constructor; unfold Wmax; rewrite ?E1, ?E2, ?E3, ?E4, ?E5; done.
Qed.

(** The bound of the window. *)
Lemma in_flight_shape w c s u a :
  TxShape w c s u a → in_flight (txq (w_tx w)) = len c + len s.
Proof.
  intros []. rewrite ts_queue0. unfold in_flight.
  rewrite !filter_app, !len_app.
  assert (∀ q, Forall is_sent q → filter (λ e, sent e = true) q = q) as Hf.
  { induction 1 as [|e q He _ IH]; [done|]. rewrite filter_cons_True by done. by rewrite IH. }
  assert (∀ q, Forall is_unsent q → filter (λ e, sent e = true) q = []) as Hn.
  { induction 1 as [|e q He _ IH]; [done|]. rewrite filter_cons_False; [done|].
    unfold is_unsent in He. congruence. }
  rewrite (Hf c), (Hf s), (Hn u) by (done || (eapply Forall_impl; [exact ts_control0|]; by intros ? (?&?&?))).
  rewrite len_nil. lia.
Qed.

Lemma in_flight_bound w : TxOk w → in_flight (txq (w_tx w)) ≤ Wmax w.
Proof.
  intros (c & s & u & a & H). rewrite (in_flight_shape w c s u a H). destruct H.
  unfold base, Wmax in *. pose proof (len_nonneg s).
  destruct c as [|e [|]]; simpl in *; unfold len in *; simpl in *; [| |lia];
    (destruct ts_window0 as [->|]; simpl; lia).
Qed.

(** ** Every operation keeps the invariant *)

Lemma keeps_view {A} k (m : M A) : Frame tx_view m → Keeps (Inv k) m.
Proof. intros Hf w Hw. by apply (Inv_view k w). Qed.

(** Replacing the queue by one of the same shape. *)
Lemma Inv_queue k (w w' : world) :
  tx_view w' = ((txq (w_tx w'), next_segnum (w_tx w), next_send (w_tx w)),
                qmax_ (w_flow w), state (w_ctl w), traffic (log w)) →
  (TxOk w → TxOk w') → Inv k w → Inv k w'.
Proof.
  unfold tx_view. intros V HT H. injection V as E1 E2 E3 E4 E5. unfold Inv in *.
  rewrite E1, E5. intros Ht. destruct (H Ht). auto.
Qed.

(** An empty queue. *)
Lemma TxOk_empty w w' :
  TxOk w → txq (w_tx w') = [] → next_segnum (w_tx w') = next_segnum (w_tx w) →
  next_send (w_tx w') = next_send (w_tx w) → qmax_ (w_flow w') = qmax_ (w_flow w) → TxOk w'.
Proof.
  intros (c & s & u & a & []) Eq E1 E2 E3. exists [], [], [], (next_segnum (w_tx w)).
  pose proof (len_nonneg (s ++ u)).
  constructor; simpl; rewrite ?Eq, ?E1, ?E2, ?E3, ?len_nil, ?Z.add_0_r, ?ts_segnum0;
    try done; try lia; by constructor.
Qed.

(** The oldest entry is acknowledged. *)
Lemma TxOk_pop w w' e q :
  TxOk w → txq (w_tx w) = e :: q → sent e = true → txq (w_tx w') = q →
  next_segnum (w_tx w') = next_segnum (w_tx w) → next_send (w_tx w') = next_send (w_tx w) →
  qmax_ (w_flow w') = qmax_ (w_flow w) → state (w_ctl w') = state (w_ctl w) → TxOk w'.
Proof.
  intros (c & s & u & a & H) Eq He Eq' E1 E2 E3 E4. destruct H.
  assert (q ≠ [] → state (w_ctl w') ∉ [S0; CR]) as Hst.
  { intros _ Hin. rewrite E4 in Hin. by rewrite (ts_early0 Hin) in Eq. }
  rewrite ts_queue0 in Eq. unfold Wmax in *. destruct c as [|e' c]; simpl in Eq.
  - destruct s as [|e' s]; simpl in Eq.
    { subst u. inversion ts_unsent0; subst. unfold is_unsent in *. congruence. }
    injection Eq as <- <-. exists [], s, u, (a + 1). simpl in *.
    destruct ts_consec0 as (? & ? & ? & ?).
    rewrite len_cons in *.
    constructor; simpl; unfold Wmax; rewrite ?E1, ?E2, ?E3; try done; try lia.
    + rewrite ts_send0. f_equal. lia.
    + by inversion ts_sent0.
    + destruct ts_window0 as [|]; [done|]. right. lia.
    + intros Hin. destruct (txq (w_tx w')) eqn:Et; [done|]. exfalso. apply Hst; [by rewrite <-Eq'|done].
  - destruct c; [|simpl in ts_one0; lia]. injection Eq as <- <-. exists [], s, u, a. simpl in *.
    constructor; simpl; unfold Wmax; rewrite ?E1, ?E2, ?E3; try done; try lia.
    + destruct ts_window0 as [|]; [by left|right; lia].
    + intros Hin. destruct (txq (w_tx w')) eqn:Et; [done|]. exfalso. apply Hst; [by rewrite <-Eq'|done].
Qed.

Lemma traffic_talk l : traffic (talk l) = traffic l.
Proof. induction l as [|[|[]| |] l IH]; simpl; lia. Qed.

Lemma view_of_ack w w' :
  ack_view w' = ack_view w →
  tx_view w' = ((txq (w_tx w'), next_segnum (w_tx w), next_send (w_tx w)),
                qmax_ (w_flow w), state (w_ctl w), traffic (log w)).
Proof.
  unfold ack_view, tx_view. intros V. rewrite <-(traffic_talk (log w)), <-(traffic_talk (log w')).
  assert (ident (w_ctl w') = ident (w_ctl w)) as Hi by congruence.
  unfold ident in Hi. congruence.
Qed.

(** A function that may change the queue but nothing else the invariant sees. *)
Lemma Inv_ack k w w' :
  0 ≤ k → ack_view w' = ack_view w →
  (TxOk w → next_segnum (w_tx w) ≤ 2147483648 → TxOk w') → Inv k w → Inv k w'.
Proof.
  intros Hk V HT H. apply view_of_ack in V. unfold Inv in *. intros Ht.
  unfold tx_view in V. injection V as E1 E2 E3 E4 E5. rewrite E1, E5 in *.
  destruct (H Ht) as [HO Hb]. split; [|done]. apply HT; [done|lia].
Qed.

Lemma ack_view_inv w w' :
  ack_view w' = ack_view w →
  next_segnum (w_tx w') = next_segnum (w_tx w) ∧ next_send (w_tx w') = next_send (w_tx w) ∧
  qmax_ (w_flow w') = qmax_ (w_flow w) ∧ state (w_ctl w') = state (w_ctl w).
Proof.
  intros V. apply view_of_ack in V. unfold tx_view in V. injection V as E1 E2 E3 E4 E5.
  by split_and!.
Qed.

Lemma consecutive_static a q q' :
  map static q = map static q' → consecutive a q → consecutive a q'.
Proof.
  revert a q'. induction q as [|e q IH]; intros a [|e' q'] H; try done; simpl.
  injection H as H1 H2 H3 H4 H5 H. intros (? & ? & ? & ?). 
  rewrite <-H1, <-H2, <-H5. split_and!; try done. by apply IH.
Qed.

Lemma consecutive_last a q e :
  consecutive a (q ++ [e]) → segnum e = a + len q ∧ is_data e = true.
Proof.
  revert a. induction q as [|e' q IH]; intros a; simpl.
  - intros (-> & _ & ? & _). rewrite len_nil. split; [lia|done].
  - intros (_ & _ & _ & H). apply IH in H as [-> ?]. rewrite len_cons. split; [lia|done].
Qed.

Lemma consecutive_app a q q' : consecutive a (q ++ q') ↔ consecutive a q ∧ consecutive (a + len q) q'.
Proof.
  revert a. induction q as [|e q IH]; intros a; simpl.
  - rewrite len_nil, Z.add_0_r. tauto.
  - rewrite IH, len_cons, Z.add_assoc. tauto.
Qed.

Lemma launch_static ts q : length ts = length q → map static (zip_with launch ts q) = map static q.
Proof.
  revert ts. induction q as [|e q IH]; intros [|t ts] H; try done; simpl in *.
  f_equal. apply IH. lia.
Qed.
Lemma launch_sent ts q : Forall is_sent (zip_with launch ts q).
Proof. revert ts. induction q as [|e q IH]; intros [|t ts]; simpl; constructor; [done|apply IH]. Qed.
Lemma launch_length ts q : length ts = length q → len (zip_with launch ts q) = len q.
Proof. unfold len. rewrite length_zip_with. lia. Qed.

Lemma window_range c : 0 ≤ qmax_ (c_flow c) → 1 ≤ window c ≤ Z.max 1 (qmax_ (c_flow c)).
Proof. unfold window. pose proof (f_to_unsigned_range (cwnd (c_flow c))). lia. Qed.

(** A segment flow control lets go is inside the window. *)
Lemma flow_ok_window w f q e :
  txq (w_tx w) = f :: q → is_data e = true → 0 ≤ segnum f ≤ 2147483648 →
  0 ≤ qmax_ (w_flow w) < 1073741824 → flow_ok (cn w) e = true →
  segnum e < segnum f + Wmax w.
Proof.
  intros Eq Hd Hf Hq. unfold flow_ok. rewrite Hd. cbn [negb].
  change (c_tx (cn w)) with (w_tx w). rewrite Eq. change (c_flow (cn w)) with (w_flow w).
  destruct (negb (xon (w_flow w))); [done|]. cbv zeta.
  pose proof (window_range (cn w)) as Hw. change (c_flow (cn w)) with (w_flow w) in Hw.
  unfold Wmax. rewrite u32_small by lia.
  destruct (Z.ltb_spec (segnum f + window (cn w) - 1) (segnum e)); [done|]. lia.
Qed.

Lemma control_sent c : Forall control c → Forall is_sent c.
Proof. intros H. eapply Forall_impl; [exact H|]. by intros e (_ & ? & _). Qed.

(** A state function: it keeps the invariant and answers with a state that a
    link can be put in once it has started. *)
Definition Answers (m : M (option cstate)) : Prop :=
  ∀ w, Inv 0 w → Inv 0 (m w).2 ∧
    ∀ s w', m w = (Ok s, w') → s ≠ Some S0 ∧ s ≠ Some CR.

Lemma answers_ret s : s ≠ Some S0 → s ≠ Some CR → Answers (mret (M:=M) s).
Proof. intros H1 H2 w Hw. split; [done|]. by intros ? ? [= <- _]. Qed.

Lemma answers_bind {A} (m : M A) (k : A → M (option cstate)) :
  Keeps (Inv 0) m → (∀ a, Answers (k a)) → Answers (m ≫= k).
Proof.
  intros Hm Hk w Hw. specialize (Hm w Hw). unfold mbind, M_bind.
  destruct (m w) as [[a|e] w']; simpl in *; [|done]. by apply Hk.
Qed.

Lemma answers_state (k : world → M (option cstate)) :
  (∀ w, Answers (k w)) → Answers (w ← gets id; k w).
Proof. intros H w Hw. by apply H. Qed.

Section KeepsTx.
Context (cfg : config) (clock : nat → Z).

Lemma TxOk_send_blocked w w' :
  TxOk w → next_segnum (w_tx w) ≤ 2147483648 → send_blocked cfg clock w = (Ok tt, w') →
  ack_view w' = ack_view w → TxOk w'.
Proof.
  intros (c & s & u & a & H) Hb E V. destruct H.
  destruct (send_blocked_spec cfg clock w (c ++ s) u)
    as (u1 & u2 & ts & w1 & -> & Hl & E1 & Eq & _ & Hf & _);
    [by rewrite ts_queue0, app_assoc|apply Forall_app; split; [by apply control_sent|done]|done|].
  rewrite E in E1. injection E1 as <-.
  destruct (ack_view_inv w w' V) as (V1 & V2 & V3 & V4).
  apply Forall_app in ts_unsent0 as [Hu1 Hu2].
  assert (map static (s ++ zip_with launch ts u1 ++ u2) = map static (s ++ u1 ++ u2)) as Hst
    by (by rewrite !map_app, launch_static).
  assert (len (s ++ zip_with launch ts u1 ++ u2) = len (s ++ u1 ++ u2)) as Hlen
    by (by rewrite !len_app, launch_length).
  exists c, (s ++ zip_with launch ts u1), u2, a.
  rewrite <-app_assoc in *. unfold Wmax in *.
  constructor; rewrite ?V1, ?V2, ?V3, ?V4; unfold Wmax; rewrite <-?app_assoc, ?Hlen, ?V3; try done.
  - by eapply consecutive_static.
  - apply Forall_app. split; [done|apply launch_sent].
  - destruct u1 as [|e u1 _] using rev_ind.
    { destruct ts; [|done]. simpl. rewrite app_nil_r. done. }
    right. rewrite len_app, launch_length, len_app, len_cons, len_nil by done.
    apply Forall_app in Hf as [_ He]. inversion He as [|? ? He' _]; subst.
    assert (∃ f q, txq (w_tx w) = f :: q ∧ segnum f = base c a) as (f & q & Ef & Ebase).
    { rewrite ts_queue0. destruct c as [|f c].
      - destruct (s ++ (u1 ++ [e]) ++ u2) as [|f q] eqn:Es.
        { apply app_eq_nil in Es as [_ Es]. apply app_eq_nil in Es as [Es _].
          by destruct u1. }
        exists f, q. split; [done|]. by destruct ts_consec0.
      - eexists f, _. split; [reflexivity|]. by inversion ts_control0 as [|? ? (_ & _ & ?)]. }
    rewrite app_assoc, (app_assoc s) in ts_consec0. rewrite <-(app_assoc s) in ts_consec0.
    rewrite consecutive_app in ts_consec0. destruct ts_consec0 as [Hc _].
    rewrite app_assoc in Hc. apply consecutive_last in Hc as [Hseg Hdat].
    pose proof (len_nonneg (s ++ (u1 ++ [e]) ++ u2)). pose proof (len_nonneg s).
    pose proof (len_nonneg u1).
    pose proof (flow_ok_window w f q e Ef Hdat) as Hw. unfold Wmax in Hw.
    rewrite Ebase, Hseg, len_app in Hw.
    assert (0 ≤ base c a ≤ 2147483648) by (unfold base; destruct c; lia).
    specialize (Hw ltac:(lia) ltac:(lia) He'). lia.
  - intros Hin. rewrite (ts_early0 Hin) in ts_queue0.
    symmetry in ts_queue0. apply app_eq_nil in ts_queue0 as [-> E0].
    apply app_eq_nil in E0 as [-> E0]. apply app_eq_nil in E0 as [-> ->].
    rewrite Eq. by destruct ts.
Qed.

Lemma keeps_send_blocked k : 0 ≤ k → Keeps (Inv k) (send_blocked cfg clock).
Proof.
  intros Hk w Hw. destruct (send_blocked_result cfg clock w) as (w' & E & V & _). rewrite E.
  apply (Inv_ack k w); [done|done| |done]. intros HT Hb. by apply (TxOk_send_blocked w).
Qed.

(** Functions the invariant does not notice. *)
Lemma frame_emit_tx e : cost e = 0 → Frame tx_view (emit e).
Proof.
  intros He w. unfold tx_view. cbn -[traffic]. rewrite traffic_app. simpl.
  by rewrite He, !Z.add_0_r.
Qed.
#[local] Hint Extern 1 (Frame tx_view (emit _)) => apply frame_emit_tx; reflexivity : typeclass_instances.

#[export] Instance frame_send_to_tx f : Frame tx_view (send_to cfg f).
Proof. unfold send_to. frames. Qed.
#[export] Instance frame_send_tx p : Frame tx_view (send cfg p).
Proof. unfold send. frames. Qed.
#[export] Instance frame_send_ack_tx : Frame tx_view (send_ack cfg).
Proof. unfold send_ack, stop_ack_holdoff. frames. Qed.
#[export] Instance frame_update_delay_tx t : Frame tx_view (update_delay cfg clock t).
Proof. unfold update_delay. frames. Qed.
#[export] Instance frame_set_phase_tx i : Frame tx_view (set_phase cfg i).
Proof. unfold set_phase. frames. Qed.
#[export] Instance frame_route_none_tx n : Frame tx_view (process_int_ack n).
Proof. unfold process_int_ack. frames. Qed.
#[export] Instance frame_iter_tx n : Frame tx_view (upd_flow (Nat.iter n open_window)).
Proof.
  intros w. destruct (open_window_frame n (c_flow (cn w))) as (_ & _ & _ & _ & E).
  unfold tx_view, w_flow, w_tx, w_ctl. cbn -[Nat.iter traffic] in *. by rewrite E.
Qed.

Lemma keeps_set_state k s :
  s ≠ Some S0 → s ≠ Some CR → Keeps (Inv k) (set_state s).
Proof.
  intros H0 Hr. destruct s as [s|]; [|apply keeps_ret]. intros w Hw. unfold Inv in *. intros Ht.
  destruct (Hw Ht) as [(c & x & u & a & []) Hk]. split; [|exact Hk].
  exists c, x, u, a. constructor; try done.
  intros Hin. simpl in Hin. exfalso.
  apply elem_of_cons in Hin as [->|Hin]; [done|]. by apply list_elem_of_singleton in Hin as ->.
Qed.

Lemma keeps_next (m : M (option cstate)) :
  Answers m → Keeps (Inv 0) (s ← m; set_state s).
Proof.
  intros Hm w Hw. destruct (Hm w Hw) as [H1 H2]. unfold mbind, M_bind.
  destruct (m w) as [[s|e] w']; simpl in *; [|done].
  destruct (H2 s w' eq_refl). by apply keeps_set_state.
Qed.

Lemma keeps_ack_loop k n q progress acked w :
  txq (w_tx w) = q → Inv k w → Inv k (ack_loop cfg clock n q progress acked w).2.
Proof.
  revert progress acked w. induction q as [|e q IH]; intros progress acked w Eq Hw; simpl; [done|].
  destruct (sent e && negb (mod_lt SeqM n (seq e))) eqn:Es; [|done].
  apply andb_true_iff in Es as [He _].
  set (w1 := with_cn (with_c_tx (with_max_acked_seg (segnum e) (w_tx w)) (cn w)) w).
  destruct (nt_update_delay cfg clock (txtime e) w1) as [[] E2].
  pose proof (frame_update_delay_tx (txtime e) w1) as V2.
  destruct (update_delay cfg clock (txtime e) w1) as [r w2] eqn:Eu. simpl in E2, V2. subst r.
  rewrite (bind_ok _ _ w tt w1) by done. rewrite (bind_ok _ _ w1 tt w2) by done.
  rewrite (bind_ok _ _ w2 tt (with_cn (with_c_tx (with_txq q (w_tx w2)) (cn w2)) w2)) by done.
  apply IH; [done|]. change (tx_view w1) with (tx_view w) in V2.
  assert (Inv k w2) as Hw2 by (by apply (Inv_view k w)).
  assert (txq (w_tx w2) = e :: q) as Eq2 by (unfold tx_view in V2; congruence).
  apply (Inv_queue k w2); [done| |done]. intros HT. by apply (TxOk_pop w2 _ e q).
Qed.

Lemma keeps_process_ack k n : 0 ≤ k → Keeps (Inv k) (process_ack cfg clock n).
Proof.
  intros Hk. unfold process_ack. apply keeps_state. intros w Hw.
  assert (Inv k (ack_loop cfg clock n (txq (w_tx w)) false 0 w).2) as H1 by (by apply keeps_ack_loop).
  unfold mbind at 1, M_bind. destruct (ack_loop cfg clock n _ false 0 w) as [[[progress acked]|e] w1];
    simpl in H1; [|done].
  match goal with |- Inv k (?m w1).2 => assert (Keeps (Inv k) m) as Hm end; [|by apply Hm].
  do 3 (apply keeps_bind; [apply keeps_view; frames|intros _]).
  apply keeps_bind; [apply _|intros w'].
  apply keeps_bind; [apply keeps_view; unfold arm_timer, stop_timer; frames|intros _].
  by apply keeps_send_blocked.
Qed.

(** Marking segments unsent again. *)
Lemma TxOk_unsend w w' (f : TxEntry → TxEntry) :
  TxOk w → ack_view w' = ack_view w →
  (∀ e, static (f e) = static e) →
  (∀ e, control e → control (f e)) → (∀ e, is_data e = true → is_sent e → is_unsent (f e)) →
  (∀ e, is_unsent e → f e = e) →
  txq (w_tx w') = map f (txq (w_tx w)) → TxOk w'.
Proof.
  intros (c & s & u & a & []) V Hst Hc Hs Hu Eq.
  destruct (ack_view_inv w w' V) as (V1 & V2 & V3 & V4).
  assert (Forall (λ e, is_data e = true) s) as Hdata.
  { clear -ts_consec0. revert a ts_consec0. induction s as [|e s IH]; intros a; simpl; [done|].
    intros (_ & _ & ? & ?). constructor; [done|]. by eapply IH. }
  assert (map f u = u) as Hfu
    by (clear -ts_unsent0 Hu; induction ts_unsent0; simpl; f_equal; auto).
  exists (map f c), [], (map f s ++ u), a. unfold Wmax in *.
  constructor; unfold Wmax; rewrite ?V1, ?V2, ?V3, ?V4; simpl; try done.
  - by rewrite Eq, ts_queue0, !map_app, Hfu.
  - by rewrite length_map.
  - apply Forall_map. eapply Forall_impl; [exact ts_control0|]. apply Hc.
  - eapply consecutive_static; [|exact ts_consec0]. rewrite <-Hfu at 2. rewrite <-map_app, map_map.
    apply map_ext. intros e. by rewrite Hst.
  - rewrite len_app, len_map. by rewrite len_app in ts_segnum0.
  - rewrite len_app, len_map. by rewrite len_app in ts_send0.
  - apply Forall_app. split; [|done]. apply Forall_map.
    rewrite Forall_forall in Hdata, ts_sent0. apply Forall_forall. intros e He. apply Hs; auto.
  - by left.
  - intros Hin. rewrite Eq. by rewrite (ts_early0 Hin).
Qed.

Lemma keeps_process_nak k : 0 ≤ k → Keeps (Inv k) (process_nak cfg clock).
Proof.
  intros Hk. unfold process_nak. apply keeps_state. intros w Hw.
  destruct (txq (w_tx w)) as [|f q] eqn:Eq; [done|].
  destruct (negb (sent f) || _); [done|]. cbv zeta.
  set (half := fmax f2 _). set (g := λ e, if _ || _ then e else _).
  set (w1 := with_cn (with_c_flow (with_cwnd half (with_ssthresh half
               (with_nak_from (Some (seq f)) (w_flow w)))) (cn w)) w).
  set (w2 := with_cn (with_c_tx (with_txq (map g (txq (w_tx w1))) (w_tx w1)) (cn w1)) w1).
  change (Inv k (send_blocked cfg clock w2).2). apply keeps_send_blocked; [done|].
  apply (Inv_ack k w); [done|done| |done]. intros HT _.
  apply (TxOk_unsend w w2 g); try done; unfold g.
  - intros e. by destruct (negb (sent e) || negb (is_data e)).
  - intros e He. destruct He as (E1 & E2 & E3). rewrite E1, orb_true_r. done.
  - intros e Hd He. unfold is_sent in He. rewrite Hd, He. done.
  - intros e He. unfold is_unsent in He. by rewrite He.
Qed.

Lemma not_early s : s ≠ S0 → s ≠ CR → s ∉ [S0; CR].
Proof. intros ? ? [->|H]%elem_of_cons; [done|]. by apply list_elem_of_singleton in H. Qed.

(** A segment joins the queue. *)
Lemma TxOk_push w w' e :
  TxOk w → next_segnum (w_tx w) < 4294967295 → state (w_ctl w) = RUN →
  segnum e = next_segnum (w_tx w) → seq e = next_send (w_tx w) → is_data e = true →
  is_unsent e →
  txq (w_tx w') = txq (w_tx w) ++ [e] → next_segnum (w_tx w') = u32 (next_segnum (w_tx w) + 1) →
  next_send (w_tx w') = mod_incr SeqM (next_send (w_tx w)) →
  qmax_ (w_flow w') = qmax_ (w_flow w) → state (w_ctl w') = state (w_ctl w) → TxOk w'.
Proof.
  intros (c & s & u & a & []) Hb Hrun Es1 Es2 Hd Hu Eq E1 E2 E3 E4.
  pose proof (len_nonneg (s ++ u)).
  assert (len (s ++ u ++ [e]) = len (s ++ u) + 1) as Hlen
    by (rewrite app_assoc, len_app; reflexivity).
  exists c, s, (u ++ [e]), a. unfold Wmax in *.
  constructor; unfold Wmax; rewrite ?Hlen, ?E1, ?E2, ?E3, ?E4; try done.
  - by rewrite Eq, ts_queue0, !app_assoc.
  - rewrite app_assoc. apply consecutive_app. split; [done|].
    simpl. by rewrite Es1, Es2, Hd, ts_segnum0.
  - rewrite u32_small by lia. lia.
  - rewrite ts_send0, mod_incr_abs by lia. f_equal. lia.
  - apply Forall_app. split; [done|]. by constructor.
  - rewrite Hrun. intros Hin. by apply (not_early RUN) in Hin.
Qed.

(** What is left of the traffic a message may cause. *)
Lemma keeps_segment_loop fuel rest first w :
  state (w_ctl w) = RUN → Inv (Z.of_nat fuel) w → Inv 0 (segment_loop fuel rest first w).2.
Proof.
  revert rest first w. induction fuel as [|fuel IH]; intros rest first w Hrun Hw; [done|].
  cbn [segment_loop]. destruct (encode_packet (PDataSeg (seg_of w rest first))) as [frm|e] eqn:E.
  2: { unfold mbind, M_bind. rewrite (segment_step_throw w rest first e E). intros Ht. destruct (Hw Ht). split; [done|simpl; lia]. }
  pose proof (segment_step_spec w rest first frm E) as Hs. cbv zeta in Hs.
  match type of Hs with _ = (Ok ?r, ?w1) => rewrite (bind_ok _ _ w r w1 Hs); set (rest' := r) in *;
    set (w1' := w1) in * end.
  assert (Inv (Z.of_nat fuel) w1') as Hw1.
  { intros Ht. destruct (Hw Ht) as [HT Hk].
    assert (next_segnum (w_tx w) < 4294967295) as Hb by (change (log w1') with (log w) in Ht; lia).
    destruct HT as (c & s & u & a & HT). pose proof (ts_first _ _ _ _ _ HT).
    pose proof (ts_segnum _ _ _ _ _ HT). pose proof (len_nonneg (s ++ u)).
    split.
    - apply (TxOk_push w w1' (mkTx (next_send (w_tx w)) (next_segnum (w_tx w))
        (next_msgnum (w_tx w)) frm false true 0)); try done. by exists c, s, u, a.
    - change (next_segnum (w_tx w1')) with (u32 (next_segnum (w_tx w) + 1)).
      change (log w1') with (log w) in *. rewrite u32_small by lia. lia. }
  destruct rest'; [|by apply IH]. change (Inv 0 w1').
  intros Ht. destruct (Hw1 Ht). split; [done|]. lia.
Qed.

Lemma keeps_send_data d w :
  Inv (1 + len d) w → Inv 0 (send_data cfg clock d w).2.
Proof.
  intros Hw. unfold send_data. rewrite (bind_ok _ _ w w w) by done.
  destruct (negb (running (cn w))) eqn:Hrun.
  { intros Ht. destruct (Hw Ht). split; [done|]. pose proof (len_nonneg d). simpl. lia. }
  apply negb_false_iff, bool_decide_eq_true in Hrun.
  set (w1 := (count byt_xmt (len d) w).2). rewrite (bind_ok _ _ w tt w1) by done.
  set (w2 := (count msg_xmt 1 w1).2). rewrite (bind_ok _ _ w1 tt w2) by done.
  assert (Inv 0 (segment_loop (S (length d)) d true w2).2) as H.
  { apply keeps_segment_loop; [exact Hrun|]. unfold len in Hw.
    rewrite Nat2Z.inj_succ. replace (Z.succ (Z.of_nat (length d))) with (1 + Z.of_nat (length d)) by lia.
    by apply (Inv_view _ w). }
  unfold send_segments, mbind, M_bind.
  destruct (segment_loop (S (length d)) d true w2) as [[[]|e] w3]; simpl in *; [|done].
  by apply keeps_send_blocked.
Qed.

Lemma keeps_clear : Keeps (Inv 0) clear_queues.
Proof.
  unfold clear_queues, stop_timer, stop_ack_holdoff.
  do 2 (apply keeps_bind; [apply keeps_view; frames|intros _]).
  apply keeps_bind; [|intros _; apply keeps_view; frames].
  intros w Hw. apply (Inv_queue 0 w); [done| |done].
  intros HT. by apply (TxOk_empty w).
Qed.

(** The connect message of [accept] and [start_outbound]. *)
Lemma TxOk_connect w w' e :
  TxOk w → state (w_ctl w) ∈ [S0; CR] → control e → seq e = 0 →
  txq (w_tx w') = [e] → next_segnum (w_tx w') = next_segnum (w_tx w) →
  next_send (w_tx w') = next_send (w_tx w) → qmax_ (w_flow w') = qmax_ (w_flow w) →
  state (w_ctl w') ∉ [S0; CR] → TxOk w'.
Proof.
  intros (c & s & u & a & []) Hst He _ Eq E1 E2 E3 Hst'. specialize (ts_early0 Hst).
  rewrite ts_early0 in ts_queue0. symmetry in ts_queue0.
  apply app_eq_nil in ts_queue0 as [-> E]. apply app_eq_nil in E as [-> ->].
  exists [e], [], [], a. unfold Wmax in *.
  constructor; unfold Wmax; rewrite ?Eq, ?E1, ?E2, ?E3; simpl; try done; try constructor; done.
Qed.

Lemma frame_rearm : Frame tx_view (upd_ctl (with_retries 0);;
  upd_ctl (with_timer_is_retransmit true);; w ← gets id; arm_timer (acktimeout cfg w)).
Proof. unfold arm_timer. frames. Qed.

Lemma keeps_accept d f : Keeps (Inv 0) (accept cfg d f).
Proof.
  unfold accept. apply keeps_state. intros w Hw.
  destruct (negb (in_state CR (cn w))) eqn:Hst; [done|].
  apply negb_false_iff, bool_decide_eq_true in Hst. change (c_ctl (cn w)) with (w_ctl w) in Hst.
  cbv zeta. set (w1 := (set_state (Some CC) w).2). rewrite (bind_ok _ _ w tt w1) by done.
  assert (Inv 0 w1) as Hw1 by (by apply keeps_set_state).
  destruct (encode_packet _) as [frm|e]; [|done].
  rewrite (bind_ok _ _ w1 frm w1) by done.
  set (e := mkTx 0 0 0 frm true false 0).
  set (w2 := (upd_tx (λ t, with_txq (txq t ++ [e]) t) w1).2).
  rewrite (bind_ok _ _ w1 tt w2) by done.
  assert (Inv 0 w2) as Hw2.
  { intros Ht. destruct (Hw Ht) as [HT Hk]. split; [|exact Hk].
    assert (txq (w_tx w) = []) as Eq.
    { destruct HT as (? & ? & ? & ? & []). apply ts_early0. rewrite Hst. by right; left. }
    eapply (TxOk_connect w w2 e); try done.
    - rewrite Hst. by right; left.
    - change (txq (w_tx w2)) with (txq (w_tx w) ++ [e]). by rewrite Eq.
    - by apply not_early. }
  match goal with |- Inv 0 (?m w2).2 => assert (Keeps (Inv 0) m) as Hm end; [|by apply Hm].
  apply keeps_view. apply frame_bind; [apply frame_send_tx|intros _]. apply frame_rearm.
Qed.

Lemma keeps_reject r d : Keeps (Inv 0) (reject cfg r d).
Proof.
  unfold reject, disc_init. apply keeps_bind; [apply keeps_view; frames|intros _].
  apply keeps_next. unfold close_quietly.
  apply answers_bind; [apply keeps_clear|intros _].
  apply answers_bind; [apply keeps_view; frames|intros _]. by apply answers_ret.
Qed.

Lemma keeps_disconnect r d : Keeps (Inv 0) (disconnect cfg r d).
Proof.
  unfold disconnect, disc_init, arm_timer. apply keeps_bind; [apply _|intros w].
  apply keeps_if; [apply _|]. apply keeps_bind; [apply keeps_view; frames|intros _].
  apply keeps_bind; [by apply keeps_set_state|intros _]. apply keeps_view; frames.
Qed.

Lemma keeps_call a : Keeps (Inv 0) (call cfg clock a).
Proof.
  unfold call. destruct a as [d f|r d|d|r d|d].
  3: { intros w Hw. set (w1 := (emit (Asked (SendData d)) w).2).
       rewrite (bind_ok _ _ w tt w1) by done. apply keeps_send_data.
       intros Ht. change (log w1) with (log w ++ [Asked (SendData d)]) in *.
       rewrite traffic_app in *. simpl in *. pose proof (len_nonneg d).
       destruct (Hw ltac:(lia)) as [HT Hk]. split; [|change (w_tx w1) with (w_tx w); lia].
       destruct HT as (c & s & u & x & []). by exists c, s, u, x. }
  all: apply keeps_bind; [apply keeps_view; frames|intros _].
  - apply keeps_accept.
  - apply keeps_reject.
  - apply keeps_disconnect.
  - apply keeps_view. unfold send_interrupt. frames.
Qed.
End KeepsTx.

Section KeepsAll.
Context (cfg : config) (clock : nat → Z) `{SC : SessionControl}.

#[local] Hint Extern 1 (Frame tx_view (emit _)) => apply frame_emit_tx; reflexivity : typeclass_instances.

Lemma keeps_calls l : Keeps (Inv 0) (calls cfg clock l).
Proof. induction l; simpl; [apply _|]. apply keeps_bind; [apply keeps_call|done]. Qed.

Lemma keeps_notify n : Keeps (Inv 0) (notify cfg clock n).
Proof.
  unfold notify. apply keeps_bind; [apply keeps_view; frames|intros _].
  apply keeps_bind; [apply _|intros w]. apply keeps_calls.
Qed.

Lemma answers_close r d b : Answers (close cfg clock r d b).
Proof.
  unfold close. apply answers_bind; [apply keeps_clear|intros _].
  apply answers_bind; [apply keeps_if; [apply keeps_notify|apply _]|intros _].
  apply answers_bind; [apply keeps_view; frames|intros _]. by apply answers_ret.
Qed.

Lemma keeps_route_ack a b : Keeps (Inv 0) (route_ack cfg clock a b).
Proof.
  unfold route_ack. destruct a as [a|]; [|apply _]. cbv zeta. apply keeps_if.
  - apply keeps_bind; [by apply keeps_process_ack|intros _].
    apply keeps_if; [by apply keeps_process_nak|apply _].
  - apply keeps_view. apply _.
Qed.

Ltac kview := apply keeps_view; unfold arm_timer, stop_timer, delay_ack, stop_ack_holdoff,
  disc_conf, disc_init, ack_conn, ack_other, next_segment, ack_holdoff; frames.
Ltac kstep := lazymatch goal with
  | |- Keeps _ (notify _ _ _) => apply keeps_notify
  | |- Keeps _ (set_state _) => by apply keeps_set_state
  | |- Keeps _ (route_ack _ _ _ _) => apply keeps_route_ack
  | |- Keeps _ (process_ack _ _ _) => by apply keeps_process_ack
  | |- Keeps _ (reject _ _ _) => apply keeps_reject
  | |- Keeps _ (gets _) => apply keeps_gets
  | _ => kview
  end.
Ltac kbind := apply keeps_bind; [kstep|intros ?].

Lemma keeps_accept_segment seg : Keeps (Inv 0) (accept_segment cfg clock seg).
Proof.
  unfold accept_segment. do 2 kbind. apply keeps_if; [apply _|]. kbind. apply keeps_when.
  do 5 kbind. kview.
Qed.

Lemma keeps_drain fuel : Keeps (Inv 0) (drain cfg clock fuel).
Proof.
  induction fuel as [|fuel IH]; simpl; [apply _|]. kbind. destruct (ooo _ !! _); [|apply _].
  kbind. apply keeps_bind; [apply keeps_accept_segment|intros _]. kbind. done.
Qed.

Lemma keeps_handle_data seg : Keeps (Inv 0) (handle_data cfg clock seg).
Proof.
  unfold handle_data, take_segment.
  do 2 (apply keeps_bind; [apply keeps_route_ack|intros _]).
  kbind. cbv zeta. apply keeps_if; [kview|]. apply keeps_if; [kview|].
  apply keeps_bind; [apply keeps_accept_segment|intros _]. kbind. kbind.
  apply keeps_bind; [apply keeps_drain|intros _]. kbind. apply keeps_if; kview.
Qed.

Lemma keeps_handle_interrupt m : Keeps (Inv 0) (handle_interrupt cfg clock m).
Proof.
  unfold handle_interrupt. kbind. cbv zeta. apply keeps_if; [kview|]. do 4 kbind. apply keeps_notify.
Qed.

Lemma keeps_handle_link_service ls : Keeps (Inv 0) (handle_link_service cfg clock ls).
Proof.
  unfold handle_link_service, apply_link_service, data_credit. apply keeps_if; [apply _|].
  do 2 (apply keeps_bind; [apply keeps_route_ack|intros _]).
  kbind. cbv zeta. apply keeps_if; [kview|]. do 2 kbind.
  apply keeps_if; [apply keeps_if; [apply _|kview]|]. apply keeps_if; [apply _|].
  kbind. apply keeps_if; [apply _|]. kbind. by apply keeps_send_blocked.
Qed.

Ltac abind := apply answers_bind; [kstep|intros ?].
Ltac aret := lazymatch goal with |- Answers (mret _) => by apply answers_ret end.

Lemma answers_run p : Answers (st_run cfg clock p).
Proof.
  unfold st_run. destruct p as [p|]; [|do 2 abind; aret].
  do 2 abind. destruct p; try aret.
  - do 2 abind. aret.
  - do 2 abind. aret.
  - apply answers_bind; [apply keeps_handle_data|intros _]. aret.
  - apply answers_bind; [apply keeps_handle_interrupt|intros _]. aret.
  - apply answers_bind; [apply keeps_handle_link_service|intros _]. aret.
  - apply answers_close.
  - abind. apply answers_close.
Qed.

Lemma answers_cd p : Answers (st_cd cfg clock p).
Proof.
  unfold st_cd. destruct p as [p|]; [|apply answers_close].
  destruct p; try aret.
  - do 11 abind. aret.
  - do 2 abind. apply answers_close.
  - do 3 abind. apply answers_close.
Qed.

Lemma answers_state_of w p :
  Answers (match state (w_ctl w) with
           | S0 | CL => mret None
           | CI => st_ci cfg clock p | CD => st_cd cfg clock p | CR => st_cr cfg p
           | CC => st_cc cfg clock p
           | RUN => st_run cfg clock p | DI => st_di cfg clock p
           end).
Proof.
  destruct (state (w_ctl w)); try aret.
  - unfold st_ci. destruct p as [p|]; [|apply answers_close].
    destruct p; try apply answers_cd. do 3 abind. aret.
  - apply answers_cd.
  - unfold st_cr. destruct p as [p|]; [|abind; aret]. destruct p; try aret. do 2 abind. aret.
  - unfold st_cc. destruct p as [p|]; [|apply answers_close].
    destruct p; try aret; try (do 3 abind; apply answers_run). abind. apply answers_close.
  - apply answers_run.
  - unfold st_di. destruct p as [p|]; [|apply answers_close]. destruct p; try aret; apply answers_close.
Qed.

Lemma keeps_dispatch p : Keeps (Inv 0) (dispatch cfg clock p).
Proof.
  unfold dispatch. apply keeps_state. intros w Hw.
  apply (keeps_next (match state (w_ctl w) with
           | S0 | CL => mret None
           | CI => st_ci cfg clock p | CD => st_cd cfg clock p | CR => st_cr cfg p
           | CC => st_cc cfg clock p
           | RUN => st_run cfg clock p | DI => st_di cfg clock p
           end)); [apply answers_state_of|done].
Qed.

(** *** Retransmission *)

(** What [resend] makes of the queue. *)
Definition unsend (e : TxEntry) : TxEntry :=
  if is_data e then with_sent false (with_txtime 0 e) else with_txtime 0 e.
Fixpoint resent (q : list TxEntry) (first : bool) : list TxEntry :=
  match q with
  | [] => []
  | e :: q => if negb (sent e) then e :: resent q first
              else (if first then with_txtime 0 e else unsend e) :: resent q false
  end.

Lemma resend_result q first w :
  ∃ w', resend cfg q first w = (Ok (resent q first), w') ∧ ack_view w' = ack_view w ∧ cn w' = cn w ∧
    log w' = log w ++ (if first then sent_log cfg (take 1 (filter (λ e, sent e = true) q)) else []).
Proof.
  revert first w. induction q as [|e q IH]; intros first w; simpl.
  { exists w. split_and!; try done. unfold sent_log. simpl.
    destruct first, (has_routing cfg); by rewrite app_nil_r. }
  destruct (sent e) eqn:He; cbn [negb].
  2: { destruct (IH first w) as (w' & E & V & C & L). exists w'. rewrite filter_cons_False by congruence.
       split; [by step_by E|done]. }
  rewrite filter_cons_True by done. destruct first.
  - destruct (send_to_effect cfg (Connection.frame e) w) as (w1 & E1 & C1 & L1).
    pose proof (frame_send_to cfg (Connection.frame e) w) as V1. rewrite E1 in V1. simpl in V1.
    destruct (IH false w1) as (w' & E & V & C & L). exists w'. split_and!.
    + change (Connection.frame (with_txtime 0 e)) with (Connection.frame e). step_by E1. by step_by E.
    + by rewrite V.
    + by rewrite C.
    + rewrite L, L1, app_nil_r. simpl. rewrite take_0. unfold sent_log. by destruct (has_routing cfg).
  - destruct (IH false w) as (w' & E & V & C & L). exists w'. split; [|done].
    step_by E. unfold unsend. by destruct (is_data e) eqn:Ed.
Qed.

Lemma resent_unsent u b : Forall is_unsent u → resent u b = u.
Proof.
  induction 1 as [|e u He _ IH]; [done|]. simpl. unfold is_unsent in He. rewrite He. simpl. by rewrite IH.
Qed.
Lemma resent_sent s u : Forall is_sent s → Forall is_unsent u → resent (s ++ u) false = map unsend s ++ u.
Proof.
  intros Hs Hu. induction Hs as [|e s He _ IH]; simpl; [by apply resent_unsent|].
  unfold is_sent in He. rewrite He. simpl. by rewrite IH.
Qed.

Lemma TxOk_resent w w' :
  TxOk w → ack_view w' = ack_view w → txq (w_tx w') = resent (txq (w_tx w)) true → TxOk w'.
Proof.
  intros (c & s & u & a & H) V Eq. destruct (ack_view_inv w w' V) as (V1 & V2 & V3 & V4).
  pose proof H as []. destruct c as [|e c]; [destruct s as [|e s]|].
  - rewrite ts_queue0 in Eq. simpl in Eq. rewrite resent_unsent in Eq by done.
    exists [], [], u, a. unfold Wmax in *. constructor; unfold Wmax; rewrite ?V1, ?V2, ?V3, ?V4; try done.
    intros Hin. rewrite Eq. by rewrite <-(ts_early0 Hin), ts_queue0.
  - rewrite ts_queue0 in Eq. simpl in Eq. inversion ts_sent0 as [|? ? He Hs]; subst.
    unfold is_sent in He. rewrite He in Eq. simpl in Eq. rewrite resent_sent in Eq by done.
    assert (Forall (λ e, is_data e = true) s) as Hdata.
    { simpl in ts_consec0. destruct ts_consec0 as (_ & _ & _ & Hc). apply consecutive_app in Hc as [Hc _].
      clear -Hc. revert a Hc. induction s as [|x s IH]; intros a; simpl; [done|].
      intros (_ & _ & ? & ?). constructor; [done|]. by eapply IH. }
    assert (map static (map unsend s) = map static s) as Hst.
    { rewrite map_map. apply map_ext. intros x. unfold unsend. by destruct (is_data x). }
    exists [], [with_txtime 0 e], (map unsend s ++ u), a. unfold Wmax in *.
    assert (len ([with_txtime 0 e] ++ map unsend s ++ u) = len ((e :: s) ++ u)) as Hlen
      by (cbn [app]; rewrite !len_cons, !len_app, len_map; done).
    constructor; unfold Wmax; rewrite ?Hlen, ?V1, ?V2, ?V3, ?V4; try done.
    + eapply consecutive_static; [|exact ts_consec0]. cbn [app map]. rewrite !map_app, Hst. done.
    + by constructor.
    + apply Forall_app. split; [|done]. apply Forall_map.
      rewrite Forall_forall in Hdata. apply Forall_forall. intros x Hx. unfold is_unsent, unsend.
      by rewrite (Hdata x Hx).
    + right. rewrite len_cons, len_nil. simpl. lia.
    + intros Hin. by rewrite (ts_early0 Hin) in ts_queue0.
  - apply (TxOk_unsend w w' (λ e, if sent e then unsend e else e)); try done.
    + by exists (e :: c), s, u, a.
    + intros x. destruct (sent x); [|done]. unfold unsend. by destruct (is_data x).
    + intros x (E1 & E2 & E3). rewrite E2. unfold unsend. by rewrite E1.
    + intros x Hd Hs. unfold is_sent in Hs. rewrite Hs. unfold is_unsent, unsend. by rewrite Hd.
    + intros x Hu. unfold is_unsent in Hu. by rewrite Hu.
    + rewrite Eq, ts_queue0. destruct c; [|simpl in ts_one0; lia].
      inversion ts_control0 as [|? ? (E1 & E2 & E3) _]; subst. simpl. rewrite E2. simpl.
      rewrite resent_sent, map_app by done. unfold unsend at 2. rewrite E1. f_equal. f_equal.
      * apply map_ext_in. intros x Hx%list_elem_of_In. rewrite Forall_forall in ts_sent0.
        by rewrite (ts_sent0 x Hx : sent x = true).
      * clear -ts_unsent0. induction ts_unsent0 as [|x u Hx _ IH]; simpl; [done|].
        unfold is_unsent in Hx. rewrite Hx. by f_equal.
Qed.

Lemma keeps_retransmit : Keeps (Inv 0) (retransmit cfg clock).
Proof.
  unfold retransmit. apply keeps_bind; [apply _|intros w0]. cbv zeta. apply keeps_if; [apply _|].
  do 2 kbind. apply keeps_state. intros w Hw.
  destruct (retransmits cfg <? retries (w_ctl w)).
  { by apply (keeps_next (close cfg clock DISC_NO_LINK [] true)); [apply answers_close|]. }
  set (w1 := (upd_flow (λ f, with_cwnd f1 (with_ssthresh (fmax f2 (fdiv (f_of_Z
               (in_flight (txq (w_tx w0)))) f2)) f)) w).2).
  rewrite (bind_ok _ _ w tt w1) by done.
  destruct (resend_result (txq (w_tx w)) true w1) as (w2 & E2 & V2 & C2 & _).
  rewrite (bind_ok _ _ w1 _ w2 E2).
  set (w3 := (upd_tx (with_txq (resent (txq (w_tx w)) true)) w2).2).
  rewrite (bind_ok _ _ w2 tt w3) by done.
  assert (Inv 0 w3) as Hw3.
  { apply (Inv_ack 0 w); [done| | |done].
    - change (ack_view w3) with (ack_view w2). by rewrite V2.
    - intros HT _. apply (TxOk_resent w w3); [done| |done].
      change (ack_view w3) with (ack_view w2). by rewrite V2. }
  match goal with |- Inv 0 (?m w3).2 => assert (Keeps (Inv 0) m) as Hm end; [|by apply Hm].
  kview.
Qed.

Lemma keeps_timeout : Keeps (Inv 0) (timeout cfg clock).
Proof. unfold timeout. do 2 kbind. apply keeps_if; [apply keeps_retransmit|apply keeps_dispatch]. Qed.

Lemma keeps_ack_timeout : Keeps (Inv 0) (ack_timeout cfg).
Proof. unfold ack_timeout. kview. Qed.
End KeepsAll.

(** ** The links a program can get to *)

Inductive event :=
| Arrive (p : NspPacket)
| TimerExpiry
| AckTimerExpiry
| Call (a : api).

Section Reachable.
Context (cfg : config) (clock : nat → Z) `{SC : SessionControl}.

Definition run_event (e : event) : M unit :=
  match e with
  | Arrive p => receive cfg clock p
  | TimerExpiry => timeout cfg clock
  | AckTimerExpiry => ack_timeout cfg
  | Call a => call cfg clock a
  end.

(** A link as [NSP] creates it, in a world where nothing has happened to it. *)
Definition initial (addr dst : Z) (d : double) (cnt : ctr → Z) (t : nat) : world :=
  World (new_conn cfg addr dst) d cnt t [].

(** Everything that can happen to a link, an exception included: the state it
    leaves is a state of the link. *)
Inductive reachable : world → Prop :=
| reach_out addr dst d cnt t payload :
    reachable (start_outbound cfg clock payload (initial addr dst d cnt t)).2
| reach_in addr dst d cnt t p :
    reachable (start_inbound cfg clock p (initial addr dst d cnt t)).2
| reach_step e w : reachable w → reachable (run_event e w).2.

Context (Hq : 0 ≤ qmax cfg < 1073741824).

Lemma Inv_initial addr dst d cnt t : Inv 0 (initial addr dst d cnt t).
Proof.
  intros _. split; [|done]. exists [], [], [], 1.
  constructor; simpl; try done; try lia; try constructor. done.
Qed.

Lemma Inv_out payload addr dst d cnt t :
  Inv 0 (start_outbound cfg clock payload (initial addr dst d cnt t)).2.
Proof.
  set (w0 := initial addr dst d cnt t). pose proof (Inv_initial addr dst d cnt t) as H0.
  fold w0 in H0. unfold start_outbound.
  set (w1 := (count con_xmt 1 w0).2). rewrite (bind_ok _ _ w0 tt w1) by done.
  rewrite (bind_ok _ _ w1 w1 w1) by done. cbv zeta.
  set (w2 := (set_state (Some CI) w1).2). rewrite (bind_ok _ _ w1 tt w2) by done.
  assert (Inv 0 w1) as Hw1 by (by apply (Inv_view 0 w0)).
  assert (Inv 0 w2) as Hw2 by (by apply keeps_set_state).
  destruct (encode_packet _) as [frm|e]; [|done].
  rewrite (bind_ok _ _ w2 frm w2) by done.
  set (w3 := (now clock w2).2). rewrite (bind_ok _ _ w2 (clock (ticks w2)) w3) by done.
  set (e := mkTx 0 0 0 frm true false (clock (ticks w2))).
  set (w4 := (upd_tx (λ x, with_txq (txq x ++ [e]) x) w3).2).
  rewrite (bind_ok _ _ w3 tt w4) by done.
  assert (Inv 0 w4) as Hw4.
  { intros Ht. destruct (Hw1 Ht) as [HT Hk]. split; [|exact Hk].
    apply (TxOk_connect w1 w4 e); try done; [by left|by apply not_early]. }
  match goal with |- Inv 0 (?m w4).2 => assert (Keeps (Inv 0) m) as Hm end; [|by apply Hm].
  apply keeps_view. apply frame_bind; [apply frame_send_tx|intros _]. apply frame_rearm.
Qed.

(** Up to the state change the queue of an inbound link is empty. *)
Definition idle (w : world) : Prop := Inv 0 w ∧ txq (w_tx w) = [].
Definition Opens (m : M unit) : Prop := ∀ w, idle w → Inv 0 (m w).2.

Lemma opens_bind {A} (m : M A) (k : A → M unit) :
  Frame tx_view m → (∀ a, Opens (k a)) → Opens (m ≫= k).
Proof.
  intros Hf Hk w [Hw Eq]. pose proof (Hf w) as V.
  assert (Inv 0 (m w).2) as Hw' by (by apply (Inv_view 0 w)).
  assert (txq (w_tx (m w).2) = []) as Eq' by (unfold tx_view in V; congruence).
  unfold mbind, M_bind. destruct (m w) as [[a|e] w']; simpl in *; [|done]. by apply Hk.
Qed.

Lemma opens_state s (k : unit → M unit) :
  (∀ a, Keeps (Inv 0) (k a)) → Opens (set_state s ≫= k).
Proof.
  intros Hk w [Hw Eq]. destruct s as [s|]; [|by apply Hk].
  set (w1 := (set_state (Some s) w).2). rewrite (bind_ok _ _ w tt w1) by done. apply Hk.
  intros Ht. destruct (Hw Ht) as [(c & x & u & a & []) Hb]. split; [|exact Hb].
  exists c, x, u, a. by constructor.
Qed.

Lemma Inv_in p addr dst d cnt t :
  Inv 0 (start_inbound cfg clock p (initial addr dst d cnt t)).2.
Proof.
  assert (Opens (start_inbound cfg clock p)) as H;
    [|apply H; split; [apply Inv_initial|done]].
  unfold start_inbound, ack_conn.
  do 7 (apply opens_bind; [frames|intros ?]).
  apply opens_state. intros _.
  do 2 (apply keeps_bind; [apply keeps_view; unfold arm_timer; frames|intros _]).
  apply keeps_notify.
Qed.

Lemma Inv_reachable w : reachable w → Inv 0 w.
Proof.
  induction 1 as [| |e w _ IH]; [apply Inv_out|apply Inv_in|].
  destruct e as [p| | |a]; simpl; [by apply keeps_dispatch|by apply keeps_timeout
                                  |by apply keeps_ack_timeout|by apply keeps_call].
Qed.
End Reachable.

(** C2: The transmit window.  On any link that the layer can create, after any sequence
    of packets, timer expiries and calls, with callbacks that answer in any way, and
    exceptions included, until two thousand million segments have been asked for: no more
    than [qmax] entries (one, if [qmax] is zero) are in flight; the queue is at most one
    connect message followed by data segments numbered without a gap up to the next number
    to be used, on the wire and absolutely; and what is in flight is a prefix of it. *)
Theorem transmit_window (cfg : config) (clock : nat → Z) (SC : SessionControl) (w : world) :
  0 ≤ qmax cfg < 1073741824 →
  reachable cfg clock w →
  traffic (log w) < 2147483648 →
  in_flight (txq (w_tx w)) ≤ Z.max 1 (qmax_ (w_flow w)) ∧
  ∃ c s u, txq (w_tx w) = c ++ s ++ u ∧ (length c ≤ 1)%nat ∧ Forall control c ∧
    consecutive (next_segnum (w_tx w) - len (s ++ u)) (s ++ u) ∧
    next_send (w_tx w) = wrap SeqM (next_segnum (w_tx w)) ∧
    Forall is_sent s ∧ Forall is_unsent u.
Proof.
  intros Hq Hr Ht. destruct (Inv_reachable cfg clock Hq w Hr Ht) as [HT _].
  split; [by apply in_flight_bound|]. destruct HT as (c & s & u & a & []).
  exists c, s, u. split_and!; try done.
  - rewrite ts_segnum0. by replace (a + len (s ++ u) - len (s ++ u)) with a by lia.
  - by rewrite ts_segnum0.
Qed.

(** Session control that accepts, and sends a message when the link runs. *)
Definition talker : SessionControl := λ n _,
  match n with
  | ConnectReceived _ => [Accept [1] SVC_NONE]
  | RunState => [SendData [1; 2; 3; 4; 5; 6; 7; 8; 9]; SendInterrupt [9]]
  | _ => []
  end.

Definition example_init : ConnInit.t := ConnInit.mk 24 0 12290 1 SVC_NONE 0 VER_PH4 2 [].

Definition example_run : world :=
  (run_event (SC:=talker) example_config (λ _, 1000) TimerExpiry
    (run_event (SC:=talker) example_config (λ _, 1000)
       (Arrive (PAckData (AckData.mk 4 8193 12290 (Some (mkAck 0 ACKQ)) None)))
       (start_inbound (SC:=talker) example_config (λ _, 1000) example_init
          (initial example_config 8193 1025 f0 (λ _, 0) 0)).2).2).2.

Lemma transmit_window_witness :
  in_flight (txq (w_tx example_run)) ≤ 20 ∧ length (txq (w_tx example_run)) = 5%nat.
Proof.
  destruct (transmit_window example_config (λ _, 1000) talker example_run) as [H _].
  - by split.
  - unfold example_run. eapply reach_step, reach_step, reach_in.
  - vm_compute. reflexivity.
  - split; [exact H|vm_compute; reflexivity].
Defined.
