(* ===== verification/ConnFlow.v ===== *)
(** Flow control, acknowledgement, retransmission and interrupts of a
    connection: what each operation does on every branch. *)

From S2P Require Import Prelude Buffer Modulo Types Codec Layout Indexed NspPackets Float Connection ConnLaws ConnSend ConnReceive ConnTransmit ConnWindow.
#[local] Open Scope Z_scope.
#[local] Open Scope decnet_scope.

(** ** Flow control *)

(** The highest segment number the window admits. *)
Definition window_end (w : world) : Z :=
  match txq (w_tx w) with
  | [] => u32 (window (cn w) - 1)
  | f :: _ => u32 (segnum f + window (cn w) - 1)
  end.

(** The credit of the far end and the window, as a proposition. *)
Definition allowed (w : world) (e : TxEntry) : Prop :=
  is_data e = true →
  xon (w_flow w) = true ∧ segnum e ≤ window_end w ∧
  (flow (w_flow w) = SVC_SEG → segnum e ≤ max_seg (w_flow w)) ∧
  (flow (w_flow w) = SVC_MSG → msgnum e ≤ max_msg (w_flow w)).

Lemma flow_ok_allowed w e : flow_ok (cn w) e = true ↔ allowed w e.
Proof.
  unfold flow_ok, allowed, window_end.
  change (c_flow (cn w)) with (w_flow w). change (c_tx (cn w)) with (w_tx w).
  destruct (is_data e); cbn [negb]; [|by split].
  destruct (xon (w_flow w)); cbn [negb]; [|by split; [done|intros H; destruct H]]. cbv zeta.
  destruct (Z.ltb_spec (match txq (w_tx w) with
    | [] => u32 (window (cn w) - 1) | f :: _ => u32 (segnum f + window (cn w) - 1) end) (segnum e)).
  { split; [done|]. intros H'. destruct H' as (_ & ? & _); [done|lia]. }
  destruct (Z.eqb_spec (flow (w_flow w)) SVC_SEG) as [->|Hs].
  { rewrite Z.leb_le. split; [intros ? _; split_and!; done|]. intros H'. by apply H'. }
  destruct (Z.eqb_spec (flow (w_flow w)) SVC_MSG) as [->|Hm].
  { rewrite Z.leb_le. split; [intros ? _; split_and!; done|]. intros H'. by apply H'. }
  split; [|done]. intros _ _. split_and!; done.
Qed.

(** Flow control.  On a queue of which a prefix is in flight, [send_blocked] hands
    routing exactly the longest run of waiting entries that the far end's credit and the
    window allow, oldest first, each once, and marks exactly those sent: every data segment
    it sends is inside the window, is sent only while the far end has not said XOFF, and
    lies within the segment or message credit of the mode in force; the first entry left
    waiting is one of these that is not allowed.  Nothing else in the queue changes. *)
Theorem flow_control (cfg : config) (clock : nat → Z) (w : world) (s u : list TxEntry) :
  txq (w_tx w) = s ++ u → Forall is_sent s → Forall is_unsent u →
  ∃ u1 u2 l w', u = u1 ++ u2 ∧ send_blocked cfg clock w = (Ok tt, w') ∧
    txq (w_tx w') = s ++ l ++ u2 ∧ map static l = map static u1 ∧ Forall is_sent l ∧
    log w' = log w ++ sent_log cfg u1 ∧
    Forall (allowed w) u1 ∧
    match u2 with e :: _ => ¬ allowed w e | [] => True end.
Proof.
  intros Eq Hs Hu.
  destruct (send_blocked_spec cfg clock w s u Eq Hs Hu)
    as (u1 & u2 & ts & w' & -> & Hl & E & Eq' & Hlog & Hf & Hn).
  exists u1, u2, (zip_with launch ts u1), w'. split_and!; try done.
  - by apply launch_static.
  - apply launch_sent.
  - eapply Forall_impl; [exact Hf|]. intros e. apply flow_ok_allowed.
  - destruct u2 as [|e u2]; [done|]. rewrite <-flow_ok_allowed. congruence.
Qed.

Definition waiting (i : Z) : TxEntry := mkTx i i i [i] false true 0.

(** Three segments waiting, a window of two. *)
Definition example_queue : world :=
  with_cn (with_c_tx (Tx 4 0 [waiting 1; waiting 2; waiting 3] 4 4 0) (cn (example_link RUN SVC_NONE)))
    (example_link RUN SVC_NONE).

Lemma flow_control_witness :
  ∃ w', send_blocked example_config (λ _, 1000) example_queue = (Ok tt, w') ∧
    log w' = [Sent [1]; Sent [2]].
Proof.
  destruct (flow_control example_config (λ _, 1000) example_queue []
              [waiting 1; waiting 2; waiting 3])
    as (u1 & u2 & l & w' & _ & E & _).
  - reflexivity.
  - constructor.
  - repeat constructor.
  - exists w'. split; [exact E|]. apply (f_equal (λ p, log p.2)) in E.
    etrans; [symmetry; exact E|]. vm_compute. reflexivity.
Defined.

(** ** Acknowledgement *)

Section Acks.
Context (cfg : config) (clock : nat → Z).

Lemma update_delay_view t w :
  ∃ w', update_delay cfg clock t w = (Ok tt, w') ∧ cn w' = cn w ∧ log w' = log w.
Proof.
  unfold update_delay. destruct (t =? 0); [by exists w|]. eexists. split; [reflexivity|done].
Qed.

(** The loop of [process_ack] on segments numbered from [a], the
    acknowledgement naming the absolute number [a - 1 + k]. *)
Lemma ack_loop_spec s u a k progress acked w :
  txq (w_tx w) = s ++ u → consecutive a (s ++ u) → Forall is_sent s → Forall is_unsent u →
  len s < 2047 → -2047 < k ≤ len s →
  ∃ w' acked', ack_loop cfg clock (wrap SeqM (a - 1 + k)) (s ++ u) progress acked w =
      (Ok (progress || (0 <? k), acked'), w') ∧
    txq (w_tx w') = drop (Z.to_nat k) (s ++ u) ∧
    max_acked_seg (w_tx w') = (if 0 <? k then a - 1 + k else max_acked_seg (w_tx w)).
Proof.
  revert a k progress acked w. induction s as [|e s IH]; intros a k progress acked w Eq Hc Hs Hu Hl Hk.
  - rewrite len_nil in Hk. rewrite (proj2 (Z.ltb_ge 0 k)) by lia.
    rewrite orb_false_r. replace (Z.to_nat k) with 0%nat by lia. exists w, acked.
    split; [|by rewrite Eq]. destruct u as [|e u]; [done|]. simpl.
    inversion Hu as [|? ? He]; subst. unfold is_unsent in He. by rewrite He.
  - rewrite len_cons in *. simpl in Hc. destruct Hc as (Es & Eseq & Ed & Hc).
    inversion Hs as [|? ? He Hs']; subst. unfold is_sent in He.
    simpl. rewrite He, Eseq, mod_lt_abs by (pose proof (len_nonneg s); lia). cbn [andb].
    destruct (Z.ltb_spec (segnum e - 1 + k) (segnum e)) as [Hlt|Hge].
    { exists w, acked. rewrite (proj2 (Z.ltb_ge 0 k)) by lia. rewrite orb_false_r.
      replace (Z.to_nat k) with 0%nat by lia. by rewrite Eq. }
    cbn [negb].
    set (w1 := (upd_tx (with_max_acked_seg (segnum e)) w).2). rewrite (bind_ok _ _ w tt w1) by done.
    destruct (update_delay_view (txtime e) w1) as (w2 & E2 & C2 & _).
    rewrite (bind_ok _ _ w1 tt w2 E2).
    set (w3 := (upd_tx (with_txq (s ++ u)) w2).2). rewrite (bind_ok _ _ w2 tt w3) by done.
    destruct (IH (segnum e + 1) (k - 1) true (if is_data e then acked + 1 else acked) w3)
      as (w' & acked' & E & Eq' & Em); try done; [pose proof (len_nonneg s); lia..|].
    exists w', acked'. replace (segnum e + 1 - 1 + (k - 1)) with (segnum e - 1 + k) in * by lia.
    rewrite (proj2 (Z.ltb_lt 0 k)) by lia. rewrite orb_true_r.
    split; [exact E|]. split.
    + rewrite Eq'. replace (Z.to_nat k) with (S (Z.to_nat (k - 1))) by lia. done.
    + rewrite Em. destruct (Z.ltb_spec 0 (k - 1)); [done|].
      change (max_acked_seg (w_tx w3)) with (max_acked_seg (c_tx (cn w2))). rewrite C2.
      change (max_acked_seg (c_tx (cn w1))) with (segnum e). lia.
Qed.
End Acks.

Definition acked_view (w : world) := (max_acked_seg (w_tx w), nak_from (w_flow w)).

Section AckedFrames.
Context (cfg : config) (clock : nat → Z).
#[local] Hint Extern 1 (Frame acked_view (emit _)) => frame_prim : typeclass_instances.

#[export] Instance frame_send_to_acked f : Frame acked_view (send_to cfg f).
Proof. unfold send_to. frames. Qed.
Lemma open_window_nak n f : nak_from (Nat.iter n open_window f) = nak_from f.
Proof. by induction n as [|n IH]. Qed.

Definition nak_view (w : world) := nak_from (w_flow w).
Lemma frame_ack_loop_nak n q a b : Frame nak_view (ack_loop cfg clock n q a b).
Proof. revert a b. induction q; intros; simpl; unfold update_delay; frames. Qed.

#[export] Instance frame_send_loop_acked q a b : Frame acked_view (send_loop cfg clock q a b).
Proof. revert a b. induction q; intros; simpl; frames. Qed.
#[export] Instance frame_send_blocked_acked : Frame acked_view (send_blocked cfg clock).
Proof. unfold send_blocked, arm_timer. frames. Qed.
End AckedFrames.

(** Cumulative acknowledgement.  Let the queue hold the segments numbered from [a],
    of which those of [s], fewer than half the number space, are in flight, and let the
    acknowledgement name the absolute number [a - 1 + k].  If [k] is positive exactly the
    first [k] segments leave the queue, [max_acked_seg] becomes the number acknowledged and
    a negative acknowledgement being repaired is forgotten; if it is not (an old
    acknowledgement, overtaken or repeated) the queue keeps every segment and nothing is
    forgotten.  It never throws and never touches the receiving half. *)
Theorem ack_cumulative (cfg : config) (clock : nat → Z) (w : world) (s u : list TxEntry) (a k : Z) :
  txq (w_tx w) = s ++ u → consecutive a (s ++ u) → Forall is_sent s → Forall is_unsent u →
  len s < 2047 → -2047 < k ≤ len s →
  ∃ w', process_ack cfg clock (wrap SeqM (a - 1 + k)) w = (Ok tt, w') ∧
    map static (txq (w_tx w')) = drop (Z.to_nat k) (map static (s ++ u)) ∧
    (max_acked_seg (w_tx w'), nak_from (w_flow w')) =
      (if 0 <? k then (a - 1 + k, None) else (max_acked_seg (w_tx w), nak_from (w_flow w))) ∧
    w_rx w' = w_rx w.
Proof.
  intros Eq Hc Hs Hu Hl Hk.
  destruct (ack_loop_spec cfg clock s u a k false 0 w Eq Hc Hs Hu Hl Hk)
    as (w1 & acked & E1 & Eq1 & Em1).
  pose proof (frame_process_ack cfg clock (wrap SeqM (a - 1 + k)) w) as V.
  pose proof (frame_ack_loop_nak cfg clock (wrap SeqM (a - 1 + k)) (s ++ u) false 0 w) as En1.
  rewrite E1 in En1. simpl in En1.
  destruct (nt_process_ack cfg clock (wrap SeqM (a - 1 + k)) w) as [[] Er].
  destruct (process_ack cfg clock (wrap SeqM (a - 1 + k)) w) as [r w'] eqn:E. simpl in *. subst r.
  exists w'. split; [done|]. split_and!; [..|unfold ack_view in V; congruence].
  all: unfold process_ack in E; apply bind_inv in E as (w0 & w0' & [= <- <-] & E);
    rewrite Eq in E; apply bind_inv in E as ([p n] & w1' & E1' & E); rewrite E1 in E1';
    injection E1' as <- <- <-; cbn [orb] in E;
    do 3 (apply bind_inv in E as ([] & ? & [= <-] & E));
    apply bind_inv in E as (w2 & w2' & [= <- <-] & E);
    apply bind_inv in E as ([] & w3 & Em & E).
  all: assert (txq (w_tx w3) = txq (w_tx w1) ∧ acked_view w3 =
      (max_acked_seg (w_tx w1), if 0 <? k then None else nak_from (w_flow w1))) as [Eq3 Ea3]
    by (destruct (0 <? k); [destruct (0 <? in_flight _); [|destruct (timer_is_retransmit _)]
                           |destruct (bool_decide _ && _)];
        injection Em as <-; (split; [reflexivity|]); unfold acked_view; cbn -[Nat.iter];
        rewrite ?open_window_nak; reflexivity).
  - by rewrite (send_blocked_static _ _ _ _ E), Eq3, Eq1, <-!fmap_drop.
  - pose proof (frame_send_blocked_acked cfg clock w3) as F. rewrite E in F. simpl in F.
    rewrite Ea3 in F. unfold acked_view in F. injection F as -> ->.
    unfold nak_view in En1. rewrite En1, Em1. by destruct (0 <? k).
Qed.

(** Two segments in flight, one waiting. *)
Definition in_transit (i : Z) : TxEntry := with_sent true (waiting i).
Definition example_transit : world :=
  with_cn (with_c_tx (Tx 4 0 [in_transit 1; in_transit 2; waiting 3] 4 4 0)
            (cn (example_link RUN SVC_NONE))) (example_link RUN SVC_NONE).

Lemma ack_cumulative_witness :
  (∃ w', process_ack example_config (λ _, 1000) 1 example_transit = (Ok tt, w') ∧
     length (txq (w_tx w')) = 2%nat) ∧
  (∃ w', process_ack example_config (λ _, 1000) 4094 example_transit = (Ok tt, w') ∧
     length (txq (w_tx w')) = 3%nat).
Proof.
  split.
  - destruct (ack_cumulative example_config (λ _, 1000) example_transit
                [in_transit 1; in_transit 2] [waiting 3] 1 1) as (w' & E & Hl & _);
      [reflexivity|by repeat split|by repeat constructor|by repeat constructor|done|done|].
    exists w'. split; [exact E|]. apply (f_equal length) in Hl. rewrite length_map in Hl. exact Hl.
  - destruct (ack_cumulative example_config (λ _, 1000) example_transit
                [in_transit 1; in_transit 2] [waiting 3] 1 (-2)) as (w' & E & Hl & _);
      [reflexivity|by repeat split|by repeat constructor|by repeat constructor|done|done|].
    exists w'. split; [exact E|]. apply (f_equal length) in Hl. rewrite length_map in Hl. exact Hl.
Defined.

(** ** Retransmission *)

(** The log only grows. *)
Section Grows.
Context (l0 : list effect).
Definition grown (w : world) : Prop := ∃ l, log w = l0 ++ l.

Lemma grows_frame {A} (m : M A) : Frame log m → Keeps grown m.
Proof. intros Hf w [l H]. exists l. by rewrite Hf. Qed.
Lemma grows_emit e : Keeps grown (emit e).
Proof. intros w [l H]. exists (l ++ [e]). simpl. by rewrite H, app_assoc. Qed.

Ltac grow := repeat first
  [ apply keeps_ret | apply keeps_lift | apply keeps_gets | apply grows_emit
  | apply keeps_bind | apply keeps_if | apply keeps_when | progress intros | progress cbv zeta
  | apply grows_frame; apply _ | case_match ].

Context (cfg : config) (clock : nat → Z).

Lemma grows_send_to f : Keeps grown (send_to cfg f).
Proof. unfold send_to. grow. Qed.
Lemma grows_send p : Keeps grown (send cfg p).
Proof. unfold send. apply keeps_bind; [grow|]. intros. apply grows_send_to. Qed.
Lemma grows_send_loop q a b : Keeps grown (send_loop cfg clock q a b).
Proof.
  revert a b. induction q as [|e q IH]; intros a b; simpl; [grow|].
  destruct (sent e).
  - apply keeps_bind; [apply IH|grow].
  - apply keeps_bind; [grow|intros w]. apply keeps_if; [grow|].
    apply keeps_bind; [apply grows_send_to|intros _]. apply keeps_bind; [grow|intros t].
    apply keeps_bind; [apply IH|grow].
Qed.
Lemma grows_send_blocked : Keeps grown (send_blocked cfg clock).
Proof.
  unfold send_blocked. apply keeps_bind; [grow|intros w]. cbv zeta.
  apply keeps_bind; [apply grows_send_loop|]. unfold arm_timer. grow.
Qed.
Lemma grows_segment_loop fuel rest first : Keeps grown (segment_loop fuel rest first).
Proof.
  revert rest first. induction fuel as [|fuel IH]; intros rest first; simpl; [grow|].
  apply keeps_bind; [unfold segment_step; grow|]. intros [|b r]; [grow|apply IH].
Qed.
Lemma grows_call a : Keeps grown (call cfg clock a).
Proof.
  unfold call. apply keeps_bind; [grow|intros _].
  destruct a as [d f|r d|d|r d|d].
  - unfold accept, set_state, arm_timer. apply keeps_bind; [grow|intros w].
    apply keeps_if; [grow|]. cbv zeta. do 3 (apply keeps_bind; [grow|intros ?]).
    apply keeps_bind; [apply grows_send|grow].
  - unfold reject, disc_init, close_quietly, clear_queues, set_state, stop_timer, stop_ack_holdoff.
    apply keeps_bind; [apply keeps_bind; [grow|intros w; apply grows_send]|grow].
  - unfold send_data, send_segments. apply keeps_bind; [grow|intros w]. apply keeps_if; [grow|].
    do 2 (apply keeps_bind; [grow|intros ?]).
    apply keeps_bind; [apply grows_segment_loop|intros _; apply grows_send_blocked].
  - unfold disconnect, disc_init, set_state, arm_timer. apply keeps_bind; [grow|intros w].
    apply keeps_if; [grow|].
    apply keeps_bind; [apply keeps_bind; [grow|intros w'; apply grows_send]|grow].
  - apply keeps_bind; [|grow]. unfold send_interrupt. apply keeps_bind; [grow|intros w].
    apply keeps_if; [grow|]. cbv zeta. do 2 (apply keeps_bind; [grow|intros ?]).
    apply keeps_bind; [apply grows_send_to|grow].
Qed.
Lemma grows_calls l : Keeps grown (calls cfg clock l).
Proof. induction l; simpl; [grow|]. apply keeps_bind; [apply grows_call|done]. Qed.
End Grows.

Lemma calls_log cfg clock l w r w' :
  calls cfg clock l w = (r, w') → ∃ k, log w' = log w ++ k.
Proof.
  intros E. destruct (grows_calls (log w) cfg clock l w) as [k H]; [exists []; by rewrite app_nil_r|].
  exists k. by rewrite E in H.
Qed.

Section Retransmission.
Context (cfg : config) (clock : nat → Z) `{SC : SessionControl}.

(** A link with something in flight whose timer runs for it. *)
Definition unanswered (e : TxEntry) (n : Z) (w : world) : Prop :=
  (∃ q, txq (w_tx w) = e :: q) ∧ is_sent e ∧ timer_is_retransmit (w_ctl w) = true ∧
  retries (w_ctl w) = n ∧ link_ok w.

Lemma in_flight_sent e q : is_sent e → in_flight (e :: q) ≠ 0.
Proof.
  intros He. unfold in_flight. rewrite filter_cons_True by done. rewrite len_cons.
  pose proof (len_nonneg (filter (λ e, sent e = true) q)). lia.
Qed.

(** One expiry below the limit: the oldest goes again, the rest wait. *)
Lemma timeout_resends e n w :
  unanswered e n w → 0 ≤ n < retransmits cfg → retransmits cfg < 4294967295 →
  ∃ w', timeout cfg clock w = (Ok tt, w') ∧ unanswered (with_txtime 0 e) (n + 1) w' ∧
    state (w_ctl w') = state (w_ctl w) ∧ cwnd (w_flow w') = f1 ∧
    (∃ t, timer (w_ctl w') = Some t) ∧
    log w' = log w ++ sent_log cfg [e].
Proof.
  intros ((q & Eq) & He & Ht & Hn & Hw) Hlim Hbig.
  set (w1 := (stop_timer w).2). set (w2 := (count timeouts 1 w1).2).
  set (w3 := (upd_ctl (λ c, with_retries (u32 (retries c + 1)) c) w2).2).
  set (w4 := (upd_flow (λ f, with_cwnd f1 (with_ssthresh (fmax f2 (fdiv (f_of_Z
                (in_flight (txq (w_tx w1)))) f2)) f)) w3).2).
  destruct (resend_result cfg (txq (w_tx w)) true w4) as (w5 & E5 & V5 & C5 & L5).
  assert (retries (w_ctl w3) = n + 1) as Hr.
  { change (u32 (retries (w_ctl w) + 1) = n + 1). rewrite Hn. apply u32_small. lia. }
  set (w6 := with_cn (with_c_ctl (with_timer_is_retransmit true (c_ctl (cn w5)))
       (with_c_tx (with_txq (resent (txq (w_tx w)) true) (c_tx (cn w5))) (cn w5))) w5).
  set (d := backoff (Z.to_nat (retries (w_ctl w6) - 1)) (acktimeout cfg w6)).
  assert (timeout cfg clock w =
    (Ok tt, (arm_timer (if fltb (f_of_Z 30) d then f_of_Z 30 else d) w6).2)) as E.
  { unfold timeout. etrans; [apply (bind_ok _ _ w tt w1); done|].
    etrans; [apply (bind_ok _ _ w1 w1 w1); done|].
    change (timer_is_retransmit (w_ctl w1)) with (timer_is_retransmit (w_ctl w)). rewrite Ht.
    unfold retransmit. etrans; [apply (bind_ok _ _ w1 w1 w1); done|]. cbv zeta.
    change (txq (w_tx w1)) with (txq (w_tx w)). rewrite Eq.
    rewrite (proj2 (Z.eqb_neq _ _)) by (by apply in_flight_sent).
    etrans; [apply (bind_ok _ _ w1 tt w2); done|]. etrans; [apply (bind_ok _ _ w2 tt w3); done|].
    etrans; [apply (bind_ok _ _ w3 w3 w3); done|]. rewrite Hr.
    rewrite (proj2 (Z.ltb_ge _ _)) by lia. rewrite <-Eq.
    etrans; [apply (bind_ok _ _ w3 tt w4); done|].
    change (txq (w_tx w3)) with (txq (w_tx w)).
    etrans; [apply (bind_ok _ _ w4 _ w5 E5)|]. step. step. reflexivity. }
  eexists. split; [exact E|]. split_and!.
  - split; [|split; [done|split; [done|split]]].
    + change (∃ q, resent (txq (w_tx w)) true = with_txtime 0 e :: q). rewrite Eq. simpl.
      unfold is_sent in He. rewrite He. simpl. eauto.
    + change (retries (c_ctl (cn w5)) = n + 1). rewrite C5. exact Hr.
    + assert (link_ok w5) as Hw5 by (apply (link_ok_ack w5 w4 V5); exact Hw). exact Hw5.
  - change (state (c_ctl (cn w5)) = state (w_ctl w)). by rewrite C5.
  - change (cwnd (c_flow (cn w5)) = f1). by rewrite C5.
  - eexists. reflexivity.
  - change (log w5 = log w ++ sent_log cfg [e]). rewrite L5, Eq.
    by rewrite filter_cons_True by done.
Qed.

(** The expiry past the limit: the link closes. *)
Lemma timeout_closes e n w :
  (∀ r d w, Forall stream_call (on_notice (Disconnected r d) w)) →
  unanswered e n w → 0 ≤ n → retransmits cfg ≤ n < 4294967295 →
  ∃ w', timeout cfg clock w = (Ok tt, w') ∧ state (w_ctl w') = CL ∧
    ∃ l, notices l = [] ∧ log w' = log w ++ Told (Disconnected DISC_NO_LINK []) :: l ++ [Closed].
Proof.
  intros Hsc ((q & Eq) & He & Ht & Hn & Hw) Hn0 Hlim.
  set (w1 := (stop_timer w).2). set (w2 := (count timeouts 1 w1).2).
  set (w3 := (upd_ctl (λ c, with_retries (u32 (retries c + 1)) c) w2).2).
  assert (retries (w_ctl w3) = n + 1) as Hr.
  { change (u32 (retries (w_ctl w) + 1) = n + 1). rewrite Hn. apply u32_small. lia. }
  set (w4 := (clear_queues w3).2).
  set (w5 := (emit (Told (Disconnected DISC_NO_LINK [])) w4).2).
  destruct (calls_fine cfg clock (on_notice (Disconnected DISC_NO_LINK []) w5) (Hsc _ _ w5) w5)
    as ([] & w6 & E6 & _ & V6); [exact Hw|].
  destruct (calls_log cfg clock _ _ _ _ E6) as [l Hl].
  assert (notices l = []) as Hq.
  { apply up_view_inv in V6 as (_ & _ & V6 & _). rewrite Hl, notices_app in V6.
    by apply (app_inv_head (notices (log w5))); rewrite V6, app_nil_r. }
  exists (with_cn (with_c_ctl (with_state CL (c_ctl (cn w6))) (cn w6)) (with_log (log w6 ++ [Closed]) w6)).
  split; [|split; [done|exists l; split; [exact Hq|]]].
  - unfold timeout. etrans; [apply (bind_ok _ _ w tt w1); done|].
    etrans; [apply (bind_ok _ _ w1 w1 w1); done|].
    change (timer_is_retransmit (w_ctl w1)) with (timer_is_retransmit (w_ctl w)). rewrite Ht.
    unfold retransmit. etrans; [apply (bind_ok _ _ w1 w1 w1); done|]. cbv zeta.
    change (txq (w_tx w1)) with (txq (w_tx w)). rewrite Eq.
    rewrite (proj2 (Z.eqb_neq _ _)) by (by apply in_flight_sent).
    etrans; [apply (bind_ok _ _ w1 tt w2); done|]. etrans; [apply (bind_ok _ _ w2 tt w3); done|].
    etrans; [apply (bind_ok _ _ w3 w3 w3); done|]. rewrite Hr.
    rewrite (proj2 (Z.ltb_lt _ _)) by lia. unfold close. rewrite bind_assoc.
    etrans; [apply (bind_ok _ _ w3 tt w4); done|]. cbv beta. rewrite bind_assoc.
    unfold notify. rewrite bind_assoc. etrans; [apply (bind_ok _ _ w4 tt w5); done|].
    cbv beta. rewrite bind_assoc. etrans; [apply (bind_ok _ _ w5 w5 w5); done|].
    etrans; [apply (bind_ok _ _ w5 tt w6); exact E6|]. step. reflexivity.
  - change (log w6 ++ [Closed] = log w ++ Told (Disconnected DISC_NO_LINK []) :: l ++ [Closed]).
    rewrite Hl. change (log w5) with (log w ++ [Told (Disconnected DISC_NO_LINK [])]).
    by rewrite <-!app_assoc.
Qed.

(** [k] expiries in a row, with nothing received in between. *)
Definition expiries (k : nat) (w : world) : world := Nat.iter k (λ w, (timeout cfg clock w).2) w.

Lemma expiries_resend k e n w :
  unanswered e n w → 0 ≤ n → n + Z.of_nat k ≤ retransmits cfg → retransmits cfg < 4294967295 →
  ∃ e', unanswered e' (n + Z.of_nat k) (expiries k w) ∧ Connection.frame e' = Connection.frame e ∧
    state (w_ctl (expiries k w)) = state (w_ctl w) ∧
    log (expiries k w) = log w ++ concat (replicate k (sent_log cfg [e])).
Proof.
  intros Hu Hn Hk Hbig. induction k as [|k IH].
  { exists e. rewrite Z.add_0_r. simpl. by rewrite app_nil_r. }
  destruct IH as (e' & Hu' & Hf & Hst & Hlog); [lia|].
  destruct (timeout_resends e' (n + Z.of_nat k) (expiries k w) Hu') as (w' & E & Hu2 & Hst2 & _ & _ & Hl2);
    [lia|done|].
  assert (expiries (S k) w = w') as -> by (simpl; fold (expiries k w); by rewrite E).
  exists (with_txtime 0 e'). split_and!.
  - replace (n + Z.of_nat (S k)) with (n + Z.of_nat k + 1) by lia. done.
  - exact Hf.
  - by rewrite Hst2.
  - rewrite Hl2, Hlog, replicate_S_end, concat_app. simpl. rewrite app_nil_r, <-app_assoc.
    do 2 f_equal. unfold sent_log. simpl. by rewrite Hf.
Qed.
End Retransmission.

(** C22: Retransmission gives up. A link with something in flight, nothing retransmitted
    yet, from which nothing is heard any more, whose application answers being told that
    the link is gone with nothing but sends: each of the first retransmits timer
    expiries sends the oldest unacknowledged frame again, once, and leaves the state of
    the link alone; the next one closes the link, and session control is told one thing,
    once: that it is gone, with the reason no link. *)
Theorem retransmission_gives_up (cfg : config) (clock : nat → Z) (SC : SessionControl)
    (w : world) (e : TxEntry) (k : nat) :
  (∀ r d w, Forall stream_call (on_notice (Disconnected r d) w)) →
  unanswered e 0 w → Z.of_nat k ≤ retransmits cfg < 4294967295 →
  state (w_ctl (expiries cfg clock k w)) = state (w_ctl w) ∧
  log (expiries cfg clock k w) = log w ++ concat (replicate k (sent_log cfg [e])) ∧
  (Z.of_nat k = retransmits cfg →
   state (w_ctl (expiries cfg clock (S k) w)) = CL ∧
   ∃ l, notices l = [] ∧ log (expiries cfg clock (S k) w) =
     log (expiries cfg clock k w) ++ Told (Disconnected DISC_NO_LINK []) :: l ++ [Closed]).
Proof.
  intros Hsc Hu Hk.
  destruct (expiries_resend cfg clock k e 0 w Hu) as (e' & Hu' & _ & Hst & Hlog); [lia..|].
  split; [done|]. split; [done|]. intros Hlim.
  destruct (timeout_closes cfg clock e' (0 + Z.of_nat k) (expiries cfg clock k w) Hsc Hu')
    as (w' & E & Hcl & Hl); [lia..|].
  assert (expiries cfg clock (S k) w = w') as -> by (simpl; by rewrite E).
  done.
Qed.

Lemma retransmission_gives_up_witness :
  state (w_ctl (expiries (SC:=echo) example_config (λ _, 1000) 6
    (with_cn (with_c_ctl (with_timer_is_retransmit true (w_ctl example_transit)) (cn example_transit))
       example_transit))) = CL.
Proof.
  apply (retransmission_gives_up example_config (λ _, 1000) echo _ (in_transit 1) 5).
  - intros r d w. constructor.
  - split; [by eexists|]. split; [done|]. split; [done|]. split; [done|].
    by apply (bool_decide_unpack _).
  - done.
  - done.
Defined.
