(* ===== verification/ConnOther.v ===== *)
(** The other-data subchannel of a connection: link service messages, which
    carry the far end's credit, and interrupts. *)

From S2P Require Import Prelude Buffer Modulo Types Codec Layout Indexed NspPackets Float Connection ConnLaws ConnSend ConnReceive ConnTransmit ConnWindow ConnFlow.
#[local] Open Scope Z_scope.
#[local] Open Scope decnet_scope.

(** [LinkSvcMsg::FcVal] and [FcMod]. *)
Definition DATA_REQ : Z := 0.
Definition INT_REQ : Z := 1.
Definition NO_CHANGE : Z := 0.
Definition XON : Z := 2.

(** What the far end has granted. *)
Record credit := Credit { cr_seg : Z; cr_msg : Z; cr_on : bool; cr_int : Z }.

Definition credits (w : world) : credit :=
  Credit (max_seg (w_flow w)) (max_msg (w_flow w)) (xon (w_flow w)) (int_max_msg (w_other w)).

(** May the data credit change by [d]?  The far end may not let its window end
    before the last segment acknowledged, nor 128 or more beyond it. *)
Definition admissible (mode acked d : Z) (c : credit) : bool :=
  if mode =? SVC_MSG then (0 <=? d) && (cr_msg c + d <? acked + 128)
  else if mode =? SVC_SEG then (acked <=? cr_seg c + d) && (cr_seg c + d <? acked + 128)
  else true.

(** The credit after a link service message. *)
Definition credit_after (mode acked : Z) (ls : LinkSvcMsg.t) (c : credit) : credit :=
  let d := LinkSvcMsg.fcval ls in
  if LinkSvcMsg.fcval_int ls =? INT_REQ then
    Credit (cr_seg c) (cr_msg c) (cr_on c) (if d <? 0 then cr_int c else u32 (cr_int c + d))
  else if admissible mode acked d c then
    Credit (if mode =? SVC_SEG then u32 (cr_seg c + d) else cr_seg c)
           (if mode =? SVC_MSG then u32 (cr_msg c + d) else cr_msg c)
           (if LinkSvcMsg.fcmod ls =? NO_CHANGE then cr_on c else LinkSvcMsg.fcmod ls =? XON)
           (cr_int c)
  else c.

Lemma credits_ack w w' : ack_view w' = ack_view w → credits w' = credits w.
Proof. unfold ack_view, credits, other_numbers. congruence. Qed.
Lemma expect_ack w w' :
  ack_view w' = ack_view w →
  int_next_expect (w_other w') = int_next_expect (w_other w) ∧ flow (w_flow w') = flow (w_flow w).
Proof. unfold ack_view, other_numbers. intros. split; congruence. Qed.

Section Other.
Context (cfg : config) (clock : nat → Z) `{SC : SessionControl}.

Lemma acks_run a b (o1 o2 : bool) w :
  ∃ w1 w2, route_ack cfg clock a o1 w = (Ok tt, w1) ∧ route_ack cfg clock b o2 w1 = (Ok tt, w2) ∧
    ack_view w2 = ack_view w.
Proof.
  destruct (nt_route_ack cfg clock a o1 w) as [[] E1].
  pose proof (frame_route_ack cfg clock a o1 w) as V1.
  destruct (route_ack cfg clock a o1 w) as [r w1]. simpl in *. subst r.
  destruct (nt_route_ack cfg clock b o2 w1) as [[] E2].
  pose proof (frame_route_ack cfg clock b o2 w1) as V2.
  destruct (route_ack cfg clock b o2 w1) as [r w2] eqn:Er. simpl in *. subst r.
  exists w1, w2. split; [done|]. split; [done|]. by rewrite V2.
Qed.

Lemma ack_other_run n w :
  link_ok w → seq_ok n →
  ∃ w', ack_other cfg n w = (Ok tt, w') ∧ ack_view w' = ack_view w.
Proof.
  intros Hw Hn. destruct (ack_other_encodes w n Hw Hn) as [frm E].
  destruct (nt_send_to cfg frm w) as [[] Er]. pose proof (frame_send_to cfg frm w) as V.
  exists (send_to cfg frm w).2. split; [|done].
  unfold ack_other. step. unfold id, send. step_by_lift E.
  destruct (send_to cfg frm w) as [r w']. simpl in *. by subst r.
Qed.

Lemma flow_id w : with_cn (with_c_flow (w_flow w) (cn w)) w = w.
Proof. destruct w as [[? ? ? ? ?] ? ? ? ?]. reflexivity. Qed.

Lemma data_credit_run d w :
  let mode := flow (w_flow w) in
  let ok := admissible mode (max_acked_seg (w_tx w)) d (credits w) in
  ∃ f, data_credit d w = (Ok ok, with_cn (with_c_flow f (cn w)) w) ∧
    max_seg f = (if ok && (mode =? SVC_SEG) then u32 (max_seg (w_flow w) + d) else max_seg (w_flow w)) ∧
    max_msg f = (if ok && (mode =? SVC_MSG) then u32 (max_msg (w_flow w) + d) else max_msg (w_flow w)) ∧
    xon f = xon (w_flow w).
Proof.
  intros mode ok. unfold ok, mode, admissible, data_credit.
  pose proof (flow_id w) as Hid.
  destruct (Z.eqb_spec (flow (w_flow w)) SVC_MSG) as [Em|Em].
  - cbn [cr_msg credits].
    destruct ((0 <=? d) && (max_msg (w_flow w) + d <? max_acked_seg (w_tx w) + 128)) eqn:Ec.
    + eexists. split; [step; cbv zeta; unfold id; rewrite Em, Ec; reflexivity|by rewrite Em].
    + exists (w_flow w). split; [step; cbv zeta; unfold id; rewrite Em, Ec, Hid; reflexivity|by rewrite Em].
  - destruct (Z.eqb_spec (flow (w_flow w)) SVC_SEG) as [Es|Es].
    + cbn [cr_seg credits].
      destruct ((max_acked_seg (w_tx w) <=? max_seg (w_flow w) + d) &&
                (max_seg (w_flow w) + d <? max_acked_seg (w_tx w) + 128)) eqn:Ec.
      * eexists. split; [step; cbv zeta; unfold id; rewrite Es, Ec; reflexivity|done].
      * exists (w_flow w). split; [step; cbv zeta; unfold id; rewrite Es, Ec, Hid; reflexivity|done].
    + exists (w_flow w). split; [|done]. step. cbv zeta. unfold id.
      rewrite (proj2 (Z.eqb_neq _ _) Em), (proj2 (Z.eqb_neq _ _) Es), Hid. reflexivity.
Qed.

Lemma apply_run ls w :
  LinkSvcMsg.valid ls = true → 0 ≤ LinkSvcMsg.fcval_int ls → link_ok w →
  ∃ w', apply_link_service cfg clock ls w = (Ok tt, w') ∧
    credits w' = credit_after (flow (w_flow w)) (max_acked_seg (w_tx w)) ls (credits w) ∧
    int_next_expect (w_other w') = int_next_expect (w_other w) ∧ link_ok w'.
Proof.
  unfold LinkSvcMsg.valid. intros Hv Hpos Hw. zbool.
  unfold apply_link_service, credit_after, INT_REQ, NO_CHANGE, XON.
  destruct (Z.eqb_spec (LinkSvcMsg.fcval_int ls) 1) as [E1|E1].
  { destruct (LinkSvcMsg.fcval ls <? 0); eexists; (split; [reflexivity|done]). }
  rewrite (proj2 (Z.eqb_eq (LinkSvcMsg.fcval_int ls) 0)) by lia. cbn [negb].
  destruct (data_credit_run (LinkSvcMsg.fcval ls) w) as (f & E & Hs & Hm & Hx).
  destruct (admissible _ _ _ _); cbn [andb] in *.
  2: { eexists. split; [step_by E; reflexivity|]. split; [|done].
       unfold credits. cbn. by rewrite Hs, Hm, Hx. }
  set (f' := if negb (LinkSvcMsg.fcmod ls =? 0) then with_xon (LinkSvcMsg.fcmod ls =? 2) f else f).
  set (w1 := with_cn (with_c_flow f' (cn w)) w).
  destruct (send_blocked_result cfg clock w1) as (w2 & E2 & V2 & _).
  exists w2. split; [|split; [|split]].
  - step_by E. cbn [negb]. etrans; [apply (bind_ok _ _ _ tt w1)|exact E2].
    unfold w1, f'. by destruct (negb (LinkSvcMsg.fcmod ls =? 0)).
  - rewrite (credits_ack _ _ V2). unfold credits, w1, f'. cbn -[Z.eqb].
    destruct (LinkSvcMsg.fcmod ls =? 0); cbn -[Z.eqb]; by rewrite Hs, Hm, ?Hx.
  - exact (proj1 (expect_ack _ _ V2)).
  - by apply (link_ok_ack w2 w1).
Qed.

(** A link service message in sequence, and one seen before. *)
Lemma link_service_new ls w :
  link_ok w → LinkSvcMsg.valid ls = true → 0 ≤ LinkSvcMsg.fcval_int ls →
  seq_ok (LinkSvcMsg.segnum ls) → LinkSvcMsg.segnum ls = int_next_expect (w_other w) →
  ∃ acked w', handle_link_service cfg clock ls w = (Ok tt, w') ∧
    credits w' = credit_after (flow (w_flow w)) acked ls (credits w) ∧
    int_next_expect (w_other w') = mod_add SeqM (LinkSvcMsg.segnum ls) 1 ∧ link_ok w'.
Proof.
  intros Hw Hv Hpos Hseq Hexp.
  destruct (acks_run (LinkSvcMsg.acknum ls) (LinkSvcMsg.acknum2 ls) false false w)
    as (w1 & w2 & E1 & E2 & V2).
  destruct (expect_ack _ _ V2) as [X2 F2].
  set (w3 := (upd_other (with_int_next_expect (mod_add SeqM (LinkSvcMsg.segnum ls) 1)) w2).2).
  assert (link_ok w2) as Hw2 by (by apply (link_ok_ack w2 w)).
  destruct (ack_other_run (LinkSvcMsg.segnum ls) w3 Hw2 Hseq) as (w4 & E4 & V4).
  destruct (expect_ack _ _ V4) as [X4 F4].
  assert (link_ok w4) as Hw4 by (by apply (link_ok_ack w4 w3)).
  destruct (apply_run ls w4 Hv Hpos Hw4) as (w5 & E5 & C5 & X5 & Hw5).
  exists (max_acked_seg (w_tx w4)), w5. split; [|split; [|split; [by rewrite X5, X4|done]]].
  - unfold handle_link_service. rewrite Hv. cbn [negb]. step_by E1. step_by E2. step. cbv zeta.
    unfold id. rewrite X2, <-Hexp.
    assert (mod_lt SeqM (LinkSvcMsg.segnum ls) (LinkSvcMsg.segnum ls) = false) as ->.
    { unfold mod_lt, mod_cmp. by rewrite Z.eqb_refl. }
    etrans; [apply (bind_ok _ _ w2 tt w3); done|]. step_by E4. exact E5.
  - rewrite C5, F4. change (flow (w_flow w3)) with (flow (w_flow w2)). rewrite F2.
    by rewrite (credits_ack _ _ V4), <-(credits_ack _ _ V2).
Qed.

Lemma link_service_old ls w :
  link_ok w → LinkSvcMsg.valid ls = true →
  mod_lt SeqM (LinkSvcMsg.segnum ls) (int_next_expect (w_other w)) = true →
  ∃ w', handle_link_service cfg clock ls w = (Ok tt, w') ∧ credits w' = credits w ∧
    int_next_expect (w_other w') = int_next_expect (w_other w).
Proof.
  intros Hw Hv Hlt.
  destruct (acks_run (LinkSvcMsg.acknum ls) (LinkSvcMsg.acknum2 ls) false false w)
    as (w1 & w2 & E1 & E2 & V2).
  destruct (expect_ack _ _ V2) as [X2 _].
  assert (link_ok w2) as Hw2 by (by apply (link_ok_ack w2 w)).
  destruct (ack_other_run (mod_sub SeqM (int_next_expect (w_other w)) 1) w2 Hw2) as (w3 & E3 & V3).
  { unfold seq_ok, mod_ok, mod_sub. apply Z.mod_pos_bound. lia. }
  exists w3. split; [|rewrite (credits_ack _ _ V3), (credits_ack _ _ V2);
                      by destruct (expect_ack _ _ V3) as [-> _]].
  unfold handle_link_service. rewrite Hv. cbn [negb]. step_by E1. step_by E2. step. cbv zeta.
  unfold id. by rewrite X2, Hlt.
Qed.
End Other.

Lemma mod_lt_next v : seq_ok v → mod_lt SeqM v (mod_add SeqM v 1) = true.
Proof.
  intros Hv. rewrite mod_add_wrap by (done || (unfold mod_ok; lia)).
  rewrite <-(wrap_mod SeqM) by lia. rewrite <-(seq_small v Hv) at 1.
  rewrite mod_lt_abs by lia. apply Z.ltb_lt. lia.
Qed.

(** Credit is granted exactly once and within bounds.  A valid link service message
    that arrives in sequence moves the far end's credit as [credit_after] says: an
    interrupt request adds to the interrupt credit and never takes any back; a data request
    is refused, XON and XOFF included, when it would move the window before the last
    acknowledged segment or 128 or more beyond it.  The same message arriving again is
    acknowledged and changes no credit. *)
Theorem credit_granted_once (cfg : config) (clock : nat → Z) (w : world) (ls : LinkSvcMsg.t) :
  link_ok w → LinkSvcMsg.valid ls = true → 0 ≤ LinkSvcMsg.fcval_int ls →
  seq_ok (LinkSvcMsg.segnum ls) → LinkSvcMsg.segnum ls = int_next_expect (w_other w) →
  ∃ acked w1 w2, handle_link_service cfg clock ls w = (Ok tt, w1) ∧
    credits w1 = credit_after (flow (w_flow w)) acked ls (credits w) ∧
    (flow (w_flow w) = SVC_SEG → credits w1 ≠ credits w → LinkSvcMsg.fcval_int ls = DATA_REQ →
     acked ≤ max_seg (w_flow w) + LinkSvcMsg.fcval ls < acked + 128) ∧
    handle_link_service cfg clock ls w1 = (Ok tt, w2) ∧ credits w2 = credits w1.
Proof.
  intros Hw Hv Hpos Hseq Hexp.
  destruct (link_service_new cfg clock ls w Hw Hv Hpos Hseq Hexp) as (acked & w1 & E1 & C1 & X1 & Hw1).
  destruct (link_service_old cfg clock ls w1 Hw1 Hv) as (w2 & E2 & C2 & _).
  { rewrite X1. by apply mod_lt_next. }
  exists acked, w1, w2. split; [done|]. split; [done|]. split; [|done].
  intros Hmode Hne Hreq. rewrite C1 in Hne. unfold credit_after, admissible in Hne.
  rewrite Hreq, Hmode in Hne. cbn -[Z.leb Z.ltb] in Hne.
  destruct (_ && _) eqn:Ec in Hne; [zbool; lia|done].
Qed.

Lemma credit_granted_once_witness :
  ∃ w1, handle_link_service example_config (λ _, 1000)
          (LinkSvcMsg.mk 16 8193 12290 None None 1 2 0 5) (example_link RUN SVC_SEG) = (Ok tt, w1) ∧
    max_seg (w_flow w1) = 5.
Proof.
  destruct (credit_granted_once example_config (λ _, 1000) (example_link RUN SVC_SEG)
              (LinkSvcMsg.mk 16 8193 12290 None None 1 2 0 5)) as (acked & w1 & w2 & E & _);
    [by apply (bool_decide_unpack _)|reflexivity|done|done|done|].
  exists w1. split; [exact E|]. apply (f_equal (λ p, max_seg (w_flow p.2))) in E.
  etrans; [symmetry; exact E|]. vm_compute. reflexivity.
Defined.

(** ** Interrupts *)

(** Sending an interrupt.  [send_interrupt] refuses, changing nothing at all, exactly
    when the link is not running, the data is longer than sixteen bytes or there is no
    credit; otherwise it hands routing one frame, which parses as an interrupt message
    with this data, the next number of its subchannel and an acknowledgement of the data
    received so far, and uses up exactly one unit of credit. *)
Theorem interrupt_send (cfg : config) (w : world) (data : Bytes) :
  link_ok w → bytes_ok data → has_routing cfg = true →
  0 ≤ int_next_msg (w_other w) < 4294967295 → 0 ≤ int_max_msg (w_other w) < 4294967295 →
  if running (cn w) && (len data <=? 16) && (0 <? interrupt_credit (cn w)) then
    ∃ frm w', send_interrupt cfg data w = (Ok true, w') ∧
      parse_frame frm = Some (PIntMsg (IntMsg.mk IntMsg.flag (dstaddr (w_ctl w)) (srcaddr (w_ctl w))
        (Some (mkAck (last_in_order (w_rx w)) XACK)) None (int_next_send (w_other w)) data)) ∧
      log w' = log w ++ [Sent frm] ∧
      interrupt_credit (cn w') = interrupt_credit (cn w) - 1 ∧
      int_next_send (w_other w') = mod_incr SeqM (int_next_send (w_other w))
  else send_interrupt cfg data w = (Ok false, w).
Proof.
  intros Hw Hd Hr Hn Hm. destruct Hw as (Hs & Hdst & _ & He & _ & Hi).
  assert ((0 <? interrupt_credit (cn w)) = can_interrupt (cn w)) as ->.
  { unfold interrupt_credit, can_interrupt. change (c_other (cn w)) with (w_other w).
    destruct (Z.leb_spec (int_next_msg (w_other w)) (int_max_msg (w_other w))); [|done].
    apply Z.ltb_lt. rewrite u32_small; lia. }
  destruct (running (cn w) && (len data <=? 16) && can_interrupt (cn w)) eqn:Hok.
  2: { unfold send_interrupt. step. unfold id.
       assert (negb (running (cn w)) || (MAX_INTERRUPT <? len data) || negb (can_interrupt (cn w))
               = true) as ->; [|done].
       unfold MAX_INTERRUPT. rewrite Z.ltb_antisym, <-!negb_andb, Hok. done. }
  apply andb_true_iff in Hok as [[Hrun Hlen]%andb_true_iff Hcan].
  set (m := IntMsg.mk IntMsg.flag (dstaddr (w_ctl w)) (srcaddr (w_ctl w)) None
              (Some (mkAck (last_in_order (w_rx w)) XACK)) (int_next_send (w_other w)) data).
  destruct (parse_encode (PIntMsg m)) as (frm & E & _ & D).
  { split; [done|]. split; [|by split].
    split; [done|]. split; [done|]. split; [done|]. by apply seq_pred. }
  exists frm. eexists. split; [|split; [exact D|]].
  - unfold send_interrupt. step. unfold id.
    assert (negb (running (cn w)) || (MAX_INTERRUPT <? len data) || negb (can_interrupt (cn w))
            = false) as -> by (unfold MAX_INTERRUPT; by rewrite Hrun, Hcan, Z.ltb_antisym, Hlen).
    cbv zeta. fold m. step_by_lift E. step. unfold send_to. rewrite Hr. reflexivity.
  - split; [done|]. split; [|done]. unfold interrupt_credit, can_interrupt in *.
    change (c_other (cn w)) with (w_other w) in *. cbn -[u32 Z.leb].
    change (c_other (cn w)) with (w_other w). rewrite (u32_small (_ + 1)) by lia.
    rewrite Hcan. apply Z.leb_le in Hcan.
    destruct (Z.leb_spec (int_next_msg (w_other w) + 1) (int_max_msg (w_other w))).
    + rewrite !u32_small by lia. lia.
    + rewrite u32_small by lia. lia.
Qed.

Lemma interrupt_send_witness :
  (∃ w', send_interrupt example_config [1; 2] (example_link RUN SVC_NONE) = (Ok true, w') ∧
     send_interrupt example_config [3] w' = (Ok false, w')).
Proof.
  pose proof (interrupt_send example_config (example_link RUN SVC_NONE) [1; 2]) as H.
  destruct H as (frm & w' & E & _);
    [by apply (bool_decide_unpack _)|by apply (bool_decide_unpack _)|done|done|done|].
  exists w'. split; [exact E|].
  apply (f_equal snd) in E. cbn [snd] in E. rewrite <-E. vm_compute. reflexivity.
Defined.

(** Receiving an interrupt.  An interrupt message in sequence is acknowledged and its
    data given to session control, once, whatever session control sends in return: the
    same message arriving again is acknowledged again, and session control hears nothing. *)
Theorem interrupt_delivered_once (cfg : config) (clock : nat → Z) (SC : SessionControl) (w : world)
    (m : IntMsg.t) :
  (∀ d w, Forall stream_call (on_notice (InterruptReceived d) w)) →
  link_ok w → seq_ok (IntMsg.segnum m) → IntMsg.segnum m = int_next_expect (w_other w) →
  ∃ w1 w2, handle_interrupt cfg clock m w = (Ok tt, w1) ∧
    notices (log w1) = notices (log w) ++ [Told (InterruptReceived (IntMsg.payload m))] ∧
    handle_interrupt cfg clock m w1 = (Ok tt, w2) ∧ notices (log w2) = notices (log w1).
Proof.
  intros Hsc Hw Hseq Hexp. set (next := mod_add SeqM (IntMsg.segnum m) 1).
  set (w1 := (upd_other (with_int_next_expect next) w).2).
  destruct (ack_other_run cfg (IntMsg.segnum m) w1 Hw Hseq) as (w2 & E2 & V2).
  set (w3 := (count byt_rcv (len (IntMsg.payload m)) w2).2). set (w4 := (count msg_rcv 1 w3).2).
  set (w5 := (emit (Told (InterruptReceived (IntMsg.payload m))) w4).2).
  assert (link_ok w2) as Hw2 by (by apply (link_ok_ack w2 w1)).
  destruct (calls_fine cfg clock _ (Hsc (IntMsg.payload m) w5) w5) as ([] & w6 & E6 & Hw6 & V6);
    [exact Hw2|].
  apply up_view_inv in V6 as (_ & _ & N6 & _ & X6).
  pose proof (up_view_inv _ _ (up_view_ack _ _ V2)) as (_ & _ & N2 & _ & X2).
  assert (int_next_expect (w_other w6) = next) as Xn.
  { rewrite X6. change (int_next_expect (w_other w5)) with (int_next_expect (w_other w2)). by rewrite X2. }
  destruct (ack_other_run cfg (mod_sub SeqM next 1) w6 Hw6) as (w7 & E7 & V7).
  { unfold seq_ok, mod_ok, mod_sub. apply Z.mod_pos_bound. lia. }
  exists w6, w7. split; [|split; [|split]].
  - unfold handle_interrupt. etrans; [apply (bind_ok _ _ w w w); done|]. cbv zeta. rewrite <-Hexp.
    assert (mod_lt SeqM (IntMsg.segnum m) (IntMsg.segnum m) = false) as ->
      by (unfold mod_lt, mod_cmp; by rewrite Z.eqb_refl).
    etrans; [apply (bind_ok _ _ w tt w1); done|]. step_by E2.
    etrans; [apply (bind_ok _ _ w2 tt w3); done|]. etrans; [apply (bind_ok _ _ w3 tt w4); done|].
    unfold notify. etrans; [apply (bind_ok _ _ w4 tt w5); done|]. step. exact E6.
  - rewrite N6. change (log w5) with (log w2 ++ [Told (InterruptReceived (IntMsg.payload m))]).
    by rewrite notices_app, N2.
  - unfold handle_interrupt. etrans; [apply (bind_ok _ _ w6 w6 w6); done|]. cbv zeta.
    rewrite Xn. unfold next. rewrite mod_lt_next by done. exact E7.
  - by destruct (up_view_inv _ _ (up_view_ack _ _ V7)) as (_ & _ & -> & _ & _).
Qed.

(** Session control that answers an interrupt with one of its own. *)
Definition replier : SessionControl := λ n _,
  match n with InterruptReceived _ => [SendInterrupt [1]; SendData [2]] | _ => [] end.

Lemma interrupt_delivered_once_witness :
  ∃ w1, handle_interrupt (SC:=replier) example_config (λ _, 1000)
    (IntMsg.mk 48 8193 12290 None None 1 [5]) (example_link RUN SVC_NONE) = (Ok tt, w1) ∧
    notices (log w1) = [Told (InterruptReceived [5])].
Proof.
  destruct (interrupt_delivered_once example_config (λ _, 1000) replier (example_link RUN SVC_NONE)
              (IntMsg.mk 48 8193 12290 None None 1 [5])) as (w1 & w2 & E & N & _).
  - intros d w. repeat constructor; lia.
  - by apply (bool_decide_unpack _).
  - done.
  - done.
  - exists w1. split; [exact E|exact N].
Defined.

(** ** Two corners of the state machine *)

(** A link refused by its own timer.  When the application takes too long to answer
    an inbound connect, the connect timer sends a reject on its behalf and closes the
    link, and session control is not told: what it has heard is what it had heard before. *)
Theorem connect_timeout_is_silent (cfg : config) (clock : nat → Z) (SC : SessionControl) (w : world) :
  link_ok w → state (w_ctl w) = CR → timer_is_retransmit (w_ctl w) = false →
  ∃ w', timeout cfg clock w = (Ok tt, w') ∧ state (w_ctl w') = CL ∧
    notices (log w') = notices (log w) ∧
    ∃ frm, parse_frame frm = Some (PDiscInit (DiscInit.mk DiscInit.flag (dstaddr (w_ctl w))
             (srcaddr (w_ctl w)) DISC_OBJ_FAIL [])) ∧
      log w' = log w ++ sent_log cfg [mkTx 0 0 0 frm true false 0] ++ [Closed].
Proof.
  intros (Hs & Hd & _) Hst Ht.
  set (d := DiscInit.mk DiscInit.flag (dstaddr (w_ctl w)) (srcaddr (w_ctl w)) DISC_OBJ_FAIL []).
  destruct (parse_encode (PDiscInit d)) as (frm & E & _ & D).
  { split; [done|]. split; [done|]. split; [done|]. by apply (bool_decide_unpack _). }
  set (w1 := (stop_timer w).2).
  destruct (send_to_effect cfg frm w1) as (w2 & E2 & C2 & L2).
  set (w3 := (clear_queues w2).2). set (w4 := (emit Closed w3).2).
  exists (set_state (Some CL) w4).2. split; [|split; [done|]].
  - unfold timeout. etrans; [apply (bind_ok _ _ w tt w1); done|].
    etrans; [apply (bind_ok _ _ w1 w1 w1); done|].
    change (timer_is_retransmit (w_ctl w1)) with (timer_is_retransmit (w_ctl w)). rewrite Ht.
    unfold dispatch. etrans; [apply (bind_ok _ _ w1 w1 w1); done|].
    change (state (w_ctl w1)) with (state (w_ctl w)). rewrite Hst. unfold st_cr.
    assert (reject cfg DISC_OBJ_FAIL [] w1 = (Ok tt, (set_state (Some CL) w4).2)) as Er.
    { unfold reject, disc_init. rewrite bind_assoc. etrans; [apply (bind_ok _ _ w1 w1 w1); done|].
      unfold send. rewrite bind_assoc. change (u16 DISC_OBJ_FAIL) with DISC_OBJ_FAIL. fold d.
      etrans; [apply (bind_ok _ _ w1 frm w1); exact (f_equal (λ r, (r, w1)) E)|].
      step_by E2. unfold close_quietly. rewrite bind_assoc.
      etrans; [apply (bind_ok _ _ w2 tt w3); done|]. reflexivity. }
    rewrite bind_assoc. step_by Er. reflexivity.
  - change (log (set_state (Some CL) w4).2) with (log w2 ++ [Closed]).
    rewrite L2. change (log w1) with (log w). split.
    + rewrite !notices_app. destruct (has_routing cfg); simpl; by rewrite !app_nil_r.
    + exists frm. split; [exact D|]. unfold sent_log. rewrite <-app_assoc. by destruct (has_routing cfg).
Qed.

Lemma connect_timeout_is_silent_witness :
  ∃ w', timeout (SC:=replier) example_config (λ _, 1000) (example_link CR SVC_NONE) = (Ok tt, w') ∧
    notices (log w') = [].
Proof.
  destruct (connect_timeout_is_silent example_config (λ _, 1000) replier (example_link CR SVC_NONE))
    as (w' & E & _ & N & _); [by apply (bool_decide_unpack _)|done|done|].
  exists w'. split; [exact E|exact N].
Defined.

(** Session control that hangs up as soon as its connection is confirmed. *)
Definition hangup (reason : Z) : SessionControl := λ n _,
  match n with ConnectConfirmed _ => [Disconnect reason []] | _ => [] end.

(** The confirmation callback cannot end the link.  Whatever session control does from
    [connect_confirmed] -- disconnecting, rejecting -- the link is in the running state
    when the confirm has been processed: the state function that made the callback sets it
    again afterwards, so a disconnect asked for there is sent but no longer waited for. *)
Theorem confirm_overrides_callback (cfg : config) (clock : nat → Z) (SC : SessionControl)
    (w w' : world) (c : ConnConf.t) :
  state (w_ctl w) ∈ [CI; CD] → receive cfg clock (PConnConf c) w = (Ok tt, w') →
  state (w_ctl w') = RUN.
Proof.
  intros Hst. unfold receive, dispatch.
  intros (w0 & w1 & [= <- <-] & H)%bind_inv. apply bind_inv in H as (s & w2 & E & H).
  assert (s = Some RUN) as ->; [|by injection H as <-].
  assert (∃ w3, st_cd cfg clock (Some (PConnConf c)) w3 = (Ok s, w2)) as [w3 E3].
  { apply elem_of_cons in Hst as [Hst|Hst]; [|apply list_elem_of_singleton in Hst];
      rewrite Hst in E; by exists w. }
  unfold st_cd in E3.
  do 10 (apply bind_inv in E3 as (? & ? & _ & E3)). 
  apply bind_inv in E3 as (? & ? & _ & E3). by injection E3 as <- _.
Qed.

Definition example_confirm : ConnConf.t := ConnConf.mk 40 8193 12290 1 0 0 2 500 [].

Lemma confirm_overrides_callback_witness :
  ∃ w', receive (SC:=hangup 0) example_config (λ _, 1000) (PConnConf example_confirm)
      (example_link CD SVC_NONE) = (Ok tt, w') ∧
    state (w_ctl w') = RUN ∧
    match last (log w') with
    | Some (Sent frm) => parse_frame frm = Some (PDiscInit (DiscInit.mk 56 12290 8193 0 []))
    | _ => False
    end.
Proof.
  eexists. split; [vm_compute; reflexivity|]. split.
  - eapply (confirm_overrides_callback example_config (λ _, 1000) (hangup 0)
              (example_link CD SVC_NONE) _ example_confirm); [by right; left|vm_compute; reflexivity].
  - vm_compute. reflexivity.
Defined.
