(* ===== verification/Nsp.v ===== *)
(** The NSP layer: [class NSP] of [include/decnet/nsp/nsp.h] and
    [src/nsp/nsp.cc] -- link addresses, the tables of links, the receive
    dispatcher and the retirement of closed links.

    A link runs in its own world ([Connection]); [on_link] lends it the state
    it shares with the other links to the same node, and then carries out what
    it asked of the layer. *)

From S2P Require Import Prelude Buffer Modulo Types Codec Layout Indexed NspPackets Float Connection ConnLaws.
#[local] Open Scope Z_scope.

(** What the layer keeps about a remote node in the node database. *)
Record peer := Peer { p_delay : double; p_counters : ctr → Z }.
Definition new_peer : peer := Peer f0 (λ _, 0).

(** What leaves the layer: a frame for a node, what passed between a link and
    session control, and the event of an ill-formed message (3.0). *)
Inductive output :=
| ToNode (dst : Z) (frame : Bytes)
| Talk (addr : Z) (e : effect)
| InvalidMessage (src : Z) (message : Bytes).

(** [struct Closed]. *)
Record retired := Retired { r_conn : conn; r_when : Z }.

Record nsp := Nsp {
  free_ids : list Z;
  by_addr : gmap Z conn;
  by_remote : gmap (Z * Z) Z;
  closed_ : list retired;
  peers : gmap Z peer;
  peak_conns : Z;
  clock_ticks : nat;
  outputs : list output;
}.

Definition with_free_ids v n := Nsp v (by_addr n) (by_remote n) (closed_ n) (peers n) (peak_conns n)
  (clock_ticks n) (outputs n).
Definition with_by_addr v n := Nsp (free_ids n) v (by_remote n) (closed_ n) (peers n) (peak_conns n)
  (clock_ticks n) (outputs n).
Definition with_by_remote v n := Nsp (free_ids n) (by_addr n) v (closed_ n) (peers n) (peak_conns n)
  (clock_ticks n) (outputs n).
Definition with_closed v n := Nsp (free_ids n) (by_addr n) (by_remote n) v (peers n) (peak_conns n)
  (clock_ticks n) (outputs n).
Definition with_peers v n := Nsp (free_ids n) (by_addr n) (by_remote n) (closed_ n) v (peak_conns n)
  (clock_ticks n) (outputs n).
Definition with_peak v n := Nsp (free_ids n) (by_addr n) (by_remote n) (closed_ n) (peers n) v
  (clock_ticks n) (outputs n).
Definition with_clock v n := Nsp (free_ids n) (by_addr n) (by_remote n) (closed_ n) (peers n)
  (peak_conns n) v (outputs n).
Definition output_one o n := Nsp (free_ids n) (by_addr n) (by_remote n) (closed_ n) (peers n)
  (peak_conns n) (clock_ticks n) (outputs n ++ [o]).

Section Nsp.
Context (cfg : config) (clock : nat → Z) `{SC : SessionControl}.

(** The grace period of retired links: sixty seconds, in nanoseconds. *)
Definition closed_grace : Z := 60000000000.

(** ** Link addresses *)

(** [init_ids]: [high] are the draws of the random high parts, [shuffle] the
    shuffle of the standard library. *)
Definition id_modulus : Z := max_connections cfg + 1.
Definition initial_ids (high : Z → Z) : list Z :=
  map (λ i, u16 (i + high i * id_modulus)) (seqZ 1 (max_connections cfg)).
Definition init_ids (high : Z → Z) (shuffle : list Z → list Z) (n : nsp) : nsp :=
  with_free_ids (shuffle (initial_ids high)) n.

Definition get_id (n : nsp) : option (Z * nsp) :=
  match free_ids n with
  | [] => None
  | id :: ids => Some (id, with_free_ids ids n)
  end.

(** The wire number a link address comes back as. *)
Definition next_id (id : Z) : Z := Z.land (id + max_connections cfg + 1) 65535.
Definition return_id (id : Z) (n : nsp) : nsp := with_free_ids (free_ids n ++ [next_id id]) n.

(** ** Nodes *)

Definition peer_of (id : Z) (n : nsp) : peer := default new_peer (peers n !! id).
Definition count_peer (id : Z) (k : ctr) (v : Z) (n : nsp) : nsp :=
  let p := peer_of id n in
  with_peers (<[id := Peer (p_delay p)
    (λ k', if decide (k' = k) then u64 (p_counters p k + v) else p_counters p k')]> (peers n)) n.

(** [send_to]. *)
Definition nsp_send_to (dst : Z) (frame : Bytes) (n : nsp) : nsp :=
  if has_routing cfg then
    output_one (ToNode dst frame) (count_peer dst t_msg_xmt 1 (count_peer dst t_byt_xmt (len frame) n))
  else n.

(** ** Closing *)

Definition sweep_closed (now : Z) (n : nsp) : nsp :=
  with_closed (filter (λ c, ¬ (closed_grace ≤ now - r_when c)) (closed_ n)) n.

(** [close_connection]: forget the link, give its address back, and keep the
    object for a while, for whoever still refers to it. *)
Definition close_connection (c : conn) (n : nsp) : nsp :=
  let addr := srcaddr (c_ctl c) in
  let n := with_by_remote (delete (dest (c_ctl c), dstaddr (c_ctl c)) (by_remote n)) n in
  let n := return_id addr n in
  let n := with_clock (S (clock_ticks n)) (sweep_closed (clock (clock_ticks n)) n) in
  match by_addr n !! addr with
  | None => n
  | Some _ =>
      with_by_addr (delete addr (by_addr n))
        (with_clock (S (clock_ticks n))
           (with_closed (closed_ n ++ [Retired c (clock (clock_ticks n))]) n))
  end.

(** ** Running a link *)

(** What a link did, carried out in order. *)
Definition settle (addr : Z) (c : conn) (n : nsp) (e : effect) : nsp :=
  match e with
  | Sent f => output_one (ToNode (dest (c_ctl c)) f) n
  | Closed => close_connection c n
  | e => output_one (Talk addr e) n
  end.

(** Let the link [addr], in the state [c], run [m]. *)
Definition run_link {A} (addr : Z) (c : conn) (m : M A) (n : nsp) : nsp :=
  let p := peer_of (dest (c_ctl c)) n in
  let '(_, w) := m (World c (p_delay p) (p_counters p) (clock_ticks n) []) in
  let n := with_by_addr (<[addr := cn w]> (by_addr n)) n in
  let n := with_peers (<[dest (c_ctl c) := Peer (delay w) (counters w)]> (peers n)) n in
  foldl (settle addr (cn w)) (with_clock (ticks w) n) (log w).

Definition find (addr : Z) (n : nsp) : option conn := by_addr n !! addr.

Definition on_link {A} (addr : Z) (m : M A) (n : nsp) : nsp :=
  match find addr n with None => n | Some c => run_link addr c m n end.

(** [note_peak_links]. *)
Definition note_peak_links (n : nsp) : nsp :=
  let k := Z.of_nat (size (by_addr n)) in
  if peak_conns n <? k then with_peak k n else n.

(** ** Opening and receiving *)

Definition connect (dst : Z) (payload : Bytes) (n : nsp) : option Z * nsp :=
  match get_id n with
  | None => (None, n)
  | Some (addr, n) =>
      let c := new_conn cfg addr dst in
      let n := note_peak_links (with_by_addr (<[addr := c]> (by_addr n)) n) in
      (Some addr, run_link addr c (start_outbound cfg clock payload) n)
  end.

(** A connect initiate: a retransmission, a new link, or no room for one. *)
Definition deliver_connect (src : Z) (p : ConnInit.t) (n : nsp) : nsp :=
  match by_remote n !! (src, ConnInit.srcaddr p) with
  | Some addr => on_link addr (receive cfg clock (PConnInit p)) n
  | None =>
      match get_id n with
      | None =>
          match encode_packet (PDiscConf (DiscConf.mk DiscConf.flag (ConnInit.srcaddr p) 0 NO_RESOURCES)) with
          | Ok f => nsp_send_to src f n
          | Throw _ => n
          end
      | Some (addr, n) =>
          let c := new_conn cfg addr src in
          let n := with_by_addr (<[addr := c]> (by_addr n)) n in
          let n := with_by_remote (<[(src, ConnInit.srcaddr p) := addr]> (by_remote n)) n in
          run_link addr c (start_inbound cfg clock p) (note_peak_links n)
      end
  end.

Definition deliver (src : Z) (payload : Bytes) (n : nsp) : nsp :=
  match parse_frame payload with
  | None => output_one (InvalidMessage src payload) n
  | Some p =>
      let n := count_peer src t_msg_rcv 1 (count_peer src t_byt_rcv (len payload) n) in
      match p with
      | PConnInit p => deliver_connect src p n
      | p => on_link (link_address p) (receive cfg clock p) n
      end
  end.

(** [stop]. *)
Definition stop (n : nsp) : nsp := with_by_addr ∅ (with_by_remote ∅ n).

Definition links_to (dst : Z) (n : nsp) : nat :=
  length (filter (λ ac, dest (c_ctl ac.2) = dst) (map_to_list (by_addr n))).
End Nsp.
