(* ===== verification/NspTables.v ===== *)
(** The tables of the NSP layer: link addresses are unique, and every packet is
    dispatched to the link it belongs to or refused. *)

From S2P Require Import Prelude Buffer Modulo Types Codec Layout Indexed NspPackets Float Connection ConnLaws ConnSend ConnReceive ConnTransmit ConnWindow ConnFlow Nsp.
#[local] Open Scope Z_scope.
#[local] Open Scope decnet_scope.

(** ** A link closes at most once *)

Definition is_closed (e : effect) : bool := match e with Closed => true | _ => false end.
Definition closings (w : world) : nat := length (List.filter is_closed (log w)).

(** What almost nothing changes: the closings, and the two ends of the link. *)
Definition ends (c : conn) : Z * Z := (srcaddr (c_ctl c), dest (c_ctl c)).
Definition fixed (w : world) : nat * (Z * Z) := (closings w, ends (cn w)).

(** Session control that rejects only an inbound connect, and at most once. *)
Definition is_reject (a : api) : bool := match a with Reject _ _ => true | _ => false end.
Definition rejects (l : list api) : nat := length (List.filter is_reject l).

Class Orderly `{SC : SessionControl} : Prop := orderly : ∀ n w,
  match n with
  | ConnectReceived _ => (rejects (on_notice n w) ≤ 1)%nat
  | _ => rejects (on_notice n w) = 0%nat
  end.

(** [m] closes the link at most [k] times, and leaves its ends alone. *)
Definition Closes {A} (k : nat) (m : M A) : Prop := ∀ w,
  (closings (m w).2 ≤ closings w + k)%nat ∧ ends (cn (m w).2) = ends (cn w).

Section Closes.
Lemma closes_frame {A} (m : M A) : Frame fixed m → Closes 0 m.
Proof. intros H w. specialize (H w). unfold fixed in H. injection H as E1 E2 E3. split; [lia|]. unfold ends. congruence. Qed.
Lemma closes_bind {A B} j k (m : M A) (f : A → M B) :
  Closes j m → (∀ a, Closes k (f a)) → Closes (j + k) (m ≫= f).
Proof.
  intros Hm Hf w. specialize (Hm w). unfold mbind, M_bind.
  destruct (m w) as [[a|e] w']; simpl in *; [specialize (Hf a w')|]; intuition (lia || congruence).
Qed.
Lemma closes_then {A B} k (m : M A) (f : A → M B) :
  Closes 0 m → (∀ a, Closes k (f a)) → Closes k (m ≫= f).
Proof. intros. by apply (closes_bind 0 k). Qed.
Lemma closes_first {A B} k (m : M A) (f : A → M B) :
  Closes k m → (∀ a, Closes 0 (f a)) → Closes k (m ≫= f).
Proof. intros. rewrite <-(Nat.add_0_r k). by apply closes_bind. Qed.
Lemma closes_more {A} j k (m : M A) : Closes j m → (j ≤ k)%nat → Closes k m.
Proof. intros H Hk w. destruct (H w). split; [lia|done]. Qed.
Lemma closes_if {A} k (b : bool) (m n : M A) : Closes k m → Closes k n → Closes k (if b then m else n).
Proof. by destruct b. Qed.

Lemma frame_emit_closings e : is_closed e = false → Frame fixed (emit e).
Proof.
  intros He w. unfold fixed, closings. simpl. rewrite List.filter_app. simpl. rewrite He. by rewrite app_nil_r.
Qed.
Lemma closes_emit e : Closes 1 (emit e).
Proof.
  intros w. unfold closings. simpl. rewrite List.filter_app, length_app. simpl.
  split; [destruct (is_closed e); simpl; lia|done].
Qed.
End Closes.

Section ClosesConn.
Context (cfg : config) (clock : nat → Z) `{SC : SessionControl}.

#[local] Hint Extern 1 (Frame fixed (emit _)) => apply frame_emit_closings; reflexivity : typeclass_instances.

#[export] Instance fc_send_to f : Frame fixed (send_to cfg f).
Proof. unfold send_to. frames. Qed.
#[export] Instance fc_send p : Frame fixed (send cfg p).
Proof. unfold send. frames. Qed.
#[export] Instance fc_update_delay t : Frame fixed (update_delay cfg clock t).
Proof. unfold update_delay. frames. Qed.
#[export] Instance fc_set_state s : Frame fixed (set_state s).
Proof. unfold set_state. frames. Qed.
#[export] Instance fc_arm t : Frame fixed (arm_timer t).
Proof. unfold arm_timer. frames. Qed.
#[export] Instance fc_stop : Frame fixed stop_timer.
Proof. unfold stop_timer. frames. Qed.
#[export] Instance fc_send_ack : Frame fixed (send_ack cfg).
Proof. unfold send_ack, stop_ack_holdoff. frames. Qed.
#[export] Instance fc_ack_holdoff : Frame fixed (ack_holdoff cfg).
Proof. unfold ack_holdoff. frames. Qed.
#[export] Instance fc_set_phase i : Frame fixed (set_phase cfg i).
Proof. unfold set_phase. frames. Qed.
#[export] Instance fc_send_loop q a b : Frame fixed (send_loop cfg clock q a b).
Proof. revert a b. induction q; intros; simpl; frames. Qed.
#[export] Instance fc_send_blocked : Frame fixed (send_blocked cfg clock).
Proof. unfold send_blocked. frames. Qed.
#[export] Instance fc_segment_loop fuel r f : Frame fixed (segment_loop fuel r f).
Proof.
  revert r f. induction fuel as [|fuel IH]; intros r f; simpl; [frames|].
  apply frame_bind; [unfold segment_step; frames|]. intros [|b r']; [frames|apply IH].
Qed.
#[export] Instance fc_ack_loop n q a b : Frame fixed (ack_loop cfg clock n q a b).
Proof. revert a b. induction q; intros; simpl; frames. Qed.
#[export] Instance fc_process_ack n : Frame fixed (process_ack cfg clock n).
Proof. unfold process_ack. frames. Qed.
#[export] Instance fc_process_nak : Frame fixed (process_nak cfg clock).
Proof. unfold process_nak. frames. Qed.
#[export] Instance fc_route_ack a b : Frame fixed (route_ack cfg clock a b).
Proof. unfold route_ack, process_int_ack. frames. Qed.
#[export] Instance fc_resend q b : Frame fixed (resend cfg q b).
Proof. revert b. induction q; intros; simpl; frames. Qed.
#[export] Instance fc_ack_other n : Frame fixed (ack_other cfg n).
Proof. unfold ack_other. frames. Qed.
#[export] Instance fc_ack_conn : Frame fixed (ack_conn cfg).
Proof. unfold ack_conn. frames. Qed.
#[export] Instance fc_disc_init r d : Frame fixed (disc_init cfg r d).
Proof. unfold disc_init. frames. Qed.
#[export] Instance fc_disc_conf r : Frame fixed (disc_conf cfg r).
Proof. unfold disc_conf. frames. Qed.
#[export] Instance fc_clear : Frame fixed clear_queues.
Proof. unfold clear_queues, stop_ack_holdoff. frames. Qed.

Lemma closes_reject r d : Closes 1 (reject cfg r d).
Proof.
  unfold reject, close_quietly. apply closes_then; [apply closes_frame, _|intros _].
  apply closes_first; [|intros; apply closes_frame, _].
  apply closes_then; [apply closes_frame, _|intros _].
  apply closes_first; [apply closes_emit|intros; apply closes_frame, _].
Qed.

Lemma closes_call a : Closes (if is_reject a then 1 else 0) (call cfg clock a).
Proof.
  unfold call. destruct a; cbn [is_reject];
    (apply closes_then; [apply closes_frame; frames|intros _]).
  - apply closes_frame. unfold accept. frames.
  - apply closes_reject.
  - apply closes_frame. unfold send_data, send_segments. frames.
  - apply closes_frame. unfold disconnect. frames.
  - apply closes_frame. unfold send_interrupt. frames.
Qed.

Lemma closes_calls l : Closes (rejects l) (calls cfg clock l).
Proof.
  induction l as [|a l IH]; simpl; [apply closes_frame, _|].
  eapply closes_more; [apply closes_bind; [apply closes_call|done]|].
  unfold rejects. simpl. destruct (is_reject a); simpl; lia.
Qed.

Context `{!Orderly}.

Lemma closes_notify n : Closes (match n with ConnectReceived _ => 1 | _ => 0 end) (notify cfg clock n).
Proof.
  unfold notify. apply closes_then; [apply closes_frame; frames|intros _].
  apply closes_then; [apply closes_frame, _|intros w].
  eapply closes_more; [apply closes_calls|].
  pose proof (orderly n w) as Ho. destruct n; lia.
Qed.

Lemma closes_close r d b : Closes 1 (close cfg clock r d b).
Proof.
  unfold close. apply closes_then; [apply closes_frame, _|intros _].
  apply closes_then; [apply closes_if; [apply closes_notify|apply closes_frame, _]|intros _].
  apply closes_first; [apply closes_emit|intros; apply closes_frame, _].
Qed.

Ltac cstep := lazymatch goal with
  | |- Closes 0 (notify _ _ _) => apply closes_notify
  | |- Closes _ (close _ _ _ _ _) => apply closes_close
  | |- Closes _ (reject _ _ _) => apply closes_reject
  | |- Closes 0 (_ ≫= _) => apply closes_then; [cstep|intros ?; cstep]
  | |- Closes 0 (if _ then _ else _) => apply closes_if; cstep
  | |- Closes 0 (when _ _) => unfold when; apply closes_if; cstep
  | |- Closes 0 _ => apply closes_frame; frames
  | |- Closes _ (mret _) => eapply closes_more; [apply closes_frame, _|lia]
  | |- Closes ?k (_ ≫= _) => apply closes_then; [cstep|intros ?; cstep]
  | _ => idtac
  end.

Lemma closes_accept_segment seg : Closes 0 (accept_segment cfg clock seg).
Proof. unfold accept_segment. cstep. Qed.

Lemma closes_drain fuel : Closes 0 (drain cfg clock fuel).
Proof.
  induction fuel as [|fuel IH]; simpl; [apply closes_frame, _|].
  apply closes_then; [cstep|intros w]. destruct (ooo _ !! _); [|cstep].
  apply closes_then; [cstep|intros _]. apply closes_then; [apply closes_accept_segment|intros _].
  apply closes_then; [unfold next_segment; cstep|done].
Qed.

Lemma closes_handle_data seg : Closes 0 (handle_data cfg clock seg).
Proof.
  unfold handle_data, take_segment, next_segment, delay_ack.
  do 2 (apply closes_then; [cstep|intros _]). apply closes_then; [cstep|intros w]. cbv zeta.
  apply closes_if; [cstep|]. apply closes_if; [cstep|].
  apply closes_then; [apply closes_accept_segment|intros _]. do 2 (apply closes_then; [cstep|intros ?]).
  apply closes_then; [apply closes_drain|intros _]. cstep.
Qed.

Lemma closes_handle_interrupt p : Closes 0 (handle_interrupt cfg clock p).
Proof. unfold handle_interrupt. cstep. Qed.
Lemma closes_handle_link_service p : Closes 0 (handle_link_service cfg clock p).
Proof. unfold handle_link_service, apply_link_service, data_credit. cstep. Qed.

Lemma closes_run p : Closes 1 (st_run cfg clock p).
Proof.
  unfold st_run. destruct p as [p|]; [|cstep]. do 2 (apply closes_then; [cstep|intros ?]).
  destruct p; try (apply closes_then; [|intros; cstep]; first
    [apply closes_handle_data|apply closes_handle_interrupt|apply closes_handle_link_service]); cstep.
Qed.

Lemma closes_cd p : Closes 1 (st_cd cfg clock p).
Proof. unfold st_cd. destruct p as [p|]; [|cstep]. destruct p; cstep. Qed.

Lemma closes_dispatch p : Closes 1 (dispatch cfg clock p).
Proof.
  unfold dispatch. apply closes_then; [cstep|intros w].
  apply closes_first; [|intros; cstep].
  destruct (state (w_ctl w)); try cstep.
  - unfold st_ci. destruct p as [p|]; [|cstep]. destruct p; try apply closes_cd. cstep.
  - apply closes_cd.
  - unfold st_cr. destruct p as [p|].
    + destruct p; try cstep.
    + apply closes_first; [cstep|intros; cstep].
  - unfold st_cc. destruct p as [p|]; [|cstep]. destruct p; cstep; apply closes_run.
  - apply closes_run.
  - unfold st_di. destruct p as [p|]; [|cstep]. destruct p; cstep.
Qed.

Lemma closes_timeout : Closes 1 (timeout cfg clock).
Proof.
  unfold timeout. do 2 (apply closes_then; [cstep|intros ?]).
  apply closes_if; [|apply closes_dispatch].
  unfold retransmit. apply closes_then; [cstep|intros w]. cbv zeta. apply closes_if; [cstep|].
  do 3 (apply closes_then; [cstep|intros ?]). apply closes_if.
  - apply closes_first; [apply closes_close|intros; cstep].
  - apply (closes_more 0); [cstep|lia].
Qed.
End ClosesConn.

(** ** A link keeps its remote address

    Once a link is past the opening of an outbound connect, the node and the
    remote link address it talks to never change, and it never goes back. *)

Definition opening (s : cstate) : bool := match s with CI | CD => true | _ => false end.
Definition remote_of (c : conn) : Z * Z := (dest (c_ctl c), dstaddr (c_ctl c)).
Definition Settled (k : Z * Z) (c : conn) : Prop := remote_of c = k ∧ opening (state (c_ctl c)) = false.
Definition SettledW (k : Z * Z) (w : world) : Prop := Settled k (cn w).

Section SettledConn.
Context (cfg : config) (clock : nat → Z) `{SC : SessionControl} (k : Z * Z).
#[local] Abbreviation P := (SettledW k).

Ltac settled_prim := let w := fresh in let H := fresh in intros w H; exact H.
#[local] Hint Extern 5 (Keeps (SettledW _) (upd_ctl _)) => settled_prim : typeclass_instances.
#[local] Hint Extern 5 (Keeps (SettledW _) (upd_tx _)) => settled_prim : typeclass_instances.
#[local] Hint Extern 5 (Keeps (SettledW _) (upd_rx _)) => settled_prim : typeclass_instances.
#[local] Hint Extern 5 (Keeps (SettledW _) (upd_flow _)) => settled_prim : typeclass_instances.
#[local] Hint Extern 5 (Keeps (SettledW _) (upd_other _)) => settled_prim : typeclass_instances.
#[local] Hint Extern 5 (Keeps (SettledW _) (modify _)) => settled_prim : typeclass_instances.
#[local] Hint Extern 5 (Keeps (SettledW _) (emit _)) => settled_prim : typeclass_instances.
#[local] Hint Extern 5 (Keeps (SettledW _) (count _ _)) => settled_prim : typeclass_instances.
#[local] Hint Extern 5 (Keeps (SettledW _) (now _)) => settled_prim : typeclass_instances.

Instance st_send_to f : Keeps P (send_to cfg f).
Proof. unfold send_to. keeps. Qed.
Instance st_send p : Keeps P (send cfg p).
Proof. unfold send. keeps. Qed.
Instance st_update_delay t : Keeps P (update_delay cfg clock t).
Proof. unfold update_delay. keeps. Qed.
Instance st_arm t : Keeps P (arm_timer t).
Proof. unfold arm_timer. keeps. Qed.
Instance st_stop : Keeps P stop_timer.
Proof. unfold stop_timer. keeps. Qed.
Instance st_set_phase i : Keeps P (set_phase cfg i).
Proof. unfold set_phase. keeps. Qed.
Instance st_send_ack : Keeps P (send_ack cfg).
Proof. unfold send_ack, stop_ack_holdoff. keeps. Qed.
Instance st_send_loop q a b : Keeps P (send_loop cfg clock q a b).
Proof. revert a b. induction q; intros; simpl; keeps. Qed.
Instance st_send_blocked : Keeps P (send_blocked cfg clock).
Proof. unfold send_blocked. keeps. Qed.
Instance st_segment_loop fuel r f : Keeps P (segment_loop fuel r f).
Proof.
  revert r f. induction fuel as [|fuel IH]; intros r f; simpl; [keeps|].
  apply keeps_bind; [unfold segment_step; keeps|]. intros [|b r']; [keeps|apply IH].
Qed.
Instance st_ack_loop n q a b : Keeps P (ack_loop cfg clock n q a b).
Proof. revert a b. induction q; intros; simpl; keeps. Qed.
Instance st_process_ack n : Keeps P (process_ack cfg clock n).
Proof. unfold process_ack. keeps. Qed.
Instance st_process_nak : Keeps P (process_nak cfg clock).
Proof. unfold process_nak. keeps. Qed.
Instance st_route_ack a b : Keeps P (route_ack cfg clock a b).
Proof. unfold route_ack, process_int_ack. keeps. Qed.
Instance st_resend q b : Keeps P (resend cfg q b).
Proof. revert b. induction q; intros; simpl; keeps. Qed.
Instance st_ack_other n : Keeps P (ack_other cfg n).
Proof. unfold ack_other. keeps. Qed.
Instance st_ack_conn : Keeps P (ack_conn cfg).
Proof. unfold ack_conn. keeps. Qed.
Instance st_disc_init r d : Keeps P (disc_init cfg r d).
Proof. unfold disc_init. keeps. Qed.
Instance st_disc_conf r : Keeps P (disc_conf cfg r).
Proof. unfold disc_conf. keeps. Qed.
Instance st_clear : Keeps P clear_queues.
Proof. unfold clear_queues, stop_ack_holdoff. keeps. Qed.

Lemma st_set_state s : (∀ c, s = Some c → opening c = false) → Keeps P (set_state s).
Proof.
  intros Hs w [Hr Ho]. unfold set_state, SettledW, Settled. destruct s as [c|]; [|done].
  specialize (Hs c eq_refl). simpl. split; [exact Hr|exact Hs].
Qed.
#[local] Hint Extern 1 (Keeps (SettledW _) (set_state (Some _))) =>
  apply st_set_state; intros ? [= <-]; reflexivity : typeclass_instances.

(** A state function answers with no change or with a state it may go to. *)
Definition Goes (m : M (option cstate)) : Prop :=
  ∀ w, P w → P (m w).2 ∧ ∀ s, (m w).1 = Ok (Some s) → opening s = false.

Lemma goes_bind {A} (m : M A) (f : A → M (option cstate)) :
  Keeps P m → (∀ a, Goes (f a)) → Goes (m ≫= f).
Proof.
  intros Hm Hf w Hw. specialize (Hm w Hw). unfold mbind, M_bind.
  destruct (m w) as [[a|e] w']; simpl in *; [by apply Hf|done].
Qed.
Lemma goes_ret s : (∀ c, s = Some c → opening c = false) → Goes (mret (M:=M) s).
Proof. intros Hs w Hw. split; [done|]. simpl. intros c [= ->]. by apply Hs. Qed.
Lemma goes_none : Goes (mret (M:=M) None).
Proof. by apply goes_ret. Qed.
Lemma goes_to c : opening c = false → Goes (mret (M:=M) (Some c)).
Proof. intros Hc. apply goes_ret. by intros ? [= <-]. Qed.
Lemma goes_if (b : bool) m n : Goes m → Goes n → Goes (if b then m else n).
Proof. by destruct b. Qed.
Lemma st_next m : Goes m → Keeps P (s ← m; set_state s).
Proof.
  intros Hm w Hw. specialize (Hm w Hw) as [Hp Hs]. unfold mbind, M_bind.
  destruct (m w) as [[s|e] w']; simpl in *; [|done].
  apply st_set_state; [|done]. intros c ->. by apply Hs.
Qed.

Ltac goes := repeat first
  [apply goes_none | apply goes_to; reflexivity | apply goes_if
  | apply goes_bind; [solve [keeps]|intros ?; cbv zeta]].

Lemma goes_close_quietly : Goes close_quietly.
Proof. unfold close_quietly. goes. Qed.
Instance st_reject r d : Keeps P (reject cfg r d).
Proof. unfold reject. apply keeps_bind; [apply _|intros _]. apply st_next, goes_close_quietly. Qed.
Instance st_call a : Keeps P (call cfg clock a).
Proof.
  unfold call, accept, send_data, send_segments, disconnect, send_interrupt.
  destruct a; keeps.
Qed.
Instance st_calls l : Keeps P (calls cfg clock l).
Proof. induction l; simpl; keeps. Qed.
Instance st_notify n : Keeps P (notify cfg clock n).
Proof. unfold notify. keeps. Qed.
Lemma goes_close r d b : Goes (close cfg clock r d b).
Proof. unfold close. goes. Qed.
#[local] Hint Resolve goes_close goes_none : core.

Instance st_accept_segment seg : Keeps P (accept_segment cfg clock seg).
Proof. unfold accept_segment. keeps. Qed.
Instance st_drain fuel : Keeps P (drain cfg clock fuel).
Proof. induction fuel; simpl; [keeps|]. unfold next_segment. keeps. Qed.
Instance st_handle_data seg : Keeps P (handle_data cfg clock seg).
Proof. unfold handle_data, take_segment, next_segment, delay_ack. keeps. Qed.
Instance st_handle_interrupt m : Keeps P (handle_interrupt cfg clock m).
Proof. unfold handle_interrupt. keeps. Qed.
Instance st_handle_link_service m : Keeps P (handle_link_service cfg clock m).
Proof. unfold handle_link_service, apply_link_service, data_credit. keeps. Qed.

Lemma goes_run p : Goes (st_run cfg clock p).
Proof. unfold st_run. destruct p as [p|]; [|goes]. destruct p; goes; auto. Qed.
Lemma goes_cr p : Goes (st_cr cfg p).
Proof.
  unfold st_cr. destruct p as [p|]; [destruct p; goes; auto|]. goes.
Qed.
Lemma goes_cc p : Goes (st_cc cfg clock p).
Proof. unfold st_cc. destruct p as [p|]; [|auto]. destruct p; goes; auto using goes_run. Qed.
Lemma goes_di p : Goes (st_di cfg clock p).
Proof. unfold st_di. destruct p as [p|]; [|auto]. destruct p; auto. Qed.

Lemma st_dispatch p : Keeps P (dispatch cfg clock p).
Proof.
  intros w Hw. unfold dispatch. rewrite (bind_ok _ _ w w w) by done.
  assert (Goes (match state (w_ctl w) with
       | S0 | CL => mret None
       | CI => st_ci cfg clock p | CD => st_cd cfg clock p | CR => st_cr cfg p | CC => st_cc cfg clock p
       | RUN => st_run cfg clock p | DI => st_di cfg clock p end) ∨ opening (state (w_ctl w)) = true) as [H|H].
  { destruct (state (w_ctl w)); auto using goes_run, goes_cr, goes_cc, goes_di. }
  - by apply (st_next _ H).
  - destruct Hw as [_ Ho]. unfold w_ctl in H. congruence.
Qed.

(** The rest of [start_inbound], once the remote address is known. *)
Lemma st_opened p : Keeps P
  (set_phase cfg (ConnInit.info p);; upd_ctl (with_segsize (Z.min (ConnInit.segsize p) MSS));;
   upd_flow (with_flow (ConnInit.fcopt p));; w ← gets id; when (2 <? cphase (w_ctl w)) (ack_conn cfg);;
   set_state (Some CR);; upd_ctl (with_timer_is_retransmit false);; arm_timer conn_timeout;;
   notify cfg clock (ConnectReceived (ConnInit.payload p))).
Proof. keeps. Qed.

Lemma st_ack_timeout : Keeps P (ack_timeout cfg).
Proof. unfold ack_timeout, ack_holdoff. keeps. Qed.
Lemma st_any_call a : Keeps P (call cfg clock a).
Proof. apply _. Qed.

Lemma st_timeout : Keeps P (timeout cfg clock).
Proof.
  unfold timeout. do 2 (apply keeps_bind; [apply _|intros ?]). apply keeps_if; [|apply st_dispatch].
  unfold retransmit. apply keeps_bind; [apply _|intros ?]. cbv zeta. apply keeps_if; [apply _|].
  do 3 (apply keeps_bind; [apply _|intros ?]). apply keeps_if; [|keeps].
  apply st_next, goes_close.
Qed.
End SettledConn.
