(* ===== verification/NspLinks.v ===== *)
(** The tables of the NSP layer over any sequence of events: link addresses
    are unique and never lost, and [by_remote] never refers to a link that has
    gone. *)

From S2P Require Import Prelude Buffer Modulo Types Codec Layout Indexed NspPackets Float Connection ConnLaws ConnReceive Nsp NspTables.
#[local] Open Scope Z_scope.
#[local] Open Scope decnet_scope.

(** ** The three tables *)

Section Tables.
Context (cfg : config) (clock : nat → Z) `{SC : SessionControl}.
#[local] Abbreviation max := (max_connections cfg).
#[local] Abbreviation modulus := (id_modulus cfg).

Definition low (a : Z) : Z := a mod modulus.
Definition used (ba : gmap Z conn) : list Z := (map_to_list ba).*1.

(** Every low part is free or in use, once; a link is filed under its own
    address; and an entry of [by_remote] is an open link, with that remote
    address unless it is only just being opened ([busy]). *)
Record Tables (busy : option Z) (f : list Z) (ba : gmap Z conn) (br : gmap (Z * Z) Z) : Prop := {
  tb_ids : map low (f ++ used ba) ≡ₚ seqZ 1 max;
  tb_range : Forall (λ a, 0 ≤ a < 65536) (f ++ used ba);
  tb_addr : ∀ a c, ba !! a = Some c → srcaddr (c_ctl c) = a;
  tb_remote : ∀ k a, br !! k = Some a →
    ∃ c, ba !! a = Some c ∧ (busy = Some a ∨ Settled k c);
}.

Definition NspOk (n : nsp) : Prop := Tables None (free_ids n) (by_addr n) (by_remote n).

Lemma elem_used ba a : a ∈ used ba ↔ is_Some (ba !! a).
Proof.
  unfold used. rewrite list_elem_of_fmap. split.
  - intros ([a' c] & -> & H%elem_of_map_to_list). by exists c.
  - intros [c H]. exists (a, c). by rewrite elem_of_map_to_list.
Qed.
Lemma used_insert ba a c : ba !! a = None → used (<[a := c]> ba) ≡ₚ a :: used ba.
Proof. intros H. unfold used. by rewrite map_to_list_insert. Qed.
Lemma used_replace ba a c c' : ba !! a = Some c → used (<[a := c']> ba) ≡ₚ used ba.
Proof.
  intros H. unfold used. rewrite <-(insert_id ba a c H) at 2. rewrite <-!(insert_delete_eq ba).
  rewrite !map_to_list_insert by apply lookup_delete_eq. done.
Qed.
Lemma used_delete ba a c : ba !! a = Some c → used ba ≡ₚ a :: used (delete a ba).
Proof.
  intros H. unfold used. rewrite <-(insert_id ba a c H) at 1. rewrite <-insert_delete_eq.
  by rewrite map_to_list_insert by apply lookup_delete_eq.
Qed.
Lemma length_used ba : length (used ba) = size ba.
Proof. unfold used. by rewrite length_map, length_map_to_list. Qed.

(** The address a link gives back has the low part it was given out with. *)
Lemma low_next_id a : (modulus | 65536) → 0 < modulus → low (next_id cfg a) = low a.
Proof.
  intros Hd Hm. unfold low, next_id. change 65535 with (Z.ones 16). rewrite Z.land_ones by lia.
  change (2 ^ 16) with 65536. rewrite Z.mod_mod_divide by done.
  unfold id_modulus. rewrite <-Z.add_assoc. rewrite <-(Z.mul_1_l (max + 1)) at 1.
  by rewrite Z_mod_plus_full.
Qed.
Lemma next_id_range a : 0 ≤ next_id cfg a < 65536.
Proof. unfold next_id. change 65535 with (Z.ones 16). rewrite Z.land_ones by lia. apply Z.mod_pos_bound. lia. Qed.

Lemma tables_nodup b f ba br : Tables b f ba br → NoDup (map low (f ++ used ba)).
Proof. intros []. rewrite tb_ids0. apply NoDup_seqZ. Qed.

Lemma tables_free_fresh b a f ba br : Tables b (a :: f) ba br → ba !! a = None.
Proof.
  intros H%tables_nodup. simpl in H. apply NoDup_cons in H as [H _].
  rewrite map_app, elem_of_app in H. destruct (ba !! a) as [c|] eqn:E; [|done].
  destruct H. right. apply list_elem_of_fmap. exists a. split; [done|]. apply elem_used. eauto.
Qed.

Lemma tables_weaken b f ba br : Tables None f ba br → Tables b f ba br.
Proof. intros []; constructor; auto. intros k a H. destruct (tb_remote0 k a H) as (c & E & [?|?]); eauto; done. Qed.

(** A new link takes the first free address. *)
Lemma tables_open a f ba br c :
  Tables None (a :: f) ba br → srcaddr (c_ctl c) = a → Tables (Some a) f (<[a := c]> ba) br.
Proof.
  intros H Hc. pose proof (tables_free_fresh _ _ _ _ _ H) as Hf. destruct H. constructor.
  - rewrite <-tb_ids0. apply Permutation_map. rewrite used_insert by done. by rewrite <-Permutation_middle.
  - eapply Forall_Permutation; [| |exact tb_range0]; [done|].
    simpl. rewrite used_insert by done. by rewrite Permutation_middle.
  - intros a' c' [[<- <-]|[? ?]]%lookup_insert_Some; auto.
  - intros k a' Hk. destruct (tb_remote0 k a' Hk) as (c' & E & [?|Hs]); [done|].
    exists c'. split; [|auto]. rewrite lookup_insert_ne; [done|]. intros ->. congruence.
Qed.

(** A link files its remote address. *)
Lemma tables_file a f ba br c k :
  Tables (Some a) f ba br → ba !! a = Some c → Tables (Some a) f ba (<[k := a]> br).
Proof.
  intros [] Hc. constructor; auto.
  intros k' a' [[<- <-]|[? ?]]%lookup_insert_Some; [eauto|by apply tb_remote0].
Qed.

(** A link changes, its ends apart. *)
Lemma tables_change b b' a f ba br c c' :
  Tables b f ba br → ba !! a = Some c → srcaddr (c_ctl c') = a → (b = None ∨ b = Some a) →
  (∀ k, br !! k = Some a → b' = Some a ∨ Settled k c') →
  Tables b' f (<[a := c']> ba) br.
Proof.
  intros [] Hc Hs Hb Hr. constructor.
  - by rewrite (used_replace _ _ _ _ Hc).
  - by rewrite (used_replace _ _ _ _ Hc).
  - intros a' c'' [[<- <-]|[? ?]]%lookup_insert_Some; auto.
  - intros k a' Hk. destruct (decide (a' = a)) as [->|Hne].
    + exists c'. rewrite lookup_insert_eq. auto.
    + rewrite lookup_insert_ne by done. destruct (tb_remote0 k a' Hk) as (c'' & E & H).
      exists c''. split; [done|]. destruct H as [->|]; [|auto]. destruct Hb; congruence.
Qed.

(** A link goes, its address to the back of the queue. *)
Lemma tables_close a f ba br c :
  (modulus | 65536) → 0 < modulus →
  Tables None f ba br → ba !! a = Some c →
  Tables None (f ++ [next_id cfg a]) (delete a ba) (delete (remote_of c) br).
Proof.
  intros Hd Hm [] Hc. pose proof (used_delete _ _ _ Hc) as Hp. constructor.
  - rewrite <-tb_ids0, Hp, <-app_assoc, !map_app. simpl. by rewrite low_next_id.
  - rewrite Hp in tb_range0. rewrite <-app_assoc. rewrite Forall_app in *. simpl in *.
    rewrite !Forall_cons in *. split; [tauto|]. split; [apply next_id_range|tauto].
  - intros a' c' [? ?]%lookup_delete_Some. auto.
  - intros k a' [Hne Hk]%lookup_delete_Some. destruct (tb_remote0 k a' Hk) as (c' & E & [?|[Hs Ho]]); [done|].
    exists c'. rewrite lookup_delete_ne; [split; [done|right; by split]|]. intros ->. congruence.
Qed.

(** ** Running links *)

Context `{!Orderly}.
Hypothesis Hd : (modulus | 65536).
Hypothesis Hm : 0 < modulus.

Definition closed_in (l : list effect) : nat := length (List.filter is_closed l).

Lemma settle_tables a c n e :
  srcaddr (c_ctl c) = a → by_addr n !! a = Some c →
  NspOk n → NspOk (settle cfg clock a c n e) ∧
    (is_closed e = false → by_addr (settle cfg clock a c n e) = by_addr n).
Proof.
  intros Hs Hc Hn. destruct e; try done. split; [|done]. simpl. unfold close_connection. rewrite Hs. simpl.
  rewrite Hc. unfold NspOk. simpl. by apply tables_close.
Qed.

Lemma settle_all a c l n :
  srcaddr (c_ctl c) = a → (closed_in l ≤ 1)%nat →
  ((closed_in l = 0)%nat ∨ True) → by_addr n !! a = Some c →
  NspOk n → NspOk (foldl (settle cfg clock a c) n l).
Proof.
  intros Hs. revert n. induction l as [|e l IH]; intros n Hl _ Hc Hn; [done|]. simpl.
  destruct (settle_tables a c n e Hs Hc Hn) as [Hn' Hk].
  unfold closed_in in *. simpl in Hl. destruct (is_closed e) eqn:Ee; simpl in Hl.
  - revert Hn'. generalize (settle cfg clock a c n e) as n'. clear -Hl. intros n' Hn'.
    assert (length (List.filter is_closed l) = 0%nat) as H0 by lia. clear Hl.
    revert n' Hn'. induction l as [|e l IH]; intros n' Hn'; [done|]. simpl in *.
    destruct (is_closed e) eqn:Ee; [done|]. apply IH; [done|]. by destruct e.
  - apply IH; auto. by rewrite Hk.
Qed.

Lemma run_link_tables {A} a c (m : M A) n :
  by_addr n !! a = Some c → srcaddr (c_ctl c) = a → Closes 1 m →
  Tables (Some a) (free_ids n) (by_addr n) (by_remote n) →
  (∀ k w, cn w = c → by_remote n !! k = Some a → SettledW k (m w).2) →
  NspOk (run_link cfg clock a c m n).
Proof.
  intros Hc Hs Hcl Hn Hset. unfold run_link. set (w0 := World c _ _ _ _).
  destruct (Hcl w0) as [Hone Hends]. assert (∀ k, by_remote n !! k = Some a → SettledW k (m w0).2) as Hk by auto.
  destruct (m w0) as [r w]. simpl in *. unfold ends in Hends. injection Hends as Hsw _.
  apply settle_all; [congruence|exact Hone|auto|simpl; apply lookup_insert_eq|].
  unfold NspOk. simpl. eapply (tables_change (Some a) None); eauto; [congruence|].
  intros k Hb. right. apply (Hk k Hb).
Qed.

Lemma on_link_tables {A} a (m : M A) n :
  Closes 1 m → (∀ k, Keeps (SettledW k) m) → NspOk n → NspOk (on_link cfg clock a m n).
Proof.
  intros Hcl Hset Hn. unfold on_link, find. destruct (by_addr n !! a) as [c|] eqn:Hc; [|done].
  apply run_link_tables; auto; [by apply (tb_addr _ _ _ _ Hn)|by apply tables_weaken|].
  intros k w <- Hk. apply Hset. destruct (tb_remote _ _ _ _ Hn _ _ Hk) as (c' & E & [?|Hs]); [done|].
  unfold SettledW. congruence.
Qed.

(** ** Opening a link *)

Lemma closes_start_outbound d : Closes 1 (start_outbound cfg clock d).
Proof. apply (closes_more 0); [|lia]. apply closes_frame. unfold start_outbound. frames. Qed.

Lemma closes_start_inbound p : Closes 1 (start_inbound cfg clock p).
Proof.
  unfold start_inbound. do 5 (apply closes_then; [apply closes_frame; frames|intros ?]).
  do 5 (apply closes_then; [apply closes_frame; frames|intros ?]). apply (closes_notify cfg clock (ConnectReceived _)).
Qed.

Lemma start_inbound_settles p w :
  SettledW (dest (c_ctl (cn w)), ConnInit.srcaddr p) (start_inbound cfg clock p w).2 ∨
    opening (state (c_ctl (cn w))) = true.
Proof.
  destruct (opening (state (c_ctl (cn w)))) eqn:Ho; [by right|left].
  unfold start_inbound. rewrite (bind_ok _ _ w tt (count con_rcv 1 w).2) by done.
  set (w1 := (count con_rcv 1 w).2). rewrite (bind_ok _ _ w1 tt (upd_ctl (with_dstaddr (ConnInit.srcaddr p)) w1).2) by done.
  set (w2 := (upd_ctl _ w1).2).
  assert (SettledW (dest (c_ctl (cn w)), ConnInit.srcaddr p) w2) as Hw by (split; [done|exact Ho]).
  revert Hw. generalize w2. change (Keeps (SettledW (dest (c_ctl (cn w)), ConnInit.srcaddr p)) 
    (set_phase cfg (ConnInit.info p);; upd_ctl (with_segsize (Z.min (ConnInit.segsize p) MSS));;
     upd_flow (with_flow (ConnInit.fcopt p));; w ← gets id; when (2 <? cphase (w_ctl w)) (ack_conn cfg);;
     set_state (Some CR);; upd_ctl (with_timer_is_retransmit false);; arm_timer conn_timeout;;
     notify cfg clock (ConnectReceived (ConnInit.payload p)))).
  apply st_opened.
Qed.

Lemma connect_tables dst d n : NspOk n → NspOk (connect cfg clock dst d n).2.
Proof.
  intros Hn. unfold connect, get_id. destruct (free_ids n) as [|a f] eqn:Ef; [done|]. cbv zeta. simpl.
  unfold NspOk in Hn. rewrite Ef in Hn.
  pose proof (tables_open a f _ _ (new_conn cfg a dst) Hn eq_refl) as Ho.
  pose proof (tables_free_fresh _ _ _ _ _ Hn) as Hf.
  apply run_link_tables; [| done | apply closes_start_outbound | |].
  - unfold note_peak_links. case_match; apply lookup_insert_eq.
  - unfold note_peak_links. by case_match.
  - intros k w _ Hk. exfalso.
    assert (by_remote n !! k = Some a) as Hk' by (revert Hk; unfold note_peak_links; by case_match).
    destruct (tb_remote _ _ _ _ Hn _ _ Hk') as (c & E & _). congruence.
Qed.

Lemma note_peak_links_tables n :
  free_ids (note_peak_links n) = free_ids n ∧ by_addr (note_peak_links n) = by_addr n ∧
  by_remote (note_peak_links n) = by_remote n.
Proof. unfold note_peak_links. by case_match. Qed.

Lemma deliver_connect_tables src p n : NspOk n → NspOk (deliver_connect cfg clock src p n).
Proof.
  intros Hn. unfold deliver_connect. destruct (by_remote n !! _) as [a|] eqn:Er.
  { apply on_link_tables; [apply closes_dispatch; apply _|intros; apply st_dispatch|done]. }
  unfold get_id. destruct (free_ids n) as [|a f] eqn:Ef.
  { destruct (encode_packet _) as [frm|]; [|exact Hn]. unfold nsp_send_to.
    destruct (has_routing cfg); exact Hn. }
  unfold NspOk in Hn. rewrite Ef in Hn. simpl.
  set (k := (src, ConnInit.srcaddr p)) in *. set (c := new_conn cfg a src).
  pose proof (tables_open a f _ _ c Hn eq_refl) as Ho.
  pose proof (tables_free_fresh _ _ _ _ _ Hn) as Hf.
  destruct (note_peak_links_tables (with_by_remote (<[k:=a]> (by_remote n))
    (with_by_addr (<[a:=c]> (by_addr n)) (with_free_ids f n)))) as (E1&E2&E3).
  apply run_link_tables; rewrite ?E1, ?E2, ?E3; simpl.
  - apply lookup_insert_eq.
  - done.
  - apply closes_start_inbound; apply _.
  - eapply tables_file; [done|apply lookup_insert_eq].
  - intros k' w Ew [[<- _]|[Hne Hk]]%lookup_insert_Some.
    + destruct (start_inbound_settles p w) as [Hs|Ho']; [by rewrite Ew in Hs|by rewrite Ew in Ho'].
    + exfalso. destruct (tb_remote _ _ _ _ Hn _ _ Hk) as (c' & E & _). congruence.
Qed.

Lemma deliver_tables src buf n : NspOk n → NspOk (deliver cfg clock src buf n).
Proof.
  intros Hn. unfold deliver. destruct (parse_frame buf) as [p|]; [|done]. cbv zeta.
  destruct p; try (apply on_link_tables; [apply closes_dispatch; apply _|intros; apply st_dispatch|exact Hn]).
  by apply deliver_connect_tables.
Qed.

(** ** Every sequence of events *)

Inductive nsp_event :=
| EConnect (dst : Z) (payload : Bytes)
| EDeliver (src : Z) (frame : Bytes)
| ETimeout (addr : Z)
| EAckTimeout (addr : Z)
| ECall (addr : Z) (a : api).

Definition nsp_step (n : nsp) (e : nsp_event) : nsp :=
  match e with
  | EConnect dst d => (connect cfg clock dst d n).2
  | EDeliver src f => deliver cfg clock src f n
  | ETimeout a => on_link cfg clock a (timeout cfg clock) n
  | EAckTimeout a => on_link cfg clock a (ack_timeout cfg) n
  | ECall a x => on_link cfg clock a (call cfg clock x) n
  end.
Definition nsp_run (n : nsp) (l : list nsp_event) : nsp := foldl nsp_step n l.

Lemma nsp_step_tables n e : NspOk n → NspOk (nsp_step n e).
Proof.
  intros Hn. destruct e; simpl.
  - by apply connect_tables.
  - by apply deliver_tables.
  - apply on_link_tables; [apply closes_timeout; apply _|intros; apply st_timeout|done].
  - apply on_link_tables; [|intros; apply st_ack_timeout|done].
    apply (closes_more 0); [|lia]. apply closes_frame. unfold ack_timeout, ack_holdoff. frames.
  - apply on_link_tables; [|intros; apply st_any_call|done].
    eapply closes_more; [apply closes_call|]. case_match; lia.
Qed.

Definition nsp_start : nsp := Nsp [] ∅ ∅ [] ∅ 0 0 [].

Lemma low_initial high : (∀ i, 0 ≤ high i ≤ 65535 / modulus) → max < modulus →
  map low (initial_ids cfg high) = seqZ 1 max ∧ Forall (λ a, 0 ≤ a < 65536) (initial_ids cfg high).
Proof.
  intros Hh Hlt. assert (∀ i, u16 (i + high i * modulus) mod modulus = i mod modulus) as Hlow.
  { intros i. unfold u16. rewrite Z.mod_mod_divide by done. by rewrite Z_mod_plus_full. }
  unfold initial_ids. rewrite map_map. split.
  - rewrite <-(map_id (seqZ 1 max)) at 2. apply map_ext_in. intros i Hi%list_elem_of_In%elem_of_seqZ.
    unfold low. rewrite Hlow. apply Z.mod_small. unfold id_modulus in *. lia.
  - apply Forall_map, Forall_forall. intros i _. unfold u16. apply Z.mod_pos_bound. lia.
Qed.

Lemma init_tables high shuffle :
  (∀ i, 0 ≤ high i ≤ 65535 / modulus) → (∀ l, shuffle l ≡ₚ l) →
  NspOk (init_ids cfg high shuffle nsp_start).
Proof.
  intros Hh Hs. destruct (low_initial high Hh) as [E1 E2]; [unfold id_modulus; lia|].
  constructor; simpl; try done.
  - unfold used. rewrite map_to_list_empty. simpl. rewrite app_nil_r, Hs, E1. done.
  - unfold used. rewrite map_to_list_empty. simpl. by rewrite app_nil_r, Hs.
Qed.

Lemma nsp_run_tables n l : NspOk n → NspOk (nsp_run n l).
Proof. revert n. induction l as [|e l IH]; intros n Hn; [done|]. by apply IH, nsp_step_tables. Qed.

(** C4: The tables of links.  When the number of link addresses plus one divides 65536,
    then after any sequence of connects, frames received, timer expiries and calls, with
    session control rejecting at most once and only an inbound connect: every address is
    either free or in use, none is lost and none is given out twice, even up to the random
    high part; a link is filed under its own address, which is a non-zero sixteen bit
    number and not free; and every entry of [by_remote] refers to a link that is still
    open, and that talks to that remote link: the pointers the table keeps never dangle. *)
Theorem link_tables high shuffle l :
  (∀ i, 0 ≤ high i ≤ 65535 / modulus) → (∀ l, shuffle l ≡ₚ l) → 0 ≤ max →
  let n := nsp_run (init_ids cfg high shuffle nsp_start) l in
  Z.of_nat (length (free_ids n) + size (by_addr n)) = max ∧
  NoDup (map low (free_ids n ++ used (by_addr n))) ∧
  (∀ a c, by_addr n !! a = Some c →
     srcaddr (c_ctl c) = a ∧ 0 < a < 65536 ∧ a ∉ free_ids n) ∧
  (∀ k a, by_remote n !! k = Some a → ∃ c, by_addr n !! a = Some c ∧ remote_of c = k).
Proof.
  intros Hh Hs H0 n. assert (NspOk n) as Hn by (apply nsp_run_tables; by apply init_tables).
  pose proof (tables_nodup _ _ _ _ Hn) as Hnd. repeat split.
  - pose proof (Permutation_length (tb_ids _ _ _ _ Hn)) as E.
    rewrite length_map, length_app, length_used, length_seqZ in E. lia.
  - done.
  - by apply (tb_addr _ _ _ _ Hn).
  - assert (low a ∈ seqZ 1 max) as Hl.
    { rewrite <-(tb_ids _ _ _ _ Hn). apply list_elem_of_fmap. exists a. split; [done|].
      apply elem_of_app. right. apply elem_used. eauto. }
    assert (0 ≤ a < 65536) as Ha.
    { pose proof (tb_range _ _ _ _ Hn) as Hr. rewrite Forall_forall in Hr. apply Hr.
      apply elem_of_app. right. apply elem_used. eauto. }
    apply elem_of_seqZ in Hl. unfold low in Hl. destruct (decide (a = 0)) as [->|]; [|lia].
    rewrite Zmod_0_l in Hl. lia.
  - pose proof (tb_range _ _ _ _ Hn) as Hr. rewrite Forall_forall in Hr. apply Hr.
    apply elem_of_app. right. apply elem_used. eauto.
  - rewrite map_app in Hnd. apply NoDup_app in Hnd as (_ & Hx & _). intros Hin.
    apply (Hx (low a)); apply list_elem_of_fmap; exists a; (split; [done|]); [done|].
    apply elem_used. eauto.
  - intros k a Hk. destruct (tb_remote _ _ _ _ Hn _ _ Hk) as (c & E & [?|[? _]]); [done|eauto].
Qed.
End Tables.

(** Session control that refuses every inbound connect. *)
Definition refuser : SessionControl := λ n _,
  match n with ConnectReceived _ => [Reject 4 []] | _ => [] end.
#[export] Instance refuser_orderly : Orderly (SC:=refuser).
Proof. intros [] w; simpl; done || lia. Qed.

Definition small_config (links : Z) : config :=
  Config links 3 f2 f1 f1 5 VER_PH4 20 4 true (λ _, false).

(** A connect out, one in that is refused, another out, and both of those hung up. *)
Definition example_events : list nsp_event :=
  [EConnect 1025 [1]; EDeliver 1030 [24; 0; 0; 5; 32; 1; 2; 180; 5; 0]; EConnect 1026 [];
   ECall 16385 (Disconnect 0 []); ETimeout 16385].

Lemma link_tables_witness :
  let n := nsp_run (SC:=refuser) (small_config 3) (λ _, 1000)
             (init_ids (small_config 3) (λ i, 4096 * (i mod 4)) id nsp_start) example_events in
  Z.of_nat (length (free_ids n) + size (by_addr n)) = 3 ∧ NoDup (map (low (small_config 3)) (free_ids n ++ used (by_addr n))).
Proof.
  destruct (link_tables (SC:=refuser) (small_config 3) (λ _, 1000) ltac:(exists 16384; reflexivity) ltac:(done)
    (λ i, 4096 * (i mod 4)) id example_events) as (E & Hn & _).
  - intros i. pose proof (Z.mod_pos_bound i 4). change (65535 / _) with 16383. lia.
  - done.
  - done.
  - split; [exact E|exact Hn].
Defined.

(** Addresses that collide.  Nothing checks that the number of link addresses plus one
      divides 65536, and when it does not the random high part wraps into the low part.  With
      two addresses, draws that [init_ids] allows give both links the address 1: the second
      connect destroys the first link, whose object session control still holds. *)
Theorem link_address_collision :
  let cfg := small_config 2 in
  let high i := if i =? 1 then 0 else 65535 / id_modulus cfg in
  let n := init_ids cfg high id nsp_start in
  let '(a, n1) := connect cfg (λ _, 1000) 1025 [1] n in
  let '(b, n2) := connect cfg (λ _, 1000) 1026 [1] n1 in
  a = Some 1 ∧ b = Some 1 ∧ size (by_addr n2) = 1%nat ∧
  dest ∘ c_ctl <$> find 1 n2 = Some 1026 ∧ closed_ n2 = [].
Proof. vm_compute. repeat split. Qed.

(** No room.  When every address is in use, a connect initiate for a new link changes
      no table and makes no link: the peer is sent a disconnect confirm that says there are
      no resources, which it reads back as such. *)
Theorem connect_no_room cfg clock `{SC : SessionControl} src p n :
  has_routing cfg = true → free_ids n = [] → fits 2 (ConnInit.srcaddr p) →
  by_remote n !! (src, ConnInit.srcaddr p) = None →
  let n' := deliver_connect cfg clock src p n in
  (free_ids n', by_addr n', by_remote n', closed_ n') = (free_ids n, by_addr n, by_remote n, closed_ n) ∧
  ∃ f, outputs n' = outputs n ++ [ToNode src f] ∧
    parse_frame f = Some (PDiscConf (DiscConf.mk DiscConf.flag (ConnInit.srcaddr p) 0 NO_RESOURCES)).
Proof.
  intros Hr Hf Hs Hb. unfold deliver_connect, get_id. rewrite Hb, Hf.
  set (dc := PDiscConf _). destruct (parse_encode dc) as (f & E & _ & Hp).
  { simpl. split_and!; try done; unfold fits; lia. }
  rewrite E. unfold nsp_send_to. rewrite Hr. simpl. split; [by rewrite Hf|]. exists f. split; [done|exact Hp].
Qed.

Lemma connect_no_room_witness :
  ∃ f, outputs (deliver_connect (SC:=refuser) (small_config 0) (λ _, 1000) 1030
                  (ConnInit.mk ConnInit.flag 0 8197 1 0 0 2 1459 []) nsp_start) =
       [ToNode 1030 f] ∧ len f = 7.
Proof.
  destruct (connect_no_room (small_config 0) (λ _, 1000) (SC:=refuser) 1030
    (ConnInit.mk ConnInit.flag 0 8197 1 0 0 2 1459 []) nsp_start) as (_ & f & E & _);
    [done|done|unfold fits; simpl; lia|done|].
  exists f. split; [exact E|]. vm_compute in E. injection E as <-. reflexivity.
Defined.
