(* ===== verification/SessionNode.v ===== *)
(** Session control and NSP together: what session control answers a link is
    the answer NSP's theorems leave open, and what NSP tells it is its input. *)

From S2P Require Import Prelude Buffer Modulo Types Codec Layout Indexed NspPackets Float Connection ConnLaws ConnSend ConnReceive ConnTransmit ConnWindow ConnFlow Nsp NspTables NspLinks SessionPackets Session SessionLaws.
#[local] Open Scope Z_scope.

(** ** A session never throws *)

(** An outcome that [catch (const DecodeError &)] deals with. *)
Definition tame {A} (r : result A) : Prop := match r with Ok _ => True | Throw e => is_decode_error e = true end.
Lemma tame_bind {A B} (r : result A) (f : A → result B) : tame r → (∀ a, tame (f a)) → tame (r ≫= f).
Proof. by destruct r; simpl; auto. Qed.
Lemma tame_rethrow {A} e (r : result A) : is_decode_error e = true → tame r → tame (rethrow e r).
Proof. intros He. destruct r as [|e']; simpl; [done|]. by intros ->. Qed.
Lemma tame_if {A} (b : bool) (r s : result A) : tame r → tame s → tame (if b then r else s).
Proof. by destruct b. Qed.
Lemma tame_need n d : tame (Decoder.need n d).
Proof. unfold Decoder.need. by case_match. Qed.
Lemma tame_byte d : tame (Decoder.byte d).
Proof. unfold Decoder.byte. apply tame_bind; [apply tame_need|]. by destruct d. Qed.
Lemma tame_raw n d : tame (Decoder.raw n d).
Proof. unfold Decoder.raw. by apply tame_bind; [apply tame_need|]. Qed.
Lemma tame_uint n d : tame (Decoder.uint n d).
Proof. unfold Decoder.uint. by apply tame_bind; [apply tame_need|]. Qed.

Ltac tame_step := first
  [ done | apply tame_byte | apply tame_raw | apply tame_uint
  | apply tame_if | apply tame_bind; [|intros] | progress case_match ].
Ltac tame := repeat tame_step.

Lemma tame_user d : tame (user_decode d).
Proof. unfold user_decode, format_of. tame. Qed.
Lemma tame_field {P A} (c : codec A) (get : P → A) set p d : tame (c_decode c d) → tame (r_decode (field c get set) p d).
Proof. intros H. simpl. apply tame_rethrow; [done|]. apply tame_bind; [done|]. by intros []. Qed.
Lemma tame_bm {P} (bits : list (bmbit P)) p d : tame (r_decode (bm bits) p d).
Proof. simpl. tame. Qed.
Lemma tame_rows {P} (rows : list (row P)) p d : Forall (λ r, ∀ p d, tame (r_decode r p d)) rows → tame (decode_rows rows p d).
Proof. intros H. revert p d. induction H as [|r rows Hr _ IH]; intros p d; simpl; [done|]. apply tame_bind; [apply Hr|]. by intros []. Qed.
Lemma tame_get n d : tame (get_string n d).
Proof. unfold get_string. tame. Qed.
Lemma tame_parse pl : tame (parse_message pl).
Proof.
  unfold parse_message, packet_decode. apply tame_bind.
  - apply tame_bind; [|by intros []]. apply tame_rows.
    repeat constructor; intros; first [apply tame_field; first [apply tame_user|done]|apply tame_bm].
  - intros [c n]. unfold unpack. apply tame_if; [tame|]. apply tame_bind.
    + repeat first [apply tame_get|tame_step].
    + intros []. tame.
Qed.

Section Told.
Context {A : Type} `{App : Application A} (sclock : nat → Z).

(** What came of a notice. *)
Lemma told_ok c n (s : session A) : ∃ s', told sclock c n s = Ok s'.
Proof.
  destruct n as [pl|d|r d|d|d| |r d]; cbn; try by eexists.
  unfold connect_received. pose proof (tame_parse pl) as H. destruct (parse_message pl) as [cd|e]; simpl in H; [|rewrite H; eauto].
  destruct (_ ≫= o_factory) as [make|]; [|eauto]. destruct (make _); eauto.
Qed.

(** The calls of an API among some outputs. *)
Definition calls_of (l : list output) : list api := omap (λ o, match o with Calls _ a => Some a | _ => None end) l.

(** Session control, in the state [s] at the start of what NSP does, answering
    a link: it has heard all that the link's log has told it since. *)
Definition hearing (a : Z) (s : session A) (e : effect) : session A :=
  match e with Told n => attempt (told sclock a n s) s | _ => s end.
Definition answering (s : session A) : SessionControl := λ n w,
  let a := srcaddr (c_ctl (cn w)) in
  let s0 := foldl (hearing a) s (removelast (log w)) in
  calls_of (drop (length (out s0)) (out (hearing a s0 (Told n)))).
End Told.

(** ** A node *)

Section Node.
Context (cfg : config) (clock sclock : nat → Z) {A : Type} `{App : Application A}.

Record node := mkNode { n_nsp : nsp; n_session : session A }.

(** The identity of a connection is its link address.  [NNsp] is a frame, a
    timer or a call an application makes of its own accord; [NConnect] is
    [Session::connect], and [NSession] what happens to the object database. *)
Inductive node_event :=
| NNsp (e : nsp_event)
| NConnect (dst : Z) (cd : ConnectData) (a : A)
| NSession (h : @happening A).

Definition overhear (s : session A) (o : Nsp.output) : session A :=
  match o with Talk a e => hearing sclock a s e | _ => s end.
Definition node_step (nd : node) (e : node_event) : node :=
  let n := n_nsp nd in
  let s := n_session nd in
  let SC := answering sclock s in
  match e with
  | NNsp e =>
      let n' := nsp_step cfg clock (SC := SC) n e in
      mkNode n' (foldl overhear s (drop (length (outputs n)) (outputs n')))
  | NConnect dst cd a =>
      match session_connect (λ pl, (Nsp.connect cfg clock dst pl n).1) cd a s, encode_message cd with
      | Ok (Some _, s'), Ok (pl, _) => mkNode (Nsp.connect cfg clock dst pl n).2 s'
      | _, _ => nd
      end
  | NSession h => mkNode n (happen sclock s h)
  end.
Definition node_run (nd : node) (l : list node_event) : node := foldl node_step nd l.
Definition node_start (high : Z → Z) (shuffle : list Z → list Z) : node :=
  mkNode (init_ids cfg high shuffle nsp_start) new_session.

(** Applications that never reject the connects they are given. *)
Class Accepting : Prop := accepting : ∀ h sc a, rejects (hear h sc a).2 = 0%nat.

Lemma calls_of_map c k l : calls_of (l ++ map (Calls c) k) = calls_of l ++ k.
Proof. unfold calls_of. rewrite omap_app. f_equal. induction k as [|a k IH]; [done|]. simpl. f_equal. exact IH. Qed.

(** What one notice adds to the outputs of a session. *)
Lemma tell_adds c h (s : session A) : ∃ l, out (tell c h s) = out s ++ l ∧
  (calls_of l = [] ∨ ∃ v, live_ s !! c = Some v ∧ calls_of l = (hear h (l_conn v) (l_app v)).2).
Proof.
  destruct (live_ s !! c) as [v|] eqn:E.
  - rewrite (tell_some _ _ _ _ E). cbn. eexists. split; [done|]. right. exists v. split; [done|]. by apply (calls_of_map c _ [Heard c h]).
  - rewrite tell_none by done. exists []. rewrite app_nil_r. auto.
Qed.
Lemma retire_out c (s : session A) : out (retire sclock c s) = out s.
Proof. unfold retire. by destruct (live_ s !! c). Qed.

Lemma told_rejects c n (s : session A) : Accepting →
  ∃ l, out (attempt (told sclock c n s) s) = out s ++ l ∧
    (rejects (calls_of l) ≤ match n with ConnectReceived _ => 1 | _ => 0 end)%nat.
Proof.
  intros Ha.
  assert (∀ h (s : session A) k, calls_of k = [] → ∃ l, out (tell c h s) ++ k = out s ++ l ∧ rejects (calls_of l) = 0%nat) as Ht.
  { intros h s0 k Hk. destruct (tell_adds c h s0) as (l & -> & Hl). exists (l ++ k). split; [by rewrite app_assoc|].
    unfold calls_of in *. rewrite omap_app, Hk, app_nil_r. destruct Hl as [->|(v & _ & ->)]; [done|]. apply Ha. }
  assert (∀ h (s : session A), ∃ l, out (tell c h s) = out s ++ l ∧ rejects (calls_of l) = 0%nat) as Ht0.
  { intros h s0. specialize (Ht h s0 [] eq_refl). by rewrite app_nil_r in Ht. }
  destruct n as [pl|d|r d|d|d| |r d]; cbn.
  - unfold connect_received. pose proof (tame_parse pl) as H. destruct (parse_message pl) as [cd|e]; simpl in H; [|rewrite H; eexists; split; [done|exact (le_n 1)]].
    destruct (_ ≫= o_factory) as [make|]; [|eexists; split; [done|exact (le_n 1)]].
    destruct (make _) as [a|]; [|eexists; split; [done|exact (le_n 1)]]. cbv zeta. cbn [attempt].
    set (s1 := say _ _). destruct (Ht0 (HConnect (connectdata cd)) s1) as (l & -> & Hl). exists (Opened c :: l).
    split; [cbn; by rewrite <-app_assoc|]. change (calls_of (Opened c :: l)) with (calls_of l). rewrite Hl. lia.
  - unfold connect_confirmed, when_live. case_match; [|exists []; by rewrite app_nil_r]. cbn.
    destruct (Ht (HConnect d) s [LinkRunning c] eq_refl) as (k & -> & Hk). exists k. split; [done|]. by rewrite Hk.
  - unfold connect_rejected, when_live. case_match; [|exists []; by rewrite app_nil_r]. rewrite retire_out.
    destruct (Ht0 (HGone r) s) as (k & -> & Hk). exists k. split; [done|]. by rewrite Hk.
  - destruct (Ht0 (HData d) s) as (k & E & Hk). exists k. split; [exact E|]. by rewrite Hk.
  - destruct (Ht0 (HInterrupt d) s) as (k & E & Hk). exists k. split; [exact E|]. by rewrite Hk.
  - unfold run_state, when_live. case_match; [|exists []; by rewrite app_nil_r]. cbn.
    destruct (Ht HRun s [LinkRunning c] eq_refl) as (k & -> & Hk). exists k. split; [done|]. by rewrite Hk.
  - unfold disconnected, when_live. case_match; [|exists []; by rewrite app_nil_r]. rewrite retire_out.
    destruct (Ht0 (HGone r) s) as (k & -> & Hk). exists k. split; [done|]. by rewrite Hk.
Qed.

(** The session keeps NSP's assumption. *)
#[export] Instance answering_orderly (s : session A) : Accepting → Orderly (SC := answering sclock s).
Proof.
  intros Ha n w. change (on_notice n w) with (answering sclock s n w).
  assert (rejects (answering sclock s n w) ≤ match n with ConnectReceived _ => 1 | _ => 0 end)%nat as H.
  { unfold answering. set (s0 := foldl _ _ _). destruct (told_rejects (srcaddr (c_ctl (cn w))) n s0 Ha) as (l & E & Hl).
    unfold hearing. rewrite E, drop_app_length. exact Hl. }
  destruct n; lia.
Qed.

(** What holds of a session at every moment. *)
Definition SessionOk (s : session A) : Prop := DbOk s ∧ LifeOk s.
Lemma happen_ok s h : SessionOk s → SessionOk (happen sclock s h).
Proof. intros [? ?]. split; [by apply happen_db|by apply happen_life]. Qed.
Lemma overhear_ok l s : SessionOk s → SessionOk (foldl overhear s l).
Proof.
  revert s. induction l as [|o l IH]; intros s Hs; [done|]. apply IH. destruct o as [| a e |]; try done. destruct e; try done.
  by apply (happen_ok s (HTold a n)).
Qed.

Lemma connect_ok_life open cd a s o s' : SessionOk s → session_connect open cd a s = Ok (o, s') → SessionOk s'.
Proof.
  intros [Hd Hl] E. split; [|by eapply connect_life]. revert E. unfold session_connect.
  repeat case_match; intros; simplify_eq; try done; by apply (DbOk_database s).
Qed.

Context (Ha : Accepting) (Hd : (id_modulus cfg | 65536)) (Hm : 0 < id_modulus cfg).
Lemma node_step_ok nd e : NspOk cfg (n_nsp nd) ∧ SessionOk (n_session nd) →
  NspOk cfg (n_nsp (node_step nd e)) ∧ SessionOk (n_session (node_step nd e)).
Proof.
  intros [Hn Hs]. destruct e as [e|dst cd a|h]; cbn.
  - split; [|by apply overhear_ok]. apply nsp_step_tables; [by apply answering_orderly|done..].
  - destruct (session_connect _ cd a _) as [[[c|] s']|] eqn:E; [|done..].
    destruct (encode_message cd) as [[pl cd']|]; [|done]. split; [|by eapply connect_ok_life].
    apply (nsp_step_tables cfg clock (SC := answering sclock (n_session nd)) Hd Hm _ (EConnect dst pl)). done.
  - split; [done|by apply happen_ok].
Qed.
Lemma node_run_ok nd l : NspOk cfg (n_nsp nd) ∧ SessionOk (n_session nd) →
  NspOk cfg (n_nsp (node_run nd l)) ∧ SessionOk (n_session (node_run nd l)).
Proof. revert nd. induction l as [|e l IH]; intros nd H; [done|]. by apply IH, node_step_ok. Qed.
End Node.
Arguments node : clear implicits.
Arguments node_event : clear implicits.

(** C23: A node's tables. Let session control, with any applications that do not reject
    what they are given, and NSP, whose number of link addresses (max-connections and
    one more) divides 65536, run together over any sequence of frames, timers, connects
    out, calls of the applications and changes to the object database: every link
    address is free or in use, none twice, and a link is filed under its own; the
    lookups by number and by name find exactly the registered objects; and the
    conversations session control has are those opened and not ended. *)
Theorem node_tables {A} `{App : Application A} (cfg : config) (clock sclock : nat → Z) (high : Z → Z)
    (shuffle : list Z → list Z) (l : list (node_event A)) `{!Accepting (A := A)} :
  (id_modulus cfg | 65536) → 0 < id_modulus cfg → 0 ≤ max_connections cfg →
  (∀ i, 0 ≤ high i ≤ 65535 / id_modulus cfg) → (∀ l, shuffle l ≡ₚ l) →
  let nd := node_run cfg clock sclock (node_start cfg high shuffle) l in
  let n := n_nsp nd in let s := n_session nd in
  NoDup (map (low cfg) (free_ids n ++ used (by_addr n))) ∧
  Z.of_nat (length (free_ids n) + size (by_addr n)) = max_connections cfg ∧
  (∀ a c, by_addr n !! a = Some c → srcaddr (c_ctl c) = a) ∧
  (∀ k o, find_number k s = Some o ↔ k ≠ 0 ∧ o ∈ objects_ s ∧ o_number o = k) ∧
  (∀ nm o, find_name nm s = Some o ↔ nm ≠ [] ∧ o ∈ objects_ s ∧ o_name o = upper nm) ∧
  (∀ c, lives c (out s) = Some (bool_decide (is_Some (live_ s !! c)))).
Proof.
  intros Hd Hm H0 Hh Hs nd n s. assert (Accepting (A := A)) as Ha by apply _.
  destruct (node_run_ok cfg clock sclock Ha Hd Hm (node_start cfg high shuffle) l) as (Hn & Hdb & Hl).
  { split; [by apply init_tables|]. split; [apply new_session_ok|by intros c]. }
  split; [by eapply tables_nodup|]. split; [|split; [by apply (tb_addr _ _ _ _ _ Hn)|split; [intros; by apply find_number_spec|split; [intros; by apply find_name_spec|exact Hl]]]].
  pose proof (Permutation_length (tb_ids _ _ _ _ _ Hn)) as E. rewrite length_map, length_app, length_used, length_seqZ in E.
  unfold n, nd. lia.
Qed.

#[export] Instance mirror_accepting : Accepting (A := Mirror).
Proof. intros [d|d|d| |r] sc a; try done. destruct d; done. Qed.

(** The connect initiate that carries the message to the loopback object. *)
Definition connect_frame (addr : Z) (cd : ConnectData) : Bytes :=
  match encode_message cd with
  | Ok (pl, _) =>
      match encode_packet (PConnInit (ConnInit.mk ConnInit.flag 0 addr 1 SVC_NONE 0 VER_PH4 MSS pl)) with Ok f => f | Throw _ => [] end
  | Throw _ => []
  end.

Definition node_events : list (node_event Mirror) :=
  [NSession (HAdd 25 (txt "mirror") (Some (λ _, Some mirror)));
   NNsp (EDeliver 1030 (connect_frame 8197 ask_mirror)); NConnect 1025 ask_mirror mirror].
Lemma node_tables_witness :
  let nd := node_run (small_config 3) (λ _, 1000) (λ _, 0) (node_start (small_config 3) (λ i, 4096 * (i mod 4)) id) node_events in
  NoDup (map (low (small_config 3)) (free_ids (n_nsp nd) ++ used (by_addr (n_nsp nd)))) ∧
  size (by_addr (n_nsp nd)) = 2%nat ∧ size (live_ (n_session nd)) = 2%nat.
Proof.
  split; [|by vm_compute].
  refine (proj1 (node_tables (small_config 3) (λ _, 1000) (λ _, 0) (λ i, 4096 * (i mod 4)) id node_events _ _ _ _ _)).
  - by exists 16384.
  - done.
  - done.
  - intros i. pose proof (Z.mod_pos_bound i 4). change (65535 / _) with 16383. lia.
  - done.
Defined.

(** ** A conversation nobody ends *)

(** An application that rejects every connect, as the one of a configured
    program does when the program cannot be run. *)
Inductive Declined := declined.
#[export] Instance declined_app : Application Declined := {|
  app_connect _ _ a := (a, [Reject NO_OBJ []]);
  app_data _ _ a := (a, []);
  app_interrupt _ _ a := (a, []);
  app_run_state _ a := (a, []);
  app_disconnected _ _ a := (a, []);
|}.

(** A rejected conversation is never given up.  Rejecting closes the link without a
    word to session control, so a conversation whose application rejects the connect
    stays among the live ones for good: after two such connects NSP has no link left, and
    session control still has two conversations whose connections NSP has retired. *)
Theorem rejected_conversation_leaks :
  let nd := node_run (small_config 3) (λ _, 1000) (λ _, 0) (node_start (small_config 3) (λ i, 4096 * (i mod 4)) id)
    [NSession (HAdd 25 (txt "mirror") (Some (λ _, Some declined)));
     NNsp (EDeliver 1030 (connect_frame 8197 ask_mirror)); NNsp (EDeliver 1030 (connect_frame 8198 ask_mirror))] in
  by_addr (n_nsp nd) = ∅ ∧ by_remote (n_nsp nd) = ∅ ∧ length (closed_ (n_nsp nd)) = 2%nat ∧
  size (live_ (n_session nd)) = 2%nat ∧ finished_ (n_session nd) = [].
Proof. vm_compute. repeat split. Qed.
