(* ===== verification/RoutingPackets.v ===== *)
(** Routing packet formats: [include/decnet/routing/packets.h],
    [src/routing/packets.cc] and [src/routing/routing_messages.cc].

    One module per packet class with its members, its default constructor and
    its layout; the routing messages, which code themselves; then the family,
    whose lookup goes through a second level for the point to point inits (the
    version byte) and for the routing messages (the checksum residue). *)

From S2P Require Import Prelude Buffer Types Codec Layout Indexed.
#[local] Open Scope Z_scope.

(** [enum NodeTypeCode]. *)
Definition PHASE2 : Z := 0.
Definition L2ROUTER : Z := 1.
Definition L1ROUTER : Z := 2.
Definition ENDNODE : Z := 3.
Definition UNKNOWN : Z := 4.

Definition ntype_string (t : Z) : string :=
  if t =? PHASE2 then "Phase 2 node" else if t =? L2ROUTER then "Area router"
  else if t =? L1ROUTER then "L1 router" else if t =? ENDNODE then "Endnode" else "Unknown".

Definition MTU : Z := 576.
Definition INFHOPS : Z := 31.
Definition INFCOST : Z := 1023.
Definition HIORD : Bytes := [170; 0; 4; 0].
Definition HELLO_FILL : Z := 170.
Definition ETHMTU : Z := MTU + 21 - 6.

(** [hello_testdata]. *)
Definition hello_testdata (n : nat) : Bytes := replicate n HELLO_FILL.

(** ** The packet classes *)

(** The short data packet header.  [ie] and [src], the circuit it came in on, are never
    encoded. *)
Module ShortData.
Record t := mk {
  sfpd : Z;
  rqr : bool;
  rts : bool;
  vers : bool;
  pf : bool;
  dstnode : Z;
  srcnode : Z;
  visit : Z;
  payload : Bytes;
  ie : bool;
  src : option Z;
}.

Definition set_sfpd (v : Z) (p : t) : t :=
  mk v (rqr p) (rts p) (vers p) (pf p) (dstnode p) (srcnode p) (visit p) (payload p) (ie
  p) (src p).
Definition set_rqr (v : bool) (p : t) : t :=
  mk (sfpd p) v (rts p) (vers p) (pf p) (dstnode p) (srcnode p) (visit p) (payload p)
  (ie p) (src p).
Definition set_rts (v : bool) (p : t) : t :=
  mk (sfpd p) (rqr p) v (vers p) (pf p) (dstnode p) (srcnode p) (visit p) (payload p)
  (ie p) (src p).
Definition set_vers (v : bool) (p : t) : t :=
  mk (sfpd p) (rqr p) (rts p) v (pf p) (dstnode p) (srcnode p) (visit p) (payload p) (ie
  p) (src p).
Definition set_pf (v : bool) (p : t) : t :=
  mk (sfpd p) (rqr p) (rts p) (vers p) v (dstnode p) (srcnode p) (visit p) (payload p)
  (ie p) (src p).
Definition set_dstnode (v : Z) (p : t) : t :=
  mk (sfpd p) (rqr p) (rts p) (vers p) (pf p) v (srcnode p) (visit p) (payload p) (ie p)
  (src p).
Definition set_srcnode (v : Z) (p : t) : t :=
  mk (sfpd p) (rqr p) (rts p) (vers p) (pf p) (dstnode p) v (visit p) (payload p) (ie p)
  (src p).
Definition set_visit (v : Z) (p : t) : t :=
  mk (sfpd p) (rqr p) (rts p) (vers p) (pf p) (dstnode p) (srcnode p) v (payload p) (ie
  p) (src p).
Definition set_payload (v : Bytes) (p : t) : t :=
  mk (sfpd p) (rqr p) (rts p) (vers p) (pf p) (dstnode p) (srcnode p) (visit p) v (ie p)
  (src p).
Definition set_ie (v : bool) (p : t) : t :=
  mk (sfpd p) (rqr p) (rts p) (vers p) (pf p) (dstnode p) (srcnode p) (visit p) (payload
  p) v (src p).
Definition set_src (v : option Z) (p : t) : t :=
  mk (sfpd p) (rqr p) (rts p) (vers p) (pf p) (dstnode p) (srcnode p) (visit p) (payload
  p) (ie p) v.
(** The default constructor. *)
Definition new : t := mk 2 false false false false 0 0 0 [] false None.
Definition policy : Extra := allow.
Definition layout : list (row t) :=
  [bm [bmf sfpd (λ v, set_sfpd (u8 v)) 0 3; bmf (λ p, of_bool (rqr p)) (λ v, set_rqr (to_bool v)) 3 1; bmf (λ p, of_bool (rts p)) (λ v, set_rts (to_bool v)) 4 1;
       bmf (λ p, of_bool (vers p)) (λ v, set_vers (to_bool v)) 6 1; bmf (λ p, of_bool (pf p)) (λ v, set_pf (to_bool v)) 7 1];
   field NodeidField dstnode set_dstnode;
   field NodeidField srcnode set_srcnode;
   bm [bmf visit (λ v, set_visit (u8 v)) 0 6];
   field Payload payload set_payload].
End ShortData.

(** The long data packet header, the form used on Ethernet. *)
Module LongData.
Record t := mk {
  lfpd : Z;
  rqr : bool;
  rts : bool;
  ie : bool;
  vers : bool;
  pf : bool;
  dsthi : Bytes;
  dstnode : Z;
  srchi : Bytes;
  srcnode : Z;
  visit : Z;
  payload : Bytes;
}.

Definition set_lfpd (v : Z) (p : t) : t :=
  mk v (rqr p) (rts p) (ie p) (vers p) (pf p) (dsthi p) (dstnode p) (srchi p) (srcnode
  p) (visit p) (payload p).
Definition set_rqr (v : bool) (p : t) : t :=
  mk (lfpd p) v (rts p) (ie p) (vers p) (pf p) (dsthi p) (dstnode p) (srchi p) (srcnode
  p) (visit p) (payload p).
Definition set_rts (v : bool) (p : t) : t :=
  mk (lfpd p) (rqr p) v (ie p) (vers p) (pf p) (dsthi p) (dstnode p) (srchi p) (srcnode
  p) (visit p) (payload p).
Definition set_ie (v : bool) (p : t) : t :=
  mk (lfpd p) (rqr p) (rts p) v (vers p) (pf p) (dsthi p) (dstnode p) (srchi p) (srcnode
  p) (visit p) (payload p).
Definition set_vers (v : bool) (p : t) : t :=
  mk (lfpd p) (rqr p) (rts p) (ie p) v (pf p) (dsthi p) (dstnode p) (srchi p) (srcnode
  p) (visit p) (payload p).
Definition set_pf (v : bool) (p : t) : t :=
  mk (lfpd p) (rqr p) (rts p) (ie p) (vers p) v (dsthi p) (dstnode p) (srchi p) (srcnode
  p) (visit p) (payload p).
Definition set_dsthi (v : Bytes) (p : t) : t :=
  mk (lfpd p) (rqr p) (rts p) (ie p) (vers p) (pf p) v (dstnode p) (srchi p) (srcnode p)
  (visit p) (payload p).
Definition set_dstnode (v : Z) (p : t) : t :=
  mk (lfpd p) (rqr p) (rts p) (ie p) (vers p) (pf p) (dsthi p) v (srchi p) (srcnode p)
  (visit p) (payload p).
Definition set_srchi (v : Bytes) (p : t) : t :=
  mk (lfpd p) (rqr p) (rts p) (ie p) (vers p) (pf p) (dsthi p) (dstnode p) v (srcnode p)
  (visit p) (payload p).
Definition set_srcnode (v : Z) (p : t) : t :=
  mk (lfpd p) (rqr p) (rts p) (ie p) (vers p) (pf p) (dsthi p) (dstnode p) (srchi p) v
  (visit p) (payload p).
Definition set_visit (v : Z) (p : t) : t :=
  mk (lfpd p) (rqr p) (rts p) (ie p) (vers p) (pf p) (dsthi p) (dstnode p) (srchi p)
  (srcnode p) v (payload p).
Definition set_payload (v : Bytes) (p : t) : t :=
  mk (lfpd p) (rqr p) (rts p) (ie p) (vers p) (pf p) (dsthi p) (dstnode p) (srchi p)
  (srcnode p) (visit p) v.
(** The default constructor. *)
Definition new : t := mk 6 false false false false false HIORD 0 HIORD 0 0 [].
Definition policy : Extra := allow.
Definition layout : list (row t) :=
  [bm [bmf lfpd (λ v, set_lfpd (u8 v)) 0 3; bmf (λ p, of_bool (rqr p)) (λ v, set_rqr (to_bool v)) 3 1; bmf (λ p, of_bool (rts p)) (λ v, set_rts (to_bool v)) 4 1;
       bmf (λ p, of_bool (ie p)) (λ v, set_ie (to_bool v)) 5 1; bmf (λ p, of_bool (vers p)) (λ v, set_vers (to_bool v)) 6 1; bmf (λ p, of_bool (pf p)) (λ v, set_pf (to_bool v)) 7 1];
   reserved 2;
   field (BV 4) dsthi set_dsthi;
   field NodeidField dstnode set_dstnode;
   reserved 2;
   field (BV 4) srchi set_srchi;
   field NodeidField srcnode set_srcnode;
   reserved 1;
   field (B 1) visit set_visit;
   reserved 2;
   field Payload payload set_payload].
End LongData.

(** Phase IV point to point init. *)
Module PtpInit.
Record t := mk {
  control : bool;
  type : Z;
  ext_type : Z;
  pf : bool;
  srcnode : Z;
  ntype : Z;
  verif : bool;
  blo : bool;
  blksize : Z;
  tiver : Version;
  timer : Z;
  reserved_ : Bytes;
}.

Definition set_control (v : bool) (p : t) : t :=
  mk v (type p) (ext_type p) (pf p) (srcnode p) (ntype p) (verif p) (blo p) (blksize p)
  (tiver p) (timer p) (reserved_ p).
Definition set_type (v : Z) (p : t) : t :=
  mk (control p) v (ext_type p) (pf p) (srcnode p) (ntype p) (verif p) (blo p) (blksize
  p) (tiver p) (timer p) (reserved_ p).
Definition set_ext_type (v : Z) (p : t) : t :=
  mk (control p) (type p) v (pf p) (srcnode p) (ntype p) (verif p) (blo p) (blksize p)
  (tiver p) (timer p) (reserved_ p).
Definition set_pf (v : bool) (p : t) : t :=
  mk (control p) (type p) (ext_type p) v (srcnode p) (ntype p) (verif p) (blo p)
  (blksize p) (tiver p) (timer p) (reserved_ p).
Definition set_srcnode (v : Z) (p : t) : t :=
  mk (control p) (type p) (ext_type p) (pf p) v (ntype p) (verif p) (blo p) (blksize p)
  (tiver p) (timer p) (reserved_ p).
Definition set_ntype (v : Z) (p : t) : t :=
  mk (control p) (type p) (ext_type p) (pf p) (srcnode p) v (verif p) (blo p) (blksize
  p) (tiver p) (timer p) (reserved_ p).
Definition set_verif (v : bool) (p : t) : t :=
  mk (control p) (type p) (ext_type p) (pf p) (srcnode p) (ntype p) v (blo p) (blksize
  p) (tiver p) (timer p) (reserved_ p).
Definition set_blo (v : bool) (p : t) : t :=
  mk (control p) (type p) (ext_type p) (pf p) (srcnode p) (ntype p) (verif p) v (blksize
  p) (tiver p) (timer p) (reserved_ p).
Definition set_blksize (v : Z) (p : t) : t :=
  mk (control p) (type p) (ext_type p) (pf p) (srcnode p) (ntype p) (verif p) (blo p) v
  (tiver p) (timer p) (reserved_ p).
Definition set_tiver (v : Version) (p : t) : t :=
  mk (control p) (type p) (ext_type p) (pf p) (srcnode p) (ntype p) (verif p) (blo p)
  (blksize p) v (timer p) (reserved_ p).
Definition set_timer (v : Z) (p : t) : t :=
  mk (control p) (type p) (ext_type p) (pf p) (srcnode p) (ntype p) (verif p) (blo p)
  (blksize p) (tiver p) v (reserved_ p).
Definition set_reserved_ (v : Bytes) (p : t) : t :=
  mk (control p) (type p) (ext_type p) (pf p) (srcnode p) (ntype p) (verif p) (blo p)
  (blksize p) (tiver p) (timer p) v.
(** The default constructor. *)
Definition new : t := mk true 0 0 false 0 0 false false MTU tiver_ph4 0 [].
Definition check (p : t) : bool := negb (Nodeid.tid (srcnode p) =? 0).
Definition policy : Extra := reject.
Definition layout : list (row t) :=
  [bm [bmf (λ p, of_bool (control p)) (λ v, set_control (to_bool v)) 0 1; bmf type (λ v, set_type (u8 v)) 1 3;
       bmf ext_type (λ v, set_ext_type (u8 v)) 4 3; bmf (λ p, of_bool (pf p)) (λ v, set_pf (to_bool v)) 7 1];
   field NodeidField srcnode set_srcnode;
   bm [bmf ntype (λ v, set_ntype (u8 v)) 0 2; bmf (λ p, of_bool (verif p)) (λ v, set_verif (to_bool v)) 2 1; bmf (λ p, of_bool (blo p)) (λ v, set_blo (to_bool v)) 3 1];
   field (B 2) blksize set_blksize;
   field VersionField tiver set_tiver;
   field (B 2) timer set_timer;
   field (I 64) reserved_ set_reserved_].
End PtpInit.

(** Phase III point to point init: no hello timer. *)
Module PtpInit3.
Record t := mk {
  control : bool;
  type : Z;
  ext_type : Z;
  pf : bool;
  srcnode : Z;
  ntype : Z;
  verif : bool;
  blo : bool;
  blksize : Z;
  tiver : Version;
  reserved_ : Bytes;
}.

Definition set_control (v : bool) (p : t) : t :=
  mk v (type p) (ext_type p) (pf p) (srcnode p) (ntype p) (verif p) (blo p) (blksize p)
  (tiver p) (reserved_ p).
Definition set_type (v : Z) (p : t) : t :=
  mk (control p) v (ext_type p) (pf p) (srcnode p) (ntype p) (verif p) (blo p) (blksize
  p) (tiver p) (reserved_ p).
Definition set_ext_type (v : Z) (p : t) : t :=
  mk (control p) (type p) v (pf p) (srcnode p) (ntype p) (verif p) (blo p) (blksize p)
  (tiver p) (reserved_ p).
Definition set_pf (v : bool) (p : t) : t :=
  mk (control p) (type p) (ext_type p) v (srcnode p) (ntype p) (verif p) (blo p)
  (blksize p) (tiver p) (reserved_ p).
Definition set_srcnode (v : Z) (p : t) : t :=
  mk (control p) (type p) (ext_type p) (pf p) v (ntype p) (verif p) (blo p) (blksize p)
  (tiver p) (reserved_ p).
Definition set_ntype (v : Z) (p : t) : t :=
  mk (control p) (type p) (ext_type p) (pf p) (srcnode p) v (verif p) (blo p) (blksize
  p) (tiver p) (reserved_ p).
Definition set_verif (v : bool) (p : t) : t :=
  mk (control p) (type p) (ext_type p) (pf p) (srcnode p) (ntype p) v (blo p) (blksize
  p) (tiver p) (reserved_ p).
Definition set_blo (v : bool) (p : t) : t :=
  mk (control p) (type p) (ext_type p) (pf p) (srcnode p) (ntype p) (verif p) v (blksize
  p) (tiver p) (reserved_ p).
Definition set_blksize (v : Z) (p : t) : t :=
  mk (control p) (type p) (ext_type p) (pf p) (srcnode p) (ntype p) (verif p) (blo p) v
  (tiver p) (reserved_ p).
Definition set_tiver (v : Version) (p : t) : t :=
  mk (control p) (type p) (ext_type p) (pf p) (srcnode p) (ntype p) (verif p) (blo p)
  (blksize p) v (reserved_ p).
Definition set_reserved_ (v : Bytes) (p : t) : t :=
  mk (control p) (type p) (ext_type p) (pf p) (srcnode p) (ntype p) (verif p) (blo p)
  (blksize p) (tiver p) v.
(** The default constructor. *)
Definition new : t := mk true 0 0 false 0 0 false false MTU tiver_ph3 [].
Definition check (p : t) : bool := (1 <=? srcnode p) && (srcnode p <=? 255).
Definition policy : Extra := reject.
Definition layout : list (row t) :=
  [bm [bmf (λ p, of_bool (control p)) (λ v, set_control (to_bool v)) 0 1; bmf type (λ v, set_type (u8 v)) 1 3;
       bmf ext_type (λ v, set_ext_type (u8 v)) 4 3; bmf (λ p, of_bool (pf p)) (λ v, set_pf (to_bool v)) 7 1];
   field NodeidField srcnode set_srcnode;
   bm [bmf ntype (λ v, set_ntype (u8 v)) 0 2; bmf (λ p, of_bool (verif p)) (λ v, set_verif (to_bool v)) 2 1; bmf (λ p, of_bool (blo p)) (λ v, set_blo (to_bool v)) 3 1];
   field (B 2) blksize set_blksize;
   field VersionField tiver set_tiver;
   field (I 64) reserved_ set_reserved_].
End PtpInit3.

(** The verification message. *)
Module PtpVerify.
Record t := mk {
  control : bool;
  type : Z;
  ext_type : Z;
  pf : bool;
  srcnode : Z;
  fcnval : Bytes;
}.

Definition set_control (v : bool) (p : t) : t :=
  mk v (type p) (ext_type p) (pf p) (srcnode p) (fcnval p).
Definition set_type (v : Z) (p : t) : t :=
  mk (control p) v (ext_type p) (pf p) (srcnode p) (fcnval p).
Definition set_ext_type (v : Z) (p : t) : t :=
  mk (control p) (type p) v (pf p) (srcnode p) (fcnval p).
Definition set_pf (v : bool) (p : t) : t :=
  mk (control p) (type p) (ext_type p) v (srcnode p) (fcnval p).
Definition set_srcnode (v : Z) (p : t) : t :=
  mk (control p) (type p) (ext_type p) (pf p) v (fcnval p).
Definition set_fcnval (v : Bytes) (p : t) : t :=
  mk (control p) (type p) (ext_type p) (pf p) (srcnode p) v.
(** The default constructor. *)
Definition new : t := mk true 1 0 false 0 [].
Definition policy : Extra := reject.
Definition layout : list (row t) :=
  [bm [bmf (λ p, of_bool (control p)) (λ v, set_control (to_bool v)) 0 1; bmf type (λ v, set_type (u8 v)) 1 3;
       bmf ext_type (λ v, set_ext_type (u8 v)) 4 3; bmf (λ p, of_bool (pf p)) (λ v, set_pf (to_bool v)) 7 1];
   field NodeidField srcnode set_srcnode;
   field (I 64) fcnval set_fcnval].
End PtpVerify.

(** Point to point hello. *)
Module PtpHello.
Record t := mk {
  control : bool;
  type : Z;
  ext_type : Z;
  pf : bool;
  srcnode : Z;
  testdata : Bytes;
}.

Definition set_control (v : bool) (p : t) : t :=
  mk v (type p) (ext_type p) (pf p) (srcnode p) (testdata p).
Definition set_type (v : Z) (p : t) : t :=
  mk (control p) v (ext_type p) (pf p) (srcnode p) (testdata p).
Definition set_ext_type (v : Z) (p : t) : t :=
  mk (control p) (type p) v (pf p) (srcnode p) (testdata p).
Definition set_pf (v : bool) (p : t) : t :=
  mk (control p) (type p) (ext_type p) v (srcnode p) (testdata p).
Definition set_srcnode (v : Z) (p : t) : t :=
  mk (control p) (type p) (ext_type p) (pf p) v (testdata p).
Definition set_testdata (v : Bytes) (p : t) : t :=
  mk (control p) (type p) (ext_type p) (pf p) (srcnode p) v.
(** The default constructor. *)
Definition new : t := mk true 2 0 false 0 [].
Definition testdata_valid (p : t) : bool := forallb (λ b, b =? HELLO_FILL) (testdata p).
Definition policy : Extra := reject.
Definition layout : list (row t) :=
  [bm [bmf (λ p, of_bool (control p)) (λ v, set_control (to_bool v)) 0 1; bmf type (λ v, set_type (u8 v)) 1 3;
       bmf ext_type (λ v, set_ext_type (u8 v)) 4 3; bmf (λ p, of_bool (pf p)) (λ v, set_pf (to_bool v)) 7 1];
   field NodeidField srcnode set_srcnode;
   field (I 128) testdata set_testdata].
End PtpHello.

(** NOP, the hello of Phase II. *)
Module NopMsg.
Record t := mk {
  flags : Z;
  payload : Bytes;
}.

Definition set_flags (v : Z) (p : t) : t :=
  mk v (payload p).
Definition set_payload (v : Bytes) (p : t) : t :=
  mk (flags p) v.
(** The default constructor. *)
Definition new : t := mk 8 [].
Definition policy : Extra := allow.
Definition layout : list (row t) :=
  [field (B 1) flags set_flags;
   field Payload payload set_payload].
End NopMsg.

(** Router hello. *)
Module RouterHello.
Record t := mk {
  control : bool;
  type : Z;
  ext_type : Z;
  pf : bool;
  tiver : Version;
  hiid : Bytes;
  ident : Z;
  ntype : Z;
  blksize : Z;
  prio : Z;
  timer : Z;
  elist : Bytes;
}.

Definition set_control (v : bool) (p : t) : t :=
  mk v (type p) (ext_type p) (pf p) (tiver p) (hiid p) (ident p) (ntype p) (blksize p)
  (prio p) (timer p) (elist p).
Definition set_type (v : Z) (p : t) : t :=
  mk (control p) v (ext_type p) (pf p) (tiver p) (hiid p) (ident p) (ntype p) (blksize
  p) (prio p) (timer p) (elist p).
Definition set_ext_type (v : Z) (p : t) : t :=
  mk (control p) (type p) v (pf p) (tiver p) (hiid p) (ident p) (ntype p) (blksize p)
  (prio p) (timer p) (elist p).
Definition set_pf (v : bool) (p : t) : t :=
  mk (control p) (type p) (ext_type p) v (tiver p) (hiid p) (ident p) (ntype p) (blksize
  p) (prio p) (timer p) (elist p).
Definition set_tiver (v : Version) (p : t) : t :=
  mk (control p) (type p) (ext_type p) (pf p) v (hiid p) (ident p) (ntype p) (blksize p)
  (prio p) (timer p) (elist p).
Definition set_hiid (v : Bytes) (p : t) : t :=
  mk (control p) (type p) (ext_type p) (pf p) (tiver p) v (ident p) (ntype p) (blksize
  p) (prio p) (timer p) (elist p).
Definition set_ident (v : Z) (p : t) : t :=
  mk (control p) (type p) (ext_type p) (pf p) (tiver p) (hiid p) v (ntype p) (blksize p)
  (prio p) (timer p) (elist p).
Definition set_ntype (v : Z) (p : t) : t :=
  mk (control p) (type p) (ext_type p) (pf p) (tiver p) (hiid p) (ident p) v (blksize p)
  (prio p) (timer p) (elist p).
Definition set_blksize (v : Z) (p : t) : t :=
  mk (control p) (type p) (ext_type p) (pf p) (tiver p) (hiid p) (ident p) (ntype p) v
  (prio p) (timer p) (elist p).
Definition set_prio (v : Z) (p : t) : t :=
  mk (control p) (type p) (ext_type p) (pf p) (tiver p) (hiid p) (ident p) (ntype p)
  (blksize p) v (timer p) (elist p).
Definition set_timer (v : Z) (p : t) : t :=
  mk (control p) (type p) (ext_type p) (pf p) (tiver p) (hiid p) (ident p) (ntype p)
  (blksize p) (prio p) v (elist p).
Definition set_elist (v : Bytes) (p : t) : t :=
  mk (control p) (type p) (ext_type p) (pf p) (tiver p) (hiid p) (ident p) (ntype p)
  (blksize p) (prio p) (timer p) v.
(** The default constructor. *)
Definition new : t := mk true 5 0 false tiver_ph4 HIORD 0 0 0 0 0 [].
Definition ntype_l2 : Z := 1.
Definition ntype_l1 : Z := 2.
Definition policy : Extra := reject.
Definition layout : list (row t) :=
  [bm [bmf (λ p, of_bool (control p)) (λ v, set_control (to_bool v)) 0 1; bmf type (λ v, set_type (u8 v)) 1 3;
       bmf ext_type (λ v, set_ext_type (u8 v)) 4 3; bmf (λ p, of_bool (pf p)) (λ v, set_pf (to_bool v)) 7 1];
   field VersionField tiver set_tiver;
   field (BV 4) hiid set_hiid;
   field NodeidField ident set_ident;
   bm [bmf ntype (λ v, set_ntype (u8 v)) 0 2];
   field (B 2) blksize set_blksize;
   field (B 1) prio set_prio;
   reserved 1;
   field (B 2) timer set_timer;
   reserved 1;
   field (I 244) elist set_elist].
End RouterHello.

(** The body of the elist field. *)
Module Elist.
Record t := mk {
  rslist : Bytes;
}.

Definition set_rslist (v : Bytes) (p : t) : t :=
  mk v.
(** The default constructor. *)
Definition new : t := mk [].
Definition policy : Extra := reject.
Definition layout : list (row t) :=
  [reserved 7;
   field (I 236) rslist set_rslist].
End Elist.

(** One router list entry: address, priority and two-way flag. *)
Module RSent.
Record t := mk {
  hiid : Bytes;
  router : Z;
  prio : Z;
  twoway : bool;
}.

Definition set_hiid (v : Bytes) (p : t) : t :=
  mk v (router p) (prio p) (twoway p).
Definition set_router (v : Z) (p : t) : t :=
  mk (hiid p) v (prio p) (twoway p).
Definition set_prio (v : Z) (p : t) : t :=
  mk (hiid p) (router p) v (twoway p).
Definition set_twoway (v : bool) (p : t) : t :=
  mk (hiid p) (router p) (prio p) v.
(** The default constructor. *)
Definition new : t := mk HIORD 0 0 false.
Definition wire_size : nat := 7.
Definition policy : Extra := reject.
Definition layout : list (row t) :=
  [field (BV 4) hiid set_hiid;
   field NodeidField router set_router;
   bm [bmf prio (λ v, set_prio (u8 v)) 0 7; bmf (λ p, of_bool (twoway p)) (λ v, set_twoway (to_bool v)) 7 1]].
End RSent.

(** An endnode's hello. *)
Module EndnodeHello.
Record t := mk {
  control : bool;
  type : Z;
  ext_type : Z;
  pf : bool;
  tiver : Version;
  hiid : Bytes;
  ident : Z;
  ntype : Z;
  blksize : Z;
  neighbor : Bytes;
  timer : Z;
  testdata : Bytes;
}.

Definition set_control (v : bool) (p : t) : t :=
  mk v (type p) (ext_type p) (pf p) (tiver p) (hiid p) (ident p) (ntype p) (blksize p)
  (neighbor p) (timer p) (testdata p).
Definition set_type (v : Z) (p : t) : t :=
  mk (control p) v (ext_type p) (pf p) (tiver p) (hiid p) (ident p) (ntype p) (blksize
  p) (neighbor p) (timer p) (testdata p).
Definition set_ext_type (v : Z) (p : t) : t :=
  mk (control p) (type p) v (pf p) (tiver p) (hiid p) (ident p) (ntype p) (blksize p)
  (neighbor p) (timer p) (testdata p).
Definition set_pf (v : bool) (p : t) : t :=
  mk (control p) (type p) (ext_type p) v (tiver p) (hiid p) (ident p) (ntype p) (blksize
  p) (neighbor p) (timer p) (testdata p).
Definition set_tiver (v : Version) (p : t) : t :=
  mk (control p) (type p) (ext_type p) (pf p) v (hiid p) (ident p) (ntype p) (blksize p)
  (neighbor p) (timer p) (testdata p).
Definition set_hiid (v : Bytes) (p : t) : t :=
  mk (control p) (type p) (ext_type p) (pf p) (tiver p) v (ident p) (ntype p) (blksize
  p) (neighbor p) (timer p) (testdata p).
Definition set_ident (v : Z) (p : t) : t :=
  mk (control p) (type p) (ext_type p) (pf p) (tiver p) (hiid p) v (ntype p) (blksize p)
  (neighbor p) (timer p) (testdata p).
Definition set_ntype (v : Z) (p : t) : t :=
  mk (control p) (type p) (ext_type p) (pf p) (tiver p) (hiid p) (ident p) v (blksize p)
  (neighbor p) (timer p) (testdata p).
Definition set_blksize (v : Z) (p : t) : t :=
  mk (control p) (type p) (ext_type p) (pf p) (tiver p) (hiid p) (ident p) (ntype p) v
  (neighbor p) (timer p) (testdata p).
Definition set_neighbor (v : Bytes) (p : t) : t :=
  mk (control p) (type p) (ext_type p) (pf p) (tiver p) (hiid p) (ident p) (ntype p)
  (blksize p) v (timer p) (testdata p).
Definition set_timer (v : Z) (p : t) : t :=
  mk (control p) (type p) (ext_type p) (pf p) (tiver p) (hiid p) (ident p) (ntype p)
  (blksize p) (neighbor p) v (testdata p).
Definition set_testdata (v : Bytes) (p : t) : t :=
  mk (control p) (type p) (ext_type p) (pf p) (tiver p) (hiid p) (ident p) (ntype p)
  (blksize p) (neighbor p) (timer p) v.
(** The default constructor. *)
Definition new : t := mk true 6 0 false tiver_ph4 HIORD 0 ENDNODE 0 [] 0 [].
Definition policy : Extra := reject.
Definition layout : list (row t) :=
  [bm [bmf (λ p, of_bool (control p)) (λ v, set_control (to_bool v)) 0 1; bmf type (λ v, set_type (u8 v)) 1 3;
       bmf ext_type (λ v, set_ext_type (u8 v)) 4 3; bmf (λ p, of_bool (pf p)) (λ v, set_pf (to_bool v)) 7 1];
   field VersionField tiver set_tiver;
   field (BV 4) hiid set_hiid;
   field NodeidField ident set_ident;
   bm [bmf ntype (λ v, set_ntype (u8 v)) 0 2];
   field (B 2) blksize set_blksize;
   reserved 9;
   field (BV 6) neighbor set_neighbor;
   field (B 2) timer set_timer;
   reserved 1;
   field (I 128) testdata set_testdata].
End EndnodeHello.
(** ** Routing messages: [routing_messages.cc] *)

Definition route_entry (hops cost : Z) : Z := u16 (Z.lor (Z.shiftl hops 10) (Z.land cost 1023)).
Definition entry_hops (e : Z) : Z := Z.shiftr e 10.
Definition entry_cost (e : Z) : Z := Z.land e 1023.

Record RouteSegment := mkSegment { startid : Z; seg_entries : list Z }.
Record RouteUpdate := mkUpdate { u_id : Z; u_hops : Z; u_cost : Z }.

(** [ones_complement_sum]: carries folded back in twice. *)
Definition fold_carry (s : Z) : Z := Z.land s 65535 + Z.shiftr s 16.
Definition ones_complement_sum (words : list Z) (seed : Z) : Z :=
  u16 (fold_carry (fold_carry (foldl (λ s w, u32 (s + w)) seed words))).

(** [payload_words]: the payload as little endian words. *)
Fixpoint le_words (b : Bytes) : list Z :=
  match b with
  | lo :: hi :: b => Z.lor lo (u16 (Z.shiftl hi 8)) :: le_words b
  | _ => []
  end.
Definition payload_words (b : Bytes) : result (list Z) :=
  if len b <? 4 then Throw MissingData
  else let payload := drop 4 b in
       if bool_decide (payload = []) || negb (Z.land (len payload) 1 =? 0) then Throw FormatError
       else Ok (le_words payload).

(** [RoutingMessage::index_key]: the sum with the checksum word complemented. *)
Definition complement_last (words : list Z) : list Z :=
  match rev words with
  | [] => []
  | last :: ws => rev ws ++ [u16 (Z.lnot last)]
  end.
Definition index_key (b : Bytes) : result Z :=
  words ← payload_words b; Ok (ones_complement_sum (complement_last words) 0).

(** The header members of [class RoutingMessage]. *)
Record rheader := mkHeader { control : bool; type : Z; ext_type : Z; pf : bool; srcnode : Z }.

Definition header_flags (h : rheader) : Z :=
  u8 (Z.lor (Z.lor (Z.lor (if control h then 1 else 0) (Z.shiftl (Z.land (type h) 7) 1))
                   (Z.shiftl (Z.land (ext_type h) 7) 4)) (if pf h then 128 else 0)).
Definition encode_header (h : rheader) : Bytes :=
  [header_flags h; u8 (Z.land (srcnode h) 255); u8 (Z.shiftr (srcnode h) 8); 0].

(** [decode_header]: the header, and the payload words without the checksum. *)
Definition decode_header (b : Bytes) : result (rheader * list Z) :=
  words ← payload_words b;
  flags ← require_byte b 0; lo ← require_byte b 1; hi ← require_byte b 2;
  let h := mkHeader (negb (Z.land flags 1 =? 0)) (Z.land (Z.shiftr flags 1) 7)
             (Z.land (Z.shiftr flags 4) 7) (negb (Z.land flags 128 =? 0))
             (u16 (Z.lor lo (Z.shiftl hi 8))) in
  match removelast words with
  | [] => Throw FormatError
  | ws => Ok (h, ws)
  end.

Definition put_word (w : Z) : Bytes := [u8 (Z.land w 255); u8 (Z.shiftr w 8)].
(** [append_body]. *)
Definition append_body (words : list Z) (seed : Z) : Bytes :=
  flat_map put_word words ++ put_word (ones_complement_sum words seed).

(** [Ph4RoutingMessage]: its two classes differ in the segments they can carry. *)
Inductive level := Level1 | Level2.
#[export] Instance level_eq_dec : EqDecision level.
Proof. solve_decision. Defined.

Definition lowid (l : level) : Z := match l with Level1 => 0 | Level2 => 1 end.
Definition level_type (l : level) : Z := match l with Level1 => 3 | Level2 => 4 end.
Definition valid_segment (l : level) (s : RouteSegment) : bool :=
  match l with
  | Level1 => negb (bool_decide (seg_entries s = [])) && (len (seg_entries s) + startid s <=? 1024)
  | Level2 => negb (bool_decide (seg_entries s = [])) && negb (startid s =? 0)
              && (len (seg_entries s) + startid s <=? 64)
  end.

(** The loop of [Ph4RoutingMessage::decode_into]. *)
Fixpoint decode_segments (l : level) (fuel : nat) (words : list Z) : result (list RouteSegment) :=
  match fuel, words with
  | O, _ => Throw InternalError
  | S _, [] => Ok []
  | S _, [_] => Throw FormatError
  | S fuel, count :: start :: rest =>
      if len rest <? count then Throw FormatError
      else
        let seg := mkSegment start (take (Z.to_nat count) rest) in
        if negb (valid_segment l seg) then Throw FormatError
        else segs ← decode_segments l fuel (drop (Z.to_nat count) rest); Ok (seg :: segs)
  end.

Record Ph4Routing := mkPh4 { hdr4 : rheader; segments : list RouteSegment }.
Definition Ph4_decode_into (l : level) (b : Bytes) : result Ph4Routing :=
  '(h, words) ← decode_header b;
  segs ← decode_segments l (S (length words)) words; Ok (mkPh4 h segs).

Definition segment_words (s : RouteSegment) : list Z :=
  u16 (len (seg_entries s)) :: startid s :: seg_entries s.
Definition Ph4_encode_packet (p : Ph4Routing) : Bytes :=
  encode_header (hdr4 p) ++ append_body (flat_map segment_words (segments p)) 1.

(** [updates]: a run of entries from [id]. *)
Fixpoint run_updates (id circuit_cost : Z) (es : list Z) : list RouteUpdate :=
  match es with
  | [] => []
  | e :: es => mkUpdate id (entry_hops e + 1) (u32 (entry_cost e + circuit_cost))
                 :: run_updates (u32 (id + 1)) circuit_cost es
  end.
Definition Ph4_updates (circuit_cost : Z) (p : Ph4Routing) : list RouteUpdate :=
  flat_map (λ s, run_updates (startid s) circuit_cost (seg_entries s)) (segments p).

(** [PhaseIIIRouting]: one run of entries from node 1. *)
Record PhaseIIIRouting := mkPh3 { hdr3 : rheader; entries3 : list Z }.
Definition Ph3_decode_into (b : Bytes) : result PhaseIIIRouting :=
  '(h, words) ← decode_header b; Ok (mkPh3 h words).
Definition Ph3_encode_packet (p : PhaseIIIRouting) : Bytes :=
  encode_header (hdr3 p) ++ append_body (entries3 p) 0.
Definition Ph3_updates (circuit_cost : Z) (p : PhaseIIIRouting) : list RouteUpdate :=
  run_updates 1 circuit_cost (entries3 p).

(** ** The family *)

Inductive RoutingPacket :=
| PShortData (p : ShortData.t) | PLongData (p : LongData.t)
| PPtpInit (p : PtpInit.t) | PPtpInit3 (p : PtpInit3.t)
| PPtpVerify (p : PtpVerify.t) | PPtpHello (p : PtpHello.t) | PNopMsg (p : NopMsg.t)
| PRouterHello (p : RouterHello.t) | PEndnodeHello (p : EndnodeHello.t)
| PPh4Routing (l : level) (p : Ph4Routing) | PPhaseIIIRouting (p : PhaseIIIRouting).

Inductive RoutingClass :=
| CShortData | CLongData | CPtpInit | CPtpInit3 | CPtpVerify | CPtpHello | CNopMsg
| CRouterHello | CEndnodeHello | CPh4Routing (l : level) | CPhaseIIIRouting.
#[export] Instance RoutingClass_eq_dec : EqDecision RoutingClass.
Proof. solve_decision. Defined.

Definition encode_packet (p : RoutingPacket) : result Bytes :=
  match p with
  | PShortData p => encode_rows ShortData.layout p
  | PLongData p => encode_rows LongData.layout p
  | PPtpInit p => encode_rows PtpInit.layout p
  | PPtpInit3 p => encode_rows PtpInit3.layout p
  | PPtpVerify p => encode_rows PtpVerify.layout p
  | PPtpHello p => encode_rows PtpHello.layout p
  | PNopMsg p => encode_rows NopMsg.layout p
  | PRouterHello p => encode_rows RouterHello.layout p
  | PEndnodeHello p => encode_rows EndnodeHello.layout p
  | PPh4Routing _ p => Ok (Ph4_encode_packet p)
  | PPhaseIIIRouting p => Ok (Ph3_encode_packet p)
  end.

Definition decode_into (c : RoutingClass) (buf : Bytes) : result RoutingPacket :=
  match c with
  | CShortData => '(p, _) ← packet_decode ShortData.policy ShortData.layout ShortData.new buf; Ok (PShortData p)
  | CLongData => '(p, _) ← packet_decode LongData.policy LongData.layout LongData.new buf; Ok (PLongData p)
  | CPtpInit => '(p, _) ← packet_decode PtpInit.policy PtpInit.layout PtpInit.new buf; Ok (PPtpInit p)
  | CPtpInit3 => '(p, _) ← packet_decode PtpInit3.policy PtpInit3.layout PtpInit3.new buf; Ok (PPtpInit3 p)
  | CPtpVerify => '(p, _) ← packet_decode PtpVerify.policy PtpVerify.layout PtpVerify.new buf; Ok (PPtpVerify p)
  | CPtpHello => '(p, _) ← packet_decode PtpHello.policy PtpHello.layout PtpHello.new buf; Ok (PPtpHello p)
  | CNopMsg => '(p, _) ← packet_decode NopMsg.policy NopMsg.layout NopMsg.new buf; Ok (PNopMsg p)
  | CRouterHello => '(p, _) ← packet_decode RouterHello.policy RouterHello.layout RouterHello.new buf; Ok (PRouterHello p)
  | CEndnodeHello => '(p, _) ← packet_decode EndnodeHello.policy EndnodeHello.layout EndnodeHello.new buf; Ok (PEndnodeHello p)
  | CPh4Routing l => p ← Ph4_decode_into l buf; Ok (PPh4Routing l p)
  | CPhaseIIIRouting => p ← Ph3_decode_into buf; Ok (PPhaseIIIRouting p)
  end.

(** [register_routing_packets]. *)
Definition PtpInit34_index : result (index RoutingClass) :=
  i ← add 2 (Concrete CPtpInit) (empty_index (λ b, require_byte b 6) 4);
  add 1 (Concrete CPtpInit3) i.
Definition P34Routing_index : result (index RoutingClass) :=
  i ← add 65534 (Concrete (CPh4Routing Level1)) (empty_index index_key 0);
  add 65535 (Concrete CPhaseIIIRouting) i.
Definition P4L2Routing_index : result (index RoutingClass) :=
  add 65534 (Concrete (CPh4Routing Level2)) (empty_index index_key 0).

Definition raw_index : index RoutingClass := empty_index (λ b, require_byte b 0) 128.
Definition register_routing_packets : result (index RoutingClass) :=
  init34 ← PtpInit34_index; r34 ← P34Routing_index; r4l2 ← P4L2Routing_index;
  i ← add_masked 2 199 (Concrete CShortData) raw_index;
  i ← add_masked 6 199 (Concrete CLongData) i;
  i ← add_masked 1 143 (Nested init34) i;
  i ← add_masked 11 143 (Concrete CRouterHello) i;
  i ← add_masked 13 143 (Concrete CEndnodeHello) i;
  i ← add_masked 3 143 (Concrete CPtpVerify) i;
  i ← add_masked 5 143 (Concrete CPtpHello) i;
  i ← add 8 (Concrete CNopMsg) i;
  i ← add_masked 7 143 (Nested r34) i;
  add_masked 9 143 (Nested r4l2) i.

Definition routing_index : index RoutingClass :=
  match register_routing_packets with Ok i => i | Throw _ => raw_index end.

(** [RoutingPacketBase::parse_frame]. *)
Definition parse_frame (b : Bytes) : option RoutingPacket :=
  try_parse_indexed routing_index decode_into b.

(** ** The checksum *)

Definition word_ok (w : Z) : Prop := 0 ≤ w < 65536.
Definition sum_words (ws : list Z) : Z := foldr Z.add 0 ws.

Lemma sum_words_app ws ws' : sum_words (ws ++ ws') = sum_words ws + sum_words ws'.
Proof. unfold sum_words. induction ws; simpl; lia. Qed.
Lemma sum_words_bound ws : Forall word_ok ws → 0 ≤ sum_words ws ≤ 65535 * len ws.
Proof.
  unfold word_ok, sum_words. induction 1 as [|w ws Hw _ IH]; simpl; [done|].
  rewrite len_cons. lia.
Qed.

Lemma foldl_sum ws s :
  Forall word_ok ws → 0 ≤ s → s + sum_words ws < 4294967296 →
  foldl (λ s w, u32 (s + w)) s ws = s + sum_words ws.
Proof.
  intros Hw. revert s. induction Hw as [|w ws Hw Hws IH]; intros s Hs Hb; simpl in *; [lia|].
  pose proof (sum_words_bound ws Hws). unfold word_ok in Hw.
  change (foldr Z.add 0 ws) with (sum_words ws) in *. rewrite u32_small, IH by lia. lia.
Qed.

Lemma fold_carry_spec s :
  0 ≤ s < 4294967296 →
  (fold_carry s) mod 65535 = s mod 65535 ∧ 0 ≤ fold_carry s < 131071 ∧
  (0 < s ↔ 0 < fold_carry s) ∧ (s < 131071 → fold_carry s < 65536).
Proof.
  intros Hs. assert (fold_carry s = s mod 65536 + s / 65536) as ->.
  { unfold fold_carry. change 65535 with (Z.ones 16).
    by rewrite Z.land_ones, Z.shiftr_div_pow2 by lia. }
  pose proof (Z.div_mod s 65536 ltac:(lia)). pose proof (Z.mod_pos_bound s 65536 ltac:(lia)).
  assert (0 ≤ s / 65536 < 65536) by (split; [apply Z.div_pos|apply Z.div_lt_upper_bound]; lia).
  split; [|clear Hs; repeat split; lia].
  replace (s mod 65536 + s / 65536) with (s + (- (s / 65536)) * 65535) by lia.
  apply Z_mod_plus_full.
Qed.

(** The sum is congruent to the sum of the words, and zero only for zero. *)
Lemma ones_complement_sum_spec ws seed :
  Forall word_ok ws → 0 ≤ seed → seed + sum_words ws < 4294967296 →
  let c := ones_complement_sum ws seed in
  word_ok c ∧ c mod 65535 = (seed + sum_words ws) mod 65535 ∧ (0 < seed + sum_words ws ↔ 0 < c).
Proof.
  intros Hw Hs Hb. pose proof (sum_words_bound ws Hw). unfold ones_complement_sum.
  rewrite foldl_sum by (done || lia). set (s := seed + sum_words ws) in *.
  destruct (fold_carry_spec s) as (M1 & R1 & P1 & _); [lia|].
  destruct (fold_carry_spec (fold_carry s)) as (M2 & R2 & P2 & S2); [lia|].
  rewrite u16_small by lia. unfold word_ok. rewrite M2, M1. repeat split; lia.
Qed.

(** The residue of a checked message tells the seed it was made with. *)
Lemma residue ws seed :
  Forall word_ok ws → len ws ≤ 65535 → seed = 0 ∨ seed = 1 →
  ones_complement_sum (ws ++ [u16 (Z.lnot (ones_complement_sum ws seed))]) 0 = 65535 - seed.
Proof.
  intros Hw Hl Hseed. pose proof (sum_words_bound ws Hw).
  destruct (ones_complement_sum_spec ws seed Hw) as (Hc & Hm & Hpos); [lia..|].
  set (c := ones_complement_sum ws seed) in *. unfold word_ok in Hc.
  assert (u16 (Z.lnot c) = 65535 - c) as ->.
  { unfold u16, Z.lnot. replace (Z.pred (- c)) with (65535 - c + (-1) * 65536) by lia.
    rewrite Z_mod_plus_full. apply Z.mod_small. lia. }
  assert (Forall word_ok (ws ++ [65535 - c])) as Hw'.
  { apply Forall_app. split; [done|]. repeat constructor; lia. }
  destruct (ones_complement_sum_spec (ws ++ [65535 - c]) 0 Hw') as (Hr & Hrm & Hrp).
  { done. } { rewrite sum_words_app. simpl. lia. }
  set (r := ones_complement_sum _ 0) in *. unfold word_ok in Hr.
  rewrite sum_words_app in *. simpl in *.
  assert (r mod 65535 = (65535 - seed) mod 65535) as E.
  { rewrite Hrm. pose proof (Z.div_mod c 65535 ltac:(lia)).
    pose proof (Z.div_mod (seed + sum_words ws) 65535 ltac:(lia)).
    rewrite <-(Z_mod_plus_full (65535 - seed) ((seed + sum_words ws) / 65535 - c / 65535)).
    f_equal. lia. }
  assert (0 < r).
  { apply Hrp. destruct (decide (sum_words ws = 0)) as [E0|]; [|lia]. rewrite E0 in *.
    destruct Hseed as [-> | ->]; [lia|]. destruct (decide (c = 65535)) as [Ec|]; [|lia].
    by rewrite Ec in Hm. }
  clear Hrp Hrm. clearbody r. destruct Hseed as [-> | ->].
  - assert (r = 65535 ∨ r < 65535) as [->|] by lia; [done|].
    rewrite Z.mod_small, Z.mod_same in E by lia. lia.
  - assert (r = 65535 ∨ r < 65535) as [->|] by lia; [done|].
    rewrite !Z.mod_small in E by lia. lia.
Qed.

(** ** Routing messages read back *)

Lemma put_word_spec w : word_ok w → put_word w = [w mod 256; w / 256].
Proof.
  intros Hw. unfold word_ok in Hw. unfold put_word. change 255 with (Z.ones 8).
  rewrite Z.land_ones, Z.shiftr_div_pow2 by lia. change (2 ^ 8) with 256. unfold u8.
  rewrite Z.mod_mod by lia. rewrite (Z.mod_small (w / 256)); [done|].
  split; [apply Z.div_pos|apply Z.div_lt_upper_bound]; lia.
Qed.

Lemma join_bytes lo hi : byte_ok lo → byte_ok hi → Z.lor lo (u16 (Z.shiftl hi 8)) = lo + 256 * hi.
Proof.
  intros Hl Hh. unfold byte_ok in *.
  rewrite u16_small by (rewrite Z.shiftl_mul_pow2 by lia; change (2 ^ 8) with 256; lia).
  rewrite (lor_shiftl_add _ _ 8) by (done || lia). change (2 ^ 8) with 256. lia.
Qed.

Lemma word_bytes w : word_ok w → byte_ok (w mod 256) ∧ byte_ok (w / 256) ∧ w mod 256 + 256 * (w / 256) = w.
Proof.
  intros Hw. unfold word_ok, byte_ok in *. pose proof (Z.div_mod w 256 ltac:(lia)).
  pose proof (Z.mod_pos_bound w 256 ltac:(lia)).
  split; [done|]. split; [|lia]. split; [apply Z.div_pos|apply Z.div_lt_upper_bound]; lia.
Qed.

Lemma le_words_put ws rest :
  Forall word_ok ws → le_words (flat_map put_word ws ++ rest) = ws ++ le_words rest.
Proof.
  induction 1 as [|w ws Hw _ IH]; [done|]. cbn [flat_map]. rewrite put_word_spec by done.
  destruct (word_bytes w Hw) as (Hl & Hh & E). simpl. rewrite IH, join_bytes by done. by rewrite E.
Qed.

Lemma len_put ws : len (flat_map put_word ws) = 2 * len ws.
Proof. induction ws as [|w ws IH]; [done|]. cbn [flat_map]. rewrite len_app, len_cons, IH. simpl. unfold len. simpl. lia. Qed.

Lemma bytes_put_word w : bytes_ok (put_word w).
Proof. repeat (apply bytes_ok_cons; split; [apply u8_range|]). constructor. Qed.
Lemma bytes_put ws : bytes_ok (flat_map put_word ws).
Proof.
  induction ws as [|w ws IH]; [constructor|]. cbn [flat_map]. apply bytes_ok_app.
  split; [apply bytes_put_word|done].
Qed.

Section Message.
Context (h : rheader) (ws : list Z) (seed : Z).
Context (Hw : Forall word_ok ws) (Hl : len ws ≤ 65535) (Hs : seed = 0 ∨ seed = 1).

Definition message : Bytes := encode_header h ++ append_body ws seed.
Definition checksum : Z := ones_complement_sum ws seed.

Lemma checksum_ok : word_ok checksum.
Proof. pose proof (sum_words_bound ws Hw). apply ones_complement_sum_spec; [done|lia..]. Qed.

Lemma payload_words_message : payload_words message = Ok (ws ++ [checksum]).
Proof.
  unfold payload_words, message.
  assert (len (encode_header h ++ append_body ws seed) = 4 + (2 * len ws + 2)) as ->.
  { unfold append_body. rewrite !len_app, len_put. done. }
  pose proof (len_nonneg ws). rewrite (proj2 (Z.ltb_ge _ _)) by lia. cbv zeta.
  change (drop 4 (encode_header h ++ append_body ws seed)) with (append_body ws seed).
  unfold append_body. rewrite len_app, len_put.
  replace (2 * len ws + len (put_word (ones_complement_sum ws seed))) with (2 * (len ws + 1))
    by (change (len (put_word (ones_complement_sum ws seed))) with 2; lia).
  change 1 with (Z.ones 1) at 2. rewrite Z.land_ones by lia. change (2 ^ 1) with 2.
  rewrite (Z.mul_comm 2 (len ws + 1)), Z_mod_mult. rewrite bool_decide_false by (by destruct (flat_map _ _)).
  simpl. rewrite le_words_put by done. f_equal. f_equal.
  pose proof checksum_ok as Hc. fold checksum. rewrite put_word_spec by done.
  destruct (word_bytes _ Hc) as (H1 & H2 & E). simpl. by rewrite join_bytes, E by done.
Qed.

Lemma index_key_message : index_key message = Ok (65535 - seed).
Proof.
  unfold index_key. rewrite payload_words_message. simpl. unfold complement_last.
  rewrite rev_app_distr. simpl. rewrite rev_involutive. f_equal. by apply residue.
Qed.

Lemma bytes_message : bytes_ok message.
Proof.
  apply bytes_ok_app. split; [|apply bytes_ok_app; split; [apply bytes_put|apply bytes_put_word]].
  unfold encode_header, header_flags.
  repeat (apply bytes_ok_cons; split; [first [apply u8_range|unfold byte_ok; lia]|]). constructor.
Qed.
End Message.

(** A routing message header with fields in range, and no padding bit. *)
Definition header_ok (ty : Z) (h : rheader) : Prop :=
  control h = true ∧ type h = ty ∧ 0 ≤ ext_type h < 8 ∧ pf h = false ∧ fits 2 (srcnode h).

Lemma byte_range8 v : 0 ≤ v < 8 → v ∈ [0; 1; 2; 3; 4; 5; 6; 7].
Proof. intros H. rewrite !elem_of_cons, elem_of_nil. lia. Qed.

Lemma decode_header_message ty h ws seed :
  ty ∈ [3; 4] → header_ok ty h → Forall word_ok ws → len ws ≤ 65535 → seed = 0 ∨ seed = 1 → ws ≠ [] →
  decode_header (message h ws seed) = Ok (h, ws).
Proof.
  intros Hty (Hc & Ht & He & Hp & Hsn) Hw Hl Hs Hne. unfold decode_header.
  rewrite payload_words_message by done. destruct h as [c t e p s]. simpl in *. subst c t p.
  rewrite removelast_last. unfold fits in Hsn. change (2 ^ (8 * Z.of_nat 2)) with 65536 in Hsn.
  assert (u16 (Z.lor (u8 (Z.land s 255)) (Z.shiftl (u8 (Z.shiftr s 8)) 8)) = s) as ->.
  { pose proof (put_word_spec s Hsn) as E. injection E as E1 E2. rewrite E1, E2.
    destruct (word_bytes s Hsn) as (H1 & H2 & E). unfold byte_ok in *.
    rewrite (lor_shiftl_add _ _ 8) by (done || lia). change (2 ^ 8) with 256.
    rewrite u16_small by lia. lia. }
  assert (∀ f, f = header_flags (mkHeader true ty e false s) →
    mkHeader (negb (Z.land f 1 =? 0)) (Z.land (Z.shiftr f 1) 7) (Z.land (Z.shiftr f 4) 7)
      (negb (Z.land f 128 =? 0)) s = mkHeader true ty e false s) as E.
  { intros f ->. apply byte_range8 in He. rewrite !elem_of_cons, elem_of_nil in Hty.
    rewrite !elem_of_cons, elem_of_nil in He. by intuition subst. }
  rewrite (E _ eq_refl). by destruct ws.
Qed.

Definition segment_ok (l : level) (s : RouteSegment) : Prop :=
  valid_segment l s = true ∧ word_ok (startid s) ∧ Forall word_ok (seg_entries s).

Lemma valid_segment_spec l s :
  valid_segment l s = true ↔
    seg_entries s ≠ [] ∧ lowid l ≤ Z.max (lowid l) (startid s) ∧
    len (seg_entries s) + startid s ≤ match l with Level1 => 1024 | Level2 => 64 end ∧
    (l = Level2 → startid s ≠ 0).
Proof.
  destruct l; simpl; rewrite ?andb_true_iff, ?negb_true_iff, bool_decide_eq_false, ?Z.leb_le, ?Z.eqb_neq;
    intuition (done || lia).
Qed.

Lemma segment_words_ok l s : segment_ok l s → Forall word_ok (segment_words s).
Proof. intros (_ & Hs & He). constructor; [apply u16_range|by constructor]. Qed.

Lemma decode_segments_words l segs fuel :
  Forall (segment_ok l) segs → (length segs < fuel)%nat →
  decode_segments l fuel (flat_map segment_words segs) = Ok segs.
Proof.
  intros Hs. revert fuel. induction Hs as [|s segs Hok _ IH]; intros fuel Hf.
  { by destruct fuel; [lia|]. }
  destruct fuel as [|fuel]; [simpl in Hf; lia|]. destruct Hok as (Hv & Hst & He).
  apply valid_segment_spec in Hv as Hv'. destruct Hv' as (_ & _ & Hl & _).
  pose proof (len_nonneg (seg_entries s)). pose proof (len_nonneg (flat_map segment_words segs)).
  cbn [flat_map segment_words app decode_segments].
  rewrite u16_small by (destruct Hst; destruct l; lia). rewrite len_app.
  rewrite (proj2 (Z.ltb_ge _ _)) by lia. cbv zeta.
  replace (Z.to_nat (len (seg_entries s))) with (length (seg_entries s)) by (unfold len; lia).
  rewrite take_app_length, drop_app_length. replace (mkSegment _ _) with s by (by destruct s).
  rewrite Hv. simpl in *. by rewrite IH by lia.
Qed.

(** ** Well-formed packets *)

(** The flags of a control packet of type [ty]. *)
Definition ctl_ok (ty : Z) (control : bool) (type ext_type : Z) (pf : bool) : Prop :=
  control = true ∧ type = ty ∧ 0 ≤ ext_type < 8 ∧ pf = false.

Definition init_ok (major : Z) (srcnode ntype blksize : Z) (tiver : Version) (res : Bytes) : Prop :=
  fits 2 srcnode ∧ 0 ≤ ntype < 4 ∧ fits 2 blksize ∧ Version_ok tiver ∧ v1 tiver = major ∧ image 64 res.

Definition hello_ok (tiver : Version) (hiid : Bytes) (ident ntype blksize timer : Z) : Prop :=
  Version_ok tiver ∧ exactly 4 hiid ∧ fits 2 ident ∧ 0 ≤ ntype < 4 ∧ fits 2 blksize ∧ fits 2 timer.

Definition packet_ok (p : RoutingPacket) : Prop :=
  match p with
  | PShortData (ShortData.mk sfpd _ _ vers pf dst src visit payload _ _) =>
      sfpd = 2 ∧ vers = false ∧ pf = false ∧ fits 2 dst ∧ fits 2 src ∧ 0 ≤ visit < 64 ∧ bytes_ok payload
  | PLongData (LongData.mk lfpd _ _ _ vers pf dsthi dst srchi src visit payload) =>
      lfpd = 6 ∧ vers = false ∧ pf = false ∧ exactly 4 dsthi ∧ fits 2 dst ∧ exactly 4 srchi ∧
      fits 2 src ∧ fits 1 visit ∧ bytes_ok payload
  | PPtpInit (PtpInit.mk c t e f src nt _ _ blk ver timer res) =>
      ctl_ok 0 c t e f ∧ init_ok 2 src nt blk ver res ∧ fits 2 timer
  | PPtpInit3 (PtpInit3.mk c t e f src nt _ _ blk ver res) =>
      ctl_ok 0 c t e f ∧ init_ok 1 src nt blk ver res
  | PPtpVerify (PtpVerify.mk c t e f src fcn) => ctl_ok 1 c t e f ∧ fits 2 src ∧ image 64 fcn
  | PPtpHello (PtpHello.mk c t e f src data) => ctl_ok 2 c t e f ∧ fits 2 src ∧ image 128 data
  | PNopMsg (NopMsg.mk flags payload) => flags = 8 ∧ bytes_ok payload
  | PRouterHello (RouterHello.mk c t e f ver hi n nt blk prio timer el) =>
      ctl_ok 5 c t e f ∧ hello_ok ver hi n nt blk timer ∧ fits 1 prio ∧ image 244 el
  | PEndnodeHello (EndnodeHello.mk c t e f ver hi n nt blk nb timer data) =>
      ctl_ok 6 c t e f ∧ hello_ok ver hi n nt blk timer ∧ exactly 6 nb ∧ image 128 data
  | PPh4Routing l (mkPh4 h segs) =>
      header_ok (level_type l) h ∧ segs ≠ [] ∧ Forall (segment_ok l) segs ∧
      len (flat_map segment_words segs) ≤ 65535
  | PPhaseIIIRouting (mkPh3 h es) =>
      header_ok 3 h ∧ es ≠ [] ∧ Forall word_ok es ∧ len es ≤ 65535
  end.

(** What is never encoded does not come back. *)
Definition norm (p : RoutingPacket) : RoutingPacket :=
  match p with
  | PShortData p => PShortData (ShortData.set_ie false (ShortData.set_src None p))
  | p => p
  end.

(** ** The classes *)

(** What an index of 128 entries keyed on the first byte does. *)
Section Leads.
Context {C : Type} (i : index C).
Context (Hk : ∀ f rest, keyfn i (f :: rest) = Ok f) (Hl : limit i = 128).

Lemma create_concrete f c rest :
  0 ≤ f < 128 → assoc f (entries i) = Some (Concrete c) → create i (f :: rest) = Ok c.
Proof.
  intros Hf Ha. unfold create. cbn [create_at]. rewrite Hk. cbn [mbind result_bind].
  rewrite Hl, Ha, (proj2 (Z.leb_gt _ _)) by lia. done.
Qed.
Lemma create_nested f child rest c :
  0 ≤ f < 128 → assoc f (entries i) = Some (Nested child) →
  create_at 7 child (f :: rest) = Ok c → create i (f :: rest) = Ok c.
Proof.
  intros Hf Ha Hc. unfold create. cbn [create_at]. rewrite Hk. cbn [mbind result_bind].
  rewrite Hl, Ha, (proj2 (Z.leb_gt _ _)) by lia. done.
Qed.
End Leads.

(** The first byte of a control packet. *)
Definition ctl_flags (ty ext : Z) : Z := 1 + 2 * ty + 16 * ext.
Definition init34 : index RoutingClass := match PtpInit34_index with Ok i => i | _ => raw_index end.
Definition r34 : index RoutingClass := match P34Routing_index with Ok i => i | _ => raw_index end.
Definition r4l2 : index RoutingClass := match P4L2Routing_index with Ok i => i | _ => raw_index end.

Definition ctl_entry (ty : Z) : option (entry RoutingClass) :=
  match ty with
  | 0 => Some (Nested init34) | 1 => Some (Concrete CPtpVerify) | 2 => Some (Concrete CPtpHello)
  | 3 => Some (Nested r34) | 4 => Some (Nested r4l2)
  | 5 => Some (Concrete CRouterHello) | 6 => Some (Concrete CEndnodeHello)
  | _ => None
  end.

Lemma ctl_entry_ok ty ext :
  0 ≤ ty < 7 → 0 ≤ ext < 8 →
  0 ≤ ctl_flags ty ext < 128 ∧ assoc (ctl_flags ty ext) (entries routing_index) = ctl_entry ty.
Proof.
  intros Ht He. unfold ctl_flags. split; [lia|].
  assert (ty ∈ [0; 1; 2; 3; 4; 5; 6]) as Ht' by (rewrite !elem_of_cons, elem_of_nil; lia).
  apply byte_range8 in He.
  rewrite !elem_of_cons, elem_of_nil in Ht'. rewrite !elem_of_cons, elem_of_nil in He.
  destruct Ht' as [->|[->|[->|[->|[->|[->|[->|[]]]]]]]];
    destruct He as [->|[->|[->|[->|[->|[->|[->|[->|[]]]]]]]]];
    lazymatch goal with |- _ = ?r => vm_cast_no_check (eq_refl r) end.
Qed.

(** A frame that starts with a one byte group starts with its value. *)
Lemma first_bits {P} (bits : list (bmbit P)) rows p bs :
  bm_flen bits = 1%nat → bm_sorted 0 bits = true → bm_wf bits p →
  forallb (λ b, topbit b <? 8) bits = true →
  encode_rows (bm bits :: rows) p = Ok bs → ∃ rest, bs = bm_value bits p :: rest.
Proof.
  intros Hl Hs Hw Ht H. cbn [encode_rows bm r_encode] in H. rewrite (bm_field_value 0) in H by done.
  cbn [mbind result_bind] in H. apply bind_Ok in H as (bs' & _ & [= <-]). rewrite Hl, Z.lor_0_l.
  assert (0 ≤ bm_value bits p < 256) as Hv.
  { apply (bm_value_bound 0 bits p 8); [done..|]. rewrite Forall_forall.
    rewrite forallb_forall in Ht. intros x Hx. apply Z.ltb_lt, Ht. by apply list_elem_of_In. }
  change (Encoder.uint (bm_value bits p) 1) with [u8 (Z.shiftr (bm_value bits p) (8 * 0))].
  rewrite Z.shiftr_0_r, u8_small by lia. eauto.
Qed.

(** The version byte of an init is its seventh. *)
Lemma init_version {P} (b1 b3 : list (bmbit P)) g2 s2 g4 s4 g5 s5 rows (p : P) bs :
  bm_flen b1 = 1%nat → bm_flen b3 = 1%nat → Version_ok (g5 p) →
  encode_rows (bm b1 :: field NodeidField g2 s2 :: bm b3 :: field (B 2) g4 s4 ::
               field VersionField g5 s5 :: rows) p = Ok bs →
  bs !! 6%nat = Some (v1 (g5 p)).
Proof.
  intros H1 H3 Hv H. cbn [encode_rows bm field r_encode NodeidField c_encode B VersionField] in H.
  rewrite H1, H3 in H.
  repeat match goal with
  | H : _ ≫= _ = Ok _ |- _ => apply bind_Ok in H as (? & ? & ?)
  | H : rethrow _ (Ok _) = Ok _ |- _ => cbn [rethrow] in H
  | H : rethrow _ (if ?b then _ else _) = Ok _ |- _ => destruct b; cbn [rethrow] in H; [done|]
  | H : Ok _ = Ok _ |- _ => injection H as H; subst
  end.
  destruct Hv as [Hv _]. unfold byte_ok in Hv. cbn. by rewrite u8_small by lia.
Qed.

(** The value of a control header group. *)
Lemma ctl_value ty e :
  0 ≤ ty < 7 → 0 ≤ e < 8 →
  Z.lor (Z.shiftl (of_bool true) 0) (Z.lor (Z.shiftl ty 1) (Z.lor (Z.shiftl e 4)
    (Z.lor (Z.shiftl (of_bool false) 7) 0))) = ctl_flags ty e.
Proof.
  intros Ht He. unfold ctl_flags.
  assert (ty ∈ [0; 1; 2; 3; 4; 5; 6]) as Ht' by (rewrite !elem_of_cons, elem_of_nil; lia).
  apply byte_range8 in He.
  rewrite !elem_of_cons, elem_of_nil in Ht'. rewrite !elem_of_cons, elem_of_nil in He.
  destruct Ht' as [->|[->|[->|[->|[->|[->|[->|[]]]]]]]];
    destruct He as [->|[->|[->|[->|[->|[->|[->|[->|[]]]]]]]]]; reflexivity.
Qed.

Lemma route_key f rest : keyfn routing_index (f :: rest) = Ok f.
Proof. reflexivity. Qed.
Lemma route_limit : limit routing_index = 128.
Proof. reflexivity. Qed.

Lemma create_ctl ty e c rest :
  0 ≤ ty < 7 → 0 ≤ e < 8 → ctl_entry ty = Some (Concrete c) →
  create routing_index (ctl_flags ty e :: rest) = Ok c.
Proof.
  intros Ht He Hc. destruct (ctl_entry_ok ty e Ht He) as [Hf Ha].
  apply create_concrete; [apply route_key|apply route_limit|done|congruence].
Qed.

Lemma create_ctl_nested ty e child c rest :
  0 ≤ ty < 7 → 0 ≤ e < 8 → ctl_entry ty = Some (Nested child) →
  create_at 7 child (ctl_flags ty e :: rest) = Ok c →
  create routing_index (ctl_flags ty e :: rest) = Ok c.
Proof.
  intros Ht He Hc Hch. destruct (ctl_entry_ok ty e Ht He) as [Hf Ha].
  eapply create_nested; [apply route_key|apply route_limit|done|rewrite Ha; exact Hc|done].
Qed.

(** A packet whose frame leads to its class and decodes reads back. *)
Lemma parse_intro bs c p :
  create routing_index bs = Ok c → decode_into c bs = Ok p → parse_frame bs = Some p.
Proof.
  intros Hc Hd. unfold parse_frame, try_parse_indexed, parse_indexed. rewrite Hc. simpl. by rewrite Hd.
Qed.

Lemma routing_roundtrip {P} (policy : Extra) (rows : list (row P)) (p new p' : P) c
    (inj : P → RoutingPacket) :
  (∀ bs, encode_rows rows p = Ok bs → create routing_index bs = Ok c) →
  (∀ buf, decode_into c buf = ('(p, _) ← packet_decode policy rows new buf; Ok (inj p))) →
  (∃ bs, encode_rows rows p = Ok bs ∧ bytes_ok bs ∧ decode_rows rows new bs = Ok (p', [])) →
  ∃ bs, encode_rows rows p = Ok bs ∧ bytes_ok bs ∧ parse_frame bs = Some (inj p').
Proof.
  intros Hc Hdec (bs & E & Hb & D). exists bs. split; [done|]. split; [done|].
  eapply parse_intro; [by apply Hc|]. rewrite Hdec. unfold packet_decode. rewrite D. simpl.
  by destruct policy.
Qed.

(** ** The round trip of the family *)

Ltac ctl_bits := bits_ok; try apply of_bool_range.
Ltac solve_layout :=
  cbn; repeat match goal with |- _ ∧ _ => split end; unfold image, fits in *; try done; ctl_bits.

Section RoundTrips.
#[local] Abbreviation reads p :=
  (∃ bs, encode_packet p = Ok bs ∧ bytes_ok bs ∧ parse_frame bs = Some (norm p)).

Lemma ShortData_rt p : packet_ok (PShortData p) → reads (PShortData p).
Proof.
  destruct p as [sfpd rqr rts vers pf dst src visit payload ie sc].
  intros (-> & -> & -> & Hd & Hs & Hv & Hp).
  apply (routing_roundtrip ShortData.policy ShortData.layout _ ShortData.new _ CShortData PShortData);
    [|done|].
  - intros bs E. apply first_bits in E as [rest ->]; [|done|done|ctl_bits|done].
    apply create_concrete; [apply route_key|apply route_limit|by destruct rqr, rts|].
    by destruct rqr, rts.
  - eapply plain_rt; [apply _|solve_layout|].
    cbn. rewrite !to_of_bool, !u8_small by lia. reflexivity.
Qed.

Lemma LongData_rt p : packet_ok (PLongData p) → reads (PLongData p).
Proof.
  destruct p as [lfpd rqr rts ie vers pf dsthi dst srchi src visit payload].
  intros (-> & -> & -> & Hdh & Hd & Hsh & Hs & Hv & Hp).
  apply (routing_roundtrip LongData.policy LongData.layout _ LongData.new _ CLongData PLongData);
    [|done|].
  - intros bs E. apply first_bits in E as [rest ->]; [|done|done|ctl_bits|done].
    apply create_concrete; [apply route_key|apply route_limit|by destruct rqr, rts, ie|].
    by destruct rqr, rts, ie.
  - eapply plain_rt; [apply _|solve_layout|].
    cbn. rewrite !to_of_bool, !u8_small by lia. reflexivity.
Qed.

Lemma NopMsg_rt p : packet_ok (PNopMsg p) → reads (PNopMsg p).
Proof.
  destruct p as [flags payload]. intros (-> & Hp).
  apply (routing_roundtrip NopMsg.policy NopMsg.layout _ NopMsg.new _ CNopMsg PNopMsg); [|done|].
  - intros bs E. apply first_byte in E as [rest ->]; [|done].
    apply create_concrete; [apply route_key|apply route_limit|done|done].
  - eapply plain_rt; [apply _|solve_layout|done].
Qed.

(** A control packet of a class of its own. *)
Lemma ctl_create {P} ty e c (bits : list (bmbit P)) rows p bs :
  0 ≤ ty < 7 → 0 ≤ e < 8 → ctl_entry ty = Some (Concrete c) →
  bm_flen bits = 1%nat → bm_sorted 0 bits = true → bm_wf bits p →
  forallb (λ b, topbit b <? 8) bits = true → bm_value bits p = ctl_flags ty e →
  encode_rows (bm bits :: rows) p = Ok bs → create routing_index bs = Ok c.
Proof.
  intros Ht He Hc H1 H2 H3 H4 Hv E. apply first_bits in E as [rest ->]; [|done..].
  rewrite Hv. by apply create_ctl.
Qed.

Lemma PtpVerify_rt p : packet_ok (PPtpVerify p) → reads (PPtpVerify p).
Proof.
  destruct p as [c t e f src fcn]. intros ((-> & -> & He & ->) & Hs & Hi).
  apply (routing_roundtrip PtpVerify.policy PtpVerify.layout _ PtpVerify.new _ CPtpVerify PPtpVerify); [|done|].
  - intros bs E. by eapply (ctl_create 1 e); [..|exact E]; [done..|ctl_bits|done|apply ctl_value].
  - eapply plain_rt; [apply _|solve_layout|].
    cbn. rewrite ?to_of_bool, !u8_small by lia. reflexivity.
Qed.

Lemma PtpHello_rt p : packet_ok (PPtpHello p) → reads (PPtpHello p).
Proof.
  destruct p as [c t e f src data]. intros ((-> & -> & He & ->) & Hs & Hi).
  apply (routing_roundtrip PtpHello.policy PtpHello.layout _ PtpHello.new _ CPtpHello PPtpHello); [|done|].
  - intros bs E. by eapply (ctl_create 2 e); [..|exact E]; [done..|ctl_bits|done|apply ctl_value].
  - eapply plain_rt; [apply _|solve_layout|].
    cbn. rewrite ?to_of_bool, !u8_small by lia. reflexivity.
Qed.

Lemma RouterHello_rt p : packet_ok (PRouterHello p) → reads (PRouterHello p).
Proof.
  destruct p as [c t e f ver hi n nt blk prio timer el]. intros ((-> & -> & He & ->) & (Hv & Hh & Hn & Hnt & Hb & Htm) & Hpr & Hi).
  apply (routing_roundtrip RouterHello.policy RouterHello.layout _ RouterHello.new _ CRouterHello PRouterHello); [|done|].
  - intros bs E. by eapply (ctl_create 5 e); [..|exact E]; [done..|ctl_bits|done|apply ctl_value].
  - eapply plain_rt; [apply _|solve_layout|].
    cbn. rewrite ?to_of_bool, !u8_small by lia. reflexivity.
Qed.

Lemma EndnodeHello_rt p : packet_ok (PEndnodeHello p) → reads (PEndnodeHello p).
Proof.
  destruct p as [c t e f ver hi n nt blk nb timer data]. intros ((-> & -> & He & ->) & (Hv & Hh & Hn & Hnt & Hb & Htm) & Hnb & Hi).
  apply (routing_roundtrip EndnodeHello.policy EndnodeHello.layout _ EndnodeHello.new _ CEndnodeHello PEndnodeHello); [|done|].
  - intros bs E. by eapply (ctl_create 6 e); [..|exact E]; [done..|ctl_bits|done|apply ctl_value].
  - eapply plain_rt; [apply _|solve_layout|].
    cbn. rewrite ?to_of_bool, !u8_small by lia. reflexivity.
Qed.

(** The inits go through the version byte. *)
Lemma init_create {P} e (major : Z) c (bits b3 : list (bmbit P)) g2 s2 g4 s4 g5 s5 rows (p : P) bs :
  0 ≤ e < 8 → (major, c) ∈ [(2, CPtpInit); (1, CPtpInit3)] →
  bm_flen bits = 1%nat → bm_sorted 0 bits = true → bm_wf bits p →
  forallb (λ b, topbit b <? 8) bits = true → bm_value bits p = ctl_flags 0 e →
  bm_flen b3 = 1%nat → Version_ok (g5 p) → v1 (g5 p) = major →
  encode_rows (bm bits :: field NodeidField g2 s2 :: bm b3 :: field (B 2) g4 s4 ::
               field VersionField g5 s5 :: rows) p = Ok bs →
  create routing_index bs = Ok c.
Proof.
  intros He Hc H1 H2 H3 H4 Hv H5 H6 H7 E.
  pose proof E as E'. apply init_version in E'; [|done..].
  apply first_bits in E as [rest ->]; [|done..]. rewrite Hv in *.
  eapply create_ctl_nested; [lia|done|reflexivity|].
  cbn [create_at]. change (keyfn init34 (ctl_flags 0 e :: rest)) with (require_byte (ctl_flags 0 e :: rest) 6).
  unfold require_byte. rewrite E', H7. cbn [mbind result_bind].
  rewrite !elem_of_cons, elem_of_nil in Hc. by destruct Hc as [[= -> ->]|[[= -> ->]|[]]].
Qed.

Lemma PtpInit_rt p : packet_ok (PPtpInit p) → reads (PPtpInit p).
Proof.
  destruct p as [c t e f src nt vf blo blk ver timer res]. intros ((-> & -> & He & ->) & (Hs & Hn & Hb & Hv & Hm & Hi) & Ht).
  apply (routing_roundtrip PtpInit.policy PtpInit.layout _ PtpInit.new _ CPtpInit PPtpInit); [|done|].
  - intros bs E. by eapply (init_create e 2); [..|exact E];
      [done|rewrite !elem_of_cons; auto|done..|ctl_bits|done|apply ctl_value|done|done|].
  - eapply plain_rt; [apply _|solve_layout|].
    cbn. rewrite !to_of_bool, !u8_small by lia. reflexivity.
Qed.

Lemma PtpInit3_rt p : packet_ok (PPtpInit3 p) → reads (PPtpInit3 p).
Proof.
  destruct p as [c t e f src nt vf blo blk ver res]. intros ((-> & -> & He & ->) & (Hs & Hn & Hb & Hv & Hm & Hi)).
  apply (routing_roundtrip PtpInit3.policy PtpInit3.layout _ PtpInit3.new _ CPtpInit3 PPtpInit3); [|done|].
  - intros bs E. by eapply (init_create e 1); [..|exact E];
      [done|rewrite !elem_of_cons; auto|done..|ctl_bits|done|apply ctl_value|done|done|].
  - eapply plain_rt; [apply _|solve_layout|].
    cbn. rewrite !to_of_bool, !u8_small by lia. reflexivity.
Qed.
End RoundTrips.

Lemma message_flags h ty ws seed :
  ty ∈ [3; 4] → header_ok ty h → ∃ rest, message h ws seed = ctl_flags ty (ext_type h) :: rest.
Proof.
  intros Ht (Hc & Hty & He & Hp & _). exists (tail (message h ws seed)). unfold message.
  cbn [encode_header app tail]. f_equal. destruct h as [c t e p s]. simpl in *. subst c t p.
  apply byte_range8 in He. rewrite !elem_of_cons, elem_of_nil in He.
  rewrite !elem_of_cons, elem_of_nil in Ht.
  destruct Ht as [->|[->|[]]]; destruct He as [->|[->|[->|[->|[->|[->|[->|[->|[]]]]]]]]]; reflexivity.
Qed.

(** A routing message leads, through its residue, to the class its seed stands for. *)
Lemma message_create h ty ws seed child c :
  ty ∈ [3; 4] → header_ok ty h → Forall word_ok ws → len ws ≤ 65535 → seed = 0 ∨ seed = 1 →
  ctl_entry ty = Some (Nested child) → (∀ b, keyfn child b = index_key b) → limit child = 0 →
  assoc (65535 - seed) (entries child) = Some (Concrete c) →
  create routing_index (message h ws seed) = Ok c.
Proof.
  intros Ht Hh Hw Hl Hs Hc Hk Hlim Ha. destruct (message_flags h ty ws seed Ht Hh) as [rest E].
  pose proof (index_key_message h ws seed Hw Hl Hs) as Hi. destruct Hh as (_ & _ & He & _). rewrite E in *.
  eapply create_ctl_nested; [|done|exact Hc|].
  { rewrite !elem_of_cons, elem_of_nil in Ht. lia. }
  cbn [create_at]. rewrite Hk, Hi. cbn [mbind result_bind]. rewrite Hlim, Ha. done.
Qed.

Lemma Ph4_rt l p : packet_ok (PPh4Routing l p) →
  ∃ bs, encode_packet (PPh4Routing l p) = Ok bs ∧ bytes_ok bs ∧ parse_frame bs = Some (PPh4Routing l p).
Proof.
  destruct p as [h segs]. intros (Hh & Hne & Hs & Hl).
  set (ws := flat_map segment_words segs) in *.
  assert (level_type l ∈ [3; 4]) as Ht by (destruct l; rewrite !elem_of_cons; auto).
  assert (Forall word_ok ws) as Hw.
  { unfold ws. clear -Hs. induction Hs as [|s segs H _ IH]; [constructor|]. cbn [flat_map].
    apply Forall_app. split; [by eapply segment_words_ok|done]. }
  assert (length segs ≤ length ws)%nat as Hlen.
  { unfold ws. clear. induction segs as [|s segs IH]; [done|]. cbn [flat_map segment_words].
    rewrite length_app. simpl in *. lia. }
  assert (ws ≠ []) as Hne' by (intros E; rewrite E in Hlen; by destruct segs).
  exists (message h ws 1). split; [done|]. split; [by apply bytes_message|].
  eapply (parse_intro _ (CPh4Routing l)).
  - destruct l; [apply (message_create h 3 ws 1 r34)|apply (message_create h 4 ws 1 r4l2)]; auto; reflexivity.
  - cbn [decode_into]. unfold Ph4_decode_into.
    rewrite (decode_header_message (level_type l)) by auto. cbn [mbind result_bind].
    unfold ws in *. rewrite decode_segments_words by (done || lia). reflexivity.
Qed.

Lemma Ph3_rt p : packet_ok (PPhaseIIIRouting p) →
  ∃ bs, encode_packet (PPhaseIIIRouting p) = Ok bs ∧ bytes_ok bs ∧ parse_frame bs = Some (PPhaseIIIRouting p).
Proof.
  destruct p as [h ws]. intros (Hh & Hne & Hw & Hl).
  assert (3 ∈ [3; 4]) as Ht by (rewrite !elem_of_cons; auto).
  exists (message h ws 0). split; [done|]. split; [by apply bytes_message|].
  eapply (parse_intro _ CPhaseIIIRouting).
  - apply (message_create h 3 ws 0 r34); auto; reflexivity.
  - cbn [decode_into]. unfold Ph3_decode_into. by rewrite (decode_header_message 3) by auto.
Qed.

Lemma routing_parse_encode_any (p : RoutingPacket) :
  packet_ok p → ∃ bs, encode_packet p = Ok bs ∧ bytes_ok bs ∧ parse_frame bs = Some (norm p).
Proof.
  destruct p; auto using ShortData_rt, LongData_rt, PtpInit_rt, PtpInit3_rt, PtpVerify_rt, PtpHello_rt,
    NopMsg_rt, RouterHello_rt, EndnodeHello_rt, Ph4_rt, Ph3_rt.
Qed.

Lemma frame_nonempty f pkt : parse_frame f = Some pkt → f ≠ [].
Proof. intros Hf ->. vm_compute in Hf. discriminate Hf. Qed.

(** C21: Every routing packet with members in range encodes without an error, and
    [parse_frame] reads the frame back as the same packet: through the version byte for the
    two point to point inits, and, for a routing message, through the one's complement
    checksum residue, which alone tells a Phase IV message from a Phase III one. *)
Theorem routing_parse_encode (p : RoutingPacket) :
  packet_ok p → ∃ bs, encode_packet p = Ok bs ∧ bytes_ok bs ∧ parse_frame bs = Some (norm p).
Proof. apply routing_parse_encode_any. Qed.

Definition routing_example : RoutingPacket :=
  PPh4Routing Level1 (mkPh4 (mkHeader true 3 0 false 1025)
    [mkSegment 0 [1023; 3076]; mkSegment 1022 [32767; 0]]).

Lemma routing_parse_encode_witness :
  packet_ok routing_example ∧
  ∃ bs, encode_packet routing_example = Ok bs ∧ bytes_ok bs ∧ parse_frame bs = Some routing_example.
Proof.
  assert (packet_ok routing_example) as H.
  { split; [done|]. split; [done|]. split; [|done].
    repeat (apply Forall_cons_2; [split; [reflexivity|split; [done|by repeat constructor]]|]).
    apply Forall_nil_2. }
  split; [exact H|]. apply (routing_parse_encode routing_example H).
Defined.

(** ** What a parsed routing message can say *)

Lemma le_words_ok b : bytes_ok b → Forall word_ok (le_words b).
Proof.
  intros Hb. assert (∀ n, (length b ≤ n)%nat → Forall word_ok (le_words b)) as H; [|by apply (H (length b))].
  intros n. revert b Hb. induction n as [|n IH]; intros b Hb Hn.
  { destruct b; [constructor|simpl in Hn; lia]. }
  destruct b as [|lo [|hi b]]; [constructor|constructor|].
  apply bytes_ok_cons in Hb as [Hlo Hb]. apply bytes_ok_cons in Hb as [Hhi Hb]. cbn [le_words].
  constructor; [|apply IH; [done|simpl in Hn; lia]].
  rewrite join_bytes by done. unfold byte_ok, word_ok in *. lia.
Qed.

Lemma decode_segments_ok l fuel ws segs :
  Forall word_ok ws → decode_segments l fuel ws = Ok segs → Forall (segment_ok l) segs.
Proof.
  revert ws segs. induction fuel as [|fuel IH]; intros ws segs Hw H; [done|].
  destruct ws as [|count [|start rest]]; simpl in H; [by injection H as <-|done|].
  apply Forall_cons in Hw as [_ Hw]. apply Forall_cons in Hw as [Hst Hr].
  destruct (len rest <? count); [done|]. destruct (valid_segment _ _) eqn:Hv; [|done]. simpl in H.
  apply bind_Ok in H as (segs' & Hs & [= <-]). constructor.
  - split; [done|]. split; [done|]. by apply Forall_take.
  - eapply IH; [|exact Hs]. by apply Forall_drop.
Qed.

Lemma run_updates_bounds id c es u lim :
  0 ≤ id → Forall word_ok es → 0 ≤ c → c + 1023 < 4294967296 → len es + id ≤ lim → lim < 4294967296 →
  u ∈ run_updates id c es →
  id ≤ u_id u < lim ∧ 1 ≤ u_hops u ≤ 64 ∧ c ≤ u_cost u ≤ c + 1023.
Proof.
  revert id. induction es as [|e es IH]; intros id H0 Hw Hc Hc' Hl Hlim Hu; [by apply elem_of_nil in Hu|].
  apply Forall_cons in Hw as [He Hw]. unfold word_ok in He. rewrite len_cons in Hl. pose proof (len_nonneg es).
  cbn [run_updates] in Hu. apply elem_of_cons in Hu as [->|Hu].
  - simpl. split; [lia|]. unfold entry_hops, entry_cost. change 1023 with (Z.ones 10).
    rewrite Z.land_ones, Z.shiftr_div_pow2 by lia. change (2 ^ 10) with 1024.
    pose proof (Z.mod_pos_bound e 1024 ltac:(lia)).
    assert (0 ≤ e / 1024 < 64) by (split; [apply Z.div_pos|apply Z.div_lt_upper_bound]; lia).
    rewrite u32_small by lia. change (Z.ones 10) with 1023. lia.
  - destruct (decide (es = [])) as [->|Hne]; [by apply elem_of_nil in Hu|].
    assert (0 < len es) by (destruct es; [done|rewrite len_cons; pose proof (len_nonneg es); lia]).
    rewrite u32_small in Hu by lia. destruct (IH (id + 1)) as (? & ? & ?); try done; lia.
Qed.

(** The words of a header are words. *)
Lemma decode_header_words buf h ws :
  bytes_ok buf → decode_header buf = Ok (h, ws) → Forall word_ok ws.
Proof.
  intros Hb Hh. unfold decode_header in Hh. apply bind_Ok in Hh as (ws0 & Hpw & Hh).
  assert (Forall word_ok ws0) as H0.
  { unfold payload_words in Hpw. destruct (len buf <? 4); [done|].
    destruct (bool_decide _ || _); [done|]. injection Hpw as <-.
    apply le_words_ok. by apply Forall_drop. }
  apply bind_Ok in Hh as (? & _ & Hh). apply bind_Ok in Hh as (? & _ & Hh).
  apply bind_Ok in Hh as (? & _ & Hh). destruct (removelast ws0) as [|w ws'] eqn:E; [done|].
  injection Hh as _ <-. rewrite <-E. destruct (exists_last (l:=ws0)) as (init & last & ->).
  { intros ->. done. }
  rewrite removelast_last. by apply Forall_app in H0 as [H0 _].
Qed.

Lemma parsed_segments buf l p :
  bytes_ok buf → parse_frame buf = Some (PPh4Routing l p) → Forall (segment_ok l) (segments p).
Proof.
  intros Hb Hp. unfold parse_frame, try_parse_indexed, parse_indexed in Hp.
  destruct (create routing_index buf) as [cls|e]; [|done]. cbn [mbind result_bind] in Hp.
  assert (Ph4_decode_into l buf = Ok p) as Hd.
  { destruct cls; cbn [decode_into] in Hp;
      lazymatch type of Hp with context [packet_decode ?a ?b ?c ?d] =>
        destruct (packet_decode a b c d) as [[? ?]|]; [simpl in Hp; congruence|done]
      | _ => idtac end.
    - destruct (Ph4_decode_into l0 buf) eqn:E; simpl in Hp; [|done]. by injection Hp as -> ->.
    - by destruct (Ph3_decode_into buf). }
  unfold Ph4_decode_into in Hd. apply bind_Ok in Hd as ([h ws] & Hh & Hd).
  apply bind_Ok in Hd as (segs & Hs & [= <-]).
  eapply decode_segments_ok; [by eapply decode_header_words|done].
Qed.

Lemma parsed_entries buf p :
  bytes_ok buf → parse_frame buf = Some (PPhaseIIIRouting p) → Forall word_ok (entries3 p).
Proof.
  intros Hb Hp. unfold parse_frame, try_parse_indexed, parse_indexed in Hp.
  destruct (create routing_index buf) as [cls|e]; [|done]. cbn [mbind result_bind] in Hp.
  assert (Ph3_decode_into buf = Ok p) as Hd.
  { destruct cls; cbn [decode_into] in Hp;
      lazymatch type of Hp with context [packet_decode ?a ?b ?c ?d] =>
        destruct (packet_decode a b c d) as [[? ?]|]; [simpl in Hp; congruence|done]
      | _ => idtac end.
    - by destruct (Ph4_decode_into l buf).
    - destruct (Ph3_decode_into buf); simpl in Hp; [|done]. by injection Hp as ->. }
  unfold Ph3_decode_into in Hd. apply bind_Ok in Hd as ([h ws] & Hh & [= <-]).
  by eapply decode_header_words.
Qed.

(** The bounds of a routing message.  Whatever frame arrives, if it is taken for a
    Phase IV routing message then every update it yields is within the table it will be
    applied to: a level 1 destination is a node number below 1024, a level 2 destination an
    area from 1 to 63; hops are between 1 and 64, and the cost is the circuit's plus at most
    1023.  A Phase III message yields nodes from 1 up. *)
Theorem routing_message_bounds (buf : Bytes) l p c u :
  bytes_ok buf → parse_frame buf = Some (PPh4Routing l p) → 0 ≤ c ≤ 65535 →
  u ∈ Ph4_updates c p →
  lowid l ≤ u_id u < (match l with Level1 => 1024 | Level2 => 64 end) ∧
  1 ≤ u_hops u ≤ 64 ∧ c ≤ u_cost u ≤ c + 1023.
Proof.
  intros Hb Hp Hc Hu. pose proof (parsed_segments buf l p Hb Hp) as Hok. unfold Ph4_updates in Hu.
  apply list_elem_of_In, in_flat_map in Hu as (s & Hin & Hu). apply list_elem_of_In in Hin, Hu.
  rewrite Forall_forall in Hok. destruct (Hok s Hin) as (Hv & Hst & He).
  apply valid_segment_spec in Hv as (_ & _ & Hlim & Hne). unfold word_ok in Hst.
  destruct (run_updates_bounds (startid s) c (seg_entries s) u _ ltac:(lia) He ltac:(lia) ltac:(lia) Hlim)
    as (H1 & H2 & H3); [by destruct l|done|]. destruct l; simpl; [lia|]. specialize (Hne eq_refl). lia.
Qed.

Lemma routing_message_bounds_witness :
  let p := mkPh4 (mkHeader true 3 0 false 1025) [mkSegment 1022 [32767; 0]] in
  parse_frame (Ph4_encode_packet p) = Some (PPh4Routing Level1 p) ∧
  1022 ≤ u_id (mkUpdate 1022 32 1027) < 1024.
Proof.
  set (p := mkPh4 _ _). assert (parse_frame (Ph4_encode_packet p) = Some (PPh4Routing Level1 p)) as H
    by (by vm_compute).
  split; [exact H|].
  assert (mkUpdate 1022 32 1027 ∈ Ph4_updates 4 p) as Hu by (vm_compute; left).
  destruct (routing_message_bounds (Ph4_encode_packet p) Level1 p 4 (mkUpdate 1022 32 1027)) as [[_ E] _];
    [by apply (bool_decide_unpack _)|exact H|lia|exact Hu|]. split; [done|exact E].
Defined.
