(* ===== verification/RouteTable.v ===== *)
(** The routing matrix: [RouteInfo], [EndnodesRouteInfo] and [RouteMatrix] of
    [include/decnet/routing/l1router.h], and [L1Router::compute] of
    [src/routing/l1router.cc].

    One column per neighbour says what it can reach; for every destination
    the computation picks the column with the lowest cost, the higher
    neighbour address among equals. *)

From S2P Require Import Prelude RoutingPackets.
#[local] Open Scope Z_scope.

(** An [Adjacency], as the routing table sees it.  None of these members
    changes after the constructor, so a pointer to the object is the record;
    [a_ptr] keeps distinct objects apart. *)
Record adjacency := mkAdj {
  a_ptr : Z;
  a_nodeid : Z;
  a_ntype : Z;
  a_circuit : option Z;
  a_cost : Z;
}.
#[export] Instance adjacency_eq_dec : EqDecision adjacency.
Proof. solve_decision. Defined.
#[export] Instance adjacency_inhabited : Inhabited adjacency := populate (mkAdj 0 0 0 None 0).

(** [RouteInfo], and [EndnodesRouteInfo] with its adjacency per destination. *)
Record RouteInfo := mkRoute { hops : list Z; cost : list Z; radj : adjacency }.
Record EndnodesRouteInfo := mkEndnodes {
  e_hops : list Z; e_cost : list Z; e_adjacencies : list (option adjacency) }.

Definition new_route (maxid : nat) (a : adjacency) : RouteInfo :=
  mkRoute (replicate (S maxid) INFHOPS) (replicate (S maxid) INFCOST) a.
Definition new_endnodes (maxid : nat) : EndnodesRouteInfo :=
  mkEndnodes (replicate (S maxid) INFHOPS) (replicate (S maxid) INFCOST) (replicate (S maxid) None).

Definition set_route (i : nat) (h c : Z) (r : RouteInfo) : RouteInfo :=
  mkRoute (<[i := h]> (hops r)) (<[i := c]> (cost r)) (radj r).
Definition set_endnode (i : nat) (h c : Z) (a : option adjacency) (e : EndnodesRouteInfo) :=
  mkEndnodes (<[i := h]> (e_hops e)) (<[i := c]> (e_cost e)) (<[i := a]> (e_adjacencies e)).

(** What a column offers for a destination: hops, cost, and the virtual
    [adjacency (i)]. *)
Definition offer : Type := Z * Z * option adjacency.
Definition o_hops (o : offer) : Z := o.1.1.
Definition o_cost (o : offer) : Z := o.1.2.
Definition o_adj (o : offer) : option adjacency := o.2.

Definition route_offer (i : nat) (r : RouteInfo) : offer :=
  (default INFHOPS (hops r !! i), default INFCOST (cost r !! i), Some (radj r)).
Definition endnode_offer (i : nat) (e : EndnodesRouteInfo) : offer :=
  (default INFHOPS (e_hops e !! i), default INFCOST (e_cost e !! i), default None (e_adjacencies e !! i)).

(** [RouteMatrix]; the columns are keyed by the identity of the adjacency. *)
Record RouteMatrix := mkMatrix {
  columns : gmap Z RouteInfo;
  minhops : list Z;
  mincost : list Z;
  oadj : list (option adjacency);
  maxid : nat;
  maxhops : Z;
  maxcost : Z;
}.

(** [resize]. *)
Definition new_matrix (maxid : nat) (maxhops maxcost : Z) : RouteMatrix :=
  mkMatrix ∅ (replicate (S maxid) INFHOPS) (replicate (S maxid) INFCOST) (replicate (S maxid) None)
    maxid maxhops maxcost.

Definition with_columns (c : gmap Z RouteInfo) (m : RouteMatrix) : RouteMatrix :=
  mkMatrix c (minhops m) (mincost m) (oadj m) (maxid m) (maxhops m) (maxcost m).
Definition with_best (i : nat) (h c : Z) (m : RouteMatrix) : RouteMatrix :=
  mkMatrix (columns m) (<[i := h]> (minhops m)) (<[i := c]> (mincost m)) (oadj m) (maxid m) (maxhops m) (maxcost m).
Definition with_oadj (i : nat) (a : option adjacency) (m : RouteMatrix) : RouteMatrix :=
  mkMatrix (columns m) (minhops m) (mincost m) (<[i := a]> (oadj m)) (maxid m) (maxhops m) (maxcost m).

(** ** The choice *)

Definition no_route : offer := (INFHOPS, INFCOST, None).

(** The [consider] of [compute]. *)
Definition consider (best o : offer) : offer :=
  if (o_cost o <? o_cost best)
     || ((o_cost o =? o_cost best)
         && match o_adj o, o_adj best with Some a, Some b => a_nodeid b <? a_nodeid a | _, _ => false end)
  then o else best.

Definition offers (cols : list RouteInfo) (extra : option EndnodesRouteInfo) (i : nat) : list offer :=
  map (route_offer i) cols ++ match extra with Some e => [endnode_offer i e] | None => [] end.

(** The limits, which leave the destination without a route. *)
Definition within (m : RouteMatrix) (best : offer) : offer :=
  if (maxcost m <? o_cost best) || (maxhops m <? o_hops best) then no_route else best.

Definition matrix_columns (m : RouteMatrix) : list RouteInfo := (map_to_list (columns m)).*2.
Definition select (m : RouteMatrix) (extra : option EndnodesRouteInfo) (i : nat) : offer :=
  within m (foldl consider no_route (offers (matrix_columns m) extra i)).

(** What the computation reports, in the order it happens. *)
Inductive note := Changed (i : nat) | Reached (i : nat) (reachable : bool).

(** One destination of [compute]; [self] is this node's own adjacency. *)
Definition compute_one (self : adjacency) (extra : option EndnodesRouteInfo) (i : nat) (m : RouteMatrix) :
    RouteMatrix * list note :=
  let '(besth, bestc, besta) := select m extra i in
  let changed := negb (default INFHOPS (minhops m !! i) =? besth)
                 || negb (default INFCOST (mincost m !! i) =? bestc) in
  let m1 := if changed then with_best i (u8 besth) (u16 bestc) m else m in
  let old := default None (oadj m !! i) in
  if bool_decide (besta = old) then (m1, if changed then [Changed i] else [])
  else
    let reach_change := match besta, old with Some _, Some _ => false | _, _ => true end in
    (with_oadj i besta m1,
     (if changed then [Changed i] else []) ++
     (if reach_change && negb (bool_decide (besta = Some self))
      then [Reached i (bool_decide (besta ≠ None))] else [])).

(** [compute]: the destinations from [first] to [last]. *)
Definition compute (self : adjacency) (extra : option EndnodesRouteInfo) (first last : nat) (m : RouteMatrix) :
    RouteMatrix * list note :=
  let last := Nat.min last (maxid m) in
  foldl (λ '(m, notes) i, let '(m, ns) := compute_one self extra i m in (m, notes ++ ns))
        (m, []) (seq first (S last - first)).

(** ** The best offer *)

(** An offer that can be chosen names an adjacency. *)
Definition offer_ok (o : offer) : Prop := INFCOST ≤ o_cost o ∨ is_Some (o_adj o).

(** [o] is at least as good as [o']. *)
Definition beats (o o' : offer) : Prop :=
  o_cost o < o_cost o' ∨
  (o_cost o = o_cost o' ∧ ∀ a a', o_adj o = Some a → o_adj o' = Some a' → a_nodeid a' ≤ a_nodeid a).

(** The result of the search over [os]: nothing, or the best of them. *)
Definition best_of (os : list offer) (b : offer) : Prop :=
  (b = no_route ∧ Forall (λ o, INFCOST ≤ o_cost o) os) ∨
  (b ∈ os ∧ o_cost b < INFCOST ∧ Forall (beats b) os).

Lemma no_route_cost : o_cost no_route = INFCOST.
Proof. done. Qed.

Lemma consider_best os o b :
  offer_ok o → Forall offer_ok os → best_of os b → best_of (os ++ [o]) (consider b o).
Proof.
  intros Ho Hos Hb. unfold consider.
  destruct Hb as [[-> Hf]|(Hin & Hc & Hf)].
  - rewrite no_route_cost. replace (o_adj no_route) with (@None adjacency) by done.
    destruct (Z.ltb_spec (o_cost o) INFCOST) as [Hlt|Hge]; simpl.
    + right. split; [apply elem_of_app; right; by left|]. split; [done|].
      apply Forall_app. split; [|constructor; [|done]].
      * eapply Forall_impl; [exact Hf|]. intros o' Ho'. left. cbv beta in Ho'. lia.
      * right. split; [done|]. intros a a' E E'. rewrite E in E'. injection E' as ->. lia.
    + replace (match o_adj o with Some _ | None => false end) with false by (by destruct (o_adj o)).
      rewrite andb_false_r. left. split; [done|]. apply Forall_app. split; [done|]. by constructor.
  - assert (is_Some (o_adj b)) as [ab Eb].
    { rewrite Forall_forall in Hos. destruct (Hos b Hin); [lia|done]. }
    rewrite Eb. destruct (Z.ltb_spec (o_cost o) (o_cost b)) as [Hlt|Hge]; simpl.
    + right. split; [apply elem_of_app; right; by left|]. split; [lia|].
      apply Forall_app. split; [|constructor; [|done]].
      * eapply Forall_impl; [exact Hf|]. intros o' [Ho'|[Ho' _]]; left; lia.
      * right. split; [done|]. intros a a' E E'. rewrite E in E'. injection E' as ->. lia.
    + destruct (Z.eqb_spec (o_cost o) (o_cost b)) as [He|Hne]; simpl.
      * assert (is_Some (o_adj o)) as [ao Eo] by (destruct Ho; [lia|done]). rewrite Eo.
        destruct (Z.ltb_spec (a_nodeid ab) (a_nodeid ao)) as [Hlt|Hge'].
        -- right. split; [apply elem_of_app; right; by left|]. split; [lia|].
           apply Forall_app. split; [|constructor; [|done]].
           ++ eapply Forall_impl; [exact Hf|]. intros o' [Ho'|[Ho' Ha]]; [left; lia|right].
              split; [lia|]. intros a a' E E'. rewrite Eo in E. injection E as <-.
              specialize (Ha _ _ Eb E'). lia.
           ++ right. split; [done|]. intros a a' E E'. rewrite E in E'. injection E' as ->. lia.
        -- right. split; [apply elem_of_app; by left|]. split; [done|].
           apply Forall_app. split; [done|]. constructor; [|done]. right. split; [done|].
           intros a a' E E'. rewrite Eb in E. rewrite Eo in E'. simplify_eq. lia.
      * right. split; [apply elem_of_app; by left|]. split; [done|].
        apply Forall_app. split; [done|]. constructor; [|done]. left. lia.
Qed.

Lemma foldl_consider_best os : Forall offer_ok os → best_of os (foldl consider no_route os).
Proof.
  intros H. assert (∀ os' b, Forall offer_ok os' → best_of os' b →
    best_of (os' ++ os) (foldl consider b os)) as Hg; [|by apply (Hg []); [|left]].
  induction H as [|o os Ho Hos IH]; intros os' b Hos' Hb; simpl; [by rewrite app_nil_r|].
  rewrite cons_middle, app_assoc. apply IH; [|by apply consider_best].
  apply Forall_app. split; [done|by constructor].
Qed.

(** Two offers through neighbours of the same address are the same offer. *)
Definition distinct (os : list offer) : Prop :=
  ∀ o o' a a', o ∈ os → o' ∈ os → o_adj o = Some a → o_adj o' = Some a' →
    a_nodeid a = a_nodeid a' → o = o'.

(** The best offer does not depend on the order of the search. *)
Lemma best_of_unique os os' b b' :
  (∀ o, o ∈ os ↔ o ∈ os') → Forall offer_ok os → distinct os → best_of os b → best_of os' b' → b = b'.
Proof.
  intros Hs Hok Hd [[-> Hf]|(Hin & Hc & Hf)] [[-> Hf']|(Hin' & Hc' & Hf')].
  - done.
  - rewrite Forall_forall in Hf. apply Hs, Hf in Hin'. lia.
  - rewrite Forall_forall in Hf'. apply Hs, Hf' in Hin. lia.
  - rewrite Forall_forall in Hok, Hf, Hf'. apply Hs in Hin'.
    destruct (Hok b Hin) as [|[a Ea]]; [lia|]. destruct (Hok b' Hin') as [|[a' Ea']]; [lia|].
    destruct (Hf b' Hin') as [|[E1 N1]]; [|]; destruct (Hf' b (proj1 (Hs b) Hin)) as [|[E2 N2]]; [lia..|].
    eapply (Hd b b' a a'); try done. specialize (N1 _ _ Ea Ea'). specialize (N2 _ _ Ea' Ea). lia.
Qed.

(** ** Well-formed tables *)

Definition route_ok (maxid : nat) (r : RouteInfo) : Prop :=
  length (hops r) = S maxid ∧ length (cost r) = S maxid ∧
  Forall (λ h, 0 ≤ h ≤ INFHOPS) (hops r) ∧ Forall (λ c, 0 ≤ c ≤ INFCOST) (cost r).

Definition endnodes_ok (maxid : nat) (e : EndnodesRouteInfo) : Prop :=
  length (e_hops e) = S maxid ∧ length (e_cost e) = S maxid ∧ length (e_adjacencies e) = S maxid ∧
  Forall (λ h, 0 ≤ h ≤ INFHOPS) (e_hops e) ∧ Forall (λ c, 0 ≤ c < 65536) (e_cost e) ∧
  ∀ i, e_adjacencies e !! i = Some None → e_cost e !! i = Some INFCOST.

Record matrix_ok (m : RouteMatrix) : Prop := {
  mo_hops : length (minhops m) = S (maxid m);
  mo_cost : length (mincost m) = S (maxid m);
  mo_oadj : length (oadj m) = S (maxid m);
  mo_columns : map_Forall (λ _, route_ok (maxid m)) (columns m);
}.

Definition extra_ok (maxid : nat) (extra : option EndnodesRouteInfo) : Prop :=
  match extra with Some e => endnodes_ok maxid e | None => True end.

(** The table's answer for a destination. *)
Definition row (m : RouteMatrix) (i : nat) : offer :=
  (default INFHOPS (minhops m !! i), default INFCOST (mincost m !! i), default None (oadj m !! i)).

Lemma default_forall {A} (P : A → Prop) d l i : P d → Forall P l → P (default d (l !! i)).
Proof. intros Hd Hl. destruct (l !! i) eqn:E; [|done]. rewrite Forall_forall in Hl. apply Hl. by eapply list_elem_of_lookup_2. Qed.

Definition offer_range (o : offer) : Prop := 0 ≤ o_hops o < 256 ∧ 0 ≤ o_cost o < 65536.

Lemma elem_of_matrix_columns m r : r ∈ matrix_columns m ↔ ∃ k, columns m !! k = Some r.
Proof.
  unfold matrix_columns. rewrite list_elem_of_fmap. split.
  - intros ([k r'] & -> & H%elem_of_map_to_list). eauto.
  - intros [k H]. exists (k, r). by rewrite elem_of_map_to_list.
Qed.

Lemma offers_ok m extra i :
  matrix_ok m → extra_ok (maxid m) extra →
  Forall (λ o, offer_ok o ∧ offer_range o) (offers (matrix_columns m) extra i).
Proof.
  intros Hm He. apply Forall_app. split.
  - apply Forall_map, Forall_forall. intros r [k Hr]%elem_of_matrix_columns. simpl.
    destruct (mo_columns m Hm _ _ Hr) as (_ & _ & Hh & Hc). split; [right; by eexists|].
    unfold offer_range, o_hops, o_cost. simpl. split.
    + apply (default_forall (λ h, 0 ≤ h < 256)); [done|]. eapply Forall_impl; [exact Hh|].
      unfold INFHOPS. simpl. lia.
    + apply (default_forall (λ c, 0 ≤ c < 65536)); [done|]. eapply Forall_impl; [exact Hc|].
      unfold INFCOST. simpl. lia.
  - destruct extra as [e|]; constructor; [|done].
    destruct He as (_ & Hl2 & Hl3 & Hh & Hc & Ha). split.
    + unfold offer_ok, o_cost, o_adj. simpl. destruct (e_adjacencies e !! i) as [[a|]|] eqn:E; simpl.
      * right. by eexists.
      * rewrite (Ha _ E). left. done.
      * destruct (e_cost e !! i) eqn:Ec; [|by left]. left. exfalso.
        apply lookup_ge_None in E. apply lookup_lt_Some in Ec. lia.
    + unfold offer_range, o_hops, o_cost. simpl. split.
      * apply (default_forall (λ h, 0 ≤ h < 256)); [done|]. eapply Forall_impl; [exact Hh|].
        unfold INFHOPS. simpl. lia.
      * apply (default_forall (λ c, 0 ≤ c < 65536)); [done|]. done.
Qed.

(** The answer the specification wants: the best offer, if it is within limits. *)
Definition chosen (m : RouteMatrix) (extra : option EndnodesRouteInfo) (i : nat) (o : offer) : Prop :=
  ∃ b, best_of (offers (matrix_columns m) extra i) b ∧ o = within m b.

Lemma select_chosen m extra i :
  matrix_ok m → extra_ok (maxid m) extra →
  chosen m extra i (select m extra i) ∧ offer_range (select m extra i).
Proof.
  intros Hm He. pose proof (offers_ok m extra i Hm He) as Ho.
  pose proof (foldl_consider_best (offers (matrix_columns m) extra i)
                ltac:(eapply Forall_impl; [exact Ho|]; by intros ? [? _])) as Hb.
  split; [by eexists|]. unfold select, within.
  destruct ((maxcost m <? _) || _); [done|]. destruct Hb as [[-> _]|(Hin & _)]; [done|].
  rewrite Forall_forall in Ho. by apply Ho.
Qed.

Lemma lookup_default_insert {A} (d : A) l i v : (i < length l)%nat → default d (<[i := v]> l !! i) = v.
Proof. intros H. by rewrite list_lookup_insert_eq. Qed.

Lemma compute_one_spec self extra i m :
  matrix_ok m → extra_ok (maxid m) extra → (i ≤ maxid m)%nat →
  let m' := (compute_one self extra i m).1 in
  matrix_ok m' ∧ columns m' = columns m ∧ maxid m' = maxid m ∧ maxhops m' = maxhops m ∧
  maxcost m' = maxcost m ∧ row m' i = select m extra i ∧ (∀ j, j ≠ i → row m' j = row m j).
Proof.
  intros Hm He Hi. unfold compute_one. destruct (select_chosen m extra i Hm He) as [_ [Hr1 Hr2]].
  destruct (select m extra i) as [[h c] a] eqn:Es. unfold o_hops, o_cost in *. simpl in Hr1, Hr2.
  rewrite u8_small, u16_small by lia.
  set (ch := negb _ || _). set (m1 := if ch then with_best i h c m else m).
  assert (matrix_ok m1 ∧ columns m1 = columns m ∧ maxid m1 = maxid m ∧ maxhops m1 = maxhops m ∧
    maxcost m1 = maxcost m ∧ oadj m1 = oadj m ∧ default INFHOPS (minhops m1 !! i) = h ∧
    default INFCOST (mincost m1 !! i) = c ∧ (∀ j, j ≠ i → row m1 j = row m j)) as
    (Ho & E1 & E2 & E3 & E4 & E5 & Eh & Ec & Ej).
  { destruct Hm. unfold m1. destruct ch eqn:Hch.
    - simpl. split_and!; try done; [constructor; simpl; rewrite ?length_insert; done| | |].
      + apply lookup_default_insert. lia.
      + apply lookup_default_insert. lia.
      + intros j Hj. unfold row. simpl. by rewrite !list_lookup_insert_ne by done.
    - unfold ch in Hch. zbool. by split_and!. }
  destruct (bool_decide (a = _)) eqn:Ea; cbn [fst].
  - apply bool_decide_eq_true in Ea. split_and!; try done. unfold row. by rewrite Eh, Ec, E5, <-Ea.
  - destruct Ho. split_and!; simpl; try done.
    + constructor; simpl; rewrite ?length_insert; done.
    + unfold row. simpl. rewrite Eh, Ec, lookup_default_insert; [done|]. rewrite mo_oadj0. lia.
    + intros j Hj. rewrite <-(Ej j Hj). unfold row. simpl. by rewrite list_lookup_insert_ne by done.
Qed.

Lemma select_ext m m' extra i :
  columns m = columns m' → maxhops m = maxhops m' → maxcost m = maxcost m' →
  select m extra i = select m' extra i.
Proof. intros E1 E2 E3. unfold select, within, matrix_columns. by rewrite E1, E2, E3. Qed.

Lemma compute_spec self extra first last m :
  matrix_ok m → extra_ok (maxid m) extra →
  let m' := (compute self extra first last m).1 in
  matrix_ok m' ∧ columns m' = columns m ∧ maxid m' = maxid m ∧ maxhops m' = maxhops m ∧
  maxcost m' = maxcost m ∧
  (∀ i, (first ≤ i ≤ last ∧ i ≤ maxid m)%nat → row m' i = select m extra i) ∧
  (∀ i, ¬ (first ≤ i ≤ last ∧ i ≤ maxid m)%nat → row m' i = row m i).
Proof.
  intros Hm He. unfold compute. set (l := seq first _).
  assert (∀ i, i ∈ l ↔ (first ≤ i ≤ last ∧ i ≤ maxid m)%nat) as Hl.
  { intros i. unfold l. rewrite elem_of_seq. lia. }
  set (f := λ '(m, notes) i, _).
  assert (∀ l m0 ns, Forall (λ i, (i ≤ maxid m)%nat) l → matrix_ok m0 → columns m0 = columns m →
    maxid m0 = maxid m → maxhops m0 = maxhops m → maxcost m0 = maxcost m →
    let m' := (foldl f (m0, ns) l).1 in
    matrix_ok m' ∧ columns m' = columns m ∧ maxid m' = maxid m ∧ maxhops m' = maxhops m ∧
    maxcost m' = maxcost m ∧ (∀ i, i ∈ l → row m' i = select m extra i) ∧
    (∀ i, i ∉ l → row m' i = row m0 i)) as H.
  { clear l Hl. induction l as [|i l IH]; intros m0 ns Hall H0 E1 E2 E3 E4; cbn [foldl].
    { split_and!; try done. intros i Hi. by apply elem_of_nil in Hi. }
    apply Forall_cons in Hall as [Hi Hall].
    pose proof (compute_one_spec self extra i m0 H0) as Hone.
    rewrite E2 in Hone. specialize (Hone He Hi). 
    assert (∃ ns', f (m0, ns) i = ((compute_one self extra i m0).1, ns')) as [ns' ->].
    { unfold f. destruct (compute_one self extra i m0). by eexists. }
    cbv zeta in Hone. set (m1 := (compute_one self extra i m0).1) in *.
    destruct Hone as (G1 & G2 & G3 & G4 & G5 & G6 & G7).
    destruct (IH m1 ns' Hall G1) as (K1 & K2 & K3 & K4 & K5 & K6 & K7); [congruence..|].
    split_and!; try done.
    - intros j [->|Hj]%elem_of_cons; [|by apply K6].
      destruct (decide (i ∈ l)) as [Hin|Hin]; [by apply K6|]. rewrite (K7 i Hin), G6.
      by apply select_ext.
    - intros j Hj. apply not_elem_of_cons in Hj as [Hne Hj]. rewrite (K7 j Hj). by apply G7. }
  destruct (H l m []) as (K1 & K2 & K3 & K4 & K5 & K6 & K7); try done.
  { apply Forall_forall. intros i Hi. apply Hl in Hi. lia. }
  split_and!; try done; intros i Hi; [apply K6|apply K7]; by rewrite Hl.
Qed.

(** What is reported of one destination. *)
Definition rating (o : offer) : Z * Z := o.1.

Lemma compute_one_notes self extra i m j :
  matrix_ok m → extra_ok (maxid m) extra → (i ≤ maxid m)%nat →
  let m' := (compute_one self extra i m).1 in
  Changed j ∈ (compute_one self extra i m).2 ↔ j = i ∧ rating (row m' i) ≠ rating (row m i).
Proof.
  intros Hm He Hi m'. pose proof (compute_one_spec self extra i m Hm He Hi) as Hs. cbv zeta in Hs.
  destruct Hs as (_ & _ & _ & _ & _ & Hrow & _). fold m' in Hrow. rewrite Hrow.
  unfold compute_one. destruct (select m extra i) as [[h c] a].
  set (ch := negb _ || _).
  assert (ch = true ↔ rating (h, c, a) ≠ rating (row m i)) as Hch.
  { unfold ch, rating, row. simpl. rewrite orb_true_iff, !negb_true_iff, !Z.eqb_neq.
    split; [intros [?|?]; congruence|]. intros Hne.
    destruct (decide (default INFHOPS (minhops m !! i) = h)); [right|by left]. congruence. }
  set (tail := if _ && _ then [Reached i _] else []).
  assert (Changed j ∉ tail) as Ht.
  { unfold tail. destruct (_ && _); [|apply not_elem_of_nil].
    rewrite list_elem_of_singleton. done. }
  assert (Changed j ∈ (if ch then [Changed i] else []) ↔ j = i ∧ ch = true) as Hc.
  { clearbody ch. clear. destruct ch; [rewrite list_elem_of_singleton|rewrite elem_of_nil];
      intuition congruence. }
  rewrite <-Hch. clearbody tail. destruct (bool_decide (a = default None (oadj m !! i))); cbn [snd]; [exact Hc|].
  rewrite elem_of_app. tauto.
Qed.

Lemma compute_notes self extra first last m j :
  matrix_ok m → extra_ok (maxid m) extra → (first ≤ j ≤ last ∧ j ≤ maxid m)%nat →
  let '(m', notes) := compute self extra first last m in
  rating (row m' j) ≠ rating (row m j) → Changed j ∈ notes.
Proof.
  intros Hm He Hj. unfold compute. set (l := seq first _).
  assert (j ∈ l) as Hin by (unfold l; rewrite elem_of_seq; lia).
  assert (NoDup l) as Hnd by apply NoDup_seq.
  assert (Forall (λ i, (i ≤ maxid m)%nat) l) as Hall.
  { apply Forall_forall. intros i. unfold l. rewrite elem_of_seq. lia. }
  set (f := λ '(m, notes) i, _). clearbody l.
  assert (∀ l m0 ns, Forall (λ i, (i ≤ maxid m0)%nat) l → NoDup l → matrix_ok m0 →
    extra_ok (maxid m0) extra →
    let '(m', notes) := foldl f (m0, ns) l in
    (∀ n, n ∈ ns → n ∈ notes) ∧ (j ∉ l → row m' j = row m0 j) ∧
    (j ∈ l → rating (row m' j) ≠ rating (row m0 j) → Changed j ∈ notes)) as H.
  { clear. induction l as [|i l IH]; intros m0 ns Hall Hnd H0 He; cbn [foldl].
    { split_and!; try done. }
    apply Forall_cons in Hall as [Hi Hall]. apply NoDup_cons in Hnd as [Hil Hnd].
    pose proof (compute_one_spec self extra i m0 H0 He Hi) as Hone.
    pose proof (compute_one_notes self extra i m0 j H0 He Hi) as Hnote. cbv zeta in Hone, Hnote.
    assert (f (m0, ns) i = ((compute_one self extra i m0).1, ns ++ (compute_one self extra i m0).2)) as ->.
    { unfold f. by destruct (compute_one self extra i m0). }
    set (m1 := (compute_one self extra i m0).1) in *. set (ns1 := (compute_one self extra i m0).2) in *.
    destruct Hone as (G1 & G2 & G3 & G4 & G5 & G6 & G7).
    specialize (IH m1 (ns ++ ns1)). rewrite G3 in IH. specialize (IH Hall Hnd G1 He).
    destruct (foldl f (m1, ns ++ ns1) l) as [m' notes]. destruct IH as (K1 & K2 & K3).
    split_and!.
    - intros n Hn. apply K1, elem_of_app. by left.
    - intros Hj. apply not_elem_of_cons in Hj as [Hne Hj]. rewrite (K2 Hj). by apply G7.
    - intros [->|Hj]%elem_of_cons Hr.
      + apply K1, elem_of_app. right. apply Hnote. split; [done|]. by rewrite <-(K2 Hil).
      + apply K3; [done|]. rewrite G7; [done|]. by intros ->. }
  specialize (H l m [] Hall Hnd Hm He). destruct (foldl f (m, []) l) as [m' notes].
  destruct H as (_ & _ & H). by apply H.
Qed.

(** The choice of routes.  After the computation, every destination of the range has
    the best offer of all the columns, by cost and then by the neighbour's address, or no
    route when there is none, or when the best one is beyond the limits; the other
    destinations and the columns are left alone; and every destination whose hops or cost
    changed has been reported for advertisement. *)
Theorem compute_chooses_best self extra first last m :
  matrix_ok m → extra_ok (maxid m) extra →
  let '(m', notes) := compute self extra first last m in
  matrix_ok m' ∧ columns m' = columns m ∧
  ∀ i, (i ≤ maxid m)%nat →
    if decide (first ≤ i ≤ last)%nat
    then chosen m extra i (row m' i) ∧ (rating (row m' i) ≠ rating (row m i) → Changed i ∈ notes)
    else row m' i = row m i.
Proof.
  intros Hm He. pose proof (compute_spec self extra first last m Hm He) as Hs.
  pose proof (λ j, compute_notes self extra first last m j Hm He) as Hn.
  destruct (compute self extra first last m) as [m' notes]. cbn [fst] in Hs.
  destruct Hs as (H1 & H2 & _ & _ & _ & H6 & H7). split; [done|]. split; [done|]. intros i Hi.
  destruct (decide _) as [Hd|Hd].
  - split; [|by apply Hn]. rewrite H6 by done. by apply select_chosen.
  - apply H7. tauto.
Qed.

(** The choice does not depend on the order the columns are visited in, which is that
    of their addresses in memory: as long as no two neighbours have the same node address,
    any order gives the same route. *)
Theorem choice_order_free os os' :
  Permutation os os' → Forall offer_ok os → distinct os →
  foldl consider no_route os = foldl consider no_route os'.
Proof.
  intros Hp Ho Hd. apply (best_of_unique os os').
  - intros o. by rewrite Hp.
  - done.
  - done.
  - by apply foldl_consider_best.
  - apply foldl_consider_best. by rewrite <-Hp.
Qed.

(** Three neighbours: two tie, and the third is dearer. *)
Definition example_adj (n : Z) : adjacency := mkAdj n (1024 + n) L1ROUTER (Some n) 4.
Definition example_matrix : RouteMatrix :=
  with_columns (list_to_map [(1, set_route 3 2 8 (new_route 5 (example_adj 1)));
                             (2, set_route 3 1 8 (new_route 5 (example_adj 2)));
                             (3, set_route 3 1 9 (new_route 5 (example_adj 3)))])
    (new_matrix 5 16 1022).

Lemma example_matrix_ok : matrix_ok example_matrix.
Proof.
  constructor; try reflexivity. apply (bool_decide_unpack _). vm_compute. exact I.
Qed.

Lemma compute_chooses_best_witness :
  let '(m', notes) := compute (example_adj 9) (Some (new_endnodes 5)) 0 5 example_matrix in
  chosen example_matrix (Some (new_endnodes 5)) 3 (row m' 3) ∧
  row m' 3 = (1, 8, Some (example_adj 2)) ∧ Changed 3 ∈ notes.
Proof.
  pose proof (compute_chooses_best (example_adj 9) (Some (new_endnodes 5)) 0 5 example_matrix
    example_matrix_ok) as H.
  assert (extra_ok (maxid example_matrix) (Some (new_endnodes 5))) as He.
  { split_and!; try reflexivity; try (by apply (bool_decide_unpack _)).
    intros i Hi. apply lookup_replicate in Hi as [_ Hi]. by apply lookup_replicate. }
  specialize (H He).
  assert (row (compute (example_adj 9) (Some (new_endnodes 5)) 0 5 example_matrix).1 3 =
    (1, 8, Some (example_adj 2))) as Hr by (by vm_compute).
  destruct (compute _ _ _ _ _) as [m' notes]. destruct H as (_ & _ & H).
  specialize (H 3%nat ltac:(simpl; lia)). destruct (decide _) as [_|Hn]; [|lia].
  destruct H as [Hc Hn]. split; [exact Hc|]. cbn [fst] in Hr. split; [exact Hr|].
  apply Hn. rewrite Hr. vm_compute. congruence.
Defined.

Lemma choice_order_free_witness :
  let os := offers (matrix_columns example_matrix) None 3 in
  foldl consider no_route os = foldl consider no_route (rev os).
Proof.
  intros os. apply (choice_order_free os (rev os)).
  - apply Permutation_rev.
  - apply (Forall_impl (λ o, offer_ok o ∧ offer_range o)); [|by intros ? [? _]].
    apply (offers_ok example_matrix None 3 example_matrix_ok). exact I.
  - vm_compute. intros o o' a a' Ho Ho' Ea Ea' En.
    repeat (apply elem_of_cons in Ho as [->|Ho]); [..|by apply elem_of_nil in Ho];
    (repeat (apply elem_of_cons in Ho' as [->|Ho']); [..|by apply elem_of_nil in Ho']);
    simplify_eq; try reflexivity; discriminate En.
Defined.
