(* ===== verification/L1Router.v ===== *)
(** Level 1 and level 2 routing: [class L1Router], [class L2Router] and
    [class Update] of [include/decnet/routing/l1router.h] and
    [src/routing/l1router.cc], with the table of adjacencies of [BaseRouter].

    A router is one record; the members of [L2Router] are idle in a level 1
    router.  What it needs to know of its circuits is the interface
    [Circuits]; what it does to them is its log. *)

From S2P Require Import Prelude Buffer Types Codec Layout Indexed RoutingPackets RouteTable Float.
#[local] Open Scope Z_scope.

(** What the update process asks of a circuit: [wants_updates (level)] and
    [update_blksize ()]. *)
Class Circuits := {
  wants_updates : Z → Z → bool;
  update_blksize : Z → Z;
}.

(** The counters of [CircuitCounters] that forwarding keeps. *)
Inductive cctr := orig_sent | trans_recv | trans_sent | term_recv.
#[export] Instance cctr_eq_dec : EqDecision cctr.
Proof. solve_decision. Defined.

(** What leaves the routing layer. *)
Inductive output :=
| NodeReach (tid : nat) (reachable : bool)        (* event 4.14 *)
| AreaReach (area : nat) (reachable : bool)       (* event 4.17 *)
| PartialLoss (circuit : option Z) (highest : Z)  (* event 4.3 *)
| PacketLoss (code : Z) (circuit : option Z) (pkt : ShortData.t)  (* events 4.0, 4.1, 4.2 *)
| Transmit (a : adjacency) (pkt : ShortData.t)
| Deliver (pkt : ShortData.t)
| DeliverLater (pkt : ShortData.t)
| UpdateFrame (circuit : Z) (frame : Bytes).

(** [class Update]. *)
Record update := mkUpd {
  u_level : Z;
  srm : list bool;
  any_srm : bool;
  holdoff : bool;
  running : bool;
  u_t1 : double;
  lastfull : Z;
  next_interval : double;
  last_complete : bool;
  u_timer : option double;
}.
Definition new_update (level : Z) (maxnodes : nat) (t1 : double) : update :=
  mkUpd level (replicate (if (level =? 2)%Z then 64%nat else S maxnodes) false) false false false t1 0 f0 false None.

(** The members of [BaseRouter], [L1Router] and [L2Router]. *)
Record router := mkRouter {
  nodeid : Z;
  is_l2 : bool;
  maxnodes : nat;
  maxarea : nat;
  maxvisits : Z;
  self : adjacency;
  endnodes : EndnodesRouteInfo;
  l1 : RouteMatrix;
  l2 : RouteMatrix;
  attached : bool;
  updates : gmap Z update;
  area_updates : gmap Z update;
  adjacencies : gmap Z adjacency;
  aged_loss : Z; unreach_loss : Z; oor_loss : Z; transit_sent : Z; partial_update_loss : Z;
  for_us : Z;
  circuit_counters : Z → cctr → Z;
  outputs : list output;
}.

Definition with_endnodes (v : EndnodesRouteInfo) (r : router) : router :=
  mkRouter (nodeid r) (is_l2 r) (maxnodes r) (maxarea r) (maxvisits r) (self r) v (l1 r) (l2 r)
  (attached r) (updates r) (area_updates r) (adjacencies r) (aged_loss r) (unreach_loss r)
  (oor_loss r) (transit_sent r) (partial_update_loss r) (for_us r) (circuit_counters r) (outputs
  r).
Definition with_l1 (v : RouteMatrix) (r : router) : router :=
  mkRouter (nodeid r) (is_l2 r) (maxnodes r) (maxarea r) (maxvisits r) (self r) (endnodes r) v (l2
  r) (attached r) (updates r) (area_updates r) (adjacencies r) (aged_loss r) (unreach_loss r)
  (oor_loss r) (transit_sent r) (partial_update_loss r) (for_us r) (circuit_counters r) (outputs
  r).
Definition with_l2 (v : RouteMatrix) (r : router) : router :=
  mkRouter (nodeid r) (is_l2 r) (maxnodes r) (maxarea r) (maxvisits r) (self r) (endnodes r) (l1
  r) v (attached r) (updates r) (area_updates r) (adjacencies r) (aged_loss r) (unreach_loss r)
  (oor_loss r) (transit_sent r) (partial_update_loss r) (for_us r) (circuit_counters r) (outputs
  r).
Definition with_attached (v : bool) (r : router) : router :=
  mkRouter (nodeid r) (is_l2 r) (maxnodes r) (maxarea r) (maxvisits r) (self r) (endnodes r) (l1
  r) (l2 r) v (updates r) (area_updates r) (adjacencies r) (aged_loss r) (unreach_loss r)
  (oor_loss r) (transit_sent r) (partial_update_loss r) (for_us r) (circuit_counters r) (outputs
  r).
Definition with_updates (v : gmap Z update) (r : router) : router :=
  mkRouter (nodeid r) (is_l2 r) (maxnodes r) (maxarea r) (maxvisits r) (self r) (endnodes r) (l1
  r) (l2 r) (attached r) v (area_updates r) (adjacencies r) (aged_loss r) (unreach_loss r)
  (oor_loss r) (transit_sent r) (partial_update_loss r) (for_us r) (circuit_counters r) (outputs
  r).
Definition with_area_updates (v : gmap Z update) (r : router) : router :=
  mkRouter (nodeid r) (is_l2 r) (maxnodes r) (maxarea r) (maxvisits r) (self r) (endnodes r) (l1
  r) (l2 r) (attached r) (updates r) v (adjacencies r) (aged_loss r) (unreach_loss r) (oor_loss r)
  (transit_sent r) (partial_update_loss r) (for_us r) (circuit_counters r) (outputs r).
Definition with_adjacencies (v : gmap Z adjacency) (r : router) : router :=
  mkRouter (nodeid r) (is_l2 r) (maxnodes r) (maxarea r) (maxvisits r) (self r) (endnodes r) (l1
  r) (l2 r) (attached r) (updates r) (area_updates r) v (aged_loss r) (unreach_loss r) (oor_loss
  r) (transit_sent r) (partial_update_loss r) (for_us r) (circuit_counters r) (outputs r).
Definition with_aged_loss (v : Z) (r : router) : router :=
  mkRouter (nodeid r) (is_l2 r) (maxnodes r) (maxarea r) (maxvisits r) (self r) (endnodes r) (l1
  r) (l2 r) (attached r) (updates r) (area_updates r) (adjacencies r) v (unreach_loss r) (oor_loss
  r) (transit_sent r) (partial_update_loss r) (for_us r) (circuit_counters r) (outputs r).
Definition with_unreach_loss (v : Z) (r : router) : router :=
  mkRouter (nodeid r) (is_l2 r) (maxnodes r) (maxarea r) (maxvisits r) (self r) (endnodes r) (l1
  r) (l2 r) (attached r) (updates r) (area_updates r) (adjacencies r) (aged_loss r) v (oor_loss r)
  (transit_sent r) (partial_update_loss r) (for_us r) (circuit_counters r) (outputs r).
Definition with_oor_loss (v : Z) (r : router) : router :=
  mkRouter (nodeid r) (is_l2 r) (maxnodes r) (maxarea r) (maxvisits r) (self r) (endnodes r) (l1
  r) (l2 r) (attached r) (updates r) (area_updates r) (adjacencies r) (aged_loss r) (unreach_loss
  r) v (transit_sent r) (partial_update_loss r) (for_us r) (circuit_counters r) (outputs r).
Definition with_transit_sent (v : Z) (r : router) : router :=
  mkRouter (nodeid r) (is_l2 r) (maxnodes r) (maxarea r) (maxvisits r) (self r) (endnodes r) (l1
  r) (l2 r) (attached r) (updates r) (area_updates r) (adjacencies r) (aged_loss r) (unreach_loss
  r) (oor_loss r) v (partial_update_loss r) (for_us r) (circuit_counters r) (outputs r).
Definition with_partial_update_loss (v : Z) (r : router) : router :=
  mkRouter (nodeid r) (is_l2 r) (maxnodes r) (maxarea r) (maxvisits r) (self r) (endnodes r) (l1
  r) (l2 r) (attached r) (updates r) (area_updates r) (adjacencies r) (aged_loss r) (unreach_loss
  r) (oor_loss r) (transit_sent r) v (for_us r) (circuit_counters r) (outputs r).
Definition with_for_us (v : Z) (r : router) : router :=
  mkRouter (nodeid r) (is_l2 r) (maxnodes r) (maxarea r) (maxvisits r) (self r) (endnodes r) (l1
  r) (l2 r) (attached r) (updates r) (area_updates r) (adjacencies r) (aged_loss r) (unreach_loss
  r) (oor_loss r) (transit_sent r) (partial_update_loss r) v (circuit_counters r) (outputs r).
Definition with_circuit_counters (v : Z → cctr → Z) (r : router) : router :=
  mkRouter (nodeid r) (is_l2 r) (maxnodes r) (maxarea r) (maxvisits r) (self r) (endnodes r) (l1
  r) (l2 r) (attached r) (updates r) (area_updates r) (adjacencies r) (aged_loss r) (unreach_loss
  r) (oor_loss r) (transit_sent r) (partial_update_loss r) (for_us r) v (outputs r).
Definition with_outputs (v : list output) (r : router) : router :=
  mkRouter (nodeid r) (is_l2 r) (maxnodes r) (maxarea r) (maxvisits r) (self r) (endnodes r) (l1
  r) (l2 r) (attached r) (updates r) (area_updates r) (adjacencies r) (aged_loss r) (unreach_loss
  r) (oor_loss r) (transit_sent r) (partial_update_loss r) (for_us r) (circuit_counters r) v.

Definition homearea (r : router) : Z := Nodeid.area (nodeid r).
Definition own_tid (r : router) : nat := Z.to_nat (Nodeid.tid (nodeid r)).
Definition say (o : output) (r : router) : router := with_outputs (outputs r ++ [o]) r.
Definition count_circuit (c : Z) (k : cctr) (r : router) : router :=
  with_circuit_counters (λ c' k', if decide (c' = c ∧ k' = k) then u64 (circuit_counters r c' k' + 1)
                                  else circuit_counters r c' k') r.

(** ** The constructors *)

Record routing_config := mkRouting {
  rc_id : Z; rc_l2 : bool; rc_maxnodes : nat; rc_maxarea : nat; rc_maxhops : Z; rc_maxcost : Z;
  rc_maxvisits : Z; rc_amaxhops : Z; rc_amaxcost : Z; rc_t1 : Z; rc_bct1 : Z }.

Definition self_adjacency (id : Z) : adjacency := mkAdj 0 id L1ROUTER None 0.

(** One update process for each point to point circuit and each LAN. *)
Definition circuit_updates (level : Z) (rc : routing_config) (maxnodes : nat) (ptp lan : list Z) :
    gmap Z update :=
  let ptp_t1 := f_of_Z (if rc_t1 rc =? 0 then 600 else rc_t1 rc) in
  let bc_t1 := f_of_Z (if rc_bct1 rc =? 0 then 10 else rc_bct1 rc) in
  list_to_map (map (λ c, (c, new_update level maxnodes ptp_t1)) ptp ++
               map (λ c, (c, new_update level maxnodes bc_t1)) lan).

(** [L1Router::L1Router] and [L2Router::L2Router]. *)
Definition new_router (rc : routing_config) (ptp lan : list Z) : router :=
  let maxn := Nat.min (rc_maxnodes rc) 1023 in
  let maxa := if rc_l2 rc then Nat.min (rc_maxarea rc) 63 else rc_maxarea rc in
  mkRouter (rc_id rc) (rc_l2 rc) maxn maxa (rc_maxvisits rc) (self_adjacency (rc_id rc))
    (new_endnodes maxn) (new_matrix maxn (rc_maxhops rc) (rc_maxcost rc))
    (new_matrix maxa (rc_amaxhops rc) (rc_amaxcost rc)) false
    (circuit_updates 1 rc maxn ptp lan) (if rc_l2 rc then circuit_updates 2 rc maxn ptp lan else ∅)
    ∅ 0 0 0 0 0 0 (λ _ _, 0) [].

(** ** The update process *)

Definition T2_ : double := f_of_Z 1.

Section Router.
Context `{CS : Circuits}.

(** [Update::set_srm (first, last)] on circuit [c]. *)
Fixpoint mark (l : list bool) (i first last : nat) : list bool :=
  match l with
  | [] => []
  | b :: l => (if (first <=? i)%nat && (i <=? last)%nat then true else b) :: mark l (S i) first last
  end.
Definition set_srm1 (first last : nat) (c : Z) (u : update) : update :=
  if negb (wants_updates c (u_level u)) then u
  else
    let last := Nat.min last (length (srm u) - 1) in
    let hold := negb (holdoff u) && running u in
    mkUpd (u_level u) (mark (srm u) 0 first last) true (holdoff u || hold) (running u) (u_t1 u)
      (lastfull u) (next_interval u) (last_complete u) (if hold then Some T2_ else u_timer u).

Definition start_update (now : Z) (u : update) : update :=
  mkUpd (u_level u) (srm u) (any_srm u) (holdoff u) true (u_t1 u) now (next_interval u)
    (last_complete u) (Some (u_t1 u)).
Definition stop_update (u : update) : update :=
  mkUpd (u_level u) (srm u) (any_srm u) (holdoff u) false (u_t1 u) (lastfull u) (next_interval u)
    (last_complete u) None.

(** [L1Router::set_srm] and [L2Router::set_asrm]: on every circuit. *)
Definition mark_all (first last : nat) (us : gmap Z update) : gmap Z update :=
  map_imap (λ c u, Some (set_srm1 first last c u)) us.
Definition set_srm (first last : nat) (r : router) : router :=
  with_updates (mark_all first last (updates r)) r.
Definition set_asrm (first last : nat) (r : router) : router :=
  with_area_updates (mark_all first last (area_updates r)) r.

(** ** The routing tables *)

Definition node_note (r : router) (n : note) : router :=
  match n with
  | Changed i => set_srm i i r
  | Reached i b => say (NodeReach i b) r
  end.
Definition area_note (r : router) (n : note) : router :=
  match n with
  | Changed i => set_asrm i i r
  | Reached i b => say (AreaReach i b) r
  end.

Definition compute_routes (first last : nat) (r : router) : router :=
  let '(m, notes) := compute (self r) (Some (endnodes r)) first last (l1 r) in
  foldl node_note (with_l1 m r) notes.

(** Can another area be reached? *)
Definition other_area (r : router) : bool :=
  existsb (λ i, negb (Z.of_nat i =? homearea r) && bool_decide (is_Some (default None (oadj (l2 r) !! i))))
    (seq 1 (maxarea r)).

Definition compute_areas (first last : nat) (r : router) : router :=
  let '(m, notes) := compute (self r) None first last (l2 r) in
  let r := foldl area_note (with_l2 m r) notes in
  let att := other_area r in
  if Bool.eqb att (attached r) then r
  else
    let r := with_attached att r in
    let r := match columns (l1 r) !! a_ptr (self r) with
             | Some col =>
                 let col := set_route 0 (if att then 0 else INFHOPS) (if att then 0 else INFCOST) col in
                 with_l1 (with_columns (<[a_ptr (self r) := col]> (columns (l1 r))) (l1 r)) r
             | None => r
             end in
    compute_routes 0 0 (set_srm 0 0 r).

Definition set_column (a : adjacency) (c : RouteInfo) (m : RouteMatrix) : RouteMatrix :=
  with_columns (<[a_ptr a := c]> (columns m)) m.
Definition drop_column (a : adjacency) (m : RouteMatrix) : RouteMatrix :=
  with_columns (delete (a_ptr a) (columns m)) m.

(** ** [start] *)

Definition l1_start (now : Z) (r : router) : router :=
  let col := set_route (own_tid r) 0 0 (new_route (maxnodes r) (self r)) in
  let r := compute_routes 0 (maxnodes r) (with_l1 (set_column (self r) col (l1 r)) r) in
  with_updates (start_update now <$> updates r) r.
Definition l2_start (now now2 : Z) (r : router) : router :=
  let r := l1_start now r in
  let col := set_route (Z.to_nat (homearea r)) 0 0 (new_route (maxarea r) (self r)) in
  let r := compute_areas 1 (maxarea r) (with_l2 (set_column (self r) col (l2 r)) r) in
  with_area_updates (start_update now2 <$> area_updates r) r.

(** ** Adjacencies *)

Definition is_router (a : adjacency) : bool := (a_ntype a =? L1ROUTER) || (a_ntype a =? L2ROUTER).
Definition adj_tid (a : adjacency) : nat := Z.to_nat (Nodeid.tid (a_nodeid a)).

Definition l1_adj_up (a : adjacency) (r : router) : router :=
  let r := with_adjacencies (<[a_nodeid a := a]> (adjacencies r)) r in
  if is_router a then
    set_srm 0 (maxnodes r) (with_l1 (set_column a (new_route (maxnodes r) a) (l1 r)) r)
  else if (adj_tid a <=? maxnodes r)%nat then
    compute_routes (adj_tid a) (adj_tid a)
      (with_endnodes (set_endnode (adj_tid a) 1 (u16 (a_cost a)) (Some a) (endnodes r)) r)
  else r.

Definition l1_adj_down (a : adjacency) (r : router) : router :=
  let r := with_adjacencies (delete (a_nodeid a) (adjacencies r)) r in
  if is_router a then compute_routes 0 (maxnodes r) (with_l1 (drop_column a (l1 r)) r)
  else if (adj_tid a <=? maxnodes r)%nat then
    compute_routes (adj_tid a) (adj_tid a)
      (with_endnodes (set_endnode (adj_tid a) INFHOPS INFCOST None (endnodes r)) r)
  else r.

Definition l2_adj_up (a : adjacency) (r : router) : router :=
  if a_ntype a =? L2ROUTER then
    set_asrm 1 (maxarea r)
      (l1_adj_up a (with_l2 (set_column a (new_route (maxarea r) a) (l2 r)) r))
  else l1_adj_up a r.

Definition l2_adj_down (a : adjacency) (r : router) : router :=
  let r := l1_adj_down a r in
  if a_ntype a =? L2ROUTER then compute_areas 1 (maxarea r) (with_l2 (drop_column a (l2 r)) r) else r.

(** The virtual members. *)
Definition adj_up (a : adjacency) (r : router) : router :=
  if is_l2 r then l2_adj_up a r else l1_adj_up a r.
Definition adj_down (a : adjacency) (r : router) : router :=
  if is_l2 r then l2_adj_down a r else l1_adj_down a r.

(** ** Routing messages *)

(** One entry of a level 1 message; [maxreach] is the highest destination
    beyond the table that was claimed to exist. *)
Definition node_update (from : adjacency) (st : router * Z) (u : RouteUpdate) : router * Z :=
  let '(r, maxreach) := st in
  if Z.of_nat (maxnodes r) <? u_id u then
    (r, if (u_hops u <=? INFHOPS) && (u_cost u <? INFCOST) then Z.max maxreach (u_id u) else maxreach)
  else
    let i := Z.to_nat (u_id u) in
    let h := u8 (Z.min (u_hops u) INFHOPS) in
    let c := u16 (Z.min (u_cost u) INFCOST) in
    match columns (l1 r) !! a_ptr from with
    | None => (r, maxreach)
    | Some col =>
        if negb (default INFHOPS (hops col !! i) =? h) || negb (default INFCOST (cost col !! i) =? c) then
          (compute_routes i i (with_l1 (set_column from (set_route i h c col) (l1 r)) r), maxreach)
        else (r, maxreach)
    end.

Definition area_update (from : adjacency) (st : router * Z) (u : RouteUpdate) : router * Z :=
  let '(r, maxreach) := st in
  if (u_id u <? 1) || (Z.of_nat (maxarea r) <? u_id u) then
    (r, if (Z.of_nat (maxarea r) <? u_id u) && (u_hops u <=? INFHOPS) && (u_cost u <? INFCOST)
        then Z.max maxreach (u_id u) else maxreach)
  else
    let i := Z.to_nat (u_id u) in
    let h := u8 (Z.min (u_hops u) INFHOPS) in
    let c := u16 (Z.min (u_cost u) INFCOST) in
    match columns (l2 r) !! a_ptr from with
    | None => (r, maxreach)
    | Some col =>
        if negb (default INFHOPS (hops col !! i) =? h) || negb (default INFCOST (cost col !! i) =? c) then
          (compute_areas i i (with_l2 (set_column from (set_route i h c col) (l2 r)) r), maxreach)
        else (r, maxreach)
    end.

Definition partial_loss (from : adjacency) (st : router * Z) : router :=
  let '(r, maxreach) := st in
  if maxreach =? 0 then r
  else say (PartialLoss (a_circuit from) maxreach)
         (with_partial_update_loss (u64 (partial_update_loss r + 1)) r).

Definition node_updates (from : adjacency) (us : list RouteUpdate) (r : router) : router :=
  match columns (l1 r) !! a_ptr from with
  | None => r
  | Some _ => partial_loss from (foldl (node_update from) (r, 0) us)
  end.

(** [routing_message]: a level 1 router ignores a level 2 message. *)
Definition routing_message (msg : RoutingPacket) (from : adjacency) (circuit_cost : Z) (r : router) : router :=
  match msg with
  | PPh4Routing Level2 p =>
      if negb (is_l2 r) then r
      else match columns (l2 r) !! a_ptr from with
           | None => r
           | Some _ => partial_loss from (foldl (area_update from) (r, 0) (Ph4_updates circuit_cost p))
           end
  | PPh4Routing Level1 p => node_updates from (Ph4_updates circuit_cost p) r
  | PPhaseIIIRouting p => node_updates from (Ph3_updates circuit_cost p) r
  | _ => r
  end.

(** ** Forwarding *)

(** [find_oadj], and whether the address is out of range. *)
Definition l1_find_oadj (dst : Z) (r : router) : option adjacency * bool :=
  let t := if Nodeid.area dst =? homearea r then Z.to_nat (Nodeid.tid dst) else 0%nat in
  if (length (oadj (l1 r)) <=? t)%nat then (None, true) else (default None (oadj (l1 r) !! t), false).
Definition find_oadj (dst : Z) (r : router) : option adjacency * bool :=
  let area := Nodeid.area dst in
  if is_l2 r && attached r && negb (area =? homearea r) then
    if (length (oadj (l2 r)) <=? Z.to_nat area)%nat then (None, true)
    else (default None (oadj (l2 r) !! Z.to_nat area), false)
  else l1_find_oadj dst r.

Definition VISIT_LIMIT_MAX : Z := 63.
Definition is_self (a : adjacency) : bool := bool_decide (a_circuit a = None).

(** [SelfAdjacency::send] with [deliver], and [Adjacency::send]. *)
Definition deliver (pkt : ShortData.t) (r : router) : router :=
  let r := with_for_us (u64 (for_us r + 1)) r in
  let r := match ShortData.src pkt with Some c => count_circuit c term_recv r | None => r end in
  say (Deliver pkt) r.
Definition send_adjacency (a : adjacency) (pkt : ShortData.t) (r : router) : router :=
  if is_self a then
    match ShortData.src pkt with
    | Some _ => deliver pkt r
    | None => say (DeliverLater pkt) r
    end
  else say (Transmit a pkt) r.

Definition visit_limit (pkt : ShortData.t) (r : router) : Z :=
  if ShortData.rts pkt then Z.min (u32 (maxvisits r * 2)) VISIT_LIMIT_MAX else maxvisits r.

Definition count_crossing (a : adjacency) (pkt : ShortData.t) (r : router) : router :=
  match ShortData.src pkt with
  | None => match a_circuit a with Some c => count_circuit c orig_sent r | None => r end
  | Some c0 =>
      let r := count_circuit c0 trans_recv r in
      match a_circuit a with Some c => count_circuit c trans_sent r | None => r end
  end.

Definition count_loss (aged oor : bool) (r : router) : router :=
  if aged then with_aged_loss (u64 (aged_loss r + 1)) r
  else if oor then with_oor_loss (u64 (oor_loss r + 1)) r
  else with_unreach_loss (u64 (unreach_loss r + 1)) r.

(** [forward]: it calls itself at most once, to return a packet. *)
Fixpoint forward_at (fuel : nat) (pkt : ShortData.t) (r : router) : router :=
  match fuel with
  | O => r
  | S fuel =>
      let '(a, oor) := find_oadj (ShortData.dstnode pkt) r in
      let undeliverable aged pkt r :=
        if ShortData.rqr pkt && negb (ShortData.rts pkt) then
          let dst := ShortData.dstnode pkt in
          let pkt := ShortData.set_srcnode dst (ShortData.set_dstnode (ShortData.srcnode pkt) pkt) in
          forward_at fuel (ShortData.set_ie false (ShortData.set_rqr false (ShortData.set_rts true pkt))) r
        else
          say (PacketLoss (if aged : bool then 0 else if oor : bool then 2 else 1) (ShortData.src pkt) pkt)
            (count_loss aged oor r) in
      match a, oor with
      | Some a, false =>
          if is_self a then send_adjacency a pkt r
          else if ShortData.visit pkt <? visit_limit pkt r then
            let pkt := ShortData.set_visit (u8 (ShortData.visit pkt + 1)) pkt in
            let r := with_transit_sent (u64 (transit_sent r + 1)) r in
            send_adjacency a pkt (count_crossing a pkt r)
          else undeliverable true pkt r
      | _, _ => undeliverable false pkt r
      end
  end.
Definition forward : ShortData.t → router → router := forward_at 2.

(** [L1Router::send]. *)
Definition send (data : Bytes) (dest : Z) (rqr : bool) (r : router) : router :=
  forward (ShortData.set_payload data (ShortData.set_srcnode (nodeid r)
             (ShortData.set_dstnode dest (ShortData.set_rqr rqr ShortData.new)))) r.

(** ** Sending updates *)

Definition advertised (m : RouteMatrix) (i : nat) : Z :=
  if (length (minhops m) <=? i)%nat then route_entry INFHOPS INFCOST
  else route_entry (default INFHOPS (minhops m !! i)) (default INFCOST (mincost m !! i)).
Definition entry_for (level : Z) (r : router) (i : nat) : Z :=
  if level =? 2 then if is_l2 r then advertised (l2 r) i else route_entry INFHOPS INFCOST
  else advertised (l1 r) i.

(** The state of the loop of [Update::build]: the messages so far, the
    segments of the current one, the open segment with the next id it can
    take, and the count of words. *)
Record building := mkBuilding {
  b_msgs : list (list RouteSegment);
  b_segs : list RouteSegment;
  b_open : option RouteSegment;
  b_words : Z;
}.
Definition flush_segment (b : building) : building :=
  match b_open b with
  | Some s => mkBuilding (b_msgs b) (b_segs b ++ (match seg_entries s with [] => [] | _ => [s] end)) None (b_words b)
  | None => b
  end.
Definition flush_message (b : building) : building :=
  let b := flush_segment b in
  mkBuilding (b_msgs b ++ (match b_segs b with [] => [] | l => [l] end)) [] None 0.
Definition next_id (s : RouteSegment) : Z := startid s + len (seg_entries s).

Definition build_step (room : Z) (entry : nat → Z) (b : building) (i : nat) : building :=
  let b := match b_open b with
           | Some s => if Z.of_nat i =? next_id s then b else flush_segment b
           | None => b
           end in
  let '(s, words) := match b_open b with
                     | Some s => (s, b_words b)
                     | None => (mkSegment (u16 (Z.of_nat i)) [], b_words b + 2)
                     end in
  let b := mkBuilding (b_msgs b) (b_segs b) (Some (mkSegment (startid s) (seg_entries s ++ [entry i])))
             (words + 1) in
  if room <=? (words + 1) * 2 then flush_message b else b.

Definition low_id (level : Z) : nat := if level =? 2 then 1 else 0.
Definition high_id (u : update) (r : router) : nat :=
  if u_level u =? 2 then (length (srm u) - 1)%nat else maxnodes r.
(** The destinations to advertise. *)
Definition marked (complete : bool) (u : update) (r : router) : list nat :=
  filter (λ i, complete = true ∨ srm u !! i = Some true)
    (seq (low_id (u_level u)) (S (high_id u r) - low_id (u_level u))).

Definition room_of (c : Z) : Z := if 16 <? update_blksize c then update_blksize c - 16 else 64.
Definition message_level (lv : Z) : level := if lv =? 2 then Level2 else Level1.
Definition update_message (level : Z) (r : router) (segs : list RouteSegment) : Ph4Routing :=
  mkPh4 (mkHeader true (level_type (message_level level)) 0 false (nodeid r)) segs.
Definition build_segments (complete : bool) (c : Z) (u : update) (r : router) : list (list RouteSegment) :=
  b_msgs (flush_message (foldl (build_step (room_of c) (entry_for (u_level u) r)) (mkBuilding [] [] None 0)
    (marked complete u r))).
Definition build (complete : bool) (c : Z) (u : update) (r : router) : list Bytes :=
  map (λ segs, Ph4_encode_packet (update_message (u_level u) r segs)) (build_segments complete c u r).

(** [Update::send_now] and [Update::timeout], at the time [now]. *)
Definition send_now (now : Z) (c : Z) (u : update) (r : router) : update * list output :=
  let triggered := any_srm u in
  let pkts := build (negb triggered) c u r in
  let since := fdiv (f_of_Z (now - lastfull u)) (f_of_Z 1000000000) in
  let delta := if triggered then fmin since (u_t1 u) else u_t1 u in
  (mkUpd (u_level u) (map (λ _, false) (srm u)) false (holdoff u) (running u) (u_t1 u)
     (if triggered then lastfull u else now) delta (negb triggered) (Some delta),
   map (UpdateFrame c) pkts).
Definition with_holdoff (b : bool) (u : update) : update :=
  mkUpd (u_level u) (srm u) (any_srm u) b (running u) (u_t1 u) (lastfull u) (next_interval u)
    (last_complete u) (u_timer u).
Definition with_timer (t : option double) (u : update) : update :=
  mkUpd (u_level u) (srm u) (any_srm u) (holdoff u) (running u) (u_t1 u) (lastfull u) (next_interval u)
    (last_complete u) t.
Definition timeout (now : Z) (c : Z) (u : update) (r : router) : update * list output :=
  let u := with_holdoff false (with_timer None u) in
  if negb (running u) then (u, [])
  else if negb (wants_updates c (u_level u)) then (with_timer (Some (u_t1 u)) u, [])
  else send_now now c u r.
(** The expiry of the timer of the update process of circuit [c]. *)
Definition update_timeout (level : Z) (now : Z) (c : Z) (r : router) : router :=
  let us := if level =? 2 then area_updates r else updates r in
  match us !! c with
  | None => r
  | Some u =>
      let '(u, outs) := timeout now c u r in
      let r := with_outputs (outputs r ++ outs) r in
      if level =? 2 then with_area_updates (<[c := u]> us) r else with_updates (<[c := u]> us) r
  end.
End Router.
