(* ===== verification/RouterTables.v ===== *)
(** The routing tables over any sequence of events: what the tables hold is
    always the best choice from the columns, and never refers to an adjacency
    that has gone. *)

From S2P Require Import Prelude Buffer Types Codec Layout Indexed RoutingPackets RouteTable L1Router.
#[local] Open Scope Z_scope.

(** ** The choice as a property of the set of offers *)

Lemma best_of_ext os os' b : (∀ o, o ∈ os ↔ o ∈ os') → best_of os b → best_of os' b.
Proof.
  intros Hs [[-> Hf]|(Hin & Hc & Hf)]; [left|right]; rewrite Forall_forall in Hf.
  - split; [done|]. apply Forall_forall. intros o Ho. by apply Hf, Hs.
  - split; [by apply Hs|]. split; [done|]. apply Forall_forall. intros o Ho. by apply Hf, Hs.
Qed.

(** An offer nobody would take does not matter. *)
Lemma best_of_inf os o b : INFCOST ≤ o_cost o → best_of os b → best_of (o :: os) b.
Proof.
  intros Ho [[-> Hf]|(Hin & Hc & Hf)]; [left|right].
  - split; [done|]. by constructor.
  - split; [by right|]. split; [done|]. constructor; [left; lia|done].
Qed.

(** What the tables say of a destination depends on what is offered for it. *)
Lemma chosen_ext m m' extra extra' i i' o :
  (∀ o, o ∈ offers (matrix_columns m) extra i ↔ o ∈ offers (matrix_columns m') extra' i') →
  maxhops m = maxhops m' → maxcost m = maxcost m' → chosen m extra i o → chosen m' extra' i' o.
Proof.
  intros Hs E1 E2 (b & Hb & ->). exists b. split; [by eapply best_of_ext|]. unfold within. by rewrite E1, E2.
Qed.

Lemma elem_of_offers m extra i o :
  o ∈ offers (matrix_columns m) extra i ↔
    (∃ k r, columns m !! k = Some r ∧ o = route_offer i r) ∨ (∃ e, extra = Some e ∧ o = endnode_offer i e).
Proof.
  unfold offers. rewrite elem_of_app, list_elem_of_fmap. setoid_rewrite elem_of_matrix_columns.
  assert (o ∈ match extra with Some e => [endnode_offer i e] | None => [] end ↔
    ∃ e, extra = Some e ∧ o = endnode_offer i e) as ->.
  { destruct extra as [e|]; [rewrite list_elem_of_singleton|rewrite elem_of_nil]; split.
    - intros ->. eauto.
    - by intros (? & [= <-] & ->).
    - done.
    - by intros (? & [=] & _). }
  split; (intros [H|H]; [left|by right]).
  - destruct H as (r & -> & k & Hk). eauto.
  - destruct H as (k & r & Hk & ->). eauto.
Qed.

(** Destinations not settled. *)
Definition none : nat → bool := λ _, false.
Definition only (i : nat) : nat → bool := λ j, (j =? i)%nat.

(** ** One table: consistent, and with every adjacency accounted for *)

Section Table.
Context (live : gmap Z adjacency) (self : adjacency).

(** [a] is this node's own adjacency or one that is up. *)
Definition known (a : adjacency) : Prop := a = self ∨ live !! a_ptr a = Some a.

Record table_ok (m : RouteMatrix) (extra : option EndnodesRouteInfo) : Prop := {
  to_matrix : matrix_ok m;
  to_extra : extra_ok (maxid m) extra;
  to_keys : ∀ k c, columns m !! k = Some c → a_ptr (radj c) = k ∧ known (radj c) ∧
              (radj c = self ∨ is_router (radj c) = true);
  to_endnodes : ∀ e i a, extra = Some e → e_adjacencies e !! i = Some (Some a) →
              known a ∧ is_router a = false ∧ adj_tid a = i;
}.

Definition settled_but (p : nat → bool) (m : RouteMatrix) (extra : option EndnodesRouteInfo) : Prop :=
  ∀ i, (i ≤ maxid m)%nat → p i = true ∨ chosen m extra i (row m i).

(** The adjacency of a choice is known. *)
Lemma chosen_known m extra i o a :
  table_ok m extra → chosen m extra i o → o_adj o = Some a → known a.
Proof.
  intros Ht (b & Hb & ->) Ha. unfold within in Ha.
  destruct ((maxcost m <? o_cost b) || (maxhops m <? o_hops b)); [done|].
  destruct Hb as [[-> _]|(Hin & _ & _)]; [done|].
  apply elem_of_offers in Hin as [(k & r & Hk & ->)|(e & Ee & ->)].
  - injection Ha as <-. by destruct (to_keys _ _ Ht _ _ Hk) as (_ & H & _).
  - unfold endnode_offer, o_adj in Ha. simpl in Ha.
    destruct (e_adjacencies e !! i) as [[a'|]|] eqn:E; simpl in Ha; simplify_eq.
    by destruct (to_endnodes _ _ Ht _ _ _ eq_refl E) as (H & _).
Qed.

(** The computation settles the destinations of its range ([q] are those that
    are never settled). *)
Lemma compute_settles extra first last m p q :
  table_ok m extra → settled_but (λ i, q i || p i) m extra →
  (∀ i, p i = true → (first ≤ i ≤ last)%nat) →
  let m' := (compute self extra first last m).1 in
  table_ok m' extra ∧ settled_but q m' extra ∧ columns m' = columns m ∧ maxid m' = maxid m.
Proof.
  intros Ht Hs Hp m'.
  destruct (compute_spec self extra first last m (to_matrix _ _ Ht) (to_extra _ _ Ht))
    as (H1 & H2 & H3 & H4 & H5 & H6 & H7). fold m' in H1, H2, H3, H4, H5, H6, H7.
  assert (∀ i o, chosen m extra i o → chosen m' extra i o) as Hch.
  { intros i o. apply chosen_ext; [|done..]. intros o'. unfold matrix_columns. by rewrite H2. }
  split_and!; [|intros i Hi|done|done].
  - destruct Ht as [T1 T2 T3 T4]. constructor; [done|by rewrite H3|intros k c; rewrite H2; apply T3|done].
  - rewrite H3 in Hi. destruct (decide (first ≤ i ≤ last ∧ i ≤ maxid m)%nat) as [Hd|Hd].
    + right. apply Hch. rewrite (H6 i Hd). by apply select_chosen; [apply Ht|apply Ht].
    + rewrite (H7 i Hd). destruct (Hs i Hi) as [Hp'|]; [|right; by apply Hch].
      apply orb_true_iff in Hp' as [Hp'|Hp']; [by left|]. specialize (Hp i Hp'). tauto.
Qed.

(** A column set anew, its keys kept. *)
Lemma set_column_ok a c m extra :
  table_ok m extra → route_ok (maxid m) c → radj c = a → known a → (a = self ∨ is_router a = true) →
  table_ok (set_column a c m) extra.
Proof.
  intros [T1 T2 T3 T4] Hc Hr Hk Hn. destruct T1 as [M1 M2 M3 M4].
  constructor; [constructor; try done|done| |done].
  - simpl. apply map_Forall_insert_2; done.
  - simpl. intros k c' [[<- <-]|[_ H]]%lookup_insert_Some; [|by apply T3]. by rewrite Hr.
Qed.

Lemma set_column_settled a c m extra p :
  settled_but p m extra → (∀ c0 i, columns m !! a_ptr a = Some c0 → p i = false → (i ≤ maxid m)%nat →
     route_offer i c = route_offer i c0) →
  (columns m !! a_ptr a = None → ∀ i, (i ≤ maxid m)%nat → p i = true ∨ INFCOST ≤ o_cost (route_offer i c)) →
  settled_but p (set_column a c m) extra.
Proof.
  intros Hs Hsame Hnew i Hi. simpl in Hi. destruct (Hs i Hi) as [Hp|Hc]; [by left|].
  destruct (columns m !! a_ptr a) as [c0|] eqn:E.
  - destruct (decide (route_offer i c = route_offer i c0)) as [He|Hne].
    2: { destruct (p i) eqn:Ep; [by left|]. destruct Hne. by apply Hsame. }
    right. change (row (set_column a c m) i) with (row m i).
    apply (chosen_ext m _ extra _ i); [|done|done|exact Hc]. intros o. rewrite !elem_of_offers. simpl.
    split; (intros [(k & r & Hk & ->)|?]; [left|by right]).
    + destruct (decide (k = a_ptr a)) as [->|Hne].
      * rewrite E in Hk. injection Hk as <-. exists (a_ptr a), c. by rewrite lookup_insert_eq, He.
      * exists k, r. by rewrite lookup_insert_ne by done.
    + apply lookup_insert_Some in Hk as [[<- <-]|[_ Hk]]; eauto.
  - destruct (Hnew eq_refl i Hi) as [?|Hinf]; [by left|right].
    destruct Hc as (b & Hb & Hrow). exists b. split; [|exact Hrow].
    eapply best_of_ext; [|exact (best_of_inf _ _ _ Hinf Hb)]. intros o.
    rewrite elem_of_cons, !elem_of_offers. simpl. split.
    + intros [->|[(k & r & Hk & ->)|?]]; [left|left|by right].
      * exists (a_ptr a), c. by rewrite lookup_insert_eq.
      * exists k, r. rewrite lookup_insert_ne; [done|]. intros <-. congruence.
    + intros [(k & r & Hk & ->)|?]; [|by right; right].
      apply lookup_insert_Some in Hk as [[<- <-]|[_ Hk]]; [by left|right; left; eauto].
Qed.

(** The endnode column, one entry set anew. *)
Lemma set_endnode_settled i h c a m e p :
  settled_but p m (Some e) →
  settled_but (λ j, p j || bool_decide (j = i)) m (Some (set_endnode i h c a e)).
Proof.
  intros Hs j Hj. destruct (decide (j = i)) as [->|Hne]; [left; rewrite bool_decide_true, orb_true_r; done|].
  destruct (Hs j Hj) as [Hp|Hc]; [left; by rewrite Hp|right].
  eapply chosen_ext; [|done..|exact Hc]. intros o. rewrite !elem_of_offers.
  assert (endnode_offer j (set_endnode i h c a e) = endnode_offer j e) as Ee.
  { unfold endnode_offer. simpl. by rewrite !list_lookup_insert_ne by done. }
  split; (intros [?|(e' & [= <-] & ->)]; [by left|right]); [exists (set_endnode i h c a e)|exists e];
    by rewrite Ee.
Qed.
End Table.

(** ** The tables of a router *)

Section RouterTables.
Context `{CS : Circuits}.

(** What running the update processes and reporting leaves alone. *)
Definition fixed (r : router) := (nodeid r, is_l2 r, maxnodes r, maxarea r, maxvisits r, self r).
Lemma fixed_fields r r' : fixed r' = fixed r →
  nodeid r' = nodeid r ∧ is_l2 r' = is_l2 r ∧ maxnodes r' = maxnodes r ∧ maxarea r' = maxarea r ∧
  maxvisits r' = maxvisits r ∧ self r' = self r.
Proof. unfold fixed. intros [= -> -> -> -> -> ->]. done. Qed.
Definition core (r : router) := (fixed r, l1 r, l2 r, endnodes r, attached r).

Lemma node_notes_core notes r : core (foldl node_note r notes) = core r.
Proof. revert r. induction notes as [|[i|i b] notes IH]; intros r; simpl; [done|by rewrite IH..]. Qed.
Lemma area_notes_core notes r : core (foldl area_note r notes) = core r.
Proof. revert r. induction notes as [|[i|i b] notes IH]; intros r; simpl; [done|by rewrite IH..]. Qed.

Record node_ok (live : gmap Z adjacency) (p : nat → bool) (r : router) : Prop := {
  no_table : table_ok live (self r) (l1 r) (Some (endnodes r));
  no_max : maxid (l1 r) = maxnodes r;
  no_settled : settled_but p (l1 r) (Some (endnodes r));
}.
Record area_ok (live : gmap Z adjacency) (p : nat → bool) (r : router) : Prop := {
  ao_table : table_ok live (self r) (l2 r) None;
  ao_max : maxid (l2 r) = maxarea r;
  ao_settled : settled_but (λ i, (i =? 0)%nat || p i) (l2 r) None;
}.

(** Both tables, and the attached flag. *)
Record tables_ok (live : gmap Z adjacency) (r : router) : Prop := {
  tk_nodes : node_ok live none r;
  tk_areas : area_ok live none r;
  tk_attached : is_l2 r = true → attached r = other_area r;
}.

Lemma node_ok_core live p r r' : core r' = core r → node_ok live p r → node_ok live p r'.
Proof.
  unfold core, fixed. intros [= E1 E2 E3 E4 E5 E6 E7 E8 E9 E10] []. constructor; by rewrite ?E6, ?E7, ?E3, ?E9.
Qed.
Lemma area_ok_core live p r r' : core r' = core r → area_ok live p r → area_ok live p r'.
Proof.
  unfold core, fixed. intros [= E1 E2 E3 E4 E5 E6 E7 E8 E9 E10] []. constructor; by rewrite ?E6, ?E8, ?E4.
Qed.
Lemma tables_ok_core live r r' : core r' = core r → tables_ok live r → tables_ok live r'.
Proof.
  intros E []. constructor; [by eapply node_ok_core|by eapply area_ok_core|].
  unfold core, fixed in E. injection E as E1 E2 E3 E4 E5 E6 E7 E8 E9 E10.
  unfold other_area, homearea. by rewrite E10, E2, E8, E4, E1.
Qed.

(** [compute_routes] touches the level 1 choice only. *)
Lemma compute_routes_ok live p first last r :
  node_ok live p r → (∀ i, p i = true → (first ≤ i ≤ last)%nat) →
  let r' := compute_routes first last r in
  node_ok live none r' ∧ fixed r' = fixed r ∧ l2 r' = l2 r ∧ endnodes r' = endnodes r ∧
  attached r' = attached r ∧ columns (l1 r') = columns (l1 r).
Proof.
  intros [T M S] Hp. unfold compute_routes.
  destruct (compute_settles live (self r) (Some (endnodes r)) first last (l1 r) p none T S Hp) as (H1 & H2 & H3 & H4).
  destruct (compute (self r) (Some (endnodes r)) first last (l1 r)) as [m notes]. cbn [fst] in *. cbv zeta.
  pose proof (node_notes_core notes (with_l1 m r)) as E.
  unfold core, fixed in *. simpl in E. injection E as E1 E2 E3 E4 E5 E6 E7 E8 E9 E10.
  rewrite E1, E2, E3, E4, E5, E6, E7, E8, E9, E10. split_and!; try done.
  constructor; rewrite ?E6, ?E7, ?E9, ?E3; [done|by rewrite H4|done].
Qed.

Lemma area_ok_frame live p r r' :
  fixed r' = fixed r → l2 r' = l2 r → area_ok live p r → area_ok live p r'.
Proof. unfold fixed. intros [= E1 E2 E3 E4 E5 E6] E []. constructor; by rewrite ?E6, ?E, ?E4. Qed.

Lemma other_area_frame r r' : fixed r' = fixed r → l2 r' = l2 r → other_area r' = other_area r.
Proof. unfold fixed, other_area, homearea. intros [= E1 E2 E3 E4 E5 E6] E. by rewrite E, E4, E1. Qed.

(** The column of this node says whether it is attached. *)
Lemma self_column_ok live r att col :
  node_ok live none r → columns (l1 r) !! a_ptr (self r) = Some col →
  node_ok live (only 0) (with_l1 (set_column (self r)
    (set_route 0 (if att : bool then 0 else INFHOPS) (if att then 0 else INFCOST) col) (l1 r)) r).
Proof.
  intros [T M S] Hc. destruct (to_keys _ _ _ _ T _ _ Hc) as (Hk & Hkn & Hn).
  assert (radj col = self r ∨ True) as _ by auto.
  pose proof (mo_columns _ (to_matrix _ _ _ _ T) _ _ Hc) as (L1 & L2 & R1 & R2).
  constructor; [|done|].
  - destruct T as [T1 T2 T3 T4]. constructor; [|done| |done].
    + destruct T1 as [M1 M2 M3 M4]. constructor; try done. simpl. apply map_Forall_insert_2; [|done].
      unfold route_ok. simpl. rewrite !length_insert. split_and!; try done;
        apply Forall_insert; try done; destruct att; unfold INFHOPS, INFCOST; lia.
    + simpl. intros k c [[<- <-]|[_ H]]%lookup_insert_Some; [|by apply T3]. simpl. by apply T3.
  - apply set_column_settled.
    + intros i Hi. right. by destruct (S i Hi).
    + intros c0 i E Hi _. rewrite Hc in E. injection E as <-. unfold only in Hi. apply Nat.eqb_neq in Hi.
      unfold route_offer. simpl. by rewrite !list_lookup_insert_ne by done.
    + intros E. congruence.
Qed.

(** The new attached flag: destination zero of the level 1 table follows. *)
Definition attach (att : bool) (r : router) : router :=
  let r := with_attached att r in
  match columns (l1 r) !! a_ptr (self r) with
  | Some col =>
      let col := set_route 0 (if att then 0 else INFHOPS) (if att then 0 else INFCOST) col in
      with_l1 (with_columns (<[a_ptr (self r) := col]> (columns (l1 r))) (l1 r)) r
  | None => r
  end.

Lemma attach_ok live att r :
  node_ok live none r →
  let r' := compute_routes 0 0 (set_srm 0 0 (attach att r)) in
  node_ok live none r' ∧ fixed r' = fixed r ∧ endnodes r' = endnodes r ∧ l2 r' = l2 r ∧ attached r' = att.
Proof.
  intros Hn.
  assert (node_ok live (only 0) (attach att r) ∧ fixed (attach att r) = fixed r ∧
          endnodes (attach att r) = endnodes r ∧ l2 (attach att r) = l2 r ∧ attached (attach att r) = att)
    as (N3 & F4 & F5 & F6 & F7).
  { unfold attach. change (columns (l1 (with_attached att r))) with (columns (l1 r)).
    change (self (with_attached att r)) with (self r).
    assert (node_ok live none (with_attached att r)) as Hn2 by (by destruct Hn; constructor).
    destruct (columns (l1 r) !! a_ptr (self r)) as [col|] eqn:Ec; split_and!; try done.
    - by apply (self_column_ok live (with_attached att r) att col).
    - destruct Hn2 as [N1 N2 N4]. constructor; try done. intros i Hi. right. by destruct (N4 i Hi). }
  assert (node_ok live (only 0) (set_srm 0 0 (attach att r))) as N4 by (by eapply node_ok_core; [|exact N3]).
  destruct (compute_routes_ok live (only 0) 0 0 _ N4) as (K1 & K2 & K3 & K4 & K5 & _).
  { intros i Hi. apply Nat.eqb_eq in Hi. lia. }
  cbv zeta. rewrite K2, K3, K4, K5. split_and!; done.
Qed.

Lemma compute_areas_ok live p first last r :
  node_ok live none r → area_ok live p r → (∀ i, p i = true → (first ≤ i ≤ last)%nat) →
  let r' := compute_areas first last r in
  tables_ok live r' ∧ fixed r' = fixed r ∧ endnodes r' = endnodes r ∧ columns (l2 r') = columns (l2 r).
Proof.
  intros Hn [T M S] Hp. unfold compute_areas.
  destruct (compute_settles live (self r) None first last (l2 r) p (λ i, i =? 0)%nat T S Hp)
    as (H1 & H2 & H3 & H4).
  destruct (compute (self r) None first last (l2 r)) as [m notes]. cbn [fst] in *.
  pose proof (area_notes_core notes (with_l2 m r)) as E. set (r1 := foldl area_note _ notes) in *.
  assert (node_ok live none r1) as Hn1.
  { eapply (node_ok_core live none (with_l2 m r)); [exact E|]. by destruct Hn; constructor. }
  assert (area_ok live none r1) as Ha1.
  { eapply (area_ok_core live none (with_l2 m r)); [exact E|]. constructor; [done|simpl; congruence|].
    intros i Hi. rewrite orb_false_r. by apply H2. }
  assert (fixed r1 = fixed r ∧ endnodes r1 = endnodes r ∧ l2 r1 = m) as (F1 & F2 & F3).
  { unfold core, fixed in *. simpl in E. injection E as E1 E2 E3 E4 E5 E6 E7 E8 E9 E10.
    unfold fixed. by rewrite E1, E2, E3, E4, E5, E6, E9, E8. }
  destruct (Bool.eqb (other_area r1) (attached r1)) eqn:Ea.
  { apply eqb_prop in Ea. split_and!; [|done|done|congruence]. constructor; try done. }
  destruct (attach_ok live (other_area r1) r1 Hn1) as (K1 & K2 & K4 & K3 & K5).
  change (set_srm 0 0 _) with (set_srm 0 0 (attach (other_area r1) r1)).
  split_and!; [constructor|congruence..].
  - done.
  - by eapply area_ok_frame.
  - intros _. rewrite K5. symmetry. by apply other_area_frame.
Qed.

(** ** Adjacencies *)

Definition fresh (live : gmap Z adjacency) (r : router) (a : adjacency) : Prop :=
  live !! a_ptr a = None ∧ a_ptr a ≠ a_ptr (self r).

Lemma table_weaken live live' self m extra :
  live ⊆ live' → table_ok live self m extra → table_ok live' self m extra.
Proof.
  intros Hl [T1 T2 T3 T4].
  assert (∀ a, known live self a → known live' self a) as Hk.
  { intros a [->|H]; [by left|right]. by eapply lookup_weaken. }
  constructor; try done.
  - intros k c H. destruct (T3 k c H) as (? & ? & ?). auto.
  - intros e i a He H. destruct (T4 e i a He H) as (? & ? & ?). auto.
Qed.
Lemma node_weaken live live' p r : live ⊆ live' → node_ok live p r → node_ok live' p r.
Proof. intros Hl []. constructor; try done. by eapply table_weaken. Qed.
Lemma area_weaken live live' p r : live ⊆ live' → area_ok live p r → area_ok live' p r.
Proof. intros Hl []. constructor; try done. by eapply table_weaken. Qed.

Lemma new_route_ok maxid a : route_ok maxid (new_route maxid a).
Proof.
  unfold route_ok, new_route. cbn [hops cost]. rewrite !length_replicate.
  split_and!; try done; apply Forall_replicate; unfold INFHOPS, INFCOST; lia.
Qed.
Lemma new_route_inf maxid a i : INFCOST ≤ o_cost (route_offer i (new_route maxid a)).
Proof.
  unfold route_offer, o_cost. cbn [fst snd new_route cost].
  destruct (replicate (S maxid) INFCOST !! i) eqn:E; [|done].
  by apply lookup_replicate in E as [-> _].
Qed.

Lemma fresh_column live self m extra a :
  table_ok live self m extra → live !! a_ptr a = None → a_ptr a ≠ a_ptr self →
  columns m !! a_ptr a = None.
Proof.
  intros T Hl Hs. destruct (columns m !! a_ptr a) as [c|] eqn:E; [|done].
  destruct (to_keys _ _ _ _ T _ _ E) as (Hk & [Hc|Hc] & _); [rewrite Hc in Hk; congruence|].
  rewrite Hk in Hc. congruence.
Qed.

(** A router comes up: a column that offers nothing yet. *)
Lemma new_column_ok live a m extra p slf :
  table_ok live slf m extra → settled_but p m extra → live !! a_ptr a = None → a_ptr a ≠ a_ptr slf →
  is_router a = true →
  table_ok (<[a_ptr a := a]> live) slf (set_column a (new_route (maxid m) a) m) extra ∧
  settled_but p (set_column a (new_route (maxid m) a) m) extra.
Proof.
  intros T S Hl Hs Hr. pose proof (fresh_column _ _ _ _ _ T Hl Hs) as Hc. split.
  - apply set_column_ok; [|apply new_route_ok|done|right; apply lookup_insert_eq|by right].
    eapply table_weaken; [|exact T]. by apply insert_subseteq.
  - apply set_column_settled; [done|congruence|]. intros _ i _. right. apply new_route_inf.
Qed.

(** The endnode column, one entry set anew. *)
Lemma endnodes_set_ok n i h c a e :
  endnodes_ok n e → 0 ≤ h ≤ INFHOPS → 0 ≤ c < 65536 → (a = None → c = INFCOST) →
  endnodes_ok n (set_endnode i h c a e).
Proof.
  intros (E1 & E2 & E3 & E4 & E5 & E6) Hh Hc Ha.
  unfold endnodes_ok, set_endnode. cbn [e_hops e_cost e_adjacencies]. rewrite !length_insert.
  split_and!; try done; [by apply Forall_insert..|]. intros j Hj.
  destruct (decide (j = i)) as [->|Hne].
  - apply list_lookup_insert_Some in Hj as [(_ & -> & Hlt)|[? _]]; [|done].
    rewrite list_lookup_insert_eq by congruence. by rewrite Ha.
  - rewrite list_lookup_insert_ne in Hj by done. rewrite list_lookup_insert_ne by done. auto.
Qed.

Lemma endnode_compute_ok live i h c a r :
  table_ok live (self r) (l1 r) (Some (set_endnode i h c a (endnodes r))) → maxid (l1 r) = maxnodes r →
  settled_but none (l1 r) (Some (endnodes r)) →
  let r' := compute_routes i i (with_endnodes (set_endnode i h c a (endnodes r)) r) in
  node_ok live none r' ∧ fixed r' = fixed r ∧ l2 r' = l2 r ∧ attached r' = attached r.
Proof.
  intros T M S.
  destruct (compute_routes_ok live (only i) i i (with_endnodes (set_endnode i h c a (endnodes r)) r))
    as (K1 & K2 & K3 & _ & K5 & _).
  { constructor; [done|done|]. intros j Hj.
    destruct (set_endnode_settled i h c a (l1 r) (endnodes r) none S j Hj) as [Hx|Hx]; [left|by right].
    unfold none in Hx. simpl in Hx. apply bool_decide_eq_true in Hx. by apply Nat.eqb_eq. }
  { intros j Hj. apply Nat.eqb_eq in Hj. lia. }
  split_and!; done.
Qed.

Lemma l1_adj_up_ok live a r :
  node_ok live none r → fresh live r a →
  let r' := l1_adj_up a r in
  node_ok (<[a_ptr a := a]> live) none r' ∧ fixed r' = fixed r ∧ l2 r' = l2 r ∧ attached r' = attached r.
Proof.
  intros [T M S] [Hl Hs]. unfold l1_adj_up. cbv zeta.
  set (r0 := with_adjacencies _ r). change (maxnodes r0) with (maxnodes r). change (l1 r0) with (l1 r).
  change (endnodes r0) with (endnodes r).
  destruct (is_router a) eqn:Hr.
  - destruct (new_column_ok live a (l1 r) (Some (endnodes r)) none (self r) T S Hl Hs Hr) as [T' S'].
    rewrite M in T', S'.
    split; [|split_and!; done].
    apply (node_ok_core _ none (with_l1 (set_column a (new_route (maxnodes r) a) (l1 r)) r0)); [done|].
    constructor; done.
  - destruct (Nat.leb_spec (adj_tid a) (maxnodes r)) as [Ht|Ht].
    + apply (endnode_compute_ok _ (adj_tid a) 1 (u16 (a_cost a)) (Some a) r0); [|done|done].
      assert (live ⊆ <[a_ptr a := a]> live) as Hsub by (by apply insert_subseteq).
      pose proof (table_weaken _ _ _ _ _ Hsub T) as [T1 T2 T3 T4]. constructor; [done| |done|].
      * apply endnodes_set_ok; [done|unfold INFHOPS; lia|apply u16_range|done].
      * intros e j b [= <-] Hj. cbn [set_endnode e_adjacencies] in Hj.
        apply list_lookup_insert_Some in Hj as [(<- & E & _)|[_ Hj]]; [|by eapply T4].
        injection E as ->. split; [right; apply lookup_insert_eq|done].
    + split; [|done]. apply (node_weaken live); [by apply insert_subseteq|]. by constructor.
Qed.

(** ** An adjacency goes down *)

Lemma known_delete live self a b :
  known live self b → b ≠ a → live !! a_ptr a = Some a → known (delete (a_ptr a) live) self b.
Proof.
  intros [->|Hb] Hne Ha; [by left|right]. rewrite lookup_delete_ne; [done|].
  intros E. rewrite E in Ha. congruence.
Qed.

Lemma drop_column_ok live a m extra slf :
  table_ok live slf m extra → live !! a_ptr a = Some a → is_router a = true → a_ptr a ≠ a_ptr slf →
  table_ok (delete (a_ptr a) live) slf (drop_column a m) extra.
Proof.
  intros [[M1 M2 M3 M4] T2 T3 T4] Ha Hr Hs. constructor; [constructor; try done| done| |].
  - simpl. by apply map_Forall_delete.
  - simpl. intros k c [Hne Hk]%lookup_delete_Some. destruct (T3 k c Hk) as (E1 & E2 & E3).
    split_and!; try done. apply known_delete; try done. intros E. rewrite E in E1. congruence.
  - intros e i b He Hi. destruct (T4 e i b He Hi) as (E1 & E2 & E3). split_and!; try done.
    apply known_delete; try done. intros ->. congruence.
Qed.

Lemma all_settled (n : nat) m extra : maxid m = n → settled_but (λ i, (i <=? n)%nat) m extra.
Proof. intros E i Hi. left. apply Nat.leb_le. lia. Qed.

Lemma l1_adj_down_ok live a r :
  node_ok live none r → live !! a_ptr a = Some a → a_ptr a ≠ a_ptr (self r) →
  let r' := l1_adj_down a r in
  node_ok (delete (a_ptr a) live) none r' ∧ fixed r' = fixed r ∧ l2 r' = l2 r ∧ attached r' = attached r.
Proof.
  intros [T M S] Ha Hs. unfold l1_adj_down. cbv zeta.
  set (r0 := with_adjacencies _ r). change (maxnodes r0) with (maxnodes r). change (l1 r0) with (l1 r).
  change (endnodes r0) with (endnodes r).
  destruct (is_router a) eqn:Hr.
  - destruct (compute_routes_ok (delete (a_ptr a) live) (λ i, (i <=? maxnodes r)%nat) 0 (maxnodes r)
      (with_l1 (drop_column a (l1 r)) r0)) as (K1 & K2 & K3 & K4 & K5 & K6).
    { constructor; [by apply drop_column_ok|done|by apply all_settled]. }
    { intros i Hi. apply Nat.leb_le in Hi. lia. }
    split_and!; done.
  - assert (∀ m extra, table_ok live (self r) m extra →
      (∀ e i b, extra = Some e → e_adjacencies e !! i = Some (Some b) → b ≠ a) →
      table_ok (delete (a_ptr a) live) (self r) m extra) as Hdel.
    { intros m extra [T1 T2 T3 T4] Hn. constructor; try done.
      - intros k c Hk. destruct (T3 k c Hk) as (E1 & E2 & E3). split_and!; try done.
        apply known_delete; try done. intros E. destruct E3 as [E3|E3]; congruence.
      - intros e i b He Hi. destruct (T4 e i b He Hi) as (E1 & E2 & E3). split_and!; try done.
        apply known_delete; try done. by eapply Hn. }
    destruct (Nat.leb_spec (adj_tid a) (maxnodes r)) as [Ht|Ht].
    + apply (endnode_compute_ok _ (adj_tid a) INFHOPS INFCOST None r0); [|done|done].
      assert (∀ i b, e_adjacencies (set_endnode (adj_tid a) INFHOPS INFCOST None (endnodes r)) !! i = Some (Some b) →
        i ≠ adj_tid a ∧ e_adjacencies (endnodes r) !! i = Some (Some b)) as He'.
      { intros i b Hi. cbn [set_endnode e_adjacencies] in Hi.
        by apply list_lookup_insert_Some in Hi as [(_ & E & _)|[? ?]]. }
      apply Hdel.
      * destruct T as [T1 T2 T3 T4]. constructor; [done| |done|].
        -- apply endnodes_set_ok; done.
        -- intros e i b [= <-] Hi. destruct (He' i b Hi) as [_ Hi']. by eapply T4.
      * intros e i b [= <-] Hi ->. destruct (He' i a Hi) as [Hne Hi'].
        by destruct (to_endnodes _ _ _ _ T _ _ _ eq_refl Hi') as (_ & _ & E).
    + split; [|done]. constructor; try done. apply Hdel; [done|].
      intros e i b [= <-] Hi ->. destruct (to_endnodes _ _ _ _ T _ _ _ eq_refl Hi) as (_ & _ & E).
      destruct T as [T1 (E1 & E2 & E3 & _) _ _]. apply lookup_lt_Some in Hi. lia.
Qed.

(** ** The whole router *)

(** The area columns are of area routers. *)
Definition area_columns (r : router) : Prop := ∀ k c, columns (l2 r) !! k = Some c →
  radj c = self r ∨ (is_l2 r = true ∧ a_ntype (radj c) = L2ROUTER).

Record router_ok (live : gmap Z adjacency) (r : router) : Prop := {
  rk_tables : tables_ok live r;
  rk_columns : area_columns r;
  rk_self : live !! a_ptr (self r) = None;
}.

Lemma area_columns_frame r r' :
  fixed r' = fixed r → columns (l2 r') = columns (l2 r) → area_columns r → area_columns r'.
Proof. unfold fixed. intros [= E1 E2 E3 E4 E5 E6] E H k c. rewrite E, E6, E2. apply H. Qed.

Lemma l2_router_is a : a_ntype a = L2ROUTER → is_router a = true.
Proof. unfold is_router. intros ->. done. Qed.

Lemma adj_up_ok live a r :
  router_ok live r → fresh live r a → router_ok (<[a_ptr a := a]> live) (adj_up a r) ∧ fixed (adj_up a r) = fixed r.
Proof.
  intros [[Hn Ha Hat] Hc Hs] Hf. assert (live ⊆ <[a_ptr a := a]> live) as Hsub by (destruct Hf; by apply insert_subseteq).
  assert ((<[a_ptr a := a]> live) !! a_ptr (self r) = None) as Hself.
  { destruct Hf as [_ Hne]. by rewrite lookup_insert_ne. }
  unfold adj_up, l2_adj_up.
  assert (∀ r0, node_ok live none r0 → fresh live r0 a → area_ok (<[a_ptr a := a]> live) none r0 →
    fixed r0 = fixed r → area_columns r0 → (is_l2 r0 = true → attached r0 = other_area r0) →
    router_ok (<[a_ptr a := a]> live) (l1_adj_up a r0) ∧ fixed (l1_adj_up a r0) = fixed r) as Hup.
  { intros r0 N0 F0 A0 E0 C0 At0. destruct (l1_adj_up_ok live a r0 N0 F0) as (K1 & K2 & K3 & K4).
    split; [|congruence]. constructor; [constructor|..].
    - done.
    - by eapply area_ok_frame.
    - intros Hl. rewrite K4, (other_area_frame r0) by done. apply At0. unfold fixed in *. congruence.
    - eapply area_columns_frame; [|by rewrite K3|exact C0]. done.
    - assert (self (l1_adj_up a r0) = self r) as -> by (unfold fixed in *; congruence). done. }
  assert (area_ok (<[a_ptr a := a]> live) none r) as Ha' by (by eapply area_weaken).
  pose proof (Hup r Hn Hf Ha' eq_refl Hc Hat) as Hr.
  destruct (is_l2 r) eqn:El; [|exact Hr].
  destruct (Z.eqb_spec (a_ntype a) L2ROUTER) as [Et|Et]; [|exact Hr].
  destruct Ha as [AT AM AS]. destruct Hf as [Hf1 Hf2].
  destruct (new_column_ok live a (l2 r) None _ (self r) AT AS Hf1 Hf2 (l2_router_is a Et)) as [AT' AS'].
  rewrite AM in AT', AS'. set (r0 := with_l2 _ r).
  destruct (Hup r0) as [Hok Hfx]; try done.
  - destruct Hn. by constructor.
  - intros k c Hk. unfold r0 in Hk. simpl in Hk.
    apply lookup_insert_Some in Hk as [[<- <-]|[_ Hk]]; [by right|by apply (Hc k c)].
  - intros _. exact (Hat eq_refl).
  - split; [|done]. destruct Hok as [Ht C1 S1]. constructor; [|done|done].
    by apply (tables_ok_core _ (l1_adj_up a r0)).
Qed.

Lemma adj_down_ok live a r :
  router_ok live r → live !! a_ptr a = Some a →
  router_ok (delete (a_ptr a) live) (adj_down a r) ∧ fixed (adj_down a r) = fixed r.
Proof.
  intros [[Hn Ha Hat] Hc Hs] Hl. assert (a_ptr a ≠ a_ptr (self r)) as Hne by congruence.
  destruct (l1_adj_down_ok live a r Hn Hl Hne) as (K1 & K2 & K3 & K4).
  assert (delete (a_ptr a) live !! a_ptr (self r) = None) as Hself by (by rewrite lookup_delete_ne).
  set (r1 := l1_adj_down a r) in *.
  assert (self r1 = self r ∧ is_l2 r1 = is_l2 r ∧ maxarea r1 = maxarea r) as (E1 & E2 & E3)
    by (unfold fixed in K2; by injection K2).
  assert (area_columns r1) as C1 by (eapply area_columns_frame; [exact K2|by rewrite K3|done]).
  assert (a_ntype a ≠ L2ROUTER ∨ is_l2 r = false → router_ok (delete (a_ptr a) live) r1) as Hno.
  { intros Hcase. constructor; [constructor|done|by rewrite E1].
    - done.
    - destruct Ha as [[T1 T2 T3 T4] AM AS]. eapply (area_ok_frame _ none r); [done|done|].
      constructor; [|done|done]. constructor; try done. intros k c Hk.
      destruct (T3 k c Hk) as (G1 & G2 & G3). split_and!; try done. apply known_delete; try done.
      intros E. destruct (Hc k c Hk) as [E'|[E' E'']]; [congruence|]. rewrite E in E''. destruct Hcase; congruence.
    - rewrite K4, (other_area_frame r), E2 by done. exact Hat. }
  unfold adj_down, l2_adj_down. fold r1.
  destruct (is_l2 r) eqn:El; [|split; [apply Hno; by right|done]].
  destruct (Z.eqb_spec (a_ntype a) L2ROUTER) as [Et|Et]; [|split; [apply Hno; by left|done]].
  set (r2 := with_l2 (drop_column a (l2 r1)) r1).
  destruct (compute_areas_ok (delete (a_ptr a) live) (λ i, (1 <=? i)%nat && (i <=? maxarea r1)%nat) 1 (maxarea r1) r2)
    as (G1 & G2 & G3 & G4).
  - by destruct K1; constructor.
  - destruct Ha as [AT AM AS]. constructor.
    + unfold r2. simpl. rewrite K3, E1. by apply drop_column_ok; [..|apply l2_router_is|].
    + unfold r2. simpl. rewrite K3. congruence.
    + intros i Hi. left. unfold r2 in Hi. simpl in Hi. rewrite K3, AM, <-E3 in Hi. destruct i as [|i]; [done|].
      cbv beta. apply Nat.leb_le in Hi. by rewrite Hi.
  - intros i Hi. apply andb_true_iff in Hi as [H1 H2]. apply Nat.leb_le in H1, H2. lia.
  - assert (fixed (compute_areas 1 (maxarea r1) r2) = fixed r) as G5 by exact (eq_trans G2 K2).
    split; [|exact G5]. unfold fixed in G5. injection G5 as F1 F2 F3 F4 F5 F6. constructor; [done| |by rewrite F6].
    intros k c. rewrite G4, F6, F2. unfold r2. simpl. intros [_ Hk]%lookup_delete_Some.
    rewrite <-E1, El. destruct (C1 k c Hk) as [?|[_ ?]]; auto.
Qed.

(** ** Routing messages *)

Lemma set_entry_ok live slf m extra from col i h c p :
  table_ok live slf m extra → settled_but p m extra → columns m !! a_ptr from = Some col →
  live !! a_ptr from = Some from → live !! a_ptr slf = None → 0 ≤ h ≤ INFHOPS → 0 ≤ c ≤ INFCOST →
  table_ok live slf (set_column from (set_route i h c col) m) extra ∧
  settled_but (λ j, p j || only i j) (set_column from (set_route i h c col) m) extra.
Proof.
  intros T S Hcol Hl Hs Hh Hc. destruct (to_keys _ _ _ _ T _ _ Hcol) as (Ek & Ekn & En).
  pose proof (mo_columns _ (to_matrix _ _ _ _ T) _ _ Hcol) as (L1 & L2 & R1 & R2).
  assert (radj col = from) as Er.
  { destruct Ekn as [E|E]; [rewrite E in Ek; congruence|]. rewrite Ek in E. congruence. }
  split.
  - apply set_column_ok; [done| |done|by right|].
    + unfold route_ok, set_route. cbn [hops cost]. rewrite !length_insert.
      split_and!; try done; by apply Forall_insert.
    + rewrite <-Er. destruct En as [E|]; [|by right]. by left.
  - apply set_column_settled; [intros j Hj; destruct (S j Hj) as [->|?]; [by left|by right]| |congruence].
    intros c0 j E Hj _. rewrite Hcol in E. injection E as <-. apply orb_false_iff in Hj as [_ Hj].
    apply Nat.eqb_neq in Hj. unfold route_offer, set_route. cbn [hops cost radj].
    by rewrite !list_lookup_insert_ne by done.
Qed.

Definition update_ok (u : RouteUpdate) : Prop := 0 ≤ u_id u ∧ 0 ≤ u_hops u ∧ 0 ≤ u_cost u.

Lemma update_entry u :
  update_ok u → 0 ≤ u8 (Z.min (u_hops u) INFHOPS) ≤ INFHOPS ∧ 0 ≤ u16 (Z.min (u_cost u) INFCOST) ≤ INFCOST.
Proof.
  intros (_ & Hh & Hc). unfold INFHOPS, INFCOST in *. rewrite u8_small, u16_small by lia. lia.
Qed.

Lemma node_update_ok live from st u :
  update_ok u → router_ok live st.1 → live !! a_ptr from = Some from →
  router_ok live (node_update from st u).1 ∧ fixed (node_update from st u).1 = fixed st.1.
Proof.
  intros Hu Hr Hl. destruct st as [r mr]. cbn [fst] in *. unfold node_update. cbv zeta.
  destruct (Z.of_nat (maxnodes r) <? u_id u); [done|].
  destruct (columns (l1 r) !! a_ptr from) as [col|] eqn:Hcol; [|done].
  set (i := Z.to_nat (u_id u)). destruct (update_entry u Hu) as [Rh Rc].
  set (h := u8 _) in *. set (c := u16 _) in *.
  destruct (negb _ || negb _); [|done]. cbn [fst].
  destruct Hr as [[[T M S] Ha Hat] Hc Hs].
  destruct (set_entry_ok live (self r) (l1 r) (Some (endnodes r)) from col i h c none T S Hcol Hl Hs Rh Rc)
    as [T' S'].
  destruct (compute_routes_ok live (only i) i i (with_l1 (set_column from (set_route i h c col) (l1 r)) r))
    as (K1 & K2 & K3 & K4 & K5 & K6).
  { by constructor. } { intros j Hj. apply Nat.eqb_eq in Hj. lia. }
  assert (fixed (compute_routes i i (with_l1 (set_column from (set_route i h c col) (l1 r)) r)) = fixed r)
    as K2' by exact K2.
  split; [|done]. constructor; [constructor|..].
  - done.
  - by eapply (area_ok_frame _ none r).
  - rewrite K5, (other_area_frame r) by done. unfold fixed in K2'. injection K2' as _ -> _ _ _ _. exact Hat.
  - eapply area_columns_frame; [exact K2'|by rewrite K3|done].
  - unfold fixed in K2'. injection K2' as _ _ _ _ _ ->. done.
Qed.

Lemma area_update_ok live from st u :
  update_ok u → router_ok live st.1 → live !! a_ptr from = Some from →
  router_ok live (area_update from st u).1 ∧ fixed (area_update from st u).1 = fixed st.1.
Proof.
  intros Hu Hr Hl. destruct st as [r mr]. cbn [fst] in *. unfold area_update. cbv zeta.
  destruct ((u_id u <? 1) || _) eqn:Hid; [done|]. apply orb_false_iff in Hid as [Hid _]. apply Z.ltb_ge in Hid.
  destruct (columns (l2 r) !! a_ptr from) as [col|] eqn:Hcol; [|done].
  set (i := Z.to_nat (u_id u)). destruct (update_entry u Hu) as [Rh Rc].
  set (h := u8 _) in *. set (c := u16 _) in *.
  destruct (negb _ || negb _); [|done]. cbn [fst].
  destruct Hr as [[Hn [T M S] Hat] Hc Hs].
  destruct (set_entry_ok live (self r) (l2 r) None from col i h c _ T S Hcol Hl Hs Rh Rc) as [T' S'].
  set (r1 := with_l2 (set_column from (set_route i h c col) (l2 r)) r).
  destruct (compute_areas_ok live (only i) i i r1) as (K1 & K2 & K3 & K4).
  { by destruct Hn; constructor. }
  { constructor; [done|done|]. intros j Hj. destruct (S' j Hj) as [E|?]; [left|by right].
    apply orb_true_iff in E as [E|E]; [|by rewrite E, orb_true_r]. unfold none in E. rewrite orb_false_r in E. by rewrite E. }
  { intros j Hj. apply Nat.eqb_eq in Hj. lia. }
  assert (fixed (compute_areas i i r1) = fixed r) as K2' by exact K2.
  split; [|done]. unfold fixed in K2'. injection K2' as F1 F2 F3 F4 F5 F6.
  constructor; [done| |by rewrite F6]. intros k c0. rewrite K4, F6, F2. unfold r1. simpl.
  intros [[<- <-]|[_ Hk]]%lookup_insert_Some; [exact (Hc (a_ptr from) col Hcol)|by apply (Hc k c0)].
Qed.

Lemma updates_ok live from (f : adjacency → router * Z → RouteUpdate → router * Z) us st :
  (∀ st u, update_ok u → router_ok live st.1 → router_ok live (f from st u).1 ∧ fixed (f from st u).1 = fixed st.1) →
  Forall update_ok us → router_ok live st.1 →
  router_ok live (partial_loss from (foldl (f from) st us)) ∧
  fixed (partial_loss from (foldl (f from) st us)) = fixed st.1.
Proof.
  intros Hf Hus. revert st. induction Hus as [|u us Hu _ IH]; intros st Hr; simpl.
  - destruct st as [r mr]. cbn [fst] in *. unfold partial_loss. destruct (mr =? 0); [done|].
    split; [|done]. destruct Hr as [Ht Hc Hs]. constructor; [|done|done]. by eapply tables_ok_core; [|exact Ht].
  - destruct (Hf st u Hu Hr) as [Hr' E]. destruct (IH _ Hr') as [? ?]. split; [done|congruence].
Qed.

(** The updates a message can hold. *)
Definition message_ok (msg : RoutingPacket) : Prop :=
  match msg with
  | PPh4Routing _ p => Forall (λ s, word_ok (startid s) ∧ Forall word_ok (seg_entries s)) (segments p)
  | PPhaseIIIRouting p => Forall word_ok (entries3 p)
  | _ => True
  end.

Lemma run_updates_ok id c es : 0 ≤ id → Forall word_ok es → Forall update_ok (run_updates id c es).
Proof.
  intros Hid Hes. revert id Hid. induction Hes as [|e es He _ IH]; intros id Hid; [constructor|]. simpl.
  constructor; [|apply IH, u32_range]. unfold word_ok in He. split; [done|]. split; [|apply u32_range].
  simpl. unfold entry_hops. pose proof (proj2 (Z.shiftr_nonneg e 10) ltac:(lia)). lia.
Qed.

Lemma message_updates_ok c p :
  Forall (λ s, word_ok (startid s) ∧ Forall word_ok (seg_entries s)) (segments p) →
  Forall update_ok (Ph4_updates c p).
Proof.
  unfold Ph4_updates. induction 1 as [|s segs [Hs He] _ IH]; simpl; [constructor|].
  apply Forall_app. split; [|done]. apply run_updates_ok; [|done]. destruct Hs. done.
Qed.

Lemma routing_message_ok live msg from c r :
  router_ok live r → live !! a_ptr from = Some from → message_ok msg →
  router_ok live (routing_message msg from c r) ∧ fixed (routing_message msg from c r) = fixed r.
Proof.
  intros Hr Hl Hm. unfold routing_message, node_updates.
  destruct msg as [| | | | | | | | |[] p|p]; try done.
  - destruct (columns (l1 r) !! a_ptr from); [|done].
    apply (updates_ok live from node_update _ (r, 0)); [|by apply message_updates_ok|done].
    intros. by apply node_update_ok.
  - destruct (negb (is_l2 r)); [done|]. destruct (columns (l2 r) !! a_ptr from); [|done].
    apply (updates_ok live from area_update _ (r, 0)); [|by apply message_updates_ok|done].
    intros. by apply area_update_ok.
  - destruct (columns (l1 r) !! a_ptr from); [|done].
    apply (updates_ok live from node_update _ (r, 0)); [|by apply run_updates_ok|done].
    intros. by apply node_update_ok.
Qed.

Lemma parsed_message_ok buf msg : bytes_ok buf → parse_frame buf = Some msg → message_ok msg.
Proof.
  intros Hb Hp. destruct msg as [| | | | | | | | |l p|p]; try exact Logic.I.
  - eapply Forall_impl; [exact (parsed_segments buf l p Hb Hp)|]. intros s (_ & H2 & H3). exact (conj H2 H3).
  - exact (parsed_entries buf p Hb Hp).
Qed.

(** ** Starting *)

Lemma no_route_chosen n h c m extra i :
  m = new_matrix n h c → (∀ o, o ∈ offers (matrix_columns m) extra i → INFCOST ≤ o_cost o) →
  (i ≤ n)%nat → chosen m extra i (row m i).
Proof.
  intros -> Ho Hi. exists no_route. split; [left; split; [done|by apply Forall_forall]|].
  unfold within. assert (row (new_matrix n h c) i = no_route) as ->.
  { unfold row, new_matrix. cbn [minhops mincost oadj]. by rewrite !lookup_replicate_2 by lia. }
  by destruct (_ || _).
Qed.

Lemma new_matrix_ok n h c extra slf : extra_ok n extra →
  (∀ e i a, extra = Some e → e_adjacencies e !! i = Some (Some a) → False) →
  table_ok ∅ slf (new_matrix n h c) extra.
Proof.
  intros He Ha. constructor; [constructor; simpl; rewrite ?length_replicate; done|done|done|].
  intros e i a E Hi. destruct (Ha e i a E Hi).
Qed.

Lemma new_endnodes_ok n : endnodes_ok n (new_endnodes n).
Proof.
  unfold endnodes_ok, new_endnodes. cbn [e_hops e_cost e_adjacencies]. rewrite !length_replicate.
  split_and!; try done; [apply Forall_replicate; unfold INFHOPS; lia|apply Forall_replicate; unfold INFCOST; lia|].
  intros i [_ Hi]%lookup_replicate. by apply lookup_replicate.
Qed.

(** The column of this node: only [i], and that at no cost. *)
Lemma self_route_ok n i slf : route_ok n (set_route i 0 0 (new_route n slf)).
Proof.
  destruct (new_route_ok n slf) as (L1 & L2 & R1 & R2). unfold route_ok, set_route. cbn [hops cost].
  rewrite !length_insert. split_and!; try done; apply Forall_insert; try done; unfold INFHOPS, INFCOST; lia.
Qed.

Lemma l1_start_ok rc ptp lan now :
  let r := new_router rc ptp lan in let r' := l1_start now r in
  node_ok ∅ none r' ∧ fixed r' = fixed r ∧ l2 r' = l2 r ∧ attached r' = attached r.
Proof.
  intros r. unfold l1_start. cbv zeta.
  set (col := set_route (own_tid r) 0 0 (new_route (maxnodes r) (self r))).
  assert (table_ok ∅ (self r) (l1 r) (Some (endnodes r))) as T.
  { apply new_matrix_ok; [apply new_endnodes_ok|].
    intros e i a [= <-] [E _]%lookup_replicate. done. }
  destruct (compute_routes_ok ∅ (λ i, (i <=? maxnodes r)%nat) 0 (maxnodes r) (with_l1 (set_column (self r) col (l1 r)) r))
    as (K1 & K2 & K3 & K4 & K5 & K6).
  - constructor; [|done|by apply all_settled].
    apply set_column_ok; [exact T|apply self_route_ok|done|by left|by left].
  - intros i Hi. apply Nat.leb_le in Hi. lia.
  - split_and!; [eapply node_ok_core; [|exact K1]; done|done..].
Qed.

Definition started (rc : routing_config) (ptp lan : list Z) (now now2 : Z) : router :=
  let r := new_router rc ptp lan in
  if rc_l2 rc then l2_start now now2 r else l1_start now r.

Lemma started_ok rc ptp lan now now2 : router_ok ∅ (started rc ptp lan now now2).
Proof.
  unfold started. destruct (l1_start_ok rc ptp lan now) as (K1 & K2 & K3 & K4).
  set (r := new_router rc ptp lan) in *. set (r1 := l1_start now r) in *. cbv zeta.
  assert (table_ok ∅ (self r) (l2 r) None) as T by (by apply new_matrix_ok).
  assert (settled_but (λ i, (i =? 0)%nat || none i) (l2 r) None) as S.
  { intros i Hi. right. eapply no_route_chosen; [done| |done]. intros o Ho.
    by apply elem_of_nil in Ho. }
  assert (other_area r = false) as Ho.
  { unfold other_area. apply not_true_is_false. intros (i & _ & Hi)%existsb_exists.
    apply andb_true_iff in Hi as [_ Hi]. apply bool_decide_eq_true in Hi as [x Hx].
    unfold r, new_router, new_matrix in Hx. cbn [l2 oadj] in Hx.
    destruct (replicate _ None !! i) as [v|] eqn:E; [|done].
    apply lookup_replicate in E as [-> _]. done. }
  assert (self r1 = self r ∧ maxarea r1 = maxarea r ∧ homearea r1 = homearea r) as (E1 & E2 & E3)
    by (destruct (fixed_fields _ _ K2) as (F1 & _ & _ & F4 & _ & F6); unfold homearea; by rewrite F1, F4, F6).
  destruct (rc_l2 rc) eqn:El.
  - unfold l2_start. cbv zeta. fold r1. rewrite E1, E2, E3, K3.
    set (col := set_route _ 0 0 (new_route (maxarea r) (self r))).
    set (r2 := with_l2 (set_column (self r) col (l2 r)) r1).
    destruct (compute_areas_ok ∅ (λ i, (1 <=? i)%nat && (i <=? maxarea r)%nat) 1 (maxarea r) r2) as (G1 & G2 & G3 & G4).
    + by destruct K1; constructor.
    + assert (self r2 = self r) as E1' by exact E1. constructor.
      * rewrite E1'. apply set_column_ok; [exact T|apply self_route_ok|done|by left|by left].
      * simpl. exact (eq_sym E2).
      * intros i Hi. left. change (maxid (l2 r2)) with (maxarea r) in Hi.
        destruct i as [|i]; [done|]. cbv beta. apply Nat.leb_le in Hi. by rewrite Hi.
    + intros i [H1 H2]%andb_true_iff. apply Nat.leb_le in H1, H2. lia.
    + constructor; [eapply tables_ok_core; [|exact G1]; done| |done].
      change (area_columns (compute_areas 1 (maxarea r) r2)). intros k c.
      destruct (fixed_fields _ _ G2) as (_ & _ & _ & _ & _ & ->). rewrite G4. change (self r2) with (self r1).
      rewrite E1. unfold r2. simpl.
      intros [[<- <-]|[_ Hk]]%lookup_insert_Some; [by left|]. done.
  - constructor; [constructor| |done].
    + done.
    + eapply (area_ok_frame _ none r); [done|done|]. by constructor.
    + intros Hl. destruct (fixed_fields _ _ K2) as (_ & Hl' & _). rewrite Hl' in Hl.
      change (is_l2 r) with (rc_l2 rc) in Hl. congruence.
    + intros k c. rewrite K3. intros Hk. done.
Qed.

(** ** Any sequence of events *)

(** What happens to a router: an adjacency comes up or the one at some address
    goes down, a frame arrives from a neighbour over a circuit of some cost, a
    packet is to be forwarded or sent, an update timer expires. *)
Inductive router_event :=
| UpAdj (a : adjacency)
| DownAdj (p : Z)
| MessageFrom (p : Z) (frame : Bytes) (circuit_cost : Z)
| ForwardPkt (pkt : ShortData.t)
| SendData (data : Bytes) (dest : Z) (rqr : bool)
| UpdateTimer (level now c : Z).

(** One event; the first component is the adjacencies that are up.  A new
    adjacency is an object of its own, and what goes down is up. *)
Definition router_step (st : gmap Z adjacency * router) (e : router_event) : gmap Z adjacency * router :=
  let '(live, r) := st in
  match e with
  | UpAdj a =>
      if decide (live !! a_ptr a = None ∧ a_ptr a ≠ a_ptr (self r)) then (<[a_ptr a := a]> live, adj_up a r) else st
  | DownAdj p => match live !! p with Some a => (delete p live, adj_down a r) | None => st end
  | MessageFrom p f c =>
      match live !! p, parse_frame f with
      | Some from, Some msg => (live, routing_message msg from c r)
      | _, _ => st
      end
  | ForwardPkt pkt => (live, forward pkt r)
  | SendData d dest rqr => (live, send d dest rqr r)
  | UpdateTimer level now c => (live, update_timeout level now c r)
  end.
Definition router_run : gmap Z adjacency * router → list router_event → gmap Z adjacency * router :=
  foldl router_step.
Definition frame_ok (e : router_event) : Prop :=
  match e with MessageFrom _ f _ => bytes_ok f | _ => True end.

Definition live_ok (live : gmap Z adjacency) : Prop := map_Forall (λ p a, a_ptr a = p) live.

Lemma send_adjacency_core a pkt r : core (send_adjacency a pkt r) = core r.
Proof. unfold send_adjacency, deliver. destruct (is_self a), (ShortData.src pkt); done. Qed.
Lemma count_crossing_core a pkt r : core (count_crossing a pkt r) = core r.
Proof. unfold count_crossing. destruct (ShortData.src pkt), (a_circuit a); done. Qed.
Lemma count_loss_core aged oor r : core (count_loss aged oor r) = core r.
Proof. by destruct aged, oor. Qed.

Lemma forward_core n pkt r : core (forward_at n pkt r) = core r.
Proof.
  revert pkt r. induction n as [|n IH]; intros pkt r; simpl; [done|].
  assert (∀ b oor pkt r, core (say (PacketLoss (if b : bool then 0 else if oor : bool then 2 else 1)
    (ShortData.src pkt) pkt) (count_loss b oor r)) = core r) as Hl by (intros; apply count_loss_core).
  destruct (find_oadj (ShortData.dstnode pkt) r) as [[a|] []]; simpl.
  - destruct (ShortData.rqr pkt && _); [apply IH|apply (Hl false true)].
  - destruct (is_self a); [apply send_adjacency_core|].
    destruct (_ <? _); [by rewrite send_adjacency_core, count_crossing_core|].
    destruct (ShortData.rqr pkt && _); [apply IH|apply (Hl true false)].
  - destruct (ShortData.rqr pkt && _); [apply IH|apply (Hl false true)].
  - destruct (ShortData.rqr pkt && _); [apply IH|apply (Hl false false)].
Qed.

Lemma update_timeout_core level now c r : core (update_timeout level now c r) = core r.
Proof.
  unfold update_timeout. cbv zeta. destruct ((if level =? 2 then _ else _) !! c) as [u|]; [|done].
  destruct (timeout now c u r) as [u' outs]. by destruct (level =? 2).
Qed.

Lemma router_ok_core live r r' : core r' = core r → router_ok live r → router_ok live r'.
Proof.
  intros E [T C S]. assert (fixed r' = fixed r ∧ l2 r' = l2 r) as [Ef El] by (unfold core in E; split; congruence).
  constructor; [by eapply tables_ok_core|by eapply area_columns_frame; [|rewrite El|]|].
  by destruct (fixed_fields _ _ Ef) as (_ & _ & _ & _ & _ & ->).
Qed.

Lemma router_step_ok live r e :
  router_ok live r → live_ok live → frame_ok e →
  let '(live', r') := router_step (live, r) e in router_ok live' r' ∧ live_ok live'.
Proof.
  intros Hr Hl He. unfold router_step. destruct e as [a|p|p f c|pkt|d dest rqr|level now c].
  - destruct (decide _) as [Hf|]; [|done]. split; [apply adj_up_ok; assumption|].
    by apply map_Forall_insert_2.
  - destruct (live !! p) as [a|] eqn:Ha; [|done]. pose proof (Hl _ _ Ha) as E. simpl in E. subst p.
    split; [by apply adj_down_ok|]. by apply map_Forall_delete.
  - destruct (live !! p) as [from|] eqn:Ha; [|done]. destruct (parse_frame f) as [msg|] eqn:Hm; [|exact (conj Hr Hl)].
    pose proof (Hl _ _ Ha) as E. simpl in E. subst p.
    split; [|done]. apply routing_message_ok; [done|done|by eapply parsed_message_ok].
  - split; [|done]. eapply router_ok_core; [apply forward_core|done].
  - split; [|done]. eapply router_ok_core; [apply forward_core|done].
  - split; [|done]. eapply router_ok_core; [apply update_timeout_core|done].
Qed.

Lemma router_run_ok live r es :
  router_ok live r → live_ok live → Forall frame_ok es →
  let '(live', r') := router_run (live, r) es in router_ok live' r' ∧ live_ok live'.
Proof.
  intros Hr Hl Hes. revert live r Hr Hl. induction Hes as [|e es He _ IH]; intros live r Hr Hl; [done|].
  change (router_run (live, r) (e :: es)) with (router_run (router_step (live, r) e) es).
  pose proof (router_step_ok live r e Hr Hl He) as Hs.
  destruct (router_step (live, r) e) as [live' r']. destruct Hs as [Hr' Hl']. exact (IH live' r' Hr' Hl').
Qed.

(** A configuration the constructors and [start] can run: they index their
    columns with this node's own number and area unchecked. *)
Definition routing_config_ok (rc : routing_config) : Prop :=
  Z.of_nat (rc_maxarea rc) ≤ 63 ∧ Z.of_nat (rc_maxnodes rc) ≤ 1023 ∧
  Nodeid.tid (rc_id rc) ≤ Z.of_nat (rc_maxnodes rc) ∧
  (rc_l2 rc = true → 1 ≤ Nodeid.area (rc_id rc) ≤ Z.of_nat (rc_maxarea rc)).

(** C5: The routing tables. After any sequence of adjacencies coming and going,
    frames from neighbours, packets and timer expiries, with any configuration
    the code can start with: every destination of the level 1 table, and every
    area of the level 2 table, has the best route that the columns offer within
    the limits, or none; no table refers to an adjacency that has gone; and an
    area router knows itself attached exactly when it can reach another area. *)
Theorem router_tables (rc : routing_config) (ptp lan : list Z) (now now2 : Z) (es : list router_event) :
  routing_config_ok rc → Forall frame_ok es →
  let '(live, r) := router_run (∅, started rc ptp lan now now2) es in
  (∀ i, (i ≤ maxid (l1 r))%nat →
     chosen (l1 r) (Some (endnodes r)) i (row (l1 r) i) ∧
     ∀ a, o_adj (row (l1 r) i) = Some a → a = self r ∨ live !! a_ptr a = Some a) ∧
  (∀ i, (1 ≤ i ≤ maxid (l2 r))%nat →
     chosen (l2 r) None i (row (l2 r) i) ∧
     ∀ a, o_adj (row (l2 r) i) = Some a → a = self r ∨ live !! a_ptr a = Some a) ∧
  (is_l2 r = true → attached r = other_area r).
Proof.
  intros _ Hes. pose proof (router_run_ok ∅ _ es (started_ok rc ptp lan now now2) (map_Forall_empty _) Hes) as H.
  destruct (router_run _ es) as [live r]. destruct H as [[[[T1 M1 S1] [T2 M2 S2] At] _ _] _].
  split_and!; [| |exact At]; intros i Hi.
  - destruct (S1 i Hi) as [?|Hc]; [done|]. split; [exact Hc|]. intros a. by apply (chosen_known _ _ _ _ _ _ _ T1 Hc).
  - destruct (S2 i (proj2 Hi)) as [Hz|Hc].
    { rewrite orb_false_r in Hz. apply Nat.eqb_eq in Hz. lia. }
    split; [exact Hc|]. intros a. by apply (chosen_known _ _ _ _ _ _ _ T2 Hc).
Qed.
End RouterTables.

(** An area router with two circuits: an area router of another area, an
    endnode and a level 1 router come up, send messages, and one goes. *)
Definition example_circuits : Circuits := {| wants_updates _ _ := true; update_blksize _ := 576 |}.
Definition example_routing : routing_config := mkRouting (Nodeid.make 1 5) true 20 4 16 100 32 16 100 0 0.
Definition example_level1 (src id : Z) (entries : list Z) : Bytes :=
  Ph4_encode_packet (mkPh4 (mkHeader true 3 0 false src) [mkSegment id entries]).
Definition example_level2 (src id : Z) (entries : list Z) : Bytes :=
  Ph4_encode_packet (mkPh4 (mkHeader true 4 0 false src) [mkSegment id entries]).
Definition example_router_events : list router_event :=
  [UpAdj (mkAdj 1 (Nodeid.make 2 7) L2ROUTER (Some 10) 4);
   UpAdj (mkAdj 2 (Nodeid.make 1 9) ENDNODE (Some 11) 3);
   UpAdj (mkAdj 3 (Nodeid.make 1 8) L1ROUTER (Some 11) 3);
   MessageFrom 1 (example_level2 (Nodeid.make 2 7) 1 [route_entry 31 1023; route_entry 0 0]) 4;
   MessageFrom 3 (example_level1 (Nodeid.make 1 8) 8 [route_entry 0 0; route_entry 1 4]) 3;
   SendData [1; 2] (Nodeid.make 2 1) true; UpdateTimer 1 0 10; DownAdj 2].

Definition example_router : gmap Z adjacency * router :=
  router_run (CS := example_circuits) (∅, started (CS := example_circuits) example_routing [10; 11] [] 0 0)
    example_router_events.

Lemma router_tables_witness :
  row (l1 example_router.2) 9 = (2, 7, Some (mkAdj 3 (Nodeid.make 1 8) L1ROUTER (Some 11) 3)) ∧
  row (l2 example_router.2) 2 = (1, 4, Some (mkAdj 1 (Nodeid.make 2 7) L2ROUTER (Some 10) 4)) ∧
  attached example_router.2 = true ∧
  let '(live, r) := example_router in
  ∀ i, (1 ≤ i ≤ maxid (l2 r))%nat → chosen (l2 r) None i (row (l2 r) i).
Proof.
  split; [by vm_compute|]. split; [by vm_compute|]. split; [by vm_compute|].
  assert (routing_config_ok example_routing) as Hc by (unfold routing_config_ok; split_and!; vm_compute; intuition discriminate).
  assert (Forall frame_ok example_router_events) as Hf.
  { unfold example_router_events. repeat (constructor; [exact Logic.I || (unfold frame_ok; apply (bool_decide_unpack _); vm_compute; exact Logic.I)|]). constructor. }
  pose proof (router_tables (CS := example_circuits) example_routing [10; 11] [] 0 0 example_router_events Hc Hf) as H.
  fold example_router in H. destruct example_router as [live r]. destruct H as (_ & H & _).
  intros i Hi. by destruct (H i Hi).
Defined.
