(* ===== verification/Forwarding.v ===== *)
(** Forwarding: what becomes of a packet at one router, and along a path of
    routers whatever their tables say. *)

From S2P Require Import Prelude Buffer Types Codec Layout Indexed RoutingPackets RouteTable L1Router RouterTables.
#[local] Open Scope Z_scope.

(** ** One router *)

Section Forwarding.
Context `{CS : Circuits}.

(** The packet on its way back to its sender. *)
Definition returned (p : ShortData.t) : ShortData.t :=
  ShortData.set_ie false (ShortData.set_rqr false (ShortData.set_rts true
    (ShortData.set_srcnode (ShortData.dstnode p) (ShortData.set_dstnode (ShortData.srcnode p) p)))).

(** May it be returned? *)
Definition returnable (p : ShortData.t) : bool := ShortData.rqr p && negb (ShortData.rts p).

(** What one look at the tables decides. *)
Inductive fate := Goes (a : adjacency) | Lost (aged oor : bool).
Definition fate_of (p : ShortData.t) (r : router) : fate :=
  match find_oadj (ShortData.dstnode p) r with
  | (Some a, false) =>
      if is_self a then Goes a
      else if ShortData.visit p <? visit_limit p r then Goes a else Lost true false
  | (_, oor) => Lost false oor
  end.
Definition dispatch_to (a : adjacency) (p : ShortData.t) (r : router) : router :=
  if is_self a then send_adjacency a p r
  else
    let p := ShortData.set_visit (u8 (ShortData.visit p + 1)) p in
    send_adjacency a p (count_crossing a p (with_transit_sent (u64 (transit_sent r + 1)) r)).
Definition lose (aged oor : bool) (p : ShortData.t) (r : router) : router :=
  say (PacketLoss (if aged then 0 else if oor then 2 else 1) (ShortData.src p) p) (count_loss aged oor r).

Lemma forward_at_S n p r :
  forward_at (S n) p r =
    match fate_of p r with
    | Goes a => dispatch_to a p r
    | Lost aged oor => if returnable p then forward_at n (returned p) r else lose aged oor p r
    end.
Proof.
  unfold fate_of, dispatch_to. simpl forward_at.
  destruct (find_oadj (ShortData.dstnode p) r) as [[a|] []]; try done.
  destruct (is_self a) eqn:Es; [by rewrite Es|]. destruct (_ <? _); [by rewrite Es|done].
Qed.

Lemma returned_once p : returnable (returned p) = false.
Proof. done. Qed.

Lemma forward_unfold n p r :
  forward_at (S (S n)) p r =
    match fate_of p r with
    | Goes a => dispatch_to a p r
    | Lost aged oor =>
        if returnable p then
          match fate_of (returned p) r with
          | Goes a => dispatch_to a (returned p) r
          | Lost aged oor => lose aged oor (returned p) r
          end
        else lose aged oor p r
    end.
Proof.
  rewrite forward_at_S. destruct (fate_of p r); [done|]. destruct (returnable p); [|done].
  rewrite forward_at_S, returned_once. done.
Qed.

(** What it says of the packet [p] that it let go. *)
Definition disposed (r : router) (p : ShortData.t) (o : output) : Prop :=
  match o with
  | Transmit a p' =>
      p' = ShortData.set_visit (ShortData.visit p + 1) p ∧ is_self a = false ∧
      find_oadj (ShortData.dstnode p) r = (Some a, false) ∧
      ShortData.visit p' ≤ (if ShortData.rts p then Z.min (2 * maxvisits r) 63 else maxvisits r)
  | Deliver p' | DeliverLater p' =>
      p' = p ∧ ∃ a, is_self a = true ∧ find_oadj (ShortData.dstnode p) r = (Some a, false)
  | PacketLoss code c p' => p' = p ∧ c = ShortData.src p ∧ returnable p = false ∧
      code = match fate_of p r with Lost true _ => 0 | Lost _ true => 2 | _ => 1 end
  | _ => False
  end.

Lemma dispatch_disposed a p r :
  fate_of p r = Goes a → 0 ≤ ShortData.visit p → 0 ≤ maxvisits r ≤ 63 →
  ∃ o, outputs (dispatch_to a p r) = outputs r ++ [o] ∧ disposed r p o.
Proof.
  intros Hf Hv Hm. unfold fate_of in Hf. unfold dispatch_to, send_adjacency.
  destruct (find_oadj (ShortData.dstnode p) r) as [[a'|] []] eqn:Eo; try done.
  destruct (is_self a') eqn:Es.
  - injection Hf as ->. rewrite Es.
    destruct (ShortData.src p) eqn:Esrc.
    + eexists (Deliver p). unfold deliver. rewrite Esrc. split; [done|]. split; [done|]. by exists a.
    + eexists (DeliverLater p). split; [done|]. split; [done|]. by exists a.
  - destruct (ShortData.visit p <? visit_limit p r) eqn:El; [|done]. injection Hf as ->. rewrite Es.
    apply Z.ltb_lt in El.
    assert (ShortData.visit p + 1 ≤ (if ShortData.rts p then Z.min (2 * maxvisits r) 63 else maxvisits r)) as Hl.
    { unfold visit_limit, VISIT_LIMIT_MAX in El. rewrite u32_small in El by lia. destruct (ShortData.rts p); lia. }
    assert (u8 (ShortData.visit p + 1) = ShortData.visit p + 1) as -> by (apply u8_small; destruct (ShortData.rts p); lia).
    exists (Transmit a (ShortData.set_visit (ShortData.visit p + 1) p)). split.
    + unfold count_crossing. by destruct (ShortData.src _), (a_circuit a).
    + repeat split; [exact Es|exact Eo|exact Hl].
Qed.

Lemma lose_disposed aged oor p r :
  fate_of p r = Lost aged oor → returnable p = false →
  ∃ o, outputs (lose aged oor p r) = outputs r ++ [o] ∧ disposed r p o.
Proof.
  intros Hf Hr. exists (PacketLoss (if aged then 0 else if oor then 2 else 1) (ShortData.src p) p).
  split; [by destruct aged, oor|]. simpl. rewrite Hf. by split_and!.
Qed.

Lemma forward_once_any p r :
  0 ≤ ShortData.visit p → 0 ≤ maxvisits r ≤ 63 →
  core (forward p r) = core r ∧
  ∃ p' o, outputs (forward p r) = outputs r ++ [o] ∧ disposed r p' o ∧
    (p' = p ∨ (p' = returned p ∧ returnable p = true ∧ ∃ aged oor, fate_of p r = Lost aged oor)).
Proof.
  intros Hv Hm. split; [apply forward_core|]. unfold forward. rewrite forward_unfold.
  destruct (fate_of p r) as [a|aged oor] eqn:Ef.
  - destruct (dispatch_disposed a p r Ef Hv Hm) as (o & ? & ?). exists p, o. auto.
  - destruct (returnable p) eqn:Er.
    + destruct (fate_of (returned p) r) as [a|aged' oor'] eqn:Ef'.
      * destruct (dispatch_disposed a (returned p) r Ef' Hv Hm) as (o & ? & ?).
        exists (returned p), o. split_and!; [done|done|right; eauto].
      * destruct (lose_disposed aged' oor' (returned p) r Ef' eq_refl) as (o & ? & ?).
        exists (returned p), o. split_and!; [done|done|right; eauto].
    + destruct (lose_disposed aged oor p r Ef Er) as (o & ? & ?). exists p, o. auto.
Qed.

(** Forwarding one packet. Whatever the tables hold, a packet is disposed of
    exactly once: it crosses to the next hop the tables name, with one more
    visit, within the visit limit; or it is delivered here, because the tables
    say so; or it is lost and reported, with the reason. A packet that asked for
    it and cannot be sent on is returned to its sender, once, and is disposed of
    in turn as a packet that may not be returned; the tables do not change. *)
Theorem forward_once p r :
  0 ≤ ShortData.visit p → 0 ≤ maxvisits r ≤ 63 →
  core (forward p r) = core r ∧
  ∃ p' o, outputs (forward p r) = outputs r ++ [o] ∧ disposed r p' o ∧
    (p' = p ∨ (p' = returned p ∧ returnable p = true ∧ ∃ aged oor, fate_of p r = Lost aged oor)).
Proof. apply forward_once_any. Qed.

(** ** Along a path *)

(** The packet that left for another router, if one did. *)
Definition transmitted (p : ShortData.t) (r : router) : option ShortData.t :=
  match drop (length (outputs r)) (outputs (forward p r)) with
  | [Transmit _ p'] => Some p'
  | _ => None
  end.

(** Over the wire to the next router, which gets it from its circuit [c]. *)
Definition arrives (c : Z) (p : ShortData.t) : option ShortData.t :=
  match encode_packet (PShortData p) with
  | Ok frame => match parse_frame frame with
                | Some (PShortData p') => Some (ShortData.set_src (Some c) p')
                | _ => None
                end
  | Throw _ => None
  end.

(** How many circuits the packet crosses when it meets the routers of [path]
    in turn, each with the circuit it arrives on at the next one. *)
Fixpoint crossings (path : list (router * Z)) (p : ShortData.t) : nat :=
  match path with
  | [] => 0
  | (r, c) :: path =>
      match transmitted p r with
      | None => 0
      | Some p1 => S (match arrives c p1 with Some p2 => crossings path p2 | None => 0 end)
      end
  end%nat.

Lemma transmitted_disposed p r p' :
  0 ≤ ShortData.visit p → 0 ≤ maxvisits r ≤ 63 → transmitted p r = Some p' →
  ShortData.visit p' = ShortData.visit p + 1 ∧ ShortData.visit p' ≤ 63.
Proof.
  intros Hv Hm Ht. destruct (forward_once_any p r Hv Hm) as (_ & q & o & Eo & Hd & Hq).
  unfold transmitted in Ht. rewrite Eo, drop_app_length in Ht. destruct o as [| | | |a q'| | |]; try done.
  injection Ht as ->. destruct Hd as (-> & _ & _ & Hl).
  assert (ShortData.visit q = ShortData.visit p) as Ev by (destruct Hq as [->|(-> & _)]; done).
  change (ShortData.visit (ShortData.set_visit (ShortData.visit q + 1) q)) with (ShortData.visit q + 1) in *.
  destruct (ShortData.rts q); lia.
Qed.

(** The packet as it is received. *)
Definition received (c : Z) (p : ShortData.t) : ShortData.t := ShortData.set_src (Some c) (ShortData.set_ie false p).

Lemma arrives_ok c p :
  packet_ok (PShortData p) → arrives c p = Some (received c p) ∧ packet_ok (PShortData (received c p)).
Proof.
  intros Hp. destruct (routing_parse_encode_any (PShortData p) Hp) as (bs & Ee & _ & Ep). unfold arrives.
  rewrite Ee, Ep. destruct p. split; [reflexivity|exact Hp].
Qed.

Lemma packet_ok_visit p v :
  packet_ok (PShortData p) → 0 ≤ v < 64 → packet_ok (PShortData (ShortData.set_visit v p)).
Proof. destruct p. simpl. tauto. Qed.
Lemma packet_ok_returned p : packet_ok (PShortData p) → packet_ok (PShortData (returned p)).
Proof. destruct p. simpl. tauto. Qed.
Lemma packet_ok_range p : packet_ok (PShortData p) → 0 ≤ ShortData.visit p < 64.
Proof. destruct p. simpl. tauto. Qed.

Lemma transmitted_ok p r p' :
  packet_ok (PShortData p) → 0 ≤ maxvisits r ≤ 63 → transmitted p r = Some p' →
  packet_ok (PShortData p') ∧ ShortData.visit p' = ShortData.visit p + 1.
Proof.
  intros Hp Hm Ht. pose proof (packet_ok_range p Hp) as Hv.
  destruct (transmitted_disposed p r p' ltac:(lia) Hm Ht) as [Ev Hl]. split; [|done].
  destruct (forward_once_any p r ltac:(lia) Hm) as (_ & q & o & Eo & Hd & Hq).
  unfold transmitted in Ht. rewrite Eo, drop_app_length in Ht. destruct o as [| | | |a q'| | |]; try done.
  injection Ht as ->. destruct Hd as (-> & _ & _ & _).
  apply packet_ok_visit; [destruct Hq as [->|(-> & _)]; [done|by apply packet_ok_returned]|].
  change (ShortData.visit (ShortData.set_visit (ShortData.visit q + 1) q)) with (ShortData.visit q + 1) in *. lia.
Qed.

(** No packet circulates for ever. Along any sequence of routers, whatever
    their tables hold and however the packet is turned back, it crosses at most
    as many circuits as its visit count leaves below 63: the six bits of the
    field always hold the count, so every router can encode what it sends. *)
Theorem forwarding_terminates path p :
  packet_ok (PShortData p) → Forall (λ '(r, _), 0 ≤ maxvisits r ≤ 63) path →
  Z.of_nat (crossings path p) ≤ 63 - ShortData.visit p.
Proof.
  intros Hp Hm. revert p Hp. induction Hm as [|[r c] path Hr _ IH]; intros p Hp; pose proof (packet_ok_range p Hp).
  { simpl. lia. }
  simpl. destruct (transmitted p r) as [p1|] eqn:Et; [|lia].
  destruct (transmitted_ok p r p1 Hp Hr Et) as [Hp1 Ev]. pose proof (packet_ok_range p1 Hp1).
  destruct (arrives_ok c p1 Hp1) as [-> Hp2]. specialize (IH _ Hp2).
  change (ShortData.visit (received c p1)) with (ShortData.visit p1) in IH. lia.
Qed.

(** ** Delivery *)

(** What a router makes of a packet: it crosses to the neighbour of an
    adjacency, it is delivered here, or it is gone. *)
Inductive onward := Crosses (a : adjacency) (p : ShortData.t) | Delivered (p : ShortData.t) | Gone.
Definition onward_of (p : ShortData.t) (r : router) : onward :=
  match drop (length (outputs r)) (outputs (forward p r)) with
  | [Transmit a p'] => Crosses a p'
  | [Deliver p'] | [DeliverLater p'] => Delivered p'
  | _ => Gone
  end.
Lemma onward_goes p r a : packet_ok (PShortData p) → find_oadj (ShortData.dstnode p) r = (Some a, false) →
  is_self a = false → ShortData.visit p + 1 ≤ maxvisits r ≤ 63 →
  onward_of p r = Crosses a (ShortData.set_visit (ShortData.visit p + 1) p).
Proof.
  intros Hp Ho Hs Hm. pose proof (packet_ok_range p Hp) as Hv.
  assert (fate_of p r = Goes a) as Hf.
  { unfold fate_of. rewrite Ho, Hs. rewrite (proj2 (Z.ltb_lt _ _)); [done|].
    unfold visit_limit, VISIT_LIMIT_MAX. rewrite u32_small by lia. destruct (ShortData.rts p); lia. }
  set (q := ShortData.set_visit (ShortData.visit p + 1) p).
  assert (outputs (dispatch_to a p r) = outputs r ++ [Transmit a q]) as E.
  { unfold dispatch_to, send_adjacency. rewrite Hs, u8_small by lia. unfold count_crossing. by destruct (ShortData.src _), (a_circuit a). }
  unfold onward_of, forward. by rewrite forward_unfold, Hf, E, drop_app_length.
Qed.
Lemma onward_here p r a : find_oadj (ShortData.dstnode p) r = (Some a, false) → is_self a = true → onward_of p r = Delivered p.
Proof.
  intros Ho Hs. unfold onward_of, forward. rewrite forward_unfold. unfold fate_of. rewrite Ho, Hs.
  unfold dispatch_to, send_adjacency, deliver. rewrite Hs. destruct (ShortData.src p); cbn; by rewrite drop_app_length.
Qed.

(** *** A network *)

(** The routers by address, and the circuit on which the neighbour of an
    adjacency receives what a router sends there. *)
Context (net : gmap Z router) (comes_in : Z → adjacency → Z).

(** A packet that has got to the router [id], and where it is delivered: each
    router's frame goes to the neighbour of the adjacency it is sent on. *)
Fixpoint carried (fuel : nat) (id : Z) (p : ShortData.t) : option (Z * ShortData.t) :=
  match fuel, net !! id with
  | S fuel, Some r =>
      match onward_of p r with
      | Crosses a p1 => match arrives (comes_in id a) p1 with Some p2 => carried fuel (a_nodeid a) p2 | None => None end
      | Delivered p1 => Some (id, p1)
      | Gone => None
      end
  | _, _ => None
  end.
(** The tables lead from [id] to [w], over [k] circuits, by routers that have at
    least [n] visits to spend: each names the neighbour to go on with, and the
    last one itself. *)
Inductive leads (dst n : Z) : nat → Z → Z → Prop :=
| leads_here id r a : net !! id = Some r → find_oadj dst r = (Some a, false) → is_self a = true → leads dst n 0 id id
| leads_by id r a k w : net !! id = Some r → find_oadj dst r = (Some a, false) → is_self a = false →
    n ≤ maxvisits r ≤ 63 → leads dst n k (a_nodeid a) w → leads dst n (S k) id w.

End Forwarding.

(** A packet for node 1.9 at the router of the example, whose level 1 table
    leads there through node 1.8; and node 1.9 itself. *)
Definition example_packet (visit : Z) : ShortData.t :=
  ShortData.mk 2 true false false false (Nodeid.make 1 9) (Nodeid.make 2 3) visit [1; 2; 3] false (Some 10).
Definition example_far : router :=
  started (CS := example_circuits) (mkRouting (Nodeid.make 1 9) false 20 4 16 100 32 16 100 0 0) [12] [] 0 0.
#[local] Abbreviation here := (example_router.2).

Lemma example_packet_ok v : 0 ≤ v < 64 → packet_ok (PShortData (example_packet v)).
Proof.
  intros Hv. simpl. split_and!; try done; try lia.
  apply (bool_decide_unpack _). vm_compute. exact Logic.I.
Qed.

Lemma forward_once_witness :
  (0 ≤ ShortData.visit (example_packet 32) ∧ 0 ≤ maxvisits here ≤ 63) ∧
  (core (forward (example_packet 32) here) = core here ∧
   ∃ p' o, outputs (forward (example_packet 32) here) = outputs here ++ [o] ∧ disposed here p' o ∧
    (p' = example_packet 32 ∨ (p' = returned (example_packet 32) ∧ returnable (example_packet 32) = true ∧
       ∃ aged oor, fate_of (example_packet 32) here = Lost aged oor))).
Proof.
  assert (0 ≤ ShortData.visit (example_packet 32) ∧ 0 ≤ maxvisits here ≤ 63) as H by (vm_compute; intuition discriminate).
  split; [exact H|]. destruct H. by apply forward_once.
Defined.

Lemma forwarding_terminates_witness :
  crossings [(here, 12); (here, 13); (here, 14)] (example_packet 30) = 3%nat ∧
  Z.of_nat (crossings [(here, 12); (here, 13); (here, 14)] (example_packet 30)) ≤ 63 - 30.
Proof.
  split; [by vm_compute|]. apply (forwarding_terminates _ (example_packet 30)); [by apply example_packet_ok|].
  repeat constructor; vm_compute; discriminate.
Defined.

(** Node 1.8 between them, and the three as a network. *)
Definition example_between : router :=
  (router_run (CS := example_circuits)
    (∅, started (CS := example_circuits) (mkRouting (Nodeid.make 1 8) false 20 4 16 100 32 16 100 0 0) [11; 12] [] 0 0)
    [UpAdj (mkAdj 1 (Nodeid.make 1 9) L1ROUTER (Some 12) 3);
     MessageFrom 1 (example_level1 (Nodeid.make 1 9) 9 [route_entry 0 0]) 3]).2.
Definition example_net : gmap Z router :=
  {[Nodeid.make 1 5 := here; Nodeid.make 1 8 := example_between; Nodeid.make 1 9 := example_far]}.
