(* ===== verification/RouterUpdates.v ===== *)
(** The update process: what the messages it builds say, that they fit, and
    what a neighbour's table holds when it has read them. *)

From Stdlib Require Import Sorted.
From S2P Require Import Prelude Buffer Types Codec Layout Indexed RoutingPackets RouteTable Float L1Router RouterTables.
#[local] Open Scope Z_scope.

(** ** What a list of segments says *)

Fixpoint numbered (i : Z) (es : list Z) : list (Z * Z) :=
  match es with [] => [] | e :: es => (i, e) :: numbered (i + 1) es end.
Definition spread (segs : list RouteSegment) : list (Z * Z) :=
  flat_map (λ s, numbered (startid s) (seg_entries s)) segs.

Lemma numbered_app i es es' : numbered i (es ++ es') = numbered i es ++ numbered (i + len es) es'.
Proof.
  revert i. induction es as [|e es IH]; intros i; simpl.
  - f_equal. unfold len. simpl. lia.
  - rewrite IH, len_cons. do 3 f_equal. lia.
Qed.
Lemma spread_app ss ss' : spread (ss ++ ss') = spread ss ++ spread ss'.
Proof. apply flat_map_app. Qed.
Lemma spread_one s : spread [s] = numbered (startid s) (seg_entries s).
Proof. apply app_nil_r. Qed.

(** The words of a list of segments in a message. *)
Definition words_of (segs : list RouteSegment) : Z := len (flat_map segment_words segs).
Lemma words_of_app ss ss' : words_of (ss ++ ss') = words_of ss + words_of ss'.
Proof. unfold words_of. by rewrite flat_map_app, len_app. Qed.
Lemma words_of_one s : words_of [s] = 2 + len (seg_entries s).
Proof. unfold words_of, segment_words. simpl. rewrite app_nil_r, !len_cons. lia. Qed.
Lemma words_of_nonneg ss : 0 ≤ words_of ss.
Proof. apply len_nonneg. Qed.

Lemma route_entry_word h c : word_ok (route_entry h c).
Proof. apply u16_range. Qed.
Lemma entry_for_word level r i : word_ok (entry_for level r i).
Proof.
  unfold entry_for, advertised. destruct (level =? 2); [destruct (is_l2 r)|];
    try destruct (_ <=? _)%nat; apply route_entry_word.
Qed.

(** ** Building *)

Section Build.
Context (room : Z) (entry : nat → Z) (l : level).
Context (Hentry : ∀ i, word_ok (entry i)) (Hroom : 0 < room).
(** The destinations that a message of this level can carry. *)
Definition in_range (i : nat) : Prop :=
  lowid l ≤ Z.of_nat i < match l with Level1 => 1024 | Level2 => 64 end.

Definition open_segs (b : building) : list RouteSegment :=
  match b_open b with Some s => [s] | None => [] end.
Definition current (b : building) : list RouteSegment := b_segs b ++ open_segs b.
Definition said (ids : list nat) : list (Z * Z) := map (λ i, (Z.of_nat i, entry i)) ids.

(** A message as it may be sent. *)
Definition message_fits (segs : list RouteSegment) : Prop :=
  segs ≠ [] ∧ Forall (segment_ok l) segs ∧ 2 * words_of segs < room + 6.

(** The state after the destinations [ids], all below [n]. *)
Record built (ids : list nat) (n : nat) (b : building) : Prop := {
  bl_said : spread (concat (b_msgs b) ++ current b) = said ids;
  bl_segs : Forall (segment_ok l) (current b);
  bl_words : b_words b = words_of (current b);
  bl_room : current b ≠ [] → 2 * b_words b < room;
  bl_msgs : Forall message_fits (b_msgs b);
  bl_next : ∀ s, b_open b = Some s → next_id s ≤ Z.of_nat n;
}.

Lemma built_entries ids n b s : built ids n b → b_open b = Some s → seg_entries s ≠ [].
Proof.
  intros Hb Hs. pose proof (bl_segs _ _ _ Hb) as H. unfold current, open_segs in H. rewrite Hs in H.
  apply Forall_app in H as [_ H]. apply Forall_cons in H as [[Hv _] _].
  by apply valid_segment_spec in Hv as (? & _).
Qed.

Lemma flush_segment_current ids n b : built ids n b →
  current (flush_segment b) = current b ∧ b_open (flush_segment b) = None ∧
  b_msgs (flush_segment b) = b_msgs b ∧ b_words (flush_segment b) = b_words b.
Proof.
  intros Hb. unfold flush_segment, current, open_segs. destruct (b_open b) as [s|] eqn:Es.
  - pose proof (built_entries ids n b s Hb Es). simpl. rewrite app_nil_r. by destruct (seg_entries s).
  - simpl. by rewrite Es, app_nil_r.
Qed.

Lemma flush_segment_built ids n b : built ids n b → built ids n (flush_segment b).
Proof.
  intros Hb. destruct (flush_segment_current ids n b Hb) as (E1 & E2 & E3 & E4).
  destruct Hb as [H1 H2 H3 H4 H5 H6]. constructor; rewrite ?E1, ?E2, ?E3, ?E4; done.
Qed.

(** What [flush_message] does when the message is not empty. *)
Lemma flush_message_eq ids n b : built ids n b →
  b_msgs (flush_message b) = b_msgs b ++ (match current b with [] => [] | c => [c] end) ∧
  current (flush_message b) = [] ∧ b_open (flush_message b) = None ∧ b_words (flush_message b) = 0.
Proof.
  intros Hb. destruct (flush_segment_current ids n b Hb) as (E1 & E2 & E3 & E4).
  unfold flush_message. cbn [b_msgs b_open b_words]. split_and!; [|done..].
  rewrite E3, <-E1. unfold current, open_segs. rewrite E2, app_nil_r. done.
Qed.

Lemma flush_message_built ids n b :
  spread (concat (b_msgs b) ++ current b) = said ids → Forall (segment_ok l) (current b) →
  Forall message_fits (b_msgs b) → b_words b = words_of (current b) → 2 * b_words b < room + 6 →
  (∀ s, b_open b = Some s → seg_entries s ≠ []) → built ids n (flush_message b).
Proof.
  intros H1 H2 H3 H4 H5 H6.
  assert (b_msgs (flush_message b) = b_msgs b ++ (match current b with [] => [] | c => [c] end)) as E.
  { unfold flush_message, flush_segment, current, open_segs. destruct (b_open b) as [s|] eqn:Es; simpl.
    - specialize (H6 s eq_refl). destruct (seg_entries s); [done|]. done.
    - by rewrite app_nil_r. }
  constructor.
  - change (current (flush_message b)) with (@nil RouteSegment). rewrite E, app_nil_r, concat_app, <-H1.
    do 2 f_equal. destruct (current b); [done|]. simpl. by rewrite app_nil_r.
  - constructor.
  - done.
  - done.
  - rewrite E. apply Forall_app. split; [done|]. destruct (current b) as [|s c] eqn:Ec; [constructor|].
    constructor; [|constructor]. split; [done|]. split; [done|]. lia.
  - done.
Qed.

(** The word count is in bounds while a message is open. *)
Lemma built_words ids n b : built ids n b → 2 * b_words b < room.
Proof.
  intros Hb. destruct (decide (current b = [])) as [E|E]; [|by apply Hb].
  rewrite (bl_words _ _ _ Hb), E. done.
Qed.

(** A segment that takes the entry of [i], and what it is then. *)
Record taking (ids : list nat) (b : building) (i : nat) (s : RouteSegment) (w : Z) : Prop := {
  tk_id : next_id s = Z.of_nat i;
  tk_said : spread (concat (b_msgs b) ++ b_segs b ++ [s]) = said ids;
  tk_ok : Forall (segment_ok l) (b_segs b) ∧ startid s = u16 (startid s) ∧ lowid l ≤ startid s ∧
          Forall word_ok (seg_entries s);
  tk_words : w = words_of (b_segs b ++ [s]);
  tk_room : 2 * w < room + 4;
  tk_msgs : Forall message_fits (b_msgs b);
}.

Lemma taking_open ids n b i s :
  built ids n b → b_open b = Some s → next_id s = Z.of_nat i → taking ids b i s (b_words b).
Proof.
  intros Hb Es Hi. pose proof (built_words _ _ _ Hb).
  destruct Hb as [B1 B2 B3 B4 B5 B6]. unfold current, open_segs in *. rewrite Es in *.
  apply Forall_app in B2 as [B2 B2']. apply Forall_cons in B2' as [(Hv & Hst & He) _].
  apply valid_segment_spec in Hv as (_ & _ & _ & Hz). unfold word_ok in Hst.
  constructor; [done|done| |done|lia|done]. split_and!; [done| | |done].
  - symmetry. by apply u16_small.
  - destruct l; simpl; [lia|]. specialize (Hz eq_refl). lia.
Qed.

Lemma taking_fresh ids n b i :
  built ids n b → b_open b = None → in_range i →
  taking ids b i (mkSegment (u16 (Z.of_nat i)) []) (b_words b + 2).
Proof.
  intros Hb Es Hi. pose proof (built_words _ _ _ Hb).
  destruct Hb as [B1 B2 B3 B4 B5 B6]. unfold current, open_segs in *. rewrite Es, app_nil_r in *.
  assert (u16 (Z.of_nat i) = Z.of_nat i) as Ei by (apply u16_small; unfold in_range in Hi; destruct l; simpl in Hi; lia).
  rewrite Ei. constructor; unfold next_id; cbn [startid seg_entries]; try done.
  - change (len []) with 0. lia.
  - rewrite app_assoc, spread_app, B1. apply app_nil_r.
  - split_and!; [done|done|apply Hi|constructor].
  - rewrite words_of_app, words_of_one, B3. done.
  - lia.
Qed.

Lemma taking_entry ids b i s w :
  taking ids b i s w → in_range i →
  let s' := mkSegment (startid s) (seg_entries s ++ [entry i]) in
  spread (concat (b_msgs b) ++ b_segs b ++ [s']) = said (ids ++ [i]) ∧
  Forall (segment_ok l) (b_segs b ++ [s']) ∧ w + 1 = words_of (b_segs b ++ [s']) ∧
  next_id s' = Z.of_nat (S i).
Proof.
  intros [T1 T2 (T3 & T4 & T5 & T6) T7 T8 T9] Hi s'. unfold next_id in *.
  assert (len (seg_entries s') = len (seg_entries s) + 1) as El.
  { unfold s'. cbn [seg_entries]. rewrite len_app, len_cons. done. }
  split_and!.
  - unfold s'. rewrite !app_assoc, spread_app, spread_one in T2 |- *. cbn [startid seg_entries].
    rewrite numbered_app, app_assoc, T2, T1. unfold said. by rewrite map_app.
  - apply Forall_app. split; [done|]. constructor; [|constructor]. split; [|split].
    + apply valid_segment_spec. rewrite El. unfold in_range in Hi. cbn [startid s'].
      split_and!; [by destruct (seg_entries s)|lia|destruct l; lia|intros ->; simpl in T5; lia].
    + unfold s', word_ok. cbn [startid]. rewrite T4. apply u16_range.
    + apply Forall_app. split; [done|]. by constructor.
  - rewrite T7, !words_of_app, !words_of_one, El. lia.
  - rewrite El. change (startid s') with (startid s). lia.
Qed.

(** One destination. *)
Lemma build_step_built ids n b i :
  built ids n b → (n ≤ i)%nat → in_range i → built (ids ++ [i]) (S i) (build_step room entry b i).
Proof.
  intros Hb Hn Hi. unfold build_step.
  set (b1 := match b_open b with Some s => if Z.of_nat i =? next_id s then b else flush_segment b | None => b end).
  assert (built ids n b1 ∧ ∀ s, b_open b1 = Some s → next_id s = Z.of_nat i) as [Hb1 Ho].
  { unfold b1. destruct (b_open b) as [s|] eqn:Es; [|split; [done|congruence]].
    destruct (Z.eqb_spec (Z.of_nat i) (next_id s)) as [E|E].
    - split; [done|]. intros s' Hs'. congruence.
    - split; [by apply flush_segment_built|]. intros s' Hs'.
      destruct (flush_segment_current ids n b Hb) as (_ & E2 & _). congruence. }
  clearbody b1. clear Hb.
  set (sw := match b_open b1 with Some s => (s, b_words b1) | None => _ end).
  assert (∃ s w, sw = (s, w) ∧ taking ids b1 i s w) as (s & w & -> & Ht).
  { unfold sw. destruct (b_open b1) as [s|] eqn:Es; eexists _, _; (split; [reflexivity|]).
    - eapply taking_open; eauto.
    - eapply taking_fresh; eauto. }
  destruct (taking_entry _ _ _ _ _ Ht Hi) as (H1 & H2 & H3 & H4).
  pose proof (tk_room _ _ _ _ _ Ht). pose proof (tk_msgs _ _ _ _ _ Ht).
  destruct (Z.leb_spec room ((w + 1) * 2)) as [Hl|Hl].
  - apply flush_message_built; unfold current, open_segs; cbn [b_msgs b_segs b_open b_words]; try done; [lia|].
    intros ? [= <-]. cbn [seg_entries]. by destruct (seg_entries s).
  - constructor; unfold current, open_segs; cbn [b_msgs b_segs b_open b_words]; try done; [lia|].
    intros ? [= <-]. rewrite H4. done.
Qed.

Lemma build_fold ids b n l' :
  built ids n b → (∀ i, i ∈ l' → in_range i ∧ (n ≤ i)%nat) → StronglySorted lt l' →
  ∃ n', built (ids ++ l') n' (foldl (build_step room entry) b l').
Proof.
  revert ids b n. induction l' as [|i l' IH]; intros ids b n Hb Hl Hs; simpl.
  - exists n. by rewrite app_nil_r.
  - apply StronglySorted_inv in Hs as [Hs Hlt]. rewrite List.Forall_forall in Hlt.
    destruct (Hl i ltac:(left)) as [Hi Hn].
    destruct (IH (ids ++ [i]) (build_step room entry b i) (S i)) as [n' Hn'].
    + by apply (build_step_built _ n).
    + intros j Hj. split; [apply Hl; by right|]. apply Hlt. by apply list_elem_of_In.
    + done.
    + exists n'. by rewrite <-app_assoc in Hn'.
Qed.

Lemma built_empty : built [] 0 (mkBuilding [] [] None 0).
Proof. constructor; try done; constructor. Qed.

(** The messages that carry the destinations of an ascending list. *)
Lemma build_messages l' :
  (∀ i, i ∈ l' → in_range i) → StronglySorted lt l' →
  let msgs := b_msgs (flush_message (foldl (build_step room entry) (mkBuilding [] [] None 0) l')) in
  spread (concat msgs) = said l' ∧ Forall message_fits msgs.
Proof.
  intros Hl Hs. destruct (build_fold [] _ 0 l' built_empty) as [n Hn]; [|done|].
  { intros i Hi. split; [by apply Hl|lia]. }
  assert (built l' n (flush_message (foldl (build_step room entry) (mkBuilding [] [] None 0) l'))) as H.
  { pose proof (built_words _ _ _ Hn).
    destruct Hn as [B1 B2 B3 B4 B5 B6]. apply flush_message_built; try done; [lia|].
    intros s Es. eapply built_entries; [|exact Es]. by constructor. }
  destruct H as [B1 _ _ _ B5 _]. rewrite app_nil_r in B1. done.
Qed.
End Build.

(** ** The messages of an update process *)

Section Messages.
Context `{CS : Circuits}.

(** The sizes the constructors give a router and its update process. *)
Definition sizes_ok (c : Z) (u : update) (r : router) : Prop :=
  (maxnodes r ≤ 1023)%nat ∧ (u_level u = 2 → length (srm u) = 64%nat) ∧
  0 ≤ nodeid r < 65536 ∧ 16 < update_blksize c ≤ 65535.

Lemma lowid_low_id lv : lowid (message_level lv) = Z.of_nat (low_id lv).
Proof. unfold message_level, low_id. by destruct (lv =? 2). Qed.

Lemma marked_in_range complete c u r i :
  sizes_ok c u r → i ∈ marked complete u r → in_range (message_level (u_level u)) i.
Proof.
  intros (Hn & Hs & _) [_ Hi]%list_elem_of_filter. apply elem_of_seq in Hi. unfold in_range, high_id in *.
  rewrite lowid_low_id. unfold message_level. destruct (Z.eqb_spec (u_level u) 2) as [E|E]; [|lia].
  rewrite (Hs E) in Hi. rewrite E in *. change (low_id 2) with 1%nat in *. lia.
Qed.

Lemma seq_sorted i n : StronglySorted lt (seq i n).
Proof.
  revert i. induction n as [|n IH]; intros i; simpl; constructor; [apply IH|].
  apply Forall_forall. intros j Hj%elem_of_seq. lia.
Qed.
Lemma filter_sorted {A} (R : A → A → Prop) (P : A → Prop) `{∀ x, Decision (P x)} l' :
  StronglySorted R l' → StronglySorted R (filter P l').
Proof.
  induction 1 as [|x l' _ IH Hx]; [constructor|]. rewrite filter_cons. destruct (decide (P x)); [|done].
  constructor; [done|]. rewrite List.Forall_forall in Hx. apply List.Forall_forall. intros y Hy.
  apply Hx. apply list_elem_of_In, list_elem_of_filter in Hy as [_ Hy]. by apply list_elem_of_In.
Qed.
Lemma marked_sorted complete u r : StronglySorted lt (marked complete u r).
Proof. apply filter_sorted, seq_sorted. Qed.

Lemma build_segments_spec complete c u r :
  sizes_ok c u r →
  spread (concat (build_segments complete c u r)) =
    map (λ i, (Z.of_nat i, entry_for (u_level u) r i)) (marked complete u r) ∧
  Forall (message_fits (room_of c) (message_level (u_level u))) (build_segments complete c u r).
Proof.
  intros Hs. apply (build_messages (room_of c) (entry_for (u_level u) r) (message_level (u_level u))).
  - intros i. apply entry_for_word.
  - destruct Hs as (_ & _ & _ & ?). unfold room_of. destruct (Z.ltb_spec 16 (update_blksize c)); lia.
  - intros i. by apply (marked_in_range complete c u r).
  - apply marked_sorted.
Qed.

Lemma update_message_ok c u r segs :
  sizes_ok c u r → message_fits (room_of c) (message_level (u_level u)) segs →
  packet_ok (PPh4Routing (message_level (u_level u)) (update_message (u_level u) r segs)).
Proof.
  intros (_ & _ & Hid & Hb) (Hne & Hok & Hw). unfold update_message. cbn [packet_ok].
  unfold room_of in Hw. destruct (Z.ltb_spec 16 (update_blksize c)); [|lia]. unfold words_of in Hw.
  split_and!; [|done|done|lia]. unfold header_ok. cbn. split_and!; try done; lia.
Qed.

Lemma update_message_parses c u r segs :
  sizes_ok c u r → message_fits (room_of c) (message_level (u_level u)) segs →
  let p := update_message (u_level u) r segs in
  parse_frame (Ph4_encode_packet p) = Some (PPh4Routing (message_level (u_level u)) p).
Proof.
  intros Hs Hf p. destruct (Ph4_rt _ _ (update_message_ok c u r segs Hs Hf)) as (bs & E & _ & Hp).
  injection E as E. by rewrite <-E in Hp.
Qed.

Lemma message_length p : len (Ph4_encode_packet p) = 6 + 2 * words_of (segments p).
Proof.
  unfold Ph4_encode_packet, append_body, words_of. rewrite !len_app.
  assert (∀ ws, len (flat_map put_word ws) = 2 * len ws) as ->.
  { induction ws as [|w ws IH]; [done|]. cbn [flat_map]. rewrite len_app, IH, len_cons. change (len (put_word w)) with 2. lia. }
  rewrite ?len_app. change (len (encode_header (hdr4 p))) with 4. change (len (put_word _)) with 2. lia.
Qed.

(** C13: The update messages say what is to be said. Whatever destinations are
    marked, or all of them: every frame parses as a routing message of the
    level and fits the block size with five bytes to spare; and the entries of
    all the segments of all the messages, numbered from their start ids, are
    exactly the marked destinations in order, each once, with the hops and cost
    of the table. *)
Theorem build_advertises complete c u r :
  sizes_ok c u r →
  ∃ msgs, map parse_frame (build complete c u r) =
            map (λ p, Some (PPh4Routing (message_level (u_level u)) p)) msgs ∧
    Forall (λ f, len f ≤ update_blksize c - 5) (build complete c u r) ∧
    spread (flat_map segments msgs) =
      map (λ i, (Z.of_nat i, entry_for (u_level u) r i)) (marked complete u r).
Proof.
  intros Hs. destruct (build_segments_spec complete c u r Hs) as [Hd Hf].
  exists (map (update_message (u_level u) r) (build_segments complete c u r)). unfold build. split_and!.
  - rewrite !map_map. apply map_ext_in. intros segs Hin. apply (update_message_parses c); [done|].
    rewrite Forall_forall in Hf. apply Hf. by apply list_elem_of_In.
  - apply Forall_map. eapply Forall_impl; [exact Hf|]. intros segs (_ & _ & Hw). simpl.
    rewrite message_length. unfold update_message. cbn [segments]. destruct Hs as (_ & _ & _ & Hb).
    unfold room_of in Hw. destruct (Z.ltb_spec 16 (update_blksize c)); lia.
  - rewrite <-Hd, flat_map_concat_map, map_map. cbn. by rewrite map_id.
Qed.
End Messages.

(** ** Reading them *)

Lemma map_cons_map {A B C} (f : A → C) (g : B → C) a l l' :
  map f (a :: l) = map g l' → ∃ b l2, l' = b :: l2 ∧ f a = g b ∧ map f l = map g l2.
Proof. destruct l' as [|b l2]; [discriminate|]. intros [= E1 E2]. by exists b, l2. Qed.

Section Reading.
Context `{CS : Circuits}.
Context (live : gmap Z adjacency) (from : adjacency) (Hlive : live !! a_ptr from = Some from).

(** A level 1 update as the neighbour's column takes it. *)
Definition clamp_hops (h : Z) : Z := Z.min h INFHOPS.
Definition clamp_cost (c : Z) : Z := Z.min c INFCOST.

(** [col'] is [col] with the updates [us] in it. *)
Record taken (n : nat) (us : list RouteUpdate) (col col' : RouteInfo) : Prop := {
  tn_new : ∀ u, u ∈ us → u_id u ≤ Z.of_nat n →
    hops col' !! Z.to_nat (u_id u) = Some (clamp_hops (u_hops u)) ∧
    cost col' !! Z.to_nat (u_id u) = Some (clamp_cost (u_cost u));
  tn_old : ∀ i, Z.of_nat i ∉ map u_id us → hops col' !! i = hops col !! i ∧ cost col' !! i = cost col !! i;
}.

Lemma taken_nil n col : taken n [] col col.
Proof. constructor; [|done]. by intros u ?%elem_of_nil. Qed.

Lemma taken_app n us us' col col1 col2 :
  Forall update_ok us → NoDup (map u_id (us ++ us')) →
  taken n us col col1 → taken n us' col1 col2 → taken n (us ++ us') col col2.
Proof.
  rewrite map_app. intros Hok (Hn1 & Hd & Hn2)%NoDup_app [A1 A2] [B1 B2]. constructor.
  - intros u [Hu|Hu]%elem_of_app Hi; [|by apply B1]. rewrite Forall_forall in Hok.
    destruct (Hok u Hu) as (Hid & _). destruct (B2 (Z.to_nat (u_id u))) as [-> ->]; [|by apply A1].
    rewrite Z2Nat.id by done. apply Hd. apply list_elem_of_fmap. by exists u.
  - intros i Hi. rewrite map_app, not_elem_of_app in Hi. destruct Hi as [Hi1 Hi2].
    destruct (B2 i Hi2) as [-> ->]. by apply A2.
Qed.


(** One update: the column takes it. *)
Lemma node_update_taken r mr u col :
  router_ok live r → update_ok u → columns (l1 r) !! a_ptr from = Some col →
  ∃ col', columns (l1 (node_update from (r, mr) u).1) !! a_ptr from = Some col' ∧ taken (maxnodes r) [u] col col'.
Proof.
  intros Hr (Hi & Hh & Hc) Hcol. unfold node_update. destruct (Z.ltb_spec (Z.of_nat (maxnodes r)) (u_id u)) as [Hl|Hl].
  { exists col. split; [done|]. constructor; [|done]. intros u' ->%list_elem_of_singleton. lia. }
  cbv zeta. rewrite Hcol. set (i := Z.to_nat (u_id u)).
  destruct (update_entry u (conj Hi (conj Hh Hc))) as [Rh Rc].
  assert (u8 (Z.min (u_hops u) INFHOPS) = clamp_hops (u_hops u)) as E1 by (unfold clamp_hops, INFHOPS; apply u8_small; lia).
  assert (u16 (Z.min (u_cost u) INFCOST) = clamp_cost (u_cost u)) as E2 by (unfold clamp_cost, INFCOST; apply u16_small; lia).
  rewrite E1, E2 in *. set (h := clamp_hops _) in *. set (c := clamp_cost _) in *.
  destruct Hr as [[[T M S] _ _] _ Hs].
  pose proof (mo_columns _ (to_matrix _ _ _ _ T) _ _ Hcol) as (L1 & L2 & _). rewrite M in L1, L2.
  assert (∀ u', u' ∈ [u] → u' = u) as Hsing by (by intros u' ->%list_elem_of_singleton).
  destruct (negb (default INFHOPS (hops col !! i) =? h) || negb (default INFCOST (cost col !! i) =? c)) eqn:Hch; cbn [fst].
  - exists (set_route i h c col). split.
    + destruct (set_entry_ok live (self r) (l1 r) (Some (endnodes r)) from col i h c none T S Hcol Hlive Hs Rh Rc) as [T' S'].
      destruct (compute_routes_ok live (only i) i i (with_l1 (set_column from (set_route i h c col) (l1 r)) r))
        as (_ & _ & _ & _ & _ & ->); [by constructor| |by apply lookup_insert_eq].
      intros j Hj. apply Nat.eqb_eq in Hj. lia.
    + constructor.
      * intros u' ->%Hsing _. unfold set_route. cbn [hops cost]. fold i h c.
        rewrite !list_lookup_insert_eq by lia. done.
      * intros j Hj. unfold set_route. cbn [hops cost]. rewrite !list_lookup_insert_ne; [done|..];
          intros <-; apply Hj; unfold i; rewrite Z2Nat.id by done; left.
  - apply orb_false_iff in Hch as [H1 H2]. apply negb_false_iff, Z.eqb_eq in H1, H2.
    exists col. split; [done|]. constructor; [|done]. intros u' ->%Hsing _. fold i h c. rewrite <-H1, <-H2.
    destruct (lookup_lt_is_Some_2 (hops col) i) as [x ->]; [lia|].
    destruct (lookup_lt_is_Some_2 (cost col) i) as [y ->]; [lia|]. done.
Qed.

Lemma node_updates_taken us r mr col :
  router_ok live r → Forall update_ok us → NoDup (map u_id us) → columns (l1 r) !! a_ptr from = Some col →
  ∃ col', columns (l1 (foldl (node_update from) (r, mr) us).1) !! a_ptr from = Some col' ∧
    taken (maxnodes r) us col col'.
Proof.
  intros Hr Hus. revert r mr col Hr. induction Hus as [|u us Hu Hus IH]; intros r mr col Hr Hd Hcol.
  { exists col. split; [done|apply taken_nil]. }
  destruct (node_update_taken r mr u col Hr Hu Hcol) as (col1 & Hcol1 & Ht1).
  destruct (node_update_ok live from (r, mr) u Hu Hr Hlive) as [Hr1 Hf1].
  destruct (node_update from (r, mr) u) as [r1 mr1] eqn:E. cbn [fst] in *.
  destruct (IH r1 mr1 col1 Hr1) as (col2 & Hcol2 & Ht2); [by inversion Hd|done|].
  exists col2. cbn [foldl]. rewrite E. split; [done|].
  assert (maxnodes r1 = maxnodes r) as Em by (by apply (fixed_fields r)). rewrite Em in Ht2.
  apply (taken_app _ [u] us col col1 col2); [by constructor|done|done|done].
Qed.

Lemma partial_loss_l1 st : l1 (partial_loss from st) = l1 st.1.
Proof. destruct st as [r mr]. unfold partial_loss. by destruct (mr =? 0). Qed.

(** A level 1 message. *)
Lemma level1_message_taken p c r col :
  router_ok live r → Forall update_ok (Ph4_updates c p) → NoDup (map u_id (Ph4_updates c p)) →
  columns (l1 r) !! a_ptr from = Some col →
  let r' := routing_message (PPh4Routing Level1 p) from c r in
  router_ok live r' ∧ maxnodes r' = maxnodes r ∧
  ∃ col', columns (l1 r') !! a_ptr from = Some col' ∧ taken (maxnodes r) (Ph4_updates c p) col col'.
Proof.
  intros Hr Hus Hd Hcol r'. unfold r', routing_message, node_updates. rewrite Hcol.
  destruct (updates_ok live from node_update (Ph4_updates c p) (r, 0)) as [H1 H2]; [|done|done|].
  { intros. by apply node_update_ok. }
  split; [done|]. split; [by apply (fixed_fields r)|]. rewrite partial_loss_l1.
  by apply node_updates_taken.
Qed.

(** Frames, as the circuit hands them to the router. *)
Definition read_frame (c : Z) (r : router) (f : Bytes) : router :=
  match parse_frame f with Some msg => routing_message msg from c r | None => r end.

Lemma read_frames_taken c ps fs r col :
  map parse_frame fs = map (λ p, Some (PPh4Routing Level1 p)) ps →
  router_ok live r → Forall update_ok (flat_map (Ph4_updates c) ps) →
  NoDup (map u_id (flat_map (Ph4_updates c) ps)) → columns (l1 r) !! a_ptr from = Some col →
  let r' := foldl (read_frame c) r fs in
  router_ok live r' ∧ maxnodes r' = maxnodes r ∧
  ∃ col', columns (l1 r') !! a_ptr from = Some col' ∧ taken (maxnodes r) (flat_map (Ph4_updates c) ps) col col'.
Proof.
  revert ps r col. induction fs as [|f fs IH]; intros ps r col E Hr Hus Hd Hcol.
  { symmetry in E. apply map_eq_nil in E as ->. split; [done|]. split; [done|]. exists col. split; [done|apply taken_nil]. }
  apply map_cons_map in E as (p & ps' & -> & Ef & E). cbn [flat_map foldl] in *. rename ps' into ps.
  apply Forall_app in Hus as [Hu1 Hu2]. pose proof Hd as Hd'. rewrite map_app in Hd'. apply NoDup_app in Hd' as (Hd1 & _ & Hd2).
  assert (read_frame c r f = routing_message (PPh4Routing Level1 p) from c r) as -> by (unfold read_frame; by rewrite Ef).
  destruct (level1_message_taken p c r col Hr Hu1 Hd1 Hcol) as (Hr1 & Em & col1 & Hcol1 & Ht1).
  set (r1 := routing_message _ _ _ _) in *. clearbody r1.
  destruct (IH ps r1 col1 E Hr1 Hu2 Hd2 Hcol1) as (Hr2 & Em2 & col2 & Hcol2 & Ht2).
  split; [done|]. split; [congruence|]. exists col2. split; [done|].
  rewrite Em in Ht2. by apply (taken_app _ _ _ col col1 col2).
Qed.
End Reading.

(** The updates of a message are its numbered entries. *)
Definition update_of (c : Z) (e : Z * Z) : RouteUpdate :=
  mkUpdate e.1 (entry_hops e.2 + 1) (u32 (entry_cost e.2 + c)).

Lemma run_updates_numbered i c es :
  0 ≤ i → i + len es < 4294967296 → run_updates i c es = map (update_of c) (numbered i es).
Proof.
  revert i. induction es as [|e es IH]; intros i Hi Hl; [done|]. rewrite len_cons in Hl. pose proof (len_nonneg es).
  cbn [run_updates numbered map]. rewrite (u32_small (i + 1)) by lia. rewrite IH by lia. done.
Qed.

Lemma updates_spread c ps :
  Forall (λ p, Forall (segment_ok Level1) (segments p)) ps →
  flat_map (Ph4_updates c) ps = map (update_of c) (spread (flat_map segments ps)).
Proof.
  induction 1 as [|p ps Hp _ IH]; [done|]. cbn [flat_map]. rewrite spread_app, map_app, <-IH. f_equal.
  clear IH. unfold Ph4_updates, spread. induction Hp as [|s segs (Hv & Hs & He) _ IH]; [done|].
  cbn [flat_map]. rewrite map_app, <-IH. f_equal. apply valid_segment_spec in Hv as (_ & _ & Hl & _).
  unfold word_ok in Hs. apply run_updates_numbered; lia.
Qed.

Lemma update_of_said c entry ids :
  map u_id (map (update_of c) (said entry ids)) = map Z.of_nat ids.
Proof. unfold said. rewrite !map_map. done. Qed.

Lemma entry_parts h c : 0 ≤ h ≤ 31 → 0 ≤ c ≤ 1023 →
  entry_hops (route_entry h c) = h ∧ entry_cost (route_entry h c) = c.
Proof.
  intros Hh Hc. unfold route_entry, entry_hops, entry_cost.
  assert (Z.land c 1023 = c) as -> by (change 1023 with (Z.ones 10); rewrite Z.land_ones by lia; apply Z.mod_small; lia).
  rewrite Z.lor_comm, (lor_shiftl_add c h 10) by lia. change (2 ^ 10) with 1024.
  rewrite u16_small by lia. change 1023 with (Z.ones 10).
  rewrite Z.land_ones, Z.shiftr_div_pow2 by lia. change (2 ^ 10) with 1024.
  split; Z.to_euclidean_division_equations; lia.
Qed.

(** The costs of a table are within what an entry can say. *)
Lemma row_range live r i :
  router_ok live r → (i ≤ maxnodes r)%nat → maxhops (l1 r) ≤ INFHOPS → maxcost (l1 r) ≤ INFCOST →
  0 ≤ o_hops (row (l1 r) i) ≤ INFHOPS ∧ 0 ≤ o_cost (row (l1 r) i) ≤ INFCOST.
Proof.
  intros [[[T M S] _ _] _ _] Hi Hh Hc. destruct (S i) as [?|Hch]; [lia|done|].
  destruct Hch as (b & Hb & ->). unfold within.
  destruct ((maxcost (l1 r) <? o_cost b) || (maxhops (l1 r) <? o_hops b)) eqn:E; [done|].
  apply orb_false_iff in E as [E1 E2]. apply Z.ltb_ge in E1, E2.
  destruct Hb as [[-> _]|(Hin & _)]; [done|].
  pose proof (offers_ok _ _ i (to_matrix _ _ _ _ T) (to_extra _ _ _ _ T)) as Ho.
  rewrite Forall_forall in Ho. destruct (Ho b Hin) as (_ & R1 & R2). lia.
Qed.

(** The choice is no dearer than any offer. *)
Lemma chosen_cost m extra i o k col c a :
  chosen m extra i o → o_adj o = Some a → columns m !! k = Some col → cost col !! i = Some c → o_cost o ≤ c.
Proof.
  intros (b & Hb & ->) Ha Hk Hc. unfold within in *. destruct (_ || _); [done|].
  destruct Hb as [[-> _]|(_ & _ & Hbest)]; [done|]. rewrite Forall_forall in Hbest.
  destruct (Hbest (route_offer i col)) as [H|[H _]].
  - apply elem_of_app. left. apply list_elem_of_fmap. exists col. split; [done|].
    apply elem_of_matrix_columns. by exists k.
  - unfold route_offer, o_cost in *. rewrite Hc in H. simpl in H. lia.
  - unfold route_offer, o_cost in *. rewrite Hc in H. simpl in H. lia.
Qed.

Lemma advertised_row live r i :
  router_ok live r → (i ≤ maxnodes r)%nat →
  entry_for 1 r i = route_entry (o_hops (row (l1 r) i)) (o_cost (row (l1 r) i)).
Proof.
  intros [[[T M S] _ _] _ _] Hi. unfold entry_for, advertised. cbn.
  pose proof (mo_hops _ (to_matrix _ _ _ _ T)) as Hl. rewrite M in Hl.
  destruct (Nat.leb_spec (length (minhops (l1 r))) i); [lia|done].
Qed.

Lemma marked_all u r i : u_level u = 1 → i ∈ marked true u r ↔ (i ≤ maxnodes r)%nat.
Proof.
  intros Hu. unfold marked, high_id. rewrite list_elem_of_filter, elem_of_seq, Hu. change (low_id 1) with 0%nat.
  cbn. intuition lia.
Qed.

Section Propagation.
Context `{CS : Circuits}.

(** C6: An update propagates. Take two level 1 routers in any state they can
    reach, the second with a column for the first; the second reads, frame by
    frame, the full update the first builds for the circuit between them. Then
    for every destination both tables have, the column holds the first router's
    hops plus one and cost plus the cost of the circuit, each up to its
    infinity; and where the second router has a route it is no dearer: the
    relaxation step of the distance vector algorithm, through the encoding, the
    splitting into messages, and the parser. *)
Theorem full_update_propagates live live' r r' c u from col circuit_cost :
  router_ok live r → maxhops (l1 r) ≤ INFHOPS → maxcost (l1 r) ≤ INFCOST → sizes_ok c u r → u_level u = 1 →
  router_ok live' r' → live' !! a_ptr from = Some from → columns (l1 r') !! a_ptr from = Some col →
  0 ≤ circuit_cost ≤ 65535 →
  let r'' := foldl (read_frame from circuit_cost) r' (build true c u r) in
  router_ok live' r'' ∧
  ∃ col', columns (l1 r'') !! a_ptr from = Some col' ∧
    ∀ i, (i ≤ maxnodes r ∧ i ≤ maxnodes r')%nat →
      hops col' !! i = Some (Z.min (o_hops (row (l1 r) i) + 1) INFHOPS) ∧
      cost col' !! i = Some (Z.min (o_cost (row (l1 r) i) + circuit_cost) INFCOST) ∧
      (o_adj (row (l1 r'') i) ≠ None →
       o_cost (row (l1 r'') i) ≤ Z.min (o_cost (row (l1 r) i) + circuit_cost) INFCOST).
Proof.
  intros Hr Hmh Hmc Hs Hu Hr' Hl Hcol Hcc r''. destruct (build_segments_spec true c u r Hs) as [Hd Hf].
  set (ps := map (update_message (u_level u) r) (build_segments true c u r)).
  assert (map parse_frame (build true c u r) = map (λ p, Some (PPh4Routing Level1 p)) ps) as Hp.
  { unfold build, ps. rewrite !map_map. apply map_ext_in. intros segs Hin.
    rewrite (update_message_parses c u r segs Hs); [by rewrite Hu|].
    rewrite Forall_forall in Hf. apply Hf. by apply list_elem_of_In. }
  assert (flat_map (Ph4_updates circuit_cost) ps =
          map (update_of circuit_cost) (said (entry_for 1 r) (marked true u r))) as Hup.
  { rewrite updates_spread.
    - f_equal. rewrite <-Hu. unfold said. rewrite <-Hd. unfold ps. rewrite flat_map_concat_map, map_map. cbn. by rewrite map_id.
    - unfold ps. apply Forall_map. eapply Forall_impl; [exact Hf|]. intros segs (_ & Hok & _).
      rewrite Hu in Hok. exact Hok. }
  assert (NoDup (map u_id (flat_map (Ph4_updates circuit_cost) ps))) as Hnd.
  { rewrite Hup, update_of_said. apply (NoDup_fmap_2 Z.of_nat). unfold marked. apply NoDup_filter, NoDup_seq. }
  assert (Forall update_ok (flat_map (Ph4_updates circuit_cost) ps)) as Hok.
  { rewrite Hup. apply Forall_map, Forall_map, Forall_forall. intros i _. split; [apply Nat2Z.is_nonneg|]. split; [|apply u32_range].
    change (0 ≤ entry_hops (entry_for 1 r i) + 1). pose proof (entry_for_word 1 r i) as Hw. unfold word_ok in Hw. unfold entry_hops.
    pose proof (proj2 (Z.shiftr_nonneg (entry_for 1 r i) 10) ltac:(lia)). lia. }
  destruct (read_frames_taken live' from Hl circuit_cost ps (build true c u r) r' col Hp Hr' Hok Hnd Hcol)
    as (Hr2 & Em & col' & Hcol' & Ht).
  fold r'' in Hr2, Em, Hcol'. split; [done|]. exists col'. split; [done|]. intros i [Hi Hi'].
  assert (update_of circuit_cost (Z.of_nat i, entry_for 1 r i) ∈ flat_map (Ph4_updates circuit_cost) ps) as Hin.
  { rewrite Hup. apply list_elem_of_fmap_2. unfold said. apply (list_elem_of_fmap_2 (λ i, (Z.of_nat i, entry_for 1 r i))).
    by apply marked_all. }
  destruct (row_range live r i Hr Hi Hmh Hmc) as [Rh Rc].
  destruct (tn_new _ _ _ _ Ht _ Hin) as [E1 E2]; [cbn; lia|]. cbn [u_id u_hops u_cost update_of fst snd] in E1, E2.
  rewrite Nat2Z.id, (advertised_row live) in E1, E2 by done.
  destruct (entry_parts _ _ Rh Rc) as [F1 F2]. rewrite F1 in E1. rewrite F2 in E2.
  rewrite u32_small in E2 by (unfold INFCOST in Rc; lia). split_and!; [exact E1|exact E2|].
  intros Ha. destruct (o_adj (row (l1 r'') i)) as [a|] eqn:Ea; [|done].
  destruct Hr2 as [[[T M S] _ _] _ _]. destruct (S i) as [?|Hch]; [lia|done|].
  eapply chosen_cost; [exact Hch|exact Ea|exact Hcol'|exact E2].
Qed.
End Propagation.

(** A level 1 router with nodes up to 40, a small block size, and a neighbour
    that knows the first 20. *)
Definition small_circuits : Circuits := {| wants_updates _ _ := true; update_blksize _ := 40 |}.
Definition example_sender : router :=
  started (CS := small_circuits) (mkRouting (Nodeid.make 1 8) false 40 0 16 100 32 16 100 0 0) [10] [] 0 0.
Definition example_update : update := new_update 1 40 (f_of_Z 600).
Definition example_from : adjacency := mkAdj 3 (Nodeid.make 1 8) L1ROUTER (Some 11) 3.
Definition example_live : gmap Z adjacency := <[3 := example_from]> ∅.
Definition example_receiver : router :=
  adj_up (CS := small_circuits) example_from (started (CS := small_circuits) example_routing [11] [] 0 0).

Lemma example_sizes : sizes_ok (CS := small_circuits) 10 example_update example_sender.
Proof.
  assert (maxnodes example_sender = 40%nat) as E1 by (vm_compute; reflexivity).
  assert (nodeid example_sender = 1032) as E2 by (vm_compute; reflexivity).
  assert (u_level example_update = 1) as E3 by reflexivity.
  unfold sizes_ok. rewrite E1, E2, E3. change (@update_blksize small_circuits 10) with 40.
  split; [lia|]. split; [discriminate|]. lia.
Qed.

Lemma build_advertises_witness :
  length (build (CS := small_circuits) true 10 example_update example_sender) = 5%nat ∧
  Forall (λ f, len f ≤ 35) (build (CS := small_circuits) true 10 example_update example_sender).
Proof.
  split; [vm_compute; reflexivity|].
  destruct (build_advertises (CS := small_circuits) true 10 example_update example_sender example_sizes)
    as (_ & _ & H & _). exact H.
Defined.

Lemma full_update_propagates_witness :
  let r'' := foldl (read_frame (CS := small_circuits) example_from 4) example_receiver
               (build (CS := small_circuits) true 10 example_update example_sender) in
  ∃ col', columns (l1 r'') !! 3 = Some col' ∧ hops col' !! 8%nat = Some 1 ∧ cost col' !! 8%nat = Some 4 ∧
    hops col' !! 9%nat = Some INFHOPS.
Proof.
  destruct (columns (l1 example_receiver) !! 3) as [col|] eqn:Hcol; [|vm_compute in Hcol; discriminate].
  destruct (full_update_propagates (CS := small_circuits) ∅ example_live example_sender example_receiver 10
    example_update example_from col 4) as (_ & col' & H1 & H2).
  - apply started_ok.
  - vm_compute. discriminate.
  - vm_compute. discriminate.
  - exact example_sizes.
  - reflexivity.
  - apply adj_up_ok; [apply started_ok|]. constructor; [done|]. vm_compute. discriminate.
  - reflexivity.
  - exact Hcol.
  - lia.
  - exists col'. split; [exact H1|].
    destruct (H2 8%nat) as (E1 & E2 & _); [vm_compute; lia|].
    destruct (H2 9%nat) as (E3 & _); [vm_compute; lia|].
    rewrite E1, E2, E3. split; [reflexivity|]. split; reflexivity.
Defined.
