(* ===== verification/Crc.v ===== *)
(** Cyclic redundancy checks: the class template of [common/crc.h], table
    driven, against the shift register it stands for; and what the check of
    DDCMP detects. *)

From S2P Require Import Prelude.
#[local] Open Scope Z_scope.

(** ** The class template [Crc] *)

(** [detail::reverse_bits]; [bits] is the width of the word type. *)
Fixpoint reverse_loop (bits : Z) (n : nat) (r v : Z) : Z :=
  match n with
  | O => r
  | S n => reverse_loop bits n (Z.lor (Z.shiftl r 1) (Z.land v 1) mod 2 ^ bits) (Z.shiftr v 1)
  end.
Definition reverse_bits (bits v width : Z) : Z := reverse_loop bits (Z.to_nat width) 0 v.

(** The template's parameters, with the number of bits of [Word]. *)
Record params := mkCrc {
  word_bits : Z; Poly : Z; Width : Z; Seed : Z; Reflect : bool; Final : Z;
}.

Module Crc.
Section Crc.
Context (P : params).

(** [static_cast<Word>]. *)
Definition word (v : Z) : Z := v mod 2 ^ word_bits P.
Definition mask : Z :=
  if Width P =? word_bits P then word (-1) else word (Z.shiftl 1 (Width P) - 1).
Definition initial : Z :=
  if Reflect P then Z.land (reverse_bits (word_bits P) (Seed P) (Width P)) mask
  else Z.land (Seed P) mask.

(** One bit of [make_table]. *)
Definition poly : Z := if Reflect P then reverse_bits (word_bits P) (Poly P) (Width P) else Poly P.
Definition step (poly c : Z) : Z :=
  if Reflect P then word (if Z.odd c then Z.lxor (Z.shiftr c 1) poly else Z.shiftr c 1)
  else word (if negb (Z.land c (Z.shiftl 1 (Width P - 1)) =? 0) then Z.lxor (Z.shiftl c 1) poly else Z.shiftl c 1).
Definition table_entry (poly i : Z) : Z :=
  let c := if Reflect P then word i else word (Z.shiftl (word i) (Width P - 8)) in
  Z.land (Nat.iter 8 (step poly) c) mask.
Definition make_table : list Z :=
  let poly := poly in map (table_entry poly) (map Z.of_nat (seq 0 256)).
Definition at_table (i : Z) : Z := default 0 (make_table !! Z.to_nat i).

(** [update (std::uint8_t)]. *)
Definition update (value b : Z) : Z :=
  Z.land
    (if Reflect P then word (Z.lxor (Z.shiftr value 8) (at_table (Z.land (Z.lxor value b) 255)))
     else word (Z.lxor (Z.shiftl value 8) (at_table (Z.land (Z.lxor (Z.shiftr value (Width P - 8)) b) 255))))
    mask.
(** [update (ByteView)], from the value [v]. *)
Definition updates (v : Z) (bs : Bytes) : Z := foldl update v bs.
Definition value (v : Z) : Z := Z.land (Z.lxor v (Final P)) mask.
Definition residue : Z := Z.land (Final P) mask.
Definition good (v : Z) : bool := value v =? residue.
Definition compute (bs : Bytes) : Z := value (updates initial bs).
End Crc.
End Crc.

(** The variants of the code. *)
Definition CRC16 : params := mkCrc 16 0x8005 16 0 true 0.
Definition CRCCCITT : params := mkCrc 16 0x1021 16 0xffff false 0.
Definition CRC32 : params := mkCrc 32 0x04c11db7 32 0xffffffff true 0xffffffff.

(** The published check values, of the digits 1 to 9. *)
Definition nine_digits : Bytes := [49; 50; 51; 52; 53; 54; 55; 56; 57].
Example crc16_check : Crc.compute CRC16 nine_digits = 0xbb3d.
Proof. vm_compute. reflexivity. Qed.
Example crcccitt_check : Crc.compute CRCCCITT nine_digits = 0x29b1.
Proof. vm_compute. reflexivity. Qed.
Example crc32_check : Crc.compute CRC32 nine_digits = 0xcbf43926.
Proof. vm_compute. reflexivity. Qed.

(** ** The shift register

    A word as wide as the register, as in every variant of the code. *)

Record params_ok (P : params) : Prop := {
  po_width : Width P = word_bits P;
  po_bits : 8 ≤ word_bits P;
  po_poly : 0 ≤ Crc.poly P < 2 ^ word_bits P;
}.

Lemma variants_ok : params_ok CRC16 ∧ params_ok CRCCCITT ∧ params_ok CRC32.
Proof. split_and!; constructor; vm_compute; intuition discriminate. Qed.

Abbreviation step P := (Crc.step P (Crc.poly P)).

(** The register takes one bit: into its low end when reflected, into its
    high end otherwise. *)
Definition feed (P : params) (r : Z) (b : bool) : Z :=
  step P (Z.lxor r (if Reflect P then Z.b2z b else Z.shiftl (Z.b2z b) (Width P - 1))).
(** The order in which a byte's bits go in. *)
Definition byte_bits (b : Z) : list bool := map (λ i, Z.testbit b (Z.of_nat i)) (seq 0 8).
Definition wire_bits (P : params) (b : Z) : list bool :=
  if Reflect P then byte_bits b else rev (byte_bits b).

(** The test of one bit of a word. *)
Lemma land_bit c k : 0 ≤ k → negb (Z.land c (2 ^ k) =? 0) = Z.testbit c k.
Proof.
  intros Hk. destruct (Z.testbit c k) eqn:E.
  - apply negb_true_iff, Z.eqb_neq. intros H.
    assert (Z.testbit (Z.land c (2 ^ k)) k = true) as H' by (rewrite Z.land_spec, E, Z.pow2_bits_true by lia; done).
    rewrite H, Z.bits_0 in H'. done.
  - apply negb_false_iff, Z.eqb_eq. apply Z.bits_inj'. intros n Hn. rewrite Z.land_spec, Z.bits_0.
    destruct (decide (n = k)) as [->|Hne]; [by rewrite E|].
    rewrite Z.pow2_bits_false by lia. apply andb_false_r.
Qed.

Lemma lxor_pow n a b : 0 ≤ n → 0 ≤ a < 2 ^ n → 0 ≤ b < 2 ^ n → 0 ≤ Z.lxor a b < 2 ^ n.
Proof.
  intros Hn Ha Hb. assert (Z.lxor a b = (Z.lxor a b) mod 2 ^ n) as ->.
  { apply Z.bits_inj'. intros k Hk. destruct (Z.lt_ge_cases k n).
    - by rewrite Z.mod_pow2_bits_low by lia.
    - rewrite Z.mod_pow2_bits_high by lia.
      by rewrite <-(Z.mod_small a (2 ^ n)), <-(Z.mod_small b (2 ^ n)), Z.lxor_spec, !Z.mod_pow2_bits_high by lia. }
  apply Z.mod_pos_bound. lia.
Qed.

Section Linear.
Context (P : params) (HP : params_ok P).
Abbreviation w := (word_bits P).

Lemma word_land v : Crc.word P v = Z.land v (Z.ones w).
Proof. destruct HP. unfold Crc.word. rewrite Z.land_ones; [done|lia]. Qed.
Lemma mask_ones : Crc.mask P = Z.ones w.
Proof.
  destruct HP. unfold Crc.mask. rewrite po_width0, Z.eqb_refl, word_land. apply Z.bits_inj'. intros n Hn.
  by rewrite Z.land_spec, Z.bits_m1.
Qed.
Lemma word_mask v : Z.land (Crc.word P v) (Crc.mask P) = Crc.word P v.
Proof. rewrite mask_ones, word_land, <-Z.land_assoc, Z.land_diag. done. Qed.
Lemma word_lxor a b : Crc.word P (Z.lxor a b) = Z.lxor (Crc.word P a) (Crc.word P b).
Proof.
  rewrite !word_land. apply Z.bits_inj'. intros n Hn. rewrite !Z.land_spec, !Z.lxor_spec, !Z.land_spec.
  by destruct (Z.testbit a n), (Z.testbit b n), (Z.testbit (Z.ones w) n).
Qed.
Lemma word_range v : 0 ≤ Crc.word P v < 2 ^ w.
Proof. destruct HP. apply Z.mod_pos_bound, Z.pow_pos_nonneg; lia. Qed.
Lemma word_small v : 0 ≤ v < 2 ^ w → Crc.word P v = v.
Proof. apply Z.mod_small. Qed.

(** What decides whether the polynomial is added. *)
Definition tap (c : Z) : bool := if Reflect P then Z.odd c else Z.testbit c (w - 1).
Definition shifted (c : Z) : Z := if Reflect P then Z.shiftr c 1 else Z.shiftl c 1.

Lemma step_eq c : step P c = Crc.word P (Z.lxor (shifted c) (if tap c then Crc.poly P else 0)).
Proof.
  unfold Crc.step, shifted, tap. destruct HP. rewrite po_width0, Z.shiftl_1_l, land_bit by lia.
  destruct (Reflect P); [destruct (Z.odd c)|destruct (Z.testbit c _)]; by rewrite ?Z.lxor_0_r.
Qed.

Lemma step_lxor a b : step P (Z.lxor a b) = Z.lxor (step P a) (step P b).
Proof.
  rewrite !step_eq, <-word_lxor. f_equal.
  assert (shifted (Z.lxor a b) = Z.lxor (shifted a) (shifted b)) as ->.
  { unfold shifted. destruct (Reflect P); [apply Z.shiftr_lxor|apply Z.shiftl_lxor]. }
  assert (tap (Z.lxor a b) = xorb (tap a) (tap b)) as ->.
  { unfold tap. destruct (Reflect P); [|apply Z.lxor_spec]. by rewrite <-!Z.bit0_odd, Z.lxor_spec. }
  apply Z.bits_inj'. intros n Hn.
  destruct (tap a), (tap b); simpl; rewrite !Z.lxor_spec, ?Z.bits_0;
    destruct (Z.testbit (shifted a) n), (Z.testbit (shifted b) n), (Z.testbit (Crc.poly P) n); done.
Qed.

Lemma steps_lxor n a b : Nat.iter n (step P) (Z.lxor a b) = Z.lxor (Nat.iter n (step P) a) (Nat.iter n (step P) b).
Proof. induction n as [|n IH]; simpl; [done|]. by rewrite IH, step_lxor. Qed.
(** Shifting without feedback. *)
Lemma tap_even x : Reflect P = true → tap (Z.shiftl x 1) = false ∧ shifted (Z.shiftl x 1) = x.
Proof.
  intros E. unfold tap, shifted. rewrite E. split.
  - rewrite Z.shiftl_mul_pow2, Z.odd_mul by lia. by rewrite andb_false_r.
  - rewrite Z.shiftr_shiftl_l by lia. apply Z.shiftl_0_r.
Qed.

Lemma step_right x : Reflect P = true → 0 ≤ x < 2 ^ w → step P (Z.shiftl x 1) = x.
Proof.
  intros E Hx. destruct (tap_even x E) as [E1 E2]. rewrite step_eq, E1, E2, Z.lxor_0_r.
  by apply word_small.
Qed.

Lemma shiftl_range x n : 0 ≤ x → 0 ≤ n → x * 2 ^ n < 2 ^ w → 0 ≤ Z.shiftl x n < 2 ^ w.
Proof. intros. rewrite Z.shiftl_mul_pow2 by lia. split; [apply Z.mul_nonneg_nonneg; lia|done]. Qed.

Lemma steps_right n x :
  Reflect P = true → 0 ≤ x → x * 2 ^ Z.of_nat n < 2 ^ w → Nat.iter n (step P) (Z.shiftl x (Z.of_nat n)) = x.
Proof.
  intros E Hx. induction n as [|n IH]; intros Hn; [apply Z.shiftl_0_r|].
  rewrite Nat2Z.inj_succ, Z.pow_succ_r in Hn by lia. assert (0 < 2 ^ Z.of_nat n) by (apply Z.pow_pos_nonneg; lia).
  rewrite Nat.iter_succ_r. rewrite Nat2Z.inj_succ, <-Z.add_1_r, <-Z.shiftl_shiftl by lia.
  rewrite step_right; [apply IH; nia|done|apply shiftl_range; nia].
Qed.

Lemma step_left x : Reflect P = false → 0 ≤ x → x * 2 < 2 ^ w → step P x = Z.shiftl x 1.
Proof.
  intros E Hx Hl. destruct HP. rewrite step_eq. unfold tap, shifted. rewrite E.
  assert (Z.testbit x (w - 1) = false) as ->.
  { assert (2 ^ w = 2 * 2 ^ (w - 1)) by (rewrite <-Z.pow_succ_r by lia; f_equal; lia).
    destruct (decide (x = 0)) as [->|]; [apply Z.bits_0|]. apply Z.bits_above_log2; [done|].
    apply Z.log2_lt_pow2; lia. }
  rewrite Z.lxor_0_r. apply word_small. by apply shiftl_range.
Qed.

Lemma steps_left n x :
  Reflect P = false → 0 ≤ x → x * 2 ^ Z.of_nat n < 2 ^ w → Nat.iter n (step P) x = Z.shiftl x (Z.of_nat n).
Proof.
  intros E Hx. induction n as [|n IH]; intros Hn; [by rewrite Z.shiftl_0_r|].
  rewrite Nat2Z.inj_succ, Z.pow_succ_r in Hn by lia. assert (0 < 2 ^ Z.of_nat n) by (apply Z.pow_pos_nonneg; lia).
  rewrite Nat.iter_succ, IH by nia. rewrite Nat2Z.inj_succ, <-Z.add_1_r, <-Z.shiftl_shiftl by lia.
  rewrite Z.shiftl_mul_pow2 by lia. apply step_left; [done|nia|nia].
Qed.

(** ** The table *)

Lemma at_table_entry i : 0 ≤ i < 256 → Crc.at_table P i = Crc.table_entry P (Crc.poly P) i.
Proof.
  intros Hi. unfold Crc.at_table, Crc.make_table. rewrite !list_lookup_fmap, lookup_seq_lt by lia. simpl.
  by rewrite Z2Nat.id by lia.
Qed.

Lemma step_range c : 0 ≤ step P c < 2 ^ w.
Proof. rewrite step_eq. apply word_range. Qed.
Lemma steps_range n c : 0 ≤ c < 2 ^ w → 0 ≤ Nat.iter n (step P) c < 2 ^ w.
Proof. destruct n; [done|]. intros _. apply step_range. Qed.
Lemma land_mask x : 0 ≤ x < 2 ^ w → Z.land x (Crc.mask P) = x.
Proof. intros Hx. rewrite <-(word_small x) by done. apply word_mask. Qed.

Lemma byte_pow : 256 ≤ 2 ^ w.
Proof. destruct HP. change 256 with (2 ^ 8). apply Z.pow_le_mono_r; lia. Qed.

Lemma land_255 x : Z.land x 255 = x mod 256.
Proof. change 255 with (Z.ones 8). by rewrite Z.land_ones. Qed.

Lemma split_at n x : 0 ≤ n → x = Z.lxor (x mod 2 ^ n) (Z.shiftl (Z.shiftr x n) n).
Proof.
  intros Hn. rewrite <-Z.land_ones by done. apply Z.bits_inj'. intros k Hk.
  rewrite Z.lxor_spec, Z.land_spec, Z.shiftl_spec by done. destruct (Z.lt_ge_cases k n).
  - rewrite Z.ones_spec_low, (Z.testbit_neg_r _ (k - n)), andb_true_r, xorb_false_r by lia. done.
  - rewrite Z.ones_spec_high, andb_false_r, Z.shiftr_spec by lia. simpl. f_equal. lia.
Qed.

Lemma lxor_range a b : 0 ≤ a < 2 ^ w → 0 ≤ b < 2 ^ w → 0 ≤ Z.lxor a b < 2 ^ w.
Proof. destruct HP. apply lxor_pow. lia. Qed.

Lemma entry_steps i : 0 ≤ i < 256 →
  Crc.table_entry P (Crc.poly P) i = Nat.iter 8 (step P) (if Reflect P then i else Z.shiftl i (w - 8)).
Proof.
  intros Hi. pose proof byte_pow. unfold Crc.table_entry. cbv zeta. rewrite (po_width P HP), (word_small i) by lia.
  destruct (Reflect P); [apply land_mask, steps_range; lia|]. rewrite word_small; [apply land_mask|]; try apply steps_range.
  all: apply shiftl_range; destruct HP; try lia.
  all: assert (2 ^ w = 256 * 2 ^ (w - 8)) as -> by (change 256 with (2 ^ 8); rewrite <-Z.pow_add_r by lia; f_equal; lia).
  all: assert (0 < 2 ^ (w - 8)) by (apply Z.pow_pos_nonneg; lia); nia.
Qed.

(** What one byte does, as eight steps. *)
Definition aligned (b : Z) : Z := if Reflect P then b else Z.shiftl b (w - 8).

Lemma update_reflected v b :
  Reflect P = true → 0 ≤ v < 2 ^ w → byte_ok b → Crc.update P v b = Nat.iter 8 (step P) (Z.lxor v b).
Proof.
  intros E Hv Hb. pose proof byte_pow. unfold byte_ok in Hb. pose proof (Z.mod_pos_bound (Z.lxor v b) 256 ltac:(lia)).
  unfold Crc.update. rewrite E, land_255, at_table_entry, entry_steps, E by done.
  assert (Z.shiftr (Z.lxor v b) 8 = Z.shiftr v 8) as Es.
  { rewrite Z.shiftr_lxor, (Z.shiftr_div_pow2 b) by lia. rewrite (Z.div_small b) by (simpl; lia). apply Z.lxor_0_r. }
  rewrite (split_at 8 (Z.lxor v b)) at 2 by lia. change (2 ^ 8) with 256. rewrite Es, steps_lxor, Z.lxor_comm.
  assert (Z.shiftr v 8 * 256 ≤ v ∧ 0 ≤ Z.shiftr v 8) as [? ?].
  { rewrite Z.shiftr_div_pow2 by lia. change (2 ^ 8) with 256. Z.to_euclidean_division_equations. lia. }
  assert (Nat.iter 8 (step P) (Z.shiftl (Z.shiftr v 8) 8) = Z.shiftr v 8) as ->.
  { apply (steps_right 8); [done|done|]. change (2 ^ Z.of_nat 8) with 256. lia. }
  rewrite word_small by (apply lxor_range; [apply steps_range; lia|lia]).
  apply land_mask, lxor_range; [apply steps_range; lia|lia].
Qed.

Lemma update_plain v b :
  Reflect P = false → 0 ≤ v < 2 ^ w → byte_ok b →
  Crc.update P v b = Nat.iter 8 (step P) (Z.lxor v (Z.shiftl b (w - 8))).
Proof.
  intros E Hv Hb. pose proof byte_pow. unfold byte_ok in Hb. destruct HP as [_ Hw _].
  assert (0 < 2 ^ (w - 8)) as Hp by (apply Z.pow_pos_nonneg; lia).
  assert (2 ^ w = 2 ^ (w - 8) * 256) as Ew by (change 256 with (2 ^ 8); rewrite <-Z.pow_add_r by lia; f_equal; lia).
  set (top := Z.shiftr v (w - 8)).
  assert (0 ≤ top < 256) as Ht.
  { unfold top. rewrite Z.shiftr_div_pow2 by lia. split; [apply Z.div_pos; lia|apply Z.div_lt_upper_bound; lia]. }
  assert (0 ≤ Z.lxor top b < 256) as Hx.
  { apply (lxor_pow 8); lia. }
  unfold Crc.update. rewrite E, (po_width P HP). fold top. rewrite land_255, Z.mod_small, at_table_entry, entry_steps, E by done.
  assert (Z.lxor v (Z.shiftl b (w - 8)) = Z.lxor (v mod 2 ^ (w - 8)) (Z.shiftl (Z.lxor top b) (w - 8))) as ->.
  { rewrite (split_at (w - 8) v) at 1 by lia. fold top. by rewrite Z.shiftl_lxor, Z.lxor_assoc. }
  rewrite steps_lxor. pose proof (Z.mod_pos_bound v _ Hp).
  rewrite (steps_left 8 (v mod 2 ^ (w - 8))); [|exact E|lia|change (2 ^ Z.of_nat 8) with 256; nia].
  rewrite <-land_mask by (apply lxor_range; [change (Z.of_nat 8) with 8; apply shiftl_range; lia|apply steps_range, shiftl_range; nia]).
  f_equal. rewrite word_lxor, (word_small (Nat.iter _ _ _)) by (apply steps_range, shiftl_range; nia). f_equal.
  unfold Crc.word. rewrite !Z.shiftl_mul_pow2, Ew by lia. change (2 ^ Z.of_nat 8) with 256. change (2 ^ 8) with 256.
  by rewrite Z.mul_mod_distr_r by lia.
Qed.

Lemma update_steps v b : 0 ≤ v < 2 ^ w → byte_ok b → Crc.update P v b = Nat.iter 8 (step P) (Z.lxor v (aligned b)).
Proof. intros. unfold aligned. destruct (Reflect P) eqn:E; [by apply update_reflected|by apply update_plain]. Qed.

(** ** Runs of bits *)

Fixpoint bits_num (l : list bool) : Z := match l with [] => 0 | b :: l => Z.b2z b + 2 * bits_num l end.

Lemma bits_num_range l : 0 ≤ bits_num l < 2 ^ Z.of_nat (length l).
Proof.
  induction l as [|b l IH]; [done|]. cbn [bits_num length]. rewrite Nat2Z.inj_succ, Z.pow_succ_r by lia.
  destruct b; simpl; lia.
Qed.
Lemma bits_num_app l l' : bits_num (l ++ l') = bits_num l + 2 ^ Z.of_nat (length l) * bits_num l'.
Proof.
  induction l as [|b l IH]; [by rewrite Z.mul_1_l|]. cbn [app bits_num length].
  rewrite IH, Nat2Z.inj_succ, Z.pow_succ_r by lia. ring.
Qed.
Lemma bits_num_inj l l' : length l = length l' → bits_num l = bits_num l' → l = l'.
Proof.
  revert l'. induction l as [|b l IH]; intros [|b' l'] Hl E; try done. cbn [bits_num] in E. injection Hl as Hl.
  assert (b = b' ∧ bits_num l = bits_num l') as [-> E'] by (destruct b, b'; simpl in E; split; (done || lia)).
  f_equal. by apply IH.
Qed.
Lemma bits_num_byte b : byte_ok b → bits_num (byte_bits b) = b.
Proof.
  intros Hb. assert (Forall (λ i, bits_num (byte_bits i) = i) (map Z.of_nat (seq 0 256))) as H
    by (apply (bool_decide_unpack _); vm_compute; exact I).
  rewrite Forall_forall in H. apply H. apply list_elem_of_fmap. exists (Z.to_nat b). unfold byte_ok in Hb.
  rewrite elem_of_seq. lia.
Qed.

Lemma low_bit b n : 0 ≤ n → Z.lxor (Z.b2z b) (Z.shiftl n 1) = Z.b2z b + 2 * n.
Proof.
  intros Hn. rewrite Z.shiftl_mul_pow2 by lia. change (2 ^ 1) with 2. rewrite (Z.mul_comm n). symmetry.
  apply Z.add_nocarry_lxor. apply Z.bits_inj'. intros k Hk. rewrite Z.land_spec, Z.bits_0.
  destruct (decide (k = 0)) as [->|]; [by rewrite Z.testbit_even_0, andb_false_r|].
  destruct b; simpl Z.b2z; [|by rewrite Z.bits_0]. change 1 with (2 ^ 0). by rewrite Z.pow2_bits_false by lia.
Qed.

(** A run of bits no longer than the register goes in at once. *)
Lemma feeds_reflected r l :
  Reflect P = true → Z.of_nat (length l) ≤ w →
  foldl (feed P) r l = Nat.iter (length l) (step P) (Z.lxor r (bits_num l)).
Proof.
  intros E. revert r. induction l as [|b l IH]; intros r Hl; [by rewrite Z.lxor_0_r|].
  cbn [length] in Hl. cbn [foldl bits_num length]. pose proof (bits_num_range l) as Hr.
  assert (2 ^ Z.of_nat (length l) ≤ 2 ^ w) by (apply Z.pow_le_mono_r; lia).
  rewrite IH by lia. rewrite Nat.iter_succ_r. f_equal. unfold feed. rewrite E.
  rewrite <-(step_right (bits_num l)) at 1 by (done || lia). rewrite <-step_lxor. f_equal.
  by rewrite <-low_bit, Z.lxor_assoc by lia.
Qed.

Lemma feeds_plain r l :
  Reflect P = false → Z.of_nat (length l) ≤ w →
  foldl (feed P) r l = Nat.iter (length l) (step P) (Z.lxor r (Z.shiftl (bits_num (rev l)) (w - Z.of_nat (length l)))).
Proof.
  intros E. revert r. induction l as [|b l IH]; intros r Hl; [by rewrite Z.shiftl_0_l, Z.lxor_0_r|].
  cbn [length] in Hl. cbn [foldl rev length]. pose proof (bits_num_range (rev l)) as Hr. rewrite length_rev in Hr.
  set (n := Z.of_nat (length l)) in *. rewrite IH by lia. rewrite Nat.iter_succ_r. f_equal. unfold feed.
  rewrite E, (po_width P HP). fold n. rewrite Nat2Z.inj_succ in *. fold n in Hl |- *.
  assert (2 ^ w = 2 ^ n * (2 * 2 ^ (w - Z.succ n))) as Ew.
  { rewrite <-Z.pow_succ_r, <-Z.pow_add_r by lia. f_equal. lia. }
  assert (0 < 2 ^ (w - Z.succ n)) by (apply Z.pow_pos_nonneg; lia).
  assert (Z.shiftl (bits_num (rev l)) (w - n) = step P (Z.shiftl (bits_num (rev l)) (w - Z.succ n))) as ->.
  { rewrite step_left; [|done|apply Z.shiftl_nonneg; lia|rewrite Z.shiftl_mul_pow2 by lia; nia].
    rewrite Z.shiftl_shiftl by lia. f_equal. lia. }
  rewrite <-step_lxor. f_equal. rewrite Z.lxor_assoc. f_equal. rewrite bits_num_app, length_rev. fold n. cbn [bits_num].
  rewrite Z.mul_0_r, Z.add_0_r, (Z.add_comm (bits_num _)), <-(Z.mul_comm (Z.b2z b)), <-Z.shiftl_mul_pow2 by lia.
  assert (Z.shiftl (Z.b2z b) n + bits_num (rev l) = Z.lxor (Z.shiftl (Z.b2z b) n) (bits_num (rev l))) as ->.
  { apply Z.add_nocarry_lxor, Z.bits_inj'. intros k Hk. rewrite Z.land_spec, Z.shiftl_spec, Z.bits_0 by lia.
    destruct (Z.lt_ge_cases k n); [by rewrite Z.testbit_neg_r by lia|].
    rewrite (split_at n (bits_num (rev l))) by lia. rewrite Z.mod_small, Z.shiftr_div_pow2, Z.div_small, Z.shiftl_0_l, Z.lxor_0_r by lia.
    rewrite <-(Z.mod_small (bits_num (rev l)) (2 ^ n)), Z.mod_pow2_bits_high by lia. apply andb_false_r. }
  rewrite Z.shiftl_lxor, Z.shiftl_shiftl by lia. do 2 f_equal. lia.
Qed.

Lemma update_feeds v b :
  0 ≤ v < 2 ^ w → byte_ok b → Crc.update P v b = foldl (feed P) v (wire_bits P b).
Proof.
  intros Hv Hb. rewrite update_steps by done. unfold aligned, wire_bits. destruct HP as [_ Hw _].
  destruct (Reflect P) eqn:E.
  - rewrite feeds_reflected by (done || simpl; lia). by rewrite bits_num_byte.
  - rewrite feeds_plain by (done || simpl; lia). rewrite rev_involutive, bits_num_byte by done. done.
Qed.

Lemma update_range v b : 0 ≤ v < 2 ^ w → byte_ok b → 0 ≤ Crc.update P v b < 2 ^ w.
Proof. intros. rewrite update_steps by done. by apply step_range. Qed.
Lemma updates_range v bs : 0 ≤ v < 2 ^ w → bytes_ok bs → 0 ≤ Crc.updates P v bs < 2 ^ w.
Proof.
  intros Hv Hbs. revert v Hv. induction Hbs as [|b bs Hb _ IH]; intros v Hv; [done|].
  apply IH. by apply update_range.
Qed.

Lemma updates_feeds v bs :
  0 ≤ v < 2 ^ w → bytes_ok bs → Crc.updates P v bs = foldl (feed P) v (flat_map (wire_bits P) bs).
Proof.
  intros Hv Hbs. revert v Hv. induction Hbs as [|b bs Hb _ IH]; intros v Hv; [done|].
  unfold Crc.updates in *. cbn [foldl flat_map]. rewrite foldl_app, <-update_feeds by done. apply IH. by apply update_range.
Qed.
End Linear.

(** C12: The table is right. For every variant of the code, the check value of
    any bytes that the table driven routine computes, byte by byte, is the one
    the shift register of the polynomial computes, bit by bit in the order of
    the wire: low bit first when the variant reflects, high bit first
    otherwise. *)
Theorem crc_is_shift_register P bs :
  P ∈ [CRC16; CRCCCITT; CRC32] → bytes_ok bs →
  Crc.compute P bs = Crc.value P (foldl (feed P) (Crc.initial P) (flat_map (wire_bits P) bs)).
Proof.
  intros HP Hbs. assert (params_ok P ∧ 0 ≤ Crc.initial P < 2 ^ word_bits P) as [Hok Hi].
  { destruct variants_ok as (? & ? & ?). rewrite !elem_of_cons, elem_of_nil in HP.
    destruct HP as [->|[->|[->|[]]]]; (split; [done|]); vm_compute; intuition discriminate. }
  unfold Crc.compute. by rewrite updates_feeds.
Qed.

Lemma crc_is_shift_register_witness :
  bytes_ok nine_digits ∧
  Crc.value CRC32 (foldl (feed CRC32) (Crc.initial CRC32) (flat_map (wire_bits CRC32) nine_digits)) = 0xcbf43926.
Proof.
  assert (bytes_ok nine_digits) as H by (apply (bool_decide_unpack _); vm_compute; exact I).
  split; [exact H|]. rewrite <-(crc_is_shift_register CRC32 nine_digits); [vm_compute; reflexivity| |exact H].
  right. right. left.
Defined.

(** ** Detection *)

Section Detection.
Context (P : params) (HP : params_ok P) (HR : Reflect P = true) (Htop : Z.testbit (Crc.poly P) (word_bits P - 1) = true).
Abbreviation w := (word_bits P).

Lemma step_zero z : 0 ≤ z < 2 ^ w → step P z = 0 → z = 0.
Proof.
  intros Hz. destruct HP as [_ Hw [Hp1 Hp2]]. rewrite (step_eq P HP). unfold tap, shifted. rewrite HR.
  assert (2 ^ w = 2 * 2 ^ (w - 1)) as Ew by (rewrite <-Z.pow_succ_r by lia; f_equal; lia).
  assert (0 ≤ Z.shiftr z 1 < 2 ^ (w - 1)) as Hs.
  { rewrite Z.shiftr_div_pow2 by lia. change (2 ^ 1) with 2. Z.to_euclidean_division_equations. lia. }
  destruct (Z.odd z) eqn:E.
  - intros H. exfalso. assert (Z.testbit (Crc.word P (Z.lxor (Z.shiftr z 1) (Crc.poly P))) (w - 1) = true) as Ht.
    { rewrite word_small, Z.lxor_spec, Htop by (try apply lxor_range; done || lia).
      rewrite <-(Z.mod_small (Z.shiftr z 1) (2 ^ (w - 1))), Z.mod_pow2_bits_high by lia. done. }
    by rewrite H, Z.bits_0 in Ht.
  - rewrite Z.lxor_0_r, word_small by lia. rewrite Z.shiftr_div_pow2 by lia. change (2 ^ 1) with 2. intros H.
    assert (Z.even z = true) as [k ->]%Z.even_spec by (by rewrite <-Z.negb_odd, E).
    rewrite Z.mul_comm, Z.div_mul in H by lia. lia.
Qed.

Lemma step_inj x y : 0 ≤ x < 2 ^ w → 0 ≤ y < 2 ^ w → step P x = step P y → x = y.
Proof.
  intros Hx Hy E. apply Z.lxor_eq. apply step_zero; [by apply lxor_range|].
  by rewrite (step_lxor P HP), E, Z.lxor_nilpotent.
Qed.
Lemma steps_inj n x y :
  0 ≤ x < 2 ^ w → 0 ≤ y < 2 ^ w → Nat.iter n (step P) x = Nat.iter n (step P) y → x = y.
Proof.
  intros Hx Hy. induction n as [|n IH]; simpl; [done|]. intros E. apply IH. apply step_inj in E; [done|..];
    by apply (steps_range P HP).
Qed.

Lemma bits_num_fits l : Z.of_nat (length l) ≤ w → 0 ≤ bits_num l < 2 ^ w.
Proof.
  intros Hl. pose proof (bits_num_range l). assert (2 ^ Z.of_nat (length l) ≤ 2 ^ w) by (apply Z.pow_le_mono_r; lia). lia.
Qed.

(** Different runs, no longer than the register, leave it different. *)
Lemma feeds_differ r x y :
  0 ≤ r < 2 ^ w → length x = length y → Z.of_nat (length x) ≤ w → x ≠ y →
  foldl (feed P) r x ≠ foldl (feed P) r y.
Proof.
  intros Hr Hl Hw Hne. rewrite !feeds_reflected by (done || lia). rewrite <-Hl. intros E.
  pose proof (bits_num_fits x Hw). pose proof (bits_num_fits y ltac:(lia)).
  apply steps_inj in E; [|by apply lxor_range..]. apply Hne, bits_num_inj; [done|].
  apply (f_equal (Z.lxor r)) in E. by rewrite <-!Z.lxor_assoc, Z.lxor_nilpotent, !Z.lxor_0_l in E.
Qed.

Lemma feed_range r b : 0 ≤ feed P r b < 2 ^ w.
Proof. apply (step_range P HP). Qed.
Lemma feeds_range r l : 0 ≤ r < 2 ^ w → 0 ≤ foldl (feed P) r l < 2 ^ w.
Proof. revert r. induction l as [|b l IH]; intros r Hr; [done|]. apply IH, feed_range. Qed.

(** What follows keeps them different. *)
Lemma feeds_keep r r' l :
  0 ≤ r < 2 ^ w → 0 ≤ r' < 2 ^ w → r ≠ r' → foldl (feed P) r l ≠ foldl (feed P) r' l.
Proof.
  revert r r'. induction l as [|b l IH]; intros r r' Hr Hr' Hne; [done|]. cbn [foldl].
  apply IH; [apply feed_range..|]. intros E. apply Hne. unfold feed in E. rewrite HR in E.
  assert (0 ≤ Z.b2z b < 2 ^ w) by (pose proof (byte_pow P HP); destruct b; simpl; lia).
  apply step_inj in E; [|by apply lxor_range..].
  apply (f_equal (Z.lxor (Z.b2z b))) in E. by rewrite !(Z.lxor_comm (Z.b2z b)), !Z.lxor_assoc, Z.lxor_nilpotent, !Z.lxor_0_r in E.
Qed.

(** Two bit strings that differ in one burst. *)
Definition burst (n : nat) (l l' : list bool) : Prop :=
  ∃ p x y s, l = p ++ x ++ s ∧ l' = p ++ y ++ s ∧ length x = length y ∧ (length x ≤ n)%nat ∧ x ≠ y.

Lemma feeds_burst r l l' :
  0 ≤ r < 2 ^ w → burst (Z.to_nat w) l l' → foldl (feed P) r l ≠ foldl (feed P) r l'.
Proof.
  intros Hr (p & x & y & s & -> & -> & Hl & Hw & Hne). rewrite !foldl_app.
  pose proof (feeds_range r p Hr). apply feeds_keep; [by apply feeds_range..|]. apply feeds_differ; [done|done| |done].
  destruct HP. lia.
Qed.

Lemma updates_burst r bs bs' :
  0 ≤ r < 2 ^ w → bytes_ok bs → bytes_ok bs' →
  burst (Z.to_nat w) (flat_map byte_bits bs) (flat_map byte_bits bs') → Crc.updates P r bs ≠ Crc.updates P r bs'.
Proof.
  intros Hr H1 H2 Hb. rewrite !(updates_feeds P HP) by done.
  assert (∀ bs, flat_map (wire_bits P) bs = flat_map byte_bits bs) as E.
  { intros l. apply flat_map_ext. intros b. unfold wire_bits. by rewrite HR. }
  rewrite !E. by apply feeds_burst.
Qed.
End Detection.

(** *** The check of DDCMP *)

(** The two bytes that carry the check value, as [put16] writes them. *)
Definition check_bytes (v : Z) : Bytes := [Z.land v 255; Z.shiftr v 8].

Lemma crc16_ok : params_ok CRC16.
Proof. apply variants_ok. Qed.
Lemma crc16_top : Z.testbit (Crc.poly CRC16) (word_bits CRC16 - 1) = true.
Proof. reflexivity. Qed.
Lemma crc16_value v : 0 ≤ v < 65536 → Crc.value CRC16 v = v.
Proof. intros Hv. unfold Crc.value. simpl Final. rewrite Z.lxor_0_r. by apply (land_mask CRC16 crc16_ok). Qed.
Lemma crc16_good v : 0 ≤ v < 65536 → Crc.good CRC16 v = (v =? 0).
Proof. intros Hv. unfold Crc.good. by rewrite crc16_value. Qed.
Lemma crc16_updates bs : bytes_ok bs → 0 ≤ Crc.updates CRC16 (Crc.initial CRC16) bs < 65536.
Proof. intros. apply (updates_range CRC16 crc16_ok); [|done]. vm_compute. intuition discriminate. Qed.
Lemma crc16_compute bs : bytes_ok bs → 0 ≤ Crc.compute CRC16 bs < 65536.
Proof. intros Hbs. unfold Crc.compute. rewrite crc16_value by (by apply crc16_updates). by apply crc16_updates. Qed.

Lemma check_bytes_ok v : 0 ≤ v < 65536 → bytes_ok (check_bytes v).
Proof.
  intros Hv. unfold check_bytes. rewrite land_255, Z.shiftr_div_pow2 by lia. change (2 ^ 8) with 256.
  repeat constructor; Z.to_euclidean_division_equations; lia.
Qed.

(** The check bytes bring the register to zero. *)
Lemma crc16_closes v : 0 ≤ v < 65536 → Crc.updates CRC16 v (check_bytes v) = 0.
Proof.
  intros Hv. pose proof (check_bytes_ok v Hv) as Hok. apply bytes_ok_cons in Hok as [H1 Hok]. apply bytes_ok_cons in Hok as [H2 _].
  unfold Crc.updates, check_bytes. cbn [foldl].
  assert (Crc.update CRC16 v (Z.land v 255) = Z.shiftr v 8) as ->.
  { rewrite (update_reflected CRC16 crc16_ok) by done.
    assert (Z.lxor v (Z.land v 255) = Z.shiftl (Z.shiftr v 8) 8) as ->.
    { rewrite (split_at 8 v) at 1 by lia. rewrite land_255. change (2 ^ 8) with 256.
      by rewrite Z.lxor_comm, <-Z.lxor_assoc, Z.lxor_nilpotent, Z.lxor_0_l. }
    apply (steps_right CRC16 crc16_ok 8); [done|unfold byte_ok in H2; lia|]. unfold byte_ok in H2.
    change (2 ^ Z.of_nat 8) with 256. change (2 ^ word_bits CRC16) with 65536. lia. }
  unfold byte_ok in H2. rewrite (update_reflected CRC16 crc16_ok) by (done || (change (2 ^ word_bits CRC16) with 65536; lia)).
  rewrite Z.lxor_nilpotent. reflexivity.
Qed.

Lemma crc16_appended bs : bytes_ok bs →
  Crc.good CRC16 (Crc.updates CRC16 (Crc.initial CRC16) (bs ++ check_bytes (Crc.compute CRC16 bs))) = true.
Proof.
  intros Hbs. pose proof (crc16_updates bs Hbs) as Hr. unfold Crc.compute, Crc.updates. rewrite foldl_app.
  fold (Crc.updates CRC16 (Crc.initial CRC16) bs). rewrite crc16_value by done.
  fold (Crc.updates CRC16 (Crc.updates CRC16 (Crc.initial CRC16) bs)
    (check_bytes (Crc.updates CRC16 (Crc.initial CRC16) bs))).
  by rewrite crc16_closes.
Qed.

(** C11: The check detects bursts. A block with its check bytes appended is good
    to [Crc16::good]; and no string of the same length that differs from a good
    one only within sixteen consecutive bits, wherever they are, the check
    bytes included, is good. *)
Theorem crc16_detects_bursts bs got :
  bytes_ok bs → bytes_ok got →
  let sent := bs ++ check_bytes (Crc.compute CRC16 bs) in
  Crc.good CRC16 (Crc.updates CRC16 (Crc.initial CRC16) sent) = true ∧
  (burst 16 (flat_map byte_bits sent) (flat_map byte_bits got) →
   Crc.good CRC16 (Crc.updates CRC16 (Crc.initial CRC16) got) = false).
Proof.
  intros Hbs Hgot sent. pose proof (crc16_appended bs Hbs) as Hg. fold sent in Hg. split; [exact Hg|]. intros Hb.
  assert (bytes_ok sent) as Hs by (apply bytes_ok_app; split; [done|by apply check_bytes_ok, crc16_compute]).
  rewrite crc16_good in Hg |- * by (by apply crc16_updates). apply Z.eqb_eq in Hg. apply Z.eqb_neq. rewrite <-Hg.
  apply not_eq_sym. apply (updates_burst CRC16 crc16_ok eq_refl crc16_top); [|done..].
  vm_compute. intuition discriminate.
Qed.

Lemma crc16_detects_bursts_witness :
  let sent := [1; 2; 3] ++ check_bytes (Crc.compute CRC16 [1; 2; 3]) in
  let got := [1; 3; 255] ++ check_bytes (Crc.compute CRC16 [1; 2; 3]) in
  burst 16 (flat_map byte_bits sent) (flat_map byte_bits got) ∧
  Crc.good CRC16 (Crc.updates CRC16 (Crc.initial CRC16) got) = false.
Proof.
  intros sent got. assert (burst 16 (flat_map byte_bits sent) (flat_map byte_bits got)) as Hb.
  { exists (byte_bits 1), (byte_bits 2 ++ byte_bits 3), (byte_bits 3 ++ byte_bits 255),
      (flat_map byte_bits (check_bytes (Crc.compute CRC16 [1; 2; 3]))).
    split; [reflexivity|]. split; [reflexivity|]. split; [reflexivity|]. split; [simpl; lia|]. vm_compute. discriminate. }
  split; [exact Hb|]. apply (crc16_detects_bursts [1; 2; 3] got); [| |exact Hb];
    apply (bool_decide_unpack _); vm_compute; exact I.
Defined.
