(* ===== verification/DdcmpPackets.v ===== *)
(** DDCMP messages: sequence numbers, the message classes, the header with its
    check, and finding a header in a stream. *)

From S2P Require Import Prelude Crc.
#[local] Open Scope Z_scope.

(** The start bytes, the control types, and the reasons of a NAK. *)
Definition SOH : Z := 129.
Definition ENQ : Z := 5.
Definition DLE : Z := 144.
Definition SYN : Z := 150.
Definition DEL : Z := 255.
Definition ACK : Z := 1.
Definition NAK : Z := 2.
Definition REP : Z := 3.
Definition STRT : Z := 6.
Definition STACK : Z := 7.
Definition R_HCRC : Z := 1.
Definition R_CRC : Z := 2.
Definition R_REP : Z := 3.
Definition R_BUF : Z := 8.
Definition R_OVER : Z := 9.
Definition R_SHRT : Z := 16.
Definition R_FMT : Z := 17.
Definition HDRLEN : Z := 8.
Definition MAXCOUNT : Z := 16383.

(** ** [Seq]: a number modulo 256. *)
Module Seq.
Definition make (v : Z) : Z := u8 v.
Definition next (s : Z) : Z := u8 (s + 1).
Definition add (s n : Z) : Z := make (s + n).
Definition distance (s other : Z) : Z := u8 (other - s).
(** Is [s] in (lo, hi], going forward from [lo]? *)
Definition in_window (s lo hi : Z) : bool :=
  let span := distance lo hi in
  let off := distance lo s in
  negb (off =? 0) && (off <=? span).
End Seq.

(** ** Messages *)

Inductive MsgKind := Data | Maintenance | Ack | Nak | Rep | Start | Stack.
#[export] Instance msgkind_eq_dec : EqDecision MsgKind.
Proof. solve_decision. Defined.

Module Message.
Record t := mk {
  kind : MsgKind;
  count : Z;
  mtype : Z;
  subtype : Z;
  qsync : bool;
  select : bool;
  resp : Z;
  num : Z;
  addr : Z;
  payload : Bytes;
  crcok : bool;
}.
(** The default member initializers. *)
Definition new : t := mk Data 0 0 0 false false 0 0 1 [] true.

Definition is_data (m : t) : bool := bool_decide (kind m = Data) || bool_decide (kind m = Maintenance).
Definition sets_resp (m : t) : bool :=
  bool_decide (kind m = Data) || bool_decide (kind m = Ack) || bool_decide (kind m = Nak).
Definition set_payload (p : Bytes) (ok : bool) (m : t) : t :=
  mk (kind m) (count m) (mtype m) (subtype m) (qsync m) (select m) (resp m) (num m) (addr m) p ok.
End Message.
Import Message (is_data, sets_resp).
#[export] Instance message_eq_dec : EqDecision Message.t.
Proof. solve_decision. Defined.

(** [put16] of a 16 bit value. *)
Definition put16 (v : Z) : Bytes := [Z.land v 255; u8 (Z.shiftr v 8)].
Definition start_byte (k : MsgKind) : Z := match k with Data => SOH | Maintenance => DLE | _ => ENQ end.
Definition ctl_type (k : MsgKind) : Z :=
  match k with Ack => ACK | Nak => NAK | Rep => REP | Start => STRT | Stack => STACK | _ => 0 end.

(** The first six bytes, and the whole header. *)
Definition header_fields (m : Message.t) : Bytes :=
  [start_byte (Message.kind m)] ++
  (if is_data m then
     let w := u16 (Z.land (Message.count m) MAXCOUNT) in
     let w := if Message.qsync m then Z.lor w 16384 else w in
     put16 (if Message.select m then Z.lor w 32768 else w)
   else
     let f := u8 (Z.land (Message.subtype m) 63) in
     let f := if Message.qsync m then Z.lor f 64 else f in
     [ctl_type (Message.kind m); if Message.select m then Z.lor f 128 else f]) ++
  [Message.resp m; Message.num m; Message.addr m].
Definition encode_header (m : Message.t) : Bytes :=
  let h := header_fields m in h ++ put16 (Crc.compute CRC16 h).
Definition encode (m : Message.t) : Bytes :=
  let out := encode_header m in
  if negb (is_data m) then out
  else out ++ Message.payload m ++ put16 (Crc.compute CRC16 (Message.payload m)).

(** ** The builders *)

Definition control (k : MsgKind) : Message.t :=
  let sync := bool_decide (k = Start) || bool_decide (k = Stack) in
  Message.mk k 0 (ctl_type k) 0 sync sync 0 0 1 [] true.
Definition with_resp (r : Z) (m : Message.t) : Message.t :=
  Message.mk (Message.kind m) (Message.count m) (Message.mtype m) (Message.subtype m) (Message.qsync m)
    (Message.select m) r (Message.num m) (Message.addr m) (Message.payload m) (Message.crcok m).
Definition make_ack (resp : Z) : Message.t := with_resp resp (control Ack).
Definition make_nak (resp reason : Z) : Message.t :=
  Message.mk Nak 0 NAK reason false false resp 0 1 [] true.
Definition make_rep (num : Z) : Message.t := Message.mk Rep 0 REP 0 false false 0 num 1 [] true.
Definition make_start : Message.t := control Start.
Definition make_stack : Message.t := control Stack.
Definition make_data (num resp : Z) (payload : Bytes) : Message.t :=
  Message.mk Data (u16 (len payload)) 0 0 false false resp num 1 payload true.
Definition make_maintenance (payload : Bytes) : Message.t :=
  Message.mk Maintenance (u16 (len payload)) 0 0 true true 0 0 1 payload true.

(** ** Decoding *)

Inductive HdrError := too_short | bad_start | bad_crc.
#[export] Instance hdrerror_eq_dec : EqDecision HdrError.
Proof. solve_decision. Defined.

Definition at_ (buf : Bytes) (i : nat) : Z := default 0 (buf !! i).

Definition kind_of_start (b : Z) : option MsgKind :=
  if b =? SOH then Some Data else if b =? DLE then Some Maintenance else if b =? ENQ then Some Ack else None.
Definition kind_of_type (t : Z) : option MsgKind :=
  if t =? ACK then Some Ack else if t =? NAK then Some Nak else if t =? REP then Some Rep
  else if t =? STRT then Some Start else if t =? STACK then Some Stack else None.

Definition decode_header (buf : Bytes) (check : bool) : HdrError + Message.t :=
  if len buf <? HDRLEN then inl too_short
  else match kind_of_start (at_ buf 0) with
  | None => inl bad_start
  | Some k =>
      if check && negb (Crc.good CRC16 (Crc.updates CRC16 (Crc.initial CRC16) (take 8 buf))) then inl bad_crc
      else
        let finish k count ty sub q s :=
          inr (Message.mk k count ty sub q s (Seq.make (at_ buf 3)) (Seq.make (at_ buf 4)) (at_ buf 5) [] true) in
        if bool_decide (k = Data) || bool_decide (k = Maintenance) then
          let w := u16 (Z.lor (at_ buf 1) (Z.shiftl (at_ buf 2) 8)) in
          finish k (u16 (Z.land w MAXCOUNT)) 0 0 (negb (Z.land w 16384 =? 0)) (negb (Z.land w 32768 =? 0))
        else
          let f := at_ buf 2 in
          match kind_of_type (at_ buf 1) with
          | None => inl bad_start
          | Some k =>
              finish k 0 (at_ buf 1) (u8 (Z.land f 63)) (negb (Z.land f 64 =? 0)) (negb (Z.land f 128 =? 0))
          end
  end.

(** [find_header]: the first offset from [i] of a good header; [n] offsets are left. *)
Definition starts (b : Z) : bool := (b =? SOH) || (b =? ENQ) || (b =? DLE).
Fixpoint find_from (buf : Bytes) (n i : nat) : option nat :=
  match n with
  | O => None
  | S n =>
      if negb (starts (at_ buf i)) then find_from buf n (S i)
      else match decode_header (take 8 (drop i buf)) true with
           | inr _ => Some i
           | inl _ => find_from buf n (S i)
           end
  end.
Definition find_header (buf : Bytes) : option nat :=
  if len buf <? HDRLEN then None else find_from buf (length buf - 7) 0.

(** ** The header comes back *)

Definition msg_ok (m : Message.t) : Prop :=
  byte_ok (Message.resp m) ∧ byte_ok (Message.num m) ∧ byte_ok (Message.addr m) ∧
  if is_data m then 0 ≤ Message.count m ≤ MAXCOUNT ∧ Message.mtype m = 0 ∧ Message.subtype m = 0
  else Message.count m = 0 ∧ Message.mtype m = ctl_type (Message.kind m) ∧ 0 ≤ Message.subtype m < 64.

Ltac bytes := repeat (apply Forall_cons_2; [assumption|]); apply Forall_nil_2.

Lemma put16_split w : 0 ≤ w < 65536 → put16 w = check_bytes w.
Proof.
  intros Hw. unfold put16, check_bytes. rewrite u8_small; [done|]. rewrite Z.shiftr_div_pow2 by lia.
  change (2 ^ 8) with 256. Z.to_euclidean_division_equations. lia.
Qed.
Lemma put16_ok w : 0 ≤ w < 65536 → bytes_ok (put16 w).
Proof. intros. rewrite put16_split by done. by apply check_bytes_ok. Qed.

Lemma join16 w : 0 ≤ w < 65536 → Z.lor (Z.land w 255) (Z.shiftl (u8 (Z.shiftr w 8)) 8) = w.
Proof.
  intros Hw. rewrite u8_small by (rewrite Z.shiftr_div_pow2 by lia; change (2 ^ 8) with 256; Z.to_euclidean_division_equations; lia).
  transitivity (Z.lxor (w mod 2 ^ 8) (Z.shiftl (Z.shiftr w 8) 8)); [|symmetry; apply split_at; lia].
  rewrite <-Z.land_ones by lia. rewrite Z.lxor_lor; [done|].
  apply Z.bits_inj'. intros k Hk. rewrite !Z.land_spec, Z.shiftl_spec, Z.bits_0 by lia.
  destruct (Z.lt_ge_cases k 8); [rewrite (Z.testbit_neg_r _ (k - 8)) by lia; apply andb_false_r|].
  by rewrite Z.ones_spec_high, andb_false_r by lia.
Qed.

(** A field of [n] bits with two flags above it. *)
Definition flagged (n c : Z) (q s : bool) : Z :=
  let w := if q then Z.lor c (2 ^ n) else c in if s then Z.lor w (2 ^ (n + 1)) else w.

Lemma flagged_bits n c q s k : 0 ≤ n → 0 ≤ c < 2 ^ n → 0 ≤ k →
  Z.testbit (flagged n c q s) k = if k =? n then q else if k =? n + 1 then s else Z.testbit c k.
Proof.
  intros Hn Hc Hk.
  assert (∀ j, n ≤ j → Z.testbit c j = false) as Hz.
  { intros j Hj. rewrite <-(Z.mod_small c (2 ^ n)) by done. by apply Z.mod_pow2_bits_high. }
  unfold flagged. destruct (Z.eqb_spec k n) as [->|H1]; [|destruct (Z.eqb_spec k (n + 1)) as [->|H2]];
    destruct q, s; rewrite ?Z.lor_spec, ?Z.pow2_bits_true by lia;
    try rewrite (Hz n) by lia; try rewrite (Hz (n + 1)) by lia;
    try rewrite (Z.pow2_bits_false n) by lia; try rewrite (Z.pow2_bits_false (n + 1)) by lia;
    rewrite ?orb_false_r; done.
Qed.

Lemma flagged_range n c q s : 0 ≤ n → 0 ≤ c < 2 ^ n → 0 ≤ flagged n c q s < 2 ^ (n + 2).
Proof.
  intros Hn Hc. assert (flagged n c q s = flagged n c q s mod 2 ^ (n + 2)) as ->; [|apply Z.mod_pos_bound, Z.pow_pos_nonneg; lia].
  apply Z.bits_inj'. intros k Hk. destruct (Z.lt_ge_cases k (n + 2)); [by rewrite Z.mod_pow2_bits_low by lia|].
  rewrite Z.mod_pow2_bits_high, flagged_bits by lia.
  destruct (Z.eqb_spec k n); [lia|]. destruct (Z.eqb_spec k (n + 1)); [lia|].
  rewrite <-(Z.mod_small c (2 ^ n)) by done. apply Z.mod_pow2_bits_high. lia.
Qed.

Lemma flagged_low n c q s : 0 ≤ n → 0 ≤ c < 2 ^ n → Z.land (flagged n c q s) (Z.ones n) = c.
Proof.
  intros Hn Hc. apply Z.bits_inj'. intros k Hk. rewrite Z.land_spec, flagged_bits by done.
  destruct (Z.lt_ge_cases k n).
  - rewrite Z.ones_spec_low, andb_true_r by lia. destruct (Z.eqb_spec k n); [lia|]. destruct (Z.eqb_spec k (n + 1)); [lia|done].
  - rewrite Z.ones_spec_high, andb_false_r by lia. rewrite <-(Z.mod_small c (2 ^ n)) by done. by rewrite Z.mod_pow2_bits_high by lia.
Qed.

Lemma flagged_flags n c q s : 0 ≤ n → 0 ≤ c < 2 ^ n →
  negb (Z.land (flagged n c q s) (2 ^ n) =? 0) = q ∧ negb (Z.land (flagged n c q s) (2 ^ (n + 1)) =? 0) = s.
Proof.
  intros Hn Hc. rewrite !land_bit, !flagged_bits by lia. rewrite Z.eqb_refl.
  destruct (Z.eqb_spec (n + 1) n); [lia|]. by rewrite Z.eqb_refl.
Qed.

Definition body16 (m : Message.t) : Bytes :=
  if is_data m then put16 (flagged 14 (Message.count m) (Message.qsync m) (Message.select m))
  else [ctl_type (Message.kind m); flagged 6 (Message.subtype m) (Message.qsync m) (Message.select m)].

Lemma header_fields_eq m : msg_ok m →
  header_fields m = [start_byte (Message.kind m)] ++ body16 m ++ [Message.resp m; Message.num m; Message.addr m].
Proof.
  intros (_ & _ & _ & Hm). unfold header_fields, body16, MAXCOUNT in *. destruct (is_data m).
  - change 16383 with (Z.ones 14). change 16384 with (2 ^ 14). change 32768 with (2 ^ 15).
    rewrite Z.land_ones, Z.mod_small by (change (2 ^ 14) with 16384; lia). rewrite u16_small by lia.
    destruct (Message.qsync m), (Message.select m); reflexivity.
  - change 63 with (Z.ones 6). change 64 with (2 ^ 6). change 128 with (2 ^ 7).
    rewrite Z.land_ones, Z.mod_small by (simpl in *; lia). rewrite u8_small by lia.
    destruct (Message.qsync m), (Message.select m); reflexivity.
Qed.

Lemma header_fields_ok m : msg_ok m → bytes_ok (header_fields m) ∧ len (header_fields m) = 6.
Proof.
  intros Hm. rewrite header_fields_eq by done. destruct Hm as (H1 & H2 & H3 & Hm). unfold body16, MAXCOUNT in *.
  assert (byte_ok (start_byte (Message.kind m))) as Hs by (unfold byte_ok; destruct (Message.kind m); vm_compute; intuition discriminate).
  destruct (is_data m).
  - pose proof (flagged_range 14 (Message.count m) (Message.qsync m) (Message.select m) ltac:(lia) ltac:(simpl; lia)) as Hr.
    pose proof (put16_ok _ Hr) as Hp. split; [|done].
    rewrite !bytes_ok_app. split_and!; [bytes|exact Hp|bytes].
  - pose proof (flagged_range 6 (Message.subtype m) (Message.qsync m) (Message.select m) ltac:(lia) ltac:(simpl; lia)) as Hr.
    split; [|done]. assert (byte_ok (ctl_type (Message.kind m))) by (unfold byte_ok; destruct (Message.kind m); vm_compute; intuition discriminate).
    rewrite !bytes_ok_app. split_and!; bytes.
Qed.

Lemma header_good m : msg_ok m →
  bytes_ok (encode_header m) ∧ length (encode_header m) = 8%nat ∧
  Crc.good CRC16 (Crc.updates CRC16 (Crc.initial CRC16) (encode_header m)) = true.
Proof.
  intros Hm. destruct (header_fields_ok m Hm) as [Hok Hl]. unfold encode_header. cbv zeta.
  pose proof (crc16_compute _ Hok). rewrite put16_split by done. split_and!.
  - apply bytes_ok_app. split; [done|by apply check_bytes_ok].
  - rewrite length_app. unfold len in Hl. change (length (check_bytes _)) with 2%nat. lia.
  - by apply crc16_appended.
Qed.

Lemma header_split m : msg_ok m → ∃ b1 b2 c1 c2,
  body16 m = [b1; b2] ∧
  encode_header m = [start_byte (Message.kind m); b1; b2; Message.resp m; Message.num m; Message.addr m; c1; c2].
Proof.
  intros Hm. unfold encode_header. cbv zeta. set (c := Crc.compute _ _).
  rewrite header_fields_eq by done. unfold body16. destruct (is_data m); by eexists _, _, _, _.
Qed.

(** What decoding makes of the header of [m]. *)
Definition header_of (m : Message.t) : Message.t := Message.set_payload [] true m.

Lemma decode_encode_header m rest check : msg_ok m → decode_header (encode_header m ++ rest) check = inr (header_of m).
Proof.
  intros Hm. destruct (header_good m Hm) as (_ & Hl8 & Hg). unfold decode_header.
  destruct (Z.ltb_spec (len (encode_header m ++ rest)) HDRLEN) as [Hlt|_].
  { exfalso. unfold len, HDRLEN in Hlt. rewrite length_app in Hlt. lia. }
  assert (take 8 (encode_header m ++ rest) = encode_header m) as -> by (rewrite <-Hl8; apply take_app_length).
  rewrite Hg, andb_false_r. clear Hg Hl8. destruct (header_split m Hm) as (b1 & b2 & c1 & c2 & Eb & ->).
  destruct Hm as (H1 & H2 & H3 & Hm). unfold at_. simpl lookup. cbv [default from_option id].
  unfold Seq.make. rewrite !u8_small by done. unfold body16 in Eb.
  destruct m as [k count ty sub q s re nu ad pl ok]. unfold header_of, Message.set_payload. cbn [Message.kind Message.count Message.mtype Message.subtype Message.qsync Message.select Message.resp Message.num Message.addr Message.payload] in *.
  destruct (is_data _) eqn:Ed.
  - destruct Hm as (Hc & -> & ->). unfold MAXCOUNT in *. injection Eb as <- <-.
    pose proof (flagged_range 14 count q s ltac:(lia) ltac:(simpl; lia)) as Hr.
    assert (u16 (Z.lor (Z.land (flagged 14 count q s) 255) (Z.shiftl (u8 (Z.shiftr (flagged 14 count q s) 8)) 8)) = flagged 14 count q s) as ->.
    { rewrite join16 by done. by apply u16_small. }
    change 16383 with (Z.ones 14). rewrite flagged_low by (simpl; lia).
    change 16384 with (2 ^ 14). change 32768 with (2 ^ (14 + 1)).
    destruct (flagged_flags 14 count q s ltac:(lia) ltac:(simpl; lia)) as [-> ->].
    rewrite u16_small by lia. by destruct k.
  - destruct Hm as (-> & -> & Hs). injection Eb as <- <-.
    change 63 with (Z.ones 6). rewrite flagged_low by (simpl; lia).
    change 64 with (2 ^ 6). change 128 with (2 ^ (6 + 1)).
    destruct (flagged_flags 6 sub q s ltac:(lia) ltac:(simpl; lia)) as [-> ->].
    rewrite u8_small by lia. by destruct k.
Qed.
