(* ===== verification/DdcmpFraming.v ===== *)
(** DDCMP on its transports: what a datagram or a framed message is taken for,
    finding messages in a byte stream, and the telnet escapes. *)

From S2P Require Import Prelude Crc DdcmpPackets.
Import Message (is_data).
#[local] Open Scope Z_scope.

(** ** [Ddcmp::running]: one message as the receive thread hands it up *)

Inductive arrival :=
| Dropped
| Damaged (m : Message.t)     (** [receive_error (R_CRC, &m)] *)
| Arrived (m : Message.t).    (** [receive (m)] *)

Definition received (buf : Bytes) : arrival :=
  match decode_header buf true with
  | inl _ => Dropped
  | inr m =>
      if is_data m then
        let need := HDRLEN + Message.count m + 2 in
        if len buf <? need then Damaged (Message.set_payload [] false m)
        else
          let n := Z.to_nat (Message.count m) in
          let payload := take n (drop 8 buf) in
          let ok := Crc.good CRC16 (Crc.updates CRC16 (Crc.initial CRC16) (take (n + 2) (drop 8 buf))) in
          let m := Message.set_payload payload ok m in
          if ok then Arrived m else Damaged m
      else Arrived m
  end.

(** ** [read_framed_message]

    [readn n] takes exactly [n] bytes off the stream, or throws because the
    connection is gone. *)
Section Framed.
Context {S : Type} (readn : nat → S → option (Bytes * S)).

(** The search for a header; every turn reads a byte. *)
Fixpoint hunt (fuel : nat) (hdr : Bytes) (s : S) : option (Message.t * Bytes * S) :=
  match decode_header hdr true with
  | inr m => Some (m, hdr, s)
  | inl _ =>
      match fuel with
      | O => None
      | Datatypes.S fuel => '(one, s) ← readn 1 s; hunt fuel (drop 1 hdr ++ one) s
      end
  end.

Definition read_framed_message (fuel : nat) (s : S) : option (Bytes * S) :=
  '(hdr, s) ← readn 8 s;
  '(m, hdr, s) ← hunt fuel hdr s;
  if is_data m then
    '(rest, s) ← readn (Z.to_nat (Message.count m) + 2) s; Some (hdr ++ rest, s)
  else Some (hdr, s).

(** The receive loop, for [n] messages. *)
Fixpoint read_messages (fuel n : nat) (s : S) : option (list Bytes * S) :=
  match n with
  | O => Some ([], s)
  | Datatypes.S n =>
      '(b, s) ← read_framed_message fuel s; '(bs, s) ← read_messages fuel n s; Some (b :: bs, s)
  end.
End Framed.

(** [recvall], [read_line]: the stream as the bytes still to come. *)
Definition recvall (n : nat) (s : Bytes) : option (Bytes * Bytes) :=
  if (length s <? n)%nat then None else Some (take n s, drop n s).

(** ** Telnet *)

Definition escape (b : Bytes) : Bytes := flat_map (λ c, if c =? DEL then [c; c] else [c]) b.

(** One pass over what was read: a doubled all-ones byte counts once. *)
Fixpoint collapse (b : Bytes) : Bytes :=
  match b with
  | c :: (d :: rest') as rest => if (c =? DEL) && (d =? DEL) then c :: collapse rest' else c :: collapse rest
  | l => l
  end.
Definition dels (b : Bytes) : nat := length (filter (λ c, c = DEL) b).

(** [unescape_read]. *)
Fixpoint unescape_loop (fuel n : nat) (out : Bytes) (s : Bytes) : option (Bytes * Bytes) :=
  if (length out <? n)%nat then
    match fuel with
    | O => None
    | Datatypes.S fuel =>
        '(b, s) ← recvall (n - length out) s;
        '(b, s) ← (if Nat.odd (dels b) then '(more, s) ← recvall 1 s; Some (b ++ more, s) else Some (b, s));
        unescape_loop fuel n (out ++ collapse b) s
    end
  else Some (take n out, s).
Definition unescape_read (telnet : bool) (n : nat) (s : Bytes) : option (Bytes * Bytes) :=
  if negb telnet then recvall n s else unescape_loop (Datatypes.S n) n [] s.

(** What [transmit] puts on the line: the serial transport adds a byte after
    the trailer. *)
Definition on_tcp (telnet : bool) (m : Message.t) : Bytes := if telnet then escape (encode m) else encode m.
Definition on_serial (m : Message.t) : Bytes := encode m ++ [DEL].

(** ** Proofs: the escapes *)

Lemma escape_app a b : escape (a ++ b) = escape a ++ escape b.
Proof. apply flat_map_app. Qed.
Lemma escape_length b : (length b ≤ length (escape b))%nat.
Proof. induction b as [|c b IH]; [done|]. unfold escape in *. simpl. rewrite length_app. destruct (c =? DEL); simpl; lia. Qed.

Lemma collapse_escape b : collapse (escape b) = b.
Proof.
  induction b as [|c b IH]; [done|]. unfold escape in *. cbn [flat_map]. destruct (Z.eqb_spec c DEL) as [->|Hc].
  - cbn [app collapse]. rewrite Z.eqb_refl. cbn [andb]. by rewrite IH.
  - cbn [app]. destruct (flat_map _ b) as [|d r] eqn:E; [by rewrite <-IH|].
    apply Z.eqb_neq in Hc.
    change (collapse (c :: d :: r)) with (if (c =? DEL) && (d =? DEL) then c :: collapse r else c :: collapse (d :: r)).
    rewrite Hc. cbn [andb]. by rewrite IH.
Qed.

Lemma dels_app a b : dels (a ++ b) = (dels a + dels b)%nat.
Proof. unfold dels. by rewrite filter_app, length_app. Qed.
Lemma dels_escape b : Nat.odd (dels (escape b)) = false.
Proof.
  induction b as [|c b IH]; [done|]. change (escape (c :: b)) with ((if c =? DEL then [c; c] else [c]) ++ escape b).
  rewrite dels_app, Nat.odd_add, IH. destruct (Z.eqb_spec c DEL) as [->|Hc]; [done|].
  unfold dels. by rewrite filter_cons_False.
Qed.

(** A prefix of an escaped stream ends between bytes, or inside a doubled one. *)
Lemma escape_prefix d k : (1 ≤ k ≤ length (escape d))%nat → ∃ j, (1 ≤ j ≤ k)%nat ∧ (j ≤ length d)%nat ∧
  (take k (escape d) = escape (take j d) ∧ drop k (escape d) = escape (drop j d) ∨
   take k (escape d) ++ [DEL] = escape (take j d) ∧ drop k (escape d) = DEL :: escape (drop j d)).
Proof.
  revert k. induction d as [|c d IH]; intros k Hk; [simpl in Hk; lia|].
  assert (∀ c0 r, escape (c0 :: r) = (if c0 =? DEL then [c0; c0] else [c0]) ++ escape r) as Ec by done.
  rewrite Ec in Hk |- *. rewrite length_app in Hk.
  destruct (Z.eqb_spec c DEL) as [->|Hc].
  - destruct k as [|[|[|k]]]; [lia| | |].
    + exists 1%nat. split; [lia|]. split; [simpl; lia|]. right. done.
    + exists 1%nat. split; [lia|]. split; [simpl; lia|]. left. done.
    + simpl in Hk. destruct (IH (S k)) as (j & ? & ? & Hj); [lia|]. exists (S j). split; [lia|]. split; [simpl; lia|].
      cbn [take drop]. rewrite Ec, Z.eqb_refl. cbn [app take drop].
      destruct Hj as [[E1 E2]|[E1 E2]]; [left|right]; rewrite <-E1, E2; done.
  - apply Z.eqb_neq in Hc. destruct k as [|[|k]]; [lia| |].
    + exists 1%nat. split; [lia|]. split; [simpl; lia|]. left. cbn [take drop app]. rewrite Ec, Hc. done.
    + simpl in Hk. destruct (IH (S k)) as (j & ? & ? & Hj); [lia|]. exists (S j). split; [lia|]. split; [simpl; lia|].
      cbn [take drop]. rewrite Ec, Hc. cbn [app take drop].
      destruct Hj as [[E1 E2]|[E1 E2]]; [left|right]; rewrite <-E1, E2; done.
Qed.

(** One turn of the loop: it recovers some bytes, and stays between bytes. *)
Lemma unescape_turn k d : (1 ≤ k ≤ length (escape d))%nat → ∃ j b, (1 ≤ j ≤ k)%nat ∧ (j ≤ length d)%nat ∧
  recvall k (escape d) = Some (b, drop k (escape d)) ∧
  (if Nat.odd (dels b) then '(more, s) ← recvall 1 (drop k (escape d)); Some (b ++ more, s)
   else Some (b, drop k (escape d))) = Some (escape (take j d), escape (drop j d)).
Proof.
  intros Hk. destruct (escape_prefix d k Hk) as (j & Hj & Hd & H). exists j, (take k (escape d)).
  split; [done|]. split; [done|]. split; [unfold recvall; by destruct (Nat.ltb_spec (length (escape d)) k); [lia|]|].
  destruct H as [[E1 E2]|[E1 E2]].
  - by rewrite E1, dels_escape, E2.
  - pose proof (dels_escape (take j d)) as Ho. rewrite <-E1, dels_app, Nat.odd_add in Ho.
    change (Nat.odd (dels [DEL])) with true in Ho. rewrite xorb_true_r in Ho. apply negb_false_iff in Ho.
    rewrite Ho, E2, <-E1. reflexivity.
Qed.

Lemma unescape_loop_spec fuel n out d :
  (n - length out < fuel)%nat → (length out ≤ n)%nat → (n - length out ≤ length d)%nat →
  unescape_loop fuel n out (escape d) =
    Some (out ++ take (n - length out) d, escape (drop (n - length out) d)).
Proof.
  revert out d. induction fuel as [|fuel IH]; intros out d Hf Hl Hd; [lia|]. cbn [unescape_loop].
  destruct (Nat.ltb_spec (length out) n) as [Hlt|Hge].
  - pose proof (escape_length d). destruct (unescape_turn (n - length out) d) as (j & b & H1 & H2 & H3 & H4); [lia|].
    rewrite H3. cbn [mbind option_bind]. rewrite H4. cbn [mbind option_bind]. rewrite collapse_escape.
    rewrite IH by (rewrite ?length_app, ?length_take, ?length_drop; lia).
    assert (n - length (out ++ take j d) = n - length out - j)%nat as -> by (rewrite length_app, length_take; lia).
    rewrite drop_drop, <-app_assoc, take_take_drop. do 4 f_equal; [|do 2 f_equal]; lia.
  - replace (n - length out)%nat with 0%nat by lia. rewrite take_ge by lia. by rewrite take_0, app_nil_r, drop_0.
Qed.

Lemma unescape_read_spec n d : (n ≤ length d)%nat →
  unescape_read true n (escape d) = Some (take n d, escape (drop n d)).
Proof. intros Hn. unfold unescape_read. rewrite unescape_loop_spec; simpl; rewrite ?Nat.sub_0_r; done || lia. Qed.

Lemma recvall_spec n d : (n ≤ length d)%nat → recvall n d = Some (take n d, drop n d).
Proof. intros Hn. unfold recvall. by destruct (Nat.ltb_spec (length d) n); [lia|]. Qed.

(** ** Proofs: framing

    Any way of reading that, as long as enough is there, takes bytes off a
    stream [d] in the state [st d]. *)
Section FramedProofs.
Context {S : Type} (readn : nat → S → option (Bytes * S)) (st : Bytes → S).
Context (Hread : ∀ n d, (n ≤ length d)%nat → readn n (st d) = Some (take n d, st (drop n d))).

(** A message the far end can send. *)
Definition sendable (m : Message.t) : Prop :=
  msg_ok m ∧ if is_data m then bytes_ok (Message.payload m) ∧ Message.count m = len (Message.payload m) ∧ Message.crcok m = true
             else Message.payload m = [] ∧ Message.crcok m = true.
(** Bytes between messages: none that can start one. *)
Definition filler (b : Bytes) : Prop := Forall (λ c, starts c = false) b.

Lemma not_start c rest : starts c = false → (7 ≤ length rest)%nat → decode_header (c :: rest) true = inl bad_start.
Proof.
  intros Hc Hl. unfold decode_header. destruct (Z.ltb_spec (len (c :: rest)) HDRLEN) as [H|_].
  { unfold len, HDRLEN in H. simpl in H. lia. }
  unfold starts in Hc. apply orb_false_iff in Hc as [Hc H3]. apply orb_false_iff in Hc as [H1 H2].
  change (at_ (c :: rest) 0) with c. unfold kind_of_start. by rewrite H1, H3, H2.
Qed.

Lemma hunt_message fuel pad m rest : msg_ok m → filler pad → (length pad ≤ fuel)%nat →
  let d := pad ++ encode_header m ++ rest in
  hunt readn fuel (take 8 d) (st (drop 8 d)) = Some (header_of m, encode_header m, st rest).
Proof.
  intros Hm Hpad. destruct (header_good m Hm) as (_ & Hl8 & _).
  revert fuel. induction Hpad as [|c pad Hc _ IH]; intros fuel Hf d.
  - unfold d. cbn [app]. rewrite <-Hl8, take_app_length, drop_app_length.
    destruct fuel; cbn [hunt]; rewrite <-(app_nil_r (encode_header m)), decode_encode_header by done; done.
  - simpl in Hf. destruct fuel as [|fuel]; [lia|]. unfold d. cbn [app take]. cbn [hunt].
    set (d' := pad ++ encode_header m ++ rest) in *.
    assert (8 ≤ length d')%nat as Hd by (unfold d'; rewrite !length_app; lia).
    rewrite not_start by (done || rewrite length_take; lia).
    change (drop 8 (c :: d')) with (drop 7 d'). rewrite Hread by (rewrite length_drop; lia).
    cbn [mbind option_bind]. rewrite drop_drop. change (drop 1 (c :: take 7 d')) with (drop 0 (take 7 d')). rewrite drop_0.
    rewrite take_take_drop. apply IH. lia.
Qed.

Lemma encode_split m : encode m = encode_header m ++ (if is_data m then Message.payload m ++ put16 (Crc.compute CRC16 (Message.payload m)) else []).
Proof. unfold encode. destruct (is_data m); [done|]. by rewrite app_nil_r. Qed.

Lemma read_framed_one fuel pad m rest : sendable m → filler pad → (length pad ≤ fuel)%nat →
  read_framed_message readn fuel (st (pad ++ encode m ++ rest)) = Some (encode m, st rest).
Proof.
  intros [Hm Hp] Hpad Hf. rewrite encode_split, <-app_assoc. set (tail := if is_data m then _ else _).
  destruct (header_good m Hm) as (_ & Hl8 & _).
  unfold read_framed_message. rewrite Hread by (rewrite !length_app; lia). cbn [mbind option_bind].
  rewrite hunt_message by done. cbn [mbind option_bind].
  assert (is_data (header_of m) = is_data m ∧ Message.count (header_of m) = Message.count m) as [-> ->] by (by destruct m).
  unfold tail. destruct (is_data m) eqn:E; [|cbn [app]; by rewrite app_nil_r].
  destruct Hp as (_ & -> & _). unfold len. rewrite Nat2Z.id.
  set (p := Message.payload m). set (t := put16 _).
  assert (length p + 2 = length (p ++ t))%nat as El by (rewrite length_app; done). rewrite El.
  rewrite Hread by (rewrite !length_app; lia). cbn [mbind option_bind]. by rewrite take_app_length, drop_app_length.
Qed.

Lemma read_messages_all fuel ms pads rest :
  Forall sendable ms → Forall (λ pad, filler pad ∧ (length pad ≤ fuel)%nat) pads → length pads = length ms →
  read_messages readn fuel (length ms) (st (concat (zip_with (λ pad m, pad ++ encode m) pads ms) ++ rest)) =
    Some (map encode ms, st rest).
Proof.
  intros Hms. revert pads. induction Hms as [|m ms Hm _ IH]; intros [|pad pads] Hpads Hl; try done.
  apply Forall_cons in Hpads as [[Hpad Hf] Hpads]. cbn [zip_with concat length read_messages map].
  rewrite <-!app_assoc, read_framed_one by done. cbn [mbind option_bind].
  rewrite IH by (done || by injection Hl). done.
Qed.
End FramedProofs.

(** A sent message is taken for what it is. *)
Lemma received_encode m : sendable m → received (encode m) = Arrived (if is_data m then m else header_of m).
Proof.
  intros [Hm Hp]. destruct (header_good m Hm) as (_ & Hl8 & _). unfold received.
  rewrite encode_split, decode_encode_header by done.
  assert (is_data (header_of m) = is_data m ∧ Message.count (header_of m) = Message.count m) as [-> ->] by (by destruct m).
  destruct (is_data m) eqn:E; [|done]. destruct Hp as (Hok & Hc & Hk). rewrite Hc.
  assert (Z.to_nat (len (Message.payload m)) = length (Message.payload m)) as -> by (unfold len; lia).
  set (p := Message.payload m). pose proof (crc16_compute p Hok) as Hcr. rewrite put16_split by done.
  set (t := check_bytes _). assert (length t = 2%nat) as Ht by done.
  assert (length p + 2 = length (p ++ t))%nat as El by (rewrite length_app; lia).
  destruct (Z.ltb_spec (len (encode_header m ++ p ++ t)) (HDRLEN + len p + 2)) as [Hlt|_].
  { exfalso. unfold len, HDRLEN in Hlt. rewrite !length_app in Hlt. lia. }
    rewrite <-Hl8, drop_app_length, El, firstn_all, take_app_length. unfold t. rewrite crc16_appended by done.
  f_equal. destruct m as [k c ty sub q s r n a pl ok]. unfold header_of, Message.set_payload, p. simpl in *. by rewrite Hk.
Qed.

(** Reading from the line, with or without the telnet escapes. *)
Definition line (telnet : bool) (d : Bytes) : Bytes := if telnet then escape d else d.
Lemma line_read telnet n d : (n ≤ length d)%nat →
  unescape_read telnet n (line telnet d) = Some (take n d, line telnet (drop n d)).
Proof. destruct telnet; [apply unescape_read_spec|apply recvall_spec]. Qed.

(** C10: Messages survive the line. Any sequence of messages that the builders
    make, each preceded by any bytes that cannot start one, and sent as the
    transports send them, over TCP, over telnet with its doubled bytes, or over
    a serial line with its trailing byte: the receive loop, fed whatever comes,
    cuts out exactly the encodings in order, the stream is left at their end,
    and each is taken for the message that was sent. *)
Theorem ddcmp_framing (telnet : bool) ms pads rest :
  Forall sendable ms → Forall filler pads → length pads = length ms →
  let d := concat (zip_with (λ pad m, pad ++ encode m) pads ms) in
  (∃ fuel, read_messages (unescape_read telnet) fuel (length ms) (line telnet (d ++ rest)) =
     Some (map encode ms, line telnet rest)) ∧
  Forall (λ m, received (encode m) = Arrived (if is_data m then m else header_of m)) ms.
Proof.
  intros Hms Hpads Hl d. split.
  - exists (list_max (map length pads)).
    apply (read_messages_all (unescape_read telnet) (line telnet) (line_read telnet)); [done| |done].
    rewrite Forall_forall in *. intros pad Hpad. split; [by apply Hpads|].
    pose proof (list_max_le (map length pads) (list_max (map length pads))) as [H _].
    specialize (H ltac:(done)). rewrite List.Forall_forall in H. apply H, in_map. by apply list_elem_of_In.
  - eapply Forall_impl; [exact Hms|]. apply received_encode.
Qed.

Lemma ddcmp_framing_witness :
  let ms := [make_start; make_data 1 0 [255; 129; 255]; make_nak 3 R_CRC] in
  Forall sendable ms ∧
  ∃ fuel, read_messages (unescape_read true) fuel 3
    (line true (concat (zip_with (λ pad m, pad ++ encode m) [[]; [DEL]; [SYN; DEL]] ms) ++ [7])) =
    Some (map encode ms, [7]).
Proof.
  intros ms. assert (Forall sendable ms) as H.
  { unfold ms, sendable, msg_ok, byte_ok. repeat (apply Forall_cons_2; [vm_compute; intuition (discriminate || auto)|]).
    - repeat (apply Forall_cons_2; [vm_compute; intuition discriminate|]). apply Forall_nil_2.
    - apply Forall_nil_2. }
  split; [exact H|]. apply (ddcmp_framing true ms [[]; [DEL]; [SYN; DEL]] [7] H); [|reflexivity].
  repeat (apply Forall_cons_2; [repeat (apply Forall_cons_2; [reflexivity|]); apply Forall_nil_2|]). apply Forall_nil_2.
Defined.
