(* ===== verification/Ddcmp.v ===== *)
(** The DDCMP protocol engine: startup, sequencing, acknowledgement,
    retransmission and maintenance mode. What it asks of its transport, and
    what it hands up, is appended to its list of outputs. *)

From stdpp Require Import gmap.
From S2P Require Import Prelude Float Crc DdcmpPackets.
Import Message (is_data, sets_resp).
#[local] Open Scope Z_scope.

(** ** [Backoff] *)
Module Backoff.
Record t := mk { low : double; high : double; current : double; tries : Z }.
(** The constructor. *)
Definition make (low high : double) : result t :=
  if negb (fltb f0 low && fltb low high) then Throw InternalError else Ok (mk low high low 0).
Definition next (b : t) : double * t :=
  let twice := fmul (current b) f2 in
  (current b, mk (low b) (high b) (if fltb (high b) twice then high b else twice) (u32 (tries b + 1))).
Definition reset (b : t) : t := mk (low b) (high b) (low b) 0.
End Backoff.

(** ** [Protocol] *)

Inductive pstate := Halted | Istart | Astart | Running | Maint.
#[export] Instance pstate_eq_dec : EqDecision pstate.
Proof. solve_decision. Defined.

Record Counters := mkCounters {
  data_errors_inbound : Z; data_errors_inbound_map : Z;
  data_errors_outbound : Z; data_errors_outbound_map : Z;
  remote_buffer_errors : Z; remote_buffer_errors_map : Z;
  remote_reply_timeouts : Z; local_reply_timeouts : Z;
}.
Definition no_counters : Counters := mkCounters 0 0 0 0 0 0 0 0.

(** [nak_counter]: whether it is a data error, and the bit. *)
Definition nak_counter (reason : Z) : option (bool * Z) :=
  if reason =? R_HCRC then Some (true, 0) else if reason =? R_CRC then Some (true, 1)
  else if reason =? R_REP then Some (true, 2) else if reason =? R_BUF then Some (false, 0)
  else if reason =? R_SHRT then Some (false, 1) else None.
Definition count_inbound (bit : Z) (c : Counters) : Counters :=
  mkCounters (u64 (data_errors_inbound c + 1)) (u16 (Z.lor (data_errors_inbound_map c) (Z.shiftl 1 bit)))
    (data_errors_outbound c) (data_errors_outbound_map c) (remote_buffer_errors c) (remote_buffer_errors_map c)
    (remote_reply_timeouts c) (local_reply_timeouts c).
Definition count_outbound (bit : Z) (c : Counters) : Counters :=
  mkCounters (data_errors_inbound c) (data_errors_inbound_map c)
    (u64 (data_errors_outbound c + 1)) (u16 (Z.lor (data_errors_outbound_map c) (Z.shiftl 1 bit)))
    (remote_buffer_errors c) (remote_buffer_errors_map c) (remote_reply_timeouts c) (local_reply_timeouts c).
Definition count_buffer (bit : Z) (c : Counters) : Counters :=
  mkCounters (data_errors_inbound c) (data_errors_inbound_map c) (data_errors_outbound c) (data_errors_outbound_map c)
    (u64 (remote_buffer_errors c + 1)) (u16 (Z.lor (remote_buffer_errors_map c) (Z.shiftl 1 bit)))
    (remote_reply_timeouts c) (local_reply_timeouts c).
Definition count_remote_timeout (c : Counters) : Counters :=
  mkCounters (data_errors_inbound c) (data_errors_inbound_map c) (data_errors_outbound c) (data_errors_outbound_map c)
    (remote_buffer_errors c) (remote_buffer_errors_map c) (u64 (remote_reply_timeouts c + 1)) (local_reply_timeouts c).
Definition count_local_timeout (c : Counters) : Counters :=
  mkCounters (data_errors_inbound c) (data_errors_inbound_map c) (data_errors_outbound c) (data_errors_outbound_map c)
    (remote_buffer_errors c) (remote_buffer_errors_map c) (remote_reply_timeouts c) (u64 (local_reply_timeouts c + 1)).

(** What the hooks are called with. *)
Inductive poutput :=
| Transmit (m : Message.t) | Deliver (b : Bytes) | ReportUp | ReportDown | SetTimer (t : double).

Record protocol := mkProtocol {
  state : pstate;
  qmax : Z;
  r_ : Z; a_ : Z; n_ : Z;
  ackflag : bool;
  unack : gmap Z Message.t;
  notsent : list Bytes;
  acktmr : Backoff.t;
  stacktmr : Backoff.t;
  counters : Counters;
  outs : list poutput;
}.
Definition set_state (s : pstate) (p : protocol) : protocol :=
  mkProtocol s (qmax p) (r_ p) (a_ p) (n_ p) (ackflag p) (unack p) (notsent p) (acktmr p) (stacktmr p) (counters p) (outs p).
Definition set_r (r : Z) (p : protocol) : protocol :=
  mkProtocol (state p) (qmax p) r (a_ p) (n_ p) (ackflag p) (unack p) (notsent p) (acktmr p) (stacktmr p) (counters p) (outs p).
Definition set_a (a : Z) (p : protocol) : protocol :=
  mkProtocol (state p) (qmax p) (r_ p) a (n_ p) (ackflag p) (unack p) (notsent p) (acktmr p) (stacktmr p) (counters p) (outs p).
Definition set_n (n : Z) (p : protocol) : protocol :=
  mkProtocol (state p) (qmax p) (r_ p) (a_ p) n (ackflag p) (unack p) (notsent p) (acktmr p) (stacktmr p) (counters p) (outs p).
Definition set_ackflag (f : bool) (p : protocol) : protocol :=
  mkProtocol (state p) (qmax p) (r_ p) (a_ p) (n_ p) f (unack p) (notsent p) (acktmr p) (stacktmr p) (counters p) (outs p).
Definition set_unack (u : gmap Z Message.t) (p : protocol) : protocol :=
  mkProtocol (state p) (qmax p) (r_ p) (a_ p) (n_ p) (ackflag p) u (notsent p) (acktmr p) (stacktmr p) (counters p) (outs p).
Definition set_notsent (q : list Bytes) (p : protocol) : protocol :=
  mkProtocol (state p) (qmax p) (r_ p) (a_ p) (n_ p) (ackflag p) (unack p) q (acktmr p) (stacktmr p) (counters p) (outs p).
Definition set_acktmr (b : Backoff.t) (p : protocol) : protocol :=
  mkProtocol (state p) (qmax p) (r_ p) (a_ p) (n_ p) (ackflag p) (unack p) (notsent p) b (stacktmr p) (counters p) (outs p).
Definition set_stacktmr (b : Backoff.t) (p : protocol) : protocol :=
  mkProtocol (state p) (qmax p) (r_ p) (a_ p) (n_ p) (ackflag p) (unack p) (notsent p) (acktmr p) b (counters p) (outs p).
Definition set_counters (c : Counters) (p : protocol) : protocol :=
  mkProtocol (state p) (qmax p) (r_ p) (a_ p) (n_ p) (ackflag p) (unack p) (notsent p) (acktmr p) (stacktmr p) c (outs p).
Definition set_outs (o : list poutput) (p : protocol) : protocol :=
  mkProtocol (state p) (qmax p) (r_ p) (a_ p) (n_ p) (ackflag p) (unack p) (notsent p) (acktmr p) (stacktmr p) (counters p) o.

Definition out (o : poutput) (p : protocol) : protocol := set_outs (outs p ++ [o]) p.
Definition set_timer (t : double) : protocol → protocol := out (SetTimer t).

Definition init_state (p : protocol) : protocol :=
  set_timer f0 (mkProtocol (state p) (qmax p) 0 0 0 false ∅ [] (acktmr p) (stacktmr p) (counters p) (outs p)).

Definition ack_backoff : Backoff.t := Backoff.mk f1 (f_of_Z 60) f1 0.
Definition stack_backoff : Backoff.t := Backoff.mk (f_of_Z 3) (f_of_Z 120) (f_of_Z 3) 0.
Definition new_protocol (qmax : Z) : protocol :=
  init_state (mkProtocol Halted (if qmax =? 0 then 7 else qmax) 0 0 0 false ∅ [] ack_backoff stack_backoff no_counters []).

Definition send_msg (m : Message.t) (timer : double) (p : protocol) : protocol :=
  let p := out (Transmit m) p in
  if fltb f0 timer then set_timer timer p else p.
(** [send_msg (m, stacktmr_.next ())] and [send_msg (m, acktmr_.next ())]. *)
Definition send_start (m : Message.t) (p : protocol) : protocol :=
  let '(t, b) := Backoff.next (stacktmr p) in send_msg m t (set_stacktmr b p).
Definition send_timed (m : Message.t) (p : protocol) : protocol :=
  let '(t, b) := Backoff.next (acktmr p) in send_msg m t (set_acktmr b p).

Definition connected (p : protocol) : protocol :=
  let p := init_state p in
  let p := set_stacktmr (Backoff.reset (stacktmr p)) (set_acktmr (Backoff.reset (acktmr p)) p) in
  set_state Istart (send_start make_start p).

(** [if (state_ == State::running && hooks_.down) hooks_.down ()]. *)
Definition lost (p : protocol) : protocol :=
  if bool_decide (state p = Running) then out ReportDown p else p.
Definition halt (p : protocol) : protocol := set_state Halted (init_state (lost p)).
Definition do_restart (p : protocol) : protocol :=
  let p := lost p in
  if bool_decide (state p = Istart) then p else connected p.
Definition restart : protocol → protocol := do_restart.

Definition enter_running (ack : bool) (p : protocol) : protocol :=
  let p := out ReportUp (set_timer f0 (set_state Running p)) in
  if ack then send_msg (make_ack (r_ p)) f0 p else p.
Definition flush_ack (p : protocol) : protocol :=
  if negb (ackflag p) then p
  else let p := set_ackflag false p in send_msg (make_ack (r_ p)) f0 p.

(** ** The window *)

Definition cansend (p : protocol) : bool := Seq.distance (a_ p) (n_ p) <? qmax p.

(** [send_queued]: every turn takes a payload off the queue. *)
Fixpoint send_loop (queue_only : bool) (queue : list Bytes) (p : protocol) : protocol :=
  match queue with
  | [] => p
  | data :: queue =>
      if negb (cansend p) then p
      else
        let p := set_n (Seq.next (n_ p)) (set_notsent queue p) in
        let msg := make_data (n_ p) (r_ p) data in
        let p := set_unack (<[n_ p := msg]> (unack p)) p in
        send_loop queue_only queue (if queue_only then p else send_timed msg p)
  end.
Definition send_queued (queue_only : bool) (p : protocol) : protocol := send_loop queue_only (notsent p) p.

Fixpoint advance (n : nat) (p : protocol) : protocol :=
  match n with
  | O => p
  | S n => let a := Seq.next (a_ p) in advance n (set_unack (delete a (unack p)) (set_a a p))
  end.

(** [process_ack]: false when the acknowledgement is outside the window. *)
Definition process_ack (m : Message.t) (p : protocol) : bool * protocol :=
  let count := Seq.distance (a_ p) (Message.resp m) in
  let pend := Seq.distance (a_ p) (n_ p) in
  if pend <? count then (false, p)
  else
    let p := advance (Z.to_nat count) p in
    let p := if negb (a_ p =? n_ p)
             then let '(t, b) := Backoff.next (acktmr p) in set_timer t (set_acktmr b p)
             else let p := set_timer f0 p in set_acktmr (Backoff.reset (acktmr p)) p in
    (true, send_queued (bool_decide (Message.kind m = Nak)) p).

Fixpoint resend (n : nat) (t : Z) (p : protocol) : protocol :=
  match n with
  | O => p
  | S n =>
      let t := Seq.next t in
      resend n t (match unack p !! t with Some m => send_timed m p | None => p end)
  end.
Definition retransmit (p : protocol) : protocol := resend (Z.to_nat (Seq.distance (a_ p) (n_ p))) (a_ p) p.

(** ** Input *)

(** The NAK the far end sent, counted. *)
Definition count_nak (reason : Z) (p : protocol) : protocol :=
  match nak_counter reason with
  | Some (true, bit) => set_counters (count_outbound bit (counters p)) p
  | Some (false, bit) => set_counters (count_buffer bit (counters p)) p
  | None => p
  end.

(** [receive] in the maintenance state. *)
Definition receive_maintenance (m : Message.t) (p : protocol) : protocol :=
  if bool_decide (Message.kind m = Start) then do_restart p else p.

(** [receive] in the running state. *)
Definition receive_running (m : Message.t) (p : protocol) : protocol :=
  match Message.kind m with
  | Data =>
      let p := (process_ack m p).2 in
      let next := Seq.add (r_ p) 1 in
      flush_ack (if negb (Message.num m =? next) then p
                 else out (Deliver (Message.payload m)) (set_ackflag true (set_r next p)))
  | Ack => flush_ack (process_ack m p).2
  | Nak =>
      let p := count_nak (Message.subtype m) p in
      let '(ok, p) := process_ack m p in
      flush_ack (if ok : bool then retransmit p else p)
  | Rep =>
      let p := set_counters (count_remote_timeout (counters p)) p in
      flush_ack (if Message.num m =? r_ p then set_ackflag true p
                 else send_msg (make_nak (r_ p) R_REP) f0 (set_counters (count_inbound 2 (counters p)) p))
  | Maintenance => receive_maintenance m (set_state Maint (out ReportDown (init_state p)))
  | Start => do_restart p
  | Stack => flush_ack (set_ackflag true p)
  end.

Definition enter_maintenance (m : Message.t) (p : protocol) : protocol :=
  receive_maintenance m (set_state Maint (init_state p)).

Definition receive (m : Message.t) (p : protocol) : protocol :=
  match state p with
  | Halted => p
  | Istart =>
      match Message.kind m with
      | Start => set_state Astart (send_start make_stack (set_stacktmr (Backoff.reset (stacktmr p)) p))
      | Stack => enter_running true p
      | Maintenance => enter_maintenance m p
      | _ => p
      end
  | Astart =>
      match Message.kind m with
      | Start => send_start make_stack p
      | Stack => enter_running true p
      | Maintenance => enter_maintenance m p
      | Ack | Data => if Message.resp m =? 0 then receive_running m (enter_running false p) else p
      | _ => p
      end
  | Maint => receive_maintenance m p
  | Running => receive_running m p
  end.

Definition receive_error (reason : Z) (partial : option Message.t) (p : protocol) : protocol :=
  if negb (bool_decide (state p = Running)) then p
  else
    let p := match nak_counter reason with
             | Some (true, bit) => set_counters (count_inbound bit (counters p)) p
             | _ => p
             end in
    let p := match partial with
             | Some m => if sets_resp m then (process_ack m p).2 else p
             | None => p
             end in
    send_msg (make_nak (r_ p) reason) f0 p.

Definition timeout (p : protocol) : protocol :=
  match state p with
  | Istart => send_start make_start p
  | Astart => send_start make_stack p
  | Running =>
      let p := set_counters (count_local_timeout (counters p)) p in
      send_timed (make_rep (n_ p)) p
  | _ => p
  end.

Definition send (payload : Bytes) (p : protocol) : protocol :=
  if negb (bool_decide (state p = Running)) then p
  else send_queued false (set_notsent (notsent p ++ [payload]) p).
Definition send_maintenance (payload : Bytes) (p : protocol) : protocol :=
  send_msg (make_maintenance payload) f0 p.

(** The Backoff constructors of the members do not throw. *)
Example backoffs_ok : Backoff.make f1 (f_of_Z 60) = Ok ack_backoff ∧ Backoff.make (f_of_Z 3) (f_of_Z 120) = Ok stack_backoff.
Proof. split; vm_compute; reflexivity. Qed.
