(* ===== verification/DdcmpDelivery.v ===== *)
(** What two protocol engines do for each other over a line that loses and
    damages messages: what is handed up is what was sent, in order; and one
    exchange that gets through is enough to go on. *)

From stdpp Require Import gmap.
From S2P Require Import Prelude Float Crc DdcmpPackets Ddcmp.
Import Message (is_data, sets_resp).
#[local] Open Scope Z_scope.

(** ** Outputs *)

Definition wires (os : list poutput) : list Message.t := omap (λ o, match o with Transmit m => Some m | _ => None end) os.
Definition handed (os : list poutput) : list Bytes := omap (λ o, match o with Deliver b => Some b | _ => None end) os.

Lemma wires_app a b : wires (a ++ b) = wires a ++ wires b.
Proof. apply omap_app. Qed.
Lemma handed_app a b : handed (a ++ b) = handed a ++ handed b.
Proof. apply omap_app. Qed.

(** The state the timers and outputs leave alone. *)
Definition view (p : protocol) :=
  (state p, qmax p, r_ p, a_ p, n_ p, ackflag p, unack p, notsent p).

(** [p'] is [p] after sending [ms], as far as the view and the line tell. *)
Definition sends (ms : list Message.t) (p p' : protocol) : Prop :=
  view p' = view p ∧ wires (outs p') = wires (outs p) ++ ms ∧ handed (outs p') = handed (outs p).

Lemma sends_nil p : sends [] p p.
Proof. split_and!; [done|by rewrite app_nil_r|done]. Qed.
Lemma sends_trans ms ms' p p' p'' : sends ms p p' → sends ms' p' p'' → sends (ms ++ ms') p p''.
Proof. intros (H1 & H2 & H3) (K1 & K2 & K3). split_and!; [congruence|by rewrite K2, H2, app_assoc|congruence]. Qed.
Lemma sends_timer t p : sends [] p (set_timer t p).
Proof. split_and!; [done|..]; unfold set_timer, out; simpl; by rewrite ?wires_app, ?handed_app, ?app_nil_r. Qed.
Lemma sends_msg m t p : sends [m] p (send_msg m t p).
Proof.
  unfold send_msg. assert (sends [m] p (out (Transmit m) p)) as H.
  { split_and!; [done|..]; unfold out; simpl; by rewrite ?wires_app, ?handed_app, ?app_nil_r. }
  destruct (fltb f0 t); [|done]. apply (sends_trans [m] [] _ _ _ H (sends_timer t _)).
Qed.
Lemma sends_timed m p : sends [m] p (send_timed m p).
Proof. unfold send_timed. destruct (Backoff.next (acktmr p)) as [t b]. apply (sends_msg m t (set_acktmr b p)). Qed.

(** The same of a step that may change the numbers. *)
Definition emits (ms : list Message.t) (p p' : protocol) : Prop :=
  wires (outs p') = wires (outs p) ++ ms ∧ handed (outs p') = handed (outs p) ∧ ackflag p' = ackflag p.
Lemma emits_nil p p' : outs p' = outs p → ackflag p' = ackflag p → emits [] p p'.
Proof. intros E1 E2. split_and!; [by rewrite E1, app_nil_r|by rewrite E1|done]. Qed.
Lemma emits_trans ms ms' p p' p'' : emits ms p p' → emits ms' p' p'' → emits (ms ++ ms') p p''.
Proof. intros (H1 & H2 & H3) (K1 & K2 & K3). split_and!; [by rewrite K1, H1, app_assoc|congruence|congruence]. Qed.
Lemma sends_emits ms p p' : sends ms p p' → emits ms p p'.
Proof. intros (H1 & H2 & H3). unfold view in H1. split_and!; [done|done|congruence]. Qed.

(** ** Sequence numbers of absolute counts *)

Definition seqno (k : nat) : Z := Z.of_nat k mod 256.

Lemma seqno_next k : Seq.next (seqno k) = seqno (S k).
Proof. unfold Seq.next, u8, seqno. rewrite Zplus_mod_idemp_l. f_equal. lia. Qed.
Lemma seqno_distance a k : (a ≤ k)%nat → (k - a < 256)%nat → Seq.distance (seqno a) (seqno k) = Z.of_nat (k - a).
Proof.
  intros H1 H2. unfold Seq.distance, u8, seqno. rewrite <-Zminus_mod. rewrite <-Nat2Z.inj_sub by done.
  apply Z.mod_small. lia.
Qed.
Lemma seqno_inj a k : (a ≤ k)%nat → (k - a < 256)%nat → seqno a = seqno k → a = k.
Proof. intros H1 H2 E. pose proof (seqno_distance a k H1 H2) as H. rewrite E in H. unfold Seq.distance in H. rewrite Z.sub_diag in H. change (u8 0) with 0 in H. lia. Qed.

(** ** The sending engine

    [given] is what it was given to send, [a] how much of it the far end has
    acknowledged, [n] how much of it has a number. *)

Section Sender.
Context (q : nat) (Hq : (1 ≤ q ≤ 255)%nat).

Definition data_msg (given : list Bytes) (k : nat) : Message.t :=
  make_data (seqno k) 0 (default [] (given !! (k - 1)%nat)).

Record sender (given : list Bytes) (a n : nat) (p : protocol) : Prop := {
  sd_state : state p = Running;
  sd_qmax : qmax p = Z.of_nat q;
  sd_r : r_ p = 0;
  sd_a : a_ p = seqno a;
  sd_n : n_ p = seqno n;
  sd_le : (a ≤ n ≤ length given)%nat;
  sd_window : (n - a ≤ q)%nat;
  sd_unack : ∀ k, (a < k ≤ n)%nat → unack p !! seqno k = Some (data_msg given k);
  sd_notsent : notsent p = drop n given;
}.

Lemma sender_view given a n p p' : view p' = view p → sender given a n p → sender given a n p'.
Proof. unfold view. intros [= E1 E2 E3 E4 E5 E6 E7 E8] []. constructor; rewrite ?E7; first [assumption|congruence]. Qed.

Lemma sender_cansend given a n p : sender given a n p → cansend p = (n - a <? q)%nat.
Proof.
  intros []. unfold cansend. rewrite sd_a0, sd_n0, sd_qmax0, seqno_distance by lia.
  destruct (Z.ltb_spec (Z.of_nat (n - a)) (Z.of_nat q)), (Nat.ltb_spec (n - a) q); lia || done.
Qed.

(** One number more. *)
Lemma sender_number given a n p data rest :
  sender given a n p → notsent p = data :: rest → (n - a < q)%nat →
  let p := set_n (Seq.next (n_ p)) (set_notsent rest p) in
  let msg := make_data (n_ p) (r_ p) data in
  msg = data_msg given (S n) ∧ sender given a (S n) (set_unack (<[n_ p := msg]> (unack p)) p) ∧ rest = drop (S n) given.
Proof.
  intros [] E Hlt. rewrite sd_notsent0 in E. pose proof (f_equal (.!! 0%nat) E) as Hh. rewrite lookup_drop, Nat.add_0_r in Hh. simpl in Hh.
  assert (rest = drop (S n) given) as Er.
  { apply (f_equal (drop 1)) in E. rewrite drop_drop in E. simpl in E. rewrite drop_0 in E. by rewrite Nat.add_1_r in E. }
  pose proof (lookup_lt_Some _ _ _ Hh).
  assert (make_data (seqno (S n)) 0 data = data_msg given (S n)) as Em.
  { unfold data_msg. replace (S n - 1)%nat with n by lia. by rewrite Hh. }
  simpl. rewrite sd_n0, sd_r0, seqno_next. split; [done|]. split; [|done].
  constructor; cbn [state qmax r_ a_ n_ unack notsent set_unack set_n set_notsent]; try done; [lia..|]. intros k Hk.
  destruct (decide (k = S n)) as [->|Hne]; [by rewrite lookup_insert_eq, Em|].
  rewrite lookup_insert_ne; [apply sd_unack0; lia|]. intros E'. symmetry in E'. apply seqno_inj in E'; lia.
Qed.

Definition data_msgs (given : list Bytes) (n n' : nat) : list Message.t := map (data_msg given) (seq (S n) (n' - n)).

Lemma send_loop_sender qo given a n p :
  sender given a n p →
  let n' := Nat.max n (Nat.min (length given) (a + q)) in
  let p' := send_loop qo (notsent p) p in
  sender given a n' p' ∧ emits (if qo then [] else data_msgs given n n') p p'.
Proof.
  remember (notsent p) as queue eqn:Eq. revert n p Eq.
  induction queue as [|data rest IH]; intros n p Eq Hs; cbn [send_loop]; cbv zeta.
  - pose proof (sd_notsent _ _ _ _ Hs) as En. rewrite <-Eq in En. symmetry in En.
    apply (f_equal length) in En. rewrite length_drop in En. simpl in En.
    assert (Nat.max n (Nat.min (length given) (a + q)) = n) as -> by (destruct Hs; lia).
    split; [done|]. unfold data_msgs. rewrite Nat.sub_diag. destruct qo; by apply emits_nil.
  - rewrite (sender_cansend given a n p Hs). destruct (Nat.ltb_spec (n - a) q) as [Hlt|Hge]; cbn [negb].
    + destruct (sender_number given a n p data rest Hs (eq_sym Eq) Hlt) as (Em & Hs' & Er).
      cbv zeta in Em, Hs'. set (p1 := set_n _ _) in *. set (msg := make_data _ _ data) in *.
      set (p2 := set_unack _ p1) in *.
      assert (sender given a (S n) (if qo then p2 else send_timed msg p2)) as Hs2.
      { destruct qo; [done|]. eapply sender_view; [apply (sends_timed msg p2)|done]. }
      assert (rest = notsent (if qo then p2 else send_timed msg p2)) as Er'.
      { rewrite Er. symmetry. apply Hs2. }
      destruct (IH (S n) _ Er' Hs2) as [K1 K2].
      assert (Nat.max (S n) (Nat.min (length given) (a + q)) = Nat.max n (Nat.min (length given) (a + q))) as Ex.
      { destruct Hs'. lia. }
      rewrite Ex in K1, K2. split; [done|]. destruct qo.
      * apply (emits_trans [] [] p p2); [by apply emits_nil|done].
      * assert (data_msgs given n (Nat.max n (Nat.min (length given) (a + q))) = [msg] ++ data_msgs given (S n) (Nat.max n (Nat.min (length given) (a + q)))) as ->.
        { unfold data_msgs. destruct Hs'. rewrite Em.
          replace (Nat.max n (Nat.min (length given) (a + q)) - n)%nat with (S (Nat.max n (Nat.min (length given) (a + q)) - S n)) by lia. done. }
        eapply emits_trans; [|exact K2]. apply (emits_trans [] [msg] p p2); [by apply emits_nil|]. apply sends_emits, sends_timed.
    + assert (Nat.max n (Nat.min (length given) (a + q)) = n) as -> by (destruct Hs; lia).
      split; [done|]. unfold data_msgs. rewrite Nat.sub_diag. destruct qo; by apply emits_nil.
Qed.

Lemma advance_sender given c a n p :
  sender given a n p → (a + c ≤ n)%nat → sender given (a + c) n (advance c p) ∧ emits [] p (advance c p).
Proof.
  revert a p. induction c as [|c IH]; intros a p Hs Hc; cbn [advance].
  { rewrite Nat.add_0_r. split; [done|by apply emits_nil]. }
  set (p1 := set_unack _ _). assert (sender given (S a) n p1) as Hs1.
  { destruct Hs. constructor; simpl; try done; [by rewrite sd_a0, seqno_next|lia..|]. intros k Hk.
    rewrite sd_a0, seqno_next, lookup_delete_ne; [apply sd_unack0; lia|]. intros E. apply seqno_inj in E; lia. }
  destruct (IH (S a) p1 Hs1) as [K1 K2]; [lia|]. rewrite <-Nat.add_succ_comm in *.
  split; [done|]. by apply (emits_trans [] [] p p1); [apply emits_nil|].
Qed.

Lemma process_ack_sender given a n k m p :
  sender given a n p → Message.resp m = seqno k → (a ≤ k ≤ n)%nat →
  let n' := Nat.max n (Nat.min (length given) (k + q)) in
  ∃ p', process_ack m p = (true, p') ∧ sender given k n' p' ∧
    emits (if decide (Message.kind m = Nak) then [] else data_msgs given n n') p p'.
Proof.
  intros Hs Hm Hk n'. unfold process_ack. cbv zeta.
  rewrite Hm, (sd_a _ _ _ _ Hs), (sd_n _ _ _ _ Hs), !seqno_distance by (destruct Hs; lia).
  destruct (Z.ltb_spec (Z.of_nat (n - a)) (Z.of_nat (k - a))); [lia|]. rewrite Nat2Z.id.
  destruct (advance_sender given (k - a) a n p Hs ltac:(lia)) as [H1 H2].
  replace (a + (k - a))%nat with k in H1 by lia. set (p1 := advance (k - a) p) in *.
  set (p2 := if negb _ then _ else _).
  assert (sends [] p1 p2) as Hp2.
  { unfold p2. destruct (negb _).
    - destruct (Backoff.next (acktmr p1)) as [t b]. apply (sends_timer t (set_acktmr b p1)).
    - apply (sends_timer f0 p1). }
  assert (sender given k n p2) as Hs2 by (eapply sender_view; [apply Hp2|done]).
  destruct (send_loop_sender (bool_decide (Message.kind m = Nak)) given k n p2 Hs2) as [K1 K2].
  eexists. split; [done|]. split; [exact K1|].
  apply (emits_trans [] _ p p1); [done|]. apply (emits_trans [] _ p1 p2); [by apply sends_emits|].
  unfold send_queued. case_decide as E; [rewrite bool_decide_eq_true_2 in K2 |- * by done|rewrite bool_decide_eq_false_2 in K2 |- * by done]; done.
Qed.

Lemma resend_sender given a n p c t :
  sender given a n p → (a ≤ t)%nat → (t + c ≤ n)%nat →
  sender given a n (resend c (seqno t) p) ∧ emits (map (data_msg given) (seq (S t) c)) p (resend c (seqno t) p).
Proof.
  revert t p. induction c as [|c IH]; intros t p Hs Ht Hc; cbn [resend].
  { split; [done|by apply emits_nil]. }
  rewrite seqno_next, (sd_unack _ _ _ _ Hs) by lia.
  set (m := data_msg given (S t)). pose proof (sends_timed m p) as Hm.
  assert (sender given a n (send_timed m p)) as Hs1 by (eapply sender_view; [apply Hm|done]).
  destruct (IH (S t) (send_timed m p) Hs1) as [K1 K2]; [lia..|]. split; [done|].
  cbn [seq map]. fold m. apply (emits_trans [m] _ p (send_timed m p)); [by apply sends_emits|done].
Qed.

Lemma retransmit_sender given a n p :
  sender given a n p → sender given a n (retransmit p) ∧ emits (data_msgs given a n) p (retransmit p).
Proof.
  intros Hs. unfold retransmit. rewrite (sd_a _ _ _ _ Hs), (sd_n _ _ _ _ Hs), seqno_distance, Nat2Z.id by (destruct Hs; lia).
  apply resend_sender; [done|lia|destruct Hs; lia].
Qed.

Lemma count_nak_sends r p : sends [] p (count_nak r p).
Proof. unfold count_nak. destruct (nak_counter r) as [[[] b]|]; split_and!; by rewrite ?app_nil_r. Qed.

(** ** What the sending engine does with what arrives *)

(** Acknowledgements up to [k], which may be a NAK. *)
Lemma flush_ack_idle p : ackflag p = false → flush_ack p = p.
Proof. intros E. unfold flush_ack. by rewrite E. Qed.

Lemma sender_receives_ack given a n k m p :
  sender given a n p → ackflag p = false → Message.kind m = Ack → Message.resp m = seqno k → (a ≤ k ≤ n)%nat →
  let n' := Nat.max n (Nat.min (length given) (k + q)) in
  sender given k n' (receive m p) ∧ emits (data_msgs given n n') p (receive m p).
Proof.
  intros Hs Hf Hm Hr Hk n'. unfold receive. rewrite (sd_state _ _ _ _ Hs). unfold receive_running. rewrite Hm.
  destruct (process_ack_sender given a n k m p Hs Hr Hk) as (p' & -> & K1 & K2). cbn [snd].
  rewrite Hm in K2. rewrite decide_False in K2 by done.
  rewrite flush_ack_idle by (by destruct K2 as (_ & _ & ->)). done.
Qed.

Lemma sender_receives_nak given a n k m p :
  sender given a n p → ackflag p = false → Message.kind m = Nak → Message.resp m = seqno k → (a ≤ k ≤ n)%nat →
  let n' := Nat.max n (Nat.min (length given) (k + q)) in
  sender given k n' (receive m p) ∧ emits (data_msgs given k n') p (receive m p).
Proof.
  intros Hs Hf Hm Hr Hk n'. unfold receive. rewrite (sd_state _ _ _ _ Hs). unfold receive_running. rewrite Hm.
  pose proof (count_nak_sends (Message.subtype m) p) as Hc. set (p0 := count_nak _ p) in *.
  assert (sender given a n p0) as Hs0 by (eapply sender_view; [apply Hc|done]).
  destruct (process_ack_sender given a n k m p0 Hs0 Hr Hk) as (p' & E & K1 & K2). rewrite E.
  rewrite decide_True in K2 by done. destruct (retransmit_sender given k n' p' K1) as [R1 R2].
  assert (emits (data_msgs given k n') p (retransmit p')) as He.
  { apply (emits_trans [] _ p p0); [by apply sends_emits|]. by apply (emits_trans [] _ p0 p'). }
  rewrite flush_ack_idle by (by destruct He as (_ & _ & ->)). done.
Qed.

(** A send from above, and the reply timer. *)
Lemma data_msg_more given data k : (1 ≤ k ≤ length given)%nat → data_msg (given ++ [data]) k = data_msg given k.
Proof. intros Hk. unfold data_msg. by rewrite lookup_app_l by lia. Qed.
Lemma data_msgs_more given data n n' : (n' ≤ length given)%nat → data_msgs (given ++ [data]) n n' = data_msgs given n n'.
Proof.
  intros Hn. unfold data_msgs. apply map_ext_in. intros k Hk%in_seq. apply data_msg_more. lia.
Qed.

Lemma sender_sends given a n p data :
  sender given a n p → ackflag p = false →
  let n' := Nat.max n (Nat.min (length (given ++ [data])) (a + q)) in
  sender (given ++ [data]) a n' (send data p) ∧ emits (data_msgs (given ++ [data]) n n') p (send data p).
Proof.
  intros Hs Hf n'. unfold send. rewrite bool_decide_eq_true_2 by apply Hs. cbn [negb].
  set (p1 := set_notsent _ p). assert (sender (given ++ [data]) a n p1) as Hs1.
  { destruct Hs. constructor; simpl; try done; rewrite ?length_app; simpl; [lia| |].
    - intros k Hk. rewrite sd_unack0, data_msg_more by lia. done.
    - by rewrite sd_notsent0, drop_app_le by lia. }
  destruct (send_loop_sender false _ a n p1 Hs1) as [K1 K2]. split; [done|].
  by apply (emits_trans [] _ p p1); [apply emits_nil|].
Qed.

Lemma sender_timeout given a n p :
  sender given a n p → ackflag p = false →
  sender given a n (timeout p) ∧ emits [make_rep (seqno n)] p (timeout p).
Proof.
  intros Hs Hf. unfold timeout. rewrite (sd_state _ _ _ _ Hs). cbv zeta. cbn [n_ set_counters]. rewrite (sd_n _ _ _ _ Hs).
  set (p1 := set_counters _ p). pose proof (sends_timed (make_rep (seqno n)) p1) as Hm.
  split; [|by apply (emits_trans [] _ p p1); [apply emits_nil|apply sends_emits]].
  eapply sender_view; [apply Hm|]. by apply (sender_view _ _ _ p p1).
Qed.

(** A reply request of the far end, which has sent nothing; a late STACK. *)
Lemma sender_receives_other given a n m p :
  sender given a n p → ackflag p = false → (Message.kind m = Rep ∧ Message.num m = 0) ∨ Message.kind m = Stack →
  sender given a n (receive m p) ∧ emits [make_ack 0] p (receive m p).
Proof.
  intros Hs Hf Hm. unfold receive. rewrite (sd_state _ _ _ _ Hs). unfold receive_running.
  assert (∀ p1, view p1 = view (set_ackflag true p) → outs p1 = outs p →
    sender given a n (flush_ack p1) ∧ emits [make_ack 0] p (flush_ack p1)) as H.
  { intros p1 Ev Eo. unfold flush_ack. assert (ackflag p1 = true ∧ r_ p1 = 0) as [-> Er].
    { unfold view in Ev. cbn [state qmax r_ a_ n_ ackflag unack notsent set_ackflag] in Ev.
      injection Ev as E1 E2 E3 E4 E5 E6 E7 E8. split; [done|]. rewrite E3. apply Hs. }
    cbn [negb r_ set_ackflag]. rewrite Er. set (p2 := set_ackflag false p1). pose proof (sends_msg (make_ack 0) f0 p2) as Hsd.
    assert (view p2 = view p) as E2.
    { unfold view, p2 in *. cbn [state qmax r_ a_ n_ ackflag unack notsent set_ackflag] in *.
      injection Ev as E1 E2 E3 E4 E5 E6 E7 E8. congruence. }
    split; [eapply sender_view; [rewrite (proj1 Hsd); exact E2|done]|].
    apply (emits_trans [] _ p p2); [apply emits_nil; [by unfold p2|by unfold view in E2; congruence]|by apply sends_emits]. }
  destruct Hm as [[E1 E2]|E1]; rewrite E1; [|by apply H].
  cbv zeta. cbn [r_ set_counters]. rewrite E2, (sd_r _ _ _ _ Hs). rewrite Z.eqb_refl. by apply H.
Qed.

End Sender.

(** ** The receiving engine

    It has taken [r] messages and sends none itself. *)

Record receiver (r : nat) (p : protocol) : Prop := {
  rv_state : state p = Running;
  rv_r : r_ p = seqno r;
  rv_a : a_ p = 0;
  rv_n : n_ p = 0;
  rv_notsent : notsent p = [];
  rv_ackflag : ackflag p = false;
}.

(** [p'] after [ms] has gone out and [ds] has been handed up. *)
Definition yields (ms : list Message.t) (ds : list Bytes) (p p' : protocol) : Prop :=
  wires (outs p') = wires (outs p) ++ ms ∧ handed (outs p') = handed (outs p) ++ ds.
Lemma yields_same p p' : outs p' = outs p → yields [] [] p p'.
Proof. intros E. split; by rewrite E, app_nil_r. Qed.
Lemma yields_trans ms ms' ds ds' p p' p'' : yields ms ds p p' → yields ms' ds' p' p'' → yields (ms ++ ms') (ds ++ ds') p p''.
Proof. intros [H1 H2] [K1 K2]. split; [by rewrite K1, H1, app_assoc|by rewrite K2, H2, app_assoc]. Qed.
Lemma sends_yields ms p p' : sends ms p p' → yields ms [] p p'.
Proof. intros (_ & H2 & H3). split; [done|by rewrite app_nil_r]. Qed.
Lemma receiver_view r p p' : view p' = view p → receiver r p → receiver r p'.
Proof. unfold view. intros [= E1 E2 E3 E4 E5 E6 E7 E8] []. constructor; congruence. Qed.

(** An acknowledgement of nothing changes nothing. *)
Lemma receiver_process_ack r m p : receiver r p → Message.resp m = 0 →
  ∃ p', process_ack m p = (true, p') ∧ receiver r p' ∧ yields [] [] p p' ∧ view p' = view p.
Proof.
  intros Hr Hm. unfold process_ack. rewrite Hm, (rv_a _ _ Hr), (rv_n _ _ Hr). change (Seq.distance 0 0) with 0. cbv zeta.
  change (0 <? 0) with false. change (advance (Z.to_nat 0) p) with p.
  rewrite (rv_a _ _ Hr), (rv_n _ _ Hr), Z.eqb_refl. cbn [negb].
  set (p1 := set_acktmr _ _). assert (sends [] p p1) as Hs by (apply (sends_timer f0 p)).
  assert (receiver r p1) as Hr1 by (eapply receiver_view; [apply Hs|done]).
  assert (send_queued (bool_decide (Message.kind m = Nak)) p1 = p1) as E.
  { unfold send_queued. by rewrite (rv_notsent _ _ Hr1). }
  rewrite E. exists p1. split_and!; [done|done|by apply sends_yields|apply Hs].
Qed.

Lemma receiver_flush r p : state p = Running → r_ p = seqno r → a_ p = 0 → n_ p = 0 → notsent p = [] → ackflag p = true →
  receiver r (flush_ack p) ∧ yields [make_ack (seqno r)] [] p (flush_ack p).
Proof.
  intros E1 E2 E3 E4 E5 E6. unfold flush_ack. rewrite E6. cbn [negb r_ set_ackflag]. rewrite E2.
  set (p1 := set_ackflag false p). pose proof (sends_msg (make_ack (seqno r)) f0 p1) as Hs.
  split; [|by apply (yields_trans [] _ [] _ p p1); [apply yields_same|apply sends_yields]].
  eapply receiver_view; [apply Hs|]. by constructor.
Qed.
Lemma receiver_quiet r p : receiver r p → flush_ack p = p.
Proof. intros []. by apply flush_ack_idle. Qed.

Lemma receiver_data given r k p :
  receiver r p → (k < r + 257)%nat → (r < k + 255)%nat →
  receiver (if decide (k = S r) then S r else r) (receive (data_msg given k) p) ∧
  (if decide (k = S r) then yields [make_ack (seqno (S r))] [default [] (given !! r)] p (receive (data_msg given k) p)
   else yields [] [] p (receive (data_msg given k) p)).
Proof.
  intros Hr H1 H2. unfold receive. rewrite (rv_state _ _ Hr). unfold receive_running. cbn [Message.kind data_msg make_data].
  destruct (receiver_process_ack r (data_msg given k) p Hr eq_refl) as (p' & E & Hr' & Hy & _). rewrite E. cbn [snd].
  cbv zeta. unfold Seq.add, Seq.make. rewrite (rv_r _ _ Hr'). change (u8 (seqno r + 1)) with (Seq.next (seqno r)).
  rewrite seqno_next. cbn [Message.num Message.payload data_msg make_data]. case_decide as Ek.
  - subst k. rewrite Z.eqb_refl. cbn [negb]. rewrite (Nat.sub_succ r 0), Nat.sub_0_r.
    set (p1 := set_ackflag true (set_r (seqno (S r)) p')). set (d := default [] _).
    assert (yields [] [d] p (out (Deliver d) p1)) as Hd.
    { apply (yields_trans [] [] [] [d] p p'); [done|]. split; unfold out; simpl; by rewrite ?wires_app, ?handed_app, ?app_nil_r. }
    destruct (receiver_flush (S r) (out (Deliver d) p1)) as [K1 K2]; [apply Hr'|done|apply Hr'|apply Hr'|apply Hr'|done|].
    split; [done|]. by apply (yields_trans [] _ [d] [] p (out (Deliver d) p1)).
  - assert ((seqno k =? seqno (S r)) = false) as ->.
    { apply Z.eqb_neq. intros Es. apply Ek. destruct (Nat.le_ge_cases k (S r)).
      - apply seqno_inj; [lia|lia|done].
      - symmetry. apply seqno_inj; [lia|lia|done]. }
    cbn [negb]. by rewrite (receiver_quiet r).
Qed.

(** Anything else the sender sends. *)
Definition harmless (m : Message.t) : Prop :=
  Message.kind m = Rep ∨ (Message.kind m = Ack ∧ Message.resp m = 0) ∨ Message.kind m = Stack.
(** A reply that says where the receiver is. *)
Definition reply (r : nat) (m : Message.t) : Prop :=
  (Message.kind m = Ack ∨ Message.kind m = Nak) ∧ Message.resp m = seqno r.

Lemma receiver_other r m p : receiver r p → harmless m →
  receiver r (receive m p) ∧ ∃ ms, Forall (reply r) ms ∧ yields ms [] p (receive m p) ∧
    (Message.kind m = Rep → ms = [if Message.num m =? seqno r then make_ack (seqno r) else make_nak (seqno r) R_REP]).
Proof.
  intros Hr Hm. unfold receive. rewrite (rv_state _ _ Hr). unfold receive_running.
  assert (reply r (make_ack (seqno r))) as Ha by (split; [by left|done]).
  assert (reply r (make_nak (seqno r) R_REP)) as Hn by (split; [by right|done]).
  destruct Hm as [E|[[E1 E2]|E]]; rewrite ?E, ?E1; cbv zeta.
  - set (p1 := set_counters _ p). change (r_ p1) with (r_ p). rewrite (rv_r _ _ Hr).
    destruct (Message.num m =? seqno r).
    + destruct (receiver_flush r (set_ackflag true p1)) as [K1 K2]; [apply Hr..|done|]. split; [done|].
      exists [make_ack (seqno r)]. split; [by repeat constructor|]. split; [|done].
      apply (yields_trans [] _ [] _ p (set_ackflag true p1)); [by apply yields_same|done].
    + set (p2 := set_counters _ p1). pose proof (sends_msg (make_nak (r_ p) R_REP) f0 p2) as Hs.
      change (r_ p1) with (r_ p). rewrite (rv_r _ _ Hr) in *.
      assert (receiver r (send_msg (make_nak (seqno r) R_REP) f0 p2)) as Hr2.
      { eapply receiver_view; [apply Hs|]. by apply (receiver_view _ p p2). }
      rewrite (receiver_quiet r) by done. split; [done|]. exists [make_nak (seqno r) R_REP].
      split; [by repeat constructor|]. split; [|done]. 
      apply (yields_trans [] _ [] _ p p2); [by apply yields_same|by apply sends_yields].
  - destruct (receiver_process_ack r m p Hr E2) as (p' & -> & K1 & K2 & _). cbn [snd]. rewrite (receiver_quiet r) by done.
    split; [done|]. exists []. split; [done|]. split; [done|congruence].
  - destruct (receiver_flush r (set_ackflag true p)) as [K1 K2]; [apply Hr..|done|]. split; [done|].
    exists [make_ack (seqno r)]. split; [by repeat constructor|]. split; [|congruence].
    apply (yields_trans [] _ [] _ p (set_ackflag true p)); [by apply yields_same|done].
Qed.

(** A data message with a damaged payload, and the reply timer. *)
Lemma receiver_damaged r m p : receiver r p → is_data m = true → Message.resp m = 0 →
  receiver r (receive_error R_CRC (Some (Message.set_payload [] false m)) p) ∧
  yields [make_nak (seqno r) R_CRC] [] p (receive_error R_CRC (Some (Message.set_payload [] false m)) p).
Proof.
  intros Hr Hd Hm. unfold receive_error. rewrite bool_decide_eq_true_2 by apply Hr. cbn [negb].
  set (p1 := match nak_counter R_CRC with Some (true, bit) => _ | _ => p end).
  assert (receiver r p1) as Hr1 by (by apply (receiver_view _ p)).
  set (m' := Message.set_payload [] false m). set (p2 := if sets_resp m' then (process_ack m' p1).2 else p1).
  assert (receiver r p2 ∧ yields [] [] p p2) as [Hr2 Hy2].
  { unfold p2. destruct (sets_resp m'); [|by split; [|apply yields_same]].
    destruct (receiver_process_ack r m' p1 Hr1 Hm) as (p' & -> & K1 & K2 & _). split; [done|].
    by apply (yields_trans [] [] [] [] p p1); [apply yields_same|]. }
  rewrite (rv_r _ _ Hr2). pose proof (sends_msg (make_nak (seqno r) R_CRC) f0 p2) as Hs.
  split; [eapply receiver_view; [apply Hs|done]|]. by apply (yields_trans [] _ [] _ p p2); [|apply sends_yields].
Qed.
Lemma receiver_timeout r p : receiver r p → receiver r (timeout p) ∧ yields [make_rep 0] [] p (timeout p).
Proof.
  intros Hr. unfold timeout. rewrite (rv_state _ _ Hr). cbv zeta. change (n_ (set_counters _ p)) with (n_ p). rewrite (rv_n _ _ Hr).
  set (p1 := set_counters _ p). pose proof (sends_timed (make_rep 0) p1) as Hs.
  split; [eapply receiver_view; [apply Hs|]; by apply (receiver_view _ p)|].
  apply (yields_trans [] _ [] _ p p1); [by apply yields_same|by apply sends_yields].
Qed.
