(* ===== verification/DdcmpSystem.v ===== *)
(** Two DDCMP engines on a line: what arrives is what was sent, whatever the
    line loses or damages; a link that makes no progress cannot be blamed on
    the loss of any message; how a link comes up; and what goes wrong when data
    flows both ways. *)

From stdpp Require Import gmap.
From S2P Require Import Prelude Float Crc DdcmpPackets Ddcmp DdcmpDelivery.
Import Message (is_data, sets_resp).
#[local] Open Scope Z_scope.

(** ** The line

    Each direction keeps the order of its messages; any of them may be lost,
    and the payload of a data message may arrive damaged. *)
Record link := mkLink {
  engA : protocol; engB : protocol;
  ab : list Message.t; ba : list Message.t;
  givenA : list Bytes; givenB : list Bytes;
  gotA : list Bytes; gotB : list Bytes;
}.
Inductive levent :=
| GiveA (d : Bytes) | GiveB (d : Bytes) | TimeA | TimeB | ConnectA | ConnectB
| ToA | ToB | LoseAB (i : nat) | LoseBA (i : nat) | DamageAB | DamageBA.

(** An engine runs, and its outputs go where they go. *)
Definition runA (f : protocol → protocol) (l : link) : link :=
  let p := f (set_outs [] (engA l)) in
  mkLink p (engB l) (ab l ++ wires (outs p)) (ba l) (givenA l) (givenB l) (gotA l ++ handed (outs p)) (gotB l).
Definition runB (f : protocol → protocol) (l : link) : link :=
  let p := f (set_outs [] (engB l)) in
  mkLink (engA l) p (ab l) (ba l ++ wires (outs p)) (givenA l) (givenB l) (gotA l) (gotB l ++ handed (outs p)).
Definition set_ab (c : list Message.t) (l : link) : link :=
  mkLink (engA l) (engB l) c (ba l) (givenA l) (givenB l) (gotA l) (gotB l).
Definition set_ba (c : list Message.t) (l : link) : link :=
  mkLink (engA l) (engB l) (ab l) c (givenA l) (givenB l) (gotA l) (gotB l).
Definition giving (p : protocol) (d : Bytes) (given : list Bytes) : list Bytes :=
  if decide (state p = Running) then given ++ [d] else given.

(** [Ddcmp::running] on a message whose payload check fails. *)
Definition damaged (m : Message.t) (p : protocol) : protocol :=
  if is_data m then receive_error R_CRC (Some (Message.set_payload [] false m)) p else p.

Definition lstep (l : link) (e : levent) : link :=
  match e with
  | GiveA d => runA (send d) (mkLink (engA l) (engB l) (ab l) (ba l) (giving (engA l) d (givenA l)) (givenB l) (gotA l) (gotB l))
  | GiveB d => runB (send d) (mkLink (engA l) (engB l) (ab l) (ba l) (givenA l) (giving (engB l) d (givenB l)) (gotA l) (gotB l))
  | TimeA => runA timeout l
  | TimeB => runB timeout l
  | ConnectA => runA connected l
  | ConnectB => runB connected l
  | ToB => match ab l with [] => l | m :: rest => runB (receive m) (set_ab rest l) end
  | ToA => match ba l with [] => l | m :: rest => runA (receive m) (set_ba rest l) end
  | LoseAB i => set_ab (delete i (ab l)) l
  | LoseBA i => set_ba (delete i (ba l)) l
  | DamageAB => match ab l with [] => l | m :: rest => runB (damaged m) (set_ab rest l) end
  | DamageBA => match ba l with [] => l | m :: rest => runA (damaged m) (set_ba rest l) end
  end.
Definition lrun : link → list levent → link := foldl lstep.

(** ** What is on the line *)

Section Line.
Context (q : nat) (Hq : (1 ≤ q ≤ 255)%nat).

(** From the sender: data messages, none so old that its number could be taken
    for the next one; [h] is the highest the receiver can be at by then. *)
Inductive ab_ok (given : list Bytes) (n : nat) : nat → list Message.t → Prop :=
| ab_nil h : ab_ok given n h []
| ab_data h k l : (1 ≤ k ≤ n)%nat → (h < k + q)%nat → ab_ok given n (Nat.max h k) l →
    ab_ok given n h (data_msg given k :: l)
| ab_other h m l : harmless m → ab_ok given n h l → ab_ok given n h (m :: l).

(** From the receiver: its replies never go back. *)
Inductive ba_ok (r : nat) : nat → list Message.t → Prop :=
| ba_nil lo : ba_ok r lo []
| ba_reply lo k m l : reply k m → (lo ≤ k ≤ r)%nat → ba_ok r k l → ba_ok r lo (m :: l)
| ba_other lo m l : (Message.kind m = Rep ∧ Message.num m = 0) ∨ Message.kind m = Stack → ba_ok r lo l → ba_ok r lo (m :: l).

Lemma ab_lower given n h h' l : (h' ≤ h)%nat → ab_ok given n h l → ab_ok given n h' l.
Proof.
  intros Hh H. revert h' Hh. induction H as [h|h k l Hk Hlt H IH|h m l Hm H IH]; intros h' Hh.
  - constructor.
  - constructor; [done|lia|]. apply IH. lia.
  - constructor; [done|]. by apply IH.
Qed.
Lemma ab_delete given n h i l : ab_ok given n h l → ab_ok given n h (delete i l).
Proof.
  intros H. revert i. induction H as [h|h k l Hk Hlt H IH|h m l Hm H IH]; intros [|i]; simpl.
  - constructor.
  - constructor.
  - eapply ab_lower; [|done]. lia.
  - by constructor.
  - done.
  - by constructor.
Qed.
Lemma ab_append given n n' h l l' :
  ab_ok given n h l → (h ≤ n ≤ n')%nat → ab_ok given n' n l' → ab_ok given n' h (l ++ l').
Proof.
  intros H Hn Hl'. induction H as [h|h k l Hk Hlt H IH|h m l Hm H IH]; simpl.
  - eapply ab_lower; [|done]. lia.
  - constructor; [lia|done|]. apply IH. lia.
  - constructor; [done|]. by apply IH.
Qed.
Lemma ab_block given n h s c : (h ≤ s + q)%nat → (s + c ≤ n)%nat → ab_ok given n h (map (data_msg given) (seq (S s) c)).
Proof.
  revert h s. induction c as [|c IH]; intros h s Hh Hc; simpl; constructor; [lia|lia|]. apply IH; lia.
Qed.
Lemma ab_more given d n h l : (n ≤ length given)%nat → ab_ok given n h l → ab_ok (given ++ [d]) n h l.
Proof.
  intros Hn. induction 1 as [h|h k l Hk Hlt H IH|h m l Hm H IH]; [constructor| |by constructor].
  rewrite <-(data_msg_more q Hq given d k) by lia. by constructor.
Qed.
Lemma ab_grow given n n' h l : (n ≤ n')%nat → ab_ok given n h l → ab_ok given n' h l.
Proof. intros Hn. induction 1; constructor; (done || lia). Qed.

Lemma ba_lower r lo lo' l : (lo' ≤ lo)%nat → ba_ok r lo l → ba_ok r lo' l.
Proof.
  intros Hlo H. revert lo' Hlo. induction H as [lo|lo k m l Hm Hk H IH|lo m l Hm H IH]; intros lo' Hlo.
  - constructor.
  - econstructor; [done|lia|done].
  - constructor; [done|]. by apply IH.
Qed.
Lemma ba_delete r lo i l : ba_ok r lo l → ba_ok r lo (delete i l).
Proof.
  intros H. revert i. induction H as [lo|lo k m l Hm Hk H IH|lo m l Hm H IH]; intros [|i]; simpl.
  - constructor.
  - constructor.
  - eapply ba_lower; [|done]. lia.
  - by econstructor.
  - done.
  - by constructor.
Qed.
Lemma ba_append r r' lo l l' : ba_ok r lo l → (lo ≤ r ≤ r')%nat → ba_ok r' r l' → ba_ok r' lo (l ++ l').
Proof.
  intros H Hr Hl'. induction H as [lo|lo k m l Hm Hk H IH|lo m l Hm H IH]; simpl.
  - eapply ba_lower; [|done]. lia.
  - econstructor; [done|lia|]. apply IH. lia.
  - constructor; [done|]. by apply IH.
Qed.
Lemma ba_replies r ms : Forall (reply r) ms → ba_ok r r ms.
Proof. induction 1 as [|m ms Hm _ IH]; econstructor; eauto. Qed.

(** ** The invariant *)

Record flowing (a n r : nat) (l : link) : Prop := {
  fl_sender : sender q (givenA l) a n (engA l);
  fl_idle : ackflag (engA l) = false;
  fl_receiver : receiver r (engB l);
  fl_order : (a ≤ r ≤ n)%nat;
  fl_got : gotB l = take r (givenA l);
  fl_none : gotA l = [];
  fl_ab : ab_ok (givenA l) n r (ab l);
  fl_ba : ba_ok r a (ba l);
}.

Lemma flowingA f l (a n r a' n' : nat) ms :
  let p0 := set_outs [] (engA l) in
  receiver r (engB l) → gotB l = take r (givenA l) → gotA l = [] →
  ab_ok (givenA l) n r (ab l) → ba_ok r a' (ba l) → (a' ≤ r ≤ n)%nat → (n ≤ n')%nat →
  sender q (givenA l) a' n' (f p0) ∧ emits ms p0 (f p0) → ackflag (engA l) = false → ab_ok (givenA l) n' n ms →
  flowing a' n' r (runA f l) ∧ ab (runA f l) = ab l ++ ms.
Proof.
  intros p0 Hr Hg Hn Hab Hba Ha Hnn [Hs (W & D & F)] Hf Hms. change (outs p0) with (@nil poutput) in *. simpl in W, D.
  unfold runA. fold p0. rewrite W, D. split; [|done].
  constructor; cbn [engA engB ab ba givenA gotA gotB]; try done.
  - by rewrite F.
  - lia.
  - by rewrite Hn.
  - eapply ab_append; [done|lia|done].
Qed.

Lemma flowingB f l (a n r r' : nat) ms ds :
  let p0 := set_outs [] (engB l) in
  sender q (givenA l) a n (engA l) → ackflag (engA l) = false → gotB l = take r (givenA l) → gotA l = [] →
  ab_ok (givenA l) n r' (ab l) → ba_ok r a (ba l) → (a ≤ r ≤ r')%nat → (r' ≤ n)%nat →
  receiver r' (f p0) → yields ms ds p0 (f p0) → take r (givenA l) ++ ds = take r' (givenA l) → ba_ok r' r ms →
  flowing a n r' (runB f l) ∧ ba (runB f l) = ba l ++ ms.
Proof.
  intros p0 Hs Hf Hg Hn Hab Hba Ha Hrn Hr [W D] Ht Hms. change (outs p0) with (@nil poutput) in *. simpl in W, D.
  unfold runB. fold p0. rewrite W, D. split; [|done].
  constructor; cbn [engA engB ab ba givenA gotA gotB]; try done.
  - lia.
  - by rewrite Hg.
  - eapply ba_append; [done|lia|done].
Qed.

Lemma sender_p0 given a n p : sender q given a n p → sender q given a n (set_outs [] p).
Proof. by apply sender_view. Qed.
Lemma receiver_p0 r p : receiver r p → receiver r (set_outs [] p).
Proof. by apply receiver_view. Qed.

Lemma next_number (a n k len' : nat) : (n - a ≤ q)%nat → (a ≤ k ≤ n)%nat → (n ≤ len')%nat →
  (n ≤ Nat.max n (Nat.min len' (k + q)) ≤ k + q)%nat.
Proof. lia. Qed.

(** A message from the receiver arrives. *)
Lemma flowing_to_A a n r l : flowing a n r l → ∃ a' n', flowing a' n' r (lstep l ToA) ∧ (a ≤ a')%nat ∧ (n ≤ n')%nat.
Proof.
  intros [Fs Ff Fr Fo Fg Fn Fab Fba]. cbn [lstep]. destruct (ba l) as [|m rest] eqn:E.
  { exists a, n. split; [constructor; rewrite ?E; done|lia]. }
  pose proof (sender_p0 _ _ _ _ Fs) as Hs. pose proof (sd_le _ _ _ _ _ Fs). pose proof (sd_window _ _ _ _ _ Fs).
  set (l' := set_ba rest l).
  inversion Fba as [|? k ? ? [Hk Hr] Hlo Hrest|? ? ? Hm Hrest]; subst.
  - pose proof (next_number a n k (length (givenA l)) ltac:(done) ltac:(lia) ltac:(lia)).
    set (n' := Nat.max n (Nat.min (length (givenA l)) (k + q))) in *. destruct Hk as [Hk|Hk].
    + pose proof (sender_receives_ack q Hq (givenA l) a n k m _ Hs Ff Hk Hr ltac:(lia)) as Hact. fold n' in Hact.
      exists k, n'. split; [|lia]. eapply (flowingA (receive m) l' a n); try done; [lia..|].
      apply ab_block; lia.
    + pose proof (sender_receives_nak q Hq (givenA l) a n k m _ Hs Ff Hk Hr ltac:(lia)) as Hact. fold n' in Hact.
      exists k, n'. split; [|lia]. eapply (flowingA (receive m) l' a n); try done; [lia..|].
      apply ab_block; lia.
  - pose proof (sender_receives_other q (givenA l) a n m _ Hs Ff Hm) as Hact.
    exists a, n. split; [|lia]. eapply (flowingA (receive m) l' a n); try done.
    constructor; [by right; left|constructor].
Qed.

Lemma reply_nak r reason : reply r (make_nak (seqno r) reason).
Proof. split; [by right|done]. Qed.

(** A message from the sender arrives: the next one expected moves the receiver on. *)
Lemma flowing_to_B a n r l m rest : flowing a n r l → ab l = m :: rest →
  ∃ r', flowing a n r' (lstep l ToB) ∧ (r ≤ r')%nat ∧ ab (lstep l ToB) = rest ∧
    (m = data_msg (givenA l) (S r) → r' = S r).
Proof.
  intros [Fs Ff Fr Fo Fg Fn Fab Fba] E. cbn [lstep]. rewrite E in Fab |- *.
  pose proof (receiver_p0 _ _ Fr) as Hr. pose proof (sd_le _ _ _ _ _ Fs). pose proof (sd_window _ _ _ _ _ Fs).
  set (l' := set_ab rest l).
  inversion Fab as [|? k ? Hk Hlt Hrest|? ? ? Hm Hrest]; subst.
  - destruct (receiver_data (givenA l) r k _ Hr ltac:(lia) ltac:(lia)) as [K1 K2]. case_decide as Ek.
    + subst k. rewrite Nat.max_r in Hrest by lia.
      destruct (flowingB (receive (data_msg (givenA l) (S r))) l' a n r (S r) [make_ack (seqno (S r))] [default [] (givenA l !! r)])
        as [Hf _]; try done; [lia|lia| | |].
      * destruct (lookup_lt_is_Some_2 (givenA l) r) as [x Hx]; [lia|]. change (givenA l') with (givenA l).
        by rewrite Hx, (take_S_r _ _ _ Hx).
      * apply (ba_reply _ _ (S r)); [split; [by left|done]|lia|constructor].
      * exists (S r). split; [done|]. split; [lia|done].
    + destruct (flowingB (receive (data_msg (givenA l) k)) l' a n r r [] []) as [Hf _]; try done; [eapply ab_lower; [|done]; lia|lia..| |constructor|].
      * apply app_nil_r.
      * exists r. split; [done|]. split; [lia|]. split; [done|]. intros Hd. exfalso. apply Ek.
        apply (f_equal Message.num) in Hd. simpl in Hd. destruct (Nat.le_ge_cases k (S r)).
        -- apply seqno_inj; [lia|lia|done].
        -- symmetry. apply seqno_inj; [lia|lia|done].
  - destruct (receiver_other r m _ Hr Hm) as (K1 & ms & K2 & K3 & _).
    destruct (flowingB (receive m) l' a n r r ms []) as [Hf _]; try done; [lia..|apply app_nil_r|by apply ba_replies|].
    exists r. split; [done|]. split; [lia|]. split; [done|]. intros ->. destruct Hm as [?|[[? ?]|?]]; discriminate.
Qed.

Lemma flowing_damage a n r l : flowing a n r l → flowing a n r (lstep l DamageAB).
Proof.
  intros HF. pose proof HF as [Fs Ff Fr Fo Fg Fn Fab Fba]. cbn [lstep]. destruct (ab l) as [|m rest] eqn:E; [done|].
  pose proof (receiver_p0 _ _ Fr) as Hr. set (l' := set_ab rest l).
  assert (ab_ok (givenA l) n r rest) as Hrest.
  { apply (ab_delete _ _ _ 0) in Fab. exact Fab. }
  destruct (is_data m) eqn:Ed.
  - assert (Message.resp m = 0) as Hm.
    { inversion Fab as [| |? ? ? [H|[[H _]|H]] _]; subst; [done|..]; unfold is_data in Ed; rewrite H in Ed; discriminate. }
    destruct (receiver_damaged r m _ Hr Ed Hm) as [K1 K2].
    destruct (flowingB (damaged m) l' a n r r [make_nak (seqno r) R_CRC] []) as [Hf _]; try done; [lia|lia|..].
    + unfold damaged. by rewrite Ed.
    + unfold damaged. by rewrite Ed.
    + apply app_nil_r.
    + apply ba_replies. apply Forall_singleton; apply reply_nak.
  - destruct (flowingB (damaged m) l' a n r r [] []) as [Hf _]; try done; [lia|lia|..].
    + unfold damaged. by rewrite Ed.
    + unfold damaged. rewrite Ed. by apply yields_same.
    + apply app_nil_r.
    + constructor.
Qed.

(** Nothing of the receiver's can be damaged: it sends no data. *)
Lemma flowing_damage_reply a n r l : flowing a n r l → flowing a n r (lstep l DamageBA).
Proof.
  intros HF. pose proof HF as [Fs Ff Fr Fo Fg Fn Fab Fba]. cbn [lstep]. destruct (ba l) as [|m rest] eqn:E; [done|].
  pose proof (sender_p0 _ _ _ _ Fs) as Hs. set (l' := set_ba rest l).
  assert (is_data m = false) as Ed.
  { inversion Fba as [|? ? ? ? [[H|H] _]|? ? ? [[H _]|H]]; subst; unfold is_data; by rewrite H. }
  assert (ba_ok r a rest) as Hrest by (apply (ba_delete _ _ 0) in Fba; exact Fba).
  destruct (flowingA (damaged m) l' a n r a n []) as [Hf _]; try done; [|constructor].
  unfold damaged. rewrite Ed. split; [done|by apply emits_nil].
Qed.

Lemma flowing_time_A a n r l : flowing a n r l →
  flowing a n r (lstep l TimeA) ∧ ab (lstep l TimeA) = ab l ++ [make_rep (seqno n)].
Proof.
  intros [Fs Ff Fr Fo Fg Fn Fab Fba]. cbn [lstep]. pose proof (sender_p0 _ _ _ _ Fs) as Hs.
  apply flowingA with (a := a) (n := n); try done.
  - by apply sender_timeout.
  - constructor; [by left|constructor].
Qed.

Lemma flowing_time_B a n r l : flowing a n r l → flowing a n r (lstep l TimeB).
Proof.
  intros [Fs Ff Fr Fo Fg Fn Fab Fba]. cbn [lstep]. pose proof (receiver_p0 _ _ Fr) as Hr.
  destruct (receiver_timeout r _ Hr) as [K1 K2].
  destruct (flowingB timeout l a n r r [make_rep 0] []) as [Hf _]; try done; [lia..|apply app_nil_r|].
  constructor; [by left|constructor].
Qed.

Lemma flowing_give a n r l d : flowing a n r l →
  ∃ n', flowing a n' r (lstep l (GiveA d)) ∧ (n ≤ n')%nat ∧ givenA (lstep l (GiveA d)) = givenA l ++ [d].
Proof.
  intros [Fs Ff Fr Fo Fg Fn Fab Fba]. cbn [lstep]. pose proof (sender_p0 _ _ _ _ Fs) as Hs.
  pose proof (sd_le _ _ _ _ _ Fs). pose proof (sd_window _ _ _ _ _ Fs).
  unfold giving. rewrite decide_True by apply Fs.
  pose proof (sender_sends q Hq (givenA l) a n _ d Hs Ff) as Hact. cbv zeta in Hact.
  pose proof (next_number a n a (length (givenA l ++ [d])) ltac:(lia) ltac:(lia) ltac:(rewrite length_app; lia)).
  set (n' := Nat.max n _) in *. exists n'. split; [|split; [lia|done]].
  eapply (flowingA (send d) (mkLink _ _ _ _ (givenA l ++ [d]) _ _ _) a n r a n'); try done; try lia.
  - cbn [gotB givenA]. by rewrite take_app_le by lia.
  - apply ab_more; [lia|done].
  - apply ab_block; lia.
Qed.

Lemma flowing_lose_ab a n r l i : flowing a n r l → flowing a n r (lstep l (LoseAB i)).
Proof. intros []. constructor; try done. by apply ab_delete. Qed.
Lemma flowing_lose_ba a n r l i : flowing a n r l → flowing a n r (lstep l (LoseBA i)).
Proof. intros []. constructor; try done. by apply ba_delete. Qed.

(** Data one way: everything but data from the other end, and no restart. *)
Definition one_way (e : levent) : Prop :=
  match e with GiveB _ | ConnectA | ConnectB => False | _ => True end.

Lemma flowing_step a n r l e : flowing a n r l → one_way e → ∃ a' n' r', flowing a' n' r' (lstep l e).
Proof.
  intros HF He. destruct e; try done.
  - destruct (flowing_give a n r l d HF) as (n' & ? & _). eauto.
  - exists a, n, r. by apply flowing_time_A.
  - exists a, n, r. by apply flowing_time_B.
  - destruct (flowing_to_A a n r l HF) as (a' & n' & ? & _). eauto.
  - destruct (ab l) as [|m rest] eqn:E.
    + exists a, n, r. cbn [lstep]. by rewrite E.
    + destruct (flowing_to_B a n r l m rest HF E) as (r' & ? & _). eauto.
  - exists a, n, r. by apply flowing_lose_ab.
  - exists a, n, r. by apply flowing_lose_ba.
  - exists a, n, r. by apply flowing_damage.
  - exists a, n, r. by apply flowing_damage_reply.
Qed.

Lemma flowing_run a n r l es : flowing a n r l → Forall one_way es → ∃ a' n' r', flowing a' n' r' (lrun l es).
Proof.
  intros HF Hes. revert a n r l HF. induction Hes as [|e es He _ IH]; intros a n r l HF; [eauto|].
  destruct (flowing_step a n r l e HF He) as (a' & n' & r' & HF'). apply (IH _ _ _ _ HF').
Qed.

(** ** Recovery *)

(** The reply request arrives on a line with nothing else on it. *)
Lemma flowing_rep a n r l : flowing a n r l → ab l = [make_rep (seqno n)] → ba l = [] →
  flowing a n r (lstep l ToB) ∧ ab (lstep l ToB) = [] ∧ givenA (lstep l ToB) = givenA l ∧
  ba (lstep l ToB) = [if decide (n = r) then make_ack (seqno r) else make_nak (seqno r) R_REP].
Proof.
  intros [Fs Ff Fr Fo Fg Fn Fab Fba] Ea Eb. cbn [lstep]. rewrite Ea. pose proof (receiver_p0 _ _ Fr) as Hr.
  pose proof (sd_le _ _ _ _ _ Fs). pose proof (sd_window _ _ _ _ _ Fs).
  destruct (receiver_other r (make_rep (seqno n)) _ Hr ltac:(by left)) as (K1 & ms & K2 & K3 & K4). specialize (K4 eq_refl).
  destruct (flowingB (receive (make_rep (seqno n))) (set_ab [] l) a n r r ms []) as [Hf Hba]; try done;
    [constructor|lia|lia|apply app_nil_r|by apply ba_replies|].
  split; [done|]. split; [done|]. split; [done|]. rewrite Hba. cbn [ba set_ab]. rewrite Eb, K4. cbn [Message.num make_rep app].
  case_decide as E.
  - subst n. by rewrite Z.eqb_refl.
  - assert ((seqno n =? seqno r) = false) as ->; [|done]. apply Z.eqb_neq. intros E'. apply E. symmetry. apply seqno_inj; [lia|lia|done].
Qed.

(** The reply arrives: what the receiver has not got is sent again. *)
Lemma flowing_answer a n r l : flowing a n r l → ab l = [] →
  ba l = [if decide (n = r) then make_ack (seqno r) else make_nak (seqno r) R_REP] →
  let n' := Nat.max n (Nat.min (length (givenA l)) (r + q)) in
  flowing r n' r (lstep l ToA) ∧ ab (lstep l ToA) = data_msgs (givenA l) r n' ∧ givenA (lstep l ToA) = givenA l.
Proof.
  intros [Fs Ff Fr Fo Fg Fn Fab Fba] Ea Eb n'. cbn [lstep]. rewrite Eb. set (m := if decide (n = r) then _ else _).
  pose proof (sender_p0 _ _ _ _ Fs) as Hs. pose proof (sd_le _ _ _ _ _ Fs). pose proof (sd_window _ _ _ _ _ Fs).
  pose proof (next_number a n r (length (givenA l)) ltac:(done) ltac:(lia) ltac:(lia)). fold n' in H1.
  assert (sender q (givenA l) r n' (receive m (set_outs [] (engA l))) ∧
    emits (data_msgs (givenA l) r n') (set_outs [] (engA l)) (receive m (set_outs [] (engA l)))) as Hact.
  { unfold m. case_decide as E.
    - pose proof (sender_receives_ack q Hq (givenA l) a n r (make_ack (seqno r)) _ Hs Ff eq_refl eq_refl ltac:(lia)) as K.
      fold n' in K. assert (data_msgs (givenA l) r n' = data_msgs (givenA l) n n') as -> by (by rewrite E). exact K.
    - by apply (sender_receives_nak q Hq (givenA l) a n r (make_nak (seqno r) R_REP) _ Hs Ff eq_refl eq_refl). }
  destruct (flowingA (receive m) (set_ba [] l) a n r r n' (data_msgs (givenA l) r n')) as [Hf Hab]; try done;
    [constructor|lia|lia|apply ab_block; lia|].
  split; [done|]. split; [|done]. rewrite Hab. cbn [ab set_ba]. by rewrite Ea.
Qed.

(** A block of data arrives whole. *)
Lemma flowing_block a n c j r l : flowing a n r l → (r + c = n)%nat → (c ≤ j)%nat →
  ab l = map (data_msg (givenA l)) (seq (S r) c) →
  ∃ l', lrun l (replicate j ToB) = l' ∧ flowing a n n l' ∧ givenA l' = givenA l ∧ ab l' = [].
Proof.
  revert j r l. induction c as [|c IH]; intros j r l HF Hc Hj Hab.
  - replace r with n in HF by lia. exists l. split; [|done]. clear -Hab. induction j as [|j IHj]; [done|].
    cbn [replicate]. unfold lrun in *. cbn [foldl lstep]. rewrite Hab. exact IHj.
  - destruct j as [|j]; [lia|]. cbn [seq map] in Hab.
    destruct (flowing_to_B a n r l _ _ HF Hab) as (r' & HF' & _ & Hab' & Hr'). rewrite (Hr' eq_refl) in HF'.
    assert (givenA (lstep l ToB) = givenA l) as Eg by (cbn [lstep]; by rewrite Hab).
    destruct (IH j (S r) (lstep l ToB) HF') as (l' & E1 & E2 & E3 & E4); [lia|lia|by rewrite Eg|].
    exists l'. split; [exact E1|]. split; [done|]. split; [by rewrite E3|done].
Qed.

(** One exchange on a line that has lost everything. *)
Definition clear_line (l : link) : link := set_ab [] (set_ba [] l).
Definition exchange : list levent := [TimeA; ToB; ToA] ++ replicate q ToB.

Lemma flowing_exchange a n r l : flowing a n r l →
  let n' := Nat.min (length (givenA l)) (r + q) in
  ∃ a', flowing a' n' n' (lrun (clear_line l) exchange) ∧ givenA (lrun (clear_line l) exchange) = givenA l.
Proof.
  intros HF n'. pose proof HF as [Fs Ff Fr Fo Fg Fn Fab Fba].
  assert (flowing a n r (clear_line l)) as H0 by (constructor; try done; constructor).
  destruct (flowing_time_A a n r _ H0) as [H1 A1].
  assert (ba (lstep (clear_line l) TimeA) = []) as B1 by done. set (l1 := lstep (clear_line l) TimeA) in *.
  destruct (flowing_rep a n r l1 H1 A1 B1) as (H2 & A2 & G2 & B2). set (l2 := lstep l1 ToB) in *.
  destruct (flowing_answer a n r l2 H2 A2 B2) as (H3 & A3 & G3). set (l3 := lstep l2 ToA) in *.
  assert (givenA l2 = givenA l) as G2' by (by rewrite G2).
  pose proof (sd_le _ _ _ _ _ Fs). pose proof (sd_window _ _ _ _ _ Fs).
  rewrite G2' in *. assert (Nat.max n (Nat.min (length (givenA l)) (r + q)) = n') as En by (unfold n'; lia).
  rewrite En in *. destruct (flowing_block r n' (n' - r) q r l3 H3) as (l4 & E4 & F4 & G4 & A4); [unfold n'; lia|unfold n'; lia|by rewrite A3, G3|].
  exists r. unfold exchange, lrun. rewrite foldl_app. cbn [foldl]. fold l1 l2 l3. fold (lrun l3 (replicate q ToB)). rewrite E4.
  split; [done|congruence].
Qed.
End Line.

(** ** A link that has come up *)

Record fresh_engine (q : nat) (p : protocol) : Prop := {
  fe_state : state p = Running;
  fe_qmax : qmax p = Z.of_nat q;
  fe_r : r_ p = 0;
  fe_a : a_ p = 0;
  fe_n : n_ p = 0;
  fe_ackflag : ackflag p = false;
  fe_notsent : notsent p = [];
}.
(** What startup may leave on the line. *)
Definition leftover (m : Message.t) : Prop :=
  Message.kind m = Stack ∨ (Message.kind m = Rep ∧ Message.num m = 0) ∨ (Message.kind m = Ack ∧ Message.resp m = 0).
Record fresh_link (q : nat) (l : link) : Prop := {
  fk_A : fresh_engine q (engA l);
  fk_B : fresh_engine q (engB l);
  fk_ab : Forall leftover (ab l);
  fk_ba : Forall leftover (ba l);
  fk_logs : givenA l = [] ∧ gotA l = [] ∧ gotB l = [];
}.

Lemma fresh_flowing q l : fresh_link q l → flowing q 0 0 0 l.
Proof.
  intros [[] [] Hab Hba (E1 & E2 & E3)]. constructor; try done.
  - rewrite E1. constructor; try done; simpl; lia.
  - induction Hab as [|m c Hm _ IH]; [constructor|]. apply ab_other; [|done].
    destruct Hm as [?|[[? ?]|?]]; [by right; right|by left|by right; left].
  - induction Hba as [|m c Hm _ IH]; [constructor|]. destruct Hm as [?|[?|[? ?]]].
    + apply ba_other; [by right|done].
    + apply ba_other; [by left|done].
    + apply (ba_reply _ _ 0); [split; [by left|done]|lia|done].
Qed.

(** C7: Go back N. On a link that has come up, with data going one way: after
    any sequence of messages given to send, arrivals, losses anywhere on the
    line, damaged payloads and timer expiries at both ends, what has been handed
    up at the far end is a prefix of what was given, each message once and in
    order; no more than the window is unacknowledged, and both ends are still
    running. *)
Theorem ddcmp_in_order q l es :
  (1 ≤ q ≤ 255)%nat → fresh_link q l → Forall one_way es →
  let l' := lrun l es in
  gotB l' `prefix_of` givenA l' ∧ gotA l' = [] ∧
  Seq.distance (a_ (engA l')) (n_ (engA l')) ≤ Z.of_nat q ∧
  state (engA l') = Running ∧ state (engB l') = Running.
Proof.
  intros Hq Hl Hes l'. destruct (flowing_run q Hq 0 0 0 l es (fresh_flowing q l Hl) Hes) as (a & n & r & HF).
  fold l' in HF. destruct HF as [Fs Ff Fr Fo Fg Fn Fab Fba]. split_and!; [rewrite Fg; apply prefix_take|done| |apply Fs|apply Fr].
  pose proof (sd_le _ _ _ _ _ Fs). pose proof (sd_window _ _ _ _ _ Fs).
  rewrite (sd_a _ _ _ _ _ Fs), (sd_n _ _ _ _ _ Fs), seqno_distance by lia. lia.
Qed.

(** [k] exchanges, each after losing everything that was on the line. *)
Definition exchanges (q k : nat) (l : link) : link := Nat.iter k (λ l, lrun (clear_line l) (exchange q)) l.

(** C8: It recovers. From whatever state such a run has reached, even when the
    line loses everything there is on it: once the reply timer expires and the
    reply request, its answer and one window of data get through, the far end
    has a full window more, or all there is; so a bounded number of such
    exchanges, with everything else lost, hands up everything that was given. *)
Theorem ddcmp_recovers q l es k :
  (1 ≤ q ≤ 255)%nat → fresh_link q l → Forall one_way es →
  let l' := lrun l es in
  givenA (exchanges q k l') = givenA l' ∧
  length (gotB (exchanges q k l')) = Nat.min (length (givenA l')) (length (gotB l') + k * q) ∧
  ((length (givenA l') ≤ k * q)%nat → gotB (exchanges q k l') = givenA l').
Proof.
  intros Hq Hl Hes l'. destruct (flowing_run q Hq 0 0 0 l es (fresh_flowing q l Hl) Hes) as (a & n & r & HF).
  fold l' in HF. assert (length (gotB l') = r ∧ (r ≤ length (givenA l'))%nat) as [Er Hr].
  { destruct HF as [Fs _ _ Fo -> _ _ _]. pose proof (sd_le _ _ _ _ _ Fs). rewrite length_take. lia. }
  assert (∃ a' n', flowing q a' n' (Nat.min (length (givenA l')) (r + k * q)) (exchanges q k l') ∧
    givenA (exchanges q k l') = givenA l') as (a' & n' & HF' & Eg).
  { induction k as [|k IH]; [exists a, n; split; [|done]; simpl; by replace (Nat.min _ _) with r by lia|].
    destruct IH as (a' & n' & HF' & Eg). simpl. fold (exchanges q k l').
    destruct (flowing_exchange q Hq a' n' _ (exchanges q k l') HF') as (a2 & HF2 & Eg2). rewrite Eg in HF2, Eg2.
    eexists a2, _. split; [|exact Eg2].
    replace (Nat.min (length (givenA l')) (r + (q + k * q))) with
      (Nat.min (length (givenA l')) (Nat.min (length (givenA l')) (r + k * q) + q)) by lia. exact HF2. }
  destruct HF' as [_ _ _ _ Fg _ _ _]. rewrite Eg in Fg. split; [done|]. rewrite Fg, Er. split.
  - rewrite length_take. lia.
  - intros Hk. apply take_ge. lia.
Qed.

(** ** Coming up *)

(** What every engine is like while it starts. *)
Definition starting (p : protocol) : Prop :=
  state p = Istart ∨ state p = Astart → r_ p = 0 ∧ a_ p = 0 ∧ n_ p = 0 ∧ ackflag p = false ∧ notsent p = [].

(** What can happen to an engine. *)
Inductive pevent :=
| EConnected | EHalt | ERestart | ETimeout
| EReceive (m : Message.t) | EError (reason : Z) (partial : option Message.t)
| ESend (d : Bytes) | EMaintenance (d : Bytes).
Definition pstep (p : protocol) (e : pevent) : protocol :=
  match e with
  | EConnected => connected p
  | EHalt => halt p
  | ERestart => restart p
  | ETimeout => timeout p
  | EReceive m => receive m p
  | EError r m => receive_error r m p
  | ESend d => send d p
  | EMaintenance d => send_maintenance d p
  end.
Definition engine_run : protocol → list pevent → protocol := foldl pstep.

(** The two members that only starting over changes. *)
Definition fixed (p : protocol) := (state p, qmax p).
Lemma fixed_view p p' : view p' = view p → fixed p' = fixed p.
Proof. unfold view, fixed. intros [= -> -> _ _ _ _ _ _]. done. Qed.
Lemma fixed_msg m t p : fixed (send_msg m t p) = fixed p.
Proof. apply fixed_view, sends_msg. Qed.
Lemma fixed_timed m p : fixed (send_timed m p) = fixed p.
Proof. apply fixed_view, sends_timed. Qed.
Lemma fixed_loop qo queue p : fixed (send_loop qo queue p) = fixed p.
Proof.
  revert p. induction queue as [|d queue IH]; intros p; simpl; [done|]. destruct (negb _); [done|].
  rewrite IH. destruct qo; [done|]. by rewrite fixed_timed.
Qed.
Lemma fixed_advance n p : fixed (advance n p) = fixed p.
Proof. revert p. induction n as [|n IH]; intros p; simpl; [done|]. by rewrite IH. Qed.
Lemma fixed_process_ack m p : fixed (process_ack m p).2 = fixed p.
Proof.
  unfold process_ack. cbv zeta. destruct (_ <? _); [done|]. cbn [snd]. unfold send_queued. rewrite fixed_loop.
  rewrite <-(fixed_advance (Z.to_nat (Seq.distance (a_ p) (Message.resp m))) p). destruct (negb _); [|done].
  by destruct (Backoff.next _).
Qed.
Lemma fixed_flush p : fixed (flush_ack p) = fixed p.
Proof. unfold flush_ack. destruct (negb _); [done|]. by rewrite fixed_msg. Qed.
Lemma fixed_resend n t p : fixed (resend n t p) = fixed p.
Proof.
  revert t p. induction n as [|n IH]; intros t p; simpl; [done|]. rewrite IH.
  destruct (unack p !! _); [apply fixed_timed|done].
Qed.
Lemma fixed_nak r p : fixed (count_nak r p) = fixed p.
Proof. unfold count_nak. by destruct (nak_counter r) as [[[] ?]|]. Qed.

(** An engine in state [s] with nothing done yet. *)
Definition zero (q : nat) (s : pstate) (p : protocol) : Prop := ∃ u,
  view p = (s, Z.of_nat q, 0, 0, 0, false, u, []).
Lemma zero_view q s p p' : view p' = view p → zero q s p → zero q s p'.
Proof. intros E [u H]. exists u. by rewrite E. Qed.
Lemma zero_fresh q p : zero q Running p → fresh_engine q p.
Proof. intros [u H]. unfold view in H. injection H as E1 E2 E3 E4 E5 E6 E7 E8. constructor; done. Qed.

Lemma sends_start m p : sends [m] p (send_start m p).
Proof. unfold send_start. destruct (Backoff.next (stacktmr p)) as [t b]. apply (sends_msg m t (set_stacktmr b p)). Qed.

Lemma connected_zero q p : qmax p = Z.of_nat q → zero q Istart (connected p) ∧ yields [make_start] [] p (connected p).
Proof.
  intros Hq. unfold connected. cbv zeta. set (p1 := set_stacktmr _ _). pose proof (sends_start make_start p1) as Hs.
  assert (yields [] [] p p1) as Hy by (split; simpl; by rewrite ?wires_app, ?handed_app, !app_nil_r).
  split.
  - exists ∅. destruct Hs as (Hv & _). unfold view in *. injection Hv as E1 E2 E3 E4 E5 E6 E7 E8.
    cbn [state qmax r_ a_ n_ ackflag unack notsent set_state]. rewrite E2, E3, E4, E5, E6, E7, E8. cbn. by rewrite Hq.
  - apply (yields_trans [] _ [] [] p p1); [done|]. destruct (sends_yields _ _ _ Hs) as [K1 K2]. by split.
Qed.

Lemma start_zero q s p : zero q s p → s = Istart ∨ s = Astart →
  zero q Astart (receive make_start p) ∧ yields [make_stack] [] p (receive make_start p).
Proof.
  intros Hz Hs. assert (state p = s) as Es by (destruct Hz as [u H]; unfold view in H; congruence).
  assert (∀ p1, view p1 = view p → outs p1 = outs p → zero q s (send_start make_stack p1) ∧ yields [make_stack] [] p (send_start make_stack p1)) as H.
  { intros p1 Ev Eo. pose proof (sends_start make_stack p1) as K. split; [by eapply zero_view; [apply K|]; eapply zero_view|].
    apply (yields_trans [] _ [] _ p p1); [by apply yields_same|by apply sends_yields]. }
  unfold receive. rewrite Es. cbn [Message.kind make_start control]. destruct Hs as [->| ->]; [|by apply H].
  destruct (H (set_stacktmr (Backoff.reset (stacktmr p)) p) eq_refl eq_refl) as [[u K1] K2]. split; [|done].
  exists u. unfold view in *. injection K1 as E1 E2 E3 E4 E5 E6 E7 E8.
  cbn [state qmax r_ a_ n_ ackflag unack notsent set_state]. congruence.
Qed.

Lemma enter_running_zero q s ack p : zero q s p →
  zero q Running (enter_running ack p) ∧ yields (if ack then [make_ack 0] else []) [] p (enter_running ack p).
Proof.
  intros [u Hz]. unfold view in Hz. injection Hz as E1 E2 E3 E4 E5 E6 E7 E8. unfold enter_running. cbv zeta.
  set (p1 := out ReportUp _). assert (zero q Running p1) as Hz1 by (exists u; unfold view; cbn; congruence).
  assert (yields [] [] p p1) as Hy by (split; simpl; by rewrite ?wires_app, ?handed_app, !app_nil_r).
  change (r_ p1) with (r_ p). rewrite E3. destruct ack; [|done]. pose proof (sends_msg (make_ack 0) f0 p1) as Hs.
  split; [by eapply zero_view; [apply Hs|]|]. apply (yields_trans [] _ [] _ p p1); [done|by apply sends_yields].
Qed.

Lemma stack_zero q s p : zero q s p → s = Istart ∨ s = Astart →
  zero q Running (receive make_stack p) ∧ yields [make_ack 0] [] p (receive make_stack p).
Proof.
  intros Hz Hs. assert (state p = s) as Es by (destruct Hz as [u H]; unfold view in H; congruence).
  unfold receive. rewrite Es. cbn [Message.kind make_stack control].
  destruct Hs as [->| ->]; by apply (enter_running_zero q _ true p Hz).
Qed.

(** The acknowledgement that ends the handshake, in either of its states. *)
Lemma ack_zero q s p : zero q s p → s = Astart ∨ s = Running →
  zero q Running (receive (make_ack 0) p) ∧ yields [] [] p (receive (make_ack 0) p).
Proof.
  intros Hz Hs. assert (state p = s) as Es by (destruct Hz as [u H]; unfold view in H; congruence).
  assert (∀ p1, zero q Running p1 → zero q Running (receive_running (make_ack 0) p1) ∧ yields [] [] p1 (receive_running (make_ack 0) p1)) as H.
  { intros p1 [u Hz1]. unfold view in Hz1. injection Hz1 as E1 E2 E3 E4 E5 E6 E7 E8.
    assert (receiver 0 p1) as Hr by (by constructor). unfold receive_running. cbn [Message.kind make_ack with_resp control].
    destruct (receiver_process_ack 0 (make_ack 0) p1 Hr eq_refl) as (p' & -> & Hr' & Hy & Hv).
    cbn [snd]. rewrite (receiver_quiet 0) by done. split; [|done]. exists u. rewrite Hv. unfold view. congruence. }
  unfold receive. rewrite Es. destruct Hs as [->| ->]; cbn [Message.kind Message.resp make_ack with_resp control].
  - rewrite Z.eqb_refl. destruct (enter_running_zero q _ false p Hz) as [K1 K2]. destruct (H _ K1) as [K3 K4].
    split; [done|]. by apply (yields_trans [] [] [] [] p (enter_running false p)).
  - by apply H.
Qed.

(** An engine that was up, or in maintenance, starts over. *)
Lemma restart_zero q p : qmax p = Z.of_nat q → state p = Running ∨ state p = Maint →
  zero q Istart (receive make_start p) ∧ yields [make_start] [] p (receive make_start p) ∧
  (state p = Running → ReportDown ∈ outs (receive make_start p)).
Proof.
  intros Hq Hs. assert (receive make_start p = connected (lost p)) as ->.
  { unfold receive, receive_running, receive_maintenance, do_restart.
    assert (state (lost p) = state p) as E by (unfold lost; by destruct (bool_decide _)).
    destruct Hs as [Es|Es]; rewrite Es; cbn [Message.kind make_start control]; cbv zeta;
      rewrite E, Es; done. }
  assert (yields [] [] p (lost p)) as Hy.
  { unfold lost. destruct (bool_decide _); [|by apply yields_same]. split; simpl; by rewrite ?wires_app, ?handed_app, !app_nil_r. }
  destruct (connected_zero q (lost p)) as [K1 K2]; [by unfold lost; destruct (bool_decide _)|].
  split; [done|]. split; [by apply (yields_trans [] _ [] _ p (lost p))|]. intros Es. unfold lost. rewrite bool_decide_eq_true_2 by done.
  unfold connected. cbv zeta. unfold send_start, send_msg. destruct (Backoff.next _) as [t b]. cbn.
  destruct (fltb f0 t); cbn; rewrite <-!app_assoc; apply elem_of_app; right; left.
Qed.

(** Every engine that has been run is as it starts when it starts. *)
Definition startable (q : nat) (p : protocol) : Prop := qmax p = Z.of_nat q ∧ starting p.
Lemma startable_not q p : qmax p = Z.of_nat q → state p ≠ Istart → state p ≠ Astart → startable q p.
Proof. intros Hq H1 H2. split; [done|]. by intros [?|?]. Qed.
Lemma startable_zero q s p : zero q s p → startable q p.
Proof. intros [u Hz]. unfold view in Hz. injection Hz as E1 E2 E3 E4 E5 E6 E7 E8. split; [done|]. intros _. by split_and!. Qed.
Lemma startable_fixed q p p' : fixed p' = fixed p → qmax p = Z.of_nat q → state p = Running → startable q p'.
Proof. unfold fixed. intros [= E1 E2] Hq Hs. apply startable_not; congruence. Qed.
Lemma startable_connected q p : qmax p = Z.of_nat q → startable q (connected p).
Proof. intros Hq. by apply (startable_zero q Istart), connected_zero. Qed.
Lemma startable_restart q p : startable q p → startable q (do_restart p).
Proof.
  intros [Hq Hs]. unfold do_restart. cbv zeta. assert (fixed (lost p) = fixed p ∧ view (lost p) = view p) as [Ef Ev].
  { unfold lost. by destruct (bool_decide _). }
  unfold fixed in Ef. injection Ef as E1 E2. destruct (bool_decide _) eqn:E; [|apply startable_connected; congruence].
  split; [congruence|]. unfold starting in *. unfold view in Ev. injection Ev as _ _ F3 F4 F5 F6 _ F8. rewrite E1, F3, F4, F5, F6, F8. done.
Qed.
Lemma startable_maintenance q m p : qmax p = Z.of_nat q → state p = Maint → startable q (receive_maintenance m p).
Proof.
  intros Hq Hs. assert (startable q p) as H by (by apply startable_not; rewrite ?Hs).
  unfold receive_maintenance. destruct (bool_decide _); [by apply startable_restart|done].
Qed.
Lemma startable_running q m p : qmax p = Z.of_nat q → state p = Running → startable q (receive_running m p).
Proof.
  intros Hq Hs. unfold receive_running. destruct (Message.kind m); cbv zeta.
  - eapply startable_fixed; [|exact Hq|exact Hs]. rewrite fixed_flush, <-(fixed_process_ack m p). by destruct (negb _).
  - by apply startable_maintenance.
  - eapply startable_fixed; [|exact Hq|exact Hs]. by rewrite fixed_flush, fixed_process_ack.
  - eapply startable_fixed; [|exact Hq|exact Hs].
    pose proof (fixed_process_ack m (count_nak (Message.subtype m) p)) as E. rewrite fixed_nak in E.
    destruct (process_ack m _) as [[] p']; cbn [snd] in E; rewrite fixed_flush; [|done]. unfold retransmit. by rewrite fixed_resend.
  - eapply startable_fixed; [|exact Hq|exact Hs]. rewrite fixed_flush. destruct (_ =? _); [done|]. by rewrite fixed_msg.
  - apply startable_restart. by apply startable_not; rewrite ?Hs.
  - eapply startable_fixed; [|exact Hq|exact Hs]. by rewrite fixed_flush.
Qed.

Lemma starting_zero q p : startable q p → state p = Istart ∨ state p = Astart → zero q (state p) p.
Proof. intros [Hq Hst] Hs. destruct (Hst Hs) as (E1 & E2 & E3 & E4 & E5). exists (unack p). unfold view. congruence. Qed.

Lemma startable_receive q m p : startable q p → startable q (receive m p).
Proof.
  intros Hp. pose proof Hp as [Hq Hst]. unfold receive. destruct (state p) eqn:Es.
  - done.
  - pose proof (starting_zero q p Hp ltac:(rewrite Es; by left)) as Hz. rewrite Es in Hz.
    destruct (Message.kind m) eqn:Em; try done.
    + unfold enter_maintenance. by apply startable_maintenance.
    + destruct (start_zero q Istart p Hz ltac:(by left)) as [K _]. unfold receive in K. rewrite Es in K. by apply startable_zero in K.
    + by apply (startable_zero q Running), (enter_running_zero q Istart true).
  - pose proof (starting_zero q p Hp ltac:(rewrite Es; by right)) as Hz. rewrite Es in Hz.
    destruct (Message.kind m) eqn:Em; try done.
    + destruct (_ =? 0); [apply startable_running; [exact Hq|done]|done].
    + unfold enter_maintenance. by apply startable_maintenance.
    + destruct (_ =? 0); [apply startable_running; [exact Hq|done]|done].
    + destruct (start_zero q Astart p Hz ltac:(by right)) as [K _]. unfold receive in K. rewrite Es in K. by apply startable_zero in K.
    + by apply (startable_zero q Running), (enter_running_zero q Astart true).
  - by apply startable_running.
  - by apply startable_maintenance.
Qed.

Lemma startable_step q p e : startable q p → startable q (pstep p e).
Proof.
  intros Hp. pose proof Hp as [Hq Hst]. destruct e as [| | | |m|r m|d|d]; simpl.
  - by apply startable_connected.
  - unfold halt. apply startable_not; [|done..]. cbn. unfold lost. by destruct (bool_decide _).
  - by apply startable_restart.
  - unfold timeout. destruct (state p) eqn:Es; try done.
    + eapply (startable_zero q Istart), zero_view; [apply sends_start|]. rewrite <-Es. apply starting_zero; [done|]. rewrite Es. by left.
    + eapply (startable_zero q Astart), zero_view; [apply sends_start|]. rewrite <-Es. apply starting_zero; [done|]. rewrite Es. by right.
    + eapply startable_fixed; [|exact Hq|exact Es]. cbv zeta. by rewrite fixed_timed.
  - by apply startable_receive.
  - unfold receive_error. destruct (bool_decide (state p = Running)) eqn:Es; [|done]. apply bool_decide_eq_true in Es. cbn [negb].
    eapply startable_fixed; [|exact Hq|exact Es]. cbv zeta. rewrite fixed_msg. set (p1 := match nak_counter r with Some (true, bit) => _ | _ => p end).
    assert (fixed p1 = fixed p) as E1 by (unfold p1; by destruct (nak_counter r) as [[[] ?]|]).
    destruct m as [m|]; [|done]. destruct (sets_resp m); [|done]. by rewrite fixed_process_ack.
  - unfold send. destruct (bool_decide (state p = Running)) eqn:Es; [|done]. apply bool_decide_eq_true in Es. cbn [negb].
    eapply startable_fixed; [|exact Hq|exact Es]. unfold send_queued. by rewrite fixed_loop.
  - exact Hp.
Qed.

Lemma startable_run q es p : startable q p → startable q (engine_run p es).
Proof. revert p. induction es as [|e es IH]; intros p Hp; [done|]. by apply IH, startable_step. Qed.
Lemma startable_new q : (1 ≤ q)%nat → startable q (new_protocol (Z.of_nat q)).
Proof.
  intros Hq. apply startable_not; [|done..]. unfold new_protocol. destruct (Z.eqb_spec (Z.of_nat q) 0); [lia|done].
Qed.

Lemma runA_yields f l ms ds : yields ms ds (set_outs [] (engA l)) (f (set_outs [] (engA l))) →
  engA (runA f l) = f (set_outs [] (engA l)) ∧ engB (runA f l) = engB l ∧ ab (runA f l) = ab l ++ ms ∧ ba (runA f l) = ba l.
Proof. intros [W _]. unfold runA. simpl in *. by rewrite W. Qed.
Lemma runB_yields f l ms ds : yields ms ds (set_outs [] (engB l)) (f (set_outs [] (engB l))) →
  engB (runB f l) = f (set_outs [] (engB l)) ∧ engA (runB f l) = engA l ∧ ba (runB f l) = ba l ++ ms ∧ ab (runB f l) = ab l.
Proof. intros [W _]. unfold runB. simpl in *. by rewrite W. Qed.
Lemma zero_p0 q s p : zero q s p → zero q s (set_outs [] p).
Proof. by apply zero_view. Qed.

(** The steps of the handshake. *)
Lemma A_step q s s' m ms l rest : zero q s (engA l) → ba l = m :: rest →
  (∀ p, zero q s p → zero q s' (receive m p) ∧ yields ms [] p (receive m p)) →
  zero q s' (engA (lstep l ToA)) ∧ engB (lstep l ToA) = engB l ∧ ab (lstep l ToA) = ab l ++ ms ∧ ba (lstep l ToA) = rest.
Proof.
  intros Hz E H. cbn [lstep]. rewrite E. destruct (H _ (zero_p0 _ _ _ Hz)) as [K1 K2].
  destruct (runA_yields (receive m) (set_ba rest l) ms [] K2) as (-> & -> & -> & ->). done.
Qed.
Lemma B_step q s s' m ms l rest : zero q s (engB l) → ab l = m :: rest →
  (∀ p, zero q s p → zero q s' (receive m p) ∧ yields ms [] p (receive m p)) →
  zero q s' (engB (lstep l ToB)) ∧ engA (lstep l ToB) = engA l ∧ ba (lstep l ToB) = ba l ++ ms ∧ ab (lstep l ToB) = rest.
Proof.
  intros Hz E H. cbn [lstep]. rewrite E. destruct (H _ (zero_p0 _ _ _ Hz)) as [K1 K2].
  destruct (runB_yields (receive m) (set_ab rest l) ms [] K2) as (-> & -> & -> & ->). done.
Qed.

Lemma comes_up q l :
  startable q (engA l) → startable q (engB l) → state (engB l) ≠ Halted → ab l = [] → ba l = [] →
  let l' := lrun l [ConnectA; ToB; ToA; ToB; ToA] in
  fresh_engine q (engA l') ∧ fresh_engine q (engB l') ∧ ab l' = [] ∧ ba l' = [] ∧
  (state (engB l) = Running → ReportDown ∈ outs (engB (lrun l [ConnectA; ToB]))).
Proof.
  intros [HqA _] [HqB Hst] HB Ea Eb l'.
  destruct (connected_zero q (set_outs [] (engA l)) HqA) as [Z1 Y1].
  destruct (runA_yields connected l _ _ Y1) as (EA1 & EB1 & Eab1 & Eba1). set (l1 := runA connected l) in *.
  rewrite <-EA1 in Z1. rewrite Ea in Eab1. rewrite Eb in Eba1. cbn [app] in Eab1.
  assert (l' = lrun l1 [ToB; ToA; ToB; ToA]) as -> by done. unfold lrun. cbn [foldl].
  destruct (decide (state (engB l) = Running ∨ state (engB l) = Maint)) as [Hup|Hnot].
  - set (l2 := lstep l1 ToB). assert (zero q Istart (engB l2) ∧ engA l2 = engA l1 ∧ ba l2 = [make_start] ∧ ab l2 = [] ∧
      (state (engB l) = Running → ReportDown ∈ outs (engB l2))) as (Z2 & EA2 & Eba2 & Eab2 & Hd).
    { unfold l2. cbn [lstep]. rewrite Eab1. destruct (restart_zero q (set_outs [] (engB l)) HqB Hup) as (K1 & K2 & K3).
      destruct (runB_yields (receive make_start) (set_ab [] l1) [make_start] []) as (-> & -> & -> & ->).
      - cbn [engB set_ab]. by rewrite EB1.
      - cbn [engB engA ab ba set_ab]. rewrite EB1, Eba1. done. }
    rewrite <-EA2 in Z1. destruct (A_step q Istart Astart make_start [make_stack] l2 [] Z1 Eba2) as (Z3 & EB3 & Eab3 & Eba3).
    { intros p Hp. by apply (start_zero q Istart p); [|left]. }
    set (l3 := lstep l2 ToA) in *. rewrite Eab2 in Eab3. rewrite <-EB3 in Z2.
    destruct (B_step q Istart Running make_stack [make_ack 0] l3 [] Z2 Eab3) as (Z4 & EA4 & Eba4 & Eab4).
    { intros p Hp. by apply (stack_zero q Istart p); [|left]. }
    set (l4 := lstep l3 ToB) in *. rewrite Eba3 in Eba4. rewrite <-EA4 in Z3.
    destruct (A_step q Astart Running (make_ack 0) [] l4 [] Z3 Eba4) as (Z5 & EB5 & Eab5 & Eba5).
    { intros p Hp. by apply (ack_zero q Astart p); [|left]. }
    rewrite Eab4 in Eab5. rewrite <-EB5 in Z4. split_and!; [by apply zero_fresh|by apply zero_fresh|done|done|exact Hd].
  - assert (∃ s, (s = Istart ∨ s = Astart) ∧ zero q s (engB l)) as (s & Hs & Z0).
    { assert (state (engB l) = Istart ∨ state (engB l) = Astart) as Hs by (destruct (state (engB l)); tauto).
      exists (state (engB l)). split; [done|]. destruct (Hst Hs) as (E1 & E2 & E3 & E4 & E5).
      exists (unack (engB l)). unfold view. congruence. }
    rewrite <-EB1 in Z0. destruct (B_step q s Astart make_start [make_stack] l1 [] Z0 Eab1) as (Z2 & EA2 & Eba2 & Eab2).
    { intros p Hp. by apply (start_zero q s p). }
    set (l2 := lstep l1 ToB) in *. rewrite Eba1 in Eba2. rewrite <-EA2 in Z1.
    destruct (A_step q Istart Running make_stack [make_ack 0] l2 [] Z1 Eba2) as (Z3 & EB3 & Eab3 & Eba3).
    { intros p Hp. by apply (stack_zero q Istart p); [|left]. }
    set (l3 := lstep l2 ToA) in *. rewrite Eab2 in Eab3. rewrite <-EB3 in Z2.
    destruct (B_step q Astart Running (make_ack 0) [] l3 [] Z2 Eab3) as (Z4 & EA4 & Eba4 & Eab4).
    { intros p Hp. by apply (ack_zero q Astart p); [|left]. }
    set (l4 := lstep l3 ToB) in *. rewrite Eba3 in Eba4.
    assert (lstep l4 ToA = l4) as -> by (cbn [lstep]; by rewrite Eba4).
    rewrite <-EA4 in Z3. split_and!; [by apply zero_fresh|by apply zero_fresh|done|done|]. intros Hr. exfalso. tauto.
Qed.

(** C9: A link comes up. Two engines in any state they can reach, whatever has
    arrived or happened at either, the far one not halted and the line empty:
    when the transport of one connects and the messages of the handshake get
    through, both ends are running with all numbers at zero and empty queues,
    the line is empty again, and a far end that was running has first reported
    the link down. *)
Theorem ddcmp_comes_up q esA esB gA gB tA tB :
  (1 ≤ q)%nat →
  let A := engine_run (new_protocol (Z.of_nat q)) esA in
  let B := engine_run (new_protocol (Z.of_nat q)) esB in
  let l := mkLink A B [] [] gA gB tA tB in
  state B ≠ Halted →
  let l' := lrun l [ConnectA; ToB; ToA; ToB; ToA] in
  fresh_engine q (engA l') ∧ fresh_engine q (engB l') ∧ ab l' = [] ∧ ba l' = [] ∧
  (state B = Running → ReportDown ∈ outs (engB (lrun l [ConnectA; ToB]))).
Proof.
  intros Hq A B l HB. apply comes_up; [by apply startable_run, startable_new..|done|done|done].
Qed.

(** ** Examples *)

(** Two new engines, brought up. *)
Definition new_link (B : protocol) : link := mkLink (new_protocol 7) B [] [] [] [] [] [].
Definition up_link : link := lrun (new_link (connected (new_protocol 7))) [ConnectA; ToB; ToA; ToB; ToA].

Lemma up_fresh : fresh_link 7 up_link.
Proof.
  destruct (comes_up 7 (new_link (connected (new_protocol 7)))) as (H1 & H2 & H3 & H4 & _).
  - apply startable_new. lia.
  - apply (startable_step 7 (new_protocol 7) EConnected), startable_new. lia.
  - discriminate.
  - reflexivity.
  - reflexivity.
  - constructor; [exact H1|exact H2| | |].
    + unfold up_link. rewrite H3. exact (Forall_nil_2 _).
    + unfold up_link. rewrite H4. exact (Forall_nil_2 _).
    + vm_compute. split_and!; reflexivity.
Qed.

(** The first of two messages is lost, the second is out of sequence, the
    reply timer recovers. *)
Definition example_events : list levent :=
  [GiveA [1]; GiveA [2]; LoseAB 0; ToB; GiveA [3]; DamageAB; ToA; ToB; TimeB; TimeA; LoseBA 1; ToB].

Lemma ddcmp_in_order_witness :
  Forall one_way example_events ∧ gotB (lrun up_link example_events) = [[1]; [2]] ∧
  gotB (lrun up_link example_events) `prefix_of` [[1]; [2]; [3]].
Proof.
  assert (Forall one_way example_events) as H by (repeat (constructor; [exact Logic.I|]); constructor).
  split; [exact H|]. split; [vm_compute; reflexivity|].
  destruct (ddcmp_in_order 7 up_link example_events ltac:(lia) up_fresh H) as (Hp & _). exact Hp.
Defined.

Lemma ddcmp_recovers_witness : gotB (exchanges 7 1 (lrun up_link example_events)) = [[1]; [2]; [3]].
Proof.
  assert (Forall one_way example_events) as H by (repeat (constructor; [exact Logic.I|]); constructor).
  destruct (ddcmp_recovers 7 up_link example_events 1 ltac:(lia) up_fresh H) as (_ & _ & Hr).
  rewrite Hr; [reflexivity|]. vm_compute. lia.
Defined.

Lemma ddcmp_comes_up_witness :
  let B := engine_run (new_protocol 7) [EConnected; EReceive make_stack; ESend [1]] in
  state B = Running ∧ fresh_engine 7 (engB (lrun (new_link B) [ConnectA; ToB; ToA; ToB; ToA])).
Proof.
  intros B. split; [reflexivity|].
  destruct (ddcmp_comes_up 7 [] [EConnected; EReceive make_stack; ESend [1]] [] [] [] []) as (_ & H & _);
    [lia|discriminate|exact H].
Defined.

(** ** Data both ways

    A data message is stored with the response number of the moment it is
    numbered, and sent again as it was stored. *)
Definition stale_events : list levent :=
  [GiveA [1]; LoseAB 0] ++                          (* A's message is lost, *)
  concat (replicate 250 [GiveB [2]; ToA; ToB]) ++   (* 250 come the other way, *)
  concat (replicate 6 [GiveB [3]; LoseBA 0]) ++     (* six more are lost, *)
  [TimeA; ToB; ToA; ToB].                           (* and A's is sent again. *)
(** The reply timer of B, and the answer. *)
Definition ask : list levent := [TimeB; ToA; ToB].

(** Where that leaves the two ends, one more message of B's lost on the way. *)
Definition stale_link : link := lrun up_link (stale_events ++ [ToA; GiveB [4]; LoseBA 0]).

Record stuck (got : list Bytes) (l : link) : Prop := {
  sk_A : ∃ q u, view (engA l) = (Running, q, 250, 1, 1, false, u, []);
  sk_B : ∃ q u, view (engB l) = (Running, q, 1, 0, 1, false, u, []);
  sk_line : ab l = [] ∧ ba l = [];
  sk_got : gotA l = got;
}.

(** A reply request of B's is answered with a NAK that B takes for a stale one. *)
Lemma stuck_asked got l : stuck got l → stuck got (lrun l ask).
Proof.
  intros [(q & u & HA) (q' & u' & HB) [Eab Eba] Eg]. unfold view in HA, HB.
  injection HA as A1 A2 A3 A4 A5 A6 A7 A8. injection HB as B1 B2 B3 B4 B5 B6 B7 B8.
  set (p1 := timeout (set_outs [] (engB l))).
  assert (sends [make_rep 1] (set_counters (count_local_timeout (counters (engB l))) (set_outs [] (engB l))) p1) as (V1 & W1 & D1).
  { unfold p1, timeout. cbn [state set_outs]. rewrite B1. cbv zeta. cbn [n_ counters set_counters set_outs]. rewrite B5. apply sends_timed. }
  unfold view in V1. cbn [state qmax r_ a_ n_ ackflag unack notsent set_counters set_outs] in V1.
  injection V1 as V1 V2 V3 V4 V5 V6 V7 V8.
  set (l1 := mkLink (engA l) p1 [] [make_rep 1] (givenA l) (givenB l) (gotA l) (gotB l ++ handed (outs p1))).
  assert (lstep l TimeB = l1) as E1 by (cbn [lstep]; unfold runB; fold p1; rewrite W1, Eab, Eba; done).
  set (a2 := receive (make_rep 1) (set_outs [] (engA l))).
  assert (a2 = out (Transmit (make_nak 250 R_REP)) (set_counters (counters a2) (set_outs [] (engA l)))) as Ea.
  { unfold a2, receive, receive_running. cbn [state set_outs]. rewrite A1. cbn [Message.kind Message.num make_rep r_ set_counters counters set_outs].
    rewrite A3. unfold flush_ack. cbn -[out]. unfold out. cbn [ackflag set_outs set_counters]. rewrite A6. done. }
  set (l2 := mkLink a2 p1 [make_nak 250 R_REP] [] (givenA l) (givenB l) (gotA l) (gotB l ++ handed (outs p1))).
  assert (lstep l1 ToA = l2) as E2.
  { change (lstep l1 ToA) with (runA (λ _, a2) (set_ba [] l1)). unfold runA. cbv beta zeta.
    assert (wires (outs a2) = [make_nak 250 R_REP] ∧ handed (outs a2) = []) as [-> ->] by (rewrite Ea; done).
    cbn. by rewrite app_nil_r. }
  set (b3 := receive (make_nak 250 R_REP) (set_outs [] p1)).
  assert (b3 = count_nak R_REP (set_outs [] p1)) as Eb.
  { unfold b3, receive, receive_running. cbn [state set_outs Message.kind make_nak Message.subtype]. rewrite V1, B1. cbv zeta.
    set (p2 := count_nak R_REP (set_outs [] p1)). unfold process_ack. cbn [Message.resp].
    assert (a_ p2 = 0 ∧ n_ p2 = 1 ∧ ackflag p2 = false) as (F1 & F2 & F3) by (split_and!; unfold p2; cbn; congruence).
    rewrite F1, F2. change (Seq.distance 0 1 <? Seq.distance 0 250) with true. exact (flush_ack_idle p2 F3). }
  assert (lstep l2 ToB = mkLink a2 b3 [] [] (givenA l) (givenB l) (gotA l) ((gotB l ++ handed (outs p1)) ++ [])) as E3.
  { change (lstep l2 ToB) with (runB (λ _, b3) (set_ab [] l2)). unfold runB. cbv beta zeta.
    assert (wires (outs b3) = [] ∧ handed (outs b3) = []) as [-> ->] by (rewrite Eb; done). done. }
  unfold ask, lrun. cbn [foldl]. rewrite E1, E2, E3.
  constructor; cbn [engA engB ab ba gotA]; [| |done|done].
  - exists q, u. rewrite Ea. unfold view. cbn. congruence.
  - exists q', u'. rewrite Eb. unfold view. cbn. congruence.
Qed.

(** A stale response number. When data goes both ways it is not so: there
    is a run of a fresh link, of nothing but messages lost and the reply timer
    recovering, after which one end takes six messages for acknowledged that
    the other never got, because a data message that was sent again carried the
    response number it was first given; and from then on nothing more arrives,
    however often the reply timer asks, over a line that loses nothing. *)
Theorem ddcmp_stale_response :
  let l := lrun up_link stale_events in
  fresh_link 7 up_link ∧
  a_ (engB l) = n_ (engB l) ∧ length (givenB l) = 256%nat ∧ gotA l = replicate 250 [2] ∧
  ∀ k, gotA (lrun stale_link (concat (replicate k ask))) = replicate 250 [2].
Proof.
  intros l. split; [exact up_fresh|]. split; [vm_compute; reflexivity|]. split; [vm_compute; reflexivity|].
  split; [vm_compute; reflexivity|].
  assert (stuck (replicate 250 [2]) stale_link) as H.
  { constructor.
    - exists 7, (unack (engA stale_link)). vm_compute. reflexivity.
    - exists 7, (unack (engB stale_link)). vm_compute. reflexivity.
    - vm_compute. split; reflexivity.
    - vm_compute. reflexivity. }
  intros k. generalize stale_link H. induction k as [|k IH]; intros l0 H0; [apply H0|].
  cbn [replicate concat]. unfold lrun. rewrite foldl_app. apply IH. by apply stuck_asked.
Qed.
