(* ===== verification/PtpDatalink.v ===== *)
(** Point to point datalinks of the Multinet family: [class PtpDatalink] of
    [include/decnet/datalink/ptp.h] and [src/datalink/ptp.cc], the base class, with
    the [connected] and [running] that [class Multinet] gives it
    ([src/datalink/multinet.cc]), over TCP or UDP: there is no datalink protocol to
    start, so the connection being made is the circuit coming up.  DDCMP overrides
    [validate], [connected] and [running] and tells its owner when its handshake is
    complete; its protocol is the file [Ddcmp], and what is proved here is not about it.

    The state machine runs on the node's thread, the receive thread beside it:
    a datalink is the members, what the thread is at, and the work items of the
    datalink that wait in the node's queue; a step is one work item, one expiry
    of the timer, or one thing the thread does.  What is queued for the owner
    of the port is a log. *)

From S2P Require Import Prelude Types Float Ddcmp.
#[local] Open Scope Z_scope.

(** The work items of a datalink, and what its owner is sent. *)
Inductive item := Start | Stop | Restart | Reconnect (now : bool) | Connected | ThreadExit | Timeout | Received (f : Bytes).
Inductive upward := DlStatus (up : bool) | Frame (f : Bytes).

(** The states, named after the functions that implement them. *)
Inductive dstate := S0 | Connecting | Running | Reconnecting | Shutdown.
#[export] Instance dstate_eq_dec : EqDecision dstate.
Proof. solve_decision. Defined.
#[export] Instance item_eq_dec : EqDecision item.
Proof. solve_decision. Defined.

(** The receive thread: [joinable] from its start until it is joined. *)
Inductive tstate := NoThread | Checking | Receiving | Exited.
#[export] Instance tstate_eq_dec : EqDecision tstate.
Proof. solve_decision. Defined.

(** What a concrete Multinet datalink supplies, of its class among the three:
    [connect] with what the system makes of it, and the time it starts the timer for;
    [disconnect]; and what is counted for a frame. *)
Class Concrete (X : Type) := {
  hook_connect : bool → X → X * option double;
  hook_disconnect : X → X;
  hook_received : Bytes → X → X;
}.

Record datalink (X : Type) := mkDatalink {
  st : dstate;
  thread : tstate;
  stopnow : bool;
  is_up : bool;
  restart_now : bool;
  timer : option double;
  restart_timer : Backoff.t;
  port : bool;
  queue : list item;
  to_owner : list upward;
  self : X;
}.
Arguments mkDatalink {X} _ _ _ _ _ _ _ _ _ _ _.
Arguments st {X} _.
Arguments thread {X} _.
Arguments stopnow {X} _.
Arguments is_up {X} _.
Arguments restart_now {X} _.
Arguments timer {X} _.
Arguments restart_timer {X} _.
Arguments port {X} _.
Arguments queue {X} _.
Arguments to_owner {X} _.
Arguments self {X} _.

Section Datalink.
Context {X : Type} `{CX : Concrete X}.

Definition set_state (v : dstate) (d : datalink X) : datalink X :=
  mkDatalink v (thread d) (stopnow d) (is_up d) (restart_now d) (timer d) (restart_timer d) (port d) (queue d) (to_owner d) (self d).
Definition with_thread (v : tstate) (s : bool) (d : datalink X) : datalink X :=
  mkDatalink (st d) v s (is_up d) (restart_now d) (timer d) (restart_timer d) (port d) (queue d) (to_owner d) (self d).
Definition with_is_up (v : bool) (d : datalink X) : datalink X :=
  mkDatalink (st d) (thread d) (stopnow d) v (restart_now d) (timer d) (restart_timer d) (port d) (queue d) (to_owner d) (self d).
Definition with_restart_now (v : bool) (d : datalink X) : datalink X :=
  mkDatalink (st d) (thread d) (stopnow d) (is_up d) v (timer d) (restart_timer d) (port d) (queue d) (to_owner d) (self d).
Definition with_timer (v : option double) (b : Backoff.t) (d : datalink X) : datalink X :=
  mkDatalink (st d) (thread d) (stopnow d) (is_up d) (restart_now d) v b (port d) (queue d) (to_owner d) (self d).
Definition with_queue (v : list item) (d : datalink X) : datalink X :=
  mkDatalink (st d) (thread d) (stopnow d) (is_up d) (restart_now d) (timer d) (restart_timer d) (port d) v (to_owner d) (self d).
Definition with_self (v : X) (d : datalink X) : datalink X :=
  mkDatalink (st d) (thread d) (stopnow d) (is_up d) (restart_now d) (timer d) (restart_timer d) (port d) (queue d) (to_owner d) v.

Definition post (i : item) (d : datalink X) : datalink X := with_queue (queue d ++ [i]) d.
Definition tell (o : upward) (d : datalink X) : datalink X :=
  mkDatalink (st d) (thread d) (stopnow d) (is_up d) (restart_now d) (timer d) (restart_timer d) (port d) (queue d) (to_owner d ++ [o]) (self d).
Definition joinable (d : datalink X) : bool := negb (bool_decide (thread d = NoThread)).

(** [create_port], which there is one of. *)
Definition create_port (d : datalink X) : result (datalink X) :=
  if port d then Throw InternalError
  else Ok (mkDatalink (st d) (thread d) (stopnow d) (is_up d) (restart_now d) (timer d) (restart_timer d) true (queue d) (to_owner d) (self d)).

Definition report_up (d : datalink X) : datalink X :=
  if is_up d then d else let d := with_is_up true d in if port d then tell (DlStatus true) d else d.
Definition report_down (d : datalink X) : datalink X :=
  if negb (is_up d) then d else let d := with_is_up false d in if port d then tell (DlStatus false) d else d.

(** [start_thread], and [stop_thread (false)]. *)
Definition start_thread (d : datalink X) : datalink X := if joinable d then d else with_thread Checking false d.
Definition stop_thread (d : datalink X) : datalink X := with_thread (thread d) true d.

(** [connect] and [disconnect] of the concrete class. *)
Definition connect (ok : bool) (d : datalink X) : datalink X :=
  let '(x, t) := hook_connect ok (self d) in
  let d := with_self x d in
  match t with Some t => with_timer (Some t) (restart_timer d) d | None => d end.
Definition disconnect (d : datalink X) : datalink X := with_self (hook_disconnect (self d)) d.

(** ** The states *)

Definition s0 (ok : bool) (i : item) (d : datalink X) : datalink X * option dstate :=
  match i with
  | Start => (start_thread (connect ok d), Some Connecting)
  | _ => (d, None)
  end.
(** [Multinet::connected]. *)
Definition multinet_connected (d : datalink X) : datalink X * option dstate := (report_up d, Some Running).
Definition connecting (i : item) (d : datalink X) : datalink X * option dstate :=
  match i with
  | Connected => multinet_connected d
  | Timeout => (post (Reconnect true) d, None)
  | _ => (d, None)
  end.
(** [jstart] of the restart timer; the jitter is left out. *)
Definition hold_off (d : datalink X) : datalink X :=
  let '(t, b) := Backoff.next (restart_timer d) in with_timer (Some t) b d.
Definition reconnecting (i : item) (d : datalink X) : datalink X * option dstate :=
  match i with
  | Timeout => (post Start d, Some S0)
  | ThreadExit | Reconnect _ =>
      let d := disconnect d in
      if restart_now d then (post Start (with_restart_now false d), Some S0) else (hold_off d, None)
  | _ => (d, None)
  end.
Definition shutdown_state (i : item) (d : datalink X) : datalink X * option dstate :=
  match i with
  | ThreadExit => (report_down (disconnect d), Some S0)
  | _ => (d, None)
  end.
(** [Multinet::running]; a [ThreadExit] never gets here, as [validate] changes
    the state first. *)
Definition running (i : item) (d : datalink X) : datalink X * option dstate :=
  match i with
  | Received f => ((if port d then tell (Frame f) (with_self (hook_received f (self d)) d) else d), None)
  | ThreadExit => (post (Reconnect false) d, None)
  | _ => (d, None)
  end.
Definition action (ok : bool) (i : item) (d : datalink X) : datalink X * option dstate :=
  match st d with
  | S0 => s0 ok i d
  | Connecting => connecting i d
  | Running => running i d
  | Reconnecting => reconnecting i d
  | Shutdown => shutdown_state i d
  end.

Definition enter (r : datalink X * option dstate) : datalink X :=
  match r with (d, Some s) => set_state s d | (d, None) => d end.

Definition handle_stop (d : datalink X) : datalink X * dstate :=
  let d := report_down (stop_thread d) in (d, if joinable d then Shutdown else S0).
Definition handle_reconnect (now : bool) (d : datalink X) : datalink X * option dstate :=
  let d := (handle_stop d).1 in
  let d := set_state Reconnecting (with_restart_now now d) in
  if joinable d then (d, Some Reconnecting) else reconnecting (Reconnect now) d.

(** [validate]: whether the state action is still to run. *)
Definition validate (i : item) (d : datalink X) : datalink X * bool :=
  match i with
  | Stop => let '(d, s) := handle_stop d in (set_state s d, false)
  | Reconnect now => (enter (handle_reconnect now d), false)
  | Restart => (enter (handle_reconnect true d), false)
  | ThreadExit =>
      let d := if bool_decide (st d = Shutdown) then d else set_state Reconnecting d in
      (report_down (with_thread NoThread (stopnow d) d), true)
  | _ => (d, true)
  end.
Definition dispatch (ok : bool) (i : item) (d : datalink X) : datalink X :=
  let '(d, go) := validate i d in if go then enter (action ok i d) else d.

(** ** Steps *)

Inductive event :=
| EPost (i : item)               (* the owner, or a failed send *)
| EWork (ok : bool)              (* the node takes the next item *)
| ETimer                         (* the timer expires *)
| EConn (ok : bool)              (* the thread: [check_connection] *)
| EFrame (f : Bytes)             (* the thread: a frame has arrived *)
| EExit                          (* the thread: it ends *)
| ESelf (f : X → X).             (* the concrete datalink: sends and the like *)

(** What anyone but the state machine and the thread may post. *)
Definition may_post (i : item) : bool :=
  match i with Start | Stop | Restart | Reconnect _ => true | _ => false end.

(** [run]: the body of the thread. *)
Definition thread_connects (ok : bool) (d : datalink X) : datalink X :=
  match thread d with
  | Checking =>
      if ok && negb (stopnow d) then
        post Connected (with_timer (timer d) (Backoff.reset (restart_timer d)) (with_thread Receiving (stopnow d) d))
      else post ThreadExit (with_thread Exited (stopnow d) d)
  | _ => d
  end.
Definition thread_receives (f : Bytes) (d : datalink X) : datalink X :=
  match thread d with Receiving => post (Received f) d | _ => d end.
Definition thread_exits (d : datalink X) : datalink X :=
  match thread d with
  | Checking | Receiving => post ThreadExit (with_thread Exited (stopnow d) d)
  | _ => d
  end.

Definition step (d : datalink X) (e : event) : datalink X :=
  match e with
  | EPost i => if may_post i then post i d else d
  | EWork ok => match queue d with [] => d | i :: q => dispatch ok i (with_queue q d) end
  | ETimer => match timer d with
              | Some _ => dispatch true Timeout (with_timer None (restart_timer d) d)
              | None => d
              end
  | EConn ok => thread_connects ok d
  | EFrame f => thread_receives f d
  | EExit => thread_exits d
  | ESelf f => with_self (f (self d)) d
  end.
Definition run (d : datalink X) (l : list event) : datalink X := foldl step d l.

(** The constructor, [restart_timer_ { 2.0, 120.0 }]; and with its port. *)
Definition new_datalink (x : X) : datalink X :=
  mkDatalink S0 NoThread false false false None (Backoff.mk f2 (f_of_Z 120) f2 0) false [] [] x.
Definition ready (x : X) : datalink X := match create_port (new_datalink x) with Ok d => d | Throw _ => new_datalink x end.

(** ** What the owner is told *)

(** Up and down in turn, and frames only while it is up. *)
Definition hears (b : option bool) (o : upward) : option bool :=
  match b, o with
  | Some b, DlStatus u => if Bool.eqb u b then None else Some u
  | Some b, Frame _ => if b then Some b else None
  | None, _ => None
  end.
Definition track (l : list upward) : option bool := foldl hears (Some false) l.
Lemma track_snoc l o : track (l ++ [o]) = hears (track l) o.
Proof. unfold track. by rewrite foldl_app. Qed.

Definition Told (d : datalink X) : Prop := port d = true ∧ track (to_owner d) = Some (is_up d).
Definition UpOk (d : datalink X) : Prop := is_up d = bool_decide (st d = Running) ∧ Told d.

(** What leaves the owner alone. *)
Definition owner_view (d : datalink X) := (is_up d, port d, to_owner d).
Lemma Told_view d d' : owner_view d' = owner_view d → Told d → Told d'.
Proof. intros [= E1 E2 E3]. unfold Told. by rewrite E1, E2, E3. Qed.
Lemma connect_view ok d : owner_view (connect ok d) = owner_view d.
Proof. unfold connect. by destruct (hook_connect ok (self d)) as [x [t|]]. Qed.
Lemma hold_off_view d : owner_view (hold_off d) = owner_view d.
Proof. done. Qed.

Lemma report_down_told d : Told d → Told (report_down d) ∧ is_up (report_down d) = false.
Proof.
  intros H. unfold report_down. destruct (is_up d) eqn:E; cbn [negb]; [|done]. destruct H as [Hp H]. unfold Told. cbn. rewrite Hp. cbn.
  by rewrite track_snoc, H, E.
Qed.
Lemma report_up_told d : Told d → Told (report_up d) ∧ is_up (report_up d) = true.
Proof.
  intros H. unfold report_up. destruct (is_up d) eqn:E; [done|]. destruct H as [Hp H]. unfold Told. cbn. rewrite Hp. cbn.
  by rewrite track_snoc, H, E.
Qed.
Lemma handle_stop_told d : Told d → Told (handle_stop d).1 ∧ is_up (handle_stop d).1 = false ∧ (handle_stop d).2 ≠ Running.
Proof.
  intros H. unfold handle_stop. cbn [fst snd]. destruct (report_down_told (stop_thread d)) as [? ?]; [done|].
  split; [done|]. split; [done|]. by destruct (joinable _).
Qed.
Lemma reconnecting_up i d : Told d → is_up d = false → st d = Reconnecting → UpOk (enter (reconnecting i d)).
Proof.
  intros Ht Hu Hs. unfold reconnecting, UpOk.
  assert (∀ d' s, owner_view d' = owner_view d → s ≠ Running →
    is_up (set_state s d') = bool_decide (st (set_state s d') = Running) ∧ Told (set_state s d')) as Hok.
  { intros d' s E Hn. split; [|by apply (Told_view d)]. injection E as E _ _. cbn. by rewrite E, Hu, bool_decide_eq_false_2. }
  assert (UpOk d) as Hd by (split; [by rewrite Hu, Hs|done]).
  destruct i; try exact Hd; cbn [enter].
  - case_match; [by apply Hok|]. cbn [enter]. split; [cbn; by rewrite Hu, Hs|done].
  - case_match; [by apply Hok|]. cbn [enter]. split; [cbn; by rewrite Hu, Hs|done].
  - by apply Hok.
Qed.
Lemma handle_reconnect_up now d : Told d → UpOk (enter (handle_reconnect now d)).
Proof.
  intros H. unfold handle_reconnect. destruct (handle_stop_told d H) as (Ht & Hu & _).
  set (d1 := (handle_stop d).1) in *. clearbody d1. cbv zeta. destruct (joinable _).
  - split; [cbn; by rewrite Hu|done].
  - by apply reconnecting_up.
Qed.

Lemma action_up ok i d : UpOk d → UpOk (enter (action ok i d)).
Proof.
  intros [Hu Ht]. unfold action. destruct (st d) eqn:Es.
  - destruct i; try (split; [cbn; by rewrite Hu, Es|done]). cbn [s0 enter].
    assert (owner_view (start_thread (connect ok d)) = owner_view d) as E.
    { unfold start_thread. rewrite <-(connect_view ok d). by destruct (joinable _). }
    split; [|by apply (Told_view d)]. injection E as E _ _. cbn. by rewrite E, Hu.
  - destruct i; try (split; [cbn; by rewrite Hu, Es|done]). cbn [connecting multinet_connected enter].
    destruct (report_up_told d Ht) as [? ?]. split; [cbn|]; done.
  - destruct i; try (split; [cbn; by rewrite Hu, Es|done]). cbn [running enter]. destruct Ht as [Hp Ht]. rewrite Hp.
    split; [cbn; by rewrite Hu, Es|]. split; [done|]. cbn. by rewrite track_snoc, Ht, Hu.
  - apply reconnecting_up; [done| |done]. by rewrite Hu.
  - destruct i; try (split; [cbn; by rewrite Hu, Es|done]). cbn [shutdown_state enter].
    destruct (report_down_told (disconnect d)) as [? Hd]; [by apply (Told_view d)|]. split; [cbn; by rewrite Hd|done].
Qed.
Lemma dispatch_up ok i d : UpOk d → UpOk (dispatch ok i d).
Proof.
  intros Hd. destruct (Hd) as [Hu Ht]. unfold dispatch. destruct i; cbn [validate]; try by apply action_up.
  - destruct (handle_stop_told d Ht) as (Ht' & Hu' & Hn). destruct (handle_stop d) as [d' s]. cbn in *.
    split; [cbn; by rewrite Hu', bool_decide_eq_false_2|done].
  - by apply handle_reconnect_up.
  - by apply handle_reconnect_up.
  - apply action_up. set (d1 := with_thread NoThread _ _).
    destruct (report_down_told d1) as [Ht1 Hu1]; [apply (Told_view d); [|done]; unfold d1, owner_view; destruct (bool_decide (st d = Shutdown)); reflexivity|].
    split; [|done]. rewrite Hu1. symmetry. apply bool_decide_eq_false_2.
    assert (st (report_down d1) = st d1) as -> by (unfold report_down; repeat case_match; done).
    unfold d1. destruct (decide (st d = Shutdown)) as [E|E].
    + rewrite bool_decide_eq_true_2 by done. cbn. by rewrite E.
    + by rewrite bool_decide_eq_false_2.
Qed.
Lemma step_UpOk d e : UpOk d → UpOk (step d e).
Proof.
  intros Hd. destruct e as [i|ok| |ok|f| |f]; cbn [step].
  - by case_match.
  - destruct (queue d); [done|]. by apply dispatch_up.
  - destruct (timer d); [|done]. by apply dispatch_up.
  - unfold thread_connects. destruct (thread d); try done. by case_match.
  - unfold thread_receives. by destruct (thread d).
  - unfold thread_exits. by destruct (thread d).
  - done.
Qed.
Lemma run_up d l : UpOk d → UpOk (run d l).
Proof. revert d. induction l as [|e l IH]; intros d Hd; [done|]. by apply IH, step_UpOk. Qed.
End Datalink.

(** C26: What the owner of a Multinet datalink is told. Over every sequence of starts,
    stops and restarts, failed sends, timer expiries and things the receive thread does,
    whatever is still queued of an earlier connection: the owner hears that the datalink
    is up and down strictly in turn, gets frames only in between, and the datalink is up
    exactly while it is in its running state. *)
Theorem owner_told {X} `{Concrete X} (x : X) (l : list event) :
  let d := run (ready x) l in
  is_up d = bool_decide (st d = Running) ∧ track (to_owner d) = Some (is_up d).
Proof.
  intros d. assert (UpOk d) as [Hu [_ Ht]] by by apply run_up. by split.
Qed.

Lemma owner_ready {X} `{Concrete X} (x : X) : UpOk (ready x).
Proof. by split. Qed.
