(* ===== verification/PtpRetry.v ===== *)
(** A Multinet datalink keeps trying: from every state it can reach, and
    whatever work items wait for it, it can come up as long as it was not
    stopped; and what a stop does to a start, and a late reconnect to a stop. *)

From S2P Require Import Prelude Types Float Ddcmp PtpDatalink.
#[local] Open Scope Z_scope.

Section Retry.
Context {X : Type} `{CX : Concrete X}.
Implicit Types d : datalink X.

(** ** Something always moves it on *)

Definition exits (l : list item) : nat := length (filter (λ i, i = ThreadExit) l).
#[local] Arguments exits : simpl never.
Record Moving d : Prop := {
  mv_exit : exits (queue d) = if bool_decide (thread d = Exited) then 1%nat else 0%nat;
  mv_timeout : Timeout ∉ queue d;
  mv_thread : st d = Connecting ∨ st d = Running ∨ st d = Shutdown → thread d ≠ NoThread;
  mv_waiting : st d = Reconnecting → thread d ≠ NoThread ∨ timer d ≠ None;
}.

Lemma exits_snoc l i : exits (l ++ [i]) = (exits l + if decide (i = ThreadExit) then 1 else 0)%nat.
Proof. unfold exits. rewrite filter_app, length_app, filter_cons. by destruct (decide _). Qed.
Lemma exits_cons l i : exits (i :: l) = ((if decide (i = ThreadExit) then 1 else 0) + exits l)%nat.
Proof. unfold exits. rewrite filter_cons. by destruct (decide _). Qed.

(** A datalink while a work item is being handled: [e] exits of the thread
    have been taken off the queue. *)
Record Busy (e : nat) d : Prop := {
  bz_exit : (e + exits (queue d))%nat = if bool_decide (thread d = Exited) then 1%nat else 0%nat;
  bz_timeout : Timeout ∉ queue d;
}.
Lemma Moving_Busy d : Moving d → Busy 0 d.
Proof. intros [? ? ? ?]. by constructor. Qed.

(** What matters here. *)
Definition core d := (st d, thread d, timer d, queue d).
Lemma Moving_core d d' : core d' = core d → Moving d → Moving d'.
Proof. intros [= E1 E2 E3 E4] [? ? ? ?]. constructor; rewrite ?E1, ?E2, ?E3, ?E4; done. Qed.
Lemma report_down_core d : core (report_down d) = core d.
Proof. unfold report_down. by repeat case_match. Qed.
Lemma report_up_core d : core (report_up d) = core d.
Proof. unfold report_up. by repeat case_match. Qed.
Lemma core_parts d d' : core d' = core d → st d' = st d ∧ thread d' = thread d ∧ timer d' = timer d ∧ queue d' = queue d.
Proof. unfold core. intros [= -> -> -> ->]. done. Qed.
Lemma handle_stop_core d : core (handle_stop d).1 = core d ∧ (handle_stop d).2 = if joinable d then Shutdown else S0.
Proof.
  unfold handle_stop. cbn [fst snd]. rewrite report_down_core. split; [done|].
  unfold joinable. pose proof (report_down_core (stop_thread d)) as E. injection E as _ -> _ _. done.
Qed.

Lemma joinable_true d : joinable d = true ↔ thread d ≠ NoThread.
Proof. unfold joinable. rewrite negb_true_iff, bool_decide_eq_false. done. Qed.

Lemma post_moving i d : i ≠ ThreadExit → i ≠ Timeout → Moving d → Moving (post i d).
Proof.
  intros H1 H2 [? ? ? ?]. constructor; cbn; try done.
  - rewrite exits_snoc, decide_False by done. lia.
  - rewrite not_elem_of_app, list_elem_of_singleton. done.
Qed.

(** The retry, once the thread is gone. *)
Lemma reconnecting_moving i d : i = ThreadExit ∨ (∃ now, i = Reconnect now) → st d = Reconnecting → Busy 0 d →
  Moving (enter (reconnecting i d)).
Proof.
  intros Hi Hs [He Ht]. assert (enter (reconnecting i d) = enter (if restart_now (disconnect d)
    then (post Start (with_restart_now false (disconnect d)), Some S0) else (hold_off (disconnect d), None))) as ->.
  { destruct Hi as [->|[now ->]]; unfold reconnecting; by case_match. }
  destruct (restart_now (disconnect d)); constructor; cbn; try (by intros [|[]]); try (by rewrite Hs; intros [|[]]); try done.
  - rewrite exits_snoc. cbn in *. rewrite decide_False by done. lia.
  - rewrite not_elem_of_app, list_elem_of_singleton. done.
  - intros _. by right.
Qed.
Lemma handle_reconnect_moving now d : Busy 0 d → Moving (enter (handle_reconnect now d)).
Proof.
  intros [He Ht]. unfold handle_reconnect. destruct (handle_stop_core d) as [(_ & E2 & E3 & E4)%core_parts _].
  set (d1 := (handle_stop d).1) in *. clearbody d1. cbv zeta. destruct (joinable _) eqn:Ej.
  - apply joinable_true in Ej. constructor; cbn in *; rewrite ?E2, ?E4; try done; [by intros [|[]]|]. intros _. left. by rewrite <-E2.
  - apply reconnecting_moving; [by right; eexists|done|]. constructor; cbn; by rewrite ?E2, ?E4.
Qed.

Lemma connect_core ok d : st (connect ok d) = st d ∧ thread (connect ok d) = thread d ∧ queue (connect ok d) = queue d.
Proof. unfold connect. by destruct (hook_connect ok (self d)) as [x [t|]]. Qed.

Lemma dispatch_moving ok i d : i ≠ Timeout → Moving (with_queue (i :: queue d) d) → Moving (dispatch ok i d).
Proof.
  intros Hi [He Ht Hj Hw]. cbn in *. rewrite exits_cons in He. apply not_elem_of_cons in Ht as [_ Ht].
  destruct (decide (i = ThreadExit)) as [->|Hx].
  - destruct (decide (thread d = Exited)) as [Ex|Ex]; [rewrite bool_decide_eq_true_2 in He by done|rewrite bool_decide_eq_false_2 in He by done; lia].
    unfold dispatch. cbn [validate].
    set (d1 := if bool_decide (st d = Shutdown) then d else set_state Reconnecting d).
    set (d2 := report_down _). assert (core d2 = (st d1, NoThread, timer d, queue d)) as Ec.
    { unfold d2. rewrite report_down_core. unfold core, d1. cbn. by destruct (bool_decide _). }
    clearbody d2. injection Ec as E1 E2 E3 E4. unfold action. rewrite E1. unfold d1. destruct (decide (st d = Shutdown)) as [Es|Es].
    + rewrite bool_decide_eq_true_2, Es by done. cbn [shutdown_state enter].
      pose proof (report_down_core (disconnect d2)) as (_ & F2 & F3 & F4)%core_parts.
      constructor; cbn in *; rewrite ?F2, ?F4, ?E2, ?E4; try done; try (by intros [|[]]). rewrite bool_decide_eq_false_2 by done. lia.
    + rewrite bool_decide_eq_false_2 by done. cbn [set_state st]. apply reconnecting_moving; [by left| |].
      * rewrite E1. unfold d1. by rewrite bool_decide_eq_false_2.
      * constructor; rewrite ?E2, ?E4; [|done]. rewrite bool_decide_eq_false_2 by done. lia.
  - cbn in He. assert (Moving d) as Hd by by constructor.
    assert (Busy 0 d) as Hb by by constructor.
    unfold dispatch. destruct i; cbn [validate]; try done.
    + unfold action. destruct (st d) eqn:Es; try exact Hd. cbn [s0 enter].
      destruct (connect_core ok d) as (F1 & F2 & F3). unfold start_thread, joinable. rewrite F2.
      destruct (bool_decide (thread d = NoThread)) eqn:Et; cbn [negb].
      * apply bool_decide_eq_true in Et. rewrite Et in He. constructor; cbn; rewrite ?F3; try done.
      * apply bool_decide_eq_false in Et. constructor; cbn; rewrite ?F2, ?F3; try done.
    + destruct (handle_stop_core d) as [(E1 & E2 & E3 & E4)%core_parts E5]. destruct (handle_stop d) as [d1 s]. cbn [fst snd] in *.
      subst s. constructor; cbn; rewrite ?E2, ?E4; try done.
      * destruct (joinable d) eqn:Ej; [intros _; by apply joinable_true|by intros [|[]]].
      * by destruct (joinable d).
    + by apply handle_reconnect_moving.
    + by apply handle_reconnect_moving.
    + unfold action. destruct (st d) eqn:Es; try exact Hd. cbn [connecting enter].
      pose proof (report_up_core d) as (E1 & E2 & E3 & E4)%core_parts. constructor; cbn; rewrite ?E2, ?E4; try done.
      intros _. apply Hj. by left.
    + unfold action. destruct (st d) eqn:Es; try exact Hd. cbn [running enter]. destruct (port d); [|exact Hd].
      by apply (Moving_core d).
Qed.
Lemma timer_moving d : Moving d → Moving (dispatch true Timeout (with_timer None (restart_timer d) d)).
Proof.
  intros [He Ht Hj Hw]. unfold dispatch. cbn [validate]. unfold action. cbn [st with_timer].
  destruct (st d) eqn:Es; cbn [s0 connecting running reconnecting shutdown_state enter]; constructor; cbn in *; rewrite ?Es; try done;
    rewrite ?exits_snoc, ?decide_False by done; try lia; rewrite ?not_elem_of_app, ?list_elem_of_singleton; try done; try (by intros [|[]]).
Qed.
Lemma thread_posts t i d : Moving d → thread d ≠ Exited → t ≠ NoThread → i ≠ Timeout → (i = ThreadExit ↔ t = Exited) →
  Moving (post i (with_thread t (stopnow d) d)).
Proof.
  intros [He Ht Hj Hw] H1 H2 H3 H4. rewrite bool_decide_eq_false_2 in He by done. constructor; cbn; try done.
  - rewrite exits_snoc, He. destruct (decide (i = ThreadExit)) as [E|E]; [rewrite bool_decide_eq_true_2|rewrite bool_decide_eq_false_2]; tauto.
  - rewrite not_elem_of_app, list_elem_of_singleton. split; congruence.
  - intros _. by left.
Qed.
Lemma step_moving d e : Moving d → Moving (step d e).
Proof.
  intros Hd. destruct e as [i|ok| |ok|f| |f]; cbn [step].
  - destruct i; try done; by apply post_moving.
  - destruct (queue d) as [|i q] eqn:Eq; [done|]. apply dispatch_moving.
    + intros ->. apply (mv_timeout d Hd). rewrite Eq. by left.
    + apply (Moving_core d); [|done]. unfold core. cbn. by rewrite Eq.
  - destruct (timer d); [|done]. by apply timer_moving.
  - unfold thread_connects. destruct (thread d) eqn:Et; try done. destruct (ok && negb (stopnow d)).
    + apply (Moving_core (post Connected (with_thread Receiving (stopnow d) d))); [done|]. apply thread_posts; by rewrite ?Et.
    + apply thread_posts; by rewrite ?Et.
  - unfold thread_receives. destruct (thread d) eqn:Et; try done. by apply post_moving.
  - unfold thread_exits. destruct (thread d) eqn:Et; try done; apply thread_posts; by rewrite ?Et.
  - by apply (Moving_core d).
Qed.
Lemma new_moving x : Moving (ready x).
Proof. constructor; cbn; try done; [apply not_elem_of_nil|by intros [|[]]]. Qed.
Lemma run_moving d l : Moving d → Moving (run d l).
Proof. revert d. induction l as [|e l IH]; intros d Hd; [done|]. by apply IH, step_moving. Qed.

(** ** Coming up *)

(** It has been started, and not stopped since. *)
Definition wanted d : Prop :=
  match st d with
  | Connecting | Running | Reconnecting => True
  | S0 => Start ∈ queue d
  | Shutdown => False
  end.

Lemma run_app d l k : run d (l ++ k) = run (run d l) k.
Proof. apply foldl_app. Qed.

(** From halted, with a start waiting and no thread, one attempt is enough. *)
Lemma fresh_up d : st d = S0 → thread d = NoThread → queue d = [Start] →
  let d' := run d [EWork true; EConn true; EWork true] in st d' = Running.
Proof.
  intros Es Et Eq. unfold run. cbn [foldl]. set (d1 := step d (EWork true)).
  assert (st d1 = Connecting ∧ thread d1 = Checking ∧ stopnow d1 = false ∧ queue d1 = []) as (F1 & F2 & F3 & F4).
  { unfold d1. cbn [step]. rewrite Eq. unfold dispatch. cbn [validate]. unfold action. cbn [st with_queue]. rewrite Es. cbn [s0 enter].
    destruct (connect_core true (with_queue [] d)) as (G1 & G2 & G3).
    unfold start_thread, joinable. rewrite G2. cbn [thread with_queue]. rewrite Et. cbn. done. }
  clearbody d1. cbn [step]. unfold thread_connects. rewrite F2, F3. cbn [andb negb post with_queue queue with_timer with_thread].
  rewrite F4. cbn [app]. unfold dispatch. cbn [validate]. unfold action. cbn [st with_queue post with_timer with_thread]. rewrite F1. done.
Qed.

Lemma dispatch_exit d : st d = Connecting ∨ st d = Reconnecting → queue d = [] →
  let d' := dispatch true ThreadExit d in
  thread d' = NoThread ∧ (st d' = S0 ∧ queue d' = [Start] ∨ st d' = Reconnecting ∧ queue d' = [] ∧ timer d' ≠ None).
Proof.
  intros Hs Hq. cbv zeta. unfold dispatch. cbn [validate]. rewrite bool_decide_eq_false_2 by (destruct Hs as [-> | ->]; done).
  set (d2 := report_down _). assert (core d2 = (Reconnecting, NoThread, timer d, queue d)) as Ec by (unfold d2; by rewrite report_down_core).
  clearbody d2. injection Ec as E1 E2 E3 E4. unfold action. rewrite E1. cbn [reconnecting].
  destruct (restart_now (disconnect d2)); cbn [enter].
  - split; [exact E2|]. left. split; [done|]. cbn. by rewrite E4, Hq.
  - split; [exact E2|]. right. split; [exact E1|]. split; [cbn; by rewrite E4|done].
Qed.

(** What the environment does when it is kind. *)
Definition kind (e : event (X := X)) : bool := match e with EWork ok => ok | ETimer => true | EConn ok => ok | EExit => true | _ => false end.

(** With nothing waiting. *)
Lemma idle_up d : Moving d → wanted d → queue d = [] → ∃ l, forallb kind l = true ∧ st (run d l) = Running.
Proof.
  intros [He Ht Hj Hw] Hwant Hq.
  assert (thread d ≠ Exited) as Hx by (intros E; rewrite Hq, bool_decide_eq_true_2 in He by done; done).
  assert (∀ d, st d = Reconnecting → queue d = [] → timer d ≠ None → thread d = NoThread →
    ∃ l, forallb kind l = true ∧ st (run d l) = Running) as Hrec.
  { clear. intros d Es Eq Et En. exists ([ETimer] ++ [EWork true; EConn true; EWork true]). split; [done|]. rewrite run_app.
    apply fresh_up; unfold run; cbn [foldl step]; destruct (timer d); try done; unfold dispatch; cbn [validate]; unfold action; cbn [st with_timer];
      rewrite Es; cbn [reconnecting enter set_state st thread queue post with_queue with_timer]; try done. by rewrite Eq. }
  assert (thread d = Checking ∨ thread d = Receiving → st d = Connecting ∨ st d = Reconnecting →
    ∃ l, forallb kind l = true ∧ st (run d l) = Running) as Hexit.
  { intros Hth Hs. set (d1 := with_queue [] (step d EExit)).
    assert (step (step d EExit) (EWork true) = dispatch true ThreadExit d1) as Es1.
    { unfold d1. cbn [step]. unfold thread_exits. destruct Hth as [-> | ->]; cbn [post with_thread queue with_queue]; by rewrite Hq. }
    destruct (dispatch_exit d1) as (Et & Hd1).
    { unfold d1. cbn [step]. unfold thread_exits. by destruct Hth as [-> | ->]. }
    { done. }
    rewrite <-Es1 in *. destruct Hd1 as [(E1 & E2)|(E1 & E2 & E3)].
    - exists ([EExit; EWork true] ++ [EWork true; EConn true; EWork true]). split; [done|]. rewrite run_app. by apply fresh_up.
    - destruct (Hrec _ E1 E2 E3 Et) as (l & Hl & Hr). exists ([EExit; EWork true] ++ l). split; [by rewrite forallb_app, Hl|].
      by rewrite run_app. }
  unfold wanted in Hwant. destruct (st d) eqn:Es.
  - rewrite Hq in Hwant. by apply not_elem_of_nil in Hwant.
  - specialize (Hj ltac:(auto)). destruct (thread d) eqn:Et; [done| |by apply Hexit; auto|done].
    apply Hexit; auto.
  - by exists [].
  - destruct (thread d) eqn:Et; [|apply Hexit; auto|apply Hexit; auto|done].
    destruct (Hw eq_refl) as [?|Htm]; [done|]. by apply (Hrec d).
  - done.
Qed.

(** Handling an item that waited adds at most a start, and keeps what is wanted. *)
Definition adds d d' (i : item) : Prop := queue d' = queue d ∨ queue d' = queue d ++ [Start] ∧ i ≠ Start.
Definition going d d' (i : item) : Prop := adds d d' i ∧
  (st d' = Connecting ∨ st d' = Running ∨ st d' = Reconnecting ∨ (st d' = S0 ∧ queue d' = queue d ++ [Start])).

Lemma reconnecting_going i d d0 : i = ThreadExit ∨ (∃ now, i = Reconnect now) → st d = Reconnecting → queue d = queue d0 →
  going d0 (enter (reconnecting i d)) i.
Proof.
  intros Hi Hs Hq. assert (enter (reconnecting i d) = enter (if restart_now (disconnect d)
    then (post Start (with_restart_now false (disconnect d)), Some S0) else (hold_off (disconnect d), None))) as ->.
  { destruct Hi as [->|[now ->]]; unfold reconnecting; by case_match. }
  assert (i ≠ Start) as Hn by (destruct Hi as [->|[now ->]]; done).
  destruct (restart_now (disconnect d)); cbn [enter].
  - split; [right|]; cbn; rewrite Hq; [done|]. auto.
  - split; [by left|]. right. right. left. exact Hs.
Qed.
Lemma handle_reconnect_going now i d : i ≠ Start → going d (enter (handle_reconnect now d)) i.
Proof.
  intros Hi. unfold handle_reconnect. destruct (handle_stop_core d) as [(_ & E2 & E3 & E4)%core_parts _].
  set (d1 := (handle_stop d).1) in *. clearbody d1. cbv zeta. destruct (joinable _).
  - split; [left; exact E4|]. right. right. by left.
  - destruct (reconnecting_going (Reconnect now) (set_state Reconnecting (with_restart_now now d1)) d) as [[H|[H _]] H'];
      [right; by eexists|done|exact E4|split; [by left|done]|split; [by right|done]].
Qed.
Lemma dispatch_going i d : i ≠ Stop → i ≠ Timeout → st d ≠ Shutdown →
  adds d (dispatch true i d) i ∧ (wanted (with_queue (i :: queue d) d) → wanted (dispatch true i d)).
Proof.
  intros H1 H2 H3. assert (∀ d', going d d' i → adds d d' i ∧ (wanted (with_queue (i :: queue d) d) → wanted d')) as Hg.
  { intros d' [Ha Hs]. split; [done|]. intros _. unfold wanted. destruct Hs as [->|[->|[->|[-> ->]]]]; try done. apply elem_of_app. right. by left. }
  assert (st d ≠ S0 ∨ i ≠ Start → adds d d i ∧ (wanted (with_queue (i :: queue d) d) → wanted d)) as Hsame.
  { intros Hi. split; [by left|]. unfold wanted. cbn. destruct (st d) eqn:Es; try done. intros [E|E]%elem_of_cons; [by destruct Hi|done]. }
  unfold dispatch. destruct i; cbn [validate]; try done.
  - unfold action. destruct (st d) eqn:Es; try (apply Hsame; left; congruence). cbn [s0 enter].
    destruct (connect_core true d) as (F1 & F2 & F3). split; [left|done]. cbn. unfold start_thread. by destruct (joinable _).
  - by apply Hg, handle_reconnect_going.
  - by apply Hg, handle_reconnect_going.
  - unfold action. destruct (st d) eqn:Es; try (apply Hsame; by right). cbn [connecting enter].
    pose proof (report_up_core d) as (E1 & E2 & E3 & E4)%core_parts. split; [left; exact E4|done].
  - rewrite bool_decide_eq_false_2 by done. set (d2 := report_down _).
    assert (core d2 = (Reconnecting, NoThread, timer d, queue d)) as Ec by (unfold d2; by rewrite report_down_core).
    clearbody d2. injection Ec as E1 E2 E3 E4. unfold action. rewrite E1. apply Hg, reconnecting_going; [by left|done|done].
  - unfold action. destruct (st d) eqn:Es; try (apply Hsame; by right). cbn [running enter].
    destruct (port d); [|apply Hsame; by right]. split; [by left|]. intros _. unfold wanted. cbn. by rewrite Es.
Qed.

(** Working off the queue ends. *)
Definition weight (i : item) : nat := match i with Start => 1 | _ => 2 end.
Definition load d : nat := list_sum (map weight (queue d)).
Lemma drain d : Moving d → wanted d → Stop ∉ queue d →
  ∃ n, let d' := run d (replicate n (EWork true)) in Moving d' ∧ wanted d' ∧ queue d' = [].
Proof.
  remember (load d) as k eqn:Ek. revert d Ek. induction (lt_wf k) as [k _ IH]. intros d Ek Hm Hw Hs.
  destruct (queue d) as [|i q] eqn:Eq; [by exists 0%nat|].
  set (d1 := with_queue q d). assert (step d (EWork true) = dispatch true i d1) as E1 by (cbn [step]; by rewrite Eq).
  apply not_elem_of_cons in Hs as [Hs1 Hs2].
  assert (i ≠ Timeout) as Ht by (intros ->; apply (mv_timeout d Hm); rewrite Eq; by left).
  assert (st d ≠ Shutdown) as Hn by (intros E; unfold wanted in Hw; by rewrite E in Hw).
  destruct (dispatch_going i d1) as [Ha Hw1]; [done..|].
  pose proof (step_moving d (EWork true) Hm) as Hm1. rewrite E1 in Hm1.
  assert (wanted (dispatch true i d1)) as Hw1'.
  { apply Hw1. unfold wanted in *. cbn. by rewrite <-Eq. }
  assert (load (dispatch true i d1) < k)%nat as Hlt.
  { rewrite Ek. unfold load. rewrite Eq. destruct Ha as [->|[-> Hi]]; [change (list_sum (map weight (i :: q))) with (weight i + list_sum (map weight q))%nat; change (queue d1) with q; destruct i; unfold weight; lia|].
    rewrite map_app, list_sum_app. change (list_sum (map weight (i :: q))) with (weight i + list_sum (map weight q))%nat.
    change (list_sum (map weight [Start])) with 1%nat. change (queue d1) with q. destruct i; unfold weight; try lia; by destruct Hi. }
  assert (Stop ∉ queue (dispatch true i d1)) as Hs1'.
  { destruct Ha as [->|[-> _]]; [done|]. rewrite not_elem_of_app, list_elem_of_singleton. done. }
  destruct (IH _ Hlt _ eq_refl Hm1 Hw1' Hs1') as (n & Hn'). exists (S n). cbn [replicate].
  change (run d (EWork true :: replicate n (EWork true))) with (run (step d (EWork true)) (replicate n (EWork true))). by rewrite E1.
Qed.

Lemma wanted_comes_up d : Moving d → wanted d → Stop ∉ queue d → ∃ l, forallb kind l = true ∧ st (run d l) = Running.
Proof.
  intros Hm Hw Hs. destruct (drain d Hm Hw Hs) as (n & Hm1 & Hw1 & Hq). destruct (idle_up _ Hm1 Hw1 Hq) as (l & Hl & Hr).
  exists (replicate n (EWork true) ++ l). rewrite forallb_app, Hl, run_app. split; [|done]. rewrite andb_true_r. clear. induction n as [|n IH]; [done|exact IH].
Qed.
End Retry.

(** C27: A Multinet datalink keeps trying. Whatever starts, stops, restarts, failed
    sends, expiries and events of the receive thread have happened, and whatever work
    items still wait: a datalink that is connecting, running or reconnecting, or halted
    with a start waiting, but not one that is still shutting down, which would lose a
    start, and for which no stop waits, comes up when the node works off its queue, the
    receive thread of an earlier connection ends, the timers expire and the next
    connection is made. *)
Theorem datalink_comes_up {X} `{Concrete X} (x : X) (l : list event) :
  let d := run (ready x) l in
  wanted d → Stop ∉ queue d →
  ∃ k, forallb kind k = true ∧ st (run d k) = Running ∧ is_up (run d k) = true.
Proof.
  intros d Hw Hs. destruct (wanted_comes_up d (run_moving _ l (new_moving x)) Hw Hs) as (k & Hk & Hr).
  exists k. split; [done|]. split; [done|]. assert (UpOk (run d k)) as [Hu _].
  { unfold d. apply run_up, run_up, owner_ready. }
  by rewrite Hu, Hr.
Qed.

(** What happens with no more orders. *)
Definition unordered {X} (e : event (X := X)) : bool := match e with EPost _ => false | _ => true end.
Lemma halted_stays {X} `{Concrete X} l (d : datalink X) : forallb unordered l = true →
  st d = S0 → queue d = [] → thread d = NoThread → st (run d l) = S0.
Proof.
  revert d. induction l as [|e l IH]; intros d Hl Hs Hq Ht; [done|]. cbn in Hl. apply andb_prop in Hl as [He Hl].
  change (run d (e :: l)) with (run (step d e) l). apply IH; [done|..]; destruct e; try done; cbn [step]; rewrite ?Hq; try done;
    try (destruct (timer d); [|done]; unfold dispatch; cbn [validate]; unfold action; cbn [st with_timer]; rewrite Hs; done);
    try (unfold thread_connects; by rewrite Ht); try (unfold thread_receives; by rewrite Ht); unfold thread_exits; by rewrite Ht.
Qed.

(** A start can be lost.  A datalink is up; it is stopped and started again before
    its receive thread has ended, as a circuit that is stopped and started does: the start
    is taken in the shutdown state, which ignores it, and once the thread has ended the
    datalink is halted with nothing waiting, and stays so until it is told again. *)
Theorem start_while_stopping_lost {X} `{Concrete X} (d : datalink X) (l : list event) :
  st d = Running → thread d = Receiving → queue d = [] → forallb unordered l = true →
  let d' := run d [EPost Stop; EPost Start; EWork true; EWork true; EExit; EWork true] in
  st d' = S0 ∧ queue d' = [] ∧ st (run d' l) = S0.
Proof.
  intros Hs Ht Hq Hl d'. assert (st d' = S0 ∧ queue d' = [] ∧ thread d' = NoThread) as (E1 & E2 & E3).
  { unfold d'. destruct d as [s t sn u rn tm rt p q o x]. cbn in Hs, Ht, Hq. subst. by destruct u, p. }
  split; [done|]. split; [done|]. by apply halted_stays.
Qed.

(** A reconnect that comes after the stop: what is left of the datalink. *)
Definition after_stale {X} `{Concrete X} (d : datalink X) : datalink X :=
  run d [EPost Stop; EPost (Reconnect false); EWork true; EWork true; EExit; EWork true; ETimer].
Lemma stale_restart {X} `{Concrete X} (d : datalink X) : st d = Running → thread d = Receiving → queue d = [] →
  run d [EPost Stop; EPost (Reconnect false); EWork true; EWork true; EExit; EWork true; ETimer; EWork true; EConn true; EWork true] =
  run (after_stale d) [EWork true; EConn true; EWork true].
Proof.
  intros _ _ _. exact (run_app d [EPost Stop; EPost (Reconnect false); EWork true; EWork true; EExit; EWork true; ETimer]
    [EWork true; EConn true; EWork true]).
Qed.
Lemma stale_fresh {X} `{Concrete X} (d : datalink X) : st d = Running → thread d = Receiving → queue d = [] →
  st (run (after_stale d) [EWork true; EConn true; EWork true]) = Running.
Proof.
  intros Hs Ht Hq. assert (st (after_stale d) = S0 ∧ thread (after_stale d) = NoThread ∧ queue (after_stale d) = [Start]) as (E1 & E2 & E3).
  { unfold after_stale. destruct d as [s t sn u rn tm rt p q o x]. cbn in Hs, Ht, Hq. subst. by destruct u, p. }
  by apply fresh_up.
Qed.

(** A stop can be undone.  A datalink is up; a send fails while a stop waits, so that a
    reconnect follows the stop: the reconnect is taken in the shutdown state, in which
    nothing more should happen, and after the holdoff the datalink connects again and is
    up, without anybody having started it. *)
Theorem stale_reconnect_restarts {X} `{Concrete X} (x : X) (l : list event) :
  let d := run (ready x) l in
  st d = Running → thread d = Receiving → queue d = [] →
  let d' := run d [EPost Stop; EPost (Reconnect false); EWork true; EWork true; EExit; EWork true; ETimer;
                   EWork true; EConn true; EWork true] in
  st d' = Running ∧ is_up d' = true.
Proof.
  intros d Hs Ht Hq d'. assert (UpOk d') as [Hu _] by (apply run_up, run_up, owner_ready). rewrite Hu.
  cut (st d' = Running); [by intros ->|]. clear Hu. unfold d'. clear d'. clearbody d.
  rewrite (stale_restart d Hs Ht Hq). by apply stale_fresh.
Qed.

(** A datalink that has come up, for the witnesses. *)
#[export] Instance plain_concrete : Concrete unit := {|
  hook_connect _ x := (x, None); hook_disconnect x := x; hook_received _ x := x |}.
Definition bring_up : list (event (X := unit)) := [EPost Start; EWork true; EConn true; EWork true].

Lemma datalink_comes_up_witness : ∃ k, forallb kind k = true ∧
  st (run (run (ready tt) (bring_up ++ [EPost Restart; EFrame [1]; EPost Start; EWork true])) k) = Running.
Proof.
  destruct (datalink_comes_up tt (bring_up ++ [EPost Restart; EFrame [1]; EPost Start; EWork true])) as (k & Hk & Hr & _).
  - reflexivity.
  - apply (bool_decide_unpack _). vm_compute. exact Logic.I.
  - exists k. split; [exact Hk|exact Hr].
Defined.
Lemma start_while_stopping_lost_witness :
  st (run (run (ready tt) bring_up) [EPost Stop; EPost Start; EWork true; EWork true; EExit; EWork true]) = S0.
Proof. exact (proj1 (start_while_stopping_lost (run (ready tt) bring_up) [] eq_refl eq_refl eq_refl eq_refl)). Defined.
Lemma stale_reconnect_restarts_witness :
  st (run (run (ready tt) bring_up) [EPost Stop; EPost (Reconnect false); EWork true; EWork true; EExit; EWork true; ETimer;
        EWork true; EConn true; EWork true]) = Running.
Proof. exact (proj1 (stale_reconnect_restarts tt bring_up eq_refl eq_refl eq_refl)). Defined.
