(* ===== verification/Multinet.v ===== *)
(** The Multinet datalinks: [include/decnet/datalink/multinet.h] and
    [src/datalink/multinet.cc] -- the device string, the framing over TCP with
    its transmit buffer, and the datagrams of the UDP form.

    What the system takes of a write is the environment's choice: a write loop
    takes the list of its answers.  What a TCP datalink asks of the node and of
    its receive thread is its log [posts]; [wire] is what the connection has
    taken since it was made, and [taken] the messages accepted for it. *)

From S2P Require Import Prelude Buffer Types Float DdcmpPackets Ddcmp PtpDatalink.
#[local] Open Scope Z_scope.

(** ** [MultinetDevice] *)

Inductive Mode := connect | listen | udp.
#[export] Instance Mode_eq_dec : EqDecision Mode.
Proof. solve_decision. Defined.
Record MultinetDevice := mkDevice { mode : Mode; destination : text; dest_port : Z; source_port : Z }.

Definition to_port (s : text) : option Z :=
  match parse_uint s with Ok v => if 65535 <? v then None else Some v | Throw _ => None end.

(** The parts between the colons. *)
Fixpoint split_colons (cur : text) (s : text) : list text :=
  match s with
  | [] => [cur]
  | c :: s => if decide (c = ":"%char) then cur :: split_colons [] s else split_colons (cur ++ [c]) s
  end.
Definition txt (s : string) : text := String.list_ascii_of_string s.

(** The mode and local port the last part gives. *)
Definition parse_tail (tail : text) : result (Mode * Z) :=
  if bool_decide (tail = txt "connect") then Ok (connect, 0)
  else if bool_decide (tail = txt "listen") then Ok (listen, 0)
  else if bool_decide (tail = []) then Ok (udp, 0)
  else match to_port tail with Some p => Ok (udp, p) | None => Throw InvalidArgument end.
Definition parse_parts (dest port tail : text) : result MultinetDevice :=
  p ← (if bool_decide (port = []) then Ok 700
       else match to_port port with Some p => Ok p | None => Throw InvalidArgument end);
  '(m, src) ← parse_tail tail;
  if negb (bool_decide (m = listen)) && bool_decide (dest = []) then Throw InvalidArgument
  else Ok (match m with
           | listen => mkDevice m dest 0 p
           | udp => mkDevice m dest p (if src =? 0 then p else src)
           | connect => mkDevice m dest p src
           end).
Definition device_parse (device : text) : result MultinetDevice :=
  match split_colons [] device with
  | [d; p] => parse_parts d p []
  | [d; p; t] => parse_parts d p t
  | _ => Throw InvalidArgument
  end.
(** [MultinetDevice::str]. *)
Definition device_str (d : MultinetDevice) : text :=
  txt (match mode d with connect => "connect" | listen => "listen" | udp => "udp" end) ++ txt " dest " ++
  (if bool_decide (destination d = []) then txt "*" else destination d) ++ txt ":" ++ print_uint (dest_port d) ++
  txt " source :" ++ print_uint (source_port d).

(** ** [TcpMultinet] *)

(** [conn_timer_]. *)
Definition conn_backoff : Backoff.t := Backoff.mk (f_of_Z 5) (f_of_Z 120) (f_of_Z 5) 0.

Definition hdrlen : nat := 4.
Definition max_frame : Z := 65535.
Definition max_backlog : Z := 262144.
Definition cork_limit : Z := 32768.

(** What the datalink asks for. *)
Inductive ask := PostReconnect | PostFlush | Wake | ThreadEnds.
#[export] Instance ask_eq_dec : EqDecision ask.
Proof. solve_decision. Defined.
(** What [sock_send] answers, interruptions aside. *)
Inductive answer := Took (n : nat) | WouldBlock | Failed.

Record counters := mkCounters { bytes_sent : Z; pkts_sent : Z; bytes_recv : Z; pkts_recv : Z }.
Record tcp := mkTcp {
  socket_ : bool;
  txbuf : Bytes;
  txoff : nat;
  posted : bool;
  blocked : bool;
  counters_ : counters;
  conn_timer : Backoff.t;
  wire : Bytes;
  taken : list Bytes;
  posts : list ask;
}.

Definition with_tx (buf : Bytes) (off : nat) (b : bool) (w : Bytes) (t : tcp) : tcp :=
  mkTcp (socket_ t) buf off (posted t) b (counters_ t) (conn_timer t) w (taken t) (posts t).
Definition with_posted (v : bool) (t : tcp) : tcp :=
  mkTcp (socket_ t) (txbuf t) (txoff t) v (blocked t) (counters_ t) (conn_timer t) (wire t) (taken t) (posts t).
Definition with_counters (v : counters) (t : tcp) : tcp :=
  mkTcp (socket_ t) (txbuf t) (txoff t) (posted t) (blocked t) v (conn_timer t) (wire t) (taken t) (posts t).
Definition ask_for (l : list ask) (t : tcp) : tcp :=
  mkTcp (socket_ t) (txbuf t) (txoff t) (posted t) (blocked t) (counters_ t) (conn_timer t) (wire t) (taken t) (posts t ++ l).
Definition buffer_frame (f msg : Bytes) (t : tcp) : tcp :=
  mkTcp (socket_ t) (txbuf t ++ f) (txoff t) (posted t) (blocked t) (counters_ t) (conn_timer t) (wire t) (taken t ++ [msg]) (posts t).

(** What is still to go. *)
Definition pending (t : tcp) : Bytes := drop (txoff t) (txbuf t).

(** [flush]: write until all is gone, the connection is full, or it fails. *)
Fixpoint flush (l : list answer) (t : tcp) : tcp * bool :=
  if (length (txbuf t) <=? txoff t)%nat then (with_tx [] 0 false (wire t) t, true)
  else
    let full := (with_tx (pending t) 0 true (wire t) t, true) in
    match l with
    | [] => full
    | Failed :: _ => (t, false)
    | WouldBlock :: _ => full
    | Took n :: l =>
        let n := Nat.min n (length (pending t)) in
        if (n =? 0)%nat then full
        else flush l (with_tx (txbuf t) (txoff t + n) (blocked t) (wire t ++ take n (pending t)) t)
    end.

(** The four byte header. *)
Definition framed (msg : Bytes) : Bytes := [u8 (Z.land (len msg) 255); u8 (Z.shiftr (len msg) 8); 0; 0] ++ msg.

(** [send], when the state is [running] or not. *)
Definition tcp_send (running : bool) (msg : Bytes) (l : list answer) (t : tcp) : tcp :=
  if negb (socket_ t) || negb running then t
  else if max_frame <? len msg then t
  else
    let waiting := len (pending t) in
    if max_backlog <? waiting + 4 + len msg then t
    else
      let t := buffer_frame (framed msg) msg t in
      let sent t := with_counters (mkCounters (u64 (bytes_sent (counters_ t) + len msg)) (u64 (pkts_sent (counters_ t) + 1))
                                     (bytes_recv (counters_ t)) (pkts_recv (counters_ t))) t in
      if blocked t then sent t
      else if cork_limit <=? waiting + 4 + len msg then
        let '(t, ok) := flush l t in
        if ok then ask_for (if blocked t then [Wake] else []) (sent t) else ask_for [PostReconnect] t
      else if negb (posted t) then ask_for [PostFlush] (sent (with_posted true t)) else sent t.

(** [flush_posted], a work item of the node. *)
Definition flush_posted (l : list answer) (t : tcp) : tcp :=
  if negb (posted t) then t
  else
    let t := with_posted false t in
    let '(t, ok) := if negb (blocked t) && negb (bool_decide (pending t = [])) then flush l t else (t, true) in
    if negb ok then ask_for [PostReconnect] t else if blocked t then ask_for [Wake] t else t.

(** The receive thread when the connection takes more. *)
Definition poll_out (l : list answer) (t : tcp) : tcp :=
  let '(t, ok) := flush l t in if ok then t else ask_for [ThreadEnds] t.

(** [disconnect]: what the connection takes now still goes. *)
Definition tcp_disconnect (l : list answer) (t : tcp) : tcp :=
  let t := if socket_ t && negb (blocked t) then (flush l t).1 else t in
  mkTcp false [] 0 (posted t) false (counters_ t) (conn_timer t) (wire t) (taken t) (posts t).

(** The receive thread's cut of what was read into frames: the frames, and
    what is left over. *)
Fixpoint cut (fuel : nat) (data : Bytes) : list Bytes * Bytes :=
  match fuel, data with
  | S fuel, a :: b :: _ :: _ :: rest =>
      let bc := Z.to_nat (Z.lor a (Z.shiftl b 8)) in
      if (length rest <? bc)%nat then ([], data)
      else let '(fs, over) := cut fuel (drop bc rest) in (take bc rest :: fs, over)
  | _, _ => ([], data)
  end.
Definition read_chunk (st : list Bytes * Bytes) (chunk : Bytes) : list Bytes * Bytes :=
  let '(fs, over) := cut (S (length (st.2 ++ chunk))) (st.2 ++ chunk) in (st.1 ++ fs, over).
Definition read_chunks (chunks : list Bytes) : list Bytes * Bytes := foldl read_chunk ([], []) chunks.

(** [running], of a frame: what is counted. *)
Definition count_received (f : Bytes) (t : tcp) : tcp :=
  with_counters (mkCounters (bytes_sent (counters_ t)) (pkts_sent (counters_ t))
    (u64 (bytes_recv (counters_ t) + len f)) (u64 (pkts_recv (counters_ t) + 1))) t.

(** [ConnectMultinet::connect] and [ListenMultinet::connect], when the system
    gives a socket or does not: a connection of its own, and the timer. *)
Definition next_timer (t : tcp) : tcp * double :=
  let '(v, b) := Backoff.next (conn_timer t) in
  (mkTcp (socket_ t) (txbuf t) (txoff t) (posted t) (blocked t) (counters_ t) b (wire t) (taken t) (posts t), v).
Definition new_connection (v : bool) (t : tcp) : tcp :=
  mkTcp v (txbuf t) (txoff t) (posted t) (blocked t) (counters_ t) (conn_timer t) [] [] (posts t).
Definition tcp_connect (ok : bool) (t : tcp) : tcp * option double :=
  let '(t, v) := next_timer (new_connection ok t) in (t, Some v).
(** [ListenMultinet::check_connection]: the data socket. *)
Definition accepted (t : tcp) : tcp := new_connection true t.
Definition tcp_listen (ok : bool) (t : tcp) : tcp * option double :=
  if ok then (t, None) else let '(t, v) := next_timer t in (t, Some v).

(** [PtpDatalink]'s view of it; [l] is what a connection going down answers. *)
Definition connect_multinet (l : list answer) : Concrete tcp := {|
  hook_connect := tcp_connect; hook_disconnect := tcp_disconnect l; hook_received := count_received |}.
Definition listen_multinet (l : list answer) : Concrete tcp := {|
  hook_connect := tcp_listen; hook_disconnect := tcp_disconnect l; hook_received := count_received |}.

(** ** [UdpMultinet] *)

Definition udp_frame (seq : Z) (msg : Bytes) : Bytes := [u8 (Z.land seq 255); u8 (Z.shiftr seq 8); 0; 0] ++ msg.
(** [send]: the datagram, and the next sequence number. *)
Definition udp_send (seq : Z) (msg : Bytes) : Bytes * Z := (udp_frame seq msg, u16 (seq + 1)).
(** [receive_loop], for a datagram of the peer: the buffer has 1500 bytes. *)
Definition udp_receive (datagram : Bytes) : option Bytes :=
  let b := take 1500 datagram in
  if len b <=? 4 then None else Some (drop 4 b).

(** ** The stream of a connection *)

(** What the node and the receive thread do with a connection, in any order. *)
Inductive tcp_op := Send (running : bool) (msg : Bytes) (l : list answer) | FlushPosted (l : list answer) | PollOut (l : list answer).
Definition tcp_step (t : tcp) (o : tcp_op) : tcp :=
  match o with
  | Send running msg l => tcp_send running msg l t
  | FlushPosted l => flush_posted l t
  | PollOut l => poll_out l t
  end.
Definition tcp_run (t : tcp) (ops : list tcp_op) : tcp := foldl tcp_step t ops.

(** A datalink whose connection has just been made. *)
Definition fresh (t : tcp) : Prop := txbuf t = [] /\ txoff t = 0%nat /\ wire t = [] /\ taken t = [].

(** Someone will see to what is waiting, or the connection is to go. *)
Definition looked_after (t : tcp) : Prop :=
  posted t = true \/ blocked t = true \/ PostReconnect ∈ posts t \/ ThreadEnds ∈ posts t.
Record stream_ok (t : tcp) : Prop := {
  ok_stream : List.concat (framed <$> taken t) = wire t ++ pending t;
  ok_sizes : Forall (fun m => len m <= max_frame) (taken t);
  ok_waiting : pending t = [] \/ looked_after t;
  ok_backlog : len (pending t) <= max_backlog;
  ok_offset : (txoff t <= length (txbuf t))%nat;
}.

(** A flush moves bytes from the buffer to the connection, and says so. *)
Record flushed (t t' : tcp) (ok : bool) : Prop := {
  fl_stream : wire t' ++ pending t' = wire t ++ pending t;
  fl_less : len (pending t') <= len (pending t);
  fl_taken : taken t' = taken t;
  fl_posts : posts t' = posts t;
  fl_posted : posted t' = posted t;
  fl_ok : ok = true -> pending t' = [] \/ blocked t' = true;
  fl_offset : (txoff t <= length (txbuf t) -> txoff t' <= length (txbuf t'))%nat;
}.

Lemma flushed_done t : (length (txbuf t) <= txoff t)%nat -> flushed t (with_tx [] 0 false (wire t) t) true.
Proof.
  intros Hl. assert (E : pending t = []) by (unfold pending; by apply drop_ge).
  split; rewrite ?E; auto; cbn; lia.
Qed.
Lemma flushed_full t : flushed t (with_tx (pending t) 0 true (wire t) t) true.
Proof. split; unfold pending; cbn; rewrite ?drop_0; auto; lia. Qed.

Lemma flushed_trans t t1 t2 ok :
  wire t1 ++ pending t1 = wire t ++ pending t -> len (pending t1) <= len (pending t) ->
  taken t1 = taken t -> posts t1 = posts t -> posted t1 = posted t ->
  (txoff t <= length (txbuf t) -> txoff t1 <= length (txbuf t1))%nat ->
  flushed t1 t2 ok -> flushed t t2 ok.
Proof. intros E1 E2 E3 E4 E5 E6 []. split; auto; [congruence|lia|congruence..]. Qed.

Lemma flush_spec l t : flushed t (flush l t).1 (flush l t).2.
Proof.
  revert t. induction l as [|a l IH]; intros t; cbn [flush];
    (destruct (Nat.leb_spec (length (txbuf t)) (txoff t)) as [Hl|Hl];
      [by apply flushed_done|]);
    [apply flushed_full|].
  destruct a as [n| |]; [| apply flushed_full | cbn [fst snd]; split; auto; [lia|discriminate]].
  assert (Hp : length (pending t) = (length (txbuf t) - txoff t)%nat) by (unfold pending; apply length_drop).
  set (m := Nat.min n (length (pending t))).
  destruct (Nat.eqb_spec m 0) as [E|E]; [apply flushed_full|].
  set (t1 := with_tx (txbuf t) (txoff t + m) (blocked t) (wire t ++ take m (pending t)) t).
  assert (Ep : pending t1 = drop m (pending t)) by (unfold pending; cbn; by rewrite drop_drop).
  apply (flushed_trans t t1); [| | done | done | done | | apply IH]; rewrite ?Ep.
  - cbn [wire with_tx t1]. by rewrite <-app_assoc, take_drop.
  - unfold len. rewrite length_drop. lia.
  - cbn. lia.
Qed.

Lemma len_framed msg : len (framed msg) = 4 + len msg.
Proof. unfold framed, len. rewrite length_app. cbn. lia. Qed.

(** The parts of the invariant that a flush, a count or an answer keeps. *)
Record stream_core (t : tcp) : Prop := {
  co_stream : List.concat (framed <$> taken t) = wire t ++ pending t;
  co_sizes : Forall (fun m => len m <= max_frame) (taken t);
  co_backlog : len (pending t) <= max_backlog;
  co_offset : (txoff t <= length (txbuf t))%nat;
}.
Lemma core_flushed t t' ok : flushed t t' ok -> stream_core t -> stream_core t'.
Proof. intros [] []. split; [congruence|congruence|lia|auto]. Qed.
Lemma core_same t t' :
  txbuf t' = txbuf t -> txoff t' = txoff t -> wire t' = wire t -> taken t' = taken t -> stream_core t -> stream_core t'.
Proof. intros E1 E2 E3 E4 []. unfold pending in *. split; unfold pending; by rewrite ?E1, ?E2, ?E3, ?E4. Qed.
Lemma stream_of_core t : stream_core t -> (pending t = [] \/ looked_after t) -> stream_ok t.
Proof. intros [] ?. by split. Qed.
Lemma core_of_stream t : stream_ok t -> stream_core t.
Proof. intros []. by split. Qed.

Lemma core_buffered msg t :
  len msg <= max_frame -> len (pending t) + 4 + len msg <= max_backlog ->
  stream_core t -> stream_core (buffer_frame (framed msg) msg t).
Proof.
  intros Hm Hk [Hs Hz Hb Ho].
  assert (Ep : pending (buffer_frame (framed msg) msg t) = pending t ++ framed msg)
    by (unfold pending; cbn [txbuf txoff buffer_frame]; by rewrite drop_app_le).
  split; rewrite ?Ep.
  - change (taken (buffer_frame (framed msg) msg t)) with (taken t ++ [msg]).
    change (wire (buffer_frame (framed msg) msg t)) with (wire t).
    rewrite fmap_app, List.concat_app, Hs, <-!app_assoc. cbn [fmap list_fmap List.concat]. by rewrite app_nil_r.
  - apply Forall_app. auto.
  - rewrite len_app, len_framed. lia.
  - cbn. rewrite length_app. lia.
Qed.

(** What an operation adds to the posts never matters to what was waiting. *)
Lemma ask_looked l t : looked_after t -> looked_after (ask_for l t).
Proof.
  unfold looked_after; cbn. intros [?|[?|[?|?]]]; auto; right; right; [left|right]; apply elem_of_app; auto.
Qed.
Lemma ask_reconnect l t : PostReconnect ∈ l \/ ThreadEnds ∈ l -> looked_after (ask_for l t).
Proof. unfold looked_after; cbn. intros [?|?]; right; right; [left|right]; apply elem_of_app; auto. Qed.

Lemma flush_or_ask l x t t' ok :
  (x = PostReconnect \/ x = ThreadEnds) -> flush l t = (t', ok) ->
  pending (if ok then t' else ask_for [x] t') = [] \/ looked_after (if ok then t' else ask_for [x] t').
Proof.
  intros Hx E. pose proof (flush_spec l t) as Hf. rewrite E in Hf. destruct Hf. destruct ok.
  - destruct fl_ok0 as [?|?]; [done|auto|]. right. unfold looked_after. auto.
  - right. apply ask_reconnect. destruct Hx as [-> | ->]; [left|right]; by apply list_elem_of_singleton.
Qed.

Lemma flush_core l t t' ok : flush l t = (t', ok) -> stream_core t -> stream_core t'.
Proof. intros E. pose proof (flush_spec l t) as Hf. rewrite E in Hf. exact (core_flushed _ _ _ Hf). Qed.

Lemma tcp_send_ok running msg l t : stream_ok t -> stream_ok (tcp_send running msg l t).
Proof.
  intros Ho. unfold tcp_send. destruct (_ || _); [done|].
  destruct (Z.ltb_spec max_frame (len msg)) as [|Hm]; [done|].
  destruct (Z.ltb_spec max_backlog (len (pending t) + 4 + len msg)) as [|Hk]; [done|].
  pose proof (core_buffered msg t Hm Hk (core_of_stream _ Ho)) as Hc. cbv zeta.
  generalize (cork_limit <=? len (pending t) + 4 + len msg). intros big.
  set (t1 := buffer_frame (framed msg) msg t) in *. clearbody t1. clear Ho Hk t.
  destruct (blocked t1) eqn:Hb.
  { apply stream_of_core; [by eapply core_same; [..|exact Hc]|]. right. unfold looked_after. auto. }
  destruct big.
  - destruct (flush l t1) as [t2 ok] eqn:E. pose proof (flush_core _ _ _ _ E Hc) as Hc2.
    pose proof (flush_or_ask l PostReconnect t1 t2 ok (or_introl eq_refl) E) as Hw.
    destruct ok; apply stream_of_core; try (by eapply core_same; [..|exact Hc2]); [|done].
    destruct Hw as [Hw|Hw]; [by left|right]. by apply ask_looked.
  - destruct (posted t1) eqn:Hp; cbn [negb]; (apply stream_of_core; [by eapply core_same; [..|exact Hc]|]);
      right; left; done.
Qed.

Lemma flush_posted_ok l t : stream_ok t -> stream_ok (flush_posted l t).
Proof.
  intros Ho. unfold flush_posted. destruct (posted t); [|done]. cbv zeta. cbn [negb].
  pose proof (core_same t (with_posted false t) eq_refl eq_refl eq_refl eq_refl (core_of_stream _ Ho)) as Hc.
  set (t1 := with_posted false t) in *. clearbody t1. clear Ho t.
  destruct (negb (blocked t1) && negb (bool_decide (pending t1 = []))) eqn:Hd.
  - destruct (flush l t1) as [t2 ok] eqn:E. pose proof (flush_core _ _ _ _ E Hc) as Hc2.
    pose proof (flush_or_ask l PostReconnect t1 t2 ok (or_introl eq_refl) E) as Hw.
    destruct ok; cbn [negb].
    + destruct (blocked t2); apply stream_of_core; try (by eapply core_same; [..|exact Hc2]); try done.
      destruct Hw as [Hw|Hw]; [by left|right]. by apply ask_looked.
    + apply stream_of_core; [by eapply core_same; [..|exact Hc2]|done].
  - destruct (blocked t1) eqn:Hb; cbn in *.
    + apply stream_of_core; [by eapply core_same; [..|exact Hc]|]. right. unfold looked_after. auto.
    + apply stream_of_core; [done|]. left. apply negb_false_iff, bool_decide_eq_true in Hd. done.
Qed.

Lemma poll_out_ok l t : stream_ok t -> stream_ok (poll_out l t).
Proof.
  intros Ho. unfold poll_out. destruct (flush l t) as [t2 ok] eqn:E.
  pose proof (flush_core _ _ _ _ E (core_of_stream _ Ho)) as Hc2.
  pose proof (flush_or_ask l ThreadEnds t t2 ok (or_intror eq_refl) E) as Hw.
  destruct ok; apply stream_of_core; try done. by eapply core_same; [..|exact Hc2].
Qed.

Lemma tcp_run_ok ops t : stream_ok t -> stream_ok (tcp_run t ops).
Proof.
  revert t. induction ops as [|o ops IH]; intros t H; [done|]. apply IH.
  destruct o; [by apply tcp_send_ok|by apply flush_posted_ok|by apply poll_out_ok].
Qed.

Lemma fresh_ok t : fresh t -> stream_ok t.
Proof.
  intros (E1 & E2 & E3 & E4). apply stream_of_core; [split|]; unfold pending; rewrite ?E1, ?E2, ?E3, ?E4; auto;
    unfold len, max_backlog; cbn; lia.
Qed.

(** ** Reading the stream *)

(** The cut with fuel enough. *)
Definition cut_all (data : Bytes) : list Bytes * Bytes := cut (S (length data)) data.

Lemma cut_fuel n m data : (length data < n)%nat -> (length data < m)%nat -> cut n data = cut m data.
Proof.
  revert m data. induction n as [|n IH]; intros [|m] data Hn Hm; try lia.
  destruct data as [|a [|b [|c [|d rest]]]]; try done. cbn [cut]. cbn in Hn, Hm.
  destruct (_ <? _)%nat; [done|]. rewrite (IH m); [done| |]; rewrite length_drop; lia.
Qed.

Definition size_of (a b : Z) : nat := Z.to_nat (Z.lor a (Z.shiftl b 8)).
Lemma cut_all_frame a b c d rest :
  cut_all (a :: b :: c :: d :: rest) =
    if (length rest <? size_of a b)%nat then ([], a :: b :: c :: d :: rest)
    else (take (size_of a b) rest :: (cut_all (drop (size_of a b) rest)).1, (cut_all (drop (size_of a b) rest)).2).
Proof.
  unfold cut_all at 1. cbn [cut]. fold (size_of a b). destruct (_ <? _)%nat; [done|].
  rewrite (cut_fuel _ (S (length (drop (size_of a b) rest)))) by (cbn; rewrite ?length_drop; lia).
  fold (cut_all (drop (size_of a b) rest)). by destruct cut_all.
Qed.

Lemma cut_all_short x : (length x < 4)%nat -> cut_all x = ([], x).
Proof. intros H. unfold cut_all. destruct x as [|a [|b [|c [|d rest]]]]; try done. cbn in H. lia. Qed.

(** Cutting what was read and then the rest, with what was left over before it, is cutting the whole. *)
Lemma cut_all_app x y :
  cut_all (x ++ y) = ((cut_all x).1 ++ (cut_all ((cut_all x).2 ++ y)).1, (cut_all ((cut_all x).2 ++ y)).2).
Proof.
  remember (length x) as n eqn:En. revert x En. induction (lt_wf n) as [n _ IH]; intros x ->.
  destruct (Nat.lt_ge_cases (length x) 4) as [Hs|Hs].
  { rewrite (cut_all_short x Hs). cbn [fst snd]. by rewrite app_nil_l, <-surjective_pairing. }
  destruct x as [|a [|b [|c [|d rest]]]]; try (cbn in Hs; lia).
  rewrite (cut_all_frame a b c d rest). destruct (Nat.ltb_spec (length rest) (size_of a b)) as [Hl|Hl].
  { cbn [fst snd]. by rewrite app_nil_l, <-surjective_pairing. }
  cbn [fst snd]. change ((a :: b :: c :: d :: rest) ++ y) with (a :: b :: c :: d :: rest ++ y).
  rewrite cut_all_frame. destruct (Nat.ltb_spec (length (rest ++ y)) (size_of a b)) as [Hl2|_];
    [rewrite length_app in Hl2; lia|].
  rewrite take_app_le, drop_app_le by done.
  rewrite (IH (length (drop (size_of a b) rest))); [done| |done]. cbn. rewrite length_drop. lia.
Qed.

Lemma read_chunks_all chunks : read_chunks chunks = cut_all (List.concat chunks).
Proof.
  unfold read_chunks. induction chunks as [|c chunks IH] using rev_ind; [done|].
  rewrite foldl_app, IH. cbn [foldl]. rewrite List.concat_app. cbn [List.concat]. rewrite app_nil_r, cut_all_app.
  unfold read_chunk. fold (cut_all ((cut_all (List.concat chunks)).2 ++ c)). by destruct (cut_all (_ ++ c)).
Qed.

Lemma framed_size (msg : Bytes) : len msg <= max_frame ->
  size_of (u8 (Z.land (len msg) 255)) (u8 (Z.shiftr (len msg) 8)) = length msg.
Proof.
  intros Hm. pose proof (len_nonneg msg). unfold size_of, max_frame in *.
  rewrite u8_small by (change 255 with (Z.ones 8); rewrite Z.land_ones by lia; apply Z.mod_pos_bound; lia).
  rewrite join16 by lia. unfold len. lia.
Qed.

(** Any part of the stream that has come gives the first messages. *)
Lemma cut_all_stream ms pre rest :
  Forall (fun m => len m <= max_frame) ms -> List.concat (framed <$> ms) = pre ++ rest ->
  exists k, (cut_all pre).1 = take k ms /\ List.concat (framed <$> drop k ms) = (cut_all pre).2 ++ rest.
Proof.
  intros Hf. revert pre. induction Hf as [|m ms Hm Hf IH]; intros pre E.
  { destruct pre; [|done]. by exists 0%nat. }
  cbn [fmap list_fmap List.concat] in E.
  destruct pre as [|a [|b [|c [|d pre]]]]; try (exists 0%nat; cbn [drop fmap list_fmap List.concat]; by rewrite E).
  injection E as <- <- <- <- E. change (list_fmap Bytes Bytes framed ms) with (framed <$> ms) in E.
  rewrite cut_all_frame, framed_size by done.
  destruct (Nat.ltb_spec (length pre) (length m)) as [Hl|Hl].
  { exists 0%nat. split; [done|]. cbn [drop fmap list_fmap List.concat snd].
    change (framed m) with (u8 (Z.land (len m) 255) :: u8 (Z.shiftr (len m) 8) :: 0 :: 0 :: m). cbn [app]. by rewrite E. }
  assert (Em : take (length m) pre = m /\ List.concat (framed <$> ms) = drop (length m) pre ++ rest).
  { rewrite <-(take_app_le pre rest), <-(drop_app_le pre rest), <-E by done. by rewrite take_app_length, drop_app_length. }
  destruct Em as [Em E2]. destruct (IH _ E2) as (k & Hk1 & Hk2).
  exists (S k). cbn [fst snd take drop]. by rewrite Em, Hk1.
Qed.

Lemma cut_all_whole ms : Forall (fun m => len m <= max_frame) ms -> cut_all (List.concat (framed <$> ms)) = (ms, []).
Proof.
  induction 1 as [|m ms Hm _ IH]; [done|].
  change (List.concat (framed <$> m :: ms)) with
    (u8 (Z.land (len m) 255) :: u8 (Z.shiftr (len m) 8) :: 0 :: 0 :: m ++ List.concat (framed <$> ms)).
  rewrite cut_all_frame, framed_size by done.
  destruct (Nat.ltb_spec (length (m ++ List.concat (framed <$> ms))) (length m)) as [Hl|_]; [rewrite length_app in Hl; lia|].
  by rewrite take_app_length, drop_app_length, IH.
Qed.

(** The messages the operations hand to [send]. *)
Definition sent_by (o : tcp_op) : list Bytes := match o with Send _ msg _ => [msg] | _ => [] end.

Lemma flush_taken l t : taken (flush l t).1 = taken t.
Proof. apply flush_spec. Qed.
Lemma step_taken t o : exists got, taken (tcp_step t o) = taken t ++ got /\ got `sublist_of` sent_by o.
Proof.
  assert (Hnil : forall t', taken t' = taken t -> exists got, taken t' = taken t ++ got /\ got `sublist_of` sent_by o).
  { intros t' ->. exists []. split; [by rewrite app_nil_r|apply sublist_nil_l]. }
  destruct o as [running msg l|l|l]; cbn [tcp_step sent_by] in *.
  - unfold tcp_send. destruct (_ || _); [by apply Hnil|]. destruct (max_frame <? _); [by apply Hnil|].
    destruct (max_backlog <? _); [by apply Hnil|]. cbv zeta. exists [msg]. split; [|done].
    destruct (blocked _); [done|]. destruct (cork_limit <=? _).
    + pose proof (flush_taken l (buffer_frame (framed msg) msg t)) as Hf. destruct flush as [t2 ok].
      cbn [fst] in Hf. by destruct ok.
    + by destruct (negb _).
  - apply Hnil. unfold flush_posted. destruct (negb (posted t)); [done|]. cbv zeta.
    destruct (negb (blocked _) && _).
    + pose proof (flush_taken l (with_posted false t)) as Hf. destruct flush as [t2 ok]. cbn [fst] in Hf.
      destruct ok; cbn [negb]; [by destruct (blocked t2)|done].
    + cbn [negb]. by destruct (blocked _).
  - apply Hnil. unfold poll_out. pose proof (flush_taken l t) as Hf. destruct flush as [t2 ok]. by destruct ok.
Qed.
Lemma run_taken ops t : exists got, taken (tcp_run t ops) = taken t ++ got /\ got `sublist_of` List.concat (sent_by <$> ops).
Proof.
  revert t. induction ops as [|o ops IH]; intros t; [exists []; by rewrite app_nil_r|].
  destruct (step_taken t o) as (g1 & E1 & H1). destruct (IH (tcp_step t o)) as (g2 & E2 & H2).
  exists (g1 ++ g2). cbn [tcp_run foldl]. fold (tcp_run (tcp_step t o) ops). rewrite E2, E1, <-app_assoc. split; [done|].
  by apply sublist_app.
Qed.

(** A datagram round trip: the receive buffer has room for 1496 bytes of message. *)
Lemma udp_round seq msg : 1 <= len msg <= 1496 -> udp_receive (udp_send seq msg).1 = Some msg.
Proof.
  intros Hm. unfold udp_receive, udp_send, udp_frame. cbn [fst].
  rewrite (take_ge _ 1500) by (rewrite length_app; unfold len in Hm; cbn; lia). rewrite len_app.
  change (len [_; _; _; _]) with 4. destruct (Z.leb_spec (4 + len msg) 4); [lia|done].
Qed.
Lemma udp_truncates seq msg : 1496 < len msg -> udp_receive (udp_send seq msg).1 = Some (take 1496 msg).
Proof.
  intros Hm. unfold udp_receive, udp_send, udp_frame. cbn [fst]. rewrite take_app_ge by (cbn; lia).
  cbn [length Nat.sub]. rewrite len_app. change (len [_; _; _; _]) with 4.
  destruct (Z.leb_spec (4 + len (take 1496 msg)) 4) as [Hl|Hl]; [|done].
  unfold len in *. rewrite length_take in Hl. lia.
Qed.

(** C28: what a TCP Multinet datalink writes, in whatever pieces the system
    takes it and the peer reads it, comes out as a prefix of the messages that
    were accepted, in order and whole, and these are messages that were sent;
    when everything has gone and arrived it is all of them, with nothing left
    over.  Bytes that wait never exceed the backlog, and someone is to write
    them: a work item of the node, the receive thread, or the end of the
    connection has been asked for. *)
Theorem multinet_stream t ops chunks later :
  fresh t -> wire (tcp_run t ops) = List.concat chunks ++ later ->
  let t' := tcp_run t ops in
  (exists k, (read_chunks chunks).1 = take k (taken t')) /\
  (pending t' = [] -> later = [] -> read_chunks chunks = (taken t', [])) /\
  taken t' `sublist_of` List.concat (sent_by <$> ops) /\
  len (pending t') <= max_backlog /\
  (pending t' = [] \/ looked_after t').
Proof.
  intros Hfresh Hw t'. pose proof (tcp_run_ok ops t (fresh_ok t Hfresh)) as [Hs Hz Hl Hb _]. fold t' in Hs, Hz, Hl, Hb, Hw.
  rewrite Hw, <-app_assoc in Hs. destruct (cut_all_stream _ _ _ Hz Hs) as (k & E1 & E2).
  rewrite read_chunks_all. split; [by exists k|]. split.
  - intros Hp ->. rewrite Hp, !app_nil_r in *.
    rewrite <-Hs. by apply cut_all_whole.
  - split; [|done]. destruct (run_taken ops t) as (got & E & H). destruct Hfresh as (_ & _ & _ & Et).
    rewrite Et in E. cbn [app] in E. by rewrite <-E in H.
Qed.
Definition idle_tcp : tcp := mkTcp true [] 0 false false (mkCounters 0 0 0 0) conn_backoff [] [] [].
Definition burst : list tcp_op :=
  [Send true [1; 2; 3] []; Send true [] []; FlushPosted [Took 2; WouldBlock]; Send true [4] []; PollOut [Took 7; Took 9]].
Lemma multinet_stream_witness :
  read_chunks [[3; 0; 0]; [0; 1; 2; 3; 0; 0; 0]; [0; 1; 0; 0; 0; 4]] = ([[1; 2; 3]; []; [4]], []).
Proof.
  pose proof (multinet_stream idle_tcp burst [[3; 0; 0]; [0; 1; 2; 3; 0; 0; 0]; [0; 1; 0; 0; 0; 4]] []) as H.
  assert (Hf : fresh idle_tcp) by (repeat split).
  assert (Hw : wire (tcp_run idle_tcp burst) = List.concat [[3; 0; 0]; [0; 1; 2; 3; 0; 0; 0]; [0; 1; 0; 0; 0; 4]] ++ [])
    by (vm_compute; reflexivity).
  exact (proj1 (proj2 (H Hf Hw)) eq_refl eq_refl).
Defined.
