(* ===== verification/Config.v ===== *)
(** The configuration file: [include/decnet/config.h] and
    [src/common/config.cc].

    Files, the environment variable of the API socket and [std::stod] are the
    class [Environment].  A file can include node files, and those again: an
    inclusion takes fuel, and fuel used up is [InternalError], which nothing
    here throws otherwise.  Every other exception ends as the
    [std::runtime_error] that carries the place. *)

From S2P Require Import Prelude Types Float.
#[local] Open Scope Z_scope.

Definition word (s : string) : text := String.list_ascii_of_string s.
Definition is_word (t : text) (s : string) : bool := bool_decide (t = word s).
Class Environment := {
  read_file : text → option text;          (* [None] when it cannot be opened *)
  getenv_api : option text;
  stod : text → option double;             (* [None] when it throws *)
}.

(** ** Words *)

Definition quote_chars : list ascii := [chr 34; chr 39].
Definition is_space (c : ascii) : bool := bool_decide (c = " "%char) || bool_decide (c = chr 9) || bool_decide (c = chr 13).
(** [split_config_line], from the state of its loop. *)
Fixpoint split_from (words : list text) (cur : text) (in_word : bool) (quote : option ascii) (s : text) : result (list text) :=
  match s with
  | [] => match quote with
          | Some _ => Throw RuntimeError
          | None => Ok (if in_word then words ++ [cur] else words)
          end
  | c :: s =>
      match quote with
      | Some q => if bool_decide (c = q) then split_from words cur in_word None s else split_from words (cur ++ [c]) in_word quote s
      | None =>
          if bool_decide (c ∈ quote_chars) then split_from words cur true (Some c) s
          else if bool_decide (c = "#"%char) then Ok (if in_word then words ++ [cur] else words)
          else if is_space c then
            (if in_word then split_from (words ++ [cur]) [] false None s else split_from words cur false None s)
          else split_from words (cur ++ [c]) true None s
      end
  end.
Definition split_config_line (line : text) : result (list text) := split_from [] [] false None line.

(** ** [ConfigLine] *)

Record ConfigLine := mkLine { command : text; positional : list text; options : gmap text (list text); source : text }.
Definition is_option (w : text) : bool :=
  match w with a :: b :: _ :: _ => bool_decide (a = "-"%char) && bool_decide (b = "-"%char) | _ => false end.
Definition add_option (n : text) (v : list text) (l : ConfigLine) : ConfigLine :=
  mkLine (command l) (positional l) (<[n := default [] (options l !! n) ++ v]> (options l)) (source l).
Definition add_positional (w : text) (l : ConfigLine) : ConfigLine := mkLine (command l) (positional l ++ [w]) (options l) (source l).
(** [name.find ('=')]: the text before and after. *)
Fixpoint find_equals (s : text) : option (text * text) :=
  match s with
  | [] => None
  | c :: s => if bool_decide (c = "="%char) then Some ([], s) else '(a, b) ← find_equals s; Some (c :: a, b)
  end.
Fixpoint parse_words (ws : list text) (l : ConfigLine) : ConfigLine :=
  match ws with
  | [] => l
  | w :: ws =>
      if is_option w then
        let name := drop 2 w in
        match find_equals name with
        | Some (n, v) => parse_words ws (add_option n [v] l)
        | None =>
            match ws with
            | v :: ws' => if is_option v then parse_words ws (add_option name [] l) else parse_words ws' (add_option name [v] l)
            | [] => add_option name [] l
            end
        end
      else parse_words ws (add_positional w l)
  end.
Definition parse_config_line (words : list text) (source : text) : ConfigLine :=
  match words with
  | [] => mkLine [] [] ∅ source
  | w :: ws => parse_words ws (mkLine w [] ∅ source)
  end.

Definition has (l : ConfigLine) (n : string) : bool := bool_decide (is_Some (options l !! word n)).
Definition opt (l : ConfigLine) (n : string) (dflt : text) : text :=
  match options l !! word n with Some (v :: _) => v | _ => dflt end.
Definition to_uint (s : text) : result Z := match parse_uint s with Ok v => Ok v | Throw _ => Throw RuntimeError end.
(** An option that is there, or what the member holds. *)
Definition uint_option (l : ConfigLine) (n : string) (v : Z) : result Z :=
  if has l n then to_uint (opt l n []) else Ok v.

(** ** What the lines say *)

Record CircuitConfig := mkCircuit {
  c_name : text; c_type : text; c_device : text; cost : Z; c_t1 : Z; c_t3 : Z; mop : bool; random_address : bool;
  priority : Z; maxrouters : Z; console : text; verify : text; raw : ConfigLine }.
Record RoutingConfig := mkRouting {
  r_id : Z; r_type : NodeType; maxnodes : Z; maxarea : Z; maxhops : Z; maxcost : Z; maxvisits : Z;
  amaxhops : Z; amaxcost : Z; r_t1 : Z; bct1 : Z }.
Record NodeConfig := mkNode {
  n_id : Z; n_name : text; inbound_verification : text; outbound_verification : text; from_source : bool }.
Record NodeSourceConfig := mkSource { url : text; cache : text; refresh : Z }.
Record ObjectConfig := mkObjectConfig { number : Z; o_name : text; o_file : text; o_arguments : list text }.
Record ChostConfig := mkChost { h_name : text; h_file : text; h_arguments : list text; description : text; term : text }.
Record NspConfig := mkNsp {
  max_connections : Z; qmax : Z; weight : Z; delay_factor : double; min_delay : double; lan_min_delay : double; retransmits : Z }.
Record LoggingConfig := mkLogging {
  l_type : text; sink_node : text; sink_username : text; sink_password : text; sink_account : text; sink_file : text; l_events : text }.

Record Config := mkConfig {
  base_dir_ : text;
  in_source_include_ : bool;
  circuits_ : list CircuitConfig;
  nodes_ : list NodeConfig;
  node_sources_ : list NodeSourceConfig;
  learn_names_ : bool;
  learn_refresh_ : Z;
  objects_ : list ObjectConfig;
  chosts_ : list ChostConfig;
  logging_ : list LoggingConfig;
  nsp_ : NspConfig;
  routing_ : option RoutingConfig;
  unhandled_ : list ConfigLine;
  identification_ : text;
  node_name_ : text;
  http_port_ : Z;
  api_socket_ : text;
  api_mode_ : Z;
  api_on_demand_ : bool;
  api_idle_ : Z;
}.

Definition put_base_dir_ (v : text) (p : Config) : Config :=
  mkConfig v (in_source_include_ p) (circuits_ p) (nodes_ p) (node_sources_ p)
  (learn_names_ p) (learn_refresh_ p) (objects_ p) (chosts_ p) (logging_ p) (nsp_ p)
  (routing_ p) (unhandled_ p) (identification_ p) (node_name_ p) (http_port_ p)
  (api_socket_ p) (api_mode_ p) (api_on_demand_ p) (api_idle_ p).
Definition put_in_source_include_ (v : bool) (p : Config) : Config :=
  mkConfig (base_dir_ p) v (circuits_ p) (nodes_ p) (node_sources_ p) (learn_names_ p)
  (learn_refresh_ p) (objects_ p) (chosts_ p) (logging_ p) (nsp_ p) (routing_ p)
  (unhandled_ p) (identification_ p) (node_name_ p) (http_port_ p) (api_socket_ p)
  (api_mode_ p) (api_on_demand_ p) (api_idle_ p).
Definition put_circuits_ (v : list CircuitConfig) (p : Config) : Config :=
  mkConfig (base_dir_ p) (in_source_include_ p) v (nodes_ p) (node_sources_ p)
  (learn_names_ p) (learn_refresh_ p) (objects_ p) (chosts_ p) (logging_ p) (nsp_ p)
  (routing_ p) (unhandled_ p) (identification_ p) (node_name_ p) (http_port_ p)
  (api_socket_ p) (api_mode_ p) (api_on_demand_ p) (api_idle_ p).
Definition put_nodes_ (v : list NodeConfig) (p : Config) : Config :=
  mkConfig (base_dir_ p) (in_source_include_ p) (circuits_ p) v (node_sources_ p)
  (learn_names_ p) (learn_refresh_ p) (objects_ p) (chosts_ p) (logging_ p) (nsp_ p)
  (routing_ p) (unhandled_ p) (identification_ p) (node_name_ p) (http_port_ p)
  (api_socket_ p) (api_mode_ p) (api_on_demand_ p) (api_idle_ p).
Definition put_node_sources_ (v : list NodeSourceConfig) (p : Config) : Config :=
  mkConfig (base_dir_ p) (in_source_include_ p) (circuits_ p) (nodes_ p) v (learn_names_
  p) (learn_refresh_ p) (objects_ p) (chosts_ p) (logging_ p) (nsp_ p) (routing_ p)
  (unhandled_ p) (identification_ p) (node_name_ p) (http_port_ p) (api_socket_ p)
  (api_mode_ p) (api_on_demand_ p) (api_idle_ p).
Definition put_learn_names_ (v : bool) (p : Config) : Config :=
  mkConfig (base_dir_ p) (in_source_include_ p) (circuits_ p) (nodes_ p) (node_sources_ p)
  v (learn_refresh_ p) (objects_ p) (chosts_ p) (logging_ p) (nsp_ p) (routing_ p)
  (unhandled_ p) (identification_ p) (node_name_ p) (http_port_ p) (api_socket_ p)
  (api_mode_ p) (api_on_demand_ p) (api_idle_ p).
Definition put_learn_refresh_ (v : Z) (p : Config) : Config :=
  mkConfig (base_dir_ p) (in_source_include_ p) (circuits_ p) (nodes_ p) (node_sources_ p)
  (learn_names_ p) v (objects_ p) (chosts_ p) (logging_ p) (nsp_ p) (routing_ p)
  (unhandled_ p) (identification_ p) (node_name_ p) (http_port_ p) (api_socket_ p)
  (api_mode_ p) (api_on_demand_ p) (api_idle_ p).
Definition put_objects_ (v : list ObjectConfig) (p : Config) : Config :=
  mkConfig (base_dir_ p) (in_source_include_ p) (circuits_ p) (nodes_ p) (node_sources_ p)
  (learn_names_ p) (learn_refresh_ p) v (chosts_ p) (logging_ p) (nsp_ p) (routing_ p)
  (unhandled_ p) (identification_ p) (node_name_ p) (http_port_ p) (api_socket_ p)
  (api_mode_ p) (api_on_demand_ p) (api_idle_ p).
Definition put_chosts_ (v : list ChostConfig) (p : Config) : Config :=
  mkConfig (base_dir_ p) (in_source_include_ p) (circuits_ p) (nodes_ p) (node_sources_ p)
  (learn_names_ p) (learn_refresh_ p) (objects_ p) v (logging_ p) (nsp_ p) (routing_ p)
  (unhandled_ p) (identification_ p) (node_name_ p) (http_port_ p) (api_socket_ p)
  (api_mode_ p) (api_on_demand_ p) (api_idle_ p).
Definition put_logging_ (v : list LoggingConfig) (p : Config) : Config :=
  mkConfig (base_dir_ p) (in_source_include_ p) (circuits_ p) (nodes_ p) (node_sources_ p)
  (learn_names_ p) (learn_refresh_ p) (objects_ p) (chosts_ p) v (nsp_ p) (routing_ p)
  (unhandled_ p) (identification_ p) (node_name_ p) (http_port_ p) (api_socket_ p)
  (api_mode_ p) (api_on_demand_ p) (api_idle_ p).
Definition put_nsp_ (v : NspConfig) (p : Config) : Config :=
  mkConfig (base_dir_ p) (in_source_include_ p) (circuits_ p) (nodes_ p) (node_sources_ p)
  (learn_names_ p) (learn_refresh_ p) (objects_ p) (chosts_ p) (logging_ p) v (routing_ p)
  (unhandled_ p) (identification_ p) (node_name_ p) (http_port_ p) (api_socket_ p)
  (api_mode_ p) (api_on_demand_ p) (api_idle_ p).
Definition put_routing_ (v : option RoutingConfig) (p : Config) : Config :=
  mkConfig (base_dir_ p) (in_source_include_ p) (circuits_ p) (nodes_ p) (node_sources_ p)
  (learn_names_ p) (learn_refresh_ p) (objects_ p) (chosts_ p) (logging_ p) (nsp_ p) v
  (unhandled_ p) (identification_ p) (node_name_ p) (http_port_ p) (api_socket_ p)
  (api_mode_ p) (api_on_demand_ p) (api_idle_ p).
Definition put_unhandled_ (v : list ConfigLine) (p : Config) : Config :=
  mkConfig (base_dir_ p) (in_source_include_ p) (circuits_ p) (nodes_ p) (node_sources_ p)
  (learn_names_ p) (learn_refresh_ p) (objects_ p) (chosts_ p) (logging_ p) (nsp_ p)
  (routing_ p) v (identification_ p) (node_name_ p) (http_port_ p) (api_socket_ p)
  (api_mode_ p) (api_on_demand_ p) (api_idle_ p).
Definition put_identification_ (v : text) (p : Config) : Config :=
  mkConfig (base_dir_ p) (in_source_include_ p) (circuits_ p) (nodes_ p) (node_sources_ p)
  (learn_names_ p) (learn_refresh_ p) (objects_ p) (chosts_ p) (logging_ p) (nsp_ p)
  (routing_ p) (unhandled_ p) v (node_name_ p) (http_port_ p) (api_socket_ p) (api_mode_
  p) (api_on_demand_ p) (api_idle_ p).
Definition put_node_name_ (v : text) (p : Config) : Config :=
  mkConfig (base_dir_ p) (in_source_include_ p) (circuits_ p) (nodes_ p) (node_sources_ p)
  (learn_names_ p) (learn_refresh_ p) (objects_ p) (chosts_ p) (logging_ p) (nsp_ p)
  (routing_ p) (unhandled_ p) (identification_ p) v (http_port_ p) (api_socket_ p)
  (api_mode_ p) (api_on_demand_ p) (api_idle_ p).
Definition put_http_port_ (v : Z) (p : Config) : Config :=
  mkConfig (base_dir_ p) (in_source_include_ p) (circuits_ p) (nodes_ p) (node_sources_ p)
  (learn_names_ p) (learn_refresh_ p) (objects_ p) (chosts_ p) (logging_ p) (nsp_ p)
  (routing_ p) (unhandled_ p) (identification_ p) (node_name_ p) v (api_socket_ p)
  (api_mode_ p) (api_on_demand_ p) (api_idle_ p).
Definition put_api_socket_ (v : text) (p : Config) : Config :=
  mkConfig (base_dir_ p) (in_source_include_ p) (circuits_ p) (nodes_ p) (node_sources_ p)
  (learn_names_ p) (learn_refresh_ p) (objects_ p) (chosts_ p) (logging_ p) (nsp_ p)
  (routing_ p) (unhandled_ p) (identification_ p) (node_name_ p) (http_port_ p) v
  (api_mode_ p) (api_on_demand_ p) (api_idle_ p).
Definition put_api_mode_ (v : Z) (p : Config) : Config :=
  mkConfig (base_dir_ p) (in_source_include_ p) (circuits_ p) (nodes_ p) (node_sources_ p)
  (learn_names_ p) (learn_refresh_ p) (objects_ p) (chosts_ p) (logging_ p) (nsp_ p)
  (routing_ p) (unhandled_ p) (identification_ p) (node_name_ p) (http_port_ p)
  (api_socket_ p) v (api_on_demand_ p) (api_idle_ p).
Definition put_api_on_demand_ (v : bool) (p : Config) : Config :=
  mkConfig (base_dir_ p) (in_source_include_ p) (circuits_ p) (nodes_ p) (node_sources_ p)
  (learn_names_ p) (learn_refresh_ p) (objects_ p) (chosts_ p) (logging_ p) (nsp_ p)
  (routing_ p) (unhandled_ p) (identification_ p) (node_name_ p) (http_port_ p)
  (api_socket_ p) (api_mode_ p) v (api_idle_ p).
Definition put_api_idle_ (v : Z) (p : Config) : Config :=
  mkConfig (base_dir_ p) (in_source_include_ p) (circuits_ p) (nodes_ p) (node_sources_ p)
  (learn_names_ p) (learn_refresh_ p) (objects_ p) (chosts_ p) (logging_ p) (nsp_ p)
  (routing_ p) (unhandled_ p) (identification_ p) (node_name_ p) (http_port_ p)
  (api_socket_ p) (api_mode_ p) (api_on_demand_ p) v.

(** The members as the class declares them. *)
Definition default_nsp : NspConfig := mkNsp 4095 20 3 f2 f1 f1 5.
Definition new_config : Config :=
  mkConfig [] false [] [] [] false 3600 [] [] [] default_nsp None [] [] [] 0 [] 438 false 7200.

Definition node_type (s : text) : result NodeType :=
  if is_word s "l2router" then Ok l2router
  else if is_word s "l1router" then Ok l1router
  else if is_word s "endnode" then Ok endnode
  else if is_word s "phase3router" then Ok phase3router
  else if is_word s "phase3endnode" then Ok phase3endnode
  else if is_word s "phase2" then Ok phase2
  else Throw RuntimeError.

(** ** [Config::apply], command by command *)

Definition fail {A} : result A := Throw RuntimeError.
Definition require (b : bool) : result unit := if b then Ok tt else fail.
Definition arguments_of (l : ConfigLine) : list text := default [] (options l !! word "argument").

Definition apply_circuit (l : ConfigLine) (c : Config) : result Config :=
  match positional l with
  | n :: ty :: dev :: _ =>
      n ← circname n;
      co ← uint_option l "cost" 4;
      t1 ← uint_option l "t1" 0;
      t3 ← uint_option l "t3" 0;
      pr ← uint_option l "priority" 0;
      nr ← uint_option l "nr" 0;
      Ok (put_circuits_ (circuits_ c ++
            [mkCircuit n ty dev co t1 t3 (has l "mop") (has l "random-address" || has l "random") pr nr
               (opt l "console" []) (opt l "verify" []) l]) c)
  | _ => fail
  end.

(** [std::from_chars] in base 8, of the whole text. *)
Definition isoctal (c : ascii) : bool := (48 <=? code c) && (code c <=? 55).
Definition parse_octal (s : text) : result Z :=
  if bool_decide (s = []) then fail
  else if forallb isoctal s then
    let v := foldl (λ v c, 8 * v + (code c - 48)) 0 s in
    if v <=? 4294967295 then Ok v else fail
  else fail.

Definition default_api_socket : text := word "/tmp/decnetapi.sock".
Definition apply_api `{Environment} (l : ConfigLine) (c : Config) : result Config :=
  let sock := match positional l with
              | p :: _ => p
              | [] => match getenv_api with Some e => e | None => default_api_socket end
              end in
  m ← (if has l "mode" then
         v ← parse_octal (opt l "mode" []);
         if 511 <? v then fail else Ok v
       else Ok (api_mode_ c));
  i ← (if has l "idle" then
         v ← to_uint (opt l "idle" []);
         if v =? 0 then fail else Ok v
       else Ok (api_idle_ c));
  Ok (put_api_idle_ i (put_api_on_demand_ (has l "on-demand") (put_api_mode_ m (put_api_socket_ sock c)))).

Definition apply_http (l : ConfigLine) (c : Config) : result Config :=
  p ← uint_option l "http-port" (http_port_ c);
  Ok (put_http_port_ p c).

Definition apply_routing (l : ConfigLine) (c : Config) : result Config :=
  match positional l with
  | [] => fail
  | a :: _ =>
      i ← Nodeid.parse a;
      ty ← (if has l "type" then node_type (opt l "type" []) else Ok l2router);
      mn ← uint_option l "maxnodes" 1023;
      ma ← uint_option l "maxarea" 63;
      mh ← uint_option l "maxhops" 16;
      mc ← uint_option l "maxcost" 1022;
      mv ← uint_option l "maxvisits" 32;
      t1 ← uint_option l "t1" 600;
      bc ← uint_option l "bct1" 10;
      ah ← uint_option l "amaxhops" 16;
      ac ← uint_option l "amaxcost" 128;
      Ok (put_routing_ (Some (mkRouting i ty mn ma mh mc mv ah ac t1 bc)) c)
  end.

Definition decimal (n d : Z) : double := fdiv (f_of_Z n) (f_of_Z d).
(** A member set by [std::stod], and then held against its range. *)
Definition double_option `{Environment} (l : ConfigLine) (n : string) (v lo hi : double) : result double :=
  if has l n then
    match stod (opt l n []) with
    | Some d => if fltb d lo || fltb hi d then fail else Ok d
    | None => fail
    end
  else Ok v.
Definition uint_in (l : ConfigLine) (n : string) (v lo hi : Z) : result Z :=
  if has l n then
    w ← to_uint (opt l n []);
    if (w <? lo) || (hi <? w) then fail else Ok w
  else Ok v.
Definition apply_nsp `{Environment} (l : ConfigLine) (c : Config) : result Config :=
  let n := nsp_ c in
  mx ← uint_option l "max-connections" (max_connections n);
  q ← uint_option l "qmax" (qmax n);
  _ ← require (negb ((q <? 1) || (4095 <? q)));
  w ← uint_in l "nsp-weight" (weight n) 1 255;
  df ← double_option l "nsp-delay" (delay_factor n) f1 (decimal 1594 100);
  md ← double_option l "min-delay" (min_delay n) (decimal 1 100) (f_of_Z 60);
  lm ← double_option l "lan-min-delay" (lan_min_delay n) (decimal 1 100) (f_of_Z 60);
  rt ← (if has l "retransmits" then
          v ← to_uint (opt l "retransmits" []);
          if v <? 1 then fail else Ok v
        else Ok (retransmits n));
  Ok (put_nsp_ (mkNsp mx q w df md lm rt) c).

Definition apply_object (l : ConfigLine) (c : Config) : result Config :=
  n ← uint_option l "number" 0;
  let o := mkObjectConfig n (opt l "name" []) (opt l "file" []) (arguments_of l) in
  if (n =? 0) && bool_decide (o_name o = []) then fail
  else if bool_decide (o_file o = []) then fail
  else Ok (put_objects_ (objects_ c ++ [o]) c).

Definition apply_chost (l : ConfigLine) (c : Config) : result Config :=
  match positional l with
  | [p] =>
      let n := map toupper p in
      if 16 <? len n then fail
      else if existsb (λ o, bool_decide (h_name o = n)) (chosts_ c) then fail
      else let f := opt l "file" [] in
      if bool_decide (f = []) then fail
      else Ok (put_chosts_ (chosts_ c ++
                 [mkChost n f (arguments_of l) (opt l "description" []) (opt l "term" (word "vt100"))]) c)
  | _ => fail
  end.

Definition apply_logging (l : ConfigLine) (c : Config) : result Config :=
  match positional l with
  | [ty] =>
      if is_word ty "console" || is_word ty "file" || is_word ty "monitor" then
        Ok (put_logging_ (logging_ c ++
              [mkLogging ty (opt l "sink-node" []) (opt l "sink-username" []) (opt l "sink-password" [])
                 (opt l "sink-account" []) (opt l "sink-file" (word "events.dat")) (opt l "events" [])]) c)
      else fail
  | _ => fail
  end.

(** *** Node lines; [include] is [include_prefixed] with the name of a file. *)

Definition starts_with (p s : text) : bool := bool_decide (take (length p) s = p).
Definition hecnet_url : text := word "http://mim.softjar.se/hecnet.dat".
Definition relative (c : Config) (p : text) : text :=
  match p with
  | a :: _ => if bool_decide (a = "/"%char) then p else base_dir_ c ++ p
  | [] => p
  end.
Definition learn_neighbours (l : ConfigLine) (c : Config) : result Config :=
  let c := put_learn_names_ true c in
  if has l "refresh" then
    v ← to_uint (opt l "refresh" []);
    if v =? 0 then fail else Ok (put_learn_refresh_ v c)
  else Ok c.
Definition add_source `{Environment} (include : text → Config → result Config) (inc : text) (l : ConfigLine) (c : Config) : result Config :=
  let u := if is_word inc "hecnet" then hecnet_url else inc in
  let ca := opt l "cache" [] in
  if bool_decide (ca = []) then fail else
  let ca := relative c ca in
  r ← uint_option l "refresh" 604800;
  let c := put_node_sources_ (node_sources_ c ++ [mkSource u ca r]) c in
  match read_file ca with
  | None => Ok c
  | Some _ =>
      c ← include ca (put_in_source_include_ true c);
      Ok (put_in_source_include_ false c)
  end.
Definition add_node_line (a : text) (l : ConfigLine) (c : Config) : result Config :=
  i ← Nodeid.parse a;
  n ← match positional l with _ :: n :: _ => nodename n | _ => Ok [] end;
  Ok (put_nodes_ (nodes_ c ++
        [mkNode i n (opt l "inbound-verification" []) (opt l "outbound-verification" []) (in_source_include_ c)]) c).
Definition apply_node `{Environment} (include : text → Config → result Config) (l : ConfigLine) (c : Config) : result Config :=
  match positional l with
  | [] => fail
  | a :: _ =>
      match a with
      | at_ :: (_ :: _) as inc =>
          if bool_decide (at_ = "@"%char) then
            if is_word inc "neighbours" || is_word inc "neighbors" then learn_neighbours l c
            else if is_word inc "hecnet" || (starts_with (word "http://") inc || starts_with (word "https://") inc)
            then add_source include inc l c
            else include (relative c inc) c
          else add_node_line a l c
      | _ => add_node_line a l c
      end
  end.

Definition apply `{Environment} (include : text → Config → result Config) (l : ConfigLine) (c : Config) : result Config :=
  if is_word (command l) "circuit" then apply_circuit l c
  else if is_word (command l) "api" then apply_api l c
  else if is_word (command l) "http" then apply_http l c
  else if is_word (command l) "routing" then apply_routing l c
  else if is_word (command l) "node" then apply_node include l c
  else if is_word (command l) "nsp" then apply_nsp l c
  else if is_word (command l) "object" then apply_object l c
  else if is_word (command l) "chost" then apply_chost l c
  else if is_word (command l) "logging" then apply_logging l c
  else if is_word (command l) "system" then Ok (put_identification_ (opt l "ident" (identification_ c)) c)
  else Ok (put_unhandled_ (unhandled_ c ++ [l]) c).

(** ** Files *)

(** [std::getline] until the stream ends: a newline ends a line, and what
    follows the last one is a line when there is any. *)
Fixpoint lines_from (cur : text) (s : text) : list text :=
  match s with
  | [] => if bool_decide (cur = []) then [] else [cur]
  | c :: s => if bool_decide (c = chr 10) then cur :: lines_from [] s else lines_from (cur ++ [c]) s
  end.
Definition lines_of (s : text) : list text := lines_from [] s.
Definition where_ (source : text) (lineno : Z) : text := (source ++ word ":" ++ print_uint lineno)%list.

(** Any exception of a line becomes the [std::runtime_error] with its place. *)
Definition located {A} (m : result A) : result A :=
  match m with Throw InternalError => m | Throw _ => fail | Ok _ => m end.

(** The loop of [from_string] and of [include_prefixed], whose [prefix] goes
    in front of each line's words. *)
Fixpoint apply_lines `{Environment} (include : text → Config → result Config) (prefix : list text) (source : text) (lineno : Z)
    (ls : list text) (c : Config) : result Config :=
  match ls with
  | [] => Ok c
  | raw :: ls =>
      let lineno := u32 (lineno + 1) in
      ws ← located (split_config_line raw);
      c ← match ws with
          | [] => Ok c
          | _ => located (apply include (parse_config_line (prefix ++ ws) (where_ source lineno)) c)
          end;
      apply_lines include prefix source lineno ls c
  end.
Fixpoint include_prefixed `{Environment} (fuel : nat) (prefix : text) (path : text) (c : Config) : result Config :=
  match fuel with
  | O => Throw InternalError
  | S fuel =>
      match read_file path with
      | None => fail
      | Some s => apply_lines (include_prefixed fuel prefix) [prefix] path 0 (lines_of s) c
      end
  end.

(** [source.rfind ('/')]: what it keeps of the path. *)
Fixpoint dir_of (s : text) : text :=
  match s with
  | [] => []
  | c :: s => if bool_decide (c = "/"%char) then c :: dir_of s
              else match dir_of s with [] => [] | d => c :: d end
  end.
Definition from_string `{Environment} (fuel : nat) (txt source : text) : result Config :=
  apply_lines (include_prefixed fuel (word "node")) [] source 0 (lines_of txt) (put_base_dir_ (dir_of source) new_config).
Definition from_file `{Environment} (fuel : nat) (path : text) : result Config :=
  match read_file path with
  | None => fail
  | Some s => from_string fuel s path
  end.
