(* ===== verification/ConfigLaws.v ===== *)
(** What a configuration that is accepted satisfies, quoting, and that a
    configuration whose node files include nothing is read to its end. *)

From S2P Require Import Prelude Types Float Config.
#[local] Open Scope Z_scope.

#[local] Arguments f_of_Z : simpl never.
#[local] Arguments decimal : simpl never.

(** ** The results of the helpers *)

Definition is_u32 (v : Z) : Prop := 0 ≤ v < 4294967296.
Lemma scan_uint_mono s : ∀ v, 0 ≤ v → 0 ≤ (scan_uint v s).1.
Proof.
  induction s as [|c s IH]; intros v H; simpl; [done|]. destruct (isdigit c) eqn:E; [|done].
  apply IH. unfold isdigit in E. lia.
Qed.
Lemma to_uint_range s v : to_uint s = Ok v → is_u32 v.
Proof.
  unfold to_uint, parse_uint, is_u32. destruct s as [|c s]; [done|]. destruct (isdigit c); [|done].
  pose proof (scan_uint_mono (c :: s) 0 ltac:(lia)) as M.
  destruct (scan_uint 0 (c :: s)) as [w rest]. simpl in M.
  destruct (Z.ltb_spec 4294967295 w); [done|]. destruct rest; [|done]. intros. simplify_eq. lia.
Qed.
Lemma uint_option_range l n d v : is_u32 d → uint_option l n d = Ok v → is_u32 v.
Proof. unfold uint_option. destruct (has l n); intros; [by eapply to_uint_range|by simplify_eq]. Qed.
Lemma uint_in_range l n d v lo hi : lo ≤ d ≤ hi → uint_in l n d lo hi = Ok v → lo ≤ v ≤ hi.
Proof.
  unfold uint_in. destruct (has l n); [|by intros; simplify_eq].
  destruct (to_uint _) as [w|]; simpl; [|done]. intros _.
  destruct ((w <? lo) || (hi <? w)) eqn:E; intros; simplify_eq. lia.
Qed.
(** What the range check of a delay lets pass: a number within its limits, or what
    is not a number, which no comparison holds of. *)
Definition within_or_nan (lo hi d : double) : Prop :=
  d = SpecFloat.S754_nan ∨ (fleb lo d = true ∧ fleb d hi = true).
Lemma not_outside lo hi d : lo ≠ SpecFloat.S754_nan → hi ≠ SpecFloat.S754_nan →
  fltb d lo = false → fltb hi d = false → within_or_nan lo hi d.
Proof.
  intros Hl Hh H1 H2. destruct d; try (by left); right; split; by apply not_less.
Qed.
Lemma double_option_limits `{Environment} l n d lo hi v :
  lo ≠ SpecFloat.S754_nan → hi ≠ SpecFloat.S754_nan → within_or_nan lo hi d → double_option l n d lo hi = Ok v → within_or_nan lo hi v.
Proof.
  intros Hl Hh. unfold double_option. destruct (has l n); [|by intros; simplify_eq].
  destruct (stod _) as [w|]; simpl; [|done]. intros _.
  destruct (fltb w lo) eqn:E1; simpl; [done|]. destruct (fltb hi w) eqn:E2; intros; simplify_eq. by apply not_outside.
Qed.
Lemma foldl_octal s : ∀ v, 0 ≤ v → forallb isoctal s = true → 0 ≤ foldl (λ v c, 8 * v + (code c - 48)) v s.
Proof.
  induction s as [|c s IH]; intros v H E; simpl in *; [done|].
  apply andb_true_iff in E as [E1 E2]. apply IH; [|done]. unfold isoctal in E1. lia.
Qed.
Lemma parse_octal_range s v : parse_octal s = Ok v → 0 ≤ v.
Proof.
  unfold parse_octal. case_bool_decide; [done|]. destruct (forallb isoctal s) eqn:E; [|done].
  pose proof (foldl_octal s 0 ltac:(lia) E). destruct (_ <=? _); intros; by simplify_eq.
Qed.

(** ** What every configuration satisfies *)

(** The names [circname] and [nodename] give: upper case, of their letters. *)
Definition circuit_named (n : text) : Prop := ∃ s, circname s = Ok n.
Definition node_named (n : text) : Prop := n = [] ∨ ∃ s, nodename s = Ok n.
Definition circuit_ok (k : CircuitConfig) : Prop :=
  circuit_named (c_name k) ∧ Forall is_u32 [cost k; c_t1 k; c_t3 k; priority k; maxrouters k].
Definition node_ok (n : NodeConfig) : Prop := Nodeid.ok (n_id n) ∧ node_named (n_name n).
Definition source_ok (s : NodeSourceConfig) : Prop := cache s ≠ [] ∧ is_u32 (refresh s).
Definition object_ok (o : ObjectConfig) : Prop := is_u32 (number o) ∧ (number o ≠ 0 ∨ o_name o ≠ []) ∧ o_file o ≠ [].
Definition chost_ok (h : ChostConfig) : Prop := len (h_name h) ≤ 16 ∧ (∃ s, h_name h = map toupper s) ∧ h_file h ≠ [].
Definition sink_ok (g : LoggingConfig) : Prop := is_word (l_type g) "console" || is_word (l_type g) "file" || is_word (l_type g) "monitor" = true.
Definition nsp_ok (n : NspConfig) : Prop :=
  1 ≤ qmax n ≤ 4095 ∧ 1 ≤ weight n ≤ 255 ∧ is_u32 (max_connections n) ∧ 1 ≤ retransmits n < 4294967296 ∧
  within_or_nan f1 (decimal 1594 100) (delay_factor n) ∧
  within_or_nan (decimal 1 100) (f_of_Z 60) (min_delay n) ∧ within_or_nan (decimal 1 100) (f_of_Z 60) (lan_min_delay n).
Definition routing_ok (r : RoutingConfig) : Prop :=
  Nodeid.ok (r_id r) ∧
  Forall is_u32 [maxnodes r; maxarea r; maxhops r; maxcost r; maxvisits r; amaxhops r; amaxcost r; r_t1 r; bct1 r].

Record accepted (c : Config) : Prop := {
  acc_circuits : Forall circuit_ok (circuits_ c);
  acc_nodes : Forall node_ok (nodes_ c);
  acc_sources : Forall source_ok (node_sources_ c);
  acc_objects : Forall object_ok (objects_ c);
  acc_chosts : Forall chost_ok (chosts_ c);
  acc_distinct : NoDup (map h_name (chosts_ c));
  acc_sinks : Forall sink_ok (logging_ c);
  acc_nsp : nsp_ok (nsp_ c);
  acc_routing : from_option routing_ok True (routing_ c);
  acc_api : 0 ≤ api_mode_ c ≤ 511 ∧ 1 ≤ api_idle_ c < 4294967296;
  acc_learn : 1 ≤ learn_refresh_ c < 4294967296;
  acc_http : is_u32 (http_port_ c);
}.

Lemma new_config_accepted d : accepted (put_base_dir_ d new_config).
Proof.
  split; simpl; [by constructor..|apply NoDup_nil_2|constructor| |exact Logic.I|lia|lia|done].
  split; [simpl; lia|]. split; [simpl; lia|]. split; [done|]. split; [simpl; lia|].
  split; [|split]; right; by vm_compute.
Qed.

(** Take a result apart: one hypothesis per [let] of the monad. *)
Ltac taken H :=
  repeat match type of H with
  | context [mbind ?f ?m] => let E := fresh "E" in destruct m eqn:E; simpl in H; [|discriminate H]
  | (if ?b then _ else _) = _ => let E := fresh "E" in destruct b eqn:E; simpl in H; try discriminate H
  | match ?x with _ => _ end = _ => let E := fresh "E" in destruct x eqn:E; simpl in H; try discriminate H
  end.
(** The members a line leaves alone. *)
Ltac left_alone := split; simpl; try solve [eauto using acc_circuits, acc_nodes, acc_sources, acc_objects, acc_chosts, acc_distinct, acc_sinks, acc_nsp, acc_routing, acc_api, acc_learn, acc_http].

Section apply.
Context {EN : Environment}.

Lemma circuit_accepted l c c' : accepted c → apply_circuit l c = Ok c' → accepted c'.
Proof.
  unfold apply_circuit. intros A H. taken H. simplify_eq. left_alone.
  apply Forall_app; split; [apply A|]. constructor; [|done]. split; [by eexists|].
  simpl. repeat constructor; eapply uint_option_range; try eassumption; unfold is_u32; lia.
Qed.
Lemma api_accepted l c c' : accepted c → apply_api l c = Ok c' → accepted c'.
Proof.
  unfold apply_api. intros A H. pose proof (acc_api c A) as [B1 B2]. taken H. simplify_eq. left_alone.
  split.
  - destruct (has l "mode"); [|by simplify_eq]. taken E. simplify_eq.
    match goal with P : parse_octal _ = _ |- _ => apply parse_octal_range in P end. lia.
  - destruct (has l "idle"); [|by simplify_eq]. taken E0. simplify_eq.
    match goal with P : to_uint _ = _ |- _ => apply to_uint_range in P; unfold is_u32 in P end. lia.
Qed.
Lemma http_accepted l c c' : accepted c → apply_http l c = Ok c' → accepted c'.
Proof.
  unfold apply_http. intros A H. taken H. simplify_eq. left_alone.
  eapply uint_option_range; [apply (acc_http c A)|done].
Qed.
Lemma nodeid_parsed s v : Nodeid.parse s = Ok v → Nodeid.ok v.
Proof. unfold Nodeid.parse, Nodeid.ok, Nodeid.make. intros H. taken H; simplify_eq; apply u16_range. Qed.
Lemma routing_accepted l c c' : accepted c → apply_routing l c = Ok c' → accepted c'.
Proof.
  unfold apply_routing. intros A H. taken H. simplify_eq. left_alone.
  split; [by eapply nodeid_parsed|].
  simpl. repeat constructor; eapply uint_option_range; try eassumption; unfold is_u32; lia.
Qed.
Lemma nsp_accepted l c c' : accepted c → apply_nsp l c = Ok c' → accepted c'.
Proof.
  unfold apply_nsp, require. intros A H. destruct (acc_nsp c A) as (Q & W & M & R & D1 & D2 & D3).
  taken H. simplify_eq. left_alone. unfold nsp_ok; simpl.
  match goal with P : (if negb _ then _ else _) = _ |- _ => taken P end.
  split; [lia|]. split; [by eapply uint_in_range|]. split; [by eapply uint_option_range|].
  split; [|split; [|split]; (eapply double_option_limits; [..|eassumption]; done)].
  match goal with P : (if has l "retransmits" then _ else _) = _ |- _ => revert P end.
  destruct (has l "retransmits"); [|by intros; simplify_eq].
  intros P. taken P. simplify_eq.
  match goal with P : to_uint _ = _ |- _ => apply to_uint_range in P; unfold is_u32 in P end. lia.
Qed.
Lemma object_accepted l c c' : accepted c → apply_object l c = Ok c' → accepted c'.
Proof.
  unfold apply_object. intros A H. taken H. simplify_eq. left_alone.
  apply Forall_app; split; [apply A|]. constructor; [|done]. unfold object_ok; simpl.
  split; [eapply uint_option_range; [|done]; unfold is_u32; lia|].
  repeat match goal with P : context [bool_decide _] |- _ => revert P end.
  repeat case_bool_decide; rewrite ?andb_true_r, ?andb_false_r; intros; split; try done; [left; lia|by right].
Qed.
Lemma chost_accepted l c c' : accepted c → apply_chost l c = Ok c' → accepted c'.
Proof.
  unfold apply_chost. intros A H. taken H. simplify_eq. left_alone.
  - apply Forall_app; split; [apply A|]. constructor; [|done]. unfold chost_ok; simpl.
    apply bool_decide_eq_false_1 in E3. split; [lia|]. split; [by eexists|done].
  - rewrite map_app. apply NoDup_app. split; [apply A|]. split; [|simpl; apply NoDup_singleton].
    intros n Hn. simpl. rewrite list_elem_of_singleton. intros ->.
    apply not_true_iff_false in E2. apply E2. apply existsb_exists.
    apply list_elem_of_In, in_map_iff in Hn as (o & Ho & Hi). exists o. split; [done|].
    by apply bool_decide_eq_true_2.
Qed.
Lemma logging_accepted l c c' : accepted c → apply_logging l c = Ok c' → accepted c'.
Proof.
  unfold apply_logging. intros A H. taken H. simplify_eq. left_alone.
  apply Forall_app; split; [apply A|]. by constructor.
Qed.

(** *** Node lines *)
Section include.
Context (include : text → Config → result Config).
Hypothesis include_accepted : ∀ p c c', accepted c → include p c = Ok c' → accepted c'.

Lemma put_flag_accepted b c : accepted c → accepted (put_in_source_include_ b c).
Proof. intros A. left_alone. Qed.
Lemma learn_accepted l c c' : accepted c → learn_neighbours l c = Ok c' → accepted c'.
Proof.
  unfold learn_neighbours. intros A H. taken H; simplify_eq; left_alone.
  match goal with P : to_uint _ = _ |- _ => apply to_uint_range in P; unfold is_u32 in P end. lia.
Qed.
Lemma relative_nonempty c p : p ≠ [] → relative c p ≠ [].
Proof. unfold relative. destruct p as [|a p]; [done|]. intros _. case_bool_decide; [done|]. intros E. by apply app_eq_nil in E as [_ ?]. Qed.
Lemma source_accepted inc l c c' : accepted c → add_source include inc l c = Ok c' → accepted c'.
Proof.
  unfold add_source. intros A H. case_bool_decide; [done|].
  destruct (uint_option l "refresh" 604800) as [r|] eqn:Er; simpl in H; [|done].
  match type of H with context [put_node_sources_ ?l' c] => set (c1 := put_node_sources_ l' c) in H end.
  assert (A1 : accepted c1).
  { unfold c1. left_alone. apply Forall_app; split; [apply A|]. constructor; [|done]. split; simpl.
    - by apply relative_nonempty.
    - eapply uint_option_range; [|done]. unfold is_u32; lia. }
  clearbody c1. taken H; simplify_eq; [|done]. apply put_flag_accepted.
  eapply include_accepted; [|done]. by apply put_flag_accepted.
Qed.
Lemma node_line_accepted a l c c' : accepted c → add_node_line a l c = Ok c' → accepted c'.
Proof.
  unfold add_node_line. intros A H.
  destruct (Nodeid.parse a) as [i|] eqn:Ei; simpl in H; [|done].
  destruct (match positional l with _ :: n :: _ => nodename n | _ => Ok [] end) as [n|] eqn:En; simpl in H; [|done].
  simplify_eq. left_alone. apply Forall_app; split; [apply A|]. constructor; [|done].
  split; simpl; [by eapply nodeid_parsed|]. unfold node_named.
  destruct (positional l) as [|? [|m ?]]; [left; congruence|left; congruence|]. right. by exists m.
Qed.
Lemma node_accepted l c c' : accepted c → apply_node include l c = Ok c' → accepted c'.
Proof.
  unfold apply_node. intros A H. destruct (positional l) as [|a ps]; [done|].
  destruct a as [|at_ [|b inc]]; [by eapply node_line_accepted..|].
  case_bool_decide; [|by eapply node_line_accepted].
  destruct (_ || _); [by eapply learn_accepted|]. destruct (_ || _); [by eapply source_accepted|]. by eapply include_accepted.
Qed.
Lemma apply_accepted l c c' : accepted c → apply include l c = Ok c' → accepted c'.
Proof.
  unfold apply. intros A H.
  destruct (is_word _ "circuit"); [by eapply circuit_accepted|].
  destruct (is_word _ "api"); [by eapply api_accepted|].
  destruct (is_word _ "http"); [by eapply http_accepted|].
  destruct (is_word _ "routing"); [by eapply routing_accepted|].
  destruct (is_word _ "node"); [by eapply node_accepted|].
  destruct (is_word _ "nsp"); [by eapply nsp_accepted|].
  destruct (is_word _ "object"); [by eapply object_accepted|].
  destruct (is_word _ "chost"); [by eapply chost_accepted|].
  destruct (is_word _ "logging"); [by eapply logging_accepted|].
  destruct (is_word _ "system"); simplify_eq; left_alone.
Qed.
Lemma located_ok {A} (m : result A) a : located m = Ok a → m = Ok a.
Proof. destruct m as [|[]]; simpl; try done. Qed.
Lemma lines_accepted prefix source ls : ∀ n c c',
  accepted c → apply_lines include prefix source n ls c = Ok c' → accepted c'.
Proof.
  induction ls as [|raw ls IH]; intros n c c' A H; simpl in H; [by simplify_eq|].
  destruct (located (split_config_line raw)) as [ws|]; simpl in H; [|done].
  destruct ws as [|w ws]; simpl in H; [by eapply IH|].
  destruct (located (apply _ _ _)) as [c1|] eqn:E; simpl in H; [|done].
  apply located_ok in E. eapply IH; [|done]. by eapply apply_accepted.
Qed.
End include.

Lemma include_prefixed_accepted fuel prefix : ∀ p c c', accepted c → include_prefixed fuel prefix p c = Ok c' → accepted c'.
Proof.
  induction fuel as [|fuel IH]; intros p c c' A H; simpl in H; [done|].
  destruct (read_file p) as [s|]; [|done]. eapply lines_accepted; [|done|done]. intros; by eapply IH.
Qed.
Lemma from_string_accepted fuel txt source c : from_string fuel txt source = Ok c → accepted c.
Proof.
  unfold from_string. apply lines_accepted; [|apply new_config_accepted].
  intros p c1 c2. apply include_prefixed_accepted.
Qed.
End apply.

(** ** Quoting *)

(** A word as one may write it: in the quotes it does not contain. *)
Definition quoted (w : text) : text :=
  let q := if bool_decide (chr 34 ∈ w) then chr 39 else chr 34 in (q :: w ++ [q])%list.
Definition quotable (w : text) : Prop := chr 34 ∉ w ∨ chr 39 ∉ w.
Fixpoint quoted_line (ws : list text) : text :=
  match ws with [] => [] | w :: ws => (" "%char :: quoted w ++ quoted_line ws)%list end.

Lemma split_in_quotes q w s : ∀ words cur, q ∉ w →
  split_from words cur true (Some q) (w ++ q :: s) = split_from words (cur ++ w) true None s.
Proof.
  induction w as [|c w IH]; intros words cur N; simpl.
  - rewrite bool_decide_eq_true_2, app_nil_r by done. done.
  - apply not_elem_of_cons in N as [N1 N2]. rewrite bool_decide_eq_false_2 by congruence.
    by rewrite IH, <-app_assoc by done.
Qed.
Lemma split_quoted w s words cur b : quotable w →
  split_from words cur b None (quoted w ++ s) = split_from words (cur ++ w) true None s.
Proof.
  intros Q. unfold quoted. set (q := if bool_decide _ then _ else _).
  assert (q ∈ quote_chars ∧ q ∉ w) as [Hq N].
  { unfold q. case_bool_decide as E; (split; [apply (bool_decide_unpack _); by vm_compute|]); [|done].
    by destruct Q. }
  rewrite <-app_comm_cons, <-app_assoc. simpl. rewrite bool_decide_eq_true_2 by done. by apply split_in_quotes.
Qed.
Lemma split_quoted_line ws : Forall quotable ws → ∀ words cur (b : bool), (b = false → cur = []) →
  split_from words cur b None (quoted_line ws) = Ok ((if b then words ++ [cur] else words) ++ ws).
Proof.
  induction 1 as [|w ws Q _ IH]; intros words cur b Hb; [simpl; by rewrite app_nil_r|].
  cbn [quoted_line split_from].
  rewrite bool_decide_eq_false_2 by (apply (bool_decide_unpack _); by vm_compute).
  rewrite bool_decide_eq_false_2 by done.
  change (is_space " ") with true. cbn match.
  destruct b; rewrite split_quoted by done; rewrite IH by done; simpl; [by rewrite <-app_assoc|].
  rewrite Hb by done. simpl. by rewrite <-app_assoc.
Qed.

(** ** The properties *)

(** C40: Every configuration the program accepts is within the limits its layers rely
    on, whatever the text, the files it includes and the fetched lists among them:
    circuit and node names are well formed and in upper case, addresses fit 16 bits,
    every number fits unsigned, a chost's name has at most 16 characters and is not
    another's, an object has a program and a number or a name, the congestion window's
    limit is between 1 and 4095, a packet is sent at least once, the socket's mode has
    nine bits, and the delay factor and the minimum delays, which are read as floating
    point, are within their limits or not a number, as NaN passes the range check. *)
Theorem config_accepted `{EN : Environment} (fuel : nat) (txt source : text) (c : Config) :
  from_string fuel txt source = Ok c → accepted c.
Proof. apply from_string_accepted. Qed.

Definition example_files : Environment := {|
  read_file p := if bool_decide (p = word "/etc/hecnet") then Some (word "1.2 ab" ++ [chr 10] ++ word "1.3 cd") else None;
  getenv_api := None;
  stod s := if is_word s "nan" then Some SpecFloat.S754_nan else None |}.
Definition example_text : text :=
  (word "circuit eth-0 Ethernet tap:/dev/tap0 --cost 5" ++ [chr 10] ++
   word "node @hecnet --cache /etc/hecnet" ++ [chr 10] ++ word "nsp --nsp-delay nan --qmax 4095")%list.

(** A fetched list is read, and a delay that is not a number is accepted. *)
Lemma config_accepted_witness :
  match @from_string example_files 1 example_text (word "pydecnet.conf") with
  | Ok c => accepted c ∧ map n_name (nodes_ c) = [word "AB"; word "CD"] ∧ delay_factor (nsp_ c) = SpecFloat.S754_nan
  | Throw _ => False
  end.
Proof.
  destruct (@from_string example_files 1 example_text (word "pydecnet.conf")) as [c|] eqn:E.
  - split; [exact (config_accepted (EN := example_files) 1 example_text (word "pydecnet.conf") c E)|].
    vm_compute in E. injection E as <-. split; reflexivity.
  - vm_compute in E. discriminate E.
Defined.

(** Quoting is faithful: words of any characters, blanks, hashes and
    quotes included, and the empty word, each written between quotes it does
    not contain, are read back as those words. *)
Theorem words_quoted (ws : list text) :
  Forall quotable ws → split_config_line (quoted_line ws) = Ok ws.
Proof. intros H. unfold split_config_line. by rewrite split_quoted_line. Qed.

Lemma words_quoted_witness :
  split_config_line (quoted_line [word "a # b"; []; word "it's"; [chr 34]]) = Ok [word "a # b"; []; word "it's"; [chr 34]].
Proof.
  apply words_quoted. refine (bool_decide_unpack (Forall (λ w, chr 34 ∉ w ∨ chr 39 ∉ w) _) _).
  vm_compute. exact Logic.I.
Defined.
