(* ===== verification/Node.v ===== *)
(** The node itself: [include/decnet/node.h] and [src/common/node.cc].

    The database of nodes owns its entries by address and finds them by name
    through plain pointers: an entry is a place in a heap, and one that is
    destroyed is gone from it.  Then the circuits that are up on demand. *)

From stdpp Require Import gmap.
From S2P Require Import Prelude Types Float NiceParams Config.
#[local] Open Scope Z_scope.

(** ** [NodeCounters], [Nodeinfo] *)

Record NodeCounters := mkNodeCounters {
  byt_rcv : Z; byt_xmt : Z; msg_rcv : Z; msg_xmt : Z;
  t_byt_rcv : Z; t_byt_xmt : Z; t_msg_rcv : Z; t_msg_xmt : Z;
  con_rcv : Z; con_xmt : Z; timeout : Z; no_res_rcv : Z }.
Definition no_counters : NodeCounters := mkNodeCounters 0 0 0 0 0 0 0 0 0 0 0 0.
Definition used (k : NodeCounters) : bool :=
  negb (t_byt_rcv k =? 0) || negb (t_byt_xmt k =? 0) || negb (con_rcv k =? 0) || negb (con_xmt k =? 0).
Record Nodeinfo := mkInfo {
  i_id : Z; i_name : text; i_inbound : text; i_outbound : text; delay : double; counters : NodeCounters }.
(** A [Nodeinfo] with the members the callers set. *)
Definition new_info (i : Z) (n inb outb : text) : Nodeinfo := mkInfo i n inb outb f0 no_counters.
Definition with_name (n : text) (i : Nodeinfo) : Nodeinfo :=
  mkInfo (i_id i) n (i_inbound i) (i_outbound i) (delay i) (counters i).

(** ** The database *)

Record Nodes := mkNodes {
  heap : gmap Z Nodeinfo;              (* what is allocated, by address *)
  brk : Z;                             (* the next address *)
  by_id_ : gmap Z Z;
  by_name_ : gmap text Z;
  config_named_ : gset Z;
}.
Definition no_nodes : Nodes := mkNodes ∅ 0 ∅ ∅ ∅.
Definition write (p : Z) (i : Nodeinfo) (s : Nodes) : Nodes :=
  mkNodes (<[p := i]> (heap s)) (brk s) (by_id_ s) (by_name_ s) (config_named_ s).
Definition put_names (m : gmap text Z) (s : Nodes) : Nodes := mkNodes (heap s) (brk s) (by_id_ s) m (config_named_ s).
Definition put_named (c : gset Z) (s : Nodes) : Nodes := mkNodes (heap s) (brk s) (by_id_ s) (by_name_ s) c.

(** [add_node]: assigning to [by_id_] destroys what it held. *)
Definition add_node (i : Nodeinfo) (s : Nodes) : Nodes :=
  let p := brk s in
  let kept := match by_id_ s !! i_id i with Some q => delete q (heap s) | None => heap s end in
  mkNodes (<[p := i]> kept) (p + 1) (<[i_id i := p]> (by_id_ s))
    (if bool_decide (i_name i = []) then by_name_ s else <[i_name i := p]> (by_name_ s)) (config_named_ s).
Definition find_id (i : Z) (add : bool) (s : Nodes) : option Z * Nodes :=
  match by_id_ s !! i with
  | Some p => (Some p, s)
  | None => if add then let s := add_node (new_info i [] [] []) s in (by_id_ s !! i, s) else (None, s)
  end.
Definition find_name (n : text) (s : Nodes) : option Z := by_name_ s !! n.

(** [set_node_name]; [None]: what was freed is read. *)
Definition set_node_name (i : Z) (n : text) (s : Nodes) : option (bool * Nodes) :=
  if bool_decide (n = []) then Some (false, s)
  else if bool_decide (i ∈ config_named_ s) then Some (false, s)
  else
    let '(p, s) := find_id i true s in
    match p with
    | None => Some (false, s)
    | Some p =>
        info ← heap s !! p;
        if bool_decide (i_name info = n) then Some (false, s)
        else
          let s := if bool_decide (i_name info = []) then s else put_names (delete (i_name info) (by_name_ s)) s in
          let s := write p (with_name n info) s in
          Some (true, put_names (<[n := p]> (by_name_ s)) s)
    end.
Definition learn_node_name (me i : Z) (n : text) (s : Nodes) : option (bool * Nodes) :=
  match nodename n with
  | Throw _ => Some (false, s)
  | Ok n =>
      if i =? me then Some (false, s)
      else
        have ← (match (find_id i false s).1 with
                | Some p => info ← heap s !! p; Some (negb (bool_decide (i_name info = [])))
                | None => Some false
                end);
        if have : bool then Some (false, s)
        else if bool_decide (is_Some (by_name_ s !! n)) then Some (false, s)
        else set_node_name i n s
  end.

(** [nicenode (Nodeid)]. *)
Definition nicenode (i : Z) (s : Nodes) : option NiceNode :=
  match by_id_ s !! i with
  | Some p => info ← heap s !! p; Some (mkNiceNode i (i_name info) false)
  | None => Some (mkNiceNode i [] false)
  end.

(** *** [Node::Node]: the database of a configuration *)

Definition config_node (s : Nodes) (n : NodeConfig) : Nodes :=
  let s := add_node (new_info (n_id n) (n_name n) (inbound_verification n) (outbound_verification n)) s in
  if negb (from_source n) && negb (bool_decide (n_name n = [])) then put_named ({[n_id n]} ∪ config_named_ s) s else s.
Definition config_nodes (l : list NodeConfig) : Nodes := foldl config_node no_nodes l.
(** Its phase, address and name. *)
Definition own_phase (c : Config) : Z := match routing_ c with Some r => phase_of (r_type r) | None => 4 end.
Definition own_id (c : Config) : Z :=
  match routing_ c with
  | Some r => if own_phase c =? 4 then r_id r else Nodeid.make 0 (Nodeid.tid (r_id r))
  | None => 0
  end.
Definition own_name (c : Config) (s : Nodes) : option text :=
  let name_of_config := if bool_decide (node_name_ c = []) then Nodeid.str (own_id c) else node_name_ c in
  match (find_id (own_id c) false s).1 with
  | Some p => info ← heap s !! p; Some (if bool_decide (i_name info = []) then name_of_config else i_name info)
  | None => Some name_of_config
  end.

(** ** Circuits on demand *)

(** [api_clients_], [circuits_up_], the idle timer's expiry and deadline, in
    milliseconds; [ups] is what routing was told. *)
Record Demand := mkDemand { clients : Z; up : bool; timer : option Z; deadline : Z; ups : list bool }.
Definition on_demand : Demand := mkDemand 0 false None 0 [].
(** [arm_idle_timer]. *)
Definition arm_idle_timer (now : Z) (d : Demand) : Demand :=
  let left := deadline d - now in
  let left := if left <? 1 then 1 else left in
  mkDemand (clients d) (up d) (Some (now + Z.min left 3000000)) (deadline d) (ups d).
Definition api_client_arrived (d : Demand) : Demand :=
  let up' := ups d ++ (if up d then [] else [true]) in
  mkDemand (u64 (clients d + 1)) true None (deadline d) up'.
Definition api_client_left (idle now : Z) (d : Demand) : Demand :=
  let n := if clients d =? 0 then 0 else clients d - 1 in
  let d := mkDemand n (up d) (timer d) (deadline d) (ups d) in
  if negb (n =? 0) || negb (up d) then d
  else arm_idle_timer now (mkDemand n (up d) (timer d) (now + 1000 * idle) (ups d)).
(** The callback of the timer, which has expired. *)
Definition idle_timeout (now : Z) (d : Demand) : Demand :=
  let d := mkDemand (clients d) (up d) None (deadline d) (ups d) in
  if negb (clients d =? 0) || negb (up d) then d
  else if now <? deadline d then arm_idle_timer now d
  else mkDemand (clients d) false None (deadline d) (ups d ++ [false]).
