(* ===== verification/NodeLaws.v ===== *)
(** The node database over any sequence of changes, and when a name is lost;
    circuits on demand. *)

From stdpp Require Import gmap.
From S2P Require Import Prelude Types Float NiceParams Config Node.
#[local] Open Scope Z_scope.

(** ** The entries of the database *)

Definition entry (s : Nodes) (i : Z) : option Nodeinfo := p ← by_id_ s !! i; heap s !! p.
Record Sound (s : Nodes) : Prop := {
  so_id : ∀ i p, by_id_ s !! i = Some p → ∃ info, heap s !! p = Some info ∧ i_id info = i;
  so_heap : ∀ p info, heap s !! p = Some info → by_id_ s !! i_id info = Some p ∧ p < brk s;
  so_name : ∀ n p, by_name_ s !! n = Some p → ∃ info, heap s !! p = Some info ∧ i_name info = n ∧ n ≠ [];
}.
(** Every named node is found by its name. *)
Definition Complete (s : Nodes) : Prop :=
  ∀ p info, heap s !! p = Some info → i_name info ≠ [] → by_name_ s !! i_name info = Some p.

Lemma no_nodes_sound : Sound no_nodes.
Proof. by split. Qed.

Lemma add_fresh i s : by_id_ s !! i_id i = None →
  add_node i s = mkNodes (<[brk s := i]> (heap s)) (brk s + 1) (<[i_id i := brk s]> (by_id_ s))
    (if bool_decide (i_name i = []) then by_name_ s else <[i_name i := brk s]> (by_name_ s)) (config_named_ s).
Proof. intros E. unfold add_node. by rewrite E. Qed.
Lemma brk_free s : Sound s → heap s !! brk s = None.
Proof. intros S. destruct (heap s !! brk s) as [info|] eqn:E; [|done]. apply (so_heap s S) in E. lia. Qed.
Lemma add_sound i s : Sound s → by_id_ s !! i_id i = None → Sound (add_node i s).
Proof.
  intros S E. rewrite add_fresh by done. pose proof (brk_free s S) as Hb. split; cbn.
  - intros j p [[<- <-]|[Hn Hj]]%lookup_insert_Some; [exists i; by rewrite lookup_insert_eq|].
    destruct (so_id s S j p Hj) as (info & Hp & Hi). exists info. split; [|done]. by rewrite lookup_insert_ne by congruence.
  - intros p info [[<- <-]|[Hn Hp]]%lookup_insert_Some; [rewrite lookup_insert_eq; split; [done|lia]|].
    destruct (so_heap s S p info Hp) as [Hi Hl]. rewrite lookup_insert_ne by congruence. split; [done|lia].
  - intros n p Hn.
    assert (n = i_name i ∧ p = brk s ∧ n ≠ [] ∨ by_name_ s !! n = Some p) as [(-> & -> & Hne)|Hs].
    { case_bool_decide as Hi; [by right|]. apply lookup_insert_Some in Hn as [[<- <-]|[_ Hn]]; [by left|by right]. }
    + exists i. by rewrite lookup_insert_eq.
    + destruct (so_name s S n p Hs) as (info & Hp & Hr). exists info. by rewrite lookup_insert_ne by congruence.
Qed.
Lemma add_entry i s j : by_id_ s !! i_id i = None → Sound s →
  entry (add_node i s) j = if bool_decide (j = i_id i) then Some i else entry s j.
Proof.
  intros E S. rewrite add_fresh by done. unfold entry. cbn. case_bool_decide as Hj.
  - subst j. rewrite lookup_insert_eq. cbn. by rewrite lookup_insert_eq.
  - rewrite lookup_insert_ne by done. destruct (by_id_ s !! j) as [p|] eqn:Ep; [|done]. cbn.
    rewrite lookup_insert_ne; [done|]. destruct (so_id s S j p Ep) as (info & Hp & _). pose proof (brk_free s S). congruence.
Qed.
Lemma add_complete i s : Sound s → Complete s → by_id_ s !! i_id i = None → by_name_ s !! i_name i = None → Complete (add_node i s).
Proof.
  intros S C E En. rewrite add_fresh by done. intros p info Hpi Hne. cbn in Hpi |- *. apply lookup_insert_Some in Hpi as [[<- <-]|[Hn Hp]].
  - rewrite bool_decide_eq_false_2 by done. apply lookup_insert_eq.
  - pose proof (C p info Hp Hne) as Hc. case_bool_decide; [done|]. rewrite lookup_insert_ne; [done|congruence].
Qed.

(** [find_node] with an address: the entry, which is there now. *)
Lemma find_id_add i s : Sound s →
  ∃ p s', find_id i true s = (Some p, s') ∧ Sound s' ∧ by_id_ s' !! i = Some p ∧
    config_named_ s' = config_named_ s ∧ by_name_ s' = by_name_ s ∧
    (∀ j, entry s j ≠ None → entry s' j = entry s j) ∧
    entry s' i = Some (default (new_info i [] [] []) (entry s i)) ∧ (Complete s → Complete s').
Proof.
  intros S. unfold find_id. destruct (by_id_ s !! i) as [p|] eqn:E.
  - exists p, s. split; [done|]. split; [done|]. split; [done|]. repeat (split; [done|]). split; [|done].
    unfold entry. rewrite E. cbn. destruct (so_id s S i p E) as (info & -> & _). done.
  - set (info := new_info i [] [] []). pose proof (add_sound info s S E) as S'.
    exists (brk s), (add_node info s).
    assert (by_id_ (add_node info s) !! i = Some (brk s)) as Hi by (rewrite add_fresh by done; apply lookup_insert_eq).
    split; [by rewrite Hi|]. split; [done|]. split; [done|]. split; [by rewrite add_fresh|].
    split; [by rewrite add_fresh by done|]. split; [|split].
    + intros j Hj. rewrite add_entry by done. case_bool_decide as Hc; [|done]. subst j. destruct Hj. unfold entry. cbn. by rewrite E.
    + rewrite add_entry by done. rewrite bool_decide_eq_true_2 by done. unfold entry at 1. by rewrite E.
    + intros C p j Hp Hne. rewrite add_fresh in Hp by done. cbn in Hp. apply lookup_insert_Some in Hp as [[<- <-]|[_ Hp]]; [done|].
      rewrite add_fresh by done. cbn. by apply C.
Qed.

(** ** Renaming *)

Definition erased (old : text) (m : gmap text Z) : gmap text Z := if bool_decide (old = []) then m else delete old m.
(** [set_node_name] on an entry that is there, not configured and named otherwise. *)
Definition rename (p : Z) (info : Nodeinfo) (n : text) (s : Nodes) : Nodes :=
  mkNodes (<[p := with_name n info]> (heap s)) (brk s) (by_id_ s) (<[n := p]> (erased (i_name info) (by_name_ s))) (config_named_ s).
Lemma rename_sound p info n s : Sound s → heap s !! p = Some info → n ≠ [] → i_name info ≠ n → Sound (rename p info n s).
Proof.
  intros S Hp Hn Hd. split; cbn.
  - intros j q Hj. destruct (so_id s S j q Hj) as (k & Hq & Hi). destruct (decide (q = p)) as [->|Hne].
    + exists (with_name n info). rewrite lookup_insert_eq. split; [done|]. cbn. congruence.
    + exists k. by rewrite lookup_insert_ne.
  - intros q k [[<- <-]|[Hne Hq]]%lookup_insert_Some; [by apply (so_heap s S p info)|by apply (so_heap s S)].
  - intros m q [[<- <-]|[Hne Hq]]%lookup_insert_Some; [exists (with_name n info); by rewrite lookup_insert_eq|].
    assert (by_name_ s !! m = Some q ∧ (m ≠ i_name info ∨ i_name info = [])) as [Hm Ho].
    { unfold erased in Hq. case_bool_decide; [by split; [|right]|]. apply lookup_delete_Some in Hq as [? ?]. split; [done|left; congruence]. }
    destruct (so_name s S m q Hm) as (k & Hk & E & Hne'). exists k. split; [|done].
    rewrite lookup_insert_ne; [done|]. intros ->. destruct Ho; congruence.
Qed.
Lemma rename_entry p info n s i : Sound s → heap s !! p = Some info → by_id_ s !! i = Some p →
  entry (rename p info n s) i = Some (with_name n info) ∧ ∀ j, j ≠ i → entry (rename p info n s) j = entry s j.
Proof.
  intros S Hp Hi. unfold entry, rename. cbn. rewrite Hi. cbn. rewrite lookup_insert_eq. split; [done|].
  intros j Hj. destruct (by_id_ s !! j) as [q|] eqn:E; [|done]. cbn. rewrite lookup_insert_ne; [done|]. intros ->.
  destruct (so_id s S j q E) as (k & Hk & <-). destruct (so_id s S i q Hi) as (k' & Hk' & <-). congruence.
Qed.

(** What a change keeps: the database is sound, and an entry keeps all but
    its name, which the configuration may have given. *)
Record Kept (s s' : Nodes) : Prop := {
  kept_sound : Sound s';
  kept_named : config_named_ s' = config_named_ s;
  kept_entry : ∀ i info, entry s i = Some info →
    ∃ n, entry s' i = Some (with_name n info) ∧ (i ∈ config_named_ s → n = i_name info);
}.
Lemma same_name info : with_name (i_name info) info = info.
Proof. by destruct info. Qed.
Lemma kept_refl s : Sound s → Kept s s.
Proof. split; [done|done|]. intros i info E. exists (i_name info). by rewrite same_name. Qed.
Lemma kept_trans a b c : Kept a b → Kept b c → Kept a c.
Proof.
  intros [_ Na Ea] [Sc Nc Ec]. split; [done|congruence|]. intros i info E.
  destruct (Ea i info E) as (n & E1 & H1). destruct (Ec i _ E1) as (m & E2 & H2). exists m. split; [done|].
  intros Hi. rewrite H2 by congruence. by apply H1.
Qed.
Lemma find_kept i s : Sound s → Kept s (find_id i true s).2.
Proof.
  intros S. destruct (find_id_add i s S) as (p & s' & -> & S' & _ & En & _ & Ee & _). split; [done|done|].
  intros j info E. exists (i_name info). rewrite same_name. split; [|done]. cbn [snd]. rewrite Ee; [done|congruence].
Qed.

Lemma set_node_name_kept i n s : Sound s → ∃ b s', set_node_name i n s = Some (b, s') ∧ Kept s s' ∧
  (b = true → find_name n s' = by_id_ s' !! i ∧ i_name <$> entry s' i = Some n).
Proof.
  intros S. unfold set_node_name. case_bool_decide as Hn; [eexists _, _; split; [done|]; split; [by apply kept_refl|done]|].
  case_bool_decide as Hc; [eexists _, _; split; [done|]; split; [by apply kept_refl|done]|].
  pose proof (find_kept i s S) as K. destruct (find_id_add i s S) as (p & s1 & E & S1 & Hi & En & _). rewrite E in *. cbn [snd] in K.
  destruct (so_id s1 S1 i p Hi) as (info & Hp & Hid). rewrite Hp. cbn [mbind option_bind].
  case_bool_decide as Hd; [eexists _, _; split; [done|]; by split|].
  exists true, (rename p info n s1). split.
  { unfold rename, erased, write, put_names. by destruct (bool_decide (i_name info = [])). }
  destruct (rename_entry p info n s1 i S1 Hp Hi) as [Ei Ej].
  split; [|intros _; split; [cbn; unfold find_name; cbn; by rewrite lookup_insert_eq, Hi|by rewrite Ei]].
  apply (kept_trans s s1); [done|]. split; [by apply rename_sound|done|]. intros j k Ek.
  destruct (decide (j = i)) as [->|Hj].
  - exists n. rewrite Ei. assert (k = info) as -> by (unfold entry in Ek; rewrite Hi in Ek; cbn in Ek; congruence).
    split; [done|]. intros Hin. destruct Hc. congruence.
  - exists (i_name k). rewrite same_name, Ej by done. done.
Qed.

Lemma learn_cases me i n s : Sound s →
  learn_node_name me i n s = Some (false, s) ∨
  ∃ m, nodename n = Ok m ∧ i ≠ me ∧ by_name_ s !! m = None ∧ (∀ info, entry s i = Some info → i_name info = []) ∧
    learn_node_name me i n s = set_node_name i m s.
Proof.
  intros S. unfold learn_node_name. destruct (nodename n) as [m|]; [|by left].
  destruct (Z.eqb_spec i me); [by left|]. unfold find_id. destruct (by_id_ s !! i) as [p|] eqn:E; cbn [fst mbind option_bind].
  - destruct (so_id s S i p E) as (info & Hp & _). rewrite Hp. cbn. case_bool_decide as Hn; cbn; [|by left].
    case_bool_decide as Hm; [by left|]. right. exists m. rewrite <-eq_None_not_Some in Hm. repeat (split; [done|]). split; [|done].
    intros k Ek. unfold entry in Ek. rewrite E in Ek. cbn in Ek. congruence.
  - case_bool_decide as Hm; [by left|]. right. exists m. rewrite <-eq_None_not_Some in Hm. repeat (split; [done|]). split; [|done].
    intros k Ek. unfold entry in Ek. by rewrite E in Ek.
Qed.
Lemma learn_kept me i n s : Sound s → ∃ b s', learn_node_name me i n s = Some (b, s') ∧ Kept s s'.
Proof.
  intros S. destruct (learn_cases me i n s S) as [->|(m & _ & _ & _ & _ & ->)].
  - eexists _, _. split; [done|]. by apply kept_refl.
  - destruct (set_node_name_kept i m s S) as (b & s' & E & K & _). by exists b, s'.
Qed.

Lemma learn_complete me i n s : Sound s → Complete s →
  ∃ b s', learn_node_name me i n s = Some (b, s') ∧ Sound s' ∧ Complete s' ∧
    (∀ m p, by_name_ s !! m = Some p → by_name_ s' !! m = Some p).
Proof.
  intros S C. destruct (learn_cases me i n s S) as [->|(m & Em & _ & Hm & Hi & ->)]; [by eexists _, _|].
  unfold set_node_name. case_bool_decide as Hn; [by eexists _, _|].
  case_bool_decide as Hc; [by eexists _, _|].
  destruct (find_id_add i s S) as (p & s1 & E & S1 & Hp1 & _ & En & _ & Ee & C1). rewrite E.
  destruct (so_id s1 S1 i p Hp1) as (info & Hp & Hid). rewrite Hp. cbn [mbind option_bind].
  assert (i_name info = []) as He.
  { assert (entry s1 i = Some info) as Ei by (unfold entry; by rewrite Hp1). rewrite Ei in Ee. injection Ee as ->.
    destruct (entry s i) as [k|] eqn:Ek; [by apply Hi|done]. }
  rewrite He. case_bool_decide as Hd; [eexists _, _; split; [done|]; split; [done|]; split; [by apply C1|]; intros; by rewrite En|].
  rewrite bool_decide_eq_true_2 by done.
  assert (put_names (<[m:=p]> (by_name_ (write p (with_name m info) s1))) (write p (with_name m info) s1) = rename p info m s1) as ->.
  { unfold rename, erased, write, put_names. cbn. by rewrite He. }
  eexists _, _. split; [done|]. split; [apply rename_sound; [done|done|done|by rewrite He]|]. split.
  - intros q k Hq Hne. cbn in Hq |- *. apply lookup_insert_Some in Hq as [[<- <-]|[Hqp Hq]]; [apply lookup_insert_eq|].
    unfold erased. rewrite He. cbn. pose proof (C1 C q k Hq Hne) as Hk. rewrite lookup_insert_ne; [done|].
    intros Heq. rewrite <-Heq, En in Hk. congruence.
  - intros m' q Hq. cbn. unfold erased. rewrite He, bool_decide_eq_true_2 by done.
    rewrite lookup_insert_ne by congruence. by rewrite En.
Qed.

(** ** Sequences of changes *)

Inductive change := SetName (i : Z) (n : text) | Learn (i : Z) (n : text) | Find (i : Z).
Definition change_step (me : Z) (c : change) (s : Nodes) : option Nodes :=
  match c with
  | SetName i n => snd <$> set_node_name i n s
  | Learn i n => snd <$> learn_node_name me i n s
  | Find i => Some (find_id i true s).2
  end.
Fixpoint changes (me : Z) (l : list change) (s : Nodes) : option Nodes :=
  match l with [] => Some s | c :: l => s ← change_step me c s; changes me l s end.
Lemma change_kept me c s : Sound s → ∃ s', change_step me c s = Some s' ∧ Kept s s'.
Proof.
  intros S. destruct c as [i n|i n|i]; cbn [change_step].
  - destruct (set_node_name_kept i n s S) as (b & s' & -> & K & _). by exists s'.
  - destruct (learn_kept me i n s S) as (b & s' & -> & K). by exists s'.
  - exists (find_id i true s).2. split; [done|]. by apply find_kept.
Qed.
Lemma changes_kept me l : ∀ s, Sound s → ∃ s', changes me l s = Some s' ∧ Kept s s'.
Proof.
  induction l as [|c l IH]; intros s S; [exists s; split; [done|by apply kept_refl]|].
  destruct (change_kept me c s S) as (s1 & E1 & K1). cbn. rewrite E1. cbn.
  destruct (IH s1 (kept_sound _ _ K1)) as (s2 & E2 & K2). exists s2. split; [done|]. by eapply kept_trans.
Qed.

(** ** The database of a configuration *)

Definition info_of (n : NodeConfig) : Nodeinfo := new_info (n_id n) (n_name n) (inbound_verification n) (outbound_verification n).
Definition operator_named (n : NodeConfig) : Prop := from_source n = false ∧ n_name n ≠ [].
Record Built (l : list NodeConfig) (s : Nodes) : Prop := {
  bu_sound : Sound s;
  bu_entry : ∀ i, entry s i = info_of <$> List.find (λ n, n_id n =? i) l;
  bu_named : ∀ i, i ∈ config_named_ s ↔ ∃ n, n ∈ l ∧ n_id n = i ∧ operator_named n;
  bu_complete : NoDup (filter (λ m, m ≠ []) (map n_name l)) → Complete s;
  bu_names : ∀ m, by_name_ s !! m ≠ None → m ∈ map n_name l ∧ m ≠ [];
}.
Lemma config_node_named s n i :
  i ∈ config_named_ (config_node s n) ↔ i ∈ config_named_ s ∨ i = n_id n ∧ operator_named n.
Proof.
  unfold config_node, operator_named. destruct (from_source n); cbn; [split; [by left|intros [?|[_ [? _]]]; done]|].
  case_bool_decide as E; cbn; [split; [by left|intros [?|[_ [_ ?]]]; done]|]. rewrite elem_of_union, elem_of_singleton. tauto.
Qed.
Lemma config_node_rest s n : let s' := add_node (info_of n) s in
  heap (config_node s n) = heap s' ∧ by_id_ (config_node s n) = by_id_ s' ∧ by_name_ (config_node s n) = by_name_ s' ∧ brk (config_node s n) = brk s'.
Proof. unfold config_node. by destruct (_ && _). Qed.
Lemma sound_same s s' : heap s' = heap s → by_id_ s' = by_id_ s → by_name_ s' = by_name_ s → brk s' = brk s → Sound s → Sound s'.
Proof. intros E1 E2 E3 E4 [A B C]. split; rewrite ?E1, ?E2, ?E3, ?E4; done. Qed.
Lemma find_app_last (l : list NodeConfig) n i : List.find (λ k, n_id k =? i) (l ++ [n]) =
  match List.find (λ k, n_id k =? i) l with Some k => Some k | None => if n_id n =? i then Some n else None end.
Proof. induction l as [|k l IH]; cbn; [done|]. by destruct (n_id k =? i). Qed.
Lemma find_absent (l : list NodeConfig) i : i ∉ map n_id l → List.find (λ k, n_id k =? i) l = None.
Proof.
  induction l as [|k l IH]; cbn; [done|]. intros [H1 H2]%not_elem_of_cons. rewrite (proj2 (Z.eqb_neq _ _)) by congruence. by apply IH.
Qed.
Lemma built l : NoDup (map n_id l) → Built l (config_nodes l).
Proof.
  induction l as [|n l IH] using rev_ind; intros ND.
  { split; [apply no_nodes_sound|done|intros i; split; [done|intros (n & Hn & _); by apply elem_of_nil in Hn]|done|done]. }
  rewrite map_app in ND. apply NoDup_app in ND as (ND & Hx & _). destruct (IH ND) as [S En Nm C Nn].
  unfold config_nodes. rewrite foldl_app. cbn [foldl]. fold (config_nodes l). set (s := config_nodes l) in *.
  assert (n_id n ∉ map n_id l) as Hid by (intros H; apply (Hx _ H); by left).
  assert (by_id_ s !! i_id (info_of n) = None) as Hf.
  { cbn. specialize (En (n_id n)). rewrite find_absent in En by done. unfold entry in En.
    destruct (by_id_ s !! n_id n) as [p|] eqn:E; [|done]. destruct (so_id s S _ p E) as (k & Hk & _). cbn in En. congruence. }
  destruct (config_node_rest s n) as (E1 & E2 & E3 & E4). pose proof (add_sound (info_of n) s S Hf) as S'.
  split.
  - by apply (sound_same (add_node (info_of n) s)).
  - intros i. unfold entry. rewrite E1, E2. fold (entry (add_node (info_of n) s) i). rewrite add_entry by done.
    rewrite find_app_last. cbn [info_of i_id new_info]. case_bool_decide as Hi.
    + subst i. rewrite find_absent, Z.eqb_refl by done. done.
    + rewrite En. destruct (List.find _ l); [done|]. rewrite (proj2 (Z.eqb_neq _ _)) by congruence. done.
  - intros i. rewrite config_node_named, Nm. split.
    + intros [(k & Hk & Hi & Ho)|[-> Ho]]; [exists k; split; [|done]; apply elem_of_app; by left|].
      exists n. split; [|done]. apply elem_of_app. right. by left.
    + intros (k & [Hk|Hk%list_elem_of_singleton]%elem_of_app & Hi & Ho); [left; by exists k|subst k; by right].
  - intros Hn. rewrite map_app, filter_app in Hn. apply NoDup_app in Hn as (Hn1 & Hn2 & _).
    assert (Complete (add_node (info_of n) s)) as C'.
    { destruct (decide (n_name n = [])) as [He|He].
      - intros p k Hp Hne. rewrite add_fresh in Hp |- * by done. cbn in Hp |- *. rewrite bool_decide_eq_true_2 by done.
        apply lookup_insert_Some in Hp as [[<- <-]|[_ Hp]]; [done|]. by apply C.
      - apply add_complete; [done|by apply C|done|]. cbn. destruct (by_name_ s !! n_name n) as [p|] eqn:Ep; [|done].
        destruct (Nn (n_name n)) as [Hin _]; [congruence|]. destruct (Hn2 (n_name n)).
        + by apply list_elem_of_filter.
        + apply list_elem_of_filter. split; [done|by left]. }
    intros p k. rewrite E1, E3. apply C'.
  - intros m. rewrite E3, add_fresh by done. cbn. rewrite map_app. case_bool_decide as He.
    + intros Hm. destruct (Nn m Hm). split; [|done]. apply elem_of_app. by left.
    + destruct (decide (m = n_name n)) as [->|Hm]; [intros _; split; [apply elem_of_app; right; by left|done]|].
      rewrite lookup_insert_ne by congruence. intros Hl. destruct (Nn m Hl). split; [|done]. apply elem_of_app. by left.
Qed.

Definition learns (c : change) : bool := match c with SetName _ _ => false | _ => true end.
Lemma changes_learned me l : ∀ s, Sound s → Complete s → forallb learns l = true →
  ∃ s', changes me l s = Some s' ∧ Complete s' ∧ (∀ m p, find_name m s = Some p → find_name m s' = Some p).
Proof.
  induction l as [|c l IH]; intros s S C Hl; [by exists s|]. cbn in Hl |- *. apply andb_true_iff in Hl as [Hc Hl].
  assert (∃ s1, change_step me c s = Some s1 ∧ Sound s1 ∧ Complete s1 ∧ (∀ m p, find_name m s = Some p → find_name m s1 = Some p)) as (s1 & -> & S1 & C1 & F1).
  { destruct c as [i n|i n|i]; [done|..]; cbn [change_step].
    - destruct (learn_complete me i n s S C) as (b & s1 & -> & S1 & C1 & F1). by exists s1.
    - destruct (find_id_add i s S) as (p & s1 & -> & S1 & _ & _ & En & _ & _ & C1). exists s1. repeat (split; [done|]).
      split; [by apply C1|]. intros m q. unfold find_name. by rewrite En. }
  cbn. destruct (IH s1 S1 C1 Hl) as (s2 & E & C2 & F2). exists s2. split; [done|]. split; [done|]. intros m p Hm. by apply F2, F1.
Qed.

(** ** The properties *)

(** C37: The names of nodes. Whatever lists are fetched and whatever is learned from the
    network, in whatever order, starting from a configuration that lists no address
    twice: no entry is read after it was destroyed; a name that is found belongs to an
    entry which has that name and is the one of its address; what the operator named
    keeps its name, every entry of the configuration its verification, counters and
    round trip estimate. And if names are only learned, and the configuration gives no
    name twice, every node that has a name is found by it, and where a name led once it
    leads for good. *)
Theorem node_names_sound (me : Z) (l : list NodeConfig) (cs : list change) :
  NoDup (map n_id l) →
  ∃ s, changes me cs (config_nodes l) = Some s ∧
    (∀ n p, find_name n s = Some p → ∃ info, heap s !! p = Some info ∧ i_name info = n ∧ by_id_ s !! i_id info = Some p) ∧
    (∀ k, k ∈ l → ∃ n, entry s (n_id k) = Some (with_name n (info_of k)) ∧ (operator_named k → n = n_name k)) ∧
    (forallb learns cs = true → NoDup (filter (λ m, m ≠ []) (map n_name l)) →
      Complete s ∧ ∀ n p, find_name n (config_nodes l) = Some p → find_name n s = Some p).
Proof.
  intros ND. destruct (built l ND) as [S En Nm C Nn]. destruct (changes_kept me cs _ S) as (s & E & K).
  exists s. split; [done|]. split; [|split].
  - intros n p Hp. destruct (so_name s (kept_sound _ _ K) n p Hp) as (info & Hi & Hn & _).
    exists info. split; [done|]. split; [done|]. by apply (so_heap s (kept_sound _ _ K)).
  - intros k Hk. assert (entry (config_nodes l) (n_id k) = Some (info_of k)) as Ek.
    { rewrite En. clear -ND Hk. induction l as [|x l IH]; [by apply elem_of_nil in Hk|]. cbn in ND |- *. apply NoDup_cons in ND as [Hx ND].
      apply elem_of_cons in Hk as [->|Hk]; [by rewrite Z.eqb_refl|].
      rewrite (proj2 (Z.eqb_neq _ _)); [by apply IH|]. intros Hc. apply Hx. rewrite Hc. apply list_elem_of_In, in_map, list_elem_of_In, Hk. }
    destruct (kept_entry _ _ K _ _ Ek) as (n & Hn & Ho). exists n. split; [done|]. intros H. apply Ho, Nm. by exists k.
  - intros Hl Hd. destruct (changes_learned me cs _ S (C Hd) Hl) as (s' & E' & C' & F). assert (s' = s) as -> by congruence. done.
Qed.

Definition two : list NodeConfig := [mkNode 1026 (word "GROK") [] (word "secret") false; mkNode 1027 [] [] [] false].
Lemma node_names_sound_witness :
  ∃ s, changes 1025 [Learn 1027 (word "ark"); SetName 1026 (word "OTHER"); Find 1030] (config_nodes two) = Some s ∧
    entry s 1026 = Some (info_of (mkNode 1026 (word "GROK") [] (word "secret") false)) ∧
    find_name (word "ARK") s = Some 1.
Proof.
  destruct (node_names_sound 1025 two [Learn 1027 (word "ark"); SetName 1026 (word "OTHER"); Find 1030]) as (s & E & _ & H & _).
  - apply (bool_decide_unpack _). vm_compute. exact Logic.I.
  - exists s. split; [exact E|]. split.
    + destruct (H (mkNode 1026 (word "GROK") [] (word "secret") false)) as (n & En & Hn); [by left|].
      cbn [n_id] in En. rewrite En. rewrite Hn; [reflexivity|]. split; [reflexivity|discriminate].
    + vm_compute in E. injection E as <-. vm_compute. reflexivity.
Defined.

(** A configuration that lists an address twice, as a file that names a neighbour and
    includes a fetched list does, loses what the operator wrote -- the verification too
    -- and leaves the operator's name at an entry that is destroyed. *)
Lemma duplicate_dangles :
  let s := config_nodes [mkNode 1026 (word "GROK") [] (word "secret") false; mkNode 1026 (word "ARK") [] [] true] in
  entry s 1026 = Some (new_info 1026 (word "ARK") [] []) ∧
  ∃ p, find_name (word "GROK") s = Some p ∧ heap s !! p = None.
Proof. split; [vm_compute; reflexivity|]. exists 0. split; vm_compute; reflexivity. Qed.

(** A list in which a name has moved to another address makes the name unknown, when
    the new address comes first. *)
Lemma moved_name_lost : ∃ s,
  changes 1025 [SetName 1026 (word "ARK"); SetName 1027 (word "ARK"); SetName 1026 (word "GROK")] no_nodes = Some s ∧
  i_name <$> entry s 1027 = Some (word "ARK") ∧ find_name (word "ARK") s = None.
Proof. eexists. split; [vm_compute; reflexivity|]. split; vm_compute; reflexivity. Qed.
(** A fetched list can give the operator's name of a node to another address. *)
Lemma operator_name_taken : ∃ s,
  changes 1025 [SetName 1027 (word "GROK")] (config_nodes [mkNode 1026 (word "GROK") [] [] false]) = Some s ∧
  i_name <$> entry s 1026 = Some (word "GROK") ∧ find_name (word "GROK") s = by_id_ s !! 1027.
Proof. eexists. split; [vm_compute; reflexivity|]. split; vm_compute; reflexivity. Qed.

(** ** Circuits on demand *)

Inductive demand_event := Arrive (t : Z) | Leave (t : Z) | Fire (t : Z).
Definition time_of (e : demand_event) : Z := match e with Arrive t | Leave t | Fire t => t end.
Definition of_client (e : demand_event) : bool := match e with Fire _ => false | _ => true end.
(** The timer does not expire early. *)
Definition demand_step (idle : Z) (d : Demand) (e : demand_event) : Demand :=
  match e with
  | Arrive _ => api_client_arrived d
  | Leave t => api_client_left idle t d
  | Fire t => match timer d with Some due => if due <=? t then idle_timeout t d else d | None => d end
  end.
Definition demand_run (idle : Z) (l : list demand_event) : Demand := foldl (demand_step idle) on_demand l.
Inductive in_order : list demand_event → Prop :=
| order_nil : in_order []
| order_snoc l e : in_order l → Forall (λ f, time_of f ≤ time_of e) l → in_order (l ++ [e]).

(** No client for the idle time, which the deadline says. *)
Definition quiet (idle now : Z) (l : list demand_event) : Prop :=
  Forall (λ f, of_client f = true → time_of f + 1000 * idle ≤ now) l.
Record DemandOk (idle : Z) (l : list demand_event) (d : Demand) : Prop := {
  do_clients : 0 ≤ clients d ≤ len l;
  do_wanted : 0 < clients d → up d = true;
  do_armed : up d = true → clients d = 0 → is_Some (timer d);
  do_quiet : up d = true → clients d = 0 → quiet idle (deadline d) l;
  do_told : ups d = [] ∧ up d = false ∨ last (ups d) = Some (up d);
}.

Lemma quiet_mono idle now now' l : now ≤ now' → quiet idle now l → quiet idle now' l.
Proof. intros Hn H. eapply Forall_impl; [exact H|]. intros e He Hc. specialize (He Hc). lia. Qed.
Lemma quiet_now idle t l e : Forall (λ f, time_of f ≤ time_of e) l → time_of e = t → quiet idle (t + 1000 * idle) (l ++ [e]).
Proof.
  intros H <-. apply Forall_app. split; [|by repeat constructor]. eapply Forall_impl; [exact H|]. cbn. lia.
Qed.
Lemma quiet_fire idle now l t : quiet idle now l → quiet idle now (l ++ [Fire t]).
Proof. intros H. apply Forall_app. split; [done|]. by constructor. Qed.
Lemma arm_fields now d : clients (arm_idle_timer now d) = clients d ∧ up (arm_idle_timer now d) = up d ∧
  deadline (arm_idle_timer now d) = deadline d ∧ ups (arm_idle_timer now d) = ups d ∧
  timer (arm_idle_timer now d) = Some (now + Z.min (if deadline d - now <? 1 then 1 else deadline d - now) 3000000).
Proof. done. Qed.

Lemma demand_ok_step idle l d e : 0 ≤ idle → len l < 2 ^ 32 → Forall (λ f, time_of f ≤ time_of e) l →
  DemandOk idle l d → DemandOk idle (l ++ [e]) (demand_step idle d e).
Proof.
  intros Hidle Hlen Ho [Hc Hw Ha Hq Ht]. assert (len (l ++ [e]) = len l + 1) as El by (rewrite len_app; done).
  assert (0 ≤ clients d < 4294967296) as Hr by (change (2 ^ 32) with 4294967296 in Hlen; lia).
  destruct e as [t|t|t]; cbn [demand_step].
  - assert (u64 (clients d + 1) = clients d + 1) as Eu by (unfold u64; apply Z.mod_small; lia).
    split; cbn; rewrite ?Eu; try lia; try done. right. destruct (up d) eqn:Eup; [|by rewrite last_snoc]. rewrite app_nil_r. by destruct Ht as [[? ?]|?].
  - unfold api_client_left. set (n := if clients d =? 0 then 0 else clients d - 1).
    assert (0 ≤ n ≤ clients d ∧ n < clients d + 1) as Hn by (unfold n; destruct (Z.eqb_spec (clients d) 0); lia).
    cbn [up]. destruct (Z.eqb_spec n 0) as [E|E]; cbn [negb orb].
    + destruct (up d) eqn:Eup; cbn [negb].
      * split; cbn; try lia; try done; intros; by apply quiet_now.
      * split; cbn; try lia; try done.
    + split; cbn; try lia; try done. intros. apply Hw. lia.
  - assert (DemandOk idle (l ++ [Fire t]) d) as Hsame.
    { split; try done; try lia. intros Hu Hn. by apply quiet_fire, Hq. }
    destruct (timer d) as [due|] eqn:Et; [|done]. destruct (due <=? t) eqn:Ed; [|done].
    unfold idle_timeout. cbn [clients up].
    destruct (Z.eqb_spec (clients d) 0) as [E|E]; cbn [negb orb]; [|split; cbn; try done; lia].
    destruct (up d) eqn:Eup; cbn [negb]; [|split; cbn; try done; try lia].
    cbn [deadline]. destruct (Z.ltb_spec t (deadline d)).
    + split; cbn; try done; try lia; intros; apply quiet_fire; by apply Hq.
    + split; cbn; try done; try lia. right. by rewrite last_snoc.
Qed.

Lemma demand_ok idle l : 0 ≤ idle → len l < 2 ^ 32 → in_order l → DemandOk idle l (demand_run idle l).
Proof.
  intros Hi Hl Ho. induction Ho as [|l e Ho IH He]; [split; cbn; try done; try lia; by left|].
  unfold demand_run. rewrite foldl_app. cbn [foldl]. rewrite len_app in Hl. change (len [e]) with 1 in Hl.
  apply demand_ok_step; [done|lia|done|]. apply IH. lia.
Qed.
(** The expiries of the idle timer, each at its time, end at the deadline. *)
Lemma idle_ends d idle : up d = true → clients d = 0 → is_Some (timer d) →
  ∃ k, let fires := foldl (λ d _, demand_step idle d (Fire (default 0 (timer d)))) d (replicate k tt) in up fires = false.
Proof.
  intros Hu Hc [due Ht]. remember (Z.to_nat (deadline d - due)) as m eqn:Em.
  revert d due Hu Hc Ht Em. induction (lt_wf m) as [m _ IH]. intros d due Hu Hc Ht Em.
  assert (demand_step idle d (Fire due) = if due <? deadline d then
      arm_idle_timer due (mkDemand (clients d) (up d) None (deadline d) (ups d))
    else mkDemand (clients d) false None (deadline d) (ups d ++ [false])) as E.
  { cbn [demand_step]. rewrite Ht, Z.leb_refl. unfold idle_timeout. cbn. by rewrite Hc, Hu. }
  destruct (Z.ltb_spec due (deadline d)) as [Hl|Hl].
  - remember (demand_step idle d (Fire due)) as d' eqn:Ed.
    destruct (arm_fields due (mkDemand (clients d) (up d) None (deadline d) (ups d))) as (E1 & E2 & E3 & _ & E5).
    rewrite <-E in E1, E2, E3, E5. cbn in E1, E2, E3, E5.
    destruct (IH (Z.to_nat (deadline d' - (due + Z.min (if deadline d - due <? 1 then 1 else deadline d - due) 3000000)))) with (d := d')
      (due := due + Z.min (if deadline d - due <? 1 then 1 else deadline d - due) 3000000) as (k & Hk); try congruence; try done.
    { rewrite E3. destruct (Z.ltb_spec (deadline d - due) 1); lia. }
    exists (S k). cbn [replicate foldl]. rewrite Ht. change (default 0 (Some due)) with due. cbv zeta. rewrite <-Ed. exact Hk.
  - exists 1%nat. cbn [replicate foldl]. rewrite Ht. change (default 0 (Some due)) with due. cbv zeta. by rewrite E.
Qed.

(** Circuits on demand.  Whatever clients come and go and whenever the idle timer
    expires: the circuits are up while there is a client; routing is told up and down in
    turn; they are taken down only when no client has come or gone for the idle time;
    and when the last client has left, the timer, which goes round in steps of less than
    the wheel's hour, takes them down in the end. *)
Theorem circuits_on_demand (idle : Z) (l : list demand_event) :
  0 ≤ idle → len l < 2 ^ 32 → in_order l →
  let d := demand_run idle l in
  (0 < clients d → up d = true) ∧
  (ups d = [] ∧ up d = false ∨ last (ups d) = Some (up d)) ∧
  (∀ t, Forall (λ f, time_of f ≤ t) l → up d = true → up (demand_step idle d (Fire t)) = false → quiet idle t l) ∧
  (up d = true → clients d = 0 →
     ∃ k, up (foldl (λ d _, demand_step idle d (Fire (default 0 (timer d)))) d (replicate k tt)) = false).
Proof.
  intros Hi Hl Ho d. destruct (demand_ok idle l Hi Hl Ho) as [Hc Hw Ha Hq Ht]. fold d in Hc, Hw, Ha, Hq, Ht.
  split; [done|]. split; [done|]. split.
  - intros t Hf Hu Hd. cbn [demand_step] in Hd. destruct (timer d) as [due|] eqn:Et; [|congruence].
    destruct (due <=? t); [|congruence]. unfold idle_timeout in Hd. cbn [clients up deadline ups] in Hd.
    destruct (Z.eqb_spec (clients d) 0) as [E|E]; cbn [negb orb] in Hd; [|by cbn in Hd; congruence].
    rewrite Hu in Hd. cbn [negb] in Hd. destruct (Z.ltb_spec t (deadline d)) as [H|H]; [by cbn in Hd|].
    by apply (quiet_mono idle (deadline d)), Hq.
  - intros Hu Hn. apply (idle_ends d idle Hu Hn). by apply Ha.
Qed.

(** Two hours are three turns of the timer. *)
Lemma circuits_on_demand_witness :
  let l := [Arrive 5; Leave 100] in
  up (demand_run 7200 l) = true ∧
  ∃ k, up (foldl (λ d _, demand_step 7200 d (Fire (default 0 (timer d)))) (demand_run 7200 l) (replicate k tt)) = false.
Proof.
  destruct (circuits_on_demand 7200 [Arrive 5; Leave 100]) as (_ & _ & _ & H); [lia|reflexivity| |].
  - apply (order_snoc [Arrive 5] (Leave 100)); [apply (order_snoc [] (Arrive 5)); constructor|repeat constructor; cbn; lia].
  - split; [reflexivity|]. apply H; reflexivity.
Defined.
