(* ===== verification/NodeFetch.v ===== *)
(** Node name lists: [include/decnet/nodefetch.h] and [src/common/nodefetch.cc],
    what is read from a list and kept in its cache, and the configuration that
    loads the cache again. *)

From S2P Require Import Prelude Types Float Config ConfigLaws.
#[local] Open Scope Z_scope.

(** ** Reading *)

(** [std::isspace] in the C locale, and [>>] of a word. *)
Definition isspace (c : ascii) : bool := bool_decide (c = " "%char) || ((9 <=? code c) && (code c <=? 13)).
Fixpoint skip_space (s : text) : text := match s with c :: t => if isspace c then skip_space t else s | [] => [] end.
Fixpoint word_of (s : text) : text * text :=
  match s with
  | c :: t => if isspace c then ([], s) else let '(w, r) := word_of t in (c :: w, r)
  | [] => ([], [])
  end.
Definition next_word (s : text) : option (text * text) :=
  match skip_space s with [] => None | t => Some (word_of t) end.
Definition drop_cr (s : text) : text := match last s with Some c => if bool_decide (c = chr 13) then removelast s else s | None => s end.
Fixpoint before_hash (s : text) : text :=
  match s with c :: t => if bool_decide (c = "#"%char) then [] else c :: before_hash t | [] => [] end.
(** A line: nothing, or an address and a name. *)
Definition list_line (raw : text) : option (Z * text) :=
  '(addr, rest) ← next_word (before_hash (drop_cr raw));
  '(name, _) ← next_word rest;
  match Nodeid.parse addr with Ok i => Some (i, name) | Throw _ => None end.
Definition parse_node_list (s : text) : list (Z * text) := omap list_line (lines_of s).

(** ** The cache *)

Definition validator_tag : text := word "# last-modified: ".
Definition name_line (n : Z * text) : text := (Nodeid.str n.1 ++ [" "%char] ++ n.2)%list.
(** What [write_node_list] puts into the file. *)
Definition cache_lines (names : list (Z * text)) (last_modified : text) : list text :=
  ((if bool_decide (last_modified = []) then [] else [(validator_tag ++ last_modified)%list]) ++ map name_line names)%list.
Definition cache_text (names : list (Z * text)) (last_modified : text) : text :=
  List.concat (map (λ l, l ++ [chr 10]) (cache_lines names last_modified)).
Definition tolower (c : ascii) : ascii := if isupper c then chr (code c + 32) else c.
Fixpoint find_validator (n : nat) (ls : list text) : text :=
  match n, ls with
  | S n, l :: ls =>
      let l := drop_cr l in
      if starts_with validator_tag (map tolower l) then drop (length validator_tag) l else find_validator n ls
  | _, _ => []
  end.
Definition read_cached_validator (file : option text) : text :=
  match file with None => [] | Some s => find_validator 8 (lines_of s) end.

(** ** Reading a cache back *)

(** Characters that are neither quotes, a comment nor blanks. *)
Definition plain_char (c : ascii) : bool := isalpha c || isdigit c || bool_decide (c = "."%char).
Definition plain_word (w : text) : Prop := forallb plain_char w = true ∧ w ≠ [].
Lemma plain_other c : (plain_char c = true) → (c ∉ quote_chars) ∧ (c ≠ "#"%char) ∧ (is_space c = false) ∧ c ≠ "@"%char ∧ c ≠ "-"%char ∧ c ≠ (chr 10).
Proof.
  intros H. assert (∀ d, plain_char d = false → c ≠ d) as Hd by (intros d Hf ->; congruence).
  split; [unfold quote_chars; rewrite !elem_of_cons, elem_of_nil; intros [E|[E|[]]]; revert E; apply Hd; reflexivity|].
  split; [by apply Hd|]. split; [|split; [by apply Hd|split; by apply Hd]].
  unfold is_space. rewrite !bool_decide_eq_false_2; [done|by apply Hd..].
Qed.
Lemma split_plain w s words cur b : forallb plain_char w = true →
  split_from words cur b None (w ++ s) = split_from words (cur ++ w) (b || negb (bool_decide (w = []))) None s.
Proof.
  revert cur b. induction w as [|c w IH]; intros cur b H; [by rewrite app_nil_r, orb_false_r|].
  cbn in H. apply andb_true_iff in H as [Hc Hw]. destruct (plain_other c Hc) as (N1 & N2 & N3 & _).
  cbn [app split_from]. rewrite bool_decide_eq_false_2, bool_decide_eq_false_2, N3, IH by done.
  rewrite <-app_assoc. cbn. by rewrite orb_true_r.
Qed.
Lemma split_two a b : plain_word a → plain_word b → split_config_line (a ++ " "%char :: b) = Ok [a; b].
Proof.
  intros [Ha Hna] [Hb Hnb]. unfold split_config_line. rewrite split_plain by done. rewrite bool_decide_eq_false_2 by done.
  pose proof (split_plain b [] [a] [] false Hb) as E. rewrite app_nil_r in E.
  change (split_from [a] [] false None b = Ok [a; b]). rewrite E, (bool_decide_eq_false_2 (b = [])) by done. reflexivity.
Qed.
Lemma digit_plain c : isdigit c = true → plain_char c = true.
Proof. intros H. unfold plain_char. by rewrite H, orb_true_r. Qed.
Lemma digits_plain v : 0 ≤ v → forallb plain_char (print_uint v) = true.
Proof.
  intros Hv. apply forallb_forall. intros c Hc. apply digit_plain. pose proof (print_uint_digit v Hv) as H.
  rewrite Forall_forall in H. by apply H, list_elem_of_In.
Qed.
Lemma address_plain i : Nodeid.ok i → plain_word (Nodeid.str i).
Proof.
  intros Hi. pose proof (area_range i Hi). pose proof (tid_range i). unfold Nodeid.str.
  destruct (print_uint_nonempty (Nodeid.tid i)) as (c & s & E). destruct (print_uint_nonempty (Nodeid.area i)) as (c' & s' & E').
  destruct (_ =? 0); split.
  - apply digits_plain. lia.
  - by rewrite E.
  - rewrite !forallb_app, !digits_plain by lia. done.
  - by rewrite E'.
Qed.
Lemma name_plain n m : nodename n = Ok m → plain_word n.
Proof.
  unfold nodename. destruct (forallb _ n) eqn:E; [|done]. destruct (_ || _ || _) eqn:B; [done|]. intros _. split.
  - rewrite forallb_forall in E |- *. intros c Hc. specialize (E c Hc). unfold plain_char. by rewrite E.
  - intros ->. by destruct (negb _).
Qed.

Lemma lines_from_line w s : chr 10 ∉ w → ∀ cur, lines_from cur (w ++ chr 10 :: s) = (cur ++ w) :: lines_from [] s.
Proof.
  induction w as [|c w IH]; intros N cur.
  - cbn. by rewrite app_nil_r.
  - apply not_elem_of_cons in N as [N1 N2]. cbn [app lines_from]. rewrite bool_decide_eq_false_2 by congruence.
    by rewrite IH, <-app_assoc by done.
Qed.
Lemma lines_of_lines ls : Forall (λ l, chr 10 ∉ l) ls → lines_of (List.concat (map (λ l, l ++ [chr 10]) ls)) = ls.
Proof.
  unfold lines_of. induction 1 as [|l ls Hl _ IH]; [done|]. cbn [map List.concat]. rewrite <-app_assoc. cbn [app].
  by rewrite lines_from_line, IH by done.
Qed.

(** A list as the configuration takes it: addresses and names that are read back. *)
Definition listed (n : Z * text) : Prop :=
  Nodeid.ok n.1 ∧ (Nodeid.area n.1 = 0 ∨ Nodeid.tid n.1 ≠ 0) ∧ is_Some (match nodename n.2 with Ok m => Some m | Throw _ => None end).
Definition upper (s : text) : text := map toupper s.
Lemma listed_name n : listed n → nodename n.2 = Ok (upper n.2) ∧ Nodeid.parse (Nodeid.str n.1) = Ok n.1 ∧ plain_word (Nodeid.str n.1) ∧ plain_word n.2.
Proof.
  intros (Hi & Ht & [m Hm]). destruct (nodename n.2) as [m'|] eqn:E; [|done]. split; [|split; [|split]].
  - unfold nodename in E. destruct (forallb _ _); [|done]. destruct (_ || _ || _); [done|]. by injection E as <-.
  - rewrite nodeid_parse_str by done. destruct (Z.eqb_spec (Nodeid.area n.1) 0); cbn; [done|]. destruct (Z.eqb_spec (Nodeid.tid n.1) 0); cbn; [|done]. by destruct Ht.
  - by apply address_plain.
  - by eapply name_plain.
Qed.
Lemma plain_line w : plain_word w → chr 10 ∉ w.
Proof. intros [H _] Hn. rewrite forallb_forall in H. apply list_elem_of_In in Hn. specialize (H _ Hn). done. Qed.
Lemma plain_word_option w : plain_word w → is_option w = false.
Proof.
  intros [H Hn]. destruct w as [|a w]; [done|]. cbn in H. apply andb_true_iff in H as [Ha _].
  destruct (plain_other a Ha) as (_ & _ & _ & _ & Hd & _). destruct w as [|b [|c w]]; try done. cbn. by rewrite bool_decide_eq_false_2.
Qed.

Lemma apply_node_command `{Environment} inc l c : command l = word "node" → apply inc l c = apply_node inc l c.
Proof. intros E. unfold apply. rewrite E. reflexivity. Qed.
Definition fetched (n : Z * text) : NodeConfig := mkNode n.1 (upper n.2) [] [] true.
Lemma read_name_line `{Environment} inc n w c : listed n → in_source_include_ c = true →
  (ws ← located (split_config_line (name_line n));
   match ws with [] => Ok c | _ => located (apply inc (parse_config_line ([word "node"] ++ ws) w) c) end) =
  Ok (put_nodes_ (nodes_ c ++ [fetched n]) c).
Proof.
  intros Hn Hs. destruct (listed_name n Hn) as (En & Ei & Pa & Pn). unfold name_line. cbn [app].
  rewrite split_two by done. cbn [located mbind result_bind app].
  assert (parse_config_line [word "node"; Nodeid.str n.1; n.2] w = mkLine (word "node") [Nodeid.str n.1; n.2] ∅ w) as ->.
  { cbn [parse_config_line parse_words]. by rewrite !plain_word_option. }
  rewrite apply_node_command by done. unfold apply_node. cbn [positional].
  assert (∀ l, positional l = [Nodeid.str n.1; n.2] → options l = ∅ → add_node_line (Nodeid.str n.1) l c = Ok (put_nodes_ (nodes_ c ++ [fetched n]) c)) as Hadd.
  { intros l Hp Ho. unfold add_node_line. rewrite Ei. cbn [mbind result_bind]. rewrite Hp, En. cbn [mbind result_bind].
    unfold opt. rewrite Ho, Hs, !lookup_empty. done. }
  destruct (Nodeid.str n.1) as [|a [|b s]] eqn:E; [by rewrite Hadd..|].
  destruct Pa as [Pa _]. cbn in Pa. apply andb_true_iff in Pa as [Pa _]. destruct (plain_other a Pa) as (_ & _ & _ & Hat & _).
  rewrite bool_decide_eq_false_2 by done. by rewrite Hadd.
Qed.
Lemma put_nodes_twice v w c : put_nodes_ v (put_nodes_ w c) = put_nodes_ v c.
Proof. done. Qed.
Lemma read_name_lines `{Environment} inc src names : Forall listed names → ∀ n c, in_source_include_ c = true →
  apply_lines inc [word "node"] src n (map name_line names) c = Ok (put_nodes_ (nodes_ c ++ map fetched names) c).
Proof.
  induction 1 as [|x names Hx _ IH]; intros n c Hs; [cbn; rewrite app_nil_r; by destruct c|].
  cbn [map apply_lines]. pose proof (read_name_line inc x (where_ src (u32 (n + 1))) c Hx Hs) as E.
  destruct (located (split_config_line (name_line x))) as [ws|]; [|done]. cbn [mbind result_bind] in E |- *.
  rewrite E. cbn [mbind result_bind]. rewrite IH by done. cbn [nodes_ put_nodes_]. by rewrite put_nodes_twice, <-app_assoc.
Qed.
Lemma name_line_clean n : listed n → chr 10 ∉ name_line n.
Proof.
  intros Hn. destruct (listed_name n Hn) as (_ & _ & Pa & Pn). unfold name_line.
  rewrite !not_elem_of_app. split; [by apply plain_line|]. split; [|by apply plain_line]. by rewrite list_elem_of_singleton.
Qed.
Lemma cache_clean names lm : Forall listed names → chr 10 ∉ lm → Forall (λ l, chr 10 ∉ l) (cache_lines names lm).
Proof.
  intros Hn Hl. apply Forall_app. split.
  - case_bool_decide; [done|]. repeat constructor. rewrite not_elem_of_app. split; [|done].
    apply (bool_decide_unpack _). vm_compute. exact Logic.I.
  - apply Forall_map. eapply Forall_impl; [exact Hn|]. apply name_line_clean.
Qed.
Lemma read_cache `{Environment} inc src names lm c : Forall listed names → chr 10 ∉ lm → in_source_include_ c = true →
  apply_lines inc [word "node"] src 0 (lines_of (cache_text names lm)) c = Ok (put_nodes_ (nodes_ c ++ map fetched names) c).
Proof.
  intros Hn Hl Hs. unfold cache_text. rewrite lines_of_lines by by apply cache_clean.
  unfold cache_lines. case_bool_decide; [by apply read_name_lines|]. cbn [app apply_lines].
  assert (split_config_line (validator_tag ++ lm) = Ok []) as -> by reflexivity. cbn [located mbind result_bind].
  by apply read_name_lines.
Qed.

(** *** The validator *)
Lemma starts_with_app p s : starts_with p (p ++ s) = true.
Proof. unfold starts_with. rewrite take_app_length. by apply bool_decide_eq_true_2. Qed.
Lemma drop_cr_none s : last s ≠ Some (chr 13) → drop_cr s = s.
Proof. intros Hl. unfold drop_cr. destruct (last s); [|done]. rewrite bool_decide_eq_false_2; [done|congruence]. Qed.
Lemma find_validator_names k names : Forall listed names → find_validator k (map name_line names) = [].
Proof.
  intros Hn. revert k. induction Hn as [|n names Hx _ IH]; intros [|k]; try done. cbn [map find_validator].
  destruct (listed_name n Hx) as (_ & _ & [Pa Ha] & [Pn Hb]).
  assert (last (name_line n) ≠ Some (chr 13)) as Hl.
  { unfold name_line. rewrite app_assoc, last_app. destruct (last n.2) as [c|] eqn:E; [|by apply last_None in E].
    intros [= ->]. apply last_Some in E as [l E]. rewrite E, forallb_app in Pn. apply andb_true_iff in Pn as [_ Pn]. done. }
  rewrite drop_cr_none by done. replace (starts_with validator_tag (map tolower (name_line n))) with false; [apply IH|].
  unfold name_line, starts_with. symmetry. apply bool_decide_eq_false_2. destruct (Nodeid.str n.1) as [|a s]; [done|].
  cbn in Pa. apply andb_true_iff in Pa as [Pa _]. destruct (plain_other a Pa) as (_ & Hh & _). cbn. intros [= E _].
  unfold tolower in E. destruct (isupper a) eqn:U; [|done].
  apply (f_equal code) in E. rewrite code_chr in E by (unfold isupper in U; lia). unfold isupper in U.
  change (code "#"%char) with 35 in E. lia.
Qed.
Lemma validator_back names lm : Forall listed names → chr 10 ∉ lm → last lm ≠ Some (chr 13) →
  read_cached_validator (Some (cache_text names lm)) = lm.
Proof.
  intros Hn Hl Hc. unfold read_cached_validator, cache_text. rewrite lines_of_lines by by apply cache_clean.
  unfold cache_lines. case_bool_decide as E; [subst; by apply find_validator_names|]. cbn [app find_validator].
  assert (last (validator_tag ++ lm) ≠ Some (chr 13)) as Hd.
  { rewrite last_app. destruct (last lm) as [c|] eqn:Ec; [done|by apply last_None in Ec]. }
  rewrite drop_cr_none by done. rewrite map_app. change (map tolower validator_tag) with validator_tag.
  by rewrite starts_with_app, drop_app_length.
Qed.

(** *** The property *)

(** C38: A list that was fetched is there at the next start. The cache written for a
    list of addresses and names that are such as the configuration takes, which the
    fetch does not see to, is read by a line that includes it, by whatever path, as that
    list in its order, the names in upper case, marked as fetched, and nothing else of
    the configuration changes but that the source is noted; and the validator to ask the
    server with is what it gave. *)
Theorem cache_read_back `{Environment} (fuel : nat) (l : ConfigLine) (c : Config) (names : list (Z * text)) (lm : text) :
  let p := relative c (opt l "cache" []) in
  Forall listed names → chr 10 ∉ lm → last lm ≠ Some (chr 13) →
  positional l = [word "@hecnet"] → opt l "cache" [] ≠ [] → has l "refresh" = false →
  in_source_include_ c = false → read_file p = Some (cache_text names lm) →
  apply_node (include_prefixed (S fuel) (word "node")) l c =
    Ok (put_nodes_ (nodes_ c ++ map fetched names) (put_node_sources_ (node_sources_ c ++ [mkSource hecnet_url p 604800]) c)) ∧
  read_cached_validator (read_file p) = lm.
Proof.
  intros p Hn Hl Hc Hp Ho Hr Hs Hf. split; [|rewrite Hf; by apply validator_back].
  unfold apply_node. rewrite Hp. change (word "@hecnet") with ("@"%char :: word "hecnet"). cbv beta iota.
  change (word "hecnet") with ("h"%char :: word "ecnet") at 1. cbv beta iota.
  rewrite bool_decide_eq_true_2 by done.
  change (is_word ("h"%char :: word "ecnet") "neighbours" || is_word ("h"%char :: word "ecnet") "neighbors") with false.
  change (is_word ("h"%char :: word "ecnet") "hecnet" || (starts_with (word "http://") ("h"%char :: word "ecnet") || starts_with (word "https://") ("h"%char :: word "ecnet"))) with true.
  cbv beta iota. unfold add_source. rewrite bool_decide_eq_false_2 by done. fold p. unfold uint_option. rewrite Hr. cbn [mbind result_bind].
  rewrite Hf. cbn [include_prefixed]. rewrite Hf, read_cache by done. cbn [mbind result_bind]. f_equal.
  change (is_word ("h"%char :: word "ecnet") "hecnet") with true. cbv beta iota. destruct c; cbn in *. by rewrite Hs.
Qed.

Definition names_files : Environment := {|
  read_file p := if bool_decide (p = word "/var/names") then Some (cache_text [(1026, word "ark"); (5, word "Pdp11")] (word "Mon, 1 Jan")) else None;
  getenv_api := None; stod _ := None |}.
Lemma cache_read_back_witness :
  match @from_string names_files 1 (word "node @hecnet --cache names") (word "/var/decnet.conf") with
  | Ok c => nodes_ c = [mkNode 1026 (word "ARK") [] [] true; mkNode 5 (word "PDP11") [] [] true]
  | Throw _ => False
  end ∧ @read_cached_validator (Some (cache_text [(1026, word "ark"); (5, word "Pdp11")] (word "Mon, 1 Jan"))) = word "Mon, 1 Jan".
Proof.
  set (c := put_base_dir_ (word "/var/") new_config).
  set (l := parse_config_line [word "node"; word "@hecnet"; word "--cache"; word "names"] (word "/var/decnet.conf:1")).
  assert (Forall listed [(1026, word "ark"); (5, word "Pdp11")]) as Hl.
  { apply Forall_cons. split; [split; [unfold Nodeid.ok; cbn; lia|split; [right; discriminate|eexists; reflexivity]]|].
    apply Forall_cons. split; [split; [unfold Nodeid.ok; cbn; lia|split; [left; reflexivity|eexists; reflexivity]]|constructor]. }
  destruct (@cache_read_back names_files 0 l c [(1026, word "ark"); (5, word "Pdp11")] (word "Mon, 1 Jan") Hl) as [E V].
  - apply (bool_decide_unpack _). vm_compute. exact Logic.I.
  - discriminate.
  - reflexivity.
  - discriminate.
  - reflexivity.
  - reflexivity.
  - reflexivity.
  - split; [|exact V].
    change (@from_string names_files 1 (word "node @hecnet --cache names") (word "/var/decnet.conf"))
      with (match located (@apply_node names_files (@include_prefixed names_files 1 (word "node")) l c) with Ok x => Ok x | Throw e => Throw e end).
    rewrite E. reflexivity.
Defined.

(** A list with one name the configuration refuses is cached all the same, and the next
    start fails on it. *)
Definition bad_list : text := (word "1.2 GROK" ++ [chr 10] ++ word "1.3 TOOLONGNAME")%list.
Definition bad_files : Environment := {|
  read_file p := if bool_decide (p = word "/names") then Some (cache_text (parse_node_list bad_list) []) else None;
  getenv_api := None; stod _ := None |}.
Lemma cache_refused :
  parse_node_list bad_list = [(1026, word "GROK"); (1027, word "TOOLONGNAME")] ∧
  @from_string bad_files 1 (word "node @hecnet --cache /names") (word "decnet.conf") = Throw RuntimeError.
Proof. split; vm_compute; reflexivity. Qed.
