(* ===== verification/NameLearner.v ===== *)
(** Names learned from the network: [include/decnet/namelearner.h] and
    [src/common/namelearner.cc].

    A question goes to the management listener of another node, [Nml]; what it
    finds goes to the node database, [Node].  Whether a connect can be made
    is an answer of the environment; times are milliseconds. *)

From stdpp Require Import gmap.
From S2P Require Import Prelude Buffer Types NiceValue NiceParams NicePackets NiceLaws NiceMessages Nml Config Node NodeLaws.
#[local] Open Scope Z_scope.

(** ** [NameQuery] *)

(** The request of [connect_received]. *)
Definition query_request (known : bool) : NiceRequest :=
  let e := if known then ReqEntity.make_wild Entity.node ReqEntity.known else ReqEntity.make_node 0 in
  read_request fn_read false info_summary Entity.node e (None, None).

(** What a message makes the query do; its state is [multiple_]. *)
Inductive query_out := Found (i : Z) (n : text) | Disconnect.
#[export] Instance query_out_eq_dec : EqDecision query_out.
Proof. solve_decision. Defined.

Section Query.
Context `{WS : WideShift}.

Definition reply_found (r : NiceReply) : list query_out :=
  if has_entity r && (Entity.kind_ (r_entity r) =? Entity.node) then
    let n := Entity.node_ (r_entity r) in
    if bool_decide (name n = []) then [] else [Found (id n) (name n)]
  else [].
Definition query_data (data : Bytes) (multiple : bool) : bool * list query_out :=
  let last := if multiple then [] else [Disconnect] in
  match parse_header data with
  | Throw _ => (multiple, last)
  | Ok h =>
      if retcode h =? rc_multiple then (true, [])
      else if (retcode h =? rc_done) || (retcode h <? 0) then (multiple, [Disconnect])
      else match parse_reply data Entity.node with
           | Throw _ => (multiple, last)
           | Ok r => (multiple, reply_found r ++ last)
           end
  end.
(** A conversation: nothing is read after the query has disconnected. *)
Fixpoint query_run (multiple : bool) (l : list Bytes) : list query_out * list Bytes :=
  match l with
  | [] => ([], [])
  | b :: l =>
      let '(multiple, o) := query_data b multiple in
      if bool_decide (last o = Some Disconnect) then (o, l) else let '(o', l') := query_run multiple l in (o ++ o', l')
  end.
End Query.

(** ** [NameLearner] *)

Record Learner := mkLearner { asked_ : gmap Z Z; busy_ : gset Z; learned_ : Z; database : Nodes; asks : list (Z * Z * bool) }.
Definition new_learner (s : Nodes) : Learner := mkLearner ∅ ∅ 0 s [].

Section Learner.
Context (me refresh : Z).

Definition asked_lately (now i : Z) (l : Learner) : bool :=
  match asked_ l !! i with Some t => now - t <? 1000 * refresh | None => false end.
(** [ask]; [opens] tells whether session control gives a connection. *)
Definition ask (now i : Z) (known opens : bool) (l : Learner) : Learner :=
  mkLearner (<[i := now]> (asked_ l)) (if opens then {[i]} ∪ busy_ l else busy_ l ∖ {[i]}) (learned_ l) (database l)
    (asks l ++ [(now, i, known)]).
Definition skipped (now i : Z) (l : Learner) : bool := (i =? me) || bool_decide (i ∈ busy_ l) || asked_lately now i l.
(** [tick], over the adjacencies, each with the answer its connect would get. *)
Fixpoint tick (now : Z) (adjs : list (Z * bool)) (l : Learner) : Learner :=
  match adjs with
  | [] => l
  | (i, opens) :: adjs => tick now adjs (if skipped now i l then l else ask now i true opens l)
  end.
(** [None]: a destroyed entry was read. *)
Definition link_running (now i : Z) (opens : bool) (l : Learner) : option Learner :=
  if skipped now i l then Some l
  else match (find_id i false (database l)).1 with
       | None => Some (ask now i false opens l)
       | Some p => info ← heap (database l) !! p;
                   Some (if bool_decide (i_name info = []) then ask now i false opens l else l)
       end.
Definition found (i : Z) (n : text) (l : Learner) : option Learner :=
  '(b, s) ← learn_node_name me i n (database l);
  Some (mkLearner (asked_ l) (busy_ l) (if b : bool then learned_ l + 1 else learned_ l) s (asks l)).
Definition finished (i : Z) (l : Learner) : Learner := mkLearner (asked_ l) (busy_ l ∖ {[i]}) (learned_ l) (database l) (asks l).
End Learner.

(** ** A question and its answers *)

Section Answers.
Context `{WS : WideShift}.

Lemma header_retcode r bs : reply_ok Entity.node r → encode_reply r = Ok bs → ∃ h, parse_header bs = Ok h ∧ retcode h = retcode r.
Proof.
  intros (Hr & Hd & Hm & Hn & _ & _). unfold encode_reply. destruct (string_back (message r) 255 Hm ltac:(lia)) as (b & -> & _ & Hne & R).
  cbn [mbind result_bind]. match goal with |- mbind _ ?m = _ → _ => destruct m as [x|] eqn:Ex; [|done] end.
  cbn [mbind result_bind]. intros E. apply (f_equal (λ y, match y with Ok z => z | Throw _ => [] end)) in E. cbv beta iota in E. subst bs.
  rewrite retcode_byte, Hn by done. unfold parse_header, reply_header. cbn [app]. rewrite byte_app. cbn [mbind result_bind].
  rewrite not_empty_uint. rewrite uint2_app by done. cbn [mbind result_bind].
  destruct b as [|y b]; [done|]. cbn [app]. rewrite not_empty. change (y :: b ++ x) with ((y :: b) ++ x). rewrite R.
  cbn [mbind result_bind]. eexists. split; [reflexivity|]. by apply signed_u8.
Qed.
(** A reply about a node, and the two that enclose a series. *)
Lemma about_node rc r b multiple : rc = rc_success ∨ rc = rc_more → reply_ok Entity.node (with_retcode rc r) →
  encode_reply (with_retcode rc r) = Ok b → query_data b multiple = (multiple, reply_found r ++ if multiple then [] else [Disconnect]).
Proof.
  intros Hrc Hr E. destruct (header_retcode _ _ Hr E) as (h & Eh & Rh). unfold query_data. rewrite Eh, Rh. cbn [with_retcode retcode].
  destruct (reply_back _ _ Hr) as (b' & E' & _ & P). assert (b' = b) as -> by congruence.
  rewrite P. by destruct Hrc as [-> | ->].
Qed.
Lemma enclosing rc b multiple : reply_ok Entity.node (new_reply rc) → encode_reply (new_reply rc) = Ok b →
  query_data b multiple = if rc =? rc_multiple then (true, []) else if (rc =? rc_done) || (rc <? 0) then (multiple, [Disconnect]) else query_data b multiple.
Proof.
  intros Hr E. destruct (header_retcode _ _ Hr E) as (h & Eh & Rh). unfold query_data at 1. rewrite Eh, Rh. cbn [new_reply retcode].
  destruct (rc =? rc_multiple) eqn:E1; [done|]. destruct (_ || _) eqn:E2; [done|]. unfold query_data. rewrite Eh, Rh. cbn [new_reply retcode]. by rewrite E1, E2.
Qed.
Lemma new_reply_ok rc : -128 ≤ rc < 128 → reply_ok Entity.node (new_reply rc).
Proof. intros H. unfold reply_ok. cbn. split; [done|]. split; [lia|]. split; [done|]. by repeat split. Qed.

Lemma last_found (l : list query_out) r : last (reply_found r ++ l) = Some Disconnect ↔ last l = Some Disconnect.
Proof.
  rewrite last_app. destruct (last l) as [x|]; [done|]. unfold reply_found. destruct (_ && _); [|done]. by case_bool_decide.
Qed.
Lemma series rs bs l : Forall2 (λ r b, encode_reply r = Ok b) rs bs →
  Forall (λ r, ∃ r' rc, r = with_retcode rc r' ∧ (rc = rc_success ∨ rc = rc_more) ∧ reply_ok Entity.node r) rs →
  query_run true (bs ++ l) = let '(o, l') := query_run true l in (List.concat (map reply_found rs) ++ o, l').
Proof.
  induction 1 as [|r b rs bs E _ IH]; intros Hr; [cbn; by destruct (query_run true l)|].
  apply Forall_cons in Hr as [(r' & rc & -> & Hrc & Hok) Hr]. cbn [app query_run map List.concat].
  rewrite (about_node rc r' b true) by done. rewrite app_nil_r.
  rewrite bool_decide_eq_false_2; [|intros H; rewrite <-(app_nil_r (reply_found r')) in H; by apply last_found in H].
  rewrite (IH Hr). destruct (query_run true l) as [o l']. by rewrite app_assoc.
Qed.
Lemma flagged_shape g : Forall (λ r, reply_ok Entity.node (with_retcode rc_success r)) g →
  Forall (λ r, ∃ r' rc, r = with_retcode rc r' ∧ (rc = rc_success ∨ rc = rc_more) ∧ reply_ok Entity.node r) (flagged g) ∧
  map reply_found (flagged g) = map reply_found g.
Proof.
  induction 1 as [|r g Hr Hg [IH1 IH2]]; [done|].
  assert (reply_ok Entity.node (with_retcode rc_more r)) as Hm by (destruct Hr as (_ & Hr); split; [done|exact Hr]).
  destruct g as [|r2 g]; [split; [|done]; constructor; [|done]; exists r, rc_success; by split; [|split; [left|]]|].
  change (flagged (r :: r2 :: g)) with (with_retcode rc_more r :: flagged (r2 :: g)). split.
  - constructor; [|done]. exists r, rc_more. by split; [|split; [right|]].
  - cbn [map]. f_equal. exact IH2.
Qed.

Lemma query_stop b l multiple o m : query_data b multiple = (m, o) → last o = Some Disconnect → query_run multiple (b :: l) = (o, l).
Proof. intros E H. cbn [query_run]. by rewrite E, bool_decide_eq_true_2. Qed.
Lemma enclosed rs bs : Forall2 (λ r b, encode_reply r = Ok b) (new_reply rc_multiple :: rs ++ [new_reply rc_done]) bs →
  Forall (λ r, ∃ r' rc, r = with_retcode rc r' ∧ (rc = rc_success ∨ rc = rc_more) ∧ reply_ok Entity.node r) rs →
  query_run false bs = (List.concat (map reply_found rs) ++ [Disconnect], []).
Proof.
  intros H Hr. apply Forall2_cons_inv_l in H as (b & bs' & Eb & H & ->).
  apply Forall2_app_inv_l in H as (bs1 & bs2 & H1 & H2 & ->). apply Forall2_cons_inv_l in H2 as (c & l & Ec & H2 & ->). inversion H2; subst l.
  cbn [query_run]. rewrite (enclosing rc_multiple b false) by (done || by apply new_reply_ok).
  change (rc_multiple =? rc_multiple) with true. cbv iota. rewrite bool_decide_eq_false_2 by done.
  rewrite (series rs) by done. rewrite (query_stop c [] true [Disconnect] true); [done| |done].
  by rewrite (enclosing rc_done) by (done || by apply new_reply_ok).
Qed.
Lemma groups_shape gs : Forall (Forall (λ r, reply_ok Entity.node (with_retcode rc_success r))) gs →
  Forall (λ r, ∃ r' rc, r = with_retcode rc r' ∧ (rc = rc_success ∨ rc = rc_more) ∧ reply_ok Entity.node r) (List.concat (map flagged gs)) ∧
  map reply_found (List.concat (map flagged gs)) = map reply_found (List.concat gs).
Proof.
  induction 1 as [|g gs Hg _ [IH1 IH2]]; [done|]. destruct (flagged_shape g Hg) as [F1 F2]. cbn [map List.concat].
  split; [by apply Forall_app|]. by rewrite !map_app, F2, IH2.
Qed.

(** C39: The names a neighbour knows are learned.  Whatever a management listener has
    put together in answer to a question about nodes, sent reply by reply: the query
    that reads the messages finds the name of every node that has one, in the order
    of the replies and nothing else, and disconnects upon the last message, not
    before. *)
Theorem names_learned (me : identity) (req : NiceRequest) (d : ReplyDict) (bs : list Bytes) :
  let groups := sorted (id_ me) req d in
  Forall (Forall (λ r, reply_ok Entity.node (with_retcode rc_success r))) groups →
  Forall2 (λ r b, encode_reply r = Ok b) (replies_to me req d) bs →
  query_run false bs = (List.concat (map reply_found (List.concat groups)) ++ [Disconnect], []).
Proof.
  intros groups Hg H. unfold replies_to in H. fold groups in H. destruct (groups_shape groups Hg) as [G1 G2].
  assert (∀ b, encode_reply (error rc_unrecognized_component 65535 []) = Ok b → query_run false [b] = ([Disconnect], [])) as He.
  { intros b E. apply (query_stop b [] false [Disconnect] false); [|done].
    change (error rc_unrecognized_component 65535 []) with (new_reply rc_unrecognized_component) in E.
    by rewrite (enclosing rc_unrecognized_component) by (done || by apply new_reply_ok). }
  assert (Forall2 (λ r b, encode_reply r = Ok b) (new_reply rc_multiple :: List.concat (map flagged groups) ++ [new_reply rc_done]) bs →
    query_run false bs = (List.concat (map reply_found (List.concat groups)) ++ [Disconnect], [])) as Hs.
  { intros Hs. by rewrite (enclosed _ bs Hs G1), G2. }
  destruct groups as [|[|r [|r2 g]] [|g2 gs]]; try by apply Hs.
  - destruct (ReqEntity.mult _); [by apply Hs|]. apply Forall2_cons_inv_l in H as (b & l & E & H & ->). inversion H; subst l. by apply He.
  - apply Forall2_cons_inv_l in H as (b & l & E & H & ->). inversion H; subst l.
    apply Forall_cons in Hg as [Hg _]. apply Forall_cons in Hg as [Hr _].
    cbn [List.concat map app]. rewrite app_nil_r. apply (query_stop b [] false _ false); [|by apply last_found].
    apply (about_node rc_success); [by left|done|done].
Qed.
End Answers.

(** A node that knows of two others, one of them without a name. *)
Definition example_dict : ReplyDict :=
  node_entry (λ i, mkNiceNode i (if i =? 1027 then str_text "ARK" else []) false) 1027 (λ r, r)
    (node_entry (λ i, mkNiceNode i [] false) 1028 (λ r, r) (new_dict Entity.node)).
Definition example_me : identity := mkIdentity 1026 (str_text "GROK") (str_text "me") (str_text "it") 0 0 0 0.
#[local] Existing Instance no_shift.
Lemma names_learned_witness : ∃ bs,
  Forall2 (λ r b, encode_reply r = Ok b) (replies_to example_me (query_request true) example_dict) bs ∧
  @query_run no_shift false bs = ([Found 1027 (str_text "ARK"); Disconnect], []).
Proof.
  assert (∀ n, len (name n) ≤ 127 → 0 ≤ id n < 65536 → reply_ok Entity.node (with_retcode rc_success (about (Entity.make_node n)))) as Ho.
  { intros n Hn Hi. unfold reply_ok, about. cbn [with_retcode retcode detail message has_entity r_entity params has_notlooped notlooped].
    split; [done|]. split; [lia|]. split; [done|]. split; [done|]. split; [done|]. split; [by split|]. split; [done|]. split; [done|].
    by intros k p Hk. }
  assert (sorted (id_ example_me) (query_request true) example_dict =
    [[about (Entity.make_node (mkNiceNode 1027 (str_text "ARK") false))]; [about (Entity.make_node (mkNiceNode 1028 [] false))]]) as Eg
    by (vm_compute; reflexivity).
  assert (∃ bs, Forall2 (λ r b, encode_reply r = Ok b) (replies_to example_me (query_request true) example_dict) bs) as [bs Hb].
  { eexists. unfold replies_to. rewrite Eg. repeat (apply Forall2_cons; split; [vm_compute; reflexivity|]). constructor. }
  exists bs. split; [exact Hb|].
  rewrite (@names_learned no_shift example_me (query_request true) example_dict bs); [rewrite Eg; vm_compute; reflexivity| |exact Hb].
  rewrite Eg. repeat (apply Forall_cons; split; [repeat (apply Forall_cons; split; [apply Ho; [done|cbn; lia]|]); constructor|]). constructor.
Defined.

(** ** The learner over any sequence of events *)

Inductive learner_event :=
| LTick (now : Z) (adjs : list (Z * bool))
| LLink (now i : Z) (opens : bool)
| LFound (i : Z) (n : text)
| LFinished (i : Z).
Section Spaced.
Context (me refresh : Z).
Definition learner_step (e : learner_event) (l : Learner) : option Learner :=
  match e with
  | LTick now adjs => Some (tick me refresh now adjs l)
  | LLink now i opens => link_running me refresh now i opens l
  | LFound i n => found me i n l
  | LFinished i => Some (finished i l)
  end.
Fixpoint learner_run (es : list learner_event) (l : Learner) : option Learner :=
  match es with [] => Some l | e :: es => l ← learner_step e l; learner_run es l end.

(** Questions to one node are apart, and none goes to this node. *)
Inductive spaced : list (Z * Z * bool) → Prop :=
| spaced_nil : spaced []
| spaced_ask l now i k : spaced l → i ≠ me → (∀ t k', (t, i, k') ∈ l → 1000 * refresh ≤ now - t) → spaced (l ++ [(now, i, k)]).
Record Patient (l : Learner) : Prop := {
  pa_spaced : spaced (asks l);
  pa_asked : ∀ t i k, (t, i, k) ∈ asks l → ∃ t', asked_ l !! i = Some t' ∧ t ≤ t';
}.
Lemma ask_patient now i k opens l : 0 ≤ refresh → skipped me refresh now i l = false → Patient l → Patient (ask now i k opens l).
Proof.
  intros Hr Hs [S A]. unfold skipped in Hs. apply orb_false_iff in Hs as [Hs Hl]. apply orb_false_iff in Hs as [Hm _].
  assert (∀ t k', (t, i, k') ∈ asks l → t ≤ now ∧ 1000 * refresh ≤ now - t) as Hold.
  { intros t k' Ht. destruct (A t i k' Ht) as (t' & Et & Hle). unfold asked_lately in Hl. rewrite Et in Hl. lia. }
  split; cbn.
  - constructor; [done|lia|]. intros t k' Ht. by apply (Hold t k').
  - intros t j k' [Ht|Ht]%elem_of_app.
    + destruct (decide (j = i)) as [->|Hj]; [exists now; rewrite lookup_insert_eq; split; [done|by apply (Hold t k')]|].
      rewrite lookup_insert_ne by done. by apply (A t j k').
    + apply list_elem_of_singleton in Ht as [= -> -> _]. exists now. by rewrite lookup_insert_eq.
Qed.
Lemma tick_patient now adjs : 0 ≤ refresh → ∀ l, Patient l → Patient (tick me refresh now adjs l) ∧ database (tick me refresh now adjs l) = database l.
Proof.
  intros Hr. induction adjs as [|[i o] adjs IH]; intros l P; [done|]. cbn. destruct (skipped me refresh now i l) eqn:E; [by apply IH|].
  destruct (IH _ (ask_patient now i true o l Hr E P)) as [P' D']. by split.
Qed.
Lemma learner_step_ok e l : 0 ≤ refresh → Sound (database l) → Patient l →
  ∃ l', learner_step e l = Some l' ∧ Kept (database l) (database l') ∧ Patient l'.
Proof.
  intros Hr S P. destruct e as [now adjs|now i opens|i n|i]; cbn [learner_step].
  - destruct (tick_patient now adjs Hr l P) as [P' D]. eexists. split; [done|]. rewrite D. split; [by apply kept_refl|done].
  - unfold link_running. destruct (skipped me refresh now i l) eqn:E; [exists l; split; [done|]; split; [by apply kept_refl|done]|].
    unfold find_id. destruct (by_id_ (database l) !! i) as [p|] eqn:Ep; cbn [fst].
    + destruct (so_id _ S i p Ep) as (info & -> & _). cbn. eexists. split; [done|]. case_bool_decide.
      * split; [by apply kept_refl|by apply ask_patient].
      * split; [by apply kept_refl|done].
    + eexists. split; [done|]. split; [by apply kept_refl|by apply ask_patient].
  - unfold found. destruct (learn_kept me i n (database l) S) as (b & s' & -> & K). eexists. split; [done|]. split; [done|]. by destruct P.
  - eexists. split; [done|]. split; [by apply kept_refl|]. by destruct P.
Qed.
Lemma learner_run_ok es : 0 ≤ refresh → ∀ l, Sound (database l) → Patient l →
  ∃ l', learner_run es l = Some l' ∧ Kept (database l) (database l') ∧ Patient l'.
Proof.
  intros Hr. induction es as [|e es IH]; intros l S P; [exists l; split; [done|]; split; [by apply kept_refl|done]|].
  destruct (learner_step_ok e l Hr S P) as (l1 & E1 & K1 & P1). cbn. rewrite E1. cbn.
  destruct (IH l1 (kept_sound _ _ K1) P1) as (l2 & E2 & K2 & P2). exists l2. split; [done|]. split; [by eapply kept_trans|done].
Qed.
End Spaced.

(** Whatever adjacencies and links come up and whatever answers come, in whatever
    order: no node is asked again before the refresh time has passed, this node never
    asks itself, and no entry of the node database is read after it was destroyed. *)
Theorem questions_spaced (me refresh : Z) (l : list NodeConfig) (es : list learner_event) :
  0 ≤ refresh → NoDup (map n_id l) →
  ∃ s, learner_run me refresh es (new_learner (config_nodes l)) = Some s ∧ spaced me refresh (asks s) ∧ Sound (database s).
Proof.
  intros Hr ND. destruct (built l ND) as [S _ _ _ _].
  destruct (learner_run_ok me refresh es Hr (new_learner (config_nodes l)) S) as (s & E & K & P).
  - split; [constructor|]. intros t i k H. by apply elem_of_nil in H.
  - exists s. split; [done|]. split; [apply P|apply K].
Qed.
