(* ===== verification/EventTables.v ===== *)
(** The event catalogue: names, severities and parameter meanings,
    [src/events/tables.cc], table by table. *)

From S2P Require Import Prelude Types NiceValue NiceParams.
#[local] Open Scope Z_scope.

(** ** [EventId] and [EventDef] of [include/decnet/events/events.h] *)

Record EventId := mkEventId { cls : Z; code : Z }.
#[export] Instance EventId_eq_dec : EqDecision EventId.
Proof. solve_decision. Defined.
#[export] Instance EventId_countable : Countable EventId.
Proof.
  apply (inj_countable' (λ i, (cls i, code i)) (λ p, mkEventId p.1 p.2)). by intros [].
Defined.
Definition id_str (i : EventId) : text := print_u64 (cls i) ++ str_text "." ++ print_u64 (code i).

(** [logging::Level]. *)
Definition debug : Z := 10.
Definition info : Z := 20.
Definition warning : Z := 30.
Record EventDef := mkEventDef { e_id : EventId; e_text : text; e_level : Z; e_params : list ParamDef }.

Definition labelled (l : list string) : Labels := map (λ s, Some (str_text s)) l.
Definition def (n : Z) (ctr : bool) (s : string) (l : Labels) : ParamDef := mkParamDef n ctr (str_text s) l plain.
Definition styled (n : Z) (ctr : bool) (s : string) (y : Style) : ParamDef := mkParamDef n ctr (str_text s) [] y.
Definition event (c k : Z) (s : string) (l : Z) (ps : list ParamDef) : EventDef := mkEventDef (mkEventId c k) (str_text s) l ps.

Definition status_labels : Labels :=
  labelled ["Reachable"; "Unreachable"]%string.
Definition reason_labels : Labels :=
  labelled ["Operator command"; "Normal operation"]%string.
Definition password_labels : Labels :=
  labelled ["Set"]%string.
Definition service_labels : Labels :=
  labelled ["Load"; "Dump"]%string.
Definition operation_labels : Labels :=
  labelled ["Initiated"; "Terminated"]%string.
Definition netman_reason_labels : Labels :=
  labelled ["Receive timeout"; "Receive error"; "Line state change by higher level"; "Unrecognized request"; "Line open error"]%string.
Definition software_labels : Labels :=
  labelled ["Secondary loader"; "Tertiary loader"; "System"]%string.
Definition netman_params : list ParamDef :=
  [def 0 false "Service" service_labels;
   def 1 false "Status" [];
   def 2 false "Operation" operation_labels;
   def 3 false "Reason" netman_reason_labels;
   def 4 false "Qualifier" [];
   styled 5 false "Node" node_style;
   def 6 false "DTE" [];
   def 7 false "Filespec" [];
   def 8 false "Software type" software_labels].
Definition se_state_labels : Labels :=
  labelled ["On"; "Off"; "Shut"; "Restricted"]%string.
Definition session_params : list ParamDef :=
  [def 0 false "Reason" reason_labels;
   def 1 false "Old state" se_state_labels;
   def 2 false "New state" se_state_labels;
   styled 3 false "Source node" node_style;
   def 4 false "Source process" [];
   def 5 false "Destination process" [];
   def 6 false "User" [];
   def 7 false "Password" password_labels;
   def 8 false "Account" []].
Definition node_counters : list ParamDef :=
  [def 0 false "Message" [];
   def 1 false "Current flow control request count" [];
   styled 2 false "Source node" node_style;
   def 0 true "Seconds since last zeroed" [];
   def 600 true "User bytes received" [];
   def 601 true "User bytes sent" [];
   def 602 true "User messages received" [];
   def 603 true "User messages sent" [];
   def 608 true "Total bytes received" [];
   def 609 true "Total bytes sent" [];
   def 610 true "Total messages received" [];
   def 611 true "Total messages sent" [];
   def 620 true "Connects received" [];
   def 621 true "Connects sent" [];
   def 630 true "Response timeouts" [];
   def 640 true "Received connect resource errors" [];
   def 700 true "Maximum logical links active" [];
   def 900 true "Aged packet loss" [];
   def 901 true "Node unreachable packet loss" [];
   def 902 true "Node out-of-range packet loss" [];
   def 903 true "Oversized packet loss" [];
   def 910 true "Packet format error" [];
   def 920 true "Partial routing update loss" [];
   def 930 true "Verification reject" [];
   def 2200 true "Current reachable nodes" [];
   def 2201 true "Maximum reachable nodes" [];
   def 2300 true "Maximum logical links" [];
   def 2310 true "Received connect resource errors" []].
Definition routing_reason_labels : Labels :=
  labelled ["Circuit synchronization lost"; "Data errors"; "Unexpected packet type"; "Routing update checksum error"; "Adjacency address change"; "Verification receive timeout"; "Version skew"; "Adjacency address out of range"; "Adjacency block size too small"; "Invalid verification seed value"; "Adjacency listener receive timeout"; "Adjacency listener received invalid data"; "Call failed"; "Verification password require for Phase III node"; "Dropped by adjacent node"]%string.
Definition routing_params : list ParamDef :=
  [def 0 false "Packet header" [];
   def 1 false "Packet beginning" [];
   def 2 false "Highest address" [];
   styled 3 false "Node" node_style;
   styled 4 false "Expected node" node_style;
   def 5 false "Reason" routing_reason_labels;
   styled 6 false "Received version" version_style;
   def 7 false "Status" status_labels;
   styled 8 false "Adjacent node" node_style].
Definition reach_params : list ParamDef :=
  [def 7 false "Status" status_labels].
Definition dl_state_labels : Labels :=
  labelled ["Halted"; "IStrt"; "AStrt"; "Running"; "Maintenance"]%string.
Definition dl_state11_labels : Labels :=
  labelled ["On"; "Off"; "Shut"]%string.
Definition trib_status_labels : Labels :=
  labelled ["Streaming"; "Continued send after timeout"; "Continued send after deselect"; "Ended streaming"]%string.
Definition failure_labels : Labels :=
  labelled ["Excessive collisions"; "Carrier check failed"; "(OBSOLETE)"; "Short circuit"; "Open circuit"; "Frame too long"; "Remote failure to defer"; "Block check error"; "Framing error"; "Data overrun"; "System buffer unavailable"; "User buffer unavailable"; "Unrecognized frame destination"]%string.
Definition in_err_labels : Labels := [None; Some (str_text "NAKs sent, data field block check error"); Some (str_text "NAKs sent, REP response")].
Definition out_err_labels : Labels :=
  labelled ["NAKs received, header block check error"; "NAKs received, data field block check error"; "NAKs received, REP response"]%string.
Definition remote_buf_labels : Labels :=
  labelled ["NAKs received buffer unavailable"; "NAKs received buffer too small"]%string.
Definition local_buf_labels : Labels :=
  labelled ["NAKs sent buffer unavailable"; "NAKs sent buffer too small"]%string.
Definition sel_timeout_labels : Labels :=
  labelled ["No reply to select"; "Incomplete reply to select"]%string.
Definition datalink_params : list ParamDef :=
  [def 0 false "Old state" dl_state_labels;
   def 1 false "New state" dl_state_labels;
   def 2 false "Header" [];
   def 3 false "Selected tributary" [];
   def 4 false "Previous tributary" [];
   def 5 false "Tributary status" trib_status_labels;
   def 6 false "Received tributary" [];
   def 7 false "Block length" [];
   def 8 false "Buffer length" [];
   def 9 false "DTE" [];
   def 10 false "Reason" reason_labels;
   def 11 false "Old state" dl_state11_labels;
   def 12 false "New state" dl_state11_labels;
   def 13 false "Parameter type" [];
   def 14 false "Cause" [];
   def 15 false "Diagnostic" [];
   def 16 false "Failure reason" failure_labels;
   def 17 false "Distance" [];
   def 18 false "Ethernet header" [];
   def 19 false "Hardware status" [];
   def 0 true "Seconds since last zeroed" [];
   def 800 true "Terminating packets received" [];
   def 801 true "Originating packets sent" [];
   def 802 true "Terminating congestion loss" [];
   def 805 true "Corruption loss" [];
   def 810 true "Transit packets received" [];
   def 811 true "Transit packets sent" [];
   def 812 true "Transit congestion loss" [];
   def 820 true "Circuit down" [];
   def 821 true "Initialization failure" [];
   def 900 true "Peak adjacencies" [];
   def 1000 true "Bytes received" [];
   def 1001 true "Bytes sent" [];
   def 1010 true "Data blocks received" [];
   def 1011 true "Data blocks sent" [];
   def 1020 true "Data errors inbound" in_err_labels;
   def 1021 true "Data errors outbound" out_err_labels;
   def 1030 true "Remote reply timeouts" [];
   def 1031 true "Local reply timeouts" [];
   def 1040 true "Remote buffer errors" remote_buf_labels;
   def 1041 true "Local buffer errors" local_buf_labels;
   def 1050 true "Selection intervals elapsed" [];
   def 1051 true "Selection timeouts" sel_timeout_labels;
   def 1065 true "User buffer unavailable" [];
   def 1240 true "Locally initiated resets" [];
   def 1241 true "Remotely initiated resets" [];
   def 1242 true "Network initiated resets" [];
   def 3900 true "Seconds since last circuit up" []].
Definition dte_params : list ParamDef :=
  [def 9 false "DTE" []].
Definition off_on_labels : Labels :=
  labelled ["Off"; "On"]%string.
Definition physical_params : list ParamDef :=
  [def 0 false "Device register" [];
   def 1 false "New state" off_on_labels].
Definition access_labels : Labels :=
  labelled ["Local"; "Remote"]%string.
Definition function_labels : Labels :=
  labelled ["Illegal"; "Open/read"; "Open/write"; "Rename"; "Delete"; "Reserved"; "Directory"; "Submit"; "Execute"]%string.
Definition rsts_app_params : list ParamDef :=
  [def 0 false "Access" access_labels;
   def 1 false "Function" function_labels;
   styled 3 false "Remote node" node_style;
   def 4 false "Remote process" [];
   def 5 false "Local process" [];
   def 6 false "User" [];
   def 7 false "Password" password_labels;
   def 8 false "Account" [];
   def 9 false "File accessed" []].
Definition rsts_session_reason_labels : Labels :=
  labelled ["I/O error on Object database"; "Spawn Directive failed"; "Unknown Object identification"]%string.
Definition rsts_session_params : list ParamDef :=
  [def 0 false "Reason" rsts_session_reason_labels;
   styled 3 false "Source node" node_style;
   def 4 false "Source process" [];
   def 5 false "Destination process" [];
   def 6 false "User" [];
   def 7 false "Password" password_labels;
   def 8 false "Account" []].
Definition all_events : list EventDef :=
  [event 0 0 "Event records lost" info netman_params;
   event 0 1 "Automatic node counters" info node_counters;
   event 0 2 "Automatic line counters" info netman_params;
   event 0 3 "Automatic service" info netman_params;
   event 0 4 "Line counters zeroed" info netman_params;
   event 0 5 "Node counters zeroed" info node_counters;
   event 0 6 "Passive loopback" info netman_params;
   event 0 7 "Aborted service request" info netman_params;
   event 0 8 "Automatic counters" info netman_params;
   event 0 9 "Counters zeroed" info netman_params;
   event 2 0 "Local node state change" info session_params;
   event 2 1 "Access control reject" warning session_params;
   event 3 0 "Invalid message" debug node_counters;
   event 3 1 "Invalid flow control" debug node_counters;
   event 3 2 "Data base reused" info node_counters;
   event 4 0 "Aged packet loss" debug routing_params;
   event 4 1 "Node unreachable packet loss" debug routing_params;
   event 4 2 "Node out-of-range packet loss" info routing_params;
   event 4 3 "Oversized packet loss" info routing_params;
   event 4 4 "Packet format error" debug routing_params;
   event 4 5 "Partial routing update loss" info routing_params;
   event 4 6 "Verification reject" warning routing_params;
   event 4 7 "Circuit down, circuit fault" warning routing_params;
   event 4 8 "Circuit down" warning routing_params;
   event 4 9 "Circuit down, operator initiated" info routing_params;
   event 4 10 "Circuit up" info routing_params;
   event 4 11 "Initialization failure, line fault" info routing_params;
   event 4 12 "Initialization failure, software fault" info routing_params;
   event 4 13 "Initialization failure, operator fault" info routing_params;
   event 4 14 "Node reachability change" info reach_params;
   event 4 15 "Adjacency up" info routing_params;
   event 4 16 "Adjacency rejected" info routing_params;
   event 4 17 "Area reachability change" info reach_params;
   event 4 18 "Adjacency down" warning routing_params;
   event 4 19 "Adjacency down, operator initiated" info routing_params;
   event 5 0 "Locally initiated state change" info datalink_params;
   event 5 1 "Remotely initiated state change" info datalink_params;
   event 5 2 "Protocol restart received in maintenance mode" info datalink_params;
   event 5 3 "Send error threshold" info datalink_params;
   event 5 4 "Receive error threshold" info datalink_params;
   event 5 5 "Select error threshold" info datalink_params;
   event 5 6 "Block header format error" info datalink_params;
   event 5 7 "Selection address error" info datalink_params;
   event 5 8 "Streaming tributary" info datalink_params;
   event 5 9 "Local buffer too small" info datalink_params;
   event 5 10 "Restart" info datalink_params;
   event 5 11 "State change" info datalink_params;
   event 5 12 "Retransmit maximum exceeded" info datalink_params;
   event 5 13 "Initialization failure" info datalink_params;
   event 5 14 "Send failed" info datalink_params;
   event 5 15 "Receive failed" info datalink_params;
   event 5 16 "Collision detect check failed" info datalink_params;
   event 5 17 "DTE up" info dte_params;
   event 5 18 "DTE down" info dte_params;
   event 6 0 "Data set ready transition" info physical_params;
   event 6 1 "Ring indicator transition" info physical_params;
   event 6 2 "Unexpected carrier transition" info physical_params;
   event 6 3 "Memory access error" info physical_params;
   event 6 4 "Communications interface error" info physical_params;
   event 6 5 "Performance error" info physical_params;
   event 33 0 "Remote file access" info rsts_app_params;
   event 34 0 "Object spawned" info rsts_session_params;
   event 34 1 "Object spawn failure" warning rsts_session_params;
   event 64 1 "Routing database corrupt" info [];
   event 64 2 "Routing database restored" info [];
   event 93 0 "State change" info [];
   event 94 0 "DCE detected packet error" info [];
   event 128 1 "DAP CRC error detected" info [];
   event 128 2 "Duplicate PHASE 2 address error" info [];
   event 128 3 "Process created" info [];
   event 128 4 "Process terminated" info [];
   event 353 5 "DECdns clerk unable to communicate with server" info [];
   event 353 20 "Local DECdns Advertiser error" info []].

Definition find_event (i : EventId) : option EventDef := List.find (λ d, bool_decide (e_id d = i)) all_events.
Definition known_events : list EventDef := all_events.
