(* ===== verification/Events.v ===== *)
(** Event records: [include/decnet/events/events.h] and [src/events/events.cc].

    Broken down local time is the argument of [stamp]; [NiceParams] has the
    nodes, entities and parameters a record carries. *)

From S2P Require Import Prelude Buffer Types NiceValue NiceParams EventTables.
#[local] Open Scope Z_scope.

(** ** The calendar *)

(** Days from 1970-01-01 to a civil date; [long] divides toward zero, and
    [unsigned] has 32 bits. *)
Definition days_from_civil (y m d : Z) : Z :=
  let y := y - (if m <=? 2 then 1 else 0) in
  let era := Z.quot (if 0 <=? y then y else y - 399) 400 in
  let yoe := u32 (y - era * 400) in
  let doy := u32 (u32 (153 * u32 (m + (if 2 <? m then -3 else 9)) + 2) / 5 + d - 1) in
  let doe := u32 (yoe * 365 + yoe / 4 - yoe / 100 + doy) in
  era * 146097 + doe - 719468.
Record Civil := mkCivil { c_y : Z; c_m : Z; c_d : Z }.
Definition civil_from_days (z : Z) : Civil :=
  let z := z + 719468 in
  let era := Z.quot (if 0 <=? z then z else z - 146096) 146097 in
  let doe := u32 (z - era * 146097) in
  let yoe := u32 (doe - doe / 1460 + doe / 36524 - doe / 146096) / 365 in
  let y := yoe + era * 400 in
  let doy := u32 (doe - u32 (365 * yoe + yoe / 4 - yoe / 100)) in
  let mp := u32 (5 * doy + 2) / 153 in
  let d := u32 (doy - u32 (153 * mp + 2) / 5 + 1) in
  let m := u32 (mp + (if mp <? 10 then 3 else -9)) in
  mkCivil (y + (if m <=? 2 then 1 else 0)) m d.
Definition jbase_days : Z := days_from_civil 1977 1 1.
Definition month_names : list string :=
  ["Jan"; "Feb"; "Mar"; "Apr"; "May"; "Jun"; "Jul"; "Aug"; "Sep"; "Oct"; "Nov"; "Dec"]%string.
Definition half_day : Z := 12 * 60 * 60.

(** ** [Event] *)

Record Event := mkEvent {
  ev_id : EventId; function : Z; console : bool; file : bool; monitor : bool;
  source : NiceNode; ev_entity : Entity.t; ev_params : ParamList;
  halfday : Z; seconds : Z; milliseconds : Z; ms_absent : bool }.
(** [std::tm], as far as it is read: years since 1900, months since January. *)
Record tm := mkTm { tm_year : Z; tm_mon : Z; tm_mday : Z; tm_hour : Z; tm_min : Z; tm_sec : Z }.
(** [stamp_now], with the local time of [us] microseconds since 1970. *)
Definition stamp (lt : tm) (us : Z) (e : Event) : Event :=
  let days := days_from_civil (tm_year lt + 1900) (u32 (tm_mon lt + 1)) (u32 (tm_mday lt)) - jbase_days in
  let sod := u32 (u32 (tm_hour lt) * 3600 + u32 (tm_min lt) * 60 + u32 (tm_sec lt)) in
  mkEvent (ev_id e) (function e) (console e) (file e) (monitor e) (source e) (ev_entity e) (ev_params e)
    (u16 (days * 2 + sod / half_day)) (u16 (sod mod half_day)) (u16 (Z.quot (Z.rem us 1000000) 1000)) false.
(** The members as the class declares them, and an event that has happened. *)
Definition blank (i : EventId) (ent : Entity.t) : Event :=
  mkEvent i 1 true true true (mkNiceNode 0 [] false) ent ∅ 0 0 0 false.
Definition new_event (i : EventId) (ent : Entity.t) (lt : tm) (us : Z) : Event := stamp lt us (blank i ent).

Definition flag_of (b : bool) (v : Z) : Z := if b then v else 0.

Section Records.
Context `{WS : WideShift}.

Definition encode_record (e : Event) : result Bytes :=
  n ← node_encode (source e);
  ent ← Entity.encode (ev_entity e);
  ps ← encode_params (ev_params e);
  Ok (Encoder.byte (function e) ++
      Encoder.byte (Z.lor (Z.lor (flag_of (console e) 1) (flag_of (file e) 2)) (flag_of (monitor e) 4)) ++
      Encoder.uint (Z.lor (Z.land (code (ev_id e)) 31) (u32 (Z.shiftl (cls (ev_id e)) 6))) 2 ++
      Encoder.uint (halfday e) 2 ++ Encoder.uint (seconds e) 2 ++
      Encoder.uint (Z.lor (Z.land (milliseconds e) 1023) (flag_of (ms_absent e) 32768)) 2 ++ n ++ ent ++ ps).
Definition decode_record : dec Event := λ d,
  '(f, d) ← Decoder.byte d;
  '(fl, d) ← Decoder.byte d;
  '(ec, d) ← Decoder.uint 2 d;
  let ec := u16 ec in
  '(h, d) ← Decoder.uint 2 d;
  '(s, d) ← Decoder.uint 2 d;
  '(ms, d) ← Decoder.uint 2 d;
  let ms := u16 ms in
  '(n, d) ← node_decode d;
  '(ent, d) ← Entity.decode d;
  '(ps, d) ← decode_params ∅ d;
  Ok (mkEvent (mkEventId (u16 (Z.land (Z.shiftr ec 6) 511)) (u8 (Z.land ec 31))) f
        (negb (Z.land fl 1 =? 0)) (negb (Z.land fl 2 =? 0)) (negb (Z.land fl 4 =? 0))
        n ent ps (u16 h) (u16 s) (u16 (Z.land ms 1023)) (negb (Z.land ms 32768 =? 0)), d).
Definition parse_record (buf : Bytes) : result Event := '(e, _) ← decode_record buf; Ok e.
End Records.

(** ** Display *)

Definition level (e : Event) : Z := match find_event (ev_id e) with Some d => e_level d | None => info end.
Definition padded (w v : Z) : text := pad_zero w (print_u64 v).
(** [%02u-%s-%04ld %02ld:%02ld:%02ld] and [.%03u]. *)
Definition show_time (y m d h mi s : Z) (ms : option Z) : text :=
  padded 2 d ++ str_text "-" ++ str_text (default EmptyString (month_names !! Z.to_nat (m - 1))) ++ str_text "-" ++ padded 4 y ++
  str_text " " ++ padded 2 h ++ str_text ":" ++ padded 2 mi ++ str_text ":" ++ padded 2 s ++
  match ms with Some v => str_text "." ++ padded 3 v | None => [] end.
Definition timestamp (e : Event) : text :=
  let total := seconds e + (halfday e mod 2) * half_day in
  let days := halfday e / 2 + total / 86400 in
  let total := total mod 86400 in
  let c := civil_from_days (jbase_days + days) in
  show_time (c_y c) (c_m c) (c_d c) (total / 3600) ((total / 60) mod 60) (total mod 60)
    (if ms_absent e then None else Some (milliseconds e)).

(** The lines of [str]: a field goes on the line there is room on. *)
Definition width : Z := 70 - (4 + 1).
Definition add_field (f : text) (st : list text * text) : list text * text :=
  let '(ls, cur) := st in
  match f with
  | [] => st
  | _ =>
      let f := f ++ str_text "," in
      if len cur + len f <? width then (ls, (match cur with [] => [] | _ => cur ++ str_text " " end) ++ f)
      else (match cur with [] => ls | _ => ls ++ [cur] end, f)
  end.
Fixpoint drop_commas (s : text) : text :=
  match s with c :: t => if bool_decide (c = ","%char) then drop_commas t else s | [] => [] end.
Definition event_str (e : Event) : result text :=
  let d := find_event (ev_id e) in
  ps ← format_params (match d with Some d => e_params d | None => [] end) (ev_params e);
  let '(ls, cur) := foldl (λ st f, add_field f st) ([], []) (Entity.str (ev_entity e) :: ps) in
  let ls := match cur with [] => ls | _ => ls ++ [cur] end in
  let out := str_text "Event type " ++ id_str (ev_id e) ++
             (match d with Some d => str_text ", " ++ e_text d | None => [] end) ++
             [newline] ++ str_text "From node " ++ node_str (source e) ++ str_text ", occurred " ++ timestamp e ++
             List.concat (map (λ l, newline :: str_text "    " ++ l) ls) in
  Ok (rev (drop_commas (rev out))).
