(* ===== verification/EventLaws.v ===== *)
(** Event records survive their encoding, and show the time they were stamped
    with. *)

From S2P Require Import Prelude Buffer Types NiceValue NiceParams NiceLaws NiceMessages EventTables Events.
#[local] Open Scope Z_scope.

(** ** The calendar *)

Definition leap (y : Z) : bool := (y mod 4 =? 0) && (negb (y mod 100 =? 0) || (y mod 400 =? 0)).
Definition month_days (y m : Z) : Z :=
  if m =? 2 then (if leap y then 29 else 28)
  else if (m =? 4) || (m =? 6) || (m =? 9) || (m =? 11) then 30 else 31.
(** A date of the Gregorian calendar, of years that have four digits. *)
Definition date_ok (y m d : Z) : Prop := 1970 ≤ y ≤ 9999 ∧ 1 ≤ m ≤ 12 ∧ 1 ≤ d ≤ month_days y m.

(** Years begin in March: the days before year [k] of an era, and the divisor. *)
Definition before_year (k : Z) : Z := 365 * k + k / 4 - k / 100.
Definition year_days (k : Z) : Z := if leap (k + 1) then 366 else 365.
Definition spread (x : Z) : Z := x - x / 1460 + x / 36524 - x / 146096.
Lemma spread_step x : 0 ≤ x → spread x ≤ spread (x + 1).
Proof. unfold spread. intros H. Z.to_euclidean_division_equations. lia. Qed.
Lemma spread_mono a b : 0 ≤ a ≤ b → spread a ≤ spread b.
Proof.
  intros [Ha Hb]. replace b with (a + Z.of_nat (Z.to_nat (b - a))) by lia. induction (Z.to_nat (b - a)) as [|n IH]; [by rewrite Z.add_0_r|].
  etransitivity; [exact IH|]. replace (a + Z.of_nat (S n)) with (a + Z.of_nat n + 1) by lia. apply spread_step. lia.
Qed.
Lemma forall_range (P : Z → bool) n k : forallb P (seqZ 0 n) = true → 0 ≤ k < n → P k = true.
Proof. intros H Hk. rewrite forallb_forall in H. apply H, list_elem_of_In, elem_of_seqZ. lia. Qed.
Lemma year_ends k : 0 ≤ k < 400 → 365 * k ≤ spread (before_year k) ∧ spread (before_year k + year_days k - 1) < 365 * (k + 1).
Proof.
  intros Hk. assert (forallb (λ k, (365 * k <=? spread (before_year k)) && (spread (before_year k + year_days k - 1) <? 365 * (k + 1))) (seqZ 0 400) = true) as H
    by (vm_compute; reflexivity).
  pose proof (forall_range _ 400 k H Hk) as E. cbv beta in E. lia.
Qed.
Lemma year_of_era k doy : 0 ≤ k < 400 → 0 ≤ doy < year_days k → spread (before_year k + doy) / 365 = k.
Proof.
  intros Hk Hd. destruct (year_ends k Hk) as [H1 H2].
  assert (0 ≤ before_year k) as Hb by (unfold before_year; Z.to_euclidean_division_equations; lia).
  pose proof (spread_mono (before_year k) (before_year k + doy) ltac:(lia)).
  pose proof (spread_mono (before_year k + doy) (before_year k + year_days k - 1) ltac:(lia)).
  symmetry. apply (Z.div_unique_pos _ _ _ (spread (before_year k + doy) - 365 * k)); lia.
Qed.

(** Months from March. *)
Definition before_month (n : Z) : Z := (153 * n + 2) / 5.
Definition march_days (k n : Z) : Z := if n =? 11 then year_days k - 337 else before_month (n + 1) - before_month n.
Lemma month_of_year k n d : 0 ≤ n < 12 → 1 ≤ d ≤ march_days k n →
  let doy := before_month n + d - 1 in 0 ≤ doy < year_days k ∧ (5 * doy + 2) / 153 = n.
Proof.
  intros Hn Hd. assert (n = 0 ∨ n = 1 ∨ n = 2 ∨ n = 3 ∨ n = 4 ∨ n = 5 ∨ n = 6 ∨ n = 7 ∨ n = 8 ∨ n = 9 ∨ n = 10 ∨ n = 11) as C by lia.
  assert (365 ≤ year_days k ≤ 366) by (unfold year_days; destruct (leap _); lia).
  unfold march_days, before_month in *.
  repeat destruct C as [->|C]; [..|subst n]; cbn -[Z.div Z.mul] in Hd |- *; cbn [Z.eqb] in Hd;
    (split; [|symmetry]); Z.to_euclidean_division_equations; lia.
Qed.

Definition march_year (y m : Z) : Z := if m <=? 2 then y - 1 else y.
Definition march_month (m : Z) : Z := if 2 <? m then m - 3 else m + 9.
Lemma march_range y m d : date_ok y m d → 0 ≤ march_month m < 12 ∧ 1969 ≤ march_year y m ≤ 9999.
Proof. intros (Hy & Hm & _). unfold march_month, march_year. destruct (Z.ltb_spec 2 m), (Z.leb_spec m 2); lia. Qed.
Lemma leap_mod y : leap (y mod 400 + 1) = leap (y + 1).
Proof.
  unfold leap. replace ((y mod 400 + 1) mod 4) with ((y + 1) mod 4) by (Z.to_euclidean_division_equations; lia).
  replace ((y mod 400 + 1) mod 100) with ((y + 1) mod 100) by (Z.to_euclidean_division_equations; lia).
  by rewrite Z.add_mod_idemp_l by lia.
Qed.
Lemma march_length y m d : date_ok y m d → 1 ≤ d ≤ march_days (march_year y m mod 400) (march_month m).
Proof.
  intros (Hy & Hm & Hd). split; [lia|]. etransitivity; [apply Hd|].
  assert (m = 1 ∨ m = 2 ∨ m = 3 ∨ m = 4 ∨ m = 5 ∨ m = 6 ∨ m = 7 ∨ m = 8 ∨ m = 9 ∨ m = 10 ∨ m = 11 ∨ m = 12) as C by lia.
  clear Hd. destruct C as [->|[->|C]]; [reflexivity| |repeat destruct C as [->|C]; try subst m; vm_compute; discriminate].
  unfold month_days, march_days, march_month, march_year. cbn [Z.eqb Z.leb Z.ltb Z.compare Pos.compare Pos.compare_cont].
  change (2 + 9 =? 11) with true. cbv iota. unfold year_days. rewrite leap_mod. replace (y - 1 + 1) with y by lia. by destruct (leap y).
Qed.
(** The parts a date is taken apart into. *)
Lemma days_parts y m d : date_ok y m d →
  let k := march_year y m mod 400 in let era := march_year y m / 400 in let doy := before_month (march_month m) + d - 1 in
  0 ≤ k < 400 ∧ 4 ≤ era ≤ 24 ∧ 0 ≤ doy < year_days k ∧
  days_from_civil y m d = era * 146097 + (before_year k + doy) - 719468 ∧ 0 ≤ before_year k + doy < 146097.
Proof.
  intros H k era doy. destruct (march_range y m d H) as [Hn Hy]. pose proof (march_length y m d H) as Hl.
  destruct (month_of_year k (march_month m) d Hn Hl) as [Hdoy _]. fold doy in Hdoy.
  assert (0 ≤ k < 400) as Hk by (unfold k; apply Z.mod_pos_bound; lia).
  assert (4 ≤ era ≤ 24) as He by (unfold era; Z.to_euclidean_division_equations; lia).
  assert (year_days k ≤ 366 ∧ (k = 399 → year_days k = 366)) as [Hyd _] by (unfold year_days; split; [by destruct (leap _)|by intros ->]).
  assert (0 ≤ before_year k + doy < 146097) as Hdoe by (unfold before_year; Z.to_euclidean_division_equations; lia).
  split; [done|]. split; [done|]. split; [done|]. split; [|done].
  unfold days_from_civil. replace (y - (if m <=? 2 then 1 else 0)) with (march_year y m) by (unfold march_year; destruct (m <=? 2); lia).
  rewrite (proj2 (Z.leb_le 0 (march_year y m))) by lia. rewrite Z.quot_div_nonneg by lia. fold era.
  assert (march_year y m - era * 400 = k) as -> by (unfold era, k; pose proof (Z.div_mod (march_year y m) 400); lia).
  replace (m + (if 2 <? m then -3 else 9)) with (march_month m) by (unfold march_month; destruct (2 <? m); lia).
  rewrite (u32_small (march_month m)), (u32_small (153 * march_month m + 2)), (u32_small k) by lia.
  fold (before_month (march_month m)). fold doy. rewrite (u32_small doy) by lia.
  replace (k * 365 + k / 4 - k / 100 + doy) with (before_year k + doy) by (unfold before_year; lia).
  rewrite u32_small by lia. lia.
Qed.
Lemma civil_back y m d : date_ok y m d → civil_from_days (days_from_civil y m d) = mkCivil y m d.
Proof.
  intros H. destruct (days_parts y m d H) as (Hk & He & Hdoy & Ed & Hdoe). destruct (march_range y m d H) as [Hn Hy].
  destruct (month_of_year _ _ d Hn (march_length y m d H)) as [_ Hmp]. rewrite Ed. clear Ed.
  set (k := march_year y m mod 400) in *. set (era := march_year y m / 400) in *. set (n := march_month m) in *.
  set (doy := before_month n + d - 1) in *. set (doe := before_year k + doy) in *.
  unfold civil_from_days. replace (era * 146097 + doe - 719468 + 719468) with (era * 146097 + doe) by lia.
  rewrite (proj2 (Z.leb_le 0 _)) by lia. rewrite Z.quot_div_nonneg by lia.
  assert ((era * 146097 + doe) / 146097 = era) as -> by (symmetry; apply (Z.div_unique_pos _ _ _ doe); lia).
  replace (era * 146097 + doe - era * 146097) with doe by lia. rewrite (u32_small doe) by lia. fold (spread doe).
  assert (spread doe / 365 = k) as Ek by by apply year_of_era.
  assert (0 ≤ spread doe < 4294967296) as Hs by (unfold spread; Z.to_euclidean_division_equations; lia).
  rewrite (u32_small (spread doe)), Ek by done.
  replace (365 * k + k / 4 - k / 100) with (before_year k) by done.
  assert (0 ≤ before_year k) by (unfold before_year; Z.to_euclidean_division_equations; lia).
  assert (year_days k ≤ 366) by (unfold year_days; by destruct (leap _)).
  rewrite (u32_small (before_year k)) by lia. replace (doe - before_year k) with doy by (unfold doe; lia).
  rewrite (u32_small doy), (u32_small (5 * doy + 2)), Hmp, (u32_small (153 * n + 2)) by lia. fold (before_month n).
  assert (1 ≤ d ≤ 31) as Hd31 by (destruct H as (_ & _ & Hd1 & Hd2); split; [done|]; etransitivity; [exact Hd2|]; unfold month_days; by repeat case_match).
  replace (doy - before_month n + 1) with d by (unfold doy; lia). rewrite (u32_small d) by lia.
  assert (march_year y m = k + era * 400) as Ey by (unfold k, era; pose proof (Z.div_mod (march_year y m) 400); lia).
  assert (n + (if n <? 10 then 3 else -9) = m) as Em.
  { destruct H as (_ & Hm & _). unfold n, march_month. destruct (Z.ltb_spec 2 m);
    [rewrite (proj2 (Z.ltb_lt (m - 3) 10)) by lia|rewrite (proj2 (Z.ltb_ge (m + 9) 10)) by lia]; lia. }
  rewrite Em, (u32_small m) by (destruct H; lia). f_equal. rewrite <-Ey. unfold march_year. destruct (m <=? 2); lia.
Qed.

(** ** Time *)

Lemma day_range y m d : date_ok y m d → 1977 ≤ y ≤ 2065 → 0 ≤ days_from_civil y m d - jbase_days < 32768.
Proof.
  intros H Hy. destruct (days_parts y m d H) as (Hk & He & Hdoy & -> & _).
  assert (jbase_days = 2557) as -> by (vm_compute; reflexivity).
  assert (1976 ≤ march_year y m ≤ 2065 ∧ (march_year y m = 1976 → 306 ≤ before_month (march_month m))) as [Hm Hj].
  { destruct H as (_ & Hm & _). unfold march_year, march_month, before_month. destruct (Z.leb_spec m 2).
    - split; [lia|]. rewrite (proj2 (Z.ltb_ge 2 m)) by lia. intros _. Z.to_euclidean_division_equations; lia.
    - split; lia. }
  assert (year_days (march_year y m mod 400) ≤ 366) by (unfold year_days; by destruct (leap _)).
  destruct H as (_ & _ & Hd & _). unfold before_year.
  assert (march_year y m / 400 = 4 ∨ march_year y m / 400 = 5) as Ce by (Z.to_euclidean_division_equations; lia).
  pose proof (Z.div_mod (march_year y m) 400 ltac:(lia)) as Dm.
  set (k := march_year y m mod 400) in *. destruct Ce as [Ce|Ce]; rewrite Ce in *.
  - split.
    + destruct (decide (march_year y m = 1976)) as [E|E]; [specialize (Hj E)|]; Z.to_euclidean_division_equations; lia.
    + Z.to_euclidean_division_equations; lia.
  - Z.to_euclidean_division_equations; lia.
Qed.
Definition time_ok (lt : tm) : Prop :=
  date_ok (tm_year lt + 1900) (tm_mon lt + 1) (tm_mday lt) ∧ 1977 ≤ tm_year lt + 1900 ≤ 2065 ∧
  0 ≤ tm_hour lt < 24 ∧ 0 ≤ tm_min lt < 60 ∧ 0 ≤ tm_sec lt < 60.
Lemma stamped_time lt us e : time_ok lt → 0 ≤ us →
  timestamp (stamp lt us e) =
    show_time (tm_year lt + 1900) (tm_mon lt + 1) (tm_mday lt) (tm_hour lt) (tm_min lt) (tm_sec lt) (Some (us mod 1000000 / 1000)).
Proof.
  intros (Hd & Hy & Hh & Hm & Hs) Hus. pose proof (day_range _ _ _ Hd Hy) as Hr. destruct Hd as (Hy' & Hm' & Hd1 & Hd2).
  assert (tm_mday lt ≤ 31) as Hd31 by (etransitivity; [exact Hd2|]; unfold month_days; by repeat case_match).
  unfold timestamp, stamp. cbn [halfday seconds milliseconds ms_absent].
  rewrite (u32_small (tm_mon lt + 1)), (u32_small (tm_mday lt)), (u32_small (tm_hour lt)) by lia.
  set (days := days_from_civil _ _ _ - jbase_days) in *.
  rewrite (u32_small (tm_min lt)), (u32_small (tm_sec lt)) by lia.
  set (sod := tm_hour lt * 3600 + tm_min lt * 60 + tm_sec lt). assert (0 ≤ sod < 86400) as Hsod by (unfold sod; lia).
  rewrite (u32_small sod) by lia.
  assert (half_day = 43200) as -> by done.
  assert (0 ≤ sod / 43200 < 2 ∧ 0 ≤ sod mod 43200 < 43200) as [H1 H2] by (Z.to_euclidean_division_equations; lia).
  rewrite (u16_small (days * 2 + sod / 43200)), (u16_small (sod mod 43200)) by lia.
  assert ((days * 2 + sod / 43200) mod 2 = sod / 43200) as -> by (Z.to_euclidean_division_equations; lia).
  assert ((days * 2 + sod / 43200) / 2 = days) as -> by (Z.to_euclidean_division_equations; lia).
  assert (sod mod 43200 + sod / 43200 * 43200 = sod) as -> by (pose proof (Z.div_mod sod 43200); lia).
  rewrite (Z.div_small sod 86400), (Z.mod_small sod 86400), Z.add_0_r by lia.
  replace (jbase_days + days) with (days_from_civil (tm_year lt + 1900) (tm_mon lt + 1) (tm_mday lt)) by (unfold days; lia).
  rewrite civil_back by done. cbn [c_y c_m c_d].
  assert (sod / 3600 = tm_hour lt) as -> by (unfold sod; Z.to_euclidean_division_equations; lia).
  assert ((sod / 60) mod 60 = tm_min lt) as -> by (unfold sod; Z.to_euclidean_division_equations; lia).
  assert (sod mod 60 = tm_sec lt) as -> by (unfold sod; Z.to_euclidean_division_equations; lia).
  rewrite Z.rem_mod_nonneg, Z.quot_div_nonneg by (try apply Z.mod_pos_bound; lia).
  by rewrite u16_small by (Z.to_euclidean_division_equations; lia).
Qed.

(** ** Records *)

Definition event_ok (e : Event) : Prop :=
  0 ≤ cls (ev_id e) < 512 ∧ 0 ≤ code (ev_id e) < 32 ∧ byte_ok (function e) ∧
  node_ok (source e) ∧ entity_ok (ev_entity e) ∧ params_ok (ev_params e) ∧
  0 ≤ halfday e < 65536 ∧ 0 ≤ seconds e < 65536 ∧ 0 ≤ milliseconds e < 1024.
Lemma id_bits c k : 0 ≤ c < 512 → 0 ≤ k < 32 →
  let v := Z.lor (Z.land k 31) (u32 (Z.shiftl c 6)) in
  0 ≤ v < 65536 ∧ Z.land (Z.shiftr v 6) 511 = c ∧ Z.land v 31 = k.
Proof.
  intros Hc Hk v. assert (v = k + c * 64) as Ev.
  { unfold v. change 31 with (Z.ones 5). rewrite Z.land_ones, Z.mod_small by lia.
    rewrite Z.shiftl_mul_pow2, u32_small, <-Z.shiftl_mul_pow2 by lia. by rewrite lor_shiftl_add by lia. }
  rewrite Ev. split; [lia|]. rewrite Z.shiftr_div_pow2 by lia. change 511 with (Z.ones 9). change 31 with (Z.ones 5).
  rewrite !Z.land_ones by lia. split; Z.to_euclidean_division_equations; lia.
Qed.
Lemma ms_bits v (b : bool) : 0 ≤ v < 1024 →
  let w := Z.lor (Z.land v 1023) (flag_of b 32768) in
  0 ≤ w < 65536 ∧ Z.land w 1023 = v ∧ negb (Z.land w 32768 =? 0) = b.
Proof.
  intros Hv w. assert (w = v + (if b then 1 else 0) * 32768) as Ew.
  { unfold w. change 1023 with (Z.ones 10). rewrite Z.land_ones, Z.mod_small by lia.
    assert (flag_of b 32768 = Z.shiftl (if b then 1 else 0) 15) as -> by by destruct b.
    rewrite lor_shiftl_add by lia. done. }
  rewrite Ew. split; [destruct b; lia|]. change 1023 with (Z.ones 10). rewrite Z.land_ones by lia.
  split; [destruct b; Z.to_euclidean_division_equations; lia|].
  change 32768 with (2 ^ 15) at 2. rewrite land_power, top_bit by (change (2 ^ (15 + 1)) with 65536; destruct b; lia).
  change (2 ^ 15) with 32768. destruct b; [rewrite (proj2 (Z.leb_le _ _)) by lia|rewrite (proj2 (Z.leb_gt _ _)) by lia]; done.
Qed.
Lemma flag_bits a b c : let v := Z.lor (Z.lor (flag_of a 1) (flag_of b 2)) (flag_of c 4) in
  byte_ok v ∧ negb (Z.land v 1 =? 0) = a ∧ negb (Z.land v 2 =? 0) = b ∧ negb (Z.land v 4 =? 0) = c.
Proof. by destruct a, b, c. Qed.

Lemma record_back `{WS : WideShift} e : event_ok e → ∃ bs, encode_record e = Ok bs ∧ bytes_ok bs ∧ parse_record bs = Ok e.
Proof.
  destruct e as [[c k] f co fi mo n ent ps h s ms ab]. unfold event_ok, encode_record, parse_record, decode_record.
  cbn [cls code ev_id function source ev_entity ev_params halfday seconds milliseconds console file monitor ms_absent].
  intros (Hc & Hk & Hf & Hn & He & Hp & Hh & Hs & Hms).
  destruct (nice_node_back n Hn) as (bn & -> & Hbn & _ & Rn). unfold Entity.encode.
  destruct (entity_back ent He) as (be & -> & Hbe & _ & Re). destruct (params_back ps Hp) as (bp & -> & Hbp & Rp).
  cbn [mbind result_bind].
  destruct (flag_bits co fi mo) as (Fb & F1 & F2 & F3). destruct (id_bits c k Hc Hk) as (Ib & I1 & I2).
  destruct (ms_bits ms ab Hms) as (Mb & M1 & M2).
  set (fl := Z.lor (Z.lor (flag_of co 1) (flag_of fi 2)) (flag_of mo 4)) in *.
  set (ec := Z.lor (Z.land k 31) (u32 (Z.shiftl c 6))) in *. set (mw := Z.lor (Z.land ms 1023) (flag_of ab 32768)) in *.
  eexists. split; [reflexivity|]. assert (byte_ok (Entity.kind_ ent)) as Hkind by apply He.
  rewrite !byte_of by done. split.
  { assert (∀ b, byte_ok b → bytes_ok [b]) as H1 by (intros b Hb; apply bytes_ok_cons; split; [done|apply bytes_ok_nil]).
    rewrite !bytes_ok_app. repeat (apply conj); auto using uint_ok. }
  rewrite <- !app_assoc. cbn [app]. rewrite byte_app. cbn [mbind result_bind]. rewrite byte_app. cbn [mbind result_bind].
  rewrite uint2_app by done. cbn [mbind result_bind]. rewrite uint2_app by done. cbn [mbind result_bind].
  rewrite uint2_app by done. cbn [mbind result_bind]. rewrite uint2_app by done. cbn [mbind result_bind].
  rewrite Rn. cbn [mbind result_bind]. unfold Entity.decode. cbn [app]. rewrite byte_app. cbn [mbind result_bind].
  rewrite Re. cbn [mbind result_bind]. rewrite Rp. cbn [mbind result_bind].
  rewrite (u16_small ec), (u16_small mw), I1, I2, F1, F2, F3, M1, M2 by done.
  by rewrite (u16_small c), (u8_small k), (u16_small h), (u16_small s), (u16_small ms) by lia.
Qed.

(** C34: Event records.  Every record an event can make -- its number, the sinks that
    want it, its source, its entity and its parameters and counters -- encodes, and is
    parsed by the node that receives it as what it was; and a record stamped with a
    local time, of any date from 1977 to 2065, shows just that time there: the half
    days since 1977 and the calendar they are counted by are faithful, leap years and
    centuries included. *)
Theorem events_arrive {WS : WideShift} (e : Event) (lt : tm) (us : Z) :
  event_ok e →
  (∃ bs, encode_record e = Ok bs ∧ bytes_ok bs ∧ parse_record bs = Ok e) ∧
  (time_ok lt → 0 ≤ us →
     ∃ bs r, encode_record (stamp lt us e) = Ok bs ∧ parse_record bs = Ok r ∧
       timestamp r = show_time (tm_year lt + 1900) (tm_mon lt + 1) (tm_mday lt) (tm_hour lt) (tm_min lt) (tm_sec lt)
                       (Some (us mod 1000000 / 1000))).
Proof.
  intros He. split; [by apply record_back|]. intros Ht Hu.
  destruct (record_back (stamp lt us e)) as (bs & E & _ & P).
  - destruct He as (H1 & H2 & H3 & H4 & H5 & H6 & _). repeat (split; [done|]). unfold stamp. cbn [halfday seconds milliseconds].
    split; [apply u16_range|]. split; [apply u16_range|].
    rewrite Z.rem_mod_nonneg, Z.quot_div_nonneg by (try apply Z.mod_pos_bound; lia).
    rewrite u16_small; Z.to_euclidean_division_equations; lia.
  - exists bs, (stamp lt us e). split; [done|]. split; [done|]. by apply stamped_time.
Qed.

(** A circuit that went down on the last day of February 2024. *)
Definition example_event : Event :=
  mkEvent (mkEventId 4 7) 1 true false true (mkNiceNode 1027 (str_text "GROK") false)
    (Entity.make_string Entity.circuit (str_text "DMC-0")) (set 5 (mkValue Kind.c 1 (PUint 0)) ∅) 0 0 0 false.
Definition leap_day : tm := mkTm 124 1 29 23 59 58.
Lemma events_arrive_witness : ∃ bs r,
  @encode_record no_shift (stamp leap_day 250999 example_event) = Ok bs ∧ @parse_record no_shift bs = Ok r ∧
  timestamp r = str_text "29-Feb-2024 23:59:58.250" ∧
  @event_str r = Ok (str_text "Event type 4.7, Circuit down, circuit fault" ++ [newline] ++
    str_text "From node 1.3 (GROK), occurred 29-Feb-2024 23:59:58.250" ++ [newline] ++
    str_text "    Circuit = DMC-0, Reason = Circuit synchronization lost").
Proof.
  destruct (@events_arrive no_shift example_event leap_day 250999) as [_ H].
  - unfold event_ok. cbn. unfold byte_ok, node_ok, entity_ok, params_ok. cbn.
    repeat split; try lia; try done. apply map_Forall_insert_2; [|by intros k p Hk]. split; [done|]. cbn. split; [lia|]. split; [done|]. lia.
  - destruct H as (bs & r & E & P & T).
    + unfold time_ok, date_ok. cbn. repeat split; first [lia|vm_compute; discriminate].
    + lia.
    + exists bs, r. split; [exact E|]. split; [exact P|]. split; [rewrite T; vm_compute; reflexivity|].
      vm_compute in E. injection E as <-. vm_compute in P. injection P as <-. vm_compute. reflexivity.
Defined.
