(* ===== verification/Logger.v ===== *)
(** Event sinks: [include/decnet/events/logger.h] and [src/events/logger.cc].

    What sending a record over the link brings about at once -- more events,
    the end of the link -- is a list of happenings; a record that is sent is
    logged as the record it is, which [Events] encodes. *)

From stdpp Require Import gmap sorting.
From S2P Require Import Prelude Buffer Types NiceValue NiceParams Config EventTables Events Nml.
#[local] Open Scope Z_scope.

(** ** Event lists *)

Abbreviation EventSet := (gset EventId).
Definition filterable_events : EventSet :=
  list_to_set (filter (λ i, (cls i <? 31) || (480 <=? cls i)) (map e_id known_events)).

(** [read_uint]: whether there are digits, their value, and what follows. *)
Fixpoint read_digits (v : Z) (s : text) : result (Z * text) :=
  match s with
  | c :: t => if isdigit c then let v := v * 10 + (Types.code c - 48) in
                                if 100000 <? v then Throw InvalidArgument else read_digits v t
              else Ok (v, s)
  | [] => Ok (v, [])
  end.
Definition read_uint (s : text) : result (bool * Z * text) :=
  '(v, t) ← read_digits 0 s; Ok (negb (bool_decide (t = s)), v, t).
(** An entry of a list, given the class before it: class, first and last code. *)
Definition parse_item (have : option Z) (item : text) : result (Z * Z * Z) :=
  '(digits, n, rest) ← read_uint item;
  '(c, digits, n, rest) ← (match digits, rest with
    | true, "."%char :: t =>
        if 512 <=? n then Throw InvalidArgument
        else '(digits', n', rest') ← read_uint t; Ok (n, digits', n', rest')
    | _, _ => match have with Some c => Ok (c, digits, n, rest) | None => Throw InvalidArgument end
    end);
  '(first, last_, rest) ← (match digits : bool, rest with
    | false, "*"%char :: t => Ok (0, 31, t)
    | true, "-"%char :: t =>
        '(d, hi, t) ← read_uint t;
        if negb d || (hi <=? n) then Throw InvalidArgument else Ok (n, hi, t)
    | true, _ => Ok (n, n, rest)
    | false, _ => Throw InvalidArgument
    end);
  if negb (bool_decide (rest = [])) then Throw InvalidArgument
  else if 31 <? last_ then Throw InvalidArgument else Ok (c, first, last_).
Definition event_range (c first last_ : Z) : EventSet :=
  list_to_set (map (λ e, mkEventId c e) (seqZ first (last_ - first + 1))).
Fixpoint split_commas (cur s : text) : list text :=
  match s with
  | [] => [cur]
  | c :: s => if bool_decide (c = ","%char) then cur :: split_commas [] s else split_commas (cur ++ [c]) s
  end.
Fixpoint parse_items (have : option Z) (items : list text) (ret : EventSet) : result EventSet :=
  match items with
  | [] => Ok ret
  | [] :: items => parse_items have items ret
  | item :: items => '(c, first, last_) ← parse_item have item; parse_items (Some c) items (ret ∪ event_range c first last_)
  end.
Definition parse_events (s : text) : result EventSet :=
  if is_word s "*.*" then Ok filterable_events else parse_items None (split_commas [] s) ∅.

(** ** [EventFilter] *)

Record EventFilter := mkFilter { plain_ : EventSet; qualified_ : gset (text * EventId) }.
#[global] Instance EventFilter_eq_dec : EqDecision EventFilter.
Proof. solve_decision. Defined.
Definition no_filter : EventFilter := mkFilter ∅ ∅.
Definition set_filter (es : EventSet) (key : text) (enable : bool) (f : EventFilter) : EventFilter :=
  let es := es ∩ filterable_events in
  if bool_decide (key = []) then
    mkFilter (if enable then plain_ f ∪ es else plain_ f ∖ es) (qualified_ f)
  else
    let qs := set_map (λ i, (key, i)) es in
    mkFilter (plain_ f) (if enable then qualified_ f ∪ qs else qualified_ f ∖ qs).
Definition contains (e : Event) (f : EventFilter) : bool :=
  bool_decide (ev_id e ∈ plain_ f) || bool_decide ((Entity.key (ev_entity e), ev_id e) ∈ qualified_ f).
(** [std::set] in its order. *)
Definition id_leb (a b : EventId) : Prop := cls a < cls b ∨ cls a = cls b ∧ code a ≤ code b.
#[global] Instance id_leb_dec : RelDecision id_leb.
Proof. intros a b. unfold id_leb. apply _. Defined.
Definition in_order (s : EventSet) : list EventId := merge_sort id_leb (elements s).
(** The runs of consecutive codes in a class, and how one is written after
    the class before it. *)
Fixpoint runs (l : list EventId) : list (Z * Z * Z) :=
  match l with
  | [] => []
  | i :: l =>
      match runs l with
      | (c, lo, hi) :: rs => if (c =? cls i) && (lo =? code i + 1) then (c, code i, hi) :: rs
                             else (cls i, code i, code i) :: (c, lo, hi) :: rs
      | [] => [(cls i, code i, code i)]
      end
  end.
Definition run_text (before : option Z) (r : Z * Z * Z) : text :=
  let '(c, lo, hi) := r in
  ((if bool_decide (before = Some c) then [] else print_uint c ++ word ".") ++
   print_uint lo ++ (if hi =? lo then [] else word "-" ++ print_uint hi))%list.
Fixpoint runs_text (before : option Z) (rs : list (Z * Z * Z)) : list text :=
  match rs with [] => [] | r :: rs => run_text before r :: runs_text (Some r.1.1) rs end.
Fixpoint comma_joined (l : list text) : text :=
  match l with [] => [] | [t] => t | t :: l => (t ++ word "," ++ comma_joined l)%list end.
Definition pair_leb (a b : text * EventId) : Prop :=
  (text_leb a.1 b.1 = true ∧ a.1 ≠ b.1) ∨ a.1 = b.1 ∧ id_leb a.2 b.2.
#[global] Instance pair_leb_dec : RelDecision pair_leb.
Proof. intros a b. unfold pair_leb. apply _. Defined.
Definition filter_format (f : EventFilter) : text :=
  comma_joined (runs_text None (runs (in_order (plain_ f))) ++
    map (λ q, (q.1 ++ word "/" ++ id_str q.2)%list) (merge_sort pair_leb (elements (qualified_ f)))).

(** ** The sink of another node *)

Definition queue_limit : Z := 50.
Definition lost_id : EventId := mkEventId 0 0.
(** Its own filters, by the type of the far end's sink; [outs] is what it did. *)
Inductive sink_out := Sent (e : Event) | Connected (node : text) | Retry.
Record RemoteSink := mkSink {
  filters_ : list EventFilter;
  node_ : text;
  queue_ : list Event;
  conn_ : bool;
  connecting_ : bool;
  stopped_ : bool;
  sending_ : bool;
  outs : list sink_out;
  wanted : list Event;            (* what it was to write, as it was to write it *)
}.
Definition new_sink (node : text) : RemoteSink := mkSink [no_filter; no_filter; no_filter] node [] false false false false [] [].
Definition put_queue (q : list Event) (s : RemoteSink) : RemoteSink :=
  mkSink (filters_ s) (node_ s) q (conn_ s) (connecting_ s) (stopped_ s) (sending_ s) (outs s) (wanted s).
Definition put_link (conn connecting : bool) (s : RemoteSink) : RemoteSink :=
  mkSink (filters_ s) (node_ s) (queue_ s) conn connecting (stopped_ s) (sending_ s) (outs s) (wanted s).
Definition put_stopped (b : bool) (s : RemoteSink) : RemoteSink :=
  mkSink (filters_ s) (node_ s) (queue_ s) (conn_ s) (connecting_ s) b (sending_ s) (outs s) (wanted s).
Definition put_sending (b : bool) (s : RemoteSink) : RemoteSink :=
  mkSink (filters_ s) (node_ s) (queue_ s) (conn_ s) (connecting_ s) (stopped_ s) b (outs s) (wanted s).
Definition put_node (n : text) (s : RemoteSink) : RemoteSink :=
  mkSink (filters_ s) n (queue_ s) (conn_ s) (connecting_ s) (stopped_ s) (sending_ s) (outs s) (wanted s).
Definition done_ (o : sink_out) (s : RemoteSink) : RemoteSink :=
  mkSink (filters_ s) (node_ s) (queue_ s) (conn_ s) (connecting_ s) (stopped_ s) (sending_ s) (outs s ++ [o]) (wanted s).
Definition want (e : Event) (s : RemoteSink) : RemoteSink :=
  mkSink (filters_ s) (node_ s) (queue_ s) (conn_ s) (connecting_ s) (stopped_ s) (sending_ s) (outs s) (wanted s ++ [e]).

Definition marked (m : Z) (e : Event) : Event :=
  mkEvent (ev_id e) (function e) (Z.testbit m 0) (Z.testbit m 1) (Z.testbit m 2) (source e) (ev_entity e) (ev_params e)
    (halfday e) (seconds e) (milliseconds e) (ms_absent e).
Fixpoint mask_of (bit : Z) (fs : list EventFilter) (e : Event) : Z :=
  match fs with [] => 0 | f :: fs => Z.lor (if contains e f then Z.shiftl 1 bit else 0) (mask_of (bit + 1) fs e) end.
Definition sinkmask (e : Event) (s : RemoteSink) : Z := mask_of 0 (filters_ s) e.

(** The environment of a call: the clock, whether the node of the sink is
    known and session control gives a connection. *)
Record Around := mkAround { local_time : tm; now : Z; known : bool; opens : bool }.
(** The end of [send_events], without a link. *)
Definition connect (a : Around) (s : RemoteSink) : RemoteSink :=
  if connecting_ s || bool_decide (node_ s = []) then s
  else if negb (known a) then put_node [] s
  else if opens a then put_link (conn_ s) true (done_ (Connected (node_ s)) s)
  else done_ Retry s.
Definition link_down (s : RemoteSink) : RemoteSink :=
  let s := put_link false false s in if stopped_ s then s else done_ Retry s.
(** The first part of [writeevent]: whether [send_events] follows. *)
Definition enqueue (a : Around) (e : Event) (s : RemoteSink) : RemoteSink * bool :=
  if queue_limit <=? len (queue_ s) then
    match last (queue_ s) with
    | Some b =>
        if bool_decide (ev_id b = lost_id) then (s, false)
        else
          let lost := new_event lost_id Entity.make_none (local_time a) (now a) in
          let lost := mkEvent (ev_id lost) (function lost) (console lost) (file lost) (monitor lost) (source e)
                        (ev_entity lost) (ev_params lost) (halfday lost) (seconds lost) (milliseconds lost) (ms_absent lost) in
          (put_queue (removelast (queue_ s) ++ [lost]) s, false)
    | None => (s, false)
    end
  else (put_queue (queue_ s ++ [e]) s, true).

(** What a send brings about before it returns. *)
Inductive happening := Raise (a : Around) (e : Event) | Down.
(** [logevent] while [send_events] is running further up. *)
Definition raise_ (a : Around) (e : Event) (s : RemoteSink) : RemoteSink :=
  let m := sinkmask e s in
  if m =? 0 then s
  else
    let e := marked m e in
    let '(s, more) := enqueue a e (want e s) in
    if negb more || stopped_ s || conn_ s then s else connect a s.
Definition happen (h : happening) (s : RemoteSink) : RemoteSink :=
  match h with Raise a e => raise_ a e s | Down => link_down s end.
(** The loop of [send_events].  The script says for each turn whether the
    connection is running, and what the send brings about; after it, the
    connection runs and nothing else happens. *)
Fixpoint send_loop (fuel : nat) (script : list (option (list happening))) (s : RemoteSink) : RemoteSink :=
  match fuel, queue_ s with
  | S fuel, e :: q =>
      if negb (conn_ s) then s
      else match script with
           | None :: _ => s
           | Some hs :: script => send_loop fuel script (foldl (λ s h, happen h s) (done_ (Sent e) (put_queue q s)) hs)
           | [] => send_loop fuel [] (done_ (Sent e) (put_queue q s))
           end
  | _, _ => s
  end.
Definition raised (script : list (option (list happening))) : nat := sum_list_with (λ o, length (default [] o)) script.
Definition send_events (script : list (option (list happening))) (a : Around) (s : RemoteSink) : RemoteSink :=
  if stopped_ s then s
  else if conn_ s then
    if sending_ s then s
    else put_sending false (send_loop (length (queue_ s) + raised script) script (put_sending true s))
  else connect a s.
Definition sink_logevent (script : list (option (list happening))) (a : Around) (e : Event) (s : RemoteSink) : RemoteSink :=
  let m := sinkmask e s in
  if m =? 0 then s
  else
    let e := marked m e in
    let '(s, more) := enqueue a e (want e s) in
    if more then send_events script a s else s.
Definition link_up (script : list (option (list happening))) (a : Around) (s : RemoteSink) : RemoteSink :=
  send_events script a (put_link true false s).
Definition sink_start (s : RemoteSink) : RemoteSink := put_stopped false s.
(** [stop]; what [disconnect] brings about comes later. *)
Definition sink_stop (s : RemoteSink) : RemoteSink := put_link false false (put_stopped true s).
Definition set_sink_filter (type : Z) (f : EventFilter) (s : RemoteSink) : RemoteSink :=
  mkSink (<[Z.to_nat (if (0 <=? type) && (type <? 3) then type else 0) := f]> (filters_ s)) (node_ s) (queue_ s) (conn_ s) (connecting_ s)
    (stopped_ s) (sending_ s) (outs s) (wanted s).

(** ** [EventLogger] *)

(** The local sinks by type, the remote ones by node, all of them in the order
    they were made ([inl] the type of a local one), and what the local ones
    were given to write. *)
Record EventLogger := mkLogger {
  sinks_ : list (text + text);
  local_ : gmap text EventFilter;
  remote_ : gmap text RemoteSink;
  written : list (text * Event);
}.
Definition sink_type_names : list text := [word "console"; word "file"; word "monitor"].
Definition sink_type_id (t : text) : Z :=
  if is_word t "console" then 0 else if is_word t "file" then 1 else if is_word t "monitor" then 2 else -1.
(** One line of the configuration. *)
Definition add_logging (c : LoggingConfig) (g : EventLogger) : result EventLogger :=
  let type := sink_type_id (l_type c) in
  if type <? 0 then Ok g
  else
    es ← (if negb (bool_decide (l_events c = [])) then e ← parse_events (l_events c); Ok (Some e)
          else if (type =? 0) && bool_decide (sink_node c = []) then Ok (Some filterable_events) else Ok None);
    let set f := match es with Some e => set_filter e [] true f | None => f end in
    if negb (bool_decide (sink_node c = [])) then
      let '(s, made) := match remote_ g !! sink_node c with
                        | Some s => (s, [])
                        | None => (new_sink (sink_node c), [inr (sink_node c)])
                        end in
      let f := default no_filter (filters_ s !! Z.to_nat type) in
      Ok (mkLogger (sinks_ g ++ made) (local_ g) (<[sink_node c := set_sink_filter type (set f) s]> (remote_ g)) (written g))
    else
      let '(f, made) := match local_ g !! l_type c with Some f => (f, []) | None => (no_filter, [inl (l_type c)]) end in
      Ok (mkLogger (sinks_ g ++ made) (<[l_type c := set f]> (local_ g)) (remote_ g) (written g)).
Fixpoint add_all (l : list LoggingConfig) (g : EventLogger) : result EventLogger :=
  match l with [] => Ok g | c :: l => g ← add_logging c g; add_all l g end.
Definition new_logger (l : list LoggingConfig) : result EventLogger :=
  match l with
  | [] => Ok (mkLogger [inl (word "console")] {[word "console" := set_filter filterable_events [] true no_filter]} ∅ [])
  | _ => add_all l (mkLogger [] ∅ ∅ [])
  end.
(** [EventSink::logevent] of a local sink. *)
Definition offer_local (t : text) (e : Event) (g : EventLogger) : EventLogger :=
  match local_ g !! t with
  | Some f => if contains e f then mkLogger (sinks_ g) (local_ g) (remote_ g) (written g ++ [(t, e)]) else g
  | None => g
  end.
(** A record received: offered to the local sinks it asks for. *)
Definition logremoteevent (e : Event) (g : EventLogger) : EventLogger :=
  foldl (λ g (w : text * bool), if w.2 then offer_local w.1 e g else g) g (zip sink_type_names [console e; file e; monitor e]).
(** A local event goes to every sink; each remote one has its own
    circumstances. *)
Definition offer (around : text → list (option (list happening)) * Around) (e : Event) (k : text + text) (g : EventLogger) : EventLogger :=
  match k with
  | inl t => offer_local t e g
  | inr n => match remote_ g !! n with
             | Some s => mkLogger (sinks_ g) (local_ g) (<[n := sink_logevent (around n).1 (around n).2 e s]> (remote_ g)) (written g)
             | None => g
             end
  end.
Definition logevent (around : text → list (option (list happening)) * Around) (e : Event) (g : EventLogger) : EventLogger :=
  foldl (λ g k, offer around e k g) g (sinks_ g).
(** [register_monitor] adds to the filter of the monitor. *)
Definition register_monitor (events : EventSet) (g : EventLogger) : EventLogger :=
  match local_ g !! word "monitor" with
  | Some f => mkLogger (sinks_ g) (<[word "monitor" := set_filter events [] true f]> (local_ g)) (remote_ g) (written g)
  | None => g
  end.
(** The file of records: each after its length, and nothing of one that
    cannot be encoded. *)
Definition file_record `{WS : WideShift} (e : Event) : result Bytes :=
  b ← encode_record e; Ok (u8 (Z.land (len b) 255) :: u8 (Z.shiftr (len b) 8) :: b).
(** Object 26: a message from another node's logger. *)
Definition data_received `{WS : WideShift} (data : Bytes) (g : EventLogger) : EventLogger :=
  match parse_record data with Ok e => logremoteevent e g | Throw _ => g end.
