(* ===== verification/LoggerLaws.v ===== *)
(** Event sinks: what a remote sink sends and keeps, and event lists. *)

From stdpp Require Import gmap sorting.
From S2P Require Import Prelude Types NiceParams Config EventTables Events Nml Logger.
#[local] Open Scope Z_scope.

(** ** The queue of a remote sink *)

Definition is_lost (e : Event) : Prop := ev_id e = lost_id.
(** What is kept of the records that were wanted, in their order: each one
    itself, or a mark that records are lost in the place of those that are. *)
Inductive digest : list Event → list Event → Prop :=
| digest_nil : digest [] []
| digest_keep o k e : digest o k → digest (o ++ [e]) (k ++ [e])
| digest_lose o k x e m : digest o (k ++ [x]) → is_lost m → digest (o ++ [e]) (k ++ [m])
| digest_drop o k x e : digest o (k ++ [x]) → is_lost x → digest (o ++ [e]) (k ++ [x]).
Lemma digest_whole o k : digest o k → Forall (λ e, ¬ is_lost e) k → k = o.
Proof.
  induction 1 as [|o k e H IH|o k x e m H IH Hm|o k x e H IH Hx]; intros HF; [done|..];
    apply Forall_app in HF as [HF Hl]; apply Forall_cons in Hl as [Hl _]; [by rewrite IH|done..].
Qed.

Definition sent_of (l : list sink_out) : list Event := omap (λ o, match o with Sent e => Some e | _ => None end) l.
Lemma sent_of_app a b : sent_of (a ++ b) = sent_of a ++ sent_of b.
Proof. apply omap_app. Qed.
Definition SinkOk (s : RemoteSink) : Prop :=
  digest (wanted s) (sent_of (outs s) ++ queue_ s) ∧ len (queue_ s) ≤ queue_limit.
(** The members that carry records. *)
Definition carried (s : RemoteSink) : list Event * list Event * list Event := (wanted s, sent_of (outs s), queue_ s).
Lemma carried_ok s s' : carried s' = carried s → SinkOk s → SinkOk s'.
Proof. unfold carried, SinkOk. intros [= -> -> ->]. done. Qed.
Lemma done_carried o s : (∀ e, o ≠ Sent e) → carried (done_ o s) = carried s.
Proof. intros H. unfold carried, done_. cbn. rewrite sent_of_app. destruct o; [by destruct (H e)|..]; by rewrite app_nil_r. Qed.
Lemma connect_carried a s : carried (connect a s) = carried s.
Proof.
  unfold connect. destruct (_ || _); [done|]. destruct (negb _); [done|]. destruct (opens a).
  - transitivity (carried (done_ (Connected (node_ s)) s)); [done|]. by apply done_carried.
  - by apply done_carried.
Qed.
Lemma down_carried s : carried (link_down s) = carried s.
Proof. unfold link_down. cbn [stopped_ put_link]. destruct (stopped_ s); [done|]. by rewrite done_carried. Qed.

Lemma enqueue_ok a e s : SinkOk s → SinkOk (enqueue a e (want e s)).1.
Proof.
  intros [D L]. unfold enqueue. cbn [queue_ want]. destruct (Z.leb_spec queue_limit (len (queue_ s))) as [Hq|Hq].
  - destruct (last (queue_ s)) as [b|] eqn:El.
    + apply last_Some in El as [q El]. rewrite El in *. rewrite app_assoc in D.
      case_bool_decide as Hb; cbn [fst].
      * split; cbn; rewrite El; [|done]. rewrite app_assoc. by apply digest_drop.
      * split; cbn; try rewrite El; rewrite removelast_last.
        -- rewrite app_assoc. by apply digest_lose with (x := b).
        -- by rewrite len_app in *.
    + apply last_None in El. rewrite El in Hq. change (50 ≤ 0) in Hq. lia.
  - split; cbn; [rewrite app_assoc; by apply digest_keep|]. rewrite len_app. change (len [e]) with 1. lia.
Qed.
Lemma raise_ok a e s : SinkOk s → SinkOk (raise_ a e s).
Proof.
  intros H. unfold raise_. destruct (_ =? 0); [done|]. pose proof (enqueue_ok a (marked (sinkmask e s) e) s H) as H'.
  destruct (enqueue _ _ _) as [s' more]. cbn [fst] in H'. destruct (_ || _); [done|]. apply (carried_ok s'); [apply connect_carried|done].
Qed.
Lemma sink_happen_ok h s : SinkOk s → SinkOk (happen h s).
Proof. destruct h; [apply raise_ok|]. apply carried_ok, down_carried. Qed.
Lemma happenings_ok hs : ∀ s, SinkOk s → SinkOk (foldl (λ s h, happen h s) s hs).
Proof. induction hs as [|h hs IH]; intros s H; [done|]. by apply IH, sink_happen_ok. Qed.
Lemma sent_ok e q s : SinkOk s → queue_ s = e :: q → SinkOk (done_ (Sent e) (put_queue q s)).
Proof.
  intros [D L] E. rewrite E in D, L. split; cbn; [|rewrite len_cons in L; lia].
  rewrite sent_of_app. cbn. by rewrite <-app_assoc.
Qed.
Lemma loop_ok fuel : ∀ script s, SinkOk s → SinkOk (send_loop fuel script s).
Proof.
  induction fuel as [|fuel IH]; intros script s H; [done|]. cbn. destruct (queue_ s) as [|e q] eqn:E; [done|].
  destruct (negb _); [done|]. destruct script as [|[hs|] script]; [by apply IH, sent_ok|by apply IH, happenings_ok, sent_ok|done].
Qed.
Lemma send_ok script a s : SinkOk s → SinkOk (send_events script a s).
Proof.
  intros H. unfold send_events. destruct (stopped_ s); [done|]. destruct (conn_ s); [|by apply (carried_ok s); [apply connect_carried|]].
  destruct (sending_ s); [done|]. apply (carried_ok (send_loop (length (queue_ s) + raised script) script (put_sending true s))); [done|].
  apply loop_ok. by apply (carried_ok s).
Qed.

(** *** Any sequence of events *)

Inductive sink_event :=
| SLog (script : list (option (list happening))) (a : Around) (e : Event)
| SUp (script : list (option (list happening))) (a : Around)
| SDown
| STimeout (script : list (option (list happening))) (a : Around)
| SStart
| SStop
| SFilter (type : Z) (f : EventFilter).
Definition sink_step (s : RemoteSink) (v : sink_event) : RemoteSink :=
  match v with
  | SLog script a e => sink_logevent script a e s
  | SUp script a => link_up script a s
  | SDown => link_down s
  | STimeout script a => send_events script a s
  | SStart => sink_start s
  | SStop => sink_stop s
  | SFilter type f => set_sink_filter type f s
  end.
Definition sink_run (s : RemoteSink) (l : list sink_event) : RemoteSink := foldl sink_step s l.
Lemma log_ok script a e s : SinkOk s → SinkOk (sink_logevent script a e s).
Proof.
  intros H. unfold sink_logevent. destruct (_ =? 0); [done|]. pose proof (enqueue_ok a (marked (sinkmask e s) e) s H) as H'.
  destruct (enqueue _ _ _) as [s' []]; [by apply send_ok|done].
Qed.
Lemma step_sink_ok v s : SinkOk s → SinkOk (sink_step s v).
Proof.
  intros H. destruct v as [script a e|script a| |script a| | |type f]; cbn [sink_step];
    [by apply log_ok|by apply send_ok, (carried_ok s)|by apply (carried_ok s); [apply down_carried|]|by apply send_ok|by apply (carried_ok s)..].
Qed.
Lemma run_sink_ok l : ∀ s, SinkOk s → SinkOk (sink_run s l).
Proof. induction l as [|v l IH]; intros s H; [done|]. by apply IH, step_sink_ok. Qed.
Lemma new_sink_ok n : SinkOk (new_sink n).
Proof. split; [constructor|done]. Qed.

(** The loop is never left half done. *)
Lemma sending_log o s : sending_ (done_ o s) = sending_ s.
Proof. done. Qed.
Lemma connect_sending a s : sending_ (connect a s) = sending_ s.
Proof. unfold connect. destruct (_ || _); [done|]. destruct (negb _); [done|]. by destruct (opens a). Qed.
Lemma step_sending v s : sending_ s = false → sending_ (sink_step s v) = false.
Proof.
  intros H. assert (∀ script a t, sending_ t = false → sending_ (send_events script a t) = false) as Hs.
  { intros script a t Ht. unfold send_events. destruct (stopped_ t); [done|]. destruct (conn_ t); [by destruct (sending_ t)|]. by rewrite connect_sending. }
  destruct v as [script a e|script a| |script a| | |type f]; cbn [sink_step]; try done; try by apply Hs.
  - unfold sink_logevent. destruct (_ =? 0); [done|].
    assert (sending_ (enqueue a (marked (sinkmask e s) e) (want (marked (sinkmask e s) e) s)).1 = false) as He.
    { unfold enqueue. cbn. destruct (_ <=? _); [|done]. destruct (last _); [|done]. by case_bool_decide. }
    destruct (enqueue _ _ _) as [s' []]; [by apply Hs|done].
  - unfold link_down. cbn. by destruct (stopped_ s).
Qed.
Lemma run_sending l : ∀ s, sending_ s = false → sending_ (sink_run s l) = false.
Proof. induction l as [|v l IH]; intros s H; [done|]. by apply IH, step_sending. Qed.
(** With a link nothing happens to, everything goes. *)
Lemma loop_drains fuel : ∀ s, conn_ s = true → (length (queue_ s) ≤ fuel)%nat →
  queue_ (send_loop fuel [] s) = [] ∧ sent_of (outs (send_loop fuel [] s)) = sent_of (outs s) ++ queue_ s.
Proof.
  induction fuel as [|fuel IH]; intros s Hc Hl.
  - destruct (queue_ s) eqn:E; [|cbn in Hl; lia]. cbn. by rewrite E, app_nil_r.
  - cbn. destruct (queue_ s) as [|e q] eqn:E; [by rewrite E, app_nil_r|]. rewrite Hc. cbn [negb].
    destruct (IH (done_ (Sent e) (put_queue q s))) as [I1 I2]; [done|cbn in Hl |- *; lia|]. split; [done|].
    rewrite I2. cbn. rewrite sent_of_app. cbn. by rewrite <-app_assoc.
Qed.

(** The fuel is enough: each turn takes a record, and each event raised adds
    at most one. *)
Lemma happen_queue h s : (length (queue_ (happen h s)) ≤ S (length (queue_ s)))%nat.
Proof.
  assert (∀ a t, queue_ (connect a t) = queue_ t) as Hc.
  { intros a t. pose proof (connect_carried a t) as E. unfold carried in E. by injection E. }
  destruct h as [a e|]; cbn [happen].
  - unfold raise_. destruct (_ =? 0); [lia|]. set (e' := marked _ e). cbv zeta.
    assert (length (queue_ (enqueue a e' (want e' s)).1) ≤ S (length (queue_ s)))%nat as H.
    { unfold enqueue. cbn. destruct (_ <=? _); [|cbn; rewrite length_app; cbn; lia].
      destruct (last (queue_ s)) as [b|] eqn:El; [|cbn; lia]. apply last_Some in El as [q Eq].
      case_bool_decide; cbn; rewrite ?Eq, ?removelast_last, ?length_app; cbn; lia. }
    destruct (enqueue _ _ _) as [s' more]. cbn [fst] in H. destruct (_ || _); [done|]. by rewrite Hc.
  - unfold link_down. cbn. destruct (stopped_ s); cbn; lia.
Qed.
Lemma happenings_queue hs : ∀ s, (length (queue_ (foldl (λ s h, happen h s) s hs)) ≤ length hs + length (queue_ s))%nat.
Proof.
  induction hs as [|h hs IH]; intros s; cbn [foldl]; [cbn; lia|]. pose proof (IH (happen h s)). pose proof (happen_queue h s). cbn. lia.
Qed.
Lemma send_loop_enough f1 : ∀ f2 script s, (length (queue_ s) + raised script ≤ f1)%nat → (length (queue_ s) + raised script ≤ f2)%nat →
  send_loop f1 script s = send_loop f2 script s.
Proof.
  induction f1 as [|f1 IH]; intros f2 script s H1 H2.
  - destruct (queue_ s) as [|e q] eqn:E; [|cbn in H1; lia]. destruct f2; cbn; by rewrite ?E.
  - destruct f2 as [|f2]; [destruct (queue_ s) as [|e q] eqn:E; [cbn; by rewrite E|cbn in H2; lia]|].
    cbn [send_loop]. destruct (queue_ s) as [|e q] eqn:E; [done|]. destruct (negb _); [done|].
    destruct script as [|[hs|] script]; [|pose proof (happenings_queue hs (done_ (Sent e) (put_queue q s)))|done];
      cbn in H1, H2; try cbn in H; apply IH; cbn; unfold raised in *; cbn in *; lia.
Qed.

(** C35: A remote event sink.  Whatever events are offered, whatever the link does, and
    whatever sending brings about before it returns -- further events for the same
    sink, the end of the link -- what was sent and what waits is, in order, what the
    filters wanted, but for records whose place is taken by one that says records were
    lost; not more than fifty wait; if no such record was made, nothing is missing; and
    when a link comes up to which nothing happens, all that waited is sent. *)
Theorem remote_sink_delivers (node : text) (l : list sink_event) :
  let s := sink_run (new_sink node) l in
  digest (wanted s) (sent_of (outs s) ++ queue_ s) ∧ len (queue_ s) ≤ queue_limit ∧
  (Forall (λ e, ¬ is_lost e) (sent_of (outs s) ++ queue_ s) → sent_of (outs s) ++ queue_ s = wanted s) ∧
  (stopped_ s = false → ∀ a, let s' := link_up [] a s in
     queue_ s' = [] ∧ sent_of (outs s') = sent_of (outs s) ++ queue_ s).
Proof.
  intros s. destruct (run_sink_ok l (new_sink node) (new_sink_ok node)) as [D L]. fold s in D, L.
  split; [done|]. split; [done|]. split; [intros H; by apply digest_whole|].
  intros Hs a. unfold link_up, send_events. cbn [stopped_ conn_ sending_ put_link]. rewrite Hs.
  assert (sending_ s = false) as -> by by apply run_sending. cbv zeta.
  apply (loop_drains _ (put_sending true (put_link true false s))); [done|]. cbn. lia.
Qed.

Definition some_event : Event := blank (mkEventId 4 7) (Entity.make_string Entity.circuit (word "DMC-0")).
Definition somewhere : Around := mkAround (mkTm 124 1 29 23 59 58) 0 true true.
Lemma remote_sink_delivers_witness :
  let f := set_filter {[mkEventId 4 7]} [] true no_filter in
  let s := sink_run (new_sink (word "GROK")) (SFilter 1 f :: replicate 52 (SLog [] somewhere some_event)) in
  len (queue_ s) ≤ 50 ∧ last (ev_id <$> queue_ s) = Some lost_id ∧ queue_ (link_up [] somewhere s) = [].
Proof.
  cbv zeta. set (f := set_filter {[mkEventId 4 7]} [] true no_filter).
  destruct (remote_sink_delivers (word "GROK") (SFilter 1 f :: replicate 52 (SLog [] somewhere some_event))) as (_ & H & _ & D).
  split; [exact H|]. split; [vm_compute; reflexivity|]. destruct (D ltac:(vm_compute; reflexivity) somewhere) as [E _]. exact E.
Defined.

(** ** Event lists *)

Lemma read_digits_app ds rest v : Forall (λ c, isdigit c = true) ds → 0 ≤ v → foldl digit_val v ds ≤ 100000 →
  (∀ c t, rest = c :: t → isdigit c = false) → read_digits v (ds ++ rest) = Ok (foldl digit_val v ds, rest).
Proof.
  intros Hd. revert v. induction Hd as [|c ds Hc Hds IH]; intros v Hv Hm Hr; cbn [app foldl].
  - destruct rest as [|c t]; [done|]. cbn. by rewrite (Hr c t).
  - cbn. rewrite Hc. cbn in Hm. assert (0 ≤ digit_val v c) as Hp by (unfold digit_val; unfold isdigit in Hc; lia).
    assert (∀ l w, Forall (λ c, isdigit c = true) l → 0 ≤ w → w ≤ foldl digit_val w l) as Hmono.
    { clear. induction l as [|c l IH]; intros w H Hw; [done|]. apply Forall_cons in H as [Hc H]. cbn.
      unfold isdigit in Hc. etransitivity; [|apply IH; [done|]]; unfold digit_val; lia. }
    pose proof (Hmono ds (digit_val v c) Hds Hp). change (v * 10 + (Types.code c - 48)) with (v * 10 + (Types.code c - 48)).
    replace (v * 10 + (Types.code c - 48)) with (digit_val v c) by (unfold digit_val; lia).
    destruct (Z.ltb_spec 100000 (digit_val v c)); [lia|]. by apply IH.
Qed.
Lemma read_number v rest : 0 ≤ v ≤ 100000 → (∀ c t, rest = c :: t → isdigit c = false) →
  read_uint (print_uint v ++ rest) = Ok (true, v, rest).
Proof.
  intros Hv Hr. unfold read_uint. pose proof (print_uint_val v ltac:(lia)) as E.
  rewrite read_digits_app by (try apply print_uint_digit; rewrite ?E; done || lia). rewrite E. cbn [mbind result_bind].
  destruct (print_uint_nonempty v) as (c & s & ->). rewrite bool_decide_eq_false_2; [done|].
  intros H. apply (f_equal length) in H. rewrite length_app in H. cbn in H. lia.
Qed.

Definition run_ok (r : Z * Z * Z) : Prop := let '(c, lo, hi) := r in 0 ≤ c < 512 ∧ 0 ≤ lo ≤ hi ∧ hi ≤ 31.
Lemma parse_codes c lo hi : run_ok (c, lo, hi) → ∀ have,
  parse_item (Some c) (print_uint lo ++ (if hi =? lo then [] else word "-" ++ print_uint hi)) = Ok (c, lo, hi) ∧
  parse_item have (print_uint c ++ word "." ++ print_uint lo ++ (if hi =? lo then [] else word "-" ++ print_uint hi)) = Ok (c, lo, hi).
Proof.
  intros (Hc & Hl & Hh) have. set (tail := if hi =? lo then [] else word "-" ++ print_uint hi).
  assert (∀ x t, tail = x :: t → isdigit x = false ∧ x ≠ "."%char) as Ht.
  { unfold tail. intros x t. destruct (hi =? lo); [done|]. by intros [= <- _]. }
  assert (match tail with "-"%char :: t => '(d, hi', t) ← read_uint t; if negb d || (hi' <=? lo) then Throw InvalidArgument else Ok (lo, hi', t)
          | _ => Ok (lo, lo, tail) end = Ok (lo, hi, [])) as Er.
  { unfold tail. destruct (Z.eqb_spec hi lo) as [->|Hne]; [done|]. cbn [app word String.list_ascii_of_string].
    rewrite <-(app_nil_r (print_uint hi)), read_number by (done || lia). cbn [mbind result_bind negb orb].
    by rewrite (proj2 (Z.leb_gt hi lo)) by lia. }
  split; unfold parse_item.
  - rewrite read_number by (lia || intros x t E; by apply (Ht x t)). cbn [mbind result_bind].
    assert (∀ (X : result (Z * bool * Z * text)) Y, match tail with "."%char :: t => Y t | _ => X end = X) as Hd.
    { intros X Y. destruct tail as [|x t] eqn:E; [done|]. destruct (Ht x t eq_refl) as [_ Hx].
      destruct x as [[] [] [] [] [] [] [] []]; done. }
    rewrite Hd. cbn [mbind result_bind]. rewrite Er. cbn [mbind result_bind].
    cbn. by rewrite (proj2 (Z.ltb_ge 31 hi)) by lia.
  - rewrite read_number by (try lia; intros x t [= <- _]; done). cbn [mbind result_bind app word String.list_ascii_of_string].
    rewrite (proj2 (Z.leb_gt 512 c)) by lia. rewrite read_number by (lia || intros x t E; by apply (Ht x t)). cbn [mbind result_bind].
    rewrite Er. cbn [mbind result_bind]. cbn. by rewrite (proj2 (Z.ltb_ge 31 hi)) by lia.
Qed.

(** Splitting a joined list gives its items, and reading them the ranges. *)
Definition no_comma (s : text) : Prop := Forall (λ c, c ≠ ","%char) s.
Lemma split_no_comma s cur : no_comma s → split_commas cur s = [cur ++ s].
Proof.
  intros H. revert cur. induction H as [|c s Hc Hs IH]; intros cur; cbn; [by rewrite app_nil_r|].
  rewrite bool_decide_eq_false_2 by done. rewrite IH. by rewrite <-app_assoc.
Qed.
Lemma split_item s rest cur : no_comma s → split_commas cur (s ++ ","%char :: rest) = (cur ++ s) :: split_commas [] rest.
Proof.
  intros H. revert cur. induction H as [|c s Hc Hs IH]; intros cur; cbn; [by rewrite app_nil_r|].
  rewrite bool_decide_eq_false_2 by done. rewrite IH. by rewrite <-app_assoc.
Qed.
Lemma split_joined l : Forall no_comma l → l ≠ [] → split_commas [] (comma_joined l) = l.
Proof.
  induction 1 as [|t l Ht Hl IH]; intros Hn; [done|]. destruct l as [|u l]; [by apply split_no_comma|].
  change (comma_joined (t :: u :: l)) with (t ++ ","%char :: comma_joined (u :: l)). rewrite split_item by done. by rewrite IH.
Qed.

Lemma digits_no_comma v : 0 ≤ v → no_comma (print_uint v).
Proof. intros H. apply (Forall_impl _ _ _ (print_uint_digit v H)). intros c Hc ->. done. Qed.
Lemma run_no_comma before r : run_ok r → no_comma (run_text before r).
Proof.
  destruct r as [[c lo] hi]. intros (Hc & Hl & Hh). unfold run_text, no_comma.
  assert (∀ v, 0 ≤ v → Forall (λ c, c ≠ ","%char) (print_uint v)) as Hd by exact digits_no_comma.
  apply Forall_app. split; [|apply Forall_app; split; [apply Hd; lia|]].
  - case_bool_decide; [constructor|]. apply Forall_app. split; [apply Hd; lia|by repeat constructor].
  - destruct (hi =? lo); [constructor|]. apply Forall_app. split; [by repeat constructor|apply Hd; lia].
Qed.
Lemma run_text_digit before r : run_ok r → ∃ c t, run_text before r = c :: t ∧ isdigit c = true.
Proof.
  destruct r as [[c lo] hi]. intros (Hc & Hl & Hh). unfold run_text.
  assert (∀ v rest, 0 ≤ v → ∃ c t, print_uint v ++ rest = c :: t ∧ isdigit c = true) as Hd.
  { intros v rest Hv. destruct (print_uint_nonempty v) as (x & t & E). pose proof (print_uint_digit v Hv) as H. rewrite E in *.
    apply Forall_cons in H as [H _]. by exists x, (t ++ rest). }
  case_bool_decide; [apply Hd; lia|]. rewrite <-app_assoc. apply Hd. lia.
Qed.
Lemma parse_run before r : run_ok r → parse_item before (run_text before r) = Ok r.
Proof.
  destruct r as [[c lo] hi]. intros Hr. unfold run_text. case_bool_decide as Hb.
  - subst before. by apply (parse_codes c lo hi Hr None).
  - rewrite <-app_assoc. by apply (parse_codes c lo hi Hr before).
Qed.
Definition ranges (rs : list (Z * Z * Z)) : EventSet := ⋃ (map (λ r, event_range r.1.1 r.1.2 r.2) rs).
Lemma parse_runs rs : Forall run_ok rs → ∀ before ret, parse_items before (runs_text before rs) ret = Ok (ret ∪ ranges rs).
Proof.
  induction 1 as [|r rs Hr Hrs IH]; intros before ret; cbn [runs_text parse_items].
  - f_equal. unfold ranges. cbn. set_solver.
  - destruct (run_text_digit before r Hr) as (x & t & E & _). rewrite E. cbv iota beta. rewrite <-E, parse_run by done.
    destruct r as [[c lo] hi]. cbn [mbind result_bind fst]. rewrite IH. f_equal. unfold ranges. cbn. set_solver.
Qed.

(** The runs of a list cover it. *)
Lemma range_elem e c lo hi : e ∈ event_range c lo hi ↔ cls e = c ∧ lo ≤ code e ≤ hi.
Proof.
  unfold event_range. rewrite elem_of_list_to_set, list_elem_of_fmap. split.
  - intros (k & -> & H%elem_of_seqZ). cbn. lia.
  - intros [Hc He]. exists (code e). split; [destruct e; cbn in *; by subst|]. apply elem_of_seqZ. lia.
Qed.
Definition id_ok (i : EventId) : Prop := 0 ≤ cls i < 512 ∧ 0 ≤ code i ≤ 31.
Lemma runs_ok l : Forall id_ok l → Forall run_ok (runs l).
Proof.
  induction 1 as [|i l [Hc Hd] Hl IH]; cbn [runs]; [done|].
  assert (run_ok (cls i, code i, code i)) as Hi by (repeat split; lia).
  destruct (runs l) as [|[[c lo] hi] rs]; [by constructor|]. apply Forall_cons in IH as [(Hr & Hlo & Hhi) IH].
  destruct (_ && _) eqn:E; [|by constructor; [|constructor]]. constructor; [|done]. repeat split; lia.
Qed.
Lemma range_one i : event_range (cls i) (code i) (code i) = {[i]}.
Proof.
  apply set_eq. intros e. rewrite range_elem, elem_of_singleton. destruct e as [a b], i as [a' b']. cbn.
  split; [intros [-> H]; f_equal; lia|intros [= -> ->]; lia].
Qed.
Lemma range_more i hi : code i < hi → event_range (cls i) (code i) hi = {[i]} ∪ event_range (cls i) (code i + 1) hi.
Proof.
  intros H. apply set_eq. intros e. rewrite elem_of_union, elem_of_singleton, !range_elem. destruct e as [a b], i as [a' b']. cbn in *.
  split; [intros [-> He]|intros [[= -> ->]|[-> He]]; lia]. destruct (decide (b = b')) as [->|]; [by left|right; lia].
Qed.
Lemma runs_cover l : Forall id_ok l → ranges (runs l) = list_to_set l.
Proof.
  induction 1 as [|i l Hi Hl IH]; [done|]. cbn [runs list_to_set]. rewrite <-IH. pose proof (runs_ok l Hl) as Hr.
  destruct (runs l) as [|[[c lo] hi] rs]; [unfold ranges; cbn; by rewrite range_one|]. apply Forall_cons in Hr as [(Hc & Hlo & Hhi) _].
  destruct ((c =? cls i) && (lo =? code i + 1)) eqn:E; unfold ranges; cbn; [|by rewrite range_one].
  assert (c = cls i ∧ lo = code i + 1) as [-> ->] by lia. rewrite range_more by lia. by rewrite assoc_L by apply _.
Qed.

Lemma order_set s : list_to_set (in_order s) = s.
Proof. unfold in_order. rewrite (merge_sort_Permutation id_leb (elements s)). apply list_to_set_elements_L. Qed.
Lemma format_read_back s : set_Forall id_ok s → parse_events (filter_format (mkFilter s ∅)) = Ok s.
Proof.
  intros Hs. assert (Forall id_ok (in_order s)) as Ho.
  { apply Forall_forall. intros i Hi. apply Hs. rewrite <-(order_set s). by apply elem_of_list_to_set. }
  pose proof (runs_ok _ Ho) as Hr. pose proof (runs_cover _ Ho) as Hc. rewrite order_set in Hc.
  unfold filter_format. cbn [plain_ qualified_]. change (elements (∅ : gset (text * EventId))) with (@nil (text * EventId)).
  cbn [merge_sort merge_sort_aux map]. rewrite app_nil_r. set (rs := runs (in_order s)) in *.
  assert (Forall no_comma (runs_text None rs)) as Hn.
  { generalize (None : option Z). clear -Hr. induction Hr as [|r rs Hr Hrs IH]; intros b; constructor; [by apply run_no_comma|apply IH]. }
  unfold parse_events. destruct (decide (rs = [])) as [E|Hne].
  - rewrite E in *. rewrite <-Hc. done.
  - assert (is_word (comma_joined (runs_text None rs)) "*.*" = false) as ->.
    { destruct rs as [|r rs]; [done|]. apply Forall_cons in Hr as [Hr _]. destruct (run_text_digit None r Hr) as (x & t & E & Hx).
      apply bool_decide_eq_false_2. cbn [runs_text comma_joined]. rewrite E. by destruct (runs_text _ rs); intros [= -> _]. }
    rewrite split_joined; [|done|by destruct rs]. rewrite parse_runs by done. rewrite Hc. f_equal. set_solver.
Qed.

(** *** Filters hold only what is raised here *)

Lemma filterable_ok : set_Forall (λ i, id_ok i ∧ ¬ 31 ≤ cls i < 480) filterable_events.
Proof.
  assert (Forall (λ d, id_ok (e_id d)) known_events) as H.
  { refine (Forall_impl _ _ _ (proj1 (forallb_True (λ d, (0 <=? cls (e_id d)) && (cls (e_id d) <? 512) && (0 <=? code (e_id d)) && (code (e_id d) <=? 31)) known_events) _) _);
      [vm_compute; reflexivity|]. intros d Hd. apply Is_true_true in Hd. unfold id_ok. lia. }
  intros i Hi. apply elem_of_list_to_set, list_elem_of_filter in Hi as [Hc Hi]. apply list_elem_of_fmap in Hi as (d & -> & Hd).
  split; [by apply (proj1 (Forall_forall _ _) H)|]. apply Is_true_true in Hc. lia.
Qed.
#[local] Opaque filterable_events.

Definition FilterOk (f : EventFilter) : Prop := plain_ f ⊆ filterable_events ∧ set_Forall (λ q, q.2 ∈ filterable_events) (qualified_ f).
Lemma no_filter_ok : FilterOk no_filter.
Proof. split; [apply empty_subseteq|]. by intros q H%elem_of_empty. Qed.
Lemma set_filter_ok es key on f : FilterOk f → FilterOk (set_filter es key on f).
Proof.
  intros [Hp Hq]. unfold set_filter. assert (es ∩ filterable_events ⊆ filterable_events) as Hi by apply intersection_subseteq_r.
  case_bool_decide; destruct on; (split; [|try exact Hq]); try exact Hp; cbn [plain_ qualified_].
  - by apply union_least.
  - by apply subseteq_difference_l.
  - intros q [H'|(i & -> & H')%elem_of_map]%elem_of_union; [by apply Hq|]. by apply Hi.
  - intros q [H' _]%elem_of_difference. by apply Hq.
Qed.
Lemma contains_filterable e f : FilterOk f → contains e f = true → ev_id e ∈ filterable_events.
Proof.
  intros [Hp Hq] H. unfold contains in H. apply orb_true_iff in H as [H|H]; apply bool_decide_eq_true in H; [by apply Hp|by apply (Hq _ H)].
Qed.
(** C36: Event lists as the operator writes and reads them.  Whatever is set in a filter
    and cleared, it only ever holds events that this node can raise, and when nothing in
    it is for one entity alone, its listing -- classes once, runs of codes as ranges --
    is accepted as an event list and names exactly the events of the filter. *)
Theorem events_listed (sets : list (EventSet * text * bool)) :
  let f := foldl (λ f s, set_filter s.1.1 s.1.2 s.2 f) no_filter sets in
  plain_ f ⊆ filterable_events ∧
  (qualified_ f = ∅ → parse_events (filter_format f) = Ok (plain_ f)).
Proof.
  intros f. assert (FilterOk f) as [Hp Hq].
  { subst f. generalize no_filter_ok. generalize no_filter. induction sets as [|s l IH]; intros f H; [done|]. by apply IH, set_filter_ok. }
  split; [exact Hp|].
  intros E. destruct f as [p q]. cbn in E, Hp |- *. subst q. apply format_read_back. intros i Hi%Hp. by apply filterable_ok.
Qed.
(** ** The logger *)

(** What happens to it once it is built. *)
Inductive logger_event :=
| LLocal (around : text → list (option (list happening)) * Around) (e : Event)
| LRemote (e : Event)
| LMonitor (events : EventSet).
Definition logger_step (g : EventLogger) (v : logger_event) : EventLogger :=
  match v with LLocal around e => logevent around e g | LRemote e => logremoteevent e g | LMonitor es => register_monitor es g end.
Definition LoggerOk (g : EventLogger) : Prop :=
  map_Forall (λ _, FilterOk) (local_ g) ∧ Forall (λ w, ev_id w.2 ∈ filterable_events) (written g).
Lemma offer_local_ok t e g : LoggerOk g → LoggerOk (offer_local t e g).
Proof.
  intros [Hl Hw]. unfold offer_local. destruct (local_ g !! t) as [f|] eqn:E; [|done].
  destruct (contains e f) eqn:Hc; [|done]. split; [exact Hl|]. apply Forall_app. split; [exact Hw|].
  apply Forall_singleton. exact (contains_filterable e f (Hl _ _ E) Hc).
Qed.
Lemma offer_ok around e k g : LoggerOk g → LoggerOk (offer around e k g).
Proof. destruct k as [t|n]; [apply offer_local_ok|]. cbn. by destruct (remote_ g !! n). Qed.
Lemma foldl_ok {A B} (P : A → Prop) (f : A → B → A) l : (∀ a b, P a → P (f a b)) → ∀ a, P a → P (foldl f a l).
Proof. intros H. induction l as [|b l IH]; intros a Ha; [done|]. by apply IH, H. Qed.
Lemma logger_step_ok v g : LoggerOk g → LoggerOk (logger_step g v).
Proof.
  intros H. destruct v as [around e|e|es]; cbn [logger_step].
  - apply (foldl_ok LoggerOk); [|done]. intros a k Ha. by apply offer_ok.
  - apply (foldl_ok LoggerOk); [|done]. intros a w Ha. destruct (w.2); [by apply offer_local_ok|done].
  - unfold register_monitor. destruct (local_ g !! _) as [f|] eqn:E; [|done]. destruct H as [Hl Hw].
    split; [|done]. apply map_Forall_insert_2; [exact (set_filter_ok _ _ _ _ (Hl _ _ E))|done].
Qed.
Lemma add_logging_ok c g g' : add_logging c g = Ok g' → LoggerOk g → LoggerOk g'.
Proof.
  intros H [Hl Hw]. unfold add_logging in H. destruct (_ <? _); [by injection H as <-|].
  apply bind_Ok in H as (es & _ & H). destruct (negb _).
  - destruct (match remote_ g !! sink_node c with Some _ => _ | None => _ end) as [s made]. by injection H as <-.
  - assert (∃ f made, FilterOk f ∧ match local_ g !! l_type c with Some f => (f, []) | None => (no_filter, [inl (l_type c)]) end
              = (f, made : list (text + text))) as (f & made & Hf & E).
    { destruct (local_ g !! l_type c) as [f|] eqn:E; eexists _, _; (split; [|reflexivity]); [exact (Hl _ _ E)|exact no_filter_ok]. }
    rewrite E in H. injection H as <-. split; [|exact Hw]. apply map_Forall_insert_2; [|exact Hl].
    destruct es; [by apply set_filter_ok|exact Hf].
Qed.
Lemma new_logger_ok l g : new_logger l = Ok g → LoggerOk g.
Proof.
  assert (∀ l g g', add_all l g = Ok g' → LoggerOk g → LoggerOk g') as Ha.
  { clear. induction l as [|c l IH]; intros g g' H Hg; cbn in H; [by injection H as <-|].
    apply bind_Ok in H as (g1 & H1 & H). apply (IH _ _ H). by apply (add_logging_ok c g). }
  destruct l as [|c l]; cbn [new_logger]; intros H.
  - injection H as <-. split; [|done]. apply map_Forall_singleton. apply set_filter_ok, no_filter_ok.
  - apply (Ha _ _ _ H). split; [apply map_Forall_empty|done].
Qed.
(** A record of a class from 31 to 479 is never written to a local sink, not
    even one that another node sends: the local filters are asked as well. *)
Lemma foreign_never_written l g vs : new_logger l = Ok g →
  Forall (λ w, ¬ 31 ≤ cls (ev_id w.2) < 480) (written (foldl logger_step g vs)).
Proof.
  intros H. assert (LoggerOk (foldl logger_step g vs)) as [_ Hw].
  { apply (foldl_ok LoggerOk); [|exact (new_logger_ok l g H)]. intros a v Ha. by apply logger_step_ok. }
  refine (Forall_impl _ _ _ Hw _). intros w Hi. exact (proj2 (filterable_ok _ Hi)).
Qed.

#[local] Transparent filterable_events.
Definition some_sets : list (EventSet * text * bool) :=
  [(filterable_events, [], true); ({[mkEventId 4 8]}, [], false); ({[mkEventId 4 7]}, word "circuit", true); ({[mkEventId 4 7]}, word "circuit", false)].
Lemma events_listed_witness :
  let f := foldl (λ f s, set_filter s.1.1 s.1.2 s.2 f) no_filter some_sets in
  parse_events (filter_format f) = Ok (plain_ f).
Proof.
  cbv zeta. refine (proj2 (events_listed some_sets) _). apply (bool_decide_unpack _). vm_compute. exact Logic.I.
Defined.
