(* ===== verification/Adjacency.v ===== *)
(** What the routing circuits of both kinds share: [class Adjacency] of
    [routing/adjacency.h] and [src/routing/adjacency.cc], the circuit counters
    of [routing/circuit.h], and what a circuit asks of its [BaseRouter]. *)

From S2P Require Import Prelude Types RoutingPackets RouteTable Float.
#[local] Open Scope Z_scope.

(** [AdjacencyInfo]. *)
Record AdjacencyInfo := mkInfo {
  i_id : Z; i_ntype : Z; i_blksize : Z; i_tiver : Version; i_timer : Z; i_priority : Z; i_rphase : Z }.
Definition no_info : AdjacencyInfo := mkInfo 0 UNKNOWN MTU (mkVersion 0 0 0) 0 0 4.

(** [Adjacency]: what the router keeps of it, what the circuit learned, the
    listen time, whether it is up and its listen timer. *)
Record Adjacency := mkAdjacency {
  j_adj : adjacency; j_info : AdjacencyInfo; j_t4 : double; j_up : bool; j_timer : option double }.

Definition PTP_T3MULT : double := fdiv (f_of_Z 21) (f_of_Z 10).

(** The listen time, from the neighbour's hello timer where it sent one. *)
Definition listen_time (t3 : double) (t : Z) : double := fmul (if t =? 0 then t3 else f_of_Z t) PTP_T3MULT.

(** [Adjacency::Adjacency] on circuit [id], whose base class has cost [cost];
    [ptr] is where [make_shared] put it. *)
Definition new_adjacency (ptr id cost : Z) (t3 : double) (i : AdjacencyInfo) : Adjacency :=
  mkAdjacency (mkAdj ptr (i_id i) (i_ntype i) (Some id) cost) i (listen_time t3 (i_timer i)) false None.

(** An adjacency that is up, with its listen timer; and one that is down. *)
Definition listening (j : Adjacency) (t : option double) : Adjacency :=
  mkAdjacency (j_adj j) (j_info j) (j_t4 j) true t.
Definition fallen (j : Adjacency) : Adjacency :=
  mkAdjacency (j_adj j) (j_info j) (j_t4 j) false None.
(** Its listen timer restarted. *)
Definition rearmed (j : Adjacency) : Adjacency :=
  mkAdjacency (j_adj j) (j_info j) (j_t4 j) (j_up j) (Some (j_t4 j)).

(** [CircuitCounters], less the traffic that forwarding counts; [ever_up] is
    the member function. *)
Record CircuitCounters := mkCounters { cir_down : Z; init_fail : Z; adj_downs : Z; peak_adj : Z; ever_up : bool }.
Definition count_adj_down (k : CircuitCounters) : CircuitCounters :=
  mkCounters (cir_down k) (init_fail k) (u64 (adj_downs k + 1)) (peak_adj k) (ever_up k).

(** What a circuit asks of its [BaseRouter]. *)
Record parent := mkParent {
  p_nodeid : Z; p_ntype : Z; p_phase : Z; p_tiver : Version; p_maxnodes : Z; p_maxarea : Z }.

(** The short form of a long header. *)
Definition short_of (l : LongData.t) : ShortData.t :=
  ShortData.set_payload (LongData.payload l) (ShortData.set_visit (LongData.visit l)
  (ShortData.set_srcnode (LongData.srcnode l) (ShortData.set_dstnode (LongData.dstnode l)
  (ShortData.set_rts (LongData.rts l) (ShortData.set_rqr (LongData.rqr l) ShortData.new))))).
