(* ===== verification/Timers.v ===== *)
(** The timer wheel: [include/decnet/common/timers.h] and
    [src/common/timers.cc], with [Timeout::dispatch].

    A timer is a number.  A slot is the timers linked into its circular queue,
    from its front to its back; the change count of a timer is 32 bits wide.
    The wheel is driven by a sequence of calls, each under the wheel's lock;
    what [tick] hands to the node's work queue is its result. *)

From S2P Require Import Prelude Float.
#[local] Open Scope Z_scope.

Record wheel := mkWheel { slots : list (list Z); pos : nat; revs : Z → Z }.

Definition revcount (t : Z) (w : wheel) : Z := revs w t.
Definition bump (t : Z) (r : Z → Z) : Z → Z := λ t', if decide (t' = t) then u32 (r t + 1) else r t'.

(** [JIFFY], the wheel of a [Node], and the constructor, whose span in milliseconds is
    32 bits wide. *)
Definition JIFFY : Z := 100.
Definition NODE_SPAN : Z := 3600.
Definition wheel_slots (tick maxtime : Z) : Z := Z.quot (u32 (maxtime * 1000) + tick) tick.
Definition wheel_size (tick maxtime : Z) : nat := Z.to_nat (wheel_slots tick maxtime).
Definition new_wheel (tick maxtime : Z) : wheel := mkWheel (replicate (wheel_size tick maxtime) []) 0 (λ _, 0).

(** [Cque::unlink], [Cque::linked] and [TimerWheel::stop]. *)
Definition unlink (t : Z) (w : wheel) : wheel :=
  mkWheel (map (filter (λ t', t' ≠ t)) (slots w)) (pos w) (bump t (revs w)).
Definition linked (t : Z) (w : wheel) : bool := existsb (λ s, bool_decide (t ∈ s)) (slots w).
Definition stop : Z → wheel → wheel := unlink.

(** The number of ticks [start] waits: at least one. *)
Definition ticks_of (tick ms : Z) : Z :=
  let n := u64 (Z.quot ms tick) in if n =? 0 then 1 else n.

(** [TimerWheel::start (t, ms)]. *)
Definition start (tick t ms : Z) (w : wheel) : result wheel :=
  let n := ticks_of tick ms in
  if len (slots w) <=? n then Throw OverflowError
  else
    let slot := ((pos w + Z.to_nat n) mod length (slots w))%nat in
    let w := unlink t w in
    Ok (mkWheel (alter (λ s, s ++ [t]) slot (slots w)) (pos w) (revs w)).

(** [start (t, seconds)]. *)
Definition milliseconds (seconds : double) : Z := f_to_Z (fmul seconds (f_of_Z 1000)).
Definition start_seconds (tick t : Z) (seconds : double) : wheel → result wheel :=
  start tick t (milliseconds seconds).

(** Can a node's wheel hold a timer of so many seconds? *)
Definition within_span (seconds : double) : bool :=
  ticks_of JIFFY (milliseconds seconds) <? wheel_slots JIFFY NODE_SPAN.

Lemma within_span_start t seconds w : length (slots w) = wheel_size JIFFY NODE_SPAN →
  within_span seconds = true ↔ is_Some (try_result (start_seconds JIFFY t seconds w)).
Proof.
  intros Hl. unfold within_span, start_seconds, start.
  replace (len (slots w)) with (wheel_slots JIFFY NODE_SPAN) by (unfold len; rewrite Hl; reflexivity).
  rewrite Z.ltb_lt. destruct (Z.leb_spec (wheel_slots JIFFY NODE_SPAN) (ticks_of JIFFY (milliseconds seconds))); simpl.
  - split; [lia|by intros []].
  - split; [by eexists|lia].
Qed.

(** [TimerWheel::tick]: the [Timeout] items posted, a timer and its change
    count each, in order. *)
Fixpoint expire (ts : list Z) (w : wheel) : wheel * list (Z * Z) :=
  match ts with
  | [] => (w, [])
  | t :: ts =>
      let w := unlink t w in
      let '(w', posted) := expire ts w in
      (w', (t, revcount t w) :: posted)
  end.
Definition tick (w : wheel) : wheel * list (Z * Z) :=
  let p := ((pos w + 1) mod length (slots w))%nat in
  expire (default [] (slots w !! p)) (mkWheel (slots w) p (revs w)).

(** [Timeout::dispatch]: is the timer told? *)
Definition deliver (item : Z * Z) (w : wheel) : bool := revcount item.1 w =? item.2.

(** ** Sequences of calls *)

Inductive call := Start (t ms : Z) | Stop (t : Z) | Tick.
Definition call_step (tick_ms : Z) (st : wheel * list (Z * Z)) (c : call) : wheel * list (Z * Z) :=
  let '(w, posted) := st in
  match c with
  | Start t ms => (match start tick_ms t ms w with Ok w' => w' | Throw _ => w end, posted)
  | Stop t => (stop t w, posted)
  | Tick => let '(w', more) := tick w in (w', posted ++ more)
  end.
Definition run_calls (tick_ms : Z) (cs : list call) (w : wheel) : wheel * list (Z * Z) :=
  foldl (call_step tick_ms) (w, []) cs.

(** ** What a timer service promises

    The timers that are running, each with the tick it is due at, in the order
    they were started. *)
Record clock := mkClock { now : nat; pending : list (Z * nat) }.
Definition cancel (t : Z) (c : clock) : clock := mkClock (now c) (filter (λ e, e.1 ≠ t) (pending c)).
Definition arm (span : nat) (t : Z) (n : Z) (c : clock) : option clock :=
  if (Z.of_nat span <=? n) then None
  else Some (mkClock (now c) (pending (cancel t c) ++ [(t, (now c + Z.to_nat n)%nat)])).
Definition advance (c : clock) : clock * list Z :=
  let n := S (now c) in
  (mkClock n (filter (λ e, e.2 ≠ n) (pending c)), (filter (λ e, e.2 = n) (pending c)).*1).

Definition clock_step (span : nat) (tick_ms : Z) (st : clock * list Z) (c : call) : clock * list Z :=
  let '(k, fired) := st in
  match c with
  | Start t ms => (default k (arm span t (ticks_of tick_ms ms) k), fired)
  | Stop t => (cancel t k, fired)
  | Tick => let '(k', more) := advance k in (k', fired ++ more)
  end.
Definition run_clock (span : nat) (tick_ms : Z) (cs : list call) : clock * list Z :=
  foldl (clock_step span tick_ms) (mkClock 0 [], []) cs.

(** ** The wheel keeps the promise *)

Lemma ticks_of_pos tk ms : 0 < ticks_of tk ms.
Proof. unfold ticks_of, u64. destruct (Z.eqb_spec (Z.quot ms tk mod 18446744073709551616) 0); [lia|].
  pose proof (Z.mod_pos_bound (Z.quot ms tk) 18446744073709551616). lia. Qed.

Section Wheel.
Context (span : nat) (Hspan : (0 < span)%nat).

(** The timers of slot [i]. *)
Definition in_slot (i : nat) (c : clock) : list Z := (filter (λ e, e.2 mod span = i)%nat (pending c)).*1.

Record turns (w : wheel) (c : clock) : Prop := {
  t_slots : slots w = map (λ i, in_slot i c) (seq 0 span);
  t_pos : pos w = (now c mod span)%nat;
  t_due : Forall (λ e, now c < e.2 < now c + span)%nat (pending c);
  t_once : NoDup (pending c).*1;
}.

Lemma filter_fst (f : Z → Prop) `{∀ x, Decision (f x)} (l : list (Z * nat)) :
  filter f l.*1 = (filter (λ e, f e.1) l).*1.
Proof. induction l as [|[t d] l IH]; [done|]. rewrite fmap_cons, !filter_cons. simpl. rewrite IH. by destruct (decide (f t)). Qed.
Lemma filter_ext_in {A} (P Q : A → Prop) `{∀ x, Decision (P x)} `{∀ x, Decision (Q x)} (l : list A) :
  Forall (λ x, P x ↔ Q x) l → filter P l = filter Q l.
Proof. induction 1 as [|x l Hx _ IH]; [done|]. rewrite !filter_cons, IH. repeat case_decide; [by f_equal|tauto|tauto|done]. Qed.
Lemma filter_swap {A} (P Q : A → Prop) `{∀ x, Decision (P x)} `{∀ x, Decision (Q x)} (l : list A) :
  filter P (filter Q l) = filter Q (filter P l).
Proof. rewrite !list_filter_filter. apply list_filter_iff. tauto. Qed.

Lemma cancel_slot t i c : in_slot i (cancel t c) = filter (λ t', t' ≠ t) (in_slot i c).
Proof. unfold in_slot. rewrite filter_fst. simpl. f_equal. apply filter_swap. Qed.

Lemma fst_filter_sublist (P : Z * nat → Prop) `{∀ x, Decision (P x)} l : (filter P l).*1 `sublist_of` l.*1.
Proof. apply (fmap_sublist fst), sublist_filter. Qed.

Lemma forall_filter {A} (P Q : A → Prop) `{∀ x, Decision (P x)} l : Forall Q l → Forall Q (filter P l).
Proof. rewrite !Forall_forall. intros HQ x [_ Hx]%list_elem_of_filter. by apply HQ. Qed.
Lemma nodup_fst_inj (l : list (Z * nat)) e e' : NoDup l.*1 → e ∈ l → e' ∈ l → e.1 = e'.1 → e = e'.
Proof.
  induction l as [|x l IH]; [by intros _ ?%not_elem_of_nil|]. rewrite fmap_cons, NoDup_cons, !elem_of_cons.
  intros [Hx Hl] [->|He] [->|He'] E; auto; exfalso; apply Hx.
  - rewrite E. by apply list_elem_of_fmap_2.
  - rewrite <- E. by apply list_elem_of_fmap_2.
Qed.

Lemma unlink_turns t w c : turns w c → turns (unlink t w) (cancel t c).
Proof.
  intros [Hs Hp Hd Ho]. constructor; simpl.
  - rewrite Hs, map_map. apply map_ext. intros i. symmetry. apply cancel_slot.
  - done.
  - by apply forall_filter.
  - eapply sublist_NoDup; [exact Ho|apply fst_filter_sublist].
Qed.

Lemma turns_length w c : turns w c → length (slots w) = span.
Proof. intros [-> _ _ _]. by rewrite length_map, length_seq. Qed.

Lemma alter_map_seq {A} (f : A → A) (g : nat → A) j n : (j < n)%nat →
  alter f j (map g (seq 0 n)) = map (λ i, if decide (i = j) then f (g i) else g i) (seq 0 n).
Proof.
  intros Hj. apply list_eq. intros i. destruct (decide (i = j)) as [->|Hn].
  - rewrite list_lookup_alter_eq, !list_lookup_fmap, lookup_seq_lt by done. simpl. by rewrite decide_True.
  - rewrite list_lookup_alter_ne, !list_lookup_fmap by done.
    destruct (seq 0 n !! i) as [k|] eqn:E; [|done]. apply lookup_seq in E as [-> _]. simpl. by rewrite decide_False.
Qed.

Lemma start_turns tk t ms w c : turns w c →
  match start tk t ms w, arm span t (ticks_of tk ms) c with
  | Ok w', Some c' => turns w' c'
  | Throw e, None => e = OverflowError
  | _, _ => False
  end.
Proof.
  intros H. unfold start, arm. pose proof (turns_length w c H) as Hl. rewrite Hl.
  replace (len (slots w)) with (Z.of_nat span) by (unfold len; by rewrite Hl).
  destruct (Z.leb_spec (Z.of_nat span) (ticks_of tk ms)) as [|Hn]; [done|].
  pose proof (ticks_of_pos tk ms) as Hpos. set (n := Z.to_nat (ticks_of tk ms)).
  assert (1 ≤ n < span)%nat as Hb by (unfold n; lia). destruct (unlink_turns t w c H) as [Us Up Ud Uo].
  assert (((pos w + n) mod span)%nat = ((now c + n) mod span)%nat) as Ei.
  { destruct H as [_ -> _ _]. by rewrite Nat.Div0.add_mod_idemp_l. }
  rewrite Ei. constructor.
  - simpl. simpl in Us. rewrite Us, alter_map_seq by (apply Nat.mod_upper_bound; lia).
    apply map_ext. intros i. unfold in_slot. simpl pending. rewrite filter_app, fmap_app, filter_cons, filter_nil. cbn [snd].
    destruct (decide (i = ((now c + n) mod span)%nat)) as [->|Hne]; [by rewrite decide_True|].
    rewrite (decide_False (P := ((now c + n) mod span)%nat = i)) by congruence. by rewrite app_nil_r.
  - apply Up.
  - simpl. apply Forall_app. split; [exact Ud|]. constructor; [simpl; lia|constructor].
  - simpl. rewrite fmap_app. apply NoDup_app. split; [exact Uo|]. split; [|apply NoDup_singleton].
    intros x Hx Ht%list_elem_of_singleton. apply list_elem_of_fmap in Hx as (e & -> & Hx).
    apply list_elem_of_filter in Hx as [Hx _]. done.
Qed.

(** The slot the hand comes to holds exactly the timers that are due. *)
Lemma due_slot w c : turns w c → default [] (slots w !! (S (now c) mod span)%nat) = (advance c).2.
Proof.
  intros [Hs _ Hd _]. rewrite Hs, list_lookup_fmap, lookup_seq_lt by (apply Nat.mod_upper_bound; lia). simpl.
  unfold in_slot. f_equal. apply filter_ext_in. eapply Forall_impl; [exact Hd|].
  intros [t d] Hb. simpl in *. split; [|by intros ->].
  intros Hm. assert (d mod span = S (now c) mod span)%nat as E by exact Hm.
  replace d with (S (now c) + (d - S (now c)))%nat in E by lia.
  destruct (decide (d = S (now c))); [done|]. exfalso.
  rewrite <- Nat.Div0.add_mod_idemp_l in E. pose proof (Nat.mod_upper_bound (S (now c)) span).
  destruct (decide (S (now c) mod span + (d - S (now c)) < span)%nat) as [Hlt|Hge].
  - rewrite (Nat.mod_small _ _ Hlt) in E. lia.
  - rewrite <- (Nat.sub_add span (S (now c) mod span + (d - S (now c)))) in E by lia.
    rewrite <- Nat.Div0.add_mod_idemp_r, Nat.Div0.mod_same, Nat.add_0_r in E.
    rewrite Nat.mod_small in E by lia. lia.
Qed.

Lemma expire_fst ts w : (expire ts w).2.*1 = ts.
Proof. revert w. induction ts as [|t ts IH]; intros w; [done|]. simpl. specialize (IH (unlink t w)).
  destruct (expire ts (unlink t w)) as [w' p]. cbn [snd] in *. rewrite fmap_cons. by f_equal. Qed.
Lemma expire_turns ts w c : turns w c → turns (expire ts w).1 (foldl (λ c t, cancel t c) c ts).
Proof. revert w c. induction ts as [|t ts IH]; intros w c H; [done|]. simpl.
  specialize (IH (unlink t w) (cancel t c) (unlink_turns t w c H)).
  by destruct (expire ts (unlink t w)) as [w' p]. Qed.
Lemma cancel_all ts c :
  foldl (λ c t, cancel t c) c ts = mkClock (now c) (filter (λ e, e.1 ∉ ts) (pending c)).
Proof.
  revert c. induction ts as [|t ts IH]; intros c; simpl.
  - destruct c as [n p]. simpl. f_equal.
    induction p as [|e p IH]; [done|]. rewrite filter_cons, decide_True by apply not_elem_of_nil. by f_equal.
  - rewrite IH. unfold cancel. simpl. f_equal. rewrite list_filter_filter. apply list_filter_iff. intros x.
    rewrite not_elem_of_cons. tauto.
Qed.

Lemma tick_turns w c : turns w c →
  turns (tick w).1 (advance c).1 ∧ (tick w).2.*1 = (advance c).2.
Proof.
  intros H. unfold tick. rewrite (turns_length w c H). pose proof (due_slot w c H) as Hdue.
  assert (((pos w + 1) mod span)%nat = (S (now c) mod span)%nat) as Ep.
  { destruct H as [_ -> _ _]. rewrite Nat.Div0.add_mod_idemp_l. by rewrite Nat.add_1_r. }
  rewrite Ep, Hdue. rewrite expire_fst. split; [|done].
  pose proof (expire_turns (advance c).2 w c H) as [Es _ Ed Eo]. rewrite cancel_all in Es, Ed, Eo.
  assert (filter (λ e, e.1 ∉ (advance c).2) (pending c) = filter (λ e, e.2 ≠ S (now c)) (pending c)) as Ef.
  { apply filter_ext_in, Forall_forall. intros e He. simpl.
    assert (e.1 ∈ (filter (λ e, e.2 = S (now c)) (pending c)).*1 ↔ e.2 = S (now c)) as Hi; [|by rewrite Hi].
    split.
    - intros (e' & Ee & [He' Hp]%list_elem_of_filter)%list_elem_of_fmap.
      assert (e = e') as ->; [|done]. destruct H as [_ _ _ Ho].
      by apply (nodup_fst_inj (pending c)).
    - intros Ee. apply list_elem_of_fmap. exists e. split; [done|]. by apply list_elem_of_filter. }
  assert (∀ ts v p, slots (expire ts (mkWheel (slots v) p (revs v))).1 = slots (expire ts v).1 ∧
                    pos (expire ts (mkWheel (slots v) p (revs v))).1 = p) as Hx.
  { induction ts as [|t ts IH]; intros v p; [done|]. simpl. specialize (IH (unlink t v) p).
    unfold unlink in *. simpl in *. by destruct (expire ts _), (expire ts _). }
  destruct (Hx (advance c).2 w (S (now c) mod span)%nat) as [Hx1 Hx2]. constructor.
  - rewrite Hx1, Es. apply map_ext. intros i. unfold in_slot. cbn [pending]. by rewrite Ef.
  - exact Hx2.
  - cbn [pending now] in Ed. rewrite Ef in Ed. apply Forall_forall. intros e He.
    rewrite Forall_forall in Ed. specialize (Ed e He). apply list_elem_of_filter in He as [Hn _].
    change (now (advance c).1) with (S (now c)). lia.
  - cbn [pending] in Eo. rewrite Ef in Eo. exact Eo.
Qed.

Lemma step_turns tk w posted c fired call :
  turns w c → fired = posted.*1 →
  let '(w', posted') := call_step tk (w, posted) call in
  let '(c', fired') := clock_step span tk (c, fired) call in
  turns w' c' ∧ fired' = posted'.*1.
Proof.
  intros H ->. destruct call as [t ms|t|]; simpl.
  - pose proof (start_turns tk t ms w c H) as Hs.
    destruct (start tk t ms w), (arm span t (ticks_of tk ms) c); simpl; naive_solver.
  - split; [by apply unlink_turns|done].
  - destruct (tick_turns w c H) as [H1 H2]. destruct (tick w) as [w' more]. simpl in *.
    rewrite fmap_app, H2. done.
Qed.

Lemma run_turns tk cs w posted c fired :
  turns w c → fired = posted.*1 →
  let '(w', posted') := foldl (call_step tk) (w, posted) cs in
  let '(c', fired') := foldl (clock_step span tk) (c, fired) cs in
  turns w' c' ∧ fired' = posted'.*1.
Proof.
  revert w posted c fired. induction cs as [|call cs IH]; intros w posted c fired H Hf; [done|].
  pose proof (step_turns tk w posted c fired call H Hf) as Hs. cbn [foldl].
  destruct (call_step tk (w, posted) call) as [w1 p1], (clock_step span tk (c, fired) call) as [c1 f1].
  destruct Hs as [H1 H2]. exact (IH w1 p1 c1 f1 H1 H2).
Qed.

Lemma new_turns (r : Z → Z) : turns (mkWheel (replicate span []) 0 r) (mkClock 0 []).
Proof.
  constructor; simpl; [|by rewrite Nat.Div0.mod_0_l|constructor|constructor].
  apply list_eq. intros i. rewrite list_lookup_fmap. destruct (decide (i < span)%nat) as [Hi|Hi].
  - rewrite lookup_replicate_2, lookup_seq_lt by done. done.
  - rewrite (lookup_ge_None_2 (replicate _ _)), (lookup_ge_None_2 (seq _ _)); [done| |]; rewrite ?length_seq, ?length_replicate; lia.
Qed.
(** *** Change counts *)

Lemma bump_other t t' r : t ≠ t' → bump t r t' = r t'.
Proof. intros. unfold bump. by rewrite decide_False. Qed.
Lemma bump_same t r : bump t r t = u32 (r t + 1).
Proof. unfold bump. by rewrite decide_True. Qed.

Lemma expire_revs ts w t : NoDup ts →
  revcount t (expire ts w).1 = (if decide (t ∈ ts) then u32 (revcount t w + 1) else revcount t w) ∧
  ∀ r, (t, r) ∈ (expire ts w).2 → r = u32 (revcount t w + 1) ∧ t ∈ ts.
Proof.
  revert w. induction ts as [|t' ts IH]; intros w Hn.
  { split; [by rewrite decide_False by apply not_elem_of_nil|]. by intros r ?%not_elem_of_nil. }
  apply NoDup_cons in Hn as [Hn Hd]. simpl. destruct (IH (unlink t' w) Hd) as [H1 H2].
  destruct (expire ts (unlink t' w)) as [w' p]. cbn [fst snd] in *. unfold revcount in *. simpl in H1, H2.
  destruct (decide (t = t')) as [->|Hne].
  - rewrite bump_same in *. rewrite decide_False in H1 by done. rewrite decide_True by apply list_elem_of_here.
    split; [done|]. intros r [E|Hr]%elem_of_cons; [injection E as ->; split; [done|apply list_elem_of_here]|].
    by destruct (H2 r Hr).
  - rewrite bump_other in * by done. split.
    + rewrite H1. apply decide_ext. rewrite elem_of_cons. tauto.
    + intros r [E|Hr]%elem_of_cons; [congruence|]. destruct (H2 r Hr). split; [done|by right].
Qed.

(** Does a call start or stop [t]? *)
Definition touches (tk t : Z) (c : call) : Prop :=
  match c with
  | Start t' ms => t' = t ∧ ticks_of tk ms < Z.of_nat span
  | Stop t' => t' = t
  | Tick => False
  end.

Definition idle (t : Z) (c : clock) : Prop := t ∉ (pending c).*1.

Lemma idle_advance t c : idle t c → (t ∉ (advance c).2) ∧ idle t (advance c).1.
Proof.
  unfold idle, advance. simpl. intros H. split; intros Hin; apply H.
  all: apply list_elem_of_fmap in Hin as (e & -> & [_ He]%list_elem_of_filter); by apply list_elem_of_fmap_2.
Qed.
Lemma idle_cancel t t' c : idle t c → idle t (cancel t' c).
Proof.
  unfold idle. simpl. intros H Hin. apply H.
  apply list_elem_of_fmap in Hin as (e & -> & [_ He]%list_elem_of_filter). by apply list_elem_of_fmap_2.
Qed.

(** One call changes the count at most once, and only a start or a stop does
    while the timer is not running. *)
Lemma call_revs tk w posted c call t :
  turns w c →
  ∃ n, 0 ≤ n ≤ 1 ∧ revcount t (call_step tk (w, posted) call).1 = (if n =? 0 then revcount t w else u32 (revcount t w + 1)) ∧
    (touches tk t call → n = 1) ∧
    (idle t c → ¬ touches tk t call → n = 0 ∧ idle t (clock_step span tk (c, []) call).1).
Proof.
  intros H. destruct call as [t' ms|t'|]; simpl.
  - pose proof (start_turns tk t' ms w c H) as Hs. unfold start, arm in *.
    replace (len (slots w)) with (Z.of_nat span) in * by (unfold len; by rewrite (turns_length w c H)).
    destruct (Z.leb_spec (Z.of_nat span) (ticks_of tk ms)) as [Hb|Hb].
    + exists 0. simpl. split_and!; [lia..|done|lia|done].
    + destruct (decide (t' = t)) as [->|Hne].
      * exists 1. unfold revcount. simpl. rewrite bump_same. split_and!; [lia..|done|done|]. tauto.
      * exists 0. unfold revcount. simpl. rewrite bump_other by done. split_and!; [lia..|done|tauto|].
        intros Hi _. split; [done|]. unfold idle. simpl. rewrite fmap_app. simpl. rewrite elem_of_app, list_elem_of_singleton.
        intros [Hin|?]; [|done]. by apply (idle_cancel t t' c Hi).
  - destruct (decide (t' = t)) as [->|Hne].
    + exists 1. unfold revcount. simpl. rewrite bump_same. split_and!; [lia..|done|done|]. tauto.
    + exists 0. unfold revcount. simpl. rewrite bump_other by done. split_and!; [lia..|done|done|].
      intros Hi _. split; [done|by apply idle_cancel].
  - unfold tick. pose proof (due_slot w c H) as Hd. rewrite (turns_length w c H).
    assert (((pos w + 1) mod span)%nat = (S (now c) mod span)%nat) as Ep.
    { destruct H as [_ -> _ _]. rewrite Nat.Div0.add_mod_idemp_l. by rewrite Nat.add_1_r. }
    rewrite Ep, Hd. assert (NoDup (advance c).2) as Hn.
    { unfold advance. eapply sublist_NoDup; [apply (t_once w c H)|apply fst_filter_sublist]. }
    destruct (expire_revs (advance c).2 (mkWheel (slots w) (S (now c) mod span)%nat (revs w)) t Hn) as [H1 _].
    destruct (expire _ _) as [w' p]. cbn [fst snd] in *. change (revcount t (mkWheel _ _ (revs w))) with (revcount t w) in H1.
    exists (if decide (t ∈ (advance c).2) then 1 else 0). split_and!; [by case_decide..| |done|].
    + rewrite H1. by case_decide.
    + intros Hi _. destruct (idle_advance t c Hi) as [Hi1 Hi2]. rewrite decide_False by done. done.
Qed.
Lemma u32_idemp a n : u32 (u32 a + n) = u32 (a + n).
Proof. unfold u32. by rewrite Zplus_mod_idemp_l. Qed.

(** The changes that a run makes, fewer than the count can hold. *)
Lemma run_revs tk t cs w posted c :
  turns w c → idle t c →
  ∃ n, 0 ≤ n ≤ len cs ∧
    revcount t (foldl (call_step tk) (w, posted) cs).1 = (if n =? 0 then revcount t w else u32 (revcount t w + n)) ∧
    (n = 0 ↔ Forall (λ call, ¬ touches tk t call) cs).
Proof.
  assert (∀ cs w posted c, turns w c → ∃ n, 0 ≤ n ≤ len cs ∧
    revcount t (foldl (call_step tk) (w, posted) cs).1 = (if n =? 0 then revcount t w else u32 (revcount t w + n)) ∧
    (Exists (touches tk t) cs → 0 < n) ∧ (idle t c → Forall (λ call, ¬ touches tk t call) cs → n = 0)) as Hrun.
  { clear cs w posted c. intros cs. induction cs as [|call cs IH]; intros w posted c H.
    { exists 0. split_and!; [done..| |done]. by intros ?%Exists_nil. }
    destruct (call_revs tk w posted c call t H) as (m & Hm & Hr & Ht & Hi).
    pose proof (step_turns tk w posted c posted.*1 call H eq_refl) as Hs. cbn [foldl].
    assert ((clock_step span tk (c, posted.*1) call).1 = (clock_step span tk (c, []) call).1) as Ec.
    { destruct call; simpl; done. }
    destruct (call_step tk (w, posted) call) as [w1 p1].
    destruct (clock_step span tk (c, posted.*1) call) as [c1 f1]. destruct Hs as [H1 _]. cbn [fst] in Ec, Hr.
    destruct (IH w1 p1 c1 H1) as (n & Hn & Hr' & Ht' & Hi'). exists (m + n). rewrite len_cons. split_and!; [lia..| | |].
    - rewrite Hr', Hr. assert (m = 0 ∨ m = 1) as [-> | ->] by lia; simpl (_ =? 0); cbv iota.
      + by rewrite Z.add_0_l.
      + replace (1 + n =? 0) with false by lia. destruct (Z.eqb_spec n 0) as [->|]; [done|].
        rewrite u32_idemp. f_equal. lia.
    - intros [Hx|Hx]%Exists_cons; [specialize (Ht Hx); lia|specialize (Ht' Hx); lia].
    - intros Hid [Hf1 Hf2]%Forall_cons. destruct (Hi Hid Hf1) as [-> Hid']. rewrite <- Ec in Hid'.
      rewrite (Hi' Hid' Hf2). done. }
  intros H Hid. destruct (Hrun cs w posted c H) as (n & Hn & Hr & Ht & Hi). exists n. split_and!; [lia..|done|].
  split; [|by apply Hi]. intros ->. apply Forall_Exists_neg. intros Hx. specialize (Ht Hx). lia.
Qed.

(** What a tick posts carries the count as it then is, and its timer no longer
    runs. *)
Lemma posted_current w c t r : turns w c → (t, r) ∈ (tick w).2 →
  revcount t (tick w).1 = r ∧ r = u32 r ∧ idle t (advance c).1.
Proof.
  intros H. unfold tick. pose proof (due_slot w c H) as Hd. rewrite (turns_length w c H).
  assert (((pos w + 1) mod span)%nat = (S (now c) mod span)%nat) as Ep.
  { destruct H as [_ -> _ _]. rewrite Nat.Div0.add_mod_idemp_l. by rewrite Nat.add_1_r. }
  rewrite Ep, Hd. assert (NoDup (advance c).2) as Hn.
  { unfold advance. eapply sublist_NoDup; [apply (t_once w c H)|apply fst_filter_sublist]. }
  intros Hin. destruct (expire_revs (advance c).2 (mkWheel (slots w) (S (now c) mod span)%nat (revs w)) t Hn) as [H1 H2].
  destruct (H2 r Hin) as [-> Ht]. rewrite H1, decide_True by done. split_and!; [done|..].
  - unfold u32. by rewrite Z.mod_mod.
  - unfold idle, advance in *. simpl in *. intros Hx.
    apply list_elem_of_fmap in Ht as (e & Ee & [He1 He2]%list_elem_of_filter).
    apply list_elem_of_fmap in Hx as (e' & Ee' & [Hx1 Hx2]%list_elem_of_filter).
    assert (e = e') as <-; [|done]. apply (nodup_fst_inj (pending c)); [apply (t_once w c H)|done..|congruence].
Qed.
End Wheel.

(** C19: The timer wheel keeps the promise of an ordered clock. Over any sequence
    of starts, stops and ticks on a wheel of any size, the timers whose expiry
    is posted are, in order, those that a list of deadlines gives: each timer
    that was started and not stopped or restarted expires once, after the number
    of ticks asked for (at least one), and timers due at the same tick expire in
    the order they were started, whatever the position of the hand. *)
Theorem wheel_refines (tick_ms maxtime : Z) (cs : list call) :
  (0 < wheel_size tick_ms maxtime)%nat →
  (run_calls tick_ms cs (new_wheel tick_ms maxtime)).2.*1 = (run_clock (wheel_size tick_ms maxtime) tick_ms cs).2.
Proof.
  intros Hs. unfold run_calls, run_clock, new_wheel.
  pose proof (run_turns _ Hs tick_ms cs _ [] _ [] (new_turns _ Hs (λ _, 0)) eq_refl) as H.
  destruct (foldl (call_step tick_ms) _ cs), (foldl (clock_step _ tick_ms) _ cs). symmetry. apply H.
Qed.

Definition example_calls : list call :=
  [Start 1 300; Start 2 300; Tick; Start 3 200; Start 1 200; Start 4 0; Stop 9; Tick; Start 5 400000; Tick; Tick].
Lemma wheel_refines_witness :
  (0 < wheel_size 100 10)%nat ∧ (run_calls 100 example_calls (new_wheel 100 10)).2.*1 = [4; 2; 3; 1] ∧
  (run_calls 100 example_calls (new_wheel 100 10)).2.*1 = (run_clock (wheel_size 100 10) 100 example_calls).2.
Proof.
  assert (0 < wheel_size 100 10)%nat as Hs by (apply (bool_decide_unpack _); vm_compute; exact Logic.I).
  split; [exact Hs|]. split; [vm_compute; reflexivity|]. exact (wheel_refines 100 10 example_calls Hs).
Defined.

(** A stale timeout is dropped. An expiry that a tick has posted to the work
    queue is delivered, if it is delivered after further calls (fewer than the
    change count can hold), exactly when none of those calls stopped the timer
    or started it again. *)
Theorem stale_timeout_dropped (tick_ms maxtime t r : Z) (before after : list call) :
  (0 < wheel_size tick_ms maxtime)%nat → len after < 4294967296 →
  let w := (run_calls tick_ms before (new_wheel tick_ms maxtime)).1 in
  (t, r) ∈ (tick w).2 →
  deliver (t, r) (run_calls tick_ms after (tick w).1).1 = true ↔
  Forall (λ c, ¬ touches (wheel_size tick_ms maxtime) tick_ms t c) after.
Proof.
  intros Hs Hl w Hin. unfold w, run_calls, new_wheel in *. clear w.
  pose proof (run_turns _ Hs tick_ms before _ [] _ [] (new_turns _ Hs (λ _, 0)) eq_refl) as H.
  destruct (foldl (call_step tick_ms) _ before) as [w p], (foldl (clock_step _ tick_ms) _ before) as [c f].
  destruct H as [H _]. cbn [fst] in *. destruct (posted_current _ Hs w c t r H Hin) as (E1 & E2 & Hi).
  destruct (tick_turns _ Hs w c H) as [H1 _].
  destruct (run_revs _ Hs tick_ms t after _ [] _ H1 Hi) as (n & Hn & E & Hz).
  rewrite <- Hz. unfold deliver. cbn [fst snd]. rewrite E, E1, Z.eqb_eq.
  destruct (Z.eqb_spec n 0) as [->|Hnz]; [done|]. split; [|done]. intros Er. rewrite E2 in Er at 2.
  unfold u32 in Er. pose proof (Z.div_mod (r + n) 4294967296). pose proof (Z.div_mod r 4294967296). nia.
Qed.

Lemma stale_timeout_dropped_witness :
  let w := (run_calls 100 [Start 7 100] (new_wheel 100 10)).1 in
  deliver (7, 2) (run_calls 100 [Start 8 100; Tick] (tick w).1).1 = true ∧
  deliver (7, 2) (run_calls 100 [Start 8 100; Start 7 500] (tick w).1).1 = false.
Proof.
  assert (0 < wheel_size 100 10)%nat as Hs by (apply (bool_decide_unpack _); vm_compute; exact Logic.I).
  assert ((7, 2) ∈ (tick (run_calls 100 [Start 7 100] (new_wheel 100 10)).1).2) as Hin
    by (apply (bool_decide_unpack _); vm_compute; exact Logic.I).
  pose proof (λ cs H, stale_timeout_dropped 100 10 7 2 [Start 7 100] cs Hs H Hin) as H.
  split.
  - apply (H [Start 8 100; Tick]); [done|]. repeat constructor; unfold touches; intros []; discriminate.
  - apply not_true_is_false. rewrite (H [Start 8 100; Start 7 500]) by done.
    intros [_ [Hx _]%Forall_cons]%Forall_cons. apply Hx. split; [done|]. vm_compute. reflexivity.
Defined.
