(* ===== verification/Ptp.v ===== *)
(** Point to point routing circuits: [class PtpCircuit] of
    [include/decnet/routing/ptp.h] and [src/routing/ptp.cc], with what it does
    to the neighbour's [Adjacency].

    A circuit is one record; [dispatch] is one work item, and what the circuit
    does to the datalink, the router, the event log and the node queue is its
    log.  The type of a state is the name [DN_MY_STATE] gives it.

    Starting a timer throws when the time does not fit on the wheel.  The node
    loop catches what a state action throws, and the state is then as it was:
    an action that throws returns no next state. *)

From S2P Require Import Prelude Buffer Types Codec Layout Indexed RoutingPackets RouteTable Float Adjacency Timers.
#[local] Open Scope Z_scope.

(** ** Data *)

(** The work items of a circuit. *)
Inductive work :=
| CircuitStart | CircuitStop | CircuitDown | Timeout | DlStatus (is_up : bool) | Received (packet : Bytes).

Inductive output :=
| DlOpen | DlClose | DlRestart
| DlSend (p : RoutingPacket)
| DlSendRaw (frame : Bytes)
| PostStatusUp                                   (* a [DlStatus] queued for itself *)
| Event (code : Z) (adjacent_node : option Z) (reason : option Z) (packet_beginning : Bytes)
| VerReject                                      (* the executor counter *)
| AdjUp (a : adjacency) | AdjDown (a : adjacency)
| Forward (p : ShortData.t)
| RoutingMsg (p : RoutingPacket) (from : adjacency) (circuit_cost : Z).

Inductive pstate := St_ha | St_ds | St_ri | St_rv | St_ru.
#[export] Instance pstate_eq_dec : EqDecision pstate.
Proof. solve_decision. Defined.

(** The members the constructor sets once. *)
Record circuit_conf := mkConf {
  cf_id : Z; cf_parent : parent; cf_start_works : bool; cf_cost : Z; cf_t3 : double;
  cf_verify : Bytes; cf_expect_verify : Bytes; cf_request_verify : bool }.

Record circuit := mkCircuit {
  conf : circuit_conf;
  c_state : pstate;
  info : AdjacencyInfo;
  adj : option Adjacency;
  initmsg : PtpInit.t;
  hellomsg : PtpHello.t;
  timer : option double;
  counters : CircuitCounters;
  outs : list output;
}.

Definition with_c_state (v : pstate) (c : circuit) : circuit :=
  mkCircuit (conf c) v (info c) (adj c) (initmsg c) (hellomsg c) (timer c) (counters c) (outs c).
Definition with_info (v : AdjacencyInfo) (c : circuit) : circuit :=
  mkCircuit (conf c) (c_state c) v (adj c) (initmsg c) (hellomsg c) (timer c) (counters c)
    (outs c).
Definition with_adj (v : option Adjacency) (c : circuit) : circuit :=
  mkCircuit (conf c) (c_state c) (info c) v (initmsg c) (hellomsg c) (timer c) (counters c)
    (outs c).
Definition with_initmsg (v : PtpInit.t) (c : circuit) : circuit :=
  mkCircuit (conf c) (c_state c) (info c) (adj c) v (hellomsg c) (timer c) (counters c) (outs c).
Definition with_hellomsg (v : PtpHello.t) (c : circuit) : circuit :=
  mkCircuit (conf c) (c_state c) (info c) (adj c) (initmsg c) v (timer c) (counters c) (outs c).
Definition with_timer (v : option double) (c : circuit) : circuit :=
  mkCircuit (conf c) (c_state c) (info c) (adj c) (initmsg c) (hellomsg c) v (counters c)
    (outs c).
Definition with_counters (v : CircuitCounters) (c : circuit) : circuit :=
  mkCircuit (conf c) (c_state c) (info c) (adj c) (initmsg c) (hellomsg c) (timer c) v (outs c).
Definition with_outs (v : list output) (c : circuit) : circuit :=
  mkCircuit (conf c) (c_state c) (info c) (adj c) (initmsg c) (hellomsg c) (timer c)
    (counters c) v.

Definition own (c : circuit) : parent := cf_parent (conf c).
Definition say (o : output) (c : circuit) : circuit := with_outs (outs c ++ [o]) c.
Definition stop_timer : circuit → circuit := with_timer None.

(** What a state action returns; [k] is the rest of it, when the timer could be
    started. *)
Definition outcome : Type := circuit * option pstate.
Definition starting (t : double) (k : circuit → outcome) (c : circuit) : outcome :=
  if within_span t then k (with_timer (Some t) c) else (c, None).

Definition running (c : circuit) : bool := bool_decide (c_state c = St_ru).
Definition nice_substate (c : circuit) : Z :=
  match c_state c with St_ha | St_ds => 10 | St_ri | St_rv => 0 | St_ru => -1 end.

(** ** Construction *)

Definition clear_neighbour (c : circuit) : circuit :=
  with_adj None (with_info (mkInfo 0 UNKNOWN MTU (mkVersion 0 0 0) 0 0 0) c).

(** [PtpCircuit::PtpCircuit] with [--t3], [--cost] and [--verify]. *)
Definition new_circuit (id : Z) (p : parent) (start_works : bool) (t3 cost : Z) (verify : Bytes) : circuit :=
  let t3 := if t3 =? 0 then f_of_Z 60 else f_of_Z t3 in
  let conf := mkConf id p start_works (if cost =? 0 then 4 else cost) t3 [] verify
                (negb (bool_decide (verify = []))) in
  clear_neighbour (mkCircuit conf St_ha no_info None PtpInit.new PtpHello.new None
                     (mkCounters 0 0 0 0 false) []).

Definition build_initmsg (c : circuit) : circuit :=
  with_initmsg
    (PtpInit.set_tiver (p_tiver (own c))
    (PtpInit.set_blksize MTU
    (PtpInit.set_verif (cf_request_verify (conf c))
    (PtpInit.set_timer (u16 (f_to_unsigned (cf_t3 (conf c))))
    (PtpInit.set_ntype (p_ntype (own c))
    (PtpInit.set_srcnode (p_nodeid (own c)) PtpInit.new)))))) c.

(** ** The adjacency *)

(** [Adjacency::Adjacency]. *)
Definition make_adjacency (ptr : Z) (c : circuit) : Adjacency :=
  new_adjacency ptr (cf_id (conf c)) (cf_cost (conf c)) (cf_t3 (conf c)) (info c).

(** [Adjacency::up], [down] and [alive] of the circuit's adjacency; a Phase II
    neighbour has no listen timer. *)
Definition adjacency_up (j : Adjacency) (k : circuit → outcome) (c : circuit) : outcome :=
  if j_up j then k c
  else
    let up t := with_adj (Some (listening j t)) c in
    if i_ntype (j_info j) =? PHASE2 then k (say (AdjUp (j_adj j)) (up None))
    else if within_span (j_t4 j) then k (say (AdjUp (j_adj j)) (up (Some (j_t4 j))))
    else (up None, None).
Definition alive (k : circuit → outcome) (c : circuit) : outcome :=
  match adj c with
  | Some j =>
      if i_ntype (j_info j) =? PHASE2 then k c
      else if within_span (j_t4 j) then
        k (with_adj (Some (rearmed j)) c)
      else (c, None)
  | None => k c
  end.
Definition adjacency_down (j : Adjacency) (c : circuit) : circuit :=
  if negb (j_up j) then c
  else say (AdjDown (j_adj j))
    (with_adj (Some (fallen j))
      (with_counters (count_adj_down (counters c)) c)).

(** ** Events and restarting *)

Definition routeevent (code : Z) (reason : option Z) (beginning : Bytes) (c : circuit) : circuit :=
  say (Event code (if i_id (info c) =? 0 then None else Some (i_id (info c))) reason beginning) c.

Definition down (c : circuit) : circuit :=
  with_adj None (match adj c with Some j => adjacency_down j c | None => c end).

Definition count_restart (c : circuit) : circuit :=
  let k := counters c in
  if running c then
    with_counters (mkCounters (u64 (cir_down k + 1)) (init_fail k) (adj_downs k) (peak_adj k) (ever_up k)) c
  else if nice_substate c =? 0 then
    with_counters (mkCounters (cir_down k) (u64 (init_fail k + 1)) (adj_downs k) (peak_adj k) (ever_up k)) c
  else c.

(** [restart (why)]: the next state is "ds". *)
Definition restart (c : circuit) : outcome :=
  let c := count_restart c in
  let c := if running c then down c else c in
  let c := stop_timer (clear_neighbour c) in
  (say (if cf_start_works (conf c) then DlRestart else PostStatusUp) c, Some St_ds).
(** [restart (why, ev, reason)]. *)
Definition restart_event (code reason : Z) (c : circuit) : outcome :=
  restart (routeevent code (Some reason) [] c).
Definition halt (c : circuit) : outcome := (say DlClose (stop_timer c), Some St_ha).

Definition sync_lost : Z := 0.
Definition unexpected_packet_type : Z := 2.
Definition address_out_of_range : Z := 7.
Definition invalid_verification : Z := 9.
Definition listener_timeout : Z := 10.

(** ** The states

    Each is handed the work item and the packet [validate] decoded. *)

Definition dlsend (p : RoutingPacket) : circuit → circuit := say (DlSend p).

Definition up (k : circuit → outcome) (c : circuit) : outcome :=
  let n := counters c in
  let c := with_counters (mkCounters (cir_down n) (init_fail n) (adj_downs n) 1 true) c in
  let rest c := starting (cf_t3 (conf c)) k (routeevent 10 None [] c) in
  match adj c with Some j => adjacency_up j rest c | None => rest c end.

Definition check_src (src : Z) (c : circuit) : bool :=
  if i_rphase (info c) =? 4 then src =? i_id (info c)
  else Nodeid.tid src =? Nodeid.tid (i_id (info c)).
Definition own_src (c : circuit) : Z :=
  if i_rphase (info c) =? 4 then p_nodeid (own c) else Nodeid.make 0 (Nodeid.tid (p_nodeid (own c))).

Definition s0 (w : work) (c : circuit) : outcome :=
  match w with
  | CircuitStart | Timeout => (clear_neighbour (say DlOpen c), Some St_ds)
  | _ => (c, None)
  end.

Definition ds (w : work) (c : circuit) : outcome :=
  match w with
  | DlStatus true =>
      let c := build_initmsg (clear_neighbour c) in
      starting (cf_t3 (conf c)) (λ c, (c, Some St_ri)) (dlsend (PPtpInit (initmsg c)) c)
  | DlStatus false => restart_event 11 sync_lost c
  | CircuitDown => restart c
  | CircuitStop => halt (routeevent 9 None [] c)
  | _ => (c, None)
  end.

(** Is the address in an init one this node can have for a neighbour? *)
Definition out_of_range (p : parent) (init : PtpInit.t) : bool :=
  let area := Nodeid.area (PtpInit.srcnode init) in
  let both_l2 := (PtpInit.ntype init =? L2ROUTER) && (p_ntype p =? L2ROUTER) in
  let router := (p_ntype p =? L1ROUTER) || (p_ntype p =? L2ROUTER) in
  (router && (p_maxnodes p <? Nodeid.tid (PtpInit.srcnode init))) ||
  (both_l2 && negb ((1 <=? area) && (area <=? p_maxarea p))) ||
  (negb both_l2 && negb (area =? Nodeid.area (p_nodeid p))).
Definition known_ntype (t : Z) : bool := (t =? ENDNODE) || (t =? L1ROUTER) || (t =? L2ROUTER).

Definition learn (init : PtpInit.t) (c : circuit) : circuit :=
  let c := with_info (mkInfo (PtpInit.srcnode init) (PtpInit.ntype init) (Z.min (PtpInit.blksize init) MTU)
                        (PtpInit.tiver init) (PtpInit.timer init) (i_priority (info c)) 4) c in
  with_hellomsg (PtpHello.set_testdata (hello_testdata 10)
                  (PtpHello.set_srcnode (p_nodeid (own c)) PtpHello.new)) c.

(** The neighbour's init message. *)
Definition ri_init (ptr : Z) (init : PtpInit.t) (c : circuit) : outcome :=
  if p_phase (own c) <? 4 then (c, None)
  else if negb (known_ntype (PtpInit.ntype init)) then restart_event 12 unexpected_packet_type c
  else if PtpInit.blo init then restart c
  else if negb (PtpInit.check init) then restart c
  else if out_of_range (own c) init then restart_event 12 address_out_of_range c
  else
    let c := learn init c in
    let c := if PtpInit.verif init then
               dlsend (PPtpVerify (PtpVerify.set_srcnode (own_src c)
                         (PtpVerify.set_fcnval (cf_verify (conf c)) PtpVerify.new))) c
             else c in
    let c := with_adj (Some (make_adjacency ptr c)) c in
    if cf_request_verify (conf c) then starting (cf_t3 (conf c)) (λ c, (c, Some St_rv)) c
    else up (λ c, (c, Some St_ru)) c.

Definition ri (ptr : Z) (w : work) (pkt : option RoutingPacket) (c : circuit) : outcome :=
  match w with
  | Timeout | CircuitDown => restart c
  | DlStatus u => if u then (c, None) else restart c
  | CircuitStop => halt (routeevent 9 None [] c)
  | _ =>
      match pkt with
      | Some (PPtpInit init) => ri_init ptr init c
      | Some (PPtpInit3 _) => restart c
      | Some (PPtpVerify _) => restart_event 12 unexpected_packet_type c
      | _ => (c, None)
      end
  end.

Definition rv (w : work) (pkt : option RoutingPacket) (c : circuit) : outcome :=
  match w with
  | Timeout | CircuitDown => restart c
  | DlStatus u => if u then (c, None) else restart c
  | CircuitStop => halt (routeevent 9 None [] c)
  | _ =>
      match pkt with
      | Some (PPtpVerify v) =>
          if negb (check_src (PtpVerify.srcnode v) c) then restart c
          else if negb (bool_decide (PtpVerify.fcnval v = cf_expect_verify (conf c))) then
            restart_event 6 invalid_verification (say VerReject c)
          else up (λ c, (c, Some St_ru)) c
      | _ => (c, None)
      end
  end.

Definition send_hello (c : circuit) : outcome :=
  if negb (running c) then (c, None)
  else starting (cf_t3 (conf c)) (λ c, (c, None)) (dlsend (PPtpHello (hellomsg c)) c).

(** A packet received in "ru". *)
Definition ru_packet (pkt : RoutingPacket) (c : circuit) : outcome :=
  match pkt with
  | PPtpHello h =>
      if negb (check_src (PtpHello.srcnode h) c) then restart c
      else if negb (PtpHello.testdata_valid h) then restart c
      else (c, None)
  | PPtpVerify v => if negb (check_src (PtpVerify.srcnode v) c) then restart c else (c, None)
  | PShortData sd => (say (Forward (ShortData.set_src (Some (cf_id (conf c))) sd)) c, None)
  | PPh4Routing _ _ | PPhaseIIIRouting _ =>
      (match adj c with Some j => say (RoutingMsg pkt (j_adj j) (cf_cost (conf c))) c | None => c end, None)
  | PLongData ld => (say (Forward (ShortData.set_src (Some (cf_id (conf c))) (short_of ld))) c, None)
  | _ => (c, None)
  end.

Definition ru (w : work) (pkt : option RoutingPacket) (c : circuit) : outcome :=
  match w with
  | Timeout => send_hello c
  | CircuitDown => restart c
  | DlStatus u => if u then (c, None) else restart c
  | CircuitStop => halt (down c)
  | _ =>
      match pkt with
      | Some p => alive (ru_packet p) c
      | None => (c, None)
      end
  end.

(** ** Dispatching *)

(** [validate]: the packet of a frame; [None] drops the item. *)
Definition validate (w : work) (c : circuit) : circuit * option (option RoutingPacket) :=
  match w with
  | Received [] => (c, None)
  | Received f =>
      match parse_frame f with
      | Some p => (c, Some (Some p))
      | None => (routeevent 4 None (take 6 f) c, None)
      end
  | _ => (c, Some None)
  end.

Definition set_state (r : outcome) : circuit :=
  match r.2 with Some s => with_c_state s r.1 | None => r.1 end.

(** The action of the current state. *)
Definition action (ptr : Z) (w : work) (pkt : option RoutingPacket) (c : circuit) : outcome :=
  match c_state c with
  | St_ha => s0 w c
  | St_ds => ds w c
  | St_ri => ri ptr w pkt c
  | St_rv => rv w pkt c
  | St_ru => ru w pkt c
  end.

(** [StateMachine::dispatch]. *)
Definition dispatch (ptr : Z) (w : work) (c : circuit) : circuit :=
  match validate w c with
  | (c, Some pkt) => set_state (action ptr w pkt c)
  | (c, None) => c
  end.

(** [PtpCircuit::timeout]: the circuit's own timer has expired, and is no
    longer running. *)
Definition timeout (ptr : Z) (c : circuit) : circuit := dispatch ptr Timeout (stop_timer c).

(** [Adjacency::timeout] and [PtpCircuit::adj_timeout]: the listen timer. *)
Definition adj_timeout (c : circuit) : circuit :=
  match adj c with
  | Some j =>
      let c := routeevent 8 (Some listener_timeout) [] (adjacency_down j c) in
      set_state (restart (with_adj None c))
  | None => c
  end.

(** ** What the layers above ask for *)

(** [PtpCircuit::send]: false when the packet cannot go. *)
Definition send (pkt : ShortData.t) (c : circuit) : circuit * bool :=
  if negb (running c) then (c, false)
  else if (i_ntype (info c) =? ENDNODE) && negb (ShortData.dstnode pkt =? i_id (info c)) then (c, false)
  else (dlsend (PShortData pkt) c, true).

Definition send_raw (frame : Bytes) (c : circuit) : circuit :=
  if negb (running c) then c else say (DlSendRaw frame) c.

Definition wants_updates (level : Z) (c : circuit) : bool :=
  let nt := i_ntype (info c) in
  if negb ((nt =? L1ROUTER) || (nt =? L2ROUTER)) then false
  else if level =? 2 then nt =? L2ROUTER else true.
Definition update_blksize (c : circuit) : Z := i_blksize (info c).
