(* ===== verification/PtpNeighbour.v ===== *)
(** What a point to point circuit tells the router: the adjacency comes up and
    goes down in turn, traffic passes only while it is up, and only a neighbour
    that this node may have ever comes up. *)

From S2P Require Import Prelude Buffer Types Codec RoutingPackets RouteTable Float Adjacency Timers Ptp.
#[local] Open Scope Z_scope.

(** ** Events *)

(** What can happen to a circuit: a work item (with the address the allocator
    would give an adjacency made by it), the expiry of its own timer or of the
    listen timer, a packet or an update to send. *)
Inductive event :=
| Item (ptr : Z) (w : work) | Expire (ptr : Z) | ListenExpire
| SendPkt (p : ShortData.t) | SendFrame (f : Bytes).

(** A timer that is not running does not expire. *)
Definition step (c : circuit) (e : event) : circuit :=
  match e with
  | Item ptr w => dispatch ptr w c
  | Expire ptr => match timer c with Some _ => timeout ptr c | None => c end
  | ListenExpire => match adj c ≫= j_timer with Some _ => adj_timeout c | None => c end
  | SendPkt p => (send p c).1
  | SendFrame f => send_raw f c
  end.
Definition run : circuit → list event → circuit := foldl step.

(** ** The log the router sees *)

Definition is_traffic (o : output) : bool :=
  match o with
  | Forward _ | DlSendRaw _ | DlSend (PPtpHello _) | DlSend (PShortData _) => true
  | _ => false
  end.

(** The adjacency that is up after an output; [None] when the output is out of
    turn. *)
Definition track1 (s : option (option adjacency)) (o : output) : option (option adjacency) :=
  match s, o with
  | Some None, AdjUp a => Some (Some a)
  | Some (Some b), AdjDown a => if decide (a = b) then Some None else None
  | Some (Some b), RoutingMsg _ a _ => if decide (a = b) then s else None
  | _, AdjUp _ | _, AdjDown _ | _, RoutingMsg _ _ _ => None
  | Some None, o => if is_traffic o then None else s
  | _, _ => s
  end.
Definition track : list output → option (option adjacency) := foldl track1 (Some None).

Definition neighbour (c : circuit) : option adjacency :=
  match c_state c with St_ru => j_adj <$> adj c | _ => None end.

(** A neighbour of address [id] and type [nt] that [p] can have. *)
Definition admissible (p : parent) (id nt : Z) : Prop :=
  nt ∈ [ENDNODE; L1ROUTER; L2ROUTER] ∧ Nodeid.tid id ≠ 0 ∧
  (p_ntype p ∈ [L1ROUTER; L2ROUTER] → Nodeid.tid id ≤ p_maxnodes p) ∧
  (if decide (nt = L2ROUTER ∧ p_ntype p = L2ROUTER) then 1 ≤ Nodeid.area id ≤ p_maxarea p
   else Nodeid.area id = Nodeid.area (p_nodeid p)).

Lemma admissible_init p init :
  known_ntype (PtpInit.ntype init) = true → PtpInit.check init = true → out_of_range p init = false →
  admissible p (PtpInit.srcnode init) (PtpInit.ntype init).
Proof.
  unfold known_ntype, PtpInit.check, out_of_range, admissible. intros Hk Hc Ho.
  rewrite !orb_true_iff, !Z.eqb_eq in Hk. apply negb_true_iff, Z.eqb_neq in Hc.
  apply orb_false_iff in Ho as [[Ho1 Ho2]%orb_false_iff Ho3].
  rewrite !elem_of_cons.
  split; [tauto|]. split; [done|]. split.
  - intros Hp. assert ((p_ntype p =? L1ROUTER) || (p_ntype p =? L2ROUTER) = true) as Hr.
    { rewrite orb_true_iff, !Z.eqb_eq. rewrite elem_of_nil in Hp. tauto. }
    rewrite Hr in Ho1. simpl in Ho1. lia.
  - destruct (decide _) as [[E1 E2]|Hn].
    + rewrite E1, E2, !Z.eqb_refl in *. simpl in *. lia.
    + assert ((PtpInit.ntype init =? L2ROUTER) && (p_ntype p =? L2ROUTER) = false) as Hb.
      { apply andb_false_iff. rewrite !Z.eqb_neq. destruct (decide (PtpInit.ntype init = L2ROUTER)); [right|left]; tauto. }
      rewrite Hb in Ho3. simpl in Ho3. apply negb_false_iff, Z.eqb_eq in Ho3. done.
Qed.

(** ** The invariant *)

Section Invariant.
Context (es : list event).

(** The neighbour proved who it is. *)
Definition verified (cf : circuit_conf) (id : Z) : Prop :=
  ∃ ptr f v, Item ptr (Received f) ∈ es ∧ parse_frame f = Some (PPtpVerify v) ∧
             PtpVerify.srcnode v = id ∧ PtpVerify.fcnval v = cf_expect_verify cf.

Definition proper (cf : circuit_conf) (o : output) : Prop :=
  match o with
  | AdjUp a => admissible (cf_parent cf) (a_nodeid a) (a_ntype a) ∧ a_circuit a = Some (cf_id cf) ∧
               a_cost a = cf_cost cf ∧ (cf_request_verify cf = true → verified cf (a_nodeid a))
  | _ => True
  end.

(** What the circuit's adjacency is, once the init has been accepted. *)
Record learned (c : circuit) (j : Adjacency) : Prop := {
  l_info : j_info j = info c;
  l_rphase : i_rphase (info c) = 4;
  l_id : a_nodeid (j_adj j) = i_id (info c);
  l_ntype : a_ntype (j_adj j) = i_ntype (info c);
  l_circuit : a_circuit (j_adj j) = Some (cf_id (conf c));
  l_cost : a_cost (j_adj j) = cf_cost (conf c);
  l_ok : admissible (own c) (i_id (info c)) (i_ntype (info c));
  l_span : within_span (j_t4 j) = true;
}.

Definition active (s : pstate) : Prop := match s with St_ha | St_ds => False | _ => True end.

Record Inv (c : circuit) : Prop := {
  i_track : track (outs c) = Some (neighbour c);
  i_log : Forall (proper (conf c)) (outs c);
  i_idle : ¬ active (c_state c) → timer c = None;
  i_span : active (c_state c) → within_span (cf_t3 (conf c)) = true ∧ timer c = Some (cf_t3 (conf c));
  i_rv : c_state c = St_rv → ∃ j, adj c = Some j ∧ learned c j ∧ j_up j = false;
  i_ru : c_state c = St_ru → ∃ j, adj c = Some j ∧ learned c j ∧ j_up j = true ∧ j_timer j = Some (j_t4 j);
  i_listen : ∀ j, adj c = Some j → c_state c ≠ St_ru → j_timer j = None;
}.

Lemma track_say os s o : track os = Some s → track (os ++ [o]) = track1 (Some s) o.
Proof. unfold track. rewrite foldl_app. by intros ->. Qed.

(** An output that says nothing about the neighbour. *)
Definition neutral (o : output) : bool :=
  negb (is_traffic o) && match o with AdjUp _ | AdjDown _ | RoutingMsg _ _ _ => false | _ => true end.
Lemma track_neutral s o : neutral o = true → track1 (Some s) o = Some s.
Proof. by destruct s, o as [| | |[]| | | | | | | |]. Qed.
Lemma proper_neutral cf o : neutral o = true → proper cf o.
Proof. by destruct o as [| | |[]| | | | | | | |]. Qed.

Lemma say_inv o c : Inv c → neutral o = true → Inv (say o c).
Proof.
  intros [Ht Hl Hi Hs Hv Hr Hn] Ho. constructor; simpl; auto.
  - rewrite (track_say _ _ _ Ht). by apply track_neutral.
  - apply Forall_app. split; [done|]. constructor; [by apply proper_neutral|constructor].
  - intros E. destruct (Hv E) as (j & ? & [] & ?). by exists j.
  - intros E. destruct (Hr E) as (j & ? & [] & ?). by exists j.
Qed.

Lemma event_neutral code n r b : neutral (Event code n r b) = true.
Proof. done. Qed.
#[local] Hint Resolve event_neutral : core.

Lemma routeevent_inv code r b c : Inv c → Inv (routeevent code r b c).
Proof. intros. by apply say_inv. Qed.

(** ** Going back *)

Lemma count_restart_fields c :
  conf (count_restart c) = conf c ∧ c_state (count_restart c) = c_state c ∧ adj (count_restart c) = adj c ∧
  outs (count_restart c) = outs c.
Proof. unfold count_restart. by destruct (running c), (nice_substate c =? 0). Qed.

(** The log once the adjacency, if it was up, has gone down. *)
Lemma down_log c : Inv c → c_state c = St_ru →
  track (outs (down c)) = Some None ∧ Forall (proper (conf c)) (outs (down c)) ∧
  conf (down c) = conf c ∧ adj (down c) = None.
Proof.
  intros [Ht Hl _ _ _ Hr _] E. destruct (Hr E) as (j & Ej & _ & Hu & _).
  unfold down. rewrite Ej. unfold adjacency_down. rewrite Hu. simpl. split_and!; [|..|done|done].
  - rewrite (track_say _ _ _ Ht). unfold neighbour. rewrite E, Ej. simpl. by rewrite decide_True.
  - apply Forall_app. split; [done|]. by repeat constructor.
Qed.

(** A circuit in "ds" or halted with no timer running. *)
Lemma idle_inv s c :
  ¬ active s → track (outs c) = Some None → Forall (proper (conf c)) (outs c) → timer c = None →
  (∀ j, adj c = Some j → j_timer j = None) → Inv (with_c_state s c).
Proof.
  intros Hs Ht Hl Htm Hj. assert (s ≠ St_ru ∧ s ≠ St_rv) as [Hu Hv] by (by destruct s).
  constructor; simpl; try done.
  - rewrite Ht. unfold neighbour. simpl. by destruct s.
  - intros j E _. by apply Hj.
Qed.

Lemma ds_idle : ¬ active St_ds.
Proof. intros []. Qed.
Lemma ha_idle : ¬ active St_ha.
Proof. intros []. Qed.

Lemma restart_outs c o : track (outs c) = Some None → Forall (proper (conf c)) (outs c) → neutral o = true →
  Inv (with_c_state St_ds (say o (stop_timer (clear_neighbour c)))).
Proof.
  intros Ht Hl Ho. apply idle_inv; [apply ds_idle|..]; simpl; [|..|done|done].
  - rewrite (track_say _ _ _ Ht). by apply track_neutral.
  - apply Forall_app. split; [done|]. constructor; [by apply proper_neutral|constructor].
Qed.

Lemma restart_inv c : Inv c → Inv (set_state (restart c)).
Proof.
  intros H. unfold restart, set_state. cbn [fst snd].
  destruct (count_restart_fields c) as (Ec & Es & Ea & Eo).
  assert (running (count_restart c) = running c) as -> by (unfold running; by rewrite Es).
  set (c1 := if running c then down (count_restart c) else count_restart c).
  assert (track (outs c1) = Some None ∧ Forall (proper (conf c1)) (outs c1)) as [Ht Hl].
  { unfold c1, running. destruct (bool_decide_reflect (c_state c = St_ru)) as [E|E].
    - destruct (down_log c H E) as (D1 & D2 & D3 & _).
      assert (outs (down (count_restart c)) = outs (down c) ∧ conf (down (count_restart c)) = conf c) as [-> ->]; [|done].
      unfold down. rewrite Ea. unfold adjacency_down. destruct (adj c) as [j|]; [destruct (negb (j_up j))|]; simpl; by rewrite ?Eo, ?Ec.
    - rewrite Eo, Ec. split; [|apply H]. rewrite (i_track c H). unfold neighbour. by destruct (c_state c). }
  apply restart_outs; [done|done|]. by destruct (cf_start_works _).
Qed.

Lemma restart_event_inv code r c : Inv c → Inv (set_state (restart_event code r c)).
Proof. intros. by apply restart_inv, routeevent_inv. Qed.

Lemma halt_inv c : Inv c → c_state c ≠ St_ru → Inv (set_state (halt c)).
Proof.
  intros H E. unfold halt, set_state. cbn [fst snd]. apply idle_inv; [apply ha_idle|..]; simpl.
  - rewrite (track_say _ _ _ (i_track c H)). unfold neighbour. by destruct (c_state c).
  - apply Forall_app. split; [apply H|]. by repeat constructor.
  - done.
  - intros j Ej. by apply (i_listen c H j).
Qed.

Lemma halt_ru_inv c : Inv c → c_state c = St_ru → Inv (set_state (halt (down c))).
Proof.
  intros H E. unfold halt, set_state. cbn [fst snd]. destruct (down_log c H E) as (D1 & D2 & D3 & D4).
  apply idle_inv; [apply ha_idle|..].
  - change (track (outs (down c) ++ [DlClose]) = Some None). by rewrite (track_say _ _ _ D1).
  - change (Forall (proper (conf (down c))) (outs (down c) ++ [DlClose])).
    rewrite D3. apply Forall_app. split; [done|]. by repeat constructor.
  - done.
  - intros j Ej. change (adj (down c) = Some j) in Ej. by rewrite D4 in Ej.
Qed.

(** ** Coming up *)

(** A state that a transition does not leave. *)
Lemma stay_inv c : Inv c → Inv (set_state (c, None)).
Proof. done. Qed.

(** The adjacency comes up: from any log that is in turn, to "ru". *)
Lemma up_inv c j :
  track (outs c) = Some None → Forall (proper (conf c)) (outs c) → within_span (cf_t3 (conf c)) = true →
  adj c = Some j → learned c j → j_up j = false →
  (cf_request_verify (conf c) = true → verified (conf c) (i_id (info c))) →
  Inv (set_state (up (λ c, (c, Some St_ru)) c)).
Proof.
  intros Ht Hl Hs Ej [L1 L2 L3 L4 L5 L6 L7 L8] Hu Hv. unfold up, adjacency_up. simpl. rewrite Ej, Hu, L8.
  assert ((i_ntype (j_info j) =? PHASE2) = false) as Hnt.
  { rewrite L1. apply Z.eqb_neq. destruct L7 as [Hin _]. intros E. rewrite E in Hin.
    apply list_elem_of_In in Hin. simpl in Hin. unfold ENDNODE, L1ROUTER, L2ROUTER, PHASE2 in Hin. intuition lia. }
  rewrite Hnt. unfold starting. simpl. rewrite Hs. constructor; simpl; try done.
  - erewrite track_say by (by rewrite (track_say _ _ _ Ht)). done.
  - repeat (apply Forall_app; split); [done| |by repeat constructor]. constructor; [|constructor].
    simpl. rewrite L3, L4. split_and!; auto.
  - intros _. eexists. split; [done|]. by split; [constructor|].
Qed.

(** ** The states *)

Lemma s0_inv w c : Inv c → c_state c = St_ha → Inv (set_state (s0 w c)).
Proof.
  intros H E. assert (track (outs c) = Some None) as Ht.
  { rewrite (i_track c H). unfold neighbour. by rewrite E. }
  assert (Inv (set_state (clear_neighbour (say DlOpen c), Some St_ds))) as Hgo; [|destruct w; first [exact Hgo|exact H]].
  apply idle_inv; [apply ds_idle|..]; simpl; [|..|apply (i_idle c H); rewrite E; exact ha_idle|done].
  - by rewrite (track_say _ _ _ Ht).
  - apply Forall_app. split; [apply H|]. by repeat constructor.
Qed.

(** A state in which there is no adjacency to speak of. *)
Lemma quiet_track c : Inv c → c_state c ≠ St_ru → track (outs c) = Some None.
Proof. intros H E. rewrite (i_track c H). unfold neighbour. by destruct (c_state c). Qed.

Lemma ds_inv w c : Inv c → c_state c = St_ds → Inv (set_state (ds w c)).
Proof.
  intros H E. pose proof (quiet_track c H ltac:(congruence)) as Ht.
  assert (timer c = None) as Htm by (apply (i_idle c H); rewrite E; exact ds_idle).
  destruct w as [| | | |[]|f]; simpl; [done|..|done].
  - apply halt_inv; [by apply routeevent_inv|]. simpl. congruence.
  - by apply restart_inv.
  - done.
  - unfold starting. simpl. destruct (within_span (cf_t3 (conf c))) eqn:Hs.
    + constructor; simpl; try done.
      * by rewrite (track_say _ _ _ Ht).
      * apply Forall_app. split; [apply H|]. by repeat constructor.
    + unfold set_state. simpl. assert (∀ c', Inv (with_c_state St_ds c') → c_state c' = St_ds → Inv c') as Hid
        by (intros [] ? ?; simpl in *; by subst).
      apply Hid; [|done]. apply idle_inv; [apply ds_idle|..]; simpl; [|..|done|done].
      * by rewrite (track_say _ _ _ Ht).
      * apply Forall_app. split; [apply H|]. by repeat constructor.
  - by apply restart_event_inv.
Qed.

(** The listen time of the neighbour fits on the timer wheel. *)
Definition short_hellos (t3 : double) (e : event) : bool :=
  match e with
  | Item _ (Received f) =>
      match parse_frame f with
      | Some (PPtpInit init) => within_span (listen_time t3 (PtpInit.timer init))
      | _ => true
      end
  | _ => true
  end.
Lemma short_hellos_init t3 ptr f init :
  short_hellos t3 (Item ptr (Received f)) → parse_frame f = Some (PPtpInit init) →
  within_span (listen_time t3 (PtpInit.timer init)) = true.
Proof. unfold short_hellos. intros Hs Hf. rewrite Hf in Hs. by apply Is_true_true. Qed.

Lemma ri_init_inv ptr init c :
  Inv c → c_state c = St_ri → within_span (listen_time (cf_t3 (conf c)) (PtpInit.timer init)) = true →
  Inv (set_state (ri_init ptr init c)).
Proof.
  intros H E Hsp. pose proof (quiet_track c H ltac:(congruence)) as Ht.
  destruct (i_span c H) as [Hs Htm]; [by rewrite E|].
  unfold ri_init. destruct (p_phase (own c) <? 4); [done|].
  destruct (known_ntype (PtpInit.ntype init)) eqn:Hk; simpl; [|by apply restart_event_inv].
  destruct (PtpInit.blo init); [by apply restart_inv|].
  destruct (PtpInit.check init) eqn:Hc; simpl; [|by apply restart_inv].
  destruct (out_of_range (own c) init) eqn:Ho; [by apply restart_event_inv|].
  pose proof (admissible_init _ _ Hk Hc Ho) as Ha.
  set (c1 := if PtpInit.verif init then _ else _).
  assert (track (outs c1) = Some None ∧ Forall (proper (conf c)) (outs c1)) as [Ht1 Hl1].
  { unfold c1. destruct (PtpInit.verif init); simpl; [|split; [done|apply H]].
    split; [by rewrite (track_say _ _ _ Ht)|]. apply Forall_app. split; [apply H|]. by repeat constructor. }
  assert (conf c1 = conf c ∧ info c1 = info (learn init c)) as [Ec1 Ei1] by (unfold c1; by destruct (PtpInit.verif init)).
  clearbody c1. assert (learned (with_adj (Some (make_adjacency ptr c1)) c1) (make_adjacency ptr c1)) as Hln.
  { unfold make_adjacency. constructor; simpl; rewrite ?Ei1, ?Ec1; try done.
    unfold own in *. simpl. rewrite Ec1. exact Ha. }
  match goal with |- context [if cf_request_verify ?x then _ else _] => destruct (cf_request_verify x) eqn:Hrv end.
  - unfold starting. simpl in *. rewrite Ec1, Hs. constructor; simpl; try done.
    + by rewrite Ec1.
    + intros _. rewrite Ec1. done.
    + intros _. eexists. split; [done|]. split; [by destruct Hln; constructor|done].
    + intros j [= <-] _. done.
  - eapply up_inv; [exact Ht1| | |done|exact Hln|done|]; simpl in *; rewrite ?Ec1; [done|done|].
    intros Hx. rewrite Ec1 in Hrv. congruence.
Qed.

Lemma ri_inv ptr w pkt c :
  Inv c → c_state c = St_ri →
  (∀ init, pkt = Some (PPtpInit init) → within_span (listen_time (cf_t3 (conf c)) (PtpInit.timer init)) = true) →
  Inv (set_state (ri ptr w pkt c)).
Proof.
  intros H E Hp.
  assert (Inv (set_state (match pkt with
      | Some (PPtpInit init) => ri_init ptr init c
      | Some (PPtpInit3 _) => restart c
      | Some (PPtpVerify _) => restart_event 12 unexpected_packet_type c
      | _ => (c, None)
      end))) as Hpk.
  { destruct pkt as [[]|]; try done; [by apply ri_init_inv; [..|apply Hp]|by apply restart_inv|by apply restart_event_inv]. }
  assert (Inv (set_state (halt (routeevent 9 None [] c)))) as Hh
    by (apply halt_inv; [by apply routeevent_inv|simpl; congruence]).
  destruct w as [| | | |[]|f]; simpl; auto using restart_inv.
Qed.

Lemma rv_inv ptr w pkt c :
  Inv c → c_state c = St_rv →
  (∀ v, pkt = Some (PPtpVerify v) → ∃ f, w = Received f ∧ parse_frame f = Some (PPtpVerify v)) →
  Item ptr w ∈ es → Inv (set_state (rv w pkt c)).
Proof.
  intros H E Hp Hin.
  assert (Inv (set_state (halt (routeevent 9 None [] c)))) as Hh
    by (apply halt_inv; [by apply routeevent_inv|simpl; congruence]).
  assert (∀ v, pkt = Some (PPtpVerify v) → Inv (set_state (
      if negb (check_src (PtpVerify.srcnode v) c) then restart c
      else if negb (bool_decide (PtpVerify.fcnval v = cf_expect_verify (conf c))) then
        restart_event 6 invalid_verification (say VerReject c)
      else up (λ c, (c, Some St_ru)) c))) as Hv.
  { intros v Ev. destruct (Hp v Ev) as (f & -> & Hf). destruct (i_rv c H E) as (j & Ej & Hl & Hu).
    destruct (check_src (PtpVerify.srcnode v) c) eqn:Hc; simpl; [|by apply restart_inv].
    case_bool_decide as Hx; simpl; [|by apply restart_event_inv, say_inv].
    eapply up_inv; [by apply quiet_track; [|congruence]|apply H|by apply (i_span c H); rewrite E|exact Ej|done|done|].
    intros _. exists ptr, f, v. split_and!; [done..| |done].
    unfold check_src in Hc. rewrite (l_rphase c j Hl) in Hc. simpl in Hc. by apply Z.eqb_eq. }
  assert (Inv (set_state (match pkt with
      | Some (PPtpVerify v) => if negb (check_src (PtpVerify.srcnode v) c) then restart c
          else if negb (bool_decide (PtpVerify.fcnval v = cf_expect_verify (conf c))) then
            restart_event 6 invalid_verification (say VerReject c)
          else up (λ c, (c, Some St_ru)) c
      | _ => (c, None)
      end))) as Hpk by (destruct pkt as [[]|]; solve [exact H|by apply Hv]).
  destruct w as [| | | |[]|f]; simpl; auto using restart_inv.
Qed.

(** Output of a circuit whose neighbour is up. *)
Lemma ru_say_inv o c : Inv c → c_state c = St_ru → proper (conf c) o →
  (∀ a, neighbour c = Some a → track1 (Some (Some a)) o = Some (Some a)) → Inv (say o c).
Proof.
  intros [Ht Hl Hi Hs Hv Hr Hn] E Hp Ho. destruct (Hr E) as (j & Ej & Hj).
  assert (neighbour c = Some (j_adj j)) as En by (unfold neighbour; by rewrite E, Ej).
  constructor; simpl; auto.
  - rewrite (track_say _ _ _ Ht), En. change (neighbour (say o c)) with (neighbour c). rewrite En. by apply Ho.
  - apply Forall_app. split; [done|]. by constructor; [|constructor].
  - intros E'. destruct (Hv E') as (j' & ? & [] & ?). by exists j'.
  - intros _. exists j. destruct Hj as ([] & ?). by split; [|split; [constructor|]].
Qed.

Lemma ru_packet_inv p c : Inv c → c_state c = St_ru → Inv (set_state (ru_packet p c)).
Proof.
  intros H E. destruct (i_ru c H E) as (j & Ej & Hl & Hu & Ht).
  destruct p; simpl; try exact H.
  1, 2: by apply ru_say_inv.
  - destruct (check_src _ _); simpl; [exact H|by apply restart_inv].
  - destruct (check_src _ _); simpl; [|by apply restart_inv].
    destruct (PtpHello.testdata_valid _); simpl; [exact H|by apply restart_inv].
  - rewrite Ej. apply ru_say_inv; [done..|]. intros a Ea. unfold neighbour in Ea. rewrite E, Ej in Ea.
    injection Ea as <-. simpl. by rewrite decide_True.
  - rewrite Ej. apply ru_say_inv; [done..|]. intros a Ea. unfold neighbour in Ea. rewrite E, Ej in Ea.
    injection Ea as <-. simpl. by rewrite decide_True.
Qed.

Lemma alive_inv k c : Inv c → c_state c = St_ru → (∀ c', Inv c' → c_state c' = St_ru → Inv (set_state (k c'))) →
  Inv (set_state (alive k c)).
Proof.
  intros H E Hk. destruct (i_ru c H E) as (j & Ej & Hl & Hu & Ht). unfold alive, rearmed. rewrite Ej, (l_span c j Hl), <- Ht.
  destruct (i_ntype _ =? _); [by apply Hk|].
  replace (with_adj _ c) with c; [by apply Hk|]. destruct c, j. simpl in *. by subst.
Qed.

Lemma send_hello_inv c : Inv (with_timer (Some (cf_t3 (conf c))) c) → c_state c = St_ru → Inv (set_state (send_hello c)).
Proof.
  intros H E. unfold send_hello, running. rewrite bool_decide_true by done. simpl.
  destruct (i_span _ H) as [Hs _]; [simpl; by rewrite E|]. unfold starting. simpl in *. rewrite Hs.
  by apply (ru_say_inv (DlSend (PPtpHello (hellomsg c))) _ H).
Qed.

(** Only the circuit's timer being between two intervals tells [c] from a
    circuit in the invariant. *)
Lemma ru_inv w pkt c : Inv c → c_state c = St_ru → Inv (set_state (ru w pkt c)).
Proof.
  intros H E.
  assert (Inv (set_state (halt (down c)))) as Hh by by apply halt_ru_inv.
  assert (Inv (set_state (match pkt with Some p => alive (ru_packet p) c | None => (c, None) end))) as Hp.
  { destruct pkt as [p|]; [|exact H]. apply alive_inv; [done..|]. intros. by apply ru_packet_inv. }
  destruct w as [| | | |[]|f]; simpl; auto using restart_inv.
  apply send_hello_inv; [|done]. replace (with_timer _ c) with c; [done|].
  destruct (i_span c H) as [_ Ht]; [by rewrite E|]. destruct c. simpl in *. by subst.
Qed.

(** ** Steps *)

Lemma validate_spec w c :
  (validate w c = (c, None) ∧ w = Received []) ∨
  (∃ f, w = Received f ∧ parse_frame f = None ∧ validate w c = (routeevent 4 None (take 6 f) c, None)) ∨
  (∃ f p, w = Received f ∧ parse_frame f = Some p ∧ validate w c = (c, Some (Some p))) ∨
  ((∀ f, w ≠ Received f) ∧ validate w c = (c, Some None)).
Proof.
  destruct w as [| | | | |[|b f]]; try (right; right; right; split; [congruence|reflexivity]).
  - left. by split.
  - right. unfold validate. destruct (parse_frame (b :: f)) as [p|] eqn:E.
    + right. left. exists (b :: f), p. split_and!; [reflexivity|exact E|reflexivity].
    + left. exists (b :: f). split_and!; [reflexivity|exact E|reflexivity].
Qed.

Lemma action_inv ptr w pkt c :
  Inv c →
  (∀ p, pkt = Some p → ∃ f, w = Received f ∧ parse_frame f = Some p) →
  short_hellos (cf_t3 (conf c)) (Item ptr w) → Item ptr w ∈ es →
  Inv (set_state (action ptr w pkt c)).
Proof.
  intros H Hp Hsh Hin. unfold action. destruct (c_state c) eqn:E.
  - by apply s0_inv.
  - by apply ds_inv.
  - apply ri_inv; [done..|]. intros init Ei. destruct (Hp _ Ei) as (f & -> & Hf). by eapply short_hellos_init.
  - eapply rv_inv; [done..| |exact Hin]. intros v Ev. exact (Hp _ Ev).
  - by apply ru_inv.
Qed.

Lemma dispatch_inv ptr w c :
  Inv c → short_hellos (cf_t3 (conf c)) (Item ptr w) → Item ptr w ∈ es → Inv (dispatch ptr w c).
Proof.
  intros H Hsh Hin. unfold dispatch.
  destruct (validate_spec w c) as [[-> _]|[(f & _ & _ & ->)|[(f & p & Ew & Hf & ->)|[Hw ->]]]].
  - exact H.
  - by apply routeevent_inv.
  - apply action_inv; [done| |done..]. intros p' [= <-]. exists f. exact (conj Ew Hf).
  - by apply action_inv.
Qed.

(** The circuit's own timer. *)
Lemma restart_stopped c : restart (stop_timer c) = restart c.
Proof.
  unfold restart. assert (running (stop_timer c) = running c) as Er by done.
  assert (count_restart (stop_timer c) = stop_timer (count_restart c)) as ->.
  { unfold count_restart. rewrite Er. destruct (running c); [done|]. by destruct (_ =? 0). }
  assert (running (stop_timer (count_restart c)) = running (count_restart c)) as -> by done.
  assert (down (stop_timer (count_restart c)) = stop_timer (down (count_restart c))) as ->.
  { unfold down. simpl. destruct (adj (count_restart c)) as [j|]; [|done]. unfold adjacency_down. by destruct (negb (j_up j)). }
  by destruct (running (count_restart c)).
Qed.

Lemma timeout_inv ptr c : Inv c → timer c ≠ None → Inv (timeout ptr c).
Proof.
  intros H Ht. unfold timeout, dispatch. simpl. unfold action. simpl.
  assert (active (c_state c)) as Ha by (destruct (decide (timer c = None)); [done|]; pose proof (i_idle c H); destruct (c_state c); naive_solver).
  destruct (c_state c) eqn:E; try done; simpl.
  - rewrite restart_stopped. by apply restart_inv.
  - rewrite restart_stopped. by apply restart_inv.
  - apply send_hello_inv; [|done]. simpl. replace (with_timer _ (stop_timer c)) with c; [done|].
    destruct (i_span c H) as [_ Ht']; [by rewrite E|]. destruct c. simpl in *. by subst.
Qed.

(** The listen timer. *)
Lemma adj_timeout_inv c : Inv c → adj c ≫= j_timer ≠ None → Inv (adj_timeout c).
Proof.
  intros H Ht. destruct (adj c) as [j|] eqn:Ej; [|done]. simpl in Ht.
  assert (c_state c = St_ru) as E by (destruct (decide (c_state c = St_ru)); [done|]; destruct Ht; by apply (i_listen c H)).
  destruct (i_ru c H E) as (j' & Ej' & Hl & Hu & _). assert (j' = j) as -> by congruence.
  unfold adj_timeout. rewrite Ej. unfold adjacency_down. rewrite Hu. cbn [negb].
  unfold restart, count_restart, running. simpl. rewrite E, bool_decide_true by done. simpl.
  rewrite ?bool_decide_true by done.
  unfold set_state. simpl. match goal with |- Inv (with_c_state St_ds (say ?o (stop_timer (clear_neighbour ?x)))) =>
    apply (restart_outs x o) end; [..|by destruct (cf_start_works _)].
  - unfold down. simpl. erewrite track_say; [|rewrite (track_say _ _ _ (i_track c H)); unfold neighbour; rewrite E, Ej; simpl; by rewrite decide_True].
    done.
  - unfold down. simpl. repeat (apply Forall_app; split); [apply H|by repeat constructor..].
Qed.

Lemma send_inv p c : Inv c → Inv (send p c).1.
Proof.
  intros H. unfold send, running. case_bool_decide as E; simpl; [|done].
  destruct (_ && _); simpl; [done|]. by apply ru_say_inv.
Qed.
Lemma send_raw_inv f c : Inv c → Inv (send_raw f c).
Proof. intros H. unfold send_raw, running. case_bool_decide as E; simpl; [|done]. by apply ru_say_inv. Qed.

Lemma step_inv c e : Inv c → short_hellos (cf_t3 (conf c)) e → e ∈ es → Inv (step c e).
Proof.
  intros H Hs Hin. destruct e as [ptr w|ptr| |p|f]; simpl.
  - by apply dispatch_inv.
  - destruct (timer c) eqn:Et; [|done]. apply timeout_inv; [done|congruence].
  - destruct (adj c ≫= j_timer) eqn:Et; [|done]. apply adj_timeout_inv; [done|congruence].
  - by apply send_inv.
  - by apply send_raw_inv.
Qed.
End Invariant.

(** ** The configuration never changes *)

Definition keeps (k : circuit → outcome) : Prop := ∀ c, conf (k c).1 = conf c.
Lemma starting_conf t k : keeps k → keeps (starting t k).
Proof. intros Hk c. unfold starting. destruct (within_span t); [|done]. by rewrite Hk. Qed.
Lemma restart_conf : keeps restart.
Proof.
  intros c. unfold restart, count_restart, running, down, adjacency_down.
  repeat (case_match; simpl; try done).
Qed.
Lemma up_conf k : keeps k → keeps (up k).
Proof.
  intros Hk c. pose proof (λ t, starting_conf t k Hk) as Hs. unfold up, adjacency_up. simpl.
  destruct (adj c) as [j|]; [|by rewrite Hs].
  destruct (j_up j); [by rewrite Hs|]. destruct (_ =? _); [by rewrite Hs|].
  destruct (within_span _); [by rewrite Hs|done].
Qed.

Lemma next_conf s : keeps (λ c, (c, s)).
Proof. done. Qed.
#[local] Hint Resolve next_conf starting_conf up_conf restart_conf : core.

Lemma event_conf code r : keeps (restart_event code r).
Proof. intros c. unfold restart_event. by rewrite restart_conf. Qed.
Lemma down_conf c : conf (down c) = conf c.
Proof. unfold down, adjacency_down. destruct (adj c) as [j|]; [by destruct (negb (j_up j))|done]. Qed.

Lemma ri_init_conf ptr init : keeps (ri_init ptr init).
Proof.
  intros c. unfold ri_init. repeat (case_match; try done; try apply event_conf; try apply restart_conf).
  all: rewrite ?starting_conf, ?up_conf by apply next_conf; done.
Qed.
Lemma ru_packet_conf p : keeps (ru_packet p).
Proof.
  intros c. destruct p; simpl; try done; repeat (case_match; try done; try apply restart_conf).
Qed.
Lemma alive_conf k : keeps k → keeps (alive k).
Proof. intros Hk c. unfold alive. repeat case_match; try done; by rewrite Hk. Qed.

Lemma action_conf ptr w pkt : keeps (action ptr w pkt).
Proof.
  intros c. unfold action. destruct (c_state c).
  - by destruct w.
  - destruct w as [| | | |[]|]; simpl; try done; [apply restart_conf|by rewrite starting_conf|apply event_conf].
  - destruct w as [| | | |[]|]; simpl; try done; try apply restart_conf.
    all: destruct pkt as [[]|]; try done; first [apply ri_init_conf|apply restart_conf|apply event_conf].
  - destruct w as [| | | |[]|]; simpl; try done; try apply restart_conf.
    all: destruct pkt as [[]|]; try done; repeat (case_match; try done; try apply restart_conf).
    all: rewrite ?event_conf, ?up_conf by apply next_conf; done.
  - destruct w as [| | | |[]|]; simpl; try done; try apply restart_conf.
    + destruct pkt as [p|]; [by apply alive_conf, ru_packet_conf|done].
    + apply down_conf.
    + unfold send_hello. destruct (negb (running c)); [done|]. by rewrite starting_conf.
    + destruct pkt as [p|]; [by apply alive_conf, ru_packet_conf|done].
Qed.

Lemma set_state_conf o : conf (set_state o) = conf o.1.
Proof. unfold set_state. by destruct (o.2). Qed.

Lemma step_conf c e : conf (step c e) = conf c.
Proof.
  assert (∀ ptr w c, conf (dispatch ptr w c) = conf c) as Hd.
  { intros ptr w c0. unfold dispatch.
    destruct (validate_spec w c0) as [[-> _]|[(f & _ & _ & ->)|[(f & p & _ & _ & ->)|[_ ->]]]]; try done.
    all: by rewrite set_state_conf, action_conf. }
  destruct e as [ptr w|ptr| |p|f]; simpl; [apply Hd|..].
  - destruct (timer c); [|done]. unfold timeout. by rewrite Hd.
  - destruct (adj c ≫= j_timer); [|done]. unfold adj_timeout. destruct (adj c) as [j|]; [|done].
    rewrite set_state_conf, restart_conf. unfold adjacency_down. by destruct (negb (j_up j)).
  - unfold send. destruct (negb (running c)); [done|]. by destruct (_ && _).
  - unfold send_raw. by destruct (negb (running c)).
Qed.

Lemma run_inv es c l : Inv es c → Forall (λ e, short_hellos (cf_t3 (conf c)) e) l → l ⊆ es → Inv es (run c l).
Proof.
  revert c. induction l as [|e l IH]; intros c H Hl Hs; [done|].
  apply Forall_cons in Hl as [He Hl]. simpl. apply IH.
  - apply step_inv; [done..|]. apply Hs, list_elem_of_here.
  - by rewrite step_conf.
  - intros x Hx. by apply Hs, list_elem_of_further.
Qed.

Lemma new_inv es id p sw t3 cost verify : Inv es (new_circuit id p sw t3 cost verify).
Proof. by constructor. Qed.

(** ** The properties *)

(** C18: The life of an adjacency. Over any sequence of work items, timer expiries and
    packets to send, in which the hello times neighbours ask for in their init messages
    fit on the timer wheel: the router is told of an adjacency coming up and going down
    strictly in turn, and gets routing messages only from the one that is up; data and
    hellos pass, either way, only while it is up; it is up exactly while the circuit is
    in ru; the listen timer runs exactly then; and the circuit's own timer runs exactly
    in ri, rv and ru. *)
Theorem adjacency_lifecycle id p sw t3 cost verify (es : list event) :
  let c0 := new_circuit id p sw t3 cost verify in
  Forall (λ e, short_hellos (cf_t3 (conf c0)) e) es →
  let c := run c0 es in
  track (outs c) = Some (neighbour c) ∧
  (is_Some (neighbour c) ↔ running c = true) ∧
  (is_Some (adj c ≫= j_timer) ↔ running c = true) ∧
  (is_Some (timer c) ↔ active (c_state c)).
Proof.
  intros c0 Hes c. assert (Inv es c) as H by (apply run_inv; [apply new_inv|exact Hes|done]).
  split; [apply H|]. unfold running. rewrite bool_decide_eq_true. split_and!.
  - split; [by unfold neighbour; destruct (c_state c) as [| | | |]; intros [? ?]|].
    intros E. destruct (i_ru es c H E) as (j & Ej & _). unfold neighbour. rewrite E, Ej. by eexists.
  - split.
    + intros [t Ht]. destruct (adj c) as [j|] eqn:Ej; [|done]. simpl in Ht.
      destruct (decide (c_state c = St_ru)); [done|]. rewrite (i_listen es c H j Ej) in Ht by done. done.
    + intros E. destruct (i_ru es c H E) as (j & -> & _ & _ & Et). simpl. rewrite Et. by eexists.
  - split.
    + intros [t Ht]. destruct (c_state c) eqn:E; [..|done|done|done]; rewrite (i_idle es c H) in Ht; rewrite ?E; done || intros [].
    + intros Ha. destruct (i_span es c H Ha) as [_ ->]. by eexists.
Qed.

Lemma admitted_any id p sw t3 cost verify (es : list event) a :
  let c0 := new_circuit id p sw t3 cost verify in
  Forall (λ e, short_hellos (cf_t3 (conf c0)) e) es →
  AdjUp a ∈ outs (run c0 es) →
  admissible p (a_nodeid a) (a_ntype a) ∧
  (verify ≠ [] → ∃ ptr f v, Item ptr (Received f) ∈ es ∧ parse_frame f = Some (PPtpVerify v) ∧
     PtpVerify.srcnode v = a_nodeid a ∧ PtpVerify.fcnval v = verify).
Proof.
  intros c0 Hes Hin. assert (Inv es (run c0 es)) as H by (apply run_inv; [apply new_inv|exact Hes|done]).
  assert (conf (run c0 es) = conf c0) as Ec.
  { clear. generalize c0. induction es as [|e es IH]; intros c; [done|]. simpl. by rewrite IH, step_conf. }
  pose proof (i_log es _ H) as Hl. rewrite Forall_forall in Hl. destruct (Hl _ Hin) as (H1 & _ & _ & H2).
  rewrite Ec in *. split; [exact H1|]. intros Hv. apply H2. simpl. by rewrite bool_decide_false.
Qed.

(** Only a proper neighbour comes up. Whatever is received, every adjacency
    the router is told of has a node number other than zero and, on a router,
    within the table; it is an endnode or a router; it is in this node's area,
    unless both ends are area routers, and then its area is in range; and when
    this circuit requires verification, a verification message with the
    configured value and that neighbour's address has been received. *)
Theorem neighbour_admitted id p sw t3 cost verify (es : list event) a :
  let c0 := new_circuit id p sw t3 cost verify in
  Forall (λ e, short_hellos (cf_t3 (conf c0)) e) es →
  AdjUp a ∈ outs (run c0 es) →
  admissible p (a_nodeid a) (a_ntype a) ∧
  (verify ≠ [] → ∃ ptr f v, Item ptr (Received f) ∈ es ∧ parse_frame f = Some (PPtpVerify v) ∧
     PtpVerify.srcnode v = a_nodeid a ∧ PtpVerify.fcnval v = verify).
Proof. apply admitted_any. Qed.

(** A router and an area router of another node: the circuit starts, the
    neighbour's init and its verification arrive, then a hello; the line goes
    down and comes up again. *)
Definition example_parent : parent := mkParent (Nodeid.make 1 5) L1ROUTER 4 tiver_ph4 1023 63.
Definition frame_of (p : RoutingPacket) : Bytes := match encode_packet p with Ok f => f | Throw _ => [] end.
Definition example_init : Bytes :=
  frame_of (PPtpInit (PtpInit.set_timer 15 (PtpInit.set_ntype L2ROUTER (PtpInit.set_srcnode (Nodeid.make 1 7) PtpInit.new)))).
Definition example_verify : Bytes :=
  frame_of (PPtpVerify (PtpVerify.set_fcnval [83; 69; 83] (PtpVerify.set_srcnode (Nodeid.make 1 7) PtpVerify.new))).
Definition example_hello : Bytes :=
  frame_of (PPtpHello (PtpHello.set_testdata (hello_testdata 3) (PtpHello.set_srcnode (Nodeid.make 1 7) PtpHello.new))).
Definition example_events : list event :=
  [Item 1 CircuitStart; Item 2 (DlStatus true); Item 3 (Received example_init); Item 4 (Received example_verify);
   Expire 5; Item 6 (Received example_hello); SendPkt ShortData.new; ListenExpire; Item 7 (DlStatus true);
   Item 8 (Received example_init); Item 9 (Received example_verify)].
Definition example_circuit : circuit := new_circuit 3 example_parent true 10 0 [83; 69; 83].
Definition example_adjacency (ptr : Z) : adjacency := mkAdj ptr (Nodeid.make 1 7) L2ROUTER (Some 3) 4.

Lemma example_short : Forall (λ e, short_hellos (cf_t3 (conf example_circuit)) e) example_events.
Proof. apply forallb_True. vm_compute. exact Logic.I. Qed.

Lemma adjacency_lifecycle_witness :
  let c := run example_circuit example_events in
  neighbour c = Some (example_adjacency 8) ∧ track (outs c) = Some (neighbour c) ∧ running c = true.
Proof.
  destruct (adjacency_lifecycle 3 example_parent true 10 0 [83; 69; 83] example_events example_short) as (H & _).
  split; [vm_compute; reflexivity|]. split; [exact H|vm_compute; reflexivity].
Defined.

Lemma neighbour_admitted_witness :
  AdjUp (example_adjacency 3) ∈ outs (run example_circuit example_events) ∧
  ∃ ptr f v, Item ptr (Received f) ∈ example_events ∧ parse_frame f = Some (PPtpVerify v) ∧
     PtpVerify.srcnode v = Nodeid.make 1 7 ∧ PtpVerify.fcnval v = [83; 69; 83].
Proof.
  assert (AdjUp (example_adjacency 3) ∈ outs (run example_circuit example_events)) as Hin.
  { apply list_elem_of_In. vm_compute. tauto. }
  destruct (neighbour_admitted 3 example_parent true 10 0 [83; 69; 83] example_events _ example_short Hin) as [_ H].
  split; [exact Hin|]. apply H. discriminate.
Defined.
