(* ===== verification/PtpLog.v ===== *)
(** What a point to point circuit says, whatever happens to it: a principle for
    the outputs of any run, and two things that follow for neighbours that
    this code never lets in. *)

From S2P Require Import Prelude Buffer Types Codec RoutingPackets RouteTable Float Adjacency Timers Ptp PtpNeighbour.
#[local] Open Scope Z_scope.

(** ** Outputs of any run

    [Q] is to hold of every output and [good] of the circuit's adjacency. *)
Section Log.
Context (cf : circuit_conf) (Q : output → Prop) (good : Adjacency → Prop).

(** The outputs that need an argument. *)
Definition plain (o : output) : bool :=
  match o with AdjUp _ | DlSend (PPtpVerify _) => false | _ => true end.

Hypothesis Hplain : ∀ o, plain o = true → Q o.
Hypothesis Hverify : ∀ c, conf c = cf → Q (DlSend (PPtpVerify
  (PtpVerify.set_srcnode (own_src c) (PtpVerify.set_fcnval (cf_verify cf) PtpVerify.new)))).
Hypothesis Hup : ∀ j, good j → (i_ntype (j_info j) =? PHASE2) || within_span (j_t4 j) = true → Q (AdjUp (j_adj j)).
Hypothesis Hgood : ∀ j u t, good j → good (mkAdjacency (j_adj j) (j_info j) (j_t4 j) u t).

(** An event whose init message makes a good adjacency. *)
Definition event_good (e : event) : Prop :=
  match e with
  | Item ptr (Received f) => ∀ init, parse_frame f = Some (PPtpInit init) →
      ∀ c, conf c = cf → good (make_adjacency ptr (learn init c))
  | _ => True
  end.

Record logs (c : circuit) : Prop := {
  g_conf : conf c = cf;
  g_outs : Forall Q (outs c);
  g_adj : ∀ j, adj c = Some j → good j;
}.
Definition keeps_log (k : circuit → outcome) : Prop := ∀ c, logs c → logs (k c).1.

Lemma say_logs o c : Q o → logs c → logs (say o c).
Proof. intros Ho [Hc Hl Ha]. constructor; [done| |done]. simpl. apply Forall_app. split; [done|]. by constructor. Qed.
Lemma plain_logs o c : plain o = true → logs c → logs (say o c).
Proof. intros Ho. by apply say_logs, Hplain. Qed.

(** Members that the log does not depend on. *)
Lemma frame_logs c c' : conf c' = conf c → outs c' = outs c → adj c' = adj c → logs c → logs c'.
Proof. intros E1 E2 E3 [Hc Hl Ha]. constructor; [by rewrite E1|by rewrite E2|]. intros j. rewrite E3. apply Ha. Qed.
Lemma no_adj_logs c c' : conf c' = conf c → outs c' = outs c → adj c' = None → logs c → logs c'.
Proof. intros E1 E2 E3 [Hc Hl Ha]. constructor; [by rewrite E1|by rewrite E2|]. intros j. by rewrite E3. Qed.
Ltac same := match goal with H : logs ?c |- _ => apply (frame_logs c); [reflexivity..|exact H] end.
Lemma clear_logs c : logs c → logs (clear_neighbour c).
Proof. by apply no_adj_logs. Qed.
Lemma set_state_logs o : logs o.1 → logs (set_state o).
Proof. unfold set_state. destruct (o.2); intros H; [same|done]. Qed.

Lemma starting_logs t k : keeps_log k → keeps_log (starting t k).
Proof. intros Hk c H. unfold starting. destruct (within_span t); [|done]. apply Hk. same. Qed.

Lemma adjacency_down_logs j c : good j → logs c → logs (adjacency_down j c).
Proof.
  intros Hj H. unfold adjacency_down. destruct (negb (j_up j)); [done|]. apply plain_logs; [done|].
  destruct H as [Hc Hl Ha]. constructor; [done|done|]. intros j' [= <-]. by apply Hgood.
Qed.
Lemma down_logs c : logs c → logs (down c).
Proof.
  intros H. unfold down. destruct (adj c) as [j|] eqn:Ej; [|by apply (no_adj_logs c)].
  apply (no_adj_logs (adjacency_down j c)); [done..|]. apply adjacency_down_logs; [by apply (g_adj c H)|done].
Qed.

Lemma restart_logs : keeps_log restart.
Proof.
  intros c H. unfold restart. cbn [fst].
  assert (logs (count_restart c)) as H1.
  { destruct (count_restart_fields c) as (E1 & _ & E2 & E3). by apply (frame_logs c). }
  apply plain_logs; [by destruct (cf_start_works _)|].
  assert (logs (if running (count_restart c) then down (count_restart c) else count_restart c)) as H2
    by (destruct (running _); [by apply down_logs|done]).
  pose proof (clear_logs _ H2). same.
Qed.
Lemma restart_event_logs code r : keeps_log (restart_event code r).
Proof. intros c H. by apply restart_logs, plain_logs. Qed.
Lemma halt_logs c : logs c → logs (halt c).1.
Proof. intros H. apply plain_logs; [done|]. same. Qed.

Lemma adjacency_up_logs j k c : good j → keeps_log k → logs c → logs (adjacency_up j k c).1.
Proof.
  intros Hj Hk H. unfold adjacency_up. destruct (j_up j); [by apply Hk|].
  assert (∀ t, logs (with_adj (Some (listening j t)) c)) as Ha.
  { intros t. destruct H as [Hc Hl _]. constructor; [done|done|]. intros j' [= <-]. by apply Hgood. }
  destruct (i_ntype (j_info j) =? PHASE2) eqn:E1.
  - apply Hk, say_logs; [apply Hup; [done|by rewrite E1]|apply Ha].
  - destruct (within_span (j_t4 j)) eqn:E2; [|apply Ha].
    apply Hk, say_logs; [apply Hup; [done|by rewrite E1, E2]|apply Ha].
Qed.
Lemma up_logs k : keeps_log k → keeps_log (up k).
Proof.
  intros Hk c H. unfold up. set (c1 := with_counters _ c).
  assert (logs c1) as H1 by same.
  assert (keeps_log (λ c, starting (cf_t3 (conf c)) k (routeevent 10 None [] c))) as Hr
    by (intros c' H'; apply starting_logs; [done|by apply plain_logs]).
  change (adj c1) with (adj c). destruct (adj c) as [j|] eqn:Ej; [|by apply Hr].
  apply adjacency_up_logs; [by apply (g_adj c H)|exact Hr|exact H1].
Qed.
Lemma next_logs s : keeps_log (λ c, (c, s)).
Proof. intros c H. exact H. Qed.

Lemma alive_logs k : keeps_log k → keeps_log (alive k).
Proof.
  intros Hk c H. unfold alive. destruct (adj c) as [j|] eqn:Ej; [|by apply Hk].
  destruct (_ =? _); [by apply Hk|]. destruct (within_span _); [|done]. apply Hk.
  pose proof (g_adj c H j Ej) as Hj. destruct H as [Hc Hl _]. constructor; [done|done|]. intros j' [= <-]. by apply Hgood.
Qed.

Lemma ri_init_logs ptr init : (∀ c, conf c = cf → good (make_adjacency ptr (learn init c))) → keeps_log (ri_init ptr init).
Proof.
  intros Hi c H. unfold ri_init. destruct (p_phase (own c) <? 4); [done|].
  destruct (negb (known_ntype _)); [by apply restart_event_logs|].
  destruct (PtpInit.blo init); [by apply restart_logs|]. destruct (negb (PtpInit.check init)); [by apply restart_logs|].
  destruct (out_of_range _ _); [by apply restart_event_logs|].
  assert (logs (learn init c)) as Hl by (same).
  set (c1 := if PtpInit.verif init then _ else _).
  assert (logs c1 ∧ conf c1 = conf c ∧ make_adjacency ptr c1 = make_adjacency ptr (learn init c)) as (H1 & E1 & E2).
  { unfold c1. destruct (PtpInit.verif init); [|done]. split; [|done]. apply say_logs; [|done].
    change (conf (learn init c)) with (conf c). rewrite (g_conf c H). by apply Hverify, H. }
  assert (logs (with_adj (Some (make_adjacency ptr c1)) c1)) as H2.
  { destruct H1 as [Hc Ho _]. constructor; [done|done|]. intros j [= <-]. rewrite E2. apply Hi, H. }
  destruct (cf_request_verify _); [by apply starting_logs; [apply next_logs|]|by apply up_logs; [apply next_logs|]].
Qed.

Lemma ru_packet_logs p : keeps_log (ru_packet p).
Proof.
  intros c H. destruct p; simpl; try done; try (by apply plain_logs).
  - destruct (negb _); [by apply restart_logs|done].
  - destruct (negb _); [by apply restart_logs|]. destruct (negb _); [by apply restart_logs|done].
  - destruct (adj c); [by apply plain_logs|done].
  - destruct (adj c); [by apply plain_logs|done].
Qed.

Lemma action_logs ptr w pkt :
  (∀ init, pkt = Some (PPtpInit init) → ∀ c, conf c = cf → good (make_adjacency ptr (learn init c))) →
  keeps_log (action ptr w pkt).
Proof.
  intros Hi c H. assert (logs (routeevent 9 None [] c)) as H9 by by apply plain_logs. unfold action. destruct (c_state c).
  - assert (logs (clear_neighbour (say DlOpen c))) as Hs by (by apply clear_logs, plain_logs). by destruct w.
  - destruct w as [| | | |[]|]; simpl; try done; [by apply halt_logs|by apply restart_logs| |by apply restart_event_logs].
    apply starting_logs; [apply next_logs|]. apply plain_logs; [done|]. pose proof (clear_logs c H). same.
  - destruct w as [| | | |[]|]; simpl; try done; try (by apply restart_logs); try (by apply halt_logs).
    all: destruct pkt as [[]|]; try done; try (by apply restart_logs); try (by apply restart_event_logs).
    all: apply ri_init_logs; [by apply Hi|done].
  - destruct w as [| | | |[]|]; simpl; try done; try (by apply restart_logs); try (by apply halt_logs).
    all: destruct pkt as [[]|]; try done; destruct (negb (check_src _ _)); try (by apply restart_logs).
    all: destruct (negb _); [by apply restart_event_logs, plain_logs|by apply up_logs; [apply next_logs|]].
  - destruct w as [| | | |[]|]; simpl; try done; try (by apply restart_logs).
    1, 4: destruct pkt as [p|]; [by apply alive_logs; [apply ru_packet_logs|]|done].
    + by apply halt_logs, down_logs.
    + unfold send_hello. destruct (negb (running c)); [done|]. apply starting_logs; [apply next_logs|by apply plain_logs].
Qed.

Lemma dispatch_logs ptr w c : event_good (Item ptr w) → logs c → logs (dispatch ptr w c).
Proof.
  intros He H. unfold dispatch.
  destruct (validate_spec w c) as [[-> _]|[(f & _ & _ & ->)|[(f & p & Ew & Hf & ->)|[Hw ->]]]].
  - exact H.
  - by apply plain_logs.
  - apply set_state_logs, action_logs; [|exact H]. intros init Ei. subst w. apply He. rewrite Hf. exact Ei.
  - apply set_state_logs, action_logs; [discriminate|exact H].
Qed.

Lemma step_logs c e : event_good e → logs c → logs (step c e).
Proof.
  intros He H. destruct e as [ptr w|ptr| |p|f]; simpl.
  - by apply dispatch_logs.
  - destruct (timer c); [|done]. apply dispatch_logs; [exact Logic.I|]. same.
  - destruct (adj c ≫= j_timer); [|done]. unfold adj_timeout. destruct (adj c) as [j|] eqn:Ej; [|done].
    apply set_state_logs, restart_logs. apply (no_adj_logs (routeevent 8 (Some listener_timeout) [] (adjacency_down j c))); [done..|].
    apply plain_logs; [done|]. apply adjacency_down_logs; [by apply (g_adj c H)|done].
  - unfold send. destruct (negb (running c)); [done|]. destruct (_ && _); [done|by apply plain_logs].
  - unfold send_raw. destruct (negb (running c)); [done|by apply plain_logs].
Qed.

Lemma run_logs es c : Forall event_good es → logs c → logs (run c es).
Proof. intros He. revert c. induction He as [|e es He _ IH]; intros c H; [done|]. simpl. by apply IH, step_logs. Qed.
End Log.

Lemma new_logs Q good id p sw t3 cost verify :
  let c := new_circuit id p sw t3 cost verify in logs (conf c) Q good c.
Proof. constructor; [reflexivity|constructor|discriminate]. Qed.

(** ** Verification *)

(** Every verification message that this code sends has the null value. *)
Lemma verify_is_null id p sw t3 cost verify es v :
  DlSend (PPtpVerify v) ∈ outs (run (new_circuit id p sw t3 cost verify) es) → PtpVerify.fcnval v = [].
Proof.
  set (c0 := new_circuit id p sw t3 cost verify). intros Hin.
  set (Q := λ o, match o with DlSend (PPtpVerify v) => PtpVerify.fcnval v = [] | _ => True end).
  assert (logs (conf c0) Q (λ _, True) (run c0 es)) as H.
  { apply (run_logs (conf c0) Q (λ _, True)); clear Hin.
    - intros o Ho. destruct o as [| | |[]| | | | | | | |]; first [exact Logic.I|discriminate].
    - intros c Ec. reflexivity.
    - intros; exact Logic.I.
    - intros; exact Logic.I.
    - apply Forall_forall. intros [ptr []| | | |] _; unfold event_good; intros; exact Logic.I.
    - apply new_logs. }
  pose proof (g_outs _ _ _ _ H) as Hl. rewrite Forall_forall in Hl. exact (Hl _ Hin).
Qed.

(** Verification cannot succeed between two nodes that run this program. A
    circuit configured to require verification, and every one of whose received
    verification messages was sent by a circuit of this program (however that
    one is configured, and whatever happens to either), never tells the router
    of a neighbour: nothing ever sets the value that a circuit sends. *)
Theorem verification_never_passes id p sw t3 cost verify es :
  let c0 := new_circuit id p sw t3 cost verify in
  verify ≠ [] → Forall (λ e, short_hellos (cf_t3 (conf c0)) e) es →
  (∀ ptr f v, Item ptr (Received f) ∈ es → parse_frame f = Some (PPtpVerify v) →
     ∃ id' p' sw' t3' cost' verify' es',
       DlSend (PPtpVerify v) ∈ outs (run (new_circuit id' p' sw' t3' cost' verify') es')) →
  ∀ a, AdjUp a ∉ outs (run c0 es).
Proof.
  intros c0 Hv Hes Hsent a Hin.
  destruct (admitted_any id p sw t3 cost verify es a Hes Hin) as [_ H].
  destruct (H Hv) as (ptr & f & v & Hf & Hp & _ & Ev).
  destruct (Hsent ptr f v Hf Hp) as (id' & p' & sw' & t3' & cost' & verify' & es' & Hs).
  apply Hv. rewrite <- Ev. exact (verify_is_null _ _ _ _ _ _ _ _ Hs).
Qed.

(** ** Hello timers beyond the wheel *)

(** A listen time that no timer can be started with. *)
Definition long_hellos (t3 : double) (e : event) : bool :=
  match e with
  | Item _ (Received f) =>
      match parse_frame f with
      | Some (PPtpInit init) => negb (within_span (listen_time t3 (PtpInit.timer init))) &&
                                negb (PtpInit.ntype init =? PHASE2)
      | _ => true
      end
  | _ => true
  end.

(** The wheel spans an hour: 2.1 hello times fit up to 1714 seconds. *)
Lemma longest_hello t3 :
  within_span (listen_time t3 1714) = true ∧ within_span (listen_time t3 1715) = false ∧
  within_span (listen_time t3 65535) = false.
Proof. split_and!; vm_compute; reflexivity. Qed.

(** A neighbour with a long hello timer is never let in. When every init
    message received asks for a hello time whose listen time, 2.1 times as long,
    is beyond the timer wheel, the start of the listen timer throws, and
    whatever happens the router is never told of the neighbour. A hello time of
    1714 seconds fits; 1715 and the largest that the field can hold do not. *)
Theorem long_hello_never_up id p sw t3 cost verify es :
  let c0 := new_circuit id p sw t3 cost verify in
  Forall (λ e, long_hellos (cf_t3 (conf c0)) e) es →
  (∀ a, AdjUp a ∉ outs (run c0 es)) ∧
  within_span (listen_time (cf_t3 (conf c0)) 1714) = true ∧
  within_span (listen_time (cf_t3 (conf c0)) 1715) = false ∧
  within_span (listen_time (cf_t3 (conf c0)) 65535) = false.
Proof.
  intros c0 Hes. split; [|apply longest_hello].
  - set (Q := λ o, match o with AdjUp _ => False | _ => True end).
    set (good := λ j, (i_ntype (j_info j) =? PHASE2) = false ∧ within_span (j_t4 j) = false).
    assert (logs (conf c0) Q good (run c0 es)) as H.
    { apply (run_logs (conf c0) Q good).
      - intros [] Ho; first [exact Logic.I|discriminate].
      - intros c Ec. exact Logic.I.
      - intros j [E1 E2]. rewrite E1, E2. discriminate.
      - intros j u t Hj. exact Hj.
      - apply Forall_forall. intros e He. rewrite Forall_forall in Hes. specialize (Hes e He).
        destruct e as [ptr [| | | | |f]| | | |]; try exact Logic.I.
        intros init Hf c Ec. unfold long_hellos in Hes. rewrite Hf in Hes. apply andb_True in Hes as [H1 H2].
        apply negb_True, Is_true_false in H1. apply negb_True, Is_true_false in H2.
        split; [exact H2|]. rewrite <- Ec in H1. exact H1.
      - apply new_logs. }
    intros a Hin. pose proof (g_outs _ _ _ _ H) as Hl. rewrite Forall_forall in Hl. exact (Hl _ Hin).
Qed.

(** A circuit that requires a password, and a neighbour that is asked for it. *)
Definition example_other : circuit :=
  new_circuit 9 (mkParent (Nodeid.make 1 7) L2ROUTER 4 tiver_ph4 1023 63) true 15 0 [].
Definition example_ask : Bytes :=
  frame_of (PPtpInit (PtpInit.set_verif true (PtpInit.set_timer 15 (PtpInit.set_ntype L1ROUTER
    (PtpInit.set_srcnode (Nodeid.make 1 5) PtpInit.new))))).
Definition example_null : PtpVerify.t := PtpVerify.set_srcnode (Nodeid.make 1 7) PtpVerify.new.
Definition example_refused : list event :=
  [Item 1 CircuitStart; Item 2 (DlStatus true); Item 3 (Received example_init);
   Item 4 (Received (frame_of (PPtpVerify example_null)))].

Lemma verification_never_passes_witness :
  running (run (new_circuit 9 (mkParent (Nodeid.make 1 7) L2ROUTER 4 tiver_ph4 1023 63) true 15 0 [])
             [Item 1 CircuitStart; Item 2 (DlStatus true); Item 3 (Received example_ask)]) = true ∧
  c_state (run example_circuit example_refused) = St_ds ∧ VerReject ∈ outs (run example_circuit example_refused) ∧
  ∀ a, AdjUp a ∉ outs (run example_circuit example_refused).
Proof.
  split; [vm_compute; reflexivity|]. split; [vm_compute; reflexivity|].
  split; [apply list_elem_of_In; vm_compute; tauto|].
  apply (verification_never_passes 3 example_parent true 10 0 [83; 69; 83] example_refused).
  - discriminate.
  - apply forallb_True. vm_compute. exact Logic.I.
  - intros ptr f v Hin Hf.
    exists 9, (mkParent (Nodeid.make 1 7) L2ROUTER 4 tiver_ph4 1023 63), true, 15, 0, [].
    exists [Item 1 CircuitStart; Item 2 (DlStatus true); Item 3 (Received example_ask)].
    assert (parse_frame example_init = Some (PPtpInit (PtpInit.set_timer 15 (PtpInit.set_ntype L2ROUTER
      (PtpInit.set_srcnode (Nodeid.make 1 7) PtpInit.new))))) as E1 by (vm_compute; reflexivity).
    assert (parse_frame (frame_of (PPtpVerify example_null)) = Some (PPtpVerify example_null)) as E2 by (vm_compute; reflexivity).
    assert (f = example_init ∨ f = frame_of (PPtpVerify example_null)) as [-> | ->].
    { apply list_elem_of_In in Hin. destruct Hin as [H|[H|[H|[H|[]]]]].
      - discriminate H.
      - discriminate H.
      - left. congruence.
      - right. congruence. }
    + rewrite E1 in Hf. discriminate Hf.
    + rewrite E2 in Hf. injection Hf as <-. apply list_elem_of_In. vm_compute. tauto.
Defined.

(** The neighbour's hello time is half an hour. *)
Definition example_slow : Bytes :=
  frame_of (PPtpInit (PtpInit.set_timer 1800 (PtpInit.set_ntype L2ROUTER (PtpInit.set_srcnode (Nodeid.make 1 7) PtpInit.new)))).
Definition example_slow_events : list event :=
  [Item 1 CircuitStart; Item 2 (DlStatus true); Item 3 (Received example_slow); Expire 4; Item 5 (DlStatus true);
   Item 6 (Received example_slow)].
Lemma long_hello_never_up_witness :
  let c := run (new_circuit 3 example_parent true 10 0 []) example_slow_events in
  c_state c = St_ri ∧ (∀ a, AdjUp a ∉ outs c) ∧ within_span (listen_time (f_of_Z 10) 1715) = false.
Proof.
  destruct (long_hello_never_up 3 example_parent true 10 0 [] example_slow_events) as [H1 H2].
  { apply forallb_True. vm_compute. exact Logic.I. }
  split; [vm_compute; reflexivity|]. split; [exact H1|]. apply H2.
Defined.
