(* ===== verification/PtpSystem.v ===== *)
(** Two point to point circuits and the line between them: how they come up,
    and what happens when one of them starts over unnoticed.

    The line is two queues of frames.  A datalink delivers only what was sent
    once it is up, and in order, as DDCMP does. *)

From S2P Require Import Prelude Buffer Types Codec RoutingPackets RouteTable Float Adjacency Timers Ptp PtpNeighbour.
#[local] Open Scope Z_scope.

(** The frames a circuit has sent since it was [c]. *)
Definition frame_out (o : output) : option Bytes :=
  match o with DlSend p => Some (frame_of p) | DlSendRaw f => Some f | _ => None end.
Definition sent (c c' : circuit) : list Bytes := omap frame_out (drop (length (outs c)) (outs c')).

Lemma sent_app c c' new : outs c' = outs c ++ new → sent c c' = omap frame_out new.
Proof. unfold sent. intros ->. by rewrite drop_app_length. Qed.

(** ** One end *)

(** A node that [p] can have for a neighbour, by its own account. *)
Definition init_of (q : parent) (t3 : Z) : PtpInit.t :=
  initmsg (build_initmsg (new_circuit 0 q true t3 0 [])).
Definition accepts (p : parent) (t3 : Z) (q : parent) (t3q : Z) : Prop :=
  4 ≤ p_phase p ∧ admissible p (p_nodeid q) (p_ntype q) ∧ packet_ok (PPtpInit (init_of q t3q)) ∧
  within_span (cf_t3 (conf (new_circuit 0 p true t3 0 []))) = true ∧
  within_span (listen_time (cf_t3 (conf (new_circuit 0 p true t3 0 []))) (PtpInit.timer (init_of q t3q))) = true.

Lemma init_admissible p init : admissible p (PtpInit.srcnode init) (PtpInit.ntype init) →
  known_ntype (PtpInit.ntype init) = true ∧ PtpInit.check init = true ∧ out_of_range p init = false.
Proof.
  intros (Hk & Ht & Hn & Ha). rewrite !elem_of_cons in Hk. split_and!.
  - unfold known_ntype. rewrite !orb_true_iff, !Z.eqb_eq. rewrite elem_of_nil in Hk. tauto.
  - unfold PtpInit.check. apply negb_true_iff. by apply Z.eqb_neq.
  - unfold out_of_range. apply orb_false_iff. split; [apply orb_false_iff; split|].
    + apply andb_false_iff. destruct ((p_ntype p =? L1ROUTER) || (p_ntype p =? L2ROUTER)) eqn:E; [right|by left].
      apply Z.ltb_ge, Hn. rewrite !elem_of_cons. rewrite orb_true_iff, !Z.eqb_eq in E. tauto.
    + apply andb_false_iff. destruct (decide _) as [[E1 E2]|]; [right|left].
      * apply negb_false_iff, andb_true_iff. rewrite !Z.leb_le. exact Ha.
      * apply andb_false_iff. rewrite !Z.eqb_neq. destruct (decide (PtpInit.ntype init = L2ROUTER)); [right|left]; tauto.
    + apply andb_false_iff. destruct (decide _) as [[E1 E2]|Hd]; [left|right].
      * by rewrite E1, E2.
      * apply negb_false_iff, Z.eqb_eq. exact Ha.
Qed.

(** [up] when both timers can be started. *)
Lemma up_ok k c j :
  adj c = Some j → j_up j = false → (i_ntype (j_info j) =? PHASE2) = false → within_span (j_t4 j) = true →
  within_span (cf_t3 (conf c)) = true →
  up k c = k (with_timer (Some (cf_t3 (conf c))) (routeevent 10 None [] (say (AdjUp (j_adj j))
    (with_adj (Some (listening j (Some (j_t4 j))))
      (with_counters (mkCounters (cir_down (counters c)) (init_fail (counters c)) (adj_downs (counters c)) 1 true) c))))).
Proof.
  intros Ea Eu En Es Et. unfold up, adjacency_up, starting.
  change (adj (with_counters _ c)) with (adj c). rewrite Ea, Eu, En, Es.
  change (cf_t3 (conf (say _ _))) with (cf_t3 (conf c)). rewrite Et. reflexivity.
Qed.

Lemma parse_own_frame pkt : packet_ok pkt → norm pkt = pkt → parse_frame (frame_of pkt) = Some pkt.
Proof.
  intros Hok Hn. destruct (routing_parse_encode_any pkt Hok) as (bs & He & _ & Hp).
  unfold frame_of. rewrite He, Hp, Hn. reflexivity.
Qed.

Lemma dispatch_frame ptr f pkt c : parse_frame f = Some pkt →
  dispatch ptr (Received f) c = set_state (action ptr (Received f) (Some pkt) c).
Proof.
  intros Hf. pose proof (frame_nonempty f pkt Hf) as Hn. unfold dispatch, validate.
  destruct f as [|b f]; [destruct (Hn eq_refl)|]. rewrite Hf. reflexivity.
Qed.

(** An init message that is accepted, with nobody asking for verification. *)
Section Accepted.
Context (ptr : Z) (f : Bytes) (init : PtpInit.t) (c : circuit).
Context (Hf : parse_frame f = Some (PPtpInit init)) (Hst : c_state c = St_ri).
Context (Hph : 4 ≤ p_phase (own c)) (Hadm : admissible (own c) (PtpInit.srcnode init) (PtpInit.ntype init)).
Context (Hblo : PtpInit.blo init = false) (Hver : PtpInit.verif init = false).
Context (Hreq : cf_request_verify (conf c) = false).
Context (Ht3 : within_span (cf_t3 (conf c)) = true).
Context (Hlisten : within_span (listen_time (cf_t3 (conf c)) (PtpInit.timer init)) = true).

Definition accepted_adjacency : Adjacency := make_adjacency ptr (learn init c).
Definition accepted : circuit :=
  let j := accepted_adjacency in
  with_c_state St_ru (with_timer (Some (cf_t3 (conf c))) (routeevent 10 None [] (say (AdjUp (j_adj j))
    (with_adj (Some (listening j (Some (j_t4 j))))
      (with_counters (mkCounters (cir_down (counters c)) (init_fail (counters c)) (adj_downs (counters c)) 1 true)
        (with_adj (Some j) (learn init c))))))).

Lemma dispatch_accepted : dispatch ptr (Received f) c = accepted.
Proof.
  destruct (init_admissible _ _ Hadm) as (Hk & Hc & Ho).
  rewrite (dispatch_frame ptr f _ c Hf). unfold action. rewrite Hst. cbn [ri]. unfold ri_init.
  replace (p_phase (own c) <? 4) with false by lia. rewrite Hk, Hblo, Hc, Ho, Hver. cbn [negb].
  change (cf_request_verify (conf (with_adj _ (learn init c)))) with (cf_request_verify (conf c)). rewrite Hreq.
  assert ((i_ntype (j_info accepted_adjacency) =? PHASE2) = false) as Hnt.
  { destruct Hadm as [Hin _]. rewrite !elem_of_cons in Hin. apply Z.eqb_neq.
    change (i_ntype (j_info accepted_adjacency)) with (PtpInit.ntype init).
    intros E0. rewrite E0 in Hin. destruct Hin as [H|[H|[H|H]]]; [discriminate..|]. by apply elem_of_nil in H. }
  rewrite (up_ok _ _ accepted_adjacency); [reflexivity|reflexivity|reflexivity|exact Hnt|exact Hlisten|exact Ht3].
Qed.

Lemma accepted_outs : outs accepted = outs c ++
  [AdjUp (j_adj accepted_adjacency); Event 10 (if PtpInit.srcnode init =? 0 then None else Some (PtpInit.srcnode init)) None []].
Proof. unfold accepted. cbn. by rewrite <- app_assoc. Qed.
End Accepted.

Section Side.
Context (id : Z) (p : parent) (sw : bool) (t3 cost : Z) (q : parent) (t3q ptr : Z).
Context (Hacc : accepts p t3 q t3q).

(** Started; the datalink up; the neighbour's init received. *)
Definition end0 : circuit := dispatch 0 CircuitStart (new_circuit id p sw t3 cost []).
Definition end1 : circuit := dispatch 0 (DlStatus true) end0.
Definition end2 : circuit := dispatch ptr (Received (frame_of (PPtpInit (init_of q t3q)))) end1.
Definition end_adjacency : adjacency :=
  mkAdj ptr (p_nodeid q) (p_ntype q) (Some id) (if cost =? 0 then 4 else cost).

Lemma end0_spec : c_state end0 = St_ds.
Proof. reflexivity. Qed.

Lemma end1_spec : c_state end1 = St_ri ∧ sent end0 end1 = [frame_of (PPtpInit (init_of p t3))] ∧
  outs end1 = [DlOpen; DlSend (PPtpInit (init_of p t3))] ∧ conf end1 = conf (new_circuit id p sw t3 cost []) ∧
  info end1 = mkInfo 0 UNKNOWN MTU (mkVersion 0 0 0) 0 0 0 ∧ counters end1 = mkCounters 0 0 0 0 false.
Proof.
  destruct Hacc as (_ & _ & _ & Hs & _).
  assert (end1 = set_state (starting (cf_t3 (conf end0)) (λ c, (c, Some St_ri))
            (dlsend (PPtpInit (init_of p t3)) (build_initmsg (clear_neighbour end0))))) as -> by reflexivity.
  unfold starting. change (within_span (cf_t3 (conf end0))) with
    (within_span (cf_t3 (conf (new_circuit 0 p true t3 0 [])))). rewrite Hs.
  split_and!; reflexivity.
Qed.

Lemma end2_accepted : end2 = accepted ptr (init_of q t3q) end1.
Proof.
  destruct end1_spec as (E1 & _ & _ & E3 & _). destruct Hacc as (Hph & Ha & Hok & Hs & Hl).
  assert (own end1 = p) as Eo by (unfold own; rewrite E3; reflexivity).
  unfold end2. apply dispatch_accepted; rewrite ?Eo, ?E3; try assumption; try reflexivity.
  apply parse_own_frame; [exact Hok|reflexivity].
Qed.

Lemma end2_spec : c_state end2 = St_ru ∧ sent end1 end2 = [] ∧ neighbour end2 = Some end_adjacency ∧
  conf end2 = conf (new_circuit id p sw t3 cost []) ∧
  hellomsg end2 = PtpHello.set_testdata (hello_testdata 10) (PtpHello.set_srcnode (p_nodeid p) PtpHello.new) ∧
  (∃ j, adj end2 = Some j ∧ j_up j = true ∧ j_timer j = Some (j_t4 j) ∧ within_span (j_t4 j) = true) ∧
  wants_updates 1 end2 = ((p_ntype q =? L1ROUTER) || (p_ntype q =? L2ROUTER)) ∧
  update_blksize end2 = MTU.
Proof.
  rewrite end2_accepted. destruct end1_spec as (_ & _ & _ & E3 & _). destruct Hacc as (_ & _ & _ & _ & Hl).
  generalize dependent end1. intros c E3.
  assert (own c = p) as Eo by (unfold own; rewrite E3; reflexivity).
  set (init := init_of q t3q) in *.
  assert (PtpInit.ntype init = p_ntype q ∧ PtpInit.srcnode init = p_nodeid q ∧ PtpInit.blksize init = MTU) as (I1 & I2 & I3) by done.
  clearbody init. split_and!.
  - reflexivity.
  - by rewrite (sent_app _ _ _ (accepted_outs ptr init c)).
  - unfold neighbour, accepted, end_adjacency. cbn. rewrite E3, I1, I2. reflexivity.
  - exact E3.
  - change (PtpHello.set_testdata (hello_testdata 10) (PtpHello.set_srcnode (p_nodeid (own c)) PtpHello.new) =
      PtpHello.set_testdata (hello_testdata 10) (PtpHello.set_srcnode (p_nodeid p) PtpHello.new)). by rewrite Eo.
  - eexists. split; [reflexivity|]. split; [reflexivity|]. split; [reflexivity|].
    change (within_span (listen_time (cf_t3 (conf c)) (PtpInit.timer init)) = true). rewrite E3. exact Hl.
  - unfold wants_updates. change (i_ntype (info (accepted ptr init c))) with (PtpInit.ntype init). rewrite I1.
    cbn [Z.eqb]. by destruct ((p_ntype q =? L1ROUTER) || (p_ntype q =? L2ROUTER)).
  - change (Z.min (PtpInit.blksize init) MTU = MTU). rewrite I3. reflexivity.
Qed.
End Side.

(** ** Two ends *)

Record line := mkLine { end_a : circuit; end_b : circuit; a2b : list Bytes; b2a : list Bytes }.

Definition at_a (e : event) (l : line) : line :=
  let c := step (end_a l) e in mkLine c (end_b l) (a2b l ++ sent (end_a l) c) (b2a l).
Definition at_b (e : event) (l : line) : line :=
  let c := step (end_b l) e in mkLine (end_a l) c (a2b l) (b2a l ++ sent (end_b l) c).
(** The line hands over the oldest frame. *)
Definition deliver_a (ptr : Z) (l : line) : option line :=
  match b2a l with
  | f :: fs => Some (at_a (Item ptr (Received f)) (mkLine (end_a l) (end_b l) (a2b l) fs))
  | [] => None
  end.
Definition deliver_b (ptr : Z) (l : line) : option line :=
  match a2b l with
  | f :: fs => Some (at_b (Item ptr (Received f)) (mkLine (end_a l) (end_b l) fs (b2a l)))
  | [] => None
  end.

(** *** Coming up *)

(** What happens while the two come up, in whatever order: each datalink reports
    that it is up, once, and delivers only from then on.  No timer expires. *)
Inductive coming := UpA | UpB | ToA | ToB.
Definition moves (pa pb : Z) (l : line) (e : coming) : option line :=
  match e with
  | UpA => if decide (c_state (end_a l) = St_ds) then Some (at_a (Item 0 (DlStatus true)) l) else None
  | UpB => if decide (c_state (end_b l) = St_ds) then Some (at_b (Item 0 (DlStatus true)) l) else None
  | ToA => if decide (c_state (end_a l) = St_ds) then None else deliver_a pa l
  | ToB => if decide (c_state (end_b l) = St_ds) then None else deliver_b pb l
  end.
Fixpoint comes (pa pb : Z) (es : list coming) (l : line) : option line :=
  match es with [] => Some l | e :: es => l' ← moves pa pb l e; comes pa pb es l' end.

Lemma at_a_eq e l c out : step (end_a l) e = c → sent (end_a l) c = out →
  at_a e l = mkLine c (end_b l) (a2b l ++ out) (b2a l).
Proof. unfold at_a. by intros -> ->. Qed.
Lemma at_b_eq e l c out : step (end_b l) e = c → sent (end_b l) c = out →
  at_b e l = mkLine (end_a l) c (a2b l) (b2a l ++ out).
Proof. unfold at_b. by intros -> ->. Qed.

Lemma step_up id p sw t3 cost : step (end0 id p sw t3 cost) (Item 0 (DlStatus true)) = end1 id p sw t3 cost.
Proof. unfold end1, step. reflexivity. Qed.
Lemma step_init id p sw t3 cost q t3q ptr :
  step (end1 id p sw t3 cost) (Item ptr (Received (frame_of (PPtpInit (init_of q t3q))))) = end2 id p sw t3 cost q t3q ptr.
Proof. unfold end2, step. reflexivity. Qed.

#[local] Strategy 1000 [dispatch frame_of init_of end0 end1 end2].

Section Pair.
Context (ida idb : Z) (p q : parent) (swa swb : bool) (t3a t3b costa costb ptra ptrb : Z).
Context (Ha : accepts p t3a q t3b) (Hb : accepts q t3b p t3a).

Definition end_of (i : nat) (e0 e1 e2 : circuit) : circuit := match i with O => e0 | 1%nat => e1 | _ => e2 end.
Definition a_at (i : nat) : circuit :=
  end_of i (end0 ida p swa t3a costa) (end1 ida p swa t3a costa) (end2 ida p swa t3a costa q t3b ptra).
Definition b_at (i : nat) : circuit :=
  end_of i (end0 idb q swb t3b costb) (end1 idb q swb t3b costb) (end2 idb q swb t3b costb p t3a ptrb).
(** The init is on the line until the other end has it. *)
Definition on_line (mine other : nat) (f : Bytes) : list Bytes :=
  match mine, other with S _, (0 | 1)%nat => [f] | _, _ => [] end.
Definition line_at (i j : nat) : line :=
  mkLine (a_at i) (b_at j) (on_line i j (frame_of (PPtpInit (init_of p t3a))))
    (on_line j i (frame_of (PPtpInit (init_of q t3b)))).

Ltac lines := unfold line_at, a_at, b_at; cbn [end_of on_line end_a end_b a2b b2a app]; reflexivity.

(** How far the two ends can be. *)
Definition reach (i j : nat) : Prop := (i ≤ 2 ∧ j ≤ 2 ∧ (i = 2 → 1 ≤ j) ∧ (j = 2 → 1 ≤ i))%nat.

Lemma moves_at e i j l : reach i j → moves ptra ptrb (line_at i j) e = Some l →
  ∃ i' j', reach i' j' ∧ l = line_at i' j' ∧ (i' + j' = S (i + j))%nat.
Proof.
  intros Hr Hm.
  destruct (end1_spec ida p swa t3a costa q t3b Ha) as (A1 & A2 & _).
  destruct (end2_spec ida p swa t3a costa q t3b ptra Ha) as (A3 & A4 & _).
  destruct (end1_spec idb q swb t3b costb p t3a Hb) as (B1 & B2 & _).
  destruct (end2_spec idb q swb t3b costb p t3a ptrb Hb) as (B3 & B4 & _).
  pose proof (end0_spec ida p swa t3a costa) as A0. pose proof (end0_spec idb q swb t3b costb) as B0.
  destruct e; unfold moves in Hm; cbn [line_at end_a end_b] in Hm.
  - assert (i = 0%nat) as -> by (destruct i as [|[|]]; [done|..]; simpl in Hm; rewrite decide_False in Hm by congruence; discriminate).
    rewrite decide_True in Hm by done. apply (inj Some) in Hm; subst l. exists 1%nat, j.
    assert (j = 0 ∨ j = 1)%nat as [-> | ->] by (unfold reach in Hr; lia); (split; [unfold reach; lia|]); (split; [|lia]);
      (etransitivity; [eapply at_a_eq; [exact (step_up ida p swa t3a costa)|exact A2]|lines]).
  - assert (j = 0%nat) as -> by (destruct j as [|[|]]; [done|..]; simpl in Hm; rewrite decide_False in Hm by congruence; discriminate).
    rewrite decide_True in Hm by done. apply (inj Some) in Hm; subst l. exists i, 1%nat.
    assert (i = 0 ∨ i = 1)%nat as [-> | ->] by (unfold reach in Hr; lia); (split; [unfold reach; lia|]); (split; [|lia]);
      (etransitivity; [eapply at_b_eq; [exact (step_up idb q swb t3b costb)|exact B2]|lines]).
  - destruct i as [|[|i]]; [discriminate Hm| |].
    + rewrite decide_False in Hm by (cbn [a_at b_at end_of]; congruence).
      destruct j as [|j]; [discriminate Hm|]. unfold deliver_a in Hm. cbn [line_at b2a on_line] in Hm. apply (inj Some) in Hm; subst l.
      exists 2%nat, (S j). unfold reach in *. split; [lia|]. split; [|lia].
      assert (j = 0 ∨ j = 1)%nat as [-> | ->] by lia;
      (etransitivity; [eapply at_a_eq; [exact (step_init ida p swa t3a costa q t3b ptra)|exact A4]|cbn [a2b]; rewrite app_nil_r; lines]).
    + rewrite decide_False in Hm by (cbn [a_at b_at end_of]; congruence). unfold deliver_a in Hm. cbn [line_at b2a] in Hm.
      destruct j; discriminate Hm.
  - destruct j as [|[|j]]; [discriminate Hm| |].
    + rewrite decide_False in Hm by (cbn [a_at b_at end_of]; congruence).
      destruct i as [|i]; [discriminate Hm|]. unfold deliver_b in Hm. cbn [line_at a2b on_line] in Hm. apply (inj Some) in Hm; subst l.
      exists (S i), 2%nat. unfold reach in *. split; [lia|]. split; [|lia].
      assert (i = 0 ∨ i = 1)%nat as [-> | ->] by lia;
      (etransitivity; [eapply at_b_eq; [exact (step_init idb q swb t3b costb p t3a ptrb)|exact B4]|cbn [b2a]; rewrite app_nil_r; lines]).
    + rewrite decide_False in Hm by (cbn [a_at b_at end_of]; congruence). unfold deliver_b in Hm. cbn [line_at a2b] in Hm.
      destruct i; discriminate Hm.
Qed.

(** Until both are up there is something that can happen. *)
Lemma can_move i j : reach i j → (i + j < 4)%nat → ∃ e l, moves ptra ptrb (line_at i j) e = Some l.
Proof.
  intros Hr Hij.
  destruct (end1_spec ida p swa t3a costa q t3b Ha) as (A1 & _).
  destruct (end1_spec idb q swb t3b costb p t3a Hb) as (B1 & _).
  destruct i as [|[|i]].
  - exists UpA. eexists. unfold moves. by rewrite decide_True.
  - destruct j as [|j].
    + exists UpB. eexists. unfold moves. by rewrite decide_True.
    + exists ToA. eexists. unfold moves. rewrite decide_False by (cbn [line_at end_a a_at end_of]; congruence).
      unfold deliver_a. cbn [line_at b2a on_line]. reflexivity.
  - assert (i = 0 ∧ j = 1)%nat as [-> ->] by (unfold reach in Hr; lia).
    exists ToB. eexists. unfold moves. rewrite decide_False by (cbn [line_at end_b b_at end_of]; congruence).
    unfold deliver_b. cbn [line_at a2b on_line]. reflexivity.
Qed.

Lemma comes_at es i j l : reach i j → comes ptra ptrb es (line_at i j) = Some l →
  ∃ i' j', reach i' j' ∧ l = line_at i' j' ∧ (i' + j' = length es + (i + j))%nat.
Proof.
  revert i j. induction es as [|e es IH]; intros i j Hr Hc; simpl in Hc.
  - injection Hc as <-. by exists i, j.
  - destruct (moves ptra ptrb (line_at i j) e) as [l1|] eqn:Em; [|discriminate Hc].
    destruct (moves_at e i j l1 Hr Em) as (i1 & j1 & Hr1 & -> & E1).
    destruct (IH i1 j1 Hr1 Hc) as (i2 & j2 & Hr2 & -> & E2). exists i2, j2. simpl. split_and!; [done|done|lia].
Qed.
End Pair.

(** C17: Two circuits come up. Take two nodes that each may have the other for a
    neighbour, neither asking for verification, and start their circuits: in
    whatever order the datalinks report that they are up and the frames are
    delivered, no more than four things can happen; as long as fewer have,
    another one can; and when four have, both circuits are running, each has
    told its router of the other node with its address, type and cost, and
    nothing is left on the line. *)
Theorem circuits_come_up ida idb p q swa swb t3a t3b costa costb ptra ptrb (es : list coming) l :
  accepts p t3a q t3b → accepts q t3b p t3a →
  comes ptra ptrb es (mkLine (end0 ida p swa t3a costa) (end0 idb q swb t3b costb) [] []) = Some l →
  (length es ≤ 4)%nat ∧
  ((length es < 4)%nat → ∃ e l', moves ptra ptrb l e = Some l') ∧
  (length es = 4%nat →
    running (end_a l) = true ∧ running (end_b l) = true ∧ a2b l = [] ∧ b2a l = [] ∧
    neighbour (end_a l) = Some (mkAdj ptra (p_nodeid q) (p_ntype q) (Some ida) (if costa =? 0 then 4 else costa)) ∧
    neighbour (end_b l) = Some (mkAdj ptrb (p_nodeid p) (p_ntype p) (Some idb) (if costb =? 0 then 4 else costb))).
Proof.
  intros Ha Hb Hc.
  destruct (comes_at ida idb p q swa swb t3a t3b costa costb ptra ptrb Ha Hb es 0 0 l) as (i & j & Hr & -> & Hl).
  { unfold reach. lia. }
  { exact Hc. }
  split; [unfold reach in Hr; lia|]. split.
  - intros. apply can_move; [done..|lia].
  - intros. assert (i = 2 ∧ j = 2)%nat as [-> ->] by (unfold reach in Hr; lia).
    destruct (end2_spec ida p swa t3a costa q t3b ptra Ha) as (A1 & _ & A2 & _).
    destruct (end2_spec idb q swb t3b costb p t3a ptrb Hb) as (B1 & _ & B2 & _).
    split_and!; [apply bool_decide_true; exact A1|apply bool_decide_true; exact B1|reflexivity|reflexivity|exact A2|exact B2].
Qed.

(** *** Starting over unnoticed *)

(** A frame that is not part of the initialization. *)
Definition harmless (f : Bytes) : Prop :=
  ∀ pkt, parse_frame f = Some pkt →
    match pkt with PPtpInit _ | PPtpInit3 _ | PPtpVerify _ => False | _ => True end.
Definition is_init (f : Bytes) : Prop := ∃ init, parse_frame f = Some (PPtpInit init).

Inductive happening :=
| AHello (ptr : Z) | ASend (p : ShortData.t) | AUpdate (f : Bytes) | AtB (e : event)
| ToA' (ptr : Z) | ToB' (ptr : Z) | LoseA | LoseB.
Definition happens (l : line) (h : happening) : line :=
  match h with
  | AHello ptr => at_a (Expire ptr) l
  | ASend p => at_a (SendPkt p) l
  | AUpdate f => at_a (SendFrame f) l
  | AtB e => at_b e l
  | ToA' ptr => default l (deliver_a ptr l)
  | ToB' ptr => default l (deliver_b ptr l)
  | LoseA => mkLine (end_a l) (end_b l) (tail (a2b l)) (b2a l)
  | LoseB => mkLine (end_a l) (end_b l) (a2b l) (tail (b2a l))
  end.
(** What [a] sends is data and routing messages; [b] gets frames from the line. *)
Definition allowed (h : happening) : Prop :=
  match h with
  | ASend p => packet_ok (PShortData p)
  | AUpdate f => harmless f
  | AtB (Item _ (Received _)) => False
  | _ => True
  end.

Lemma harmless_own pkt : packet_ok pkt →
  match norm pkt with PPtpInit _ | PPtpInit3 _ | PPtpVerify _ => False | _ => True end → harmless (frame_of pkt).
Proof.
  intros Hok Hn pkt' Hp. destruct (routing_parse_encode_any pkt Hok) as (bs & He & _ & Hp').
  unfold frame_of in Hp. rewrite He, Hp' in Hp. apply (inj Some) in Hp. by rewrite <- Hp.
Qed.

(** An end that is running, and stays so. *)
Section Stays.
Context (c0 : circuit) (j : Adjacency).
Context (Hadj : adj c0 = Some j) (Hup : j_timer j = Some (j_t4 j)) (Hfit : within_span (j_t4 j) = true).
Context (Ht3 : within_span (cf_t3 (conf c0)) = true) (Hhello : packet_ok (PPtpHello (hellomsg c0))).

Definition same_up (c : circuit) : Prop :=
  c_state c = St_ru ∧ conf c = conf c0 ∧ adj c = Some j ∧ hellomsg c = hellomsg c0.

Lemma stays_hello ptr c : same_up c → same_up (step c (Expire ptr)) ∧ Forall harmless (sent c (step c (Expire ptr))).
Proof.
  intros (E1 & E2 & E3 & E4). cbn [step]. destruct (timer c) as [t|].
  - assert (timeout ptr c = with_timer (Some (cf_t3 (conf c))) (dlsend (PPtpHello (hellomsg c)) (stop_timer c))) as ->.
    { unfold timeout, dispatch. cbn [validate]. unfold action.
      change (c_state (stop_timer c)) with (c_state c). rewrite E1. cbn [ru]. unfold send_hello, running.
      change (c_state (stop_timer c)) with (c_state c). rewrite E1. rewrite bool_decide_true by done. cbn [negb].
      unfold starting. change (conf (stop_timer c)) with (conf c). rewrite E2, Ht3. reflexivity. }
    split; [by split_and!|]. rewrite (sent_app _ _ [DlSend (PPtpHello (hellomsg c))]) by done.
    cbn [omap list_omap frame_out]. constructor; [|constructor]. rewrite E4. by apply harmless_own.
  - split; [by split_and!|]. rewrite (sent_app _ _ []) by (by rewrite app_nil_r). constructor.
Qed.

Lemma stays_send p c : packet_ok (PShortData p) → same_up c →
  same_up (step c (SendPkt p)) ∧ Forall harmless (sent c (step c (SendPkt p))).
Proof.
  intros Hp (E1 & E2 & E3 & E4). cbn [step]. unfold send. destruct (negb (running c)).
  { split; [by split_and!|]. rewrite (sent_app _ _ []) by (by rewrite app_nil_r). constructor. }
  destruct (_ && _).
  { split; [by split_and!|]. rewrite (sent_app _ _ []) by (by rewrite app_nil_r). constructor. }
  split; [by split_and!|]. rewrite (sent_app _ _ [DlSend (PShortData p)]) by done.
  constructor; [|constructor]. by apply harmless_own.
Qed.

Lemma stays_update f c : harmless f → same_up c →
  same_up (step c (SendFrame f)) ∧ Forall harmless (sent c (step c (SendFrame f))).
Proof.
  intros Hf (E1 & E2 & E3 & E4). cbn [step]. unfold send_raw. destruct (negb (running c)).
  { split; [by split_and!|]. rewrite (sent_app _ _ []) by (by rewrite app_nil_r). constructor. }
  split; [by split_and!|]. rewrite (sent_app _ _ [DlSendRaw f]) by done. constructor; [exact Hf|constructor].
Qed.

(** An init message changes nothing, but restarts the listen timer. *)
Lemma stays_init ptr f c : is_init f → same_up c →
  same_up (step c (Item ptr (Received f))) ∧ sent c (step c (Item ptr (Received f))) = [].
Proof.
  intros [init Hf] (E1 & E2 & E3 & E4).
  assert (step c (Item ptr (Received f)) = set_state (alive (ru_packet (PPtpInit init)) c)) as ->.
  { unfold step. rewrite (dispatch_frame ptr f _ c Hf). unfold action. rewrite E1. reflexivity. }
  assert (set_state (alive (ru_packet (PPtpInit init)) c) = c) as ->.
  { unfold alive, rearmed. rewrite E3, Hfit. destruct (i_ntype (j_info j) =? PHASE2); [reflexivity|].
    unfold set_state. cbn [ru_packet fst snd]. rewrite <- Hup. destruct c, j. cbn in *. by subst. }
  split; [by split_and!|]. rewrite (sent_app _ _ []) by (by rewrite app_nil_r). reflexivity.
Qed.
End Stays.

(** An end that waits for an init that does not come. *)
Section Waits.
Context (b0 : circuit) (Hinit : packet_ok (PPtpInit (initmsg (build_initmsg b0)))).

Definition early (s : pstate) : Prop := match s with St_ha | St_ds | St_ri => True | _ => False end.
Definition waiting (c : circuit) : Prop := early (c_state c) ∧ conf c = conf b0 ∧ adj c = None.

(** A step that keeps it waiting, with what it sends. *)
Definition waits_on (c : circuit) (c' : circuit) : Prop := waiting c' ∧ Forall is_init (sent c c').

Lemma waits_step c c' s new :
  waiting c → conf c' = conf c → adj c' = None → c_state c' = c_state c → outs c' = outs c ++ new →
  Forall is_init (omap frame_out new) → match s with None => True | Some s => early s end →
  waits_on c (set_state (c', s)).
Proof.
  intros (H1 & H2 & H3) E1 E2 E3 E4 Hn Hs. split.
  - unfold set_state, waiting. destruct s as [s|]; cbn; rewrite ?E1, ?E2, ?E3; by split_and!.
  - rewrite (sent_app _ _ new); [done|]. unfold set_state. cbn. by destruct s.
Qed.
Lemma waits_same c : waiting c → waits_on c (set_state (c, None)).
Proof. intros H. apply (waits_step c c None []); try done; [apply H|by rewrite app_nil_r]. Qed.

(** Restarting, after an event or not. *)
Lemma waits_restart c c' new : waiting c → conf c' = conf c → adj c' = None → c_state c' = c_state c →
  outs c' = outs c ++ new → omap frame_out new = [] → waits_on c (set_state (restart c')).
Proof.
  intros H E1 E2 E3 E4 Hn. destruct (count_restart_fields c') as (F1 & F2 & F3 & F4).
  assert (running (count_restart c') = false) as Hr.
  { unfold running. rewrite F2, E3. apply bool_decide_false. intros E. destruct H as [H _]. by rewrite E in H. }
  unfold restart. rewrite Hr.
  apply (waits_step c _ _ (new ++ [if cf_start_works (conf c) then DlRestart else PostStatusUp])); try done.
  - cbn. by rewrite F1.
  - cbn. by rewrite F2.
  - cbn. rewrite F4, F1, E1, E4. by rewrite <- app_assoc.
  - rewrite omap_app, Hn. by destruct (cf_start_works _).
Qed.

(** What [routeevent] says. *)
Definition event_of (code : Z) (r : option Z) (b : Bytes) (c : circuit) : output :=
  Event code (if i_id (info c) =? 0 then None else Some (i_id (info c))) r b.

Lemma waits_halt c : waiting c → waits_on c (set_state (halt (routeevent 9 None [] c))).
Proof.
  intros H. unfold halt. apply (waits_step c _ _ [event_of 9 None [] c; DlClose]); try done; [apply H|]. cbn. by rewrite <- app_assoc.
Qed.

Lemma waits_init c : waiting c →
  waits_on c (set_state (ds (DlStatus true) c)).
Proof.
  intros H. assert (initmsg (build_initmsg (clear_neighbour c)) = initmsg (build_initmsg b0)) as Ei.
  { unfold build_initmsg. cbn. unfold own. cbn. destruct H as (_ & -> & _). reflexivity. }
  assert (is_init (frame_of (PPtpInit (initmsg (build_initmsg (clear_neighbour c)))))) as Hi.
  { rewrite Ei. eexists. apply parse_own_frame; [exact Hinit|reflexivity]. }
  cbn [ds]. unfold starting. destruct (within_span _).
  - apply (waits_step c _ _ [DlSend (PPtpInit (initmsg (build_initmsg (clear_neighbour c))))]); try done. constructor; [exact Hi|constructor].
  - apply (waits_step c _ _ [DlSend (PPtpInit (initmsg (build_initmsg (clear_neighbour c))))]); try done. constructor; [exact Hi|constructor].
Qed.

Lemma waits_action ptr w pkt c : waiting c →
  match pkt with Some (PPtpInit _) | Some (PPtpInit3 _) | Some (PPtpVerify _) => False | _ => True end →
  waits_on c (set_state (action ptr w pkt c)).
Proof.
  intros H Hp. pose proof (waits_same c H) as Hs. pose proof (waits_halt c H) as Hh.
  assert (waits_on c (set_state (restart c))) as Hr by (apply (waits_restart c c []); try done; [apply H|by rewrite app_nil_r]).
  assert (∀ code r, waits_on c (set_state (restart_event code r c))) as Hre
    by (intros code r; apply (waits_restart c _ [event_of code (Some r) [] c]); try done; apply H).
  unfold action. destruct (c_state c) eqn:E; [..|destruct H as [H _]; by rewrite E in H|destruct H as [H _]; by rewrite E in H].
  - assert (waits_on c (set_state (clear_neighbour (say DlOpen c), Some St_ds))) as Hg
      by (apply (waits_step c _ _ [DlOpen]); done). destruct w; first [exact Hg|exact Hs].
  - destruct w as [| | | |[]|]; first [exact Hs|exact Hh|exact Hr|exact (Hre _ _)|by apply waits_init].
  - destruct w as [| | | |[]|]; cbn [ri]; first [exact Hh|exact Hr|exact Hs|idtac];
      destruct pkt as [[]|]; first [exact Hs|destruct Hp].
Qed.

Lemma waits_dispatch ptr w c : waiting c → (∀ f, w = Received f → harmless f) → waits_on c (dispatch ptr w c).
Proof.
  intros H Hw. unfold dispatch.
  destruct (validate_spec w c) as [[-> _]|[(f & _ & _ & ->)|[(f & p & Ew & Hf & ->)|[_ ->]]]].
  - exact (waits_same c H).
  - split; [exact H|]. rewrite (sent_app _ _ [event_of 4 None (take 6 f) c]) by reflexivity. constructor.
  - apply waits_action; [done|]. pose proof (Hw f Ew p Hf) as Hx. by destruct p.
  - by apply waits_action.
Qed.

Lemma waits_other c e : waiting c → (∀ ptr f, e = Item ptr (Received f) → harmless f) → waits_on c (step c e).
Proof.
  intros H He. pose proof (waits_same c H) as Hs. change (waits_on c c) in Hs.
  assert (running c = false) as Hr.
  { unfold running. apply bool_decide_false. intros E. destruct H as [H _]. by rewrite E in H. }
  destruct e as [ptr w|ptr| |p|f]; cbn [step].
  - apply waits_dispatch; [done|]. intros f ->. by apply (He ptr).
  - destruct (timer c); [|done]. unfold timeout.
    destruct (waits_dispatch ptr Timeout (stop_timer c)) as [W1 W2]; [exact H|intros f Ef; discriminate Ef|].
    split; [exact W1|exact W2].
  - destruct H as (_ & _ & ->). done.
  - unfold send. rewrite Hr. done.
  - unfold send_raw. rewrite Hr. done.
Qed.
End Waits.

Lemma hello_image : image 128 (hello_testdata 10).
Proof. apply (bool_decide_unpack _). vm_compute. exact Logic.I. Qed.

Section Unnoticed.
Context (a0 : circuit) (j : Adjacency).
Context (Hadj : adj a0 = Some j) (Hup : j_timer j = Some (j_t4 j)) (Hfit : within_span (j_t4 j) = true).
Context (Ht3 : within_span (cf_t3 (conf a0)) = true) (Hhello : packet_ok (PPtpHello (hellomsg a0))).
Context (b0 : circuit) (Hinit : packet_ok (PPtpInit (initmsg (build_initmsg b0)))).

Definition unnoticed (l : line) : Prop :=
  Forall harmless (a2b l) ∧ Forall is_init (b2a l) ∧ same_up a0 j (end_a l) ∧ waiting b0 (end_b l).

Lemma unnoticed_a e l : unnoticed l →
  same_up a0 j (step (end_a l) e) ∧ Forall harmless (sent (end_a l) (step (end_a l) e)) → unnoticed (at_a e l).
Proof. intros (H1 & H2 & H3 & H4) [K1 K2]. split; [cbn; by apply Forall_app|]. by split_and!. Qed.
Lemma unnoticed_b e l : unnoticed l → (∀ ptr f, e = Item ptr (Received f) → harmless f) → unnoticed (at_b e l).
Proof.
  intros (H1 & H2 & H3 & H4) He. destruct (waits_other b0 Hinit (end_b l) e H4 He) as [K1 K2].
  split; [done|]. split; [cbn; by apply Forall_app|]. by split.
Qed.

Lemma happens_unnoticed l h : unnoticed l → allowed h → unnoticed (happens l h).
Proof.
  intros H Hh. pose proof H as (H1 & H2 & H3 & H4). destruct h as [ptr|p|f|e|ptr|ptr| |]; cbn [happens].
  - apply unnoticed_a; [done|]. apply stays_hello; assumption.
  - apply unnoticed_a; [done|]. apply stays_send; assumption.
  - apply unnoticed_a; [done|]. apply stays_update; assumption.
  - apply unnoticed_b; [done|]. intros ptr f ->. destruct Hh.
  - unfold deliver_a. destruct (b2a l) as [|f fs] eqn:E; [exact H|]. cbn [default].
    apply Forall_cons in H2 as [Hf H2]. apply unnoticed_a; [by split_and!|]. cbn [end_a].
    assert (same_up a0 j (step (end_a l) (Item ptr (Received f))) ∧ sent (end_a l) (step (end_a l) (Item ptr (Received f))) = [])
      as [K1 K2] by (apply stays_init; assumption). split; [exact K1|]. rewrite K2. constructor.
  - unfold deliver_b. destruct (a2b l) as [|f fs] eqn:E; [exact H|]. cbn [default].
    apply Forall_cons in H1 as [Hf H1]. apply unnoticed_b; [by split_and!|].
    intros ptr' f' Ee. assert (f' = f) as -> by congruence. exact Hf.
  - split; [|by split_and!]. cbn. destruct (a2b l); [done|]. by apply Forall_cons in H1 as [_ H1].
  - split; [done|]. split; [|by split]. cbn. destruct (b2a l); [done|]. by apply Forall_cons in H2 as [_ H2].
Qed.
Lemma run_unnoticed hs l : unnoticed l → Forall allowed hs → unnoticed (foldl happens l hs).
Proof. intros H Hal. revert l H. induction Hal as [|h hs Hh _ IH]; intros l H; [done|]. by apply IH, happens_unnoticed. Qed.
End Unnoticed.

(** A restart that the datalink does not report is never noticed. Let [a] be
    running with a neighbour, and let that neighbour start over as [b], with a
    datalink (Multinet over UDP) that does not tell [a]. Whatever is sent,
    delivered or lost from then on, however [b]'s timers, datalink and operator
    act, and as long as the datalink, the operator and the listen timer of [a]
    are silent: [a] keeps the adjacency up, and [b] never gets one. Each init
    message of [b] that arrives restarts [a]'s listen timer, which is 2.1 times
    as long as the interval at which [b] repeats it. *)
Theorem restart_unnoticed ida p swa t3a costa q t3q ptra
    idb q' swb t3b costb verify (old : list Bytes) (hs : list happening) :
  accepts p t3a q t3q → packet_ok (PPtpInit (init_of p t3a)) →
  let a := end2 ida p swa t3a costa q t3q ptra in
  let b := new_circuit idb q' swb t3b costb verify in
  packet_ok (PPtpInit (initmsg (build_initmsg b))) → Forall harmless old → Forall allowed hs →
  let l := foldl happens (mkLine a b old []) hs in
  running (end_a l) = true ∧ neighbour (end_a l) = neighbour a ∧ running (end_b l) = false.
Proof.
  intros Ha Hia a b Hib Hold Hall.
  destruct (end2_spec ida p swa t3a costa q t3q ptra Ha) as (A1 & _ & _ & A4 & A5 & (j & Ej & Eu & Et & Ef) & _).
  assert (within_span (cf_t3 (conf a)) = true) as Ht3 by (unfold a; rewrite A4; apply Ha).
  assert (packet_ok (PPtpHello (hellomsg a))) as Hh.
  { unfold a. rewrite A5. destruct Hia as (_ & (Hsrc & _) & _). split; [by repeat split|]. split; [exact Hsrc|].
    apply hello_image. }
  destruct (run_unnoticed a j Ej Et Ef Ht3 Hh b Hib hs (mkLine a b old [])) as (_ & _ & S & W); [by split_and!|done|].
  set (l := foldl happens (mkLine a b old []) hs) in *.
  destruct S as (S1 & _ & S3 & _). destruct W as (W1 & _). split_and!.
  - unfold running. by rewrite S1.
  - unfold neighbour. rewrite S1, S3. unfold a. by rewrite A1, Ej.
  - unfold running. destruct (c_state (end_b l)); done.
Qed.

(** A level 1 router and an area router of the same area. *)
Definition example_area_router : parent := mkParent (Nodeid.make 1 7) L2ROUTER 4 tiver_ph4 1023 63.

Lemma example_init_ok : packet_ok (PPtpInit (init_of example_parent 10)) ∧ packet_ok (PPtpInit (init_of example_area_router 15)).
Proof. split; repeat split; apply (bool_decide_unpack _); vm_compute; exact Logic.I. Qed.
Lemma example_accepts : accepts example_parent 10 example_area_router 15 ∧ accepts example_area_router 15 example_parent 10.
Proof.
  destruct example_init_ok as [H1 H2]. unfold accepts, admissible.
  split; (split; [apply (bool_decide_unpack _); vm_compute; exact Logic.I|]); (split; [|split; [assumption|]]).
  - split; [apply (bool_decide_unpack _); vm_compute; exact Logic.I|].
    split; [apply (bool_decide_unpack _); vm_compute; exact Logic.I|].
    split; [intros _; apply (bool_decide_unpack _); vm_compute; exact Logic.I|reflexivity].
  - split; vm_compute; reflexivity.
  - split; [apply (bool_decide_unpack _); vm_compute; exact Logic.I|].
    split; [apply (bool_decide_unpack _); vm_compute; exact Logic.I|].
    split; [intros _; apply (bool_decide_unpack _); vm_compute; exact Logic.I|reflexivity].
  - split; vm_compute; reflexivity.
Qed.

Definition example_start : line :=
  mkLine (end0 3 example_parent true 10 0) (end0 8 example_area_router true 15 6) [] [].
Definition example_up : option line := comes 100 200 [UpB; UpA; ToB; ToA] example_start.

Lemma circuits_come_up_witness :
  ∃ l, example_up = Some l ∧ running (end_a l) = true ∧
       neighbour (end_b l) = Some (mkAdj 200 (Nodeid.make 1 5) L1ROUTER (Some 8) 6).
Proof.
  assert (is_Some example_up) as [l Hl] by (apply (bool_decide_unpack _); vm_compute; exact Logic.I).
  exists l. split; [exact Hl|]. destruct example_accepts as [Ha Hb].
  destruct (circuits_come_up 3 8 example_parent example_area_router true true 10 15 0 6 100 200 [UpB; UpA; ToB; ToA] l
              Ha Hb Hl) as (_ & _ & H).
  destruct (H eq_refl) as (R & _ & _ & _ & _ & N). exact (conj R N).
Defined.

(** The router's neighbour starts over; it repeats its init and gets hellos. *)
Definition example_happenings : list happening :=
  [AtB (Item 1 CircuitStart); AtB (Item 2 (DlStatus true)); AHello 3; ToA' 4; ToB' 5; AtB (Expire 6);
   AtB (Item 7 (DlStatus true)); ASend ShortData.new; ToA' 8; ToB' 9; LoseA].
Lemma restart_unnoticed_witness :
  let l := foldl happens (mkLine (end2 3 example_parent true 10 0 example_area_router 15 100)
             (new_circuit 8 example_area_router true 15 6 []) [] []) example_happenings in
  c_state (end_b l) = St_ri ∧ running (end_a l) = true ∧ running (end_b l) = false.
Proof.
  intros l. split; [vm_compute; reflexivity|].
  destruct example_accepts as [Ha _]. destruct example_init_ok as [H1 H2].
  destruct (restart_unnoticed 3 example_parent true 10 0 example_area_router 15 100 8 example_area_router true 15 6 []
              [] example_happenings Ha H1 H2) as (R1 & _ & R2).
  - constructor.
  - unfold example_happenings. repeat (constructor; [first [exact Logic.I|unfold allowed; repeat split; apply (bool_decide_unpack _); vm_compute; exact Logic.I]|]).
    constructor.
  - exact (conj R1 R2).
Defined.
