(* ===== verification/Bc.v ===== *)
(** Broadcast datalinks: [include/decnet/datalink/bc.h] and
    [src/datalink/bc.cc].

    A port is what one upper layer uses of the circuit; its owner is a number.
    [receive_frame] is what the receive thread does with a frame: the item it
    queues, if any, is its result.  The transport is whoever carries the frames
    [send] makes. *)

From S2P Require Import Prelude Buffer Types.
#[local] Open Scope Z_scope.

Definition MOPDL_PROTO : Z := 0x6001.
Definition MOPCONS_PROTO : Z := 0x6002.
Definition ROUTING_PROTO : Z := 0x6003.
Definition ETH_MTU : Z := 1500.
Definition ETH_MIN_FRAME : nat := 60.
Definition ETH_HDR_LEN : nat := 14.

(** [all_routers] and [all_endnodes], the multicast addresses of routing. *)
Definition all_routers : Bytes := [0xab; 0; 0; 3; 0; 0].
Definition all_endnodes : Bytes := [0xab; 0; 0; 4; 0; 0].

(** ** Framing *)

(** [f.resize (n, v)] of a shorter [f]. *)
Definition pad_to (n : nat) (v : Z) (f : Bytes) : Bytes := f ++ replicate (n - length f) v.

Definition build_frame (dest src : Bytes) (proto : Z) (payload : Bytes) (pad : bool) : Bytes :=
  let f := dest ++ src ++ [u8 (Z.shiftr proto 8); u8 (Z.land proto 255)] ++
           (if pad then [u8 (Z.land (len payload) 255); u8 (Z.shiftr (len payload) 8)] else []) ++ payload in
  pad_to ETH_MIN_FRAME 0x42 f.

Record ParsedFrame := mkFrame { f_dest : Bytes; f_src : Bytes; f_proto : Z; f_payload : Bytes }.

Definition byte_at (f : Bytes) (i : nat) : Z := default 0 (f !! i).
Definition parse_frame (frame : Bytes) (pad : bool) : option ParsedFrame :=
  if (length frame <? ETH_HDR_LEN + (if pad then 2 else 0))%nat then None
  else
    let proto := u16 (Z.lor (Z.shiftl (byte_at frame 12) 8) (byte_at frame 13)) in
    let parsed := mkFrame (take 6 frame) (take 6 (drop 6 frame)) proto in
    if pad then
      let n := Z.to_nat (Z.lor (byte_at frame 14) (Z.shiftl (byte_at frame 15) 8)) in
      if (length frame <? ETH_HDR_LEN + 2 + n)%nat then None
      else Some (parsed (take n (drop (ETH_HDR_LEN + 2) frame)))
    else Some (parsed (drop ETH_HDR_LEN frame)).

(** ** Ports *)

Record BcPortCounters := mkBcCounters {
  bytes_sent : Z; pkts_sent : Z; bytes_recv : Z; pkts_recv : Z; mcbytes_recv : Z; mcpkts_recv : Z }.
Definition no_counts : BcPortCounters := mkBcCounters 0 0 0 0 0 0.
Definition add_counts (a b : BcPortCounters) : BcPortCounters :=
  mkBcCounters (u64 (bytes_sent a + bytes_sent b)) (u64 (pkts_sent a + pkts_sent b))
    (u64 (bytes_recv a + bytes_recv b)) (u64 (pkts_recv a + pkts_recv b))
    (u64 (mcbytes_recv a + mcbytes_recv b)) (u64 (mcpkts_recv a + mcpkts_recv b)).
Definition count_sent (n : Z) (k : BcPortCounters) : BcPortCounters := add_counts k (mkBcCounters n 1 0 0 0 0).
Definition count_received (n : Z) (mc : bool) (k : BcPortCounters) : BcPortCounters :=
  add_counts k (if mc then mkBcCounters 0 0 n 1 n 1 else mkBcCounters 0 0 n 1 0 0).

Record BcPort := mkPort {
  owner : Z; proto : Z; pad : bool; macaddr : Bytes; multicast : gset Bytes; promisc : bool;
  port_counters : BcPortCounters }.
Definition with_macaddr (v : Bytes) (p : BcPort) : BcPort :=
  mkPort (owner p) (proto p) (pad p) v (multicast p) (promisc p) (port_counters p).
Definition with_multicast (v : gset Bytes) (p : BcPort) : BcPort :=
  mkPort (owner p) (proto p) (pad p) (macaddr p) v (promisc p) (port_counters p).
Definition set_promiscuous (v : bool) (p : BcPort) : BcPort :=
  mkPort (owner p) (proto p) (pad p) (macaddr p) (multicast p) v (port_counters p).
Definition with_port_counters (v : BcPortCounters) (p : BcPort) : BcPort :=
  mkPort (owner p) (proto p) (pad p) (macaddr p) (multicast p) (promisc p) v.

Definition set_macaddr (addr : Bytes) (p : BcPort) : result BcPort :=
  if Macaddr.is_multicast addr then Throw InvalidArgument else Ok (with_macaddr addr p).
Definition add_multicast (addr : Bytes) (p : BcPort) : result BcPort :=
  if negb (Macaddr.is_multicast addr) then Throw InvalidArgument
  else Ok (with_multicast ({[addr]} ∪ multicast p) p).
Definition remove_multicast (addr : Bytes) (p : BcPort) : BcPort := with_multicast (multicast p ∖ {[addr]}) p.

Definition accepts (dest : Bytes) (p : BcPort) : bool :=
  promisc p || bool_decide (dest = macaddr p) || bool_decide (dest ∈ multicast p).

(** [BcPort::send (msg, dest)]: the frame goes to the transport. *)
Definition send (msg dest : Bytes) (p : BcPort) : BcPort * Bytes :=
  (with_port_counters (count_sent (len msg) (port_counters p)) p,
   build_frame dest (macaddr p) (proto p) msg (pad p)).

(** ** The datalink *)

Record BcDatalink := mkBc { ports : list BcPort; hwaddr : Bytes; unk_dest : Z }.

Definition create_bc_port (owner proto : Z) (pad : bool) (dl : BcDatalink) : result BcDatalink :=
  if existsb (λ p, Bc.proto p =? proto) (ports dl) then Throw InternalError
  else Ok (mkBc (ports dl ++ [mkPort owner proto pad (hwaddr dl) ∅ false no_counts]) (hwaddr dl) (unk_dest dl)).

(** The port a frame is for: the first that wants it. *)
Fixpoint take_frame (frame : Bytes) (p : ParsedFrame) (ps : list BcPort) :
    option (list BcPort * option (Z * Bytes * Bytes)) :=
  match ps with
  | [] => None
  | port :: rest =>
      if negb (proto port =? f_proto p) || negb (accepts (f_dest p) port)
      then '(rest, item) ← take_frame frame p rest; Some (port :: rest, item)
      else
        match (if pad port then f_payload <$> parse_frame frame true else Some (f_payload p)) with
        | None => Some (ps, None)
        | Some payload =>
            let k := count_received (len payload) (Macaddr.is_multicast (f_dest p)) (port_counters port) in
            Some (with_port_counters k port :: rest, Some (owner port, payload, f_src p))
        end
  end.

(** [receive_frame]: the [Received] item queued, its owner, packet and source. *)
Definition receive_frame (frame : Bytes) (dl : BcDatalink) : BcDatalink * option (Z * Bytes * Bytes) :=
  match parse_frame frame false with
  | None => (dl, None)
  | Some p =>
      if bool_decide (f_src p = hwaddr dl) || existsb (λ port, bool_decide (f_src p = macaddr port)) (ports dl)
      then (dl, None)
      else
        match take_frame frame p (ports dl) with
        | Some (ports, item) => (mkBc ports (hwaddr dl) (unk_dest dl), item)
        | None => (mkBc (ports dl) (hwaddr dl) (u64 (unk_dest dl + 1)), None)
        end
  end.

Definition combined_counters (dl : BcDatalink) : BcPortCounters :=
  foldl (λ k p, add_counts k (port_counters p)) no_counts (ports dl).

(** ** Frames *)

Definition addr_ok (m : Bytes) : Prop := length m = 6%nat.

Lemma length_pad_to n v f : length (pad_to n v f) = Nat.max n (length f).
Proof. unfold pad_to. rewrite length_app, length_replicate. lia. Qed.

Lemma low_high n : 0 ≤ n < 65536 → Z.lor (u8 (Z.land n 255)) (Z.shiftl (u8 (Z.shiftr n 8)) 8) = n.
Proof.
  intros Hn. rewrite (Z.land_ones n 8 ltac:(lia) : Z.land n 255 = n mod 2 ^ 8), Z.shiftr_div_pow2 by lia.
  change (2 ^ 8) with 256. pose proof (Z.mod_pos_bound n 256 ltac:(lia)).
  assert (0 ≤ n / 256 < 256) by (split; [apply Z.div_pos|apply Z.div_lt_upper_bound]; lia).
  rewrite !u8_small by lia. rewrite lor_shiftl_add by lia. change (2 ^ 8) with 256.
  rewrite (Z.div_mod n 256) at 3 by lia. lia.
Qed.

Lemma addr_six m : addr_ok m → ∃ a b c d e f, m = [a; b; c; d; e; f].
Proof. intros H. destruct m as [|a [|b [|c [|d [|e [|f [|]]]]]]]; try discriminate H. by exists a, b, c, d, e, f. Qed.

Section Frame.
Context (dest src : Bytes) (proto : Z) (payload : Bytes).
Context (Hd : addr_ok dest) (Hs : addr_ok src) (Hp : 0 ≤ proto < 65536).

Lemma build_frame_split pad : ∃ fill, build_frame dest src proto payload pad =
  dest ++ src ++ [u8 (Z.shiftr proto 8); u8 (Z.land proto 255)] ++
  (if pad then [u8 (Z.land (len payload) 255); u8 (Z.shiftr (len payload) 8)] else []) ++ payload ++ fill.
Proof.
  unfold build_frame, pad_to. eexists. by rewrite <- !app_assoc.
Qed.

Lemma parse_header rest :
  let f := dest ++ src ++ [u8 (Z.shiftr proto 8); u8 (Z.land proto 255)] ++ rest in
  take 6 f = dest ∧ take 6 (drop 6 f) = src ∧ drop ETH_HDR_LEN f = rest ∧
  u16 (Z.lor (Z.shiftl (byte_at f 12) 8) (byte_at f 13)) = proto ∧ (∀ i, byte_at f (14 + i) = byte_at rest i).
Proof.
  destruct (addr_six dest Hd) as (d1 & d2 & d3 & d4 & d5 & d6 & Ed).
  destruct (addr_six src Hs) as (s1 & s2 & s3 & s4 & s5 & s6 & Es).
  intros f. subst f. rewrite Ed, Es. cbn. split_and!; [done..| |done].
  rewrite Z.lor_comm, low_high by done. by apply u16_small.
Qed.

(** A frame is parsed to what it was built from; without a length field the
    fill stays. *)
Lemma parse_build_plain : ∃ fill,
  parse_frame (build_frame dest src proto payload false) false = Some (mkFrame dest src proto (payload ++ fill)).
Proof.
  destruct (build_frame_split false) as [fill E]. exists fill. unfold parse_frame. rewrite E.
  destruct (parse_header ([] ++ payload ++ fill)) as (-> & -> & -> & -> & _).
  replace (_ <? _)%nat with false; [done|]. symmetry. apply Nat.ltb_ge.
  rewrite !length_app, Hd, Hs. cbn. lia.
Qed.

Lemma parse_build_header : ∃ rest,
  parse_frame (build_frame dest src proto payload true) false = Some (mkFrame dest src proto rest).
Proof.
  destruct (build_frame_split true) as [fill E]. eexists. unfold parse_frame. rewrite E.
  destruct (parse_header ([u8 (Z.land (len payload) 255); u8 (Z.shiftr (len payload) 8)] ++ payload ++ fill))
    as (-> & -> & -> & -> & _).
  replace (_ <? _)%nat with false; [done|]. symmetry. apply Nat.ltb_ge.
  rewrite !length_app, Hd, Hs. cbn. lia.
Qed.

Lemma parse_build_padded : len payload < 65536 →
  parse_frame (build_frame dest src proto payload true) true = Some (mkFrame dest src proto payload).
Proof.
  intros Hl. destruct (build_frame_split true) as [fill E]. unfold parse_frame. rewrite E.
  set (rest := [u8 (Z.land (len payload) 255); u8 (Z.shiftr (len payload) 8)] ++ payload ++ fill).
  destruct (parse_header rest) as (-> & -> & Hr & -> & Hb).
  rewrite (Hb 0%nat : byte_at _ 14 = _), (Hb 1%nat : byte_at _ 15 = _), <- drop_drop, Hr.
  change (Z.lor _ _) with (Z.lor (u8 (Z.land (len payload) 255)) (Z.shiftl (u8 (Z.shiftr (len payload) 8)) 8)).
  change (drop 2 rest) with (payload ++ fill).
  rewrite low_high by (pose proof (len_nonneg payload); lia).
  unfold len. rewrite Nat2Z.id.
  assert (length (dest ++ src ++ [u8 (Z.shiftr proto 8); u8 (Z.land proto 255)] ++ rest) =
    (16 + length payload + length fill)%nat) as -> by (subst rest; rewrite !length_app, Hd, Hs; cbn [length app]; rewrite ?length_app; cbn; rewrite ?length_app; lia).
  rewrite !(proj2 (Nat.ltb_ge _ _)) by (unfold ETH_HDR_LEN; lia).
  by rewrite take_app_length.
Qed.
End Frame.

(** ** Delivery *)

(** No two ports of a datalink have one protocol. *)
Definition distinct (dl : BcDatalink) : Prop := NoDup (map proto (ports dl)).
(** The address is none of the datalink's own. *)
Definition foreign (addr : Bytes) (dl : BcDatalink) : Prop :=
  addr ≠ hwaddr dl ∧ Forall (λ port, addr ≠ macaddr port) (ports dl).
(** The port wants frames of this protocol and destination. *)
Definition wants (pr : Z) (dest : Bytes) (port : BcPort) : Prop := proto port = pr ∧ accepts dest port = true.

Lemma create_distinct o pr pd dl dl' : distinct dl → create_bc_port o pr pd dl = Ok dl' → distinct dl'.
Proof.
  unfold create_bc_port, distinct. destruct (existsb _ _) eqn:E; [done|]. intros H [= <-]. cbn [ports].
  rewrite map_app. apply NoDup_app. split; [done|]. split; [|apply NoDup_singleton].
  intros x Hx Hx'. apply list_elem_of_singleton in Hx' as ->. cbn in Hx.
  apply list_elem_of_fmap in Hx as (p & Ep & Hp).
  assert (existsb (λ p, proto p =? pr) (ports dl) = true) as E'; [|congruence].
  apply existsb_exists. exists p. split; [by apply list_elem_of_In|]. cbn in Ep. subst. apply Z.eqb_refl.
Qed.

Section Delivery.
Context (frame : Bytes) (p : ParsedFrame) (payload : Bytes).
Context (Hpad : parse_frame frame true = Some (mkFrame (f_dest p) (f_src p) (f_proto p) payload)).

Lemma take_frame_item ps : NoDup (map proto ps) → Forall (λ port, pad port = true) ps →
  (∀ port, port ∈ ps → wants (f_proto p) (f_dest p) port →
     take_frame frame p ps ≫= snd = Some (owner port, payload, f_src p)) ∧
  ((∀ port, port ∈ ps → ¬ wants (f_proto p) (f_dest p) port) → take_frame frame p ps = None).
Proof.
  induction ps as [|q ps IH]; intros Hn Hp; [by split; [intros ? ?%elem_of_nil|]|].
  inversion Hn as [|? ? Hq Hn']; subst. inversion Hp as [|? ? Hqp Hp']; subst. specialize (IH Hn' Hp') as [IH1 IH2].
  cbn [take_frame]. destruct (negb (proto q =? f_proto p) || negb (accepts (f_dest p) q)) eqn:E.
  - assert (¬ wants (f_proto p) (f_dest p) q) as Hw.
    { intros [W1 W2]. rewrite W1, W2, Z.eqb_refl in E. discriminate E. }
    split.
    + intros port [->|Hin]%elem_of_cons W; [done|]. specialize (IH1 port Hin W).
      destruct (take_frame frame p ps) as [[rest item]|]; [exact IH1|discriminate IH1].
    + intros Hno. rewrite IH2; [done|]. intros port Hin. apply Hno. by right.
  - apply orb_false_iff in E as [E1%negb_false_iff%Z.eqb_eq E2%negb_false_iff]. split.
    + intros port Hin W. rewrite Hqp, Hpad. cbn. apply elem_of_cons in Hin as [->|Hin]; [done|].
      destruct Hq. apply list_elem_of_fmap. exists port. split; [|done]. rewrite E1. symmetry. apply W.
    + intros Hno. destruct (Hno q); [by left|done].
Qed.
End Delivery.

(** What every port does with a frame another station sent. *)
Lemma frame_item p msg dest dl : addr_ok dest → addr_ok (macaddr p) → 0 ≤ proto p < 65536 → len msg < 65536 →
  pad p = true → distinct dl → Forall (λ port, pad port = true) (ports dl) → foreign (macaddr p) dl →
  (∀ port, port ∈ ports dl → wants (proto p) dest port →
     (receive_frame (send msg dest p).2 dl).2 = Some (owner port, msg, macaddr p)) ∧
  ((∀ port, port ∈ ports dl → ¬ wants (proto p) dest port) →
     receive_frame (send msg dest p).2 dl = (mkBc (ports dl) (hwaddr dl) (u64 (unk_dest dl + 1)), None)).
Proof.
  intros Hd Hm Hp Hl Hpad Hn Hps [Hf Hfs]. unfold send. cbn [snd]. rewrite Hpad.
  destruct (parse_build_header dest (macaddr p) (proto p) msg Hd Hm Hp) as [rest E].
  pose proof (parse_build_padded dest (macaddr p) (proto p) msg Hd Hm Hp Hl) as E'.
  set (frame := build_frame dest (macaddr p) (proto p) msg true) in *.
  unfold receive_frame. rewrite E. cbn [f_src f_dest f_proto].
  rewrite bool_decide_eq_false_2 by done. replace (existsb _ (ports dl)) with false.
  2:{ symmetry. apply not_true_iff_false. intros (q & Hq & Hb)%existsb_exists. apply bool_decide_eq_true in Hb.
      rewrite Forall_forall in Hfs. apply (Hfs q); [by apply list_elem_of_In|done]. }
  cbn [orb].
  destruct (take_frame_item frame (mkFrame dest (macaddr p) (proto p) rest) msg E' (ports dl) Hn Hps) as [H1 H2].
  split.
  - intros port Hin W. specialize (H1 port Hin W). destruct (take_frame _ _ _) as [[ps item]|]; [|discriminate H1].
    exact H1.
  - intros Hno. by rewrite (H2 Hno).
Qed.

(** a frame a station sends is handed, whole and with its source, to the
    one layer of another station that registered the protocol and wants the
    destination, and to nobody else; a station never hears itself. *)
Theorem frame_delivered p msg dest dl o m s : addr_ok dest → addr_ok (macaddr p) → 0 ≤ proto p < 65536 →
  len msg < 65536 → pad p = true → distinct dl → Forall (λ port, pad port = true) (ports dl) →
  (receive_frame (send msg dest p).2 dl).2 = Some (o, m, s) ↔
  m = msg ∧ s = macaddr p ∧ foreign (macaddr p) dl ∧
  ∃ port, port ∈ ports dl ∧ wants (proto p) dest port ∧ owner port = o.
Proof.
  intros Hd Hm Hp Hl Hpad Hn Hps. split.
  - intros H. destruct (decide (foreign (macaddr p) dl)) as [Hf|Hf].
    + destruct (frame_item p msg dest dl Hd Hm Hp Hl Hpad Hn Hps Hf) as [H1 H2].
      destruct (decide (Exists (wants (proto p) dest) (ports dl))) as [He|He].
      * apply Exists_exists in He as (port & Hin & W). rewrite (H1 port Hin W) in H.
        injection H as <- <- <-. split_and!; [done..|]. by exists port.
      * rewrite H2 in H; [discriminate H|]. intros port Hin W. apply He, Exists_exists. by exists port.
    + exfalso. unfold receive_frame, send in H. cbn [snd] in H. rewrite Hpad in H.
      destruct (parse_build_header dest (macaddr p) (proto p) msg Hd Hm Hp) as [rest E]. rewrite E in H.
      cbn [f_src] in H. replace (_ || _) with true in H; [discriminate H|]. symmetry. apply orb_true_iff.
      unfold foreign in Hf. destruct (decide (macaddr p = hwaddr dl)) as [Eh|Eh]; [left; by apply bool_decide_eq_true|right].
      apply existsb_exists. apply not_and_r in Hf as [Hf|Hf]; [done|].
      apply not_Forall_Exists, Exists_exists in Hf as (q & Hin & Eq); [|solve_decision].
      exists q. split; [by apply list_elem_of_In|]. apply bool_decide_eq_true. by apply dec_stable.
  - intros (-> & -> & Hf & port & Hin & W & <-).
    destruct (frame_item p msg dest dl Hd Hm Hp Hl Hpad Hn Hps Hf) as [H1 _]. by apply H1.
Qed.

Definition example_port : BcPort :=
  mkPort 1 ROUTING_PROTO true (Macaddr.from_nodeid 1029) {[all_routers]} false no_counts.
Definition example_datalink : BcDatalink :=
  mkBc [mkPort 8 MOPCONS_PROTO true [2; 1; 1; 1; 1; 1] ∅ false no_counts;
        mkPort 7 ROUTING_PROTO true (Macaddr.from_nodeid 1030) {[all_routers]} false no_counts]
    [2; 1; 1; 1; 1; 1] 0.
Lemma frame_delivered_witness :
  (receive_frame (send [11; 2; 0] all_routers example_port).2 example_datalink).2 =
  Some (7, [11; 2; 0], macaddr example_port).
Proof.
  apply frame_delivered; [reflexivity|reflexivity|split; [discriminate|reflexivity]|reflexivity|reflexivity| | |].
  - apply (bool_decide_unpack _). vm_compute. exact I.
  - apply (bool_decide_unpack _). vm_compute. exact I.
  - split; [done|]. split; [done|]. split; [apply (bool_decide_unpack _); vm_compute; exact I|].
    eexists. split; [right; left|]. split; [split; [done|vm_compute; reflexivity]|done].
Defined.
