(* ===== verification/Lan.v ===== *)
(** Routing on broadcast circuits: [class LanCircuit], [EndnodeLanCircuit] and
    [RoutingLanCircuit] of [include/decnet/routing/lan.h] and
    [src/routing/lan.cc].

    A circuit is a record; its last member [self] is what its class adds.  The
    virtual functions are the class [LanClass]; the base class calls them, and
    each derived class is an instance.  A work item or an expired timer is an
    action; what it does to the datalink port, the router and the event log is
    the circuit's log.

    The base class [Circuit] has a [cost_] of its own, which [LanCircuit]
    hides and never sets: an adjacency's [circuit_cost] reads that one. *)

From stdpp Require Import sorting.
From S2P Require Import Prelude Action Buffer Types Bc Codec Layout RoutingPackets RouteTable Float Adjacency Timers.
#[local] Open Scope Z_scope.

(** ** Data *)

Inductive AdjState := Init | Up.
#[export] Instance AdjState_eq_dec : EqDecision AdjState.
Proof. solve_decision. Defined.

Record LanAdjacency := mkLanAdj {
  la_adj : option Adjacency; la_macaddr : Bytes; la_state : AdjState; la_prio : Z; la_ntype : Z;
  la_listen_time : double }.
(** What [adjacencies_[key]] makes. *)
Definition no_neighbour : LanAdjacency := mkLanAdj None Macaddr.zero Init 0 ENDNODE f0.
Definition is_up (a : LanAdjacency) : bool := bool_decide (la_state a = Up).

Inductive output :=
| Transmit (frame dest : Bytes)                            (* [port_->send] *)
| LanEvent (code neighbour : Z) (reason : option Z)
| AdjUp (a : adjacency) | AdjDown (a : adjacency)
| Forward (p : ShortData.t)
| RoutingMsg (p : RoutingPacket) (from : adjacency) (circuit_cost : Z).

Record lan_conf := mkLanConf { l_id : Z; l_parent : parent; l_t3 : double; l_cost : Z }.

(** [timer] is the hello timer. *)
Record circuit (X : Type) := mkLan {
  conf : lan_conf;
  adjacencies : gmap Z LanAdjacency;
  counters : CircuitCounters;
  timer : option double;
  self : X;
  outs : list output;
}.
Arguments mkLan {X} _ _ _ _ _ _.
Arguments conf {X} _.
Arguments adjacencies {X} _.
Arguments counters {X} _.
Arguments timer {X} _.
Arguments self {X} _.
Arguments outs {X} _.

(** [EndnodeLanCircuit]: the designated router it uses, and where each node's
    traffic came from, until when. *)
Record CacheEntry := mkCache { prevhop : Bytes; expires : Z }.
Record endnode := mkEndnode { en_dr : option (Z * Bytes); cache : gmap Z CacheEntry }.

(** [RoutingLanCircuit]. *)
Record router := mkRouter {
  prio : Z; maxrouters : Z; isdr : bool; dr : Z; drtimer : option double; drtimer_running : bool }.

(** The constants of [packets.h]. *)
Definition BCT3MULT : double := fdiv (f_of_Z 31) (f_of_Z 10).
Definition DRDELAY : double := f_of_Z 5.
(** 60 seconds of the steady clock, which counts nanoseconds. *)
Definition CACHE_TIME : Z := 60000000000.
Definition listener_timeout : Z := 10.
(** [Circuit::cost_]. *)
Definition base_cost : Z := 4.

(** ** [LanCircuit] *)

Section Circuit.
Context {X : Type}.
#[local] Abbreviation LAN := (Action (circuit X)).

Definition with_adjacencies (v : gmap Z LanAdjacency) (c : circuit X) : circuit X :=
  mkLan (conf c) v (counters c) (timer c) (self c) (outs c).
Definition with_counters (v : CircuitCounters) (c : circuit X) : circuit X :=
  mkLan (conf c) (adjacencies c) v (timer c) (self c) (outs c).
Definition with_timer (v : option double) (c : circuit X) : circuit X :=
  mkLan (conf c) (adjacencies c) (counters c) v (self c) (outs c).
Definition with_self (v : X) (c : circuit X) : circuit X :=
  mkLan (conf c) (adjacencies c) (counters c) (timer c) v (outs c).
Definition with_outs (v : list output) (c : circuit X) : circuit X :=
  mkLan (conf c) (adjacencies c) (counters c) (timer c) (self c) v.

Definition own (c : circuit X) : parent := l_parent (conf c).
Definition homearea (c : circuit X) : Z := Nodeid.area (p_nodeid (own c)).
Definition entry (key : Z) (c : circuit X) : option LanAdjacency := adjacencies c !! key.
Definition say (o : output) (c : circuit X) : circuit X := with_outs (outs c ++ [o]) c.
Definition put (key : Z) (a : LanAdjacency) (c : circuit X) : circuit X :=
  with_adjacencies (<[key := a]> (adjacencies c)) c.
Definition drop_entry (key : Z) (c : circuit X) : circuit X := with_adjacencies (delete key (adjacencies c)) c.
Definition transmit (frame dest : Bytes) : LAN unit := act_do (say (Transmit frame dest)).
Definition lanevent (code neighbour : Z) (reason : option Z) : LAN unit :=
  act_do (say (LanEvent code neighbour reason)).

(** [timers ().start]: the time has to fit on the wheel. *)
Definition wheel_takes (t : double) : LAN unit := if within_span t then mret tt else act_throw OverflowError.

Definition with_adj (j : Adjacency) (a : LanAdjacency) : LanAdjacency :=
  mkLanAdj (Some j) (la_macaddr a) (la_state a) (la_prio a) (la_ntype a) (la_listen_time a).
(** A change of the [Adjacency] of an entry. *)
Definition change_adj (key : Z) (f : Adjacency → Adjacency) (c : circuit X) : circuit X :=
  match entry key c with
  | Some a => match la_adj a with Some j => put key (with_adj (f j) a) c | None => c end
  | None => c
  end.

(** [Adjacency::alive] of an entry's adjacency. *)
Definition alive (key : Z) : LAN unit :=
  c ← act_get id;
  match entry key c ≫= la_adj with
  | Some j =>
      if i_ntype (j_info j) =? PHASE2 then mret tt
      else _ ← wheel_takes (j_t4 j); act_do (change_adj key rearmed)
  | None => mret tt
  end.

(** [Adjacency::up]. *)
Definition adj_up (key : Z) (j : Adjacency) : LAN unit :=
  act_when (negb (j_up j))
    (_ ← act_do (change_adj key (λ j, listening j (j_timer j)));
     _ ← act_when (negb (i_ntype (j_info j) =? PHASE2))
           (_ ← wheel_takes (j_t4 j); act_do (change_adj key (λ j, listening j (Some (j_t4 j)))));
     act_do (say (AdjUp (j_adj j)))).

(** [Adjacency::down]. *)
Definition adj_down (key : Z) (j : Adjacency) : LAN unit :=
  act_when (j_up j)
    (_ ← act_do (λ c, with_counters (count_adj_down (counters c)) c);
     _ ← act_do (change_adj key fallen);
     act_do (say (AdjDown (j_adj j)))).

Definition adjacency_count (c : circuit X) : Z :=
  Z.of_nat (size (filter (λ ka : Z * LanAdjacency, la_state ka.2 = Up) (adjacencies c))).
Definition up_now (k : CircuitCounters) : CircuitCounters :=
  mkCounters (cir_down k) (init_fail k) (adj_downs k) (peak_adj k) true.
Definition set_peak (n : Z) (k : CircuitCounters) : CircuitCounters :=
  mkCounters (cir_down k) (init_fail k) (adj_downs k) n (ever_up k).

(** [adjacency_up (key, info)]. *)
Definition adjacency_up (ptr key : Z) (info : AdjacencyInfo) : LAN unit :=
  c ← act_get id;
  let a := default no_neighbour (entry key c) in
  let j := default (new_adjacency ptr (l_id (conf c)) base_cost (l_t3 (conf c)) info) (la_adj a) in
  _ ← act_do (put key (mkLanAdj (Some j) (la_macaddr a) Up (la_prio a) (la_ntype a) (la_listen_time a)));
  _ ← adj_up key j;
  _ ← act_do (λ c, with_counters (up_now (counters c)) c);
  _ ← act_do (λ c, if peak_adj (counters c) <? adjacency_count c
                   then with_counters (set_peak (adjacency_count c) (counters c)) c else c);
  lanevent 15 (i_id info) None.

(** [LanCircuit::adjacency_down]. *)
Definition lan_adjacency_down (key : Z) : LAN unit :=
  c ← act_get id;
  match entry key c with
  | Some a =>
      _ ← match la_adj a with
          | Some j => act_when (is_up a) (_ ← lanevent 18 (i_id (j_info j)) (Some listener_timeout); adj_down key j)
          | None => mret tt
          end;
      act_do (drop_entry key)
  | None => mret tt
  end.

(** [send_to_mac]: a LAN carries the long header. *)
Definition long_of (p : ShortData.t) : LongData.t :=
  LongData.set_payload (ShortData.payload p) (LongData.set_visit (ShortData.visit p)
  (LongData.set_srcnode (ShortData.srcnode p) (LongData.set_dstnode (ShortData.dstnode p)
  (LongData.set_ie (ShortData.ie p) (LongData.set_rts (ShortData.rts p) (LongData.set_rqr (ShortData.rqr p)
  LongData.new)))))).
Definition send_to_mac (p : ShortData.t) (nexthop : Bytes) : LAN unit :=
  f ← act_lift (encode_packet (PLongData (long_of p))); transmit f nexthop.

(** [send_to]: the address the neighbour sends from, else the derived one. *)
Definition send_to (p : ShortData.t) (neighbour : Z) : LAN bool :=
  c ← act_get id;
  let mac := match entry neighbour c with
             | Some a => if bool_decide (la_macaddr a = Macaddr.zero) then Macaddr.from_nodeid neighbour
                         else la_macaddr a
             | None => Macaddr.from_nodeid neighbour
             end in
  _ ← send_to_mac p mac; mret true.
Definition send_update (frame : Bytes) : LAN unit := transmit frame all_routers.

Definition wants_update (level : Z) (a : LanAdjacency) : bool :=
  is_up a && negb (la_ntype a =? ENDNODE) && negb ((level =? 2) && negb (la_ntype a =? L2ROUTER)).
Definition wants_updates (level : Z) (c : circuit X) : bool :=
  existsb (λ ka, wants_update level ka.2) (map_to_list (adjacencies c)).
End Circuit.
(** [update_blksize]. *)
Definition update_blksize : Z := ETHMTU.

(** [LanCircuit::decode]: padding off; nothing for a frame to be ignored. *)
Definition padded (f : Bytes) : bool := negb (Z.land (default 0 (head f)) 128 =? 0).
Definition decode (f : Bytes) : option RoutingPacket :=
  if bool_decide (f = []) then None
  else if padded f then
    let pad := Z.land (default 0 (head f)) 127 in
    if (pad =? 0) || (len f <=? pad) then None
    else
      let f := drop (Z.to_nat pad) f in
      if padded f then None else parse_frame f
  else parse_frame f.

(** The virtual functions. *)
Class LanClass (X : Type) := {
  send_hello : Action (circuit X) unit;
  handle (ptr now : Z) (p : RoutingPacket) (src : Bytes) : Action (circuit X) unit;
  adjacency_down (key : Z) : Action (circuit X) unit;
  adj_timeout (neighbour : Z) : Action (circuit X) unit;
}.

Section Virtual.
Context {X : Type} `{LanClass X}.
#[local] Abbreviation LAN := (Action (circuit X)).

Definition hello_timer_start : LAN unit :=
  c ← act_get id; _ ← wheel_takes (l_t3 (conf c)); act_do (with_timer (Some (l_t3 (conf c)))).
(** [LanCircuit::start], [stop] and [timeout]. *)
Definition lan_start : LAN unit := _ ← send_hello; hello_timer_start.
Definition lan_stop : LAN unit := act_do (with_timer None).
Definition timeout : LAN unit := _ ← send_hello; hello_timer_start.

(** [dispatch] of a [Received] item. *)
Definition dispatch (ptr now : Z) (frame src : Bytes) : LAN unit :=
  match decode frame with Some p => handle ptr now p src | None => mret tt end.

(** [Adjacency::timeout] of the entry's adjacency. *)
Definition listen_timeout (key : Z) : LAN unit :=
  c ← act_get id;
  match entry key c ≫= la_adj with
  | Some j => _ ← adj_down key j; adj_timeout (i_id (j_info j))
  | None => mret tt
  end.
End Virtual.

(** ** [EndnodeLanCircuit] *)

Section Endnode.
#[local] Abbreviation LAN := (Action (circuit endnode)).
Definition with_en_dr (v : option (Z * Bytes)) (c : circuit endnode) : circuit endnode :=
  with_self (mkEndnode v (cache (self c))) c.
Definition with_cache (v : gmap Z CacheEntry) (c : circuit endnode) : circuit endnode :=
  with_self (mkEndnode (en_dr (self c)) v) c.

Definition en_adj_timeout (neighbour : Z) : LAN unit :=
  _ ← act_do (λ c, match en_dr (self c) with
                   | Some (id, _) => if id =? neighbour then with_en_dr None c else c
                   | None => c
                   end);
  lan_adjacency_down neighbour.

Definition endnode_hello (c : circuit endnode) : EndnodeHello.t :=
  EndnodeHello.set_neighbor (match en_dr (self c) with Some (_, mac) => mac | None => Macaddr.zero end)
  (EndnodeHello.set_testdata (hello_testdata 50)
  (EndnodeHello.set_timer (u16 (f_to_unsigned (l_t3 (conf c))))
  (EndnodeHello.set_blksize ETHMTU
  (EndnodeHello.set_ident (p_nodeid (own c))
  (EndnodeHello.set_tiver (p_tiver (own c)) EndnodeHello.new))))).
Definition en_send_hello : LAN unit :=
  c ← act_get id;
  f ← act_lift (encode_packet (PEndnodeHello (endnode_hello c)));
  transmit f all_routers.

Definition hello_info (id ntype blksize : Z) (tiver : Version) (timer priority : Z) : AdjacencyInfo :=
  mkInfo id ntype (Z.min blksize ETHMTU) tiver timer priority 4.
Definition router_ntype (h : RouterHello.t) : Z :=
  if RouterHello.ntype h =? RouterHello.ntype_l2 then L2ROUTER else L1ROUTER.
Definition router_info (h : RouterHello.t) : AdjacencyInfo :=
  hello_info (RouterHello.ident h) (router_ntype h) (RouterHello.blksize h) (RouterHello.tiver h)
    (RouterHello.timer h) (RouterHello.prio h).

Definition en_router_hello (ptr : Z) (h : RouterHello.t) (src : Bytes) : LAN unit :=
  c ← act_get id;
  let key := RouterHello.ident h in
  if negb (Nodeid.area key =? homearea c) then mret tt
  else if bool_decide (fst <$> en_dr (self c) = Some key) then alive key
  else
    _ ← match en_dr (self c) with Some (old, _) => lan_adjacency_down old | None => mret tt end;
    _ ← act_do (with_en_dr (Some (key, src)));
    _ ← act_do (λ c, let a := default no_neighbour (entry key c) in
                     put key (mkLanAdj (la_adj a) src (la_state a) (la_prio a) (la_ntype a) (la_listen_time a)) c);
    adjacency_up ptr key (router_info h).

Definition expire_cache (now : Z) (c : circuit endnode) : circuit endnode :=
  with_cache (filter (λ ke : Z * CacheEntry, now < expires ke.2) (cache (self c))) c.

(** The data packet in a frame. *)
Definition data_of (p : RoutingPacket) : option ShortData.t :=
  match p with
  | PLongData ld => Some (short_of ld)
  | PShortData sd => Some sd
  | _ => None
  end.

Definition en_handle (ptr now : Z) (p : RoutingPacket) (src : Bytes) : LAN unit :=
  match p with
  | PRouterHello h => en_router_hello ptr h src
  | PEndnodeHello _ => mret tt
  | _ =>
      match data_of p with
      | Some sd =>
          _ ← act_do (expire_cache now);
          _ ← act_do (λ c, with_cache (<[ShortData.srcnode sd := mkCache src (now + CACHE_TIME)]> (cache (self c))) c);
          act_do (λ c, say (Forward (ShortData.set_src (Some (l_id (conf c))) sd)) c)
      | None => mret tt
      end
  end.

(** [EndnodeLanCircuit::send]. *)
Definition en_send (now : Z) (p : ShortData.t) (tryhard : bool) : LAN bool :=
  _ ← act_do (expire_cache now);
  let dst := ShortData.dstnode p in
  c ← act_get id;
  match (if tryhard then None else cache (self c) !! dst) with
  | Some e => _ ← send_to_mac p (prevhop e); mret true
  | None =>
      _ ← act_when tryhard (act_do (λ c, with_cache (delete dst (cache (self c))) c));
      match en_dr (self c) with
      | Some (_, mac) => _ ← send_to_mac p mac; mret true
      | None =>
          if dst =? p_nodeid (own c) then mret false
          else _ ← send_to_mac p (Macaddr.from_nodeid dst); mret true
      end
  end.
End Endnode.

#[export] Instance endnode_class : LanClass endnode := {
  send_hello := en_send_hello;
  handle := en_handle;
  adjacency_down := lan_adjacency_down;
  adj_timeout := en_adj_timeout;
}.

(** ** [RoutingLanCircuit] *)

(** [std::map] runs through its keys in ascending order. *)
Definition key_le (a b : Z * LanAdjacency) : Prop := a.1 ≤ b.1.
#[export] Instance key_le_dec : RelDecision key_le.
Proof. intros a b. unfold key_le. apply _. Defined.
Definition ascending (m : gmap Z LanAdjacency) : list (Z * LanAdjacency) := merge_sort key_le (map_to_list m).

(** [better_dr]. *)
Definition better_dr (prio_a a prio_b b : Z) : bool :=
  if negb (prio_a =? prio_b) then prio_b <? prio_a else b <? a.

Section Router.
#[local] Abbreviation LAN := (Action (circuit router)).
Definition with_isdr (v : bool) (c : circuit router) : circuit router :=
  let r := self c in with_self (mkRouter (prio r) (maxrouters r) v (dr r) (drtimer r) (drtimer_running r)) c.
Definition with_dr (v : Z) (c : circuit router) : circuit router :=
  let r := self c in with_self (mkRouter (prio r) (maxrouters r) (isdr r) v (drtimer r) (drtimer_running r)) c.
Definition with_drtimer (v : option double) (c : circuit router) : circuit router :=
  let r := self c in with_self (mkRouter (prio r) (maxrouters r) (isdr r) (dr r) v (drtimer_running r)) c.
Definition with_drtimer_running (v : bool) (c : circuit router) : circuit router :=
  let r := self c in with_self (mkRouter (prio r) (maxrouters r) (isdr r) (dr r) (drtimer r) v) c.

(** [build_elist]: every router we can hear, and whether it is two-way. *)
Definition rsent_of (key : Z) (a : LanAdjacency) : RSent.t :=
  RSent.set_twoway (is_up a) (RSent.set_prio (la_prio a) (RSent.set_router key RSent.new)).
Fixpoint router_list (es : list (Z * LanAdjacency)) : result Bytes :=
  match es with
  | [] => Ok []
  | (key, a) :: es =>
      if la_ntype a =? ENDNODE then router_list es
      else b ← encode_rows RSent.layout (rsent_of key a); bs ← router_list es; Ok (b ++ bs)
  end.
Definition build_elist (empty : bool) (c : circuit router) : result Bytes :=
  rs ← (if empty then Ok [] else router_list (ascending (adjacencies c)));
  encode_rows Elist.layout (Elist.set_rslist rs Elist.new).

Definition own_ntype (c : circuit router) : Z :=
  if p_ntype (own c) =? L2ROUTER then RouterHello.ntype_l2 else RouterHello.ntype_l1.
Definition router_hello (elist : Bytes) (c : circuit router) : RouterHello.t :=
  RouterHello.set_elist elist
  (RouterHello.set_timer (u16 (f_to_unsigned (l_t3 (conf c))))
  (RouterHello.set_prio (prio (self c))
  (RouterHello.set_blksize ETHMTU
  (RouterHello.set_ntype (own_ntype c)
  (RouterHello.set_ident (p_nodeid (own c))
  (RouterHello.set_tiver (p_tiver (own c)) RouterHello.new)))))).
(** The frame of a hello. *)
Definition hello_frame (empty : bool) (c : circuit router) : result Bytes :=
  el ← build_elist empty c; encode_packet (PRouterHello (router_hello el c)).

Definition rt_send_hello : LAN unit :=
  c ← act_get id;
  f ← act_lift (hello_frame false c);
  _ ← transmit f all_routers;
  act_when (isdr (self c)) (transmit f all_endnodes).

(** [best_dr]: who should be designated router, and whether it is us. *)
Definition best_dr (c : circuit router) : Z * bool :=
  let step (best : Z * Z * bool) (ka : Z * LanAdjacency) :=
    let '(best_prio, best_id, own) := best in
    if la_ntype ka.2 =? ENDNODE then best
    else if negb (Nodeid.area ka.1 =? homearea c) then best
    else if better_dr (la_prio ka.2) ka.1 best_prio best_id then (la_prio ka.2, ka.1, false) else best in
  let '(_, id, own) := foldl step (prio (self c), p_nodeid (own c), true) (ascending (adjacencies c)) in
  (id, own).

Definition calc_dr : LAN unit :=
  c ← act_get id;
  let '(who, own) := best_dr c in
  if own then
    act_when (negb (isdr (self c)) && negb (drtimer_running (self c)))
      (_ ← act_do (with_drtimer_running true);
       _ ← wheel_takes DRDELAY; act_do (with_drtimer (Some DRDELAY)))
  else
    _ ← act_when (isdr (self c)) (_ ← act_do (with_isdr false); rt_send_hello);
    c ← act_get id;
    act_when (negb (dr (self c) =? who))
      (_ ← act_do (with_drtimer_running false);
       _ ← act_do (with_drtimer None);
       act_do (with_dr who)).

(** [become_dr]: the election timer has expired. *)
Definition become_dr : LAN unit :=
  _ ← act_do (with_drtimer_running false);
  c ← act_get id;
  if (best_dr c).2 then
    _ ← act_do (with_isdr true);
    _ ← act_do (with_dr (p_nodeid (own c)));
    rt_send_hello
  else calc_dr.

Definition rt_adjacency_down (key : Z) : LAN unit :=
  c ← act_get id;
  match entry key c with
  | Some a =>
      _ ← lan_adjacency_down key;
      _ ← act_do (λ c, if dr (self c) =? key then with_dr 0 c else c);
      act_when (negb (la_ntype a =? ENDNODE)) (_ ← calc_dr; rt_send_hello)
  | None => mret tt
  end.

(** Is the node in a router list?  The loop stops where a [decode] would throw. *)
Fixpoint listed_in (fuel : nat) (id : Z) (rs : Bytes) : bool :=
  match fuel with
  | O => false
  | S fuel =>
      if len rs <? Z.of_nat RSent.wire_size then false
      else
        match packet_decode RSent.policy RSent.layout RSent.new (take RSent.wire_size rs) with
        | Ok (e, _) => if RSent.router e =? id then true else listed_in fuel id (drop RSent.wire_size rs)
        | Throw _ => false
        end
  end.
Definition lists (h : RouterHello.t) (id : Z) : bool :=
  match packet_decode Elist.policy Elist.layout Elist.new (RouterHello.elist h) with
  | Ok (el, _) => listed_in (length (Elist.rslist el)) id (Elist.rslist el)
  | Throw _ => false
  end.

(** The entry of a router whose hello has come, before its adjacency is made. *)
Definition heard (h : RouterHello.t) (src : Bytes) (a : LanAdjacency) : LanAdjacency :=
  mkLanAdj (la_adj a) src (la_state a) (RouterHello.prio h) (router_ntype h)
    (fmul (f_of_Z (RouterHello.timer h)) BCT3MULT).
Definition created (ptr : Z) (info : AdjacencyInfo) (c : circuit router) (a : LanAdjacency) : LanAdjacency :=
  match la_adj a with
  | Some _ => a
  | None => with_adj (new_adjacency ptr (l_id (conf c)) base_cost (l_t3 (conf c)) info) a
  end.

Definition rt_router_hello (ptr : Z) (h : RouterHello.t) (src : Bytes) : LAN unit :=
  c ← act_get id;
  let key := RouterHello.ident h in
  let both_l2 := (RouterHello.ntype h =? RouterHello.ntype_l2) && (p_ntype (own c) =? L2ROUTER) in
  if negb (Nodeid.area key =? homearea c) && negb both_l2 then mret tt
  else
    let a := created ptr (router_info h) c (heard h src (default no_neighbour (entry key c))) in
    _ ← act_do (put key a);
    _ ← alive key;
    _ ← act_when (lists h (p_nodeid (own c)) && negb (is_up a)) (adjacency_up ptr key (router_info h));
    calc_dr.

Definition endnode_info (h : EndnodeHello.t) : AdjacencyInfo :=
  hello_info (EndnodeHello.ident h) ENDNODE (EndnodeHello.blksize h) (EndnodeHello.tiver h)
    (EndnodeHello.timer h) 0.
Definition rt_endnode_hello (ptr : Z) (h : EndnodeHello.t) (src : Bytes) : LAN unit :=
  c ← act_get id;
  let key := EndnodeHello.ident h in
  if negb (Nodeid.area key =? homearea c) then mret tt
  else
    let a := default no_neighbour (entry key c) in
    if is_up a then alive key
    else
      _ ← act_do (put key (mkLanAdj (la_adj a) src (la_state a) (la_prio a) ENDNODE
                             (fmul (f_of_Z (EndnodeHello.timer h)) BCT3MULT)));
      adjacency_up ptr key (endnode_info h).

(** Whose routing message is it? *)
Definition rt_routing (p : RoutingPacket) (h : rheader) : LAN unit :=
  c ← act_get id;
  let key := u16 (RoutingPackets.srcnode h) in
  match entry key c with
  | Some a =>
      match la_adj a with
      | Some j =>
          act_when (is_up a)
            (_ ← alive key; act_do (λ c, say (RoutingMsg p (j_adj j) (l_cost (conf c))) c))
      | None => mret tt
      end
  | None => mret tt
  end.

(** A data packet: traffic from an endnode is as good as its hello. *)
Definition rt_data (sd : ShortData.t) (src : Bytes) : LAN unit :=
  c ← act_get id;
  let key := ShortData.srcnode sd in
  _ ← match entry key c with
      | Some a => act_when (bool_decide (is_Some (la_adj a)) && is_up a && (la_ntype a =? ENDNODE) &&
                            bool_decide (la_macaddr a = src)) (alive key)
      | None => mret tt
      end;
  act_do (λ c, say (Forward (ShortData.set_src (Some (l_id (conf c))) sd)) c).

Definition rt_handle (ptr now : Z) (p : RoutingPacket) (src : Bytes) : LAN unit :=
  match p with
  | PRouterHello h => rt_router_hello ptr h src
  | PEndnodeHello h => rt_endnode_hello ptr h src
  | PPh4Routing _ (mkPh4 h _) => rt_routing p h
  | PPhaseIIIRouting (mkPh3 h _) => rt_routing p h
  | _ => match data_of p with Some sd => rt_data sd src | None => mret tt end
  end.
End Router.

#[export] Instance router_class : LanClass router := {
  send_hello := rt_send_hello;
  handle := rt_handle;
  adjacency_down := rt_adjacency_down;
  adj_timeout := rt_adjacency_down;
}.

Section RouterApi.
#[local] Abbreviation LAN := (Action (circuit router)).
Definition rt_start : LAN unit := _ ← lan_start; calc_dr.
(** [RoutingLanCircuit::stop]: an empty router list on the way out. *)
Definition rt_stop : LAN unit :=
  _ ← act_do (with_drtimer None);
  c ← act_get id;
  f ← act_lift (hello_frame true c);
  _ ← transmit f all_routers;
  lan_stop.
Definition two_way (id : Z) (c : circuit router) : bool :=
  match entry id c with Some a => is_up a | None => false end.
End RouterApi.

(** ** Construction *)

(** [LanCircuit::LanCircuit] with [--t3] and [--cost]. *)
Definition new_conf (id : Z) (p : parent) (t3 cost : Z) : lan_conf :=
  mkLanConf id p (if t3 =? 0 then f_of_Z 10 else f_of_Z t3) (if cost =? 0 then 4 else cost).
Definition new_circuit {X} (conf : lan_conf) (x : X) : circuit X :=
  mkLan conf ∅ (mkCounters 0 0 0 0 false) None x [].
Definition new_endnode (id : Z) (p : parent) (t3 cost : Z) : circuit endnode :=
  new_circuit (new_conf id p t3 cost) (mkEndnode None ∅).
(** [RoutingLanCircuit::RoutingLanCircuit] with [--priority] and [--maxrouters]. *)
Definition new_router (id : Z) (p : parent) (t3 cost priority maxr : Z) : circuit router :=
  new_circuit (new_conf id p t3 cost)
    (mkRouter (if priority =? 0 then 64 else u8 priority) (if maxr =? 0 then 16 else maxr) false 0 None false).
