(* ===== verification/LanBook.v ===== *)
(** The neighbours of a broadcast circuit: what routing was told of them, and
    what the functions of [LanCircuit] do to the table while every entry is as
    it should be. *)

From S2P Require Import Prelude Action Buffer Types Codec Layout Bc RoutingPackets RouteTable Float Adjacency Timers Lan.
#[local] Open Scope Z_scope.

(** ** What the router has been told *)

(** The neighbours routing knows of, by node number; nothing, when it was told
    twice of one, or of the loss of one it did not have. *)
Definition track1 (v : gmap Z adjacency) (o : output) : option (gmap Z adjacency) :=
  match o with
  | AdjUp a => if decide (v !! a_nodeid a = None) then Some (<[a_nodeid a := a]> v) else None
  | AdjDown a => if decide (v !! a_nodeid a = Some a) then Some (delete (a_nodeid a) v) else None
  | RoutingMsg _ a _ => if decide (v !! a_nodeid a = Some a) then Some v else None
  | _ => Some v
  end.
Definition track (os : list output) : option (gmap Z adjacency) := foldl (λ v o, v ≫= λ v, track1 v o) (Some ∅) os.
(** The adjacencies of a circuit that are up. *)
Definition up_adj (a : LanAdjacency) : option adjacency :=
  j ← la_adj a; if j_up j then Some (j_adj j) else None.
Definition up_view (m : gmap Z LanAdjacency) : gmap Z adjacency := omap up_adj m.

Lemma track_app os o : track (os ++ [o]) = track os ≫= λ v, track1 v o.
Proof. unfold track. by rewrite foldl_app. Qed.
Lemma up_view_lookup m k : up_view m !! k = m !! k ≫= up_adj.
Proof. apply lookup_omap. Qed.
Lemma up_view_same m k a : up_adj a = m !! k ≫= up_adj → up_view (<[k := a]> m) = up_view m.
Proof.
  intros E. apply map_eq. intros i. rewrite !up_view_lookup. destruct (decide (i = k)) as [->|Hi].
  - by rewrite lookup_insert_eq.
  - by rewrite lookup_insert_ne.
Qed.
Lemma up_view_up m k a x : up_adj a = Some x → up_view (<[k := a]> m) = <[k := x]> (up_view m).
Proof.
  intros E. apply map_eq. intros i. rewrite up_view_lookup. destruct (decide (i = k)) as [->|Hi].
  - by rewrite !lookup_insert_eq.
  - by rewrite !lookup_insert_ne, up_view_lookup.
Qed.
Lemma up_view_delete m k : up_view (delete k m) = delete k (up_view m).
Proof.
  apply map_eq. intros i. rewrite up_view_lookup. destruct (decide (i = k)) as [->|Hi].
  - by rewrite !lookup_delete_eq.
  - by rewrite !lookup_delete_ne, up_view_lookup.
Qed.

(** ** The table of neighbours *)

(** An entry between two events: its adjacency is the neighbour's, is up when
    the entry is, and has its listen timer running. *)
Record sound_adj (k : Z) (up : bool) (j : Adjacency) : Prop := {
  s_id : i_id (j_info j) = k;
  s_node : a_nodeid (j_adj j) = k;
  s_type : i_ntype (j_info j) ≠ PHASE2;
  s_up : j_up j = up;
  s_span : within_span (j_t4 j) = true;
  s_timer : j_timer j = Some (j_t4 j);
}.
Definition sound_entry (k : Z) (a : LanAdjacency) : Prop := ∃ j, la_adj a = Some j ∧ sound_adj k (is_up a) j.

Record Book (m : gmap Z LanAdjacency) (os : list output) : Prop := {
  b_entry : ∀ k a, m !! k = Some a → sound_entry k a;
  b_log : track os = Some (up_view m);
}.

Lemma up_adj_sound k a : sound_entry k a →
  (∃ x, up_adj a = Some x ∧ a_nodeid x = k ∧ is_up a = true) ∨ up_adj a = None ∧ is_up a = false.
Proof.
  intros (j & E & H). unfold up_adj. rewrite E. cbn. rewrite (s_up _ _ _ H). destruct (is_up a); [left|by right].
  exists (j_adj j). by rewrite (s_node _ _ _ H).
Qed.

(** The adjacency that a hello makes. *)
Lemma new_adjacency_sound ptr id t3 info : i_ntype info ≠ PHASE2 → within_span (listen_time t3 (i_timer info)) = true →
  let j := new_adjacency ptr id base_cost t3 info in
  sound_adj (i_id info) false (mkAdjacency (j_adj j) (j_info j) (j_t4 j) (j_up j) (Some (j_t4 j))).
Proof. by intros Ht Hs; split. Qed.

(** An output routing does not see. *)
Definition quiet (o : output) : bool :=
  match o with Transmit _ _ | LanEvent _ _ _ | Forward _ => true | _ => false end.

Section Book.
Context (m : gmap Z LanAdjacency) (os : list output) (H : Book m os).

Lemma book_quiet o : quiet o = true → Book m (os ++ [o]).
Proof. intros Hq. split; [apply H|]. rewrite track_app, (b_log _ _ H). by destruct o. Qed.

Lemma book_set k a : sound_entry k a → up_adj a = m !! k ≫= up_adj → Book (<[k := a]> m) os.
Proof.
  intros Ha E. split; [|by rewrite up_view_same; [apply H|]].
  intros i b. destruct (decide (i = k)) as [->|Hi]; [rewrite lookup_insert_eq|rewrite lookup_insert_ne by done].
  - by intros [= <-].
  - apply H.
Qed.

Lemma book_up k a x : sound_entry k a → up_adj a = Some x → m !! k ≫= up_adj = None →
  Book (<[k := a]> m) (os ++ [AdjUp x]).
Proof.
  intros Ha E Hn. destruct (up_adj_sound k a Ha) as [(y & Ey & Hy & _)|[Ey _]]; rewrite E in Ey; [|discriminate].
  injection Ey as <-. split.
  - intros i b. destruct (decide (i = k)) as [->|Hi]; [rewrite lookup_insert_eq|rewrite lookup_insert_ne by done].
    + by intros [= <-].
    + apply H.
  - rewrite track_app, (b_log _ _ H). cbn. rewrite Hy, up_view_lookup, decide_True by done. by rewrite (up_view_up m k a x).
Qed.

Lemma book_down k a x : m !! k = Some a → up_adj a = Some x → Book (delete k m) (os ++ [AdjDown x]).
Proof.
  intros Hk E. pose proof (b_entry _ _ H k a Hk) as Ha.
  destruct (up_adj_sound k a Ha) as [(y & Ey & Hy & _)|[Ey _]]; rewrite E in Ey; [|discriminate].
  injection Ey as <-. split.
  - intros i b. rewrite lookup_delete_Some. intros [_ Hb]. by apply H.
  - rewrite track_app, (b_log _ _ H). cbn. rewrite Hy, up_view_lookup, Hk. cbn. rewrite E, decide_True by done.
    by rewrite up_view_delete.
Qed.

Lemma book_drop k a : m !! k = Some a → up_adj a = None → Book (delete k m) os.
Proof.
  intros Hk E. split.
  - intros i b. rewrite lookup_delete_Some. intros [_ Hb]. by apply H.
  - rewrite (b_log _ _ H), up_view_delete. f_equal. symmetry. apply delete_id. by rewrite up_view_lookup, Hk.
Qed.

Lemma book_msg k a x p cost : m !! k = Some a → up_adj a = Some x → Book m (os ++ [RoutingMsg p x cost]).
Proof.
  intros Hk E. pose proof (b_entry _ _ H k a Hk) as Ha.
  destruct (up_adj_sound k a Ha) as [(y & Ey & Hy & _)|[Ey _]]; rewrite E in Ey; [|discriminate].
  injection Ey as <-. split; [apply H|].
  rewrite track_app, (b_log _ _ H). cbn. rewrite Hy, up_view_lookup, Hk. cbn. by rewrite E, decide_True.
Qed.
End Book.

(** ** The functions of [LanCircuit] *)

Section Functions.
Context {X : Type}.
Implicit Types c : circuit X.

Lemma entry_put key a c : entry key (put key a c) = Some a.
Proof. apply lookup_insert_eq. Qed.
Lemma put_put key a b c : put key a (put key b c) = put key a c.
Proof. unfold put. cbn. by rewrite insert_insert_eq. Qed.
Lemma change_adj_some key f c a j : entry key c = Some a → la_adj a = Some j →
  change_adj key f c = put key (with_adj (f j) a) c.
Proof. intros E Ej. unfold change_adj. by rewrite E, Ej. Qed.

(** A neighbour whose listen timer runs is heard again. *)
Lemma alive_sound key c : (∀ a, entry key c = Some a → sound_entry key a) → alive key c = (Ok tt, c).
Proof.
  intros H. unfold alive, mbind, Action_bind, act_get. cbn [id].
  destruct (entry key c) as [a|] eqn:E; [|done]. destruct (H a eq_refl) as (j & Ej & S). cbn. rewrite Ej.
  destruct (i_ntype (j_info j) =? PHASE2); [done|]. unfold wheel_takes. rewrite (s_span _ _ _ S). cbn.
  unfold act_do. rewrite (change_adj_some key rearmed c a j E Ej). do 2 f_equal.
  unfold rearmed, put, with_adj. rewrite <- (s_timer _ _ _ S).
  destruct c, a, j. cbn in *. subst. unfold with_adjacencies. cbn. f_equal. by apply insert_id.
Qed.

(** The listen timer of an adjacency just made is started. *)
Lemma alive_arms key c a j : entry key c = Some a → la_adj a = Some j → i_ntype (j_info j) ≠ PHASE2 →
  within_span (j_t4 j) = true → alive key c = (Ok tt, put key (with_adj (rearmed j) a) c).
Proof.
  intros E Ej Ht Hs. unfold alive, mbind, Action_bind, act_get. cbn [id]. rewrite E. cbn. rewrite Ej.
  rewrite (proj2 (Z.eqb_neq _ _) Ht). unfold wheel_takes. rewrite Hs. cbn. unfold act_do.
  by rewrite (change_adj_some key rearmed c a j E Ej).
Qed.

(** The adjacency an entry has, or that a hello would make for it. *)
Definition joins (key : Z) (a : LanAdjacency) (fresh : Adjacency) : Prop :=
  is_up a = false ∧ ∀ j, default fresh (la_adj a) = j →
    sound_adj key false (mkAdjacency (j_adj j) (j_info j) (j_t4 j) (j_up j) (Some (j_t4 j))).

Lemma adjacency_up_eq ptr key info c :
  let a := default no_neighbour (entry key c) in
  let fresh := new_adjacency ptr (l_id (conf c)) base_cost (l_t3 (conf c)) info in
  let j := default fresh (la_adj a) in
  let a' := mkLanAdj (Some (listening j (Some (j_t4 j)))) (la_macaddr a) Up (la_prio a) (la_ntype a) (la_listen_time a) in
  joins key a fresh → ∃ n,
  adjacency_up ptr key info c =
    (Ok tt, mkLan (conf c) (<[key := a']> (adjacencies c)) n (timer c) (self c)
              (outs c ++ [AdjUp (j_adj j); LanEvent 15 (i_id info) None])) ∧ sound_entry key a'.
Proof.
  intros a fresh j a' [Hup Hj]. specialize (Hj j eq_refl). unfold adjacency_up, mbind, Action_bind, act_get, act_do.
  cbn [id]. fold a. fold fresh. fold j. unfold adj_up, act_when.
  assert (j_up j = false) as -> by exact (s_up _ _ _ Hj).
  assert ((i_ntype (j_info j) =? PHASE2) = false) as -> by (apply Z.eqb_neq; exact (s_type _ _ _ Hj)).
  cbn [negb]. unfold mbind, Action_bind, act_do, wheel_takes.
  assert (within_span (j_t4 j) = true) as -> by exact (s_span _ _ _ Hj). cbn [mret Action_ret].
  unfold change_adj. rewrite entry_put. cbn [la_adj]. rewrite put_put, entry_put. cbn [la_adj with_adj]. rewrite put_put.
  match goal with |- context [if ?b then _ else _] => destruct b end; eexists;
    (split; [unfold lanevent, act_do, say, put, with_counters, with_outs, with_adjacencies; cbn;
             rewrite <- app_assoc; reflexivity|]);
    (exists (listening j (Some (j_t4 j))); split; [done|by destruct Hj; split]).
Qed.

Lemma lan_down_eq key c a j : entry key c = Some a → la_adj a = Some j → ∃ n,
  lan_adjacency_down key c =
    (Ok tt, mkLan (conf c) (delete key (adjacencies c)) n (timer c) (self c)
       (outs c ++ if is_up a then LanEvent 18 (i_id (j_info j)) (Some listener_timeout) ::
                    (if j_up j then [AdjDown (j_adj j)] else []) else [])).
Proof.
  intros E Ej. unfold lan_adjacency_down, mbind, Action_bind, act_get. cbn [id]. rewrite E, Ej.
  unfold act_when, adj_down, lanevent, act_when, act_do, mbind, Action_bind. unfold entry in E.
  destruct (is_up a); [destruct (j_up j)|]; eexists;
    unfold change_adj, drop_entry, put, say, entry, with_counters, with_outs, with_adjacencies; cbn.
  - rewrite E, Ej. cbn. rewrite delete_insert_eq, <- app_assoc. reflexivity.
  - reflexivity.
  - rewrite app_nil_r. reflexivity.
Qed.
Lemma lan_down_none key c : entry key c = None → lan_adjacency_down key c = (Ok tt, c).
Proof. intros E. unfold lan_adjacency_down, mbind, Action_bind, act_get. cbn [id]. by rewrite E. Qed.

(** A listen timer that has expired no longer runs. *)
Definition stopped (j : Adjacency) : Adjacency := mkAdjacency (j_adj j) (j_info j) (j_t4 j) (j_up j) None.

Lemma listen_timeout_eq `{LanClass X} key c a j : entry key c = Some a → la_adj a = Some j → ∃ n,
  listen_timeout key (change_adj key stopped c) =
    adj_timeout (i_id (j_info j))
      (mkLan (conf c) (<[key := with_adj (if j_up j then fallen j else stopped j) a]> (adjacencies c)) n (timer c) (self c)
         (outs c ++ if j_up j then [AdjDown (j_adj j)] else [])).
Proof.
  intros E Ej. rewrite (change_adj_some key stopped c a j E Ej). unfold listen_timeout, mbind, Action_bind, act_get. cbn [id].
  rewrite entry_put. cbn [mbind option_bind la_adj with_adj]. unfold adj_down, mbind, Action_bind, act_when, act_do. cbn [j_up stopped j_adj j_info].
  destruct (j_up j); eexists;
    unfold change_adj, put, say, entry, with_counters, with_outs, with_adjacencies; cbn.
  - rewrite lookup_insert_eq. cbn. rewrite insert_insert_eq. reflexivity.
  - rewrite app_nil_r. reflexivity.
Qed.
End Functions.
