(* ===== verification/LanElection.v ===== *)
(** The designated router: what [best_dr] chooses, and the invariant of a
    router's circuit over every sequence of events. *)

From stdpp Require Import sorting.
From S2P Require Import Prelude Action Buffer Types Codec Layout Bc RoutingPackets RouteTable Float Adjacency Timers Lan LanBook.
#[local] Open Scope Z_scope.

(** ** The choice *)

Lemma elem_of_ascending m k a : (k, a) ∈ ascending m ↔ m !! k = Some a.
Proof. unfold ascending. rewrite merge_sort_Permutation. apply elem_of_map_to_list. Qed.

Lemma better_dr_irrefl p a : better_dr p a p a = false.
Proof. unfold better_dr. rewrite Z.eqb_refl. simpl. apply Z.ltb_irrefl. Qed.
Lemma better_dr_trans p a q b r d : better_dr p a q b = true → better_dr q b r d = true → better_dr p a r d = true.
Proof. unfold better_dr. destruct (Z.eqb_spec p q), (Z.eqb_spec q r), (Z.eqb_spec p r); simpl; rewrite ?Z.ltb_lt; lia. Qed.
Lemma better_dr_total p a q b : better_dr p a q b = true ∨ better_dr q b p a = true ∨ (p = q ∧ a = b).
Proof.
  unfold better_dr. destruct (Z.eqb_spec p q), (Z.eqb_spec q p); simpl; rewrite ?Z.ltb_lt; try lia.
Qed.
Lemma better_dr_asym p a q b : better_dr p a q b = true → better_dr q b p a = false.
Proof.
  intros H. apply not_true_iff_false. intros H'. pose proof (better_dr_trans _ _ _ _ _ _ H H') as E.
  rewrite better_dr_irrefl in E. discriminate E.
Qed.

(** A router of the area, as the circuit knows it. *)
Definition candidate (c : circuit router) (k : Z) (a : LanAdjacency) : Prop :=
  entry k c = Some a ∧ la_ntype a ≠ ENDNODE ∧ Nodeid.area k = homearea c.

(** What the loop of [best_dr] has found, over the entries it has seen. *)
Definition best_over (c : circuit router) (seen : list (Z * LanAdjacency)) (best : Z * Z * bool) : Prop :=
  let '(bp, bi, own) := best in
  (own = true ∧ bp = prio (self c) ∧ bi = p_nodeid (Lan.own c) ∨
   own = false ∧ (∃ a, candidate c bi a ∧ la_prio a = bp) ∧ better_dr bp bi (prio (self c)) (p_nodeid (Lan.own c)) = true) ∧
  (∀ k a, (k, a) ∈ seen → candidate c k a → better_dr (la_prio a) k bp bi = false).

Lemma best_dr_spec c who own : best_dr c = (who, own) →
  if own then who = p_nodeid (Lan.own c) ∧
    ∀ k a, candidate c k a → better_dr (la_prio a) k (prio (self c)) (p_nodeid (Lan.own c)) = false
  else ∃ b, candidate c who b ∧
    better_dr (la_prio b) who (prio (self c)) (p_nodeid (Lan.own c)) = true ∧
    ∀ k a, candidate c k a → better_dr (la_prio a) k (la_prio b) who = false.
Proof.
  unfold best_dr. set (step := λ best ka, _).
  assert (∀ todo seen best, (∀ k a, (k, a) ∈ todo → entry k c = Some a) → best_over c seen best →
    best_over c (seen ++ todo) (foldl step best todo)) as Hfold.
  { induction todo as [|[k a] todo IH]; intros seen best Hin Hb; [by rewrite app_nil_r|].
    cbn [foldl]. rewrite cons_middle, app_assoc. apply IH; [intros; apply Hin; by right|].
    destruct best as [[bp bi] o]. destruct Hb as [Hb Hmax].
    assert (entry k c = Some a) as He by (apply Hin; by left).
    unfold step. cbn [fst snd]. destruct (Z.eqb_spec (la_ntype a) ENDNODE) as [Hn|Hn]; [|destruct (Z.eqb_spec (Nodeid.area k) (homearea c)) as [Ha|Ha]]; cbn [negb].
    - split; [done|]. intros k' a' [H|[= -> ->]%list_elem_of_singleton]%elem_of_app C; [by apply Hmax|].
      by destruct (proj1 (proj2 C)).
    - destruct (better_dr (la_prio a) k bp bi) eqn:Eb.
      + split.
        * right. split; [done|]. split; [exists a; by split_and!|].
          destruct Hb as [(_ & <- & <-)|(_ & _ & Hb)]; [done|]. by eapply better_dr_trans.
        * intros k' a' [H|[= -> ->]%list_elem_of_singleton]%elem_of_app C; [|apply better_dr_irrefl].
          destruct (better_dr (la_prio a') k' (la_prio a) k) eqn:E; [|done].
          rewrite <- (Hmax k' a' H C). symmetry. by eapply better_dr_trans.
      + split; [done|]. by intros k' a' [H|[= -> ->]%list_elem_of_singleton]%elem_of_app C; [apply Hmax|].
    - split; [done|]. intros k' a' [H|[= -> ->]%list_elem_of_singleton]%elem_of_app C; [by apply Hmax|].
      by destruct (Ha (proj2 (proj2 C))). }
  specialize (Hfold (ascending (adjacencies c)) [] (prio (self c), p_nodeid (Lan.own c), true)).
  destruct (foldl step _ _) as [[bp bi] o] eqn:E. intros [= <- <-].
  destruct Hfold as [Hb Hmax]; [intros k a H; by apply elem_of_ascending|split; [by left|by intros ? ? ?%elem_of_nil]|].
  assert (∀ k a, candidate c k a → better_dr (la_prio a) k bp bi = false) as Hall.
  { intros k a C. apply (Hmax k a); [|done]. apply elem_of_ascending, C. }
  destruct Hb as [(-> & -> & ->)|(-> & (a & C & <-) & Hb)]; [by split|]. exists a. by split_and!.
Qed.

(** The circuit chooses itself when it knows of nobody better. *)
Lemma best_dr_self c : (best_dr c).2 = true ↔
  ∀ k a, candidate c k a → better_dr (la_prio a) k (prio (self c)) (p_nodeid (own c)) = false.
Proof.
  destruct (best_dr c) as [who o] eqn:E. apply best_dr_spec in E. cbn [snd]. destruct o; [split; [intros _; apply E|done]|].
  destruct E as (b & C & Hb & _). split; [done|]. intros H. rewrite (H who b C) in Hb. discriminate Hb.
Qed.

(** ** The events of a router's circuit *)

Inductive event :=
| Start | Stop | HelloTimer | DrTimer | ListenTimer (key : Z)
| Frame (ptr now : Z) (frame src : Bytes)
| SendTo (p : ShortData.t) (neighbour : Z) | SendUpdate (frame : Bytes).

Definition listen_timer (key : Z) (c : circuit router) : option double :=
  match entry key c ≫= la_adj with Some j => j_timer j | None => None end.

(** One event; a timer expires only if it runs, and what throws is caught. *)
Definition step (c : circuit router) (e : event) : circuit router :=
  match e with
  | Start => after rt_start c
  | Stop => after rt_stop c
  | HelloTimer => match timer c with Some _ => after timeout (with_timer None c) | None => c end
  | DrTimer => match drtimer (self c) with Some _ => after become_dr (with_drtimer None c) | None => c end
  | ListenTimer key =>
      match listen_timer key c with
      | Some _ => after (listen_timeout key) (change_adj key stopped c)
      | None => c
      end
  | Frame ptr now f src => after (dispatch ptr now f src) c
  | SendTo p n => after (send_to p n) c
  | SendUpdate f => after (send_update f) c
  end.
Definition run : circuit router → list event → circuit router := foldl step.

(** A hello from somebody else, whose listen time fits on the timer wheel. *)
Definition hello_ok (k : lan_conf) (id timer : Z) : Prop :=
  id ≠ p_nodeid (l_parent k) ∧ within_span (listen_time (l_t3 k) timer) = true.
Definition prompt (k : lan_conf) (p : RoutingPacket) : Prop :=
  match p with
  | PRouterHello h => hello_ok k (RouterHello.ident h) (RouterHello.timer h)
  | PEndnodeHello h => hello_ok k (EndnodeHello.ident h) (EndnodeHello.timer h)
  | _ => True
  end.
Definition event_ok (k : lan_conf) (e : event) : Prop :=
  match e with Frame _ _ f _ => ∀ p, decode f = Some p → prompt k p | _ => True end.

(** ** The invariant *)

(** What holds whatever the election is about to find. *)
Record Settled (k : lan_conf) (pr : Z) (c : circuit router) : Prop := {
  i_conf : conf c = k;
  i_prio : prio (self c) = pr;
  i_book : Book (adjacencies c) (outs c);
  i_other : entry (p_nodeid (own c)) c = None;
  i_timer : drtimer (self c) ≠ None → drtimer_running (self c) = true;
  i_self : isdr (self c) = true → dr (self c) = p_nodeid (own c);
}.
(** The designated router knows of nobody better. *)
Definition Inv (k : lan_conf) (pr : Z) (c : circuit router) : Prop :=
  Settled k pr c ∧ (isdr (self c) = true → (best_dr c).2 = true).

Lemma best_dr_ext c c' : adjacencies c' = adjacencies c → conf c' = conf c → prio (self c') = prio (self c) →
  best_dr c' = best_dr c.
Proof. unfold best_dr, homearea, own. intros -> -> ->. reflexivity. Qed.

(** Fewer routers: nobody better still. *)
Lemma best_dr_fewer c c' : conf c' = conf c → prio (self c') = prio (self c) →
  (∀ i b, entry i c' = Some b → la_ntype b ≠ ENDNODE →
     ∃ b', entry i c = Some b' ∧ la_ntype b' ≠ ENDNODE ∧ la_prio b' = la_prio b) →
  (best_dr c).2 = true → (best_dr c').2 = true.
Proof.
  intros Ec Ep Hf. rewrite !best_dr_self. intros H i b (C1 & C2 & C3).
  destruct (Hf i b C1 C2) as (b' & D1 & D2 & <-). unfold own. rewrite Ec, Ep. apply (H i b').
  split; [done|]. split; [done|]. rewrite C3. unfold homearea, own. by rewrite Ec.
Qed.

Section Invariant.
Context (k : lan_conf) (pr : Z).
#[local] Abbreviation S := (Settled k pr).
#[local] Abbreviation I := (Inv k pr).

Lemma settled_say o c : quiet o = true → S c → S (say o c).
Proof. intros Hq [? ? ? ? ? ?]. split; try done. by apply book_quiet. Qed.
Lemma inv_say o c : quiet o = true → I c → I (say o c).
Proof. intros Hq [Hs Hd]. split; [by apply settled_say|exact Hd]. Qed.

(** Transmitting keeps what an output keeps. *)
Lemma transmit_keeps (P : circuit router → Prop) f d : (∀ o c, quiet o = true → P c → P (say o c)) → keeps P (transmit f d).
Proof. intros HP. apply keeps_do. intros c. by apply HP. Qed.
Lemma hello_keeps (P : circuit router → Prop) : (∀ o c, quiet o = true → P c → P (say o c)) → keeps P rt_send_hello.
Proof.
  intros HP. unfold rt_send_hello. apply keeps_bind; [apply keeps_get|intros c].
  apply keeps_bind; [apply keeps_lift|intros f]. apply keeps_bind; [by apply transmit_keeps|intros _].
  apply keeps_when. by apply transmit_keeps.
Qed.

Lemma calc_dr_inv : triple S calc_dr (λ _, I) I.
Proof.
  apply triple_forall. intros c0 Hc. unfold calc_dr. eapply triple_bind.
  { apply (triple_get _ _ (λ c s, c = c0 ∧ s = c0)). by intros s ->. }
  intros c s [-> ->]. destruct (best_dr c0) as [who []] eqn:E.
  - assert ((best_dr c0).2 = true) as Hb by by rewrite E.
    unfold act_when. destruct (negb _ && negb _) eqn:Er.
    + split; [|done]. destruct Hc. by split.
    + split; [|done]. exact Hc.
  - unfold mbind, Action_bind, act_when, act_get. cbn [id].
    set (P := λ c, S c ∧ isdr (self c) = false).
    assert (∀ c, P c → I c) as HPI. { intros c [Hc' Hi]. split; [done|]. rewrite Hi. done. }
    assert (∀ c, P c → match (if negb (dr (self c) =? who) then
        (_ ← act_do (with_drtimer_running false); _ ← act_do (with_drtimer None); act_do (with_dr who)) else mret tt) c with
        (Ok _, s') => I s' | (Throw _, s') => I s' end) as Hrest.
    { intros c [Hc' Hi]. destruct (negb _); [|by apply HPI]. apply HPI. split; [|done]. destruct Hc'.
      split; try done. cbn. by rewrite Hi. }
    destruct (isdr (self c0)) eqn:Ei.
    + assert (P (with_isdr false c0)) as HP0. { split; [|done]. destruct Hc. by split. }
      pose proof (hello_keeps P (λ o c Hq H, conj (settled_say o c Hq (proj1 H)) (proj2 H)) _ HP0) as Hh.
      unfold act_do at 1, mbind, Action_bind. destruct (rt_send_hello (with_isdr false c0)) as [[[]|e] s']; [|by apply HPI].
      exact (Hrest s' Hh).
    + exact (Hrest c0 (conj Hc Ei)).
Qed.

Lemma become_dr_inv : triple (λ c, S c ∧ drtimer (self c) = None) become_dr (λ _, I) I.
Proof.
  unfold become_dr. eapply (triple_bind _ _ _ (λ _, S)).
  { apply triple_do. intros c [[] Ht]. split; try done. }
  intros _. apply triple_forall. intros c0 Hc. eapply triple_bind.
  { apply (triple_get _ _ (λ c s, c = c0 ∧ s = c0)). by intros s ->. }
  intros c s [-> ->]. destruct (best_dr c0).2 eqn:Eb; [|exact (calc_dr_inv c0 Hc)].
  unfold mbind, Action_bind, act_do.
  apply (hello_keeps I inv_say). split; [|done]. destruct Hc. by split.
Qed.

(** An entry that is deleted, once the rest is as it should be. *)
Definition gone (a : LanAdjacency) (j : Adjacency) : list output :=
  if is_up a then LanEvent 18 (i_id (j_info j)) (Some listener_timeout) :: (if j_up j then [AdjDown (j_adj j)] else [])
  else [].
Lemma rt_down_inv key c a j : entry key c = Some a → la_adj a = Some j →
  key ≠ p_nodeid (own c) →
  S (mkLan (conf c) (delete key (adjacencies c)) (counters c) (timer c) (self c) (outs c ++ gone a j)) →
  (isdr (self c) = true → (best_dr c).2 = true) → I (after (rt_adjacency_down key) c).
Proof.
  intros E Ej Hown Hs Hd. unfold after, rt_adjacency_down, mbind, Action_bind, act_get. cbn [id]. rewrite E.
  destruct (lan_down_eq key c a j E Ej) as [n ->]. fold (gone a j). unfold act_do.
  set (c1 := mkLan _ _ _ _ _ _) in *. change (S c1) in Hs.
  set (c2 := mkLan (conf c) (delete key (adjacencies c)) n (timer c) (self c) (outs c ++ gone a j)).
  set (c3 := if dr (self c2) =? key then with_dr 0 c2 else c2).
  assert (S c3 ∧ isdr (self c3) = isdr (self c) ∧ adjacencies c3 = delete key (adjacencies c) ∧
          conf c3 = conf c ∧ prio (self c3) = prio (self c)) as (Hs3 & E1 & E2 & E3 & E4).
  { subst c3. destruct Hs as [? ? ? ? ? Hself]. destruct (Z.eqb_spec (dr (self c2)) key) as [Ek|_]; split; try done.
    split; try done. cbn. intros Hi. destruct Hown. rewrite <- Ek. exact (Hself Hi). }
  clearbody c3. unfold act_when. destruct (Z.eqb_spec (la_ntype a) ENDNODE) as [Hn|Hn]; cbn [negb].
  - split; [done|]. cbn. rewrite E1. intros Hi. apply (best_dr_fewer c); [done..| |by apply Hd].
    intros i b. unfold entry. rewrite E2. intros [_ Hb]%lookup_delete_Some Hbn. by exists b.
  - unfold mbind, Action_bind. pose proof (calc_dr_inv c3 Hs3) as Hc.
    destruct (calc_dr c3) as [[[]|e] c4]; [|exact Hc]. by apply (keeps_after _ _ c4 (hello_keeps I inv_say)).
Qed.

Lemma inv_timer t c : I c → I (with_timer t c).
Proof. intros [[] Hd]. by split. Qed.
Lemma hello_timer_inv : keeps I hello_timer_start.
Proof.
  unfold hello_timer_start. apply keeps_bind; [apply keeps_get|intros c]. apply keeps_bind.
  - unfold wheel_takes. destruct (within_span _); [apply keeps_ret|apply keeps_lift].
  - intros _. apply keeps_do. intros s. apply inv_timer.
Qed.
Lemma lan_timeout_inv : keeps I timeout.
Proof. apply keeps_bind; [apply hello_keeps, inv_say|intros _; apply hello_timer_inv]. Qed.
Lemma start_inv : keeps I rt_start.
Proof.
  apply keeps_bind; [apply lan_timeout_inv|intros _].
  eapply triple_weaken; [apply calc_dr_inv|by intros s []|done|done].
Qed.
Lemma stop_inv : keeps I rt_stop.
Proof.
  apply keeps_bind; [apply keeps_do; intros c [[] Hd]; by split|intros _].
  apply keeps_bind; [apply keeps_get|intros c]. apply keeps_bind; [apply keeps_lift|intros f].
  apply keeps_bind; [apply transmit_keeps, inv_say|intros _]. apply keeps_do. intros s. apply inv_timer.
Qed.
Lemma send_to_inv p n : keeps I (send_to p n).
Proof.
  apply keeps_bind; [apply keeps_get|intros c]. apply keeps_bind; [|intros _; apply keeps_ret].
  apply keeps_bind; [apply keeps_lift|intros f]. apply transmit_keeps, inv_say.
Qed.

(** *** What is received *)

Lemma entry_sound c key a : S c → entry key c = Some a → sound_entry key a.
Proof. intros Hs. apply (b_entry _ _ (i_book _ _ _ Hs)). Qed.
(** The entry, or the one that is made. *)
Lemma default_entry c key : S c → let a := default no_neighbour (entry key c) in
  (∀ j, la_adj a = Some j → sound_adj key (is_up a) j) ∧ (la_adj a = None → is_up a = false) ∧
  (is_up a = false → entry key c ≫= up_adj = None).
Proof.
  intros Hs. destruct (entry key c) as [a|] eqn:E; cbn; [|split_and!; done].
  destruct (entry_sound c key a Hs E) as (j & Ej & H). split_and!.
  - rewrite Ej. by intros ? [= <-].
  - rewrite Ej. done.
  - intros Hu. unfold up_adj. rewrite Ej. cbn. by rewrite (s_up _ _ _ H), Hu.
Qed.
Lemma settled_put c key a : S c → key ≠ p_nodeid (own c) → sound_entry key a → up_adj a = entry key c ≫= up_adj →
  S (put key a c).
Proof.
  intros [? ? ? Ho ? ?] Hk Ha Hu. split; try done; [by apply book_set|]. unfold entry, put. cbn.
  by rewrite lookup_insert_ne.
Qed.
(** The adjacency of an entry comes up. *)
Lemma settled_up c key a x n t : S c → key ≠ p_nodeid (own c) → up_adj a = Some x → sound_entry key a →
  entry key c ≫= up_adj = None →
  S (mkLan (conf c) (<[key := a]> (adjacencies c)) n t (self c)
       (outs c ++ [AdjUp x; LanEvent 15 key None])).
Proof.
  intros [? ? Hb Ho ? ?] Hk Ej Ha Hn. split; try done.
  - cbn. rewrite (app_assoc _ [AdjUp _] [LanEvent _ _ _] : _ ++ [_; _] = _). apply book_quiet; [|done].
    by apply book_up.
  - unfold entry. cbn. by rewrite lookup_insert_ne.
Qed.

(** A router's hello, up to the election. *)
Definition greeted (ptr : Z) (h : RouterHello.t) (src : Bytes) (c : circuit router) : LanAdjacency :=
  created ptr (router_info h) c (heard h src (default no_neighbour (entry (RouterHello.ident h) c))).
Lemma greeted_sound ptr h src c : S c → hello_ok k (RouterHello.ident h) (RouterHello.timer h) →
  ∃ j, la_adj (greeted ptr h src c) = Some j ∧ i_ntype (j_info j) ≠ PHASE2 ∧ within_span (j_t4 j) = true ∧
    sound_adj (RouterHello.ident h) (is_up (greeted ptr h src c)) (rearmed j) ∧
    up_adj (with_adj (rearmed j) (greeted ptr h src c)) = entry (RouterHello.ident h) c ≫= up_adj.
Proof.
  intros Hs [Hid Ht]. destruct (default_entry c (RouterHello.ident h) Hs) as (H1 & H2 & H3).
  unfold greeted, created, heard. set (a := default no_neighbour _) in *. cbn.
  destruct (la_adj a) as [j|] eqn:Ej; cbn.
  - exists j. specialize (H1 j eq_refl). split; [done|]. destruct H1 as [? ? ? ? ? E]. split_and!; try done.
    subst a. destruct (entry _ c) as [b|]; [|discriminate Ej]. cbn in *. unfold up_adj. rewrite Ej. reflexivity.
  - eexists. split; [done|]. assert (is_up a = false) as Hu by auto.
    assert (within_span (listen_time (l_t3 (conf c)) (RouterHello.timer h)) = true) as Ht' by (rewrite (i_conf _ _ _ Hs); exact Ht).
    assert (i_ntype (router_info h) ≠ PHASE2) as Hn by (cbn; unfold router_ntype; by destruct (_ =? _)).
    split_and!; [exact Hn|exact Ht'| |].
    + change (is_up _) with (is_up a). rewrite Hu. by apply (new_adjacency_sound ptr _ _ (router_info h)).
    + by rewrite H3.
Qed.

(** Who is heard: an area router by an area router, else a router of the area. *)
Definition in_reach (c : circuit router) (h : RouterHello.t) : bool :=
  (Nodeid.area (RouterHello.ident h) =? homearea c) ||
  (RouterHello.ntype h =? RouterHello.ntype_l2) && (p_ntype (own c) =? L2ROUTER).

(** What a hello does before the election: the entry is the sender's, and is up
    once the sender has listed this node. *)
Lemma router_hello_eq ptr h src c : S c → hello_ok k (RouterHello.ident h) (RouterHello.timer h) → in_reach c h = true →
  let key := RouterHello.ident h in
  ∃ a n os, let c' := mkLan (conf c) (<[key := a]> (adjacencies c)) n (timer c) (self c) (outs c ++ os) in
    rt_router_hello ptr h src c = calc_dr c' ∧ S c' ∧
    la_ntype a = router_ntype h ∧ la_prio a = RouterHello.prio h ∧
    is_up a = two_way key c || lists h (p_nodeid (own c)) ∧
    (∀ b, entry key c = Some b → is_up b = true → la_adj a = la_adj b) ∧
    Forall (λ o, match o with Transmit _ _ => False | _ => True end) os.
Proof.
  intros Hs Hh Hr key. unfold rt_router_hello, mbind, Action_bind, act_get. cbn [id].
  replace (negb _ && negb _) with false by (unfold in_reach in Hr; by destruct (_ =? homearea c), (_ && _)).
  fold (greeted ptr h src c). fold key.
  destruct (greeted_sound ptr h src c Hs Hh) as (j & Ej & Hn & Ht & Hj & Hu). fold key in Hj, Hu.
  assert (is_up (greeted ptr h src c) = two_way key c) as Hup.
  { unfold greeted, created, two_way. fold key. by destruct (entry key c) as [b|]; cbn; [destruct (la_adj b)|]. }
  assert (la_ntype (greeted ptr h src c) = router_ntype h ∧ la_prio (greeted ptr h src c) = RouterHello.prio h) as [Gn Gp].
  { unfold greeted, created. by case_match. }
  assert (∀ b, entry key c = Some b → is_up b = true → la_adj (with_adj (rearmed j) (greeted ptr h src c)) = la_adj b) as Gj.
  { intros b Eb Hb. destruct (entry_sound c key b Hs Eb) as (jb & Ejb & Hjb).
    unfold greeted, created in Ej. fold key in Ej. rewrite Eb in Ej. cbn in Ej. rewrite Ejb in Ej. cbn in Ej.
    rewrite Ejb in Ej. injection Ej as <-. cbn. rewrite Ejb. unfold rearmed. rewrite <- (s_timer _ _ _ Hjb). by destruct jb. }
  set (g := greeted ptr h src c) in *. unfold act_do.
  assert (key ≠ p_nodeid (own c)) as Hk by (unfold own; rewrite (i_conf _ _ _ Hs); apply Hh).
  rewrite (alive_arms key (put key g c) g j (entry_put _ _ _) Ej Hn Ht), put_put.
  set (g' := with_adj (rearmed j) g) in *.
  assert (sound_entry key g') as Hg' by (by exists (rearmed j)).
  assert (S (put key g' c)) as Hs' by by apply settled_put.
  unfold act_when. destruct (lists h _ && negb (is_up g)) eqn:El.
  - apply andb_true_iff in El as [El1 El2%negb_true_iff].
    destruct (adjacency_up_eq ptr key (router_info h) (put key g' c)) as (n & -> & Ha).
    { rewrite entry_put. cbn [default]. split; [done|]. intros j' <-. cbn. rewrite El2 in Hj. by destruct Hj. }
    rewrite entry_put in *. cbn [default] in *.
    match type of Ha with sound_entry _ ?a => set (a' := a) in * end.
    exists a', n, [AdjUp (j_adj j); LanEvent 15 key None].
    change (adjacencies (put key g' c)) with (<[key := g']> (adjacencies c)). rewrite insert_insert_eq.
    split; [reflexivity|]. split.
    { eapply (settled_up c key a'); [done..| |exact Ha|]; [reflexivity|]. rewrite <- Hu.
      destruct (up_adj_sound key g' Hg') as [(x & _ & _ & Hx)|[Hx _]]; [|exact Hx].
      change (is_up g = true) in Hx. rewrite El2 in Hx. discriminate Hx. }
    split; [exact Gn|]. split; [exact Gp|]. split; [by rewrite El1, orb_true_r|].
    split; [|by repeat constructor]. intros b Eb Hb. unfold two_way in Hup. rewrite Eb, Hb, El2 in Hup. discriminate Hup.
  - exists g', (counters c), []. rewrite app_nil_r. split; [by destruct c|]. split; [by destruct c|].
    split; [exact Gn|]. split; [exact Gp|]. split; [|by split; [|apply Forall_nil_2]].
    change (is_up g') with (is_up g). rewrite Hup in *. by destruct (lists h _), (two_way key c).
Qed.

Lemma router_hello_inv ptr h src : hello_ok k (RouterHello.ident h) (RouterHello.timer h) → keeps I (rt_router_hello ptr h src).
Proof.
  intros Hh c [Hs Hd]. destruct (in_reach c h) eqn:Hr.
  - destruct (router_hello_eq ptr h src c Hs Hh Hr) as (a & n & os & -> & Hs' & _). by apply calc_dr_inv.
  - unfold rt_router_hello, mbind, Action_bind, act_get. cbn [id].
    replace (negb _ && negb _) with true; [exact (conj Hs Hd)|]. unfold in_reach in Hr.
    by destruct (_ =? homearea c), (_ && _).
Qed.

Lemma endnode_hello_inv ptr h src : hello_ok k (EndnodeHello.ident h) (EndnodeHello.timer h) → keeps I (rt_endnode_hello ptr h src).
Proof.
  intros Hh c [Hs Hd]. unfold rt_endnode_hello, mbind, Action_bind, act_get. cbn [id].
  destruct (negb _); [exact (conj Hs Hd)|]. set (key := EndnodeHello.ident h) in *.
  destruct (default_entry c key Hs) as (H1 & H2 & H3). set (a := default no_neighbour _) in *.
  assert (key ≠ p_nodeid (own c)) as Hk by (unfold own; rewrite (i_conf _ _ _ Hs); apply Hh).
  destruct (is_up a) eqn:Eu.
  - rewrite alive_sound; [exact (conj Hs Hd)|]. intros b. by apply entry_sound.
  - unfold act_do. set (b := mkLanAdj (la_adj a) src (la_state a) (la_prio a) ENDNODE _).
    destruct (adjacency_up_eq ptr key (endnode_info h) (put key b c)) as (n & -> & Ha).
    { rewrite entry_put. cbn [default]. split; [done|]. intros j <-. subst b. cbn [la_adj].
      destruct (la_adj a) as [j|] eqn:Ej; cbn [default].
      - specialize (H1 j eq_refl). by destruct H1.
      - apply (new_adjacency_sound ptr _ _ (endnode_info h)); [done|]. cbn.
        rewrite (i_conf _ _ _ Hs). apply Hh. }
    rewrite entry_put in *. cbn [default] in *. change (adjacencies (put key b c)) with (<[key := b]> (adjacencies c)). rewrite insert_insert_eq.
    split; [eapply (settled_up c key _ _ n (timer c) Hs Hk); [reflexivity|exact Ha|by apply H3]|].
    cbn. intros Hi. apply (best_dr_fewer c); [done..| |by apply Hd]. intros i x. unfold entry. cbn.
    destruct (decide (i = key)) as [->|Hi']; [rewrite lookup_insert_eq; by intros [= <-]|].
    rewrite lookup_insert_ne by done. intros Hx Hxn. by exists x.
Qed.

Lemma alive_id key c : S c → alive key c = (Ok tt, c).
Proof. intros Hs. apply alive_sound. intros a. by apply entry_sound. Qed.

Lemma routing_inv p h : keeps I (rt_routing p h).
Proof.
  intros c [Hs Hd]. unfold rt_routing, mbind, Action_bind, act_get. cbn [id].
  destruct (entry _ c) as [a|] eqn:E; [|exact (conj Hs Hd)]. destruct (la_adj a) as [j|] eqn:Ej; [|exact (conj Hs Hd)].
  unfold act_when. destruct (is_up a) eqn:Eu; [|exact (conj Hs Hd)].
  rewrite alive_id by done. unfold act_do. split; [|exact Hd].
  destruct (entry_sound c _ a Hs E) as (j' & Ej' & Hj). rewrite Ej in Ej'. injection Ej' as <-.
  destruct Hs as [? ? Hb ? ? ?]. split; try done. cbn. eapply book_msg; [exact Hb|exact E|].
  unfold up_adj. rewrite Ej. cbn. by rewrite (s_up _ _ _ Hj), Eu.
Qed.
Lemma data_inv sd src : keeps I (rt_data sd src).
Proof.
  intros c H. unfold rt_data, mbind, Action_bind, act_get, act_when. cbn [id].
  destruct (entry _ c); [destruct (_ && _)|]; [rewrite alive_id by apply H| |]; by apply (inv_say (Forward _)).
Qed.

Lemma handle_inv ptr now p src : prompt k p → keeps I (rt_handle ptr now p src).
Proof.
  intros Hp. destruct p as [| | | | | | |h|h|l [h ?]|[h ?]]; try apply keeps_ret; try apply data_inv.
  - by apply router_hello_inv.
  - by apply endnode_hello_inv.
  - apply routing_inv.
  - apply routing_inv.
Qed.

(** A silent neighbour is gone. *)
Lemma listen_inv key c : I c → I (step c (ListenTimer key)).
Proof.
  intros [Hs Hd]. cbn. unfold listen_timer. destruct (entry key c) as [a|] eqn:E; [|exact (conj Hs Hd)]. cbn.
  destruct (entry_sound c key a Hs E) as (j & Ej & Hj). rewrite Ej. destruct (j_timer j); [|exact (conj Hs Hd)].
  assert (key ≠ p_nodeid (own c)) as Hk by (intros ->; rewrite (i_other _ _ _ Hs) in E; discriminate E).
  pose proof (s_up _ _ _ Hj) as Hup. unfold after.
  destruct (listen_timeout_eq key c a j E Ej) as [n ->]. rewrite (s_id _ _ _ Hj), Hup.
  set (j' := if is_up a then fallen j else stopped j).
  assert (j_up j' = false) as Hj' by (subst j'; destruct (is_up a); [done|exact Hup]).
  match goal with |- I (adj_timeout key ?c').2 => set (c1 := c') end.
  assert (up_adj a = if is_up a then Some (j_adj j) else None) as Ha by (unfold up_adj; rewrite Ej; cbn; by rewrite Hup).
  apply (rt_down_inv key c1 (with_adj j' a) j'); [apply lookup_insert_eq|reflexivity|exact Hk| |].
  - destruct Hs as [? ? Hb Ho ? ?]. cbn. rewrite delete_insert_eq.
    split; try done; [|by unfold entry; cbn; rewrite lookup_delete_ne]. cbn. unfold gone.
    change (is_up (with_adj j' a)) with (is_up a). rewrite Hj'. destruct (is_up a).
    + apply book_quiet; [|done]. by eapply book_down.
    + rewrite !app_nil_r. by eapply book_drop.
  - intros Hi. apply (best_dr_fewer c); [done..| |by apply Hd]. intros i b. unfold entry. cbn.
    destruct (decide (i = key)) as [->|Hi']; [|rewrite lookup_insert_ne by done; intros Hx Hxn; by exists b].
    rewrite lookup_insert_eq. intros [= <-] Hn. by exists a.
Qed.

Lemma drtimer_inv c : I c → I (after become_dr (with_drtimer None c)).
Proof.
  intros [Hs Hd]. eapply (triple_after _ _ (λ _, I) I); [apply become_dr_inv| |done|done].
  destruct Hs. split; [by split|done].
Qed.

Lemma lan_step_inv c e : event_ok k e → I c → I (step c e).
Proof.
  intros He Hc. destruct e as [| | | |key|ptr now f src|p n|f]; cbn [step].
  - by apply keeps_after; [apply start_inv|].
  - by apply keeps_after; [apply stop_inv|].
  - destruct (timer c); [|done]. apply keeps_after; [apply lan_timeout_inv|]. by apply inv_timer.
  - destruct (drtimer _); [|done]. by apply drtimer_inv.
  - by apply listen_inv.
  - unfold dispatch. destruct (decode f) as [p|] eqn:Hp; [|done]. by apply keeps_after; [apply handle_inv, He|].
  - by apply keeps_after; [apply send_to_inv|].
  - apply keeps_after; [apply transmit_keeps, inv_say|done].
Qed.
Lemma lan_run_inv es c : Forall (event_ok k) es → I c → I (run c es).
Proof. intros Hes. revert c. induction Hes as [|e es He _ IH]; intros c Hc; [done|]. apply IH. by apply lan_step_inv. Qed.
End Invariant.

(** A circuit as it is made. *)
Section New.
Context (id : Z) (p : parent) (t3 cost priority maxr : Z).
Definition fresh : circuit router := new_router id p t3 cost priority maxr.

Lemma fresh_inv : Inv (conf fresh) (prio (self fresh)) fresh.
Proof. split; [|done]. split; try done. Qed.
Lemma reachable_inv es : Forall (event_ok (conf fresh)) es → Inv (conf fresh) (prio (self fresh)) (run fresh es).
Proof. intros Hes. apply lan_run_inv; [done|]. apply fresh_inv. Qed.
End New.

(** ** Who becomes designated router, and who sends hellos *)

(** A fact of whether the circuit acts as designated router and of its hello
    timer, which stays true when it stops acting. *)
Section Only.
Context (R : bool → option double → Prop) (HR : ∀ i t, R i t → R false t).
Definition only (c : circuit router) : Prop := R (isdr (self c)) (timer c).

Ltac quietly := keep_walk; unfold only, change_adj; cbn in *; try assumption; try (eapply HR; eassumption); cases.

Lemma hello_only : keeps only rt_send_hello.
Proof. unfold rt_send_hello, transmit. quietly. Qed.
Lemma calc_dr_only : keeps only calc_dr.
Proof. unfold calc_dr, wheel_takes. keep_walk; try apply hello_only; unfold only in *; cbn; try assumption. by eapply HR. Qed.
Lemma alive_only key : keeps only (alive key).
Proof. unfold alive, wheel_takes. quietly. Qed.
Lemma adj_down_only key j : keeps only (adj_down key j).
Proof. unfold adj_down. quietly. Qed.
Lemma adjacency_up_only ptr key info : keeps only (adjacency_up ptr key info).
Proof. unfold adjacency_up, adj_up, lanevent, wheel_takes. quietly. Qed.
Lemma down_only key : keeps only (rt_adjacency_down key).
Proof.
  unfold rt_adjacency_down, lan_adjacency_down, lanevent.
  keep_walk; try apply adj_down_only; try apply calc_dr_only; try apply hello_only; unfold only in *; cbn; try assumption; cases.
Qed.
Lemma handle_only ptr now p src : keeps only (rt_handle ptr now p src).
Proof.
  destruct p as [| | | | | | |h|h|l [h ?]|[h ?]]; unfold rt_handle, data_of, rt_router_hello, rt_endnode_hello, rt_routing, rt_data;
    keep_walk; try apply alive_only; try apply adjacency_up_only; try apply calc_dr_only; unfold only in *; cbn; assumption.
Qed.

(** Every event but a start, a stop, and the two timers' own. *)
Definition passive (e : event) : Prop :=
  match e with Start | Stop | HelloTimer | DrTimer => False | _ => True end.
Lemma step_only c e : passive e → only c → only (step c e).
Proof.
  intros He Hc. destruct e as [| | | |key|ptr now f src|p n|f]; try destruct He; cbn [step].
  - destruct (listen_timer key c); [|done]. apply keeps_after.
    + unfold listen_timeout. keep_walk; try apply adj_down_only; try apply down_only.
    + unfold change_adj. cases.
  - apply keeps_after; [|done]. unfold dispatch. destruct (decode f); [apply handle_only|apply keeps_ret].
  - apply keeps_after; [|done]. unfold send_to, send_to_mac, transmit. quietly.
  - exact Hc.
Qed.
End Only.

Lemma step_not_dr c e : e ≠ DrTimer → isdr (self c) = false → isdr (self (step c e)) = false.
Proof.
  intros He Hc. set (R := λ (i : bool) (_ : option double), i = false).
  assert (∀ i t, R i t → R false t) as HR by done.
  change (only R (step c e)). change (only R c) in Hc.
  destruct e as [| | | |key|ptr now f src|p n|f]; try done; try (by apply step_only); cbn [step].
  - apply keeps_after; [|done]. unfold rt_start, lan_start, hello_timer_start, wheel_takes.
    keep_walk; try (by apply hello_only); try (by apply calc_dr_only); done.
  - apply keeps_after; [|done]. unfold rt_stop, lan_stop, transmit. by keep_walk.
  - destruct (timer c); [|done]. apply keeps_after; [|done]. unfold timeout, hello_timer_start, wheel_takes.
    keep_walk; try (by apply hello_only); done.
Qed.

Lemma step_no_timer c e : e ≠ Start → timer c = None → timer (step c e) = None.
Proof.
  intros He Hc. set (R := λ (_ : bool) (t : option double), t = None).
  assert (∀ i t, R i t → R false t) as HR by done.
  change (only R (step c e)). assert (only R c) as Hc' by exact Hc.
  destruct e as [| | | |key|ptr now f src|p n|f]; try done; try (by apply step_only); cbn [step].
  - apply keeps_after; [|done]. unfold rt_stop, lan_stop, transmit. by keep_walk.
  - by rewrite Hc.
  - destruct (drtimer _); [|done]. apply keeps_after; [|done]. unfold become_dr.
    keep_walk; try (by apply hello_only); try (by apply calc_dr_only); done.
Qed.

(** An entry that is gone stays gone through the election. *)
Lemma gone_stays key : keeps (λ c, entry key c = None) (_ ← calc_dr; rt_send_hello).
Proof. unfold calc_dr, rt_send_hello, transmit, wheel_takes. by keep_walk. Qed.
Lemma down_gone key c a j : entry key c = Some a → la_adj a = Some j → entry key (after (rt_adjacency_down key) c) = None.
Proof.
  intros E Ej. unfold after, rt_adjacency_down, mbind at 1, Action_bind at 1, act_get. cbn [id]. rewrite E.
  unfold mbind at 1, Action_bind at 1. destruct (lan_down_eq key c a j E Ej) as [n ->].
  unfold mbind at 1, Action_bind at 1, act_do.
  match goal with |- entry key (act_when _ _ ?c').2 = None => set (c1 := c') end.
  assert (entry key c1 = None) as H1 by (subst c1; destruct (_ =? _); apply lookup_delete_eq).
  clearbody c1. destruct (negb _); cbn [act_when]; [|exact H1].
  exact (keeps_after _ (λ c, entry key c = None) c1 (gone_stays key) H1).
Qed.
Lemma listen_gone key c a : entry key c = Some a → sound_entry key a →
  listen_timer key c ≠ None ∧ entry key (step c (ListenTimer key)) = None.
Proof.
  intros E (j & Ej & Hj). cbn [step]. unfold listen_timer. rewrite E. cbn. rewrite Ej, (s_timer _ _ _ Hj).
  split; [done|]. unfold after. destruct (listen_timeout_eq key c a j E Ej) as [n ->]. rewrite (s_id _ _ _ Hj).
  eapply down_gone; [apply lookup_insert_eq|reflexivity].
Qed.

(** ** The properties *)

(** over every sequence of events on a router's broadcast circuit, in any
    order, a circuit acts as designated router only while no router of its area
    that it knows of is better, by priority and then by address; it then takes
    itself for the designated router; and it starts to act only when the
    election timer expires. *)
Theorem designated_router id p t3 cost priority maxr es :
  let k := new_conf id p t3 cost in
  let c := run (new_router id p t3 cost priority maxr) es in
  Forall (event_ok k) es →
  (isdr (self c) = true → dr (self c) = p_nodeid p ∧
     ∀ key a, candidate c key a → better_dr (la_prio a) key (prio (self c)) (p_nodeid p) = false) ∧
  (∀ e, isdr (self c) = false → isdr (self (step c e)) = true → e = DrTimer).
Proof.
  intros k c Hes. assert (Inv k (prio (self (fresh id p t3 cost priority maxr))) c) as [Hs Hd] by by apply reachable_inv.
  split.
  - intros Hi. specialize (Hd Hi). rewrite best_dr_self in Hd. pose proof (i_self _ _ _ Hs Hi) as He.
    unfold own in *. rewrite (i_conf _ _ _ Hs) in *. by split.
  - intros e Hf Ht. destruct e; try done; rewrite step_not_dr in Ht; done.
Qed.

(** over every sequence of events, routing is told of a neighbour's
    adjacency only when it has not got it, and of its loss only when it has;
    what it has is what is up on the circuit, and a routing message is handed
    to it only from a neighbour it has.  Every neighbour has a listen timer
    running, and is forgotten when it expires. *)
Theorem lan_lifecycle id p t3 cost priority maxr es :
  let k := new_conf id p t3 cost in
  let c := run (new_router id p t3 cost priority maxr) es in
  Forall (event_ok k) es →
  track (outs c) = Some (up_view (adjacencies c)) ∧
  ∀ key a, entry key c = Some a → listen_timer key c ≠ None ∧ entry key (step c (ListenTimer key)) = None.
Proof.
  intros k c Hes. assert (Inv k (prio (self (fresh id p t3 cost priority maxr))) c) as [Hs _] by by apply reachable_inv.
  split; [apply Hs|]. intros key a E.
  apply (listen_gone key c a E). by eapply entry_sound.
Qed.

(** Three routers of area 1; the circuit of 1.5. *)
Definition example_parent : parent := mkParent (Nodeid.make 1 5) L1ROUTER 4 tiver_ph4 1023 63.
Definition example_hello (node pr timer : Z) (elist : Bytes) : RouterHello.t :=
  RouterHello.set_elist elist (RouterHello.set_timer timer (RouterHello.set_prio pr (RouterHello.set_blksize 591
  (RouterHello.set_ntype 2 (RouterHello.set_ident (Nodeid.make 1 node) RouterHello.new))))).
Definition example_frame (h : RouterHello.t) : Bytes :=
  match encode_packet (PRouterHello h) with Ok f => f | Throw _ => [] end.
(** A router list that names one node. *)
Definition example_elist (node : Z) : Bytes :=
  replicate 7 0 ++ [7; 170; 0; 4; 0; u8 (Nodeid.make 1 node); u8 (Z.shiftr (Nodeid.make 1 node) 8); 64].
Definition example_events : list event :=
  [Start; DrTimer; Frame 100 0 (example_frame (example_hello 6 64 15 (example_elist 5))) [2; 0; 0; 0; 0; 6];
   HelloTimer; ListenTimer (Nodeid.make 1 6); DrTimer].

Lemma example_events_ok : Forall (event_ok (new_conf 1 example_parent 15 0)) example_events.
Proof.
  do 2 (apply Forall_cons_2; [exact Logic.I|]). apply Forall_cons_2; [|do 3 (apply Forall_cons_2; [exact Logic.I|]); apply Forall_nil_2].
  intros p Hp. assert (decode (example_frame (example_hello 6 64 15 (example_elist 5))) =
    Some (PRouterHello (example_hello 6 64 15 (example_elist 5)))) as E by (vm_compute; reflexivity).
  rewrite E in Hp. apply (inj Some) in Hp. subst p. split; [discriminate|vm_compute; reflexivity].
Qed.
Lemma designated_router_witness :
  let c := run (new_router 1 example_parent 15 0 0 0) example_events in
  isdr (self c) = true ∧ dr (self c) = Nodeid.make 1 5.
Proof.
  intros c. assert (isdr (self c) = true) as H by (vm_compute; reflexivity). split; [exact H|].
  exact (proj1 (proj1 (designated_router 1 example_parent 15 0 0 0 example_events example_events_ok) H)).
Defined.
Lemma lan_lifecycle_witness :
  let c := run (new_router 1 example_parent 15 0 0 0) (take 3 example_events) in
  entry (Nodeid.make 1 6) (step c (ListenTimer (Nodeid.make 1 6))) = None ∧
  track (outs c) = Some {[Nodeid.make 1 6 := mkAdj 100 (Nodeid.make 1 6) L1ROUTER (Some 1) 4]}.
Proof.
  intros c. destruct (lan_lifecycle 1 example_parent 15 0 0 0 (take 3 example_events)) as [H1 H2].
  { apply Forall_take, example_events_ok. }
  split.
  - assert (is_Some (entry (Nodeid.make 1 6) c)) as [a Ha] by (vm_compute; by eexists). exact (proj2 (H2 _ a Ha)).
  - etransitivity; [exact H1|]. vm_compute. reflexivity.
Defined.
