(* ===== verification/LanHello.v ===== *)
(** A router's hello on a broadcast circuit: the router list it carries, and
    what another router reads out of it. *)

From stdpp Require Import sorting.
From S2P Require Import Prelude Action Buffer Types Bc Codec Layout Indexed RoutingPackets RouteTable Float Adjacency Timers.
From S2P Require Import Lan LanBook LanElection.
#[local] Open Scope Z_scope.

(** ** One entry *)

Definition is_router (ka : Z * LanAdjacency) : bool := negb (la_ntype ka.2 =? ENDNODE).
(** An entry that fits its seven bits of priority. *)
Definition sendable (ka : Z * LanAdjacency) : Prop := fits 2 ka.1 ∧ (is_router ka = true → 0 ≤ la_prio ka.2 < 128).

Lemma rsent_rt k a : fits 2 k → 0 ≤ la_prio a < 128 →
  ∃ bs, encode_rows RSent.layout (rsent_of k a) = Ok bs ∧ bytes_ok bs ∧ length bs = RSent.wire_size ∧
    decode_rows RSent.layout RSent.new bs = Ok (rsent_of k a, []).
Proof.
  intros Hk Hp.
  destruct (plain_rt RSent.layout _ _ (rsent_of k a) RSent.new (rsent_of k a) _) as (bs & E & Hb & D).
  - cbn. split_and!; [split; [done|by repeat constructor]|exact Hk| |done].
    repeat apply Forall_cons_2; [exact Hp|cbn; by destruct (is_up a)|apply Forall_nil_2].
  - cbn. unfold rsent_of. rewrite u8_small by lia. by destruct (is_up a).
  - exists bs. split; [done|]. split; [done|]. split; [|done]. clear D Hb.
    cbn [RSent.layout encode_rows field r_encode BV c_encode NodeidField] in E. inv_result.
    repeat match goal with H : rethrow _ (if ?b then _ else _) = _ |- _ => destruct b; [discriminate H|] end.
    cbn [rethrow] in *. inv_result. cbn [bm r_encode] in *. inv_result.
    rewrite !length_app. cbn [length]. rewrite !uint_length. reflexivity.
Qed.

(** An entry whose priority does not fit is not encoded. *)
Lemma rsent_loud k a : 128 ≤ la_prio a < 256 → ∃ e, encode_rows RSent.layout (rsent_of k a) = Throw e.
Proof.
  intros Hp. destruct (encode_rows RSent.layout (rsent_of k a)) as [bs|e] eqn:E; [exfalso|by exists e].
  cbn [RSent.layout encode_rows field r_encode BV c_encode NodeidField] in E. inv_result.
  match goal with H : r_encode (bm _) _ = _ |- _ => rename H into Hb end.
  cbn [bm r_encode bm_field b_get b_bits rsent_of] in Hb. inv_result.
  match goal with H : (if ?b then _ else _) = Ok _ |- _ => replace b with true in H; [discriminate H|] end.
  cbn. symmetry. apply negb_true_iff, Z.eqb_neq. rewrite Z.shiftr_div_pow2 by lia.
  change (2 ^ 7) with 128. pose proof (Z.div_le_lower_bound (la_prio a) 128 1 ltac:(lia) ltac:(lia)). lia.
Qed.

(** ** The list *)

(** Does a table name a router? *)
Definition names (id : Z) (es : list (Z * LanAdjacency)) : bool := existsb (λ ka, is_router ka && (ka.1 =? id)) es.
Definition router_count (c : circuit router) : nat := length (filter (λ ka, is_router ka = true) (ascending (adjacencies c))).

Lemma router_list_rt es : Forall sendable es → ∃ bs, router_list es = Ok bs ∧ bytes_ok bs ∧
  length bs = (RSent.wire_size * length (filter (λ ka, is_router ka = true) es))%nat ∧
  ∀ n id, (length bs ≤ n)%nat → listed_in n id bs = names id es.
Proof.
  induction es as [|[k a] es IH]; intros Hes.
  { exists []. split_and!; [done|by constructor|done|]. by intros [|n] id _. }
  inversion Hes as [|? ? [Hk Hp] Hes']; subst. destruct (IH Hes') as (bs & E & Hb & Hl & Hn). cbn [router_list].
  rewrite filter_cons. rewrite <- (negb_involutive (la_ntype a =? ENDNODE)).
  change (negb (la_ntype a =? ENDNODE)) with (is_router (k, a)). destruct (is_router (k, a)) eqn:Er; cbn [negb].
  - destruct (rsent_rt k a Hk (Hp eq_refl)) as (b & E' & Hb' & Hl' & D). rewrite E'. cbn. rewrite E. cbn.
    exists (b ++ bs). split; [done|]. split; [by apply Forall_app|]. rewrite length_app, Hl', Hl.
    split; [rewrite decide_True by done; cbn; lia|]. intros [|n] id Hn'; [cbn in Hn'; lia|].
    cbn [listed_in]. unfold len. rewrite length_app, Hl'. rewrite (proj2 (Z.ltb_ge _ _)) by (unfold RSent.wire_size; lia).
    rewrite take_app_length' by done. unfold packet_decode. rewrite D. cbn [mbind result_bind RSent.policy].
    change (Decoder.empty []) with true. cbv beta iota. rewrite drop_app_length' by done.
    change (RSent.router (rsent_of k a)) with k. cbn [names existsb fst]. rewrite Er. cbn [andb].
    destruct (Z.eqb_spec k id); [done|]. by rewrite Hn by (rewrite Hl; unfold RSent.wire_size in *; lia).
  - exists bs. split; [done|]. split; [done|]. rewrite decide_False by congruence. split; [done|].
    intros n id Hn'. rewrite Hn by done. cbn. by rewrite Er.
Qed.

(** What encodes fits: no loud priority, and not too many. *)
Lemma router_list_fits es bs : Forall (λ ka, 0 ≤ la_prio ka.2 < 256) es → router_list es = Ok bs →
  Forall (λ ka, is_router ka = true → la_prio ka.2 < 128) es ∧
  length bs = (RSent.wire_size * length (filter (λ ka, is_router ka = true) es))%nat.
Proof.
  intros Hes. revert bs. induction Hes as [|[k a] es Hp Hes IH]; intros bs; [by intros [= <-]|]. cbn [router_list].
  rewrite filter_cons. rewrite <- (negb_involutive (la_ntype a =? ENDNODE)).
  change (negb (la_ntype a =? ENDNODE)) with (is_router (k, a)). destruct (is_router (k, a)) eqn:Er; cbn [negb]; intros E.
  - apply bind_Ok in E as (b & Eb & E). apply bind_Ok in E as (bs' & E & [= <-]). destruct (IH bs' E) as [H1 H2].
    destruct (decide (la_prio a < 128)) as [Hq|Hq].
    + split; [by constructor|]. rewrite decide_True, length_app, H2 by done. cbn [length fst snd] in *.
      enough (length b = RSent.wire_size) as -> by (cbn; lia).
      cbn [RSent.layout encode_rows field r_encode BV c_encode NodeidField] in Eb. inv_result.
      repeat match goal with H : rethrow _ (if ?b then _ else _) = _ |- _ => destruct b; [discriminate H|] end.
      cbn [rethrow] in *. inv_result. cbn [bm r_encode] in *. inv_result.
      rewrite !length_app. cbn [length]. by rewrite !uint_length.
    + destruct (rsent_loud k a) as [e Ee]; [cbn in Hp; lia|]. rewrite Ee in Eb. discriminate Eb.
  - destruct (IH bs E) as [H1 H2]. split; [constructor; [congruence|done]|]. by rewrite decide_False by congruence.
Qed.

Lemma elist_rt rs : image 236 rs → ∃ el, encode_rows Elist.layout (Elist.set_rslist rs Elist.new) = Ok el ∧
  image 244 el ∧ decode_rows Elist.layout Elist.new el = Ok (Elist.mk rs, []).
Proof.
  intros Hi. destruct (plain_rt Elist.layout _ _ (Elist.mk rs) Elist.new (Elist.mk rs) _) as (el & E & Hb & D);
    [cbn; by split_and!|done|].
  exists el. split; [exact E|]. split; [|exact D]. destruct Hi as (Hl & _ & _). split; [|done].
  cbn [Elist.layout encode_rows reserved field r_encode I c_encode Elist.rslist] in E.
  cbn [mbind result_bind rethrow] in E. replace (236 <? len rs) with false in E by lia.
  cbn [rethrow mbind result_bind] in E. injection E as <-. unfold len in *. cbn. rewrite ?length_app. cbn. unfold Encoder.raw. lia.
Qed.

(** The hello of a circuit whose table can be sent, as it is read. *)
Definition station_ok (c : circuit router) : Prop :=
  fits 2 (p_nodeid (own c)) ∧ Version_ok (p_tiver (own c)) ∧ fits 1 (prio (self c)).

Lemma build_elist_rt c : Forall sendable (ascending (adjacencies c)) → (router_count c ≤ 33)%nat →
  ∃ el, build_elist false c = Ok el ∧ image 244 el ∧
    ∀ h id, RouterHello.elist h = el → lists h id = names id (ascending (adjacencies c)).
Proof.
  intros Hs Hn. destruct (router_list_rt _ Hs) as (rs & E & Hb & Hl & Hq). fold (router_count c) in Hl.
  destruct (elist_rt rs) as (el & E' & Hi & D); [split; [unfold len; rewrite Hl; cbn; lia|by split]|].
  exists el. unfold build_elist. rewrite E. cbn [mbind result_bind]. split; [done|]. split; [done|].
  intros h id <-. unfold lists, packet_decode. rewrite D. cbn. by apply Hq.
Qed.

Lemma hello_first c f : encode_packet (PRouterHello c) = Ok f → RouterHello.control c = true → RouterHello.type c = 5 →
  RouterHello.ext_type c = 0 → RouterHello.pf c = false → padded f = false.
Proof.
  intros E H1 H2 H3 H4. cbn [encode_packet] in E. apply first_bits in E as [rest ->]; try done.
  - cbn. by rewrite H1, H2, H3, H4.
  - repeat apply Forall_cons_2; try apply Forall_nil_2; cbn; by rewrite ?H1, ?H2, ?H3, ?H4.
Qed.

Lemma hello_len h f : encode_packet (PRouterHello h) = Ok f → len f < 65536.
Proof.
  intros E. cbn [encode_packet RouterHello.layout encode_rows field reserved r_encode B BV I NodeidField VersionField c_encode] in E.
  inv_result.
  repeat match goal with H : rethrow _ (if ?b then _ else _) = _ |- _ => destruct b eqn:?; [discriminate H|] end.
  cbn [rethrow] in *. inv_result. cbn [bm r_encode] in *. inv_result. zbool.
  unfold len in *. rewrite !length_app. cbn [length]. rewrite ?uint_length. unfold Encoder.zeros, Encoder.raw.
  rewrite ?length_replicate. repeat match goal with |- context [bm_flen ?b] => change (bm_flen b) with 1%nat end. cbn. lia.
Qed.

Lemma hello_parsed c el : station_ok c → image 244 el →
  ∃ f, encode_packet (PRouterHello (router_hello el c)) = Ok f ∧ decode f = Some (PRouterHello (router_hello el c)).
Proof.
  intros (Hid & Hv & Hp) Hi.
  destruct (routing_parse_encode_any (PRouterHello (router_hello el c))) as (f & E & Hb & Hf).
  { cbn. split_and!; try assumption; [done|]. split; [exact Hv|]. split; [split; [done|by repeat constructor]|].
    split; [exact Hid|]. split; [unfold own_ntype; by destruct (_ =? _)|]. split; [done|apply u16_range]. }
  exists f. split; [done|]. unfold decode. rewrite bool_decide_eq_false_2.
  - rewrite (hello_first _ f E); [exact Hf|done..].
  - exact (frame_nonempty f _ Hf).
Qed.

(** A circuit that can send its hello: it is who it says it is, its neighbours'
    priorities fit in the list, and they are not too many. *)
Definition tellable (c : circuit router) : Prop :=
  station_ok c ∧ Forall sendable (ascending (adjacencies c)) ∧ (router_count c ≤ 33)%nat.

Lemma hello_frame_rt c : tellable c → ∃ el f, hello_frame false c = Ok f ∧
  decode f = Some (PRouterHello (router_hello el c)) ∧
  ∀ id, lists (router_hello el c) id = names id (ascending (adjacencies c)).
Proof.
  intros (Hst & Hs & Hn). destruct (build_elist_rt c Hs Hn) as (el & E & Hi & Hl).
  destruct (hello_parsed c el Hst Hi) as (f & Ef & Hd). exists el, f. unfold hello_frame. rewrite E. split; [exact Ef|].
  split; [done|]. intros id. by apply Hl.
Qed.
Lemma names_true id m : names id (ascending m) = true ↔ ∃ a, m !! id = Some a ∧ la_ntype a ≠ ENDNODE.
Proof.
  unfold names. rewrite existsb_exists. split.
  - intros ([k a] & Hin & [Hr%negb_true_iff%Z.eqb_neq Hk%Z.eqb_eq]%andb_true_iff). cbn in *. subst k.
    exists a. split; [|done]. by apply elem_of_ascending, list_elem_of_In.
  - intros (a & Ha & Hn). exists (id, a). split; [by apply list_elem_of_In, elem_of_ascending|].
    unfold is_router. cbn. rewrite Z.eqb_refl, andb_true_r. by apply negb_true_iff, Z.eqb_neq.
Qed.
