(* ===== verification/LanFaults.v ===== *)
(** Where a router's broadcast circuit falls short of what it is meant to do:
    hellos that stop, an election that never ends, a farewell nobody heeds. *)

From stdpp Require Import sorting.
From S2P Require Import Prelude Action Buffer Types Bc Codec Layout Indexed RoutingPackets RouteTable Float Adjacency Timers.
From S2P Require Import Lan LanBook LanElection LanHello.
#[local] Open Scope Z_scope.
#[local] Strategy 1000 [hello_frame encode_packet].

(** ** Hellos that stop *)

(** A neighbour of a priority that the router list cannot carry, or more
    routers than it holds. *)
Definition overloaded (c : circuit router) : Prop :=
  (∃ key a, entry key c = Some a ∧ la_ntype a ≠ ENDNODE ∧ 128 ≤ la_prio a < 256) ∨ (33 < router_count c)%nat.

Lemma overloaded_throws c : (∀ key a, entry key c = Some a → 0 ≤ la_prio a < 256) → overloaded c →
  ∃ e, hello_frame false c = Throw e.
Proof.
  intros Hp Ho. unfold hello_frame, build_elist.
  destruct (router_list (ascending (adjacencies c))) as [rs|e] eqn:E; [|by exists e].
  destruct (router_list_fits (ascending (adjacencies c)) rs) as [H1 H2]; [|exact E|].
  { apply Forall_forall. intros [k a] Hin. by apply (Hp k), elem_of_ascending. }
  cbn [mbind result_bind]. destruct Ho as [(key & a & Ha & Hn & Hl)|Ho].
  - exfalso. rewrite Forall_forall in H1. specialize (H1 (key, a)). cbn in H1.
    enough (la_prio a < 128) by lia. apply H1; [by apply elem_of_ascending|].
    unfold is_router. cbn. by apply negb_true_iff, Z.eqb_neq.
  - exists FieldOverflow. cbn [Elist.layout encode_rows reserved field r_encode I c_encode Elist.rslist Elist.set_rslist].
    replace (236 <? len rs) with true; [done|]. symmetry. apply Z.ltb_lt. unfold len. rewrite H2.
    unfold RSent.wire_size. fold (router_count c). lia.
Qed.

(** one hello of a priority of 128 or more, which its eight bit field can
    carry but the seven bits of a router list cannot, or a thirty-fourth router
    on the circuit, silences a router for good: at the next tick of the hello
    timer no hello is sent, the timer is not restarted, and whatever happens
    then, short of the circuit being started again, it is never restarted. *)
Theorem hello_timer_dies c es : timer c ≠ None → (∀ key a, entry key c = Some a → 0 ≤ la_prio a < 256) →
  overloaded c → Forall (λ e, e ≠ Start) es →
  outs (step c HelloTimer) = outs c ∧ timer (run (step c HelloTimer) es) = None.
Proof.
  intros Ht Hp Ho Hes. destruct (overloaded_throws (with_timer None c)) as [e He]; [exact Hp|exact Ho|].
  assert (step c HelloTimer = with_timer None c) as ->.
  { cbn [step]. destruct (timer c); [|done]. unfold after, timeout, mbind, Action_bind.
    cbn [send_hello router_class]. unfold rt_send_hello, mbind, Action_bind, act_get, act_lift. cbn [id]. by rewrite He. }
  split; [done|]. clear He. assert (timer (with_timer None c) = None) as Hn by done. revert Hn.
  generalize (with_timer None c). clear Ht Hp Ho c.
  induction Hes as [|x es Hx _ IH]; intros c Hn; [exact Hn|]. apply IH. by apply step_no_timer.
Qed.

(** ** An election that never ends *)

(** Nobody is heard, and the circuit thinks that its election timer runs. *)
Definition waiting (c : circuit router) : Prop :=
  adjacencies c = ∅ ∧ drtimer (self c) = None ∧ drtimer_running (self c) = true ∧ isdr (self c) = false.
Definition unheard (e : event) : Prop := match e with Frame _ _ _ _ => False | _ => True end.

Lemma waiting_best c : waiting c → best_dr c = (p_nodeid (own c), true).
Proof. intros (Ha & _). unfold best_dr. rewrite Ha. reflexivity. Qed.
Lemma waiting_calc c : waiting c → calc_dr c = (Ok tt, c).
Proof.
  intros H. unfold calc_dr, mbind, Action_bind, act_get. cbn [id]. rewrite waiting_best by done.
  destruct H as (_ & _ & -> & ->). reflexivity.
Qed.
Lemma waiting_hello : keeps waiting rt_send_hello.
Proof. unfold rt_send_hello, transmit. by keep_walk. Qed.
Lemma stop_waiting c : adjacencies c = ∅ → drtimer_running (self c) = true → isdr (self c) = false → waiting (step c Stop).
Proof.
  intros Ha Hr Hi. cbn [step].
  unfold after, rt_stop. unfold mbind at 1, Action_bind at 1, act_do at 1.
  match goal with |- waiting (?m ?c').2 => apply (keeps_after m _ c'); [|by split_and!] end.
  unfold lan_stop, transmit. by keep_walk.
Qed.
Lemma waiting_step c e : unheard e → waiting c → waiting (step c e).
Proof.
  intros He Hc. assert (keeps waiting hello_timer_start) as Ht.
  { unfold hello_timer_start, wheel_takes. by keep_walk. }
  assert (keeps waiting calc_dr) as Hd by (intros s Hs; by rewrite waiting_calc).
  destruct e as [| | | |key|ptr now f src|p n|f]; cbn [step]; try destruct He.
  - apply keeps_after; [|done]. unfold rt_start, lan_start. keep_walk; [apply waiting_hello|apply Ht|apply Hd].
  - apply stop_waiting; apply Hc.
  - destruct (timer c); [|done]. apply keeps_after; [|done]. unfold timeout. keep_walk; [apply waiting_hello|apply Ht].
  - pose proof Hc as (_ & Hn & _). by rewrite Hn.
  - pose proof Hc as (Ha & _). unfold listen_timer, entry. by rewrite Ha, lookup_empty.
  - apply keeps_after; [|done]. unfold send_to, send_to_mac, transmit. by keep_walk.
  - by apply keeps_after; [apply keeps_do|].
Qed.

(** What [start] makes of a new circuit. *)
Lemma rt_send_hello_eq c f : isdr (self c) = false → hello_frame false c = Ok f →
  rt_send_hello c = (Ok tt, say (Transmit f all_routers) c).
Proof.
  intros Hi Hf. unfold rt_send_hello, mbind, Action_bind, act_get, act_lift, transmit, act_do, act_when. cbn [id].
  by rewrite Hf, Hi.
Qed.
Lemma hello_timer_start_eq (c : circuit router) : within_span (l_t3 (conf c)) = true →
  hello_timer_start c = (Ok tt, with_timer (Some (l_t3 (conf c))) c).
Proof. intros Hs. unfold hello_timer_start, mbind, Action_bind, act_get, wheel_takes. cbn [id]. by rewrite Hs. Qed.
Lemma calc_dr_alone c : (best_dr c).2 = true → isdr (self c) = false → drtimer_running (self c) = false →
  calc_dr c = (Ok tt, with_drtimer (Some DRDELAY) (with_drtimer_running true c)).
Proof.
  intros Hb Hi Hr. unfold calc_dr, mbind, Action_bind, act_get. cbn [id]. destruct (best_dr c) as [who o]. cbn in Hb. subst o.
  unfold act_when. rewrite Hi, Hr. reflexivity.
Qed.
Lemma started c f : (best_dr c).2 = true → isdr (self c) = false → drtimer_running (self c) = false →
  hello_frame false c = Ok f → within_span (l_t3 (conf c)) = true →
  step c Start = with_drtimer (Some DRDELAY) (with_drtimer_running true
    (with_timer (Some (l_t3 (conf c))) (say (Transmit f all_routers) c))).
Proof.
  intros Hb Hi Hr Hf Hs. cbn [step]. unfold after, rt_start, lan_start. cbn [send_hello router_class].
  unfold mbind, Action_bind. rewrite (rt_send_hello_eq c f) by done.
  rewrite (hello_timer_start_eq (say _ c)) by done. by rewrite calc_dr_alone.
Qed.

(** stopping a circuit stops its election timer but leaves the note that it
    runs.  A circuit that is stopped within the five seconds of [DRDELAY] and
    started again waits for a timer that nobody starts: while no router is
    heard it never becomes designated router, though it is alone.  Left
    running, it does when the timer expires. *)
Theorem restart_never_designated i p t3 cost priority maxr f es :
  let c := new_router i p t3 cost priority maxr in
  hello_frame false c = Ok f → within_span (l_t3 (conf c)) = true → Forall unheard es →
  isdr (self (run c [Start; DrTimer])) = true ∧ isdr (self (run c ([Start; Stop; Start] ++ es))) = false.
Proof.
  intros c Hf Hs Hes. pose proof (started c f eq_refl eq_refl eq_refl Hf Hs) as E. split.
  - cbn [run foldl]. rewrite E. cbn [step self drtimer with_drtimer with_self]. unfold after, become_dr, mbind, Action_bind, act_do, act_get.
    cbn [id]. match goal with |- context [best_dr ?c'] => replace (best_dr c').2 with true by reflexivity end.
    apply (keeps_after rt_send_hello (λ c, isdr (self c) = true)); [|done]. unfold rt_send_hello, transmit. by keep_walk.
  - unfold run. rewrite foldl_app. cbn [foldl]. rewrite E.
    match goal with |- isdr (self (foldl step ?c' es)) = false => assert (waiting c') as Hw; [|revert Hw; generalize c'] end.
    { apply waiting_step; [done|]. by apply stop_waiting. }
    induction Hes as [|e es He _ IH]; intros c' Hw; [apply Hw|]. apply IH. by apply waiting_step.
Qed.

(** ** A farewell nobody heeds *)

Lemma calc_dr_entry key x : keeps (λ c, entry key c = x) calc_dr.
Proof. unfold calc_dr, rt_send_hello, transmit, wheel_takes. by keep_walk. Qed.

(** A hello from a router that is up leaves it up, whatever it lists. *)
Lemma hello_stays_up k pr c ptr h src : Inv k pr c → hello_ok k (RouterHello.ident h) (RouterHello.timer h) →
  two_way (RouterHello.ident h) c = true →
  let c' := after (rt_router_hello ptr h src) c in
  two_way (RouterHello.ident h) c' = true ∧ listen_timer (RouterHello.ident h) c' = listen_timer (RouterHello.ident h) c.
Proof.
  intros [Hs Hd] Hh Hu. set (key := RouterHello.ident h) in *. destruct (in_reach c h) eqn:Hr.
  - destruct (router_hello_eq k pr ptr h src c Hs Hh Hr) as (b & n & os & E & Hs' & _ & _ & Hup & Hj & _).
    fold key in E, Hs', Hup, Hj. rewrite Hu in Hup. unfold two_way in Hu. destruct (entry key c) as [a|] eqn:Ea; [|discriminate Hu].
    specialize (Hj a eq_refl Hu). unfold after. rewrite E.
    match goal with |- context [calc_dr ?c1] => pose proof (keeps_after calc_dr _ c1 (calc_dr_entry key (Some b))) as Hk end.
    unfold after in Hk. unfold two_way, listen_timer. rewrite Hk by apply lookup_insert_eq. rewrite Ea. cbn. by rewrite Hj.
  - unfold after, rt_router_hello, mbind, Action_bind, act_get. cbn [id].
    replace (negb _ && negb _) with true; [done|]. unfold in_reach in Hr. by destruct (_ =? homearea c), (_ && _).
Qed.

(** a router that stops sends a hello with an empty router list, "so
    neighbours drop us promptly instead of waiting for the listen timer".  They
    do not: a neighbour that has it up keeps it up, with its listen timer as it
    was, whatever came before. *)
Theorem farewell_ignored i p t3 cost priority maxr es other f ptr now src :
  let k := new_conf i p t3 cost in
  let c := run (new_router i p t3 cost priority maxr) es in
  Forall (event_ok k) es → station_ok other → hello_frame true other = Ok f →
  hello_ok k (p_nodeid (own other)) (u16 (f_to_unsigned (l_t3 (conf other)))) →
  two_way (p_nodeid (own other)) c = true →
  (∃ h, decode f = Some (PRouterHello h) ∧ lists h (p_nodeid p) = false) ∧
  let c' := step c (Frame ptr now f src) in
  two_way (p_nodeid (own other)) c' = true ∧
  listen_timer (p_nodeid (own other)) c' = listen_timer (p_nodeid (own other)) c.
Proof.
  intros k c Hes Ho Hf Hh Hu. destruct (elist_rt []) as (el & Eel & Hi & D); [split; [done|by split; [|apply Forall_nil_2]]|].
  destruct (hello_parsed other el Ho Hi) as (f' & Ef & Hdec).
  unfold hello_frame, build_elist in Hf. cbn [mbind result_bind] in Hf. rewrite Eel in Hf. cbn [mbind result_bind] in Hf.
  rewrite Ef in Hf. injection Hf as ->. split.
  - exists (router_hello el other). split; [exact Hdec|]. unfold lists, packet_decode.
    change (RouterHello.elist (router_hello el other)) with el. rewrite D. reflexivity.
  - cbn [step]. unfold dispatch. rewrite Hdec. cbn [handle router_class rt_handle].
    apply (hello_stays_up k _ c ptr (router_hello el other) src (reachable_inv i p t3 cost priority maxr es Hes) Hh Hu).
Qed.

(** ** Witnesses *)

Definition example_new : circuit router := new_router 1 example_parent 15 0 0 0.
(** Started; then a hello of priority 128 from 1.6. *)
Definition example_loud : circuit router :=
  run example_new [Start; Frame 100 0 (example_frame (example_hello 6 128 15 [])) [2; 0; 0; 0; 0; 6]].
Lemma hello_timer_dies_witness :
  outs (step example_loud HelloTimer) = outs example_loud ∧
  timer (run (step example_loud HelloTimer) [DrTimer; HelloTimer]) = None.
Proof.
  apply hello_timer_dies.
  - vm_compute. discriminate.
  - intros key a Ha. assert (map_Forall (λ _ a, 0 ≤ la_prio a < 256) (adjacencies example_loud)) as H.
    { apply (bool_decide_unpack _). vm_compute. exact Logic.I. }
    exact (H key a Ha).
  - left. assert (is_Some (entry (Nodeid.make 1 6) example_loud)) as [a Ha] by (vm_compute; by eexists).
    exists (Nodeid.make 1 6), a. split; [exact Ha|]. vm_compute in Ha. apply (inj Some) in Ha. subst a. by split.
  - by repeat constructor.
Defined.

Lemma restart_never_designated_witness :
  isdr (self (run example_new [Start; DrTimer])) = true ∧
  isdr (self (run example_new ([Start; Stop; Start] ++ [DrTimer; HelloTimer]))) = false.
Proof.
  destruct (hello_frame false example_new) as [f|] eqn:E; [|vm_compute in E; discriminate E].
  apply (restart_never_designated 1 example_parent 15 0 0 0 f); [exact E|vm_compute; reflexivity|by repeat constructor].
Defined.

(** 1.6 stops; 1.5 has it up. *)
Definition example_other : circuit router :=
  new_router 2 (mkParent (Nodeid.make 1 6) L1ROUTER 4 tiver_ph4 1023 63) 15 0 0 0.
Lemma farewell_ignored_witness :
  let c := run example_new (take 3 example_events) in
  two_way (Nodeid.make 1 6) c = true ∧
  ∃ f, hello_frame true example_other = Ok f ∧ two_way (Nodeid.make 1 6) (step c (Frame 101 0 f [2; 0; 0; 0; 0; 6])) = true.
Proof.
  intros c. assert (two_way (p_nodeid (own example_other)) c = true) as Hu by (vm_compute; reflexivity). split; [exact Hu|].
  assert (∃ f, hello_frame true example_other = Ok f) as [f E] by (vm_compute; eexists; reflexivity).
  assert (station_ok example_other) as Ho.
  { split; [by split|]. split; [|by split]. repeat split; discriminate. }
  assert (hello_ok (new_conf 1 example_parent 15 0) (p_nodeid (own example_other))
    (u16 (f_to_unsigned (l_t3 (conf example_other))))) as Hh by (split; [discriminate|vm_compute; reflexivity]).
  exists f. split; [exact E|].
  exact (proj1 (proj2 (farewell_ignored 1 example_parent 15 0 0 0 (take 3 example_events) example_other f 101 0
    [2; 0; 0; 0; 0; 6] (Forall_take _ _ _ example_events_ok) Ho E Hh Hu))).
Defined.
