(* ===== verification/LanSystem.v ===== *)
(** Routers on one broadcast circuit: stations, each a datalink with the port
    of its routing circuit, and the frames they have put on the wire.

    A frame stays on the wire once sent: delivering it to a station, in any
    order and any number of times, or never, is an event, so the wire loses,
    repeats and reorders. *)

From stdpp Require Import sorting.
From S2P Require Import Prelude Action Buffer Types Bc Codec Layout Indexed RoutingPackets RouteTable Float Adjacency Timers.
From S2P Require Import Lan LanBook LanElection LanHello.
#[local] Open Scope Z_scope.
#[local] Strategy 1000 [hello_frame encode_packet].

(** ** Stations *)

(** What a station is configured with: the circuit's number and options, its
    router, and the address of its interface. *)
Record member := mkMember {
  m_circuit : Z; m_parent : parent; m_t3 : Z; m_cost : Z; m_priority : Z; m_maxrouters : Z; m_hwaddr : Bytes }.
Definition m_new (m : member) : circuit router :=
  new_router (m_circuit m) (m_parent m) (m_t3 m) (m_cost m) (m_priority m) (m_maxrouters m).
Definition m_conf (m : member) : lan_conf := conf (m_new m).
Definition m_prio (m : member) : Z := prio (self (m_new m)).

Record station := mkStation { datalink : BcDatalink; lan_circuit : circuit router }.

(** The port a circuit makes: the routing protocol, the node's address, and the
    routers' multicast address. *)
Definition open_port (id : Z) (mac : Bytes) (dl : BcDatalink) : result BcDatalink :=
  dl ← create_bc_port id ROUTING_PROTO true dl;
  match reverse (ports dl) with
  | p :: ps =>
      p ← set_macaddr mac p; p ← add_multicast all_routers p;
      Ok (mkBc (reverse (p :: ps)) (hwaddr dl) (unk_dest dl))
  | [] => Throw InternalError
  end.
Definition new_station (m : member) : station :=
  mkStation (match open_port (m_circuit m) (Macaddr.from_nodeid (p_nodeid (m_parent m))) (mkBc [] (m_hwaddr m) 0) with
             | Ok dl => dl | Throw _ => mkBc [] (m_hwaddr m) 0 end) (m_new m).

(** What a circuit transmits goes out of its port. *)
Fixpoint send_all (os : list output) (p : BcPort) : BcPort * list Bytes :=
  match os with
  | [] => (p, [])
  | Transmit f d :: os => let '(p, fr) := send f d p in let '(p, frs) := send_all os p in (p, fr :: frs)
  | _ :: os => send_all os p
  end.
Definition act (e : event) (s : station) : station * list Bytes :=
  let c := step (lan_circuit s) e in
  match ports (datalink s) with
  | p :: ps =>
      let '(p, frs) := send_all (drop (length (outs (lan_circuit s))) (outs c)) p in
      (mkStation (mkBc (p :: ps) (hwaddr (datalink s)) (unk_dest (datalink s))) c, frs)
  | [] => (mkStation (datalink s) c, [])
  end.

Record lan := mkLanState { stations : gmap Z station; wire : list Bytes }.

Definition local (i : Z) (e : event) (l : lan) : lan :=
  match stations l !! i with
  | Some s => let '(s, frs) := act e s in mkLanState (<[i := s]> (stations l)) (wire l ++ frs)
  | None => l
  end.
(** The [n]th frame that was sent reaches station [j]. *)
Definition deliver (n : nat) (j ptr now : Z) (l : lan) : lan :=
  match wire l !! n, stations l !! j with
  | Some frame, Some s =>
      let '(dl, item) := receive_frame frame (datalink s) in
      let s := mkStation dl (lan_circuit s) in
      match item with
      | Some (_, packet, src) =>
          let '(s, frs) := act (Frame ptr now packet src) s in
          mkLanState (<[j := s]> (stations l)) (wire l ++ frs)
      | None => mkLanState (<[j := s]> (stations l)) (wire l)
      end
  | _, _ => l
  end.

Inductive lan_event := Local (i : Z) (e : event) | Deliver (n : nat) (j ptr now : Z).
Definition lan_step (l : lan) (e : lan_event) : lan :=
  match e with Local i e => local i e l | Deliver n j ptr now => deliver n j ptr now l end.
(** The circuits run by themselves: only their timers, starts and stops. *)
Definition own_event (e : event) : Prop :=
  match e with Start | Stop | HelloTimer | DrTimer | ListenTimer _ => True | _ => False end.
Definition lan_event_ok (e : lan_event) : Prop := match e with Local _ e => own_event e | Deliver _ _ _ _ => True end.
Definition lan_run : lan → list lan_event → lan := foldl lan_step.
Definition lan_start (ms : gmap Z member) : lan := mkLanState (new_station <$> ms) [].

(** ** What the stations know *)

Definition hello_timer (m : member) : Z := u16 (f_to_unsigned (l_t3 (m_conf m))).
Definition m_ntype (m : member) : Z := if p_ntype (m_parent m) =? L2ROUTER then L2ROUTER else L1ROUTER.

(** Members that can share a circuit: addresses of their own, priorities that a
    router list carries, and hello timers that every member can listen for. *)
Record member_ok (ms : gmap Z member) (i : Z) (m : member) : Prop := {
  mo_id : p_nodeid (m_parent m) = i;
  mo_range : Nodeid.ok i;
  mo_tiver : Version_ok (p_tiver (m_parent m));
  mo_prio : 0 ≤ m_prio m < 128;
  mo_hwaddr : ∀ j m', ms !! j = Some m' → Macaddr.from_nodeid j ≠ m_hwaddr m;
  mo_timer : ∀ j m', ms !! j = Some m' → within_span (listen_time (l_t3 (m_conf m)) (hello_timer m')) = true;
}.
Definition members_ok (ms : gmap Z member) : Prop := (size ms ≤ 34)%nat ∧ map_Forall (member_ok ms) ms.

(** A hello that tells the truth about member [i]. *)
Definition hello_from (i : Z) (m : member) (h : RouterHello.t) : Prop :=
  RouterHello.ident h = i ∧ RouterHello.prio h = m_prio m ∧ RouterHello.timer h = hello_timer m ∧ router_ntype h = m_ntype m.
(** Entries that are true of other members. *)
Definition knows (ms : gmap Z member) (i : Z) (c : circuit router) : Prop :=
  ∀ k a, entry k c = Some a → k ≠ i ∧ ∃ m, ms !! k = Some m ∧ la_ntype a = m_ntype m ∧ la_prio a = m_prio m.

Section Member.
Context (ms : gmap Z member) (Hms : members_ok ms) (i : Z) (m : member) (Hi : ms !! i = Some m).

Lemma member_here : member_ok ms i m.
Proof. exact (proj2 Hms i m Hi). Qed.
Lemma m_ntype_router m' : m_ntype m' ≠ ENDNODE.
Proof. unfold m_ntype. by destruct (_ =? _). Qed.

(** Who knows only members can send its hello. *)
Lemma knows_count c : knows ms i c → (router_count c ≤ 33)%nat.
Proof.
  intros Hk. unfold router_count. etransitivity; [apply length_filter|].
  assert (length (ascending (adjacencies c)) = size (adjacencies c)) as ->.
  { unfold ascending. rewrite merge_sort_Permutation. apply length_map_to_list. }
  rewrite <- size_dom. transitivity (size (dom ms ∖ {[i]})).
  - apply subseteq_size. intros k [a Ha]%elem_of_dom. destruct (Hk k a Ha) as (Hn & m' & Hm & _).
    apply elem_of_difference. split; [by apply elem_of_dom|]. by intros ?%elem_of_singleton.
  - rewrite size_difference by (apply singleton_subseteq_l, elem_of_dom; by exists m).
    rewrite size_dom, size_singleton. destruct Hms. lia.
Qed.
Lemma knows_sendable c : knows ms i c → Forall sendable (ascending (adjacencies c)).
Proof.
  intros Hk. apply Forall_forall. intros [k a] Ha%elem_of_ascending. destruct (Hk k a Ha) as (_ & m' & Hm & _ & Hp).
  pose proof (proj2 Hms k m' Hm) as Ho. split; [exact (mo_range _ _ _ Ho)|]. intros _. cbn. rewrite Hp. apply Ho.
Qed.

(** The circuit of the member. *)
Record told (c : circuit router) : Prop := {
  t_conf : conf c = m_conf m;
  t_prio : prio (self c) = m_prio m;
  t_knows : knows ms i c;
}.
Lemma told_tellable c : told c → tellable c.
Proof.
  intros [Hc Hp Hk]. pose proof member_here as Ho. split; [|split; [by apply knows_sendable|by apply knows_count]].
  unfold station_ok, own. rewrite Hc, Hp. change (l_parent (m_conf m)) with (m_parent m). rewrite (mo_id _ _ _ Ho).
  split; [exact (mo_range _ _ _ Ho)|]. split; [apply Ho|]. pose proof (mo_prio _ _ _ Ho). split; [lia|]. change (m_prio m < 256). lia.
Qed.

Lemma hello_true c el : told c → hello_from i m (router_hello el c).
Proof.
  intros [Hc Hp Hk]. pose proof (mo_id _ _ _ member_here) as Ho.
  split; [|split; [|split]]; cbn [router_hello RouterHello.set_elist RouterHello.set_timer RouterHello.set_prio
    RouterHello.set_blksize RouterHello.set_ntype RouterHello.set_ident RouterHello.set_tiver RouterHello.ident
    RouterHello.prio RouterHello.timer].
  - unfold own. rewrite Hc. exact Ho.
  - exact Hp.
  - rewrite Hc. reflexivity.
  - unfold router_ntype, m_ntype. change (RouterHello.ntype (router_hello el c)) with (own_ntype c).
    unfold own_ntype, own. rewrite Hc. change (l_parent (m_conf m)) with (m_parent m). destruct (p_ntype (m_parent m) =? L2ROUTER); reflexivity.
Qed.

(** *** What the circuit says *)

Definition member_hello (f : Bytes) : Prop := (∃ h, decode f = Some (PRouterHello h) ∧ hello_from i m h) ∧ len f < 65536.
Definition says (o : output) : Prop :=
  match o with Transmit f d => member_hello f ∧ (d = all_routers ∨ d = all_endnodes) | _ => True end.
(** The circuit, having said only such things since its log was [os]. *)
Definition speaks (os : list output) (c : circuit router) : Prop :=
  told c ∧ ∃ os', outs c = os ++ os' ∧ Forall says os'.

Lemma frame_says c empty f : told c → hello_frame empty c = Ok f → member_hello f.
Proof.
  intros Ht Hf. assert (∃ el, encode_packet (PRouterHello (router_hello el c)) = Ok f ∧ image 244 el) as (el & E & Hi').
  { destruct (told_tellable c Ht) as (Hst & Hs & Hn). unfold hello_frame in Hf. destruct empty.
    - destruct (elist_rt []) as (el & E & Hi' & _); [split; [done|by split; [|apply Forall_nil_2]]|].
      unfold build_elist in Hf. cbn [mbind result_bind] in Hf. rewrite E in Hf. by exists el.
    - destruct (build_elist_rt c Hs Hn) as (el & E & Hi' & _). rewrite E in Hf. by exists el. }
  split; [|by eapply hello_len]. exists (router_hello el c). split; [|by apply hello_true].
  destruct (hello_parsed c el) as (f' & E' & Hd); [apply told_tellable, Ht|done|]. rewrite E in E'. by injection E' as ->.
Qed.

Section Speaks.
Context (os : list output).
#[local] Abbreviation speaking := (speaks os).

Lemma speaks_say o c : says o → speaking c → speaking (say o c).
Proof.
  intros Ho [Ht (os' & E & Hs)]. split; [by destruct Ht|]. exists (os' ++ [o]). cbn. rewrite E, app_assoc.
  split; [done|]. apply Forall_app. split; [done|]. by constructor.
Qed.
(** A change that leaves the log alone, and the table true. *)
Lemma speaks_same c c' : conf c' = conf c → prio (self c') = prio (self c) → outs c' = outs c →
  (knows ms i c → knows ms i c') → speaking c → speaking c'.
Proof. intros E1 E2 E3 Hk [[H1 H2 H3] H]. split; [split; [congruence|congruence|auto]|by rewrite E3]. Qed.
Lemma speaks_fine c c' : conf c' = conf c → prio (self c') = prio (self c) → outs c' = outs c →
  adjacencies c' = adjacencies c → speaking c → speaking c'.
Proof. intros E1 E2 E3 E4. apply speaks_same; try done. unfold knows, entry. by rewrite E4. Qed.

Lemma knows_put key a c : knows ms i c → (key ≠ i ∧ ∃ m, ms !! key = Some m ∧ la_ntype a = m_ntype m ∧ la_prio a = m_prio m) →
  knows ms i (put key a c).
Proof.
  intros Hk Ha k b. unfold entry, put. cbn. destruct (decide (k = key)) as [->|Hn]; [rewrite lookup_insert_eq; by intros [= <-]|].
  rewrite lookup_insert_ne by done. apply Hk.
Qed.
Lemma knows_change key f c : knows ms i c → knows ms i (change_adj key f c).
Proof.
  intros Hk. unfold change_adj. destruct (entry key c) as [a|] eqn:E; [|done]. destruct (la_adj a); [|done].
  apply knows_put; [done|]. exact (Hk key a E).
Qed.
Lemma speaks_change key f c : speaking c → speaking (change_adj key f c).
Proof. apply speaks_same; [unfold change_adj; by cases..|]. apply knows_change. Qed.
Lemma speaks_drop key c : speaking c → speaking (drop_entry key c).
Proof.
  apply speaks_same; [done..|]. intros Hk k a. unfold entry, drop_entry. cbn. rewrite lookup_delete_Some. intros [_ H]. by apply Hk.
Qed.

Lemma hello_speaks : keeps speaking rt_send_hello.
Proof.
  intros c Hc. unfold rt_send_hello, mbind, Action_bind, act_get, act_lift, transmit, act_do. cbn [id].
  destruct (hello_frame false c) as [f|e] eqn:E; [|exact Hc].
  pose proof (frame_says c false f (proj1 Hc) E) as Hf.
  assert (speaking (say (Transmit f all_routers) c)) as H1 by (apply speaks_say; [by split; [|left]|done]).
  destruct (isdr (self c)); [|exact H1]. apply speaks_say; [by split; [|right]|done].
Qed.
Ltac speak := keep_walk; try (apply speaks_say; [exact Logic.I|]); try apply speaks_change; try apply speaks_drop; try assumption;
  try (eapply speaks_fine; [..|eassumption]; reflexivity).
Lemma calc_dr_speaks : keeps speaking calc_dr.
Proof. unfold calc_dr, wheel_takes. keep_walk; try apply hello_speaks; eapply speaks_fine; try eassumption; reflexivity. Qed.
Lemma alive_speaks key : keeps speaking (alive key).
Proof. unfold alive, wheel_takes. speak. Qed.
Lemma adj_down_speaks key j : keeps speaking (adj_down key j).
Proof. unfold adj_down. speak. Qed.
Lemma down_speaks key : keeps speaking (rt_adjacency_down key).
Proof.
  unfold rt_adjacency_down, lan_adjacency_down, lanevent.
  speak; try apply adj_down_speaks; try apply calc_dr_speaks; try apply hello_speaks.
  destruct (_ =? key); [|assumption]. eapply speaks_fine; [..|eassumption]; reflexivity.
Qed.
Lemma hello_timer_speaks : keeps speaking hello_timer_start.
Proof. unfold hello_timer_start, wheel_takes. speak. Qed.
Lemma stop_speaks : keeps speaking rt_stop.
Proof.
  unfold rt_stop. apply keeps_bind; [by apply keeps_do; intros c; apply speaks_fine|intros _].
  intros c Hc. unfold mbind, Action_bind, act_get, act_lift, transmit, lan_stop, act_do. cbn [id].
  destruct (hello_frame true c) as [f|e] eqn:E; [|exact Hc].
  apply (speaks_fine (say (Transmit f all_routers) c)); [done..|]. apply speaks_say; [|done].
  split; [exact (frame_says c true f (proj1 Hc) E)|by left].
Qed.

(** What the circuit does by itself. *)
Lemma own_event_speaks e c : own_event e → speaking c → speaking (step c e).
Proof.
  intros He Hc. destruct e as [| | | |key|ptr now f src|p n|f]; try destruct He; cbn [step].
  - apply keeps_after; [|done]. unfold rt_start, Lan.lan_start. keep_walk; [apply hello_speaks|apply hello_timer_speaks|apply calc_dr_speaks].
  - apply keeps_after; [apply stop_speaks|done].
  - destruct (timer c); [|done]. apply keeps_after; [|by apply (speaks_fine c)]. unfold timeout.
    keep_walk; [apply hello_speaks|apply hello_timer_speaks].
  - destruct (drtimer _); [|done]. apply keeps_after; [|by apply (speaks_fine c)]. unfold become_dr.
    keep_walk; try apply hello_speaks; try apply calc_dr_speaks; eapply speaks_fine; try eassumption; reflexivity.
  - destruct (listen_timer key c); [|done]. apply keeps_after; [|by apply speaks_change]. unfold listen_timeout.
    keep_walk; [apply adj_down_speaks|apply down_speaks].
Qed.

(** What it does with another member's hello. *)
Lemma hello_event_speaks k' m' ptr h src c : ms !! k' = Some m' → k' ≠ i → hello_from k' m' h → Inv (m_conf m) (m_prio m) c →
  speaking c → speaking (after (rt_router_hello ptr h src) c).
Proof.
  intros Hk Hn (H1 & H2 & H3 & H4) [Hs Hd] Hc.
  assert (hello_ok (m_conf m) (RouterHello.ident h) (RouterHello.timer h)) as Hh.
  { split; [rewrite H1; change (l_parent (m_conf m)) with (m_parent m); by rewrite (mo_id _ _ _ member_here)|].
    rewrite H3. by apply (mo_timer _ _ _ member_here k' m'). }
  destruct (in_reach c h) eqn:Hr.
  - destruct (router_hello_eq _ _ ptr h src c Hs Hh Hr) as (a & n & os' & E & _ & En & Ep & _ & _ & Ho). rewrite H1 in E.
    unfold after. rewrite E. match goal with |- speaks _ (calc_dr ?c1).2 => apply (keeps_after calc_dr speaking c1); [apply calc_dr_speaks|] end.
    destruct Hc as [[C1 C2 C3] (os1 & Eo & So)]. split.
    + split; [exact C1|exact C2|]. apply (knows_put k' a c C3). split; [done|]. exists m'. by rewrite En, Ep.
    + exists (os1 ++ os'). cbn. rewrite Eo, app_assoc. split; [done|]. apply Forall_app. split; [done|].
      eapply Forall_impl; [exact Ho|]. by intros [].
  - unfold after, rt_router_hello, mbind, Action_bind, act_get. cbn [id].
    replace (negb _ && negb _) with true; [done|]. unfold in_reach in Hr. by destruct (_ =? homearea c), (_ && _).
Qed.
End Speaks.
End Member.

(** ** The wire *)

Section Lan.
Context (ms : gmap Z member) (Hms : members_ok ms).

Definition dl_ok (i : Z) (m : member) (dl : BcDatalink) : Prop := ∃ n u,
  dl = mkBc [mkPort (m_circuit m) ROUTING_PROTO true (Macaddr.from_nodeid i) {[all_routers]} false n] (m_hwaddr m) u.
Definition wire_frame (i : Z) (m : member) (fr : Bytes) : Prop := ∃ f d,
  fr = build_frame d (Macaddr.from_nodeid i) ROUTING_PROTO f true ∧ member_hello i m f ∧ (d = all_routers ∨ d = all_endnodes).
Definition wire_ok (fr : Bytes) : Prop := ∃ i m, ms !! i = Some m ∧ wire_frame i m fr.
Definition good (i : Z) (m : member) (s : station) : Prop :=
  dl_ok i m (datalink s) ∧ Inv (m_conf m) (m_prio m) (lan_circuit s) ∧ told ms i m (lan_circuit s).

Lemma member_good i m : ms !! i = Some m → member_ok ms i m.
Proof. apply Hms. Qed.

(** What a good station says goes onto the wire. *)
Lemma send_all_ok i m os n : Forall (says i m) os →
  ∃ n', (send_all os (mkPort (m_circuit m) ROUTING_PROTO true (Macaddr.from_nodeid i) {[all_routers]} false n)).1 =
    mkPort (m_circuit m) ROUTING_PROTO true (Macaddr.from_nodeid i) {[all_routers]} false n' ∧
  Forall (wire_frame i m)
    (send_all os (mkPort (m_circuit m) ROUTING_PROTO true (Macaddr.from_nodeid i) {[all_routers]} false n)).2.
Proof.
  intros Hos. revert n. induction Hos as [|o os Ho _ IH]; intros n; [by exists n; split; [|apply Forall_nil_2]|].
  destruct o as [f d| | | | |]; try apply IH. cbn [send_all]. unfold send, with_port_counters. cbn [owner proto pad macaddr multicast promisc port_counters].
  destruct (IH (count_sent (len f) n)) as (n' & E & Hf).
  destruct (send_all os _) as [p frs]. cbn [fst snd] in *. exists n'. split; [exact E|].
  apply Forall_cons_2; [|exact Hf]. exists f, d. split; [done|]. exact Ho.
Qed.

Lemma act_ok i m e s : ms !! i = Some m → good i m s →
  Inv (m_conf m) (m_prio m) (step (lan_circuit s) e) → speaks ms i m (outs (lan_circuit s)) (step (lan_circuit s) e) →
  good i m (act e s).1 ∧ lan_circuit (act e s).1 = step (lan_circuit s) e ∧ Forall wire_ok (act e s).2.
Proof.
  intros Hm [(n & u & E) _] Hi [Ht (os & Eo & Hos)]. unfold act. rewrite E. cbn [ports hwaddr unk_dest].
  rewrite Eo, drop_app_length. destruct (send_all_ok i m os n Hos) as (n' & E1 & E2).
  destruct (send_all os _) as [p frs]. cbn [fst snd] in *. subst p. split; [split; [by exists n', u|by split]|].
  split; [done|]. eapply Forall_impl; [exact E2|]. intros fr Hfr. by exists i, m.
Qed.

(** What a station does with a frame of the wire: the routers' multicast
    reaches its circuit, unless it sent it. *)
Lemma receive_wire i m j m' fr dl : ms !! i = Some m → ms !! j = Some m' → wire_frame i m fr → dl_ok j m' dl →
  ∃ dl', dl_ok j m' dl' ∧
    (receive_frame fr dl = (dl', None) ∨
     i ≠ j ∧ ∃ f, member_hello i m f ∧ receive_frame fr dl = (dl', Some (m_circuit m', f, Macaddr.from_nodeid i))).
Proof.
  intros Hi Hj (f & d & -> & Hf & Hd) (n & u & ->).
  pose proof (member_good i m Hi) as Oi. pose proof (member_good j m' Hj) as Oj.
  assert (addr_ok d) as Ad by (destruct Hd as [-> | ->]; done).
  assert (0 ≤ ROUTING_PROTO < 65536) as Hp by done.
  destruct (parse_build_header d (Macaddr.from_nodeid i) ROUTING_PROTO f Ad eq_refl Hp) as [rest E].
  pose proof (parse_build_padded d (Macaddr.from_nodeid i) ROUTING_PROTO f Ad eq_refl Hp (proj2 Hf)) as E'.
  set (fr := build_frame _ _ _ _ _) in *. unfold receive_frame. rewrite E. cbn [f_src f_dest f_proto hwaddr ports existsb macaddr].
  rewrite bool_decide_eq_false_2 by exact (mo_hwaddr _ _ _ Oj i m Hi). cbn [orb]. rewrite orb_false_r.
  destruct (decide (i = j)) as [->|Hn].
  { rewrite bool_decide_eq_true_2 by done. eexists. split; [|by left]. by exists n, u. }
  rewrite bool_decide_eq_false_2 by (intros He; apply Hn, (from_nodeid_inj i j); [apply Oi|apply Oj|exact He]).
  cbn [take_frame proto]. cbn [f_dest f_proto]. change (ROUTING_PROTO =? ROUTING_PROTO) with true. cbn [negb orb].
  destruct (negb (accepts d _)).
  - eexists. split; [|by left]. by eexists _, _.
  - cbn [pad]. rewrite E'. cbn [fmap option_fmap option_map f_payload]. eexists. split; [|right; split; [done|]].
    + eexists _, _. reflexivity.
    + exists f. split; [done|]. reflexivity.
Qed.
Lemma receive_routers i m j m' f dl : ms !! i = Some m → ms !! j = Some m' → i ≠ j → member_hello i m f → dl_ok j m' dl →
  (receive_frame (build_frame all_routers (Macaddr.from_nodeid i) ROUTING_PROTO f true) dl).2 =
    Some (m_circuit m', f, Macaddr.from_nodeid i).
Proof.
  intros Hi Hj Hn Hf (n & u & ->).
  pose proof (member_good i m Hi) as Oi. pose proof (member_good j m' Hj) as Oj.
  set (p := mkPort (m_circuit m) ROUTING_PROTO true (Macaddr.from_nodeid i) {[all_routers]} false n).
  set (q := mkPort (m_circuit m') ROUTING_PROTO true (Macaddr.from_nodeid j) {[all_routers]} false n).
  change (build_frame all_routers (Macaddr.from_nodeid i) ROUTING_PROTO f true) with (send f all_routers p).2.
  destruct (frame_item p f all_routers (mkBc [q] (m_hwaddr m') u)) as [H1 _]; try done.
  - apply Hf.
  - apply NoDup_singleton.
  - by repeat constructor.
  - split; [exact (mo_hwaddr _ _ _ Oj i m Hi)|]. apply Forall_cons_2; [|apply Forall_nil_2]. cbn.
    intros He. apply Hn, (from_nodeid_inj i j); [apply Oi|apply Oj|exact He].
  - apply (H1 q); [by left|]. split; [done|]. unfold accepts. cbn. apply orb_true_iff. right.
    apply bool_decide_eq_true. by apply elem_of_singleton.
Qed.

(** ** The invariant of the whole *)

Record lan_ok (l : lan) : Prop := {
  lo_good : ∀ i m, ms !! i = Some m → ∃ s, stations l !! i = Some s ∧ good i m s;
  lo_dom : ∀ i s, stations l !! i = Some s → is_Some (ms !! i);
  lo_wire : Forall wire_ok (wire l);
}.
Lemma station_good l i s : lan_ok l → stations l !! i = Some s → ∃ m, ms !! i = Some m ∧ good i m s.
Proof.
  intros Hl Hs. destruct (lo_dom l Hl i s Hs) as [m Hm]. destruct (lo_good l Hl i m Hm) as (s' & Hs' & Hg).
  rewrite Hs in Hs'. injection Hs' as <-. by exists m.
Qed.
Lemma lan_ok_put l i m s frs : lan_ok l → ms !! i = Some m → good i m s → Forall wire_ok frs →
  lan_ok (mkLanState (<[i := s]> (stations l)) (wire l ++ frs)).
Proof.
  intros [Hg Hd Hw] Hm Hs Hf. split; [| |by apply Forall_app].
  - intros j m' Hj. cbn. destruct (decide (j = i)) as [->|Hn]; [|rewrite lookup_insert_ne by done; by apply Hg].
    rewrite Hm in Hj. injection Hj as <-. exists s. by rewrite lookup_insert_eq.
  - intros j s'. cbn. destruct (decide (j = i)) as [->|Hn]; [by exists m|]. rewrite lookup_insert_ne by done. apply Hd.
Qed.

Lemma told_speaks i m c : told ms i m c → speaks ms i m (outs c) c.
Proof. intros Ht. split; [done|]. exists []. by rewrite app_nil_r. Qed.
Lemma own_event_ok k e : own_event e → event_ok k e.
Proof. by destruct e. Qed.
Lemma hello_event_ok i m j m' h : ms !! i = Some m → ms !! j = Some m' → i ≠ j →
  hello_from i m h → hello_ok (m_conf m') (RouterHello.ident h) (RouterHello.timer h).
Proof.
  intros Hi Hj Hn (-> & _ & -> & _). pose proof (member_good j m' Hj) as Oj. split.
  - change (l_parent (m_conf m')) with (m_parent m'). by rewrite (mo_id _ _ _ Oj).
  - by apply (mo_timer _ _ _ Oj i m).
Qed.

(** A good station acts by itself, or hears another. *)
Lemma own_good i m e s : ms !! i = Some m → good i m s → own_event e →
  good i m (act e s).1 ∧ lan_circuit (act e s).1 = step (lan_circuit s) e ∧ Forall wire_ok (act e s).2.
Proof.
  intros Hm Hg He. pose proof Hg as (_ & Hi & Ht). apply act_ok; [done..| |].
  - apply lan_step_inv; [by apply own_event_ok|done].
  - apply own_event_speaks; [done..|by apply told_speaks].
Qed.
Lemma hear_good i m j m' s f h ptr now src : ms !! i = Some m → ms !! j = Some m' → i ≠ j → good j m' s →
  decode f = Some (PRouterHello h) → hello_from i m h →
  let e := Frame ptr now f src in
  good j m' (act e s).1 ∧ lan_circuit (act e s).1 = after (rt_router_hello ptr h src) (lan_circuit s) ∧
  Forall wire_ok (act e s).2.
Proof.
  intros Hi Hj Hn Hg Hd Hh e. pose proof Hg as (_ & HI & Ht).
  assert (step (lan_circuit s) e = after (rt_router_hello ptr h src) (lan_circuit s)) as Es.
  { unfold e. cbn [step]. unfold dispatch. by rewrite Hd. }
  rewrite <- Es. apply act_ok; [done..| |].
  - apply lan_step_inv; [|done]. intros p Hp. rewrite Hd in Hp. apply (inj Some) in Hp. subst p.
    by apply (hello_event_ok i m j m').
  - rewrite Es. apply (hello_event_speaks ms Hms j m' Hj _ i m ptr h src); try done. by apply told_speaks.
Qed.

Lemma local_ok i e l : own_event e → lan_ok l → lan_ok (local i e l).
Proof.
  intros He Hl. unfold local. destruct (stations l !! i) as [s|] eqn:Hs; [|done].
  destruct (station_good l i s Hl Hs) as (m & Hm & Hg). destruct (own_good i m e s Hm Hg He) as (G & _ & F).
  destruct (act e s) as [s' frs]. by eapply lan_ok_put.
Qed.
Lemma deliver_ok n j ptr now l : lan_ok l → lan_ok (deliver n j ptr now l).
Proof.
  intros Hl. unfold deliver. destruct (wire l !! n) as [fr|] eqn:Hw; [|done].
  destruct (stations l !! j) as [s|] eqn:Hs; [|done]. destruct (station_good l j s Hl Hs) as (m' & Hj & Hg).
  pose proof (lo_wire l Hl) as Hws. rewrite Forall_lookup in Hws. destruct (Hws n fr Hw) as (i & m & Hi & Hf).
  destruct (receive_wire i m j m' fr (datalink s) Hi Hj Hf (proj1 Hg)) as (dl' & Hdl & [->|(Hn & f & ((h & Hd & Hh) & _) & ->)]).
  - rewrite <- (app_nil_r (wire l)). eapply lan_ok_put; [done..| |apply Forall_nil_2]. split; [exact Hdl|apply Hg].
  - assert (good j m' (mkStation dl' (lan_circuit s))) as Hg' by (split; [exact Hdl|apply Hg]).
    destruct (hear_good i m j m' _ f h ptr now (Macaddr.from_nodeid i) Hi Hj Hn Hg' Hd Hh) as (G & _ & F).
    destruct (act _ _) as [s' frs]. by eapply lan_ok_put.
Qed.
Lemma lan_step_ok l e : lan_event_ok e → lan_ok l → lan_ok (lan_step l e).
Proof. destruct e as [i e|n j ptr now]; intros He; [by apply local_ok|apply deliver_ok]. Qed.

Lemma new_station_good i m : ms !! i = Some m → good i m (new_station m).
Proof.
  intros Hm. pose proof (member_good i m Hm) as Ho. split; [|split].
  - unfold new_station, open_port, create_bc_port. cbn. rewrite (mo_id _ _ _ Ho).
    exists no_counts, 0. unfold set_macaddr, add_multicast.
    change (Macaddr.is_multicast (Macaddr.from_nodeid i)) with false. change (Macaddr.is_multicast all_routers) with true.
    cbn. unfold with_multicast, with_macaddr. cbn. by rewrite union_empty_r_L.
  - apply fresh_inv.
  - split; [done..|]. intros k a. unfold entry. cbn. by rewrite lookup_empty.
Qed.
Lemma lan_start_ok : lan_ok (lan_start ms).
Proof.
  split; [| |apply Forall_nil_2].
  - intros i m Hm. exists (new_station m). unfold lan_start. cbn. rewrite lookup_fmap, Hm. split; [done|]. by apply new_station_good.
  - intros i s. unfold lan_start. cbn. rewrite lookup_fmap. destruct (ms !! i); [by eexists|done].
Qed.
Lemma lan_run_ok es : Forall lan_event_ok es → lan_ok (lan_run (lan_start ms) es).
Proof.
  intros Hes. assert (∀ l, lan_ok l → lan_ok (lan_run l es)) as H; [|by apply H, lan_start_ok].
  induction Hes as [|e es He _ IH]; intros l Hl; [done|]. by apply IH, lan_step_ok.
Qed.
End Lan.

(** C16: On a circuit of up to 34 routers, each with an address of its own, a priority
    below 128, which a router list can carry, and hello times short enough for the timer
    wheel of every other one to listen for, whose wire loses, repeats and reorders
    frames: over every sequence of starts, stops, timers and deliveries, two routers of
    one area that have heard of each other are never both designated router. *)
Theorem one_designated ms es i j si sj :
  members_ok ms → Forall lan_event_ok es → i ≠ j → Nodeid.area i = Nodeid.area j →
  let l := lan_run (lan_start ms) es in
  stations l !! i = Some si → stations l !! j = Some sj →
  is_Some (entry j (lan_circuit si)) → is_Some (entry i (lan_circuit sj)) →
  isdr (self (lan_circuit si)) = true → isdr (self (lan_circuit sj)) = false.
Proof.
  intros Hms Hes Hn Ha l Hi Hj [a Ea] [b Eb] Hdi. apply not_true_iff_false. intros Hdj.
  pose proof (lan_run_ok ms Hms es Hes) as Hl. fold l in Hl.
  destruct (station_good ms l i si Hl Hi) as (mi & Mi & _ & [_ Bi] & Ti).
  destruct (station_good ms l j sj Hl Hj) as (mj & Mj & _ & [_ Bj] & Tj).
  specialize (Bi Hdi). specialize (Bj Hdj). rewrite best_dr_self in Bi, Bj.
  pose proof (mo_id _ _ _ (member_good ms Hms i mi Mi)) as Ii. pose proof (mo_id _ _ _ (member_good ms Hms j mj Mj)) as Ij.
  destruct (t_knows _ _ _ _ Ti j a Ea) as (_ & m1 & M1 & N1 & P1). destruct (t_knows _ _ _ _ Tj i b Eb) as (_ & m2 & M2 & N2 & P2).
  rewrite Mj in M1. injection M1 as <-. rewrite Mi in M2. injection M2 as <-.
  unfold own in *. rewrite (t_conf _ _ _ _ Ti), (t_prio _ _ _ _ Ti) in Bi. rewrite (t_conf _ _ _ _ Tj), (t_prio _ _ _ _ Tj) in Bj.
  change (l_parent (m_conf mi)) with (m_parent mi) in *. change (l_parent (m_conf mj)) with (m_parent mj) in *.
  rewrite Ii in *. rewrite Ij in *.
  assert (better_dr (m_prio mj) j (m_prio mi) i = false) as H1.
  { rewrite <- P1. apply Bi. split; [done|]. split; [rewrite N1; apply m_ntype_router|].
    unfold homearea, own. rewrite (t_conf _ _ _ _ Ti). change (l_parent (m_conf mi)) with (m_parent mi). by rewrite Ii. }
  assert (better_dr (m_prio mi) i (m_prio mj) j = false) as H2.
  { rewrite <- P2. apply Bj. split; [done|]. split; [rewrite N2; apply m_ntype_router|].
    unfold homearea, own. rewrite (t_conf _ _ _ _ Tj). change (l_parent (m_conf mj)) with (m_parent mj). by rewrite Ij. }
  destruct (better_dr_total (m_prio mi) i (m_prio mj) j) as [E|[E|[_ E]]]; congruence.
Qed.

(** ** Three routers of area 1, and what they do *)

Definition example_member (node pr : Z) : member :=
  mkMember node (mkParent (Nodeid.make 1 node) L1ROUTER 4 tiver_ph4 1023 63) 15 0 pr 0 [2; 0; 0; 0; 0; node].
Definition example_members : gmap Z member :=
  {[Nodeid.make 1 5 := example_member 5 0; Nodeid.make 1 6 := example_member 6 100; Nodeid.make 1 7 := example_member 7 0]}.
Lemma example_member_of i m : example_members !! i = Some m →
  (i, m) ∈ [(Nodeid.make 1 5, example_member 5 0); (Nodeid.make 1 6, example_member 6 100); (Nodeid.make 1 7, example_member 7 0)].
Proof.
  unfold example_members. intros H. rewrite !elem_of_cons.
  apply lookup_insert_Some in H as [[<- <-]|[_ H]]; [by left|].
  apply lookup_insert_Some in H as [[<- <-]|[_ H]]; [by right; left|]. apply lookup_singleton_Some in H as [<- <-]. by right; right; left.
Qed.
Lemma example_members_ok : members_ok example_members.
Proof.
  split; [apply (bool_decide_unpack _); vm_compute; exact Logic.I|]. intros i m Hi%example_member_of.
  assert (Forall (λ jm : Z * member, Macaddr.from_nodeid jm.1 ≠ m_hwaddr m ∧
    within_span (listen_time (l_t3 (m_conf m)) (hello_timer jm.2)) = true)
    [(Nodeid.make 1 5, example_member 5 0); (Nodeid.make 1 6, example_member 6 100); (Nodeid.make 1 7, example_member 7 0)]) as Hall.
  { rewrite !elem_of_cons, elem_of_nil in Hi. destruct Hi as [[= -> ->]|[[= -> ->]|[[= -> ->]|[]]]];
      apply (bool_decide_unpack _); vm_compute; exact Logic.I. }
  rewrite Forall_forall in Hall.
  assert (p_nodeid (m_parent m) = i ∧ 0 ≤ i < 65536 ∧ m_prio m < 128 ∧ 0 ≤ m_prio m ∧ p_tiver (m_parent m) = tiver_ph4) as (E1 & E2 & E3 & E4 & E5).
  { rewrite !elem_of_cons, elem_of_nil in Hi. destruct Hi as [[= -> ->]|[[= -> ->]|[[= -> ->]|[]]]]; by vm_compute. }
  split; [exact E1|exact E2|rewrite E5; repeat split; discriminate|done| |]; intros j m' Hj%example_member_of; by apply (Hall (j, m')).
Qed.

Definition example_lan_events : list lan_event :=
  [Local (Nodeid.make 1 5) Start; Local (Nodeid.make 1 6) Start;
   Deliver 0 (Nodeid.make 1 6) 100 0; Deliver 1 (Nodeid.make 1 5) 200 0;
   Local (Nodeid.make 1 6) DrTimer; Local (Nodeid.make 1 5) DrTimer].
Lemma one_designated_witness :
  let l := lan_run (lan_start example_members) example_lan_events in
  ∃ s5 s6, stations l !! Nodeid.make 1 5 = Some s5 ∧ stations l !! Nodeid.make 1 6 = Some s6 ∧
    isdr (self (lan_circuit s6)) = true ∧ isdr (self (lan_circuit s5)) = false.
Proof.
  set (l := lan_run (lan_start example_members) example_lan_events).
  assert (∃ s5, stations l !! Nodeid.make 1 5 = Some s5 ∧ is_Some (entry (Nodeid.make 1 6) (lan_circuit s5))) as (s5 & H5 & E5).
  { destruct (stations l !! Nodeid.make 1 5) as [s|] eqn:E; [|vm_compute in E; discriminate E]. exists s. split; [reflexivity|].
    vm_compute in E. injection E as <-. by eexists. }
  assert (∃ s6, stations l !! Nodeid.make 1 6 = Some s6 ∧ is_Some (entry (Nodeid.make 1 5) (lan_circuit s6)) ∧
    isdr (self (lan_circuit s6)) = true) as (s6 & H6 & E6 & D6).
  { destruct (stations l !! Nodeid.make 1 6) as [s|] eqn:E; [|vm_compute in E; discriminate E]. exists s. split; [reflexivity|].
    vm_compute in E. injection E as <-. split; [by eexists|reflexivity]. }
  intros l0. exists s5, s6. split; [exact H5|]. split; [exact H6|]. split; [exact D6|].
  apply (one_designated example_members example_lan_events (Nodeid.make 1 6) (Nodeid.make 1 5) s6 s5 example_members_ok);
    [by repeat constructor|discriminate|reflexivity|exact H6|exact H5|exact E6|exact E5|exact D6].
Defined.
