(* ===== verification/LanSettles.v ===== *)
(** A broadcast circuit settles: hellos in any order, twice, and everybody agrees. *)

From stdpp Require Import sorting.
From S2P Require Import Prelude Action Buffer Types Bc Codec Layout Indexed RoutingPackets RouteTable Float Adjacency Timers.
From S2P Require Import Lan LanBook LanElection LanHello LanSystem.
#[local] Open Scope Z_scope.
#[local] Strategy 1000 [hello_frame encode_packet].

(** ** One circuit *)

(** The hello timer runs, and so does the election timer when it is noted. *)
Definition awake (c : circuit router) : Prop :=
  timer c ≠ None ∧ (drtimer_running (self c) = true → drtimer (self c) ≠ None).
(** The circuit has acted on what it knows. *)
Definition elected (c : circuit router) : Prop :=
  let '(who, own) := best_dr c in
  if own then isdr (self c) = true ∨ drtimer_running (self c) = true else isdr (self c) = false ∧ dr (self c) = who.

Lemma elected_ext c c' : adjacencies c' = adjacencies c → conf c' = conf c → self c' = self c → elected c → elected c'.
Proof. intros E1 E2 E3. unfold elected. rewrite (best_dr_ext c c') by congruence. by rewrite E3. Qed.

Lemma hello_sends c : tellable c → ∃ f el, hello_frame false c = Ok f ∧ decode f = Some (PRouterHello (router_hello el c)) ∧
  (∀ id, lists (router_hello el c) id = names id (ascending (adjacencies c))) ∧
  rt_send_hello c = (Ok tt, with_outs (outs c ++ Transmit f all_routers ::
                                       (if isdr (self c) then [Transmit f all_endnodes] else [])) c).
Proof.
  intros Ht. destruct (hello_frame_rt c Ht) as (el & f & E & D & L). exists f, el. split_and!; try done.
  unfold rt_send_hello, mbind, Action_bind, act_get, act_lift, transmit, act_do. cbn [id]. rewrite E.
  unfold act_when. destruct (isdr (self c)); cbn; unfold say, with_outs; cbn; by rewrite <- ?app_assoc.
Qed.

Lemma calc_dr_does c : tellable c → awake c → ∃ r os,
  let c' := mkLan (conf c) (adjacencies c) (counters c) (timer c) r (outs c ++ os) in
  calc_dr c = (Ok tt, c') ∧ awake c' ∧ elected c'.
Proof.
  intros Ht [Hw Hr]. unfold elected. destruct (best_dr c) as [who o] eqn:E.
  assert (∀ r os, prio r = prio (self c) →
    best_dr (mkLan (conf c) (adjacencies c) (counters c) (timer c) r (outs c ++ os)) = (who, o)) as Eb.
  { intros r os Hp. rewrite <- E. by apply best_dr_ext. }
  unfold calc_dr, mbind at 1, Action_bind at 1, act_get at 1. cbn [id]. rewrite E. destruct o.
  - unfold act_when. destruct (negb (isdr (self c)) && negb (drtimer_running (self c))) eqn:Ei.
    + eexists _, []. rewrite app_nil_r. split; [unfold mbind, Action_bind, act_do, wheel_takes; destruct c; reflexivity|].
      split; [by split|]. rewrite <- (app_nil_r (outs c)), Eb by done. by right.
    + exists (self c), []. rewrite app_nil_r. split; [by destruct c|]. split; [by split|].
      rewrite <- (app_nil_r (outs c)), Eb by done. cbn. destruct (isdr _); [by left|]. destruct (drtimer_running _); [by right|done].
  - set (r0 := mkRouter (prio (self c)) (maxrouters (self c)) false (dr (self c)) (drtimer (self c)) (drtimer_running (self c))).
    assert (∃ os, act_when (isdr (self c)) (_ ← act_do (with_isdr false); rt_send_hello) c =
      (Ok tt, mkLan (conf c) (adjacencies c) (counters c) (timer c) r0 (outs c ++ os))) as [os E1].
    { destruct (isdr (self c)) eqn:Ei; cbn [act_when].
      - destruct (hello_sends (with_isdr false c) Ht) as (f & el & _ & _ & _ & Es). exists [Transmit f all_routers].
        unfold mbind, Action_bind, act_do. rewrite Es. reflexivity.
      - exists []. rewrite app_nil_r. subst r0. rewrite <- Ei. by destruct c as [? ? ? ? [] ?]. }
    unfold mbind at 1, Action_bind at 1. rewrite E1. unfold mbind at 1, Action_bind at 1, act_get. cbn [id self].
    unfold act_when. destruct (Z.eqb_spec (dr r0) who) as [Ed|Ed]; cbn [negb].
    + exists r0, os. split; [done|]. split; [by split|]. by rewrite Eb.
    + eexists _, os. split; [unfold mbind, Action_bind, act_do; reflexivity|]. split; [by split|]. by rewrite Eb.
Qed.

(** The hello timer fires. *)
Lemma ticks c : tellable c → awake c → within_span (l_t3 (conf c)) = true → ∃ f el rest,
  hello_frame false c = Ok f ∧ decode f = Some (PRouterHello (router_hello el c)) ∧
  (∀ id, lists (router_hello el c) id = names id (ascending (adjacencies c))) ∧
  step c HelloTimer = mkLan (conf c) (adjacencies c) (counters c) (Some (l_t3 (conf c))) (self c)
                        (outs c ++ Transmit f all_routers :: rest).
Proof.
  intros Ht [Hw _] Hs. destruct (hello_sends (with_timer None c) Ht) as (f & el & E & D & L & Es).
  exists f, el, (if isdr (self c) then [Transmit f all_endnodes] else []). split; [exact E|]. split; [exact D|]. split; [exact L|].
  cbn [step]. destruct (timer c); [|done]. unfold after, timeout, mbind, Action_bind. cbn [send_hello router_class].
  rewrite Es. unfold hello_timer_start, mbind, Action_bind, act_get, wheel_takes. cbn. by rewrite Hs.
Qed.

(** Another router's hello is heard. *)
Lemma hears k pr ptr h src c : Settled k pr c → hello_ok k (RouterHello.ident h) (RouterHello.timer h) → in_reach c h = true →
  awake c →
  (∀ a n os, tellable (mkLan (conf c) (<[RouterHello.ident h := a]> (adjacencies c)) n (timer c) (self c) (outs c ++ os)) ∨
     la_ntype a ≠ router_ntype h ∨ la_prio a ≠ RouterHello.prio h) →
  let c' := after (rt_router_hello ptr h src) c in
  awake c' ∧ elected c' ∧
  ∃ a, adjacencies c' = <[RouterHello.ident h := a]> (adjacencies c) ∧
    is_up a = two_way (RouterHello.ident h) c || lists h (p_nodeid (own c)).
Proof.
  intros Hs Hh Hr Hw Ht. destruct (router_hello_eq k pr ptr h src c Hs Hh Hr) as (a & n & os & E & _ & En & Ep & Hu & _ & _).
  destruct (Ht a n os) as [Ht'|[Ht'|Ht']]; [|by destruct Ht'..]. clear Ht.
  destruct (calc_dr_does _ Ht') as (r & os' & E' & Hw' & He'); [exact Hw|]. unfold after. rewrite E, E'.
  split; [exact Hw'|]. split; [exact He'|]. by exists a.
Qed.

(** ** The circuits together *)

Section Settles.
Context (ms : gmap Z member) (Hms : members_ok ms) (area : Z).
Context (Harea : ∀ i m, ms !! i = Some m → Nodeid.area i = area ∧ within_span (l_t3 (m_conf m)) = true).

Definition live (l : lan) : Prop := lan_ok ms l ∧ ∀ j s, stations l !! j = Some s → awake (lan_circuit s).
(** Nothing learned is lost. *)
Definition keeps_up (l l' : lan) : Prop :=
  (∃ frs, wire l' = wire l ++ frs) ∧
  ∀ j s, stations l !! j = Some s → ∃ s', stations l' !! j = Some s' ∧
    (elected (lan_circuit s) → elected (lan_circuit s')) ∧
    ∀ k a, entry k (lan_circuit s) = Some a → ∃ a', entry k (lan_circuit s') = Some a' ∧ (is_up a = true → is_up a' = true).

#[local] Instance keeps_up_preorder : PreOrder keeps_up.
Proof.
  split.
  - intros l. split; [exists []; by rewrite app_nil_r|]. intros j s Hs. exists s. split; [done|]. split; [done|]. intros k a Ha. by exists a.
  - intros l1 l2 l3 [[f1 W1] H1] [[f2 W2] H2]. split; [exists (f1 ++ f2); by rewrite W2, W1, app_assoc|].
    intros j s Hs. destruct (H1 j s Hs) as (s2 & E2 & L2 & K2). destruct (H2 j s2 E2) as (s3 & E3 & L3 & K3).
    exists s3. split; [done|]. split; [auto|]. intros k a Ha. destruct (K2 k a Ha) as (a2 & A2 & U2).
    destruct (K3 k a2 A2) as (a3 & A3 & U3). exists a3. auto.
Qed.
(** Replacing one station. *)
Lemma keeps_up_put l j s s' frs : stations l !! j = Some s →
  (elected (lan_circuit s) → elected (lan_circuit s')) →
  (∀ k a, entry k (lan_circuit s) = Some a → ∃ a', entry k (lan_circuit s') = Some a' ∧ (is_up a = true → is_up a' = true)) →
  keeps_up l (mkLanState (<[j := s']> (stations l)) (wire l ++ frs)).
Proof.
  intros Hs He Hk. split; [by exists frs|]. intros i t Ht. cbn. destruct (decide (i = j)) as [->|Hn].
  - rewrite Hs in Ht. injection Ht as <-. exists s'. by rewrite lookup_insert_eq.
  - exists t. rewrite lookup_insert_ne by done. split; [done|]. split; [done|]. intros k a Ha. by exists a.
Qed.
Lemma live_put l j s' frs : live l → awake (lan_circuit s') →
  lan_ok ms (mkLanState (<[j := s']> (stations l)) (wire l ++ frs)) → live (mkLanState (<[j := s']> (stations l)) (wire l ++ frs)).
Proof.
  intros [_ Hw] Ha Hl. split; [done|]. intros i t. cbn. destruct (decide (i = j)) as [->|Hn].
  - rewrite lookup_insert_eq. by intros [= <-].
  - rewrite lookup_insert_ne by done. apply Hw.
Qed.

(** Does [j] have an entry for [i]?  Is it up? *)
Definition heard_of (l : lan) (j i : Z) : Prop := ∃ s a, stations l !! j = Some s ∧ entry i (lan_circuit s) = Some a.
Definition two_ways (l : lan) (j i : Z) : Prop :=
  ∃ s a, stations l !! j = Some s ∧ entry i (lan_circuit s) = Some a ∧ is_up a = true.
Definition decided (l : lan) (j : Z) : Prop := ∃ s, stations l !! j = Some s ∧ elected (lan_circuit s).
Lemma heard_of_keeps l l' j i : keeps_up l l' → heard_of l j i → heard_of l' j i.
Proof. intros [_ H] (s & a & Hs & Ha). destruct (H j s Hs) as (s' & Hs' & _ & K). destruct (K i a Ha) as (a' & Ha' & _). by exists s', a'. Qed.
Lemma two_ways_keeps l l' j i : keeps_up l l' → two_ways l j i → two_ways l' j i.
Proof.
  intros [_ H] (s & a & Hs & Ha & Hu). destruct (H j s Hs) as (s' & Hs' & _ & K). destruct (K i a Ha) as (a' & Ha' & Hu').
  exists s', a'. auto.
Qed.
Lemma decided_keeps l l' j : keeps_up l l' → decided l j → decided l' j.
Proof. intros [_ H] (s & Hs & He). destruct (H j s Hs) as (s' & Hs' & L & _). exists s'. auto. Qed.

(** A router's hello timer fires: its hello is on the wire. *)
Lemma tick_spec l i m : live l → ms !! i = Some m →
  let l' := local i HelloTimer l in
  live l' ∧ keeps_up l l' ∧ ∃ f h,
    wire l' !! length (wire l) = Some (build_frame all_routers (Macaddr.from_nodeid i) ROUTING_PROTO f true) ∧
    member_hello i m f ∧ decode f = Some (PRouterHello h) ∧ hello_from i m h ∧
    ∀ id, heard_of l i id → lists h id = true.
Proof.
  intros Hl Hm l'. destruct (lo_good ms l (proj1 Hl) i m Hm) as (s & Hs & Hg). pose proof Hg as (Hdl & HI & Ht).
  pose proof (told_tellable ms Hms i m Hm _ Ht) as Htell. pose proof (proj2 Hl i s Hs) as Hw.
  destruct (ticks (lan_circuit s) Htell Hw) as (f & el & rest & Ef0 & D & L & Es).
  { rewrite (t_conf _ _ _ _ Ht). by apply (Harea i m). }
  assert (lan_ok ms l') as Hlo by (apply local_ok; [done|done|exact (proj1 Hl)]).
  destruct (own_good ms Hms i m HelloTimer s Hm Hg Logic.I) as (_ & Ec & _). unfold l', local in *. rewrite Hs in *.
  assert (∃ frs, (act HelloTimer s).2 = build_frame all_routers (Macaddr.from_nodeid i) ROUTING_PROTO f true :: frs) as [frs Ef].
  { unfold act. rewrite Es. destruct Hdl as (n & u & ->). cbn [ports outs]. rewrite drop_app_length. cbn [send_all].
    unfold send, with_port_counters. cbn [owner proto pad macaddr multicast promisc port_counters].
    destruct (send_all rest _) as [p frs]. by exists frs. }
  destruct (act HelloTimer s) as [s' frs'] eqn:Ea. cbn [fst snd] in *. subst frs'.
  split; [|split].
  - apply live_put; [done| |done]. rewrite Ec, Es. destruct Hw as [_ Hw]. by split.
  - apply (keeps_up_put l i s); [done|rewrite Ec, Es; by apply elected_ext|]. rewrite Ec, Es. intros k a Ha. by exists a.
  - exists f, (router_hello el (lan_circuit s)). split.
    { cbn. rewrite lookup_app_r, Nat.sub_diag by lia. done. }
    assert (hello_from i m (router_hello el (lan_circuit s))) as Hf by exact (hello_true ms Hms i m Hm _ el Ht).
    split_and!; try done.
    + exact (frame_says ms Hms i m Hm _ false f Ht Ef0).
    + intros id (t & a & Ht' & Ha). rewrite Hs in Ht'. injection Ht' as <-. rewrite L. apply names_true. exists a. split; [done|].
      destruct (t_knows _ _ _ _ Ht id a Ha) as (_ & m' & _ & -> & _). apply m_ntype_router.
Qed.

(** A hello that a station receives from another member. *)
Lemma deliver_heard l n i m j m' s ptr now fr dl' f h : live l → ms !! i = Some m → ms !! j = Some m' → i ≠ j →
  wire l !! n = Some fr → stations l !! j = Some s →
  receive_frame fr (datalink s) = (dl', Some (m_circuit m', f, Macaddr.from_nodeid i)) → dl_ok j m' dl' →
  decode f = Some (PRouterHello h) → hello_from i m h →
  let l' := deliver n j ptr now l in
  live l' ∧ keeps_up l l' ∧ decided l' j ∧ heard_of l' j i ∧ (lists h j = true → two_ways l' j i).
Proof.
  intros Hl Hi Hj Hn Hw Hs Hrec Hdl Hd Hh l'.
  pose proof (station_good ms l j s (proj1 Hl) Hs) as (m1 & Hj1 & Hg). rewrite Hj in Hj1. injection Hj1 as <-.
  pose proof (deliver_ok ms Hms n j ptr now l (proj1 Hl)) as Hlo. subst l'. unfold deliver in *. rewrite Hw, Hs, Hrec in *.
  assert (good ms j m' (mkStation dl' (lan_circuit s))) as Hg' by (split; [exact Hdl|apply Hg]).
  destruct (hear_good ms Hms i m j m' _ f h ptr now (Macaddr.from_nodeid i) Hi Hj Hn Hg' Hd Hh) as (_ & Ec & _).
  pose proof Hg as (_ & [HS _] & Ht). set (c := lan_circuit s) in *. pose proof Hh as (H1 & H2 & H3 & H4).
  destruct (hears _ _ ptr h (Macaddr.from_nodeid i) c HS (hello_event_ok ms Hms i m j m' h Hi Hj Hn Hh)) as (Hw' & He & a & Ea & Eu).
  { unfold in_reach, homearea, own. rewrite (t_conf _ _ _ _ Ht). change (l_parent (m_conf m')) with (m_parent m').
    rewrite (mo_id _ _ _ (member_good ms Hms j m' Hj)), H1, (proj1 (Harea i m Hi)), (proj1 (Harea j m' Hj)), Z.eqb_refl. done. }
  { exact (proj2 Hl j s Hs). }
  { intros a n' os. destruct (decide (la_ntype a = router_ntype h)) as [En|En]; [|by auto].
    destruct (decide (la_prio a = RouterHello.prio h)) as [Ep|Ep]; [|by auto]. left.
    apply (told_tellable ms Hms j m' Hj). destruct Ht as [C1 C2 C3]. split; [exact C1|exact C2|].
    apply (knows_put ms j (RouterHello.ident h) a c C3). rewrite H1. split; [done|]. exists m. by rewrite En, Ep. }
  cbn [lan_circuit] in Ec. fold c in Ec. rewrite H1 in *.
  destruct (act _ _) as [s' frs]. cbn [fst] in *. rewrite <- Ec in *.
  assert (entry i (lan_circuit s') = Some a) as Hi' by (unfold entry; rewrite Ea; apply lookup_insert_eq).
  assert (stations (mkLanState (<[j := s']> (stations l)) (wire l ++ frs)) !! j = Some s') as Hs' by apply lookup_insert_eq.
  split_and!.
  - by apply live_put.
  - apply (keeps_up_put l j s); [done|done|]. intros k b Hb. destruct (decide (k = i)) as [->|Hk].
    + exists a. split; [done|]. intros Hu. rewrite Eu. unfold two_way. fold c in Hb. by rewrite Hb, Hu.
    + exists b. unfold entry. rewrite Ea, lookup_insert_ne by done. by split.
  - by exists s'.
  - by exists s', a.
  - intros Hlist. exists s', a. split_and!; [done..|]. rewrite Eu. unfold own. rewrite (t_conf _ _ _ _ Ht).
    change (l_parent (m_conf m')) with (m_parent m'). by rewrite (mo_id _ _ _ (member_good ms Hms j m' Hj)), Hlist, orb_true_r.
Qed.
(** The hello reaches another router. *)
Lemma deliver_spec l n i m j ptr now f h : live l → ms !! i = Some m → is_Some (ms !! j) → i ≠ j →
  wire l !! n = Some (build_frame all_routers (Macaddr.from_nodeid i) ROUTING_PROTO f true) →
  member_hello i m f → decode f = Some (PRouterHello h) → hello_from i m h →
  let l' := deliver n j ptr now l in
  live l' ∧ keeps_up l l' ∧ decided l' j ∧ heard_of l' j i ∧ (lists h j = true → two_ways l' j i).
Proof.
  intros Hl Hi [m' Hj] Hn Hw Hf Hd Hh. destruct (lo_good ms l (proj1 Hl) j m' Hj) as (s & Hs & Hg).
  pose proof (receive_routers ms Hms i m j m' f (datalink s) Hi Hj Hn Hf (proj1 Hg)) as Hr.
  destruct (receive_wire ms Hms i m j m' _ (datalink s) Hi Hj (ex_intro _ f (ex_intro _ all_routers (conj eq_refl (conj Hf (or_introl eq_refl))))) (proj1 Hg))
    as (dl' & Hdl & Hrec).
  destruct (receive_frame _ (datalink s)) as [dl item] eqn:Er. cbn [snd] in Hr. subst item.
  assert (dl = dl') as -> by (destruct Hrec as [[= ]|(_ & f' & _ & [= ])]; done).
  exact (deliver_heard l n i m j m' s ptr now _ dl' f h Hl Hi Hj Hn Hw Hs Er Hdl Hd Hh).
Qed.
(** Any frame that is received loses nothing. *)
Lemma deliver_any l n j ptr now : live l → let l' := deliver n j ptr now l in live l' ∧ keeps_up l l'.
Proof.
  intros Hl l'. destruct (wire l !! n) as [fr|] eqn:Hw; [|subst l'; unfold deliver; by rewrite Hw].
  destruct (stations l !! j) as [s|] eqn:Hs; [|subst l'; unfold deliver; by rewrite Hw, Hs].
  destruct (station_good ms l j s (proj1 Hl) Hs) as (m' & Hj & Hg).
  pose proof (lo_wire ms l (proj1 Hl)) as Hws. rewrite Forall_lookup in Hws. destruct (Hws n fr Hw) as (i & m & Hi & Hf).
  destruct (receive_wire ms Hms i m j m' fr (datalink s) Hi Hj Hf (proj1 Hg)) as (dl' & Hdl & [Er|(Hn & f & ((h & Hd & Hh) & _) & Er)]).
  - pose proof (deliver_ok ms Hms n j ptr now l (proj1 Hl)) as Hlo. subst l'. unfold deliver in *. rewrite Hw, Hs, Er in *.
    rewrite <-(app_nil_r (wire l)) in *. split.
    + apply live_put; [done|exact (proj2 Hl j s Hs)|done].
    + apply (keeps_up_put l j s); [done|done|]. intros k a Ha. by exists a.
  - destruct (deliver_heard l n i m j m' s ptr now fr dl' f h) as (H1 & H2 & _); done.
Qed.

(** The election timer of a member fires. *)
Lemma dr_timer_keeps k pr c : Inv k pr c → tellable c → awake c →
  let c' := step c DrTimer in awake c' ∧ (elected c → elected c') ∧ adjacencies c' = adjacencies c.
Proof.
  intros _ Ht Hw. cbn [step]. destruct (drtimer (self c)) eqn:Et; [|by split_and!].
  set (c0 := with_drtimer_running false (with_drtimer None c)).
  assert (awake c0) as Hw0 by (split; [exact (proj1 Hw)|done]).
  assert (tellable c0) as Ht0 by exact Ht. assert (adjacencies c0 = adjacencies c) as Ea by done.
  assert (after become_dr (with_drtimer None c) =
    if (best_dr c0).2 then after (_ ← act_do (with_isdr true); _ ← act_do (with_dr (p_nodeid (own c0))); rt_send_hello) c0
    else after calc_dr c0) as ->.
  { unfold after, become_dr, mbind at 1, Action_bind at 1, act_do at 1, mbind at 1, Action_bind at 1, act_get at 1. cbn [id]. fold c0.
    by destruct (best_dr c0).2. }
  destruct (best_dr c0).2 eqn:Eb.
  - destruct (hello_sends (with_dr (p_nodeid (own c0)) (with_isdr true c0)) Ht0) as (f & el & _ & _ & _ & Es).
    unfold after, mbind, Action_bind, act_do. rewrite Es. split; [exact Hw0|]. split; [|done]. intros _. unfold elected.
    rewrite (best_dr_ext c0) by done. destruct (best_dr c0) as [who o]. cbn in Eb. subst o. by left.
  - destruct (calc_dr_does c0 Ht0 Hw0) as (r & os & E & Hw' & He'). unfold after. rewrite E. by split_and!.
Qed.

(** *** Hellos, in any order *)

(** While nobody is given up: hello timers, election timers, and frames that
    arrive, in whatever order and however often. *)
Definition settling (e : lan_event) : Prop :=
  match e with Local _ HelloTimer | Local _ DrTimer | Deliver _ _ _ _ => True | _ => False end.
Lemma settling_step l e : live l → settling e → live (lan_step l e) ∧ keeps_up l (lan_step l e).
Proof.
  intros Hl He. destruct e as [i e|n j ptr now]; [|by apply deliver_any]. cbn [lan_step].
  destruct (stations l !! i) as [s|] eqn:Hs; [|unfold local; by rewrite Hs].
  destruct (station_good ms l i s (proj1 Hl) Hs) as (m & Hm & Hg).
  destruct e; try done; [by destruct (tick_spec l i m Hl Hm) as (H1 & H2 & _)|].
  pose proof Hg as (_ & HI & Ht). destruct (own_good ms Hms i m DrTimer s Hm Hg Logic.I) as (_ & Ec & _).
  destruct (dr_timer_keeps _ _ _ HI (told_tellable ms Hms i m Hm _ Ht) (proj2 Hl i s Hs)) as (Hw & He' & Ea).
  pose proof (local_ok ms Hms i DrTimer l Logic.I (proj1 Hl)) as Hlo. unfold local in *. rewrite Hs in *.
  destruct (act DrTimer s) as [s' frs]. cbn [fst] in Ec. rewrite <-Ec in *. split; [by apply live_put|].
  apply (keeps_up_put l i s); [done|done|]. intros k a Ha. exists a. split; [|done]. unfold entry in *. by rewrite Ea.
Qed.
Lemma settling_run p : ∀ l, live l → Forall settling p → live (lan_run l p) ∧ keeps_up l (lan_run l p).
Proof.
  induction p as [|e p IH]; intros l Hl Hp; [by split|]. apply Forall_cons in Hp as [He Hp].
  destruct (settling_step l e Hl He) as [Hl1 Hk1]. destruct (IH _ Hl1 Hp) as [Hl' Hk']. split; [done|by etransitivity].
Qed.

(** In the course of [p], [i]'s hello timer fires, and the hello it then sends
    reaches [j]. *)
Definition hello_arrives (l : lan) (p : list lan_event) (i j : Z) : Prop :=
  ∃ a b c ptr now, p = a ++ Local i HelloTimer :: b ++ Deliver (length (wire (lan_run l a))) j ptr now :: c.
Definition reached (l l' : lan) (i j : Z) : Prop :=
  decided l' j ∧ heard_of l' j i ∧ (heard_of l i j → two_ways l' j i).
Lemma hello_reaches l p i j : live l → Forall settling p → is_Some (ms !! i) → is_Some (ms !! j) → i ≠ j →
  hello_arrives l p i j → reached l (lan_run l p) i j.
Proof.
  intros Hl Hp [m Hi] Hj Hn (a & b & c & ptr & now & ->).
  apply Forall_app in Hp as [Ha Hp]. apply Forall_cons in Hp as [_ Hp]. apply Forall_app in Hp as [Hb Hp]. apply Forall_cons in Hp as [_ Hc].
  assert (lan_run l (a ++ Local i HelloTimer :: b ++ Deliver (length (wire (lan_run l a))) j ptr now :: c) =
    lan_run (deliver (length (wire (lan_run l a))) j ptr now (lan_run (local i HelloTimer (lan_run l a)) b)) c) as ->.
  { unfold lan_run. rewrite foldl_app. cbn [foldl]. by rewrite foldl_app. }
  destruct (settling_run a l Hl Ha) as [Hl1 Hk1]. set (l1 := lan_run l a) in *.
  destruct (tick_spec l1 i m Hl1 Hi) as (Hl2 & Hk2 & f & h & Hw & Hf & Hd & Hh & Hlist).
  destruct (settling_run b _ Hl2 Hb) as [Hl3 Hk3]. set (l3 := lan_run (local i HelloTimer l1) b) in *.
  destruct (deliver_spec l3 (length (wire l1)) i m j ptr now f h) as (Hl4 & Hk4 & D & H & T); try done.
  { destruct Hk3 as [[frs ->] _]. rewrite lookup_app_l; [done|]. by eapply lookup_lt_Some. }
  destruct (settling_run c _ Hl4 Hc) as [_ Hk5]. split; [by eapply decided_keeps|]. split; [by eapply heard_of_keeps|].
  intros Hij. eapply two_ways_keeps; [exact Hk5|]. apply T, Hlist. by eapply heard_of_keeps.
Qed.

(** Everybody's hello reaches everybody else. *)
Definition exchanged (l : lan) (p : list lan_event) : Prop :=
  ∀ i j, is_Some (ms !! i) → is_Some (ms !! j) → i ≠ j → hello_arrives l p i j.
(** Twice: everybody has everybody up, and has acted on it. *)
Lemma exchanges_spec l p1 p2 : live l → Forall settling p1 → Forall settling p2 → exchanged l p1 → exchanged (lan_run l p1) p2 →
  let l' := lan_run (lan_run l p1) p2 in
  live l' ∧ ∀ i j, is_Some (ms !! i) → is_Some (ms !! j) → i ≠ j → decided l' j ∧ two_ways l' j i.
Proof.
  intros Hl H1 H2 E1 E2. destruct (settling_run p1 l Hl H1) as [Hl1 _]. destruct (settling_run p2 _ Hl1 H2) as [Hl2 _].
  split; [done|]. intros i j Hi Hj Hn. destruct (hello_reaches _ p2 i j Hl1 H2 Hi Hj Hn (E2 i j Hi Hj Hn)) as (D & _ & T).
  split; [done|]. apply T. by apply (hello_reaches l p1 j i Hl H1 Hj Hi (not_eq_sym Hn) (E1 j i Hj Hi (not_eq_sym Hn))).
Qed.
End Settles.

(** ** The election *)

(** The election timer of a router that is to be designated fires. *)
Lemma dr_timer_spec k pr c : Inv k pr c → tellable c → awake c → elected c → (best_dr c).2 = true →
  let c' := step c DrTimer in
  isdr (self c') = true ∧ dr (self c') = p_nodeid (own c) ∧ adjacencies c' = adjacencies c.
Proof.
  intros [Hs _] Ht [_ Hr] He Hb. cbn [step]. destruct (drtimer (self c)) eqn:Et.
  - set (c1 := with_isdr true (with_drtimer_running false (with_drtimer None c))).
    destruct (hello_sends (with_dr (p_nodeid (own c)) c1) Ht) as (f & el & _ & _ & _ & Es).
    assert ((best_dr (with_drtimer_running false (with_drtimer None c))).2 = true) as Hb' by by rewrite (best_dr_ext c).
    unfold after, become_dr, mbind, Action_bind, act_do, act_get. cbn [id]. rewrite Hb'.
    change (own (with_drtimer_running false (with_drtimer None c))) with (own c). fold c1. by rewrite Es.
  - assert (isdr (self c) = true) as Hi.
    { unfold elected in He. destruct (best_dr c) as [who o]. cbn in Hb. subst o.
      destruct He as [?|H]; [done|]. destruct (Hr H). done. }
    split; [done|]. split; [by apply (i_self _ _ _ Hs)|done].
Qed.

(** What a member that knows all the others chooses. *)
Lemma best_of_all ms area w mw i m c : members_ok ms → (∀ i m, ms !! i = Some m → Nodeid.area i = area) →
  ms !! w = Some mw → (∀ j m', ms !! j = Some m' → j ≠ w → better_dr (m_prio mw) w (m_prio m') j = true) →
  ms !! i = Some m → told ms i m c → (∀ j, is_Some (ms !! j) → j ≠ i → is_Some (entry j c)) →
  best_dr c = (w, bool_decide (i = w)).
Proof.
  intros Hms Ha Hw Hbest Hi [Hc Hp Hk] Hall. destruct (best_dr c) as [who o] eqn:E. apply best_dr_spec in E.
  assert (p_nodeid (own c) = i) as Ho.
  { unfold own. rewrite Hc. exact (mo_id _ _ _ (member_good ms Hms i m Hi)). }
  assert (homearea c = area) as Hh by (unfold homearea; rewrite Ho; by eapply Ha).
  assert (∀ k a, candidate c k a → k ≠ i ∧ ∃ m', ms !! k = Some m' ∧ la_prio a = m_prio m') as Hcand.
  { intros k a (Hka & _). destruct (Hk k a Hka) as (? & m' & ? & _ & ?). split; [done|]. by exists m'. }
  assert (i ≠ w → ∃ a, candidate c w a ∧ la_prio a = m_prio mw) as Hcw.
  { intros Hn. destruct (Hall w) as [a Ea]; [by exists mw|congruence|]. exists a. destruct (Hk w a Ea) as (_ & m' & Em & Nt & Pr).
    rewrite Hw in Em. injection Em as <-. split; [|done]. split; [done|]. split; [rewrite Nt; apply m_ntype_router|].
    rewrite Hh. by eapply Ha. }
  rewrite Ho, Hp in E. destruct o; destruct E as [E1 E2].
  - subst who. destruct (decide (i = w)) as [->|Hn]; [by rewrite bool_decide_eq_true_2|].
    destruct (Hcw Hn) as (a & Ca & Pa). specialize (E2 w a Ca). rewrite Pa, (Hbest i m Hi Hn) in E2. discriminate E2.
  - destruct E2 as (Cb & Hb & Hmax). destruct (Hcand who E1 Cb) as (Hwi & mb & Hmb & Pb). rewrite Pb in *.
    destruct (decide (i = w)) as [->|Hn].
    + rewrite Hw in Hi. injection Hi as ->. pose proof (better_dr_asym _ _ _ _ (Hbest who mb Hmb Hwi)). congruence.
    + rewrite bool_decide_eq_false_2 by done. destruct (decide (who = w)) as [->|Hww]; [done|].
      destruct (Hcw Hn) as (a & Ca & Pa). specialize (Hmax w a Ca). rewrite Pa, (Hbest who mb Hmb Hww) in Hmax. discriminate Hmax.
Qed.

(** C15: A circuit settles. On a circuit of 2 to 34 routers of one area, each with an
    address of its own, a priority below 128, which a router list can carry, and hello
    times short enough for the timer wheel to listen for, after any sequence of starts,
    stops, timers, losses, repeats and reorderings that leaves the routers' timers
    running: let hello timers and election timers fire and frames arrive, in any order
    and as often as they like, while nobody stops or is given up. Once everybody's hello
    timer has fired and that hello has reached everybody else, and then once more, every
    router has every other up and takes the best one, by priority and then by address,
    for the designated router, and none but that one acts as such; and when that one's
    election timer fires, or has fired, it does. *)
Theorem lan_settles ms es p1 p2 area w mw :
  members_ok ms → (2 ≤ size ms)%nat →
  (∀ i m, ms !! i = Some m → Nodeid.area i = area ∧ within_span (l_t3 (m_conf m)) = true) →
  ms !! w = Some mw → (∀ j m, ms !! j = Some m → j ≠ w → better_dr (m_prio mw) w (m_prio m) j = true) →
  Forall lan_event_ok es → let l := lan_run (lan_start ms) es in
  (∀ j s, stations l !! j = Some s → awake (lan_circuit s)) →
  Forall settling p1 → Forall settling p2 → exchanged ms l p1 → exchanged ms (lan_run l p1) p2 →
  let l' := lan_run (lan_run l p1) p2 in
  (∀ i m, ms !! i = Some m → ∃ s, stations l' !! i = Some s ∧ ∀ j, is_Some (ms !! j) → j ≠ i → two_way j (lan_circuit s) = true) ∧
  (∀ i m, ms !! i = Some m → i ≠ w → ∃ s, stations l' !! i = Some s ∧ dr (self (lan_circuit s)) = w ∧ isdr (self (lan_circuit s)) = false) ∧
  ∃ s, stations (local w DrTimer l') !! w = Some s ∧ dr (self (lan_circuit s)) = w ∧ isdr (self (lan_circuit s)) = true.
Proof.
  intros Hms Hsz Ha Hw Hbest Hes l Haw H1 H2 X1 X2 l2.
  destruct (exchanges_spec ms Hms area Ha l p1 p2) as [[Hl2 Haw2] Hall]; [split; [by apply lan_run_ok|exact Haw]|done..|].
  fold l2 in Hl2, Haw2, Hall.
  assert (∀ i m, ms !! i = Some m → ∃ s, stations l2 !! i = Some s ∧ good ms i m s ∧ elected (lan_circuit s) ∧
    (∀ j, is_Some (ms !! j) → j ≠ i → two_way j (lan_circuit s) = true) ∧
    best_dr (lan_circuit s) = (w, bool_decide (i = w))) as Hst.
  { intros i m Hi. destruct (lo_good ms l2 Hl2 i m Hi) as (s & Hs & Hg). exists s. split; [done|]. split; [done|].
    assert (∀ j, is_Some (ms !! j) → j ≠ i → elected (lan_circuit s) ∧ two_way j (lan_circuit s) = true) as H.
    { intros j Hj Hn. destruct (Hall j i) as [(s1 & E1 & D) (s2 & a & E2 & Ea & Hu)];
        [done|by exists m|done|].
      rewrite Hs in E1, E2. injection E1 as <-. injection E2 as <-. split; [done|]. unfold two_way. by rewrite Ea. }
    assert (∃ j, is_Some (ms !! j) ∧ j ≠ i) as (j & Hj & Hn).
    { destruct (decide (delete i ms = ∅)) as [He|(j & x & Hj)%map_choose].
      - exfalso. assert (size (delete i ms) = 0%nat) as Hz by by rewrite He, map_size_empty.
        rewrite map_size_delete_Some in Hz by by exists m. lia.
      - apply lookup_delete_Some in Hj as [? ?]. exists j. split; [by exists x|done]. }
    split; [exact (proj1 (H j Hj Hn))|]. split; [intros k Hk Hkn; exact (proj2 (H k Hk Hkn))|].
    apply (best_of_all ms area w mw i m); try done; [intros k x Hx; by apply (Ha k x)|apply Hg|].
    intros k Hk Hkn. pose proof (proj2 (H k Hk Hkn)) as Ht. unfold two_way in Ht. destruct (entry k _); [by eexists|done]. }
  split; [|split].
  - intros i m Hi. destruct (Hst i m Hi) as (s & Hs & _ & _ & Ht & _). by exists s.
  - intros i m Hi Hn. destruct (Hst i m Hi) as (s & Hs & _ & He & _ & Hb). exists s. split; [done|].
    unfold elected in He. rewrite Hb, bool_decide_eq_false_2 in He by done. by destruct He as [-> ->].
  - destruct (Hst w mw Hw) as (sw & Hsw & Hgw & Hew & Htw & Hbw). unfold local. rewrite Hsw.
    destruct (own_good ms Hms w mw DrTimer sw Hw Hgw Logic.I) as (_ & Ec & _).
    destruct (act DrTimer sw) as [s' frs]. cbn [fst] in Ec. cbn [stations]. exists s'. rewrite lookup_insert_eq, Ec. split; [done|].
    destruct (dr_timer_spec _ _ _ (proj1 (proj2 Hgw)) (told_tellable ms Hms w mw Hw _ (proj2 (proj2 Hgw))) (Haw2 w sw Hsw) Hew)
      as (E1 & E2 & E3); [rewrite Hbw; by apply bool_decide_eq_true_2|].
    rewrite E1, E2. split; [|done]. unfold own. rewrite (t_conf _ _ _ _ (proj2 (proj2 Hgw))).
    exact (mo_id _ _ _ (member_good ms Hms w mw Hw)).
Qed.

(** One way for the hellos to go: each router in turn, and its hello to all. *)
Fixpoint round (l : lan) (xs js : list Z) : list lan_event :=
  match xs with
  | [] => []
  | i :: xs => let p := Local i HelloTimer :: map (λ j, Deliver (length (wire l)) j j 0) js in (p ++ round (lan_run l p) xs js)%list
  end.
Lemma round_settling xs js : ∀ l, Forall settling (round l xs js).
Proof.
  induction xs as [|i xs IH]; intros l; [constructor|]. apply Forall_app. split; [|apply IH]. constructor; [done|].
  by apply Forall_fmap, Forall_true.
Qed.
Lemma round_exchanges ms xs js : (∀ i, is_Some (ms !! i) → i ∈ xs ∧ i ∈ js) → ∀ l, exchanged ms l (round l xs js).
Proof.
  intros H l i j [Hi _]%H [_ Hj]%H _. clear H. revert l. induction xs as [|x xs IH]; intros l; [by apply elem_of_nil in Hi|].
  apply list_elem_of_split in Hj as (b & c & ->). cbn [round].
  destruct (decide (i = x)) as [->|Hn].
  - exists [], (map (λ j, Deliver (length (wire l)) j j 0) b).
    exists (map (λ j, Deliver (length (wire l)) j j 0) c ++ round (lan_run l (Local x HelloTimer :: map (λ j, Deliver (length (wire l)) j j 0) (b ++ j :: c))) xs (b ++ j :: c)), j, 0.
    rewrite map_app. cbn. by rewrite <-app_assoc.
  - apply elem_of_cons in Hi as [?|Hi]; [done|].
    set (p := Local x HelloTimer :: map _ (b ++ j :: c)). destruct (IH Hi (lan_run l p)) as (a & b' & c' & ptr & now & E).
    exists (p ++ a), b', c', ptr, now. rewrite E. unfold lan_run. by rewrite foldl_app, <-app_assoc.
Qed.

Definition example_awake (c : circuit router) : bool :=
  bool_decide (is_Some (timer c)) && implb (drtimer_running (self c)) (bool_decide (is_Some (drtimer (self c)))).
Definition example_order : list Z := [Nodeid.make 1 6; Nodeid.make 1 5; Nodeid.make 1 7].
Lemma lan_settles_witness :
  let l := lan_run (lan_start example_members) (Local (Nodeid.make 1 7) Start :: example_lan_events) in
  let p1 := round l example_order example_order in
  let p2 := round (lan_run l p1) (rev example_order) example_order in
  let l' := lan_run (lan_run l p1) p2 in
  (∃ s, stations l' !! Nodeid.make 1 5 = Some s ∧ dr (self (lan_circuit s)) = Nodeid.make 1 6 ∧ isdr (self (lan_circuit s)) = false) ∧
  ∃ s, stations (local (Nodeid.make 1 6) DrTimer l') !! Nodeid.make 1 6 = Some s ∧
    dr (self (lan_circuit s)) = Nodeid.make 1 6 ∧ isdr (self (lan_circuit s)) = true.
Proof.
  set (es := Local (Nodeid.make 1 7) Start :: example_lan_events).
  assert (Forall lan_event_ok es) as Hes by by repeat constructor.
  assert (map_Forall (λ _ s, example_awake (lan_circuit s) = true) (stations (lan_run (lan_start example_members) es))) as Haw.
  { apply (bool_decide_unpack _). vm_compute. exact Logic.I. }
  assert (∀ i, is_Some (example_members !! i) → i ∈ example_order ∧ i ∈ rev example_order) as Hin.
  { intros i [m Hi%example_member_of]. rewrite !elem_of_cons, elem_of_nil in Hi.
    destruct Hi as [[= -> ->]|[[= -> ->]|[[= -> ->]|[]]]]; split; apply (bool_decide_unpack _); vm_compute; exact Logic.I. }
  intros l p1 p2 l'.
  destruct (lan_settles example_members es p1 p2 1 (Nodeid.make 1 6) (example_member 6 100)) as (_ & H5 & H6).
  - exact example_members_ok.
  - apply (bool_decide_unpack _). vm_compute. exact Logic.I.
  - intros j x Hj%example_member_of. rewrite !elem_of_cons, elem_of_nil in Hj.
    destruct Hj as [[= -> ->]|[[= -> ->]|[[= -> ->]|[]]]]; by split; vm_compute.
  - reflexivity.
  - intros j x Hj%example_member_of Hn. rewrite !elem_of_cons, elem_of_nil in Hj.
    destruct Hj as [[= -> ->]|[[= -> ->]|[[= -> ->]|[]]]]; [reflexivity|by destruct Hn|reflexivity].
  - exact Hes.
  - intros j s Hs. specialize (Haw j s Hs). unfold example_awake in Haw. apply andb_prop in Haw as [H1 H2].
    apply bool_decide_eq_true in H1 as [t H1]. split; [by rewrite H1|]. intros Hr. rewrite Hr in H2.
    apply bool_decide_eq_true in H2 as [t' H2]. by rewrite H2.
  - apply round_settling.
  - apply round_settling.
  - apply round_exchanges. intros i Hi. destruct (Hin i Hi). by split.
  - apply round_exchanges. intros i Hi. destruct (Hin i Hi). by split.
  - split; [|exact H6]. apply (H5 (Nodeid.make 1 5) (example_member 5 0)); [reflexivity|discriminate].
Defined.
