(* ===== verification/Endnode.v ===== *)
(** Routing of an endnode: [class BaseRouter] and [class EndnodeRouting] of
    [include/decnet/routing/routing.h] and [src/routing/routing.cc].

    An endnode has one circuit, of either kind; what a circuit does to its
    router while it handles a work item is carried out when the item is done.
    [DeliverLater] is the queue of packets the node sent to itself; a delivery
    to NSP is an output. *)

From S2P Require Import Ptp Lan.
From S2P Require Import Prelude Action Buffer Types Bc Codec Layout RoutingPackets RouteTable Float Adjacency Timers.
#[local] Open Scope Z_scope.
#[local] Existing Instance Lan.endnode_class.

(** ** [BaseRouter::BaseRouter] *)

(** The addresses and name a node may have: a Phase IV node has an area, a
    Phase III node none, and it has a name. *)
Definition executor_ok (id phase : Z) (name : text) : result unit :=
  if (phase =? 4) && (Nodeid.area id =? 0) then Throw InvalidArgument
  else if negb (phase =? 4) && negb (Nodeid.area id =? 0) then Throw InvalidArgument
  else if bool_decide (name = []) then Throw InvalidArgument else Ok tt.

(** The circuits of the configuration, by kind, in its order. *)
Inductive only_circuit := OnLan (c : Lan.circuit Lan.endnode) | OnPtp (c : Ptp.circuit).
(** [EndnodeRouting::EndnodeRouting]: exactly one circuit. *)
Definition one_circuit (l : list only_circuit) : result only_circuit :=
  match l with [c] => Ok c | _ => Throw InvalidArgument end.

Record endnode := mkEndnode {
  nodeid : Z;
  the_circuit : only_circuit;
  adjacencies : gmap Z adjacency;
  for_us : Z;
  orig_sent : Z;
  term_recv : Z;
  has_nsp : bool;
  later : list ShortData.t;         (* the work queue *)
  to_nsp : list (Z * Bytes);        (* [nsp_->deliver] *)
}.
Definition with_circuit (v : only_circuit) (e : endnode) : endnode :=
  mkEndnode (nodeid e) v (adjacencies e) (for_us e) (orig_sent e) (term_recv e) (has_nsp e) (later e) (to_nsp e).
Definition with_adjacencies (v : gmap Z adjacency) (e : endnode) : endnode :=
  mkEndnode (nodeid e) (the_circuit e) v (for_us e) (orig_sent e) (term_recv e) (has_nsp e) (later e) (to_nsp e).
Definition with_later (v : list ShortData.t) (e : endnode) : endnode :=
  mkEndnode (nodeid e) (the_circuit e) (adjacencies e) (for_us e) (orig_sent e) (term_recv e) (has_nsp e) v (to_nsp e).
Definition count_sent (e : endnode) : endnode :=
  mkEndnode (nodeid e) (the_circuit e) (adjacencies e) (for_us e) (u64 (orig_sent e + 1)) (term_recv e) (has_nsp e) (later e) (to_nsp e).

(** A routing layer that has just been made. *)
Definition make_endnode (id phase : Z) (name : text) (circuits : list only_circuit) : result endnode :=
  _ ← executor_ok id phase name;
  c ← one_circuit circuits;
  Ok (mkEndnode id c ∅ 0 0 0 true [] []).

(** ** Adjacencies and delivery *)

Definition adj_up (a : adjacency) (e : endnode) : endnode := with_adjacencies (<[a_nodeid a := a]> (adjacencies e)) e.
Definition adj_down (a : adjacency) (e : endnode) : endnode := with_adjacencies (delete (a_nodeid a) (adjacencies e)) e.
Definition find_adjacency (id : Z) (e : endnode) : option adjacency := adjacencies e !! id.

Definition deliver (p : ShortData.t) (e : endnode) : endnode :=
  mkEndnode (nodeid e) (the_circuit e) (adjacencies e) (u64 (for_us e + 1)) (orig_sent e)
    (match ShortData.src p with Some _ => u64 (term_recv e + 1) | None => term_recv e end) (has_nsp e) (later e)
    (if has_nsp e then to_nsp e ++ [(ShortData.srcnode p, ShortData.payload p)] else to_nsp e).
Definition deliver_later (p : ShortData.t) (e : endnode) : endnode := with_later (later e ++ [p]) e.
(** The first packet of the queue is delivered. *)
Definition run_later (e : endnode) : endnode :=
  match later e with [] => e | p :: l => deliver p (with_later l e) end.

(** [EndnodeRouting::forward]: what is not for this node is dropped. *)
Definition forward (p : ShortData.t) (e : endnode) : endnode :=
  if negb (ShortData.dstnode p =? nodeid e) then e else deliver p e.

(** ** Sending *)

(** The packet of [send]. *)
Definition packet_for (data : Bytes) (dest : Z) (rqr : bool) (e : endnode) : ShortData.t :=
  ShortData.set_payload data (ShortData.set_visit 0 (ShortData.set_srcnode (nodeid e)
  (ShortData.set_dstnode dest (ShortData.set_rqr rqr ShortData.new)))).
(** A packet on its way back. *)
Definition returned (p : ShortData.t) : ShortData.t :=
  ShortData.set_rqr false (ShortData.set_rts true (ShortData.set_srcnode (ShortData.dstnode p) (ShortData.set_dstnode (ShortData.srcnode p) p))).

Definition send (now : Z) (data : Bytes) (dest : Z) (rqr : bool) (e : endnode) : result unit * endnode :=
  let p := packet_for data dest rqr e in
  if dest =? nodeid e then (Ok tt, deliver_later p e)
  else
    let e := count_sent e in
    match the_circuit e with
    | OnLan c =>
        let '(r, c) := Lan.en_send now p false c in
        (match r with Ok _ => Ok tt | Throw x => Throw x end, with_circuit (OnLan c) e)
    | OnPtp c =>
        let '(c, sent) := Ptp.send p c in
        let e := with_circuit (OnPtp c) e in
        (Ok tt, if negb sent && rqr then forward (returned p) e else e)
    end.

(** ** What the circuit does to its router *)

Definition lan_output (e : endnode) (o : Lan.output) : endnode :=
  match o with
  | Lan.AdjUp a => adj_up a e
  | Lan.AdjDown a => adj_down a e
  | Lan.Forward p => forward p e
  | _ => e       (* an endnode takes no routing messages *)
  end.
Definition ptp_output (e : endnode) (o : Ptp.output) : endnode :=
  match o with
  | Ptp.AdjUp a => adj_up a e
  | Ptp.AdjDown a => adj_down a e
  | Ptp.Forward p => forward p e
  | _ => e
  end.

(** The circuit handles a work item or a timer. *)
Definition on_lan (m : Action (Lan.circuit Lan.endnode) unit) (e : endnode) : endnode :=
  match the_circuit e with
  | OnLan c =>
      let c' := after m c in
      foldl lan_output (with_circuit (OnLan c') e) (drop (length (Lan.outs c)) (Lan.outs c'))
  | OnPtp _ => e
  end.
Definition on_ptp (f : Ptp.circuit → Ptp.circuit) (e : endnode) : endnode :=
  match the_circuit e with
  | OnPtp c =>
      let c' := f c in
      foldl ptp_output (with_circuit (OnPtp c') e) (drop (length (Ptp.outs c)) (Ptp.outs c'))
  | OnLan _ => e
  end.

(** [start_circuits] and [stop_circuits], for the one circuit; a point to point
    circuit queues a work item for itself, [CircuitStart] or [CircuitStop]. *)
Definition start_circuits (e : endnode) : endnode := on_lan Lan.lan_start e.
Definition stop_circuits (e : endnode) : endnode := on_lan Lan.lan_stop e.

(** ** Every sequence of events *)

Inductive event :=
| ESend (now : Z) (data : Bytes) (dest : Z) (rqr : bool)
| ELater
| ELanFrame (ptr now : Z) (frame src : Bytes)
| ELanHelloTimer
| ELanListen (key : Z)
| EPtpWork (ptr : Z) (w : Ptp.work)
| EPtpTimer (ptr : Z)
| EPtpListen
| EStart
| EStop.

Definition step (e : endnode) (ev : event) : endnode :=
  match ev with
  | ESend now data dest rqr => (send now data dest rqr e).2
  | ELater => run_later e
  | ELanFrame ptr now f src => on_lan (Lan.dispatch ptr now f src) e
  | ELanHelloTimer => on_lan Lan.timeout e
  | ELanListen key => on_lan (Lan.listen_timeout key) e
  | EPtpWork ptr w => on_ptp (Ptp.dispatch ptr w) e
  | EPtpTimer ptr => on_ptp (Ptp.timeout ptr) e
  | EPtpListen => on_ptp Ptp.adj_timeout e
  | EStart => start_circuits e
  | EStop => stop_circuits e
  end.
Definition run (e : endnode) (l : list event) : endnode := foldl step e l.

(** ** A packet from one endnode to another *)

Lemma long_of_mk p : Lan.long_of p = LongData.mk 6 (ShortData.rqr p) (ShortData.rts p) (ShortData.ie p) false false
  HIORD (ShortData.dstnode p) HIORD (ShortData.srcnode p) (ShortData.visit p) (ShortData.payload p).
Proof. reflexivity. Qed.

(** A long header starts with its flags and has 21 bytes before the payload. *)
Lemma long_first r1 r2 r3 hi dst hi' src visit pl f :
  encode_packet (PLongData (LongData.mk 6 r1 r2 r3 false false hi dst hi' src visit pl)) = Ok f → Lan.padded f = false.
Proof.
  intros E. cbn [encode_packet] in E. apply first_bits in E as [rest ->]; [|reflexivity|reflexivity| |reflexivity].
  - by destruct r1, r2, r3.
  - repeat apply Forall_cons_2; try apply Forall_nil_2; cbn; by destruct r1, r2, r3.
Qed.
Lemma long_len r1 r2 r3 hi dst hi' src visit pl f :
  encode_packet (PLongData (LongData.mk 6 r1 r2 r3 false false hi dst hi' src visit pl)) = Ok f →
  length hi = 4%nat → length hi' = 4%nat → len f = len pl + 21.
Proof.
  intros E H1 H2. cbn [encode_packet LongData.layout encode_rows field reserved r_encode B BV Payload NodeidField c_encode] in E.
  inv_result.
  repeat match goal with H : rethrow _ (if ?b then _ else _) = _ |- _ => destruct b eqn:?; [discriminate H|] end.
  cbn [rethrow] in *. inv_result. cbn [bm r_encode] in *. inv_result.
  unfold len in *. rewrite !length_app. cbn [length]. rewrite ?uint_length. unfold Encoder.zeros, Encoder.raw.
  repeat match goal with |- context [bm_flen ?b] => change (bm_flen b) with 1%nat end. cbn in *. rewrite ?length_app. cbn. rewrite ?length_replicate. lia.
Qed.

(** A packet that fits in the header of a LAN. *)
Definition sendable (p : ShortData.t) : Prop :=
  fits 2 (ShortData.dstnode p) ∧ fits 2 (ShortData.srcnode p) ∧ fits 1 (ShortData.visit p) ∧ bytes_ok (ShortData.payload p).
Lemma long_sends p : sendable p → ∃ f, encode_packet (PLongData (Lan.long_of p)) = Ok f ∧
  Lan.decode f = Some (PLongData (Lan.long_of p)) ∧ len f = len (ShortData.payload p) + 21.
Proof.
  intros (Hd & Hs & Hv & Hb). rewrite long_of_mk.
  destruct (routing_parse_encode_any (PLongData (LongData.mk 6 (ShortData.rqr p) (ShortData.rts p) (ShortData.ie p) false false
    HIORD (ShortData.dstnode p) HIORD (ShortData.srcnode p) (ShortData.visit p) (ShortData.payload p)))) as (f & E & _ & Hf).
  { cbn. split_and!; try done; by repeat constructor. }
  exists f. split; [done|]. split; [|by apply long_len in E].
  unfold Lan.decode. rewrite bool_decide_eq_false_2 by exact (frame_nonempty f _ Hf). by rewrite (long_first _ _ _ _ _ _ _ _ _ _ E).
Qed.

(** What the LAN circuit of an endnode sends: to the address the destination's
    last packet came from, if that was within a minute; else to the
    designated router; else to the address of the destination itself. *)
Definition hop (now dest : Z) (c : Lan.circuit Lan.endnode) : Bytes :=
  match Lan.cache (Lan.self c) !! dest with
  | Some e => if decide (now < Lan.expires e) then Lan.prevhop e
              else match Lan.en_dr (Lan.self c) with Some (_, mac) => mac | None => Macaddr.from_nodeid dest end
  | None => match Lan.en_dr (Lan.self c) with Some (_, mac) => mac | None => Macaddr.from_nodeid dest end
  end.
Lemma en_send_hop now p c f : encode_packet (PLongData (Lan.long_of p)) = Ok f → ShortData.dstnode p ≠ p_nodeid (Lan.own c) →
  Lan.en_send now p false c = (Ok true, Lan.say (Lan.Transmit f (hop now (ShortData.dstnode p) c)) (Lan.expire_cache now c)).
Proof.
  intros E Hd. unfold Lan.en_send. cbn [mbind Action_bind act_do act_get]. unfold mbind, Action_bind, act_do, act_get, act_when, mret, Action_ret.
  unfold hop. change (Lan.cache (Lan.self (id (Lan.expire_cache now c))))
    with (filter (λ ke : Z * Lan.CacheEntry, now < Lan.expires ke.2) (Lan.cache (Lan.self c))).
  unfold Lan.send_to_mac, act_lift, Lan.transmit, act_do, mbind, Action_bind. rewrite E.
  destruct (filter _ _ !! _) as [e|] eqn:Ef.
  - apply map_lookup_filter_Some in Ef as [-> Ht]. rewrite decide_True by exact Ht. done.
  - change (Lan.self (id (Lan.expire_cache now c))) with (Lan.self (Lan.expire_cache now c)). cbn [id].
    assert (Lan.en_dr (Lan.self (Lan.expire_cache now c)) = Lan.en_dr (Lan.self c)) as Edr by done. rewrite Edr.
    assert ((ShortData.dstnode p =? p_nodeid (Lan.own (Lan.expire_cache now c))) = false) as Eo by (by apply Z.eqb_neq). rewrite Eo.
    destruct (Lan.cache (Lan.self c) !! _) as [e|] eqn:Ec; [rewrite decide_False|]; [by destruct (Lan.en_dr _) as [[]|]| |by destruct (Lan.en_dr _) as [[]|]].
    intros Ht. apply map_lookup_filter_None in Ef as [Ef|Ef]; [congruence|]. by apply (Ef e).
Qed.

(** What it does with a data packet from the LAN. *)
Lemma en_receives ptr now f src c p : Lan.decode f = Some (PLongData (Lan.long_of p)) →
  after (Lan.dispatch ptr now f src) c =
  Lan.say (Lan.Forward (ShortData.set_src (Some (Lan.l_id (Lan.conf c))) (short_of (Lan.long_of p))))
    (Lan.with_cache (<[ShortData.srcnode (short_of (Lan.long_of p)) := Lan.mkCache src (now + Lan.CACHE_TIME)]>
       (Lan.cache (Lan.self (Lan.expire_cache now c)))) (Lan.expire_cache now c)).
Proof. intros D. unfold after, Lan.dispatch. rewrite D. reflexivity. Qed.

(** An endnode on a LAN: its circuit, its datalink and the port of routing
    there, with the address that goes with its node address. *)
Record station (e : endnode) (c : Lan.circuit Lan.endnode) (dl : BcDatalink) (port : BcPort) : Prop := {
  s_circuit : the_circuit e = OnLan c;
  s_own : p_nodeid (Lan.own c) = nodeid e;
  s_nsp : has_nsp e = true;
  s_id : fits 2 (nodeid e);
  s_port : port ∈ ports dl;
  s_distinct : Bc.distinct dl;
  s_pads : Forall (λ port, pad port = true) (ports dl);
  s_proto : Bc.proto port = ROUTING_PROTO;
  s_mac : macaddr port = Macaddr.from_nodeid (nodeid e);
}.

Lemma mac_ok e c dl port : station e c dl port → addr_ok (macaddr port).
Proof. intros H. by rewrite (s_mac _ _ _ _ H). Qed.

(** One packet, from the send to NSP at the other end. *)
Lemma crosses a ca dla pa b cb dlb pb now now' ptr data rqr : station a ca dla pa → station b cb dlb pb →
  Bc.foreign (macaddr pa) dlb → nodeid a ≠ nodeid b → bytes_ok data → len data + 21 < 65536 →
  hop now (nodeid b) ca = macaddr pb →
  ∃ f a1 c1 b1 cb1,
    send now data (nodeid b) rqr a = (Ok tt, a1) ∧
    Lan.outs c1 = Lan.outs ca ++ [Lan.Transmit f (macaddr pb)] ∧
    (receive_frame (Bc.send f (macaddr pb) pa).2 dlb).2 = Some (owner pb, f, macaddr pa) ∧
    step b (ELanFrame ptr now' f (macaddr pa)) = b1 ∧ to_nsp b1 = to_nsp b ++ [(nodeid a, data)] ∧
    to_nsp a1 = to_nsp a ∧ station a1 c1 dla pa ∧ station b1 cb1 dlb pb ∧
    nodeid a1 = nodeid a ∧ nodeid b1 = nodeid b ∧
    Lan.cache (Lan.self cb1) !! nodeid a = Some (Lan.mkCache (macaddr pa) (now' + Lan.CACHE_TIME)).
Proof.
  intros Ha Hb Hf Hn Hd Hl Hh. set (p := packet_for data (nodeid b) rqr a).
  destruct (long_sends p) as (f & E & D & Lf).
  { split; [exact (s_id _ _ _ _ Hb)|]. split; [exact (s_id _ _ _ _ Ha)|]. split; [done|exact Hd]. }
  exists f, (with_circuit (OnLan (Lan.say (Lan.Transmit f (macaddr pb)) (Lan.expire_cache now ca))) (count_sent a)),
    (Lan.say (Lan.Transmit f (macaddr pb)) (Lan.expire_cache now ca)).
  do 2 eexists. split; [|split; [done|split; [|split; [done|]]]].
  - unfold send. rewrite (proj2 (Z.eqb_neq _ _)) by done. cbv zeta. change (the_circuit (count_sent a)) with (the_circuit a).
    rewrite (s_circuit _ _ _ _ Ha). fold p.
    rewrite (en_send_hop now p ca f E) by (rewrite (s_own _ _ _ _ Ha); done).
    change (ShortData.dstnode p) with (nodeid b). by rewrite Hh.
  - apply frame_delivered; try first [by eapply mac_ok|by eapply s_distinct|by eapply s_pads].
    + rewrite (s_proto _ _ _ _ Ha). split; [done|reflexivity].
    + rewrite Lf. exact Hl.
    + pose proof (s_pads _ _ _ _ Ha) as Hp. rewrite Forall_forall in Hp. by apply Hp, (s_port _ _ _ _ Ha).
    + split; [done|]. split; [done|]. split; [done|]. exists pb. split; [by eapply s_port|]. split; [|done].
      split; [by rewrite (s_proto _ _ _ _ Ha), (s_proto _ _ _ _ Hb)|].
      unfold accepts. rewrite (bool_decide_eq_true_2 (macaddr pb = macaddr pb)) by done. by rewrite orb_true_r.
  - cbn [step]. unfold on_lan. rewrite (s_circuit _ _ _ _ Hb). rewrite (en_receives ptr now' f (macaddr pa) cb p D). cbv zeta.
    set (q := ShortData.set_src _ _). set (cb1 := Lan.say _ _).
    assert (Lan.outs cb1 = Lan.outs cb ++ [Lan.Forward q]) as -> by done. rewrite drop_app_length. cbn [foldl lan_output].
    unfold forward. assert (ShortData.dstnode q = nodeid b) as -> by done. change (nodeid (with_circuit _ b)) with (nodeid b).
    rewrite Z.eqb_refl. cbn [negb]. split; [|split; [done|split; [|split; [|split; [done|split; [done|]]]]]].
    + unfold deliver. cbn. rewrite (s_nsp _ _ _ _ Hb). done.
    + destruct Ha. by constructor.
    + destruct Hb. by constructor.
    + change (ShortData.srcnode (short_of (Lan.long_of p))) with (nodeid a). apply lookup_insert_eq.
Qed.

(** C29: Two endnodes of one Ethernet talk. An endnode that knows of no designated
    router, and whose Multinet cache has no live entry that leads elsewhere, sends a
    message to another one: the frame goes to the other's own address, is received there
    by the port of routing and by nobody else, and NSP at that end is given the message,
    once, with its source. An answer sent within a minute goes back to the address the
    message came from, whatever router the answering node uses by then, and arrives the
    same way. *)
Theorem endnodes_talk (a b : endnode) ca cb dla dlb pa pb (data answer : Bytes) (rqr rqr' : bool)
    (now now' then' last : Z) (ptr ptr' : Z) :
  station a ca dla pa → station b cb dlb pb → Bc.foreign (macaddr pa) dlb → Bc.foreign (macaddr pb) dla →
  nodeid a ≠ nodeid b → bytes_ok data → len data + 21 < 65536 → bytes_ok answer → len answer + 21 < 65536 →
  Lan.en_dr (Lan.self ca) = None →
  (∀ e, Lan.cache (Lan.self ca) !! nodeid b = Some e → Lan.prevhop e = macaddr pb ∨ Lan.expires e ≤ now) → then' < now' + Lan.CACHE_TIME →
  ∃ f a1 c1 b1 g b2 c2,
    send now data (nodeid b) rqr a = (Ok tt, a1) ∧
    the_circuit a1 = OnLan c1 ∧ Lan.outs c1 = Lan.outs ca ++ [Lan.Transmit f (macaddr pb)] ∧
    (receive_frame (Bc.send f (macaddr pb) pa).2 dlb).2 = Some (owner pb, f, macaddr pa) ∧
    step b (ELanFrame ptr now' f (macaddr pa)) = b1 ∧ to_nsp b1 = to_nsp b ++ [(nodeid a, data)] ∧
    send then' answer (nodeid a) rqr' b1 = (Ok tt, b2) ∧
    the_circuit b2 = OnLan c2 ∧ list.last (Lan.outs c2) = Some (Lan.Transmit g (macaddr pa)) ∧
    (receive_frame (Bc.send g (macaddr pa) pb).2 dla).2 = Some (owner pa, g, macaddr pb) ∧
    to_nsp (step a1 (ELanFrame ptr' last g (macaddr pb))) = to_nsp a ++ [(nodeid b, answer)].
Proof.
  intros Ha Hb Hfb Hfa Hn Hd Hl Hd' Hl' Hr Hc Ht.
  destruct (crosses a ca dla pa b cb dlb pb now now' ptr data rqr) as
    (f & a1 & c1 & b1 & cb1 & E & O & R & S & T & Ta & Sa & Sb & Na & Nb & C); try done.
  { unfold hop. rewrite Hr, <-(s_mac _ _ _ _ Hb). destruct (Lan.cache _ !! _) as [e|]; [|done].
    case_decide; [|done]. destruct (Hc e eq_refl) as [?|?]; [done|lia]. }
  destruct (crosses b1 cb1 dlb pb a1 c1 dla pa then' last ptr' answer rqr') as
    (g & b2 & c2 & a2 & ca2 & E' & O' & R' & S' & T' & _ & Sb' & _ & _ & _ & _); try done.
  { rewrite Na, Nb. congruence. }
  { rewrite Na. unfold hop. rewrite C, decide_True by exact Ht. done. }
  exists f, a1, c1, b1, g, b2, c2. rewrite Na in E'. rewrite S', T', Ta, Nb.
  split_and!; try done; [exact (s_circuit _ _ _ _ Sa)|exact (s_circuit _ _ _ _ Sb')|]. by rewrite O', last_snoc.
Qed.

Definition example_endnode (id : Z) : endnode :=
  mkEndnode id (OnLan (Lan.new_endnode 1 (mkParent id ENDNODE 4 tiver_ph4 1023 63) 0 0)) ∅ 0 0 0 true [] [].
Definition example_wire (id : Z) : BcDatalink :=
  mkBc [mkPort 7 ROUTING_PROTO true (Macaddr.from_nodeid id) {[all_endnodes]} false no_counts] [2; 1; 1; 1; 1; u8 id] 0.

Lemma example_station id : fits 2 id → station (example_endnode id)
  (Lan.new_endnode 1 (mkParent id ENDNODE 4 tiver_ph4 1023 63) 0 0) (example_wire id)
  (mkPort 7 ROUTING_PROTO true (Macaddr.from_nodeid id) {[all_endnodes]} false no_counts).
Proof. intros H. constructor; try done; [by left|apply NoDup_singleton|by repeat constructor]. Qed.

Lemma endnodes_talk_witness :
  ∃ f a1, send 0 [1; 2; 3] 1030 false (example_endnode 1029) = (Ok tt, a1) ∧
    to_nsp (step (example_endnode 1030) (ELanFrame 1 0 f (Macaddr.from_nodeid 1029))) = [(1029, [1; 2; 3])].
Proof.
  destruct (endnodes_talk (example_endnode 1029) (example_endnode 1030) _ _ (example_wire 1029) (example_wire 1030) _ _
    [1; 2; 3] [4] false false 0 0 5 6 1 1 (example_station 1029 ltac:(by split)) (example_station 1030 ltac:(by split)))
    as (f & a1 & c1 & b1 & g & b2 & c2 & E & _ & _ & _ & S & T & _).
  - by apply (bool_decide_unpack _).
  - by apply (bool_decide_unpack _).
  - done.
  - by apply (bool_decide_unpack _).
  - done.
  - by apply (bool_decide_unpack _).
  - done.
  - done.
  - done.
  - done.
  - exists f, a1. split; [exact E|]. rewrite <- S in T. exact T.
Defined.
