(* ===== verification/Tlv.v ===== *)
(** Tagged items: the [TLV] group of [include/decnet/packet/group.h].

    An item is what one entry of the group writes and reads; [TlvOk] is its
    contract, and [tlv_row_end] makes a row of a group whose items keep theirs
    and have different tags.  The loop that reads is given one turn more than
    there are bytes; [tlv_decode_eq] says that this is as good as no bound. *)

From stdpp Require Import gmap sorting.
From S2P Require Import Prelude Buffer Types Codec Layout.
#[local] Open Scope Z_scope.

(** ** Items *)

Record tlv_item (P : Type) := Tlv {
  t_tag : Z;
  t_encode : P → result (option Bytes);
  t_decode : P → dec P;
}.
Arguments Tlv {_} _ _ _.
Arguments t_tag {_} _.
Arguments t_encode {_} _ _.
Arguments t_decode {_} _ _ _.

(** [tlvf]: an optional member; [tlvg]: a bit group, which is always there. *)
Definition tlvf {P A} (tag : Z) (c : codec A) (get : P → option A) (set : option A → P → P) : tlv_item P :=
  Tlv tag (λ p, match get p with None => Ok None | Some v => b ← c_encode c v; Ok (Some b) end)
      (λ p d, '(v, d) ← c_decode c d; Ok (set (Some v) p, d)).
Definition tlvg {P} (tag : Z) (group : row P) : tlv_item P :=
  Tlv tag (λ p, b ← r_encode group p; Ok (Some b)) (r_decode group).

(** [std::map] runs through its keys in ascending order. *)
Definition by_tag (a b : Z * Bytes) : Prop := a.1 ≤ b.1.
#[export] Instance by_tag_dec : RelDecision by_tag.
Proof. intros a b. unfold by_tag. apply _. Defined.
Definition unknown_entries (m : gmap Z Bytes) : list (Z * Bytes) := merge_sort by_tag (map_to_list m).

(** ** The group *)

Section Group.
Context {P : Type} (taglen lenlen : nat) (tolerant : bool).
(** Where items of other tags go, if the group is wild. *)
Context (unknown : option ((P → gmap Z Bytes) * (gmap Z Bytes → P → P))).
Context (items : list (tlv_item P)).

Definition tlv_head (tag n : Z) : Bytes := Encoder.uint tag taglen ++ Encoder.uint n lenlen.
Fixpoint encode_items (l : list (tlv_item P)) (p : P) : result Bytes :=
  match l with
  | [] => Ok []
  | i :: l =>
      v ← t_encode i p;
      b ← (match v with
           | None => Ok []
           | Some v => if (lenlen <? 8)%nat && (2 ^ (8 * Z.of_nat lenlen) <=? len v) then Throw FieldOverflow
                       else Ok (tlv_head (t_tag i) (len v) ++ v)
           end);
      bs ← encode_items l p; Ok (b ++ bs)
  end.
Fixpoint encode_unknown (l : list (Z * Bytes)) : Bytes :=
  match l with [] => [] | (tag, v) :: l => tlv_head tag (len v) ++ v ++ encode_unknown l end.
Definition tlv_encode (p : P) : result Bytes :=
  bs ← encode_items items p;
  Ok (bs ++ match unknown with Some (get, _) => encode_unknown (unknown_entries (get p)) | None => [] end).

(** An item that has been cut out: the entry of its tag reads it. *)
Definition tlv_value (tag : Z) (value : Bytes) (p : P) : result P :=
  match find (λ i, t_tag i =? tag) items with
  | Some i => '(p, vd) ← t_decode i p value;
              if negb (Decoder.empty vd) && negb tolerant then Throw ExtraData else Ok p
  | None => match unknown with
            | Some (get, set) => Ok (set (<[tag := value]> (get p)) p)
            | None => Throw InvalidTag
            end
  end.
Fixpoint tlv_loop (fuel : nat) (p : P) : dec P := λ d,
  match fuel with
  | O => Ok (p, d)
  | S fuel =>
      if Decoder.empty d then Ok (p, d)
      else if Decoder.remaining d <? Z.of_nat (taglen + lenlen) then
        if tolerant then '(_, d) ← Decoder.rest d; Ok (p, d) else Throw MissingData
      else
        '(tag, d) ← Decoder.uint taglen d;
        let tag := u32 tag in
        '(vlen, d) ← Decoder.uint lenlen d;
        if Decoder.remaining d <? vlen then
          if tolerant then '(_, d) ← Decoder.rest d; Ok (p, d) else Throw MissingData
        else
          '(value, d) ← Decoder.raw (Z.to_nat vlen) d;
          p ← tlv_value tag value p;
          tlv_loop fuel p d
  end.
Definition tlv_decode (p : P) : dec P := λ d, tlv_loop (S (length d)) p d.
Definition tlv : row P := Row tlv_encode tlv_decode.

(** ** The bound of the loop *)

Context (Hhead : (0 < taglen + lenlen)%nat).

Lemma uint_shorter n d v r : Decoder.uint n d = Ok (v, r) → length d = (n + length r)%nat.
Proof.
  unfold Decoder.uint, Decoder.need. destruct (Z.ltb_spec (Decoder.remaining d) (Z.of_nat n)) as [|H]; [done|].
  cbn. intros [= _ <-]. rewrite length_drop. unfold Decoder.remaining, len in H. lia.
Qed.
Lemma raw_shorter n d v r : Decoder.raw n d = Ok (v, r) → (length r ≤ length d)%nat.
Proof.
  unfold Decoder.raw. destruct (Decoder.need n d); [|done]. cbn. intros [= _ <-]. rewrite length_drop. lia.
Qed.
Lemma tlv_enough f1 : ∀ f2 p d, (length d < f1)%nat → (length d < f2)%nat → tlv_loop f1 p d = tlv_loop f2 p d.
Proof.
  induction f1 as [|f1 IH]; intros f2 p d H1 H2; [lia|]. destruct f2 as [|f2]; [lia|]. cbn [tlv_loop].
  destruct (Decoder.empty d); [done|]. destruct (_ <? _); [done|].
  destruct (Decoder.uint taglen d) as [[tag d1]|] eqn:E1; [cbn [mbind result_bind]|done].
  destruct (Decoder.uint lenlen d1) as [[vlen d2]|] eqn:E2; [cbn [mbind result_bind]|done].
  destruct (_ <? _); [done|].
  destruct (Decoder.raw (Z.to_nat vlen) d2) as [[value d3]|] eqn:E3; [cbn [mbind result_bind]|done].
  destruct (tlv_value (u32 tag) value p) as [q|]; [cbn [mbind result_bind]|done].
  apply uint_shorter in E1, E2. apply raw_shorter in E3. apply IH; lia.
Qed.
(** One turn, and the rest of the buffer. *)
Lemma tlv_decode_eq p d : tlv_decode p d =
  if Decoder.empty d then Ok (p, d)
  else if Decoder.remaining d <? Z.of_nat (taglen + lenlen) then if tolerant then Ok (p, []) else Throw MissingData
  else
    '(tag, d) ← Decoder.uint taglen d;
    '(vlen, d) ← Decoder.uint lenlen d;
    if Decoder.remaining d <? vlen then if tolerant then Ok (p, []) else Throw MissingData
    else '(value, d) ← Decoder.raw (Z.to_nat vlen) d; p ← tlv_value (u32 tag) value p; tlv_decode p d.
Proof.
  unfold tlv_decode at 1. cbn [tlv_loop]. destruct (Decoder.empty d); [done|]. destruct (_ <? _); [done|].
  destruct (Decoder.uint taglen d) as [[tag d1]|] eqn:E1; [cbn [mbind result_bind]|done].
  destruct (Decoder.uint lenlen d1) as [[vlen d2]|] eqn:E2; [cbn [mbind result_bind]|done].
  destruct (_ <? _); [done|].
  destruct (Decoder.raw (Z.to_nat vlen) d2) as [[value d3]|] eqn:E3; [cbn [mbind result_bind]|done].
  destruct (tlv_value (u32 tag) value p) as [q|]; [cbn [mbind result_bind]|done].
  apply uint_shorter in E1, E2. apply raw_shorter in E3. unfold tlv_decode. apply tlv_enough; lia.
Qed.

(** ** The contract *)

Definition tag_ok (tag : Z) : Prop := 0 ≤ tag < 2 ^ (8 * Z.of_nat taglen) ∧ tag < 2 ^ 32.
Definition value_ok (v : Bytes) : Prop := bytes_ok v ∧ len v < 2 ^ (8 * Z.of_nat lenlen).

Lemma tlv_read tag v rest p q : tag_ok tag → value_ok v → tlv_value tag v p = Ok q →
  tlv_decode p (tlv_head tag (len v) ++ v ++ rest) = tlv_decode q rest.
Proof.
  intros [Ht Ht'] [Hv Hl] E. rewrite tlv_decode_eq. unfold tlv_head. rewrite <-app_assoc.
  assert (Decoder.remaining (Encoder.uint tag taglen ++ Encoder.uint (len v) lenlen ++ v ++ rest) =
    Z.of_nat (taglen + lenlen) + len v + len rest) as Hlen by (unfold Decoder.remaining, len; rewrite !length_app, !uint_length; lia).
  pose proof (len_nonneg v) as Hv0. pose proof (len_nonneg rest) as Hr0. unfold Decoder.empty. rewrite Hlen.
  rewrite (proj2 (Z.eqb_neq _ _)) by lia. rewrite (proj2 (Z.ltb_ge _ _)) by lia.
  rewrite uint_app by lia. cbn [mbind result_bind]. rewrite uint_app by lia.
  cbn [mbind result_bind]. replace (Decoder.remaining (v ++ rest)) with (len v + len rest) by (symmetry; apply len_app).
  rewrite (proj2 (Z.ltb_ge _ _)) by lia. replace (Z.to_nat (len v)) with (length v) by (unfold len; lia). rewrite raw_app. cbn [mbind result_bind]. rewrite (u32_small tag) by lia. by rewrite E.
Qed.
End Group.

Section Contract.
Context {P : Type} (taglen lenlen : nat) (Hhead : (0 < taglen + lenlen)%nat).

(** An item of [p] is either left out, when [copy] changes nothing, or it is
    written and read back. *)
Class TlvOk (i : tlv_item P) (wf : P → Prop) (copy : P → P → P) : Prop :=
  tlv_ok : ∀ p, wf p →
    (t_encode i p = Ok None ∧ ∀ q, copy p q = q) ∨
    ∃ v, t_encode i p = Ok (Some v) ∧ value_ok lenlen v ∧ ∀ q, t_decode i q v = Ok (copy p q, []).
(** Some of the items of a group, whatever follows them. *)
Class TlvsOk (l : list (tlv_item P)) (wf : P → Prop) (copy : P → P → P) : Prop :=
  tlvs_ok : ∀ p, wf p → ∃ bs, encode_items taglen lenlen l p = Ok bs ∧ bytes_ok bs ∧
    ∀ tolerant unknown items q rest,
      Forall (λ i, tag_ok taglen (t_tag i) ∧ find (λ j, t_tag j =? t_tag i) items = Some i) l →
      tlv_decode taglen lenlen tolerant unknown items q (bs ++ rest) =
      tlv_decode taglen lenlen tolerant unknown items (copy p q) rest.
(** A codec that writes less than the length field can say. *)
Class CodecShort {A} (c : codec A) (wf : A → Prop) : Prop :=
  codec_short : ∀ v b, wf v → c_encode c v = Ok b → len b < 2 ^ (8 * Z.of_nat lenlen).

Lemma tlvf_ok {A} tag (c : codec A) cwf (get : P → option A) set : CodecOk c cwf → CodecShort c cwf →
  TlvOk (tlvf tag c get set) (λ p, from_option cwf True (get p))
        (λ p q, match get p with Some v => set (Some v) q | None => q end).
Proof.
  intros Hc Hs p Hp. cbn. destruct (get p) as [v|]; [right|by left].
  destruct (Hc v Hp) as (b & E & Hb & D). exists b. rewrite E. split; [done|].
  split; [split; [done|by apply (Hs v)]|]. intros q. pose proof (D []) as D0. rewrite app_nil_r in D0. by rewrite D0.
Qed.
Lemma tlvg_ok tag (g : row P) wf copy : RowOk g wf copy → (∀ p b, wf p → r_encode g p = Ok b → len b < 2 ^ (8 * Z.of_nat lenlen)) →
  TlvOk (tlvg tag g) wf copy.
Proof.
  intros Hg Hs p Hp. right. destruct (Hg p Hp) as (b & E & Hb & D). exists b. cbn. rewrite E.
  split; [done|]. split; [split; [done|by apply (Hs p)]|]. intros q. pose proof (D q []) as D0. by rewrite app_nil_r in D0.
Qed.
Lemma tlvs_nil : TlvsOk [] (λ _, True) (λ _ q, q).
Proof. intros p _. exists []. split; [done|]. split; [constructor|done]. Qed.
Lemma tlvs_cons i l wf copy wf' copy' : TlvOk i wf copy → TlvsOk l wf' copy' →
  TlvsOk (i :: l) (λ p, wf p ∧ wf' p) (λ p q, copy' p (copy p q)).
Proof.
  intros Hi Hl p [Hp Hp']. destruct (Hl p Hp') as (bs & E & Hb & D). cbn [encode_items].
  destruct (Hi p Hp) as [[Ei Hc]|(v & Ei & Hv & Dv)]; rewrite Ei; cbn [mbind result_bind].
  - rewrite E. exists bs. split; [done|]. split; [done|]. intros tol unk items q rest HF.
    apply Forall_cons in HF as [_ HF]. rewrite Hc. by apply D.
  - rewrite (proj2 (Z.leb_gt _ _)) by apply Hv. rewrite andb_false_r. cbn [mbind result_bind]. rewrite E. cbn [mbind result_bind].
    eexists. split; [done|]. split.
    { unfold tlv_head. rewrite !bytes_ok_app. split_and!; try apply uint_ok; [apply Hv|done]. }
    intros tol unk items q rest HF. apply Forall_cons in HF as [[Ht Hf] HF].
    rewrite <-!app_assoc. rewrite (tlv_read taglen lenlen tol unk items Hhead (t_tag i) v (bs ++ rest) q (copy p q)); [by apply D|done..|].
    unfold tlv_value. rewrite Hf, Dv. done.
Qed.

(** *** The items nobody knows *)

Context (tolerant : bool) (items : list (tlv_item P)) (get : P → gmap Z Bytes) (set : gmap Z Bytes → P → P).
Context (get_set : ∀ m p, get (set m p) = m) (set_get : ∀ p, set (get p) p = p) (set_set : ∀ m m' p, set m (set m' p) = set m p).

Definition unknown_ok (m : gmap Z Bytes) : Prop :=
  map_Forall (λ tag v, tag_ok taglen tag ∧ value_ok lenlen v ∧ ¬ tag ∈ map t_tag items) m.
Lemma not_found tag : ¬ tag ∈ map t_tag items → find (λ j, t_tag j =? tag) items = None.
Proof.
  induction items as [|i l IH]; intros H; [done|]. cbn. cbn in H. apply not_elem_of_cons in H as [Hne H].
  rewrite (proj2 (Z.eqb_neq _ _)) by done. by apply IH.
Qed.
Lemma unknown_read l q rest : Forall (λ e, tag_ok taglen e.1 ∧ value_ok lenlen e.2 ∧ ¬ e.1 ∈ map t_tag items) l →
  tlv_decode taglen lenlen tolerant (Some (get, set)) items q (encode_unknown taglen lenlen l ++ rest) =
  tlv_decode taglen lenlen tolerant (Some (get, set)) items (set (foldl (λ m e, <[e.1 := e.2]> m) (get q) l) q) rest.
Proof.
  intros H. revert q. induction H as [|[tag v] l (Ht & Hv & Hn) Hl IH]; intros q; [cbn; by rewrite set_get|].
  cbn [encode_unknown foldl fst snd] in *. rewrite <-!app_assoc.
  rewrite (tlv_read _ _ _ _ _ Hhead tag v _ q (set (<[tag := v]> (get q)) q)); [|done..|unfold tlv_value; by rewrite not_found].
  by rewrite (IH (set (<[tag := v]> (get q)) q)), get_set, set_set.
Qed.
Lemma unknown_bytes l : Forall (λ e : Z * Bytes, tag_ok taglen e.1 ∧ value_ok lenlen e.2 ∧ ¬ e.1 ∈ map t_tag items) l →
  bytes_ok (encode_unknown taglen lenlen l).
Proof.
  induction 1 as [|[tag v] l (Ht & Hv & Hn) Hl IH]; [constructor|]. cbn [encode_unknown]. unfold tlv_head.
  rewrite !bytes_ok_app. split_and!; try apply uint_ok; [apply Hv|done].
Qed.
Lemma unknown_all (m m' : gmap Z Bytes) : foldl (λ m e, <[e.1 := e.2]> m) m' (unknown_entries m) = m ∪ m'.
Proof.
  assert (∀ l (m' : gmap Z Bytes), foldl (λ m e, <[e.1 := e.2]> m) m' l = list_to_map (rev l) ∪ m') as Hf.
  { clear. induction l as [|[k v] l IH]; intros m'; cbn [foldl]; [cbn; by rewrite (left_id_L ∅ (∪))|]. rewrite IH. cbn [rev fst snd].
    rewrite list_to_map_app. cbn. rewrite <-map_union_assoc. f_equal. by rewrite insert_union_singleton_l, insert_empty. }
  rewrite Hf. f_equal. assert (rev (unknown_entries m) ≡ₚ map_to_list m) as Hp.
  { rewrite <-Permutation_rev. unfold unknown_entries. apply merge_sort_Permutation. }
  rewrite <-(list_to_map_to_list m) at 2. apply list_to_map_proper; [|done]. rewrite Hp. apply NoDup_fst_map_to_list.
Qed.

(** A group is read back, and the loop goes on with what follows it. *)
Lemma tlv_row_tail wf copy : TlvsOk items wf copy →
  Forall (λ i, tag_ok taglen (t_tag i) ∧ find (λ j, t_tag j =? t_tag i) items = Some i) items →
  (∀ p q, get (copy p q) = get q) → ∀ p, wf p → unknown_ok (get p) →
  ∃ bs, tlv_encode taglen lenlen (Some (get, set)) items p = Ok bs ∧ bytes_ok bs ∧ ∀ q rest,
    tlv_decode taglen lenlen tolerant (Some (get, set)) items q (bs ++ rest) =
    tlv_decode taglen lenlen tolerant (Some (get, set)) items (set (get p ∪ get q) (copy p q)) rest.
Proof.
  intros Hi HF Hg p Hp Hu. destruct (Hi p Hp) as (bs & E & Hb & D).
  assert (Forall (λ e, tag_ok taglen e.1 ∧ value_ok lenlen e.2 ∧ ¬ e.1 ∈ map t_tag items) (unknown_entries (get p))) as Hl.
  { apply Forall_forall. intros [k v] Hk. unfold unknown_entries in Hk. rewrite merge_sort_Permutation in Hk.
    apply elem_of_map_to_list in Hk. by apply (Hu k v). }
  exists (bs ++ encode_unknown taglen lenlen (unknown_entries (get p))). unfold tlv_encode. rewrite E. split; [done|].
  split; [apply bytes_ok_app; split; [done|by apply unknown_bytes]|].
  intros q rest. rewrite <-app_assoc, D by done. by rewrite unknown_read, unknown_all, Hg by done.
Qed.
Lemma tlv_row_end wf copy : TlvsOk items wf copy →
  Forall (λ i, tag_ok taglen (t_tag i) ∧ find (λ j, t_tag j =? t_tag i) items = Some i) items →
  (∀ p q, get (copy p q) = get q) →
  RowEnd (tlv taglen lenlen tolerant (Some (get, set)) items) (λ p, wf p ∧ unknown_ok (get p))
         (λ p q, set (get p ∪ get q) (copy p q)).
Proof.
  intros Hi HF Hg p [Hp Hu]. destruct (tlv_row_tail wf copy Hi HF Hg p Hp Hu) as (bs & E & Hb & D).
  exists bs. split; [done|]. split; [done|]. intros q. rewrite <-(app_nil_r bs). apply D.
Qed.
(** Where an item is cut short, a tolerant group ends. *)
Definition cut_short (d : Bytes) : bool :=
  (Decoder.remaining d <? Z.of_nat (taglen + lenlen)) ||
  match ('(_, d) ← Decoder.uint taglen d; '(n, d) ← Decoder.uint lenlen d; Ok (Decoder.remaining d <? n)) with Ok b => b | Throw _ => false end.
Lemma tlv_cut d q : tolerant = true → cut_short d = true → tlv_decode taglen lenlen tolerant (Some (get, set)) items q d = Ok (q, []).
Proof.
  intros Ht H. rewrite tlv_decode_eq by done. rewrite Ht. unfold cut_short in H.
  destruct (Decoder.empty d) eqn:He.
  { f_equal. f_equal. unfold Decoder.empty, Decoder.remaining, len in He. apply Z.eqb_eq in He. destruct d; [done|]. cbn [length] in He. lia. }
  destruct (_ <? _); [done|]. cbn in H.
  destruct (Decoder.uint taglen d) as [[tag d1]|]; [cbn [mbind result_bind] in *|done].
  destruct (Decoder.uint lenlen d1) as [[n d2]|]; [cbn [mbind result_bind] in *|done]. by rewrite H.
Qed.
End Contract.
