(* ===== verification/MopPackets.v ===== *)
(** MOP messages: [include/decnet/mop/packets.h] and [src/mop/packets.cc].

    The messages of protocol 60-02, which a code tells apart, and those of the
    loopback protocol 90-00. *)

From S2P Require Import Prelude Buffer Types Codec Layout Indexed Tlv.
#[local] Open Scope Z_scope.

(** [console_multicast] and [loop_multicast]. *)
Definition console_multicast : Bytes := [0xab; 0; 0; 2; 0; 0].
Definition loop_multicast : Bytes := [0xcf; 0; 0; 0; 0; 0].

(** [enum Code]. *)
Definition REQUEST_ID : Z := 5.
Definition SYSTEM_ID : Z := 7.
Definition REQUEST_COUNTERS : Z := 9.
Definition COUNTERS : Z := 11.
Definition CONSOLE_REQUEST : Z := 13.
Definition CONSOLE_RELEASE : Z := 15.
Definition CONSOLE_COMMAND : Z := 17.
Definition CONSOLE_RESPONSE : Z := 19.

(** ** Software identification *)

Record SoftwareId := mkSoftware { is_code : bool; sw_code : Z; sw_text : text }.
Definition named (s : text) : SoftwareId := mkSoftware false 0 s.
Definition numbered (c : Z) : SoftwareId := mkSoftware true c [].
(** A byte that is not positive as a signed one is a code, and otherwise the
    length of a name. *)
Definition SoftwareIdField : codec SoftwareId :=
  Codec (λ v, if is_code v then
                if (sw_code v <? -2) || (0 <? sw_code v) then Throw FieldOverflow else Ok (Encoder.byte (u8 (sw_code v)))
              else if 127 <? len (sw_text v) then Throw FieldOverflow
              else Ok (Encoder.byte (u8 (len (sw_text v))) ++ Encoder.raw (as_bytes (sw_text v))))
        (λ d, '(first, d) ← Decoder.byte d;
              let signed_first := if first <? 128 then first else first - 256 in
              if signed_first <=? 0 then Ok (numbered signed_first, d)
              else '(b, d) ← Decoder.raw (Z.to_nat first) d; Ok (named (of_bytes b), d)).

(** ** The messages *)
(** System ID. *)
Module SysId.
Record t := mk {
  code : Z;
  receipt : Z;
  loop : bool;
  dump : bool;
  ploader : bool;
  sloader : bool;
  boot : bool;
  carrier : bool;
  counters : bool;
  carrier_reserved : bool;
  version : option Version;
  console_user : option Bytes;
  reservation_timer : option Z;
  console_cmd_size : option Z;
  console_resp_size : option Z;
  hwaddr : option Bytes;
  device : option Z;
  software : option SoftwareId;
  processor : option Z;
  datalink : option Z;
  bufsize : option Z;
  unknown : gmap Z Bytes;
}.
Definition set_code (v : Z) (p : t) : t :=
  mk v (receipt p) (loop p) (dump p) (ploader p) (sloader p) (boot p) (carrier p) (counters p)
    (carrier_reserved p) (version p) (console_user p) (reservation_timer p) (console_cmd_size p)
    (console_resp_size p) (hwaddr p) (device p) (software p) (processor p) (datalink p)
    (bufsize p) (unknown p).
Definition set_receipt (v : Z) (p : t) : t :=
  mk (code p) v (loop p) (dump p) (ploader p) (sloader p) (boot p) (carrier p) (counters p)
    (carrier_reserved p) (version p) (console_user p) (reservation_timer p) (console_cmd_size p)
    (console_resp_size p) (hwaddr p) (device p) (software p) (processor p) (datalink p)
    (bufsize p) (unknown p).
Definition set_loop (v : bool) (p : t) : t :=
  mk (code p) (receipt p) v (dump p) (ploader p) (sloader p) (boot p) (carrier p) (counters p)
    (carrier_reserved p) (version p) (console_user p) (reservation_timer p) (console_cmd_size p)
    (console_resp_size p) (hwaddr p) (device p) (software p) (processor p) (datalink p)
    (bufsize p) (unknown p).
Definition set_dump (v : bool) (p : t) : t :=
  mk (code p) (receipt p) (loop p) v (ploader p) (sloader p) (boot p) (carrier p) (counters p)
    (carrier_reserved p) (version p) (console_user p) (reservation_timer p) (console_cmd_size p)
    (console_resp_size p) (hwaddr p) (device p) (software p) (processor p) (datalink p)
    (bufsize p) (unknown p).
Definition set_ploader (v : bool) (p : t) : t :=
  mk (code p) (receipt p) (loop p) (dump p) v (sloader p) (boot p) (carrier p) (counters p)
    (carrier_reserved p) (version p) (console_user p) (reservation_timer p) (console_cmd_size p)
    (console_resp_size p) (hwaddr p) (device p) (software p) (processor p) (datalink p)
    (bufsize p) (unknown p).
Definition set_sloader (v : bool) (p : t) : t :=
  mk (code p) (receipt p) (loop p) (dump p) (ploader p) v (boot p) (carrier p) (counters p)
    (carrier_reserved p) (version p) (console_user p) (reservation_timer p) (console_cmd_size p)
    (console_resp_size p) (hwaddr p) (device p) (software p) (processor p) (datalink p)
    (bufsize p) (unknown p).
Definition set_boot (v : bool) (p : t) : t :=
  mk (code p) (receipt p) (loop p) (dump p) (ploader p) (sloader p) v (carrier p) (counters p)
    (carrier_reserved p) (version p) (console_user p) (reservation_timer p) (console_cmd_size p)
    (console_resp_size p) (hwaddr p) (device p) (software p) (processor p) (datalink p)
    (bufsize p) (unknown p).
Definition set_carrier (v : bool) (p : t) : t :=
  mk (code p) (receipt p) (loop p) (dump p) (ploader p) (sloader p) (boot p) v (counters p)
    (carrier_reserved p) (version p) (console_user p) (reservation_timer p) (console_cmd_size p)
    (console_resp_size p) (hwaddr p) (device p) (software p) (processor p) (datalink p)
    (bufsize p) (unknown p).
Definition set_counters (v : bool) (p : t) : t :=
  mk (code p) (receipt p) (loop p) (dump p) (ploader p) (sloader p) (boot p) (carrier p) v
    (carrier_reserved p) (version p) (console_user p) (reservation_timer p) (console_cmd_size p)
    (console_resp_size p) (hwaddr p) (device p) (software p) (processor p) (datalink p)
    (bufsize p) (unknown p).
Definition set_carrier_reserved (v : bool) (p : t) : t :=
  mk (code p) (receipt p) (loop p) (dump p) (ploader p) (sloader p) (boot p) (carrier p)
    (counters p) v (version p) (console_user p) (reservation_timer p) (console_cmd_size p)
    (console_resp_size p) (hwaddr p) (device p) (software p) (processor p) (datalink p)
    (bufsize p) (unknown p).
Definition set_version (v : option Version) (p : t) : t :=
  mk (code p) (receipt p) (loop p) (dump p) (ploader p) (sloader p) (boot p) (carrier p)
    (counters p) (carrier_reserved p) v (console_user p) (reservation_timer p)
    (console_cmd_size p) (console_resp_size p) (hwaddr p) (device p) (software p) (processor p)
    (datalink p) (bufsize p) (unknown p).
Definition set_console_user (v : option Bytes) (p : t) : t :=
  mk (code p) (receipt p) (loop p) (dump p) (ploader p) (sloader p) (boot p) (carrier p)
    (counters p) (carrier_reserved p) (version p) v (reservation_timer p) (console_cmd_size p)
    (console_resp_size p) (hwaddr p) (device p) (software p) (processor p) (datalink p)
    (bufsize p) (unknown p).
Definition set_reservation_timer (v : option Z) (p : t) : t :=
  mk (code p) (receipt p) (loop p) (dump p) (ploader p) (sloader p) (boot p) (carrier p)
    (counters p) (carrier_reserved p) (version p) (console_user p) v (console_cmd_size p)
    (console_resp_size p) (hwaddr p) (device p) (software p) (processor p) (datalink p)
    (bufsize p) (unknown p).
Definition set_console_cmd_size (v : option Z) (p : t) : t :=
  mk (code p) (receipt p) (loop p) (dump p) (ploader p) (sloader p) (boot p) (carrier p)
    (counters p) (carrier_reserved p) (version p) (console_user p) (reservation_timer p) v
    (console_resp_size p) (hwaddr p) (device p) (software p) (processor p) (datalink p)
    (bufsize p) (unknown p).
Definition set_console_resp_size (v : option Z) (p : t) : t :=
  mk (code p) (receipt p) (loop p) (dump p) (ploader p) (sloader p) (boot p) (carrier p)
    (counters p) (carrier_reserved p) (version p) (console_user p) (reservation_timer p)
    (console_cmd_size p) v (hwaddr p) (device p) (software p) (processor p) (datalink p)
    (bufsize p) (unknown p).
Definition set_hwaddr (v : option Bytes) (p : t) : t :=
  mk (code p) (receipt p) (loop p) (dump p) (ploader p) (sloader p) (boot p) (carrier p)
    (counters p) (carrier_reserved p) (version p) (console_user p) (reservation_timer p)
    (console_cmd_size p) (console_resp_size p) v (device p) (software p) (processor p)
    (datalink p) (bufsize p) (unknown p).
Definition set_device (v : option Z) (p : t) : t :=
  mk (code p) (receipt p) (loop p) (dump p) (ploader p) (sloader p) (boot p) (carrier p)
    (counters p) (carrier_reserved p) (version p) (console_user p) (reservation_timer p)
    (console_cmd_size p) (console_resp_size p) (hwaddr p) v (software p) (processor p)
    (datalink p) (bufsize p) (unknown p).
Definition set_software (v : option SoftwareId) (p : t) : t :=
  mk (code p) (receipt p) (loop p) (dump p) (ploader p) (sloader p) (boot p) (carrier p)
    (counters p) (carrier_reserved p) (version p) (console_user p) (reservation_timer p)
    (console_cmd_size p) (console_resp_size p) (hwaddr p) (device p) v (processor p)
    (datalink p) (bufsize p) (unknown p).
Definition set_processor (v : option Z) (p : t) : t :=
  mk (code p) (receipt p) (loop p) (dump p) (ploader p) (sloader p) (boot p) (carrier p)
    (counters p) (carrier_reserved p) (version p) (console_user p) (reservation_timer p)
    (console_cmd_size p) (console_resp_size p) (hwaddr p) (device p) (software p) v (datalink p)
    (bufsize p) (unknown p).
Definition set_datalink (v : option Z) (p : t) : t :=
  mk (code p) (receipt p) (loop p) (dump p) (ploader p) (sloader p) (boot p) (carrier p)
    (counters p) (carrier_reserved p) (version p) (console_user p) (reservation_timer p)
    (console_cmd_size p) (console_resp_size p) (hwaddr p) (device p) (software p) (processor p)
    v (bufsize p) (unknown p).
Definition set_bufsize (v : option Z) (p : t) : t :=
  mk (code p) (receipt p) (loop p) (dump p) (ploader p) (sloader p) (boot p) (carrier p)
    (counters p) (carrier_reserved p) (version p) (console_user p) (reservation_timer p)
    (console_cmd_size p) (console_resp_size p) (hwaddr p) (device p) (software p) (processor p)
    (datalink p) v (unknown p).
Definition set_unknown (v : gmap Z Bytes) (p : t) : t :=
  mk (code p) (receipt p) (loop p) (dump p) (ploader p) (sloader p) (boot p) (carrier p)
    (counters p) (carrier_reserved p) (version p) (console_user p) (reservation_timer p)
    (console_cmd_size p) (console_resp_size p) (hwaddr p) (device p) (software p) (processor p)
    (datalink p) (bufsize p) v.
Definition new : t := mk SYSTEM_ID 0 false false false false false false false false None None None None None None None None None None None ∅.
Definition policy : Extra := reject.
(** The services, and the items by tag. *)
Definition services_bits : list (bmbit t) :=
  [bmf (λ p, of_bool (loop p)) (λ v, set_loop (to_bool v)) 0 1;
   bmf (λ p, of_bool (dump p)) (λ v, set_dump (to_bool v)) 1 1;
   bmf (λ p, of_bool (ploader p)) (λ v, set_ploader (to_bool v)) 2 1;
   bmf (λ p, of_bool (sloader p)) (λ v, set_sloader (to_bool v)) 3 1;
   bmf (λ p, of_bool (boot p)) (λ v, set_boot (to_bool v)) 4 1;
   bmf (λ p, of_bool (carrier p)) (λ v, set_carrier (to_bool v)) 5 1;
   bmf (λ p, of_bool (counters p)) (λ v, set_counters (to_bool v)) 6 1;
   bmf (λ p, of_bool (carrier_reserved p)) (λ v, set_carrier_reserved (to_bool v)) 7 1].
Definition items : list (tlv_item t) :=
  [tlvf 1 (VersionField) version set_version;
   tlvg 2 (bm services_bits);
   tlvf 3 (BV 6) console_user set_console_user;
   tlvf 4 (B 2) reservation_timer set_reservation_timer;
   tlvf 5 (B 2) console_cmd_size set_console_cmd_size;
   tlvf 6 (B 2) console_resp_size set_console_resp_size;
   tlvf 7 (BV 6) hwaddr set_hwaddr;
   tlvf 100 (B 1) device set_device;
   tlvf 200 (SoftwareIdField) software set_software;
   tlvf 300 (B 1) processor set_processor;
   tlvf 400 (B 1) datalink set_datalink;
   tlvf 401 (B 2) bufsize set_bufsize].
Definition layout : list (row t) :=
  [field (B 1) code set_code; reserved 1; field (B 2) receipt set_receipt;
   tlv 2 1 true (Some (unknown, set_unknown)) items].
(** [services ()]: the names of what the node offers. *)
Definition services (s : t) : list string :=
  List.concat (zip_with (λ (b : bool) n, if b then [n] else [])
    [loop s; dump s; ploader s; sloader s; boot s; carrier s; counters s]
    ["loop"; "dump"; "primary loader"; "secondary loader"; "boot"; "console carrier"; "counters"]%string).
End SysId.
Module RequestId.
Record t := mk {
  code : Z;
  receipt : Z;
}.
Definition set_code (v : Z) (p : t) : t :=
  mk v (receipt p).
Definition set_receipt (v : Z) (p : t) : t :=
  mk (code p) v.
Definition new : t := mk REQUEST_ID 0.
Definition policy : Extra := reject.
Definition layout : list (row t) :=
  [field (B 1) code set_code; reserved 1; field (B 2) receipt set_receipt].
End RequestId.
Module RequestCounters.
Record t := mk {
  code : Z;
  receipt : Z;
}.
Definition set_code (v : Z) (p : t) : t :=
  mk v (receipt p).
Definition set_receipt (v : Z) (p : t) : t :=
  mk (code p) v.
Definition new : t := mk REQUEST_COUNTERS 0.
Definition policy : Extra := reject.
Definition layout : list (row t) :=
  [field (B 1) code set_code; field (B 2) receipt set_receipt].
End RequestCounters.
Module Counters.
Record t := mk {
  code : Z;
  receipt : Z;
  time_since_zeroed : Z;
  bytes_recv : Z;
  bytes_sent : Z;
  pkts_recv : Z;
  pkts_sent : Z;
  mcbytes_recv : Z;
  mcpkts_recv : Z;
  pkts_deferred : Z;
  pkts_1_collision : Z;
  pkts_mult_collision : Z;
  send_fail : Z;
  send_reasons : Z;
  recv_fail : Z;
  recv_reasons : Z;
  unk_dest : Z;
  data_overrun : Z;
  no_sys_buf : Z;
  no_user_buf : Z;
}.
Definition set_code (v : Z) (p : t) : t :=
  mk v (receipt p) (time_since_zeroed p) (bytes_recv p) (bytes_sent p) (pkts_recv p)
    (pkts_sent p) (mcbytes_recv p) (mcpkts_recv p) (pkts_deferred p) (pkts_1_collision p)
    (pkts_mult_collision p) (send_fail p) (send_reasons p) (recv_fail p) (recv_reasons p)
    (unk_dest p) (data_overrun p) (no_sys_buf p) (no_user_buf p).
Definition set_receipt (v : Z) (p : t) : t :=
  mk (code p) v (time_since_zeroed p) (bytes_recv p) (bytes_sent p) (pkts_recv p) (pkts_sent p)
    (mcbytes_recv p) (mcpkts_recv p) (pkts_deferred p) (pkts_1_collision p)
    (pkts_mult_collision p) (send_fail p) (send_reasons p) (recv_fail p) (recv_reasons p)
    (unk_dest p) (data_overrun p) (no_sys_buf p) (no_user_buf p).
Definition set_time_since_zeroed (v : Z) (p : t) : t :=
  mk (code p) (receipt p) v (bytes_recv p) (bytes_sent p) (pkts_recv p) (pkts_sent p)
    (mcbytes_recv p) (mcpkts_recv p) (pkts_deferred p) (pkts_1_collision p)
    (pkts_mult_collision p) (send_fail p) (send_reasons p) (recv_fail p) (recv_reasons p)
    (unk_dest p) (data_overrun p) (no_sys_buf p) (no_user_buf p).
Definition set_bytes_recv (v : Z) (p : t) : t :=
  mk (code p) (receipt p) (time_since_zeroed p) v (bytes_sent p) (pkts_recv p) (pkts_sent p)
    (mcbytes_recv p) (mcpkts_recv p) (pkts_deferred p) (pkts_1_collision p)
    (pkts_mult_collision p) (send_fail p) (send_reasons p) (recv_fail p) (recv_reasons p)
    (unk_dest p) (data_overrun p) (no_sys_buf p) (no_user_buf p).
Definition set_bytes_sent (v : Z) (p : t) : t :=
  mk (code p) (receipt p) (time_since_zeroed p) (bytes_recv p) v (pkts_recv p) (pkts_sent p)
    (mcbytes_recv p) (mcpkts_recv p) (pkts_deferred p) (pkts_1_collision p)
    (pkts_mult_collision p) (send_fail p) (send_reasons p) (recv_fail p) (recv_reasons p)
    (unk_dest p) (data_overrun p) (no_sys_buf p) (no_user_buf p).
Definition set_pkts_recv (v : Z) (p : t) : t :=
  mk (code p) (receipt p) (time_since_zeroed p) (bytes_recv p) (bytes_sent p) v (pkts_sent p)
    (mcbytes_recv p) (mcpkts_recv p) (pkts_deferred p) (pkts_1_collision p)
    (pkts_mult_collision p) (send_fail p) (send_reasons p) (recv_fail p) (recv_reasons p)
    (unk_dest p) (data_overrun p) (no_sys_buf p) (no_user_buf p).
Definition set_pkts_sent (v : Z) (p : t) : t :=
  mk (code p) (receipt p) (time_since_zeroed p) (bytes_recv p) (bytes_sent p) (pkts_recv p) v
    (mcbytes_recv p) (mcpkts_recv p) (pkts_deferred p) (pkts_1_collision p)
    (pkts_mult_collision p) (send_fail p) (send_reasons p) (recv_fail p) (recv_reasons p)
    (unk_dest p) (data_overrun p) (no_sys_buf p) (no_user_buf p).
Definition set_mcbytes_recv (v : Z) (p : t) : t :=
  mk (code p) (receipt p) (time_since_zeroed p) (bytes_recv p) (bytes_sent p) (pkts_recv p)
    (pkts_sent p) v (mcpkts_recv p) (pkts_deferred p) (pkts_1_collision p)
    (pkts_mult_collision p) (send_fail p) (send_reasons p) (recv_fail p) (recv_reasons p)
    (unk_dest p) (data_overrun p) (no_sys_buf p) (no_user_buf p).
Definition set_mcpkts_recv (v : Z) (p : t) : t :=
  mk (code p) (receipt p) (time_since_zeroed p) (bytes_recv p) (bytes_sent p) (pkts_recv p)
    (pkts_sent p) (mcbytes_recv p) v (pkts_deferred p) (pkts_1_collision p)
    (pkts_mult_collision p) (send_fail p) (send_reasons p) (recv_fail p) (recv_reasons p)
    (unk_dest p) (data_overrun p) (no_sys_buf p) (no_user_buf p).
Definition set_pkts_deferred (v : Z) (p : t) : t :=
  mk (code p) (receipt p) (time_since_zeroed p) (bytes_recv p) (bytes_sent p) (pkts_recv p)
    (pkts_sent p) (mcbytes_recv p) (mcpkts_recv p) v (pkts_1_collision p)
    (pkts_mult_collision p) (send_fail p) (send_reasons p) (recv_fail p) (recv_reasons p)
    (unk_dest p) (data_overrun p) (no_sys_buf p) (no_user_buf p).
Definition set_pkts_1_collision (v : Z) (p : t) : t :=
  mk (code p) (receipt p) (time_since_zeroed p) (bytes_recv p) (bytes_sent p) (pkts_recv p)
    (pkts_sent p) (mcbytes_recv p) (mcpkts_recv p) (pkts_deferred p) v (pkts_mult_collision p)
    (send_fail p) (send_reasons p) (recv_fail p) (recv_reasons p) (unk_dest p) (data_overrun p)
    (no_sys_buf p) (no_user_buf p).
Definition set_pkts_mult_collision (v : Z) (p : t) : t :=
  mk (code p) (receipt p) (time_since_zeroed p) (bytes_recv p) (bytes_sent p) (pkts_recv p)
    (pkts_sent p) (mcbytes_recv p) (mcpkts_recv p) (pkts_deferred p) (pkts_1_collision p) v
    (send_fail p) (send_reasons p) (recv_fail p) (recv_reasons p) (unk_dest p) (data_overrun p)
    (no_sys_buf p) (no_user_buf p).
Definition set_send_fail (v : Z) (p : t) : t :=
  mk (code p) (receipt p) (time_since_zeroed p) (bytes_recv p) (bytes_sent p) (pkts_recv p)
    (pkts_sent p) (mcbytes_recv p) (mcpkts_recv p) (pkts_deferred p) (pkts_1_collision p)
    (pkts_mult_collision p) v (send_reasons p) (recv_fail p) (recv_reasons p) (unk_dest p)
    (data_overrun p) (no_sys_buf p) (no_user_buf p).
Definition set_send_reasons (v : Z) (p : t) : t :=
  mk (code p) (receipt p) (time_since_zeroed p) (bytes_recv p) (bytes_sent p) (pkts_recv p)
    (pkts_sent p) (mcbytes_recv p) (mcpkts_recv p) (pkts_deferred p) (pkts_1_collision p)
    (pkts_mult_collision p) (send_fail p) v (recv_fail p) (recv_reasons p) (unk_dest p)
    (data_overrun p) (no_sys_buf p) (no_user_buf p).
Definition set_recv_fail (v : Z) (p : t) : t :=
  mk (code p) (receipt p) (time_since_zeroed p) (bytes_recv p) (bytes_sent p) (pkts_recv p)
    (pkts_sent p) (mcbytes_recv p) (mcpkts_recv p) (pkts_deferred p) (pkts_1_collision p)
    (pkts_mult_collision p) (send_fail p) (send_reasons p) v (recv_reasons p) (unk_dest p)
    (data_overrun p) (no_sys_buf p) (no_user_buf p).
Definition set_recv_reasons (v : Z) (p : t) : t :=
  mk (code p) (receipt p) (time_since_zeroed p) (bytes_recv p) (bytes_sent p) (pkts_recv p)
    (pkts_sent p) (mcbytes_recv p) (mcpkts_recv p) (pkts_deferred p) (pkts_1_collision p)
    (pkts_mult_collision p) (send_fail p) (send_reasons p) (recv_fail p) v (unk_dest p)
    (data_overrun p) (no_sys_buf p) (no_user_buf p).
Definition set_unk_dest (v : Z) (p : t) : t :=
  mk (code p) (receipt p) (time_since_zeroed p) (bytes_recv p) (bytes_sent p) (pkts_recv p)
    (pkts_sent p) (mcbytes_recv p) (mcpkts_recv p) (pkts_deferred p) (pkts_1_collision p)
    (pkts_mult_collision p) (send_fail p) (send_reasons p) (recv_fail p) (recv_reasons p) v
    (data_overrun p) (no_sys_buf p) (no_user_buf p).
Definition set_data_overrun (v : Z) (p : t) : t :=
  mk (code p) (receipt p) (time_since_zeroed p) (bytes_recv p) (bytes_sent p) (pkts_recv p)
    (pkts_sent p) (mcbytes_recv p) (mcpkts_recv p) (pkts_deferred p) (pkts_1_collision p)
    (pkts_mult_collision p) (send_fail p) (send_reasons p) (recv_fail p) (recv_reasons p)
    (unk_dest p) v (no_sys_buf p) (no_user_buf p).
Definition set_no_sys_buf (v : Z) (p : t) : t :=
  mk (code p) (receipt p) (time_since_zeroed p) (bytes_recv p) (bytes_sent p) (pkts_recv p)
    (pkts_sent p) (mcbytes_recv p) (mcpkts_recv p) (pkts_deferred p) (pkts_1_collision p)
    (pkts_mult_collision p) (send_fail p) (send_reasons p) (recv_fail p) (recv_reasons p)
    (unk_dest p) (data_overrun p) v (no_user_buf p).
Definition set_no_user_buf (v : Z) (p : t) : t :=
  mk (code p) (receipt p) (time_since_zeroed p) (bytes_recv p) (bytes_sent p) (pkts_recv p)
    (pkts_sent p) (mcbytes_recv p) (mcpkts_recv p) (pkts_deferred p) (pkts_1_collision p)
    (pkts_mult_collision p) (send_fail p) (send_reasons p) (recv_fail p) (recv_reasons p)
    (unk_dest p) (data_overrun p) (no_sys_buf p) v.
Definition new : t := mk COUNTERS 0 0 0 0 0 0 0 0 0 0 0 0 0 0 0 0 0 0 0.
Definition policy : Extra := reject.
Definition layout : list (row t) :=
  [field (B 1) code set_code;
   field (B 2) receipt set_receipt;
   field (B 2) time_since_zeroed set_time_since_zeroed;
   field (B 4) bytes_recv set_bytes_recv;
   field (B 4) bytes_sent set_bytes_sent;
   field (B 4) pkts_recv set_pkts_recv;
   field (B 4) pkts_sent set_pkts_sent;
   field (B 4) mcbytes_recv set_mcbytes_recv;
   field (B 4) mcpkts_recv set_mcpkts_recv;
   field (B 4) pkts_deferred set_pkts_deferred;
   field (B 4) pkts_1_collision set_pkts_1_collision;
   field (B 4) pkts_mult_collision set_pkts_mult_collision;
   field (B 2) send_fail set_send_fail;
   field (B 2) send_reasons set_send_reasons;
   field (B 2) recv_fail set_recv_fail;
   field (B 2) recv_reasons set_recv_reasons;
   field (B 2) unk_dest set_unk_dest;
   field (B 2) data_overrun set_data_overrun;
   field (B 2) no_sys_buf set_no_sys_buf;
   field (B 2) no_user_buf set_no_user_buf].
Definition counts_ok (p : t) : Prop :=
  fits 2 (receipt p) ∧ fits 2 (time_since_zeroed p) ∧ fits 4 (bytes_recv p) ∧ fits 4 (bytes_sent p) ∧ fits 4 (pkts_recv p) ∧ fits 4 (pkts_sent p) ∧ fits 4 (mcbytes_recv p) ∧ fits 4 (mcpkts_recv p) ∧ fits 4 (pkts_deferred p) ∧ fits 4 (pkts_1_collision p) ∧
  fits 4 (pkts_mult_collision p) ∧ fits 2 (send_fail p) ∧ fits 2 (send_reasons p) ∧ fits 2 (recv_fail p) ∧ fits 2 (recv_reasons p) ∧ fits 2 (unk_dest p) ∧ fits 2 (data_overrun p) ∧ fits 2 (no_sys_buf p) ∧ fits 2 (no_user_buf p).
End Counters.
Module ConsoleRequest.
Record t := mk {
  code : Z;
  verification : Bytes;
}.
Definition set_code (v : Z) (p : t) : t :=
  mk v (verification p).
Definition set_verification (v : Bytes) (p : t) : t :=
  mk (code p) v.
Definition new : t := mk CONSOLE_REQUEST [].
Definition policy : Extra := reject.
Definition layout : list (row t) :=
  [field (B 1) code set_code; field (BV 8) verification set_verification].
End ConsoleRequest.
Module ConsoleRelease.
Record t := mk {
  code : Z;
}.
Definition set_code (v : Z) (p : t) : t :=
  mk v.
Definition new : t := mk CONSOLE_RELEASE.
Definition policy : Extra := reject.
Definition layout : list (row t) :=
  [field (B 1) code set_code].
End ConsoleRelease.
Module ConsoleCommand.
Record t := mk {
  code : Z;
  seq : bool;
  brk : bool;
  payload : Bytes;
}.
Definition set_code (v : Z) (p : t) : t :=
  mk v (seq p) (brk p) (payload p).
Definition set_seq (v : bool) (p : t) : t :=
  mk (code p) v (brk p) (payload p).
Definition set_brk (v : bool) (p : t) : t :=
  mk (code p) (seq p) v (payload p).
Definition set_payload (v : Bytes) (p : t) : t :=
  mk (code p) (seq p) (brk p) v.
Definition new : t := mk CONSOLE_COMMAND false false [].
Definition policy : Extra := allow.
Definition layout : list (row t) :=
  [field (B 1) code set_code;
   bm [bmf (λ p, of_bool (seq p)) (λ v, set_seq (to_bool v)) 0 1; bmf (λ p, of_bool (brk p)) (λ v, set_brk (to_bool v)) 1 1];
   field Payload payload set_payload].
End ConsoleCommand.
Module ConsoleResponse.
Record t := mk {
  code : Z;
  seq : bool;
  cmd_lost : bool;
  resp_lost : bool;
  payload : Bytes;
}.
Definition set_code (v : Z) (p : t) : t :=
  mk v (seq p) (cmd_lost p) (resp_lost p) (payload p).
Definition set_seq (v : bool) (p : t) : t :=
  mk (code p) v (cmd_lost p) (resp_lost p) (payload p).
Definition set_cmd_lost (v : bool) (p : t) : t :=
  mk (code p) (seq p) v (resp_lost p) (payload p).
Definition set_resp_lost (v : bool) (p : t) : t :=
  mk (code p) (seq p) (cmd_lost p) v (payload p).
Definition set_payload (v : Bytes) (p : t) : t :=
  mk (code p) (seq p) (cmd_lost p) (resp_lost p) v.
Definition new : t := mk CONSOLE_RESPONSE false false false [].
Definition policy : Extra := allow.
Definition layout : list (row t) :=
  [field (B 1) code set_code;
   bm [bmf (λ p, of_bool (seq p)) (λ v, set_seq (to_bool v)) 0 1;
       bmf (λ p, of_bool (cmd_lost p)) (λ v, set_cmd_lost (to_bool v)) 1 1;
       bmf (λ p, of_bool (resp_lost p)) (λ v, set_resp_lost (to_bool v)) 2 1];
   field Payload payload set_payload].
End ConsoleResponse.

(** ** Loopback: a skip count, then functions *)

Module LoopSkip.
Record t := mk {
  skip : Z;
  payload : Bytes;
}.
Definition set_skip (v : Z) (p : t) : t :=
  mk v (payload p).
Definition set_payload (v : Bytes) (p : t) : t :=
  mk (skip p) v.
Definition new : t := mk 0 [].
Definition policy : Extra := allow.
Definition layout : list (row t) :=
  [field (B 2) skip set_skip; field Payload payload set_payload].
End LoopSkip.
Module LoopFwd.
Record t := mk {
  function : Z;
  dest : Bytes;
  payload : Bytes;
}.
Definition set_function (v : Z) (p : t) : t :=
  mk v (dest p) (payload p).
Definition set_dest (v : Bytes) (p : t) : t :=
  mk (function p) v (payload p).
Definition set_payload (v : Bytes) (p : t) : t :=
  mk (function p) (dest p) v.
Definition new : t := mk 2 [] [].
Definition policy : Extra := allow.
Definition layout : list (row t) :=
  [field (B 2) function set_function; field (BV 6) dest set_dest; field Payload payload set_payload].
End LoopFwd.
Module LoopReply.
Record t := mk {
  function : Z;
  receipt : Z;
  payload : Bytes;
}.
Definition set_function (v : Z) (p : t) : t :=
  mk v (receipt p) (payload p).
Definition set_receipt (v : Z) (p : t) : t :=
  mk (function p) v (payload p).
Definition set_payload (v : Bytes) (p : t) : t :=
  mk (function p) (receipt p) v.
Definition new : t := mk 1 0 [].
Definition policy : Extra := allow.
Definition layout : list (row t) :=
  [field (B 2) function set_function; field (B 2) receipt set_receipt; field Payload payload set_payload].
End LoopReply.

(** ** The family *)

Inductive MopPacket :=
| PSysId (p : SysId.t)
| PRequestId (p : RequestId.t)
| PRequestCounters (p : RequestCounters.t)
| PCounters (p : Counters.t)
| PConsoleRequest (p : ConsoleRequest.t)
| PConsoleRelease (p : ConsoleRelease.t)
| PConsoleCommand (p : ConsoleCommand.t)
| PConsoleResponse (p : ConsoleResponse.t).
Inductive MopClass :=
| CSysId | CRequestId | CRequestCounters | CCounters | CConsoleRequest | CConsoleRelease | CConsoleCommand | CConsoleResponse.
Definition encode_packet (p : MopPacket) : result Bytes :=
  match p with
  | PSysId p => encode_rows SysId.layout p
  | PRequestId p => encode_rows RequestId.layout p
  | PRequestCounters p => encode_rows RequestCounters.layout p
  | PCounters p => encode_rows Counters.layout p
  | PConsoleRequest p => encode_rows ConsoleRequest.layout p
  | PConsoleRelease p => encode_rows ConsoleRelease.layout p
  | PConsoleCommand p => encode_rows ConsoleCommand.layout p
  | PConsoleResponse p => encode_rows ConsoleResponse.layout p
  end.
(** [make ()] and [decode_into (buf)] of the class. *)
Definition decode_into (c : MopClass) (buf : Bytes) : result MopPacket :=
  match c with
  | CSysId => '(p, _) ← packet_decode SysId.policy SysId.layout SysId.new buf; Ok (PSysId p)
  | CRequestId => '(p, _) ← packet_decode RequestId.policy RequestId.layout RequestId.new buf; Ok (PRequestId p)
  | CRequestCounters => '(p, _) ← packet_decode RequestCounters.policy RequestCounters.layout RequestCounters.new buf; Ok (PRequestCounters p)
  | CCounters => '(p, _) ← packet_decode Counters.policy Counters.layout Counters.new buf; Ok (PCounters p)
  | CConsoleRequest => '(p, _) ← packet_decode ConsoleRequest.policy ConsoleRequest.layout ConsoleRequest.new buf; Ok (PConsoleRequest p)
  | CConsoleRelease => '(p, _) ← packet_decode ConsoleRelease.policy ConsoleRelease.layout ConsoleRelease.new buf; Ok (PConsoleRelease p)
  | CConsoleCommand => '(p, _) ← packet_decode ConsoleCommand.policy ConsoleCommand.layout ConsoleCommand.new buf; Ok (PConsoleCommand p)
  | CConsoleResponse => '(p, _) ← packet_decode ConsoleResponse.policy ConsoleResponse.layout ConsoleResponse.new buf; Ok (PConsoleResponse p)
  end.
Definition raw_index : index MopClass := empty_index (λ b, require_byte b 0) 256.
Definition register_mop_packets : result (index MopClass) :=
  i ← add REQUEST_ID (Concrete CRequestId) raw_index;
  i ← add SYSTEM_ID (Concrete CSysId) i;
  i ← add REQUEST_COUNTERS (Concrete CRequestCounters) i;
  i ← add COUNTERS (Concrete CCounters) i;
  i ← add CONSOLE_REQUEST (Concrete CConsoleRequest) i;
  i ← add CONSOLE_RELEASE (Concrete CConsoleRelease) i;
  i ← add CONSOLE_COMMAND (Concrete CConsoleCommand) i;
  add CONSOLE_RESPONSE (Concrete CConsoleResponse) i.
Definition mop_index : index MopClass :=
  match register_mop_packets with Ok i => i | Throw _ => raw_index end.
(** [MopPacketBase::parse_frame]. *)
Definition parse_frame (b : Bytes) : option MopPacket := try_parse_indexed mop_index decode_into b.

(** ** Codecs of the items *)

Definition software_ok (v : SoftwareId) : Prop :=
  if is_code v then -2 ≤ sw_code v ≤ 0 ∧ sw_text v = [] else sw_code v = 0 ∧ 1 ≤ len (sw_text v) ≤ 127.
#[export] Instance software_codec : CodecOk SoftwareIdField software_ok.
Proof.
  intros [[|] c s] H; unfold software_ok in H; cbn in H; unfold SoftwareIdField; cbn [c_encode c_decode is_code sw_code sw_text].
  - destruct H as [Hc ->]. rewrite (proj2 (Z.ltb_ge _ _)), (proj2 (Z.ltb_ge 0 c)) by lia. cbn [orb].
    eexists. split; [done|]. split; [apply bytes_ok_cons; split; [apply u8_range|constructor]|]. intros rest.
    unfold Encoder.byte. cbn [app]. rewrite byte_app. cbn [mbind result_bind].
    assert (c = 0 ∨ c = -1 ∨ c = -2) as [->|[->| ->]] by lia; reflexivity.
  - destruct H as [-> Hs]. rewrite (proj2 (Z.ltb_ge _ _)) by lia. unfold Encoder.byte. rewrite !u8_small by (rewrite ?u8_small; lia).
    eexists. split; [done|]. split.
    { apply bytes_ok_app. split; [apply bytes_ok_cons; split; [unfold byte_ok; lia|constructor]|apply as_bytes_ok]. }
    intros rest. unfold Encoder.byte, Encoder.raw. cbn [app]. rewrite byte_app. cbn [mbind result_bind].
    rewrite (proj2 (Z.ltb_lt _ _)), (proj2 (Z.leb_gt _ _)) by lia.
    replace (Z.to_nat (len s)) with (length (as_bytes s)) by (unfold as_bytes, len; rewrite length_map; lia).
    rewrite raw_app. cbn [mbind result_bind]. by rewrite of_as_bytes.
Qed.
Section Short.
Context (N : nat) (HN : Z.of_nat N < 256).
Lemma B_short : CodecShort 1 (B N) (fits N).
Proof.
  intros v b Hv. unfold B. cbn [c_encode]. destruct (_ && _); [done|]. intros [= <-].
  unfold len. rewrite uint_length. change (2 ^ (8 * Z.of_nat 1)) with 256. lia.
Qed.
Lemma BV_short : CodecShort 1 (BV N) (exactly N).
Proof.
  intros v b [Hv _]. unfold BV. cbn [c_encode]. destruct (_ <? _); [done|]. intros [= <-].
  unfold Encoder.raw, Encoder.zeros, len. rewrite length_app, length_replicate. change (2 ^ (8 * Z.of_nat 1)) with 256. lia.
Qed.
End Short.
Lemma version_short : CodecShort 1 VersionField Version_ok.
Proof. by intros v b _ [= <-]. Qed.
Lemma software_short : CodecShort 1 SoftwareIdField software_ok.
Proof.
  intros [[|] c s] b H; unfold software_ok in H; cbn in H; unfold SoftwareIdField; cbn [c_encode is_code sw_code sw_text].
  - destruct (_ || _); [done|]. by intros [= <-].
  - destruct (_ <? _); [done|]. intros [= <-]. unfold Encoder.byte, Encoder.raw, as_bytes, len in *. cbn [app length].
    rewrite length_map. change (2 ^ (8 * Z.of_nat 1)) with 256. lia.
Qed.

(** ** System IDs *)

Module SysIdLaws.
Import SysId.
Lemma items_found : Forall (λ i, tag_ok 2 (t_tag i) ∧ find (λ j, t_tag j =? t_tag i) items = Some i) items.
Proof. unfold items, tag_ok. repeat (apply Forall_cons; split; [split; [cbn; lia|reflexivity]|]). by apply Forall_nil. Qed.

(** What a reader that starts from [q] has of [p]. *)
Definition merge {A} (get : t → option A) (set : option A → t → t) (p q : t) : t :=
  match get p with Some v => set (Some v) q | None => q end.
Definition wf (p : t) : Prop :=
  from_option Version_ok True (version p) ∧ bm_wf services_bits p ∧ from_option (exactly 6) True (console_user p) ∧
  from_option (fits 2) True (reservation_timer p) ∧ from_option (fits 2) True (console_cmd_size p) ∧
  from_option (fits 2) True (console_resp_size p) ∧ from_option (exactly 6) True (hwaddr p) ∧
  from_option (fits 1) True (device p) ∧ from_option software_ok True (software p) ∧
  from_option (fits 1) True (processor p) ∧ from_option (fits 1) True (datalink p) ∧ from_option (fits 2) True (bufsize p) ∧ True.
Definition copy (p q : t) : t :=
  let q := merge version set_version p q in
  let q := bm_copy services_bits p q in
  let q := merge console_user set_console_user p q in
  let q := merge reservation_timer set_reservation_timer p q in
  let q := merge console_cmd_size set_console_cmd_size p q in
  let q := merge console_resp_size set_console_resp_size p q in
  let q := merge hwaddr set_hwaddr p q in
  let q := merge device set_device p q in
  let q := merge software set_software p q in
  let q := merge processor set_processor p q in
  let q := merge datalink set_datalink p q in
  merge bufsize set_bufsize p q.
Lemma services_short p b : bm_wf services_bits p → r_encode (bm services_bits) p = Ok b → len b < 2 ^ (8 * Z.of_nat 1).
Proof.
  intros H E. cbn [bm r_encode] in E. rewrite (bm_field_value 0) in E by done. cbn [mbind result_bind] in E. injection E as <-.
  unfold len. by rewrite uint_length.
Qed.
Lemma items_ok : TlvsOk 2 1 items wf copy.
Proof.
  assert (∀ A tag (c : codec A) cwf get set, CodecOk c cwf → CodecShort 1 c cwf →
    TlvOk 1 (tlvf tag c get set) (λ p, from_option cwf True (get p)) (merge get set)) as F by (intros; by apply tlvf_ok).
  assert (CodecShort 1 (B 1) (fits 1)) by by apply B_short. assert (CodecShort 1 (B 2) (fits 2)) by by apply B_short.
  assert (CodecShort 1 (BV 6) (exactly 6)) by by apply BV_short.
  assert (∃ wf' copy', TlvsOk 2 1 items wf' copy' ∧ (∀ p, wf p → wf' p) ∧ (∀ p q, copy' p q = copy p q)) as (wf' & copy' & H3 & Hw & Hc).
  { unfold items. eexists _, _. split; [|split].
    -
    refine (tlvs_cons 2 1 _ _ _ _ _ _ _ (F _ _ _ _ _ _ _ version_short) _); [lia|].
    refine (tlvs_cons 2 1 _ _ _ _ _ _ _ (tlvg_ok 1 _ _ _ _ (bm_row_ok services_bits eq_refl) services_short) _); [lia|].
    do 6 (refine (tlvs_cons 2 1 _ _ _ _ _ _ _ (F _ _ _ _ _ _ _ _) _); [lia|]).
    refine (tlvs_cons 2 1 _ _ _ _ _ _ _ (F _ _ _ _ _ _ _ software_short) _); [lia|].
    do 3 (refine (tlvs_cons 2 1 _ _ _ _ _ _ _ (F _ _ _ _ _ _ _ _) _); [lia|]). apply tlvs_nil.
    - intros p Hp. exact Hp.
    - intros p q. reflexivity. }
  intros p Hp. destruct (H3 p (Hw p Hp)) as (bs & E & Hb & D). exists bs. split; [done|]. split; [done|].
  intros. rewrite <-Hc. by apply D.
Qed.
Definition sysid_ok (s : t) : Prop := code s = SYSTEM_ID ∧ fits 2 (receipt s) ∧ wf s ∧ unknown_ok 2 1 items (unknown s).
Lemma services_wf p : bm_wf services_bits p.
Proof. unfold bm_wf, services_bits. repeat (apply Forall_cons; split; [apply of_bool_range|]). by apply Forall_nil. Qed.
Lemma merge_none {A} (get : t → option A) set p q : set None q = q → merge get set p q = set (get p) q.
Proof. intros H. unfold merge. by destruct (get p). Qed.
#[local] Opaque merge.
#[local] Ltac members :=
  cbv beta iota delta [code receipt loop dump ploader sloader boot carrier counters carrier_reserved version console_user reservation_timer
       console_cmd_size console_resp_size hwaddr device software processor datalink bufsize unknown
       set_code set_receipt set_loop set_dump set_ploader set_sloader set_boot set_carrier set_counters set_carrier_reserved
       set_version set_console_user set_reservation_timer set_console_cmd_size set_console_resp_size set_hwaddr set_device
       set_software set_processor set_datalink set_bufsize set_unknown].
#[local] Ltac merge_step :=
  match goal with |- context [merge ?g ?s ?p ?q] =>
    lazymatch q with merge _ _ _ _ => fail | bm_copy _ _ _ => fail | _ => rewrite (merge_none g s p q) by reflexivity; members end end.
(** A reader that starts from an empty message ends with the one sent. *)
Lemma copied p : set_unknown (unknown p ∪ ∅) (copy p (set_receipt (receipt p) (set_code (code p) new))) = p.
Proof.
  unfold copy, new. members. merge_step.
  unfold bm_copy, services_bits. cbn [foldl b_set b_get]. rewrite !to_of_bool. members.
  do 10 merge_step.
  rewrite (right_id_L ∅ (∪)). by destruct p.
Qed.
#[local] Transparent merge.
Lemma copy_unknown p q : unknown (copy p q) = unknown q.
Proof.
  unfold copy. cbv zeta.
  assert (∀ A get set (r : t), (∀ (v : option A) r, unknown (set v r) = unknown r) → unknown (merge get set p r) = unknown r) as F.
  { intros A get set r H. unfold merge. by destruct (get p). }
  rewrite !F by done. change (unknown (bm_copy services_bits p (merge version set_version p q))) with (unknown (merge version set_version p q)).
  by rewrite F.
Qed.
(** The whole message, whatever follows its items. *)
Lemma sysid_read p : sysid_ok p → ∃ bs, encode_rows layout p = Ok bs ∧ bytes_ok bs ∧
  ∀ rest, decode_rows layout new (bs ++ rest) = tlv_decode 2 1 true (Some (unknown, set_unknown)) items p rest.
Proof.
  intros (Hc & Hr & Hw & Hu).
  destruct (tlv_row_tail 2 1 ltac:(lia) true items unknown set_unknown ltac:(done) ltac:(by intros []) ltac:(done) wf copy
    items_ok items_found copy_unknown p Hw Hu) as (bs & E & Hb & D).
  set (header := [field (B 1) code set_code; reserved 1; field (B 2) receipt set_receipt]).
  eassert (PrefixOk [field (B 1) code set_code; reserved 1; field (B 2) receipt set_receipt] _ _) as Hp by apply _.
  destruct (Hp p) as (hs & Eh & Hh & Dh).
  { cbn beta. rewrite Hc. split_and!; try done; apply Hr. }
  exists (hs ++ bs). change layout with (header ++ [tlv 2 1 true (Some (unknown, set_unknown)) items]). split; [|split].
  - apply encode_rows_app; [done|]. cbn [encode_rows tlv r_encode]. rewrite E. cbn [mbind result_bind]. by rewrite app_nil_r.
  - by apply bytes_ok_app.
  - intros rest. rewrite <-app_assoc. rewrite (decode_rows_app _ _ _ _ _ _ (Dh new (bs ++ rest))). cbn [decode_rows tlv r_decode].
    cbv beta. rewrite D. rewrite copied. destruct (tlv_decode _ _ _ _ _ p rest) as [[q d]|]; done.
Qed.
End SysIdLaws.

(** ** The family *)

Definition packet_ok (p : MopPacket) : Prop :=
  match p with
  | PSysId p => SysIdLaws.sysid_ok p
  | PRequestId p => RequestId.code p = REQUEST_ID ∧ fits 2 (RequestId.receipt p)
  | PRequestCounters p => RequestCounters.code p = REQUEST_COUNTERS ∧ fits 2 (RequestCounters.receipt p)
  | PCounters p => Counters.code p = COUNTERS ∧ Counters.counts_ok p
  | PConsoleRequest p => ConsoleRequest.code p = CONSOLE_REQUEST ∧ exactly 8 (ConsoleRequest.verification p)
  | PConsoleRelease p => ConsoleRelease.code p = CONSOLE_RELEASE
  | PConsoleCommand p => ConsoleCommand.code p = CONSOLE_COMMAND ∧ bytes_ok (ConsoleCommand.payload p)
  | PConsoleResponse p => ConsoleResponse.code p = CONSOLE_RESPONSE ∧ bytes_ok (ConsoleResponse.payload p)
  end.


Lemma mop_create c f rest : class_at mop_index f = Ok c → create mop_index (f :: rest) = Ok c.
Proof. intros H. rewrite create_flat by reflexivity. exact H. Qed.
Lemma mop_back {P} (policy : Extra) (rows : list (row P)) (get : P → Z) set rows' (p new : P) c inj :
  rows = field (B 1) get set :: rows' → byte_ok (get p) → class_at mop_index (get p) = Ok c →
  (∀ buf, decode_into c buf = ('(p, _) ← packet_decode policy rows new buf; Ok (inj p))) →
  (∃ bs, encode_rows rows p = Ok bs ∧ bytes_ok bs ∧ decode_rows rows new bs = Ok (p, [])) →
  ∃ bs, encode_rows rows p = Ok bs ∧ bytes_ok bs ∧ parse_frame bs = Some (inj p).
Proof.
  intros Hr Hf Hc Hdec (bs & E & Hb & D). exists bs. split; [done|]. split; [done|].
  assert (∃ rest, bs = get p :: rest) as [rest ->] by (rewrite Hr in E; by eapply first_byte).
  unfold parse_frame, try_parse_indexed, parse_indexed. rewrite (mop_create c) by done. cbn [mbind result_bind].
  rewrite Hdec. unfold packet_decode. rewrite D. cbn. by destruct policy.
Qed.
#[local] Ltac by_rows := eapply mop_back; [reflexivity|done|reflexivity|reflexivity|]; eapply plain_rt; [apply _|cbn|try done].
Lemma plain_back p : packet_ok p → (∀ s, p ≠ PSysId s) →
  ∃ bs, encode_packet p = Ok bs ∧ bytes_ok bs ∧ parse_frame bs = Some p.
Proof.
  intros Hp Hs. destruct p as [p|p|p|p|p|p|p|p]; [by destruct (Hs p)|..]; clear Hs; destruct p; cbn in Hp; cbn [encode_packet].
  - destruct Hp as [-> Hr]. by_rows. by split_and!.
  - destruct Hp as [-> Hr]. by_rows. by split_and!.
  - destruct Hp as [-> Hr]. by_rows. unfold Counters.counts_ok in Hr. cbn in Hr. split; [done|]. tauto.
  - destruct Hp as [-> Hr]. by_rows. by split_and!.
  - subst. by_rows. by split_and!.
  - destruct Hp as [-> Hr]. by_rows; [split_and!; try done; bits_ok; apply of_bool_range|]. cbn. by rewrite !to_of_bool.
  - destruct Hp as [-> Hr]. by_rows; [split_and!; try done; bits_ok; apply of_bool_range|]. cbn. by rewrite !to_of_bool.
Qed.
Lemma sysid_back p : SysIdLaws.sysid_ok p → ∃ bs, encode_packet (PSysId p) = Ok bs ∧ bytes_ok bs ∧
  ∀ junk, junk = [] ∨ cut_short 2 1 junk = true → parse_frame (bs ++ junk) = Some (PSysId p).
Proof.
  intros Hp. destruct (SysIdLaws.sysid_read p Hp) as (bs & E & Hb & D). exists bs. split; [done|]. split; [done|].
  intros junk Hj. assert (∃ rest, bs = SYSTEM_ID :: rest) as [rest ->].
  { destruct Hp as [Hc _]. rewrite <-Hc. eapply first_byte; [by rewrite Hc|exact E]. }
  unfold parse_frame, try_parse_indexed, parse_indexed. cbn [app]. rewrite (mop_create CSysId) by reflexivity. cbn [mbind result_bind decode_into].
  unfold packet_decode. change (SYSTEM_ID :: rest ++ junk) with ((SYSTEM_ID :: rest) ++ junk). rewrite D.
  assert (tlv_decode 2 1 true (Some (SysId.unknown, SysId.set_unknown)) SysId.items p junk = Ok (p, [])) as ->; [|done].
  destruct Hj as [->|Hj]; [done|]. apply tlv_cut; [lia|done|done].
Qed.

(** MOP messages.  Every message of the console protocol -- system IDs with any of
    their optional items and items of unknown tags, requests, counters, the console
    carrier -- encodes, and its frame is parsed as the same message; and a system ID
    that is followed by the start of an item that is not all there, as padding that was
    counted in is, is parsed as if nothing followed. *)
Theorem mop_read_back (p : MopPacket) : packet_ok p →
  ∃ bs, encode_packet p = Ok bs ∧ bytes_ok bs ∧ parse_frame bs = Some p ∧
    match p with
    | PSysId _ => ∀ junk, cut_short 2 1 junk = true → parse_frame (bs ++ junk) = Some p
    | _ => True
    end.
Proof.
  intros Hp. assert (∀ q, p = q → (∀ s, q ≠ PSysId s) → ∃ bs, encode_packet q = Ok bs ∧ bytes_ok bs ∧ parse_frame bs = Some q ∧ True) as F.
  { intros q <- Hs. destruct (plain_back p Hp Hs) as (bs & E & Hb & D). by exists bs. }
  destruct p as [s|p|p|p|p|p|p|p]; [|by apply F..].
  - destruct (sysid_back s Hp) as (bs & E & Hb & D). exists bs. split; [done|]. split; [done|].
    split; [rewrite <-(app_nil_r bs); apply D; by left|]. intros junk Hj. apply D. by right.
Qed.
(** What a station announces, with the system time, which has no entry. *)
Definition example_sysid : SysId.t :=
  SysId.set_unknown {[8 := [60; 3; 4; 5]]} (SysId.set_software (Some (numbered (-2))) (SysId.set_bufsize (Some 1498)
    (SysId.set_hwaddr (Some [8; 0; 43; 1; 2; 3]) (SysId.set_loop true (SysId.set_counters true (SysId.set_version (Some (mkVersion 3 0 0)) SysId.new)))))).
Lemma mop_read_back_witness : ∃ bs, encode_packet (PSysId example_sysid) = Ok bs ∧ parse_frame (bs ++ [0; 0]) = Some (PSysId example_sysid).
Proof.
  destruct (mop_read_back (PSysId example_sysid)) as (bs & E & _ & _ & J).
  - split; [reflexivity|]. split; [done|]. split.
    + repeat split; try (apply (bool_decide_unpack _); vm_compute; exact Logic.I); apply SysIdLaws.services_wf.
    + intros k v Hk. change (({[8 := [60; 3; 4; 5]]} : gmap Z Bytes) !! k = Some v) in Hk. apply lookup_singleton_Some in Hk as [<- <-]. repeat split; try (cbn; lia); try (apply (bool_decide_unpack _); vm_compute; exact Logic.I).
  - exists bs. split; [exact E|]. apply J. reflexivity.
Defined.
