(* ===== verification/NiceReads.v ===== *)
(** What the layers add to a read of network management: [src/nsp/nice.cc],
    [src/datalink/nice.cc], [src/routing/nice.cc] and [src/mop/nice.cc].

    A layer is read as it stands: the records of the layers' own files, with the
    names that the circuits have and the readings of the clock, which those files leave
    out, beside them.  A reference to a reply of the dictionary, through which the code
    fills it in, is a function on that reply, as in [Nml]; the values that go into it
    are made first, since one that is too long ends the read. *)

From stdpp Require Import gmap sorting.
From S2P Require Import Prelude Types Float RoutingPackets RouteTable Adjacency Timers L1Router RouterTables Ptp Bc Lan Ddcmp Multinet.
From S2P Require Import Connection Nsp MopPackets Node NodeLaws.
From S2P Require Import NiceValue NiceParams NicePackets NiceLaws Nml NmlLaws.
#[local] Open Scope Z_scope.

(** ** Values, parameters and counters *)

(** [Value::du], [c] and [cm] where nothing can be wrong: byte counts between one and
    fifteen, and so many items at most. *)
Definition du (v n : Z) : Value := mkValue Kind.du n (PUint v).
Definition coded (v : Z) : Value := mkValue Kind.c 1 (PUint v).
Definition listed (l : list Value) : Value := mkValue Kind.cm (len l) (PList l).
Definition version_value (v : Version) : Value := listed [du (v1 v) 1; du (v2 v) 1; du (v3 v) 1].

(** [r.params.set (n, v)] and [set_counter]. *)
Definition put (n : Z) (v : Value) (r : NiceReply) : NiceReply := with_params (set n v (params r)) r.
Definition put_counter (n : Z) (k : Counter) (r : NiceReply) : NiceReply := with_params (set_counter n k (params r)) r.
Definition ctr (n v w : Z) : NiceReply → NiceReply := put_counter n (mkCounter v w false 0).
(** A mapped counter. *)
Definition ctm1 (n v m : Z) : NiceReply → NiceReply := put_counter n (mkCounter v 1 true m).

(** [ReqEntity::one], [is_loop], [is_adjacent] and [is_significant]. *)
Definition one (e : ReqEntity.t) : bool := 0 <=? ReqEntity.code e.
Definition is_loop (e : ReqEntity.t) : bool := ReqEntity.code e =? -3.
Definition is_adjacent (e : ReqEntity.t) : bool := ReqEntity.code e =? -4.
Definition is_significant (e : ReqEntity.t) : bool := ReqEntity.code e =? ReqEntity.significant.
(** [NiceRequest::stat]. *)
Definition stat (req : NiceRequest) : bool := info req =? 1.

(** A read is what it makes of the dictionary. *)
Definition reading : Type := ReplyDict → result ReplyDict.
Definition each {A} (f : A → reading) (l : list A) : reading := λ d, foldl (λ r x, d ← r; f x d) (Ok d) l.

(** ** NSP *)

Section NspRead.
Context (me : Z) (maxconns : Z) (n : nsp) (nodes : Nodes) (zeroed : Z → Z) (named_as : Z → NiceNode).

Definition links_to (i : Z) : Z := len (filter (λ c, dest (c_ctl c.2) = i) (map_to_list (by_addr n))).

(** [node_counters]; how long ago the counters were zeroed is a reading of the clock. *)
Definition node_counters (secs : Z) (c : NodeCounters) (r : NiceReply) : NiceReply :=
  ctr 640 (no_res_rcv c) 2 (ctr 630 (Node.timeout c) 2 (ctr 621 (con_xmt c) 2 (ctr 620 (con_rcv c) 2
  (ctr 611 (t_msg_xmt c) 4 (ctr 610 (t_msg_rcv c) 4 (ctr 609 (t_byt_xmt c) 4 (ctr 608 (t_byt_rcv c) 4
  (ctr 603 (msg_xmt c) 4 (ctr 602 (msg_rcv c) 4 (ctr 601 (byt_xmt c) 4 (ctr 600 (byt_rcv c) 4
  (ctr 0 secs 2 r)))))))))))).
(** [NSP::counters_for], which adds an entry for an address that has none: its
    counters, and the database after. *)
Definition counters_for (i : Z) : option NodeCounters * Nodes :=
  match find_id i true nodes with
  | (Some p, s) => (Node.counters <$> heap s !! p, s)
  | (None, s) => (None, s)
  end.

(** [NSP::read_node]. *)
Definition nsp_read_node (req : NiceRequest) (links i : Z) : reading := λ d,
  Ok (node_entry named_as i (λ r,
    if sumstat req then if links =? 0 then r else put 600 (du links 2) r
    else if NicePackets.counters req then
      match (counters_for i).1 with Some c => node_counters (zeroed i) c r | None => r end
    else if negb (chars req) then r
    else if negb (i =? me) then r
    else put 710 (du maxconns 2) (put 700 (version_value (mkVersion 4 1 0)) r)) d).

(** [Node::known_nodes]: the entries, by address. *)
Definition known_nodes : list (Z * Nodeinfo) :=
  merge_sort by_id (omap (λ kp, pair kp.1 <$> heap nodes !! kp.2) (map_to_list (by_id_ nodes))).

(** [NSP::nice_read], and the node database after it. *)
Definition nsp_nice_read (req : NiceRequest) : reading := λ d,
  let e := entity req in
  if negb (entity_type req =? Entity.node) then Ok d
  else if is_adjacent e then Ok d
  else if negb (ReqEntity.mult e) then nsp_read_node req (links_to (ReqEntity.id e)) (ReqEntity.id e) d
  else
    each (λ ki d,
      let i := ki.1 in
      let links := links_to i in
      if negb (ReqEntity.match_node i e) then Ok d
      else if ReqEntity.is_known e || (i =? me) then nsp_read_node req links i d
      else if is_loop e then Ok d
      else if negb (links =? 0) then nsp_read_node req links i d
      else if is_significant e && NicePackets.counters req && used (Node.counters ki.2) then nsp_read_node req links i d
      else Ok d) known_nodes d.
Definition nodes_after (req : NiceRequest) : Nodes :=
  let e := entity req in
  if (entity_type req =? Entity.node) && negb (is_adjacent e) && negb (ReqEntity.mult e) && negb (sumstat req) &&
     NicePackets.counters req
  then (counters_for (ReqEntity.id e)).2 else nodes.
End NspRead.

(** ** The datalink layer *)

(** A datalink of each family with what it counts; DDCMP has no protocol before it is
    opened. *)
Inductive line :=
| PtpLine (k : Multinet.counters)
| DdcmpLine (k : Multinet.counters) (p : option protocol)
| BcLine (b : BcDatalink).

Definition ctr4 (n v : Z) : NiceReply → NiceReply := ctr n v 4.
Definition datalink_counters (k : Multinet.counters) (r : NiceReply) : NiceReply :=
  ctr4 1011 (Multinet.pkts_sent k) (ctr4 1010 (Multinet.pkts_recv k)
  (ctr4 1001 (Multinet.bytes_sent k) (ctr4 1000 (Multinet.bytes_recv k) r))).
Definition ddcmp_counters (k : Ddcmp.Counters) (r : NiceReply) : NiceReply :=
  ctm1 1040 (remote_buffer_errors k) (remote_buffer_errors_map k) (ctr 1031 (local_reply_timeouts k) 1
  (ctr 1030 (remote_reply_timeouts k) 1 (ctm1 1021 (data_errors_outbound k) (data_errors_outbound_map k)
  (ctm1 1020 (data_errors_inbound k) (data_errors_inbound_map k) r)))).
Definition port_traffic (k : BcPortCounters) (r : NiceReply) : NiceReply :=
  ctr4 1012 (mcpkts_recv k) (ctr4 1011 (Bc.pkts_sent k) (ctr4 1010 (Bc.pkts_recv k)
  (ctr4 1002 (mcbytes_recv k) (ctr4 1001 (Bc.bytes_sent k) (ctr4 1000 (Bc.bytes_recv k) r))))).
(** [add_counters] of the three. *)
Definition add_counters (dl : line) (r : NiceReply) : NiceReply :=
  match dl with
  | PtpLine k => datalink_counters k r
  | DdcmpLine k p =>
      let r := datalink_counters k r in
      match p with Some p => ddcmp_counters (Ddcmp.counters p) r | None => r end
  | BcLine b => ctr 1063 (unk_dest b) 2 (port_traffic (combined_counters b) r)
  end.
(** [nice_type] and [nice_protocol]. *)
Definition nice_type (dl : line) : Z := match dl with BcLine _ => 6 | _ => 0 end.

(** [Port::nice_read_port] and [BcPort::nice_read_port]. *)
Definition read_port (dl : line) (req : NiceRequest) (r : NiceReply) : NiceReply :=
  if chars req then put 1112 (coded (nice_type dl)) r
  else if NicePackets.counters req then add_counters dl r else r.
Definition read_bc_port (p : BcPort) (req : NiceRequest) (r : NiceReply) : NiceReply :=
  if chars req then put 1112 (coded 6) r
  else if negb (NicePackets.counters req) then r else port_traffic (port_counters p) r.

Section LineRead.
Context (seconds : Z).                       (* since the node's counters were zeroed *)

(** [Datalink::nice_read_line], and [BcDatalink]'s. *)
Definition read_line (req : NiceRequest) (nl : text * line) : reading := λ d,
  let '(n, dl) := nl in
  let d := named_entry n (λ r,
    if sumstat req then put 0 (coded 0) r
    else if chars req then put 1112 (coded (nice_type dl)) (put 1111 (coded 0) r)
    else if NicePackets.counters req then add_counters dl (ctr 0 seconds 2 r) else r) d in
  match dl with
  | BcLine b => if negb (chars req) then Ok d else h ← make_hi (hwaddr b); Ok (named_entry n (put 1160 h) d)
  | _ => Ok d
  end.
(** [DatalinkLayer::nice_read]: the lines in the order of the configuration. *)
Definition datalink_nice_read (lines : list (text * line)) (req : NiceRequest) : reading := λ d,
  if negb (entity_type req =? Entity.line) then Ok d
  else if one (entity req) then
    match List.find (λ nl, bool_decide (nl.1 = ReqEntity.name (entity req))) lines with
    | Some nl => read_line req nl d
    | None => Ok d
    end
  else each (read_line req) lines d.
End LineRead.

(** ** The routing layer *)

(** The circuits, by the names they have, with their ports; a LAN circuit is that of an
    endnode or of a router.  What forwarding counts on a circuit and how long it has
    been up are beside them, by the number of the circuit. *)
Record ptp_circuit := mkPtp { pc_name : text; pc : Ptp.circuit; pc_port : option line }.
Record lan_circuit := mkLanCircuit {
  lc_name : text; lc : Lan.circuit Lan.endnode + Lan.circuit Lan.router; lc_port : option BcPort }.
(** An endnode has no table; [ptp_t1_] and [bc_t1_] are members of a router. *)
Inductive table := NoTable | Table (r : L1Router.router) (ptp_t1 bc_t1 : double).
Record routing_layer := mkRoutingLayer {
  rt_own : parent; rt_table : table; rt_ptp : list ptp_circuit; rt_lan : list lan_circuit;
  rt_traffic : Z → cctr → Z; rt_up : Z → Z }.

(** [nice_ntype]. *)
Definition nice_ntype (ntype rphase : Z) : Z :=
  if rphase =? 4 then ntype + 2 else if rphase =? 3 then if ntype =? ENDNODE then 1 else 0 else 2.
(** [node_value]. *)
Definition node_value (n : NiceNode) : result Value :=
  if bool_decide (name n = []) then Ok (listed [du (id n) 2]) else a ← make_ai (name n); Ok (listed [du (id n) 2; a]).

Definition lan_id (l : lan_circuit) : Z := match lc l with inl c => l_id (Lan.conf c) | inr c => l_id (Lan.conf c) end.

Section RoutingRead.
Context (rt : routing_layer) (seconds : Z) (named_as : Z → NiceNode) (named_node : Z → bool).

(** [a->circuit () ? a->circuit ()->name () : ""]. *)
Definition circuit_name (a : adjacency) : text :=
  match a_circuit a with
  | None => []
  | Some k =>
      match List.find (λ c, cf_id (Ptp.conf (pc c)) =? k) (rt_ptp rt), List.find (λ c, lan_id c =? k) (rt_lan rt) with
      | Some c, _ => pc_name c
      | None, Some c => lc_name c
      | None, None => []
      end
  end.

(** [circuit_counters]: the traffic, and what the circuit counts. *)
Definition circuit_counters (k : Z) (c : CircuitCounters) (r : NiceReply) : NiceReply :=
  let r := ctr 900 (peak_adj c) 1 (ctr 821 (init_fail c) 1 (ctr 820 (cir_down c) 1
    (ctr 811 (rt_traffic rt k trans_sent) 4 (ctr 810 (rt_traffic rt k trans_recv) 4
    (ctr 801 (rt_traffic rt k orig_sent) 4 (ctr 800 (rt_traffic rt k term_recv) 4 r)))))) in
  ctr 3901 (adj_downs c) 1 (if ever_up c then ctr 3900 (rt_up rt k) 2 r else r).

(** [node_char] of the three classes. *)
Definition l1_char (r : L1Router.router) (ptp_t1 bc_t1 : double) (y : NiceReply) : NiceReply :=
  put 912 (du (f_to_Z bc_t1) 2) (put 910 (du (f_to_Z ptp_t1) 2) (put 924 (du (maxvisits r) 1)
  (put 923 (du (maxhops (l1 r)) 1) (put 922 (du (maxcost (l1 r)) 2) (put 920 (du (Z.of_nat (L1Router.maxnodes r)) 2) y))))).
Definition node_char (y : NiceReply) : NiceReply :=
  match rt_table rt with
  | NoTable => y
  | Table r ptp_t1 bc_t1 =>
      let y := l1_char r ptp_t1 bc_t1 y in
      if is_l2 r then
        put 929 (du (maxhops (l2 r)) 1) (put 928 (du (maxcost (l2 r)) 2) (put 925 (du (Z.of_nat (L1Router.maxarea r)) 1) y))
      else y
  end.
(** [BaseRouter::read_node]. *)
Definition base_read_node (req : NiceRequest) (i : Z) : reading := λ d,
  if negb (chars req) then Ok d
  else Ok (node_entry named_as i (λ r,
    node_char (put 932 (du MTU 2) (put 901 (coded (nice_ntype (p_ntype (rt_own rt)) (if p_phase (rt_own rt) =? 4 then 4 else 3)))
      (put 900 (version_value (p_tiver (rt_own rt))) r)))) d).

(** A reachable destination: the circuit, and then the distance or the next node. *)
Definition reached (req : NiceRequest) (a : adjacency) (hops cost : Z) : result (NiceReply → NiceReply) :=
  c ← make_ai (circuit_name a);
  if stat req then Ok (λ r, put 820 (du cost 2) (put 821 (du hops 1) (put 822 c (put 0 (coded 4) r))))
  else w ← node_value (named_as (a_nodeid a)); Ok (λ r, put 830 w (put 822 c (put 0 (coded 4) r))).

(** [L1Router::read_node]: hops and cost only in the home area, and the type of a
    neighbour that is the destination itself. *)
Definition l1_read_node (r : L1Router.router) (req : NiceRequest) (i : Z) : reading := λ d,
  if chars req then base_read_node req i d
  else if negb (sumstat req) then Ok d
  else
    let in_area := Nodeid.area i =? L1Router.homearea r in
    let t := Z.to_nat (Nodeid.tid i) in
    let a := if in_area then if (t <=? maxid (l1 r))%nat then default None (oadj (l1 r) !! t) else None
             else (find_oadj i r).1 in
    if bool_decide (a = Some (L1Router.self r)) then Ok d
    else match a with
    | None => Ok (node_entry named_as i (put 0 (coded 5)) d)
    | Some a =>
        c ← make_ai (circuit_name a);
        if stat req then
          Ok (node_entry named_as i (λ y,
            let y := put 822 c (put 0 (coded 4) y) in
            let y := if in_area then put 820 (du (default 0 (mincost (l1 r) !! t)) 2)
                                       (put 821 (du (default 0 (minhops (l1 r) !! t)) 1) y) else y in
            if i =? a_nodeid a then put 810 (coded (nice_ntype (a_ntype a) 4)) y else y) d)
        else
          w ← node_value (named_as (a_nodeid a));
          Ok (node_entry named_as i (λ y, put 830 w (put 822 c (put 0 (coded 4) y))) d)
    end.
Definition read_node (req : NiceRequest) (i : Z) : reading :=
  match rt_table rt with NoTable => base_read_node req i | Table r _ _ => l1_read_node r req i end.

(** [L1Router::reach], over the addresses of the home area. *)
Definition reach (req : NiceRequest) (qual : option text) : reading := λ d,
  match rt_table rt with
  | NoTable => Ok d
  | Table r _ _ =>
      each (λ t d,
        let i := Nodeid.make (L1Router.homearea r) (Z.of_nat t) in
        let a := default None (oadj (l1 r) !! t) in
        if bool_decide (a = Some (L1Router.self r)) then Ok d
        else match a with
        | Some a =>
            if match qual with Some q => bool_decide (a_circuit a = None) || negb (bool_decide (circuit_name a = q)) | None => false end
            then Ok d
            else f ← reached req a (default 0 (minhops (l1 r) !! t)) (default 0 (mincost (l1 r) !! t));
                 Ok (node_entry named_as i f d)
        | None =>
            if every_address_ d || contains_node i d || named_node i then Ok (node_entry named_as i (put 0 (coded 5)) d) else Ok d
        end) (List.seq 1 (maxid (l1 r))) d
  end.

(** *** The circuits *)

(** [PtpCircuit::nice_read]. *)
Definition ptp_nice_read (req : NiceRequest) (adj_qual : option Z) (p : ptp_circuit) : reading := λ d,
  let c := pc p in
  let neighbour := Adjacency.i_id (Ptp.info c) in
  if entity_type req =? Entity.node then
    if negb (sumstat req) || is_loop (entity req) then Ok d
    else if negb (Ptp.running c) then Ok d
    else if one (entity req) && negb (neighbour =? ReqEntity.id (entity req)) then Ok d
    else
      n ← make_ai (pc_name p);
      if stat req then
        Ok (node_entry named_as neighbour (λ r,
          put 810 (coded (nice_ntype (i_ntype (Ptp.info c)) (i_rphase (Ptp.info c)))) (put 822 n r)) d)
      else w ← node_value (named_as neighbour); Ok (node_entry named_as neighbour (λ r, put 830 w (put 822 n r)) d)
  else if negb (entity_type req =? Entity.circuit) then Ok d
  else if match adj_qual with Some q => negb (Ptp.running c) || negb (neighbour =? q) | None => false end then Ok d
  else
    let sub := nice_substate c in
    w ← (if sumstat req && (sub <? 0) then node_value (named_as neighbour) else Ok new_value);
    Ok (named_entry (pc_name p) (λ r,
      let r :=
        if sumstat req then
          let r := put 0 (coded 0) r in
          if 0 <=? sub then put 1 (coded sub) r
          else
            let r := put 800 w r in
            if stat req then put 810 (du (i_blksize (Ptp.info c)) 2) r else r
        else if chars req then
          let r := put 906 (du (f_to_Z (cf_t3 (Ptp.conf c))) 2) (put 900 (du (cf_cost (Ptp.conf c)) 1) r) in
          match Ptp.adj c with Some j => put 907 (du (f_to_Z (j_t4 j)) 2) r | None => r end
        else if NicePackets.counters req then
          circuit_counters (cf_id (Ptp.conf c)) (Ptp.counters c) (ctr 0 seconds 2 r)
        else r in
      match pc_port p with Some dl => read_port dl req r | None => r end) d).

(** The neighbours of a LAN that are up: with the entry the [Adjacency] they have. *)
Definition up_neighbours (m : gmap Z LanAdjacency) : list (LanAdjacency * Adjacency) :=
  omap (λ ka, if Lan.is_up ka.2 then pair ka.2 <$> la_adj ka.2 else None) (ascending m).
Definition nodeid_le (a b : LanAdjacency * Adjacency) : Prop := a_nodeid (j_adj a.2) ≤ a_nodeid (j_adj b.2).
#[local] Instance nodeid_le_dec : RelDecision nodeid_le.
Proof. intros a b. unfold nodeid_le. apply _. Defined.

(** [nice_char], which only a router has. *)
Definition nice_char (own_id : Z) (s : Lan.router) (r : NiceReply) : NiceReply :=
  let r := put 901 (du (maxrouters s) 1) (put 902 (du (prio s) 1) r) in
  if isdr s then put 801 (listed [du own_id 2]) r
  else if negb (dr s =? 0) then put 801 (listed [du (dr s) 2]) r else r.

(** What of [LanCircuit::nice_read] is about nodes: the neighbours, by address. *)
Definition lan_nodes {X} (n : text) (c : Lan.circuit X) (req : NiceRequest) : reading := λ d,
  if negb (sumstat req) || is_loop (entity req) then Ok d
  else each (λ a d,
    let neighbour := a_nodeid (j_adj a.2) in
    if one (entity req) && negb (ReqEntity.id (entity req) =? neighbour) then Ok d
    else
      v ← make_ai n;
      if stat req then
        Ok (node_entry named_as neighbour (λ r,
          put 820 (du (l_cost (Lan.conf c)) 2) (put 821 (du 1 1) (put 810 (coded (nice_ntype (la_ntype a.1) 4)) (put 822 v r)))) d)
      else w ← node_value (named_as neighbour); Ok (node_entry named_as neighbour (λ r, put 830 w (put 822 v r)) d))
    (merge_sort nodeid_le (up_neighbours (adjacencies c))) d.

(** And about the circuit: a reply for each neighbour, or one; the first has what is
    said of the circuit itself. *)
Definition lan_made {X} (c : Lan.circuit X) (req : NiceRequest) (adj_qual : option Z) : list (LanAdjacency * Adjacency) :=
  let all := stat req || chars req || (bool_decide (adj_qual = None) && (size (adjacencies c) =? 1)%nat) in
  if NicePackets.counters req then []
  else List.filter (λ a, (all || negb (la_ntype a.1 =? ENDNODE)) &&
                         match adj_qual with Some q => q =? a_nodeid (j_adj a.2) | None => true end) (up_neighbours (adjacencies c)).
Definition lan_neighbour (req : NiceRequest) (a : LanAdjacency * Adjacency) : result (NiceReply → NiceReply) :=
  w ← node_value (named_as (a_nodeid (j_adj a.2)));
  Ok (λ r,
    let r := put 800 w r in
    if stat req then put 810 (du (i_blksize (j_info a.2)) 2) r
    else if chars req then put 907 (du (f_to_Z (la_listen_time a.1)) 2) r else r).
Definition lan_first {X} (c : Lan.circuit X) (chr : NiceReply → NiceReply) (port : option BcPort) (req : NiceRequest)
    (r : NiceReply) : NiceReply :=
  let r :=
    if sumstat req then put 0 (coded 0) r
    else if chars req then chr (put 900 (du (l_cost (Lan.conf c)) 1) (put 906 (du (f_to_Z (l_t3 (Lan.conf c))) 2) r))
    else if NicePackets.counters req then
      circuit_counters (l_id (Lan.conf c)) (Lan.counters c) (ctr 0 seconds 2 r)
    else r in
  match port with Some p => read_bc_port p req r | None => r end.
Definition lan_read {X} (n : text) (c : Lan.circuit X) (chr : NiceReply → NiceReply) (port : option BcPort)
    (req : NiceRequest) (adj_qual : option Z) : reading := λ d,
  if entity_type req =? Entity.node then lan_nodes n c req d
  else if negb (entity_type req =? Entity.circuit) then Ok d
  else match lan_made c req adj_qual with
  | a :: l =>
      f ← lan_neighbour req a;
      each (λ a d, g ← lan_neighbour req a; Ok (add_named n g d)) l (add_named n (λ r, lan_first c chr port req (f r)) d)
  | [] => if bool_decide (is_Some adj_qual) then Ok d else Ok (named_entry n (lan_first c chr port req) d)
  end.
Definition lan_nice_read (req : NiceRequest) (adj_qual : option Z) (l : lan_circuit) : reading :=
  match lc l with
  | inl c => lan_read (lc_name l) c (λ r, r) (lc_port l) req adj_qual
  | inr c => lan_read (lc_name l) c (nice_char (p_nodeid (rt_own rt)) (Lan.self c)) (lc_port l) req adj_qual
  end.

(** *** The router *)

Definition all_circuits (req : NiceRequest) (adj_qual : option Z) : reading := λ d,
  d ← each (ptp_nice_read req adj_qual) (rt_ptp rt) d; each (lan_nice_read req adj_qual) (rt_lan rt) d.
(** [BaseRouter::nice_read], about nodes and about circuits. *)
Definition router_nodes (req : NiceRequest) : reading := λ d,
  let e := entity req in
  let own := p_nodeid (rt_own rt) in
  let qual := if has_qual_circuit req && negb (bool_decide (qual_circuit req = [])) then Some (qual_circuit req) else None in
  let on_circuit n := match qual with Some q => bool_decide (n = q) | None => true end in
  if NicePackets.counters req then Ok d
  else if chars req then
    if (one e && (ReqEntity.id e =? own)) || (ReqEntity.mult e && negb (is_adjacent e) && negb (is_loop e)) then read_node req own d
    else Ok d
  else if one e then d ← read_node req (ReqEntity.id e) d; all_circuits req None d
  else
    d ← each (λ p d, if on_circuit (pc_name p) then ptp_nice_read req None p d else Ok d) (rt_ptp rt) d;
    d ← each (λ l d, if on_circuit (lc_name l) then lan_nice_read req None l d else Ok d) (rt_lan rt) d;
    if negb (is_adjacent e) && negb (is_loop e) then reach req qual d else Ok d.
Definition router_circuits (req : NiceRequest) : reading := λ d,
  let e := entity req in
  if has_qual_node req && (ReqEntity.code (qual_node req) <? 0) then Ok d
  else
    let qual := if has_qual_node req then Some (ReqEntity.id (qual_node req)) else None in
    if 0 <? ReqEntity.code e then
      match List.find (λ p, bool_decide (pc_name p = ReqEntity.name e)) (rt_ptp rt),
            List.find (λ l, bool_decide (lc_name l = ReqEntity.name e)) (rt_lan rt) with
      | Some p, _ => ptp_nice_read req qual p d
      | None, Some l => lan_nice_read req qual l d
      | None, None => Ok d
      end
    else all_circuits req qual d.
Definition base_nice_read (req : NiceRequest) : reading := λ d,
  if entity_type req =? Entity.node then router_nodes req d
  else if entity_type req =? Entity.circuit then router_circuits req d else Ok d.

(** [L2Router::nice_read]: areas; one of them is filled in by [fill_area]. *)
Definition fill_area (r : L1Router.router) (req : NiceRequest) (i : nat) : reading := λ d,
  let a := if (i <=? maxid (l2 r))%nat then default None (oadj (l2 r) !! i) else None in
  let far y := if stat req then put 820 (du (default 0 (mincost (l2 r) !! i)) 2)
                                 (put 821 (du (default 0 (minhops (l2 r) !! i)) 1) y) else y in
  match a with
  | None => Ok (area_entry (Z.of_nat i) (put 0 (coded 5)) d)
  | Some a =>
      if bool_decide (a = L1Router.self r) then
        w ← node_value (named_as (L1Router.nodeid r));
        Ok (area_entry (Z.of_nat i) (λ y, far (put 830 w (put 0 (coded 4) y))) d)
      else
        c ← make_ai (circuit_name a);
        w ← node_value (named_as (a_nodeid a));
        Ok (area_entry (Z.of_nat i) (λ y, far (put 830 w (put 822 c (put 0 (coded 4) y)))) d)
  end.
Definition read_areas (r : L1Router.router) (req : NiceRequest) : reading := λ d,
  if negb (sumstat req) then Ok d
  else if ReqEntity.mult (entity req) then
    each (λ i d, if bool_decide (default None (oadj (l2 r) !! i) = None) then Ok d else fill_area r req i d)
      (List.seq 1 (Nat.min (L1Router.maxarea r) (maxid (l2 r)))) d
  else
    let i := ReqEntity.area (entity req) in
    if (i =? 0) || (Z.of_nat (L1Router.maxarea r) <? i) then Ok d else fill_area r req (Z.to_nat i) d.
Definition routing_nice_read (req : NiceRequest) : reading :=
  match rt_table rt with
  | Table r _ _ => if is_l2 r && (entity_type req =? Entity.area) then read_areas r req else base_nice_read req
  | NoTable => base_nice_read req
  end.
(** [nice_counters]. *)
Definition nice_counters (y : NiceReply) : NiceReply :=
  match rt_table rt with
  | NoTable => y
  | Table r _ _ => ctr 920 (partial_update_loss r) 1 (ctr 902 (oor_loss r) 1 (ctr 901 (unreach_loss r) 2 (ctr 900 (aged_loss r) 1 y)))
  end.
End RoutingRead.

(** ** MOP *)

(** What a circuit has heard, in the order of its map, and how long it has listened; a
    circuit that does not take system IDs has neither. *)
Record HeardSystem := mkHeard { address : Bytes; sysid : SysId.t; last_report : Z }.
Record mop_circuit := mkMopCircuit { mc_name : text; mc_sysid : option (list HeardSystem * double) }.
(** The members of [std::tm] that are read. *)
Record tm := mkTm { tm_mday : Z; tm_mon : Z; tm_hour : Z; tm_min : Z; tm_sec : Z }.

Section MopRead.
Context (local_time : Z → tm).

Definition configurator : text := str_text "CONFIGURATOR".
Definition services (s : SysId.t) : list bool :=
  [SysId.loop s; SysId.dump s; SysId.ploader s; SysId.sloader s; SysId.boot s; SysId.carrier s; SysId.counters s].
Definition functions_value (s : SysId.t) : Value :=
  listed (omap (λ ib, if ib.2 : bool then Some (du ib.1 1) else None) (zip (seqZ 0 7) (services s))).
Definition last_report_value (t : Z) : Value :=
  let m := local_time t in
  listed [du (u32 (tm_mday m)) 1; du (u32 (tm_mon m + 1)) 1; du (u32 (tm_hour m)) 1; du (u32 (tm_min m)) 1; du (u32 (tm_sec m)) 1].
Definition elapsed_value (seconds : double) : Value :=
  let total := if fltb seconds f0 then 0 else u64 (f_to_Z seconds) in
  listed [du (Z.quot total 3600) 2; du (Z.rem (Z.quot total 60) 60) 1; du (Z.rem total 60) 1].

(** An item, if it is there: its value, and its place in the reply. *)
Definition made {A} (f : A → result Value) (o : option A) : result (option Value) :=
  match o with Some x => v ← f x; Ok (Some v) | None => Ok None end.
Definition put_if (n : Z) (o : option Value) (r : NiceReply) : NiceReply := match o with Some v => put n v r | None => r end.
Definition software_value (s : SoftwareId) : result Value :=
  if is_code s then Ok (listed [mkValue Kind.ds 1 (PInt (sw_code s))])
  else a ← make_ai (sw_text s); Ok (listed [du 0 1; a]).
(** [fill_station]. *)
Definition fill_station (h : HeardSystem) (circuit : text) : result (NiceReply → NiceReply) :=
  let s := sysid h in
  let two (o : option Z) := (λ v, du v 2) <$> o in
  c ← make_ai circuit;
  a ← make_hi (address h);
  user ← made make_hi (SysId.console_user s);
  hw ← made make_hi (SysId.hwaddr s);
  sw ← made software_value (SysId.software s);
  Ok (λ r,
    let r := put 130 (last_report_value (last_report h)) (put 120 a (put 100 c r)) in
    let r := if existsb (λ b, b) (services s) then put 1002 (functions_value s) r else r in
    let r := put_if 1004 (two (SysId.reservation_timer s)) (put_if 1003 user (put_if 1001 (version_value <$> SysId.version s) r)) in
    let r := put_if 1007 hw (put_if 1006 (two (SysId.console_resp_size s)) (put_if 1005 (two (SysId.console_cmd_size s)) r)) in
    let r := put_if 1300 (coded <$> SysId.processor s) (put_if 1200 sw (put_if 1100 (coded <$> SysId.device s) r)) in
    put_if 1401 (two (SysId.bufsize s)) (put_if 1400 (coded <$> SysId.datalink s) r)).

(** One circuit of [Mop::nice_read]: a reply for each station that was heard, or one for
    the circuit; the first has what is said of the circuit itself. *)
Definition mop_read_circuit (req : NiceRequest) (qual : option text) (c : mop_circuit) : reading := λ d,
  if match qual with Some q => negb (bool_decide (mc_name c = q)) | None => false end then Ok d
  else match mc_sysid c with
  | None => Ok d
  | Some (heard, elapsed) =>
      let first y := put 111 (elapsed_value elapsed) (put 110 (coded 0) y) in
      match (if stat req then heard else []) with
      | h :: l =>
          f ← fill_station h (mc_name c);
          each (λ h d, g ← fill_station h (mc_name c); Ok (add_named configurator g d)) l
            (add_named configurator (λ y, first (f y)) d)
      | [] => n ← make_ai (mc_name c); Ok (add_named configurator (λ y, first (put 100 n y)) d)
      end
  end.
Definition mop_nice_read (cs : list mop_circuit) (req : NiceRequest) : reading := λ d,
  if negb (entity_type req =? Entity.module) || negb (sumstat req) then Ok d
  else if one (entity req) && negb (ReqEntity.match_name configurator (entity req)) then Ok d
  else
    let qual := if has_qual_circuit req && negb (bool_decide (qual_circuit req = [])) then Some (qual_circuit req) else None in
    each (mop_read_circuit req qual) cs d.
End MopRead.

(** ** The node *)

(** The layers a node has, as they stand at a read. *)
Record node_state := mkNodeState {
  ns_me : identity;
  ns_nodes : Nodes;
  ns_logger : bool;
  ns_nsp : option (nsp * Z);                      (* with [maxconns_] *)
  ns_routing : option routing_layer;
  ns_lines : option (list (text * line));
  ns_mop : option (list mop_circuit);
  ns_zeroed : Z → Z;                              (* a node's counters, in seconds *)
  ns_seconds : Z;                                 (* and the node's own *)
  ns_local_time : Z → tm;
}.
Definition name_of (s : Nodes) (i : Z) : NiceNode := default (mkNiceNode i [] false) (nicenode i s).
Definition has_name (s : Nodes) (i : Z) : bool := negb (bool_decide (name (name_of s i) = [])).

(** [EventLogger::nice_read] does nothing. *)
Definition logger_nice_read (req : NiceRequest) : reading := λ d, Ok d.
Definition node_layers (n : node_state) : Layers := {|
  logger_read := if ns_logger n then Some logger_nice_read else None;
  nsp_read := (λ nm : nsp * Z, nsp_nice_read (id_ (ns_me n)) nm.2 nm.1 (ns_nodes n) (ns_zeroed n) (name_of (ns_nodes n))) <$> ns_nsp n;
  routing_read :=
    (λ rt, routing_nice_read rt (ns_seconds n) (name_of (ns_nodes n)) (has_name (ns_nodes n))) <$> ns_routing n;
  datalink_read := datalink_nice_read (ns_seconds n) <$> ns_lines n;
  mop_read := mop_nice_read (ns_local_time n) <$> ns_mop n;
  routing_counters := nice_counters <$> ns_routing n;
|}.

(** ** What is made can be encoded *)

Section Fine.
Context `{WS : WideShift}.

Definition encodable (v : Value) : Prop := ∃ b, encode v = Ok b.
Definition fills (f : NiceReply → NiceReply) : Prop := ∀ r, fine r → fine (f r).
(** A read that comes to an end, with replies that can be encoded. *)
Definition reads_fine (m : result ReplyDict) : Prop := ∃ d, m = Ok d ∧ dict_fine d.

Lemma du_encodable v n : encodable (du v n).
Proof. by eexists. Qed.
Lemma coded_encodable v : encodable (coded v).
Proof. by eexists. Qed.
Lemma listed_encodable l : Forall encodable l → encodable (listed l).
Proof.
  intros H. assert (∃ b, write_all encode l = Ok b) as [b E].
  { induction H as [|v l [a Ha] _ [b IH]]; [by eexists|]. exists (a ++ b). cbn in *. by rewrite Ha, IH. }
  unfold encodable, listed. cbn [encode]. rewrite E. by eexists.
Qed.
Lemma version_encodable v : encodable (version_value v).
Proof. apply listed_encodable. repeat constructor; apply du_encodable. Qed.
Lemma ai_makes s : len s ≤ 255 → ∃ v, make_ai s = Ok v ∧ encodable v.
Proof. apply ai_fine. Qed.
Lemma hi_makes b : len b ≤ 255 → ∃ v, make_hi b = Ok v ∧ encodable v.
Proof. intros H. unfold make_hi. rewrite (proj2 (Z.ltb_ge _ _)) by done. eexists. split; [done|]. by eexists. Qed.

Lemma put_fills n v : encodable v → fills (put n v).
Proof. intros Hv r (Hm & He & Hp). split; [done|]. split; [done|]. apply insert_fine; [by apply value_fine|done]. Qed.
Lemma ctr_fills n v w : w = 1 ∨ w = 2 ∨ w = 4 → fills (ctr n v w).
Proof.
  intros Hw r (Hm & He & Hp). split; [done|]. split; [done|]. apply insert_fine; [|done].
  destruct Hw as [->|[->| ->]]; by eexists.
Qed.
Lemma ctm_fills n v m : fills (ctm1 n v m).
Proof. intros r (Hm & He & Hp). split; [done|]. split; [done|]. apply insert_fine; [by eexists|done]. Qed.
Lemma named_fine k n : len n ≤ 255 → fine (about (Entity.make_string k n)).
Proof.
  intros H. split; [done|]. split; [|apply map_Forall_empty]. unfold Entity.encode_body. cbn [about r_entity Entity.make_string Entity.kind_ Entity.node_ Entity.name_].
  destruct (k =? Entity.node); [by eexists|]. destruct (k =? Entity.area); [by eexists|]. destruct (k =? Entity.none); [by eexists|].
  rewrite (proj2 (Z.ltb_ge _ _)) by done. by eexists.
Qed.
Lemma noded_fine n : len (name n) ≤ 127 → fine (about (Entity.make_node n)).
Proof.
  intros H. split; [done|]. split; [|apply map_Forall_empty]. unfold Entity.encode_body. cbn -[node_encode]. unfold node_encode.
  rewrite (proj2 (Z.ltb_ge _ _)) by done. by eexists.
Qed.
Lemma last_of_fine x f g : fine x → fills f → Forall fine g → group_fine (last_of x f g).
Proof.
  intros Hx Hf Hg. unfold last_of. apply Forall_rev in Hg. destruct (List.rev g) as [|r k]; [split; [done|]; apply Forall_singleton; auto|].
  apply Forall_cons in Hg as [Hr Hk]. split; [by destruct (List.rev k)|]. apply Forall_app. split; [by apply Forall_rev|apply Forall_singleton; auto].
Qed.
Lemma group_of {K} `{Countable K} (m : gmap K (list NiceReply)) k : map_Forall (λ _, group_fine) m → Forall fine (default [] (m !! k)).
Proof. intros Hm. destruct (m !! k) as [g|] eqn:E; [by apply (Hm k g)|constructor]. Qed.

(** The entries of the dictionary. *)
Lemma node_reads named_as i f d : dict_fine d → len (name (named_as i)) ≤ 127 → fills f → reads_fine (Ok (node_entry named_as i f d)).
Proof.
  intros [H1 H2] Hn Hf. eexists. split; [done|]. split; [|done]. apply map_Forall_insert_2; [|done].
  apply last_of_fine; [by apply noded_fine|done|by apply group_of].
Qed.
Lemma area_reads a f d : dict_fine d → fills f → reads_fine (Ok (area_entry a f d)).
Proof.
  intros [H1 H2] Hf. eexists. split; [done|]. split; [|done]. apply map_Forall_insert_2; [|done].
  apply last_of_fine; [|done|by apply group_of]. split; [done|]. split; [by eexists|apply map_Forall_empty].
Qed.
Lemma named_reads n f d : dict_fine d → len n ≤ 255 → fills f → reads_fine (Ok (named_entry n f d)).
Proof.
  intros [H1 H2] Hn Hf. eexists. split; [done|]. split; [done|]. apply map_Forall_insert_2; [|done].
  apply last_of_fine; [by apply named_fine|done|by apply group_of].
Qed.
Lemma add_reads n f d : dict_fine d → len n ≤ 255 → fills f → reads_fine (Ok (add_named n f d)).
Proof.
  intros [H1 H2] Hn Hf. eexists. split; [done|]. split; [done|]. apply map_Forall_insert_2; [|done].
  split; [by destruct (default [] (named_ d !! n))|]. apply Forall_app. split; [by apply group_of|]. apply Forall_singleton. by apply Hf, named_fine.
Qed.
Lemma same_reads d : dict_fine d → reads_fine (Ok d).
Proof. by eexists. Qed.
Lemma then_reads m k : reads_fine m → (∀ d, dict_fine d → reads_fine (k d)) → reads_fine (m ≫= k).
Proof. intros (d & -> & Hd) Hk. by apply Hk. Qed.
Lemma value_reads {A} (P : A → Prop) (m : result A) k : (∃ v, m = Ok v ∧ P v) → (∀ v, P v → reads_fine (k v)) → reads_fine (m ≫= k).
Proof. intros (v & -> & Hv) Hk. by apply Hk. Qed.
Lemma each_reads {A} (f : A → reading) l d : (∀ x d, x ∈ l → dict_fine d → reads_fine (f x d)) → dict_fine d → reads_fine (each f l d).
Proof.
  intros Hf Hd. unfold each. assert (∀ m, reads_fine m → reads_fine (foldl (λ r x, d ← r; f x d) m l)) as H; [|by apply H, same_reads].
  revert Hf. induction l as [|x l IH]; intros Hf m Hm; [done|]. cbn. apply IH; [intros y d' Hy; apply Hf; by right|].
  apply then_reads; [done|]. intros d' Hd'. apply Hf; [by left|done].
Qed.
End Fine.

(** ** Every layer's reads can be encoded *)

Ltac fine_reply :=
  repeat first
    [ assumption | progress intros | progress cbv zeta
    | apply du_encodable | apply coded_encodable | apply version_encodable | apply listed_encodable, Forall_nil_2
    | apply listed_encodable, Forall_cons; split | apply Forall_cons; split | apply Forall_nil_2
    | refine (put_fills _ _ _ _ _) | refine (ctr_fills _ _ _ _ _ _); [by first [left; reflexivity|right; left; reflexivity|right; right; reflexivity]|]
    | refine (ctm_fills _ _ _ _ _) | case_match ].

Section NspFine.
Context `{WS : WideShift}.
Context (me maxconns : Z) (n : nsp) (nodes : Nodes) (zeroed : Z → Z) (named_as : Z → NiceNode).
Context (Hn : ∀ i, len (name (named_as i)) ≤ 127).

Lemma nsp_read_node_fine req links i d : dict_fine d → reads_fine (nsp_read_node me maxconns nodes zeroed named_as req links i d).
Proof.
  intros Hd. apply node_reads; [done|done|]. intros r Hr. unfold node_counters, counters_for. fine_reply.
Qed.
Lemma nsp_fine req d : dict_fine d → reads_fine (nsp_nice_read me maxconns n nodes zeroed named_as req d).
Proof.
  intros Hd. pose proof nsp_read_node_fine as H. unfold nsp_nice_read. cbv zeta.
  do 3 (case_match; [auto using same_reads|]). apply each_reads; [|done].
  intros x e _ He. repeat case_match; auto using same_reads.
Qed.
End NspFine.

(** Lines: their names, and the address of an Ethernet. *)
Definition line_fits (nl : text * line) : Prop :=
  len nl.1 ≤ 255 ∧ match nl.2 with BcLine b => len (hwaddr b) ≤ 255 | _ => True end.

Section LineFine.
Context `{WS : WideShift}.

Lemma add_counters_fine dl r : fine r → fine (add_counters dl r).
Proof.
  intros Hr. unfold add_counters, datalink_counters, ddcmp_counters, port_traffic, ctr4. fine_reply.
Qed.
Lemma read_port_fine dl req r : fine r → fine (read_port dl req r).
Proof. intros Hr. unfold read_port. repeat case_match; [fine_reply|by apply add_counters_fine|done]. Qed.
Lemma read_bc_port_fine p req r : fine r → fine (read_bc_port p req r).
Proof. intros Hr. unfold read_bc_port, port_traffic, ctr4. fine_reply. Qed.
Lemma read_line_fine seconds req nl d : line_fits nl → dict_fine d → reads_fine (read_line seconds req nl d).
Proof.
  destruct nl as [n dl]. intros [Hn Hdl] Hd. cbn in Hn, Hdl. unfold read_line. cbv zeta.
  match goal with |- context [named_entry n ?f d] => set (g := f) end.
  assert (fills g) as Hg. { intros r Hr. unfold g. repeat case_match; try (by fine_reply). apply add_counters_fine. by fine_reply. }
  destruct (named_reads n g d Hd Hn Hg) as (d1 & E & H1). injection E as E. rewrite E.
  destruct dl as [k|k p|b]; [by apply same_reads..|]. case_match; [by apply same_reads|].
  eapply value_reads; [by apply hi_makes|]. intros h Hh. apply named_reads; [done|done|]. by apply put_fills.
Qed.
Lemma datalink_fine seconds lines req d : Forall line_fits lines → dict_fine d → reads_fine (datalink_nice_read seconds lines req d).
Proof.
  rewrite Forall_forall. intros Hl Hd. unfold datalink_nice_read. case_match; [by apply same_reads|]. case_match.
  - destruct (List.find _ lines) as [nl|] eqn:E; [|by apply same_reads]. apply List.find_some in E as [E _].
    apply read_line_fine; [|done]. by apply Hl, list_elem_of_In.
  - apply each_reads; [|done]. intros nl e Hin He. apply read_line_fine; auto.
Qed.
End LineFine.

(** The routing layer: the names of its circuits. *)
Definition routing_fits (rt : routing_layer) : Prop :=
  Forall (λ p, len (pc_name p) ≤ 255) (rt_ptp rt) ∧ Forall (λ l, len (lc_name l) ≤ 255) (rt_lan rt).

Section RoutingFine.
Context `{WS : WideShift}.
Context (rt : routing_layer) (seconds : Z) (named_as : Z → NiceNode) (named_node : Z → bool).
Context (Hn : ∀ i, len (name (named_as i)) ≤ 127) (Hrt : routing_fits rt).

Lemma circuit_name_fits a : len (circuit_name rt a) ≤ 255.
Proof.
  destruct Hrt as [H1 H2]. rewrite Forall_forall in H1. rewrite Forall_forall in H2. unfold circuit_name. destruct (a_circuit a) as [k|]; [|done].
  destruct (List.find _ (rt_ptp rt)) as [p|] eqn:E1; [apply List.find_some in E1 as [E1 _]; by apply H1, list_elem_of_In|].
  destruct (List.find _ (rt_lan rt)) as [l|] eqn:E2; [apply List.find_some in E2 as [E2 _]; by apply H2, list_elem_of_In|done].
Qed.
Lemma circuit_name_makes a : ∃ v, make_ai (circuit_name rt a) = Ok v ∧ encodable v.
Proof. apply ai_makes, circuit_name_fits. Qed.
Lemma node_value_makes i : ∃ v, node_value (named_as i) = Ok v ∧ encodable v.
Proof.
  unfold node_value. case_match; [eexists; split; [done|]; apply listed_encodable; repeat constructor; apply du_encodable|].
  destruct (ai_makes (name (named_as i))) as (v & -> & Hv); [specialize (Hn i); lia|]. eexists. split; [done|].
  apply listed_encodable. repeat constructor; [apply du_encodable|done].
Qed.
Lemma circuit_counters_fine k c r : fine r → fine (circuit_counters rt k c r).
Proof. intros Hr. unfold circuit_counters. fine_reply. Qed.
Lemma node_char_fine y : fine y → fine (node_char rt y).
Proof. intros Hy. unfold node_char, l1_char. fine_reply. Qed.
Lemma base_read_node_fine req i d : dict_fine d → reads_fine (base_read_node rt named_as req i d).
Proof.
  intros Hd. unfold base_read_node. case_match; [by apply same_reads|]. apply node_reads; [done|done|]. intros r Hr.
  apply node_char_fine. by fine_reply.
Qed.
Lemma reached_makes req a h c : ∃ f, reached rt named_as req a h c = Ok f ∧ fills f.
Proof.
  unfold reached. destruct (circuit_name_makes a) as (v & -> & Hv). cbn [mbind result_bind]. case_match.
  - eexists. split; [done|]. intros r Hr. by fine_reply.
  - destruct (node_value_makes (a_nodeid a)) as (w & -> & Hw). eexists. split; [done|]. intros r Hr. by fine_reply.
Qed.
Lemma l1_read_node_fine r req i d : dict_fine d → reads_fine (l1_read_node rt named_as r req i d).
Proof.
  intros Hd. unfold l1_read_node. case_match; [by apply base_read_node_fine|]. case_match; [by apply same_reads|]. cbv zeta.
  match goal with |- reads_fine (if bool_decide (?x = _) then _ else _) => destruct x as [a|] end; case_match; try by apply same_reads.
  - eapply value_reads; [apply circuit_name_makes|]. intros v Hv. case_match.
    + apply node_reads; [done|done|]. intros y Hy. by fine_reply.
    + eapply value_reads; [apply node_value_makes|]. intros w Hw. apply node_reads; [done|done|]. intros y Hy. by fine_reply.
  - apply node_reads; [done|done|]. by apply put_fills, coded_encodable.
Qed.
Lemma read_node_fine req i d : dict_fine d → reads_fine (read_node rt named_as req i d).
Proof. intros Hd. unfold read_node. case_match; [by apply base_read_node_fine|by apply l1_read_node_fine]. Qed.
Lemma reach_fine req qual d : dict_fine d → reads_fine (reach rt named_as named_node req qual d).
Proof.
  intros Hd. unfold reach. case_match; [by apply same_reads|]. apply each_reads; [|done]. intros t e _ He. cbv zeta.
  match goal with |- reads_fine (if bool_decide (?x = _) then _ else _) => destruct x as [a|] end; case_match; try by apply same_reads.
  - match goal with |- reads_fine (if ?b then _ else _) => destruct b end; [by apply same_reads|].
    eapply value_reads; [apply reached_makes|]. intros f Hf. by apply node_reads.
  - match goal with |- reads_fine (if ?b then _ else _) => destruct b end; [|by apply same_reads].
    apply node_reads; [done|done|]. by apply put_fills, coded_encodable.
Qed.
Lemma ptp_fine req q p d : p ∈ rt_ptp rt → dict_fine d → reads_fine (ptp_nice_read rt seconds named_as req q p d).
Proof.
  intros Hp Hd. destruct Hrt as [H1 _]. rewrite Forall_forall in H1. specialize (H1 p Hp). unfold ptp_nice_read. cbv zeta.
  case_match.
  - do 3 (case_match; [by apply same_reads|]). eapply value_reads; [by apply ai_makes|]. intros v Hv. case_match.
    + apply node_reads; [done|done|]. intros r Hr. by fine_reply.
    + eapply value_reads; [apply node_value_makes|]. intros w Hw. apply node_reads; [done|done|]. intros r Hr. by fine_reply.
  - case_match; [by apply same_reads|]. match goal with |- reads_fine (if ?b then _ else _) => destruct b end; [by apply same_reads|].
    match goal with |- reads_fine (?m ≫= _) => assert (∃ w, m = Ok w ∧ (sumstat req && (nice_substate (pc p) <? 0) = true → encodable w)) as Hm end.
    { case_match; [|by eexists]. destruct (node_value_makes (Adjacency.i_id (Ptp.info (pc p)))) as (w & E & Hw). by exists w. }
    eapply value_reads; [exact Hm|]. intros w Hw. apply named_reads; [done|done|]. intros r Hr.
    match goal with |- fine (match _ with Some dl => read_port dl req ?x | None => _ end) => assert (fine x) as Hx end; [|destruct (pc_port p); [by apply read_port_fine|done]].
    destruct (sumstat req); [destruct (Z.leb_spec 0 (nice_substate (pc p)))|].
    + by fine_reply.
    + assert (encodable w) by (apply Hw; cbn; by apply Z.ltb_lt). by fine_reply.
    + destruct (chars req); [by fine_reply|]. destruct (counters req); [|done]. apply circuit_counters_fine. by fine_reply.
Qed.

(** LAN circuits. *)
Lemma lan_nodes_fine {X} n (c : Lan.circuit X) req d : len n ≤ 255 → dict_fine d → reads_fine (lan_nodes named_as n c req d).
Proof.
  intros Hl Hd. unfold lan_nodes. case_match; [by apply same_reads|]. apply each_reads; [|done]. intros a e _ He. cbv zeta.
  case_match; [by apply same_reads|]. eapply value_reads; [by apply ai_makes|]. intros v Hv. case_match.
  - apply node_reads; [done|done|]. intros r Hr. by fine_reply.
  - eapply value_reads; [apply node_value_makes|]. intros w Hw. apply node_reads; [done|done|]. intros r Hr. by fine_reply.
Qed.
Lemma lan_neighbour_makes req a : ∃ f, lan_neighbour named_as req a = Ok f ∧ fills f.
Proof.
  unfold lan_neighbour. destruct (node_value_makes (a_nodeid (j_adj a.2))) as (w & -> & Hw). eexists. split; [done|].
  intros r Hr. by fine_reply.
Qed.
Lemma lan_first_fills {X} (c : Lan.circuit X) chr port req : fills chr → fills (lan_first rt seconds c chr port req).
Proof.
  intros Hc r Hr. unfold lan_first. cbv zeta.
  match goal with |- fine (match _ with Some p => read_bc_port p req ?x | None => _ end) => assert (fine x) as Hx end; [|destruct port; [by apply read_bc_port_fine|done]].
  destruct (sumstat req); [by fine_reply|]. destruct (chars req); [apply Hc; by fine_reply|]. destruct (counters req); [|done].
  apply circuit_counters_fine. by fine_reply.
Qed.
Lemma lan_read_fine {X} n (c : Lan.circuit X) chr port req q d : len n ≤ 255 → fills chr → dict_fine d →
  reads_fine (lan_read rt seconds named_as n c chr port req q d).
Proof.
  intros Hl Hc Hd. unfold lan_read. case_match; [by apply lan_nodes_fine|]. case_match; [by apply same_reads|].
  pose proof (lan_first_fills c chr port req Hc) as Hf. destruct (lan_made c req q) as [|a l].
  - case_match; [by apply same_reads|]. by apply named_reads.
  - eapply value_reads; [apply lan_neighbour_makes|]. intros f Hff.
    match goal with |- reads_fine (each ?g l (add_named n ?h d)) => destruct (add_reads n h d Hd Hl) as (d1 & E & H1) end.
    { intros r Hr. by apply Hf, Hff. }
    injection E as E. rewrite E. apply each_reads; [|done]. intros b e _ He.
    eapply value_reads; [apply lan_neighbour_makes|]. intros g Hg. by apply add_reads.
Qed.
Lemma nice_char_fills own s : fills (nice_char own s).
Proof. intros r Hr. unfold nice_char. by fine_reply. Qed.
Lemma lan_fine req q l d : l ∈ rt_lan rt → dict_fine d → reads_fine (lan_nice_read rt seconds named_as req q l d).
Proof.
  intros Hl Hd. destruct Hrt as [_ H2]. rewrite Forall_forall in H2. specialize (H2 l Hl). unfold lan_nice_read.
  destruct (lc l); apply lan_read_fine; try done; [by intros r Hr|apply nice_char_fills].
Qed.

(** The router. *)
Lemma all_circuits_fine req q d : dict_fine d → reads_fine (all_circuits rt seconds named_as req q d).
Proof.
  intros Hd. unfold all_circuits. apply then_reads.
  - apply each_reads; [|done]. intros. by apply ptp_fine.
  - intros e He. apply each_reads; [|done]. intros. by apply lan_fine.
Qed.
Lemma router_nodes_fine req d : dict_fine d → reads_fine (router_nodes rt seconds named_as named_node req d).
Proof.
  intros Hd. unfold router_nodes. cbv zeta. case_match; [by apply same_reads|]. case_match.
  { match goal with |- reads_fine (if ?b then _ else _) => destruct b end; [by apply read_node_fine|by apply same_reads]. }
  case_match.
  { apply then_reads; [by apply read_node_fine|]. intros. by apply all_circuits_fine. }
  apply then_reads.
  { apply each_reads; [|done]. intros p e Hp He. match goal with |- reads_fine (if ?b then _ else _) => destruct b end; [by apply ptp_fine|by apply same_reads]. }
  intros e He. apply then_reads.
  { apply each_reads; [|done]. intros p e' Hp He'. match goal with |- reads_fine (if ?b then _ else _) => destruct b end; [by apply lan_fine|by apply same_reads]. }
  intros e' He'. match goal with |- reads_fine (if ?b then _ else _) => destruct b end; [by apply reach_fine|by apply same_reads].
Qed.
Lemma router_circuits_fine req d : dict_fine d → reads_fine (router_circuits rt seconds named_as req d).
Proof.
  intros Hd. unfold router_circuits. cbv zeta. case_match; [by apply same_reads|]. case_match; [|by apply all_circuits_fine].
  destruct (List.find _ (rt_ptp rt)) as [p|] eqn:E1; [apply List.find_some in E1 as [E1 _]; apply ptp_fine; [by apply list_elem_of_In|done]|].
  destruct (List.find _ (rt_lan rt)) as [l|] eqn:E2; [apply List.find_some in E2 as [E2 _]; apply lan_fine; [by apply list_elem_of_In|done]|].
  by apply same_reads.
Qed.
Lemma fill_area_fine r req i d : dict_fine d → reads_fine (fill_area rt named_as r req i d).
Proof.
  intros Hd. unfold fill_area. cbv zeta.
  match goal with |- reads_fine (match ?x with _ => _ end) => destruct x as [a|] end; [case_match|].
  - eapply value_reads; [apply node_value_makes|]. intros w Hw. apply area_reads; [done|]. intros y Hy. by fine_reply.
  - eapply value_reads; [apply circuit_name_makes|]. intros v Hv. eapply value_reads; [apply node_value_makes|]. intros w Hw.
    apply area_reads; [done|]. intros y Hy. by fine_reply.
  - apply area_reads; [done|]. by apply put_fills, coded_encodable.
Qed.
Lemma read_areas_fine r req d : dict_fine d → reads_fine (read_areas rt named_as r req d).
Proof.
  intros Hd. unfold read_areas. cbv zeta. case_match; [by apply same_reads|]. case_match.
  - apply each_reads; [|done]. intros i e _ He. case_match; [by apply same_reads|by apply fill_area_fine].
  - match goal with |- reads_fine (if ?b then _ else _) => destruct b end; [by apply same_reads|by apply fill_area_fine].
Qed.
Lemma routing_fine req d : dict_fine d → reads_fine (routing_nice_read rt seconds named_as named_node req d).
Proof.
  intros Hd. assert (reads_fine (base_nice_read rt seconds named_as named_node req d)) as Hb.
  { unfold base_nice_read. case_match; [by apply router_nodes_fine|]. case_match; [by apply router_circuits_fine|by apply same_reads]. }
  unfold routing_nice_read. case_match; [done|]. case_match; [by apply read_areas_fine|done].
Qed.
Lemma nice_counters_fills : fills (nice_counters rt).
Proof. intros y Hy. unfold nice_counters. fine_reply. Qed.
End RoutingFine.

(** MOP: what was heard is from a message, whose strings have a byte for their length. *)
Definition heard_fits (h : HeardSystem) : Prop :=
  len (address h) ≤ 255 ∧ from_option (λ b, len b ≤ 255) True (SysId.console_user (sysid h)) ∧
  from_option (λ b, len b ≤ 255) True (SysId.hwaddr (sysid h)) ∧ from_option (λ s, len (sw_text s) ≤ 255) True (SysId.software (sysid h)).
Definition mop_fits (c : mop_circuit) : Prop :=
  len (mc_name c) ≤ 255 ∧ from_option (λ he : list HeardSystem * double, Forall heard_fits he.1) True (mc_sysid c).

Section MopFine.
Context `{WS : WideShift}.
Context (local_time : Z → tm).

Lemma made_makes {A} (P : A → Prop) f (o : option A) : (∀ x, P x → ∃ v, f x = Ok v ∧ encodable v) → from_option P True o →
  ∃ v, made f o = Ok v ∧ from_option encodable True v.
Proof.
  intros Hf Ho. destruct o as [x|]; [|by exists None]. destruct (Hf x Ho) as (v & E & Hv). exists (Some v). cbn. by rewrite E.
Qed.
Lemma put_if_fine n o r : from_option encodable True o → fine r → fine (put_if n o r).
Proof. intros Ho Hr. destruct o; [by apply put_fills|done]. Qed.
Lemma software_makes s : len (sw_text s) ≤ 255 → ∃ v, software_value s = Ok v ∧ encodable v.
Proof.
  intros H. unfold software_value. case_match.
  - eexists. split; [done|]. apply listed_encodable. repeat constructor. by eexists.
  - destruct (ai_makes _ H) as (v & -> & Hv). eexists. split; [done|]. apply listed_encodable. repeat constructor; [apply du_encodable|done].
Qed.
Lemma some_encodable {A} (f : A → Value) o : (∀ x, encodable (f x)) → from_option encodable True (f <$> o).
Proof. intros H. destruct o; [apply H|done]. Qed.
Lemma functions_encodable s : encodable (functions_value s).
Proof.
  apply listed_encodable. apply Forall_forall. intros v [[i b] [_ E]]%list_elem_of_omap. cbn in E. destruct b; [|done].
  injection E as <-. apply du_encodable.
Qed.
Lemma station_makes h n : heard_fits h → len n ≤ 255 → ∃ f, fill_station local_time h n = Ok f ∧ fills f.
Proof.
  intros (Ha & Hu & Hh & Hs) Hl. unfold fill_station. cbv zeta.
  destruct (ai_makes n Hl) as (v1 & -> & E1). destruct (hi_makes _ Ha) as (v2 & -> & E2). cbn [mbind result_bind].
  destruct (made_makes _ make_hi _ hi_makes Hu) as (v3 & -> & E3). destruct (made_makes _ make_hi _ hi_makes Hh) as (v4 & -> & E4).
  destruct (made_makes _ software_value _ software_makes Hs) as (v5 & -> & E5). cbn [mbind result_bind].
  eexists. split; [done|]. intros r Hr.
  repeat (apply put_if_fine; [first [assumption|apply some_encodable; intros; first [apply du_encodable|apply coded_encodable|apply version_encodable]]|]).
  assert (encodable (last_report_value local_time (last_report h))) by (apply listed_encodable; repeat constructor; apply du_encodable).
  case_match; [apply put_fills; [apply functions_encodable|]|]; by fine_reply.
Qed.
Lemma mop_circuit_fine req q c d : mop_fits c → dict_fine d → reads_fine (mop_read_circuit local_time req q c d).
Proof.
  intros [Hc Hs] Hd. unfold mop_read_circuit. match goal with |- reads_fine (if ?b then _ else _) => destruct b end; [by apply same_reads|].
  destruct (mc_sysid c) as [[heard el]|]; [|by apply same_reads]. cbn in Hs. cbv zeta.
  assert (fills (λ y, put 111 (elapsed_value el) (put 110 (coded 0) y))) as Hfirst.
  { intros y Hy. assert (encodable (elapsed_value el)) by (apply listed_encodable; repeat constructor; apply du_encodable). by fine_reply. }
  assert (Forall heard_fits (if stat req then heard else [])) as Hh by by case_match.
  destruct (if stat req then heard else []) as [|h l].
  - eapply value_reads; [by apply ai_makes|]. intros v Hv. apply add_reads; [done|done|]. intros y Hy. apply Hfirst. by fine_reply.
  - apply Forall_cons in Hh as [Hh Hl]. rewrite Forall_forall in Hl. eapply value_reads; [by apply station_makes|]. intros f Hf.
    match goal with |- reads_fine (each ?g l (add_named ?n ?h d)) => destruct (add_reads n h d Hd) as (d1 & E & H1) end; [done| |].
    { intros y Hy. by apply Hfirst, Hf. }
    injection E as E. rewrite E. apply each_reads; [|done]. intros b e Hb He.
    eapply value_reads; [apply station_makes; [by apply Hl|done]|]. intros g Hg. by apply add_reads.
Qed.
Lemma mop_fine cs req d : Forall mop_fits cs → dict_fine d → reads_fine (mop_nice_read local_time cs req d).
Proof.
  rewrite Forall_forall. intros Hcs Hd. unfold mop_nice_read. do 2 (match goal with |- reads_fine (if ?b then _ else _) => destruct b end; [by apply same_reads|]).
  apply each_reads; [|done]. intros c e Hc He. apply mop_circuit_fine; auto.
Qed.
End MopFine.

(** ** The node *)

(** What a node is called fits where a reply has it: a node's name the seven bits of its
    length, circuits and the node's own texts a byte, as anything heard from a station. *)
Record node_fits (n : node_state) : Prop := {
  nf_me : identity_fine (ns_me n);
  nf_nodes : map_Forall (λ _ i, len (i_name i) ≤ 127) (heap (ns_nodes n));
  nf_routing : from_option routing_fits True (ns_routing n);
  nf_lines : from_option (Forall line_fits) True (ns_lines n);
  nf_mop : from_option (Forall mop_fits) True (ns_mop n);
}.
Definition find_address (s : Nodes) (n : text) : option Z := p ← Node.find_name n s; i_id <$> heap s !! p.
Definition moment_of (n : node_state) : moment :=
  mkMoment (node_layers n) (ns_me n) (find_address (ns_nodes n)) (name_of (ns_nodes n)).

Lemma name_of_entry s i : name_of s i = mkNiceNode i (default [] (i_name <$> entry s i)) false.
Proof. unfold name_of, nicenode, entry. destruct (by_id_ s !! i) as [p|]; [|done]. cbn. by destruct (heap s !! p). Qed.
Lemma name_of_fits s i : map_Forall (λ _ i, len (i_name i) ≤ 127) (heap s) → len (name (name_of s i)) ≤ 127.
Proof.
  intros H. rewrite name_of_entry. cbn. unfold entry. destruct (by_id_ s !! i) as [p|]; [|done]. cbn.
  destruct (heap s !! p) as [info|] eqn:E; [|done]. by apply (H p info).
Qed.
(** The entry that a read of counters leaves has no name: what the layers after NSP make
    of names is the same. *)
Lemma names_after nodes req i : Sound nodes → name_of (nodes_after nodes req) i = name_of nodes i.
Proof.
  intros S. unfold nodes_after. cbv zeta. case_match; [|done]. set (k := ReqEntity.id (entity req)).
  rewrite !name_of_entry. f_equal. unfold counters_for, find_id. destruct (by_id_ nodes !! k) as [p|] eqn:E; [done|].
  set (info := new_info k [] [] []). pose proof (add_entry info nodes i E S) as He.
  assert (by_id_ (add_node info nodes) !! k = Some (brk nodes)) as -> by (rewrite add_fresh by done; apply lookup_insert_eq).
  cbn [snd]. rewrite He. case_bool_decide as Hi; [|done]. cbn in Hi. subst i. unfold entry. by rewrite E.
Qed.

Lemma layers_fine `{WS : WideShift} n : node_fits n → LayersFine (LA := node_layers n).
Proof.
  intros [Hme Hn Hr Hl Hm]. assert (∀ i, len (name (name_of (ns_nodes n) i)) ≤ 127) as Hnames by (intros; by apply name_of_fits).
  split.
  - intros f req d Hf Hd. change (reads_fine (layer f req d)).
    assert (f = None ∨ ∃ g, f = Some g ∧ ∀ req d, dict_fine d → reads_fine (g req d)) as [->|(g & -> & Hg)]; [|by apply same_reads|by apply Hg].
    rewrite !elem_of_cons, elem_of_nil in Hf. destruct Hf as [->|[->|[->|[->|[->|[]]]]]]; cbn.
    + destruct (ns_logger n); [right|by left]. eexists. split; [done|]. intros. by apply same_reads.
    + destruct (ns_nsp n) as [[ns mx]|]; [right|by left]. eexists. split; [done|]. intros. by apply nsp_fine.
    + destruct (ns_routing n) as [rt|]; [right|by left]. eexists. split; [done|]. intros. by apply routing_fine.
    + destruct (ns_lines n) as [ls|]; [right|by left]. eexists. split; [done|]. intros. by apply datalink_fine.
    + destruct (ns_mop n) as [cs|]; [right|by left]. eexists. split; [done|]. intros. by apply mop_fine.
  - intros f r E Hf. cbn in E. destruct (ns_routing n) as [rt|]; [|done]. injection E as <-. by apply nice_counters_fills.
Qed.


(** An area router with two point to point circuits, a named neighbour and the tables of
    [RouterTables]; it is asked for known nodes, its areas and something ill formed. *)
Definition example_own : parent := mkParent (Nodeid.make 1 5) L2ROUTER 4 tiver_ph4 20 4.
Definition example_layer : routing_layer :=
  mkRoutingLayer example_own (Table example_router.2 f1 f1)
    [mkPtp (str_text "MUL-0") (Ptp.new_circuit 10 example_own true 0 0 []) (Some (PtpLine (Multinet.mkCounters 1 2 3 4)));
     mkPtp (str_text "MUL-1") (Ptp.new_circuit 11 example_own true 0 0 []) None] [] (λ _ _, 0) (λ _, 0).
Definition example_state : node_state :=
  mkNodeState (mkIdentity (Nodeid.make 1 5) (str_text "GROK") (str_text "a router") [] 0 0 0 0)
    (add_node (new_info (Nodeid.make 1 8) (str_text "NEXT") [] []) (add_node (new_info (Nodeid.make 1 5) (str_text "GROK") [] []) no_nodes))
    true (Some (Nsp.Nsp [] ∅ ∅ [] ∅ 0 0 [], 20)) (Some example_layer)
    (Some [(str_text "MUL-0", PtpLine (Multinet.mkCounters 1 2 3 4))])
    (Some [mkMopCircuit (str_text "ETH-0") None]) (λ _, 0) 0 (λ _, mkTm 1 0 0 0 0).
Definition no_services : NodeServices := {| open_loop := None |}.
Definition example_requests : list (node_state * event) :=
  [(example_state, NcpData [20; 0; 255]); (example_state, NcpData [20; 21; 255]); (example_state, NcpData [99])].
